(* ===== verification/_CoqProject ===== *)
-Q . S2P
Prelude.v
Float.v
Net.v
Models.v
RateLimiter.v
Sets.v
SetBackend.v
FakeSets.v
Json.v
Nftables.v
NftablesLaws.v
NftSim.v
Validator.v
AllowlistStore.v
Backend.v
NftRules.v
Manager.v
Lifecycle.v
Reachable.v
Enforce.v
Bindings.v
LeaseCheck.v
BindingSync.v
LeaseSync.v
Policy.v
PolicyProps.v
Throttle.v
Templates.v
PortalSessions.v
Hex.v
PortalStore.v
PortalService.v
Flow.v
FlowProps.v
Parser.v
Pcap.v
HostAddrs.v
Features.v
Thresholds.v
Transport.v
Threat.v
Tls.v
PcapProps.v
TlsCache.v
Fallback.v
FallbackProps.v
Inference.v
Runtime.v
Replay.v
D1.v
Behavior.v
BehaviorProps.v
Coordinator.v
PipelineV1.v
Batching.v
KernelPoller.v
PipelineV2.v
Rpc.v
RpcProps.v
RpcClient.v
ControlApi.v
ApiProps.v
PortalWeb.v
Daemon.v
DaemonProps.v
Watch.v
Panel.v
Startup.v
Config.v
Migrate.v
NativeLoop.v
Fixtures.v
Witnesses.v
PipelineRun.v
DaemonRun.v
WatchRun.v
ReplayRun.v
ApiRun.v
StartupRun.v
