(* ===== verification/Prelude.v ===== *)
(** * pirewall: a verification development

    pirewall is an adaptive firewall for a small router.  Packets are captured
    and folded into flows; detectors turn flows, new-connection signals and
    kernel counters into evidence about devices; an engine (the v1 threat
    engine or the v2 policy engine) turns evidence into decisions; a decision
    becomes a candidate rule; a validation chain approves or rejects the
    candidate; and one orchestrator, [FirewallManager], drives approved rules
    through a lifecycle and writes them to the kernel, as nftables rules (v1)
    or as elements of nftables sets (v2).  Beside the rules the same manager
    writes the device bindings (who holds which address) that a lease-sync
    thread reads from dnsmasq's lease file, the allowlist pairs, the captive
    portal's grants and the modes of the static guards.  Two other processes,
    the administrator's API and the portal, reach it over two RPC sockets.
    This development models that system from the frame on the wire to the
    commands sent to nft: what is enforced, on whom, on which evidence, for
    how long, and how it is undone.

    ** Parts, files and sources (under src/pirewall/ unless said otherwise)

    Foundations.
    - [Prelude]: results and exceptions, the state-and-exception monad [M] in
      which every method that changes state or raises is written,
      insertion-ordered dictionaries, Python's stable sort, automation.
    - [Float]: IEEE doubles bit for bit, Python's
      number formatting, the [statistics] module.
    - [Net], [Hex], [Json]: IPv4 addresses and networks, MAC addresses,
      bytes in hexadecimal, MD5, JSON values.
    - [Models]: the data of core/enums.py, core/models/ and the fields of
      config/models.py the firewall reads; Pydantic's validators are
      well-formedness predicates.
    - [Config]: config/models.py and config/loader.py, every section with its
      defaults, constraints and validators, and the views of the tree that
      the components read.
    - [HostAddrs]: firewall/local_addresses.py (the host's own
      addresses, from the kernel) and core/network_drift.py.

    The firewall.
    - [RateLimiter]: firewall/rate_limiter.py, the sliding-window rule cap.
    - [Sets]: core/nft_names.py, firewall/sets.py and firewall/guards.py: which
      sets may be written, with which keys and timeouts; guard commands.
    - [SetBackend]: the protocol of firewall/sets.py as a type class of
      operations with the laws its implementations promise, over an abstract
      [kernel_view] (elements with expiry, guard modes, tables).  Two
      implementations discharge the laws: [FakeSets]
      (firewall/backend/fake_sets.py) and [Nftables] with [NftablesLaws]
      (firewall/backend/nftables_sets.py, over any transport that behaves as
      nft documents and loses patience with no run); [NftSim] is a computed
      nft that does.  [Transport]: firewall/backend/nft_transport.py, the
      transports; a process killed for running out of time may have committed
      its document.
    - [Backend]: firewall/interface.py as a type class, and
      firewall/backend/fake.py; [NftRules]:
      firewall/backend/nftables.py, over any nft binary that behaves as nft
      documents, and what its chain does to packets.
    - [Validator]: firewall/validator.py, every stage of both chains.
    - [AllowlistStore]: firewall/allowlist_store.py.
    - [Manager]: firewall/manager.py, one definition per method of
      [FirewallManager], over the record of its fields and over any set
      backend and any v1 backend.
    - [Lifecycle], [Reachable], [Enforce]: theorems about the manager, against
      the two backend interfaces only: the lifecycle the documents draw and the
      three places where the code departs from it, the managers that any calls
      reach (the rule cap is proved of these), and what a submission enforces.
    - [Bindings], [BindingSync], [LeaseSync]: core/bindings.py (the lease
      parser over code points and the binding table), what the manager's
      binding and allowlist writes do to the kernel, and runtime/lease_sync.py ([seed] and
      [poll]).

    Capture and flows.
    - [Parser]: capture/parser.py.  [Flow], [FlowProps]: flow/key.py,
      state.py, timeout.py, aggregator.py and connection_start.py.
      [Features]: features/.  [Fallback], [FallbackProps]: flow/fallback.py,
      over an interface of the native engine, and flow/native.py, the wrapper
      that implements it over the Rust extension's calls.
    - [Pcap], [PcapProps]: capture/pcapio.py, the pcap and pcapng
      reader as a machine over a byte stream, and the writer.  [Replay]:
      capture/replay.py.

    Detection and decision.
    - [Tls], [TlsCache]: detection/tls_heartbeat.py and tls_fingerprint.py,
      and the cache between the capture and the detection thread.
    - [Behavior], [BehaviorProps]: detection/behavior.py.  [Inference],
      [Coordinator]: what surrounds the trained models (ml/inference/,
      detection/known_attack.py, anomaly.py, coordinator.py).
    - [Thresholds], [D1], [KernelPoller]: detection_v2/.
    - [Threat]: engine/ and firewall/generator.py.  [Policy], [PolicyProps]:
      policy/table.py, the shipped policy/table.toml and policy/engine.py.
    - [Runtime]: ipc/history.py, ipc/state.py,
      runtime/forwarder.py, runtime/metrics.py's counters.
    - [PipelineV1], [Batching]: runtime/pipeline.py and the
      batched scoring of runtime/core.py.  [PipelineV2]:
      runtime/pipeline_v2.py.

    Processes.
    - [Throttle], [PortalSessions], [PortalStore],
      [PortalService]: login throttles, portal sessions and accounts, and
      ipc/portal_service.py.  The account file is JSON text over a codec
      ([Codec]), read back through the model's validation; the laws of the
      portal's backend ([PortalBackendLaws]) hold of the in-memory backend and
      of the v1 nftables backend.
    - [Rpc], [RpcProps], [RpcClient]: ipc/dispatcher.py,
      portal_dispatcher.py, protocol.py, client.py, loopback.py, _framing.py
      and the request handling of server.py.
    - [ControlApi], [ApiProps]: api/ and the page
      routes of web/, every route as the calls it makes to the core over any
      transport, and runs of requests mixed with the polls of open event
      streams.  [Panel]: the pages of web/render.py and web/v2_panel.py.
      [PortalWeb]: portal/app.py, routes.py and render.py.
    - [Templates], [LeaseCheck], [Startup]: render_templates.py,
      lease_check.py and startup.py of src/scripts/deployment/, which load the
      tables, check the host, seed the bindings and set the guards.  [Migrate]:
      migrate_config.py beside them, which edits an older configuration file
      line by line and replaces it.
    - [Daemon], [DaemonProps]: the threads of runtime/core.py
      and capture/pipeline.py as a step relation of their interleavings
      ([SystemStep]), and with them the lease-sync passes, the portal's sweeps
      and requests and the kernel polls ([HostStep]); requests on the
      operator's control socket are no steps of it.
    - [Watch], [NativeLoop]: the watch thread, start-up seeding
      and reconciliation, shutdown, and the native capture loop of
      runtime/core.py.
    - [Fixtures], [Witnesses], [PipelineRun], [DaemonRun], [WatchRun],
      [ReplayRun], [ApiRun], [StartupRun]: concrete deployments
      over the in-memory kernels, the behaviours that depart from the
      documentation, and the theorems with hypotheses applied to the
      deployments.

    ** What the theorems show

    - Enforcement is safe: what a v2 submission puts in the kernel was
      validated, is keyed by the right device, is bounded in time (or was
      there already), and nothing else is touched; approved candidates never hit infrastructure,
      the Admin PC, an address of this host or an allowlisted device, on both
      chains ([Enforce], [Validator], [HostAddrs], [Sets]).
    - The modes mean what they say: in SHADOW a submission calls no backend, and
      the whole daemon, under every interleaving, writes nothing but the
      bindings and the portal's grants; ASSISTED holds strong blocks ([Enforce], [DaemonProps], [PipelineV2]).
    - The lifecycle is sound: in every manager reachable by any sequence of
      method calls, hence after any sequence of RPCs, the audit trail follows
      the documented lifecycle but for three named departures and agrees with
      the rules ([Reachable], by rule induction
      over [mstep] with the invariant [lc] of [Lifecycle]; [RpcProps]).
    - Failure is handled: an escalation is atomic, the kill switch, fail-open
      shutdown and panic always return or leave things as they were, and
      report what they could not do; a panicking native engine makes no call
      raise, as long as frame times are datetimes ([Enforce], [Lifecycle], [Reachable], [FallbackProps]).
    - Decisions rest on the right evidence: no enforcement without new kernel
      or D1 evidence, scores never decide, models alone never enforce
      ([PolicyProps], [PipelineV1], [PipelineV2]); each connection is
      measured once, by measures specified apart from the code, windows count
      exactly what happened while no cap is exceeded, batching changes no
      verdict ([D1], [BehaviorProps], [Batching]).
    - The kernel mirrors the tables it is meant to mirror: bindings after a
      lease-sync pass, portal grants after a reconcile ([LeaseSync],
      [PortalService]); the production backend keeps the contract these
      theorems are proved against ([NftablesLaws]), also while time passes and
      elements expire, and the v1 chain gives each packet the verdict of the
      deployed rules ([NftRules]), for the rules nft can be told of.
    - Bounds hold: rule cap, detector state, queues, throttles, histories
      ([Reachable], [D1], [DaemonProps], [Throttle], [Runtime]).
    - The sockets are confined: the portal's reaches nothing but its grants,
      dangerous operations are audited, a client call is the manager's own
      ([RpcProps], [RpcClient]).
    - The web applications add no way around this: every call of the API was
      authorised when its request was made (a stream outlives its session), the portal acts only for the peer of the connection, no
      text becomes markup, events are streamed once ([ApiProps], [Panel],
      [PortalWeb]).
    - Bring-up is safe: a loaded configuration meets every assumption the
      components make of it, preflight refuses exactly what it guards against,
      templates are rendered whole or not at all, and anti-spoofing enforces
      only over seeded bindings ([Config], [Startup], [Templates]).
    - Untrusted bytes are read within bounds, and completely: frames, TLS
      records, lease files, password hashes, capture files cut anywhere
      ([Parser], [Tls], [Bindings], [PortalStore], [PcapProps]); a replay is
      the capture, whatever the clock does ([Replay]).
    - Files survive: accounts read back from disk are the accounts written
      ([PortalStore]); a migrated configuration keeps every line it does not
      mean to change, and the file is the old one or the new one whenever the
      replacement fails ([Migrate]).

    ** Modelling choices

    Time is an integer number of microseconds, the resolution of Python's
    datetime; element timeouts are whole seconds, as nft takes them.  A method
    is a function from the receiver's state to a result (a value or the
    exception raised) and the state reached, which is kept when an exception
    propagates.  Locks are the atomicity of one step.  Log output is not
    modelled; security events are.  Recursion is structural except where a
    loop consumes its input: over a ClientHello's extensions, a capture
    file's blocks and options, and a template's text.  Each runs on fuel one
    more than the length of what it reads, or as much, and is shown to return
    within it ([Tls], [PcapProps], [Templates]).
    What the kernel does is the laws of [SetBackend]: a batch is applied as a
    whole or not at all, a refused write changes nothing, and no law says that
    a write succeeds.  Over nft this leaves out a run that the transport kills
    after its commit; the contracts of nft itself ([NftContract],
    [NftV1Contract]) have such runs, let time pass between runs, and the
    theorems of [NftablesLaws], [Transport], [NftRules] and [PortalService]
    say what happens then.
    Between lease-sync passes the kernel may drop elements whose timeout ran
    out, so the lease-sync theorem is stated for exact mirroring and for
    holding no binding outside the table, which timeouts preserve.

    Parameters stand for what is not in the sources: the nft transport
    ([NftContract],
    [NftV1Contract]), the native flow engine ([NativeEngine], whose records
    are asked to have times a datetime can hold), scrypt,
    [str.casefold], [repr] and exception texts, the trained models, artifact
    files, SHA-256, the JSON codec (its round trip), random identifiers, the
    clocks and what the operating system answers to a read or a write.

    ** Not modelled

    - Sockets, threads and their start-up, inotify, packet sources, the ring
      to the native engine and the Rust crate itself.
    - HTTP itself (parsing, TLS, FastAPI's dispatch is the composition of a
      route's dependencies and its handler), and the style sheet, scripts and
      help texts of the pages, which are constants.
    - TOML and JSON syntax, and Pydantic's conversion of a single value.
    - ml/training and its scripts, integration/ with Wazuh and Netdata, lab/,
      tests/ and the other scripts, which are not part of the running
      firewall. *)

From stdpp Require Export base tactics sets list strings option numbers pretty gmap sorting.
From Stdlib Require Export ZArith Lia Ascii.

Declare Scope py_scope.
Delimit Scope py_scope with py.
Global Open Scope py_scope.

(** ** Automation *)

Create HintDb pirewall.
#[export] Hint Constants Transparent : pirewall.

(** Split every [if]/[match] on a boolean or option that blocks the goal. *)
Ltac split_ifs :=
  repeat match goal with
  | |- context [if ?b then _ else _] => destruct b eqn:?
  | H : context [if ?b then _ else _] |- _ => destruct b eqn:?
  end.

(** Turn boolean hypotheses into propositions. *)
Ltac bool_prop :=
  repeat match goal with
  | H : _ && _ = true |- _ => apply andb_true_iff in H as [? ?]
  | H : _ || _ = false |- _ => apply orb_false_iff in H as [? ?]
  | H : negb _ = true |- _ => apply negb_true_iff in H
  | H : negb _ = false |- _ => apply negb_false_iff in H
  | H : bool_decide _ = true |- _ => apply bool_decide_eq_true in H
  | H : bool_decide _ = false |- _ => apply bool_decide_eq_false in H
  | H : (_ =? _)%Z = true |- _ => apply Z.eqb_eq in H
  | H : (_ =? _)%Z = false |- _ => apply Z.eqb_neq in H
  | H : (_ <=? _)%Z = true |- _ => apply Z.leb_le in H
  | H : (_ <=? _)%Z = false |- _ => apply Z.leb_gt in H
  | H : (_ <? _)%Z = true |- _ => apply Z.ltb_lt in H
  | H : (_ <? _)%Z = false |- _ => apply Z.ltb_ge in H
  | H : Is_true _ |- _ => apply Is_true_eq_true in H
  end.

(** Open a [Forall] over an explicit list. *)
Ltac open_Forall :=
  repeat match goal with
  | H : Forall _ (_ :: _) |- _ => apply Forall_cons in H as [? H]
  | H : Forall _ [] |- _ => clear H
  end; cbn [fst snd] in *.

(** ** Exceptions and the state-and-exception monad

    A Python method that may raise is a function from the receiver's state to
    a [result] and the new state; the state reached when the exception is
    raised is kept, as it is in Python. *)

Inductive exn : Type :=
| FirewallError (msg : string)
| ConfigurationError (msg : string)
| ValueError (msg : string)
| RpcError (msg : string)
| RpcFault (msg : string)          (** [_RpcError] of ipc/dispatcher.py *)
| PortalParamError (msg : string)  (** [_PortalParamError] of ipc/portal_dispatcher.py *)
| PacketParseError (msg : string)
| UnsupportedProtocolError (msg : string)
| FlowError (msg : string)
| ThreatAssessmentError (msg : string)
| FeatureExtractionError (msg : string)
| ModelInferenceError (msg : string)
| ModelLoadError (msg : string)
| IntegrationError (msg : string)
| OSError (msg : string)
| CaptureError (msg : string)
| PcapFormatError (msg : string)      (** a subclass of [CaptureError] *)
| AuthenticationError (msg : string)
| StructError (msg : string)          (** [struct.error] *)
| OverflowError (msg : string)
| NativeEngineError (msg : string)
| ZeroDivisionError
| PortalLoginError (msg : string)
| HTTPException (status_code : Z) (detail : string) (headers : list (string * string))
| IndexError
| KeyError
| TypeError
| AssertionError.

Inductive result (A : Type) : Type :=
| Ok (a : A)
| Raise (e : exn).
Arguments Ok {A} a.
Arguments Raise {A} e.

Definition M (S A : Type) : Type := S → result A * S.

#[global] Instance m_ret {S} : MRet (M S) := λ A a s, (Ok a, s).
#[global] Instance m_bind {S} : MBind (M S) := λ A B k m s,
  match m s with
  | (Ok a, s') => k a s'
  | (Raise e, s') => (Raise e, s')
  end.
Definition mraise {S A} (e : exn) : M S A := λ s, (Raise e, s).
Definition mget {S} : M S S := λ s, (Ok s, s).
Definition mput {S} (s : S) : M S unit := λ _, (Ok tt, s).
Definition mmodify {S} (f : S → S) : M S unit := λ s, (Ok tt, f s).

(** A pure computation that may raise, run inside the monad. *)
Definition mlift {S A} (r : result A) : M S A := λ s, (r, s).

(** [try: m  except FirewallError as exc: h(str(exc))] *)
Definition try_firewall {S A} (m : M S A) (h : string → M S A) : M S A := λ s,
  match m s with
  | (Raise (FirewallError msg), s') => h msg s'
  | r => r
  end.

(** [with contextlib.suppress(FirewallError): m] *)
Definition suppress_firewall {S} (m : M S unit) : M S unit := try_firewall m (λ _, mret tt).

Definition rbind {A B} (r : result A) (k : A → result B) : result B :=
  match r with Ok a => k a | Raise e => Raise e end.

Fixpoint mfold_unit {S A} (f : A → M S unit) (l : list A) : M S unit :=
  match l with
  | [] => mret tt
  | x :: l' => _ ← f x; mfold_unit f l'
  end.

Fixpoint rforall {A} (f : A → result unit) (l : list A) : result unit :=
  match l with
  | [] => Ok tt
  | x :: l' => rbind (f x) (λ _, rforall f l')
  end.

Lemma rforall_ok {A} (f : A → result unit) l :
  rforall f l = Ok tt ↔ Forall (λ x, f x = Ok tt) l.
Proof.
  induction l as [|x l IH]; simpl; [done|].
  rewrite Forall_cons, <- IH.
  destruct (f x) as [[]|e]; simpl; naive_solver.
Qed.

Lemma m_bind_ok {S A B} (m : M S A) (k : A → M S B) s b s' :
  (m ≫= k) s = (Ok b, s') → ∃ a s1, m s = (Ok a, s1) ∧ k a s1 = (Ok b, s').
Proof. unfold mbind, m_bind. destruct (m s) as [[a|e] s1]; [|done]. by exists a, s1. Qed.
Lemma mlift_ok {S A} (r : result A) (s : S) a s' : mlift r s = (Ok a, s') → r = Ok a ∧ s' = s.
Proof. by intros [= -> ->]. Qed.

(** ** What a computation keeps

    [framed R m]: every run of [m], raising or not, ends in a state [R]
    relates its start to. *)

Section Frame.
Context {S : Type} (R : S → S → Prop) `{!PreOrder R}.

Definition framed {A} (m : M S A) : Prop := ∀ s, R s (m s).2.

Lemma frame_ret {A} (a : A) : framed (mret a).
Proof. intros s. reflexivity. Qed.
Lemma frame_get : framed mget.
Proof. intros s. reflexivity. Qed.
Lemma frame_lift {A} (r : result A) : framed (mlift r).
Proof. intros s. reflexivity. Qed.
Lemma frame_raise {A} e : framed (mraise (A := A) e).
Proof. intros s. reflexivity. Qed.
Lemma frame_modify f : (∀ s, R s (f s)) → framed (mmodify f).
Proof. intros Hf s. apply Hf. Qed.

Lemma frame_bind {A C} (m : M S A) (k : A → M S C) : framed m → (∀ a, framed (k a)) → framed (m ≫= k).
Proof.
  intros Hm Hk s. unfold mbind, m_bind. specialize (Hm s). destruct (m s) as [[a|e] s']; [|exact Hm]. cbn in Hm.
  etransitivity; [exact Hm|apply Hk].
Qed.

Lemma frame_try {A} (m : M S A) (h : string → M S A) : framed m → (∀ msg, framed (h msg)) → framed (try_firewall m h).
Proof.
  intros Hm Hh s. unfold try_firewall. specialize (Hm s). destruct (m s) as [[a|[]] s']; try exact Hm.
  etransitivity; [exact Hm|apply Hh].
Qed.

Lemma frame_fold {A} (f : A → M S unit) l : (∀ a, framed (f a)) → framed (mfold_unit f l).
Proof.
  intros Hf. induction l as [|a l IH]; [apply frame_ret|]. cbn. apply frame_bind; [apply Hf|]. done.
Qed.
End Frame.

(** ** Insertion-ordered dictionaries

    Python's [dict] and [OrderedDict]: an association list in insertion
    order.  [dset] overwrites in place and appends a new key at the end,
    [dmove_to_end] and [dpopitem_first] are the [OrderedDict] methods. *)

Section Dict.
Context {K V : Type} `{EqDecision K}.
Implicit Types (d : list (K * V)) (k : K) (v : V).

Fixpoint dget d k : option V :=
  match d with
  | [] => None
  | (k', v) :: d' => if decide (k' = k) then Some v else dget d' k
  end.

Fixpoint dset d k v : list (K * V) :=
  match d with
  | [] => [(k, v)]
  | (k', v') :: d' => if decide (k' = k) then (k', v) :: d' else (k', v') :: dset d' k v
  end.

Fixpoint dpop d k : list (K * V) :=
  match d with
  | [] => []
  | (k', v') :: d' => if decide (k' = k) then dpop d' k else (k', v') :: dpop d' k
  end.

Definition dmem d k : bool := match dget d k with Some _ => true | None => false end.
Definition dkeys d : list K := d.*1.
Definition dvalues d : list V := d.*2.

(** [d.setdefault(k, v)] *)
Definition dsetdefault d k v : list (K * V) :=
  match dget d k with Some _ => d | None => dset d k v end.

Definition dmove_to_end d k : list (K * V) :=
  match dget d k with
  | Some v => dpop d k ++ [(k, v)]
  | None => d
  end.

Definition dpopitem_first d : list (K * V) := tail d.

(** [d.update(other)] *)
Definition dupdate d (d' : list (K * V)) : list (K * V) :=
  foldl (λ acc p, dset acc p.1 p.2) d d'.

Definition dwf d : Prop := NoDup (dkeys d).

Lemma dget_set_eq d k v : dget (dset d k v) k = Some v.
Proof. induction d as [|[k' v'] d IH]; simpl; repeat case_decide; simpl; try case_decide; naive_solver. Qed.

Lemma dget_set_ne d k k' v : k ≠ k' → dget (dset d k v) k' = dget d k'.
Proof.
  intros Hne. induction d as [|[k0 v0] d IH]; simpl; [by case_decide|].
  case_decide; simpl; case_decide; naive_solver.
Qed.

Lemma dget_set d k k' v :
  dget (dset d k v) k' = if decide (k = k') then Some v else dget d k'.
Proof. case_decide; subst; [apply dget_set_eq | by apply dget_set_ne]. Qed.

Lemma dget_pop d k k' :
  dget (dpop d k) k' = if decide (k = k') then None else dget d k'.
Proof.
  induction d as [|[k0 v0] d IH]; simpl; [by case_decide|].
  repeat (case_decide; simpl); naive_solver.
Qed.

Lemma dget_app d d' k :
  dget (d ++ d') k = match dget d k with Some v => Some v | None => dget d' k end.
Proof. induction d as [|[k0 v0] d IH]; simpl; [done|]. by case_decide. Qed.

Lemma dget_Some_elem d k v : dget d k = Some v → (k, v) ∈ d.
Proof.
  induction d as [|[k0 v0] d IH]; simpl; [done|].
  case_decide; intros Hg; simplify_eq; set_solver.
Qed.

Lemma dget_None d k : dget d k = None ↔ k ∉ dkeys d.
Proof.
  unfold dkeys. induction d as [|[k0 v0] d IH]; simpl; [set_solver|].
  case_decide; set_solver.
Qed.

Lemma dget_is_Some d k : is_Some (dget d k) ↔ k ∈ dkeys d.
Proof.
  rewrite <- not_eq_None_Some, dget_None.
  destruct (decide (k ∈ dkeys d)); naive_solver.
Qed.

Lemma dget_elem d k v : dwf d → (k, v) ∈ d → dget d k = Some v.
Proof.
  unfold dwf, dkeys. induction d as [|[k0 v0] d IH]; simpl; [set_solver|].
  rewrite NoDup_cons. intros [Hnin Hnd] [Heq|Hin]%elem_of_cons; simplify_eq.
  - by rewrite decide_True.
  - case_decide; [|auto]. subst. destruct Hnin.
    apply list_elem_of_fmap. by exists (k, v).
Qed.

Lemma dmem_true d k : dmem d k = true ↔ is_Some (dget d k).
Proof. unfold dmem. destruct (dget d k); split; intros; done. Qed.

Lemma dkeys_set_in d k v : k ∈ dkeys d → dkeys (dset d k v) = dkeys d.
Proof.
  unfold dkeys. induction d as [|[k0 v0] d IH]; simpl; [set_solver|].
  intros Hin. case_decide; simpl; [done|]. f_equal. apply IH. set_solver.
Qed.

Lemma dkeys_set_notin d k v : k ∉ dkeys d → dkeys (dset d k v) = dkeys d ++ [k].
Proof.
  unfold dkeys. induction d as [|[k0 v0] d IH]; simpl; [done|].
  intros Hnin. rewrite decide_False by set_solver. simpl. f_equal. apply IH. set_solver.
Qed.

Lemma dkeys_set d k v :
  dkeys (dset d k v) = if decide (k ∈ dkeys d) then dkeys d else dkeys d ++ [k].
Proof. case_decide; [by apply dkeys_set_in | by apply dkeys_set_notin]. Qed.

Lemma dkeys_pop d k : dkeys (dpop d k) = filter (λ k', k' ≠ k) (dkeys d).
Proof.
  unfold dkeys. induction d as [|[k0 v0] d IH]; [done|]. rewrite fmap_cons, filter_cons.
  cbn [dpop fst]. destruct (decide (k0 = k)) as [->|Hne].
  - by rewrite decide_False by naive_solver.
  - rewrite decide_True by done. rewrite fmap_cons. by rewrite IH.
Qed.

Lemma dwf_nil : dwf [].
Proof. constructor. Qed.

Lemma dwf_set d k v : dwf d → dwf (dset d k v).
Proof.
  unfold dwf. rewrite dkeys_set. case_decide; [done|].
  intros Hnd. apply NoDup_app; repeat split; [done|set_solver|apply NoDup_singleton].
Qed.

Lemma dwf_pop d k : dwf d → dwf (dpop d k).
Proof. unfold dwf. rewrite dkeys_pop. apply NoDup_filter. Qed.

Lemma dwf_tail d : dwf d → dwf (tail d).
Proof. destruct d as [|p d]; [done|]. unfold dwf, dkeys; simpl. by intros [_ ?]%NoDup_cons. Qed.

Lemma dwf_move_to_end d k : dwf d → dwf (dmove_to_end d k).
Proof.
  intros Hwf. unfold dmove_to_end. destruct (dget d k) as [v|]; [|done].
  unfold dwf, dkeys. rewrite fmap_app. simpl. apply NoDup_app. repeat split.
  - by apply dwf_pop.
  - intros k'. change ((dpop d k).*1) with (dkeys (dpop d k)).
    rewrite dkeys_pop, list_elem_of_filter. set_solver.
  - apply NoDup_singleton.
Qed.

Lemma dset_fresh d k v : k ∉ dkeys d → dset d k v = d ++ [(k, v)].
Proof. induction d as [|[k0 v0] d IH]; [done|]. cbn. intros Hk. rewrite decide_False by set_solver. cbn. f_equal. apply IH. set_solver. Qed.

Lemma dget_move_to_end d k k' : dget (dmove_to_end d k) k' = dget d k'.
Proof.
  unfold dmove_to_end. destruct (dget d k) as [v|] eqn:Hk; [|done].
  rewrite dget_app, dget_pop. simpl. repeat case_decide; subst; try done.
  by destruct (dget d k').
Qed.

Lemma dmove_length d k : dwf d → length (dmove_to_end d k) = length d.
Proof.
  intros Hwf. unfold dmove_to_end. destruct (dget d k) as [v|] eqn:Hk; [|done]. rewrite length_app. simpl.
  revert Hwf Hk. induction d as [|[k0 v0] d IH]; [done|]. unfold dwf. cbn. intros Hnd. apply NoDup_cons in Hnd as [Hn Hnd].
  case_decide; [|intros Hk; simpl; rewrite <- (IH Hnd Hk); lia]. intros _. subst k0.
  assert (Hlen : length (dpop d k) = length d); [|lia].
  rewrite <- (length_fmap fst (dpop d k)), <- (length_fmap fst d). fold (dkeys (dpop d k)) (dkeys d).
  rewrite dkeys_pop. f_equal. change (k ∉ dkeys d) in Hn. clear -Hn. induction (dkeys d) as [|x l IHl]; [done|].
  rewrite filter_cons_True by (by intros ->; apply Hn; left). f_equal. apply IHl. by intros ?; apply Hn; right.
Qed.

Lemma dset_length d k v :
  length (dset d k v) = if decide (k ∈ dkeys d) then length d else S (length d).
Proof.
  rewrite <- !(length_fmap fst). change ((dset d k v).*1) with (dkeys (dset d k v)).
  rewrite dkeys_set. unfold dkeys. case_decide; [done|]. rewrite length_app. simpl. lia.
Qed.

Lemma dpop_length_le d k : length (dpop d k) ≤ length d.
Proof. induction d as [|[k0 v0] d IH]; simpl; [lia|]. case_decide; simpl; lia. Qed.

Lemma dget_perm d d' k : dwf d → d ≡ₚ d' → dget d k = dget d' k.
Proof.
  intros Hwf Hp. assert (Hwf' : dwf d') by (unfold dwf, dkeys; by rewrite <- Hp).
  destruct (dget d k) as [v|] eqn:Hk; symmetry.
  - apply dget_elem; [done|]. rewrite <- Hp. by apply dget_Some_elem.
  - apply dget_None. apply dget_None in Hk. unfold dkeys in *. by rewrite <- Hp.
Qed.

Lemma dget_reverse d k : dwf d → dget (reverse d) k = dget d k.
Proof. intros Hwf. symmetry. apply dget_perm; [done|]. by rewrite reverse_Permutation. Qed.

Lemma dget_update d d' k : dwf d' →
  dget (dupdate d d') k = match dget d' k with Some v => Some v | None => dget d k end.
Proof.
  intros Hwf. rewrite <- (dget_reverse d' k Hwf). clear Hwf. unfold dupdate. revert d.
  induction d' as [|[k0 v0] d' IH]; intros d; simpl; [done|].
  rewrite IH, reverse_cons, dget_app, dget_set. simpl. destruct (dget (reverse d') k); [done|]. by case_decide.
Qed.
End Dict.

#[export] Hint Resolve dwf_nil dwf_set dwf_pop dwf_tail dwf_move_to_end : pirewall.

Create Rewrite HintDb dict.
#[export] Hint Rewrite @dget_set_eq @dget_move_to_end : dict.

Notation "d .[ k ]" := (dget d k) (at level 2, left associativity, format "d .[ k ]") : py_scope.
Notation "d .[ k := v ]" := (dset d k v) (at level 2, left associativity, format "d .[ k := v ]") : py_scope.

(** ** Lists *)

(** [sorted(xs, key=...)]: a stable insertion sort by a boolean order. *)
Section Sort.
Context {A : Type} (leb : A → A → bool).

Fixpoint insert_sorted (x : A) (l : list A) : list A :=
  match l with
  | [] => [x]
  | y :: l' => if leb x y then x :: l else y :: insert_sorted x l'
  end.

Definition py_sorted (l : list A) : list A := foldr insert_sorted [] l.

Lemma insert_sorted_perm x l : insert_sorted x l ≡ₚ x :: l.
Proof.
  induction l as [|y l IH]; simpl; [done|].
  destruct (leb x y); [done|]. rewrite IH. constructor.
Qed.

Lemma py_sorted_perm l : py_sorted l ≡ₚ l.
Proof. induction l as [|x l IH]; simpl; [done|]. by rewrite insert_sorted_perm, IH. Qed.

Lemma elem_of_py_sorted x l : x ∈ py_sorted l ↔ x ∈ l.
Proof. by rewrite py_sorted_perm. Qed.

(** On elements the order is total and transitive on, the result is sorted. *)
Lemma py_sorted_sorted (P : A → Prop) l :
  (∀ x y, P x → P y → leb x y = false → leb y x = true) →
  (∀ x y z, P x → P y → P z → leb x y = true → leb y z = true → leb x z = true) →
  Forall P l → StronglySorted (λ x y, leb x y = true) (py_sorted l).
Proof.
  intros Htot Htr. induction l as [|x l IH]; intros HP; [constructor|]. apply Forall_cons in HP as [Hx HP].
  change (py_sorted (x :: l)) with (insert_sorted x (py_sorted l)). specialize (IH HP). assert (HPs : Forall P (py_sorted l)) by by rewrite py_sorted_perm.
  revert HPs IH. generalize (py_sorted l) as q. clear HP l. intros q. induction q as [|y l IH]; intros HP Hs; cbn.
  { repeat constructor. }
  apply Forall_cons in HP as [Hy HP]. apply StronglySorted_inv in Hs as [Hs Hall]. destruct (leb x y) eqn:Hle.
  - constructor; [by constructor|]. constructor; [done|]. rewrite Forall_forall in *. intros z Hz. eapply Htr; eauto.
  - constructor; [by apply IH|]. rewrite insert_sorted_perm. constructor; [by apply Htot|done].
Qed.
End Sort.

(** A dictionary rebuilt from its records, each stored under its own key: the
    shape of every store that is written to a file as a list. *)
Section Rebuild.
Context {K A : Type} `{EqDecision K} (key : A → K) (leb : A → A → bool).

Definition rebuild (l : list A) : list (K * A) := foldl (λ acc e, dset acc (key e) e) [] l.

Lemma foldl_dset_get (l : list A) : ∀ acc i,
  dget (foldl (λ acc e, dset acc (key e) e) acc l) i =
  match dget (reverse ((λ e, (key e, e)) <$> l)) i with
  | Some e => Some e
  | None => dget acc i
  end.
Proof.
  induction l as [|e l IH]; intros acc i; [done|]. cbn [foldl fmap list_fmap].
  rewrite IH, reverse_cons, dget_app, dget_set. cbn [dget].
  destruct (dget (reverse _) i); [done|]. by case_decide.
Qed.

Lemma rebuild_sorted (d : list (K * A)) i :
  dwf d → (∀ j e, dget d j = Some e → key e = j) → dget (rebuild (py_sorted leb (dvalues d))) i = dget d i.
Proof.
  intros Hwf Hid. unfold rebuild. rewrite foldl_dset_get. cbn [dget].
  assert (Hmap : (λ e, (key e, e)) <$> py_sorted leb (dvalues d) ≡ₚ d).
  { rewrite py_sorted_perm. unfold dvalues. rewrite <- list_fmap_compose.
    rewrite <- (list_fmap_id d) at 2. erewrite list_fmap_ext; [reflexivity|].
    intros j [k e] Hj%list_elem_of_lookup_2. simpl. f_equal. apply (Hid k). by apply dget_elem. }
  rewrite (dget_perm _ d); [by destruct (dget d i)| |].
  - unfold dwf, dkeys. by rewrite reverse_Permutation, Hmap.
  - by rewrite reverse_Permutation.
Qed.
End Rebuild.

(** Remove later duplicates: [tuple(dict.fromkeys(xs))]. *)
Fixpoint dedup {A} `{EqDecision A} (l : list A) : list A :=
  match l with
  | [] => []
  | x :: l' => x :: filter (λ y, y ≠ x) (dedup l')
  end.

Lemma elem_of_dedup {A} `{EqDecision A} (l : list A) x : x ∈ dedup l ↔ x ∈ l.
Proof.
  induction l as [|y l IH]; simpl; [done|].
  rewrite !elem_of_cons, list_elem_of_filter, IH.
  destruct (decide (x = y)); naive_solver.
Qed.

Lemma NoDup_dedup {A} `{EqDecision A} (l : list A) : NoDup (dedup l).
Proof.
  induction l as [|y l IH]; simpl; constructor.
  - rewrite list_elem_of_filter. naive_solver.
  - by apply NoDup_filter.
Qed.

Lemma filter_all {A} (P : A → Prop) `{!∀ x, Decision (P x)} (l : list A) :
  (∀ x, x ∈ l → P x) → filter P l = l.
Proof.
  induction l as [|x l IH]; intros HP; [done|].
  rewrite filter_cons, decide_True by (apply HP; set_solver). rewrite IH; [done|]. set_solver.
Qed.

Lemma filter_none {A} (P : A → Prop) `{!∀ x, Decision (P x)} (l : list A) :
  (∀ x, x ∈ l → ¬ P x) → filter P l = [].
Proof.
  induction l as [|x l IH]; intros HP; [done|].
  rewrite filter_cons, decide_False by (apply HP; set_solver). apply IH. set_solver.
Qed.

Lemma list_filter_iff_in {A} (P Q : A → Prop) `{!∀ x, Decision (P x), !∀ x, Decision (Q x)} (l : list A) :
  (∀ x, x ∈ l → P x ↔ Q x) → filter P l = filter Q l.
Proof.
  induction l as [|x l IH]; intros HPQ; [done|]. rewrite !filter_cons, IH by set_solver.
  assert (P x ↔ Q x) by (apply HPQ; set_solver). repeat case_decide; tauto.
Qed.

Lemma filter_split {A} (f : A → bool) (l : list A) :
  (length (filter (λ x, f x = true) l) + length (filter (λ x, f x = false) l) = length l)%nat.
Proof.
  induction l as [|x l IH]; [done|]. rewrite !filter_cons. destruct (f x) eqn:Hx;
    [rewrite decide_True, decide_False by done|rewrite decide_False, decide_True by done]; cbn; lia.
Qed.

(** A list whose elements are all equal has at most one distinct element. *)
Lemma same_dedup_length `{EqDecision A} (l : list A) (x : A) : (∀ y, y ∈ l → y = x) → (length (dedup l) ≤ 1)%nat.
Proof.
  intros Hall. assert (Hsub : dedup l ⊆+ [x]).
  { apply NoDup_submseteq; [apply NoDup_dedup|]. intros y Hy. rewrite elem_of_dedup in Hy. rewrite (Hall y Hy). set_solver. }
  apply submseteq_length in Hsub. done.
Qed.

Lemma filter_length_mono {A} (P Q : A → Prop) `{!∀ x, Decision (P x), !∀ x, Decision (Q x)} (l : list A) :
  (∀ x, x ∈ l → P x → Q x) → length (filter P l) ≤ length (filter Q l).
Proof.
  induction l as [|x l IH]; intros HPQ; [done|].
  rewrite !filter_cons. assert (length (filter P l) ≤ length (filter Q l)) by (apply IH; set_solver).
  repeat case_decide; simpl; try lia. exfalso. naive_solver set_solver.
Qed.

(** [min(xs, key=...)]: the first of the least elements, if there is one. *)
Section MinBy.
Context {A : Type} (key : A → Z).

Fixpoint min_from (best : A) (l : list A) : A :=
  match l with
  | [] => best
  | x :: l' => min_from (if (key x <? key best)%Z then x else best) l'
  end.

Definition py_min (l : list A) : option A :=
  match l with [] => None | x :: l' => Some (min_from x l') end.

Lemma min_from_elem best l : min_from best l = best ∨ min_from best l ∈ l.
Proof.
  revert best. induction l as [|x l IH]; intros best; simpl; [by left|].
  destruct (IH (if (key x <? key best)%Z then x else best)) as [->|]; [|set_solver].
  case_match; set_solver.
Qed.

Lemma min_from_le best l : (key (min_from best l) ≤ key best)%Z ∧ ∀ x, x ∈ l → (key (min_from best l) ≤ key x)%Z.
Proof.
  revert best. induction l as [|x l IH]; intros best; simpl; [split; [lia|set_solver]|].
  destruct (IH (if (key x <? key best)%Z then x else best)) as [Hb Hl].
  destruct (key x <? key best)%Z eqn:Hx; bool_prop; (split; [lia|]);
    intros y [->|Hy]%elem_of_cons; [lia|by apply Hl|lia|by apply Hl].
Qed.

Lemma py_min_spec l x : py_min l = Some x → x ∈ l ∧ ∀ y, y ∈ l → (key x ≤ key y)%Z.
Proof.
  destruct l as [|z l]; simpl; [done|]. intros [= <-].
  destruct (min_from_le z l) as [Hz Hl]. split.
  - destruct (min_from_elem z l) as [->|]; set_solver.
  - intros y [->|Hy]%elem_of_cons; auto.
Qed.
End MinBy.

(** [x in xs] as a boolean. *)
Definition inb {A} `{EqDecision A} (x : A) (l : list A) : bool := bool_decide (x ∈ l).

Lemma inb_true {A} `{EqDecision A} (x : A) l : inb x l = true ↔ x ∈ l.
Proof. apply bool_decide_eq_true. Qed.

Lemma inb_false {A} `{EqDecision A} (x : A) l : inb x l = false ↔ x ∉ l.
Proof. apply bool_decide_eq_false. Qed.

(** First result of a list of delayed checks: the shape of both validator
    chains and of every [for ... if ...: return ...] loop. *)
Fixpoint first_some {A B} (f : A → option B) (l : list A) : option B :=
  match l with
  | [] => None
  | x :: l' => match f x with Some b => Some b | None => first_some f l' end
  end.

Lemma first_some_None {A B} (f : A → option B) l :
  first_some f l = None ↔ Forall (λ x, f x = None) l.
Proof.
  induction l as [|x l IH]; simpl; [done|].
  rewrite Forall_cons, <- IH. destruct (f x); naive_solver.
Qed.

(** ** Time

    A [datetime] is a number of microseconds since the epoch and a
    [timedelta] a number of microseconds, which is how CPython stores them. *)

Definition us_per_second : Z := 1000000.
Definition seconds (s : Z) : Z := s * us_per_second.
(** [datetime.min] and [datetime.max] *)
Definition datetime_min : Z := -62135596800 * 1000000.
Definition datetime_max : Z := 253402300799 * 1000000 + 999999.
Definition is_datetime (t : Z) : Prop := (datetime_min ≤ t ≤ datetime_max)%Z.

(** [int(td.total_seconds())]: truncation towards zero.  Exact for the spans
    below 2^32 seconds that the program forms (the double quotient never
    rounds up to the next whole second there). *)
Definition whole_seconds (td : Z) : Z := Z.quot td us_per_second.

(** ** Strings *)

Fixpoint string_to_list (s : string) : list ascii :=
  match s with
  | EmptyString => []
  | String c s' => c :: string_to_list s'
  end.

Fixpoint string_of_list (l : list ascii) : string :=
  match l with
  | [] => EmptyString
  | c :: l' => String c (string_of_list l')
  end.

Lemma string_to_of_list l : string_to_list (string_of_list l) = l.
Proof. induction l; simpl; congruence. Qed.
Lemma string_of_to_list s : string_of_list (string_to_list s) = s.
Proof. induction s as [|c s IH]; simpl; congruence. Qed.
Lemma string_to_list_app s s' : string_to_list (s +:+ s') = string_to_list s ++ string_to_list s'.
Proof. induction s as [|c s IH]; simpl; [done|]. by rewrite IH. Qed.

(** [s.split(c)] on a one-character separator. *)
Fixpoint split_on (c : ascii) (l : list ascii) : list (list ascii) :=
  match l with
  | [] => [[]]
  | x :: l' =>
      if decide (x = c) then [] :: split_on c l'
      else match split_on c l' with
           | [] => [[x]]
           | w :: ws => (x :: w) :: ws
           end
  end.

Lemma split_on_no_sep c l : c ∉ l → split_on c l = [l].
Proof.
  induction l as [|x l IH]; simpl; [done|]. intros Hnin.
  rewrite decide_False by set_solver. rewrite IH by set_solver. done.
Qed.

Lemma split_on_app c w l : c ∉ w → split_on c (w ++ c :: l) = w :: split_on c l.
Proof.
  induction w as [|x w IH]; simpl; intros Hnin; [by rewrite decide_True|].
  rewrite decide_False by set_solver. by rewrite IH by set_solver.
Qed.
