(* ===== verification/Float.v ===== *)
(** * Python floats

    A Python [float] is an IEEE-754 double.  The Standard Library's
    [SpecFloat] gives the format and its correctly rounded operations as
    plain definitions, so the model computes bit for bit what CPython
    computes, and comparisons with NaN are [false] as they are in Python. *)

From S2P Require Import Prelude.
From Stdlib Require Export SpecFloat.
Local Open Scope Z_scope.

Definition float : Type := spec_float.

Definition fadd : float → float → float := SFadd 53 1024.
Definition fsub : float → float → float := SFsub 53 1024.
Definition fmul : float → float → float := SFmul 53 1024.
Definition fdiv : float → float → float := SFdiv 53 1024.

Definition flt (x y : float) : bool := SFltb x y.
Definition fle (x y : float) : bool := SFleb x y.

(** [min(a, b)] and [max(a, b)]: Python keeps the first argument unless the
    second compares strictly. *)
Definition fmin (a b : float) : float := if flt b a then b else a.
Definition fmax (a b : float) : float := if flt a b then b else a.

(** A float literal that is a small integer. *)
Definition float_of_Z (n : Z) : float := binary_normalize 53 1024 n 0 false.

(** [round(x)]: to the nearest integer, ties to even.  Python raises on
    infinities and NaN; the model gives 0 there, and the callers only round
    values a field constraint keeps finite. *)
Definition fround (x : float) : Z :=
  match x with
  | S754_finite s m e =>
      let n :=
        if 0 <=? e then Z.pos m * 2 ^ e
        else
          let d := 2 ^ (- e) in
          let q := Z.pos m / d in
          let r := Z.pos m mod d in
          if 2 * r <? d then q
          else if d <? 2 * r then q + 1
          else if Z.even q then q else q + 1 in
      if s then - n else n
  | _ => 0
  end.

(** [math.floor] and [math.ceil] of a finite float. *)
Definition ffloor (x : float) : Z :=
  match x with
  | S754_finite s m e =>
      let n := if s then - Z.pos m else Z.pos m in
      if 0 <=? e then n * 2 ^ e else n / 2 ^ (- e)
  | _ => 0
  end.
Definition fceil (x : float) : Z := - ffloor (SFopp x).

(** [int(x)] of a finite float: truncation towards zero. *)
Definition ftrunc (x : float) : Z := if flt x (float_of_Z 0) then fceil x else ffloor x.

Definition is_nan (x : float) : bool := match x with S754_nan => true | _ => false end.

#[global] Instance float_eq_dec : EqDecision float.
Proof. solve_decision. Defined.

Example fround_half_even :
  fround (fdiv (float_of_Z 5) (float_of_Z 2)) = 2 ∧ fround (fdiv (float_of_Z 7) (float_of_Z 2)) = 4 ∧
  fround (fsub (float_of_Z 100) (fdiv (float_of_Z 1) (float_of_Z 10))) = 100.
Proof. vm_compute. done. Qed.

Example ffloor_fceil :
  ffloor (fdiv (float_of_Z 7) (float_of_Z 2)) = 3 ∧ fceil (fdiv (float_of_Z 7) (float_of_Z 2)) = 4 ∧
  ffloor (fdiv (float_of_Z (-7)) (float_of_Z 2)) = -4 ∧ fceil (float_of_Z 5) = 5.
Proof. vm_compute. done. Qed.

(** ** Comparisons *)

Lemma fcompare_swap x y : SFcompare y x = CompOpp <$> SFcompare x y.
Proof.
  destruct x as [[]|[]| |[] m1 e1], y as [[]|[]| |[] m2 e2]; try done; cbn [SFcompare fmap option_fmap option_map];
    rewrite (Z.compare_antisym e1 e2); change (Pos.compare_cont Eq) with Pos.compare; rewrite (Pos.compare_antisym m1 m2);
    destruct (e1 ?= e2), (m1 ?= m2)%positive; done.
Qed.

Lemma fcompare_total x y : is_nan x = false → is_nan y = false → is_Some (SFcompare x y).
Proof. destruct x as [[]|[]| |[] m1 e1], y as [[]|[]| |[] m2 e2]; try done; intros _ _; eexists; reflexivity. Qed.

(** Off NaN, [not x < y] is [y <= x]. *)
Lemma flt_false x y : is_nan x = false → is_nan y = false → flt x y = false → fle y x = true.
Proof.
  intros Hx Hy. destruct (fcompare_total x y Hx Hy) as [c Hc]. unfold flt, fle, SFltb, SFleb. rewrite (fcompare_swap x y), Hc.
  by destruct c.
Qed.

Lemma fle_not_flt x y : fle x y = true → flt y x = false.
Proof.
  unfold flt, fle, SFltb, SFleb. rewrite (fcompare_swap x y). destruct (SFcompare x y) as [[]|]; done.
Qed.

Lemma fle_not_nan x y : fle x y = true → is_nan x = false ∧ is_nan y = false.
Proof. unfold fle, SFleb. destruct x as [[]|[]| |[] m1 e1], y as [[]|[]| |[] m2 e2]; try done. Qed.

Lemma flt_not_nan x y : flt x y = true → is_nan x = false ∧ is_nan y = false.
Proof. unfold flt, SFltb. destruct x as [[]|[]| |[] m1 e1], y as [[]|[]| |[] m2 e2]; try done. Qed.

Lemma fle_refl x : is_nan x = false → fle x x = true.
Proof.
  destruct x as [[]|[]| |[] m e]; try done; intros _; unfold fle, SFleb; cbn [SFcompare]; rewrite Z.compare_refl;
    replace (Pos.compare_cont Eq m m) with Eq; try done; symmetry; apply Pos.compare_refl.
Qed.

(** [min(max(x, lo), hi)] stays between its bounds, unless it is NaN. *)
Lemma fclamp_bounds x lo hi : fle lo hi = true →
  let v := fmin (fmax x lo) hi in is_nan x = true ∧ is_nan v = true ∨ fle lo v = true ∧ fle v hi = true.
Proof.
  intros Hle v. destruct (fle_not_nan _ _ Hle) as [Hlo Hhi]. unfold v, fmin, fmax. clear v.
  destruct (flt x lo) eqn:Hx; [rewrite (fle_not_flt _ _ Hle); right; split; [by apply fle_refl|done]|].
  destruct (flt hi x) eqn:Hh; [right; split; [done|by apply fle_refl]|].
  destruct (is_nan x) eqn:Hn; [left; done|right]. split; by apply flt_false.
Qed.

Lemma fle_trans x y z : fle x y = true → fle y z = true → fle x z = true.
Proof.
  unfold fle, SFleb.
  destruct x as [[]|[]| |[] m1 e1], y as [[]|[]| |[] m2 e2], z as [[]|[]| |[] m3 e3]; try done; cbn [SFcompare];
    change (Pos.compare_cont Eq) with Pos.compare;
    destruct (Z.compare_spec e1 e2), (Z.compare_spec e2 e3), (Z.compare_spec e1 e3); try done; try lia; subst;
    destruct (Pos.compare_spec m1 m2), (Pos.compare_spec m2 m3), (Pos.compare_spec m1 m3); try done; try lia.
Qed.

Lemma flt_fle x y : flt x y = true → fle x y = true.
Proof. unfold flt, fle, SFltb, SFleb. by destruct (SFcompare x y) as [[]|]. Qed.

Lemma fle_flt_trans x y z : fle x y = true → flt y z = true → flt x z = true.
Proof.
  intros Hxy Hyz. destruct (fle_not_nan _ _ Hxy) as [Hx Hy]. destruct (flt_not_nan _ _ Hyz) as [_ Hz].
  destruct (flt x z) eqn:Hxz; [done|]. exfalso. apply flt_false in Hxz; [|done..].
  pose proof (fle_trans _ _ _ Hxz Hxy) as Hzy. apply fle_not_flt in Hzy. congruence.
Qed.

Lemma flt_fle_trans x y z : flt x y = true → fle y z = true → flt x z = true.
Proof.
  intros Hxy Hyz. destruct (flt_not_nan _ _ Hxy) as [Hx Hy]. destruct (fle_not_nan _ _ Hyz) as [_ Hz].
  destruct (flt x z) eqn:Hxz; [done|]. exfalso. apply flt_false in Hxz; [|done..].
  pose proof (fle_trans _ _ _ Hyz Hxz) as Hyx. apply fle_not_flt in Hyx. congruence.
Qed.

(** * Numbers as text

    The parts of Python's number formatting the program uses in the reasons
    and descriptions it writes, [sum] over floats, and the text of a UTC
    datetime: [f"{x:.2f}"], [f"{x:g}"], [f"{x:.0%}"], [sum(xs)] and
    [dt.isoformat()].  CPython formats a double from its exact value, rounded
    half to even at the last digit, and so do these. *)

From stdpp Require Import pretty.
Local Open Scope Z_scope.

(** ** Digits *)

(** [n] zero padded to [k] digits. *)
Definition zfill (k : nat) (n : Z) : string :=
  let s := pretty n in string_of_list (replicate (k - String.length s) "0"%char) +:+ s.

(** The digits without the zeros at the end. *)
Definition rstrip_zeros (s : string) : string :=
  let fix drop_zeros (l : list ascii) : list ascii :=
    match l with "0"%char :: l' => drop_zeros l' | _ => l end in
  string_of_list (reverse (drop_zeros (reverse (string_to_list s)))).

(** [num / den] to the nearest integer, ties to even. *)
Definition round_ratio (num den : Z) : Z :=
  let q := num / den in
  let r := num mod den in
  if 2 * r <? den then q else if den <? 2 * r then q + 1 else if Z.even q then q else q + 1.

(** [m * 2^e * 10^k] to the nearest integer, ties to even. *)
Definition scaled (m e k : Z) : Z := round_ratio (m * 2 ^ Z.max 0 e * 10 ^ Z.max 0 k) (2 ^ Z.max 0 (- e) * 10 ^ Z.max 0 (- k)).

Definition minus (s : bool) : string := if s then "-" else "".

(** ** Fixed notation: [f"{x:.kf}"] *)

Definition fixed_digits (k : nat) (n : Z) : string :=
  let d := 10 ^ Z.of_nat k in
  pretty (n / d) +:+ (match k with O => "" | _ => "." +:+ zfill k (n mod d) end).

Definition fixed (k : nat) (x : float) : string :=
  match x with
  | S754_nan => "nan"
  | S754_infinity s => minus s +:+ "inf"
  | S754_zero s => minus s +:+ fixed_digits k 0
  | S754_finite s m e => minus s +:+ fixed_digits k (scaled (Z.pos m) e (Z.of_nat k))
  end.

Definition fmt_0f : float → string := fixed 0.
Definition fmt_2f : float → string := fixed 2.
Definition fmt_3f : float → string := fixed 3.

(** [f"{x:.0%}"] *)
Definition percent (x : float) : string := fixed 0 (fmul x (float_of_Z 100)) +:+ "%".

(** ** General notation: [f"{x:g}"], six significant digits *)

(** The decimal exponent of [m * 2^e]: the binary one gives it up to one. *)
Definition decimal_exponent (m e : Z) : Z :=
  let guess := ((Z.log2 m + e) * 30103) / 100000 in
  let at_least k := 2 ^ Z.max 0 (- e) * 10 ^ Z.max 0 k <=? m * 2 ^ Z.max 0 e * 10 ^ Z.max 0 (- k) in
  if at_least (guess + 1) then guess + 1 else if at_least guess then guess else guess - 1.

(** Six significant digits and the exponent of the first. *)
Definition significant (m e : Z) : Z * Z :=
  let k := decimal_exponent m e in
  let n := scaled m e (5 - k) in
  if n =? 10 ^ 6 then (10 ^ 5, k + 1) else (n, k).

Definition with_point (whole frac : string) : string := if String.eqb frac "" then whole else whole +:+ "." +:+ frac.

Definition exponent_text (k : Z) : string := "e" +:+ (if k <? 0 then "-" else "+") +:+ zfill 2 (Z.abs k).

Definition fmt_g (x : float) : string :=
  match x with
  | S754_nan => "nan"
  | S754_infinity s => minus s +:+ "inf"
  | S754_zero s => minus s +:+ "0"
  | S754_finite s m e =>
      let '(n, k) := significant (Z.pos m) e in
      let digits := pretty n in
      minus s +:+
      (if (-4 <=? k) && (k <? 6) then
         if 0 <=? k then
           let whole := Z.to_nat (k + 1) in
           with_point (String.substring 0 whole digits) (rstrip_zeros (String.substring whole 6 digits))
         else "0." +:+ string_of_list (replicate (Z.to_nat (- k - 1)) "0"%char) +:+ rstrip_zeros digits
       else with_point (String.substring 0 1 digits) (rstrip_zeros (String.substring 1 5 digits)) +:+ exponent_text k)
  end.

(** ** [sum] of floats *)

(** CPython keeps the rounding error of each addition and adds it at the
    end. *)
Definition sum_step (acc : float * float) (x : float) : float * float :=
  let '(hi, lo) := acc in
  let t := fadd hi x in
  let err := if fle (SFabs x) (SFabs hi) then fadd (fsub hi t) x else fadd (fsub x t) hi in
  (t, fadd lo err).

Definition is_finite (x : float) : bool := match x with S754_zero _ | S754_finite _ _ _ => true | _ => false end.
Definition is_zero (x : float) : bool := match x with S754_zero _ => true | _ => false end.

Definition py_sum (xs : list float) : float :=
  match xs with
  | [] => float_of_Z 0
  | x :: xs' =>
      let '(hi, lo) := foldl sum_step (fadd (float_of_Z 0) x, float_of_Z 0) xs' in
      if negb (is_zero lo) && is_finite lo then fadd hi lo else hi
  end.

(** ** [dt.isoformat()] of a UTC datetime *)

(** The proleptic Gregorian date of a day number, 0 being 1970-01-01. *)
Definition civil_of_days (d : Z) : Z * Z * Z :=
  let z := d + 719468 in
  let era := z / 146097 in
  let doe := z mod 146097 in
  let yoe := (doe - doe / 1460 + doe / 36524 - doe / 146096) / 365 in
  let doy := doe - (365 * yoe + yoe / 4 - yoe / 100) in
  let mp := (5 * doy + 2) / 153 in
  let day := doy - (153 * mp + 2) / 5 + 1 in
  let month := if mp <? 10 then mp + 3 else mp - 9 in
  (yoe + era * 400 + (if month <=? 2 then 1 else 0), month, day).

Definition isoformat (t : Z) : string :=
  let s := t / us_per_second in
  let us := t mod us_per_second in
  let '(year, month, day) := civil_of_days (s / 86400) in
  let sod := s mod 86400 in
  zfill 4 year +:+ "-" +:+ zfill 2 month +:+ "-" +:+ zfill 2 day +:+ "T" +:+
  zfill 2 (sod / 3600) +:+ ":" +:+ zfill 2 (sod / 60 mod 60) +:+ ":" +:+ zfill 2 (sod mod 60) +:+
  (if us =? 0 then "" else "." +:+ zfill 6 us) +:+ "+00:00".

(** ** [repr] of an ASCII string *)

Definition hex2 (n : Z) : string :=
  let digit d := if d <? 10 then ascii_of_nat (48 + Z.to_nat d) else ascii_of_nat (87 + Z.to_nat d) in
  string_of_list [digit (n / 16); digit (n mod 16)].

Definition repr_char (quote : ascii) (c : ascii) : string :=
  let n := Z.of_nat (nat_of_ascii c) in
  if bool_decide (c = quote) || (n =? 92) then string_of_list ["\"%char; c]
  else if n =? 9 then "\t" else if n =? 10 then "\n" else if n =? 13 then "\r"
  else if (n <? 32) || (n =? 127) then "\x" +:+ hex2 n
  else String c "".

Definition py_repr (s : string) : string :=
  let l := string_to_list s in
  let dq := ascii_of_nat 34 in
  let quote := if inb "'"%char l && negb (inb dq l) then dq else "'"%char in
  String quote (String.concat "" (repr_char quote <$> l)) +:+ String quote "".

(** * Python's [statistics] and [timedelta] of a float

    [math.fsum], [statistics.fmean] and [statistics.pstdev] work on the exact
    values of the doubles and round once, so they are defined here on exact
    fractions; [timedelta(seconds=x)] keeps the whole seconds apart from the
    fraction it rounds to microseconds. *)

Local Open Scope Z_scope.

(** [timedelta(seconds=x)] of a finite float, in microseconds. *)
Definition timedelta_of_seconds (x : float) : Z :=
  let whole := ftrunc x in
  seconds whole + fround (fmul (float_of_Z us_per_second) (fsub x (float_of_Z whole))).

(** The exponent all of [xs] can be written with, and their mantissas there;
    a double that is not finite has none. *)
Definition exponent_of (x : float) : option Z := match x with S754_finite _ _ e => Some e | _ => None end.
Definition common_exponent (xs : list float) : Z := foldr Z.min 0 (omap exponent_of xs).
Definition mantissa_at (e : Z) (x : float) : Z :=
  match x with
  | S754_finite s m ex => (if s then Z.neg m else Z.pos m) * 2 ^ (ex - e)
  | _ => 0
  end.
Definition mantissas (xs : list float) : list Z := mantissa_at (common_exponent xs) <$> xs.

Definition zsum (l : list Z) : Z := foldr Z.add 0 l.

(** [n * 2^e], correctly rounded. *)
Definition of_scaled (n e : Z) : float := binary_normalize 53 1024 n e false.

(** [math.fsum] *)
Definition fsum (xs : list float) : float := of_scaled (zsum (mantissas xs)) (common_exponent xs).

(** [statistics.fmean] *)
Definition fmean (xs : list float) : float := fdiv (fsum xs) (float_of_Z (Z.of_nat (length xs))).

Definition bit_length (n : Z) : Z := if n =? 0 then 0 else Z.log2 n + 1.

(** The square root of [n/m] rounded to odd. *)
Definition sqrt_rto (n m : Z) : Z := let a := Z.sqrt (n / m) in Z.lor a (if a * a * m =? n then 0 else 1).

(** [_float_sqrt_of_frac(n, m)] *)
Definition sqrt_of_frac (n m : Z) : float :=
  let q := (bit_length n - bit_length m - 109) / 2 in
  if 0 <=? q then of_scaled (sqrt_rto n (Z.shiftl m (2 * q))) q else of_scaled (sqrt_rto (Z.shiftl n (-2 * q)) m) q.

(** [statistics.pstdev]: the mean square distance from the mean, as an exact
    fraction, and its square root. *)
Definition pstdev (xs : list float) : float :=
  let n := Z.of_nat (length xs) in
  let e := common_exponent xs in
  let ms := mantissas xs in
  let a := zsum ms in
  let s := zsum ((λ m, m * m) <$> ms) in
  let num := (n * s - a * a) * 2 ^ Z.max 0 (2 * e) in
  let den := n * n * 2 ^ Z.max 0 (-2 * e) in
  let g := Z.gcd num den in
  sqrt_of_frac (num / g) (den / g).
