(* ===== verification/Net.v ===== *)
(** * Addresses

    IPv4 addresses and networks as [ipaddress] has them (an address is its
    32-bit value, a network its base address and prefix length), their dotted
    text, and the MAC normalisation of [pirewall/core/models/common.py].
    The dotted text is what the kernel set keys carry, so the print/parse
    round trip below is what makes a key name one address. *)

From S2P Require Import Prelude.
Local Open Scope Z_scope.

Module IPv4.
Definition t : Type := Z.
Definition valid (a : t) : Prop := 0 ≤ a < 2 ^ 32.

Record network : Type := mk_network { net_addr : t; prefixlen : Z }.

#[global] Instance network_eq_dec : EqDecision network.
Proof. solve_decision. Defined.

(** The host mask of a prefix: [32 - prefixlen] low bits. *)
Definition hostmask (p : Z) : Z := Z.ones (32 - p).
Definition netmask (p : Z) : Z := Z.lxor (Z.ones 32) (hostmask p).

Definition broadcast (n : network) : t := Z.lor (net_addr n) (hostmask (prefixlen n)).

(** [IPv4Network] refuses host bits set and prefixes outside 0..32. *)
Definition wf (n : network) : Prop :=
  valid (net_addr n) ∧ 0 ≤ prefixlen n ≤ 32 ∧ Z.land (net_addr n) (hostmask (prefixlen n)) = 0.

(** [IPv4Network(f"{ip}/32")] *)
Definition host (a : t) : network := mk_network a 32.

(** [address in network] *)
Definition contains (n : network) (a : t) : bool :=
  Z.land a (netmask (prefixlen n)) =? net_addr n.

Definition overlaps (a b : network) : bool :=
  contains b (net_addr a) || (contains b (broadcast a) ||
  (contains a (net_addr b) || contains a (broadcast b))).

Definition subnet_of (a b : network) : bool :=
  (net_addr b <=? net_addr a) && (broadcast a <=? broadcast b).
Definition supernet_of (a b : network) : bool := subnet_of b a.

Definition a_b_c_d (a b c d : Z) : t := ((a * 256 + b) * 256 + c) * 256 + d.

Definition is_unspecified (a : t) : bool := a =? 0.
Definition is_loopback (a : t) : bool := contains (mk_network (a_b_c_d 127 0 0 0) 8) a.
Definition is_multicast (a : t) : bool := contains (mk_network (a_b_c_d 224 0 0 0) 4) a.
Definition is_link_local (a : t) : bool := contains (mk_network (a_b_c_d 169 254 0 0) 16) a.
Definition is_reserved (a : t) : bool := contains (mk_network (a_b_c_d 240 0 0 0) 4) a.

Definition whole_internet : network := mk_network 0 0.

(** ** Dotted text *)

Definition octets (a : t) : list Z :=
  [Z.shiftr a 24; Z.land (Z.shiftr a 16) 255; Z.land (Z.shiftr a 8) 255; Z.land a 255].

Definition digit_of (n : Z) : ascii := ascii_of_nat (48 + Z.to_nat n).
Definition dec3 (n : Z) : list ascii :=
  if n <? 10 then [digit_of n]
  else if n <? 100 then [digit_of (n / 10); digit_of (n mod 10)]
  else [digit_of (n / 100); digit_of ((n / 10) mod 10); digit_of (n mod 10)].

(** [str(IPv4Address)] *)
Definition to_chars (a : t) : list ascii :=
  match octets a with
  | [o0; o1; o2; o3] =>
      dec3 o0 ++ "."%char :: dec3 o1 ++ "."%char :: dec3 o2 ++ "."%char :: dec3 o3
  | _ => []
  end.
Definition to_string (a : t) : string := string_of_list (to_chars a).

Definition is_digit (c : ascii) : bool :=
  (48 <=? Z.of_nat (nat_of_ascii c)) && (Z.of_nat (nat_of_ascii c) <=? 57).
Definition digit_val (c : ascii) : Z := Z.of_nat (nat_of_ascii c) - 48.

Fixpoint dec_val (acc : Z) (l : list ascii) : Z :=
  match l with
  | [] => acc
  | c :: l' => dec_val (acc * 10 + digit_val c) l'
  end.

(** [ipaddress._BaseV4._parse_octet] *)
Definition parse_octet (w : list ascii) : option Z :=
  match w with
  | [] => None
  | c :: w' =>
      if negb (forallb is_digit w) then None
      else if (3 <? Z.of_nat (length w)) then None
      else if bool_decide (c = "0"%char) && negb (bool_decide (w' = [])) then None
      else let v := dec_val 0 w in if 255 <? v then None else Some v
  end.

(** [IPv4Address(text)], [None] where the constructor raises [ValueError]. *)
Definition parse_chars (l : list ascii) : option t :=
  match split_on "."%char l with
  | [w0; w1; w2; w3] =>
      o0 ← parse_octet w0; o1 ← parse_octet w1; o2 ← parse_octet w2; o3 ← parse_octet w3;
      Some (a_b_c_d o0 o1 o2 o3)
  | _ => None
  end.
Definition parse (s : string) : option t := parse_chars (string_to_list s).

(** ** Facts *)

Lemma hostmask_range p : 0 ≤ p ≤ 32 → 0 ≤ hostmask p < 2 ^ 32.
Proof.
  intros Hp. unfold hostmask. rewrite Z.ones_equiv.
  pose proof (Z.pow_le_mono_r 2 (32 - p) 32). pose proof (Z.pow_pos_nonneg 2 (32 - p)). lia.
Qed.

Lemma land_netmask a p :
  valid a → 0 ≤ p ≤ 32 → Z.land a (netmask p) = a - a mod 2 ^ (32 - p).
Proof.
  intros [Ha1 Ha2] Hp.
  assert (Hl : Z.land a (netmask p) = Z.ldiff a (hostmask p)).
  { apply Z.bits_inj'. intros i Hi. unfold netmask, hostmask.
    rewrite Z.land_spec, Z.lxor_spec, Z.ldiff_spec.
    destruct (Z.lt_ge_cases i 32).
    - rewrite (Z.ones_spec_low 32) by lia. by destruct (Z.testbit (Z.ones (32 - p)) i).
    - rewrite (Z.bits_above_log2 a i); [done|lia|].
      destruct (Z.eq_dec a 0) as [->|]; [simpl; lia|].
      apply Z.log2_lt_pow2; [lia|]. pose proof (Z.pow_le_mono_r 2 32 i). lia. }
  rewrite Hl. unfold hostmask. rewrite Z.ldiff_ones_r by lia.
  rewrite Z.shiftr_div_pow2, Z.shiftl_mul_pow2 by lia.
  pose proof (Z.div_mod a (2 ^ (32 - p))). lia.
Qed.

(** A network's addresses are the interval from its base address to its
    broadcast address. *)
Lemma broadcast_add n : wf n → broadcast n = net_addr n + hostmask (prefixlen n).
Proof.
  intros (? & ? & Hz). unfold broadcast. pose proof (Z.add_lor_land (net_addr n) (hostmask (prefixlen n))). lia.
Qed.

Lemma contains_spec n a :
  wf n → valid a → contains n a = true ↔ net_addr n ≤ a ≤ broadcast n.
Proof.
  intros Hwf Ha. rewrite broadcast_add by done.
  destruct Hwf as (Hv & Hp & Hz). unfold contains. rewrite Z.eqb_eq, land_netmask by done.
  set (m := 2 ^ (32 - prefixlen n)).
  assert (Hm : 0 < m) by (apply Z.pow_pos_nonneg; lia).
  assert (Hh : hostmask (prefixlen n) = m - 1).
  { unfold hostmask. rewrite Z.ones_equiv. unfold m. lia. }
  assert (Hb : net_addr n mod m = 0).
  { unfold hostmask in Hz. rewrite Z.land_ones in Hz by lia. exact Hz. }
  rewrite Hh. pose proof (Z.mod_pos_bound a m Hm).
  apply Z.mod_divide in Hb as [q Hq]; [|lia]. split; intros Heq; [lia|].
  rewrite Hq in *. replace a with (a - q * m + q * m) by lia.
  rewrite Z.mod_add by lia. rewrite Z.mod_small; lia.
Qed.

Lemma broadcast_host a : broadcast (host a) = a.
Proof. apply Z.lor_0_r. Qed.

Lemma broadcast_valid n : wf n → valid (broadcast n).
Proof.
  intros Hwf. pose proof Hwf as (Hv & Hp & Hz). unfold valid in *.
  rewrite broadcast_add by done. pose proof (hostmask_range _ Hp).
  pose proof Hwf as Hwf'. rewrite <- broadcast_add by done.
  unfold broadcast. split; [apply Z.lor_nonneg; lia|].
  destruct (Z.eq_dec (Z.lor (net_addr n) (hostmask (prefixlen n))) 0) as [->|Hne]; [lia|].
  apply Z.log2_lt_cancel. rewrite (Z.log2_pow2 32) by lia.
  rewrite Z.log2_lor by lia. apply Z.max_lub_lt.
  - destruct (Z.eq_dec (net_addr n) 0) as [->|]; [simpl; lia|]. apply Z.log2_lt_pow2; lia.
  - destruct (Z.eq_dec (hostmask (prefixlen n)) 0) as [->|]; [simpl; lia|]. apply Z.log2_lt_pow2; lia.
Qed.

Lemma contains_host a b : valid b → contains (host a) b = true ↔ b = a.
Proof.
  intros Hb. unfold contains. rewrite Z.eqb_eq. cbn [host prefixlen net_addr].
  rewrite land_netmask by (done || lia). change (2 ^ (32 - 32)) with 1. rewrite Z.mod_1_r. lia.
Qed.

(** A [/32] overlaps a network exactly when its address lies in it. *)
Lemma overlaps_host n a :
  wf n → valid a → overlaps n (host a) = true ↔ contains n a = true.
Proof.
  intros Hn Ha. unfold overlaps. rewrite broadcast_host. cbn [host net_addr].
  fold (host a). rewrite !orb_true_iff.
  rewrite !contains_host by (apply Hn || by apply broadcast_valid).
  pose proof (contains_spec n a Hn Ha) as Hs.
  pose proof (hostmask_range (prefixlen n) (proj1 (proj2 Hn))).
  pose proof (broadcast_add n Hn). split; [|tauto].
  intros [<-|[<-|[?|?]]]; try done; apply contains_spec; try done; lia.
Qed.

(** Networks that do not overlap share no address. *)
Lemma overlaps_disjoint n m a :
  wf n → wf m → valid a → overlaps n m = false → contains n a = true → contains m a = true → False.
Proof.
  intros Hn Hm Ha Ho Hna Hma. apply contains_spec in Hna, Hma; [|done..].
  pose proof (broadcast_valid n Hn). pose proof (broadcast_valid m Hm).
  unfold overlaps in Ho. apply orb_false_iff in Ho as [H1 H2]. apply orb_false_iff in H2 as [_ H2]. apply orb_false_iff in H2 as [H2 _].
  destruct (decide (net_addr m ≤ net_addr n)) as [Hle|Hle].
  - assert (contains m (net_addr n) = true) by (apply contains_spec; [done|apply Hn|lia]). congruence.
  - assert (contains n (net_addr m) = true) by (apply contains_spec; [done|apply Hm|lia]). congruence.
Qed.

(** *** The dotted text round trip *)

Definition octet_ok (n : Z) : bool :=
  bool_decide (parse_octet (dec3 n) = Some n) && bool_decide ("."%char ∉ dec3 n).

Lemma octets_ok : forallb octet_ok (Z.of_nat <$> seq 0 256) = true.
Proof. vm_compute. reflexivity. Qed.

Lemma octet_roundtrip n :
  0 ≤ n < 256 → parse_octet (dec3 n) = Some n ∧ "."%char ∉ dec3 n.
Proof.
  intros Hn. pose proof octets_ok as H. rewrite forallb_forall in H.
  specialize (H n). unfold octet_ok in H. rewrite andb_true_iff, !bool_decide_eq_true in H.
  apply H. apply list_elem_of_In, list_elem_of_fmap. exists (Z.to_nat n).
  rewrite elem_of_seq. lia.
Qed.

Lemma octets_valid a :
  valid a → ∃ o0 o1 o2 o3, octets a = [o0; o1; o2; o3] ∧ a = a_b_c_d o0 o1 o2 o3 ∧
    0 ≤ o0 < 256 ∧ 0 ≤ o1 < 256 ∧ 0 ≤ o2 < 256 ∧ 0 ≤ o3 < 256.
Proof.
  intros [Ha1 Ha2]. unfold octets, a_b_c_d.
  change 255 with (Z.ones 8). rewrite !Z.land_ones, !Z.shiftr_div_pow2 by lia.
  change (2 ^ 8) with 256. change (2 ^ 16) with (256 * 256). change (2 ^ 24) with (256 * (256 * 256)).
  change (2 ^ 32) with (256 * (256 * (256 * 256))) in Ha2.
  eexists _, _, _, _. split; [reflexivity|].
  rewrite <- !Z.div_div by lia.
  set (q1 := a / 256). set (q2 := q1 / 256). set (q3 := q2 / 256).
  pose proof (Z.div_mod a 256 ltac:(lia)). pose proof (Z.div_mod q1 256 ltac:(lia)).
  pose proof (Z.div_mod q2 256 ltac:(lia)).
  pose proof (Z.mod_pos_bound a 256 ltac:(lia)). pose proof (Z.mod_pos_bound q1 256 ltac:(lia)).
  pose proof (Z.mod_pos_bound q2 256 ltac:(lia)).
  fold q1 in H. fold q2 in H0. fold q3 in H1. lia.
Qed.

Lemma parse_to_chars a : valid a → parse_chars (to_chars a) = Some a.
Proof.
  intros (o0 & o1 & o2 & o3 & Ho & Ha & H0 & H1 & H2 & H3)%octets_valid.
  unfold to_chars, parse_chars. rewrite Ho.
  apply octet_roundtrip in H0 as [H0 ?], H1 as [H1 ?], H2 as [H2 ?], H3 as [H3 ?].
  rewrite !split_on_app, split_on_no_sep by done. rewrite H0. simpl.
  rewrite H1. simpl. rewrite H2. simpl. rewrite H3. simpl. by rewrite Ha.
Qed.

Lemma parse_to_string a : valid a → parse (to_string a) = Some a.
Proof. intros. unfold parse, to_string. rewrite string_to_of_list. by apply parse_to_chars. Qed.

Lemma to_string_inj a b : valid a → valid b → to_string a = to_string b → a = b.
Proof.
  intros Ha Hb Heq. apply (f_equal parse) in Heq.
  rewrite !parse_to_string in Heq by done. congruence.
Qed.

Lemma parse_octet_range w n : parse_octet w = Some n → 0 ≤ n < 256.
Proof.
  unfold parse_octet. destruct w as [|c w]; [done|]. remember (c :: w) as w0.
  destruct (forallb is_digit w0) eqn:Hd; simpl; [|done]. split_ifs; try done.
  intros [= <-]. bool_prop. split; [|lia].
  assert (Hnn : ∀ l acc, forallb is_digit l = true → 0 ≤ acc → 0 ≤ dec_val acc l).
  { clear. induction l as [|c l IH]; simpl; intros acc Hl Hacc; [done|].
    apply andb_true_iff in Hl as [Hc Hl]. apply IH; [done|].
    unfold is_digit in Hc. bool_prop. unfold digit_val. lia. }
  by apply Hnn.
Qed.

Lemma parse_valid s a : parse s = Some a → valid a.
Proof.
  unfold parse, parse_chars. repeat case_match; try done. intros Hp.
  repeat match goal with
  | H : (_ ≫= _) = Some _ |- _ => apply bind_Some in H as (? & ?%parse_octet_range & H)
  end. simplify_eq. unfold valid, a_b_c_d. lia.
Qed.
End IPv4.

(** ** MAC addresses (pirewall/core/models/common.py) *)

Module Mac.
(** A normalised MAC is its lowercase text, as in the source. *)
Definition t : Type := string.

Definition is_hex (c : ascii) : bool :=
  let n := Z.of_nat (nat_of_ascii c) in
  ((48 <=? n) && (n <=? 57)) || ((65 <=? n) && (n <=? 70)) || ((97 <=? n) && (n <=? 102)).

(** [str.lower] on one character. *)
Definition lower (c : ascii) : ascii :=
  let n := nat_of_ascii c in
  if (65 <=? Z.of_nat n) && (Z.of_nat n <=? 90) then ascii_of_nat (n + 32) else c.

Definition hex_val (c : ascii) : Z :=
  let n := Z.of_nat (nat_of_ascii (lower c)) in
  if n <=? 57 then n - 48 else n - 87.

Definition dash_to_colon (c : ascii) : ascii := if decide (c = "-"%char) then ":"%char else c.

(** [_MAC_PATTERN]: six octets of two hex digits, one separator style. *)
Definition matches_pattern (l : list ascii) : bool :=
  match l with
  | [a0; a1; s0; b0; b1; s1; c0; c1; s2; d0; d1; s3; e0; e1; s4; f0; f1] =>
      forallb is_hex [a0; a1; b0; b1; c0; c1; d0; d1; e0; e1; f0; f1] &&
      (bool_decide (s0 = ":"%char) || bool_decide (s0 = "-"%char)) &&
      forallb (λ s, bool_decide (s = s0)) [s1; s2; s3; s4]
  | _ => false
  end.

(** [_normalise_mac] *)
Definition normalise (s : string) : option t :=
  let l := string_to_list s in
  if matches_pattern l then Some (string_of_list (dash_to_colon <$> (lower <$> l))) else None.

(** [_require_unicast_identity] on a normalised MAC. *)
Definition is_unicast_identity (m : t) : bool :=
  match string_to_list m with
  | a0 :: a1 :: _ =>
      negb (Z.testbit (hex_val a0 * 16 + hex_val a1) 0) &&
      negb (bool_decide (m = "00:00:00:00:00:00"))
  | _ => false
  end.

(** [TypeAdapter(UnicastMacAddress).validate_python] *)
Definition validate_unicast (s : string) : option t :=
  m ← normalise s; if is_unicast_identity m then Some m else None.

(** The predicate every [UnicastMacAddress] field satisfies. *)
Definition unicast (m : t) : Prop := validate_unicast m = Some m.

#[global] Instance unicast_dec m : Decision (unicast m).
Proof. apply _. Defined.

Definition canonical_char (c : ascii) : bool :=
  (is_hex c || bool_decide (c = ":"%char) || bool_decide (c = "-"%char)).

Lemma lower_lower_hex :
  ∀ c, canonical_char c = true →
    dash_to_colon (lower (dash_to_colon (lower c))) = dash_to_colon (lower c) ∧
    is_hex (dash_to_colon (lower c)) = is_hex c.
Proof. intros [[] [] [] [] [] [] [] []]; vm_compute; intros; try discriminate; done. Qed.

Lemma matches_normalised l :
  matches_pattern l = true →
  matches_pattern (dash_to_colon <$> (lower <$> l)) = true ∧
  dash_to_colon <$> (lower <$> (dash_to_colon <$> (lower <$> l))) = dash_to_colon <$> (lower <$> l).
Proof.
  intros Hm.
  assert (Hall : Forall (λ c, canonical_char c = true) l ∧
    ∃ a0 a1 s0 b0 b1 c0 c1 d0 d1 e0 e1 f0 f1,
      l = [a0; a1; s0; b0; b1; s0; c0; c1; s0; d0; d1; s0; e0; e1; s0; f0; f1] ∧
      forallb is_hex [a0; a1; b0; b1; c0; c1; d0; d1; e0; e1; f0; f1] = true ∧
      (s0 = ":"%char ∨ s0 = "-"%char)).
  { unfold matches_pattern in Hm. repeat (destruct l as [|? l]; try discriminate Hm).
    cbn [forallb] in Hm. bool_prop. subst.
    match goal with H : _ || _ = true |- _ => apply orb_true_iff in H end.
    rewrite !bool_decide_eq_true in *. split.
    - assert (Hsep : canonical_char a1 = true) by (by destruct H5 as [-> | ->]).
      assert (Hhex : ∀ c, is_hex c = true → canonical_char c = true)
        by (intros c Hc; unfold canonical_char; by rewrite Hc).
      repeat (apply Forall_cons_2; [first [exact Hsep | by apply Hhex]|]). apply Forall_nil_2.
    - do 13 eexists. split; [reflexivity|]. split; [|done]. cbn [forallb]. rewrite !andb_true_iff. tauto. }
  destruct Hall as [Hall (a0 & a1 & s0 & b0 & b1 & c0 & c1 & d0 & d1 & e0 & e1 & f0 & f1 & -> & Hh & Hs)].
  split.
  - cbn [fmap list_fmap matches_pattern]. cbn [forallb] in *.
    rewrite Forall_forall in Hall.
    assert (Hx : ∀ c, is_hex c = true → is_hex (dash_to_colon (lower c)) = true).
    { intros c Hc. rewrite (proj2 (lower_lower_hex c ltac:(unfold canonical_char; by rewrite Hc))). done. }
    rewrite !andb_true_iff in *. destruct_and!. repeat split; auto.
    all: destruct Hs; subst; reflexivity.
  - rewrite <- !list_fmap_compose. apply list_fmap_ext. intros i c Hc. simpl.
    apply lower_lower_hex. rewrite Forall_forall in Hall. apply Hall.
    by eapply list_elem_of_lookup_2.
Qed.

(** Normalisation is idempotent: a normalised MAC is its own normal form. *)
Lemma normalise_idempotent s m : normalise s = Some m → normalise m = Some m.
Proof.
  unfold normalise. destruct (matches_pattern (string_to_list s)) eqn:Hm; [|done].
  intros [= <-]. rewrite string_to_of_list. apply matches_normalised in Hm as [-> Hf].
  simpl. f_equal. by rewrite Hf.
Qed.

Lemma validate_unicast_idempotent s m : validate_unicast s = Some m → unicast m.
Proof.
  unfold unicast, validate_unicast. intros (m' & Hn & Hu)%bind_Some.
  destruct (is_unicast_identity m') eqn:Hi; [|done]. simplify_eq.
  rewrite (normalise_idempotent _ _ Hn). simpl. by rewrite Hi.
Qed.

End Mac.

#[global] Arguments IPv4.to_string _ : simpl never.
#[global] Arguments IPv4.parse _ : simpl never.
#[global] Arguments IPv4.contains _ _ : simpl never.
#[global] Arguments IPv4.overlaps _ _ : simpl never.
#[global] Arguments IPv4.subnet_of _ _ : simpl never.
#[global] Arguments IPv4.broadcast _ : simpl never.
#[global] Arguments Mac.validate_unicast _ : simpl never.
#[global] Arguments Mac.normalise _ : simpl never.
