(* ===== verification/Models.v ===== *)
(** * Domain vocabulary and models

    The enums of [pirewall/core/enums.py] and the records of
    [pirewall/core/models/] that cross component boundaries, with the
    validators their constructors run.  Optional fields are [option]s, a
    [dict] is an insertion-ordered association list, an [AwareDatetime] is a
    number of microseconds. *)

From S2P Require Import Prelude Float Net.
Local Open Scope Z_scope.

(** ** Enums *)

Inductive ThreatLevel := LOW | MEDIUM | HIGH | CRITICAL.
Inductive FirewallAction := ALLOW | MONITOR | RATE_LIMIT | BLOCK.
Inductive RuleStatus :=
| CANDIDATE | VALIDATING | REJECTED | SHADOWED | PENDING_APPROVAL | APPROVED
| DEPLOYED | ACTIVE | EXPIRED | DISABLED | REMOVED.
Inductive RuleDirection := INBOUND | OUTBOUND.
Inductive Protocol := TCP | UDP | ICMP | ICMPV6 | OTHER | ANY.
Inductive SecurityEventType :=
| THREAT_DETECTED | FIREWALL_BLOCK | FIREWALL_ALLOW | RULE_CREATED | RULE_DEPLOYED
| RULE_REJECTED | RULE_EXPIRED | MODEL_ERROR | CAPTURE_ERROR | FLOW_ERROR
| FIREWALL_ERROR | AUTHENTICATION_FAILURE | SYSTEM_WARNING | POLICY_DECISION.
Inductive EventSeverity := SEV_INFO | SEV_WARNING | SEV_ERROR | SEV_CRITICAL.
Inductive EnforcementMode := MODE_SHADOW | MODE_ASSISTED | MODE_ACTIVE.
Inductive RuleRejectionReason :=
| INVALID_SCHEMA | INVALID_NETWORK | ALLOWLISTED | UNSAFE | CONFLICT | DUPLICATE
| RATE_LIMITED | REASON_SHADOWED | MISSING_EXPIRATION | UNAUTHORIZED | UNENFORCEABLE
| EXPIRATION_TOO_LONG | NO_NEW_EVIDENCE | SPOOFED_SOURCE.
Inductive GuardName := RAW | INPUT | FORWARD.
Inductive GuardMode := OBSERVE | ENFORCE.
Inductive BindingSource := LEASE | STATIC.
Inductive D1Detector :=
| VERTICAL_SCAN | HORIZONTAL_SCAN | FAILED_HANDSHAKE | BRUTE_FORCE | SLOW_RATE_DOS
| FAN_IN | NEW_MAC_RATE | NEW_LEASE_RATE | PORTAL_AUTH_FAILURES.

#[global] Instance ThreatLevel_eq_dec : EqDecision ThreatLevel.
Proof. solve_decision. Defined.
#[global] Instance FirewallAction_eq_dec : EqDecision FirewallAction.
Proof. solve_decision. Defined.
#[global] Instance RuleStatus_eq_dec : EqDecision RuleStatus.
Proof. solve_decision. Defined.
#[global] Instance RuleDirection_eq_dec : EqDecision RuleDirection.
Proof. solve_decision. Defined.
#[global] Instance Protocol_eq_dec : EqDecision Protocol.
Proof. solve_decision. Defined.
#[global] Instance EnforcementMode_eq_dec : EqDecision EnforcementMode.
Proof. solve_decision. Defined.
#[global] Instance SecurityEventType_eq_dec : EqDecision SecurityEventType.
Proof. solve_decision. Defined.
#[global] Instance EventSeverity_eq_dec : EqDecision EventSeverity.
Proof. solve_decision. Defined.
#[global] Instance RuleRejectionReason_eq_dec : EqDecision RuleRejectionReason.
Proof. solve_decision. Defined.
#[global] Instance GuardName_eq_dec : EqDecision GuardName.
Proof. solve_decision. Defined.
#[global] Instance GuardMode_eq_dec : EqDecision GuardMode.
Proof. solve_decision. Defined.
#[global] Instance BindingSource_eq_dec : EqDecision BindingSource.
Proof. solve_decision. Defined.
#[global] Instance D1Detector_eq_dec : EqDecision D1Detector.
Proof. solve_decision. Defined.

(** [for guard in GuardName] *)
Definition all_guards : list GuardName := [RAW; INPUT; FORWARD].

(** The [.value] strings the model prints. *)
Definition action_value (a : FirewallAction) : string :=
  match a with ALLOW => "allow" | MONITOR => "monitor" | RATE_LIMIT => "rate_limit" | BLOCK => "block" end.
Definition guard_value (g : GuardName) : string :=
  match g with RAW => "raw" | INPUT => "input" | FORWARD => "forward" end.
Definition guard_mode_value (m : GuardMode) : string :=
  match m with OBSERVE => "observe" | ENFORCE => "enforce" end.
Definition reason_value (r : RuleRejectionReason) : string :=
  match r with
  | INVALID_SCHEMA => "invalid_schema" | INVALID_NETWORK => "invalid_network"
  | ALLOWLISTED => "allowlisted" | UNSAFE => "unsafe" | CONFLICT => "conflict"
  | DUPLICATE => "duplicate" | RATE_LIMITED => "rate_limited" | REASON_SHADOWED => "shadowed"
  | MISSING_EXPIRATION => "missing_expiration" | UNAUTHORIZED => "unauthorized"
  | UNENFORCEABLE => "unenforceable" | EXPIRATION_TOO_LONG => "expiration_too_long"
  | NO_NEW_EVIDENCE => "no_new_evidence" | SPOOFED_SOURCE => "spoofed_source"
  end.

(** [action in (BLOCK, RATE_LIMIT)] *)
Definition restrictive (a : FirewallAction) : bool :=
  match a with BLOCK | RATE_LIMIT => true | _ => false end.

(** ** Device identity (models/identity.py) *)

Record RuleTarget : Type := mk_target { rt_ip : IPv4.t; rt_mac : option Mac.t }.

#[global] Instance RuleTarget_eq_dec : EqDecision RuleTarget.
Proof. solve_decision. Defined.

(** What Pydantic guarantees of a constructed [RuleTarget]. *)
Definition target_wf (t : RuleTarget) : Prop :=
  IPv4.valid (rt_ip t) ∧ ∀ m, rt_mac t = Some m → Mac.unicast m.

Record Binding : Type := mk_binding {
  b_ip : IPv4.t;
  b_mac : Mac.t;
  b_source : BindingSource;
  b_expires_at : option Z;
}.

#[global] Instance Binding_eq_dec : EqDecision Binding.
Proof. solve_decision. Defined.

(** [Binding._check_expiry_matches_source] *)
Definition binding_check (b : Binding) : result Binding :=
  match b_source b, b_expires_at b with
  | LEASE, None => Raise (ValueError "a lease binding needs expires_at (its element timeout)")
  | STATIC, Some _ => Raise (ValueError "a static binding never expires; expires_at must be None")
  | _, _ => Ok b
  end.

Definition binding_wf (b : Binding) : Prop :=
  IPv4.valid (b_ip b) ∧ Mac.unicast (b_mac b) ∧ binding_check b = Ok b.

Record BindingChange : Type := mk_change { bc_removed : list Binding; bc_added : list Binding }.

(** ** Rules (models/rule.py) *)

Record RuleFields : Type := mk_rule_fields {
  rf_action : FirewallAction;
  rf_direction : RuleDirection;
  rf_source : IPv4.network;
  rf_destination : IPv4.network;
  rf_protocol : Protocol;
  rf_source_port : option Z;
  rf_destination_port : option Z;
  rf_reason : string;
  rf_threat_score : option float;
  rf_evidence : list string;
  rf_metadata : list (string * string);
  rf_target : option RuleTarget;
}.

(** [_RuleFields._check_target_is_the_source] *)
Definition rule_fields_check (f : RuleFields) : bool :=
  match rf_target f with
  | None => true
  | Some t => bool_decide (rf_source f = IPv4.host (rt_ip t))
  end.

Record CandidateRule : Type := mk_candidate {
  cr_fields :> RuleFields;
  cr_id : string;
  cr_decision_id : string;
  cr_created_at : Z;
  cr_expires_at : option Z;
  cr_status : RuleStatus;
}.

Record FirewallRule : Type := mk_rule {
  fr_fields :> RuleFields;
  fr_id : string;
  fr_priority : Z;
  fr_status : RuleStatus;
  fr_created_at : Z;
  fr_expires_at : option Z;
  fr_deployed_at : option Z;
}.

(** What Pydantic guarantees of the fields of any constructed rule. *)
Definition port_wf (p : option Z) : Prop := ∀ n, p = Some n → 0 ≤ n ≤ 65535.
Definition rule_fields_wf (f : RuleFields) : Prop :=
  IPv4.wf (rf_source f) ∧ IPv4.wf (rf_destination f) ∧
  port_wf (rf_source_port f) ∧ port_wf (rf_destination_port f) ∧
  (∀ t, rf_target f = Some t → target_wf t) ∧ rule_fields_check f = true.

(** [rule.model_copy(update={...})] for the fields the manager updates. *)
Definition rule_with_status (r : FirewallRule) (s : RuleStatus) : FirewallRule :=
  mk_rule (fr_fields r) (fr_id r) (fr_priority r) s (fr_created_at r) (fr_expires_at r) (fr_deployed_at r).
Definition rule_deployed (r : FirewallRule) (now : Z) : FirewallRule :=
  mk_rule (fr_fields r) (fr_id r) (fr_priority r) ACTIVE (fr_created_at r) (fr_expires_at r) (Some now).
Definition fields_with_metadata (f : RuleFields) (md : list (string * string)) : RuleFields :=
  mk_rule_fields (rf_action f) (rf_direction f) (rf_source f) (rf_destination f) (rf_protocol f)
    (rf_source_port f) (rf_destination_port f) (rf_reason f) (rf_threat_score f) (rf_evidence f)
    md (rf_target f).
Definition fields_with_target (f : RuleFields) (t : option RuleTarget) : RuleFields :=
  mk_rule_fields (rf_action f) (rf_direction f) (rf_source f) (rf_destination f) (rf_protocol f)
    (rf_source_port f) (rf_destination_port f) (rf_reason f) (rf_threat_score f) (rf_evidence f)
    (rf_metadata f) t.
Definition rule_with_metadata (r : FirewallRule) (md : list (string * string)) : FirewallRule :=
  mk_rule (fields_with_metadata (fr_fields r) md) (fr_id r) (fr_priority r) (fr_status r)
    (fr_created_at r) (fr_expires_at r) (fr_deployed_at r).

(** ** Allowlist (models/allowlist.py) *)

Record AllowlistEntry : Type := mk_allow {
  al_id : string;
  al_target : IPv4.network;
  al_port : option Z;
  al_protocol : option Protocol;
  al_reason : string;
  al_created_at : Z;
  al_created_by : string;
  al_mac : option Mac.t;
}.

(** [AllowlistEntry._check_mac_names_one_device] *)
Definition allowlist_check (e : AllowlistEntry) : bool :=
  match al_mac e with
  | None => true
  | Some _ => IPv4.prefixlen (al_target e) =? 32
  end.

Definition allow_wf (e : AllowlistEntry) : Prop :=
  IPv4.wf (al_target e) ∧ (∀ m, al_mac e = Some m → Mac.unicast m) ∧ allowlist_check e = true.

(** ** Decisions and events *)

Record FirewallDecision : Type := mk_decision {
  fd_id : string;
  fd_threat_assessment_id : string;
  fd_flow_id : option string;
  fd_action : FirewallAction;
  fd_threat_score : float;
  fd_threat_level : ThreatLevel;
  fd_reason : string;
  fd_evidence : list string;
  fd_decided_at : Z;
}.

(** The fields of [SecurityEvent] the firewall subsystem fills; the random
    event id and the fields it leaves at their defaults are left out. *)
Record SecurityEvent : Type := mk_event {
  ev_timestamp : Z;
  ev_severity : EventSeverity;
  ev_type : SecurityEventType;
  ev_subsystem : string;
  ev_threat_score : option float;
  ev_decision : option FirewallAction;
  ev_rule_id : option string;
  ev_reason : option string;
}.

(** ** The configuration the modelled components read (config/models.py) *)

Record PolicyConfig : Type := mk_policy_config {
  pc_rate_limit_ttl_seconds : Z;
  pc_block_ttl_seconds : Z;
  pc_escalation_ttl_multiplier : Z;
  pc_max_ttl_seconds : Z;
  pc_sustained_polls : Z;
  pc_max_tracked_devices : Z;
  pc_max_evidence_ids_per_device : Z;
}.

(** The field constraints and [_check_ttls_within_cap]. *)
Definition policy_config_wf (c : PolicyConfig) : Prop :=
  0 < pc_rate_limit_ttl_seconds c ∧ 0 < pc_block_ttl_seconds c ∧
  1 ≤ pc_escalation_ttl_multiplier c ∧ 0 < pc_max_ttl_seconds c ≤ 3600 ∧
  2 ≤ pc_sustained_polls c ∧ 0 < pc_max_tracked_devices c ∧
  0 < pc_max_evidence_ids_per_device c ∧
  Z.max (pc_rate_limit_ttl_seconds c) (pc_block_ttl_seconds c) ≤ pc_max_ttl_seconds c.

(** Of the configuration tree, the fields the modelled components read:
    [network.*], [admin.*], [firewall.*], [antispoof.grace_seconds] and
    [policy.*]. *)
Record PirewallConfig : Type := mk_config {
  c_protected_network : IPv4.network;
  c_upstream_gateway : IPv4.t;
  c_pirewall_lan_ip : IPv4.t;
  c_admin_pc_ip : IPv4.t;
  c_admin_pc_mac : option Mac.t;
  c_enforcement_mode : EnforcementMode;
  c_assisted_review_threshold : float;
  c_max_adaptive_rules_per_window : Z;
  c_rate_window_seconds : Z;
  c_min_rule_prefix_length : Z;
  c_allowlist : list AllowlistEntry;
  c_grace_seconds : Z;
  c_policy : PolicyConfig;
}.

Definition config_wf (c : PirewallConfig) : Prop :=
  IPv4.wf (c_protected_network c) ∧ IPv4.valid (c_upstream_gateway c) ∧
  IPv4.valid (c_pirewall_lan_ip c) ∧ IPv4.valid (c_admin_pc_ip c) ∧
  0 < c_max_adaptive_rules_per_window c ∧ 0 < c_rate_window_seconds c ∧
  0 ≤ c_min_rule_prefix_length c ≤ 32 ∧ 0 ≤ c_grace_seconds c ∧
  Forall allow_wf (c_allowlist c) ∧ policy_config_wf (c_policy c).

(** [LocalAddresses] (firewall/local_addresses.py): the addresses the kernel
    reports for this host. *)
Record LocalAddresses : Type := mk_local { la_host : list IPv4.t; la_broadcast : list IPv4.t }.
