(* ===== verification/RateLimiter.v ===== *)
(** * The rule-creation rate cap (pirewall/firewall/rate_limiter.py)

    [RuleCreationRateLimiter] keeps a deque of the instants at which a rule
    was created.  What the deque answers is exact: it counts the creations of
    the closed window ending now.  [Reachable] uses this of the manager's
    submissions. *)

From S2P Require Import Prelude.
Local Open Scope Z_scope.

Record RuleCreationRateLimiter : Type := mk_limiter {
  rl_max_per_window : Z;
  rl_window_seconds : Z;
  rl_timestamps : list Z;  (** oldest first *)
}.

Definition new_limiter (max window : Z) : RuleCreationRateLimiter := mk_limiter max window [].

Fixpoint drop_before (cutoff : Z) (ts : list Z) : list Z :=
  match ts with
  | [] => []
  | t :: ts' => if t <? cutoff then drop_before cutoff ts' else ts
  end.

Definition rl_prune (l : RuleCreationRateLimiter) (now : Z) : RuleCreationRateLimiter :=
  mk_limiter (rl_max_per_window l) (rl_window_seconds l)
    (drop_before (now - seconds (rl_window_seconds l)) (rl_timestamps l)).

(** The queries prune too, so they return the new state. *)
Definition would_allow (l : RuleCreationRateLimiter) (now : Z) : bool * RuleCreationRateLimiter :=
  let l' := rl_prune l now in
  (Z.of_nat (length (rl_timestamps l')) <? rl_max_per_window l', l').

Definition count_in_window (l : RuleCreationRateLimiter) (now : Z) : Z * RuleCreationRateLimiter :=
  let l' := rl_prune l now in (Z.of_nat (length (rl_timestamps l')), l').

Definition rl_record (l : RuleCreationRateLimiter) (now : Z) : RuleCreationRateLimiter :=
  let l' := rl_prune l now in
  mk_limiter (rl_max_per_window l') (rl_window_seconds l') (rl_timestamps l' ++ [now]).

(** The creations that fall in the closed window [lo .. hi]. *)
Definition in_window (lo hi : Z) (hist : list Z) : list Z :=
  filter (λ t, lo ≤ t ∧ t ≤ hi) hist.

(** ** The invariant: what was pruned lies before every later window *)

Definition rl_inv (l : RuleCreationRateLimiter) (last : Z) (hist : list Z) : Prop :=
  StronglySorted Z.le (rl_timestamps l) ∧ Forall (λ t, t ≤ last) (rl_timestamps l) ∧
  ∃ dropped, hist = rev (rl_timestamps l) ++ dropped ∧
    Forall (λ t, t < last - seconds (rl_window_seconds l)) dropped.

Lemma drop_before_app cutoff ts :
  ∃ gone, ts = gone ++ drop_before cutoff ts ∧ Forall (λ t, t < cutoff) gone.
Proof.
  induction ts as [|t ts (gone & Heq & Hall)]; simpl; [by exists []|].
  destruct (t <? cutoff) eqn:Ht; bool_prop.
  - exists (t :: gone). simpl. rewrite <- Heq. auto.
  - by exists [].
Qed.

Lemma drop_before_ge cutoff ts :
  StronglySorted Z.le ts → Forall (λ t, cutoff ≤ t) (drop_before cutoff ts).
Proof.
  induction 1 as [|t ts Hs IH Hall]; simpl; [done|].
  destruct (t <? cutoff) eqn:Ht; [done|]. bool_prop.
  constructor; [done|]. eapply Forall_impl; [exact Hall|]. simpl. lia.
Qed.

Lemma drop_before_sorted cutoff ts :
  StronglySorted Z.le ts → StronglySorted Z.le (drop_before cutoff ts).
Proof.
  induction 1 as [|t ts Hs IH Hall]; simpl; [constructor|].
  destruct (t <? cutoff); [done|]. by constructor.
Qed.

Lemma rl_prune_inv l last now hist :
  rl_inv l last hist → last ≤ now → rl_inv (rl_prune l now) now hist.
Proof.
  intros (Hs & Hle & dropped & -> & Hd) Hnow. unfold rl_inv, rl_prune. simpl.
  set (cut := now - seconds (rl_window_seconds l)).
  destruct (drop_before_app cut (rl_timestamps l)) as (gone & Heq & Hg).
  split; [by apply drop_before_sorted|]. split.
  - rewrite Heq in Hle. apply Forall_app in Hle as [_ Hle].
    eapply Forall_impl; [exact Hle|]. simpl. lia.
  - exists (rev gone ++ dropped). split.
    + rewrite Heq at 1. by rewrite rev_app_distr, <- app_assoc.
    + apply Forall_app. split; [|eapply Forall_impl; [exact Hd|]; simpl; lia].
      rewrite <- Forall_reverse. unfold reverse. rewrite rev_append_rev, app_nil_r, rev_involutive.
      exact Hg.
Qed.

Lemma rl_record_inv l now hist :
  rl_inv l now hist → rl_inv (rl_record l now) now (now :: hist).
Proof.
  intros Hinv. apply (rl_prune_inv _ _ now) in Hinv; [|lia].
  destruct Hinv as (Hs & Hle & dropped & -> & Hd). unfold rl_record, rl_inv. simpl in *.
  split; [|split].
  - clear Hd. induction Hs as [|t ts Hs IH Hall]; simpl; [repeat constructor|].
    apply Forall_cons in Hle as [? ?]. constructor; [by apply IH|].
    apply Forall_app. auto.
  - apply Forall_app. split; [done|]. constructor; [lia|done].
  - exists dropped. rewrite rev_app_distr. done.
Qed.

(** The deque's length is the number of creations in the window ending now. *)
Lemma rl_count_exact l last now hist :
  rl_inv l last hist → last ≤ now →
  length (rl_timestamps (rl_prune l now)) =
  length (in_window (now - seconds (rl_window_seconds l)) now hist).
Proof.
  intros Hinv Hnow. pose proof Hinv as (Hsort & _).
  apply (rl_prune_inv _ _ now) in Hinv as (_ & Hle & dropped & -> & Hd); [|done].
  unfold in_window. rewrite filter_app, length_app.
  assert (Hge : Forall (λ t, now - seconds (rl_window_seconds l) ≤ t) (rl_timestamps (rl_prune l now)))
    by (by apply drop_before_ge).
  rewrite (filter_all _ (rev _)), (filter_none _ dropped).
  - rewrite length_rev. simpl. lia.
  - intros x Hx. rewrite Forall_forall in Hd. specialize (Hd x Hx). simpl in Hd. lia.
  - intros x Hx%list_elem_of_In. apply in_rev, list_elem_of_In in Hx.
    rewrite Forall_forall in Hle, Hge. specialize (Hle x Hx). specialize (Hge x Hx). simpl in *. lia.
Qed.

(** ** No window holds more than the cap *)

Fixpoint spaced (max w : Z) (hist : list Z) : Prop :=
  match hist with
  | [] => True
  | t :: h => spaced max w h ∧ Z.of_nat (length (in_window (t - w) t h)) < max
  end.

Lemma spaced_window max w hist lo :
  0 ≤ max → spaced max w hist →
  StronglySorted Z.ge hist →
  Z.of_nat (length (in_window lo (lo + w) hist)) ≤ max.
Proof.
  intros Hmax Hsp Hsort. revert Hsp. induction Hsort as [|t h Hs IH Hall]; intros Hsp; [simpl; lia|].
  destruct Hsp as [Hsp Ht]. specialize (IH Hsp). unfold in_window in *. rewrite filter_cons.
  case_decide as Hin; [|done]. simpl.
  assert (Hle : (length (in_window lo (lo + w) h) ≤ length (in_window (t - w) t h))%nat).
  { apply filter_length_mono. intros x Hx. rewrite Forall_forall in Hall.
    specialize (Hall x Hx). simpl in Hall. lia. }
  unfold in_window in Hle. lia.
Qed.

Definition rl_good (l : RuleCreationRateLimiter) (last : Z) (hist : list Z) : Prop :=
  rl_inv l last hist ∧ StronglySorted Z.ge hist ∧ Forall (λ t, t ≤ last) hist ∧
  spaced (rl_max_per_window l) (seconds (rl_window_seconds l)) hist.

(** Asking only forgets what no later window reaches. *)
Lemma rl_prune_good l last now hist : rl_good l last hist → last ≤ now → rl_good (rl_prune l now) now hist.
Proof.
  intros (Hinv & Hsort & Hle & Hsp) Hnow. split; [by apply (rl_prune_inv _ last)|]. split; [done|]. split; [|done].
  eapply Forall_impl; [exact Hle|]. simpl. lia.
Qed.
(** Asking answers whether the window ending now has room. *)
Lemma would_allow_exact l last now hist : rl_good l last hist → last ≤ now →
  (would_allow l now).1 = (Z.of_nat (length (in_window (now - seconds (rl_window_seconds l)) now hist)) <? rl_max_per_window l).
Proof. intros (Hinv & _) Hnow. unfold would_allow. cbn [fst]. by rewrite (rl_count_exact _ _ _ _ Hinv Hnow). Qed.
(** A creation that was asked for keeps every window within the cap. *)
Lemma rl_record_good l last now hist : rl_good l last hist → last ≤ now → (would_allow l now).1 = true →
  rl_good (rl_record (would_allow l now).2 now) now (now :: hist).
Proof.
  intros Hg Hnow Hok. rewrite (would_allow_exact l last now hist Hg Hnow) in Hok. apply Z.ltb_lt in Hok.
  destruct (rl_prune_good l last now hist Hg Hnow) as (Hinv & Hsort & Hle & Hsp). cbn [would_allow snd].
  split; [by apply rl_record_inv|]. split; [|split].
  - constructor; [done|]. eapply Forall_impl; [exact Hle|]. simpl. lia.
  - by constructor.
  - split; [done|exact Hok].
Qed.

Lemma new_limiter_good max window from : rl_good (new_limiter max window) from [].
Proof.
  split; [split; [constructor|split; [constructor|by exists []]]|].
  split; [constructor|split; [constructor|done]].
Qed.
