(* ===== verification/Sets.v ===== *)
(** * Kernel set elements (pirewall/core/nft_names.py, firewall/sets.py, firewall/guards.py)

    The names of the reviewed tables and sets, the single-writer table
    [MANAGER_WRITABLE_SETS], the checks every backend runs before it writes
    an element, and the translation of a validated rule into one element. *)

From S2P Require Import Prelude Net Models.
Local Open Scope Z_scope.

(** ** Names *)

Definition STATIC_TABLE : string := "pirewall_static".
Definition ADAPTIVE_TABLE : string := "pirewall_adaptive".
Definition STATIC_ARP_TABLE : string := "pirewall_static_arp".
Definition INET_FAMILY : string := "inet".
Definition ARP_FAMILY : string := "arp".
Definition BASE_TABLE : string := "pirewall_base".
Definition PORTAL_TABLE : string := "pirewall_portal".

Definition PANIC_TABLES : list (string * string) :=
  [(INET_FAMILY, ADAPTIVE_TABLE); (INET_FAMILY, STATIC_TABLE); (ARP_FAMILY, STATIC_ARP_TABLE)].

Definition SET_BOUND4 : string := "bound4".
Definition SET_MACBIND : string := "macbind".
Definition SET_ALLOW_BOUND : string := "allow_bound".
Definition SET_OFFENDERS : string := "offenders".
Definition SET_BLOCK_MAC : string := "block_mac".
Definition SET_BLOCK4 : string := "block4".
Definition SET_RATELIMIT_MAC : string := "ratelimit_mac".
Definition SET_RATELIMIT4 : string := "ratelimit4".

Definition STATIC_METER_SETS : list string :=
  ["dhcp_meter"; "unbound_meter"; "syn_meter"; "udp_meter"; "icmp_meter"; "pps_meter";
   "dns_meter"; "closed_meter"; "portal_conc"; "newconn_meter"; "newconn_dst_meter"; "udp_fwd_meter"].

(** A frozenset; listed here in the sorted order its users iterate it in. *)
Definition ADAPTIVE_ENFORCEMENT_SETS : list string :=
  [SET_BLOCK4; SET_BLOCK_MAC; SET_RATELIMIT4; SET_RATELIMIT_MAC].

(** ** Element keys and shapes *)

Inductive ElementKey : Type :=
| KStr (s : string)
| KPair (a b : string).

#[global] Instance ElementKey_eq_dec : EqDecision ElementKey.
Proof. solve_decision. Defined.

Inductive KeyType := KT_IPV4 | KT_MAC | KT_IPV4_MAC | KT_MAC_IPV4.

Definition key_type_value (t : KeyType) : string :=
  match t with
  | KT_IPV4 => "ipv4_addr"
  | KT_MAC => "ether_addr"
  | KT_IPV4_MAC => "ipv4_addr . ether_addr"
  | KT_MAC_IPV4 => "ether_addr . ipv4_addr"
  end.

Definition key_repr (k : ElementKey) : string :=
  match k with
  | KStr s => "'" +:+ s +:+ "'"
  | KPair a b => "('" +:+ a +:+ "', '" +:+ b +:+ "')"
  end.

Record WritableSet : Type := mk_writable { ws_key_type : KeyType; ws_timeout_required : bool }.

(** (family, table, set) *)
Definition set_address : Type := string * string * string.

Definition MANAGER_WRITABLE_SETS : list (set_address * WritableSet) :=
  [ ((INET_FAMILY, ADAPTIVE_TABLE, SET_BLOCK_MAC), mk_writable KT_MAC true);
    ((INET_FAMILY, ADAPTIVE_TABLE, SET_BLOCK4), mk_writable KT_IPV4 true);
    ((INET_FAMILY, ADAPTIVE_TABLE, SET_RATELIMIT_MAC), mk_writable KT_MAC true);
    ((INET_FAMILY, ADAPTIVE_TABLE, SET_RATELIMIT4), mk_writable KT_IPV4 true);
    ((INET_FAMILY, ADAPTIVE_TABLE, SET_ALLOW_BOUND), mk_writable KT_MAC_IPV4 false);
    ((INET_FAMILY, STATIC_TABLE, SET_ALLOW_BOUND), mk_writable KT_MAC_IPV4 false);
    ((INET_FAMILY, STATIC_TABLE, SET_BOUND4), mk_writable KT_IPV4 false);
    ((INET_FAMILY, STATIC_TABLE, SET_MACBIND), mk_writable KT_IPV4_MAC false);
    ((ARP_FAMILY, STATIC_ARP_TABLE, SET_BOUND4), mk_writable KT_IPV4 false);
    ((ARP_FAMILY, STATIC_ARP_TABLE, SET_MACBIND), mk_writable KT_IPV4_MAC false) ].

Definition MAX_ELEMENT_TIMEOUT_SECONDS : Z := 3600.

Inductive SetOpKind := OP_ADD | OP_DELETE.

#[global] Instance SetOpKind_eq_dec : EqDecision SetOpKind.
Proof. solve_decision. Defined.

Record SetOp : Type := mk_op {
  op_kind : SetOpKind;
  op_set_name : string;
  op_key : ElementKey;
  op_timeout_seconds : option Z;
  op_table : string;
  op_family : string;
}.

Definition op_address (o : SetOp) : set_address := (op_family o, op_table o, op_set_name o).

(** [SetOp(kind, set, key, timeout)] with its default table and family. *)
Definition adaptive_op (kind : SetOpKind) (set : string) (key : ElementKey) (timeout : option Z) : SetOp :=
  mk_op kind set key timeout ADAPTIVE_TABLE INET_FAMILY.

Record ElementState : Type := mk_element { el_key : ElementKey; el_expires_in_seconds : option Z }.

(** ** Key normalisation and the write checks *)

Definition _ipv4 (k : ElementKey) : result string :=
  match k with
  | KStr s =>
      match IPv4.parse s with
      | Some a => Ok (IPv4.to_string a)
      | None => Raise (FirewallError ("expected an IPv4 address, got " +:+ key_repr k))
      end
  | KPair _ _ => Raise (FirewallError ("expected an IPv4 address, got " +:+ key_repr k))
  end.

Definition _mac (k : ElementKey) : result string :=
  match k with
  | KStr s =>
      match Mac.validate_unicast s with
      | Some m => Ok m
      | None => Raise (FirewallError ("expected a unicast MAC address, got " +:+ key_repr k))
      end
  | KPair _ _ => Raise (FirewallError ("expected a MAC address, got " +:+ key_repr k))
  end.

Definition normalise_key (t : KeyType) (k : ElementKey) : result ElementKey :=
  match t with
  | KT_IPV4 => rbind (_ipv4 k) (λ s, Ok (KStr s))
  | KT_MAC => rbind (_mac k) (λ s, Ok (KStr s))
  | KT_IPV4_MAC | KT_MAC_IPV4 =>
      match k with
      | KStr _ => Raise (FirewallError (key_type_value t +:+ " needs a two-part key, got " +:+ key_repr k))
      | KPair a b =>
          match t with
          | KT_IPV4_MAC => rbind (_ipv4 (KStr a)) (λ x, rbind (_mac (KStr b)) (λ y, Ok (KPair x y)))
          | _ => rbind (_mac (KStr a)) (λ x, rbind (_ipv4 (KStr b)) (λ y, Ok (KPair x y)))
          end
      end
  end.

Definition validate_element (op : SetOp) : result unit :=
  match dget MANAGER_WRITABLE_SETS (op_address op) with
  | None =>
      Raise (FirewallError ("refusing to write " +:+ op_family op +:+ " " +:+ op_table op +:+ " "
        +:+ op_set_name op +:+ ": core is not this set's writer (D1)"))
  | Some shape =>
      rbind (normalise_key (ws_key_type shape) (op_key op)) (λ norm,
      if negb (bool_decide (norm = op_key op)) then
        Raise (FirewallError ("key " +:+ key_repr (op_key op) +:+ " is not a normalised "
          +:+ key_type_value (ws_key_type shape)))
      else if negb (bool_decide (op_kind op = OP_ADD)) then Ok tt
      else match op_timeout_seconds op with
           | None =>
               if ws_timeout_required shape then
                 Raise (FirewallError ("refusing an element without a timeout in " +:+ op_set_name op +:+ " (D1)"))
               else Ok tt
           | Some t =>
               if t <=? 0 then
                 Raise (FirewallError ("element timeout " +:+ pretty t +:+ "s must be positive"))
               else if ws_timeout_required shape && (MAX_ELEMENT_TIMEOUT_SECONDS <? t) then
                 Raise (FirewallError ("element timeout " +:+ pretty t +:+ "s outside 1..3600s"))
               else Ok tt
           end)
  end.

Definition writable_set (family table set_name : string) : result WritableSet :=
  match dget MANAGER_WRITABLE_SETS (family, table, set_name) with
  | None => Raise (FirewallError (family +:+ " " +:+ table +:+ " " +:+ set_name
      +:+ " is not a manager-writable set"))
  | Some shape => Ok shape
  end.

(** ** Rule to element *)

(** [device_target]: the LAN device a rule's enforcement keys on.  The [mac]
    argument is re-validated, and Pydantic raises where it is not one. *)
Definition device_target (rule : RuleFields) (protected : IPv4.network) (mac : option string)
  : result (option RuleTarget) :=
  let source := rf_source rule in
  if negb (IPv4.prefixlen source =? 32) || negb (IPv4.subnet_of source protected) then Ok None
  else match mac with
       | None => Ok (Some (mk_target (IPv4.net_addr source) None))
       | Some m =>
           match Mac.validate_unicast m with
           | Some m' => Ok (Some (mk_target (IPv4.net_addr source) (Some m')))
           | None => Raise (ValueError "a MAC address must be unicast")
           end
       end.

Definition enforcement_set_for (action : FirewallAction) (target : RuleTarget) : option string :=
  match action with
  | BLOCK => Some (match rt_mac target with Some _ => SET_BLOCK_MAC | None => SET_BLOCK4 end)
  | RATE_LIMIT => Some (match rt_mac target with Some _ => SET_RATELIMIT_MAC | None => SET_RATELIMIT4 end)
  | _ => None
  end.

Definition element_key (set_name : string) (target : RuleTarget) : result string :=
  rbind (writable_set INET_FAMILY ADAPTIVE_TABLE set_name) (λ shape,
  match ws_key_type shape with
  | KT_MAC =>
      match rt_mac target with
      | None => Raise (FirewallError (set_name +:+ " needs a MAC, and the target has none"))
      | Some m => Ok m
      end
  | _ => Ok (IPv4.to_string (rt_ip target))
  end).

Definition element_timeout_seconds (expires_at now max_ttl_seconds : Z) : Z :=
  let remaining := whole_seconds (expires_at - now) in
  Z.max 1 (Z.min (Z.min remaining max_ttl_seconds) MAX_ELEMENT_TIMEOUT_SECONDS).

(** ** Guards (firewall/guards.py) *)

Definition ALL_OBSERVE : list (GuardName * GuardMode) := (λ g, (g, OBSERVE)) <$> all_guards.

(** The single rule of a verdict chain: its counter, then [drop] in ENFORCE. *)
Inductive nft_expr := ExprCounter (name : string) | ExprDrop.

Definition guard_verdict_counter (g : GuardName) : string := "c_verdict_" +:+ guard_value g.

Definition verdict_expressions (g : GuardName) (m : GuardMode) : list nft_expr :=
  ExprCounter (guard_verdict_counter g) :: (if decide (m = ENFORCE) then [ExprDrop] else []).

Inductive nft_command :=
| CmdFlushChain (chain : string)
| CmdAddRule (chain : string) (expr : list nft_expr).

Definition guard_verdict_chain (g : GuardName) : string := "guard_verdict_" +:+ guard_value g.

Definition guard_mode_commands (modes : list (GuardName * GuardMode)) : list nft_command :=
  all_guards ≫= (λ g,
    match dget modes g with
    | None => []
    | Some m => [CmdFlushChain (guard_verdict_chain g);
                 CmdAddRule (guard_verdict_chain g) (verdict_expressions g m)]
    end).

Definition mode_from_rules (rules : list (list nft_expr)) : GuardMode :=
  if existsb (existsb (λ e, match e with ExprDrop => true | _ => false end)) rules
  then ENFORCE else OBSERVE.

Definition effective_raw_mode (configured : GuardMode) (bindings_seeded : bool) : GuardMode :=
  match configured with
  | ENFORCE => if bindings_seeded then ENFORCE else OBSERVE
  | OBSERVE => OBSERVE
  end.

(** ** Facts *)

Lemma _mac_ok m : Mac.unicast m → _mac (KStr m) = Ok m.
Proof. unfold Mac.unicast, _mac. intros H. by rewrite H. Qed.

Lemma _ipv4_ok a : IPv4.valid a → _ipv4 (KStr (IPv4.to_string a)) = Ok (IPv4.to_string a).
Proof. intros H. unfold _ipv4. by rewrite IPv4.parse_to_string. Qed.

Lemma element_timeout_bounds expires now max_ttl :
  0 < max_ttl → let t := element_timeout_seconds expires now max_ttl in
  1 ≤ t ≤ MAX_ELEMENT_TIMEOUT_SECONDS ∧ t ≤ max_ttl.
Proof. unfold element_timeout_seconds, MAX_ELEMENT_TIMEOUT_SECONDS. lia. Qed.

Lemma device_target_wf rule protected mac t :
  IPv4.wf (rf_source rule) → device_target rule protected mac = Ok (Some t) → target_wf t.
Proof.
  unfold device_target. intros Hwf. destruct (_ || _); [done|].
  destruct mac as [m|].
  - destruct (Mac.validate_unicast m) as [m'|] eqn:Hm; [|done]. intros [= <-].
    split; [apply Hwf|]. simpl. intros ? [= <-]. by eapply Mac.validate_unicast_idempotent.
  - intros [= <-]. split; [apply Hwf|done].
Qed.

(** The enforcement sets and the key type of the set chosen for a target. *)
Lemma enforcement_set_shape action target set :
  enforcement_set_for action target = Some set →
  restrictive action = true ∧ set ∈ ADAPTIVE_ENFORCEMENT_SETS ∧
  dget MANAGER_WRITABLE_SETS (INET_FAMILY, ADAPTIVE_TABLE, set) =
    Some (mk_writable (match rt_mac target with Some _ => KT_MAC | None => KT_IPV4 end) true).
Proof.
  destruct action, target as [ip [m|]]; simpl; intros [= <-];
    (split; [done|]; split; [unfold ADAPTIVE_ENFORCEMENT_SETS; set_solver|reflexivity]).
Qed.

(** The element the manager builds for a well-formed target always passes
    the write gate [validate_element]: it is in a writable set, its key is
    already in normal form for that set, and its timeout is one the set
    requires and allows. *)
Theorem enforcement_element_valid action target set key timeout :
  target_wf target → enforcement_set_for action target = Some set →
  element_key set target = Ok key → 1 ≤ timeout ≤ MAX_ELEMENT_TIMEOUT_SECONDS →
  validate_element (adaptive_op OP_ADD set (KStr key) (Some timeout)) = Ok tt.
Proof.
  intros [Hip Hmac] Hset Hkey Ht. apply enforcement_set_shape in Hset as (_ & _ & Hshape).
  unfold element_key, writable_set in Hkey. rewrite Hshape in Hkey. cbn [rbind ws_key_type] in Hkey.
  unfold validate_element, op_address. cbn [adaptive_op op_family op_table op_set_name op_key op_kind op_timeout_seconds].
  rewrite Hshape. cbn [ws_key_type ws_timeout_required normalise_key].
  assert (Hk : normalise_key (match rt_mac target with Some _ => KT_MAC | None => KT_IPV4 end) (KStr key) = Ok (KStr key)).
  { destruct (rt_mac target) as [m|]; injection Hkey as <-; cbn [normalise_key].
    - by rewrite _mac_ok by auto.
    - by rewrite _ipv4_ok. }
  rewrite Hk. cbn [rbind]. rewrite !bool_decide_eq_true_2 by done. cbn [negb].
  replace (timeout <=? 0) with false by lia.
  replace (MAX_ELEMENT_TIMEOUT_SECONDS <? timeout) with false by lia. done.
Qed.

Lemma element_key_total action target set :
  enforcement_set_for action target = Some set →
  element_key set target = Ok (match rt_mac target with Some m => m | None => IPv4.to_string (rt_ip target) end).
Proof.
  intros Hset. apply enforcement_set_shape in Hset as (_ & _ & Hshape).
  unfold element_key, writable_set. rewrite Hshape. simpl. by destruct (rt_mac target).
Qed.

(** ** The write checks raise nothing but [FirewallError] *)

Definition firewall_only {A} (r : result A) : Prop := ∀ e, r = Raise e → ∃ msg, e = FirewallError msg.

Lemma firewall_only_ok {A} (a : A) : firewall_only (Ok a).
Proof. by intros e. Qed.
Lemma firewall_only_raise {A} msg : firewall_only (A:=A) (Raise (FirewallError msg)).
Proof. intros e [= <-]. by eauto. Qed.
Lemma firewall_only_rbind {A B} (r : result A) (k : A → result B) :
  firewall_only r → (∀ a, firewall_only (k a)) → firewall_only (rbind r k).
Proof. destruct r as [a|e]; simpl; [auto|]. intros Hr _ e' [= <-]. by apply Hr. Qed.
#[export] Hint Resolve firewall_only_ok firewall_only_raise firewall_only_rbind : pirewall.

Lemma _ipv4_firewall_only k : firewall_only (_ipv4 k).
Proof. unfold _ipv4. destruct k; [|auto with pirewall]. destruct (IPv4.parse s); auto with pirewall. Qed.
Lemma _mac_firewall_only k : firewall_only (_mac k).
Proof. unfold _mac. destruct k; [|auto with pirewall]. destruct (Mac.validate_unicast s); auto with pirewall. Qed.
#[export] Hint Resolve _ipv4_firewall_only _mac_firewall_only : pirewall.

Lemma normalise_key_firewall_only t k : firewall_only (normalise_key t k).
Proof. unfold normalise_key. destruct t; destruct k; auto with pirewall. Qed.
#[export] Hint Resolve normalise_key_firewall_only : pirewall.

Lemma validate_element_firewall_only op : firewall_only (validate_element op).
Proof.
  unfold validate_element. destruct (dget _ _) as [shape|]; [|auto with pirewall].
  apply firewall_only_rbind; [auto with pirewall|]. intros norm.
  repeat first [apply firewall_only_raise | apply firewall_only_ok | case_match].
Qed.

Lemma validate_elements_firewall_only ops : firewall_only (rforall validate_element ops).
Proof.
  induction ops as [|op ops IH]; simpl; [auto with pirewall|].
  apply firewall_only_rbind; [apply validate_element_firewall_only|done].
Qed.

Lemma writable_set_firewall_only f t s : firewall_only (writable_set f t s).
Proof. unfold writable_set. destruct (dget _ _); auto with pirewall. Qed.

(** ** Guard modes through the kernel

    [nft] itself is not part of the repository: its verdict chains are an
    abstract state with what its manual says of the two commands used. *)

Section GuardChains.
Context {chains : Type} (rules_of : chains → string → list (list nft_expr)) (exec : nft_command → chains → chains).

(** [flush chain] empties that chain and no other; [add rule] appends to it. *)
Definition nft_executes : Prop :=
  ∀ cmd s c, rules_of (exec cmd s) c =
    match cmd with
    | CmdFlushChain c' => if decide (c = c') then [] else rules_of s c
    | CmdAddRule c' expr => if decide (c = c') then rules_of s c ++ [expr] else rules_of s c
    end.

Definition run_commands (cmds : list nft_command) (s : chains) : chains := foldl (λ s cmd, exec cmd s) s cmds.

Lemma guard_verdict_chain_inj g h : guard_verdict_chain g = guard_verdict_chain h → g = h.
Proof. by destruct g, h. Qed.

(** One guard's two commands leave its chain with the one rule of its mode. *)
Lemma flip_guard g md s c : nft_executes →
  rules_of (run_commands [CmdFlushChain (guard_verdict_chain g);
                          CmdAddRule (guard_verdict_chain g) (verdict_expressions g md)] s) c =
  if decide (c = guard_verdict_chain g) then [verdict_expressions g md] else rules_of s c.
Proof. intros Hex. unfold run_commands. cbn [foldl]. rewrite !Hex. by case_decide. Qed.

Lemma run_guards modes gs g : nft_executes → NoDup gs → ∀ s,
  rules_of (run_commands (gs ≫= (λ g,
    match dget modes g with
    | None => []
    | Some m => [CmdFlushChain (guard_verdict_chain g); CmdAddRule (guard_verdict_chain g) (verdict_expressions g m)]
    end)) s) (guard_verdict_chain g) =
  match dget modes g with
  | Some md => if decide (g ∈ gs) then [verdict_expressions g md] else rules_of s (guard_verdict_chain g)
  | None => rules_of s (guard_verdict_chain g)
  end.
Proof.
  intros Hex. induction gs as [|h gs IH]; intros Hnd s; [by destruct (dget modes g)|].
  apply NoDup_cons in Hnd as [Hh Hnd]. rewrite bind_cons. unfold run_commands at 1. rewrite foldl_app.
  change (foldl _ ?x ?l) with (run_commands l x). rewrite (IH Hnd). clear IH.
  assert (Hstep : rules_of (run_commands (match dget modes h with
                    | None => []
                    | Some m => [CmdFlushChain (guard_verdict_chain h); CmdAddRule (guard_verdict_chain h) (verdict_expressions h m)]
                    end) s) (guard_verdict_chain g) =
                  match dget modes h with
                  | Some md => if decide (g = h) then [verdict_expressions h md] else rules_of s (guard_verdict_chain g)
                  | None => rules_of s (guard_verdict_chain g)
                  end).
  { destruct (dget modes h); [|done]. rewrite flip_guard by done. destruct (decide (g = h)) as [->|Hne]; [by rewrite decide_True|].
    rewrite decide_False; [done|]. intros Heq. by apply Hne, guard_verdict_chain_inj. }
  change (foldl _ ?x ?l) with (run_commands l x) in *. rewrite Hstep.
  destruct (decide (g = h)) as [->|Hne].
  - destruct (dget modes h); [|done]. rewrite decide_False, decide_True by (done || set_solver). done.
  - destruct (dget modes g); [|by destruct (dget modes h)].
    destruct (decide (g ∈ gs)); [rewrite decide_True by set_solver; done|rewrite decide_False by set_solver].
    by destruct (dget modes h).
Qed.

(** Executing [guard_mode_commands] sets exactly the guards it is given:
    reading any verdict chain back gives the requested mode, and a guard
    that was not named reads as before. *)
Theorem guard_commands_set_modes modes g s :
  nft_executes →
  mode_from_rules (rules_of (run_commands (guard_mode_commands modes) s) (guard_verdict_chain g)) =
    default (mode_from_rules (rules_of s (guard_verdict_chain g))) (dget modes g).
Proof.
  intros Hex. unfold guard_mode_commands. rewrite run_guards; [|done|apply (bool_decide_unpack _); vm_compute; exact I].
  destruct (dget modes g) as [md|]; [|done].
  rewrite decide_True by (destruct g; apply (bool_decide_unpack _); vm_compute; exact I). by destruct md.
Qed.
End GuardChains.

(** Chains as association lists: an [nft] for which the above holds. *)
Definition listed_chains : Type := list (string * list (list nft_expr)).
Definition rules_in (s : listed_chains) (c : string) : list (list nft_expr) := default [] (dget s c).
Definition exec_listed (cmd : nft_command) (s : listed_chains) : listed_chains :=
  match cmd with
  | CmdFlushChain c => dset s c []
  | CmdAddRule c expr => dset s c (rules_in s c ++ [expr])
  end.

Lemma exec_listed_executes : nft_executes rules_in exec_listed.
Proof.
  intros cmd s c. unfold rules_in. destruct cmd as [c'|c' expr]; cbn [exec_listed]; rewrite dget_set;
    destruct (decide (c' = c)) as [->|]; [by rewrite decide_True|by rewrite decide_False|by rewrite decide_True|by rewrite decide_False].
Qed.

Lemma guard_commands_set_modes_witness :
  mode_from_rules (rules_in (run_commands exec_listed (guard_mode_commands [(RAW, ENFORCE)]) []) (guard_verdict_chain RAW)) = ENFORCE.
Proof. exact (guard_commands_set_modes rules_in exec_listed [(RAW, ENFORCE)] RAW [] exec_listed_executes). Defined.

Lemma enforcement_element_valid_witness :
  validate_element (adaptive_op OP_ADD SET_BLOCK_MAC (KStr "02:00:00:00:00:20") (Some 300)) = Ok tt.
Proof.
  apply (enforcement_element_valid BLOCK (mk_target 3232236820 (Some "02:00:00:00:00:20")));
    [split; [split; vm_compute; done|intros m [= <-]; vm_compute; reflexivity]|reflexivity|reflexivity|unfold MAX_ELEMENT_TIMEOUT_SECONDS; lia].
Defined.
