(* ===== verification/SetBackend.v ===== *)
(** * The kernel set backend (firewall/sets.py [SetBackend])

    [SetBackend] is the protocol [FirewallManager] is written against, as a
    class of operations; [SetBackendLaws] is its documented contract, stated
    over what the kernel holds (live elements, guard modes, loaded tables).
    The manager's theorems use only the laws; [FakeSets] and [NftablesLaws]
    prove them of the two implementations. *)

From S2P Require Import Prelude Net Models Sets.
Local Open Scope Z_scope.

Class SetBackend (B : Type) := {
  sb_apply : list SetOp → M B unit;
  sb_flush_sets : list string → M B unit;
  sb_list_set : set_address → M B (list ElementState);
  sb_set_fill : set_address → M B (Z * option Z);
  sb_read_counters : list string → M B (list (string * Z));
  sb_set_guard_modes : list (GuardName * GuardMode) → M B unit;
  sb_guard_mode : GuardName → M B (option GuardMode);
  sb_table_exists : string → string → M B bool;
  sb_panic : M B (list (string * string));
  sb_health_check : M B bool;
}.

(** ** The contract *)

(** What one element operation does to one key of the set it addresses:
    deletion is idempotent, re-adding a live element keeps its expiry. *)
Definition op_effect (clock : Z) (op : SetOp) (cur : option (option Z)) : option (option Z) :=
  match op_kind op with
  | OP_DELETE => None
  | OP_ADD =>
      match cur with
      | Some e => Some e
      | None => Some ((λ t, clock + seconds t) <$> op_timeout_seconds op)
      end
  end.

(** A whole batch, seen from one key of one set. *)
Definition ops_effect (clock : Z) (a : set_address) (k : ElementKey)
  (cur : option (option Z)) (ops : list SetOp) : option (option Z) :=
  foldl (λ cur op,
    if decide (op_address op = a ∧ op_key op = k) then op_effect clock op cur else cur) cur ops.

Record kernel_view : Type := mk_view {
  kv_now : Z;
  kv_elem : set_address → ElementKey → option (option Z);
  kv_guard : GuardName → option GuardMode;
  kv_table : string * string → bool;
}.

(** Two backends the kernel cannot tell apart. *)
Definition view_eq (v w : kernel_view) : Prop :=
  kv_now v = kv_now w ∧ (∀ a k, kv_elem v a k = kv_elem w a k) ∧
  (∀ g, kv_guard v g = kv_guard w g) ∧ (∀ l, kv_table v l = kv_table w l).

#[global] Instance view_eq_equivalence : Equivalence view_eq.
Proof.
  split.
  - by intros v.
  - intros v w (?&?&?&?). by repeat split.
  - intros v w x (H1&H2&H3&H4) (G1&G2&G3&G4).
    repeat split; intros; [by rewrite H1 | by rewrite H2 | by rewrite H3 | by rewrite H4].
Qed.

(** What remains of an element's life, in whole seconds. *)
Definition view_remaining (v : kernel_view) (x : option Z) : option Z :=
  (λ x, Z.max 0 (whole_seconds (x - kv_now v))) <$> x.

Definition adaptive_address (set : string) : set_address := (INET_FAMILY, ADAPTIVE_TABLE, set).
Definition address_table (a : set_address) : string * string := (a.1.1, a.1.2).

Class SetBackendLaws (B : Type) `{SetBackend B} := {
  sb_view : B → kernel_view;
  (** Every write is one atomic batch: all of it, or an unchanged kernel and
      a [FirewallError]. *)
  apply_law : ∀ ops b r b', sb_apply ops b = (r, b') →
    match r with
    | Ok _ =>
        Forall (λ op, validate_element op = Ok tt) ops ∧
        kv_now (sb_view b') = kv_now (sb_view b) ∧
        (∀ a k, kv_elem (sb_view b') a k =
                ops_effect (kv_now (sb_view b)) a k (kv_elem (sb_view b) a k) ops) ∧
        (∀ g, kv_guard (sb_view b') g = kv_guard (sb_view b) g) ∧
        (∀ l, kv_table (sb_view b') l = kv_table (sb_view b) l)
    | Raise e => view_eq (sb_view b') (sb_view b) ∧ ∃ msg, e = FirewallError msg
    end;
  flush_law : ∀ names b r b', sb_flush_sets names b = (r, b') →
    match r with
    | Ok _ =>
        kv_now (sb_view b') = kv_now (sb_view b) ∧
        (∀ a k, kv_elem (sb_view b') a k =
                if decide (a ∈ adaptive_address <$> names) then None else kv_elem (sb_view b) a k) ∧
        (∀ g, kv_guard (sb_view b') g = kv_guard (sb_view b) g) ∧
        (∀ l, kv_table (sb_view b') l = kv_table (sb_view b) l)
    | Raise e => view_eq (sb_view b') (sb_view b) ∧ ∃ msg, e = FirewallError msg
    end;
  guards_law : ∀ modes b r b', sb_set_guard_modes modes b = (r, b') →
    match r with
    | Ok _ =>
        kv_now (sb_view b') = kv_now (sb_view b) ∧
        (∀ a k, kv_elem (sb_view b') a k = kv_elem (sb_view b) a k) ∧
        (∀ g m, dget modes g = Some m → NoDup (dkeys modes) → kv_guard (sb_view b') g = Some m) ∧
        (∀ g, dget modes g = None → kv_guard (sb_view b') g = kv_guard (sb_view b) g) ∧
        (∀ l, kv_table (sb_view b') l = kv_table (sb_view b) l)
    | Raise e => view_eq (sb_view b') (sb_view b) ∧ ∃ msg, e = FirewallError msg
    end;
  panic_law : ∀ b r b', sb_panic b = (r, b') →
    match r with
    | Ok deleted =>
        deleted = PANIC_TABLES ∧
        kv_now (sb_view b') = kv_now (sb_view b) ∧
        (∀ a k, kv_elem (sb_view b') a k =
                if decide (address_table a ∈ PANIC_TABLES) then None else kv_elem (sb_view b) a k) ∧
        (∀ l, kv_table (sb_view b') l =
              if decide (l ∈ PANIC_TABLES) then false else kv_table (sb_view b) l) ∧
        (∀ g, kv_guard (sb_view b') g = None)
    | Raise e => view_eq (sb_view b') (sb_view b) ∧ ∃ msg, e = FirewallError msg
    end;
  list_law : ∀ a b r b', sb_list_set a b = (r, b') →
    view_eq (sb_view b') (sb_view b) ∧
    match r with
    | Ok els =>
        (∀ k e, mk_element k e ∈ els → is_Some (kv_elem (sb_view b) a k)) ∧
        (∀ k x, kv_elem (sb_view b) a k = Some x → mk_element k (view_remaining (sb_view b) x) ∈ els)
    | Raise e => ∃ msg, e = FirewallError msg
    end;
  (** A guard whose chain cannot be read is reported as unknown. *)
  guard_mode_law : ∀ g b r b', sb_guard_mode g b = (r, b') →
    view_eq (sb_view b') (sb_view b) ∧ (r = Ok (kv_guard (sb_view b) g) ∨ r = Ok None);
  table_exists_law : ∀ f t b r b', sb_table_exists f t b = (r, b') →
    view_eq (sb_view b') (sb_view b) ∧
    match r with
    | Ok loaded => loaded = kv_table (sb_view b) (f, t)
    | Raise e => ∃ msg, e = FirewallError msg
    end;
  (** Fill levels and counters are read, never reset. *)
  set_fill_law : ∀ a b r b', sb_set_fill a b = (r, b') →
    view_eq (sb_view b') (sb_view b) ∧
    match r with Ok _ => True | Raise e => ∃ msg, e = FirewallError msg end;
  read_counters_law : ∀ names b r b', sb_read_counters names b = (r, b') →
    view_eq (sb_view b') (sb_view b) ∧
    match r with Ok _ => True | Raise e => ∃ msg, e = FirewallError msg end;
}.

(** ** Reasoning about batches *)

Lemma ops_effect_app clock a k cur ops1 ops2 :
  ops_effect clock a k cur (ops1 ++ ops2) = ops_effect clock a k (ops_effect clock a k cur ops1) ops2.
Proof. apply foldl_app. Qed.

Lemma ops_effect_other clock a k cur ops :
  (∀ op, op ∈ ops → op_address op = a → op_key op ≠ k) → ops_effect clock a k cur ops = cur.
Proof.
  revert cur. induction ops as [|op ops IH]; intros cur Hne; [done|].
  unfold ops_effect in *. simpl. rewrite decide_False; [apply IH; set_solver|].
  intros [? ?]. by eapply (Hne op); [set_solver|..].
Qed.

(** Deletions add nothing. *)
Lemma ops_effect_absent clock a k ops :
  (∀ op, op ∈ ops → op_address op = a → op_key op = k → op_kind op = OP_DELETE) →
  ops_effect clock a k None ops = None.
Proof.
  induction ops as [|o l IH]; intros Hl; [done|]. unfold ops_effect in *. simpl.
  case_decide as Ho; [|apply IH; intros; apply Hl; set_solver].
  unfold op_effect. rewrite (Hl o) by set_solver. apply IH; intros; apply Hl; set_solver.
Qed.

(** A batch whose every operation on a key deletes leaves no element there. *)
Lemma ops_effect_deletes clock a k ops :
  (∀ op, op ∈ ops → op_address op = a → op_key op = k → op_kind op = OP_DELETE) →
  (∃ op, op ∈ ops ∧ op_address op = a ∧ op_key op = k) → 
  ∀ cur, ops_effect clock a k cur ops = None.
Proof.
  intros Hd (op & Hin & Ha & Hk) cur.
  apply list_elem_of_split in Hin as (l1 & l2 & ->).
  change (op :: l2) with ([op] ++ l2). rewrite !ops_effect_app.
  replace (ops_effect clock a k _ [op]) with (@None (option Z));
    [apply ops_effect_absent; intros; apply Hd; set_solver|].
  unfold ops_effect at 1. simpl. rewrite decide_True by done. unfold op_effect.
  by rewrite (Hd op) by set_solver.
Qed.

(** A batch that adds a key it never deletes leaves an element there. *)
Lemma ops_effect_adds clock a k ops op :
  op ∈ ops → op_address op = a → op_key op = k →
  (∀ o, o ∈ ops → op_address o = a → op_key o = k → op_kind o = OP_ADD) →
  ∀ cur, is_Some (ops_effect clock a k cur ops).
Proof.
  intros Hin Ha Hk Hadd.
  assert (Hkeep : ∀ l cur, (∀ o, o ∈ l → op_address o = a → op_key o = k → op_kind o = OP_ADD) →
            is_Some cur → is_Some (ops_effect clock a k cur l)).
  { clear. induction l as [|o l IH]; intros cur Hl Hs; [done|]. unfold ops_effect in *. simpl.
    apply IH; [intros; apply Hl; set_solver|]. case_decide as Hd; [|done]. unfold op_effect.
    rewrite (Hl o) by set_solver. by destruct Hs as [? ->]. }
  apply list_elem_of_split in Hin as (l1 & l2 & ->). intros cur.
  change (op :: l2) with ([op] ++ l2). rewrite !ops_effect_app. apply Hkeep; [intros; apply Hadd; set_solver|].
  unfold ops_effect. simpl. rewrite decide_True by done. unfold op_effect.
  rewrite (Hadd op) by set_solver. by case_match.
Qed.

(** ** Writes

    What a caller can do to the kernel through the protocol, and what each
    write means when it is committed. *)

Inductive set_write : Type :=
| WApply (ops : list SetOp)
| WFlush (names : list string)
| WGuards (modes : list (GuardName * GuardMode))
| WPanic.

Definition write_spec (w : set_write) (v : kernel_view) : kernel_view :=
  match w with
  | WApply ops => mk_view (kv_now v) (λ a k, ops_effect (kv_now v) a k (kv_elem v a k) ops) (kv_guard v) (kv_table v)
  | WFlush names =>
      mk_view (kv_now v) (λ a k, if decide (a ∈ adaptive_address <$> names) then None else kv_elem v a k) (kv_guard v) (kv_table v)
  | WGuards modes =>
      mk_view (kv_now v) (kv_elem v) (λ g, match dget modes g with Some m => Some m | None => kv_guard v g end) (kv_table v)
  | WPanic =>
      mk_view (kv_now v) (λ a k, if decide (address_table a ∈ PANIC_TABLES) then None else kv_elem v a k) (λ _, None)
        (λ l, if decide (l ∈ PANIC_TABLES) then false else kv_table v l)
  end.
(** The kernel at a later instant: elements whose time is up are gone. *)
Definition view_at (now : Z) (v : kernel_view) : kernel_view :=
  mk_view now (λ a k, match kv_elem v a k with
                      | Some (Some e) => if now <? e then Some (Some e) else None
                      | x => x
                      end) (kv_guard v) (kv_table v).
(** Writes one after another, each at its instant, with whether it was
    committed. *)
Definition timed_spec (ws : list (Z * set_write * bool)) (v : kernel_view) : kernel_view :=
  foldl (λ v '(now, w, committed), if committed : bool then write_spec w (view_at now v) else view_at now v) v ws.

(** A guard map is a Python dict: no key occurs twice. *)
Definition write_wf (w : set_write) : Prop := match w with WGuards modes => NoDup (dkeys modes) | _ => True end.

#[global] Instance write_spec_proper w : Proper (view_eq ==> view_eq) (write_spec w).
Proof.
  intros v v' (H1 & H2 & H3 & H4). destruct w; repeat split; cbn; intros; rewrite ?H1, ?H2, ?H3, ?H4; done.
Qed.

#[global] Instance view_at_proper now : Proper (view_eq ==> view_eq) (view_at now).
Proof. intros v v' (H1 & H2 & H3 & H4). repeat split; cbn; intros; rewrite ?H2, ?H3, ?H4; done. Qed.

#[global] Instance timed_spec_proper ws : Proper (view_eq ==> view_eq) (timed_spec ws).
Proof.
  unfold timed_spec. induction ws as [|[[now w] []] ws IH]; intros v v' Hv; cbn [foldl]; [done|apply IH; by rewrite Hv..].
Qed.

Definition do_write {B} `{SetBackend B} (w : set_write) : M B unit :=
  match w with
  | WApply ops => sb_apply ops
  | WFlush names => sb_flush_sets names
  | WGuards modes => sb_set_guard_modes modes
  | WPanic => _ ← sb_panic; mret tt
  end.
