(* ===== verification/FakeSets.v ===== *)
(** * The in-memory kernel (pirewall/firewall/backend/fake_sets.py)

    [FakeSetBackend] with its clock, its loaded tables, its staged (atomic)
    [apply], its guard modes, its counters and its failure injection, and
    the proof that it meets the contract of [SetBackend]. *)

From S2P Require Import Prelude Net Models Sets SetBackend.
Local Open Scope Z_scope.

Definition elements : Type := list (ElementKey * option Z).

(** [_FakeSet] *)
Record FakeSet : Type := mk_fake_set { fset_size : option Z; fset_elements : elements }.

Definition location : Type := string * string.

Inductive logged_op :=
| LogApply (ops : list SetOp)
| LogFlush (names : list string)
| LogGuards (modes : list (GuardName * GuardMode))
| LogPanic.

Record FakeSetBackend : Type := mk_fake {
  fk_now : Z;                                      (** [now_fn()] *)
  fk_adaptive_size : Z;
  fk_binding_size : Z;
  fk_tables : list (location * list (string * FakeSet));
  fk_guards : list (GuardName * GuardMode);
  fk_counters : list (location * list (string * Z));
  fk_ops : list logged_op;
  fk_fail_next : bool;
  fk_calls : Z;
  fk_failures : Z;
}.

Definition DEFAULT_GUARD_MODES : list (GuardName * GuardMode) :=
  [(RAW, ENFORCE); (INPUT, ENFORCE); (FORWARD, OBSERVE)].

(** ** Field updates *)

Definition fk_with_tables (b : FakeSetBackend) ts : FakeSetBackend :=
  mk_fake (fk_now b) (fk_adaptive_size b) (fk_binding_size b) ts (fk_guards b) (fk_counters b)
    (fk_ops b) (fk_fail_next b) (fk_calls b) (fk_failures b).
Definition fk_with_guards (b : FakeSetBackend) gs : FakeSetBackend :=
  mk_fake (fk_now b) (fk_adaptive_size b) (fk_binding_size b) (fk_tables b) gs (fk_counters b)
    (fk_ops b) (fk_fail_next b) (fk_calls b) (fk_failures b).
Definition fk_log (b : FakeSetBackend) o : FakeSetBackend :=
  mk_fake (fk_now b) (fk_adaptive_size b) (fk_binding_size b) (fk_tables b) (fk_guards b) (fk_counters b)
    (fk_ops b ++ [o]) (fk_fail_next b) (fk_calls b) (fk_failures b).
Definition fk_fail (b : FakeSetBackend) : FakeSetBackend :=
  mk_fake (fk_now b) (fk_adaptive_size b) (fk_binding_size b) (fk_tables b) (fk_guards b) (fk_counters b)
    (fk_ops b) (fk_fail_next b) (fk_calls b) (fk_failures b + 1).

(** ** Loading the reviewed tables *)

(** [load_tables]: an idempotent reload that keeps existing elements. *)
Definition load_sets (size : Z) (names : list string) (sets : list (string * FakeSet))
  : list (string * FakeSet) :=
  foldl (λ acc n, dsetdefault acc n (mk_fake_set (Some size) [])) sets names.

Definition load_table (ts : list (location * list (string * FakeSet))) (l : location)
  (f : list (string * FakeSet) → list (string * FakeSet)) :=
  match dget ts l with
  | Some sets => dset ts l (f sets)
  | None => dset ts l (f [])
  end.

Definition load_tables (b : FakeSetBackend) (modes : option (list (GuardName * GuardMode)))
  : FakeSetBackend :=
  let ts := fk_tables b in
  let ts := load_table ts (INET_FAMILY, BASE_TABLE) id in
  let ts := load_table ts (INET_FAMILY, PORTAL_TABLE) id in
  let ts := load_table ts (INET_FAMILY, ADAPTIVE_TABLE) (λ sets,
    load_sets (fk_binding_size b) [SET_ALLOW_BOUND]
      (load_sets (fk_adaptive_size b) ADAPTIVE_ENFORCEMENT_SETS sets)) in
  let ts := load_table ts (INET_FAMILY, STATIC_TABLE) (λ sets,
    load_sets (fk_adaptive_size b) (SET_OFFENDERS :: py_sorted String.leb STATIC_METER_SETS)
      (load_sets (fk_binding_size b) [SET_BOUND4; SET_MACBIND; SET_ALLOW_BOUND] sets)) in
  let ts := load_table ts (ARP_FAMILY, STATIC_ARP_TABLE)
    (load_sets (fk_binding_size b) [SET_BOUND4; SET_MACBIND]) in
  let guards := foldl (λ acc g,
    match modes ≫= (λ ms, dget ms g) with
    | Some m => dset acc g m
    | None => match dget DEFAULT_GUARD_MODES g with
              | Some m => dsetdefault acc g m
              | None => acc
              end
    end) (fk_guards b) all_guards in
  fk_with_guards (fk_with_tables b ts) guards.

(** [FakeSetBackend(now_fn, adaptive_size=..., binding_size=..., guard_modes=...)] *)
Definition new_fake (now adaptive binding : Z) (modes : option (list (GuardName * GuardMode)))
  : FakeSetBackend :=
  load_tables (mk_fake now adaptive binding [] [] [] [] false 0 0) modes.

(** ** Helpers *)

Definition expired_at (now : Z) (p : ElementKey * option Z) : bool :=
  match p.2 with None => false | Some e => e <=? now end.

Definition _live (els : elements) (now : Z) : elements :=
  filter (λ p, expired_at now p = false) els.

Definition _begin : M FakeSetBackend unit := λ b,
  let b1 := mk_fake (fk_now b) (fk_adaptive_size b) (fk_binding_size b) (fk_tables b) (fk_guards b)
    (fk_counters b) (fk_ops b) (fk_fail_next b) (fk_calls b + 1) (fk_failures b) in
  if fk_fail_next b1 then
    (Raise (FirewallError "simulated set backend failure"),
     mk_fake (fk_now b) (fk_adaptive_size b) (fk_binding_size b) (fk_tables b) (fk_guards b)
       (fk_counters b) (fk_ops b) false (fk_calls b + 1) (fk_failures b + 1))
  else (Ok tt, b1).

(** [self.failures += 1; raise FirewallError(msg)] *)
Definition fail_with {A} (msg : string) : M FakeSetBackend A := λ b, (Raise (FirewallError msg), fk_fail b).

Definition _require_table (l : location) : M FakeSetBackend (list (string * FakeSet)) :=
  b ← mget;
  match dget (fk_tables b) l with
  | None => fail_with ("No such file or directory: table " +:+ l.1 +:+ " " +:+ l.2)
  | Some sets => mret sets
  end.

Definition _set (a : set_address) : M FakeSetBackend FakeSet :=
  sets ← _require_table (address_table a);
  match dget sets a.2 with
  | None => mraise (FirewallError ("No such file or directory: set " +:+ a.1.1 +:+ " " +:+ a.1.2 +:+ " " +:+ a.2))
  | Some fake => mret fake
  end.

Definition _adaptive_writable (name : string) : M FakeSetBackend FakeSet :=
  _ ← mlift (writable_set INET_FAMILY ADAPTIVE_TABLE name);
  _set (adaptive_address name).

(** ** Writes *)

Definition staged : Type := list (set_address * elements).

(** One iteration of [apply]'s staging loop. *)
Definition stage_op (now : Z) (op : SetOp) (st : staged) : M FakeSetBackend staged :=
  fake ← _set (op_address op);
  let els := match dget st (op_address op) with
             | Some els => els
             | None => _live (fset_elements fake) now
             end in
  match op_kind op with
  | OP_DELETE => mret (dset st (op_address op) (dpop els (op_key op)))
  | OP_ADD =>
      if dmem els (op_key op) then mret (dset st (op_address op) els)
      else
        let full := match fset_size fake with
                    | Some n => n <=? Z.of_nat (length els)
                    | None => false
                    end in
        if full then
          fail_with ("set is full: " +:+ op_set_name op +:+ " holds "
            +:+ pretty (default 0 (fset_size fake)) +:+ " element(s)")
        else
          mret (dset st (op_address op)
            (dset els (op_key op) ((λ t, now + seconds t) <$> op_timeout_seconds op)))
  end.

Fixpoint stage_ops (now : Z) (ops : list SetOp) (st : staged) : M FakeSetBackend staged :=
  match ops with
  | [] => mret st
  | op :: ops' => st' ← stage_op now op st; stage_ops now ops' st'
  end.

(** [self._tables[(family, table)][set_name].elements = elements] *)
Definition put_elements (ts : list (location * list (string * FakeSet))) (a : set_address) (els : elements) :=
  match dget ts (address_table a) with
  | None => ts
  | Some sets =>
      match dget sets a.2 with
      | None => ts
      | Some fake => dset ts (address_table a) (dset sets a.2 (mk_fake_set (fset_size fake) els))
      end
  end.

Definition commit (b : FakeSetBackend) (st : staged) : FakeSetBackend :=
  fk_with_tables b (foldl (λ ts p, put_elements ts p.1 p.2) (fk_tables b) st).

Definition fake_apply (ops : list SetOp) : M FakeSetBackend unit :=
  match ops with
  | [] => mret tt
  | _ =>
      _ ← _begin;
      _ ← mlift (rforall validate_element ops);
      b ← mget;
      st ← stage_ops (fk_now b) ops [];
      mmodify (λ b, fk_log (commit b st) (LogApply ops))
  end.

(** [sorted(set(set_names))] *)
Definition sorted_names (names : list string) : list string := py_sorted String.leb (dedup names).

Fixpoint mmap_m {A B S} (f : A → M S B) (l : list A) : M S (list B) :=
  match l with
  | [] => mret []
  | x :: l' => y ← f x; ys ← mmap_m f l'; mret (y :: ys)
  end.

Definition fake_flush_sets (names : list string) : M FakeSetBackend unit :=
  let names := sorted_names names in
  _ ← _begin;
  _ ← mmap_m _adaptive_writable names;
  mmodify (λ b, fk_log
    (fk_with_tables b (foldl (λ ts n, put_elements ts (adaptive_address n) []) (fk_tables b) names))
    (LogFlush names)).

Definition fake_set_guard_modes (modes : list (GuardName * GuardMode)) : M FakeSetBackend unit :=
  _ ← _begin;
  _ ← _require_table (INET_FAMILY, STATIC_TABLE);
  mmodify (λ b, fk_log (fk_with_guards b (dupdate (fk_guards b) modes)) (LogGuards modes)).

Definition fake_panic : M FakeSetBackend (list (string * string)) :=
  _ ← _begin;
  _ ← mmodify (λ b, fk_log (fk_with_tables b (foldl dpop (fk_tables b) PANIC_TABLES)) LogPanic);
  mret PANIC_TABLES.

(** ** Reads *)

(** [str(key)], the sort key of a listing. *)
Definition key_str (k : ElementKey) : string :=
  match k with KStr s => s | KPair _ _ => key_repr k end.

Definition prune_set (a : set_address) (fake : FakeSet) : M FakeSetBackend elements := λ b,
  let els := _live (fset_elements fake) (fk_now b) in
  (Ok els, fk_with_tables b (put_elements (fk_tables b) a els)).

Definition fake_list_set (a : set_address) : M FakeSetBackend (list ElementState) :=
  fake ← _set a;
  els ← prune_set a fake;
  b ← mget;
  mret ((λ p : ElementKey * option Z,
           mk_element p.1 ((λ e, Z.max 0 (whole_seconds (e - fk_now b))) <$> p.2))
        <$> py_sorted (λ p q, String.leb (key_str p.1) (key_str q.1)) els).

Definition fake_set_fill (a : set_address) : M FakeSetBackend (Z * option Z) :=
  fake ← _set a;
  els ← prune_set a fake;
  mret (Z.of_nat (length els), fset_size fake).

Definition fake_read_counters (names : list string) : M FakeSetBackend (list (string * Z)) := λ b,
  (Ok (match dget (fk_tables b) (INET_FAMILY, STATIC_TABLE) with
       | None => []
       | Some _ =>
           let cs := default [] (dget (fk_counters b) (INET_FAMILY, STATIC_TABLE)) in
           foldl (λ acc n, match dget cs n with Some v => dset acc n v | None => acc end) [] names
       end), b).

Definition fake_guard_mode (g : GuardName) : M FakeSetBackend (option GuardMode) := λ b,
  (Ok (match dget (fk_tables b) (INET_FAMILY, STATIC_TABLE) with
       | None => None
       | Some _ => dget (fk_guards b) g
       end), b).

Definition fake_table_exists (family table : string) : M FakeSetBackend bool := λ b,
  (Ok (dmem (fk_tables b) (family, table)), b).

Definition fake_health_check : M FakeSetBackend bool := mret true.

(** The kernel-side test hooks: what a meter rule, a counter and the passage
    of time do to the kernel. *)
Definition record_offender (mac code : string) (timeout : Z) : M FakeSetBackend unit :=
  fake ← _set (INET_FAMILY, STATIC_TABLE, SET_OFFENDERS);
  mmodify (λ b, fk_with_tables b (put_elements (fk_tables b) (INET_FAMILY, STATIC_TABLE, SET_OFFENDERS)
    (dset (fset_elements fake) (KPair mac code) (Some (fk_now b + seconds timeout))))).

#[global] Instance fake_set_backend : SetBackend FakeSetBackend := {
  sb_apply := fake_apply;
  sb_flush_sets := fake_flush_sets;
  sb_list_set := fake_list_set;
  sb_set_fill := fake_set_fill;
  sb_read_counters := fake_read_counters;
  sb_set_guard_modes := fake_set_guard_modes;
  sb_guard_mode := fake_guard_mode;
  sb_table_exists := fake_table_exists;
  sb_panic := fake_panic;
  sb_health_check := fake_health_check;
}.

(** ** What the fake kernel holds *)

Definition stored (ts : list (location * list (string * FakeSet))) (a : set_address) : option FakeSet :=
  sets ← dget ts (address_table a); dget sets a.2.

Definition fake_elem (b : FakeSetBackend) (a : set_address) (k : ElementKey) : option (option Z) :=
  fake ← stored (fk_tables b) a; dget (_live (fset_elements fake) (fk_now b)) k.

Definition fake_view (b : FakeSetBackend) : kernel_view := {|
  kv_now := fk_now b;
  kv_elem := fake_elem b;
  kv_guard := λ g, if dmem (fk_tables b) (INET_FAMILY, STATIC_TABLE) then dget (fk_guards b) g else None;
  kv_table := λ l, dmem (fk_tables b) l;
|}.

(** ** The fake meets the contract *)

Definition all_live (now : Z) (els : elements) : Prop := Forall (λ p, expired_at now p = false) els.

Lemma live_all_live els now : all_live now (_live els now).
Proof. apply Forall_forall. intros p Hp. by apply list_elem_of_filter in Hp as [? _]. Qed.

Lemma live_id els now : all_live now els → _live els now = els.
Proof. intros Hall. apply filter_all. by apply Forall_forall. Qed.

Lemma all_live_pop now els k : all_live now els → all_live now (dpop els k).
Proof. induction 1 as [|[k' e] els ? ? IH]; simpl; [constructor|]. case_decide; [done|]. by constructor. Qed.

Lemma all_live_set now els k e :
  all_live now els → expired_at now (k, e) = false → all_live now (dset els k e).
Proof.
  intros Hall He. induction Hall as [|[k' e'] els ? ? IH]; simpl; [by repeat constructor|].
  case_decide; subst; by constructor.
Qed.

Lemma address_eq (a a' : set_address) : address_table a = address_table a' → a.2 = a'.2 → a = a'.
Proof. destruct a as [[f t] s], a' as [[f' t'] s']. unfold address_table. simpl. congruence. Qed.

Lemma stored_put ts a els a' :
  stored (put_elements ts a els) a' =
  if decide (a = a') then (λ f, mk_fake_set (fset_size f) els) <$> stored ts a else stored ts a'.
Proof.
  unfold put_elements, stored.
  destruct (dget ts (address_table a)) as [sets|] eqn:Hts; simpl.
  2: { case_decide; subst; [by rewrite Hts|done]. }
  destruct (dget sets a.2) as [fake|] eqn:Hset; simpl.
  2: { case_decide; subst; [by rewrite Hts; simpl; rewrite Hset|done]. }
  rewrite dget_set. case_decide as Hl.
  - simpl. rewrite dget_set. case_decide as Hs.
    + rewrite decide_True by (by apply address_eq). done.
    + rewrite decide_False by congruence. by rewrite <- Hl, Hts.
  - rewrite decide_False by congruence. done.
Qed.

Lemma dmem_put ts a els l : dmem (put_elements ts a els) l = dmem ts l.
Proof.
  unfold put_elements, dmem. destruct (dget ts (address_table a)) as [sets|] eqn:Hts; [|done].
  destruct (dget sets a.2); [|done]. rewrite dget_set. case_decide as Hl; [|done]. by rewrite <- Hl, Hts.
Qed.

Lemma stored_commit st ts : dwf st → ∀ a,
  stored (foldl (λ ts p, put_elements ts p.1 p.2) ts st) a =
  match dget st a with
  | Some els => (λ f, mk_fake_set (fset_size f) els) <$> stored ts a
  | None => stored ts a
  end.
Proof.
  revert ts. induction st as [|[a0 els0] st IH]; intros ts Hwf a; [done|]. simpl.
  apply NoDup_cons in Hwf as [Hnin Hwf]. rewrite IH by done. rewrite stored_put.
  case_decide; subst; [|done].
  assert (dget st a = None) as -> by (by apply dget_None). done.
Qed.

Lemma dmem_commit st ts l : dmem (foldl (λ ts p, put_elements ts p.1 p.2) ts st) l = dmem ts l.
Proof. revert ts. induction st as [|p st IH]; intros ts; [done|]. simpl. by rewrite IH, dmem_put. Qed.

(** Backends that differ only in their call counters and logs. *)
Definition same_kernel (b b' : FakeSetBackend) : Prop :=
  fk_now b' = fk_now b ∧ fk_tables b' = fk_tables b ∧ fk_guards b' = fk_guards b.

Lemma same_kernel_view b b' : same_kernel b b' → view_eq (fake_view b') (fake_view b).
Proof.
  intros (Hn & Ht & Hg). unfold view_eq, fake_view, fake_elem. simpl. by rewrite Hn, Ht, Hg.
Qed.

Lemma begin_spec b r b' :
  _begin b = (r, b') → same_kernel b b' ∧ (r = Ok tt ∨ ∃ msg, r = Raise (FirewallError msg)).
Proof. unfold _begin. simpl. destruct (fk_fail_next b); intros [= <- <-]; (split; [done|]); eauto. Qed.

Lemma set_spec a b r b' :
  _set a b = (r, b') → same_kernel b b' ∧
  match r with
  | Ok fake => b' = b ∧ stored (fk_tables b) a = Some fake
  | Raise e => stored (fk_tables b) a = None ∧ ∃ msg, e = FirewallError msg
  end.
Proof.
  unfold _set, _require_table, fail_with, mraise, mbind, m_bind, mget, mret, m_ret, stored. simpl.
  destruct (dget (fk_tables b) (address_table a)) as [sets|]; simpl;
    [|intros [= <- <-]; split; [done|by eauto]].
  destruct (dget sets a.2); intros [= <- <-]; (split; [done|by eauto]).
Qed.

(** What the staging dictionary says a key will hold. *)
Definition staged_elem (b : FakeSetBackend) (st : staged) (a : set_address) (k : ElementKey) : option (option Z) :=
  match dget st a with
  | Some els => dget els k
  | None => fake_elem b a k
  end.

Definition staged_ok (b : FakeSetBackend) (st : staged) : Prop :=
  dwf st ∧ ∀ a els, dget st a = Some els → all_live (fk_now b) els ∧ is_Some (stored (fk_tables b) a).

Lemma validated_timeout op :
  validate_element op = Ok tt → op_kind op = OP_ADD → ∀ t, op_timeout_seconds op = Some t → 0 < t.
Proof.
  unfold validate_element. intros Hv Hk t Ht. rewrite Hk, Ht in Hv.
  destruct (dget _ _) as [shape|]; [|done]. destruct (normalise_key _ _) as [k|]; [|done]. cbn [rbind] in Hv.
  destruct (negb (bool_decide (k = _))); [done|]. cbn in Hv. destruct (t <=? 0) eqn:Hle; [done|]. lia.
Qed.

Lemma staged_elem_set b st a els a' k :
  staged_elem b (dset st a els) a' k = if decide (a = a') then dget els k else staged_elem b st a' k.
Proof. unfold staged_elem. rewrite dget_set. by case_decide. Qed.

Lemma staged_ok_set b st a els :
  staged_ok b st → all_live (fk_now b) els → is_Some (stored (fk_tables b) a) → staged_ok b (dset st a els).
Proof.
  intros [Hwf Hst] Hels Hsto. split; [by apply dwf_set|]. intros a' els'. rewrite dget_set.
  case_decide; [intros [= <-]; by subst|]. apply Hst.
Qed.

Lemma stage_op_spec b op st r b' :
  staged_ok b st → validate_element op = Ok tt →
  stage_op (fk_now b) op st b = (r, b') →
  same_kernel b b' ∧
  match r with
  | Ok st' => b' = b ∧ staged_ok b st' ∧
      ∀ a k, staged_elem b st' a k =
        if decide (op_address op = a ∧ op_key op = k)
        then op_effect (fk_now b) op (staged_elem b st a k) else staged_elem b st a k
  | Raise e => ∃ msg, e = FirewallError msg
  end.
Proof.
  intros Hok Hval. unfold stage_op, mbind, m_bind.
  destruct (_set (op_address op) b) as [[fake|e] b1] eqn:Hset;
    apply set_spec in Hset as [Hsame Hset]; [|intros [= <- <-]; naive_solver].
  destruct Hset as [-> Hsto].
  set (els := match dget st (op_address op) with Some els => els | None => _ end).
  assert (Hels : all_live (fk_now b) els).
  { unfold els. destruct (dget st (op_address op)) eqn:Hd; [by eapply Hok|apply live_all_live]. }
  assert (Hcur : ∀ k, dget els k = staged_elem b st (op_address op) k).
  { intros k. unfold staged_elem, els, fake_elem. destruct (dget st (op_address op)); [done|]. by rewrite Hsto. }
  assert (Hadd : op_kind op = OP_ADD →
            expired_at (fk_now b) (op_key op, (λ t, fk_now b + seconds t) <$> op_timeout_seconds op) = false).
  { intros Hk. unfold expired_at. simpl. destruct (op_timeout_seconds op) as [t|] eqn:Ht; [|done]. simpl.
    pose proof (validated_timeout _ Hval Hk _ Ht). unfold seconds, us_per_second. lia. }
  clearbody els.
  assert (Heff : ∀ els', (∀ k, dget els' k = if decide (op_key op = k)
                            then op_effect (fk_now b) op (dget els k) else dget els k) →
            ∀ a k, staged_elem b (dset st (op_address op) els') a k =
              if decide (op_address op = a ∧ op_key op = k)
              then op_effect (fk_now b) op (staged_elem b st a k) else staged_elem b st a k).
  { intros els' Hk a k. rewrite staged_elem_set, Hk, !Hcur. repeat case_decide; naive_solver. }
  unfold op_effect in Heff. unfold op_effect.
  destruct (op_kind op) eqn:Hkind.
  - unfold dmem. destruct (dget els (op_key op)) as [old|] eqn:Hold.
    + intros [= <- <-]. split; [done|]. split; [done|]. split; [apply staged_ok_set; naive_solver|].
      apply Heff. intros k. case_decide; [|done]. subst. by rewrite Hold.
    + destruct (match fset_size fake with Some n => _ | None => _ end).
      { unfold fail_with. intros [= <- <-]. split; [done|]. eauto. }
      intros [= <- <-]. split; [done|]. split; [done|].
      split; [apply staged_ok_set; [done|apply all_live_set; auto|by rewrite Hsto]|].
      apply Heff. intros k. rewrite dget_set. case_decide; [|done]. subst. by rewrite Hold.
  - intros [= <- <-]. split; [done|]. split; [done|].
    split; [apply staged_ok_set; [done|by apply all_live_pop|by rewrite Hsto]|].
    apply Heff. intros k. rewrite dget_pop. by case_decide.
Qed.

Lemma staged_ok_nil b : staged_ok b [].
Proof. split; [apply dwf_nil|done]. Qed.

Lemma stage_ops_spec b ops : ∀ st r b',
  staged_ok b st → Forall (λ op, validate_element op = Ok tt) ops →
  stage_ops (fk_now b) ops st b = (r, b') →
  same_kernel b b' ∧
  match r with
  | Ok st' => b' = b ∧ staged_ok b st' ∧
      ∀ a k, staged_elem b st' a k = ops_effect (fk_now b) a k (staged_elem b st a k) ops
  | Raise e => ∃ msg, e = FirewallError msg
  end.
Proof.
  induction ops as [|op ops IH]; intros st r b' Hok Hval.
  { intros [= <- <-]. split; [done|]. done. }
  apply Forall_cons in Hval as [Hop Hval]. cbn [stage_ops]. unfold mbind, m_bind.
  destruct (stage_op (fk_now b) op st b) as [[st1|e] b1] eqn:Hs;
    apply (stage_op_spec _ _ _ _ _ Hok Hop) in Hs as [Hsame Hs].
  2: { intros [= <- <-]. split; [done|]. done. }
  destruct Hs as (-> & Hok1 & Heff). intros Hrun.
  apply (IH _ _ _ Hok1 Hval) in Hrun as [Hsame' Hrun]. split; [done|].
  destruct r as [st'|e]; [|done]. destruct Hrun as (-> & Hok' & Heff'). do 2 (split; [done|]).
  intros a k. rewrite Heff', Heff. done.
Qed.

Lemma commit_view b st :
  staged_ok b st →
  (∀ a k, fake_elem (commit b st) a k = staged_elem b st a k) ∧
  (∀ l, dmem (fk_tables (commit b st)) l = dmem (fk_tables b) l).
Proof.
  intros [Hwf Hst]. split.
  - intros a k. unfold fake_elem, commit, staged_elem. cbn [fk_with_tables fk_tables fk_now].
    rewrite stored_commit by done. destruct (dget st a) as [els|] eqn:Hd; [|done].
    destruct (Hst _ _ Hd) as [Hlive [fake Hf]]. rewrite Hf. simpl. by rewrite live_id.
  - intros l. apply dmem_commit.
Qed.

Lemma fake_apply_law ops b r b' : fake_apply ops b = (r, b') →
  match r with
  | Ok _ =>
      Forall (λ op, validate_element op = Ok tt) ops ∧
      kv_now (fake_view b') = kv_now (fake_view b) ∧
      (∀ a k, kv_elem (fake_view b') a k =
              ops_effect (kv_now (fake_view b)) a k (kv_elem (fake_view b) a k) ops) ∧
      (∀ g, kv_guard (fake_view b') g = kv_guard (fake_view b) g) ∧
      (∀ l, kv_table (fake_view b') l = kv_table (fake_view b) l)
  | Raise e => view_eq (fake_view b') (fake_view b) ∧ ∃ msg, e = FirewallError msg
  end.
Proof.
  destruct ops as [|op ops]; [intros [= <- <-]; by repeat split|].
  remember (op :: ops) as l eqn:Hl. assert (Hshape : fake_apply l =
    (_ ← _begin; _ ← mlift (rforall validate_element l); b ← mget;
     st ← stage_ops (fk_now b) l []; mmodify (λ b, fk_log (commit b st) (LogApply l)))) by (by subst).
  rewrite Hshape. clear Hshape Hl op ops. unfold mbind, m_bind, mlift, mget.
  destruct (_begin b) as [rb b1] eqn:Hb. apply begin_spec in Hb as [Hs1 Hb].
  destruct Hb as [-> | [msg ->]]; [|intros [= <- <-]; split; [by apply same_kernel_view|by eauto]].
  destruct (rforall validate_element l) as [[]|e] eqn:Hval.
  2: { intros [= <- <-]. split; [by apply same_kernel_view|].
       by apply validate_elements_firewall_only in Hval. }
  apply rforall_ok in Hval.
  destruct (stage_ops (fk_now b1) l [] b1) as [[st|e] b2] eqn:Hst.
  - apply stage_ops_spec in Hst as (_ & -> & Hok & Heff); [|apply staged_ok_nil|done].
    unfold mmodify. intros [= <- <-]. split; [done|].
    destruct (commit_view _ _ Hok) as [Hce Hct].
    destruct Hs1 as (Hn & Ht & Hg).
    split; [exact Hn|]. split; [|split].
    + intros a k. change (fake_elem (commit b1 st) a k = ops_effect (fk_now b) a k (fake_elem b a k) l).
      rewrite Hce, Heff, Hn. unfold staged_elem, fake_elem. by rewrite Ht, Hn.
    + intros g. cbn [fake_view kv_guard commit fk_log fk_with_tables fk_tables fk_guards]. rewrite dmem_commit. by rewrite Ht, Hg.
    + intros loc. cbn [fake_view kv_table commit fk_log fk_with_tables fk_tables]. rewrite dmem_commit. by rewrite Ht.
  - apply stage_ops_spec in Hst as (Hs2 & He); [|apply staged_ok_nil|done].
    intros [= <- <-]. split; [|done]. apply same_kernel_view.
    destruct Hs1 as (?&?&?), Hs2 as (?&?&?). by repeat split; congruence.
Qed.

Lemma adaptive_writable_spec n b r b' :
  _adaptive_writable n b = (r, b') → same_kernel b b' ∧
  match r with
  | Ok fake => b' = b ∧ stored (fk_tables b) (adaptive_address n) = Some fake
  | Raise e => ∃ msg, e = FirewallError msg
  end.
Proof.
  unfold _adaptive_writable, mbind, m_bind, mlift.
  destruct (writable_set INET_FAMILY ADAPTIVE_TABLE n) as [w|e] eqn:Hw.
  - intros Hs. apply set_spec in Hs as [Hsame Hs]. split; [done|]. destruct r; naive_solver.
  - intros [= <- <-]. split; [done|]. by apply writable_set_firewall_only in Hw.
Qed.

Lemma mmap_adaptive_writable_spec names : ∀ b r b',
  mmap_m _adaptive_writable names b = (r, b') → same_kernel b b' ∧
  match r with
  | Ok _ => b' = b ∧ ∀ n, n ∈ names → is_Some (stored (fk_tables b) (adaptive_address n))
  | Raise e => ∃ msg, e = FirewallError msg
  end.
Proof.
  induction names as [|n names IH]; intros b r b'; cbn [mmap_m].
  { intros [= <- <-]. split; [done|]. set_solver. }
  unfold mbind, m_bind.
  destruct (_adaptive_writable n b) as [[f|e] b1] eqn:Hn; apply adaptive_writable_spec in Hn as [Hs1 Hn].
  2: { by intros [= <- <-]. }
  destruct Hn as [-> Hn]. destruct (mmap_m _adaptive_writable names b) as [[fs|e] b2] eqn:Hm;
    apply IH in Hm as [Hs2 Hm]; intros [= <- <-]; (split; [done|]); [|done].
  destruct Hm as [-> Hm]. split; [done|]. intros n' [->|Hin]%elem_of_cons; [by eauto|by apply Hm].
Qed.

Lemma flush_stored names : ∀ ts a,
  stored (foldl (λ ts n, put_elements ts (adaptive_address n) []) ts names) a =
  if decide (a ∈ adaptive_address <$> names)
  then (λ f, mk_fake_set (fset_size f) []) <$> stored ts a else stored ts a.
Proof.
  induction names as [|n names IH]; intros ts a; [done|]. cbn [foldl]. rewrite IH, stored_put.
  destruct (decide (adaptive_address n = a)) as [<-|Hne].
  - rewrite (decide_True (P:=_ ∈ _ <$> (n :: names))) by set_solver.
    case_decide; [|done]. by destruct (stored ts _).
  - repeat case_decide; try done; set_solver.
Qed.

Lemma flush_dmem names l : ∀ ts,
  dmem (foldl (λ ts n, put_elements ts (adaptive_address n) []) ts names) l = dmem ts l.
Proof. induction names as [|n names IH]; intros ts; [done|]. cbn [foldl]. by rewrite IH, dmem_put. Qed.

Lemma elem_of_sorted_names n names : n ∈ sorted_names names ↔ n ∈ names.
Proof. unfold sorted_names. by rewrite elem_of_py_sorted, elem_of_dedup. Qed.

Lemma fake_flush_law names b r b' : fake_flush_sets names b = (r, b') →
  match r with
  | Ok _ =>
      kv_now (fake_view b') = kv_now (fake_view b) ∧
      (∀ a k, kv_elem (fake_view b') a k =
              if decide (a ∈ adaptive_address <$> names) then None else kv_elem (fake_view b) a k) ∧
      (∀ g, kv_guard (fake_view b') g = kv_guard (fake_view b) g) ∧
      (∀ l, kv_table (fake_view b') l = kv_table (fake_view b) l)
  | Raise e => view_eq (fake_view b') (fake_view b) ∧ ∃ msg, e = FirewallError msg
  end.
Proof.
  unfold fake_flush_sets, mbind, m_bind, mmodify.
  destruct (_begin b) as [rb b1] eqn:Hb. apply begin_spec in Hb as [Hs1 Hb].
  destruct Hb as [-> | [msg ->]]; [|intros [= <- <-]; split; [by apply same_kernel_view|by eauto]].
  destruct (mmap_m _ _ b1) as [[fs|e] b2] eqn:Hm; apply mmap_adaptive_writable_spec in Hm as [Hs2 Hm].
  2: { intros [= <- <-]. split; [|done]. apply same_kernel_view.
       destruct Hs1 as (?&?&?), Hs2 as (?&?&?). by repeat split; congruence. }
  destruct Hm as [-> Hm]. intros [= <- <-]. destruct Hs1 as (Hn & Ht & Hg).
  split; [exact Hn|]. split; [|split].
  - intros a k. cbn [fake_view kv_elem]. unfold fake_elem. cbn [fk_log fk_with_tables fk_tables fk_now].
    rewrite flush_stored, Ht, Hn.
    destruct (decide (a ∈ adaptive_address <$> names)) as [Hin|Hin].
    + rewrite decide_True; [by destruct (stored (fk_tables b) a)|].
      apply list_elem_of_fmap in Hin as (n & -> & Hin). apply list_elem_of_fmap.
      exists n. by rewrite elem_of_sorted_names.
    + rewrite decide_False; [done|]. intros Hin'. apply Hin.
      apply list_elem_of_fmap in Hin' as (n & -> & Hin'). apply list_elem_of_fmap.
      exists n. by rewrite elem_of_sorted_names in Hin'.
  - intros g. cbn [fake_view kv_guard commit fk_log fk_with_tables fk_tables fk_guards]. rewrite flush_dmem. by rewrite Ht, Hg.
  - intros l. cbn [fake_view kv_table commit fk_log fk_with_tables fk_tables]. rewrite flush_dmem. by rewrite Ht.
Qed.

Lemma fake_guards_law modes b r b' : fake_set_guard_modes modes b = (r, b') →
  match r with
  | Ok _ =>
      kv_now (fake_view b') = kv_now (fake_view b) ∧
      (∀ a k, kv_elem (fake_view b') a k = kv_elem (fake_view b) a k) ∧
      (∀ g m, dget modes g = Some m → NoDup (dkeys modes) → kv_guard (fake_view b') g = Some m) ∧
      (∀ g, dget modes g = None → kv_guard (fake_view b') g = kv_guard (fake_view b) g) ∧
      (∀ l, kv_table (fake_view b') l = kv_table (fake_view b) l)
  | Raise e => view_eq (fake_view b') (fake_view b) ∧ ∃ msg, e = FirewallError msg
  end.
Proof.
  unfold fake_set_guard_modes, _require_table, fail_with, mbind, m_bind, mmodify, mget, mret, m_ret.
  destruct (_begin b) as [rb b1] eqn:Hb. apply begin_spec in Hb as [Hs1 Hb].
  destruct Hb as [-> | [msg ->]]; [|intros [= <- <-]; split; [by apply same_kernel_view|by eauto]].
  destruct (dget (fk_tables b1) _) as [sets|] eqn:Hst; simpl.
  2: { intros [= <- <-]. split; [|by eauto]. by apply (same_kernel_view b (fk_fail b1)). }
  intros [= <- <-]. destruct Hs1 as (Hn & Ht & Hg).
  assert (Hmem : dmem (fk_tables b1) (INET_FAMILY, STATIC_TABLE) = true) by (unfold dmem; by rewrite Hst).
  split; [exact Hn|]. split; [|split; [|split]].
  - intros a k. cbn [fake_view kv_elem]. unfold fake_elem. cbn [fk_log fk_with_guards fk_tables fk_now].
    by rewrite Ht, Hn.
  - intros g m Hgm Hnd. cbn [fake_view kv_guard fk_log fk_with_guards fk_tables fk_guards].
    by rewrite Hmem, dget_update, Hgm.
  - intros g Hgm. cbn [fake_view kv_guard fk_log fk_with_guards fk_tables fk_guards].
    rewrite Hmem. rewrite <- Ht, Hmem, <- Hg. unfold dupdate.
    clear -Hgm. revert Hgm. generalize (fk_guards b1) as gs.
    induction modes as [|[g0 m0] modes IH]; intros gs Hgm; [done|]. cbn [dget] in Hgm. case_decide; [done|].
    cbn [foldl fst snd]. by rewrite IH, dget_set_ne.
  - intros l. cbn [fake_view kv_table fk_log fk_with_guards fk_tables]. by rewrite Ht.
Qed.

Lemma panic_dget locs : ∀ ts (l : location),
  dget (foldl dpop ts locs) l = if decide (l ∈ locs) then None else dget (V:=list (string * FakeSet)) ts l.
Proof.
  induction locs as [|l0 locs IH]; intros ts l; [done|]. cbn [foldl]. rewrite IH, dget_pop.
  repeat case_decide; try done; set_solver.
Qed.

Lemma fake_panic_law b r b' : fake_panic b = (r, b') →
  match r with
  | Ok deleted =>
      deleted = PANIC_TABLES ∧ kv_now (fake_view b') = kv_now (fake_view b) ∧
      (∀ a k, kv_elem (fake_view b') a k =
              if decide (address_table a ∈ PANIC_TABLES) then None else kv_elem (fake_view b) a k) ∧
      (∀ l, kv_table (fake_view b') l =
            if decide (l ∈ PANIC_TABLES) then false else kv_table (fake_view b) l) ∧
      (∀ g, kv_guard (fake_view b') g = None)
  | Raise e => view_eq (fake_view b') (fake_view b) ∧ ∃ msg, e = FirewallError msg
  end.
Proof.
  unfold fake_panic, mbind, m_bind, mmodify, mret, m_ret.
  destruct (_begin b) as [rb b1] eqn:Hb. apply begin_spec in Hb as [Hs1 Hb].
  destruct Hb as [-> | [msg ->]]; [|intros [= <- <-]; split; [by apply same_kernel_view|by eauto]].
  pose proof (panic_dget PANIC_TABLES (fk_tables b1)) as Hp.
  set (ts := foldl dpop (fk_tables b1) PANIC_TABLES) in *. clearbody ts.
  intros [= <- <-]. destruct Hs1 as (Hn & Ht & Hg). split; [done|]. split; [exact Hn|]. split.
  - intros a k. cbn [fake_view kv_elem]. unfold fake_elem, stored. cbn [fk_log fk_with_tables fk_tables fk_now].
    rewrite Hp, Ht, Hn. by repeat case_decide.
  - split; [|intros g; cbn [fake_view kv_guard fk_log fk_with_tables fk_tables]; unfold dmem; by rewrite Hp, decide_True by set_solver].
    intros l. cbn [fake_view kv_table fk_log fk_with_tables fk_tables]. unfold dmem.
    rewrite Hp, Ht. by repeat case_decide.
Qed.

Lemma prune_view b a fake :
  stored (fk_tables b) a = Some fake →
  view_eq (fake_view (fk_with_tables b (put_elements (fk_tables b) a (_live (fset_elements fake) (fk_now b)))))
    (fake_view b).
Proof.
  intros Hf. unfold view_eq. cbn [fake_view kv_now kv_elem kv_guard kv_table]. split; [done|]. split; [|split].
  - intros a' k. unfold fake_elem. cbn [fk_with_tables fk_tables fk_now]. rewrite stored_put.
    case_decide; [|done]. subst. rewrite Hf. simpl. by rewrite live_id by apply live_all_live.
  - intros g. cbn [fk_with_tables fk_tables fk_guards]. by rewrite dmem_put.
  - intros l. cbn [fk_with_tables fk_tables]. by rewrite dmem_put.
Qed.

Lemma fake_list_law a b r b' : fake_list_set a b = (r, b') →
  view_eq (fake_view b') (fake_view b) ∧
  match r with
  | Ok els =>
      (∀ k e, mk_element k e ∈ els → is_Some (kv_elem (fake_view b) a k)) ∧
      (∀ k x, kv_elem (fake_view b) a k = Some x →
         mk_element k (view_remaining (fake_view b) x) ∈ els)
  | Raise e => ∃ msg, e = FirewallError msg
  end.
Proof.
  unfold fake_list_set, prune_set, mbind, m_bind, mget, mret, m_ret.
  destruct (_set a b) as [[fake|e] b1] eqn:Hs; apply set_spec in Hs as [Hsame Hs].
  2: { intros [= <- <-]. split; [by apply same_kernel_view|by destruct Hs]. }
  destruct Hs as [-> Hf]. intros [= <- <-]. split; [by apply prune_view|].
  cbn [fake_view kv_elem kv_now fk_with_tables fk_now]. unfold fake_elem. rewrite Hf. cbn [mbind option_bind].
  split.
  - intros k e Hin. apply list_elem_of_fmap in Hin as ([k' e'] & Heq & Hin). injection Heq as -> ->.
    rewrite elem_of_py_sorted in Hin. apply dget_is_Some. unfold dkeys.
    apply list_elem_of_fmap. by exists (k', e').
  - intros k x Hx. apply list_elem_of_fmap. exists (k, x). split; [done|].
    rewrite elem_of_py_sorted. by apply dget_Some_elem.
Qed.

Lemma fake_guard_mode_law g b r b' : fake_guard_mode g b = (r, b') →
  view_eq (fake_view b') (fake_view b) ∧ (r = Ok (kv_guard (fake_view b) g) ∨ r = Ok None).
Proof. intros [= <- <-]. split; [done|]. left. cbn. unfold dmem. by destruct (dget _ _). Qed.

Lemma fake_table_exists_law f t b r b' : fake_table_exists f t b = (r, b') →
  view_eq (fake_view b') (fake_view b) ∧
  match r with Ok loaded => loaded = kv_table (fake_view b) (f, t) | Raise e => ∃ msg, e = FirewallError msg end.
Proof. by intros [= <- <-]. Qed.

Lemma fake_set_fill_law a b r b' : fake_set_fill a b = (r, b') →
  view_eq (fake_view b') (fake_view b) ∧ match r with Ok _ => True | Raise e => ∃ msg, e = FirewallError msg end.
Proof.
  unfold fake_set_fill, prune_set, mbind, m_bind, mret, m_ret.
  destruct (_set a b) as [[fake|e] b1] eqn:Hs; apply set_spec in Hs as [Hsame Hs].
  - destruct Hs as [-> Hf]. intros [= <- <-]. split; [by apply prune_view|done].
  - intros [= <- <-]. split; [by apply same_kernel_view|by destruct Hs].
Qed.

Lemma fake_read_counters_law names b r b' : fake_read_counters names b = (r, b') →
  view_eq (fake_view b') (fake_view b) ∧ match r with Ok _ => True | Raise e => ∃ msg, e = FirewallError msg end.
Proof. by intros [= <- <-]. Qed.

#[global] Instance fake_set_backend_laws : SetBackendLaws FakeSetBackend := {
  sb_view := fake_view;
  apply_law := fake_apply_law;
  flush_law := fake_flush_law;
  guards_law := fake_guards_law;
  panic_law := fake_panic_law;
  list_law := fake_list_law;
  guard_mode_law := fake_guard_mode_law;
  table_exists_law := fake_table_exists_law;
  set_fill_law := fake_set_fill_law;
  read_counters_law := fake_read_counters_law;
}.
