(* ===== verification/Json.v ===== *)
(** * JSON documents

    The values Python's [json] module reads and writes, as the nftables
    backends and the RPC layer build them: a [dict] is its list of entries in
    insertion order. *)

From S2P Require Import Prelude.
Local Open Scope Z_scope.

Inductive json : Type :=
| JNull
| JBool (b : bool)
| JInt (n : Z)
| JStr (s : string)
| JList (l : list json)
| JObj (o : list (string * json)).

(** [value if isinstance(value, dict) else None] *)
Definition as_dict (v : json) : option (list (string * json)) := match v with JObj o => Some o | _ => None end.
(** [value if isinstance(value, list) else []] *)
Definition as_list (v : option json) : list json := match v with Some (JList l) => l | _ => [] end.
(** [value if isinstance(value, int) else None]; a JSON boolean never occurs
    where this is used. *)
Definition as_int (v : option json) : option Z := match v with Some (JInt n) => Some n | _ => None end.
Definition as_str (v : option json) : option string := match v with Some (JStr s) => Some s | _ => None end.

(** [needle in text] *)
Definition contains (needle text : string) : bool :=
  match String.index 0 needle text with Some _ => true | None => false end.
