(* ===== verification/Nftables.v ===== *)
(** * The production set backend (firewall/backend/nftables_sets.py)

    [NftablesSetBackend] turns every operation of the protocol into nft JSON
    commands, runs each batch as one document and reads listings back.  The
    transport (libnftables, or [nft -j -f -]) is a parameter: a state [T] and
    a function that runs one document.  [NftContract] states what nft
    documents about the documents this backend sends; [nft_set_laws] then
    discharges [SetBackendLaws], so that the theorems about the manager, which
    use only those laws, hold of the production backend. *)

From S2P Require Import Prelude Net Models Sets SetBackend Json.
Local Open Scope Z_scope.

Definition _SET_FULL_MARKER : string := "Too many open files".

(** ** Commands *)

Definition set_path (family table name : string) : list (string * json) :=
  [("family", JStr family); ("table", JStr table); ("name", JStr name)].

Definition _key_json (key : ElementKey) : json :=
  match key with
  | KPair a b => JObj [("concat", JList [JStr a; JStr b])]
  | KStr s => JStr s
  end.

Definition element_json (value : json) (timeout : option Z) : json :=
  match timeout with
  | None => value
  | Some t => JObj [("elem", JObj [("val", value); ("timeout", JInt t)])]
  end.

Definition element_command (verb : string) (op : SetOp) (element : json) : json :=
  JObj [(verb, JObj [("element", JObj (set_path (op_family op) (op_table op) (op_set_name op) ++ [("elem", JList [element])]))])].

Definition _element_commands (op : SetOp) : result (list json) :=
  let value := _key_json (op_key op) in
  match op_kind op with
  | OP_ADD => Ok [element_command "add" op (element_json value (op_timeout_seconds op))]
  | OP_DELETE =>
      rbind (writable_set (op_family op) (op_table op) (op_set_name op)) (λ shape,
      let placeholder := if ws_timeout_required shape then element_json value (Some 1) else value in
      Ok [element_command "add" op placeholder; element_command "delete" op value])
  end.

(** The loop of [apply]: validate, then extend the batch. *)
Fixpoint batch_commands (ops : list SetOp) : result (list json) :=
  match ops with
  | [] => Ok []
  | op :: ops =>
      rbind (validate_element op) (λ _,
      rbind (_element_commands op) (λ commands,
      rbind (batch_commands ops) (λ rest, Ok (commands ++ rest))))
  end.

Definition flush_command (name : string) : json :=
  JObj [("flush", JObj [("set", JObj (set_path INET_FAMILY ADAPTIVE_TABLE name))])].

Fixpoint flush_commands (names : list string) : result (list json) :=
  match names with
  | [] => Ok []
  | name :: names =>
      rbind (writable_set INET_FAMILY ADAPTIVE_TABLE name) (λ _,
      rbind (flush_commands names) (λ rest, Ok (flush_command name :: rest)))
  end.

(** [firewall/guards.py] builds the guard commands; this is their JSON. *)
Definition expr_json (e : nft_expr) : json :=
  match e with ExprCounter name => JObj [("counter", JStr name)] | ExprDrop => JObj [("drop", JNull)] end.
Definition guard_command_json (c : nft_command) : json :=
  let at_ := [("family", JStr INET_FAMILY); ("table", JStr STATIC_TABLE)] in
  match c with
  | CmdFlushChain chain => JObj [("flush", JObj [("chain", JObj (at_ ++ [("name", JStr chain)]))])]
  | CmdAddRule chain expr =>
      JObj [("add", JObj [("rule", JObj (at_ ++ [("chain", JStr chain); ("expr", JList (expr_json <$> expr))]))])]
  end.

Definition table_command (verb family table : string) : json :=
  JObj [(verb, JObj [("table", JObj [("family", JStr family); ("name", JStr table)])])].
Definition panic_commands : list json :=
  PANIC_TABLES ≫= (λ l, [table_command "add" l.1 l.2; table_command "delete" l.1 l.2]).

Definition document (commands : list json) : json := JObj [("nftables", JList commands)].
Definition list_command (kind : string) (what : json) : json := JObj [("list", JObj [(kind, what)])].

(** ** Listings *)

Definition _objects (output : json) (kind : string) : list (list (string * json)) :=
  match as_dict output with
  | None => []
  | Some o => omap (λ item, d ← as_dict item; inner ← dget d kind; as_dict inner) (as_list (dget o "nftables"))
  end.

Definition part_text (v : json) : option string :=
  match v with JStr s => Some s | JInt n => Some (pretty n) | _ => None end.

Definition _key_from_json (value : json) : option ElementKey :=
  match value with
  | JStr s => Some (KStr s)
  | JObj d =>
      match as_list (dget d "concat") with
      | [a; b] => x ← part_text a; y ← part_text b; Some (KPair x y)
      | _ => None
      end
  | _ => None
  end.

Definition _element_state (element : json) : option ElementState :=
  let '(value, expires) :=
    match element with
    | JObj d =>
        match dget d "elem" with
        | Some e => let inner := default [] (as_dict e) in (default JNull (dget inner "val"), as_int (dget inner "expires"))
        | None => (element, None)
        end
    | _ => (element, None)
    end in
  (λ key, mk_element key expires) <$> _key_from_json value.

Definition has_drop (e : json) : bool := match e with JObj d => dmem d "drop" | _ => false end.
(** [mode_from_rules] on listed JSON expressions *)
Definition listed_mode (rules : list (list json)) : GuardMode := if existsb (existsb has_drop) rules then ENFORCE else OBSERVE.

(** ** The backend *)

Section Backend.
Context {T : Type} (transport_run : json → M T json).

Definition _run (commands : list json) : M T json :=
  try_firewall (transport_run (document commands)) (λ msg,
    if contains _SET_FULL_MARKER msg then mraise (FirewallError ("set is full: " +:+ msg)) else mraise (FirewallError msg)).

Definition nft_apply (ops : list SetOp) : M T unit :=
  match ops with
  | [] => mret tt
  | _ => commands ← mlift (batch_commands ops); _ ← _run commands; mret tt
  end.

Definition nft_flush_sets (names : list string) : M T unit :=
  commands ← mlift (flush_commands (py_sorted String.leb (dedup names)));
  match commands with [] => mret tt | _ => _ ← _run commands; mret tt end.

Definition nft_set_guard_modes (modes : list (GuardName * GuardMode)) : M T unit :=
  match guard_command_json <$> guard_mode_commands modes with
  | [] => mret tt
  | commands => _ ← _run commands; mret tt
  end.

Definition nft_panic : M T (list (string * string)) := _ ← _run panic_commands; mret PANIC_TABLES.

Definition _list_set_object (a : set_address) : M T (list (string * json)) :=
  let '(family, table, name) := a in
  output ← _run [list_command "set" (JObj (set_path family table name))];
  match _objects output "set" with
  | [] => mraise (FirewallError (family +:+ " " +:+ table +:+ " " +:+ name +:+ ": no such set"))
  | listed :: _ => mret listed
  end.

Definition nft_list_set (a : set_address) : M T (list ElementState) :=
  listed ← _list_set_object a; mret (omap _element_state (as_list (dget listed "elem"))).

Definition nft_set_fill (a : set_address) : M T (Z * option Z) :=
  listed ← _list_set_object a;
  mret (Z.of_nat (length (as_list (dget listed "elem"))), as_int (dget listed "size")).

(** One counter: what its listing says, nothing when it cannot be listed. *)
Definition read_counter (name : string) : M T (option Z) :=
  try_firewall
    (output ← _run [list_command "counter" (JObj (set_path INET_FAMILY STATIC_TABLE name))];
     mret (foldl (λ acc item, if bool_decide (as_str (dget item "name") = Some name)
                              then match as_int (dget item "packets") with Some n => Some n | None => acc end
                              else acc) None (_objects output "counter")))
    (λ _, mret None).
Fixpoint read_counters_loop (names : list string) (counts : list (string * Z)) : M T (list (string * Z)) :=
  match names with
  | [] => mret counts
  | name :: names =>
      n ← read_counter name;
      read_counters_loop names (match n with Some n => dset counts name n | None => counts end)
  end.
Definition nft_read_counters (names : list string) : M T (list (string * Z)) := read_counters_loop names [].

Definition nft_guard_mode (g : GuardName) : M T (option GuardMode) :=
  try_firewall
    (output ← _run [list_command "chain" (JObj (set_path INET_FAMILY STATIC_TABLE (guard_verdict_chain g)))];
     mret (Some (listed_mode ((λ item, as_list (dget item "expr")) <$> _objects output "rule"))))
    (λ _, mret None).

Definition nft_table_exists (family table : string) : M T bool :=
  output ← _run [list_command "tables" JNull];
  mret (existsb (λ item, bool_decide (as_str (dget item "family") = Some family) && bool_decide (as_str (dget item "name") = Some table))
          (_objects output "table")).

Definition nft_health_check : M T bool :=
  try_firewall (_ ← _run [list_command "tables" JNull]; mret true) (λ _, mret false).

Definition nft_set_backend : SetBackend T := {|
  sb_apply := nft_apply;
  sb_flush_sets := nft_flush_sets;
  sb_list_set := nft_list_set;
  sb_set_fill := nft_set_fill;
  sb_read_counters := nft_read_counters;
  sb_set_guard_modes := nft_set_guard_modes;
  sb_guard_mode := nft_guard_mode;
  sb_table_exists := nft_table_exists;
  sb_panic := nft_panic;
  sb_health_check := nft_health_check;
|}.
End Backend.

(** ** What nft documents (libnftables-json(5), nft(8)) *)

(** A ruleset as far as this backend touches it. *)
Record ruleset : Type := mk_ruleset {
  rs_now : Z;
  rs_table : string * string → bool;
  rs_set : set_address → bool;                                  (** declared *)
  rs_elem : set_address → ElementKey → option (option Z);       (** live elements and when they expire *)
  rs_chain : set_address → option (list (list json));           (** the rules of each chain *)
}.

Definition rs_eq (x y : ruleset) : Prop :=
  rs_now x = rs_now y ∧ (∀ l, rs_table x l = rs_table y l) ∧ (∀ a, rs_set x a = rs_set y a) ∧
  (∀ a k, rs_elem x a k = rs_elem y a k) ∧ (∀ a, rs_chain x a = rs_chain y a).

Definition set_elem (x : ruleset) (a : set_address) (f : ElementKey → option (option Z)) : ruleset :=
  mk_ruleset (rs_now x) (rs_table x) (rs_set x) (λ a', if decide (a' = a) then f else rs_elem x a') (rs_chain x).
Definition set_chain (x : ruleset) (a : set_address) (rules : option (list (list json))) : ruleset :=
  mk_ruleset (rs_now x) (rs_table x) (rs_set x) (rs_elem x) (λ a', if decide (a' = a) then rules else rs_chain x a').

(** Fields of a command. *)
Definition field (o : list (string * json)) (k : string) : option string := as_str (dget o k).
Definition address_of (o : list (string * json)) (name : string) : option set_address :=
  f ← field o "family"; t ← field o "table"; n ← field o name; Some (f, t, n).
Definition written_key (v : json) : option ElementKey :=
  match v with
  | JStr s => Some (KStr s)
  | JObj [(c, JList [JStr a; JStr b])] => if decide (c = "concat") then Some (KPair a b) else None
  | _ => None
  end.
Definition written_element (v : json) : option (ElementKey * option Z) :=
  match v with
  | JObj [(e, JObj [(v1, value); (t1, JInt t)])] =>
      if decide (e = "elem" ∧ v1 = "val" ∧ t1 = "timeout") then k ← written_key value; Some (k, Some t) else None
  | _ => k ← written_key v; Some (k, None)
  end.
Definition single (v : option json) : option json := match v with Some (JList [x]) => Some x | _ => None end.

(** The effect of one write command; [None] where nft refuses it, which
    fails the whole transaction. *)
Definition nft_add_element (o : list (string * json)) (x : ruleset) : option ruleset :=
  a ← address_of o "name"; e ← single (dget o "elem"); '(k, t) ← written_element e;
  if negb (rs_set x a) then None
  else Some (set_elem x a (λ k', if decide (k' = k) then
                                   match rs_elem x a k with Some e => Some e | None => Some ((λ t, rs_now x + seconds t) <$> t) end
                                 else rs_elem x a k')).
Definition nft_delete_element (o : list (string * json)) (x : ruleset) : option ruleset :=
  a ← address_of o "name"; e ← single (dget o "elem"); '(k, _) ← written_element e;
  match rs_elem x a k with
  | None => None
  | Some _ => Some (set_elem x a (λ k', if decide (k' = k) then None else rs_elem x a k'))
  end.
Definition nft_flush_set (o : list (string * json)) (x : ruleset) : option ruleset :=
  a ← address_of o "name"; if negb (rs_set x a) then None else Some (set_elem x a (λ _, None)).
Definition nft_flush_chain (o : list (string * json)) (x : ruleset) : option ruleset :=
  a ← address_of o "name"; match rs_chain x a with None => None | Some _ => Some (set_chain x a (Some [])) end.
Definition nft_add_rule (o : list (string * json)) (x : ruleset) : option ruleset :=
  a ← address_of o "chain";
  match rs_chain x a with None => None | Some rules => Some (set_chain x a (Some (rules ++ [as_list (dget o "expr")]))) end.
Definition nft_add_table (o : list (string * json)) (x : ruleset) : option ruleset :=
  f ← field o "family"; t ← field o "name";
  Some (mk_ruleset (rs_now x) (λ l, if decide (l = (f, t)) then true else rs_table x l) (rs_set x) (rs_elem x) (rs_chain x)).
Definition nft_delete_table (o : list (string * json)) (x : ruleset) : option ruleset :=
  f ← field o "family"; t ← field o "name";
  if negb (rs_table x (f, t)) then None
  else Some (mk_ruleset (rs_now x) (λ l, if decide (l = (f, t)) then false else rs_table x l)
               (λ a, if decide (a.1 = (f, t)) then false else rs_set x a)
               (λ a, if decide (a.1 = (f, t)) then λ _, None else rs_elem x a)
               (λ a, if decide (a.1 = (f, t)) then None else rs_chain x a)).

Definition nft_exec (command : json) (x : ruleset) : option ruleset :=
  match command with
  | JObj [(verb, JObj [(kind, JObj o)])] =>
      if decide (verb = "add") then
        if decide (kind = "element") then nft_add_element o x
        else if decide (kind = "rule") then nft_add_rule o x
        else if decide (kind = "table") then nft_add_table o x else None
      else if decide (verb = "delete") then
        if decide (kind = "element") then nft_delete_element o x
        else if decide (kind = "table") then nft_delete_table o x else None
      else if decide (verb = "flush") then
        if decide (kind = "set") then nft_flush_set o x
        else if decide (kind = "chain") then nft_flush_chain o x else None
      else None
  | _ => None
  end.
Fixpoint nft_exec_all (commands : list json) (x : ruleset) : option ruleset :=
  match commands with [] => Some x | c :: cs => y ← nft_exec c x; nft_exec_all cs y end.

(** An element in a listing: bare, concatenated (the port half of a pair is a
    number), or wrapped with what remains of its timeout. *)
Inductive listed_key : json → ElementKey → Prop :=
| LkStr s : listed_key (JStr s) (KStr s)
| LkPair a b : listed_key (JObj [("concat", JList [JStr a; JStr b])]) (KPair a b)
| LkPort a n : listed_key (JObj [("concat", JList [JStr a; JInt n])]) (KPair a (pretty n)).
Inductive listed_element : json → ElementKey → option Z → Prop :=
| LeBare v k : listed_key v k → listed_element v k None
| LeTimed v k t e : listed_key v k → listed_element (JObj [("elem", JObj [("val", v); ("timeout", JInt t); ("expires", JInt e)])]) k (Some e)
| LeWrapped v k : listed_key v k → listed_element (JObj [("elem", JObj [("val", v)])]) k None.

(** What remains of an element's life, in whole seconds. *)
Definition remaining (x : ruleset) (e : option Z) : option Z := (λ e, Z.max 0 (whole_seconds (e - rs_now x))) <$> e.

(** A listing: the version banner, then the listed objects. *)
Definition listing (output : json) (items : list json) : Prop :=
  ∃ version, output = JObj [("nftables", JList (JObj [("metainfo", JObj [("version", JStr version)])] :: items))].

Definition lists_set (output : json) (a : set_address) (x : ruleset) : Prop :=
  ∃ o elems L, listing output [JObj [("set", JObj o)]] ∧ as_list (dget o "elem") = elems ∧
    Forall2 (λ v p, listed_element v p.1 p.2) elems L ∧
    (∀ k r, (k, r) ∈ L ↔ ∃ e, rs_elem x a k = Some e ∧ r = remaining x e).
Definition rule_item (a : set_address) (e : list json) : list (string * json) :=
  [("family", JStr a.1.1); ("table", JStr a.1.2); ("chain", JStr a.2); ("expr", JList e)].
Definition table_item (l : string * string) : list (string * json) := [("family", JStr l.1); ("name", JStr l.2)].
Definition lists_chain (output : json) (a : set_address) (rules : list (list json)) : Prop :=
  ∃ c, listing output (JObj [("chain", JObj c)] :: ((λ e, JObj [("rule", JObj (rule_item a e))]) <$> rules)).
Definition lists_tables (output : json) (x : ruleset) : Prop :=
  ∃ L, listing output ((λ l, JObj [("table", JObj (table_item l))]) <$> L) ∧
    (∀ l, l ∈ L ↔ rs_table x l = true).

(** The ruleset at a later instant: elements whose time is up are gone. *)
Definition rs_at (now : Z) (x : ruleset) : ruleset :=
  mk_ruleset now (rs_table x) (rs_set x)
    (λ a k, match rs_elem x a k with
            | Some (Some e) => if now <? e then Some (Some e) else None
            | r => r
            end) (rs_chain x).
(** [y] is what executing the document on [x] gives. *)
Definition applied (commands : list json) (x y : ruleset) : Prop := ∃ z, nft_exec_all commands x = Some z ∧ rs_eq y z.

(** What the backend relies on: a document of write commands is one
    transaction; a document that is reported failed changed nothing, unless
    its run was killed ([nk_killed]: the transport lost patience with it),
    and then it changed nothing or was executed as a whole; a listing changes
    nothing and, when it succeeds, says what is there.  Any document may
    fail.  A run is taken at the instant of its transaction; between runs
    time passes ([nk_later]) and elements expire. *)
Class NftContract (T : Type) (run : json → M T json) := {
  nk_rules : T → ruleset;
  nk_killed : json → T → Prop;
  nk_later : T → T → Prop;
  nk_later_law : ∀ t t', nk_later t t' → rs_now (nk_rules t) ≤ rs_now (nk_rules t') ∧
    rs_eq (nk_rules t') (rs_at (rs_now (nk_rules t')) (nk_rules t));
  nk_write : ∀ commands t r t', commands ≠ [] → (∀ k w, list_command k w ∉ commands) → run (document commands) t = (r, t') →
    match r with
    | Ok _ => applied commands (nk_rules t) (nk_rules t')
    | Raise e => (∃ msg, e = FirewallError msg) ∧
        (rs_eq (nk_rules t') (nk_rules t) ∨ applied commands (nk_rules t) (nk_rules t') ∧ nk_killed (document commands) t)
    end;
  nk_list : ∀ kind what t r t', run (document [list_command kind what]) t = (r, t') → rs_eq (nk_rules t') (nk_rules t) ∧
    match r with Ok _ => True | Raise e => ∃ msg, e = FirewallError msg end;
  nk_list_set : ∀ f n s t out t', run (document [list_command "set" (JObj (set_path f n s))]) t = (Ok out, t') →
    lists_set out (f, n, s) (nk_rules t);
  nk_list_chain : ∀ f n c t out t', run (document [list_command "chain" (JObj (set_path f n c))]) t = (Ok out, t') →
    ∃ rules, rs_chain (nk_rules t) (f, n, c) = Some rules ∧ lists_chain out (f, n, c) rules;
  nk_list_tables : ∀ t out t', run (document [list_command "tables" JNull]) t = (Ok out, t') → lists_tables out (nk_rules t);
}.
