(* ===== verification/NftablesLaws.v ===== *)
(** * The production set backend keeps the backend contract

    Over any transport that behaves as nft documents ([NftContract]), the
    commands of [Nftables] have exactly the effects [SetBackendLaws] states,
    so that everything proved of the manager against those laws holds of the
    production backend. *)

From S2P Require Import Prelude Net Models Sets SetBackend Json Nftables.
Local Open Scope Z_scope.

Definition nft_view (x : ruleset) : kernel_view :=
  mk_view (rs_now x) (rs_elem x) (λ g, listed_mode <$> rs_chain x (INET_FAMILY, STATIC_TABLE, guard_verdict_chain g)) (rs_table x).

#[global] Instance rs_eq_equivalence : Equivalence rs_eq.
Proof.
  split.
  - by intros x.
  - intros x y (?&?&?&?&?). by repeat split.
  - intros x y z (H1&H2&H3&H4&H5) (G1&G2&G3&G4&G5). repeat split; intros; congruence.
Qed.

Lemma view_of_eq x y : rs_eq x y → view_eq (nft_view x) (nft_view y).
Proof. intros (H1&H2&H3&H4&H5). repeat split; cbn; intros; by rewrite ?H1, ?H2, ?H4, ?H5. Qed.

Lemma exec_all_app cs cs' x : nft_exec_all (cs ++ cs') x = y ← nft_exec_all cs x; nft_exec_all cs' y.
Proof. revert x. induction cs as [|c cs IH]; intros x; [done|]. cbn. destruct (nft_exec c x); [apply IH|done]. Qed.

(** ** Commands *)

Definition writes (c : json) : Prop := ∀ k w, c ≠ list_command k w.

Lemma written_key_json k : written_key (_key_json k) = Some k.
Proof. by destruct k. Qed.
Lemma written_element_json k t : written_element (element_json (_key_json k) t) = Some (k, t).
Proof. destruct t as [t|]; [by destruct k|]. by destruct k. Qed.

Lemma element_fields op e : let o := set_path (op_family op) (op_table op) (op_set_name op) ++ [("elem", JList [e])] in
  address_of o "name" = Some (op_address op) ∧ single (dget o "elem") = Some e.
Proof. done. Qed.

Lemma exec_add op k t x y : op_key op = k →
  nft_exec (element_command "add" op (element_json (_key_json k) t)) x = Some y →
  y = set_elem x (op_address op) (λ k', if decide (k' = k) then
        match rs_elem x (op_address op) k with Some e => Some e | None => Some ((λ t, rs_now x + seconds t) <$> t) end
      else rs_elem x (op_address op) k').
Proof.
  intros <-. set (e := element_json _ t). change (nft_exec (element_command "add" op e) x) with
    (nft_add_element (set_path (op_family op) (op_table op) (op_set_name op) ++ [("elem", JList [e])]) x).
  unfold nft_add_element. destruct (element_fields op e) as [-> ->]. unfold e. cbn [mbind option_bind]. rewrite written_element_json. cbn.
  destruct (negb _); [done|]. by intros [= <-].
Qed.

Lemma exec_delete op x y : nft_exec (element_command "delete" op (_key_json (op_key op))) x = Some y →
  y = set_elem x (op_address op) (λ k', if decide (k' = op_key op) then None else rs_elem x (op_address op) k').
Proof.
  change (_key_json (op_key op)) with (element_json (_key_json (op_key op)) None). set (e := element_json _ None).
  change (nft_exec (element_command "delete" op e) x) with
    (nft_delete_element (set_path (op_family op) (op_table op) (op_set_name op) ++ [("elem", JList [e])]) x).
  unfold nft_delete_element. destruct (element_fields op e) as [-> ->]. unfold e. cbn [mbind option_bind]. rewrite written_element_json. cbn.
  destruct (rs_elem x (op_address op) (op_key op)); [|done]. by intros [= <-].
Qed.

(** What an element batch leaves alone. *)
Definition elements_only (x y : ruleset) : Prop :=
  rs_now y = rs_now x ∧ (∀ l, rs_table y l = rs_table x l) ∧ (∀ a, rs_chain y a = rs_chain x a).
#[local] Instance elements_only_pre : PreOrder elements_only.
Proof. split; [done|]. intros x y z (?&?&?) (?&?&?). repeat split; intros; congruence. Qed.

Lemma element_commands_effect op cs x y : _element_commands op = Ok cs → nft_exec_all cs x = Some y →
  elements_only x y ∧ (∀ a k, rs_elem y a k =
    if decide (op_address op = a ∧ op_key op = k) then op_effect (rs_now x) op (rs_elem x a k) else rs_elem x a k).
Proof.
  unfold _element_commands, op_effect. destruct (op_kind op).
  - intros [= <-]. cbn [nft_exec_all]. destruct (nft_exec _ x) as [y1|] eqn:H1; [|done]. intros [= <-].
    apply (exec_add op _ _ x y1 eq_refl) in H1 as ->. split; [done|]. intros a k. cbn.
    destruct (decide (a = op_address op)) as [->|Ha]; [|rewrite decide_False by naive_solver; done].
    destruct (decide (k = op_key op)) as [->|Hk]; [by rewrite decide_True|]. rewrite decide_False by naive_solver. done.
  - destruct (writable_set _ _ _) as [shape|e]; [|done]. cbn [rbind]. intros Hcs.
    set (t := if ws_timeout_required shape then Some 1 else None).
    assert (cs = [element_command "add" op (element_json (_key_json (op_key op)) t); element_command "delete" op (_key_json (op_key op))]) as ->
      by (unfold t; destruct (ws_timeout_required shape); injection Hcs as <-; reflexivity).
    cbn [nft_exec_all]. destruct (nft_exec _ x) as [y1|] eqn:H1; [|done]. cbn [mbind option_bind].
    destruct (nft_exec _ y1) as [y2|] eqn:H2; [|done]. intros [= <-].
    apply (exec_add op _ _ x y1 eq_refl) in H1 as ->. apply exec_delete in H2 as ->. split; [done|]. intros a k. cbn.
    destruct (decide (a = op_address op)) as [->|Ha]; [|rewrite decide_False by naive_solver; done].
    rewrite (decide_True (P := op_address op = op_address op)) by done.
    destruct (decide (k = op_key op)) as [->|Hk]; [by rewrite decide_True|]. rewrite decide_False by naive_solver. done.
Qed.

Lemma batch_effect ops : ∀ cs x y, batch_commands ops = Ok cs → nft_exec_all cs x = Some y →
  Forall (λ op, validate_element op = Ok tt) ops ∧ elements_only x y ∧
  (∀ a k, rs_elem y a k = ops_effect (rs_now x) a k (rs_elem x a k) ops).
Proof.
  induction ops as [|op ops IH]; intros cs x y; cbn [batch_commands].
  { intros [= <-] [= <-]. done. }
  destruct (validate_element op) as [[]|] eqn:Hv; [|done]. cbn [rbind]. destruct (_element_commands op) as [c1|] eqn:Hc; [|done]. cbn [rbind].
  destruct (batch_commands ops) as [rest|] eqn:Hb; [|done]. cbn [rbind]. intros [= <-]. rewrite exec_all_app.
  destruct (nft_exec_all c1 x) as [x1|] eqn:H1; [|done]. cbn. intros H2.
  destruct (element_commands_effect op c1 x x1 Hc H1) as [He1 Hk1]. destruct (IH rest x1 y eq_refl H2) as (Hf & He2 & Hk2).
  split; [by constructor|]. split; [by transitivity x1|]. intros a k. destruct He1 as (Hnow & _). by rewrite Hk2, Hk1, Hnow.
Qed.

Lemma batch_errors ops : firewall_only (batch_commands ops).
Proof.
  induction ops as [|op ops IH]; cbn [batch_commands]; [auto with pirewall|]. apply firewall_only_rbind; [apply validate_element_firewall_only|].
  intros _. apply firewall_only_rbind; [|intros; apply firewall_only_rbind; auto with pirewall].
  unfold _element_commands. destruct (op_kind op); [auto with pirewall|]. apply firewall_only_rbind; [apply writable_set_firewall_only|auto with pirewall].
Qed.
Lemma flush_errors names : firewall_only (flush_commands names).
Proof.
  induction names as [|n names IH]; cbn [flush_commands]; [auto with pirewall|]. apply firewall_only_rbind; [apply writable_set_firewall_only|].
  intros _. apply firewall_only_rbind; auto with pirewall.
Qed.

Lemma batch_writes ops cs : batch_commands ops = Ok cs → Forall writes cs ∧ (cs = [] → ops = []).
Proof.
  revert cs. induction ops as [|op ops IH]; intros cs; cbn [batch_commands]; [by intros [= <-]|].
  destruct (validate_element op); [|done]. cbn [rbind]. destruct (_element_commands op) as [c1|] eqn:Hc; [|done]. cbn [rbind].
  destruct (batch_commands ops) as [rest|]; [|done]. cbn [rbind]. intros [= <-]. destruct (IH rest eq_refl) as [Hr _].
  unfold _element_commands in Hc. destruct (op_kind op); [injection Hc as <-|destruct (writable_set _ _ _); [|done]; injection Hc as <-].
  - split; [constructor; done|done].
  - split; [constructor; [done|constructor; done]|done].
Qed.

Lemma flush_effect names : ∀ cs x y, flush_commands names = Ok cs → nft_exec_all cs x = Some y →
  elements_only x y ∧ (∀ a k, rs_elem y a k = if decide (a ∈ adaptive_address <$> names) then None else rs_elem x a k).
Proof.
  induction names as [|n names IH]; intros cs x y; cbn [flush_commands].
  { intros [= <-] [= <-]. split; [done|]. intros a k. by rewrite decide_False by set_solver. }
  destruct (writable_set _ _ n) as [shape|]; [|done]. cbn [rbind]. destruct (flush_commands names) as [rest|]; [|done]. cbn [rbind]. intros Hcs.
  assert (cs = flush_command n :: rest) as -> by (by injection Hcs as <-). cbn [nft_exec_all].
  change (nft_exec (flush_command n) x) with (if negb (rs_set x (adaptive_address n)) then None else Some (set_elem x (adaptive_address n) (λ _, None))).
  destruct (negb _); [done|]. cbn [mbind option_bind]. intros H2. destruct (IH rest _ y eq_refl H2) as [He Hk].
  split; [exact He|]. intros a k. rewrite Hk, fmap_cons. cbn [set_elem rs_elem].
  destruct (decide (a ∈ adaptive_address <$> names)) as [Hin|Hin]; [by rewrite decide_True by set_solver|].
  destruct (decide (a = adaptive_address n)) as [->|Hne]; [by rewrite decide_True by set_solver|]. by rewrite decide_False by set_solver.
Qed.

Lemma flush_writes names cs : flush_commands names = Ok cs → Forall writes cs ∧ (cs = [] → names = []).
Proof.
  revert cs. induction names as [|n names IH]; intros cs; cbn [flush_commands]; [by intros [= <-]|].
  destruct (writable_set _ _ n) as [shape|]; [|done]. cbn [rbind]. destruct (flush_commands names) as [rest|]; [|done]. cbn [rbind]. intros [= <-].
  split; [|done]. constructor; [done|]. by apply IH.
Qed.

(** Guard chains. *)
Definition chain_address (c : string) : set_address := (INET_FAMILY, STATIC_TABLE, c).
Definition chains_only (x y : ruleset) : Prop :=
  rs_now y = rs_now x ∧ (∀ l, rs_table y l = rs_table x l) ∧ (∀ a k, rs_elem y a k = rs_elem x a k).

Lemma listed_verdict g m : listed_mode [expr_json <$> verdict_expressions g m] = m.
Proof. by destruct m. Qed.

Lemma exec_guard g m x y :
  nft_exec_all (guard_command_json <$> [CmdFlushChain (guard_verdict_chain g); CmdAddRule (guard_verdict_chain g) (verdict_expressions g m)]) x = Some y →
  chains_only x y ∧ (∀ a, rs_chain y a =
    if decide (a = chain_address (guard_verdict_chain g)) then Some [expr_json <$> verdict_expressions g m] else rs_chain x a).
Proof.
  set (c := guard_verdict_chain g). cbn [fmap list_fmap nft_exec_all].
  change (nft_exec (guard_command_json (CmdFlushChain c)) x) with
    (match rs_chain x (chain_address c) with None => None | Some _ => Some (set_chain x (chain_address c) (Some [])) end).
  destruct (rs_chain x (chain_address c)); [|done]. cbn [mbind option_bind]. set (x1 := set_chain x _ _).
  change (nft_exec (guard_command_json (CmdAddRule c (verdict_expressions g m))) x1) with
    (match rs_chain x1 (chain_address c) with
     | None => None
     | Some rules => Some (set_chain x1 (chain_address c) (Some (rules ++ [expr_json <$> verdict_expressions g m])))
     end).
  assert (Hc : rs_chain x1 (chain_address c) = Some []) by (cbn; by rewrite decide_True). rewrite Hc. cbn. intros [= <-].
  split; [done|]. intros a. cbn. by destruct (decide (a = chain_address c)).
Qed.

Lemma guards_effect modes gs : NoDup gs → ∀ x y,
  nft_exec_all (guard_command_json <$> (gs ≫= (λ g, match dget modes g with
    | None => [] | Some m => [CmdFlushChain (guard_verdict_chain g); CmdAddRule (guard_verdict_chain g) (verdict_expressions g m)] end))) x = Some y →
  chains_only x y ∧ (∀ g, rs_chain y (chain_address (guard_verdict_chain g)) =
    match dget modes g with
    | Some m => if decide (g ∈ gs) then Some [expr_json <$> verdict_expressions g m] else rs_chain x (chain_address (guard_verdict_chain g))
    | None => rs_chain x (chain_address (guard_verdict_chain g))
    end).
Proof.
  induction gs as [|h gs IH]; intros Hnd x y.
  { cbn. intros [= <-]. split; [done|]. intros g. destruct (dget modes g); [by rewrite decide_False by set_solver|done]. }
  apply NoDup_cons in Hnd as [Hh Hnd]. rewrite bind_cons, fmap_app, exec_all_app.
  destruct (dget modes h) as [m|] eqn:Hm.
  - destruct (nft_exec_all _ x) as [x1|] eqn:H1; [|done]. cbn [mbind option_bind]. intros H2. apply exec_guard in H1 as [(N1 & T1 & E1) C1].
    destruct (IH Hnd x1 y H2) as [(N2 & T2 & E2) C2]. split; [repeat split; intros; congruence|]. intros g. rewrite C2, C1.
    destruct (decide (g = h)) as [->|Hne].
    + rewrite Hm, (decide_False (P := h ∈ gs)), (decide_True (P := h ∈ h :: gs)) by (done || set_solver). by rewrite decide_True.
    + rewrite (decide_False (P := chain_address _ = _)) by (intros Heq; apply Hne, guard_verdict_chain_inj; by apply (f_equal snd) in Heq).
      destruct (dget modes g); [|done]. destruct (decide (g ∈ gs)); [by rewrite decide_True by set_solver|by rewrite decide_False by set_solver].
  - cbn [fmap list_fmap nft_exec_all mbind option_bind]. intros H2. destruct (IH Hnd x y H2) as [Hc C2]. split; [done|]. intros g. rewrite C2.
    destruct (decide (g = h)) as [->|Hne]; [by rewrite Hm|]. destruct (dget modes g); [|done].
    destruct (decide (g ∈ gs)); [by rewrite decide_True by set_solver|by rewrite decide_False by set_solver].
Qed.

(** Tables. *)
Lemma exec_panic_table l x y : nft_exec_all [table_command "add" l.1 l.2; table_command "delete" l.1 l.2] x = Some y →
  rs_now y = rs_now x ∧ (∀ l', rs_table y l' = if decide (l' = l) then false else rs_table x l') ∧
  (∀ a k, rs_elem y a k = if decide (address_table a = l) then None else rs_elem x a k) ∧
  (∀ a, rs_chain y a = if decide (address_table a = l) then None else rs_chain x a).
Proof.
  destruct l as [f t]. cbn [nft_exec_all fst snd].
  change (nft_exec (table_command "add" f t) x) with
    (Some (mk_ruleset (rs_now x) (λ l, if decide (l = (f, t)) then true else rs_table x l) (rs_set x) (rs_elem x) (rs_chain x))).
  cbn [mbind option_bind]. set (x1 := mk_ruleset _ _ _ _ _).
  change (nft_exec (table_command "delete" f t) x1) with
    (if negb (rs_table x1 (f, t)) then None
     else Some (mk_ruleset (rs_now x1) (λ l, if decide (l = (f, t)) then false else rs_table x1 l)
               (λ a, if decide (a.1 = (f, t)) then false else rs_set x1 a)
               (λ a, if decide (a.1 = (f, t)) then λ _, None else rs_elem x1 a)
               (λ a, if decide (a.1 = (f, t)) then None else rs_chain x1 a))).
  destruct (negb _); [done|]. cbn [mbind option_bind]. intros [= <-]. cbn. split; [done|]. split.
  { intros l'. by destruct (decide (l' = (f, t))). }
  split; [intros [[f' t'] n] k|intros [[f' t'] n]]; unfold address_table; cbn; by destruct (decide ((f', t') = (f, t))).
Qed.

Lemma panic_effect L : ∀ x y, nft_exec_all (L ≫= (λ l, [table_command "add" l.1 l.2; table_command "delete" l.1 l.2])) x = Some y →
  rs_now y = rs_now x ∧ (∀ l, rs_table y l = if decide (l ∈ L) then false else rs_table x l) ∧
  (∀ a k, rs_elem y a k = if decide (address_table a ∈ L) then None else rs_elem x a k) ∧
  (∀ a, rs_chain y a = if decide (address_table a ∈ L) then None else rs_chain x a).
Proof.
  induction L as [|l L IH]; intros x y.
  { cbn. intros [= <-]. split; [done|]. repeat split; intros; by rewrite decide_False by set_solver. }
  rewrite bind_cons, exec_all_app. destruct (nft_exec_all _ x) as [x1|] eqn:H1; [|done]. cbn [mbind option_bind]. intros H2.
  apply exec_panic_table in H1 as (N1 & T1 & E1 & C1). destruct (IH x1 y H2) as (N2 & T2 & E2 & C2).
  assert (Hd : ∀ {A} (l' : string * string) (u v : A),
    (if decide (l' ∈ L) then u else if decide (l' = l) then u else v) = if decide (l' ∈ l :: L) then u else v).
  { intros A l' u v. destruct (decide (l' ∈ L)); [by rewrite decide_True by set_solver|].
    destruct (decide (l' = l)) as [->|]; [by rewrite decide_True by set_solver|]. by rewrite decide_False by set_solver. }
  split; [congruence|]. repeat split; intros; [rewrite T2, T1|rewrite E2, E1|rewrite C2, C1]; apply Hd.
Qed.

(** ** Listings *)

Lemma listed_key_read v k : listed_key v k → _key_from_json v = Some k.
Proof. by destruct 1. Qed.
Lemma listed_element_read v k r : listed_element v k r → _element_state v = Some (mk_element k r).
Proof.
  by destruct 1 as [v k []|v k t e []|v k []].
Qed.

Lemma objects_listing output items kind : listing output items → kind ≠ "metainfo" →
  _objects output kind = omap (λ item, d ← as_dict item; inner ← dget d kind; as_dict inner) items.
Proof.
  intros [v ->] Hk. unfold _objects. cbn [as_dict]. change (dget [("nftables", _)] "nftables") with
    (Some (JList (JObj [("metainfo", JObj [("version", JStr v)])] :: items))). cbn [as_list]. cbn [omap list_omap as_dict mbind option_bind].
  assert (Hd : dget [("metainfo", JObj [("version", JStr v)])] kind = None) by (cbn; by rewrite decide_False). by rewrite Hd.
Qed.

(** ** The laws *)

Section Laws.
Context {T : Type} (run : json → M T json) `{NK : !NftContract T run}.

Definition view (t : T) : kernel_view := nft_view (nk_rules t).

(** What a write made of the kernel: [P] when it is reported done; when it is
    reported failed, nothing, or [P] if the run of its document was killed. *)
Definition outcome {A} (t : T) (document_of : result (list json)) (P : Prop) (r : result A) (t' : T) : Prop :=
  match r with
  | Ok _ => P
  | Raise e => (∃ msg, e = FirewallError msg) ∧
      (view_eq (view t') (view t) ∨ P ∧ ∃ cs, document_of = Ok cs ∧ nk_killed (document cs) t)
  end.

Lemma run_outcome {A} commands t r t' (P : Prop) (v : A) : commands ≠ [] → Forall writes commands →
  (∀ x, nft_exec_all commands (nk_rules t) = Some x → rs_eq (nk_rules t') x → P) →
  (_ ← _run run commands; mret v) t = (r, t') → outcome t (Ok commands) P r t'.
Proof.
  intros Hne Hw HP. unfold mbind, m_bind, _run, try_firewall. destruct (run (document commands) t) as [r0 t0] eqn:Hr.
  assert (Hnl : ∀ k w, list_command k w ∉ commands).
  { intros k w Hin. rewrite Forall_forall in Hw. by apply (Hw _ Hin k w). }
  pose proof (nk_write commands t r0 t0 Hne Hnl Hr) as Hk. destruct r0 as [out|e]; [intros [= <- <-]; destruct Hk as (x & ? & ?); by eapply HP|].
  destruct Hk as [[msg ->] Hk]. intros Heq.
  assert (Hr' : (∃ m, r = Raise (FirewallError m)) ∧ t' = t0) by (revert Heq; destruct (contains _ _); intros [= <- <-]; eauto).
  destruct Hr' as [[m ->] ->]. split; [by eexists|].
  destruct Hk as [Hk|[(x & Hx & Hx') Hkill]]; [left; by apply view_of_eq|right; split; [by eapply HP|by eexists]].
Qed.

Lemma run_list kind what t : let o := run (document [list_command kind what]) t in
  ∃ r, _run run [list_command kind what] t = (r, o.2) ∧ rs_eq (nk_rules o.2) (nk_rules t) ∧
    match o.1, r with
    | Ok out, Ok out' => out' = out
    | Raise _, Raise e => ∃ msg, e = FirewallError msg
    | _, _ => False
    end.
Proof.
  cbn zeta. unfold _run, try_firewall. destruct (run _ t) as [r0 t0] eqn:Hr. destruct (nk_list _ _ _ _ _ Hr) as [Heq Hf]. cbn.
  destruct r0 as [out|e]; [by exists (Ok out)|]. destruct Hf as [msg ->].
  destruct (contains _ _); eexists; (split; [reflexivity|]); split; eauto.
Qed.

Definition apply_facts (ops : list SetOp) (t t' : T) : Prop :=
  Forall (λ op, validate_element op = Ok tt) ops ∧ kv_now (view t') = kv_now (view t) ∧
  (∀ a k, kv_elem (view t') a k = ops_effect (kv_now (view t)) a k (kv_elem (view t) a k) ops) ∧
  (∀ g, kv_guard (view t') g = kv_guard (view t) g) ∧ (∀ l, kv_table (view t') l = kv_table (view t) l).

Lemma nft_apply_outcome ops t r t' : nft_apply run ops t = (r, t') → outcome t (batch_commands ops) (apply_facts ops t t') r t'.
Proof.
  destruct ops as [|op ops]; [by intros [= <- <-]|]. set (l := op :: ops). unfold nft_apply, l at 1.
  destruct (batch_commands l) as [cs|e] eqn:Hb.
  - destruct (batch_writes l cs Hb) as [Hw Hne]. change ((mlift (Ok cs) ≫= _) t) with ((_ ← _run run cs; mret tt) t).
    apply run_outcome; [intros ->; by specialize (Hne eq_refl)|done|]. intros x Hx (E1 & E2 & E3 & E4 & E5).
    destruct (batch_effect l cs _ x Hb Hx) as (Hf & (Hn & Ht & Hc) & Hk). unfold apply_facts, view. cbn [kv_now kv_elem kv_table kv_guard nft_view].
    split; [done|]. split; [congruence|]. split; [intros a k; rewrite E4; apply Hk|]. split; intros; [by rewrite E5, Hc|by rewrite E2, Ht].
  - intros [= <- <-]. split; [by apply batch_errors in Hb|by left].
Qed.

Definition flush_facts (names : list string) (t t' : T) : Prop :=
  kv_now (view t') = kv_now (view t) ∧
  (∀ a k, kv_elem (view t') a k = if decide (a ∈ adaptive_address <$> names) then None else kv_elem (view t) a k) ∧
  (∀ g, kv_guard (view t') g = kv_guard (view t) g) ∧ (∀ l, kv_table (view t') l = kv_table (view t) l).

Lemma nft_flush_outcome names t r t' : nft_flush_sets run names t = (r, t') →
  outcome t (flush_commands (py_sorted String.leb (dedup names))) (flush_facts names t t') r t'.
Proof.
  set (sorted := py_sorted String.leb (dedup names)). assert (Hin : ∀ n, n ∈ sorted ↔ n ∈ names).
  { intros n. unfold sorted. by rewrite elem_of_py_sorted, elem_of_dedup. }
  unfold nft_flush_sets. fold sorted. destruct (flush_commands sorted) as [cs|e] eqn:Hc.
  2: { intros [= <- <-]. split; [by apply flush_errors in Hc|by left]. }
  destruct (flush_writes sorted cs Hc) as [Hw Hne]. unfold mbind at 1, m_bind at 1, mlift at 1. destruct cs as [|c cs].
  { intros [= <- <-]. split; [done|]. split; [|done]. intros a k. rewrite decide_False; [done|].
    intros (n & -> & Hn)%list_elem_of_fmap. apply Hin in Hn. rewrite Hne in Hn by done. set_solver. }
  apply run_outcome; [done|done|]. intros x Hx (E1 & E2 & E3 & E4 & E5). destruct (flush_effect sorted (c :: cs) _ x Hc Hx) as ((Hn & Ht & Hch) & Hk).
  unfold flush_facts, view. cbn [kv_now kv_elem kv_table kv_guard nft_view].
  split; [congruence|]. split; [|split; intros; [by rewrite E5, Hch|by rewrite E2, Ht]].
  intros a k. rewrite E4, Hk. assert (Hiff : a ∈ adaptive_address <$> sorted ↔ a ∈ adaptive_address <$> names).
  { rewrite !list_elem_of_fmap. split; intros (n & -> & Hn'); exists n; (split; [done|]); by apply Hin. }
  destruct (decide (a ∈ adaptive_address <$> sorted)); [rewrite decide_True by tauto|rewrite decide_False by tauto]; done.
Qed.

Lemma guard_commands_empty modes : guard_mode_commands modes = [] → ∀ g, dget modes g = None.
Proof.
  unfold guard_mode_commands. intros H g. assert (Hg : g ∈ all_guards) by (destruct g; apply (bool_decide_unpack _); vm_compute; exact I).
  revert H Hg. induction all_guards as [|h gs IH]; [by intros _ Hg; apply not_elem_of_nil in Hg|]. rewrite bind_cons.
  intros [Hh Hgs]%app_nil Hg. apply elem_of_cons in Hg as [<-|Hg]; [|by apply IH]. by destruct (dget modes g).
Qed.

Lemma guards_write modes : Forall writes (guard_command_json <$> guard_mode_commands modes).
Proof. apply Forall_fmap, Forall_true. by intros []. Qed.

Definition guards_facts (modes : list (GuardName * GuardMode)) (t t' : T) : Prop :=
  kv_now (view t') = kv_now (view t) ∧ (∀ a k, kv_elem (view t') a k = kv_elem (view t) a k) ∧
  (∀ g m, dget modes g = Some m → NoDup (dkeys modes) → kv_guard (view t') g = Some m) ∧
  (∀ g, dget modes g = None → kv_guard (view t') g = kv_guard (view t) g) ∧
  (∀ l, kv_table (view t') l = kv_table (view t) l).

Lemma nft_guards_outcome modes t r t' : nft_set_guard_modes run modes t = (r, t') →
  outcome t (Ok (guard_command_json <$> guard_mode_commands modes)) (guards_facts modes t t') r t'.
Proof.
  unfold nft_set_guard_modes. pose proof (guards_write modes) as Hw. pose proof (guard_commands_empty modes) as Hempty.
  destruct (guard_command_json <$> guard_mode_commands modes) as [|c cs] eqn:Hc.
  { intros [= <- <-]. apply fmap_nil_inv in Hc. split; [done|]. split; [done|]. split; [|done]. intros g m Hg. by rewrite Hempty in Hg. }
  apply run_outcome; [done|done|]. intros x Hx (E1 & E2 & E3 & E4 & E5). rewrite <- Hc in Hx. unfold guard_mode_commands in Hx.
  apply guards_effect in Hx as ((Hn & Ht & Hk) & Hch); [|apply (bool_decide_unpack _); vm_compute; exact I].
  unfold guards_facts, view. cbn [kv_now kv_elem kv_table kv_guard nft_view].
  split; [congruence|]. split; [intros; by rewrite E4|]. split; [|split; [|intros; by rewrite E2, Ht]].
  - intros g m Hg _. rewrite E5. unfold chain_address in Hch. rewrite Hch, Hg.
    rewrite decide_True by (destruct g; apply (bool_decide_unpack _); vm_compute; exact I). cbn [fmap option_fmap option_map].
    by rewrite listed_verdict.
  - intros g Hg. rewrite E5. unfold chain_address in Hch. by rewrite Hch, Hg.
Qed.

Definition panic_facts (t t' : T) : Prop :=
  kv_now (view t') = kv_now (view t) ∧
  (∀ a k, kv_elem (view t') a k = if decide (address_table a ∈ PANIC_TABLES) then None else kv_elem (view t) a k) ∧
  (∀ l, kv_table (view t') l = if decide (l ∈ PANIC_TABLES) then false else kv_table (view t) l) ∧
  (∀ g, kv_guard (view t') g = None).

Lemma nft_panic_outcome {A} (v : A) t r t' : (_ ← _run run panic_commands; mret v) t = (r, t') →
  outcome t (Ok panic_commands) (panic_facts t t') r t'.
Proof.
  apply run_outcome; [done|repeat (constructor; [done|]); constructor|]. intros x Hx (E1 & E2 & E3 & E4 & E5).
  apply panic_effect in Hx as (Hn & Ht & Hk & Hc). unfold panic_facts, view. cbn [kv_now kv_elem kv_table kv_guard nft_view].
  split; [congruence|]. repeat split; intros; [by rewrite E4, Hk|by rewrite E2, Ht|]. rewrite E5, Hc. by rewrite decide_True by set_solver.
Qed.

(** A listing document: the transport's answer, with the ruleset unchanged. *)
Lemma run_list_ok kind what t r t' : _run run [list_command kind what] t = (r, t') →
  view_eq (view t') (view t) ∧
  match r with
  | Ok out => ∃ t0, run (document [list_command kind what]) t = (Ok out, t0)
  | Raise e => ∃ msg, e = FirewallError msg
  end.
Proof.
  intros Hr. destruct (run_list kind what t) as (r0 & Hr0 & Heq & Hm). rewrite Hr in Hr0. injection Hr0 as <- ->.
  split; [by apply view_of_eq|]. destruct (run _ t) as [[out|e] t0] eqn:Ht; cbn in *; destruct r as [out'|e']; try done.
  subst out'. by exists t0.
Qed.

(** A listing is exactly the live elements. *)
Lemma nft_list_exact a t r t' : nft_list_set run a t = (r, t') →
  view_eq (view t') (view t) ∧
  match r with
  | Ok els => ∀ k r, mk_element k r ∈ els ↔ ∃ x, kv_elem (view t) a k = Some x ∧ r = view_remaining (view t) x
  | Raise e => ∃ msg, e = FirewallError msg
  end.
Proof.
  destruct a as [[f n] s]. unfold nft_list_set, _list_set_object, mbind, m_bind.
  destruct (_run run _ t) as [r0 t0] eqn:Hr. apply run_list_ok in Hr as [Hv Hr]. destruct r0 as [out|e].
  2: { intros [= <- <-]. by split. }
  destruct Hr as [t1 Ht]. apply nk_list_set in Ht as (o & elems & L & Hl & He & HL & Hin).
  rewrite (objects_listing out _ "set" Hl) by done. cbn [omap list_omap as_dict mbind option_bind].
  change (dget [("set", JObj o)] "set") with (Some (JObj o)). cbn [mbind option_bind as_dict].
  intros [= <- <-]. split; [done|]. rewrite He.
  assert (Hels : omap _element_state elems = (λ p, mk_element p.1 p.2) <$> L).
  { clear He Hin. induction HL as [|v p elems L Hvp _ IH]; [done|]. cbn. rewrite (listed_element_read _ _ _ Hvp), IH. done. }
  intros k r. rewrite Hels, list_elem_of_fmap. split.
  - intros ([k' r'] & [= -> ->] & Hp). by apply Hin in Hp.
  - intros Hx. exists (k, r). split; [done|]. by apply Hin.
Qed.

Lemma nft_list_law a t r t' : nft_list_set run a t = (r, t') →
  view_eq (view t') (view t) ∧
  match r with
  | Ok els =>
      (∀ k e, mk_element k e ∈ els → is_Some (kv_elem (view t) a k)) ∧
      (∀ k x, kv_elem (view t) a k = Some x → mk_element k (view_remaining (view t) x) ∈ els)
  | Raise e => ∃ msg, e = FirewallError msg
  end.
Proof.
  intros [Hv Hr]%nft_list_exact. split; [done|]. destruct r; [|done]. split.
  - intros k e (x & Hx & _)%Hr. by exists x.
  - intros k x Hx. apply Hr. by exists x.
Qed.

(** The objects of one kind in a list that holds only those. *)
Lemma objects_of {A} (kind : string) (f : A → list (string * json)) (l : list A) :
  omap (λ item, d ← as_dict item; inner ← dget d kind; as_dict inner) ((λ x, JObj [(kind, JObj (f x))]) <$> l) = f <$> l.
Proof.
  induction l as [|x l IH]; [done|]. rewrite fmap_cons. cbn [omap list_omap as_dict mbind option_bind].
  replace (dget [(kind, JObj (f x))] kind) with (Some (JObj (f x))) by (cbn; by rewrite decide_True).
  cbn [mbind option_bind as_dict]. rewrite fmap_cons. f_equal. apply IH.
Qed.

Lemma nft_guard_mode_law g t r t' : nft_guard_mode run g t = (r, t') →
  view_eq (view t') (view t) ∧ (r = Ok (kv_guard (view t) g) ∨ r = Ok None).
Proof.
  unfold nft_guard_mode, try_firewall, mbind, m_bind. destruct (_run run _ t) as [r0 t0] eqn:Hr.
  apply run_list_ok in Hr as [Hv Hr]. destruct r0 as [out|e].
  2: { destruct Hr as [msg ->]. intros [= <- <-]. by split; [|right]. }
  destruct Hr as [t1 Ht]. apply nk_list_chain in Ht as (rules & Hc & c & Hl).
  rewrite (objects_listing out _ "rule" Hl) by done. cbn [omap list_omap as_dict mbind option_bind].
  change (dget [("chain", JObj c)] "rule") with (@None json). cbn [mbind option_bind].
  rewrite (objects_of "rule" (rule_item _)). intros [= <- <-]. split; [done|]. left. do 2 f_equal.
  cbn. rewrite Hc. cbn. do 2 f_equal. rewrite <- list_fmap_compose. rewrite <- (list_fmap_id rules) at 2. by apply list_fmap_ext.
Qed.

Lemma nft_table_exists_law f n t r t' : nft_table_exists run f n t = (r, t') →
  view_eq (view t') (view t) ∧
  match r with Ok loaded => loaded = kv_table (view t) (f, n) | Raise e => ∃ msg, e = FirewallError msg end.
Proof.
  unfold nft_table_exists, mbind, m_bind. destruct (_run run _ t) as [r0 t0] eqn:Hr.
  apply run_list_ok in Hr as [Hv Hr]. destruct r0 as [out|e]; intros [= <- <-]; (split; [done|]); [|done].
  destruct Hr as [t1 Ht]. apply nk_list_tables in Ht as (L & Hl & Hin).
  rewrite (objects_listing out _ "table" Hl), (objects_of "table" table_item) by done.
  apply eq_true_iff_eq. cbn [kv_table view nft_view]. rewrite <- Hin, existsb_exists. split.
  - intros (d & ([f' n'] & -> & Hl')%list_elem_of_In%list_elem_of_fmap & Hb). cbn in Hb.
    apply andb_true_iff in Hb as [[= ->]%bool_decide_eq_true [= ->]%bool_decide_eq_true]. done.
  - intros HL. exists (table_item (f, n)). split; [apply list_elem_of_In, list_elem_of_fmap; by exists (f, n)|].
    by rewrite !bool_decide_true.
Qed.

Lemma nft_set_fill_law a t r t' : nft_set_fill run a t = (r, t') →
  view_eq (view t') (view t) ∧ match r with Ok _ => True | Raise e => ∃ msg, e = FirewallError msg end.
Proof.
  destruct a as [[f n] s]. unfold nft_set_fill, _list_set_object, mbind, m_bind.
  destruct (_run run _ t) as [r0 t0] eqn:Hr. apply run_list_ok in Hr as [Hv Hr]. destruct r0 as [out|e].
  - destruct (_objects out "set") as [|o os]; intros [= <- <-]; (split; [done|]); [by eexists|done].
  - intros [= <- <-]. by split.
Qed.

Lemma nft_read_counters_law names t r t' : nft_read_counters run names t = (r, t') →
  view_eq (view t') (view t) ∧ match r with Ok _ => True | Raise e => ∃ msg, e = FirewallError msg end.
Proof.
  unfold nft_read_counters. generalize (@nil (string * Z)) as counts. revert t.
  induction names as [|name names IH]; intros t counts; cbn [read_counters_loop]; [by intros [= <- <-]|].
  unfold mbind, m_bind at 1, read_counter, try_firewall. unfold mbind, m_bind at 1.
  destruct (_run run _ t) as [r0 t0] eqn:Hr. apply run_list_ok in Hr as [Hv Hr]. destruct r0 as [out|e].
  - cbn. intros [Hv' H]%IH. split; [by rewrite Hv', Hv|done].
  - destruct Hr as [msg ->]. cbn. intros [Hv' H]%IH. split; [by rewrite Hv', Hv|done].
Qed.

(** ** Histories *)

(** The document of a write. *)
Definition write_document (w : set_write) : result (list json) :=
  match w with
  | WApply ops => batch_commands ops
  | WFlush names => flush_commands (py_sorted String.leb (dedup names))
  | WGuards modes => Ok (guard_command_json <$> guard_mode_commands modes)
  | WPanic => Ok panic_commands
  end.

Lemma nft_write_outcome w t r t' : write_wf w → @do_write T (nft_set_backend run) w t = (r, t') →
  outcome t (write_document w) (view_eq (view t') (write_spec w (view t))) r t'.
Proof.
  assert (Hmono : ∀ (P Q : Prop) d (r : result unit), (P → Q) → outcome t d P r t' → outcome t d Q r t').
  { intros P Q d [[]|e] HPQ; cbn; [exact HPQ|]. intros [Hm Hv]. split; [done|]. destruct Hv as [Hv|[HP Hk]]; auto. }
  destruct w as [ops|names|modes|]; cbn [write_wf do_write write_document]; intros Hwf.
  - intros Hr%nft_apply_outcome. revert Hr. apply Hmono. by intros (_ & ? & ? & ? & ?).
  - intros Hr%nft_flush_outcome. revert Hr. apply Hmono. by intros (? & ? & ? & ?).
  - intros Hr%nft_guards_outcome. revert Hr. apply Hmono. intros (? & ? & Hs & Hn & ?). repeat split; [done..| |done].
    intros g. cbn. destruct (dget modes g) eqn:Hg; [by apply Hs|by apply Hn].
  - intros Hr. assert (Hr' : (_ ← _run run panic_commands; mret tt) t = (r, t')).
    { rewrite <- Hr. unfold sb_panic, nft_set_backend, nft_panic, mbind, m_bind. by destruct (_run run panic_commands t) as [[out|x] t1]. }
    apply nft_panic_outcome in Hr'. revert Hr'. apply Hmono. by intros (? & ? & ? & ?).
Qed.

(** A write, the result it was reported with, and the host it ran on. *)
Record write_event : Type := mk_written { we_write : set_write; we_result : result unit; we_host : T }.
Definition we_at (e : write_event) : Z := rs_now (nk_rules (we_host e)).

(** Writes through the backend, with time passing before each. *)
Inductive history : T → list write_event → T → Prop :=
| HistoryNil t : history t [] t
| HistoryWrite t t0 w r t1 es t2 : nk_later t t0 → write_wf w → @do_write T (nft_set_backend run) w t0 = (r, t1) →
    history t1 es t2 → history t (mk_written w r t0 :: es) t2.

(** Whether a write is in force can be told from its result, except for a
    failure that comes from a killed run. *)
Definition committed_as (e : write_event) (committed : bool) : Prop :=
  match we_result e with
  | Ok _ => committed = true
  | Raise x => (∃ msg, x = FirewallError msg) ∧
      (committed = true → ∃ cs, write_document (we_write e) = Ok cs ∧ nk_killed (document cs) (we_host e))
  end.

Lemma view_later t t' : nk_later t t' → view_eq (view t') (view_at (rs_now (nk_rules t')) (view t)).
Proof. intros [_ (H1 & H2 & H3 & H4 & H5)]%nk_later_law. repeat split; cbn; intros; by rewrite ?H2, ?H4, ?H5. Qed.

Lemma history_spec t es t' : history t es t' → ∃ committed, Forall2 committed_as es committed ∧
  view_eq (view t') (timed_spec (zip_with (λ e c, (we_at e, we_write e, c)) es committed) (view t)).
Proof.
  induction 1 as [t|t t0 w r t1 es t2 Hl Hwf Hw _ (cs & Hcs & IH)]; [by exists []|]. apply nft_write_outcome in Hw; [|done].
  pose proof (view_later _ _ Hl) as Hv. destruct r as [[]|e].
  - exists (true :: cs). split; [by constructor|]. cbn. rewrite IH. apply timed_spec_proper. cbn in Hw. by rewrite Hw, Hv.
  - destruct Hw as [Hm [Hw|[Hw Hk]]].
    + exists (false :: cs). split; [by constructor|]. cbn. rewrite IH. apply timed_spec_proper. by rewrite Hw, Hv.
    + exists (true :: cs). split; [by constructor|]. cbn. rewrite IH. apply timed_spec_proper. by rewrite Hw, Hv.
Qed.

(** C16: Over any nft that does what it documents, the production backend refines
    the protocol's specification: after any history of element batches,
    flushes, guard changes and panics, at any instants and any of which nft
    may refuse, the kernel at a later instant holds exactly the committed
    writes in their order, less the elements whose time is up; a write
    reported done is committed, and a write reported failed, which is always
    a [FirewallError], is not, unless its nft run was killed; and a listing
    that succeeds returns exactly the live elements of its set with what
    remains of their lives. *)
Theorem production_backend_refines_spec t es t' t'' : history t es t' → nk_later t' t'' →
  ∃ committed, Forall2 committed_as es committed ∧
    let v := view_at (rs_now (nk_rules t''))
               (timed_spec (zip_with (λ e c, (we_at e, we_write e, c)) es committed) (nft_view (nk_rules t))) in
    view_eq (nft_view (nk_rules t'')) v ∧
    (∀ a els t3, nft_list_set run a t'' = (Ok els, t3) → ∀ k r,
       mk_element k r ∈ els ↔ ∃ x, kv_elem v a k = Some x ∧ r = view_remaining v x).
Proof.
  intros (cs & Hcs & Hv)%history_spec Hl. exists cs. split; [done|]. intros v.
  assert (Hv' : view_eq (view t'') v) by (unfold v; rewrite (view_later _ _ Hl); by rewrite Hv).
  split; [exact Hv'|]. intros a els t3 [_ Hls]%nft_list_exact k r. rewrite Hls. destruct Hv' as (Hn & He & _).
  unfold view_remaining. by rewrite <- He, <- Hn.
Qed.

(** ** The contract of [SetBackend]

    The production backend keeps it where no run is killed after its
    commit. *)

Context (in_time : ∀ doc t, ¬ nk_killed doc t).

Lemma outcome_in_time {A} t d (P : Prop) (r : result A) t' : outcome t d P r t' →
  match r with Ok _ => P | Raise e => view_eq (view t') (view t) ∧ ∃ msg, e = FirewallError msg end.
Proof. destruct r as [a|e]; [done|]. intros [Hm [Hv|(_ & cs & _ & Hk)]]; [done|]. by destruct (in_time _ _ Hk). Qed.

Lemma nft_panic_law t r t' : nft_panic run t = (r, t') →
  match r with Ok deleted => deleted = PANIC_TABLES ∧ panic_facts t t' | Raise e => view_eq (view t') (view t) ∧ ∃ msg, e = FirewallError msg end.
Proof.
  intros Hr. assert (Hd : ∀ d, r = Ok d → d = PANIC_TABLES).
  { intros d ->. revert Hr. unfold nft_panic, mbind, m_bind. destruct (_run run panic_commands t) as [[out|x] t1]; by intros [= <- <-]. }
  apply nft_panic_outcome, outcome_in_time in Hr. destruct r as [d|e]; [|done]. by split; [apply Hd|].
Qed.

#[local] Instance nft_set_backend_laws : SetBackendLaws T (H := nft_set_backend run) := {
  sb_view := view;
  apply_law := λ ops t r t' H, outcome_in_time _ _ _ _ _ (nft_apply_outcome ops t r t' H);
  flush_law := λ names t r t' H, outcome_in_time _ _ _ _ _ (nft_flush_outcome names t r t' H);
  guards_law := λ modes t r t' H, outcome_in_time _ _ _ _ _ (nft_guards_outcome modes t r t' H);
  panic_law := nft_panic_law;
  list_law := nft_list_law;
  guard_mode_law := nft_guard_mode_law;
  table_exists_law := nft_table_exists_law;
  set_fill_law := nft_set_fill_law;
  read_counters_law := nft_read_counters_law;
}.
End Laws.
