(* ===== verification/NftSim.v ===== *)
(** * A computed nft

    A transport whose state is its ruleset as finite data: it runs a document
    of commands as one transaction and answers the listings the backend asks
    for.  It keeps [NftContract], so the contract is satisfiable, and the
    production backend can be run on it. *)

From S2P Require Import Prelude Net Models Sets SetBackend Json Nftables NftablesLaws.
Local Open Scope Z_scope.

Record sim_kernel : Type := mk_sim {
  sim_now : Z;
  sim_tables : list (string * string);
  sim_sets : list (set_address * list (ElementKey * option Z));
  sim_chains : list (set_address * list (list json));
}.

Definition sim_rules (s : sim_kernel) : ruleset :=
  mk_ruleset (sim_now s) (λ l, bool_decide (l ∈ sim_tables s)) (λ a, dmem (sim_sets s) a)
    (λ a k, elems ← dget (sim_sets s) a; dget elems k) (dget (sim_chains s)).

Definition sim_put_set (s : sim_kernel) (a : set_address) (elems : list (ElementKey * option Z)) : sim_kernel :=
  mk_sim (sim_now s) (sim_tables s) (dset (sim_sets s) a elems) (sim_chains s).
Definition sim_put_chain (s : sim_kernel) (a : set_address) (rules : list (list json)) : sim_kernel :=
  mk_sim (sim_now s) (sim_tables s) (sim_sets s) (dset (sim_chains s) a rules).

Definition sim_add_element (o : list (string * json)) (s : sim_kernel) : option sim_kernel :=
  a ← address_of o "name"; e ← single (dget o "elem"); '(k, t) ← written_element e; elems ← dget (sim_sets s) a;
  Some (sim_put_set s a (dsetdefault elems k ((λ t, sim_now s + seconds t) <$> t))).
Definition sim_delete_element (o : list (string * json)) (s : sim_kernel) : option sim_kernel :=
  a ← address_of o "name"; e ← single (dget o "elem"); '(k, _) ← written_element e; elems ← dget (sim_sets s) a;
  _ ← dget elems k; Some (sim_put_set s a (dpop elems k)).
Definition sim_flush_set (o : list (string * json)) (s : sim_kernel) : option sim_kernel :=
  a ← address_of o "name"; _ ← dget (sim_sets s) a; Some (sim_put_set s a []).
Definition sim_flush_chain (o : list (string * json)) (s : sim_kernel) : option sim_kernel :=
  a ← address_of o "name"; _ ← dget (sim_chains s) a; Some (sim_put_chain s a []).
Definition sim_add_rule (o : list (string * json)) (s : sim_kernel) : option sim_kernel :=
  a ← address_of o "chain"; rules ← dget (sim_chains s) a; Some (sim_put_chain s a (rules ++ [as_list (dget o "expr")])).
Definition sim_add_table (o : list (string * json)) (s : sim_kernel) : option sim_kernel :=
  f ← field o "family"; t ← field o "name"; Some (mk_sim (sim_now s) ((f, t) :: sim_tables s) (sim_sets s) (sim_chains s)).
Definition outside {V} (l : string * string) (d : list (set_address * V)) : list (set_address * V) := filter (λ p, p.1.1 ≠ l) d.
Definition sim_delete_table (o : list (string * json)) (s : sim_kernel) : option sim_kernel :=
  f ← field o "family"; t ← field o "name";
  if bool_decide ((f, t) ∈ sim_tables s) then
    Some (mk_sim (sim_now s) (filter (λ l, l ≠ (f, t)) (sim_tables s)) (outside (f, t) (sim_sets s)) (outside (f, t) (sim_chains s)))
  else None.

Definition sim_exec (command : json) (s : sim_kernel) : option sim_kernel :=
  match command with
  | JObj [(verb, JObj [(kind, JObj o)])] =>
      if decide (verb = "add") then
        if decide (kind = "element") then sim_add_element o s
        else if decide (kind = "rule") then sim_add_rule o s
        else if decide (kind = "table") then sim_add_table o s else None
      else if decide (verb = "delete") then
        if decide (kind = "element") then sim_delete_element o s
        else if decide (kind = "table") then sim_delete_table o s else None
      else if decide (verb = "flush") then
        if decide (kind = "set") then sim_flush_set o s
        else if decide (kind = "chain") then sim_flush_chain o s else None
      else None
  | _ => None
  end.
Fixpoint sim_exec_all (commands : list json) (s : sim_kernel) : option sim_kernel :=
  match commands with [] => Some s | c :: cs => s' ← sim_exec c s; sim_exec_all cs s' end.

(** ** It does what nft documents *)

Definition matches (x : option ruleset) (s : option sim_kernel) : Prop :=
  match x, s with Some x, Some s => rs_eq (sim_rules s) x | None, None => True | _, _ => False end.

Lemma dget_outside {V} l (d : list (set_address * V)) a : dget (outside l d) a = if decide (a.1 = l) then None else dget d a.
Proof.
  unfold outside. induction d as [|[a' v] d IH]; [by case_decide|]. destruct (decide (a'.1 = l)) as [Hl|Hl].
  - rewrite filter_cons_False by (cbn; tauto). etrans; [exact IH|]. cbn [dget]. repeat case_decide; naive_solver.
  - rewrite filter_cons_True by done. cbn [dget]. destruct (decide (a' = a)) as [->|]; [by rewrite decide_False|done].
Qed.

Lemma put_set_rules s a elems : is_Some (dget (sim_sets s) a) →
  rs_eq (sim_rules (sim_put_set s a elems)) (set_elem (sim_rules s) a (dget elems)).
Proof.
  intros [old Ho]. repeat split; cbn; [|]; intros a'; [|intros k]; unfold dmem; rewrite dget_set;
    [|destruct (decide (a' = a)) as [->|]]; [destruct (decide (a = a')) as [->|]; [by rewrite Ho|done]| |].
  - by rewrite decide_True.
  - by rewrite decide_False by done.
Qed.
Lemma put_chain_rules s a rules : rs_eq (sim_rules (sim_put_chain s a rules)) (set_chain (sim_rules s) a (Some rules)).
Proof. repeat split; cbn. intros a'. rewrite dget_set. by repeat case_decide; subst. Qed.

Lemma add_element_sim o s : matches (nft_add_element o (sim_rules s)) (sim_add_element o s).
Proof.
  unfold nft_add_element, sim_add_element. destruct (address_of o "name") as [a|]; [|done]. cbn [mbind option_bind].
  destruct (single _) as [e|]; [|done]. cbn [mbind option_bind]. destruct (written_element e) as [[k t]|]; [|done]. cbn [mbind option_bind].
  cbn [rs_set sim_rules]. unfold dmem. destruct (dget (sim_sets s) a) as [elems|] eqn:Ha; [|done]. cbn [negb matches mbind option_bind].
  rewrite put_set_rules by by rewrite Ha. unfold set_elem. repeat split; cbn. intros a' k'. destruct (decide (a' = a)) as [->|]; [|done].
  rewrite Ha. cbn. unfold dsetdefault. destruct (dget elems k) eqn:Hk; [destruct (decide (k' = k)) as [->|]; [done|done]|].
  rewrite dget_set. by repeat case_decide; subst.
Qed.
Lemma delete_element_sim o s : matches (nft_delete_element o (sim_rules s)) (sim_delete_element o s).
Proof.
  unfold nft_delete_element, sim_delete_element. destruct (address_of o "name") as [a|]; [|done]. cbn [mbind option_bind].
  destruct (single _) as [e|]; [|done]. cbn [mbind option_bind]. destruct (written_element e) as [[k t]|]; [|done]. cbn [mbind option_bind].
  cbn [rs_elem sim_rules]. destruct (dget (sim_sets s) a) as [elems|] eqn:Ha; [|done]. cbn [mbind option_bind].
  destruct (dget elems k) eqn:Hk; [|done]. cbn [mbind option_bind matches]. rewrite put_set_rules by by rewrite Ha.
  unfold set_elem. repeat split; cbn. intros a' k'. destruct (decide (a' = a)) as [->|]; [|done]. rewrite dget_pop. try rewrite Ha; cbn.
  by repeat case_decide; subst.
Qed.
Lemma flush_set_sim o s : matches (nft_flush_set o (sim_rules s)) (sim_flush_set o s).
Proof.
  unfold nft_flush_set, sim_flush_set. destruct (address_of o "name") as [a|]; [|done]. cbn [mbind option_bind rs_set sim_rules].
  unfold dmem. destruct (dget (sim_sets s) a) as [elems|] eqn:Ha; [|done]. cbn [negb matches mbind option_bind].
  by rewrite put_set_rules by by rewrite Ha.
Qed.
Lemma flush_chain_sim o s : matches (nft_flush_chain o (sim_rules s)) (sim_flush_chain o s).
Proof.
  unfold nft_flush_chain, sim_flush_chain. destruct (address_of o "name") as [a|]; [|done]. cbn [mbind option_bind rs_chain sim_rules].
  destruct (dget (sim_chains s) a); [|done]. apply put_chain_rules.
Qed.
Lemma add_rule_sim o s : matches (nft_add_rule o (sim_rules s)) (sim_add_rule o s).
Proof.
  unfold nft_add_rule, sim_add_rule. destruct (address_of o "chain") as [a|]; [|done]. cbn [mbind option_bind rs_chain sim_rules].
  destruct (dget (sim_chains s) a); [|done]. apply put_chain_rules.
Qed.
Lemma add_table_sim o s : matches (nft_add_table o (sim_rules s)) (sim_add_table o s).
Proof.
  unfold nft_add_table, sim_add_table. destruct (field o "family"); [|done]. destruct (field o "name"); [|done]. cbn.
  repeat split. cbn. intros l. case_decide as Hl; [apply bool_decide_true; set_solver|]. apply bool_decide_ext. set_solver.
Qed.
Lemma delete_table_sim o s : matches (nft_delete_table o (sim_rules s)) (sim_delete_table o s).
Proof.
  unfold nft_delete_table, sim_delete_table. destruct (field o "family") as [f|]; [|done]. destruct (field o "name") as [t|]; [|done].
  cbn [mbind option_bind rs_table sim_rules]. destruct (bool_decide _); [|done]. cbn [negb matches]. repeat split; cbn.
  - intros l. case_decide as Hl; [apply bool_decide_false|apply bool_decide_ext]; rewrite list_elem_of_filter; naive_solver.
  - intros a. unfold dmem. rewrite dget_outside. by case_decide.
  - intros a k. rewrite dget_outside. by case_decide.
  - intros a. rewrite dget_outside. by case_decide.
Qed.

Lemma exec_sim c s : matches (nft_exec c (sim_rules s)) (sim_exec c s).
Proof.
  destruct c as [| | | | |[|[verb [| | | | |[|[kind [| | | | |o]] []]]] []]]; try done. cbn [nft_exec sim_exec].
  repeat case_decide; try exact I; auto using add_element_sim, delete_element_sim, flush_set_sim, flush_chain_sim, add_rule_sim, add_table_sim, delete_table_sim.
Qed.

(** nft tells rulesets apart only by what they hold. *)
Ltac same_reads :=
  repeat match goal with
  | |- option_Forall2 _ (mbind _ ?o) (mbind _ ?o) => destruct o as [[? ?]|]; [cbn [mbind option_bind]|constructor]
  | |- option_Forall2 _ (mbind _ ?o) (mbind _ ?o) => destruct o; [cbn [mbind option_bind]|constructor]
  end.
Ltac same_effect := constructor; repeat split; cbn; intros; repeat case_decide; congruence.

Lemma exec_proper c x y : rs_eq x y → option_Forall2 rs_eq (nft_exec c x) (nft_exec c y).
Proof.
  intros (H1 & H2 & H3 & H4 & H5).
  destruct c as [| | | | |[|[verb [| | | | |[|[kind [| | | | |o]] []]]] []]]; try constructor. cbn [nft_exec].
  repeat case_decide; try constructor.
  - unfold nft_add_element. same_reads. rewrite H3, H4, H1. destruct (negb _); [constructor|same_effect].
  - unfold nft_add_rule. same_reads. rewrite H5. case_match; [same_effect|constructor].
  - unfold nft_add_table. same_reads. same_effect.
  - unfold nft_delete_element. same_reads. rewrite H4. case_match; [same_effect|constructor].
  - unfold nft_delete_table. same_reads. rewrite H2. case_match; [constructor|same_effect].
  - unfold nft_flush_set. same_reads. rewrite H3. case_match; [constructor|same_effect].
  - unfold nft_flush_chain. same_reads. rewrite H5. case_match; [same_effect|constructor].
Qed.

Lemma exec_all_sim cs : ∀ s x, rs_eq (sim_rules s) x → matches (nft_exec_all cs x) (sim_exec_all cs s).
Proof.
  induction cs as [|c cs IH]; intros s x Hx; [exact Hx|]. cbn [nft_exec_all sim_exec_all].
  pose proof (exec_sim c s) as Hs. pose proof (exec_proper c _ _ Hx) as Hp.
  destruct (nft_exec c (sim_rules s)) as [y|], (sim_exec c s) as [s'|]; try done; inversion Hp as [y' z Hyz|]; subst; [|exact I].
  cbn [mbind option_bind]. apply IH. by etrans.
Qed.

(** ** The transport *)

Definition banner : json := JObj [("metainfo", JObj [("version", JStr "1.1.6")])].
Definition sim_listing (items : list json) : json := JObj [("nftables", JList (banner :: items))].
Definition sim_remaining (s : sim_kernel) (e : option Z) : option Z := remaining (sim_rules s) e.
Definition sim_live (s : sim_kernel) (elems : list (ElementKey * option Z)) : list (ElementKey * option Z) :=
  omap (λ k, (λ e, (k, sim_remaining s e)) <$> dget elems k) (dkeys elems).
Definition sim_element (p : ElementKey * option Z) : json :=
  match p.2 with
  | None => _key_json p.1
  | Some e => JObj [("elem", JObj [("val", _key_json p.1); ("timeout", JInt e); ("expires", JInt e)])]
  end.

Definition sim_list (kind : string) (what : json) (s : sim_kernel) : option json :=
  if decide (kind = "set") then
    o ← as_dict what; a ← address_of o "name"; elems ← dget (sim_sets s) a;
    Some (sim_listing [JObj [("set", JObj (set_path a.1.1 a.1.2 a.2 ++ [("elem", JList (sim_element <$> sim_live s elems))]))]])
  else if decide (kind = "chain") then
    o ← as_dict what; a ← address_of o "name"; rules ← dget (sim_chains s) a;
    Some (sim_listing (JObj [("chain", JObj (set_path a.1.1 a.1.2 a.2))] :: ((λ e, JObj [("rule", JObj (rule_item a e))]) <$> rules)))
  else if decide (kind = "tables") then
    Some (sim_listing ((λ l, JObj [("table", JObj (table_item l))]) <$> sim_tables s))
  else None.

Definition no_such : exn := FirewallError "No such file or directory".
Definition asked (doc : json) : option (string * json) :=
  match doc with
  | JObj [(_, JList [JObj [(verb, JObj [(kind, what)])]])] => if decide (verb = "list") then Some (kind, what) else None
  | _ => None
  end.
Definition sim_run (doc : json) : M sim_kernel json := λ s,
  match asked doc with
  | Some (kind, what) => (match sim_list kind what s with Some out => Ok out | None => Raise no_such end, s)
  | None =>
      match doc with
      | JObj [(_, JList commands)] =>
          match sim_exec_all commands s with Some s' => (Ok (sim_listing []), s') | None => (Raise no_such, s) end
      | _ => (Raise no_such, s)
      end
  end.

Lemma asked_write commands : (∀ k w, list_command k w ∉ commands) → asked (document commands) = None.
Proof.
  intros Hw. destruct commands as [|[| | | | |[|[v [| | | | |[|[k w] []]]] []]] []]; try done. cbn.
  case_decide as Hv; [|done]. subst v. destruct (Hw k w). apply list_elem_of_singleton. done.
Qed.

Lemma sim_element_listed p : listed_element (sim_element p) p.1 p.2.
Proof. destruct p as [[] [e|]]; cbn; repeat constructor. Qed.

Lemma sim_live_elem s elems k r :
  (k, r) ∈ sim_live s elems ↔ ∃ e, dget elems k = Some e ∧ r = remaining (sim_rules s) e.
Proof.
  unfold sim_live. rewrite list_elem_of_omap. split.
  - intros (k' & Hk & He). destruct (dget elems k') as [e|] eqn:Hd; [|done]. injection He as -> <-. by exists e.
  - intros (e & He & ->). exists k. split; [apply dget_is_Some; by exists e|]. by rewrite He.
Qed.

Lemma sim_list_set f n c s out s' : sim_run (document [list_command "set" (JObj (set_path f n c))]) s = (Ok out, s') →
  ∃ elems, dget (sim_sets s) (f, n, c) = Some elems ∧
    out = sim_listing [JObj [("set", JObj (set_path f n c ++ [("elem", JList (sim_element <$> sim_live s elems))]))]].
Proof.
  assert (Hl : sim_list "set" (JObj (set_path f n c)) s = elems ← dget (sim_sets s) (f, n, c);
    Some (sim_listing [JObj [("set", JObj (set_path f n c ++ [("elem", JList (sim_element <$> sim_live s elems))]))]])) by reflexivity.
  unfold sim_run. cbn [asked document list_command]. rewrite decide_True by done. rewrite Hl.
  destruct (dget (sim_sets s) (f, n, c)) as [elems|]; [|done]. intros [= <- <-]. by exists elems.
Qed.
Lemma sim_list_chain f n c s out s' : sim_run (document [list_command "chain" (JObj (set_path f n c))]) s = (Ok out, s') →
  ∃ rules, dget (sim_chains s) (f, n, c) = Some rules ∧
    out = sim_listing (JObj [("chain", JObj (set_path f n c))] :: ((λ e, JObj [("rule", JObj (rule_item (f, n, c) e))]) <$> rules)).
Proof.
  assert (Hl : sim_list "chain" (JObj (set_path f n c)) s = rules ← dget (sim_chains s) (f, n, c);
    Some (sim_listing (JObj [("chain", JObj (set_path f n c))] :: ((λ e, JObj [("rule", JObj (rule_item (f, n, c) e))]) <$> rules)))) by reflexivity.
  unfold sim_run. cbn [asked document list_command]. rewrite decide_True by done. rewrite Hl.
  destruct (dget (sim_chains s) (f, n, c)) as [rules|]; [|done]. intros [= <- <-]. by exists rules.
Qed.

(** Time passing *)
Definition sim_alive (now : Z) (elems : list (ElementKey * option Z)) : list (ElementKey * option Z) :=
  omap (λ k, match dget elems k with
             | Some (Some e) => if now <? e then Some (k, Some e) else None
             | Some None => Some (k, None)
             | None => None
             end) (dkeys elems).
Definition sim_elapse (d : Z) (s : sim_kernel) : sim_kernel :=
  mk_sim (sim_now s + d) (sim_tables s) ((λ p, (p.1, sim_alive (sim_now s + d) p.2)) <$> sim_sets s) (sim_chains s).
Definition sim_later (s s' : sim_kernel) : Prop := ∃ d, 0 ≤ d ∧ s' = sim_elapse d s.

Lemma dget_keyed {V} (f : ElementKey → option V) ks k :
  dget (omap (λ k, (λ v, (k, v)) <$> f k) ks) k = if decide (k ∈ ks) then f k else None.
Proof.
  induction ks as [|k' ks IH]; [done|]. cbn [omap list_omap]. destruct (f k') as [v|] eqn:Hf; cbn [fmap option_fmap option_map dget].
  - destruct (decide (k' = k)) as [->|Hne]; [by rewrite decide_True by set_solver|]. rewrite IH. repeat case_decide; set_solver.
  - rewrite IH. destruct (decide (k' = k)) as [->|]; repeat case_decide; set_solver.
Qed.
Lemma dget_alive now elems k : dget (sim_alive now elems) k =
  match dget elems k with Some (Some e) => if now <? e then Some (Some e) else None | r => r end.
Proof.
  set (f := λ k, match dget elems k with Some (Some e) => if now <? e then Some (Some e) else None | r => r end).
  assert (Ha : sim_alive now elems = omap (λ k, (λ v, (k, v)) <$> f k) (dkeys elems)).
  { unfold sim_alive, f. induction (dkeys elems) as [|k' ks IH]; [done|]. cbn [omap list_omap].
    destruct (dget elems k') as [[e|]|]; cbn; [destruct (now <? e); cbn|..]; by rewrite IH. }
  rewrite Ha, dget_keyed. fold (f k). case_decide as Hk; [done|]. unfold f.
  destruct (dget elems k) eqn:Hd; [|done]. destruct Hk. apply dget_is_Some. by exists o.
Qed.
Lemma dget_fmap_value {K V W} `{EqDecision K} (f : V → W) (d : list (K * V)) k : dget ((λ p, (p.1, f p.2)) <$> d) k = f <$> dget d k.
Proof. induction d as [|[k' v] d IH]; [done|]. cbn. by destruct (decide (k' = k)). Qed.

Lemma sim_later_law s s' : sim_later s s' → rs_now (sim_rules s) ≤ rs_now (sim_rules s') ∧
  rs_eq (sim_rules s') (rs_at (rs_now (sim_rules s')) (sim_rules s)).
Proof.
  intros (d & Hd & ->). split; [cbn; lia|]. repeat split; cbn; unfold dmem.
  - intros a. rewrite dget_fmap_value. by destruct (dget (sim_sets s) a).
  - intros a k. rewrite dget_fmap_value. destruct (dget (sim_sets s) a); [apply dget_alive|done].
Qed.

#[global] Instance sim_contract : NftContract sim_kernel sim_run.
Proof.
  refine {| nk_rules := sim_rules; nk_killed := λ _ _, False; nk_later := sim_later |}.
  - exact sim_later_law.
  - intros commands s r s' Hne Hw. unfold sim_run, applied. rewrite (asked_write commands Hw). cbn [document].
    pose proof (exec_all_sim commands s (sim_rules s) ltac:(done)) as Hm.
    destruct (sim_exec_all commands s) as [s1|], (nft_exec_all _ _) as [x|]; try done; intros [= <- <-]; [by exists x|].
    split; [by eexists|by left].
  - intros kind what s r s'. unfold sim_run. cbn [asked document list_command]. rewrite decide_True by done.
    destruct (sim_list kind what s); intros [= <- <-]; (split; [reflexivity|]); [exact I|by eexists].
  - intros f n c s out s' (elems & Hd & ->)%sim_list_set. eexists _, _, (sim_live s elems).
    split; [by eexists|]. split; [reflexivity|]. split.
    + induction (sim_live s elems); constructor; [apply sim_element_listed|done].
    + intros k r. rewrite sim_live_elem. cbn [sim_rules rs_elem]. by rewrite Hd.
  - intros f n c s out s' (rules & Hd & ->)%sim_list_chain. exists rules. split; [exact Hd|]. by do 2 eexists.
  - intros s out s'. intros [= <- <-]. exists (sim_tables s). split; [by eexists|]. intros l. symmetry. apply bool_decide_eq_true.
Defined.

(** ** The production backend on it *)

Definition gateway : sim_kernel :=
  mk_sim 0 [(INET_FAMILY, ADAPTIVE_TABLE); (INET_FAMILY, STATIC_TABLE); (ARP_FAMILY, STATIC_ARP_TABLE); (INET_FAMILY, BASE_TABLE)]
    ((λ w, (w.1, [])) <$> MANAGER_WRITABLE_SETS)
    ((λ g, ((INET_FAMILY, STATIC_TABLE, guard_verdict_chain g), [expr_json <$> verdict_expressions g OBSERVE])) <$> all_guards).
Definition offender : ElementKey := KStr "02:00:00:00:00:07".
(** A rate limit, upgraded to a block after a minute, a write to a set
    core does not own, a guard set to enforce; each with the seconds before it. *)
Definition campaign : list (Z * set_write) :=
  [(0, WApply [adaptive_op OP_ADD SET_RATELIMIT_MAC offender (Some 600)]);
   (seconds 60, WApply [adaptive_op OP_DELETE SET_RATELIMIT_MAC offender None; adaptive_op OP_ADD SET_BLOCK_MAC offender (Some 300)]);
   (0, WApply [adaptive_op OP_ADD "no_such_set" offender (Some 300)]);
   (seconds 10, WGuards [(RAW, ENFORCE)])].
#[local] Instance sim_set_backend : SetBackend sim_kernel := nft_set_backend sim_run.
Fixpoint sim_campaign (ws : list (Z * set_write)) (s : sim_kernel) : list (@write_event sim_kernel) * sim_kernel :=
  match ws with
  | [] => ([], s)
  | (d, w) :: ws =>
      let s0 := sim_elapse d s in
      let o := do_write w s0 in
      let rest := sim_campaign ws o.2 in
      (mk_written w o.1 s0 :: rest.1, rest.2)
  end.
Definition after_campaign : list (@write_event sim_kernel) * sim_kernel := sim_campaign campaign gateway.

Lemma campaign_history ws : ∀ s, Forall (λ p, 0 ≤ p.1 ∧ write_wf p.2) ws → history sim_run s (sim_campaign ws s).1 (sim_campaign ws s).2.
Proof.
  induction ws as [|[d w] ws IH]; intros s Hws; [constructor|]. apply Forall_cons in Hws as [[Hd Hw] Hws]. cbn [sim_campaign fst snd].
  eapply HistoryWrite; [by exists d|done|apply surjective_pairing|by apply IH].
Qed.
Lemma campaign_results : (we_result <$> after_campaign.1) =
  [Ok tt; Ok tt; Raise (FirewallError "refusing to write inet pirewall_adaptive no_such_set: core is not this set's writer (D1)"); Ok tt].
Proof. vm_compute. reflexivity. Qed.
(** Fifty seconds of the block are left when 240 more have passed. *)
Lemma campaign_listing : let later := sim_elapse (seconds 240) after_campaign.2 in
  (nft_list_set sim_run (adaptive_address SET_BLOCK_MAC) later).1 = Ok [mk_element offender (Some 50)] ∧
  (nft_list_set sim_run (adaptive_address SET_RATELIMIT_MAC) later).1 = Ok [] ∧
  (nft_guard_mode sim_run RAW later).1 = Ok (Some ENFORCE) ∧
  (nft_list_set sim_run (adaptive_address SET_BLOCK_MAC) (sim_elapse (seconds 50) later)).1 = Ok [].
Proof. vm_compute. done. Qed.

Lemma production_backend_refines_spec_witness :
  let later := sim_elapse (seconds 240) after_campaign.2 in
  ∃ committed, Forall2 (committed_as sim_run) after_campaign.1 committed ∧
  let v := view_at (sim_now later) (timed_spec (zip_with (λ e c, (we_at sim_run e, we_write e, c)) after_campaign.1 committed)
                                               (nft_view (sim_rules gateway))) in
  view_eq (nft_view (sim_rules later)) v ∧
  (∀ k r, mk_element k r ∈ [mk_element offender (Some 50)] ↔
     ∃ x, kv_elem v (adaptive_address SET_BLOCK_MAC) k = Some x ∧ r = view_remaining v x).
Proof.
  intros later.
  destruct (production_backend_refines_spec sim_run gateway after_campaign.1 after_campaign.2 later) as (cs & Hcs & Hv & Hl).
  - apply campaign_history. unfold campaign. repeat apply Forall_cons_2; [..|apply Forall_nil_2]; (split; [done|]); try exact I. apply NoDup_singleton.
  - exists (seconds 240). split; [done|reflexivity].
  - exists cs. split; [exact Hcs|]. split; [exact Hv|]. destruct campaign_listing as [Hb _]. fold later in Hb.
    destruct (nft_list_set sim_run (adaptive_address SET_BLOCK_MAC) later) as [r t] eqn:Hr. cbn in Hb. subst r.
    exact (Hl _ _ _ Hr).
Defined.
