(* ===== verification/Validator.v ===== *)
(** * The validation chains (pirewall/firewall/validator.py)

    Both chains in full: the v1 chain for per-rule candidates and the v2
    chain for set elements, every stage a definition of its own, chained
    with short-circuiting as the source chains its delayed checks. *)

From S2P Require Import Prelude Float Net Models RateLimiter Sets.
Local Open Scope Z_scope.

Record ValidationRejection : Type := mk_rejection { vr_stage : string; vr_reason : RuleRejectionReason }.

Record ValidationOutcome : Type := mk_outcome {
  vo_approved : bool;
  vo_priority : option Z;
  vo_rejection : option ValidationRejection;
}.

Record ActiveTarget : Type := mk_active { at_rule : FirewallRule; at_target : RuleTarget }.

Record SetValidationOutcome : Type := mk_set_outcome {
  so_approved : bool;
  so_rejection : option ValidationRejection;
  so_upgrade_of : option string;
}.

(** Run delayed checks in order; the first one that answers rejects. *)
Definition run_checks (checks : list (string * option RuleRejectionReason)) : option ValidationRejection :=
  first_some (λ c : string * option RuleRejectionReason, mk_rejection c.1 <$> c.2) checks.

(** ** v1 stages *)

Definition _validate_schema (candidate : CandidateRule) : option RuleRejectionReason :=
  match rf_threat_score candidate with None => Some INVALID_SCHEMA | Some _ => None end.

(** The source's [isinstance] checks hold by typing here. *)
Definition _validate_network (candidate : CandidateRule) : option RuleRejectionReason := None.

Definition _validate_identity (candidate : CandidateRule) (bound_mac : option string) : option RuleRejectionReason :=
  match rf_target candidate with
  | None => None
  | Some target =>
      match rt_mac target, bound_mac with
      | Some m, Some bound => if decide (m = bound) then None else Some SPOOFED_SOURCE
      | _, _ => None
      end
  end.

Definition port_matches (entry_port rule_port : option Z) : bool :=
  match entry_port with None => true | Some _ => bool_decide (entry_port = rule_port) end.

Definition _matches_allowlist (candidate : CandidateRule) (entry : AllowlistEntry) : bool :=
  if (match al_protocol entry with
      | Some p => negb (bool_decide (p = rf_protocol candidate))
      | None => false
      end) then false
  else
    let source_match := IPv4.overlaps (rf_source candidate) (al_target entry)
                        && port_matches (al_port entry) (rf_source_port candidate) in
    let destination_match := IPv4.overlaps (rf_destination candidate) (al_target entry)
                        && port_matches (al_port entry) (rf_destination_port candidate) in
    let device_match :=
      match al_mac entry, rf_target candidate with
      | Some m, Some target =>
          bool_decide (rt_mac target = Some m) && port_matches (al_port entry) (rf_source_port candidate)
      | _, _ => false
      end in
    source_match || destination_match || device_match.

Definition _validate_allowlist (candidate : CandidateRule) (allowlist : list AllowlistEntry)
  : option RuleRejectionReason :=
  if negb (restrictive (rf_action candidate)) then None
  else first_some (λ e, if _matches_allowlist candidate e then Some ALLOWLISTED else None) allowlist.

(** An address no host can own. *)
Definition special_address (a : IPv4.t) : bool :=
  IPv4.is_unspecified a || IPv4.is_loopback a || IPv4.is_multicast a || IPv4.is_link_local a
  || IPv4.is_reserved a.

Definition _is_targetable_network (n : IPv4.network) : bool :=
  forallb (λ a, negb (special_address a)) [IPv4.net_addr n; IPv4.broadcast n].

Definition _covers (candidate target : IPv4.network) : bool :=
  bool_decide (candidate = target) || IPv4.supernet_of candidate target.

(** Either side of the candidate overlaps the host [a]. *)
Definition names_host (candidate : RuleFields) (a : IPv4.t) : bool :=
  IPv4.overlaps (rf_source candidate) (IPv4.host a) || IPv4.overlaps (rf_destination candidate) (IPv4.host a).

(** [resolved_local] is [local_addresses], or the kernel's table when it is
    omitted. *)
Definition _validate_safety (candidate : CandidateRule) (config : PirewallConfig)
  (resolved_local : LocalAddresses) : option RuleRejectionReason :=
  if negb (restrictive (rf_action candidate)) then None
  else if negb (forallb _is_targetable_network [rf_source candidate; rf_destination candidate]) then Some UNSAFE
  else if existsb (names_host candidate) (la_host resolved_local ++ la_broadcast resolved_local) then Some UNSAFE
  else if names_host candidate (c_admin_pc_ip config) then Some UNSAFE
  else if names_host candidate (c_pirewall_lan_ip config) then Some UNSAFE
  else if names_host candidate (c_upstream_gateway config) then Some UNSAFE
  else if _covers (rf_source candidate) (c_protected_network config)
       || _covers (rf_destination candidate) (c_protected_network config) then Some UNSAFE
  else if bool_decide (rf_source candidate = IPv4.whole_internet)
       || bool_decide (rf_destination candidate = IPv4.whole_internet) then Some UNSAFE
  else if (IPv4.prefixlen (rf_source candidate) <? c_min_rule_prefix_length config)
       || (IPv4.prefixlen (rf_destination candidate) <? c_min_rule_prefix_length config) then Some UNSAFE
  else None.

Definition _target_key (r : RuleFields) : RuleDirection * IPv4.network * IPv4.network * Protocol * option Z :=
  (rf_direction r, rf_source r, rf_destination r, rf_protocol r, rf_destination_port r).

Definition _full_key (r : RuleFields) :=
  (rf_action r, _target_key r, rf_source_port r).

Definition is_active (r : FirewallRule) : bool := bool_decide (fr_status r = ACTIVE).

Definition _validate_conflict (candidate : CandidateRule) (active_rules : list FirewallRule)
  : option RuleRejectionReason :=
  first_some (λ r : FirewallRule,
    if negb (is_active r) || bool_decide (rf_action r = rf_action candidate) then None
    else if bool_decide (_target_key r = _target_key candidate) then Some CONFLICT else None) active_rules.

Definition _validate_duplicate (candidate : CandidateRule) (active_rules : list FirewallRule)
  : option RuleRejectionReason :=
  first_some (λ r : FirewallRule,
    if is_active r && bool_decide (_full_key r = _full_key candidate) then Some DUPLICATE else None) active_rules.

Definition _validate_priority (candidate : CandidateRule) (active_rules : list FirewallRule)
  : option RuleRejectionReason :=
  first_some (λ r : FirewallRule,
    if negb (is_active r) || negb (bool_decide (rf_action r = rf_action candidate)) then None
    else if negb (bool_decide (rf_protocol r = rf_protocol candidate)) then None
    else if (match rf_destination_port r with
             | Some _ => negb (bool_decide (rf_destination_port r = rf_destination_port candidate))
             | None => false
             end) then None
    else
      let source_covers := bool_decide (rf_source r = rf_source candidate)
                           || IPv4.supernet_of (rf_source r) (rf_source candidate) in
      let destination_covers := bool_decide (rf_destination r = rf_destination candidate)
                           || IPv4.supernet_of (rf_destination r) (rf_destination candidate) in
      if source_covers && destination_covers then Some REASON_SHADOWED else None) active_rules.

Definition _validate_expiration (candidate : CandidateRule) : option RuleRejectionReason :=
  match cr_expires_at candidate with None => Some MISSING_EXPIRATION | Some _ => None end.

Definition _validate_authorization (candidate : CandidateRule) (known : list string)
  : option RuleRejectionReason :=
  if inb (cr_decision_id candidate) known then None else Some UNAUTHORIZED.

Definition display_priority (threat_score : option float) : Z :=
  let score := default (float_of_Z 0) threat_score in
  fround (fsub (float_of_Z 100) (fmin (fmax score (float_of_Z 0)) (float_of_Z 100))).

Definition _assign_priority (candidate : CandidateRule) : Z := display_priority (rf_threat_score candidate).

(** [validate_candidate_rule].  The rate-cap stage prunes the limiter, so the
    chain returns it. *)
Definition validate_candidate_rule (candidate : CandidateRule) (config : PirewallConfig)
  (known : list string) (active_rules : list FirewallRule) (allowlist : list AllowlistEntry)
  (limiter : RuleCreationRateLimiter) (now : Z) (local : LocalAddresses) (bound_mac : option string)
  : ValidationOutcome * RuleCreationRateLimiter :=
  let reject r := mk_outcome false None (Some r) in
  match run_checks
    [ ("schema", _validate_schema candidate);
      ("network", match _validate_network candidate with
                  | Some r => Some r
                  | None => _validate_identity candidate bound_mac
                  end);
      ("allowlist", _validate_allowlist candidate allowlist);
      ("safety", _validate_safety candidate config local);
      ("conflict", _validate_conflict candidate active_rules);
      ("duplicate", _validate_duplicate candidate active_rules) ] with
  | Some r => (reject r, limiter)
  | None =>
      let '(ok, limiter') := would_allow limiter now in
      match run_checks
        [ ("rate_cap", if ok then None else Some RATE_LIMITED);
          ("priority", _validate_priority candidate active_rules);
          ("expiration", _validate_expiration candidate);
          ("authorization", _validate_authorization candidate known) ] with
      | Some r => (reject r, limiter')
      | None => (mk_outcome true (Some (_assign_priority candidate)) None, limiter')
      end
  end.

(** ** v2 stages *)

Definition same_device (left right : RuleTarget) : bool :=
  match rt_mac left, rt_mac right with
  | Some m, Some m' => bool_decide (m = m')
  | _, _ => rt_ip left =? rt_ip right
  end.

Definition _validate_set_allowlist (candidate : CandidateRule) (target : RuleTarget)
  (allowlist : list AllowlistEntry) : option RuleRejectionReason :=
  if negb (restrictive (rf_action candidate)) then None
  else first_some (λ e,
    if IPv4.contains (al_target e) (rt_ip target)
       || (match rt_mac target with Some m => bool_decide (al_mac e = Some m) | None => false end)
    then Some ALLOWLISTED else None) allowlist.

(** The never-target addresses of the v2 safety stage. *)
Definition infrastructure (config : PirewallConfig) (local : LocalAddresses) : list IPv4.t :=
  la_host local ++ la_broadcast local ++
  [ c_pirewall_lan_ip config; c_upstream_gateway config; c_admin_pc_ip config;
    IPv4.net_addr (c_protected_network config); IPv4.broadcast (c_protected_network config) ].

Definition _validate_set_safety (candidate : CandidateRule) (target : RuleTarget)
  (config : PirewallConfig) (local : LocalAddresses) : option RuleRejectionReason :=
  if negb (restrictive (rf_action candidate)) then None
  else if negb (_is_targetable_network (IPv4.host (rt_ip target))) then Some UNSAFE
  else if inb (rt_ip target) (infrastructure config local) then Some UNSAFE
  else match c_admin_pc_mac config with
       | Some admin => if bool_decide (rt_mac target = Some admin) then Some UNSAFE else None
       | None => None
       end.

(** The conflict stage also collects the rules a BLOCK would upgrade. *)
Fixpoint _validate_set_conflict (candidate : CandidateRule) (target : RuleTarget)
  (active : list ActiveTarget) (upgrade_of : list string) : option RuleRejectionReason * list string :=
  match active with
  | [] => (None, upgrade_of)
  | entry :: rest =>
      let action := rf_action (at_rule entry) in
      if negb (same_device (at_target entry) target) || bool_decide (action = rf_action candidate)
      then _validate_set_conflict candidate target rest upgrade_of
      else if bool_decide (action = BLOCK) && bool_decide (rf_action candidate = RATE_LIMIT)
      then (Some CONFLICT, upgrade_of)
      else if bool_decide (action = RATE_LIMIT) && bool_decide (rf_action candidate = BLOCK)
      then _validate_set_conflict candidate target rest (upgrade_of ++ [fr_id (at_rule entry)])
      else _validate_set_conflict candidate target rest upgrade_of
  end.

Definition _validate_set_duplicate (candidate : CandidateRule) (target : RuleTarget)
  (active : list ActiveTarget) : option RuleRejectionReason :=
  first_some (λ e,
    if same_device (at_target e) target && bool_decide (rf_action (at_rule e) = rf_action candidate)
    then Some DUPLICATE else None) active.

Definition _validate_escalation (candidate : CandidateRule) (active : list ActiveTarget)
  (upgrade_of : list string) : option RuleRejectionReason :=
  first_some (λ e,
    if inb (fr_id (at_rule e)) upgrade_of
       && forallb (λ i, inb i (rf_evidence (at_rule e))) (rf_evidence candidate)
    then Some NO_NEW_EVIDENCE else None) active.

Definition _validate_set_expiration (candidate : CandidateRule) (config : PirewallConfig) (now : Z)
  : option RuleRejectionReason :=
  match cr_expires_at candidate with
  | None => Some MISSING_EXPIRATION
  | Some e =>
      if e <=? now then Some MISSING_EXPIRATION
      else if seconds (pc_max_ttl_seconds (c_policy config)) <? e - now then Some EXPIRATION_TOO_LONG
      else None
  end.

(** [validate_set_candidate] *)
Definition validate_set_candidate (candidate : CandidateRule) (target : option RuleTarget)
  (config : PirewallConfig) (known : list string) (active : list ActiveTarget)
  (allowlist : list AllowlistEntry) (limiter : RuleCreationRateLimiter) (now : Z) (local : LocalAddresses)
  : SetValidationOutcome * RuleCreationRateLimiter :=
  let reject r := mk_set_outcome false (Some r) None in
  match _validate_schema candidate with
  | Some r => (reject (mk_rejection "schema" r), limiter)
  | None =>
  match target with
  | None => (reject (mk_rejection "network" UNENFORCEABLE), limiter)
  | Some t =>
  let '(conflict, upgrade_of) := _validate_set_conflict candidate t active [] in
  match run_checks
    [ ("allowlist", _validate_set_allowlist candidate t allowlist);
      ("safety", _validate_set_safety candidate t config local);
      ("conflict", conflict);
      ("duplicate", _validate_set_duplicate candidate t active) ] with
  | Some r => (reject r, limiter)
  | None =>
      let '(ok, limiter') := would_allow limiter now in
      match run_checks
        [ ("rate_cap", if ok then None else Some RATE_LIMITED);
          ("escalation", _validate_escalation candidate active upgrade_of);
          ("expiration", _validate_set_expiration candidate config now);
          ("authorization", _validate_authorization candidate known) ] with
      | Some r => (reject r, limiter')
      | None => (mk_set_outcome true None (head upgrade_of), limiter')
      end
  end end end.

(** ** Stage facts *)

Lemma run_checks_None cs : run_checks cs = None ↔ Forall (λ c, c.2 = None) cs.
Proof.
  unfold run_checks. rewrite first_some_None. apply Forall_iff. intros [n [r|]]; simpl; split; congruence.
Qed.

Lemma first_some_if_None {A B} (f : A → bool) (b : B) l :
  first_some (λ x, if f x then Some b else None) l = None ↔ Forall (λ x, f x = false) l.
Proof. rewrite first_some_None. apply Forall_iff. intros x. by destruct (f x). Qed.

Lemma names_host_spec f a x :
  rule_fields_wf f → IPv4.valid a → names_host f a = false →
  (IPv4.contains (rf_source f) x = true ∨ IPv4.contains (rf_destination f) x = true) → x ≠ a.
Proof.
  intros (Hs & Hd & _) Ha Hn Hc ->. unfold names_host in Hn. bool_prop.
  destruct Hc as [Hc|Hc]; apply IPv4.overlaps_host in Hc; congruence.
Qed.

(** The addresses the v1 safety stage protects. *)
Definition protected_hosts (config : PirewallConfig) (local : LocalAddresses) : list IPv4.t :=
  la_host local ++ la_broadcast local ++
  [c_admin_pc_ip config; c_pirewall_lan_ip config; c_upstream_gateway config].

Definition local_wf (local : LocalAddresses) : Prop :=
  Forall IPv4.valid (la_host local) ∧ Forall IPv4.valid (la_broadcast local).

Lemma safety_None (candidate : CandidateRule) config local :
  _validate_safety candidate config local = None → restrictive (rf_action candidate) = true →
  Forall (λ a, names_host candidate a = false) (protected_hosts config local) ∧
  _is_targetable_network (rf_source candidate) = true ∧
  _is_targetable_network (rf_destination candidate) = true ∧
  _covers (rf_source candidate) (c_protected_network config) = false ∧
  _covers (rf_destination candidate) (c_protected_network config) = false ∧
  c_min_rule_prefix_length config ≤ IPv4.prefixlen (rf_source candidate) ∧
  c_min_rule_prefix_length config ≤ IPv4.prefixlen (rf_destination candidate).
Proof.
  unfold _validate_safety, protected_hosts. intros Hs Hr. rewrite Hr in Hs. cbn [negb] in Hs.
  repeat match type of Hs with (if ?b then _ else _) = None => destruct b eqn:?; [discriminate Hs|] end.
  cbn [forallb] in *. bool_prop.
  split; [|auto 10].
  rewrite app_assoc. apply Forall_app. split; [|by repeat constructor].
  apply Forall_forall. intros a Ha.
  match goal with H : existsb _ _ = false |- _ => rename H into He end.
  destruct (names_host candidate a) eqn:Hn; [|done].
  rewrite <- He. symmetry. apply existsb_exists. exists a. by rewrite <- list_elem_of_In.
Qed.

(** An approved v1 candidate passed every stage. *)
Lemma approved_stages (candidate : CandidateRule) config known active allowlist limiter now local bound :
  vo_approved (validate_candidate_rule candidate config known active allowlist limiter now local bound).1 = true →
  is_Some (rf_threat_score candidate) ∧ _validate_identity candidate bound = None ∧
  _validate_allowlist candidate allowlist = None ∧ _validate_safety candidate config local = None ∧
  _validate_conflict candidate active = None ∧ _validate_duplicate candidate active = None ∧
  (would_allow limiter now).1 = true ∧ _validate_priority candidate active = None ∧
  is_Some (cr_expires_at candidate) ∧ cr_decision_id candidate ∈ known.
Proof.
  unfold validate_candidate_rule.
  destruct (run_checks _) eqn:H1; [done|]. apply run_checks_None in H1.
  destruct (would_allow limiter now) as [ok l'].
  destruct (run_checks _) eqn:H2; [done|]. apply run_checks_None in H2. intros _.
  open_Forall.
  unfold _validate_schema, _validate_expiration, _validate_authorization, _validate_network in *.
  destruct (rf_threat_score candidate); [|done]. destruct (cr_expires_at candidate); [|done].
  destruct (inb _ known) eqn:Hk; [|done]. apply inb_true in Hk. destruct ok; [|done].
  repeat (split; [by eauto|]). done.
Qed.

(** A network that does not cover another leaves one of its addresses out. *)
Lemma covers_misses n target : IPv4.wf n → IPv4.wf target → _covers n target = false →
  ∃ x, IPv4.valid x ∧ IPv4.contains target x = true ∧ IPv4.contains n x = false.
Proof.
  intros Hn Ht Hcov. unfold _covers, IPv4.supernet_of, IPv4.subnet_of in Hcov. apply orb_false_iff in Hcov as [_ Hcov].
  pose proof (IPv4.broadcast_valid _ Ht) as Hbv. pose proof (IPv4.hostmask_range _ (proj1 (proj2 Ht))). pose proof (IPv4.broadcast_add _ Ht).
  assert (Hout : ∀ x, IPv4.valid x → IPv4.contains target x = true → ¬ (IPv4.net_addr n ≤ x ≤ IPv4.broadcast n) →
    ∃ x, IPv4.valid x ∧ IPv4.contains target x = true ∧ IPv4.contains n x = false).
  { intros x Hv Hx Hno. exists x. split; [done|]. split; [done|]. destruct (IPv4.contains n x) eqn:E; [|done]. by apply IPv4.contains_spec in E. }
  apply andb_false_iff in Hcov as [Hlo|Hhi]; bool_prop.
  - apply (Hout (IPv4.net_addr target)); [apply Ht|apply IPv4.contains_spec; [done|apply Ht|lia]|lia].
  - apply (Hout (IPv4.broadcast target)); [done|apply IPv4.contains_spec; [done..|lia]|lia].
Qed.
Lemma port_matches_spec p q : port_matches p q = true ↔ p = None ∨ p = q.
Proof. unfold port_matches. destruct p as [p|]; [rewrite bool_decide_eq_true; naive_solver|naive_solver]. Qed.

(** An entry a candidate does not match: what it allows is no part of the rule *)
Lemma allowlist_unmatched (c : CandidateRule) e : rule_fields_wf c → allow_wf e → _matches_allowlist c e = false →
  al_protocol e = None ∨ al_protocol e = Some (rf_protocol c) →
  (al_port e = None ∨ al_port e = rf_source_port c → ∀ x, IPv4.valid x → IPv4.contains (al_target e) x = true → IPv4.contains (rf_source c) x = false) ∧
  (al_port e = None ∨ al_port e = rf_destination_port c →
     ∀ x, IPv4.valid x → IPv4.contains (al_target e) x = true → IPv4.contains (rf_destination c) x = false) ∧
  (al_port e = None ∨ al_port e = rf_source_port c → ∀ t mac, rf_target c = Some t → al_mac e = Some mac → rt_mac t ≠ Some mac).
Proof.
  intros (Hs & Hd & _) (Ht & _) Hm Hp. unfold _matches_allowlist in Hm.
  assert (Hproto : match al_protocol e with Some p => negb (bool_decide (p = rf_protocol c)) | None => false end = false).
  { destruct Hp as [-> | ->]; [done|]. by rewrite bool_decide_true. }
  rewrite Hproto in Hm. apply orb_false_iff in Hm as [Hm Hdev]. apply orb_false_iff in Hm as [Hsrc Hdst].
  assert (Hside : ∀ n port, IPv4.wf n → IPv4.overlaps n (al_target e) && port_matches (al_port e) port = false → al_port e = None ∨ al_port e = port →
    ∀ x, IPv4.valid x → IPv4.contains (al_target e) x = true → IPv4.contains n x = false).
  { intros n port Hn Ho Hport x Hv Hx. apply port_matches_spec in Hport. rewrite Hport, andb_true_r in Ho.
    destruct (IPv4.contains n x) eqn:E; [|done]. by destruct (IPv4.overlaps_disjoint n (al_target e) x). }
  split; [by apply Hside|]. split; [by apply Hside|]. intros Hport t mac Htgt Hmac Heq. rewrite Hmac, Htgt, Heq in Hdev.
  apply port_matches_spec in Hport. by rewrite bool_decide_true, Hport in Hdev.
Qed.

(** C10: A restrictive rule the v1 chain approves names no address of this
    host, its gateway or the Admin PC on either side; shares no address with an
    allowlist entry for its protocol and port, on either side, and is not
    about the device such an entry pins; neither its source nor its destination
    contains the whole protected network; both are at least as narrow as
    configured; it expires and its decision is known. *)
Theorem v1_approved_is_safe (candidate : CandidateRule) config known active allowlist limiter now local bound :
  rule_fields_wf candidate → config_wf config → local_wf local → Forall allow_wf allowlist →
  restrictive (rf_action candidate) = true →
  vo_approved (validate_candidate_rule candidate config known active allowlist limiter now local bound).1 = true →
  (∀ a x, a ∈ protected_hosts config local →
     IPv4.contains (rf_source candidate) x = true ∨ IPv4.contains (rf_destination candidate) x = true → x ≠ a) ∧
  (∀ e, e ∈ allowlist → al_protocol e = None ∨ al_protocol e = Some (rf_protocol candidate) →
     (al_port e = None ∨ al_port e = rf_source_port candidate →
        ∀ x, IPv4.valid x → IPv4.contains (al_target e) x = true → IPv4.contains (rf_source candidate) x = false) ∧
     (al_port e = None ∨ al_port e = rf_destination_port candidate →
        ∀ x, IPv4.valid x → IPv4.contains (al_target e) x = true → IPv4.contains (rf_destination candidate) x = false) ∧
     (al_port e = None ∨ al_port e = rf_source_port candidate →
        ∀ t mac, rf_target candidate = Some t → al_mac e = Some mac → rt_mac t ≠ Some mac)) ∧
  (∀ side, side = rf_source candidate ∨ side = rf_destination candidate →
     c_min_rule_prefix_length config ≤ IPv4.prefixlen side ∧
     ∃ x, IPv4.valid x ∧ IPv4.contains (c_protected_network config) x = true ∧ IPv4.contains side x = false) ∧
  cr_decision_id candidate ∈ known ∧ is_Some (cr_expires_at candidate).
Proof.
  intros Hwf Hcfg [Hlh Hlb] Hallow Hr Happ. apply approved_stages in Happ as (_ & _ & Hal & Hsafe & _ & _ & _ & _ & Hexp & Hdec).
  apply safety_None in Hsafe as (Hhosts & _ & _ & Hcovs & Hcovd & Hps & Hpd); [|done].
  destruct Hcfg as (Hnet & Hg & Hp & Ha & _).
  split; [|split; [|split; [|done]]].
  - intros a x Ha' Hx. rewrite Forall_forall in Hhosts.
    eapply names_host_spec; [done| |by apply Hhosts|done].
    unfold protected_hosts in Ha'. rewrite !elem_of_app in Ha'.
    destruct Ha' as [Ha'|[Ha'|Ha']];
      [rewrite Forall_forall in Hlh; by apply Hlh | rewrite Forall_forall in Hlb; by apply Hlb|].
    rewrite !elem_of_cons, elem_of_nil in Ha'. naive_solver.
  - intros e He Hproto. apply allowlist_unmatched; [done|by eapply Forall_forall in Hallow| |done].
    unfold _validate_allowlist in Hal. rewrite Hr in Hal. cbn [negb] in Hal. rewrite first_some_if_None, Forall_forall in Hal. by apply Hal.
  - destruct Hwf as (Hs & Hd & _). intros side [-> | ->]; (split; [done|]); by apply covers_misses.
Qed.

(** ** [_is_targetable_network] looks only at a network's two ends

    That is every address of it as long as the network is no wider than a
    /16, the narrowest special range. *)

Lemma interval_special n (s : IPv4.network) x :
  IPv4.wf n → IPv4.wf s → IPv4.valid x → IPv4.prefixlen s ≤ IPv4.prefixlen n →
  IPv4.contains n x = true → IPv4.contains s x = true → IPv4.contains s (IPv4.net_addr n) = true.
Proof.
  intros Hn Hs Hx Hp Hc1 Hc2. unfold IPv4.contains in *. bool_prop. apply Z.eqb_eq.
  rewrite <- Hc1, <- Hc2.
  rewrite <- Z.land_assoc. f_equal. unfold IPv4.netmask, IPv4.hostmask.
  destruct Hn as (_ & Hpn & _), Hs as (_ & Hps & _).
  apply Z.bits_inj'. intros i Hi. rewrite Z.land_spec, !Z.lxor_spec.
  destruct (Z.lt_ge_cases i 32) as [Hi32|Hi32].
  - rewrite (Z.ones_spec_low 32) by lia.
    destruct (Z.lt_ge_cases i (32 - IPv4.prefixlen s)).
    + rewrite (Z.ones_spec_low (32 - IPv4.prefixlen s)) by lia. apply andb_false_r.
    + rewrite (Z.ones_spec_high (32 - IPv4.prefixlen s)), (Z.ones_spec_high (32 - IPv4.prefixlen n)) by lia. done.
  - rewrite !Z.ones_spec_high by lia. done.
Qed.

Lemma special_network_wf :
  IPv4.wf (IPv4.mk_network (IPv4.a_b_c_d 127 0 0 0) 8) ∧ IPv4.wf (IPv4.mk_network (IPv4.a_b_c_d 224 0 0 0) 4) ∧
  IPv4.wf (IPv4.mk_network (IPv4.a_b_c_d 169 254 0 0) 16) ∧ IPv4.wf (IPv4.mk_network (IPv4.a_b_c_d 240 0 0 0) 4).
Proof. repeat split; vm_compute; congruence. Qed.

(** In a network of prefix length 16 or longer that passes
    [_is_targetable_network], no address is unspecified, loopback, multicast,
    link-local or reserved: checking both ends is enough there. *)
Theorem targetable_network_sound n x :
  IPv4.wf n → 16 ≤ IPv4.prefixlen n → IPv4.valid x →
  _is_targetable_network n = true → IPv4.contains n x = true → special_address x = false.
Proof.
  intros Hn Hp Hx Ht Hc. unfold _is_targetable_network in Ht. cbn [forallb] in Ht. bool_prop.
  destruct special_network_wf as (W1 & W2 & W3 & W4).
  unfold special_address in *. bool_prop. rewrite !orb_false_iff.
  assert (Hsp : ∀ s, IPv4.wf s → IPv4.prefixlen s ≤ 16 → IPv4.contains s (IPv4.net_addr n) = false →
                  IPv4.contains s x = false).
  { intros s Hs Hps Hno. destruct (IPv4.contains s x) eqn:Hsx; [|done].
    rewrite <- Hno. symmetry. eapply interval_special; [done|done|exact Hx|lia|done|done]. }
  repeat split; try (apply Hsp; [done|simpl; lia|done]).
  unfold IPv4.is_unspecified in *. apply Z.eqb_neq. intros ->. bool_prop.
  apply IPv4.contains_spec in Hc; [|done..]. pose proof (proj1 Hn). unfold IPv4.valid in *. lia.
Qed.

Lemma targetable_network_sound_witness :
  special_address (IPv4.a_b_c_d 192 168 5 77) = false.
Proof.
  apply (targetable_network_sound (IPv4.mk_network (IPv4.a_b_c_d 192 168 5 0) 24));
    (vm_compute; repeat split; congruence) || reflexivity.
Defined.

(** A wider network can hold special addresses between its ends: 169.0.0.0/8
    contains link-local 169.254.0.0/16 and is accepted. *)
Theorem targetable_network_misses_inner_range :
  _is_targetable_network (IPv4.mk_network (IPv4.a_b_c_d 169 0 0 0) 8) = true ∧
  IPv4.contains (IPv4.mk_network (IPv4.a_b_c_d 169 0 0 0) 8) (IPv4.a_b_c_d 169 254 0 1) = true ∧
  special_address (IPv4.a_b_c_d 169 254 0 1) = true.
Proof. vm_compute. done. Qed.

(** ** The v2 chain *)

(** The ACTIVE RATE_LIMIT entries on the device, which a BLOCK upgrades. *)
Definition upgradable (candidate : CandidateRule) (target : RuleTarget) (active : list ActiveTarget)
  : list ActiveTarget :=
  if decide (rf_action candidate = BLOCK)
  then filter (λ e, same_device (at_target e) target = true ∧ rf_action (at_rule e) = RATE_LIMIT) active
  else [].

Lemma set_conflict_None candidate target active : ∀ acc up,
  _validate_set_conflict candidate target active acc = (None, up) →
  up = acc ++ ((λ e, fr_id (at_rule e)) <$> upgradable candidate target active) ∧
  (rf_action candidate = RATE_LIMIT →
   Forall (λ e, same_device (at_target e) target = true → rf_action (at_rule e) ≠ BLOCK) active).
Proof.
  unfold upgradable. induction active as [|e active IH]; intros acc up; simpl.
  { intros [= <-]. case_decide; simpl; by rewrite app_nil_r. }
  destruct (same_device (at_target e) target) eqn:Hsame; simpl.
  2: { intros Hrun. apply IH in Hrun as [-> Hall]. split.
       - case_decide; [|done]. rewrite filter_cons, decide_False by (intros [? ?]; congruence). done.
       - intros Ha. constructor; [congruence|auto]. }
  destruct (rf_action (at_rule e)) eqn:Hact, (rf_action candidate) eqn:Hc; simpl; intros Hrun;
    try discriminate Hrun;
    apply IH in Hrun as [-> Hall]; (split; [|intros; try discriminate; constructor; auto; congruence]);
    repeat (case_decide; try discriminate); try done;
    rewrite filter_cons; first [rewrite decide_True by (split; congruence) | rewrite decide_False by (intros [? ?]; congruence)];
    simpl; by rewrite <- ?app_assoc.
Qed.

Lemma set_approved_stages (candidate : CandidateRule) target config known active allowlist limiter now local :
  let o := (validate_set_candidate candidate target config known active allowlist limiter now local).1 in
  so_approved o = true →
  ∃ t, target = Some t ∧ is_Some (rf_threat_score candidate) ∧
    _validate_set_allowlist candidate t allowlist = None ∧ _validate_set_safety candidate t config local = None ∧
    (rf_action candidate = RATE_LIMIT →
       Forall (λ e, same_device (at_target e) t = true → rf_action (at_rule e) ≠ BLOCK) active) ∧
    _validate_set_duplicate candidate t active = None ∧ (would_allow limiter now).1 = true ∧
    _validate_escalation candidate active ((λ e, fr_id (at_rule e)) <$> upgradable candidate t active) = None ∧
    _validate_set_expiration candidate config now = None ∧ cr_decision_id candidate ∈ known ∧
    so_upgrade_of o = head ((λ e, fr_id (at_rule e)) <$> upgradable candidate t active).
Proof.
  unfold validate_set_candidate. cbv zeta.
  destruct (_validate_schema candidate) eqn:Hsch; [done|]. destruct target as [t|]; [|done].
  destruct (_validate_set_conflict candidate t active []) as [conflict up] eqn:Hcf.
  destruct (run_checks _) eqn:H1; [done|]. apply run_checks_None in H1.
  destruct (would_allow limiter now) as [ok l'].
  destruct (run_checks _) eqn:H2; [done|]. apply run_checks_None in H2. intros _. open_Forall. subst.
  apply set_conflict_None in Hcf as [-> Hblk]. cbn [app] in *.
  unfold _validate_schema, _validate_authorization in *.
  destruct (rf_threat_score candidate); [|done].
  destruct (inb _ known) eqn:Hk; [|done]. apply inb_true in Hk. destruct ok; [|done].
  exists t. repeat (split; [by eauto|]). done.
Qed.

Lemma set_allowlist_None (candidate : CandidateRule) t allowlist :
  _validate_set_allowlist candidate t allowlist = None → restrictive (rf_action candidate) = true →
  ∀ e, e ∈ allowlist → IPv4.contains (al_target e) (rt_ip t) = false ∧ ∀ m, rt_mac t = Some m → al_mac e ≠ Some m.
Proof.
  unfold _validate_set_allowlist. intros Hal Hr. rewrite Hr in Hal. cbn [negb] in Hal.
  rewrite first_some_if_None, Forall_forall in Hal. intros e He. specialize (Hal e He). simpl in Hal. bool_prop.
  split; [done|]. intros m Hm. rewrite Hm in *. by bool_prop.
Qed.

Lemma set_safety_None (candidate : CandidateRule) t config local :
  _validate_set_safety candidate t config local = None → restrictive (rf_action candidate) = true →
  rt_ip t ∉ infrastructure config local ∧ special_address (rt_ip t) = false ∧
  ∀ m, c_admin_pc_mac config = Some m → rt_mac t ≠ Some m.
Proof.
  unfold _validate_set_safety. intros Hsafe Hr. rewrite Hr in Hsafe. cbn [negb] in Hsafe.
  destruct (_is_targetable_network _) eqn:Ht; [|done]. cbn [negb] in Hsafe.
  destruct (inb (rt_ip t) _) eqn:Hin; [done|]. apply inb_false in Hin. split; [done|].
  unfold _is_targetable_network in Ht. cbn [forallb IPv4.net_addr IPv4.host] in Ht. bool_prop. split; [done|].
  intros m Hm. rewrite Hm in Hsafe. by case_bool_decide.
Qed.

(** C9: A restrictive candidate the v2 chain approves names one device that is
    not allowlisted, not infrastructure, a routable host and not the Admin PC;
    it repeats no enforcement on that device, its lifetime is within the
    configured cap and a known decision is behind it. *)
Theorem v2_approved_is_safe (candidate : CandidateRule) target config known active allowlist limiter now local :
  restrictive (rf_action candidate) = true →
  so_approved (validate_set_candidate candidate target config known active allowlist limiter now local).1 = true →
  ∃ t, target = Some t ∧
    (* allowlist: neither the address nor the MAC is named by any entry *)
    (∀ e, e ∈ allowlist → IPv4.contains (al_target e) (rt_ip t) = false ∧
                          (∀ m, rt_mac t = Some m → al_mac e ≠ Some m)) ∧
    (* safety: not infrastructure, a real host, not the Admin PC's MAC *)
    rt_ip t ∉ infrastructure config local ∧ special_address (rt_ip t) = false ∧
    (∀ m, c_admin_pc_mac config = Some m → rt_mac t ≠ Some m) ∧
    (* one enforcement per device and action, and BLOCK outranks RATE_LIMIT *)
    (∀ e, e ∈ active → same_device (at_target e) t = true →
       rf_action (at_rule e) ≠ rf_action candidate ∧
       (rf_action candidate = RATE_LIMIT → rf_action (at_rule e) ≠ BLOCK)) ∧
    (* a bounded lifetime and a real decision behind it *)
    (∃ x, cr_expires_at candidate = Some x ∧ now < x ≤ now + seconds (pc_max_ttl_seconds (c_policy config))) ∧
    cr_decision_id candidate ∈ known.
Proof.
  intros Hr Happ. apply set_approved_stages in Happ as (t & -> & _ & Hal & Hsafe & Hblk & Hdup & _ & _ & Hexp & Hdec & _).
  exists t. split; [done|]. split; [by apply set_allowlist_None with (candidate := candidate)|].
  apply set_safety_None in Hsafe as (? & ? & ?); [|done]. do 3 (split; [done|]).
  split.
  { intros e He Hsame. unfold _validate_set_duplicate in Hdup. rewrite first_some_if_None, Forall_forall in Hdup.
    specialize (Hdup e He). simpl in Hdup. rewrite Hsame in Hdup. simpl in Hdup. bool_prop. split; [done|].
    intros Ha. specialize (Hblk Ha). rewrite Forall_forall in Hblk. by apply (Hblk e). }
  unfold _validate_set_expiration in Hexp. destruct (cr_expires_at candidate) as [x|]; [|done].
  destruct (x <=? now) eqn:?; [done|]. destruct (_ <? _) eqn:?; [done|]. bool_prop.
  split; [exists x; split; [done|lia]|done].
Qed.

(** An upgrade replaces an ACTIVE RATE_LIMIT on the same device, only by a
    BLOCK, and only with evidence that rule did not carry; and every BLOCK on
    a rate-limited device is such an upgrade. *)
Theorem v2_upgrade_needs_new_evidence (candidate : CandidateRule) target config known active allowlist limiter now local :
  let o := (validate_set_candidate candidate target config known active allowlist limiter now local).1 in
  so_approved o = true →
  ∃ t, target = Some t ∧
    (∀ id, so_upgrade_of o = Some id →
       rf_action candidate = BLOCK ∧
       ∃ e, e ∈ active ∧ fr_id (at_rule e) = id ∧ rf_action (at_rule e) = RATE_LIMIT ∧
            same_device (at_target e) t = true) ∧
    (∀ e, e ∈ active → same_device (at_target e) t = true → rf_action (at_rule e) = RATE_LIMIT →
       rf_action candidate = BLOCK →
       is_Some (so_upgrade_of o) ∧ ∃ i, i ∈ rf_evidence candidate ∧ i ∉ rf_evidence (at_rule e)).
Proof.
  simpl. intros Happ. pose proof (set_approved_stages _ _ _ _ _ _ _ _ _ Happ)
    as (t & -> & _ & _ & _ & _ & _ & _ & Hesc & _ & _ & Hup).
  exists t. split; [done|]. rewrite Hup. split.
  - intros id Hid. unfold upgradable in Hid. case_decide as Hb; [|done]. split; [done|].
    destruct (filter _ active) as [|e l] eqn:Hf; [done|]. injection Hid as <-.
    assert (He : e ∈ e :: l) by set_solver. rewrite <- Hf, list_elem_of_filter in He. naive_solver.
  - intros e He Hsame Hact Hb.
    assert (Hin : e ∈ upgradable candidate t active).
    { unfold upgradable. rewrite decide_True by done. by apply list_elem_of_filter. }
    split.
    + destruct (upgradable candidate t active) as [|e0 l]; [set_solver|]. by eexists.
    + unfold _validate_escalation in Hesc. rewrite first_some_if_None, Forall_forall in Hesc.
      specialize (Hesc e He). simpl in Hesc.
      assert (Hm : inb (fr_id (at_rule e)) ((λ e, fr_id (at_rule e)) <$> upgradable candidate t active) = true).
      { apply inb_true, list_elem_of_fmap. by exists e. }
      rewrite Hm in Hesc. simpl in Hesc.
      apply not_true_iff_false in Hesc. rewrite forallb_forall in Hesc.
      destruct (decide (Exists (λ i, i ∉ rf_evidence (at_rule e)) (rf_evidence candidate))) as [Hex|Hno].
      * apply Exists_exists in Hex as (i & ? & ?). by exists i.
      * destruct Hesc. intros i Hi. apply inb_true. apply list_elem_of_In in Hi.
        destruct (decide (i ∈ rf_evidence (at_rule e))); [done|]. destruct Hno. apply Exists_exists. eauto.
Qed.
