(* ===== verification/AllowlistStore.v ===== *)
(** * The persistent allowlist (pirewall/firewall/allowlist_store.py)

    Entries keyed by id in memory, and the list last written to disk.  The
    temp-file-then-replace write either installs the whole new list or leaves
    the old file; [as_io_ok] says which, as the operating system would. *)

From S2P Require Import Prelude Net Models.
Local Open Scope Z_scope.

Record AllowlistStore : Type := mk_store {
  as_entries : list (string * AllowlistEntry);
  as_disk : option (list AllowlistEntry);  (** [None]: no file yet *)
  as_io_ok : bool;
}.

Definition entry_leb (a b : AllowlistEntry) : bool := String.leb (al_id a) (al_id b).

Definition list_entries (s : AllowlistStore) : list AllowlistEntry :=
  py_sorted entry_leb (dvalues (as_entries s)).

Definition _persist : M AllowlistStore unit := λ s,
  if as_io_ok s then (Ok tt, mk_store (as_entries s) (Some (list_entries s)) (as_io_ok s))
  else (Raise (ConfigurationError "could not write allowlist store"), s).

Definition store_add (entry : AllowlistEntry) : M AllowlistStore unit :=
  _ ← mmodify (λ s, mk_store (dset (as_entries s) (al_id entry) entry) (as_disk s) (as_io_ok s));
  _persist.

Definition store_remove (entry_id : string) : M AllowlistStore bool :=
  s ← mget;
  match dget (as_entries s) entry_id with
  | None => mret false
  | Some _ =>
      _ ← mput (mk_store (dpop (as_entries s) entry_id) (as_disk s) (as_io_ok s));
      _ ← _persist;
      mret true
  end.

(** [reload]: rebuild the dictionary from the file; a missing file is empty. *)
Definition store_reload (s : AllowlistStore) : AllowlistStore :=
  mk_store (rebuild al_id (default [] (as_disk s))) (as_disk s) (as_io_ok s).

(** Every entry is stored under its own id, once. *)
Definition store_wf (s : AllowlistStore) : Prop :=
  dwf (as_entries s) ∧ ∀ i e, dget (as_entries s) i = Some e → al_id e = i.

Lemma store_wf_set entries i (e : AllowlistEntry) :
  al_id e = i → (∀ j f, dget entries j = Some f → al_id f = j) →
  ∀ j f, dget (dset entries i e) j = Some f → al_id f = j.
Proof. intros He Hall j f. rewrite dget_set. case_decide; [by intros [= <-]; subst|]. apply Hall. Qed.

(** Restarting after a successful write gives back the same entries. *)
Lemma reload_after_persist s s' :
  store_wf s → _persist s = (Ok tt, s') → ∀ i, dget (as_entries (store_reload s')) i = dget (as_entries s) i.
Proof.
  intros [Hwf Hid] Hp i. unfold _persist in Hp. destruct (as_io_ok s); [|done]. injection Hp as <-.
  by apply rebuild_sorted.
Qed.

Lemma store_add_wf entry s r s' : store_wf s → store_add entry s = (r, s') → store_wf s'.
Proof.
  intros [Hwf Hid]. unfold store_add, _persist, mbind, m_bind, mmodify. simpl.
  destruct (as_io_ok s); intros [= <- <-];
    (split; simpl; [by apply dwf_set|by apply store_wf_set]).
Qed.

Lemma store_remove_wf i s r s' : store_wf s → store_remove i s = (r, s') → store_wf s'.
Proof.
  intros [Hwf Hid]. unfold store_remove, _persist, mbind, m_bind, mget, mput, mret, m_ret.
  destruct (dget (as_entries s) i); [|by intros [= <- <-]]. simpl.
  destruct (as_io_ok s); intros [= <- <-];
    (split; simpl; [by apply dwf_pop|]; intros j e; rewrite dget_pop; case_decide; [done|apply Hid]).
Qed.

(** A runtime entry survives a restart, and a removed one does not come back:
    after a successful [add] or [remove], reloading the file gives exactly
    the old entries with that one change. *)
Theorem allowlist_store_survives_restart s entry s1 :
  store_wf s →
  (store_add entry s = (Ok tt, s1) →
     ∀ i, dget (as_entries (store_reload s1)) i =
          if decide (al_id entry = i) then Some entry else dget (as_entries s) i) ∧
  (∀ i0, store_remove i0 s = (Ok true, s1) →
     ∀ i, dget (as_entries (store_reload s1)) i =
          if decide (i0 = i) then None else dget (as_entries s) i).
Proof.
  intros Hwf. split.
  - unfold store_add, mbind, m_bind, mmodify. intros Hp i.
    erewrite reload_after_persist; [|shelve|exact Hp]. simpl. by rewrite dget_set.
    Unshelve. split; [by apply dwf_set, Hwf|by apply store_wf_set, Hwf].
  - intros i0. unfold store_remove, mbind, m_bind, mget, mput, mret, m_ret.
    destruct (dget (as_entries s) i0); [|done]. destruct (_persist _) as [[[]|e] s2] eqn:Hp; [|done].
    intros [= <-] i. erewrite reload_after_persist; [|shelve|exact Hp]. simpl. by rewrite dget_pop.
    Unshelve. split; [by apply dwf_pop, Hwf|].
    intros j e. simpl. rewrite dget_pop. case_decide; [done|]. apply Hwf.
Qed.

Lemma allowlist_store_survives_restart_witness :
  let e := mk_allow "a1" (IPv4.host (IPv4.a_b_c_d 192 168 50 9)) None None "printer" 0 "admin" None in
  let s1 := mk_store [("a1", e)] (Some [e]) true in
  (store_add e (mk_store [] None true) = (Ok tt, s1)) ∧
  dget (as_entries (store_reload s1)) "a1" = Some e.
Proof.
  intros e s1. assert (H : store_add e (mk_store [] None true) = (Ok tt, s1)) by reflexivity. split; [exact H|].
  assert (Hwf : store_wf (mk_store [] None true)) by (split; [apply dwf_nil|intros ? ? [=]]).
  exact (proj1 (allowlist_store_survives_restart (mk_store [] None true) e s1 Hwf) H "a1").
Defined.
