(* ===== verification/Backend.v ===== *)
(** * The v1 firewall backend (firewall/interface.py, firewall/backend/fake.py)

    [FirewallBackend] is the per-rule backend protocol, which also carries
    the captive portal's [authed] set; [FakeFirewallBackend] is the
    repository's in-memory implementation of it. *)

From S2P Require Import Prelude Net Models.
Local Open Scope Z_scope.

Definition PortalGrant : Type := IPv4.t * option string.

Class FirewallBackend (F : Type) := {
  fb_apply_rule : FirewallRule → M F unit;
  fb_remove_rule : string → M F unit;
  fb_health_check : M F bool;
  fb_authorize_portal_client : IPv4.t → Z → option string → M F unit;
  fb_deauthorize_portal_client : IPv4.t → option string → M F unit;
  fb_list_portal_grants : M F (list PortalGrant);
  fb_list_portal_clients : M F (list IPv4.t);
}.

(** The protocol's error contract: an operation that fails raises
    [FirewallError] and nothing else. *)
Definition raises_firewall_only {S A} (m : M S A) : Prop :=
  ∀ s e s', m s = (Raise e, s') → ∃ msg, e = FirewallError msg.

Class FirewallBackendLaws (F : Type) `{FirewallBackend F} := {
  fb_apply_rule_errors : ∀ rule, raises_firewall_only (fb_apply_rule rule);
  fb_remove_rule_errors : ∀ id, raises_firewall_only (fb_remove_rule id);
}.

Record FakeFirewallBackend : Type := mk_fake_backend {
  fbk_deployed_rules : list (string * FirewallRule);
  fbk_fail_on_apply : bool;
  fbk_fail_on_remove : bool;
  fbk_fail_on_portal : bool;
  fbk_portal_clients : list (IPv4.t * option Z);
  fbk_portal_macs : list (IPv4.t * option string);
  fbk_now : option Z;
}.

Definition new_fake_backend : FakeFirewallBackend := mk_fake_backend [] false false false [] [] None.

Definition fbk_with_rules (b : FakeFirewallBackend) rs : FakeFirewallBackend :=
  mk_fake_backend rs (fbk_fail_on_apply b) (fbk_fail_on_remove b) (fbk_fail_on_portal b)
    (fbk_portal_clients b) (fbk_portal_macs b) (fbk_now b).
Definition fbk_with_portal (b : FakeFirewallBackend) cs ms : FakeFirewallBackend :=
  mk_fake_backend (fbk_deployed_rules b) (fbk_fail_on_apply b) (fbk_fail_on_remove b)
    (fbk_fail_on_portal b) cs ms (fbk_now b).

Definition fake_apply_rule (rule : FirewallRule) : M FakeFirewallBackend unit := λ b,
  if fbk_fail_on_apply b then
    (Raise (FirewallError ("simulated apply failure for rule " +:+ fr_id rule)), b)
  else (Ok tt, fbk_with_rules b (dset (fbk_deployed_rules b) (fr_id rule) rule)).

Definition fake_remove_rule (rule_id : string) : M FakeFirewallBackend unit := λ b,
  if fbk_fail_on_remove b then
    (Raise (FirewallError ("simulated remove failure for rule " +:+ rule_id)), b)
  else (Ok tt, fbk_with_rules b (dpop (fbk_deployed_rules b) rule_id)).

Definition fake_authorize_portal_client (ip : IPv4.t) (timeout : Z) (mac : option string)
  : M FakeFirewallBackend unit := λ b,
  if fbk_fail_on_portal b then
    (Raise (FirewallError ("simulated portal authorize failure for " +:+ IPv4.to_string ip)), b)
  else
    let expires := (λ now, now + seconds timeout) <$> fbk_now b in
    (Ok tt, fbk_with_portal b (dset (fbk_portal_clients b) ip expires) (dset (fbk_portal_macs b) ip mac)).

(** Only the exact element goes: a pair is not deleted by its address alone. *)
Definition fake_deauthorize_portal_client (ip : IPv4.t) (mac : option string)
  : M FakeFirewallBackend unit := λ b,
  if fbk_fail_on_portal b then
    (Raise (FirewallError ("simulated portal deauthorize failure for " +:+ IPv4.to_string ip)), b)
  else if decide (default None (dget (fbk_portal_macs b) ip) = mac) then
    (Ok tt, fbk_with_portal b (dpop (fbk_portal_clients b) ip) (dpop (fbk_portal_macs b) ip))
  else (Ok tt, b).

Definition portal_live (now : Z) (p : IPv4.t * option Z) : bool :=
  match p.2 with None => true | Some e => now <? e end.

Definition fake_list_portal_clients : M FakeFirewallBackend (list IPv4.t) := λ b,
  match fbk_now b with
  | None => (Ok (dkeys (fbk_portal_clients b)), b)
  | Some now =>
      let live := filter (λ p, portal_live now p = true) (fbk_portal_clients b) in
      let macs := filter (λ p : IPv4.t * option string, p.1 ∈ dkeys live) (fbk_portal_macs b) in
      (Ok (dkeys live), fbk_with_portal b live macs)
  end.

Definition fake_list_portal_grants : M FakeFirewallBackend (list PortalGrant) :=
  live ← fake_list_portal_clients;
  b ← mget;
  mret ((λ ip, (ip, default None (dget (fbk_portal_macs b) ip))) <$> live).

#[global] Instance fake_firewall_backend : FirewallBackend FakeFirewallBackend := {
  fb_apply_rule := fake_apply_rule;
  fb_remove_rule := fake_remove_rule;
  fb_health_check := mret true;
  fb_authorize_portal_client := fake_authorize_portal_client;
  fb_deauthorize_portal_client := fake_deauthorize_portal_client;
  fb_list_portal_grants := fake_list_portal_grants;
  fb_list_portal_clients := fake_list_portal_clients;
}.

#[global] Instance fake_firewall_backend_laws : FirewallBackendLaws FakeFirewallBackend.
Proof.
  split; intros x b e b'; cbn; unfold fake_apply_rule, fake_remove_rule; case_match; naive_solver.
Qed.
