(* ===== verification/NftRules.v ===== *)
(** * The production v1 backend (firewall/backend/nftables.py)

    [NftablesBackend] deploys one nft rule, or two, per [FirewallRule] into
    the chain [inet pirewall adaptive], finds them again by their comment, and
    keeps the captive portal's grants as elements of the set [authed].  The
    [nft] binary is a parameter: a state [T] and a function from the argument
    list and the JSON on stdin to the JSON on stdout, where a missing binary, a
    timeout, an exit status and unreadable output are all the [FirewallError]
    that [_run_command] and its callers raise. *)

From S2P Require Import Prelude Net Models Backend Json.
Local Open Scope Z_scope.

Definition _FAMILY : string := "inet".
Definition _TABLE : string := "pirewall".
Definition _CHAIN : string := "adaptive".
Definition _COMMENT_PREFIX : string := "pirewall-rule:".
Definition _PORTAL_TABLE : string := "pirewall_portal".
Definition _PORTAL_SET : string := "authed".

(** ** Rules as commands *)

Definition _PROTOCOL_PAYLOAD_NAME (p : Protocol) : option string :=
  match p with TCP => Some "tcp" | UDP => Some "udp" | _ => None end.

Definition _rule_comment (rule_id : string) : string := _COMMENT_PREFIX +:+ rule_id.

Definition match_json (protocol field : string) (right : json) : json :=
  JObj [("match", JObj [("op", JStr "=="); ("left", JObj [("payload", JObj [("protocol", JStr protocol); ("field", JStr field)])]);
                        ("right", right)])].
Definition _address_match (field : string) (n : IPv4.network) : json :=
  match_json "ip" field (JObj [("prefix", JObj [("addr", JStr (IPv4.to_string (IPv4.net_addr n))); ("len", JInt (IPv4.prefixlen n))])]).
Definition _port_match (protocol_name field : string) (port : Z) : json := match_json protocol_name field (JInt port).

Definition _match_expressions (r : RuleFields) : list json :=
  [_address_match "saddr" (rf_source r); _address_match "daddr" (rf_destination r)] ++
  match _PROTOCOL_PAYLOAD_NAME (rf_protocol r), rf_destination_port r with
  | Some name, Some port => [_port_match name "dport" port]
  | _, _ => []
  end.

Definition drop_json : json := JObj [("drop", JNull)].

Definition _verdict_expressions (r : RuleFields) (rate_limit_per_second : Z) : result (list json) :=
  match rf_action r with
  | BLOCK => Ok [drop_json]
  | MONITOR => Ok [JObj [("log", JObj [("prefix", JStr "pirewall-monitor: ")])]; JObj [("counter", JNull)]]
  | RATE_LIMIT => Ok [JObj [("limit", JObj [("rate", JInt rate_limit_per_second); ("per", JStr "second")])]; JObj [("accept", JNull)]]
  | ALLOW => Raise (FirewallError "nftables backend has no translation for action <FirewallAction.ALLOW: 'allow'>")
  end.

Definition add_rule_command (comment : string) (expr : list json) : json :=
  JObj [("add", JObj [("rule", JObj [("family", JStr _FAMILY); ("table", JStr _TABLE); ("chain", JStr _CHAIN);
                                     ("comment", JStr comment); ("expr", JList expr)])])].

(** The expressions of the nft rules of one rule, in order. *)
Definition rule_lines (r : RuleFields) (rate : Z) : result (list (list json)) :=
  rbind (_verdict_expressions r rate) (λ verdict,
  let base := _match_expressions r in
  Ok ((base ++ verdict) :: match rf_action r with RATE_LIMIT => [base ++ [drop_json]] | _ => [] end)).
Definition _build_add_commands (r : RuleFields) (comment : string) (rate : Z) : result (list json) :=
  rbind (rule_lines r rate) (λ lines, Ok (add_rule_command comment <$> lines)).

Definition table_json : json := JObj [("add", JObj [("table", JObj [("family", JStr _FAMILY); ("name", JStr _TABLE)])])].
Definition chain_json : json :=
  JObj [("add", JObj [("chain", JObj [("family", JStr _FAMILY); ("table", JStr _TABLE); ("name", JStr _CHAIN); ("type", JStr "filter");
                                      ("hook", JStr "forward"); ("prio", JInt 0); ("policy", JStr "accept")])])].
Definition delete_rule_command (handle : Z) : json :=
  JObj [("delete", JObj [("rule", JObj [("family", JStr _FAMILY); ("table", JStr _TABLE); ("chain", JStr _CHAIN); ("handle", JInt handle)])])].

(** ** Portal elements *)

Definition str_lower (s : string) : string := string_of_list (Mac.lower <$> string_to_list s).

Definition _portal_value (client_ip : IPv4.t) (client_mac : option string) : json :=
  match client_mac with
  | None => JStr (IPv4.to_string client_ip)
  | Some mac => JObj [("concat", JList [JStr (IPv4.to_string client_ip); JStr mac])]
  end.

Definition portal_command (verb : string) (element : json) : json :=
  JObj [(verb, JObj [("element", JObj [("family", JStr _FAMILY); ("table", JStr _PORTAL_TABLE); ("name", JStr _PORTAL_SET);
                                       ("elem", JList [element])])])].

Definition value_grant (value : json) : option PortalGrant :=
  match value with
  | JStr s => address ← IPv4.parse s; Some (address, None)
  | JObj d =>
      match as_list (dget d "concat") with
      | [JStr a; JStr m] => address ← IPv4.parse a; Some (address, Some (str_lower m))
      | _ => None
      end
  | _ => None
  end.
Definition _portal_element_grant (element : json) : option PortalGrant :=
  match element with
  | JObj d =>
      match dget d "elem" with
      | Some e => inner ← as_dict e; value_grant (default JNull (dget inner "val"))
      | None => value_grant element
      end
  | _ => value_grant element
  end.

(** The entries of the list [nftables] of an output. *)
Definition output_entries (output : json) : list (list (string * json)) :=
  match as_dict output with None => [] | Some o => omap as_dict (as_list (dget o "nftables")) end.

(** ** The backend *)

Definition document (commands : list json) : json := JObj [("nftables", JList commands)].

Record NftablesBackend (T : Type) : Type := mk_v1 {
  v1_rate : Z;
  v1_bootstrapped : bool;
  v1_nft : T;
}.
Arguments mk_v1 {T}. Arguments v1_rate {T}. Arguments v1_bootstrapped {T}. Arguments v1_nft {T}.

Section Backend.
Context {T : Type} (nft : list string → option json → M T json) (exn_text : exn → string).
Notation V1 := (NftablesBackend T).

Definition _run_command (args : list string) (stdin : option json) : M V1 json := λ b,
  let '(r, t) := nft args stdin (v1_nft b) in (r, mk_v1 (v1_rate b) (v1_bootstrapped b) t).
Definition _run_json (commands : list json) : M V1 unit :=
  _ ← _run_command ["-j"; "-f"; "-"] (Some (document commands)); mret tt.

Definition _ensure_bootstrap : M V1 unit := λ b,
  if v1_bootstrapped b then (Ok tt, b)
  else match _run_json [table_json; chain_json] b with
       | (Ok _, b) => (Ok tt, mk_v1 (v1_rate b) true (v1_nft b))
       | r => r
       end.

(** [except FirewallError: raise  except Exception as exc: raise FirewallError(...)] *)
Definition or_firewall_error {A} (what : string) (m : M V1 A) : M V1 A := λ b,
  match m b with
  | (Raise (FirewallError msg), b) => (Raise (FirewallError msg), b)
  | (Raise e, b) => (Raise (FirewallError (what +:+ ": " +:+ exn_text e)), b)
  | r => r
  end.
(** [except Exception as exc: raise FirewallError(...)] *)
Definition as_firewall_error {A} (what : string) (m : M V1 A) : M V1 A := λ b,
  match m b with
  | (Raise (FirewallError msg), b) => (Raise (FirewallError (what +:+ ": " +:+ msg)), b)
  | (Raise e, b) => (Raise (FirewallError (what +:+ ": " +:+ exn_text e)), b)
  | r => r
  end.

Definition v1_apply_rule (rule : FirewallRule) : M V1 unit :=
  _ ← _ensure_bootstrap;
  b ← mget;
  commands ← mlift (_build_add_commands (fr_fields rule) (_rule_comment (fr_id rule)) (v1_rate b));
  or_firewall_error ("failed to apply rule " +:+ fr_id rule) (_run_json commands).

Definition _list_ruleset : M V1 (list (list (string * json))) :=
  output ← _run_command ["-j"; "list"; "chain"; _FAMILY; _TABLE; _CHAIN] None; mret (output_entries output).

Definition entry_rule (item : list (string * json)) : option (list (string * json)) := rule ← dget item "rule"; as_dict rule.
Definition entry_handle (comment : string) (item : list (string * json)) : option Z :=
  rule ← entry_rule item;
  if bool_decide (as_str (dget rule "comment") = Some comment) then as_int (dget rule "handle") else None.
Definition _find_handles_by_comment (comment : string) : M V1 (list Z) := items ← _list_ruleset; mret (omap (entry_handle comment) items).

Definition v1_remove_rule (rule_id : string) : M V1 unit :=
  _ ← _ensure_bootstrap;
  handles ← _find_handles_by_comment (_rule_comment rule_id);
  match handles with
  | [] => mret tt
  | _ => as_firewall_error ("failed to remove rule " +:+ rule_id) (_run_json (delete_rule_command <$> handles))
  end.

(** [comment[len(prefix):]] of a comment that starts with it *)
Fixpoint after_prefix (prefix s : string) : option string :=
  match prefix, s with
  | EmptyString, _ => Some s
  | String a prefix, String b s => if bool_decide (a = b) then after_prefix prefix s else None
  | _, _ => None
  end.
Definition entry_id (item : list (string * json)) : option string :=
  rule ← entry_rule item; comment ← as_str (dget rule "comment"); after_prefix _COMMENT_PREFIX comment.
Definition v1_list_active_rule_ids : M V1 (list string) :=
  _ ← _ensure_bootstrap; items ← _list_ruleset; mret (dedup (omap entry_id items)).

Definition v1_health_check : M V1 bool :=
  try_firewall (_ ← _run_command ["-j"; "list"; "tables"] None; mret true) (λ _, mret false).

Definition v1_authorize_portal_client (ip : IPv4.t) (timeout : Z) (mac : option string) : M V1 unit :=
  if timeout <=? 0 then mraise (FirewallError ("portal session timeout must be positive, got " +:+ pretty timeout))
  else or_firewall_error ("failed to authorize portal client " +:+ IPv4.to_string ip)
         (_run_json [portal_command "add" (JObj [("elem", JObj [("val", _portal_value ip mac); ("timeout", JInt timeout)])])]).

Definition already_gone (msg : string) : bool := contains "No such file or directory" msg || contains "does not exist" msg.
Definition v1_deauthorize_portal_client (ip : IPv4.t) (mac : option string) : M V1 unit :=
  try_firewall (_run_json [portal_command "delete" (_portal_value ip mac)])
    (λ msg, if already_gone msg then mret tt else mraise (FirewallError msg)).

Definition v1_list_portal_grants : M V1 (list PortalGrant) :=
  output ← _run_command ["-j"; "list"; "set"; _FAMILY; _PORTAL_TABLE; _PORTAL_SET] None;
  mret (dedup (output_entries output ≫= (λ entry,
    match dget entry "set" ≫= as_dict with
    | Some set => omap _portal_element_grant (as_list (dget set "elem"))
    | None => []
    end))).
Definition v1_list_portal_clients : M V1 (list IPv4.t) := grants ← v1_list_portal_grants; mret (dedup grants.*1).

Definition v1_backend : FirewallBackend V1 := {|
  fb_apply_rule := v1_apply_rule;
  fb_remove_rule := v1_remove_rule;
  fb_health_check := v1_health_check;
  fb_authorize_portal_client := v1_authorize_portal_client;
  fb_deauthorize_portal_client := v1_deauthorize_portal_client;
  fb_list_portal_grants := v1_list_portal_grants;
  fb_list_portal_clients := v1_list_portal_clients;
|}.
End Backend.

(** * What the production v1 backend enforces

    [NftV1Contract] is what nft documents about the commands [NftRules]
    sends: a document is one transaction, a rule gets a fresh handle, adding
    an element that is there changes nothing, a listing says what is there.
    The verdict of a chain is the one of nft(8): the statements of a rule are
    evaluated from left to right until one does not match, the first rule that
    reaches a verdict decides, and a port match holds only for packets of its
    protocol.  The theorems read off what a sequence of deployments and
    removals makes the kernel do to a packet. *)

Local Open Scope Z_scope.

(** ** The kernel *)

Record krule : Type := mk_krule { kl_handle : Z; kl_comment : option string; kl_expr : list json }.
Record v1_kernel : Type := mk_vk {
  vk_now : Z;
  vk_table : bool;
  vk_chain : option (list krule);
  vk_next : Z;                                        (** the next rule handle *)
  vk_authed : option (list (PortalGrant * option Z));  (** live grants and when they expire *)
}.
Definition with_chain (x : v1_kernel) rules next : v1_kernel := mk_vk (vk_now x) (vk_table x) (Some rules) next (vk_authed x).
Definition with_authed (x : v1_kernel) els : v1_kernel := mk_vk (vk_now x) (vk_table x) (vk_chain x) (vk_next x) (Some els).

Definition in_chain (o : list (string * json)) (name : string) : bool :=
  bool_decide (as_str (dget o "family") = Some _FAMILY) && bool_decide (as_str (dget o "table") = Some _TABLE) &&
  bool_decide (as_str (dget o name) = Some _CHAIN).
Definition in_authed (o : list (string * json)) : bool :=
  bool_decide (as_str (dget o "family") = Some _FAMILY) && bool_decide (as_str (dget o "table") = Some _PORTAL_TABLE) &&
  bool_decide (as_str (dget o "name") = Some _PORTAL_SET).
Definition only_element (o : list (string * json)) : option json := match dget o "elem" with Some (JList [e]) => Some e | _ => None end.
(** The timeout of a written element. *)
Definition element_timeout (e : json) : option Z := d ← as_dict e; inner ← dget d "elem"; i ← as_dict inner; as_int (dget i "timeout").

Definition k_add_table (o : list (string * json)) (x : v1_kernel) : option v1_kernel :=
  if bool_decide (as_str (dget o "family") = Some _FAMILY) && bool_decide (as_str (dget o "name") = Some _TABLE)
  then Some (mk_vk (vk_now x) true (vk_chain x) (vk_next x) (vk_authed x)) else None.
Definition k_add_chain (o : list (string * json)) (x : v1_kernel) : option v1_kernel :=
  if vk_table x && in_chain o "name" then Some (with_chain x (default [] (vk_chain x)) (vk_next x)) else None.
Definition k_add_rule (o : list (string * json)) (x : v1_kernel) : option v1_kernel :=
  rules ← vk_chain x;
  if in_chain o "chain"
  then Some (with_chain x (rules ++ [mk_krule (vk_next x) (as_str (dget o "comment")) (as_list (dget o "expr"))]) (vk_next x + 1))
  else None.
Definition k_delete_rule (o : list (string * json)) (x : v1_kernel) : option v1_kernel :=
  rules ← vk_chain x; h ← as_int (dget o "handle");
  if in_chain o "chain" && existsb (λ r, kl_handle r =? h) rules
  then Some (with_chain x (filter (λ r, kl_handle r ≠ h) rules) (vk_next x)) else None.
Definition k_add_element (o : list (string * json)) (x : v1_kernel) : option v1_kernel :=
  els ← vk_authed x; e ← only_element o; g ← _portal_element_grant e;
  if in_authed o then Some (with_authed x (dsetdefault els g ((λ t, vk_now x + seconds t) <$> element_timeout e))) else None.
Definition k_delete_element (o : list (string * json)) (x : v1_kernel) : option v1_kernel :=
  els ← vk_authed x; e ← only_element o; g ← _portal_element_grant e;
  if in_authed o && dmem els g then Some (with_authed x (dpop els g)) else None.

(** One command; [None] where nft refuses it, which fails the transaction. *)
Definition k_exec (command : json) (x : v1_kernel) : option v1_kernel :=
  match command with
  | JObj [(verb, JObj [(kind, JObj o)])] =>
      if decide (verb = "add") then
        if decide (kind = "table") then k_add_table o x
        else if decide (kind = "chain") then k_add_chain o x
        else if decide (kind = "rule") then k_add_rule o x
        else if decide (kind = "element") then k_add_element o x else None
      else if decide (verb = "delete") then
        if decide (kind = "rule") then k_delete_rule o x
        else if decide (kind = "element") then k_delete_element o x else None
      else None
  | _ => None
  end.
Fixpoint k_exec_all (commands : list json) (x : v1_kernel) : option v1_kernel :=
  match commands with [] => Some x | c :: cs => y ← k_exec c x; k_exec_all cs y end.

Definition rule_json (r : krule) : json :=
  JObj [("rule", JObj ([("family", JStr _FAMILY); ("table", JStr _TABLE); ("chain", JStr _CHAIN); ("handle", JInt (kl_handle r))]
          ++ match kl_comment r with Some c => [("comment", JStr c)] | None => [] end ++ [("expr", JList (kl_expr r))]))].
Definition listing_of (items : list json) (output : json) : Prop :=
  ∃ version, output = JObj [("nftables", JList (JObj [("metainfo", JObj [("version", JStr version)])] :: items))].
Definition CHAIN_LISTING : list string := ["-j"; "list"; "chain"; _FAMILY; _TABLE; _CHAIN].
Definition SET_LISTING : list string := ["-j"; "list"; "set"; _FAMILY; _PORTAL_TABLE; _PORTAL_SET].

(** The kernel at a later instant: grants whose time is up are gone. *)
Definition alive (now : Z) (e : option Z) : bool := match e with Some e => now <? e | None => true end.
Definition vk_at (now : Z) (x : v1_kernel) : v1_kernel :=
  mk_vk now (vk_table x) (vk_chain x) (vk_next x) (filter (λ p, alive now p.2 = true) <$> vk_authed x).

(** A document is one transaction.  A run that is reported failed changed
    nothing, unless it was killed ([vk_killed], the time limit of
    [subprocess.run]); then it changed nothing or was executed as a whole.
    "No such file" and "does not exist" are nft's own refusals.  A run is
    taken at the instant of its transaction; between runs time passes
    ([vk_later]). *)
Class NftV1Contract (T : Type) (nft : list string → option json → M T json) := {
  vk : T → v1_kernel;
  vk_killed : json → T → Prop;
  vk_later : T → T → Prop;
  vk_later_law : ∀ t t', vk_later t t' → vk_now (vk t) ≤ vk_now (vk t') ∧ vk t' = vk_at (vk_now (vk t')) (vk t);
  vk_write : ∀ commands t r t', nft ["-j"; "-f"; "-"] (Some (document commands)) t = (r, t') →
    match r with
    | Ok _ => k_exec_all commands (vk t) = Some (vk t')
    | Raise e => ∃ msg, e = FirewallError msg ∧
        (vk t' = vk t ∧ (already_gone msg = true → k_exec_all commands (vk t) = None) ∨
         k_exec_all commands (vk t) = Some (vk t') ∧ vk_killed (document commands) t)
    end;
  vk_read : ∀ args t r t', nft args None t = (r, t') → vk t' = vk t ∧
    match r with Ok _ => True | Raise e => ∃ msg, e = FirewallError msg end;
  vk_list_chain : ∀ t out t', nft CHAIN_LISTING None t = (Ok out, t') →
    ∃ rules c, vk_chain (vk t) = Some rules ∧ listing_of (JObj [("chain", JObj c)] :: (rule_json <$> rules)) out;
  vk_list_set : ∀ t out t', nft SET_LISTING None t = (Ok out, t') →
    ∃ els o, vk_authed (vk t) = Some els ∧ listing_of [JObj [("set", JObj o)]] out ∧
      Forall2 (λ e g, _portal_element_grant e = Some g) (as_list (dget o "elem")) els.*1;
}.

(** ** Verdicts *)

Record packet : Type := mk_packet { p_src : IPv4.t; p_dst : IPv4.t; p_protocol : Protocol; p_sport : option Z; p_dport : option Z }.
Inductive verdict := VDrop | VAccept.

Definition obj (v : option json) : list (string * json) := match v with Some (JObj o) => o | _ => [] end.

Definition match_holds (m : list (string * json)) (p : packet) : bool :=
  let payload := obj (dget (obj (dget m "left")) "payload") in
  let right := dget m "right" in
  if bool_decide (as_str (dget payload "protocol") = Some "ip") then
    let prefix := obj (dget (obj right) "prefix") in
    match as_str (dget prefix "addr") ≫= IPv4.parse, as_int (dget prefix "len") with
    | Some a, Some n => IPv4.contains (IPv4.mk_network a n)
                          (if bool_decide (as_str (dget payload "field") = Some "saddr") then p_src p else p_dst p)
    | _, _ => false
    end
  else bool_decide (_PROTOCOL_PAYLOAD_NAME (p_protocol p) = as_str (dget payload "protocol") ∧ as_int right = p_dport p ∧ is_Some (p_dport p)).

(** The statements of one rule, from left to right; [under] says whether the
    packet is within the rule's limit. *)
Fixpoint line_verdict (under : bool) (exprs : list json) (p : packet) : option verdict :=
  match exprs with
  | [] => None
  | JObj [(kind, v)] :: rest =>
      if decide (kind = "match") then (if match_holds (obj (Some v)) p then line_verdict under rest p else None)
      else if decide (kind = "limit") then (if under then line_verdict under rest p else None)
      else if decide (kind = "drop") then Some VDrop
      else if decide (kind = "accept") then Some VAccept
      else line_verdict under rest p
  | _ :: rest => line_verdict under rest p
  end.
Definition Line : Type := option string * list json.
Definition chain_verdict (under : option string → bool) (lines : list Line) (p : packet) : option verdict :=
  first_some (λ l : Line, line_verdict (under l.1) l.2 p) lines.

(** What a rule says about a packet: the packet is between its networks, of
    its protocol and of its ports, where it names them. *)
Definition covers (r : RuleFields) (p : packet) : bool :=
  IPv4.contains (rf_source r) (p_src p) && IPv4.contains (rf_destination r) (p_dst p) &&
  bool_decide (rf_protocol r = ANY ∨ rf_protocol r = p_protocol p) &&
  bool_decide (rf_source_port r = None ∨ rf_source_port r = p_sport p) &&
  bool_decide (rf_destination_port r = None ∨ rf_destination_port r = p_dport p).
(** The rules nft can be told in full: TCP or UDP to one port, as the
    generator makes them, or everything between two networks. *)
Definition expressible (r : RuleFields) : bool :=
  bool_decide (rf_source_port r = None) &&
  match rf_protocol r, rf_destination_port r with
  | TCP, Some _ | UDP, Some _ | ANY, None => true
  | _, _ => false
  end.
Definition rule_verdict (under : bool) (r : RuleFields) (p : packet) : option verdict :=
  if covers r p then
    match rf_action r with
    | BLOCK => Some VDrop
    | RATE_LIMIT => Some (if under then VAccept else VDrop)
    | MONITOR | ALLOW => None
    end
  else None.

Definition lines_of (rate : Z) (r : FirewallRule) : list Line :=
  match rule_lines (fr_fields r) rate with
  | Ok ls => (λ l, (Some (_rule_comment (fr_id r)), l)) <$> ls
  | Raise _ => []
  end.

Lemma address_holds field n p : IPv4.wf n →
  match_holds (obj (Some (JObj [("op", JStr "=="); ("left", JObj [("payload", JObj [("protocol", JStr "ip"); ("field", JStr field)])]);
    ("right", JObj [("prefix", JObj [("addr", JStr (IPv4.to_string (IPv4.net_addr n))); ("len", JInt (IPv4.prefixlen n))])])]))) p =
  IPv4.contains n (if bool_decide (field = "saddr") then p_src p else p_dst p).
Proof.
  intros [Hv _].
  transitivity (match IPv4.parse (IPv4.to_string (IPv4.net_addr n)) with
                | Some a => IPv4.contains (IPv4.mk_network a (IPv4.prefixlen n))
                              (if bool_decide (Some field = Some "saddr") then p_src p else p_dst p)
                | None => false
                end); [reflexivity|].
  rewrite IPv4.parse_to_string by done. destruct n as [a l]. f_equal. do 2 case_bool_decide; naive_solver.
Qed.

Lemma port_holds name port p : name ≠ "ip" →
  match_holds (obj (Some (JObj [("op", JStr "=="); ("left", JObj [("payload", JObj [("protocol", JStr name); ("field", JStr "dport")])]);
    ("right", JInt port)]))) p = bool_decide (_PROTOCOL_PAYLOAD_NAME (p_protocol p) = Some name ∧ p_dport p = Some port).
Proof.
  intros Hn. assert (Hne : Some name ≠ Some "ip") by naive_solver.
  transitivity (if bool_decide (Some name = Some "ip") then false
    else bool_decide (_PROTOCOL_PAYLOAD_NAME (p_protocol p) = Some name ∧ Some port = p_dport p ∧ is_Some (p_dport p))); [reflexivity|].
  rewrite bool_decide_eq_false_2 by done. apply bool_decide_ext. split; [naive_solver|]. intros [-> ->]. split_and!; [done..|by eexists].
Qed.

Lemma payload_name_inj q q' n : _PROTOCOL_PAYLOAD_NAME q = Some n → _PROTOCOL_PAYLOAD_NAME q' = Some n → q = q'.
Proof. by destruct q, q'; cbn; intros; simplify_eq. Qed.

(** What the match expressions of a rule let through. *)
Definition matched (r : RuleFields) (p : packet) : bool :=
  IPv4.contains (rf_source r) (p_src p) && IPv4.contains (rf_destination r) (p_dst p) &&
  match _PROTOCOL_PAYLOAD_NAME (rf_protocol r), rf_destination_port r with
  | Some _, Some port => bool_decide (p_protocol p = rf_protocol r ∧ p_dport p = Some port)
  | _, _ => true
  end.
Lemma covers_matched r p : expressible r = true → covers r p = matched r p.
Proof.
  unfold expressible, covers, matched. intros [Hs%bool_decide_eq_true Hp]%andb_true_iff. rewrite <- !andb_assoc. do 2 f_equal.
  rewrite Hs, (bool_decide_eq_true_2 (None = None ∨ _)) by tauto. cbn [andb].
  destruct (rf_protocol r), (rf_destination_port r) as [port|]; try done; cbn [_PROTOCOL_PAYLOAD_NAME];
    try (rewrite <- bool_decide_and; apply bool_decide_ext; split; [intros [[?|?] [?|?]]; try done; by split; congruence|intros [? ?]; split; right; congruence]).
Qed.

Lemma matches_exact (r : RuleFields) under rest p : IPv4.wf (rf_source r) → IPv4.wf (rf_destination r) →
  line_verdict under (_match_expressions r ++ rest) p = if matched r p then line_verdict under rest p else None.
Proof.
  intros Hs Hd. unfold _match_expressions, matched. cbn [app].
  transitivity (if IPv4.contains (rf_source r) (p_src p) then
                  if IPv4.contains (rf_destination r) (p_dst p) then
                    line_verdict under (match _PROTOCOL_PAYLOAD_NAME (rf_protocol r), rf_destination_port r with
                      | Some name, Some port => [_port_match name "dport" port] | _, _ => [] end ++ rest) p
                  else None else None).
  { pose proof (address_holds "saddr" (rf_source r) p Hs) as H1. pose proof (address_holds "daddr" (rf_destination r) p Hd) as H2.
    unfold _address_match, match_json. cbn [line_verdict]. rewrite !decide_True by done. rewrite H1, H2. done. }
  destruct (IPv4.contains (rf_source r) (p_src p)); [|done]. destruct (IPv4.contains (rf_destination r) (p_dst p)); [|done].
  cbn [andb]. destruct (_PROTOCOL_PAYLOAD_NAME (rf_protocol r)) as [name|] eqn:Hn; [|done].
  destruct (rf_destination_port r) as [port|]; [|done]. unfold _port_match, match_json. cbn [app line_verdict].
  rewrite decide_True, port_holds by (try done; destruct (rf_protocol r); cbn in Hn; naive_solver).
  replace (bool_decide (_PROTOCOL_PAYLOAD_NAME (p_protocol p) = Some name ∧ p_dport p = Some port))
    with (bool_decide (p_protocol p = rf_protocol r ∧ p_dport p = Some port)); [done|].
  apply bool_decide_ext. split; [intros [-> ->]; done|]. intros [H ->]. split; [|done]. by eapply payload_name_inj.
Qed.

Definition rule_ok (r : FirewallRule) : Prop := IPv4.wf (rf_source r) ∧ IPv4.wf (rf_destination r) ∧ expressible r = true.

Lemma lines_verdict rate (r : FirewallRule) under p : rule_ok r →
  chain_verdict under (lines_of rate r) p = rule_verdict (under (Some (_rule_comment (fr_id r)))) r p.
Proof.
  intros (Hs & Hd & He). unfold chain_verdict, lines_of, rule_lines, rule_verdict, _verdict_expressions. rewrite covers_matched by done.
  destruct (rf_action r); cbn [rbind]; [by destruct (matched r p)| | |]; cbn [fmap list_fmap first_some fst snd];
    rewrite ?matches_exact by done; destruct (matched r p); try done.
  by destruct (under _).
Qed.

Lemma chain_verdict_app under l1 l2 p :
  chain_verdict under (l1 ++ l2) p = match chain_verdict under l1 p with Some v => Some v | None => chain_verdict under l2 p end.
Proof. unfold chain_verdict. induction l1 as [|l l1 IH]; [done|]. cbn. destruct (line_verdict _ _ _); [done|]. apply IH. Qed.

Definition deployed_verdict (under : string → bool) (ds : list FirewallRule) (p : packet) : option verdict :=
  first_some (λ r, rule_verdict (under (fr_id r)) r p) ds.

Lemma deployed_chain rate (under : option string → bool) ds p :
  Forall rule_ok ds →
  chain_verdict under (ds ≫= lines_of rate) p = deployed_verdict (λ id, under (Some (_rule_comment id))) ds p.
Proof.
  induction 1 as [|r ds Hok _ IH]; [done|]. cbn [mbind list_bind]. rewrite chain_verdict_app, lines_verdict by done.
  unfold deployed_verdict in *. cbn [first_some]. destruct (rule_verdict _ r p); [done|]. exact IH.
Qed.

(** ** Transactions *)

Definition rules_of (x : v1_kernel) : list krule := default [] (vk_chain x).
Definition line_of (r : krule) : Line := (kl_comment r, kl_expr r).
Definition kernel_lines (x : v1_kernel) : list Line := line_of <$> rules_of x.
Definition handles_ok (x : v1_kernel) : Prop :=
  NoDup (kl_handle <$> rules_of x) ∧ Forall (λ r, kl_handle r < vk_next x) (rules_of x).

(** An operation on the rules leaves the grants and the clock alone. *)
Definition rules_only (x y : v1_kernel) : Prop := vk_authed y = vk_authed x ∧ vk_now y = vk_now x.

Lemma add_rules_effect comment ls : ∀ x y, k_exec_all (add_rule_command comment <$> ls) x = Some y → handles_ok x →
  handles_ok y ∧ rules_only x y ∧ kernel_lines y = kernel_lines x ++ ((λ l, (Some comment, l)) <$> ls).
Proof.
  induction ls as [|l ls IH]; intros x y; cbn [fmap list_fmap k_exec_all].
  { intros [= <-] Hok. by rewrite app_nil_r. }
  destruct (k_exec (add_rule_command comment l) x) as [x1|] eqn:Hx; [|done]. cbn [mbind option_bind]. intros Hy [Hnd Hlt].
  assert (Hx1 : ∃ rules, vk_chain x = Some rules ∧
                  x1 = with_chain x (rules ++ [mk_krule (vk_next x) (Some comment) l]) (vk_next x + 1)).
  { change (k_add_rule [("family", JStr _FAMILY); ("table", JStr _TABLE); ("chain", JStr _CHAIN); ("comment", JStr comment); ("expr", JList l)] x
            = Some x1) in Hx. unfold k_add_rule in Hx. destruct (vk_chain x) as [rules|]; [|done]. exists rules. split; [done|].
    change (Some (with_chain x (rules ++ [mk_krule (vk_next x) (Some comment) l]) (vk_next x + 1)) = Some x1) in Hx. congruence. }
  destruct Hx1 as (rules & Hc & ->). destruct (IH _ _ Hy) as (Hok & Ha & Hl).
  { unfold handles_ok, rules_of in *. rewrite Hc in *. cbn in *. rewrite fmap_app, NoDup_app, Forall_app. split.
    - split; [done|]. split; [|apply NoDup_singleton]. intros h (r & -> & Hr)%list_elem_of_fmap Hh%list_elem_of_singleton.
      rewrite Forall_forall in Hlt. specialize (Hlt _ Hr). cbn in Hlt, Hh. lia.
    - split; [eapply Forall_impl; [exact Hlt|cbn; lia]|]. constructor; [cbn; lia|done]. }
  split; [done|]. split; [exact Ha|]. rewrite Hl. unfold kernel_lines, rules_of. rewrite Hc. cbn. by rewrite fmap_app, <- app_assoc.
Qed.

Lemma delete_rules_effect hs : ∀ x y, k_exec_all (delete_rule_command <$> hs) x = Some y →
  rules_of y = filter (λ r, kl_handle r ∉ hs) (rules_of x) ∧ vk_next y = vk_next x ∧ rules_only x y.
Proof.
  induction hs as [|h hs IH]; intros x y; cbn [fmap list_fmap k_exec_all].
  { intros [= <-]. split; [|done]. symmetry. apply filter_all. set_solver. }
  destruct (k_exec (delete_rule_command h) x) as [x1|] eqn:Hx; [|done]. cbn [mbind option_bind]. intros (Hr & Hn & Ha)%IH.
  change (k_delete_rule [("family", JStr _FAMILY); ("table", JStr _TABLE); ("chain", JStr _CHAIN); ("handle", JInt h)] x = Some x1) in Hx.
  unfold k_delete_rule in Hx. destruct (vk_chain x) as [rules|] eqn:Hc; [|done]. cbn [mbind option_bind] in Hx.
  change (as_int (dget _ "handle")) with (Some h) in Hx. cbn [mbind option_bind] in Hx.
  change (in_chain _ "chain") with true in Hx. cbn [andb] in Hx. destruct (existsb _ rules); [|done]. injection Hx as <-.
  rewrite Hr, Hn. split; [|done]. unfold rules_of. rewrite Hc. cbn. rewrite list_filter_filter. apply list_filter_iff. set_solver.
Qed.

(** ** The operations *)

Section Laws.
Context {T : Type} (nft : list string → option json → M T json) {NC : NftV1Contract T nft} (exn_text : exn → string).
Notation V1 := (NftablesBackend T).
Definition kernel_of (b : V1) : v1_kernel := vk (v1_nft b).
Definition firewall_error (e : exn) : Prop := ∃ msg, e = FirewallError msg.

Lemma run_json_spec commands b r b' : _run_json nft commands b = (r, b') →
  v1_rate b' = v1_rate b ∧ v1_bootstrapped b' = v1_bootstrapped b ∧
  match r with
  | Ok _ => k_exec_all commands (kernel_of b) = Some (kernel_of b')
  | Raise e => ∃ msg, e = FirewallError msg ∧
      (kernel_of b' = kernel_of b ∧ (already_gone msg = true → k_exec_all commands (kernel_of b) = None) ∨
       k_exec_all commands (kernel_of b) = Some (kernel_of b') ∧ vk_killed (document commands) (v1_nft b))
  end.
Proof.
  unfold _run_json, _run_command, mbind, m_bind. destruct (nft _ _ (v1_nft b)) as [[out|e] t] eqn:Hr; apply vk_write in Hr; by intros [= <- <-].
Qed.

Lemma run_read_spec args b r b' : _run_command nft args None b = (r, b') →
  v1_rate b' = v1_rate b ∧ kernel_of b' = kernel_of b ∧ match r with Ok _ => True | Raise e => firewall_error e end.
Proof. unfold _run_command. destruct (nft args None (v1_nft b)) as [r0 t] eqn:Hr. apply vk_read in Hr as [Hk Hr]. by intros [= <- <-]. Qed.

(** The same rules, handles and grants. *)
Definition same_kernel (x y : v1_kernel) : Prop :=
  rules_of y = rules_of x ∧ vk_next y = vk_next x ∧ vk_authed y = vk_authed x ∧ vk_now y = vk_now x.
Lemma same_kernel_ok x y : same_kernel x y → handles_ok x → handles_ok y.
Proof. intros (Hr & Hn & _). unfold handles_ok. by rewrite Hr, Hn. Qed.
Lemma same_kernel_lines x y : same_kernel x y → kernel_lines y = kernel_lines x.
Proof. intros (Hr & _). unfold kernel_lines. by rewrite Hr. Qed.

Lemma bootstrap_spec b r b' : _ensure_bootstrap nft b = (r, b') →
  v1_rate b' = v1_rate b ∧ same_kernel (kernel_of b) (kernel_of b') ∧ match r with Ok _ => True | Raise e => firewall_error e end.
Proof.
  unfold _ensure_bootstrap. destruct (v1_bootstrapped b); [by intros [= <- <-]|].
  destruct (_run_json nft [table_json; chain_json] b) as [r0 b0] eqn:Hr. apply run_json_spec in Hr as (Hrate & _ & Hr).
  assert (Hx : ∀ y, k_exec_all [table_json; chain_json] (kernel_of b) = Some y → same_kernel (kernel_of b) y).
  { intros y Hy. change (Some (with_chain (mk_vk (vk_now (kernel_of b)) true (vk_chain (kernel_of b)) (vk_next (kernel_of b)) (vk_authed (kernel_of b)))
              (default [] (vk_chain (kernel_of b))) (vk_next (kernel_of b))) = Some y) in Hy. injection Hy as <-. done. }
  destruct r0 as [[]|e]; intros [= <- <-].
  - split; [done|]. split; [|done]. change (kernel_of (mk_v1 (v1_rate b0) true (v1_nft b0))) with (kernel_of b0). by apply Hx.
  - destruct Hr as (msg & -> & Hk). split; [done|]. split; [|by eexists]. destruct Hk as [[-> _]|[Hk _]]; [done|by apply Hx].
Qed.

(** The document of an operation was killed in its run. *)
Definition apply_killed (rule : FirewallRule) (b : V1) : Prop :=
  ∃ cs, _build_add_commands (fr_fields rule) (_rule_comment (fr_id rule)) (v1_rate b) = Ok cs ∧
    vk_killed (document cs) (v1_nft (_ensure_bootstrap nft b).2).
Definition remove_killed (id : string) (b : V1) : Prop :=
  let b0 := (_ensure_bootstrap nft b).2 in
  ∃ hs, (_find_handles_by_comment nft (_rule_comment id) b0).1 = Ok hs ∧
    vk_killed (document (delete_rule_command <$> hs)) (v1_nft (_find_handles_by_comment nft (_rule_comment id) b0).2).

Lemma apply_spec rule b r b' : v1_apply_rule nft exn_text rule b = (r, b') → handles_ok (kernel_of b) →
  handles_ok (kernel_of b') ∧ v1_rate b' = v1_rate b ∧ rules_only (kernel_of b) (kernel_of b') ∧
  let done_ := kernel_lines (kernel_of b') = kernel_lines (kernel_of b) ++ lines_of (v1_rate b) rule ∧ lines_of (v1_rate b) rule ≠ [] in
  match r with
  | Ok _ => done_
  | Raise e => firewall_error e ∧ (kernel_lines (kernel_of b') = kernel_lines (kernel_of b) ∨ done_ ∧ apply_killed rule b)
  end.
Proof.
  unfold v1_apply_rule, mbind, m_bind, mget, mlift, apply_killed. destruct (_ensure_bootstrap nft b) as [r0 b0] eqn:Hb.
  apply bootstrap_spec in Hb as (Hrate & Hsame & He). intros Hrun Hok. pose proof (same_kernel_ok _ _ Hsame Hok) as Hok0.
  pose proof (same_kernel_lines _ _ Hsame) as Hl0. pose proof Hsame as (_ & _ & Ha0).
  destruct r0 as [[]|e]; [|injection Hrun as <- <-; cbn zeta; split_and!; try done; by left]. rewrite Hrate in Hrun.
  unfold _build_add_commands in Hrun |- *. unfold lines_of.
  destruct (rule_lines (fr_fields rule) (v1_rate b)) as [ls|e] eqn:Hls; cbn [rbind] in Hrun |- *.
  - assert (Hdone : ∀ y, k_exec_all (add_rule_command (_rule_comment (fr_id rule)) <$> ls) (kernel_of b0) = Some y →
      handles_ok y ∧ rules_only (kernel_of b) y ∧ kernel_lines y = kernel_lines (kernel_of b) ++ ((λ l, (Some (_rule_comment (fr_id rule)), l)) <$> ls) ∧
      ((λ l, (Some (_rule_comment (fr_id rule)), l)) <$> ls) ≠ []).
    { intros y (Hok1 & [Ha1 Hn1] & Hl1)%add_rules_effect; [|done]. split; [done|]. split; [destruct Ha0; split; congruence|]. split; [by rewrite Hl1, Hl0|].
      revert Hls. unfold rule_lines. destruct (_verdict_expressions _ _); [|done]. by intros [= <-]. }
    unfold or_firewall_error in Hrun. destruct (_run_json nft _ b0) as [r1 b1] eqn:Hr1. apply run_json_spec in Hr1 as (Hrate1 & _ & Hr1).
    destruct r1 as [[]|e].
    + injection Hrun as <- <-. apply Hdone in Hr1 as (? & ? & ?). split; [done|]. split; [congruence|done].
    + destruct Hr1 as (msg & -> & [[Hk _]|[Hx Hk]]); injection Hrun as <- <-.
      * rewrite Hk. split; [done|]. split; [congruence|]. split; [done|]. split; [by eexists|by left].
      * apply Hdone in Hx as (? & ? & ?). split; [done|]. split; [congruence|]. split; [done|]. split; [by eexists|]. right. split; [done|]. by eexists.
  - injection Hrun as <- <-. split; [done|]. split; [done|]. split; [done|]. split; [|by left].
    revert Hls. unfold rule_lines, _verdict_expressions. destruct (rf_action rule); cbn; intros [= <-]. by eexists.
Qed.

(** A listing of the chain, as the backend reads it. *)
Lemma chain_listing b items b' : _list_ruleset nft b = (Ok items, b') →
  ∃ rules, vk_chain (kernel_of b) = Some rules ∧ kernel_of b' = kernel_of b ∧ v1_rate b' = v1_rate b ∧
    ∀ {A} (f : list (string * json) → option A), (∀ i, dget i "rule" = None → f i = None) →
      omap f items = omap (λ r, f (obj (Some (rule_json r)))) rules.
Proof.
  unfold _list_ruleset, mbind, m_bind. destruct (_run_command nft _ None b) as [r0 b0] eqn:Hr. pose proof Hr as (Hrate & Hk & _)%run_read_spec.
  destruct r0 as [out|e]; [|done]. intros [= <- <-]. unfold _run_command in Hr.
  destruct (nft _ None (v1_nft b)) as [r1 t] eqn:Hn. injection Hr as -> Hb. apply vk_list_chain in Hn as (rules & c & Hc & v & ->).
  exists rules. split; [done|]. split; [done|]. split; [done|]. intros A f Hf.
  change (output_entries _) with ([("metainfo", JObj [("version", JStr v)])] :: [("chain", JObj c)] :: omap as_dict (rule_json <$> rules)).
  cbn [omap list_omap]. rewrite !Hf by done. clear Hc. induction rules as [|r rules IH]; [done|]. cbn. by rewrite IH.
Qed.

Lemma handles_found c b hs b' : _find_handles_by_comment nft c b = (Ok hs, b') →
  kernel_of b' = kernel_of b ∧ v1_rate b' = v1_rate b ∧ hs = kl_handle <$> filter (λ r, kl_comment r = Some c) (rules_of (kernel_of b)).
Proof.
  unfold _find_handles_by_comment, mbind, m_bind. destruct (_list_ruleset nft b) as [[items|e] b0] eqn:Hr; [|done].
  apply chain_listing in Hr as (rules & Hc & Hk & Hrate & Hf). intros [= <- <-]. split; [done|]. split; [done|].
  rewrite Hf by (intros i Hi; unfold entry_handle, entry_rule; by rewrite Hi). unfold rules_of. rewrite Hc. change (default [] (Some rules)) with rules.
  clear Hf Hc. induction rules as [|r rules IH]; [done|]. rewrite filter_cons. cbn [omap list_omap]. rewrite IH.
  destruct r as [h [c'|] e]; cbn [kl_comment].
  - change (entry_handle c _) with (if bool_decide (Some c' = Some c) then Some h else None).
    case_bool_decide; [by rewrite decide_True|by rewrite decide_False].
  - rewrite decide_False by done. done.
Qed.

Lemma list_ruleset_errors b e b' : _list_ruleset nft b = (Raise e, b') → kernel_of b' = kernel_of b ∧ v1_rate b' = v1_rate b ∧ firewall_error e.
Proof.
  unfold _list_ruleset, mbind, m_bind. destruct (_run_command nft _ None b) as [r0 b0] eqn:Hr. apply run_read_spec in Hr as (Hrate & Hk & He).
  by destruct r0; intros [= <- <-].
Qed.

(** Deleting the handles of the rules with one comment deletes those rules. *)
Lemma filter_by_handle c (rules : list krule) : NoDup (kl_handle <$> rules) →
  filter (λ r, kl_handle r ∉ (kl_handle <$> filter (λ r, kl_comment r = Some c) rules)) rules = filter (λ r, kl_comment r ≠ Some c) rules.
Proof.
  intros Hnd. apply list_filter_iff_in. intros r Hr. split.
  - intros Hn Hc. apply Hn. apply list_elem_of_fmap. exists r. split; [done|]. by apply list_elem_of_filter.
  - intros Hn (r' & Heq & [Hc Hr']%list_elem_of_filter)%list_elem_of_fmap. apply Hn. rewrite <- Hc. f_equal.
    apply list_elem_of_lookup in Hr as [i Hi], Hr' as [j Hj].
    assert (Hij : i = j) by (eapply (NoDup_lookup _ i j _ Hnd); rewrite list_lookup_fmap, ?Hi, ?Hj; cbn; [done|by rewrite Heq]).
    congruence.
Qed.

Lemma lines_filter c (rules : list krule) :
  line_of <$> filter (λ r, kl_comment r ≠ Some c) rules = filter (λ l : Line, l.1 ≠ Some c) (line_of <$> rules).
Proof.
  induction rules as [|r rules IH]; [done|]. cbn [fmap list_fmap]. rewrite !filter_cons.
  destruct (decide (kl_comment r ≠ Some c)) as [H|H]; [rewrite (decide_True (P := (line_of r).1 ≠ Some c)) by done; cbn; by rewrite IH|].
  rewrite (decide_False (P := (line_of r).1 ≠ Some c)) by done. exact IH.
Qed.

Lemma remove_spec id b r b' : v1_remove_rule nft exn_text id b = (r, b') → handles_ok (kernel_of b) →
  handles_ok (kernel_of b') ∧ v1_rate b' = v1_rate b ∧ rules_only (kernel_of b) (kernel_of b') ∧
  let done_ := kernel_lines (kernel_of b') = filter (λ l : Line, l.1 ≠ Some (_rule_comment id)) (kernel_lines (kernel_of b)) in
  match r with
  | Ok _ => done_
  | Raise e => firewall_error e ∧ (kernel_lines (kernel_of b') = kernel_lines (kernel_of b) ∨ done_ ∧ remove_killed id b)
  end.
Proof.
  unfold v1_remove_rule, mbind, m_bind, remove_killed. destruct (_ensure_bootstrap nft b) as [r0 b0] eqn:Hb. cbn [snd].
  apply bootstrap_spec in Hb as (Hrate & Hsame & He). intros Hrun Hok. pose proof (same_kernel_ok _ _ Hsame Hok) as Hok0.
  pose proof (same_kernel_lines _ _ Hsame) as Hl0. pose proof Hsame as (_ & _ & Ha0).
  destruct r0 as [[]|e]; [|injection Hrun as <- <-; cbn zeta; split_and!; try done; by left].
  destruct (_find_handles_by_comment nft (_rule_comment id) b0) as [[hs|e] b1] eqn:Hf.
  2: { unfold _find_handles_by_comment, mbind, m_bind in Hf. destruct (_list_ruleset nft b0) as [[?|e0] b2] eqn:Hl; [done|].
       apply list_ruleset_errors in Hl as (Hk & Hr & Hfe). injection Hf as -> ->. injection Hrun as <- <-. rewrite Hk.
       cbn zeta. split_and!; try done; [congruence|by left]. }
  apply handles_found in Hf as (Hk & Hr1 & Hhs). cbn [fst snd].
  assert (Hdone : ∀ y, k_exec_all (delete_rule_command <$> hs) (kernel_of b1) = Some y →
    handles_ok y ∧ rules_only (kernel_of b) y ∧ kernel_lines y = filter (λ l : Line, l.1 ≠ Some (_rule_comment id)) (kernel_lines (kernel_of b))).
  { intros y (Hrules & Hn & [Ha Hnow])%delete_rules_effect. rewrite Hk in Hrules, Hn, Ha, Hnow. split_and!.
    - destruct Hok0 as [Hnd Hlt]. unfold handles_ok. rewrite Hrules, Hn. split.
      + eapply sublist_NoDup; [exact Hnd|apply fmap_sublist, sublist_filter].
      + rewrite Forall_forall in *. intros r' [_ Hr']%list_elem_of_filter. by apply Hlt.
    - destruct Ha0. split; congruence.
    - rewrite <- Hl0. unfold kernel_lines. rewrite Hrules, Hhs, filter_by_handle by apply Hok0. apply lines_filter. }
  destruct hs as [|h hs'] eqn:Hh.
  - injection Hrun as <- <-. destruct (Hdone (kernel_of b1) eq_refl) as (? & ? & ?). split_and!; [done|congruence|done|done].
  - unfold as_firewall_error in Hrun. rewrite <- Hh in *. clear Hh.
    destruct (_run_json nft _ b1) as [r2 b2] eqn:Hr2. apply run_json_spec in Hr2 as (Hrate2 & _ & Hr2). destruct r2 as [[]|e].
    + injection Hrun as <- <-. destruct (Hdone _ Hr2) as (? & ? & ?). cbn zeta. split_and!; [done|congruence|done|done].
    + destruct Hr2 as (msg & -> & [[Hk2 _]|[Hx Hkill]]); injection Hrun as <- <-.
      * rewrite Hk2, Hk. cbn zeta. split_and!; try done; [congruence|by eexists|by left].
      * destruct (Hdone _ Hx) as (? & ? & ?). cbn zeta. split_and!; [done|congruence|done|by eexists|]. right. split; [done|]. by exists hs.
Qed.

(** ** Histories of deployments *)

Inductive v1_op := OpApply (r : FirewallRule) | OpRemove (rule_id : string).
Definition v1_do (op : v1_op) : M V1 unit :=
  match op with OpApply r => v1_apply_rule nft exn_text r | OpRemove id => v1_remove_rule nft exn_text id end.
Definition op_killed (op : v1_op) : V1 → Prop :=
  match op with OpApply r => apply_killed r | OpRemove id => remove_killed id end.

(** An operation, the result it was reported with, and the backend it ran on. *)
Record v1_event : Type := mk_v1_event { ve_op : v1_op; ve_result : result unit; ve_backend : V1 }.
(** The backend some time later. *)
Definition v1_later (b b' : V1) : Prop :=
  v1_rate b' = v1_rate b ∧ v1_bootstrapped b' = v1_bootstrapped b ∧ vk_later (v1_nft b) (v1_nft b').
(** Operations one after another, with time passing before each. *)
Inductive v1_history : V1 → list v1_event → V1 → Prop :=
| V1Nil b : v1_history b [] b
| V1Op b b0 op r b1 es b2 : v1_later b b0 → v1_do op b0 = (r, b1) → v1_history b1 es b2 →
    v1_history b (mk_v1_event op r b0 :: es) b2.

(** Whether an operation is in force can be told from its result, except for
    a failure that comes from a killed run. *)
Definition v1_committed (e : v1_event) (committed : bool) : Prop :=
  match ve_result e with
  | Ok _ => committed = true
  | Raise x => firewall_error x ∧ (committed = true → op_killed (ve_op e) (ve_backend e))
  end.

(** The rules deployed and not removed since, in order. *)
Definition deployed_step (ds : list FirewallRule) (x : v1_op * bool) : list FirewallRule :=
  match x with
  | (OpApply r, true) => ds ++ [r]
  | (OpRemove id, true) => filter (λ r, fr_id r ≠ id) ds
  | (_, false) => ds
  end.
Definition deployed (ops : list v1_op) (committed : list bool) : list FirewallRule := foldl deployed_step [] (zip ops committed).

Lemma comment_inj id id' : _rule_comment id = _rule_comment id' → id = id'.
Proof. intros H. unfold _rule_comment, _COMMENT_PREFIX in H. repeat (injection H as H). exact H. Qed.

Lemma lines_comment rate (r : FirewallRule) l : l ∈ lines_of rate r → l.1 = Some (_rule_comment (fr_id r)).
Proof. unfold lines_of. destruct (rule_lines r rate); [|set_solver]. by intros (x & -> & _)%list_elem_of_fmap. Qed.

Lemma lines_without rate id ds :
  filter (λ l : Line, l.1 ≠ Some (_rule_comment id)) (ds ≫= lines_of rate) = filter (λ r, fr_id r ≠ id) ds ≫= lines_of rate.
Proof.
  induction ds as [|r ds IH]; [done|]. cbn [mbind list_bind]. rewrite filter_app, filter_cons. case_decide as Hid.
  - cbn [mbind list_bind]. rewrite IH. f_equal. apply filter_all. intros l ->%lines_comment H%(inj Some). by apply Hid, comment_inj.
  - rewrite IH. rewrite filter_none; [done|]. intros l Hl%lines_comment. rewrite Hl, Hid. tauto.
Qed.

Lemma op_spec op b r b' ds : v1_do op b = (r, b') → handles_ok (kernel_of b) →
  kernel_lines (kernel_of b) = ds ≫= lines_of (v1_rate b) → Forall (λ r, lines_of (v1_rate b) r ≠ []) ds →
  ∃ c, v1_committed (mk_v1_event op r b) c ∧ handles_ok (kernel_of b') ∧ v1_rate b' = v1_rate b ∧ rules_only (kernel_of b) (kernel_of b') ∧
    kernel_lines (kernel_of b') = deployed_step ds (op, c) ≫= lines_of (v1_rate b) ∧ Forall (λ r, lines_of (v1_rate b) r ≠ []) (deployed_step ds (op, c)).
Proof.
  intros Hr Hok Hl Hne0. unfold v1_committed. cbn [ve_result ve_op ve_backend].
  destruct op as [rule|id]; cbn [v1_do op_killed] in *.
  - apply apply_spec in Hr as (? & ? & ? & Hr); [|done]. cbn zeta in Hr.
    assert (Hd : kernel_lines (kernel_of b') = kernel_lines (kernel_of b) ++ lines_of (v1_rate b) rule ∧ lines_of (v1_rate b) rule ≠ [] →
      kernel_lines (kernel_of b') = (ds ++ [rule]) ≫= lines_of (v1_rate b) ∧ Forall (λ r, lines_of (v1_rate b) r ≠ []) (ds ++ [rule])).
    { intros [-> Hne]. rewrite Hl, bind_app. cbn [mbind list_bind]. rewrite app_nil_r. split; [done|]. by apply Forall_app_2; [|constructor]. }
    destruct r as [[]|e]; [exists true; eauto 6|]. destruct Hr as [He [Hr|[Hr Hk]]]; [exists false|exists true; split; eauto 6].
    split; [by split|]. split_and!; try done. cbn [deployed_step]. congruence.
  - apply remove_spec in Hr as (? & ? & ? & Hr); [|done]. cbn zeta in Hr.
    assert (Hd : kernel_lines (kernel_of b') = filter (λ l : Line, l.1 ≠ Some (_rule_comment id)) (kernel_lines (kernel_of b)) →
      kernel_lines (kernel_of b') = filter (λ r, fr_id r ≠ id) ds ≫= lines_of (v1_rate b) ∧
      Forall (λ r, lines_of (v1_rate b) r ≠ []) (filter (λ r, fr_id r ≠ id) ds)).
    { intros ->. split; [by rewrite Hl, lines_without|]. rewrite Forall_forall in *. intros r' [_ Hin]%list_elem_of_filter. by apply Hne0. }
    destruct r as [[]|e]; [exists true; eauto 6|]. destruct Hr as [He [Hr|[Hr Hk]]]; [exists false|exists true; split; eauto 6].
    split; [by split|]. split_and!; try done. cbn [deployed_step]. congruence.
Qed.

(** What time does to the grants. *)
Definition grants_at (now : Z) (x : v1_kernel) : option (list (PortalGrant * option Z)) := filter (λ p, alive now p.2 = true) <$> vk_authed x.

Lemma later_spec b b' : v1_later b b' → v1_rate b' = v1_rate b ∧ vk_now (kernel_of b) ≤ vk_now (kernel_of b') ∧
  kernel_of b' = vk_at (vk_now (kernel_of b')) (kernel_of b).
Proof. intros (Hr & _ & [Hn Hk]%vk_later_law). done. Qed.
Lemma alive_later now now' (l : list (PortalGrant * option Z)) : now ≤ now' →
  filter (λ p, alive now' p.2 = true) (filter (λ p, alive now p.2 = true) l) = filter (λ p, alive now' p.2 = true) l.
Proof.
  intros Hle. rewrite list_filter_filter. apply list_filter_iff. intros [g [e|]]; cbn; [|tauto]. rewrite !Z.ltb_lt. lia.
Qed.

Lemma v1_history_spec b es b' : v1_history b es b' → ∀ ds, handles_ok (kernel_of b) →
  kernel_lines (kernel_of b) = ds ≫= lines_of (v1_rate b) → Forall (λ r, lines_of (v1_rate b) r ≠ []) ds →
  ∃ cs, Forall2 v1_committed es cs ∧ v1_rate b' = v1_rate b ∧ vk_now (kernel_of b) ≤ vk_now (kernel_of b') ∧
    (∀ now, vk_now (kernel_of b') ≤ now → grants_at now (kernel_of b') = grants_at now (kernel_of b)) ∧
    kernel_lines (kernel_of b') = foldl deployed_step ds (zip (ve_op <$> es) cs) ≫= lines_of (v1_rate b) ∧
    Forall (λ r, lines_of (v1_rate b) r ≠ []) (foldl deployed_step ds (zip (ve_op <$> es) cs)).
Proof.
  induction 1 as [b|b b0 op r b1 es b2 Hlater Hop _ IH]; intros ds Hok Hl Hne; [exists []; cbn; split_and!; try done; lia|].
  apply later_spec in Hlater as (Hr0 & Hn0 & Hk0).
  assert (Hok0 : handles_ok (kernel_of b0)) by (rewrite Hk0; exact Hok).
  assert (Hl0 : kernel_lines (kernel_of b0) = ds ≫= lines_of (v1_rate b0)) by (rewrite Hr0, Hk0; exact Hl).
  destruct (op_spec op b0 r b1 ds Hop Hok0 Hl0) as (c & Hc & Hok1 & Hr1 & [Ha1 Hn1] & Hl1 & Hne1); [by rewrite Hr0|].
  rewrite <- Hr1 in Hl1, Hne1. destruct (IH _ Hok1 Hl1 Hne1) as (cs & Hcs & Hr2 & Hn2 & Hg2 & Hl2 & Hne2).
  exists (c :: cs). rewrite Hr1, Hr0 in Hr2, Hl2, Hne2. split; [by constructor|]. split; [done|]. split; [lia|]. split; [|done].
  intros now Hnow. rewrite Hg2 by done. unfold grants_at. rewrite Ha1, Hk0. cbn [vk_authed vk_at].
  destruct (vk_authed (kernel_of b)); cbn; [|done]. f_equal. apply alive_later. lia.
Qed.

Lemma after_prefix_app prefix s : after_prefix prefix (prefix +:+ s) = Some s.
Proof.
  induction prefix as [|c prefix IH]; [done|].
  change (after_prefix (String c prefix) (String c prefix +:+ s)) with (if bool_decide (c = c) then after_prefix prefix (prefix +:+ s) else None).
  by rewrite bool_decide_true.
Qed.
Lemma after_prefix_inv prefix : ∀ s t, after_prefix prefix s = Some t → s = prefix +:+ t.
Proof.
  induction prefix as [|c prefix IH]; intros [|c' s] t; cbn [after_prefix]; [by intros [= <-]..|done|]. case_bool_decide; [|done]. subst.
  intros ->%IH. done.
Qed.

Lemma listed_ids b ids b' : v1_list_active_rule_ids nft b = (Ok ids, b') →
  ∀ id, id ∈ ids ↔ ∃ l, l ∈ kernel_lines (kernel_of b) ∧ l.1 = Some (_rule_comment id).
Proof.
  unfold v1_list_active_rule_ids, mbind, m_bind. destruct (_ensure_bootstrap nft b) as [[[]|e] b0] eqn:Hb; [|done].
  apply bootstrap_spec in Hb as (_ & Hsame & _). destruct (_list_ruleset nft b0) as [[items|e] b1] eqn:Hr; [|done].
  apply chain_listing in Hr as (rules & Hc & _ & _ & Hf). intros [= <- _] id.
  rewrite elem_of_dedup, Hf by (intros i Hi; unfold entry_id, entry_rule; by rewrite Hi).
  rewrite <- (same_kernel_lines _ _ Hsame). unfold kernel_lines, rules_of. rewrite Hc. change (default [] (Some rules)) with rules.
  assert (Hid : ∀ r, entry_id (obj (Some (rule_json r))) = c ← kl_comment r; after_prefix _COMMENT_PREFIX c) by (by intros [h [c|] e]).
  rewrite list_elem_of_omap. setoid_rewrite list_elem_of_fmap. split.
  - intros (r & Hr & Hi). rewrite Hid in Hi. exists (line_of r). split; [by exists r|]. cbn [line_of fst].
    destruct (kl_comment r) as [c|]; [|done]. cbn [mbind option_bind] in Hi. by apply after_prefix_inv in Hi as ->.
  - intros (l & (r & -> & Hr) & Hl). exists r. split; [done|]. rewrite Hid. cbn [line_of fst] in Hl. rewrite Hl. apply after_prefix_app.
Qed.


(** ** The portal's grants *)

Definition grant_of (ip : IPv4.t) (mac : option string) : PortalGrant := (ip, str_lower <$> mac).

Lemma portal_value_grant ip mac : IPv4.valid ip → value_grant (_portal_value ip mac) = Some (grant_of ip mac).
Proof.
  intros Hip. unfold grant_of. destruct mac as [m|].
  - transitivity (address ← IPv4.parse (IPv4.to_string ip); Some (address, Some (str_lower m))); [reflexivity|]. by rewrite IPv4.parse_to_string.
  - transitivity (address ← IPv4.parse (IPv4.to_string ip); Some (address, @None string)); [reflexivity|]. by rewrite IPv4.parse_to_string.
Qed.

Lemma add_grant_effect ip t mac x y : IPv4.valid ip →
  k_exec_all [portal_command "add" (JObj [("elem", JObj [("val", _portal_value ip mac); ("timeout", JInt t)])])] x = Some y →
  ∃ els, vk_authed x = Some els ∧ y = with_authed x (dsetdefault els (grant_of ip mac) (Some (vk_now x + seconds t))).
Proof.
  intros Hip He.
  change ((y ← (els ← vk_authed x; g ← value_grant (_portal_value ip mac);
                Some (with_authed x (dsetdefault els g (Some (vk_now x + seconds t))))); Some y) = Some y) in He.
  rewrite portal_value_grant in He by done. destruct (vk_authed x) as [els|]; [|done]. injection He as <-. by exists els.
Qed.

Lemma delete_grant_exec ip mac x : IPv4.valid ip → k_exec_all [portal_command "delete" (_portal_value ip mac)] x =
  els ← vk_authed x; if dmem els (grant_of ip mac) then Some (with_authed x (dpop els (grant_of ip mac))) else None.
Proof.
  intros Hip. transitivity (y ← (els ← vk_authed x; g ← value_grant (_portal_value ip mac);
     if dmem els g then Some (with_authed x (dpop els g)) else None); Some y); [by destruct mac|].
  rewrite portal_value_grant by done. destruct (vk_authed x) as [els|]; [|done]. cbn [mbind option_bind]. by destruct (dmem els _).
Qed.

(** The grants and expiries the kernel holds. *)
Definition granted (x : v1_kernel) (g : PortalGrant) : option (option Z) := els ← vk_authed x; dget els g.

(** The portal's grants are the kernel's.  Authorising adds the pair and
    touches no other, deauthorising removes exactly it, or finds it gone; a
    reported failure changed nothing, unless the run was killed; the listing
    is exactly what is there. *)
Definition authorized (ip : IPv4.t) (t : Z) (mac : option string) (x y : v1_kernel) : Prop :=
  (∀ g, g ≠ grant_of ip mac → granted y g = granted x g) ∧
  granted y (grant_of ip mac) = match granted x (grant_of ip mac) with Some e => Some e | None => Some (Some (vk_now x + seconds t)) end.
Definition deauthorized (ip : IPv4.t) (mac : option string) (x y : v1_kernel) : Prop :=
  ∀ g, granted y g = if decide (g = grant_of ip mac) then None else granted x g.

Lemma add_grant_authorized ip t mac x y : IPv4.valid ip →
  k_exec_all [portal_command "add" (JObj [("elem", JObj [("val", _portal_value ip mac); ("timeout", JInt t)])])] x = Some y → authorized ip t mac x y.
Proof.
  intros Hip (els & He & ->)%add_grant_effect; [|done]. unfold authorized, granted. rewrite He. cbn [with_authed vk_authed mbind option_bind].
  unfold dsetdefault. destruct (dget els (grant_of ip mac)) eqn:Hg; [done|]. split; [intros g Hne; by rewrite dget_set_ne|]. by rewrite dget_set_eq.
Qed.
Lemma delete_grant_deauthorized ip mac x y : IPv4.valid ip →
  k_exec_all [portal_command "delete" (_portal_value ip mac)] x = Some y → deauthorized ip mac x y.
Proof.
  intros Hip Hr g. rewrite delete_grant_exec in Hr by done. unfold granted. destruct (vk_authed x) as [els|]; [|done]. cbn [mbind option_bind] in Hr |- *.
  destruct (dmem els _); [|done]. injection Hr as <-. cbn [with_authed vk_authed mbind option_bind]. rewrite dget_pop. by repeat case_decide.
Qed.
Lemma gone_deauthorized ip mac x : IPv4.valid ip →
  k_exec_all [portal_command "delete" (_portal_value ip mac)] x = None → deauthorized ip mac x x.
Proof.
  intros Hip Hr g. rewrite delete_grant_exec in Hr by done. unfold granted. destruct (vk_authed x) as [els|]; cbn [mbind option_bind] in *; [|by case_decide].
  case_decide as Hg; [|done]. subst g. unfold dmem in Hr. by destruct (dget els (grant_of ip mac)).
Qed.

Lemma v1_authorize_spec ip t mac b r b' : IPv4.valid ip → 0 < t → v1_authorize_portal_client nft exn_text ip t mac b = (r, b') →
  match r with
  | Ok _ => authorized ip t mac (kernel_of b) (kernel_of b')
  | Raise e => firewall_error e ∧ (kernel_of b' = kernel_of b ∨ authorized ip t mac (kernel_of b) (kernel_of b'))
  end.
Proof.
  intros Hip Ht. unfold v1_authorize_portal_client. destruct (Z.leb_spec t 0); [lia|]. unfold or_firewall_error.
  destruct (_run_json nft _ b) as [r0 b0] eqn:Hr. apply run_json_spec in Hr as (_ & _ & Hr). destruct r0 as [[]|e].
  - intros [= <- <-]. by apply add_grant_authorized.
  - destruct Hr as (msg & -> & Hk). intros [= <- <-]. split; [by eexists|]. destruct Hk as [[Hk _]|[Hk _]]; [by left|right; by apply add_grant_authorized].
Qed.
Lemma v1_deauthorize_spec ip mac b r b' : IPv4.valid ip → v1_deauthorize_portal_client nft ip mac b = (r, b') →
  match r with
  | Ok _ => deauthorized ip mac (kernel_of b) (kernel_of b')
  | Raise e => firewall_error e ∧ (kernel_of b' = kernel_of b ∨ deauthorized ip mac (kernel_of b) (kernel_of b'))
  end.
Proof.
  intros Hip. unfold v1_deauthorize_portal_client, try_firewall. destruct (_run_json nft _ b) as [r0 b0] eqn:Hr.
  apply run_json_spec in Hr as (_ & _ & Hr). destruct r0 as [[]|e]; [intros [= <- <-]; by apply delete_grant_deauthorized|].
  destruct Hr as (msg & -> & [[Hk Hgone]|[Hk _]]); destruct (already_gone msg); intros [= <- <-].
  - rewrite Hk. by apply gone_deauthorized, Hgone.
  - split; [by eexists|by left].
  - by apply delete_grant_deauthorized.
  - split; [by eexists|right; by apply delete_grant_deauthorized].
Qed.
Lemma v1_grants_spec b r b' : v1_list_portal_grants nft b = (r, b') → kernel_of b' = kernel_of b ∧
  match r with
  | Ok gs => ∀ g, (g ∈ gs ↔ is_Some (granted (kernel_of b) g)) ∧ (g ∈ gs → ∃ e, _portal_element_grant e = Some g)
  | Raise e => firewall_error e
  end.
Proof.
  unfold v1_list_portal_grants, mbind, m_bind. destruct (_run_command nft _ None b) as [r0 b0] eqn:Hr.
  pose proof Hr as (_ & Hk & He)%run_read_spec. destruct r0 as [out|e]; [|by intros [= <- <-]]. intros [= <- <-]. split; [done|].
  unfold _run_command in Hr. destruct (nft _ None (v1_nft b)) as [r1 t1] eqn:Hn. injection Hr as -> _.
  apply vk_list_set in Hn as (els & o & Hels & (v & ->) & Hl). intros g. rewrite elem_of_dedup.
  match goal with |- context [_ ∈ ?l] =>
    replace l with (omap _portal_element_grant (as_list (dget o "elem"))) by (symmetry; exact (app_nil_r _)) end.
  assert (Hom : omap _portal_element_grant (as_list (dget o "elem")) = els.*1).
  { clear Hels. revert Hl. generalize (as_list (dget o "elem")), els.*1. induction 1 as [|e g0 es gs Hg _ IH]; [done|]. cbn. by rewrite Hg, IH. }
  split; [|intros (e & _ & Hg)%list_elem_of_omap; by exists e].
  rewrite Hom. unfold granted, kernel_of. rewrite Hels. cbn [mbind option_bind]. symmetry. apply dget_is_Some.
Qed.

(** Whatever fails, the backend raises [FirewallError], as its protocol says. *)
#[local] Instance v1_backend_laws : FirewallBackendLaws V1 (H := v1_backend nft exn_text).
Proof.
  split.
  - intros rule b e b'. cbn. unfold v1_apply_rule, mbind, m_bind, mget, mlift. destruct (_ensure_bootstrap nft b) as [r0 b0] eqn:Hb.
    apply bootstrap_spec in Hb as (_ & _ & He). destruct r0 as [[]|e0]; [|by intros [= <- <-]].
    unfold _build_add_commands, rule_lines. destruct (_verdict_expressions _ _) as [v|e0] eqn:Hv; cbn [rbind].
    + unfold or_firewall_error. destruct (_run_json nft _ b0) as [[?|[]] b1]; intros [= <- <-]; by eexists.
    + intros [= <- <-]. revert Hv. unfold _verdict_expressions. destruct (rf_action rule); intros [= <-]. by eexists.
  - intros id b e b'. cbn. unfold v1_remove_rule, mbind, m_bind. destruct (_ensure_bootstrap nft b) as [r0 b0] eqn:Hb.
    apply bootstrap_spec in Hb as (_ & _ & He). destruct r0 as [[]|e0]; [|by intros [= <- <-]].
    unfold _find_handles_by_comment, mbind, m_bind. destruct (_list_ruleset nft b0) as [[items|e0] b1] eqn:Hl.
    + cbn. destruct (omap _ items) as [|h hs]; [done|]. unfold as_firewall_error.
      destruct (_run_json nft _ b1) as [[?|[]] b2]; intros [= <- <-]; by eexists.
    + apply list_ruleset_errors in Hl as (_ & _ & Hfe). by intros [= <- <-].
Qed.
End Laws.
