(* ===== verification/Manager.v ===== *)
(** * The firewall manager (pirewall/firewall/manager.py)

    [FirewallManager] as a record of its attributes and one definition per
    method, over any [SetBackend] and any [FirewallBackend].  Methods run in
    the state-and-exception monad, so what an exception leaves behind is
    explicit.  [m_resolver] is the [mac_resolver] callable (the constant
    [None] when none is wired in) and [m_local] the host's own addresses as
    the safety stage sees them. *)

From S2P Require Import Prelude Float Net Models RateLimiter Sets SetBackend Backend Validator AllowlistStore.
Local Open Scope Z_scope.

Definition _SUBSYSTEM : string := "firewall.manager".
Definition _META_SET : string := "v2_set".
Definition _META_KEY : string := "v2_key".
Definition _RECONCILED_PREFIX : string := "reconciled".
Definition _RESTORE_COMMAND : string := "sudo pirewall-start".

Definition _ACTION_FOR_SET (set : string) : option FirewallAction :=
  dget [(SET_BLOCK_MAC, BLOCK); (SET_BLOCK4, BLOCK); (SET_RATELIMIT_MAC, RATE_LIMIT); (SET_RATELIMIT4, RATE_LIMIT)] set.
Definition _IP_KEYED_SETS : list string := [SET_BLOCK4; SET_RATELIMIT4].
Definition _BINDING_TABLES : list (string * string) :=
  [(INET_FAMILY, STATIC_TABLE); (ARP_FAMILY, STATIC_ARP_TABLE)].
Definition _ALLOW_BOUND_TABLES : list string := [STATIC_TABLE; ADAPTIVE_TABLE].

Record RuleTransition : Type := mk_transition {
  tr_rule_id : string;
  tr_from_status : option RuleStatus;
  tr_to_status : RuleStatus;
  tr_at : Z;
  tr_reason : string;
}.

Record SubmissionResult : Type := mk_submission { sr_rule : option FirewallRule; sr_event : SecurityEvent }.

Record ReconcileReport : Type := mk_report {
  rr_adopted : list string;
  rr_retired : list string;
  rr_unattributed : list (string * string);
  rr_missing_tables : list (string * string);
}.

Record PanicResult : Type := mk_panic_result {
  pr_deleted_tables : list string;
  pr_restore_command : string;
  pr_actor : string;
  pr_performed_at : Z;
}.

(** ** Module-level helpers *)

Definition _element_of (rule : FirewallRule) : option (string * string) :=
  set ← dget (rf_metadata rule) _META_SET;
  key ← dget (rf_metadata rule) _META_KEY;
  Some (set, key).

Definition _delete_ops (rule : FirewallRule) : list SetOp :=
  match _element_of rule with
  | None => []
  | Some (set, key) => [adaptive_op OP_DELETE set (KStr key) None]
  end.

Definition _binding_ops (kind : SetOpKind) (b : Binding) (timeout : option Z) : list SetOp :=
  let ip := IPv4.to_string (b_ip b) in
  let mac := b_mac b in
  _BINDING_TABLES ≫= (λ ft : string * string,
    [mk_op kind SET_BOUND4 (KStr ip) timeout ft.2 ft.1;
     mk_op kind SET_MACBIND (KPair ip mac) timeout ft.2 ft.1]).

Definition _allow_bound_pair (e : AllowlistEntry) : option (string * string) :=
  match al_mac e with
  | None => None
  | Some m => if IPv4.prefixlen (al_target e) =? 32
              then Some (m, IPv4.to_string (IPv4.net_addr (al_target e))) else None
  end.

Definition allow_bound_op (kind : SetOpKind) (pair : string * string) (table : string) : SetOp :=
  mk_op kind SET_ALLOW_BOUND (KPair pair.1 pair.2) None table INET_FAMILY.

Definition _allow_bound_ops (kind : SetOpKind) (pair : string * string) : list SetOp :=
  allow_bound_op kind pair <$> _ALLOW_BOUND_TABLES.

Definition rules_targeting (rules : list FirewallRule) (client_ip : IPv4.t) (protected : IPv4.network)
  : list FirewallRule :=
  let targets n := IPv4.contains n client_ip && IPv4.subnet_of n protected in
  filter (λ r : FirewallRule,
    restrictive (rf_action r) && (targets (rf_source r) || targets (rf_destination r)) = true) rules.

Definition blocking_rules_targeting (rules : list FirewallRule) (client_ip : IPv4.t) (protected : IPv4.network)
  : list FirewallRule :=
  filter (λ r : FirewallRule, rf_action r = BLOCK) (rules_targeting rules client_ip protected).

(** Pairs sorted as Python sorts tuples of strings. *)
Definition pair_leb (p q : string * string) : bool :=
  if String.eqb p.1 q.1 then String.leb p.2 q.2 else String.leb p.1 q.1.

(** The [FirewallRule] built from an approved candidate. *)
Definition rule_of_candidate (c : CandidateRule) (priority : Z) (target : option RuleTarget) : FirewallRule :=
  mk_rule (fields_with_target (cr_fields c) target) (cr_id c) priority VALIDATING
    (cr_created_at c) (cr_expires_at c) None.

Definition event (now : Z) (sev : EventSeverity) (ty : SecurityEventType) (reason : string) : SecurityEvent :=
  mk_event now sev ty _SUBSYSTEM None None None (Some reason).

Definition rule_event (now : Z) (sev : EventSeverity) (ty : SecurityEventType) (id : string)
  (score : option float) (action : FirewallAction) (reason : string) : SecurityEvent :=
  mk_event now sev ty _SUBSYSTEM score (Some action) (Some id) (Some reason).

Section Manager.
Context {B F : Type} `{SetBackend B} `{FirewallBackend F}.

Record FirewallManager : Type := mk_manager {
  m_config : PirewallConfig;
  m_local : LocalAddresses;
  m_backend : F;
  m_sets : option B;
  m_resolver : IPv4.t → option string;
  m_targets : list (string * RuleTarget);
  m_rules : list (string * FirewallRule);
  m_known : list string;
  m_transitions : list RuleTransition;
  m_limiter : RuleCreationRateLimiter;
  m_mode : EnforcementMode;
  m_store : option AllowlistStore;
  m_allowlist : list AllowlistEntry;
}.

(** [FirewallManager.__init__] *)
Definition new_manager (config : PirewallConfig) (backend : F) (store : option AllowlistStore)
  (sets : option B) (resolver : IPv4.t → option string) (local : LocalAddresses) : FirewallManager :=
  mk_manager config local backend sets resolver [] [] [] []
    (new_limiter (c_max_adaptive_rules_per_window config) (c_rate_window_seconds config))
    (c_enforcement_mode config) store
    (c_allowlist config ++ match store with Some s => list_entries s | None => [] end).

(** Attribute updates. *)
Definition set_backend (m : FirewallManager) x := mk_manager (m_config m) (m_local m) x (m_sets m)
  (m_resolver m) (m_targets m) (m_rules m) (m_known m) (m_transitions m) (m_limiter m) (m_mode m)
  (m_store m) (m_allowlist m).
Definition set_sets (m : FirewallManager) x := mk_manager (m_config m) (m_local m) (m_backend m) x
  (m_resolver m) (m_targets m) (m_rules m) (m_known m) (m_transitions m) (m_limiter m) (m_mode m)
  (m_store m) (m_allowlist m).
Definition set_targets (m : FirewallManager) x := mk_manager (m_config m) (m_local m) (m_backend m)
  (m_sets m) (m_resolver m) x (m_rules m) (m_known m) (m_transitions m) (m_limiter m) (m_mode m)
  (m_store m) (m_allowlist m).
Definition set_rules (m : FirewallManager) x := mk_manager (m_config m) (m_local m) (m_backend m)
  (m_sets m) (m_resolver m) (m_targets m) x (m_known m) (m_transitions m) (m_limiter m) (m_mode m)
  (m_store m) (m_allowlist m).
Definition set_known (m : FirewallManager) x := mk_manager (m_config m) (m_local m) (m_backend m)
  (m_sets m) (m_resolver m) (m_targets m) (m_rules m) x (m_transitions m) (m_limiter m) (m_mode m)
  (m_store m) (m_allowlist m).
Definition set_transitions (m : FirewallManager) x := mk_manager (m_config m) (m_local m) (m_backend m)
  (m_sets m) (m_resolver m) (m_targets m) (m_rules m) (m_known m) x (m_limiter m) (m_mode m)
  (m_store m) (m_allowlist m).
Definition set_limiter (m : FirewallManager) x := mk_manager (m_config m) (m_local m) (m_backend m)
  (m_sets m) (m_resolver m) (m_targets m) (m_rules m) (m_known m) (m_transitions m) x (m_mode m)
  (m_store m) (m_allowlist m).
Definition set_mode (m : FirewallManager) x := mk_manager (m_config m) (m_local m) (m_backend m)
  (m_sets m) (m_resolver m) (m_targets m) (m_rules m) (m_known m) (m_transitions m) (m_limiter m) x
  (m_store m) (m_allowlist m).
Definition set_store (m : FirewallManager) x := mk_manager (m_config m) (m_local m) (m_backend m)
  (m_sets m) (m_resolver m) (m_targets m) (m_rules m) (m_known m) (m_transitions m) (m_limiter m)
  (m_mode m) x (m_allowlist m).
Definition set_allowlist (m : FirewallManager) x := mk_manager (m_config m) (m_local m) (m_backend m)
  (m_sets m) (m_resolver m) (m_targets m) (m_rules m) (m_known m) (m_transitions m) (m_limiter m)
  (m_mode m) (m_store m) x.

(** Calls on the two backends the manager owns, and on the store. *)
Definition on_sets {A} (f : M B A) : M FirewallManager A := λ m,
  match m_sets m with
  | None => (Raise AssertionError, m)
  | Some b => let '(r, b') := f b in (r, set_sets m (Some b'))
  end.
Definition on_backend {A} (f : M F A) : M FirewallManager A := λ m,
  let '(r, b') := f (m_backend m) in (r, set_backend m b').
Definition on_store (f : AllowlistStore → result unit * AllowlistStore) : M FirewallManager unit := λ m,
  match m_store m with
  | None => (Ok tt, m)
  | Some s => let '(r, s') := f s in (r, set_store m (Some s'))
  end.

Definition put_rule (id : string) (r : FirewallRule) : M FirewallManager unit :=
  mmodify (λ m, set_rules m (dset (m_rules m) id r)).

Definition _record (id : string) (from : option RuleStatus) (to : RuleStatus) (at_ : Z) (reason : string)
  : M FirewallManager unit :=
  mmodify (λ m, set_transitions m (m_transitions m ++ [mk_transition id from to at_ reason])).

(** ** Views *)

Definition get_rule (m : FirewallManager) (id : string) : option FirewallRule := dget (m_rules m) id.
Definition all_rules (m : FirewallManager) : list FirewallRule := dvalues (m_rules m).
Definition active_rules (m : FirewallManager) : list FirewallRule :=
  filter (λ r, is_active r = true) (dvalues (m_rules m)).

Definition adaptive_rules_in_window (now : Z) : M FirewallManager Z := λ m,
  let '(n, l') := count_in_window (m_limiter m) now in (Ok n, set_limiter m l').

Definition backend_health : M FirewallManager bool :=
  try_firewall
    (healthy ← on_backend fb_health_check;
     m ← mget;
     match m_sets m with
     | None => mret (healthy : bool)
     | Some _ => if (healthy : bool) then on_sets sb_health_check else mret false
     end)
    (λ _, mret false).

(** ** Retiring rules *)

Definition _delete_element (rule : FirewallRule) : M FirewallManager unit :=
  match _delete_ops rule with
  | [] => mret tt
  | ops => on_sets (sb_apply ops)
  end.

Definition _retire_rule (id : string) (to_status : RuleStatus) (now : Z) (reason : string)
  : M FirewallManager (option FirewallRule) :=
  m ← mget;
  match dget (m_rules m) id with
  | None => mret None
  | Some rule =>
      if negb (is_active rule) then mret None
      else
        _ ← suppress_firewall
              (match m_sets m with
               | Some _ => _delete_element rule
               | None => on_backend (fb_remove_rule id)
               end);
        let updated := rule_with_status rule to_status in
        _ ← put_rule id updated;
        _ ← _record id (Some ACTIVE) to_status now reason;
        mret (Some updated)
  end.

Definition disable_rule (id : string) (now : Z) : M FirewallManager (option FirewallRule) :=
  _retire_rule id DISABLED now "disabled by administrator".
Definition remove_rule (id : string) (now : Z) : M FirewallManager (option FirewallRule) :=
  _retire_rule id REMOVED now "removed by administrator".

Definition is_expired (now : Z) (r : FirewallRule) : bool :=
  is_active r && match fr_expires_at r with Some e => e <=? now | None => false end.

Fixpoint expire_loop (now : Z) (rules : list FirewallRule) (expired : list FirewallRule)
  : M FirewallManager (list FirewallRule) :=
  match rules with
  | [] => mret expired
  | rule :: rest =>
      if negb (is_expired now rule) then expire_loop now rest expired
      else
        r ← _retire_rule (fr_id rule) EXPIRED now "rule TTL elapsed";
        expire_loop now rest (match r with Some x => expired ++ [x] | None => expired end)
  end.

Definition expire_rules (now : Z) : M FirewallManager (list FirewallRule) :=
  m ← mget; expire_loop now (dvalues (m_rules m)) [].

(** ** Allowlist *)

Definition _allow_bound_pairs (m : FirewallManager) (exclude : option string) : list (string * string) :=
  omap (λ e, if decide (Some (al_id e) = exclude) then None else _allow_bound_pair e) (m_allowlist m).

Definition add_allowlist_entry (entry : AllowlistEntry) : M FirewallManager unit :=
  _ ← mmodify (λ m, set_allowlist m (m_allowlist m ++ [entry]));
  _ ← on_store (store_add entry);
  m ← mget;
  match _allow_bound_pair entry with
  | None => mret tt
  | Some pr =>
      match m_sets m with
      | None => mret tt
      | Some _ =>
          if inb pr (_allow_bound_pairs m (Some (al_id entry))) then mret tt
          else on_sets (sb_apply (_allow_bound_ops OP_ADD pr))
      end
  end.

(** The first entry with this id leaves the list. *)
Fixpoint remove_entry (l : list AllowlistEntry) (id : string) : option (AllowlistEntry * list AllowlistEntry) :=
  match l with
  | [] => None
  | e :: l' =>
      if decide (al_id e = id) then Some (e, l')
      else match remove_entry l' id with
           | None => None
           | Some (x, l'') => Some (x, e :: l'')
           end
  end.

Definition remove_allowlist_entry (entry_id : string) : M FirewallManager bool :=
  m ← mget;
  match remove_entry (m_allowlist m) entry_id with
  | None => mret false
  | Some (entry, rest) =>
      _ ← mmodify (λ m, set_allowlist m rest);
      _ ← on_store (λ s, let '(r, s') := store_remove entry_id s in
                         (match r with Ok _ => Ok tt | Raise e => Raise e end, s'));
      m ← mget;
      _ ← match _allow_bound_pair entry, m_sets m with
          | Some pr, Some _ =>
              if inb pr (_allow_bound_pairs m None) then mret tt
              else suppress_firewall (on_sets (sb_apply (_allow_bound_ops OP_DELETE pr)))
          | _, _ => mret tt
          end;
      mret true
  end.

Definition pair_keys (els : list ElementState) : list (string * string) :=
  omap (λ e, match el_key e with KPair a b => Some (a, b) | KStr _ => None end) els.

(** [sorted(xs - ys)] *)
Definition sorted_minus (xs ys : list (string * string)) : list (string * string) :=
  py_sorted pair_leb (filter (λ p, p ∉ ys) (dedup xs)).

Fixpoint sync_allowlist_ops (wanted : list (string * string)) (tables : list string)
  : M FirewallManager (list SetOp) :=
  match tables with
  | [] => mret []
  | table :: rest =>
      els ← on_sets (sb_list_set (INET_FAMILY, table, SET_ALLOW_BOUND));
      let live := pair_keys els in
      let ops := ((λ k, allow_bound_op OP_DELETE k table) <$> sorted_minus live wanted)
                 ++ ((λ k, allow_bound_op OP_ADD k table) <$> sorted_minus wanted live) in
      more ← sync_allowlist_ops wanted rest;
      mret (ops ++ more)
  end.

Definition sync_allowlist : M FirewallManager Z :=
  m ← mget;
  match m_sets m with
  | None => mret 0
  | Some _ =>
      ops ← sync_allowlist_ops (_allow_bound_pairs m None) _ALLOW_BOUND_TABLES;
      _ ← on_sets (sb_apply ops);
      mret (Z.of_nat (length ops))
  end.

(** ** Bindings *)

Definition _binding_timeout (m : FirewallManager) (b : Binding) (now : Z) : option Z :=
  match b_source b, b_expires_at b with
  | STATIC, _ | _, None => None
  | LEASE, Some e => Some (Z.max 1 (whole_seconds (e - now) + c_grace_seconds (m_config m)))
  end.

Definition change_ops (m : FirewallManager) (change : BindingChange) (now : Z) : list SetOp :=
  (bc_removed change ≫= (λ b, _binding_ops OP_DELETE b None)) ++
  (bc_added change ≫= (λ b, _binding_ops OP_ADD b (_binding_timeout m b now))).

Definition sync_bindings (change : BindingChange) (now : Z) : M FirewallManager Z :=
  m ← mget;
  match m_sets m with
  | None => mret 0
  | Some _ =>
      if bool_decide (bc_removed change = []) && bool_decide (bc_added change = []) then mret 0
      else
        let ops := change_ops m change now in
        _ ← on_sets (sb_apply ops);
        mret (Z.of_nat (length ops))
  end.

Definition binding_pair (b : Binding) : string * string := (IPv4.to_string (b_ip b), b_mac b).

(** The keys of [bound4]/[macbind] the startup seed wants. *)
Definition binding_wanted (set : string) (bindings : list Binding) (k : ElementKey) : bool :=
  match k with
  | KPair ip mac => bool_decide (set = SET_MACBIND) && inb (ip, mac) (binding_pair <$> bindings)
  | KStr ip => negb (bool_decide (set = SET_MACBIND)) && inb ip ((binding_pair <$> bindings).*1)
  end.

Fixpoint stale_binding_ops (bindings : list Binding) (places : list (string * string * string))
  : M FirewallManager (list SetOp) :=
  match places with
  | [] => mret []
  | (family, table, set) :: rest =>
      els ← on_sets (sb_list_set (family, table, set));
      let ops := (λ e, mk_op OP_DELETE set (el_key e) None table family)
                 <$> filter (λ e, binding_wanted set bindings (el_key e) = false) els in
      more ← stale_binding_ops bindings rest;
      mret (ops ++ more)
  end.

Definition binding_places : list (string * string * string) :=
  _BINDING_TABLES ≫= (λ ft : string * string, [(ft.1, ft.2, SET_MACBIND); (ft.1, ft.2, SET_BOUND4)]).

Definition replace_bindings (bindings : list Binding) (now : Z) : M FirewallManager Z :=
  m ← mget;
  match m_sets m with
  | None => mret 0
  | Some _ =>
      stale ← stale_binding_ops bindings binding_places;
      let ops := stale ++ change_ops m (mk_change bindings bindings) now in
      _ ← on_sets (sb_apply ops);
      mret (Z.of_nat (length ops))
  end.

(** ** Captive portal *)

Definition authorize_portal_client (client_ip : IPv4.t) (timeout : Z) (mac : option string)
  : M FirewallManager unit :=
  m ← mget;
  if negb (IPv4.contains (c_protected_network (m_config m)) client_ip) then
    mraise (FirewallError ("refusing to authorize " +:+ IPv4.to_string client_ip
      +:+ ": not inside the protected network"))
  else on_backend (fb_authorize_portal_client client_ip timeout mac).

Definition deauthorize_portal_client (client_ip : IPv4.t) (mac : option string) : M FirewallManager unit :=
  match mac with
  | Some _ => on_backend (fb_deauthorize_portal_client client_ip mac)
  | None =>
      grants ← try_firewall
                 (gs ← on_backend fb_list_portal_grants;
                  mret (filter (λ g : PortalGrant, g.1 = client_ip) gs))
                 (λ _, mret []);
      let grants := match grants with [] => [(client_ip, None)] | _ => grants end in
      mfold_unit (λ g : PortalGrant, on_backend (fb_deauthorize_portal_client client_ip g.2)) grants
  end.

Definition authorized_portal_grants : M FirewallManager (list PortalGrant) :=
  try_firewall (on_backend fb_list_portal_grants) (λ _, mret []).
Definition authorized_portal_clients : M FirewallManager (list IPv4.t) :=
  try_firewall (on_backend fb_list_portal_clients) (λ _, mret []).

Definition _element_restricts (m : FirewallManager) (rule : FirewallRule) (client_ip : IPv4.t)
  (client_mac : option string) : bool :=
  match _element_of rule with
  | None =>
      match rules_targeting [rule] client_ip (c_protected_network (m_config m)) with
      | [] => false
      | _ => true
      end
  | Some (set, key) =>
      if inb set _IP_KEYED_SETS then bool_decide (key = IPv4.to_string client_ip)
      else match client_mac with
           | Some mac => bool_decide (key = mac)
           | None => match dget (m_targets m) (fr_id rule) with
                     | Some t => rt_ip t =? client_ip
                     | None => false
                     end
           end
  end.

Definition restrictive_rules_matching (m : FirewallManager) (client_ip : IPv4.t) : list FirewallRule :=
  match m_sets m with
  | None => rules_targeting (active_rules m) client_ip (c_protected_network (m_config m))
  | Some _ =>
      filter (λ r : FirewallRule, restrictive (rf_action r)
                && _element_restricts m r client_ip (m_resolver m client_ip) = true) (active_rules m)
  end.

Definition blocking_rules_matching (m : FirewallManager) (client_ip : IPv4.t) : list FirewallRule :=
  filter (λ r : FirewallRule, rf_action r = BLOCK) (restrictive_rules_matching m client_ip).

(** ** Submission *)

Definition register_decision (d : FirewallDecision) : M FirewallManager unit :=
  mmodify (λ m, set_known m (if inb (fd_id d) (m_known m) then m_known m else m_known m ++ [fd_id d])).

Definition _needs_review (m : FirewallManager) (c : CandidateRule) : bool :=
  bool_decide (rf_action c = BLOCK)
  && fle (c_assisted_review_threshold (m_config m)) (default (float_of_Z 0) (rf_threat_score c)).

Definition rejected (c : CandidateRule) (rejection : option ValidationRejection) (now : Z) : SubmissionResult :=
  mk_submission None
    (rule_event now SEV_INFO RULE_REJECTED (cr_id c) (rf_threat_score c) (rf_action c)
      (match rejection with
       | Some r => vr_stage r +:+ ":" +:+ reason_value (vr_reason r)
       | None => "unknown"
       end)).

Definition _shadow (rule : FirewallRule) (now : Z) : M FirewallManager SubmissionResult :=
  let shadowed := rule_with_status rule SHADOWED in
  _ ← put_rule (fr_id rule) shadowed;
  _ ← _record (fr_id rule) (Some VALIDATING) SHADOWED now "shadow mode";
  mret (mk_submission (Some shadowed)
    (rule_event now SEV_INFO RULE_CREATED (fr_id rule) (rf_threat_score rule) (rf_action rule)
      ("[shadow mode] would have " +:+ action_value (rf_action rule) +:+ "ed this traffic"))).

Definition _hold_for_approval (rule : FirewallRule) (now : Z) : M FirewallManager SubmissionResult :=
  let pending := rule_with_status rule PENDING_APPROVAL in
  _ ← put_rule (fr_id rule) pending;
  _ ← _record (fr_id rule) (Some VALIDATING) PENDING_APPROVAL now "assisted mode review";
  mret (mk_submission (Some pending)
    (rule_event now SEV_WARNING RULE_CREATED (fr_id rule) (rf_threat_score rule) (rf_action rule)
      "pending human approval (assisted mode, high-confidence BLOCK)")).

Definition deploy_failed (rule : FirewallRule) (previous : RuleStatus) (sev : EventSeverity) (now : Z)
  (msg : string) : M FirewallManager SubmissionResult :=
  let failed := rule_with_status rule REJECTED in
  _ ← put_rule (fr_id rule) failed;
  _ ← _record (fr_id rule) (Some previous) REJECTED now ("deploy failed: " +:+ msg);
  mret (mk_submission (Some failed)
    (mk_event now sev FIREWALL_ERROR _SUBSYSTEM None None (Some (fr_id rule)) (Some msg))).

Definition deployed_event (rule : FirewallRule) (now : Z) (reason : string) : SecurityEvent :=
  let is_block := bool_decide (rf_action rule = BLOCK) in
  rule_event now (if is_block then SEV_WARNING else SEV_INFO)
    (if is_block then FIREWALL_BLOCK else RULE_DEPLOYED)
    (fr_id rule) (rf_threat_score rule) (rf_action rule) reason.

Definition _deploy (rule : FirewallRule) (now : Z) : M FirewallManager SubmissionResult :=
  let previous := fr_status rule in
  res ← try_firewall (_ ← on_backend (fb_apply_rule rule); mret None) (λ msg, mret (Some msg));
  match res with
  | Some msg => deploy_failed rule previous SEV_ERROR now msg
  | None =>
      let active := rule_deployed rule now in
      _ ← put_rule (fr_id rule) active;
      _ ← _record (fr_id rule) (Some previous) DEPLOYED now "deployed to backend";
      _ ← _record (fr_id rule) (Some DEPLOYED) ACTIVE now "active";
      mret (mk_submission (Some active) (deployed_event rule now (rf_reason rule)))
  end.

Definition _bound_mac_of (m : FirewallManager) (rule : RuleFields) : option string :=
  if negb (IPv4.prefixlen (rf_source rule) =? 32) then None
  else m_resolver m (IPv4.net_addr (rf_source rule)).

Definition _target_for (m : FirewallManager) (rule : RuleFields) : result (option RuleTarget) :=
  let mac := match rf_target rule with Some t => rt_mac t | None => None end in
  let mac := match mac with Some _ => mac | None => _bound_mac_of m rule end in
  device_target rule (c_protected_network (m_config m)) mac.

Definition _active_targets (m : FirewallManager) : list ActiveTarget :=
  omap (λ r, mk_active r <$> dget (m_targets m) (fr_id r)) (active_rules m).

Definition _rate_limit_to_upgrade (m : FirewallManager) (rule : FirewallRule) : option string :=
  match dget (m_targets m) (fr_id rule) with
  | None => None
  | Some target =>
      if negb (bool_decide (rf_action rule = BLOCK)) then None
      else first_some (λ e,
             if bool_decide (rf_action (at_rule e) = RATE_LIMIT) && same_device (at_target e) target
             then Some (fr_id (at_rule e)) else None) (_active_targets m)
  end.

(** The rule an upgrade replaces, while it is still ACTIVE. *)
Definition superseded_rule (m : FirewallManager) (upgrade_of : option string) : option FirewallRule :=
  match upgrade_of ≫= dget (m_rules m) with
  | Some r => if is_active r then Some r else None
  | None => None
  end.

(** The element operations of a deployment and the metadata that remembers
    the element: delete the superseded one, then add the new one. *)
Definition deploy_plan (m : FirewallManager) (rule : FirewallRule) (target : RuleTarget)
  (superseded : option FirewallRule) (now : Z) : result (list SetOp * list (string * string)) :=
  let delete := match superseded with Some s => _delete_ops s | None => [] end in
  match enforcement_set_for (rf_action rule) target with
  | None => Ok (delete, rf_metadata rule)
  | Some set =>
      rbind (element_key set target) (λ key,
      match fr_expires_at rule with
      | None => Raise AssertionError
      | Some e =>
          let timeout := element_timeout_seconds e now (pc_max_ttl_seconds (c_policy (m_config m))) in
          Ok (delete ++ [adaptive_op OP_ADD set (KStr key) (Some timeout)],
              dset (dset (rf_metadata rule) _META_SET set) _META_KEY key)
      end)
  end.

Definition supersede (superseded : option FirewallRule) (by_ : string) (now : Z) : M FirewallManager unit :=
  match superseded with
  | Some s =>
      _ ← put_rule (fr_id s) (rule_with_status s REMOVED);
      _record (fr_id s) (Some ACTIVE) REMOVED now ("upgraded to BLOCK by rule " +:+ by_)
  | None => mret tt
  end.

Definition _deploy_to_sets (rule : FirewallRule) (now : Z) (upgrade_of : option string)
  : M FirewallManager SubmissionResult :=
  m ← mget;
  match dget (m_targets m) (fr_id rule) with
  | None => mraise KeyError
  | Some target =>
      let previous := fr_status rule in
      let named := upgrade_of ≫= dget (m_rules m) in
      let superseded := superseded_rule m upgrade_of in
      plan ← mlift (deploy_plan m rule target superseded now);
      res ← try_firewall (_ ← on_sets (sb_apply plan.1); mret None) (λ msg, mret (Some msg));
      match res with
      | Some msg => deploy_failed rule previous SEV_CRITICAL now msg
      | None =>
          _ ← supersede superseded (fr_id rule) now;
          let active := rule_deployed (rule_with_metadata rule plan.2) now in
          _ ← put_rule (fr_id rule) active;
          _ ← _record (fr_id rule) (Some previous) DEPLOYED now
                ("element added to " +:+ default "None" (enforcement_set_for (rf_action rule) target));
          _ ← _record (fr_id rule) (Some DEPLOYED) ACTIVE now "active";
          mret (mk_submission (Some active)
            (deployed_event rule now
              (match named with
               | None => rf_reason rule
               | Some _ => rf_reason rule +:+ " (upgraded from RATE_LIMIT)"
               end)))
      end
  end.

(** After validation: SHADOW records, ASSISTED may hold, otherwise deploy. *)
Definition _submit_to_sets (c : CandidateRule) (now : Z) : M FirewallManager SubmissionResult :=
  m ← mget;
  target ← mlift (_target_for m c);
  let '(outcome, limiter) := validate_set_candidate c target (m_config m) (m_known m)
        (_active_targets m) (m_allowlist m) (m_limiter m) now (m_local m) in
  _ ← mmodify (λ m, set_limiter m limiter);
  match so_approved outcome, target with
  | true, Some t =>
      let rule := rule_of_candidate c (display_priority (rf_threat_score c)) (Some t) in
      _ ← mmodify (λ m, set_limiter m (rl_record (m_limiter m) now));
      _ ← mmodify (λ m, set_targets m (dset (m_targets m) (fr_id rule) t));
      _ ← _record (fr_id rule) None VALIDATING now "passed the v2 validation chain";
      if decide (m_mode m = MODE_SHADOW) then _shadow rule now
      else if bool_decide (m_mode m = MODE_ASSISTED) && _needs_review m c then _hold_for_approval rule now
      else _deploy_to_sets rule now (so_upgrade_of outcome)
  | _, _ => mret (rejected c (so_rejection outcome) now)
  end.

Definition submit_candidate (c : CandidateRule) (now : Z) : M FirewallManager SubmissionResult :=
  m ← mget;
  match m_sets m with
  | Some _ => _submit_to_sets c now
  | None =>
      let '(outcome, limiter) := validate_candidate_rule c (m_config m) (m_known m) (active_rules m)
            (m_allowlist m) (m_limiter m) now (m_local m) (_bound_mac_of m c) in
      _ ← mmodify (λ m, set_limiter m limiter);
      match vo_approved outcome, vo_priority outcome with
      | true, Some priority =>
          let rule := rule_of_candidate c priority (rf_target c) in
          _ ← mmodify (λ m, set_limiter m (rl_record (m_limiter m) now));
          _ ← _record (fr_id rule) None VALIDATING now "passed full validation chain";
          if decide (m_mode m = MODE_SHADOW) then _shadow rule now
          else if bool_decide (m_mode m = MODE_ASSISTED) && _needs_review m c then _hold_for_approval rule now
          else _deploy rule now
      | _, _ => mret (rejected c (vo_rejection outcome) now)
      end
  end.

Definition approve_pending (id : string) (now : Z) : M FirewallManager (option SubmissionResult) :=
  m ← mget;
  match dget (m_rules m) id with
  | None => mret None
  | Some rule =>
      if negb (bool_decide (fr_status rule = PENDING_APPROVAL)) then mret None
      else
        let approved := rule_with_status rule APPROVED in
        _ ← _record id (Some PENDING_APPROVAL) APPROVED now "approved by administrator";
        res ← match m_sets m with
              | Some _ => _deploy_to_sets approved now (_rate_limit_to_upgrade m approved)
              | None => _deploy approved now
              end;
        mret (Some res)
  end.

Definition reject_pending (id : string) (now : Z) : M FirewallManager (option FirewallRule) :=
  m ← mget;
  match dget (m_rules m) id with
  | None => mret None
  | Some rule =>
      if negb (bool_decide (fr_status rule = PENDING_APPROVAL)) then mret None
      else
        let r := rule_with_status rule REJECTED in
        _ ← put_rule id r;
        _ ← _record id (Some PENDING_APPROVAL) REJECTED now "rejected by administrator";
        mret (Some r)
  end.

(** ** Kill switch, shutdown, panic *)

(** Both loops over [list(self._rules.values())] that retire every ACTIVE
    rule; [undo] is what v1 first asks of the backend. *)
Fixpoint retire_active_loop (undo : string → M FirewallManager unit) (now : Z) (reason : string)
  (rules : list FirewallRule) (removed : Z) : M FirewallManager Z :=
  match rules with
  | [] => mret removed
  | rule :: rest =>
      if negb (is_active rule) then retire_active_loop undo now reason rest removed
      else
        _ ← undo (fr_id rule);
        _ ← put_rule (fr_id rule) (rule_with_status rule REMOVED);
        _ ← _record (fr_id rule) (Some ACTIVE) REMOVED now reason;
        retire_active_loop undo now reason rest (removed + 1)
  end.

Definition _retire_all_active (now : Z) (reason : string) : M FirewallManager Z :=
  m ← mget; retire_active_loop (λ _, mret tt) now reason (dvalues (m_rules m)) 0.

Definition _kill_switch_sets (now : Z) : M FirewallManager SecurityEvent :=
  _ ← mmodify (λ m, set_mode m MODE_SHADOW);
  p1 ← try_firewall (_ ← on_sets (sb_flush_sets ADAPTIVE_ENFORCEMENT_SETS); mret [])
         (λ msg, mret ["flushing the adaptive sets failed: " +:+ msg]);
  p2 ← try_firewall (_ ← on_sets (sb_set_guard_modes ALL_OBSERVE); mret [])
         (λ msg, mret ["setting the guards to observe failed: " +:+ msg]);
  removed ← _retire_all_active now "kill-switch";
  let problems := p1 ++ p2 in
  let reason := "kill-switch activated: " +:+ pretty removed +:+ " active rule(s) reverted, adaptive sets flushed, every static guard set to observe, mode set to SHADOW" in
  mret (event now (match problems with [] => SEV_WARNING | _ => SEV_CRITICAL end) SYSTEM_WARNING
    (match problems with
     | [] => reason
     | p :: ps => reason +:+ "; " +:+ foldl (λ acc q, acc +:+ "; " +:+ q) p ps
     end)).

Definition revert_to_base (now : Z) : M FirewallManager SecurityEvent :=
  m ← mget;
  match m_sets m with
  | Some _ => _kill_switch_sets now
  | None =>
      _ ← mmodify (λ m, set_mode m MODE_SHADOW);
      removed ← retire_active_loop (λ id, suppress_firewall (on_backend (fb_remove_rule id))) now
                  "kill-switch" (dvalues (m_rules m)) 0;
      mret (event now SEV_WARNING SYSTEM_WARNING
        ("kill-switch activated: " +:+ pretty removed +:+ " active rule(s) reverted, mode set to SHADOW"))
  end.

Definition fail_open_shutdown (now : Z) : M FirewallManager SecurityEvent :=
  m ← mget;
  match m_sets m with
  | None => revert_to_base now
  | Some _ =>
      problem ← try_firewall (_ ← on_sets (sb_flush_sets ADAPTIVE_ENFORCEMENT_SETS); mret None)
                  (λ msg, mret (Some ("; flushing the adaptive sets failed: " +:+ msg)));
      removed ← _retire_all_active now "fail-open shutdown";
      mret (event now (match problem with Some _ => SEV_ERROR | None => SEV_INFO end) SYSTEM_WARNING
        ("fail-open shutdown: " +:+ pretty removed +:+ " adaptive rule(s) removed; static guards left as they were"
         +:+ default "" problem))
  end.

Definition panic (actor : string) (now : Z) : M FirewallManager (PanicResult * SecurityEvent) :=
  m ← mget;
  match m_sets m with
  | None => mraise (FirewallError "panic needs the v2 set backend")
  | Some _ =>
      deleted ← on_sets sb_panic;
      _ ← mmodify (λ m, set_mode m MODE_SHADOW);
      removed ← _retire_all_active now ("panic by " +:+ actor);
      let names := (λ ft : string * string, ft.1 +:+ " " +:+ ft.2) <$> deleted in
      mret (mk_panic_result names _RESTORE_COMMAND actor now,
        event now SEV_CRITICAL SYSTEM_WARNING
          ("panic by " +:+ actor +:+ ": deleted " +:+ String.concat ", " names +:+ "; " +:+ pretty removed
           +:+ " rule(s) removed; mode SHADOW. Restore with: " +:+ _RESTORE_COMMAND))
  end.

Definition set_guard_mode (g : GuardName) (mode : GuardMode) (actor : string) (now : Z)
  : M FirewallManager SecurityEvent :=
  m ← mget;
  match m_sets m with
  | None => mraise (FirewallError "guard modes need the v2 set backend")
  | Some _ =>
      _ ← on_sets (sb_set_guard_modes [(g, mode)]);
      mret (event now SEV_WARNING SYSTEM_WARNING
        ("guard " +:+ guard_value g +:+ " set to " +:+ guard_mode_value mode +:+ " by " +:+ actor))
  end.

Fixpoint read_guards (gs : list GuardName) : M FirewallManager (list (GuardName * GuardMode)) :=
  match gs with
  | [] => mret []
  | g :: rest =>
      mode ← on_sets (sb_guard_mode g);
      match mode with
      | None => mraise (FirewallError ("guard verdict chain for " +:+ guard_value g
                  +:+ " is missing (is pirewall_static loaded?)"))
      | Some md => more ← read_guards rest; mret ((g, md) :: more)
      end
  end.

Definition guard_modes : M FirewallManager (list (GuardName * GuardMode)) :=
  m ← mget;
  match m_sets m with
  | None => mraise (FirewallError "guard modes need the v2 set backend")
  | Some _ => read_guards all_guards
  end.

Fixpoint missing_loop (ls : list (string * string)) : M FirewallManager (list (string * string)) :=
  match ls with
  | [] => mret []
  | l :: rest =>
      ok ← on_sets (sb_table_exists l.1 l.2);
      more ← missing_loop rest;
      mret (if (ok : bool) then more else l :: more)
  end.

Definition missing_tables : M FirewallManager (list (string * string)) :=
  m ← mget;
  match m_sets m with None => mret [] | Some _ => missing_loop PANIC_TABLES end.

Definition kernel_set_fill (table set : string) : M FirewallManager (Z * option Z) :=
  m ← mget;
  match m_sets m with
  | None => mraise (FirewallError "set fill needs the v2 set backend")
  | Some _ => on_sets (sb_set_fill (INET_FAMILY, table, set))
  end.

Definition set_fill (set : string) : M FirewallManager (Z * option Z) :=
  m ← mget;
  match m_sets m with
  | None => mraise (FirewallError "set fill needs the v2 set backend")
  | Some _ => on_sets (sb_set_fill (INET_FAMILY, ADAPTIVE_TABLE, set))
  end.

Definition kernel_counters (names : list string) : M FirewallManager (list (string * Z)) :=
  m ← mget;
  match m_sets m with None => mret [] | Some _ => on_sets (sb_read_counters names) end.

(** [key[1].isdigit()] then [int(key[1])] *)
Definition code_of (s : string) : option Z :=
  let l := string_to_list s in
  match l with
  | [] => None
  | _ => if forallb IPv4.is_digit l then Some (IPv4.dec_val 0 l) else None
  end.

Definition kernel_offenders : M FirewallManager (list (string * Z)) :=
  m ← mget;
  match m_sets m with
  | None => mret []
  | Some _ =>
      els ← on_sets (sb_list_set (INET_FAMILY, STATIC_TABLE, SET_OFFENDERS));
      mret (omap (λ e, match el_key e with
                       | KPair mac code => (λ c, (mac, c)) <$> code_of code
                       | KStr _ => None
                       end) els)
  end.

(** ** Reconciliation at startup *)

Definition live_key : Type := string * ElementKey.

Fixpoint collect_live (sets : list string) (live : list (live_key * option Z))
  : M FirewallManager (list (live_key * option Z)) :=
  match sets with
  | [] => mret live
  | s :: rest =>
      els ← on_sets (sb_list_set (INET_FAMILY, ADAPTIVE_TABLE, s));
      collect_live rest
        (foldl (λ acc e, dset acc (s, el_key e) (el_expires_in_seconds e)) live els)
  end.

Definition element_location (rule : FirewallRule) : option live_key :=
  (λ p : string * string, (p.1, KStr p.2)) <$> _element_of rule.

Fixpoint retire_missing (live : list (live_key * option Z)) (now : Z) (rules : list FirewallRule)
  : M FirewallManager (list live_key * list string) :=
  match rules with
  | [] => mret ([], [])
  | rule :: rest =>
      match element_location rule with
      | None => retire_missing live now rest
      | Some loc =>
          if dmem live loc then
            '(known, retired) ← retire_missing live now rest; mret (loc :: known, retired)
          else
            _ ← put_rule (fr_id rule) (rule_with_status rule REMOVED);
            _ ← _record (fr_id rule) (Some ACTIVE) REMOVED now "element not in the kernel at reconcile";
            '(known, retired) ← retire_missing live now rest;
            mret (known, fr_id rule :: retired)
      end
  end.

Definition adopted_rule (m : FirewallManager) (set key : string) (action : FirewallAction) (a : IPv4.t)
  (expires_in : option Z) (now : Z) : FirewallRule :=
  let ttl := default (pc_max_ttl_seconds (c_policy (m_config m))) expires_in in
  mk_rule
    (mk_rule_fields action INBOUND (IPv4.host a) IPv4.whole_internet ANY None None
      ("reconciled from the kernel at startup (" +:+ set +:+ " element left by a previous run)")
      None [] [(_META_SET, set); (_META_KEY, key)] None)
    (_RECONCILED_PREFIX +:+ ":" +:+ set +:+ ":" +:+ key) 0 ACTIVE now (Some (now + seconds ttl)) (Some now).

(** [IPv4Network(f"{key}/32")] raises [ValueError] on a key that is no address. *)
Definition _adopt (set key : string) (expires_in : option Z) (now : Z) : M FirewallManager string :=
  m ← mget;
  match _ACTION_FOR_SET set, IPv4.parse key with
  | None, _ => mraise KeyError
  | _, None => mraise (ValueError "not an IPv4 address")
  | Some action, Some a =>
      let rule := adopted_rule m set key action a expires_in now in
      _ ← put_rule (fr_id rule) rule;
      _ ← mmodify (λ m, set_targets m (dset (m_targets m) (fr_id rule) (mk_target a None)));
      _ ← _record (fr_id rule) None ACTIVE now "reconciled from live set contents";
      mret (fr_id rule)
  end.

Definition live_key_str (k : ElementKey) : string :=
  match k with KStr s => s | KPair _ _ => key_repr k end.

Definition live_leb (p q : live_key * option Z) : bool :=
  pair_leb (p.1.1, live_key_str p.1.2) (q.1.1, live_key_str q.1.2).

Fixpoint adopt_loop (known : list live_key) (now : Z) (live : list (live_key * option Z))
  : M FirewallManager (list string * list (string * string)) :=
  match live with
  | [] => mret ([], [])
  | ((set, key), expires_in) :: rest =>
      if inb (set, key) known then adopt_loop known now rest
      else
        match inb set _IP_KEYED_SETS, key with
        | true, KStr k =>
            id ← _adopt set k expires_in now;
            '(adopted, unattributed) ← adopt_loop known now rest;
            mret (id :: adopted, unattributed)
        | _, _ =>
            '(adopted, unattributed) ← adopt_loop known now rest;
            mret (adopted, (set, live_key_str key) :: unattributed)
        end
  end.

Definition reconcile (now : Z) : M FirewallManager ReconcileReport :=
  m ← mget;
  match m_sets m with
  | None => mret (mk_report [] [] [] [])
  | Some _ =>
      missing ← missing_tables;
      if inb (INET_FAMILY, ADAPTIVE_TABLE) missing then mret (mk_report [] [] [] missing)
      else
        live ← collect_live ADAPTIVE_ENFORCEMENT_SETS [];
        m ← mget;
        '(known, retired) ← retire_missing live now (active_rules m);
        '(adopted, unattributed) ← adopt_loop known now (py_sorted live_leb live);
        mret (mk_report adopted retired unattributed missing)
  end.
End Manager.

Arguments FirewallManager : clear implicits.
