(* ===== verification/Lifecycle.v ===== *)
(** * The rule lifecycle and its audit trail

    What [FirewallManager] promises of its rule records: every transition it
    appends to [transitions] is an edge of the documented lifecycle or one of
    three departures from it that are spelled out, it starts where the
    previous transition of that rule ended, and each rule's status is the one
    its last transition recorded.  The invariant is proved for every public
    method, hence for every reachable manager. *)

From S2P Require Import Prelude Float Net Models RateLimiter Sets SetBackend Backend Validator AllowlistStore Manager.
Local Open Scope Z_scope.

(** ** Edges and audit trails *)

(** The lifecycle as the docstring of firewall/manager.py, docs/ADDENDUM.md and
    docs/FIREWALL.md draw it.  [None] stands for CANDIDATE: the manager has no
    record of the rule yet. *)
Definition documented_edge (from : option RuleStatus) (to : RuleStatus) : bool :=
  match from, to with
  | None, VALIDATING => true
  | Some VALIDATING, (REJECTED | SHADOWED | PENDING_APPROVAL | APPROVED) => true
  | Some PENDING_APPROVAL, (APPROVED | REJECTED) => true
  | Some APPROVED, DEPLOYED => true
  | Some DEPLOYED, ACTIVE => true
  | Some ACTIVE, (EXPIRED | DISABLED | REMOVED) => true
  | _, _ => false
  end.
(** Where the code departs from it: adoption at startup, a deployment the
    backend refused, and a direct deployment, which is recorded without the
    APPROVED step the documents put before it. *)
Definition departure (from : option RuleStatus) (to : RuleStatus) : bool :=
  match from, to with
  | None, ACTIVE => true
  | Some APPROVED, REJECTED => true
  | Some VALIDATING, DEPLOYED => true
  | _, _ => false
  end.
Definition direct_approval (from : option RuleStatus) (to : RuleStatus) : bool :=
  match from, to with Some VALIDATING, APPROVED => true | _, _ => false end.
(** What the manager records: documented edges but for the direct approval,
    which it never takes, and the departures. *)
Definition recorded_edge (from : option RuleStatus) (to : RuleStatus) : bool :=
  (documented_edge from to && negb (direct_approval from to)) || departure from to.

(** The status the last transition of [id] recorded. *)
Definition last_status (ts : list RuleTransition) (id : string) : option RuleStatus :=
  foldl (λ acc t, if decide (tr_rule_id t = id) then Some (tr_to_status t) else acc) None ts.

Inductive audit : list RuleTransition → Prop :=
| audit_nil : audit []
| audit_snoc ts t :
    audit ts → recorded_edge (tr_from_status t) (tr_to_status t) = true →
    (tr_from_status t = last_status ts (tr_rule_id t) ∨
     tr_from_status t = None ∧ tr_to_status t = ACTIVE) →
    audit (ts ++ [t]).

Lemma audit_edges ts t : audit ts → t ∈ ts →
  (documented_edge (tr_from_status t) (tr_to_status t) = true ∨ departure (tr_from_status t) (tr_to_status t) = true) ∧
  (tr_to_status t = APPROVED → tr_from_status t = Some PENDING_APPROVAL).
Proof.
  induction 1 as [|ts t' _ IH He _]; intros Ht; [by apply not_elem_of_nil in Ht|]. apply elem_of_app in Ht as [Ht| ->%list_elem_of_singleton]; [by apply IH|].
  unfold recorded_edge in He. destruct (tr_from_status t') as [[]|], (tr_to_status t'); cbn in *; intuition congruence.
Qed.

Lemma last_status_snoc ts t id :
  last_status (ts ++ [t]) id = if decide (tr_rule_id t = id) then Some (tr_to_status t) else last_status ts id.
Proof. unfold last_status. by rewrite foldl_app. Qed.

(** A run of transitions of one rule, from one status to another. *)
Fixpoint path (id : string) (from : option RuleStatus) (ts : list RuleTransition) (to : option RuleStatus) : Prop :=
  match ts with
  | [] => from = to
  | t :: ts' => tr_rule_id t = id ∧ tr_from_status t = from ∧
                recorded_edge from (tr_to_status t) = true ∧ path id (Some (tr_to_status t)) ts' to
  end.

Lemma audit_path id ts' : ∀ ts to, audit ts → path id (last_status ts id) ts' to →
  audit (ts ++ ts') ∧ last_status (ts ++ ts') id = to ∧
  ∀ id', id' ≠ id → last_status (ts ++ ts') id' = last_status ts id'.
Proof.
  induction ts' as [|t ts' IH]; intros ts to Ha Hp; simpl in Hp.
  { rewrite app_nil_r. naive_solver. }
  destruct Hp as (Hid & Hf & He & Hp). rewrite cons_middle, app_assoc.
  destruct (IH (ts ++ [t]) to) as (H1 & H2 & H3).
  - constructor; [done|by rewrite Hf|]. left. by rewrite Hid.
  - by rewrite last_status_snoc, decide_True.
  - split; [done|]. split; [done|]. intros id' Hne. rewrite H3, last_status_snoc by done.
    rewrite decide_False; [done|]. congruence.
Qed.

Section Lifecycle.
Context {B F : Type} {SB : SetBackend B} {SBL : SetBackendLaws B}.
Context {FB : FirewallBackend F} {FBL : FirewallBackendLaws F}.
Notation FM := (FirewallManager B F).
Implicit Types (m : FM) (id : string).

(** ** What the bookkeeping invariant reads, and what leaves it alone *)

Definition same_core m m' : Prop :=
  m_rules m' = m_rules m ∧ m_transitions m' = m_transitions m ∧ m_targets m' = m_targets m ∧
  (m_sets m' = None ↔ m_sets m = None).

#[export] Instance same_core_preorder : PreOrder same_core.
Proof.
  split; [by intros m|]. intros m1 m2 m3 (?&?&?&?) (?&?&?&?). repeat split; try congruence; tauto.
Qed.

Definition keeps_core {A} (c : M FM A) : Prop := ∀ m, same_core m (c m).2.

Lemma keeps_ret {A} (a : A) : keeps_core (mret a).
Proof. done. Qed.
Lemma keeps_raise {A} e : keeps_core (A:=A) (mraise e).
Proof. done. Qed.
Lemma keeps_get : keeps_core mget.
Proof. done. Qed.
Lemma keeps_bind {A C} (c : M FM A) (k : A → M FM C) :
  keeps_core c → (∀ a, keeps_core (k a)) → keeps_core (x ← c; k x).
Proof.
  intros Hc Hk m. unfold mbind, m_bind. specialize (Hc m).
  destruct (c m) as [[a|e] m']; [|done]. etrans; [exact Hc|apply Hk].
Qed.
Lemma keeps_try {A} (c : M FM A) h :
  keeps_core c → (∀ msg, keeps_core (h msg)) → keeps_core (try_firewall c h).
Proof.
  intros Hc Hh m. unfold try_firewall. specialize (Hc m).
  destruct (c m) as [[a|[]] m']; try done. etrans; [exact Hc|apply Hh].
Qed.
Lemma keeps_on_sets {A} (f : M B A) : keeps_core (on_sets f).
Proof.
  intros m. unfold on_sets. destruct (m_sets m) as [b|] eqn:Hb; [|by repeat split; cbn].
  destruct (f b). repeat split; cbn; congruence.
Qed.
Lemma keeps_on_backend {A} (f : M F A) : keeps_core (on_backend f).
Proof. intros m. unfold on_backend. by destruct (f (m_backend m)). Qed.
Lemma keeps_on_store f : keeps_core (on_store f).
Proof. intros m. unfold on_store. destruct (m_store m); [|done]. by destruct (f a). Qed.
Lemma keeps_modify f : (∀ m, same_core m (f m)) → keeps_core (mmodify f).
Proof. intros Hf m. apply Hf. Qed.
Lemma keeps_fold {A} (f : A → M FM unit) l : (∀ a, keeps_core (f a)) → keeps_core (mfold_unit f l).
Proof. intros Hf. induction l as [|x l IH]; simpl; [done|]. by apply keeps_bind. Qed.
End Lifecycle.

Create HintDb frame.
#[export] Hint Resolve keeps_ret keeps_raise keeps_get keeps_bind keeps_try keeps_on_sets
  keeps_on_backend keeps_on_store keeps_fold : frame.
(** Prove that an operation leaves the bookkeeping alone. *)
Ltac frame_solve :=
  intros; repeat first
    [ progress (cbv beta zeta)
    | apply keeps_ret | apply keeps_raise | apply keeps_get
    | apply keeps_on_sets | apply keeps_on_backend | apply keeps_on_store
    | apply keeps_modify; intros; by repeat split
    | apply keeps_bind; [|intros ?] | apply keeps_try; [|intros ?]
    | match goal with |- keeps_core (match ?x with _ => _ end) => destruct x end
    | apply keeps_fold; intros ?
    | solve [eauto with frame] ].

Section Frame.
Context {B F : Type} {SB : SetBackend B} {SBL : SetBackendLaws B}.
Context {FB : FirewallBackend F} {FBL : FirewallBackendLaws F}.
Notation FM := (FirewallManager B F).

Lemma register_decision_core d : keeps_core (B:=B) (F:=F) (register_decision d).
Proof. frame_solve. Qed.
Lemma adaptive_rules_in_window_core now : keeps_core (B:=B) (F:=F) (adaptive_rules_in_window now).
Proof. intros m. unfold adaptive_rules_in_window. by destruct (count_in_window _ _). Qed.
Lemma backend_health_core : keeps_core (B:=B) (F:=F) backend_health.
Proof. unfold backend_health. frame_solve. Qed.
Lemma add_allowlist_entry_core e : keeps_core (B:=B) (F:=F) (add_allowlist_entry e).
Proof. unfold add_allowlist_entry. frame_solve. Qed.
Lemma remove_allowlist_entry_core i : keeps_core (B:=B) (F:=F) (remove_allowlist_entry i).
Proof. unfold remove_allowlist_entry, suppress_firewall. frame_solve. Qed.
Lemma sync_allowlist_core : keeps_core (B:=B) (F:=F) sync_allowlist.
Proof. unfold sync_allowlist. frame_solve. Qed.
Lemma sync_bindings_core c now : keeps_core (B:=B) (F:=F) (sync_bindings c now).
Proof. unfold sync_bindings. frame_solve. Qed.
Lemma replace_bindings_core bs now : keeps_core (B:=B) (F:=F) (replace_bindings bs now).
Proof. unfold replace_bindings. frame_solve. Qed.
Lemma authorize_portal_client_core ip t mac : keeps_core (B:=B) (F:=F) (authorize_portal_client ip t mac).
Proof. unfold authorize_portal_client. frame_solve. Qed.
Lemma deauthorize_portal_client_core ip mac : keeps_core (B:=B) (F:=F) (deauthorize_portal_client ip mac).
Proof. unfold deauthorize_portal_client. frame_solve. Qed.
Lemma authorized_portal_grants_core : keeps_core (B:=B) (F:=F) authorized_portal_grants.
Proof. unfold authorized_portal_grants. frame_solve. Qed.
Lemma authorized_portal_clients_core : keeps_core (B:=B) (F:=F) authorized_portal_clients.
Proof. unfold authorized_portal_clients. frame_solve. Qed.
Lemma set_guard_mode_core g md a now : keeps_core (B:=B) (F:=F) (set_guard_mode g md a now).
Proof. unfold set_guard_mode. frame_solve. Qed.
Lemma guard_modes_core : keeps_core (B:=B) (F:=F) guard_modes.
Proof. unfold guard_modes. frame_solve. Qed.
Lemma missing_tables_core : keeps_core (B:=B) (F:=F) missing_tables.
Proof. unfold missing_tables. frame_solve. Qed.
Lemma kernel_set_fill_core t s : keeps_core (B:=B) (F:=F) (kernel_set_fill t s).
Proof. unfold kernel_set_fill. frame_solve. Qed.
Lemma set_fill_core s : keeps_core (B:=B) (F:=F) (set_fill s).
Proof. unfold set_fill. frame_solve. Qed.
Lemma kernel_counters_core ns : keeps_core (B:=B) (F:=F) (kernel_counters ns).
Proof. unfold kernel_counters. frame_solve. Qed.
Lemma kernel_offenders_core : keeps_core (B:=B) (F:=F) kernel_offenders.
Proof. unfold kernel_offenders. frame_solve. Qed.
Lemma collect_live_core ss : ∀ l, keeps_core (B:=B) (F:=F) (collect_live ss l).
Proof. induction ss; intros; simpl; frame_solve. Qed.
End Frame.

(** ** The invariant *)

Section Invariant.
Context {B F : Type} {SB : SetBackend B} {SBL : SetBackendLaws B}.
Context {FB : FirewallBackend F} {FBL : FirewallBackendLaws F}.
Notation FM := (FirewallManager B F).
Implicit Types (m : FM) (id : string).

(** One rule id: the record and the trail agree, and a rule waiting for
    approval has what its deployment will need. *)
Definition rule_ok m id : Prop :=
  match dget (m_rules m) id with
  | None => last_status (m_transitions m) id = None
  | Some r =>
      fr_id r = id ∧ last_status (m_transitions m) id = Some (fr_status r) ∧
      (m_sets m ≠ None → fr_status r = PENDING_APPROVAL →
       is_Some (dget (m_targets m) id) ∧ is_Some (fr_expires_at r))
  end.

Definition lc_except (x : option string) m : Prop :=
  audit (m_transitions m) ∧ dwf (m_rules m) ∧ ∀ id, Some id ≠ x → rule_ok m id.

(** The lifecycle invariant. *)
Definition lc m : Prop := lc_except None m.

Lemma rule_ok_core m m' id : same_core m m' → rule_ok m id → rule_ok m' id.
Proof.
  intros (Hr & Ht & Hg & Hs). unfold rule_ok. rewrite Hr, Ht, Hg.
  destruct (dget (m_rules m) id); naive_solver.
Qed.

Lemma lc_core x m m' : same_core m m' → lc_except x m → lc_except x m'.
Proof.
  intros Hc (Ha & Hw & Hok). pose proof Hc as (Hr & Ht & _). split; [by rewrite Ht|].
  split; [by rewrite Hr|]. intros id Hne. eauto using rule_ok_core.
Qed.

(** Recording a run of transitions of one rule together with its record. *)
Lemma lc_advance m m' id r ts :
  lc_except (Some id) m →
  path id (last_status (m_transitions m) id) ts (Some (fr_status r)) → fr_id r = id →
  (m_sets m' ≠ None → fr_status r = PENDING_APPROVAL → is_Some (dget (m_targets m') id) ∧ is_Some (fr_expires_at r)) →
  m_rules m' = dset (m_rules m) id r → m_transitions m' = m_transitions m ++ ts →
  (∀ id', id' ≠ id → dget (m_targets m') id' = dget (m_targets m) id') →
  (m_sets m' = None ↔ m_sets m = None) → lc m'.
Proof.
  intros (Ha & Hw & Hok) Hp Hid Hpend Hr Ht Hg Hs.
  destruct (audit_path _ _ _ _ Ha Hp) as (Ha' & Hlast & Hother).
  split; [by rewrite Ht|]. split; [rewrite Hr; by apply dwf_set|].
  intros id' _. unfold rule_ok. rewrite Hr, Ht, dget_set. case_decide as Heq.
  - subst id'. split; [done|]. split; [done|]. naive_solver.
  - assert (Hok' : rule_ok m id') by (apply Hok; congruence). unfold rule_ok in Hok'.
    rewrite Hother, Hg by done. destruct (dget (m_rules m) id'); naive_solver.
Qed.

(** Recording transitions before the record is updated. *)
Lemma lc_record m m' id ts s :
  lc_except (Some id) m → path id (last_status (m_transitions m) id) ts (Some s) →
  m_rules m' = m_rules m → m_transitions m' = m_transitions m ++ ts →
  (∀ id', id' ≠ id → dget (m_targets m') id' = dget (m_targets m) id') →
  (m_sets m' = None ↔ m_sets m = None) →
  lc_except (Some id) m' ∧ last_status (m_transitions m') id = Some s.
Proof.
  intros (Ha & Hw & Hok) Hp Hr Ht Hg Hs.
  destruct (audit_path _ _ _ _ Ha Hp) as (Ha' & Hlast & Hother).
  split; [|by rewrite Ht]. split; [by rewrite Ht|]. split; [by rewrite Hr|].
  intros id' Hne. assert (Hok' : rule_ok m id') by by apply Hok. unfold rule_ok in *.
  rewrite Hr, Ht, Hother, Hg by congruence. destruct (dget (m_rules m) id'); naive_solver.
Qed.

Lemma lc_weaken m id : lc m → lc_except (Some id) m.
Proof. intros (Ha & Hw & Hok). split; [done|]. split; [done|]. intros id' _. by apply Hok. Qed.

Lemma lc_lookup x m id r :
  lc_except x m → dget (m_rules m) id = Some r → Some id ≠ x →
  fr_id r = id ∧ last_status (m_transitions m) id = Some (fr_status r).
Proof. intros (_ & _ & Hok) Hr Hne. specialize (Hok id Hne). unfold rule_ok in Hok. rewrite Hr in Hok. naive_solver. Qed.

Lemma lc_unknown x m id :
  lc_except x m → dget (m_rules m) id = None → Some id ≠ x → last_status (m_transitions m) id = None.
Proof. intros (_ & _ & Hok) Hr Hne. specialize (Hok id Hne). unfold rule_ok in Hok. by rewrite Hr in Hok. Qed.

Lemma new_manager_lc config backend store sets resolver local :
  lc (new_manager config backend store sets resolver local : FM).
Proof. split; [constructor|]. split; [apply dwf_nil|]. by intros id _. Qed.

(** ** Calls on the backends raise nothing but [FirewallError] *)

Lemma on_sets_apply_raises ops m e m' :
  m_sets m ≠ None → on_sets (sb_apply ops) m = (Raise e, m') → ∃ msg, e = FirewallError msg.
Proof.
  unfold on_sets. destruct (m_sets m) as [b|]; [|done]. intros _.
  destruct (sb_apply ops b) as [r b'] eqn:Hap. apply apply_law in Hap. intros [= -> _]. apply Hap.
Qed.
Lemma on_backend_raises {A} (f : M F A) m e m' :
  raises_firewall_only f → on_backend f m = (Raise e, m') → ∃ msg, e = FirewallError msg.
Proof.
  intros Hf. unfold on_backend. destruct (f (m_backend m)) as [r b'] eqn:Hap.
  intros [= -> _]. by eapply Hf.
Qed.

(** A suppressed call that may only raise [FirewallError] always returns. *)
Lemma suppress_returns (c : M FM unit) m :
  keeps_core c → (∀ e m', c m = (Raise e, m') → ∃ msg, e = FirewallError msg) →
  ∃ m', suppress_firewall c m = (Ok tt, m') ∧ same_core m m'.
Proof.
  intros Hk He. specialize (Hk m). unfold suppress_firewall, try_firewall.
  destruct (c m) as [[[]|e] m'] eqn:Hc; [by eauto|].
  destruct (He _ _ eq_refl) as [msg ->]. by eauto.
Qed.

End Invariant.

(** ** Every method keeps the invariant *)

Section Methods.
Context {B F : Type} {SB : SetBackend B} {SBL : SetBackendLaws B}.
Context {FB : FirewallBackend F} {FBL : FirewallBackendLaws F}.
Notation FM := (FirewallManager B F).
Implicit Types (m : FM) (id : string).

Definition retired_status (s : RuleStatus) : Prop := s = EXPIRED ∨ s = DISABLED ∨ s = REMOVED.

Lemma _delete_element_raises m rule e m' :
  m_sets m ≠ None → _delete_element rule m = (Raise e, m') → ∃ msg, e = FirewallError msg.
Proof.
  intros Hs. unfold _delete_element. destruct (_delete_ops rule) as [|op ops]; [done|].
  by apply on_sets_apply_raises.
Qed.

Lemma _delete_element_core rule : keeps_core (B:=B) (F:=F) (_delete_element rule).
Proof. unfold _delete_element. frame_solve. Qed.

(** Moving one ACTIVE rule to a terminal status. *)
Lemma lc_retire m m' id r to at_ reason :
  lc m → dget (m_rules m) id = Some r → fr_status r = ACTIVE → retired_status to →
  m_rules m' = dset (m_rules m) id (rule_with_status r to) →
  m_transitions m' = m_transitions m ++ [mk_transition id (Some ACTIVE) to at_ reason] →
  m_targets m' = m_targets m → (m_sets m' = None ↔ m_sets m = None) → lc m'.
Proof.
  intros Hlc Hr Hact Hto Hr' Ht Hg Hs.
  destruct (lc_lookup None m id r Hlc Hr) as [Hid Hlast]; [done|].
  eapply lc_advance; [by apply lc_weaken| | | |exact Hr'|exact Ht|by rewrite Hg|done].
  - rewrite Hlast, Hact. simpl. destruct Hto as [-> | [-> | ->]]; done.
  - done.
  - simpl. destruct Hto as [-> | [-> | ->]]; done.
Qed.

(** [_retire_rule] never raises; it retires an ACTIVE rule, does nothing otherwise. *)
Lemma _retire_rule_spec m id to now reason :
  lc m → retired_status to →
  ∃ m', lc m' ∧ m_mode m' = m_mode m ∧
  match dget (m_rules m) id with
  | Some r =>
      if is_active r
      then _retire_rule id to now reason m = (Ok (Some (rule_with_status r to)), m') ∧
           m_rules m' = dset (m_rules m) id (rule_with_status r to)
      else _retire_rule id to now reason m = (Ok None, m') ∧ m' = m
  | None => _retire_rule id to now reason m = (Ok None, m') ∧ m' = m
  end.
Proof.
  intros Hlc Hto. unfold _retire_rule, mbind, m_bind, mget.
  destruct (dget (m_rules m) id) as [r|] eqn:Hr; [|by eauto].
  destruct (is_active r) eqn:Hact; cbn [negb]; [|by eauto].
  assert (Hret : ∃ m1, (suppress_firewall match m_sets m with
              | Some _ => _delete_element r | None => on_backend (fb_remove_rule id) end) m = (Ok tt, m1)
              ∧ same_core m m1 ∧ m_mode m1 = m_mode m).
  { destruct (m_sets m) as [b|] eqn:Hb.
    - destruct (suppress_returns (_delete_element r) m) as (m1 & H1 & H2); [apply _delete_element_core| |].
      { intros e m'. apply _delete_element_raises. by rewrite Hb. }
      exists m1. split; [done|]. split; [done|]. revert H1.
      unfold suppress_firewall, try_firewall, _delete_element.
      destruct (_delete_ops r); [by intros [= <-]|]. unfold on_sets. rewrite Hb.
      destruct (sb_apply _ b) as [[[]|[]] b']; by intros [= <-].
    - destruct (suppress_returns (on_backend (fb_remove_rule id)) m) as (m1 & H1 & H2); [apply keeps_on_backend| |].
      { intros e m'. apply on_backend_raises, fb_remove_rule_errors. }
      exists m1. split; [done|]. split; [done|]. revert H1. unfold suppress_firewall, try_firewall, on_backend.
      destruct (fb_remove_rule id (m_backend m)) as [[[]|[]] b']; by intros [= <-]. }
  destruct Hret as (m1 & Heq & Hcore & Hmode). rewrite Heq. pose proof Hcore as (Hr1 & Ht1 & Hg1 & Hs1).
  eexists. split; [|split; [|split; [reflexivity|]]]; cbn; [|done|by rewrite Hr1].
  unfold is_active in Hact. bool_prop.
  eapply lc_retire with (m := m) (r := r); cbn; try done; by rewrite ?Hr1, ?Ht1.
Qed.

Lemma expire_loop_lc now rules : ∀ m acc, lc m →
  ∃ xs m', expire_loop now rules acc m = (Ok xs, m') ∧ lc m'.
Proof.
  induction rules as [|r rules IH]; intros m acc Hlc; simpl; [by eauto|].
  destruct (is_expired now r); cbn [negb]; [|by apply IH].
  unfold mbind, m_bind.
  destruct (_retire_rule_spec m (fr_id r) EXPIRED now "rule TTL elapsed") as (m1 & Hlc1 & _ & Hspec);
    [done|by left|].
  destruct (dget (m_rules m) (fr_id r)) as [r'|]; [destruct (is_active r')|];
    destruct Hspec as [-> _]; by apply IH.
Qed.

(** What bulk retirement leaves alone. *)
Definition same_env m m' : Prop :=
  m_sets m' = m_sets m ∧ m_mode m' = m_mode m ∧ m_targets m' = m_targets m ∧ m_allowlist m' = m_allowlist m.

Definition undo_ok (undo : string → M FM unit) : Prop :=
  ∀ id m, ∃ m', undo id m = (Ok tt, m') ∧ same_env m m' ∧
                m_rules m' = m_rules m ∧ m_transitions m' = m_transitions m.

Definition removed_if_active (r : FirewallRule) : FirewallRule :=
  if is_active r then rule_with_status r REMOVED else r.

Lemma retire_active_loop_spec undo now reason rules : undo_ok undo → ∀ m n, lc m →
  NoDup (fr_id <$> rules) → (∀ r, r ∈ rules → dget (m_rules m) (fr_id r) = Some r) →
  ∃ m', retire_active_loop undo now reason rules n m =
          (Ok (n + Z.of_nat (length (filter (λ r, is_active r = true) rules))), m') ∧
    lc m' ∧ same_env m m' ∧
    ∀ id, dget (m_rules m') id =
          (if decide (id ∈ fr_id <$> rules) then removed_if_active <$> dget (m_rules m) id
           else dget (m_rules m) id).
Proof.
  intros Hundo. induction rules as [|r rules IH]; intros m n Hlc Hnd Hin.
  { exists m. cbn. rewrite Z.add_0_r. split; [done|]. split; [done|]. split; [by repeat split|]. done. }
  rewrite fmap_cons, NoDup_cons in Hnd. destruct Hnd as [Hnin Hnd].
  cbn [retire_active_loop]. rewrite filter_cons. destruct (is_active r) eqn:Hact; cbn [negb].
  - unfold mbind, m_bind. destruct (Hundo (fr_id r) m) as (m1 & -> & (Hs & Hmd & Hg & Hal) & Hr1 & Ht1). cbn.
    set (m2 := set_transitions _ _).
    assert (Hr2 : m_rules m2 = dset (m_rules m) (fr_id r) (rule_with_status r REMOVED)) by (cbn; by rewrite Hr1).
    destruct (IH m2 (n + 1)) as (m' & -> & Hlc' & (Hs' & Hmd' & Hg' & Hal') & Hres).
    + eapply lc_retire with (m := m) (r := r) (to := REMOVED); try done; cbn;
        [by apply Hin; left|unfold is_active in Hact; by bool_prop|by right; right|by rewrite Ht1|by rewrite Hs].
    + done.
    + intros r' Hr'. rewrite Hr2, dget_set_ne; [apply Hin; by right|].
      intros Heq. apply Hnin. rewrite Heq. by apply list_elem_of_fmap_2.
    + exists m'. rewrite decide_True by done. split; [do 2 f_equal; cbn [length]; lia|]. split; [done|].
      split; [repeat split; cbn in *; congruence|]. intros id. rewrite Hres, Hr2, dget_set.
      destruct (decide (id = fr_id r)) as [->|Hne].
      * rewrite (decide_False (P := _ ∈ fr_id <$> rules)) by done. rewrite !decide_True by (done || set_solver).
        rewrite (Hin r) by set_solver. cbn. unfold removed_if_active. by rewrite Hact.
      * rewrite (decide_False (P := fr_id r = id)) by done.
        destruct (decide (id ∈ fr_id <$> rules)); [rewrite decide_True by set_solver|rewrite decide_False by set_solver]; done.
  - rewrite decide_False by done.
    destruct (IH m n) as (m' & -> & Hlc' & Henv & Hres); [done..|intros; apply Hin; by right|].
    exists m'. split; [done|]. split; [done|]. split; [done|]. intros id. rewrite Hres.
    destruct (decide (id = fr_id r)) as [->|Hne].
    + rewrite decide_False, decide_True by (done || set_solver). rewrite (Hin r) by set_solver. cbn.
      unfold removed_if_active. by rewrite Hact.
    + destruct (decide (id ∈ fr_id <$> rules)); [rewrite decide_True by set_solver|rewrite decide_False by set_solver]; done.
Qed.

(** The snapshot [list(self._rules.values())]. *)
Lemma lc_snapshot m : lc m → NoDup (fr_id <$> dvalues (m_rules m)) ∧
  (∀ r, r ∈ dvalues (m_rules m) → dget (m_rules m) (fr_id r) = Some r) ∧
  ∀ id, id ∈ fr_id <$> dvalues (m_rules m) ↔ is_Some (dget (m_rules m) id).
Proof.
  intros (_ & Hw & Hok).
  assert (Hids : ∀ k r, (k, r) ∈ m_rules m → fr_id r = k).
  { intros k r Hin. specialize (Hok k). unfold rule_ok in Hok. rewrite (dget_elem _ _ _ Hw Hin) in Hok. naive_solver. }
  assert (Heq : fr_id <$> dvalues (m_rules m) = dkeys (m_rules m)).
  { unfold dvalues, dkeys. rewrite <- list_fmap_compose. apply list_fmap_ext. intros i [k r] Hi.
    apply list_elem_of_lookup_2 in Hi. by apply Hids. }
  rewrite Heq. split; [done|]. split; [|intros id; by rewrite dget_is_Some].
  intros r Hr. unfold dvalues in Hr. apply list_elem_of_fmap in Hr as ([k r'] & -> & Hin). cbn.
  rewrite (Hids k r' Hin). by apply dget_elem.
Qed.

Lemma retire_all_spec undo now reason m : undo_ok undo → lc m →
  ∃ m', retire_active_loop undo now reason (dvalues (m_rules m)) 0 m =
          (Ok (Z.of_nat (length (active_rules m))), m') ∧
    lc m' ∧ same_env m m' ∧ ∀ id, dget (m_rules m') id = removed_if_active <$> dget (m_rules m) id.
Proof.
  intros Hu Hlc. destruct (lc_snapshot m Hlc) as (Hnd & Hin & Hdom).
  destruct (retire_active_loop_spec undo now reason (dvalues (m_rules m)) Hu m 0) as (m' & Heq & Hlc' & Henv & Hres);
    [done..|].
  exists m'. rewrite Heq. split; [done|]. split; [done|]. split; [done|]. intros id. rewrite Hres.
  case_decide as Hd; [done|]. rewrite Hdom in Hd. by destruct (dget (m_rules m) id); [destruct Hd|].
Qed.

(** Nothing is ACTIVE once every rule went through [removed_if_active]. *)
Lemma removed_none_active m m' : lc m' →
  (∀ id, dget (m_rules m') id = removed_if_active <$> dget (m_rules m) id) → active_rules m' = [].
Proof.
  intros Hlc Hres. apply filter_none. intros r Hr. destruct (lc_snapshot m' Hlc) as (_ & Hin & _).
  specialize (Hin r Hr). rewrite Hres in Hin. destruct (dget (m_rules m) (fr_id r)) as [r0|]; [|done].
  injection Hin as <-. unfold removed_if_active. destruct (is_active r0) eqn:Ha; [done|]. by rewrite Ha.
Qed.

Lemma undo_nothing : undo_ok (λ _, mret tt).
Proof. intros id m. by exists m. Qed.

Lemma undo_backend : undo_ok (λ id, suppress_firewall (on_backend (fb_remove_rule id))).
Proof.
  intros id m. unfold suppress_firewall, try_firewall, on_backend.
  destruct (fb_remove_rule id (m_backend m)) as [[[]|e] b'] eqn:Hb; [by eexists|].
  apply fb_remove_rule_errors in Hb as [msg ->]. by eexists.
Qed.

(** ** Submissions *)

Lemma deploy_plan_total m rule target superseded now : is_Some (fr_expires_at rule) →
  ∃ ops md, deploy_plan m rule target superseded now = Ok (ops, md).
Proof.
  intros [e He]. unfold deploy_plan.
  destruct (enforcement_set_for (rf_action rule) target) as [set|] eqn:Hset; [|by eauto].
  rewrite (element_key_total _ _ _ Hset). cbn [rbind]. rewrite He. by eauto.
Qed.

(** The rules and transitions a deployment leaves when it replaces [sup]. *)
Definition superseded_rules m (sup : option FirewallRule) : list (string * FirewallRule) :=
  match sup with
  | Some s => dset (m_rules m) (fr_id s) (rule_with_status s REMOVED)
  | None => m_rules m
  end.
Definition superseded_transitions (sup : option FirewallRule) (by_ : string) (now : Z) : list RuleTransition :=
  match sup with
  | Some s => [mk_transition (fr_id s) (Some ACTIVE) REMOVED now ("upgraded to BLOCK by rule " +:+ by_)]
  | None => []
  end.

Definition deployment_transitions (id : string) (previous : RuleStatus) (now : Z) (reason : string) :=
  [mk_transition id (Some previous) DEPLOYED now reason; mk_transition id (Some DEPLOYED) ACTIVE now "active"].

(** One batch on the set backend, then the bookkeeping of its outcome. *)
Lemma _deploy_to_sets_spec m b rule now up target :
  m_sets m = Some b → dget (m_targets m) (fr_id rule) = Some target → is_Some (fr_expires_at rule) →
  let sup := superseded_rule m up in
  ∃ ops md r b', deploy_plan m rule target sup now = Ok (ops, md) ∧ sb_apply ops b = (r, b') ∧
  match r with
  | Ok _ => ∃ ev reason m',
      let active := rule_deployed (rule_with_metadata rule md) now in
      _deploy_to_sets rule now up m = (Ok (mk_submission (Some active) ev), m') ∧
      m_sets m' = Some b' ∧ m_mode m' = m_mode m ∧ m_targets m' = m_targets m ∧
      m_rules m' = dset (superseded_rules m sup) (fr_id rule) active ∧
      m_transitions m' = m_transitions m ++ superseded_transitions sup (fr_id rule) now
                         ++ deployment_transitions (fr_id rule) (fr_status rule) now reason
  | Raise e => ∃ msg ev m',
      let failed := rule_with_status rule REJECTED in
      e = FirewallError msg ∧ ev_severity ev = SEV_CRITICAL ∧
      _deploy_to_sets rule now up m = (Ok (mk_submission (Some failed) ev), m') ∧
      m_sets m' = Some b' ∧ m_mode m' = m_mode m ∧ m_targets m' = m_targets m ∧
      m_rules m' = dset (m_rules m) (fr_id rule) failed ∧
      m_transitions m' = m_transitions m
        ++ [mk_transition (fr_id rule) (Some (fr_status rule)) REJECTED now ("deploy failed: " +:+ msg)]
  end.
Proof.
  intros Hb Ht Hexp sup. destruct (deploy_plan_total m rule target sup now Hexp) as (ops & md & Hplan).
  destruct (sb_apply ops b) as [r b'] eqn:Hap. exists ops, md, r, b'.
  split; [done|]. split; [done|].
  unfold _deploy_to_sets, mbind, m_bind, mget. rewrite Ht. fold sup. unfold mlift. rewrite Hplan.
  unfold try_firewall, on_sets. cbn [fst snd]. rewrite Hb, Hap. destruct r as [[]|e].
  - cbn. unfold supersede. destruct sup as [s|]; cbn; do 3 eexists; (split; [reflexivity|]); cbn;
      rewrite <- ?app_assoc; by repeat split.
  - apply apply_law in Hap as [_ [msg ->]]. cbn. do 3 eexists. split; [done|].
    split; [|split; [reflexivity|]]; [done|]. by repeat split.
Qed.

(** A rule on its way in: its last transition is its status, but its record
    is not written yet. *)
Definition awaiting m (rule : FirewallRule) : Prop :=
  lc_except (Some (fr_id rule)) m ∧ last_status (m_transitions m) (fr_id rule) = Some (fr_status rule).

Definition deployable (s : RuleStatus) : Prop := s = VALIDATING ∨ s = APPROVED.

Lemma superseded_rule_active m up s :
  superseded_rule m up = Some s → ∃ id, up = Some id ∧ dget (m_rules m) id = Some s ∧ fr_status s = ACTIVE.
Proof.
  unfold superseded_rule. destruct up as [id|]; [|done]. cbn.
  destruct (dget (m_rules m) id) as [r|] eqn:Hr; [|done].
  destruct (is_active r) eqn:Ha; [|done]. intros [= <-]. unfold is_active in Ha. bool_prop. eauto.
Qed.

Lemma deployment_path id previous now reason : deployable previous →
  path id (Some previous) (deployment_transitions id previous now reason) (Some ACTIVE).
Proof. by intros [-> | ->]. Qed.

Lemma _deploy_to_sets_lc m rule now up :
  awaiting m rule → deployable (fr_status rule) → m_sets m ≠ None →
  is_Some (dget (m_targets m) (fr_id rule)) → is_Some (fr_expires_at rule) →
  (∀ r, dget (m_rules m) (fr_id rule) = Some r → is_active r = false) →
  ∃ x m', _deploy_to_sets rule now up m = (Ok x, m') ∧ lc m'.
Proof.
  intros [Hlc Hlast] Hd Hs [target Ht] Hexp Hna. destruct (m_sets m) as [b|] eqn:Hb; [|done].
  destruct (_deploy_to_sets_spec m b rule now up target Hb Ht Hexp) as (ops & md & r & b' & _ & _ & Hspec).
  destruct r as [[]|e].
  2: { destruct Hspec as (msg & ev & m' & _ & _ & Heq & Hs' & _ & Hg & Hr & Htr). do 2 eexists.
       split; [exact Heq|]. eapply lc_advance; [exact Hlc| | | |exact Hr|exact Htr|by rewrite Hg|by rewrite Hs', Hb].
       - rewrite Hlast. simpl. destruct Hd as [-> | ->]; done.
       - done.
       - done. }
  destruct Hspec as (ev & reason & m' & Heq & Hs' & _ & Hg & Hr & Htr). do 2 eexists. split; [exact Heq|].
  destruct (superseded_rule m up) as [s|] eqn:Hsup.
  - apply superseded_rule_active in Hsup as (sid & -> & Hsr & Hact).
    assert (Hne : sid ≠ fr_id rule).
    { intros ->. specialize (Hna s Hsr). unfold is_active in Hna. by bool_prop. }
    destruct (lc_lookup _ _ _ _ Hlc Hsr) as [Hsid Hsl]; [congruence|].
    set (m1 := set_rules (set_transitions m (m_transitions m ++ superseded_transitions (Some s) (fr_id rule) now))
                 (superseded_rules m (Some s))).
    assert (Hstep : audit (m_transitions m1) ∧ last_status (m_transitions m1) sid = Some REMOVED ∧
      ∀ id', id' ≠ sid → last_status (m_transitions m1) id' = last_status (m_transitions m) id').
    { apply (audit_path sid); [apply Hlc|]. rewrite Hsl, Hact. by cbn. }
    destruct Hstep as (Ha1 & Hl1 & Ho1).
    assert (Hlc1 : lc_except (Some (fr_id rule)) m1).
    { destruct Hlc as (_ & Hw & Hok). split; [done|]. split; [by apply dwf_set|]. intros id Hid.
      unfold rule_ok. cbn [m1 m_rules set_rules superseded_rules]. rewrite dget_set, Hsid.
      case_decide as Heqid; [subst id; by rewrite Hl1|]. rewrite Ho1 by done.
      specialize (Hok id Hid). unfold rule_ok in Hok. destruct (dget (m_rules m) id); cbn; naive_solver. }
    eapply lc_advance with (m := m1) (ts := deployment_transitions _ (fr_status rule) now reason);
      [exact Hlc1| | | |exact Hr| |by rewrite Hg|by rewrite Hs'; cbn; rewrite Hb].
    + rewrite Ho1, Hlast by done. by apply deployment_path.
    + done.
    + done.
    + rewrite Htr. cbn. by rewrite <- app_assoc.
  - eapply lc_advance; [exact Hlc| | | |exact Hr|exact Htr|by rewrite Hg|by rewrite Hs', Hb].
    + rewrite Hlast. by apply deployment_path.
    + done.
    + done.
Qed.

Lemma put_status_lc m rule to now reason x (sr : SubmissionResult) :
  awaiting m rule → recorded_edge (Some (fr_status rule)) to = true →
  (m_sets m ≠ None → to = PENDING_APPROVAL → is_Some (dget (m_targets m) (fr_id rule)) ∧ is_Some (fr_expires_at rule)) →
  x = (_ ← put_rule (fr_id rule) (rule_with_status rule to);
       _ ← _record (fr_id rule) (Some (fr_status rule)) to now reason; mret sr) m →
  x.1 = Ok sr ∧ lc x.2.
Proof.
  intros [Hlc Hlast] He Hp ->. split; [done|].
  eapply lc_advance; [exact Hlc| | | |reflexivity|reflexivity|done|done]; cbn; [|done|done].
  by rewrite Hlast.
Qed.

Lemma _shadow_lc m rule now : awaiting m rule → fr_status rule = VALIDATING →
  ∃ sr, (_shadow rule now m).1 = Ok sr ∧ lc (_shadow rule now m).2.
Proof.
  intros Haw Hv. eexists. eapply put_status_lc; [exact Haw| | |unfold _shadow; rewrite <- Hv; reflexivity];
    by rewrite ?Hv.
Qed.

Lemma _hold_lc m rule now : awaiting m rule → fr_status rule = VALIDATING →
  (m_sets m ≠ None → is_Some (dget (m_targets m) (fr_id rule))) → is_Some (fr_expires_at rule) →
  ∃ sr, (_hold_for_approval rule now m).1 = Ok sr ∧ lc (_hold_for_approval rule now m).2.
Proof.
  intros Haw Hv Ht He. eexists.
  eapply put_status_lc; [exact Haw| | |unfold _hold_for_approval; rewrite <- Hv; reflexivity];
    [by rewrite Hv|by auto].
Qed.

Lemma _deploy_lc m rule now : awaiting m rule → deployable (fr_status rule) →
  ∃ sr, (_deploy rule now m).1 = Ok sr ∧ lc (_deploy rule now m).2.
Proof.
  intros [Hlc Hlast] Hd. unfold _deploy, mbind, m_bind, try_firewall, on_backend.
  destruct (fb_apply_rule rule (m_backend m)) as [[[]|e] f'] eqn:Hap; cbn.
  - eexists. split; [reflexivity|].
    eapply lc_advance; [exact Hlc| | | |reflexivity| |done|done]; cbn.
    + rewrite Hlast. by apply deployment_path with (reason := "deployed to backend") (now := now).
    + done.
    + done.
    + by rewrite <- app_assoc.
  - apply fb_apply_rule_errors in Hap as [msg ->]. cbn. eexists. split; [reflexivity|].
    eapply lc_advance; [exact Hlc| | | |reflexivity|reflexivity|done|done]; cbn; [|done|done].
    rewrite Hlast. destruct Hd as [-> | ->]; by cbn.
Qed.

(** The rule of an approved candidate, just recorded as VALIDATING. *)
Lemma validated_awaiting m m1 (c : CandidateRule) priority target now reason :
  lc m → dget (m_rules m) (cr_id c) = None →
  m_rules m1 = m_rules m → m_transitions m1 = m_transitions m ++ [mk_transition (cr_id c) None VALIDATING now reason] →
  (∀ id', id' ≠ cr_id c → dget (m_targets m1) id' = dget (m_targets m) id') →
  (m_sets m1 = None ↔ m_sets m = None) →
  awaiting m1 (rule_of_candidate c priority target).
Proof.
  intros Hlc Hnew Hr Ht Hg Hs. unfold awaiting. cbn [rule_of_candidate fr_id fr_status].
  eapply lc_record; [by apply lc_weaken| |exact Hr|exact Ht|done|done].
  rewrite (lc_unknown None m) by done. by cbn.
Qed.

Lemma _submit_to_sets_lc m c now : m_sets m ≠ None → lc m → dget (m_rules m) (cr_id c) = None →
  let '(r, m') := _submit_to_sets c now m in
  lc m' ∧ ((∃ sr, r = Ok sr) ∨ ∃ msg, r = Raise (ValueError msg) ∧ m' = m).
Proof.
  intros Hs Hlc Hnew. unfold _submit_to_sets, mbind, m_bind, mget, mlift.
  destruct (_target_for m c) as [target|e] eqn:Htgt.
  2: { split; [done|]. right. unfold _target_for, device_target in Htgt.
       repeat case_match; try done; injection Htgt as <-; by eauto. }
  destruct (validate_set_candidate _ _ _ _ _ _ _ _ _) as [o l] eqn:Hval. cbn.
  destruct (so_approved o) eqn:Happ; [|by split; [|left; eauto]].
  pose proof (set_approved_stages c target (m_config m) (m_known m) (_active_targets m) (m_allowlist m)
    (m_limiter m) now (m_local m)) as Hst. rewrite Hval in Hst. specialize (Hst Happ).
  destruct Hst as (t & -> & _ & _ & _ & _ & _ & _ & _ & Hexp & _ & _).
  assert (He : is_Some (cr_expires_at c)).
  { unfold _validate_set_expiration in Hexp. by destruct (cr_expires_at c). }
  set (m1 := set_transitions _ _). set (rule := rule_of_candidate c _ _).
  assert (Haw : awaiting m1 rule).
  { eapply (validated_awaiting m); [done|done|done|reflexivity| |done].
    intros id' Hne. cbn. rewrite dget_set, decide_False by done. done. }
  assert (Htg : is_Some (dget (m_targets m1) (fr_id rule))).
  { cbn. rewrite dget_set_eq. by eauto. }
  case_decide.
  { destruct (_shadow_lc m1 rule now Haw) as (sr & H1 & H2); [done|].
    destruct (_shadow rule now m1); cbn in *. split; [done|]. left. eauto. }
  destruct (_ && _).
  { destruct (_hold_lc m1 rule now Haw) as (sr & H1 & H2); [done..|].
    destruct (_hold_for_approval rule now m1); cbn in *. split; [done|]. left. eauto. }
  destruct (_deploy_to_sets_lc m1 rule now (so_upgrade_of o) Haw) as (sr & m' & Heq & Hlc');
    [by left|done|done|done| |].
  { intros r. cbn. rewrite Hnew. done. }
  rewrite Heq. split; [done|]. left. eauto.
Qed.

Lemma submit_candidate_lc m c now : lc m → dget (m_rules m) (cr_id c) = None →
  let '(r, m') := submit_candidate c now m in
  lc m' ∧ ((∃ sr, r = Ok sr) ∨ ∃ msg, r = Raise (ValueError msg) ∧ m' = m).
Proof.
  intros Hlc Hnew. unfold submit_candidate, mbind, m_bind, mget.
  destruct (m_sets m) eqn:Hs; [apply _submit_to_sets_lc; [by rewrite Hs|done..]|].
  destruct (validate_candidate_rule _ _ _ _ _ _ _ _ _) as [o l] eqn:Hval. cbn.
  destruct (vo_approved o) eqn:Happ; [|by split; [|left; eauto]].
  destruct (vo_priority o) as [priority|]; [|by split; [|left; eauto]].
  pose proof (approved_stages c (m_config m) (m_known m) (active_rules m) (m_allowlist m)
    (m_limiter m) now (m_local m) (_bound_mac_of m c)) as Hst. rewrite Hval in Hst.
  destruct (Hst Happ) as (_ & _ & _ & _ & _ & _ & _ & _ & He & _).
  set (m1 := set_transitions _ _). set (rule := rule_of_candidate c _ _).
  assert (Haw : awaiting m1 rule).
  { eapply (validated_awaiting m); [done|done|done|reflexivity|done|done]. }
  case_decide.
  { destruct (_shadow_lc m1 rule now Haw) as (sr & H1 & H2); [done|].
    destruct (_shadow rule now m1); cbn in *. split; [done|]. left. eauto. }
  destruct (_ && _).
  { destruct (_hold_lc m1 rule now Haw) as (sr & H1 & H2); [done|by cbn; rewrite Hs|done|].
    destruct (_hold_for_approval rule now m1); cbn in *. split; [done|]. left. eauto. }
  destruct (_deploy_lc m1 rule now Haw) as (sr & H1 & H2); [by left|].
  destruct (_deploy rule now m1); cbn in *. split; [done|]. left. eauto.
Qed.

Lemma approve_pending_lc m id now : lc m → ∃ x m', approve_pending id now m = (Ok x, m') ∧ lc m'.
Proof.
  intros Hlc. unfold approve_pending, mbind, m_bind, mget.
  destruct (dget (m_rules m) id) as [rule|] eqn:Hr; [|by eauto].
  destruct (bool_decide _) eqn:Hp; cbn [negb]; [|by eauto]. bool_prop.
  destruct (lc_lookup None m id rule Hlc Hr) as [Hid Hlast]; [done|]. cbn.
  set (m1 := set_transitions _ _). set (approved := rule_with_status rule APPROVED).
  assert (Haw : awaiting m1 approved).
  { unfold awaiting. cbn [approved rule_with_status fr_id fr_status]. rewrite Hid.
    eapply lc_record; [by apply lc_weaken| |done|reflexivity|done|done]. rewrite Hlast, Hp. by cbn. }
  pose proof Hlc as (_ & _ & Hok). specialize (Hok id). unfold rule_ok in Hok. rewrite Hr in Hok.
  destruct Hok as (_ & _ & Hpend); [done|].
  destruct (m_sets m) eqn:Hs.
  - destruct Hpend as [Htg He]; [done..|].
    destruct (_deploy_to_sets_lc m1 approved now (_rate_limit_to_upgrade m approved) Haw)
      as (sr & m' & -> & Hlc'); [by right|by cbn; rewrite Hs|by cbn; rewrite Hid|done| |by eauto].
    intros r. cbn. rewrite Hid, Hr. intros [= <-]. unfold is_active. by rewrite Hp.
  - destruct (_deploy_lc m1 approved now Haw) as (sr & H1 & H2); [by right|].
    destruct (_deploy approved now m1) as [r m']; cbn in *. subst r. by eauto.
Qed.

Lemma reject_pending_lc m id now : lc m → ∃ x m', reject_pending id now m = (Ok x, m') ∧ lc m'.
Proof.
  intros Hlc. unfold reject_pending, mbind, m_bind, mget.
  destruct (dget (m_rules m) id) as [rule|] eqn:Hr; [|by eauto].
  destruct (bool_decide _) eqn:Hp; cbn [negb]; [|by eauto]. bool_prop.
  destruct (lc_lookup None m id rule Hlc Hr) as [Hid Hlast]; [done|]. cbn. do 2 eexists. split; [reflexivity|].
  eapply lc_advance; [by apply lc_weaken| | | |reflexivity|reflexivity|done|done]; cbn; [|done|done].
  by rewrite Hlast, Hp.
Qed.

(** ** Reconciliation *)

Lemma retire_missing_lc live now rules : ∀ m, lc m →
  NoDup (fr_id <$> rules) →
  (∀ r, r ∈ rules → dget (m_rules m) (fr_id r) = Some r ∧ fr_status r = ACTIVE) →
  ∃ x m', retire_missing live now rules m = (Ok x, m') ∧ lc m' ∧ m_sets m' = m_sets m.
Proof.
  induction rules as [|r rules IH]; intros m Hlc Hnd Hin; cbn [retire_missing]; [by eauto 6|].
  rewrite fmap_cons, NoDup_cons in Hnd. destruct Hnd as [Hnin Hnd].
  destruct (element_location r) as [loc|]; [|apply IH; [done..|set_solver]].
  unfold mbind, m_bind. destruct (dmem live loc).
  { destruct (IH m) as ([k t] & m' & -> & Hlc' & Hs'); [done..|set_solver|]. by eauto 6. }
  cbn. set (m2 := set_transitions _ _). destruct (Hin r) as [Hr Hact]; [set_solver|].
  destruct (IH m2) as ([k t] & m' & -> & Hlc' & Hs').
  - eapply lc_retire with (m := m) (r := r) (to := REMOVED); try done. by right; right.
  - done.
  - intros r' Hr'. cbn. rewrite dget_set_ne; [apply Hin; set_solver|].
    intros Heq. apply Hnin. rewrite Heq. by apply list_elem_of_fmap_2.
  - by eauto 6.
Qed.

Lemma lc_adopt m m' id r at_ reason :
  lc m → fr_id r = id → fr_status r = ACTIVE → m_rules m' = dset (m_rules m) id r →
  m_transitions m' = m_transitions m ++ [mk_transition id None ACTIVE at_ reason] →
  (∀ id', id' ≠ id → dget (m_targets m') id' = dget (m_targets m) id') →
  (m_sets m' = None ↔ m_sets m = None) → lc m'.
Proof.
  intros (Ha & Hw & Hok) Hid Hact Hr Ht Hg Hs.
  split; [rewrite Ht; by constructor; [| |right]|]. split; [rewrite Hr; by apply dwf_set|].
  intros id' _. unfold rule_ok. rewrite Hr, Ht, last_status_snoc, dget_set. cbn [tr_rule_id tr_to_status].
  case_decide as Heq; [subst; rewrite Hact; naive_solver|].
  specialize (Hok id'). unfold rule_ok in Hok. rewrite Hg by done. destruct (dget (m_rules m) id'); naive_solver.
Qed.

Lemma _adopt_lc set key ex now m : lc m → lc (_adopt set key ex now m).2.
Proof.
  intros Hlc. unfold _adopt, mbind, m_bind, mget.
  destruct (_ACTION_FOR_SET set) as [a|]; [|done]. destruct (IPv4.parse key) as [ip|]; [|done].
  eapply lc_adopt with (r := adopted_rule m set key a ip ex now); [exact Hlc|reflexivity|done|reflexivity|reflexivity| |done].
  intros id' Hne. cbn [snd mmodify mret m_ret put_rule _record m_targets set_targets set_transitions set_rules].
  by rewrite dget_set, decide_False.
Qed.

Lemma adopt_loop_lc known now live : ∀ m, lc m → lc (adopt_loop known now live m).2.
Proof.
  induction live as [|[[set key] ex] live IH]; intros m Hlc; cbn [adopt_loop]; [done|].
  destruct (inb (set, key) known); [by apply IH|].
  assert (Hplain : ∀ u, lc ((p ← adopt_loop known now live; mret (p.1, u :: p.2)) m).2).
  { intros u. specialize (IH m Hlc). unfold mbind, m_bind. by destruct (adopt_loop known now live m) as [[[]|]]. }
  assert (Hplain' : ∀ u, lc (('(a, n) ← adopt_loop known now live; mret (a, u :: n)) m).2).
  { intros u. specialize (Hplain u). unfold mbind, m_bind in *.
    by destruct (adopt_loop known now live m) as [[[]|]]. }
  destruct (inb set _IP_KEYED_SETS); [|apply Hplain']. destruct key as [k|]; [|apply Hplain'].
  pose proof (_adopt_lc set k ex now m Hlc) as Had. unfold mbind, m_bind in *.
  destruct (_adopt set k ex now m) as [[i|] m1]; [|done]. specialize (IH m1 Had).
  by destruct (adopt_loop known now live m1) as [[[]|]].
Qed.

Lemma active_rules_snapshot m : lc m → NoDup (fr_id <$> active_rules m) ∧
  ∀ r, r ∈ active_rules m → dget (m_rules m) (fr_id r) = Some r ∧ fr_status r = ACTIVE.
Proof.
  intros Hlc. destruct (lc_snapshot m Hlc) as (Hnd & Hin & _). unfold active_rules. split.
  - eapply sublist_NoDup; [exact Hnd|]. apply fmap_sublist, sublist_filter.
  - intros r. rewrite list_elem_of_filter. intros [Ha Hr]. unfold is_active in Ha. bool_prop. auto.
Qed.

Lemma reconcile_lc now m : lc m → lc (reconcile now m).2.
Proof.
  intros Hlc. unfold reconcile, mbind, m_bind, mget. destruct (m_sets m); [|done].
  pose proof (missing_tables_core m) as Hc0. destruct (missing_tables m) as [[missing|] m0]; cbn in Hc0;
    [|by eapply lc_core]. assert (Hlc0 : lc m0) by by eapply lc_core.
  destruct (inb _ missing); [done|].
  pose proof (collect_live_core ADAPTIVE_ENFORCEMENT_SETS [] m0) as Hc1.
  destruct (collect_live _ _ m0) as [[live|] m1]; cbn in Hc1; [|by eapply lc_core].
  assert (Hlc1 : lc m1) by by eapply lc_core.
  destruct (active_rules_snapshot m1 Hlc1) as [Hnd Hin].
  destruct (retire_missing_lc live now (active_rules m1) m1) as ([known retired] & m2 & -> & Hlc2 & _); [done..|].
  pose proof (adopt_loop_lc known now (py_sorted live_leb live) m2 Hlc2) as H3.
  by destruct (adopt_loop known now (py_sorted live_leb live) m2) as [[[]|]].
Qed.
End Methods.

(** * Kill switch, fail-open shutdown, panic and guard flips

    What the emergency controls of [FirewallManager] leave in the kernel and
    in the manager, for any set backend that meets its contract, whether or
    not the kernel accepts the writes. *)

Local Open Scope Z_scope.

(** The addresses of the four enforcement sets. *)
Definition enforcement_addresses : list set_address := adaptive_address <$> ADAPTIVE_ENFORCEMENT_SETS.

Definition enforcement_empty (v : kernel_view) : Prop :=
  ∀ a k, a ∈ enforcement_addresses → kv_elem v a k = None.

(** Only the enforcement sets may differ. *)
Definition enforcement_only (v v' : kernel_view) : Prop :=
  kv_now v' = kv_now v ∧ (∀ a k, a ∉ enforcement_addresses → kv_elem v' a k = kv_elem v a k) ∧
  ∀ l, kv_table v' l = kv_table v l.

#[global] Instance enforcement_only_preorder : PreOrder enforcement_only.
Proof.
  split; [by intros v|]. intros v1 v2 v3 (N1 & E1 & T1) (N2 & E2 & T2).
  repeat split; [congruence|intros; rewrite E2, E1; done|intros; by rewrite T2, T1].
Qed.

Lemma view_eq_enforcement_only v w : view_eq w v → enforcement_only v w.
Proof. intros (?&?&?&?). by repeat split. Qed.

Section Emergency.
Context {B F : Type} {SB : SetBackend B} {SBL : SetBackendLaws B}.
Context {FB : FirewallBackend F} {FBL : FirewallBackendLaws F}.
Notation FM := (FirewallManager B F).
Implicit Types (m : FM) (b : B).

(** Flushing the enforcement sets inside a [try]. *)
Lemma try_flush_spec {C} (x : C) (h : string → C) m b :
  m_sets m = Some b →
  ∃ y b', try_firewall (_ ← on_sets (sb_flush_sets ADAPTIVE_ENFORCEMENT_SETS); mret x) (λ msg, mret (h msg)) m
            = (Ok y, set_sets m (Some b')) ∧
    enforcement_only (sb_view b) (sb_view b') ∧ (∀ g, kv_guard (sb_view b') g = kv_guard (sb_view b) g) ∧
    ((y = x ∧ enforcement_empty (sb_view b')) ∨ ∃ msg, y = h msg).
Proof.
  intros Hb. unfold try_firewall, mbind, m_bind, on_sets. rewrite Hb.
  destruct (sb_flush_sets _ b) as [[[]|e] b'] eqn:Hf; apply flush_law in Hf.
  - destruct Hf as (Hn & He & Hg & Ht). exists x, b'. split; [done|]. split.
    { repeat split; [done| |done]. intros a k Ha. by rewrite He, decide_False. }
    split; [done|]. left. split; [done|]. intros a k Ha. by rewrite He, decide_True.
  - destruct Hf as [Hv [msg ->]]. exists (h msg), b'. split; [done|].
    split; [by apply view_eq_enforcement_only|]. split; [apply Hv|]. right. by eauto.
Qed.

Lemma ALL_OBSERVE_get g : dget ALL_OBSERVE g = Some OBSERVE.
Proof. by destruct g. Qed.

(** Setting every guard to observe inside a [try]. *)
Lemma try_observe_spec {C} (x : C) (h : string → C) m b :
  m_sets m = Some b →
  ∃ y b', try_firewall (_ ← on_sets (sb_set_guard_modes ALL_OBSERVE); mret x) (λ msg, mret (h msg)) m
            = (Ok y, set_sets m (Some b')) ∧
    (∀ a k, kv_elem (sb_view b') a k = kv_elem (sb_view b) a k) ∧ enforcement_only (sb_view b) (sb_view b') ∧
    ((y = x ∧ ∀ g, kv_guard (sb_view b') g = Some OBSERVE) ∨ ∃ msg, y = h msg).
Proof.
  intros Hb. unfold try_firewall, mbind, m_bind, on_sets. rewrite Hb.
  destruct (sb_set_guard_modes _ b) as [[[]|e] b'] eqn:Hf; apply guards_law in Hf.
  - destruct Hf as (Hn & He & Hg & _ & Ht). exists x, b'. split; [done|]. split; [done|].
    split; [by repeat split|]. left. split; [done|]. intros g. apply Hg; [apply ALL_OBSERVE_get|].
    apply (bool_decide_unpack _). by vm_compute.
  - destruct Hf as [Hv [msg ->]]. exists (h msg), b'. split; [done|]. split; [apply Hv|].
    split; [by apply view_eq_enforcement_only|]. right. by eauto.
Qed.

Lemma lc_set_sets m b b' : m_sets m = Some b → lc m → lc (set_sets m (Some b')).
Proof. intros Hb. apply lc_core. repeat split; cbn; congruence. Qed.

Lemma lc_set_mode m md : lc m → lc (set_mode m md).
Proof. apply lc_core. by repeat split. Qed.

Lemma _kill_switch_sets_spec m b now : lc m → m_sets m = Some b →
  ∃ ev m' b', _kill_switch_sets now m = (Ok ev, m') ∧ lc m' ∧ m_mode m' = MODE_SHADOW ∧
    active_rules m' = [] ∧ m_sets m' = Some b' ∧ m_allowlist m' = m_allowlist m ∧
    enforcement_only (sb_view b) (sb_view b') ∧
    ((ev_severity ev = SEV_WARNING ∧ enforcement_empty (sb_view b') ∧
      ∀ g, kv_guard (sb_view b') g = Some OBSERVE) ∨ ev_severity ev = SEV_CRITICAL).
Proof.
  intros Hlc Hb. unfold _kill_switch_sets, mbind, m_bind at 1, mmodify.
  set (m0 := set_mode m MODE_SHADOW).
  destruct (try_flush_spec [] (λ msg, ["flushing the adaptive sets failed: " +:+ msg]) m0 b) as
    (p1 & b1 & E1 & Ho1 & _ & Hp1); [done|].
  destruct (try_observe_spec [] (λ msg, ["setting the guards to observe failed: " +:+ msg])
    (set_sets m0 (Some b1)) b1) as (p2 & b2 & E2 & He2 & Ho2 & Hp2); [done|].
  unfold mbind, m_bind in E1, E2. unfold m_bind at 1. unfold mbind, m_bind in *. rewrite E1, E2.
  set (m2 := set_sets _ (Some b2)).
  assert (Hlc2 : lc m2) by (eapply lc_set_sets, lc_set_sets, lc_set_mode; done).
  unfold _retire_all_active, mbind, m_bind, mget.
  destruct (retire_all_spec (λ _, mret tt) now "kill-switch" m2 undo_nothing Hlc2)
    as (m' & -> & Hlc' & (Hs & Hm & _ & Hal) & Hres).
  do 3 eexists. split; [reflexivity|]. split; [done|]. split; [by rewrite Hm|].
  split; [by eapply removed_none_active|]. split; [by rewrite Hs|]. split; [by rewrite Hal|].
  split; [by etrans|]. cbn [ev_severity event].
  destruct Hp1 as [[-> Hem]|[? ->]]; [|by right]. destruct Hp2 as [[-> Hg]|[? ->]]; [|by right].
  left. split; [done|]. split; [|done]. intros a k Ha. rewrite He2. by apply Hem.
Qed.

Lemma fail_open_shutdown_spec m b now : lc m → m_sets m = Some b →
  ∃ ev m' b', fail_open_shutdown now m = (Ok ev, m') ∧ lc m' ∧ m_mode m' = m_mode m ∧
    active_rules m' = [] ∧ m_sets m' = Some b' ∧
    enforcement_only (sb_view b) (sb_view b') ∧ (∀ g, kv_guard (sb_view b') g = kv_guard (sb_view b) g) ∧
    ((ev_severity ev = SEV_INFO ∧ enforcement_empty (sb_view b')) ∨ ev_severity ev = SEV_ERROR).
Proof.
  intros Hlc Hb. unfold fail_open_shutdown.
  destruct (try_flush_spec None (λ msg, Some ("; flushing the adaptive sets failed: " +:+ msg)) m b) as
    (p1 & b1 & E1 & Ho1 & Hg1 & Hp1); [done|].
  unfold mbind, m_bind, mget in *. rewrite Hb, E1.
  unfold _retire_all_active, mbind, m_bind, mget.
  assert (Hlc1 : lc (set_sets m (Some b1))) by (by eapply lc_set_sets).
  destruct (retire_all_spec (λ _, mret tt) now "fail-open shutdown" _ undo_nothing Hlc1)
    as (m' & -> & Hlc' & (Hs & Hm & _ & _) & Hres).
  do 3 eexists. split; [reflexivity|]. split; [done|]. split; [by rewrite Hm|].
  split; [by eapply removed_none_active|]. split; [by rewrite Hs|]. split; [done|]. split; [done|].
  cbn [ev_severity event]. destruct Hp1 as [[-> Hem]|[? ->]]; [by left|by right].
Qed.

Lemma panic_spec m b actor now : lc m → m_sets m = Some b →
  ∃ m' b', lc m' ∧ m_sets m' = Some b' ∧
  ((∃ pr ev, panic actor now m = (Ok (pr, ev), m') ∧ m_mode m' = MODE_SHADOW ∧ active_rules m' = [] ∧
      ev_severity ev = SEV_CRITICAL ∧ pr_actor pr = actor ∧
      pr_deleted_tables pr = ["inet pirewall_adaptive"; "inet pirewall_static"; "arp pirewall_static_arp"] ∧
      (∀ l, kv_table (sb_view b') l = (if decide (l ∈ PANIC_TABLES) then false else kv_table (sb_view b) l)) ∧
      (∀ a k, address_table a ∉ PANIC_TABLES → kv_elem (sb_view b') a k = kv_elem (sb_view b) a k)) ∨
   (∃ msg, panic actor now m = (Raise (FirewallError msg), m') ∧ m' = set_sets m (Some b') ∧
      view_eq (sb_view b') (sb_view b))).
Proof.
  intros Hlc Hb. unfold panic, mbind, m_bind, mget. rewrite Hb. unfold on_sets. rewrite Hb.
  destruct (sb_panic b) as [[deleted|e] b'] eqn:Hp; apply panic_law in Hp.
  - destruct Hp as (-> & Hn & He & Ht & _). cbn [mmodify].
    set (m1 := set_mode _ _).
    assert (Hlc1 : lc m1) by (eapply lc_set_mode, lc_set_sets; done).
    unfold _retire_all_active, mbind, m_bind, mget.
    destruct (retire_all_spec (λ _, mret tt) now ("panic by " +:+ actor) m1 undo_nothing Hlc1)
      as (m' & -> & Hlc' & (Hs & Hm & _ & _) & Hres).
    exists m', b'. split; [done|]. split; [by rewrite Hs|]. left. do 2 eexists. split; [reflexivity|].
    split; [by rewrite Hm|]. split; [by eapply removed_none_active|]. split; [done|]. split; [done|].
    split; [done|]. split; [done|]. intros a k Ha. by rewrite He, decide_False.
  - destruct Hp as [Hv [msg ->]]. exists (set_sets m (Some b')), b'.
    split; [by eapply lc_set_sets|]. split; [done|]. right. by eauto.
Qed.

(** ** Guard modes read back *)

Lemma read_guards_spec gs : ∀ m b, m_sets m = Some b →
  match (read_guards (F := F) gs m).1 with
  | Ok l => ∀ g, dget l g = if inb g gs then kv_guard (sb_view b) g else None
  | Raise e => ∃ msg, e = FirewallError msg
  end.
Proof.
  induction gs as [|g gs IH]; intros m b Hb; cbn [read_guards]; [done|].
  unfold mbind, m_bind, on_sets. rewrite Hb. destruct (sb_guard_mode g b) as [r b1] eqn:Hr.
  apply guard_mode_law in Hr as [(_ & _ & Hg & _) Hr].
  assert (Hcase : r = Ok None ∨ ∃ md, r = Ok (Some md) ∧ kv_guard (sb_view b) g = Some md).
  { destruct Hr as [-> | ->]; [|by left]. destruct (kv_guard (sb_view b) g) as [md|]; [right; by exists md|by left]. }
  destruct Hcase as [-> | (md & -> & Hmd)]; [by eexists|].
  specialize (IH (set_sets m (Some b1)) b1 eq_refl). destruct (read_guards gs _) as [[l|e] m2]; cbn [fst] in *; [|done].
  unfold mret, m_ret. cbn [fst]. intros g'. cbn [dget]. case_decide as Hgg.
  - subst g'. rewrite (proj2 (inb_true g (g :: gs))) by set_solver. by rewrite Hmd.
  - rewrite IH, Hg. destruct (inb g' gs) eqn:Hin.
    + apply inb_true in Hin. by rewrite (proj2 (inb_true g' (g :: gs))) by set_solver.
    + apply inb_false in Hin. by rewrite (proj2 (inb_false g' (g :: gs))) by set_solver.
Qed.

Lemma guard_modes_spec m b : m_sets m = Some b →
  match (guard_modes (F := F) m).1 with
  | Ok l => ∀ g, dget l g = kv_guard (sb_view b) g
  | Raise e => ∃ msg, e = FirewallError msg
  end.
Proof.
  intros Hb. unfold guard_modes, mbind, m_bind, mget. rewrite Hb. pose proof (read_guards_spec all_guards m b Hb) as Hr.
  destruct (read_guards all_guards m) as [[l|e] m2]; cbn [fst] in *; [|done]. intros g. rewrite Hr. by destruct g.
Qed.

Lemma read_guards_view gs : ∀ m b r m', m_sets m = Some b → read_guards (F := F) gs m = (r, m') →
  ∃ b', m_sets m' = Some b' ∧ view_eq (sb_view b') (sb_view b).
Proof.
  induction gs as [|g gs IH]; intros m b r m' Hb; cbn [read_guards]; [intros [= <- <-]; by exists b|].
  unfold mbind, m_bind, on_sets. rewrite Hb. destruct (sb_guard_mode g b) as [r0 b1] eqn:Hr. apply guard_mode_law in Hr as [Hv Hr].
  assert (Hstop : ∃ b', m_sets (set_sets m (Some b1)) = Some b' ∧ view_eq (sb_view b') (sb_view b)) by (by exists b1).
  destruct r0 as [[md|]|e]; [|intros [= <- <-]; exact Hstop..]. destruct (read_guards gs (set_sets m (Some b1))) as [r1 m1] eqn:Hg.
  destruct (IH (set_sets m (Some b1)) b1 _ _ eq_refl Hg) as (b2 & Hb2 & Hv2). intros Heq. assert (Hm : m' = m1) by (destruct r1; by injection Heq).
  subst m'. exists b2. split; [done|]. by rewrite Hv2.
Qed.

(** The event of a panic names the one who asked for it. *)
Lemma panic_event actor now m pr ev m' : panic (B := B) (F := F) actor now m = (Ok (pr, ev), m') →
  ∃ what, ev = event now SEV_CRITICAL SYSTEM_WARNING ("panic by " +:+ actor +:+ ": " +:+ what).
Proof.
  unfold panic, mbind, m_bind, mget. destruct (m_sets m); [|done]. destruct (on_sets sb_panic m) as [[deleted|e] m1]; [|done].
  cbn [mmodify]. destruct (_retire_all_active _ _ _) as [[removed|e] m2]; [|done]. intros [= <- <- <-]. eexists. reflexivity.
Qed.
(** A guard flip that succeeds: the kernel's mode, and the event. *)
Lemma set_guard_mode_done_spec g md actor now m ev m' : set_guard_mode (B := B) (F := F) g md actor now m = (Ok ev, m') →
  ev = event now SEV_WARNING SYSTEM_WARNING ("guard " +:+ guard_value g +:+ " set to " +:+ guard_mode_value md +:+ " by " +:+ actor) ∧
  ∃ b', m_sets m' = Some b' ∧ kv_guard (sb_view b') g = Some md.
Proof.
  unfold set_guard_mode, mbind, m_bind, mget, on_sets. cbn beta iota. destruct (m_sets m) as [b|] eqn:Hb; [rewrite Hb|done].
  destruct (sb_set_guard_modes [(g, md)] b) as [[[]|e] b'] eqn:Hg; [|done]. apply guards_law in Hg as (_ & _ & Hs & _). intros [= <- <-].
  split; [done|]. exists b'. split; [done|]. apply Hs; [cbn; by rewrite decide_True|apply NoDup_singleton].
Qed.
End Emergency.
