(* ===== verification/Reachable.v ===== *)
(** * Reachable managers

    The manager as a transition system: one step per public method, under
    the one assumption that a submitted candidate carries an id the manager
    has not seen (the source draws it with [uuid4]).  The lifecycle invariant
    holds of every reachable manager. *)

From S2P Require Import Prelude Float Net Models RateLimiter Sets SetBackend Backend Validator AllowlistStore Manager Lifecycle.
Local Open Scope Z_scope.

Section Reachable.
Context {B F : Type} {SB : SetBackend B} {SBL : SetBackendLaws B}.
Context {FB : FirewallBackend F} {FBL : FirewallBackendLaws F}.
Notation FM := (FirewallManager B F).
Implicit Types (m : FM) (id : string).

(** One call at an instant *)
Inductive mstep_at (now : Z) : FM → FM → Prop :=
| step_submit c m : get_rule m (cr_id c) = None → mstep_at now m (submit_candidate c now m).2
| step_approve id m : mstep_at now m (approve_pending id now m).2
| step_reject id m : mstep_at now m (reject_pending id now m).2
| step_disable id m : mstep_at now m (disable_rule id now m).2
| step_remove id m : mstep_at now m (remove_rule id now m).2
| step_expire m : mstep_at now m (expire_rules now m).2
| step_kill m : mstep_at now m (revert_to_base now m).2
| step_fail_open m : mstep_at now m (fail_open_shutdown now m).2
| step_panic actor m : mstep_at now m (panic actor now m).2
| step_reconcile m : mstep_at now m (reconcile now m).2
| step_register d m : mstep_at now m (register_decision d m).2
| step_window m : mstep_at now m (adaptive_rules_in_window now m).2
| step_health m : mstep_at now m (backend_health m).2
| step_allow e m : mstep_at now m (add_allowlist_entry e m).2
| step_disallow i m : mstep_at now m (remove_allowlist_entry i m).2
| step_sync_allow m : mstep_at now m (sync_allowlist m).2
| step_sync_bindings c m : mstep_at now m (sync_bindings c now m).2
| step_replace_bindings bs m : mstep_at now m (replace_bindings bs now m).2
| step_authorize ip t mac m : mstep_at now m (authorize_portal_client ip t mac m).2
| step_deauthorize ip mac m : mstep_at now m (deauthorize_portal_client ip mac m).2
| step_grants m : mstep_at now m (authorized_portal_grants m).2
| step_clients m : mstep_at now m (authorized_portal_clients m).2
| step_guard g md actor m : mstep_at now m (set_guard_mode g md actor now m).2
| step_guards m : mstep_at now m (guard_modes m).2
| step_missing m : mstep_at now m (missing_tables m).2
| step_fill t s m : mstep_at now m (kernel_set_fill t s m).2
| step_set_fill s m : mstep_at now m (set_fill s m).2
| step_counters ns m : mstep_at now m (kernel_counters ns m).2
| step_offenders m : mstep_at now m (kernel_offenders m).2.
Definition mstep (m m' : FM) : Prop := ∃ now, mstep_at now m m'.

(** Some manager came up and served some calls. *)
Definition reachable m : Prop :=
  ∃ config backend store sets resolver local,
    rtc mstep (new_manager config backend store sets resolver local) m.

Lemma reachable_new config backend store sets resolver local :
  reachable (new_manager config backend store sets resolver local).
Proof. do 6 eexists. apply rtc_refl. Qed.

Lemma reachable_step m m' : reachable m → mstep m m' → reachable m'.
Proof. intros (config & backend & store & sets & resolver & local & Hrtc) Hst. do 6 eexists. by eapply rtc_r. Qed.

Lemma retire_rule_lc m id to now reason : lc m → retired_status to → lc (_retire_rule id to now reason m).2.
Proof.
  intros Hlc Hto. destruct (_retire_rule_spec m id to now reason Hlc Hto) as (m' & Hlc' & _ & Hspec).
  destruct (dget (m_rules m) id) as [r|]; [destruct (is_active r)|]; by destruct Hspec as [-> _].
Qed.

Lemma revert_to_base_v1_spec m now : lc m → m_sets m = None →
  ∃ ev m', revert_to_base now m = (Ok ev, m') ∧ lc m' ∧ m_mode m' = MODE_SHADOW ∧ active_rules m' = [].
Proof.
  intros Hlc Hs. unfold revert_to_base, mbind, m_bind, mget, mmodify. rewrite Hs.
  destruct (retire_all_spec _ now "kill-switch" (set_mode m MODE_SHADOW) undo_backend (lc_set_mode _ _ Hlc))
    as (m' & Heq & Hlc' & (_ & Hm & _) & Hres). cbn [m_rules set_mode] in Heq. rewrite Heq.
  do 2 eexists. split; [reflexivity|]. split; [done|]. split; [by rewrite Hm|]. by eapply removed_none_active.
Qed.

Lemma revert_to_base_lc m now : lc m → lc (revert_to_base now m).2.
Proof.
  intros Hlc. destruct (m_sets m) as [b|] eqn:Hs.
  - destruct (_kill_switch_sets_spec m b now Hlc Hs) as (ev & m' & b' & Heq & Hlc' & _).
    unfold revert_to_base, mbind, m_bind, mget. rewrite Hs. by rewrite Heq.
  - by destruct (revert_to_base_v1_spec m now Hlc Hs) as (ev & m' & -> & Hlc' & _).
Qed.

Lemma mstep_lc m m' : mstep m m' → lc m → lc m'.
Proof.
  intros [now Hst] Hlc. destruct Hst;
    try (eapply lc_core; [|exact Hlc];
         solve [apply register_decision_core|apply adaptive_rules_in_window_core|apply backend_health_core
               |apply add_allowlist_entry_core|apply remove_allowlist_entry_core|apply sync_allowlist_core
               |apply sync_bindings_core|apply replace_bindings_core|apply authorize_portal_client_core
               |apply deauthorize_portal_client_core|apply authorized_portal_grants_core
               |apply authorized_portal_clients_core|apply set_guard_mode_core|apply guard_modes_core
               |apply missing_tables_core|apply set_fill_core|apply kernel_set_fill_core|apply kernel_counters_core
               |apply kernel_offenders_core]).
  - pose proof (submit_candidate_lc m c now Hlc) as Hs. destruct (submit_candidate c now m). by apply Hs.
  - by destruct (approve_pending_lc m id now Hlc) as (x & m' & -> & Hlc').
  - by destruct (reject_pending_lc m id now Hlc) as (x & m' & -> & Hlc').
  - apply retire_rule_lc; [done|]. by right; left.
  - apply retire_rule_lc; [done|]. by right; right.
  - by destruct (expire_loop_lc now (dvalues (m_rules m)) m [] Hlc) as (x & m' & Heq & Hlc');
      unfold expire_rules, mbind, m_bind, mget; rewrite Heq.
  - by apply revert_to_base_lc.
  - destruct (m_sets m) as [b|] eqn:Hs.
    + by destruct (fail_open_shutdown_spec m b now Hlc Hs) as (ev & m' & b' & -> & Hlc' & _).
    + unfold fail_open_shutdown, mbind, m_bind, mget. rewrite Hs. by apply revert_to_base_lc.
  - destruct (m_sets m) as [b|] eqn:Hs.
    + destruct (panic_spec m b actor now Hlc Hs) as (m' & b' & Hlc' & _ & [(pr & ev & -> & _)|(msg & -> & _)]); done.
    + unfold panic, mbind, m_bind, mget. by rewrite Hs.
  - by apply reconcile_lc.
Qed.

Lemma reachable_lc m : reachable m → lc m.
Proof.
  intros (config & backend & store & sets & resolver & local & Hrtc).
  assert (Hinit : lc (new_manager config backend store sets resolver local)) by apply new_manager_lc.
  induction Hrtc as [|m1 m2 m3 H12 _ IH]; [done|]. apply IH. by eapply mstep_lc.
Qed.

(** C4: In every reachable manager the audit trail is well formed and complete.
    Each transition leaves the status the rule's previous transition recorded
    (adoption at startup apart), and is an edge of the documented lifecycle or
    one of three departures: adoption at startup, a refused deployment of an
    approved rule, and a direct deployment, which goes from VALIDATING to
    DEPLOYED where the documents pass through APPROVED.  APPROVED is recorded
    only for a rule that was waiting for the administrator.  Each rule is
    filed under its own id with the status its last transition recorded, and
    no transition is on record for an unknown rule. *)
Theorem audit_trail_sound m :
  reachable m →
  audit (m_transitions m) ∧
  (∀ t, t ∈ m_transitions m →
     (documented_edge (tr_from_status t) (tr_to_status t) = true ∨ departure (tr_from_status t) (tr_to_status t) = true) ∧
     (tr_to_status t = APPROVED → tr_from_status t = Some PENDING_APPROVAL)) ∧
  (∀ id r, get_rule m id = Some r → fr_id r = id ∧ last_status (m_transitions m) id = Some (fr_status r)) ∧
  (∀ id, get_rule m id = None → last_status (m_transitions m) id = None).
Proof.
  intros Hr%reachable_lc. assert (Ha : audit (m_transitions m)) by apply Hr. split; [done|]. split; [intros t Ht; by eapply audit_edges|]. split.
  - intros id r Hget. by eapply lc_lookup.
  - intros id Hget. by eapply lc_unknown.
Qed.

(** C2: The kill switch never raises, from any reachable manager: afterwards
    the mode is SHADOW, no rule is ACTIVE and nothing but the enforcement
    sets and the guard modes can have changed in the kernel; unless the
    kernel refused a write, which the event reports as CRITICAL, every
    enforcement set is empty and every guard observes. *)
Theorem kill_switch_reverts_enforcement m b now :
  reachable m → m_sets m = Some b →
  ∃ ev m' b', revert_to_base now m = (Ok ev, m') ∧ m_mode m' = MODE_SHADOW ∧ active_rules m' = [] ∧
    m_sets m' = Some b' ∧ m_allowlist m' = m_allowlist m ∧ enforcement_only (sb_view b) (sb_view b') ∧
    ((ev_severity ev = SEV_WARNING ∧ enforcement_empty (sb_view b') ∧
      ∀ g, kv_guard (sb_view b') g = Some OBSERVE) ∨ ev_severity ev = SEV_CRITICAL).
Proof.
  intros Hr%reachable_lc Hs. destruct (_kill_switch_sets_spec m b now Hr Hs) as (ev & m' & b' & Heq & _ & Hrest).
  exists ev, m', b'. split; [|done]. unfold revert_to_base, mbind, m_bind, mget. by rewrite Hs, Heq.
Qed.

(** Without a set backend the kill switch likewise never raises, even when
    the backend refuses to remove a rule. *)
Theorem kill_switch_v1_reverts_enforcement m now :
  reachable m → m_sets m = None →
  ∃ ev m', revert_to_base now m = (Ok ev, m') ∧ m_mode m' = MODE_SHADOW ∧ active_rules m' = [].
Proof.
  intros Hr%reachable_lc Hs. destruct (revert_to_base_v1_spec m now Hr Hs) as (ev & m' & Heq & _ & Hrest). eauto.
Qed.

(** A fail-open shutdown never raises, keeps the enforcement mode and every
    guard's mode, and leaves no ACTIVE rule; the enforcement sets are empty
    unless the kernel refused, which the event reports as ERROR. *)
Theorem fail_open_keeps_guards m b now :
  reachable m → m_sets m = Some b →
  ∃ ev m' b', fail_open_shutdown now m = (Ok ev, m') ∧ m_mode m' = m_mode m ∧ active_rules m' = [] ∧
    m_sets m' = Some b' ∧ enforcement_only (sb_view b) (sb_view b') ∧
    (∀ g, kv_guard (sb_view b') g = kv_guard (sb_view b) g) ∧
    ((ev_severity ev = SEV_INFO ∧ enforcement_empty (sb_view b')) ∨ ev_severity ev = SEV_ERROR).
Proof.
  intros Hr%reachable_lc Hs. destruct (fail_open_shutdown_spec m b now Hr Hs) as (ev & m' & b' & Heq & _ & Hrest). eauto.
Qed.

(** Panic deletes exactly the three v2 tables (base and portal tables and
    everything in them stay), drives every rule out of ACTIVE and sets
    SHADOW; if the kernel refuses it raises and neither the kernel nor the
    rules change. *)
Theorem panic_deletes_exactly_v2 m b actor now :
  reachable m → m_sets m = Some b →
  ∃ m' b', m_sets m' = Some b' ∧
  ((∃ pr ev, panic actor now m = (Ok (pr, ev), m') ∧ m_mode m' = MODE_SHADOW ∧ active_rules m' = [] ∧
      ev_severity ev = SEV_CRITICAL ∧ pr_actor pr = actor ∧
      pr_deleted_tables pr = ["inet pirewall_adaptive"; "inet pirewall_static"; "arp pirewall_static_arp"] ∧
      (∀ l, kv_table (sb_view b') l = (if decide (l ∈ PANIC_TABLES) then false else kv_table (sb_view b) l)) ∧
      (∀ a k, address_table a ∉ PANIC_TABLES → kv_elem (sb_view b') a k = kv_elem (sb_view b) a k)) ∨
   (∃ msg, panic actor now m = (Raise (FirewallError msg), m') ∧ m' = set_sets m (Some b') ∧
      view_eq (sb_view b') (sb_view b))).
Proof.
  intros Hr%reachable_lc Hs. destruct (panic_spec m b actor now Hr Hs) as (m' & b' & _ & Hrest). eauto.
Qed.

(** ** The rate cap

    A rule is created when a candidate passed its validation chain: the trail
    then has a transition to VALIDATING. *)
Definition is_creation (t : RuleTransition) : Prop := tr_to_status t = VALIDATING.
#[local] Instance is_creation_dec t : Decision (is_creation t).
Proof. unfold is_creation. apply _. Defined.
(** The instants of creation on the trail, newest first *)
Definition creations m : list Z := rev (tr_at <$> filter is_creation (m_transitions m)).

(** What every method but a submission does to them: nothing *)
Definition quiet m m' : Prop := m_limiter m' = m_limiter m ∧ creations m' = creations m.
#[local] Instance quiet_pre : PreOrder quiet.
Proof. split; [done|]. intros x y z [? ?] [? ?]. split; congruence. Qed.
#[local] Notation calm := (framed quiet).

Lemma creations_record m id from to at_ reason :
  creations (set_transitions m (m_transitions m ++ [mk_transition id from to at_ reason])) = if decide (to = VALIDATING) then at_ :: creations m else creations m.
Proof.
  unfold creations, is_creation. cbn [m_transitions set_transitions]. rewrite filter_app, fmap_app, rev_app_distr. unfold filter at 1. cbn [list_filter tr_to_status].
  by destruct (decide (to = VALIDATING)).
Qed.
Lemma calm_sets {A} (f : M B A) : calm (on_sets f : M FM A).
Proof. intros m. unfold on_sets. destruct (m_sets m); [|done]. by destruct (f b). Qed.
Lemma calm_backend {A} (f : M F A) : calm (on_backend f : M FM A).
Proof. intros m. unfold on_backend. by destruct (f _). Qed.
Lemma calm_store f : calm (on_store f : M FM unit).
Proof. intros m. unfold on_store. destruct (m_store m); [|done]. by destruct (f a). Qed.
Lemma calm_record id from to at_ reason : to ≠ VALIDATING → calm (_record id from to at_ reason : M FM unit).
Proof. intros Hto m. split; [done|]. unfold _record, mmodify. cbn [snd]. rewrite creations_record. by rewrite decide_False. Qed.
Lemma calm_put id r : calm (put_rule id r : M FM unit).
Proof. by intros m. Qed.

Create HintDb calm.
Ltac calm_solve :=
  intros; unfold suppress_firewall; repeat first
    [ progress (cbv beta zeta)
    | apply (frame_ret quiet) | apply (frame_raise quiet) | apply (frame_get quiet) | apply (frame_lift quiet)
    | apply calm_sets | apply calm_backend | apply calm_store | apply calm_put
    | apply calm_record; done
    | apply (frame_modify quiet); intros; by split
    | solve [eauto with calm]
    | apply (frame_bind quiet); [|intros ?] | apply (frame_try quiet); [|intros ?]
    | apply (frame_fold quiet); intros ?
    | match goal with |- framed quiet (match ?x with _ => _ end) => destruct x end ].

Lemma calm_retire id to now reason : to ≠ VALIDATING → calm (_retire_rule id to now reason : M FM (option FirewallRule)).
Proof. intros Hto. unfold _retire_rule, _delete_element. calm_solve. Qed.
#[local] Hint Resolve calm_retire : calm.
Lemma calm_expire now rules : ∀ acc, calm (expire_loop now rules acc : M FM (list FirewallRule)).
Proof. induction rules as [|r rules IH]; intros acc; cbn [expire_loop]; [calm_solve|]. destruct (negb _); [apply IH|]. apply (frame_bind quiet); [by apply calm_retire|done]. Qed.
Lemma calm_retire_active undo now reason rules : (∀ id, calm (undo id : M FM unit)) → ∀ n, calm (retire_active_loop undo now reason rules n : M FM Z).
Proof. intros Hu. induction rules as [|r rules IH]; intros n; cbn [retire_active_loop]; [calm_solve|]. destruct (negb _); [apply IH|]. calm_solve; auto. Qed.
Lemma calm_live sets : ∀ live, calm (collect_live sets live : M FM _).
Proof. induction sets as [|x sets IH]; intros live; cbn [collect_live]; calm_solve; auto. Qed.
Lemma calm_missing live now rules : calm (retire_missing live now rules : M FM _).
Proof. induction rules as [|r rules IH]; cbn [retire_missing]; calm_solve; auto. Qed.
Lemma calm_adopt known now live : calm (adopt_loop known now live : M FM _).
Proof. induction live as [|[[set key] ex] live IH]; cbn [adopt_loop]; unfold _adopt; calm_solve; auto. Qed.
Lemma calm_deploy_sets rule now up : calm (_deploy_to_sets rule now up : M FM _).
Proof. unfold _deploy_to_sets, deploy_failed, supersede. calm_solve. Qed.
Lemma calm_deploy rule now : calm (_deploy rule now : M FM _).
Proof. unfold _deploy, deploy_failed. calm_solve. Qed.
#[local] Hint Resolve calm_expire calm_retire_active calm_live calm_missing calm_adopt calm_deploy_sets calm_deploy : calm.
Lemma calm_kill now : calm (revert_to_base now : M FM _).
Proof. unfold revert_to_base, _kill_switch_sets, _retire_all_active. calm_solve; apply calm_retire_active; calm_solve. Qed.

(** What a validation chain leaves of the limiter *)
Lemma set_chain_limiter c target config known active allowlist l now local o l' :
  validate_set_candidate c target config known active allowlist l now local = (o, l') →
  (l' = l ∨ l' = rl_prune l now) ∧ (so_approved o = true → l' = rl_prune l now).
Proof.
  unfold validate_set_candidate, would_allow. cbv zeta. intros H. repeat case_match; simplify_eq/=; auto; split; auto; done.
Qed.
Lemma chain_limiter c config known active allowlist l now local mac o l' :
  validate_candidate_rule c config known active allowlist l now local mac = (o, l') →
  (l' = l ∨ l' = rl_prune l now) ∧ (vo_approved o = true → l' = rl_prune l now).
Proof.
  unfold validate_candidate_rule, would_allow. cbv zeta. intros H. repeat case_match; simplify_eq/=; auto; split; auto; done.
Qed.

Definition capped (max window now : Z) m : Prop :=
  rl_good (m_limiter m) now (creations m) ∧ rl_max_per_window (m_limiter m) = max ∧ rl_window_seconds (m_limiter m) = window.
Lemma capped_quiet max window now m m' : quiet m m' → capped max window now m → capped max window now m'.
Proof. intros [Hl Hc]. unfold capped. by rewrite Hl, Hc. Qed.
Lemma capped_later max window last now m : last ≤ now → capped max window last m → capped max window now m.
Proof.
  intros Hnow ((Hi & Hs & Hle & Hsp) & Hm & Hw). split; [|done]. destruct Hi as (H1 & H2 & dropped & H3 & H4).
  split; [|split; [done|split; [|done]]].
  - split; [done|]. split; [eapply Forall_impl; [exact H2|]; simpl; lia|]. exists dropped. split; [done|]. eapply Forall_impl; [exact H4|]. simpl. lia.
  - eapply Forall_impl; [exact Hle|]. simpl. lia.
Qed.
Lemma calm_shadow rule now : calm (_shadow rule now : M FM _).
Proof. unfold _shadow. calm_solve. Qed.
Lemma calm_hold rule now : calm (_hold_for_approval rule now : M FM _).
Proof. unfold _hold_for_approval. calm_solve. Qed.
#[local] Hint Resolve calm_shadow calm_hold : calm.

(** A candidate that passed its chain, recorded *)
Definition created m (l : RuleCreationRateLimiter) id now reason : FM :=
  let m1 := set_limiter m (rl_record l now) in set_transitions m1 (m_transitions m1 ++ [mk_transition id None VALIDATING now reason]).
Lemma created_capped max window last now m id reason : last ≤ now → capped max window last m → (would_allow (m_limiter m) now).1 = true →
  capped max window now (created m (rl_prune (m_limiter m) now) id now reason).
Proof.
  intros Hnow (Hg & Hm & Hw) Hok. unfold created. cbv zeta. unfold capped. rewrite creations_record, decide_True by done.
  split; [exact (rl_record_good _ last now _ Hg Hnow Hok)|done].
Qed.
Lemma checked_capped max window last now m l : last ≤ now → capped max window last m → l = m_limiter m ∨ l = rl_prune (m_limiter m) now →
  capped max window now (set_limiter m l).
Proof.
  intros Hnow Hc [-> | ->]; [by apply (capped_later _ _ last)|]. destruct Hc as (Hg & Hm & Hw). split; [|done]. by apply (rl_prune_good _ last).
Qed.
Lemma submit_capped max window last now c m : last ≤ now → capped max window last m → capped max window now (submit_candidate c now m).2.
Proof.
  intros Hnow Hc. unfold submit_candidate, _submit_to_sets, mbind, m_bind, mget, mlift. destruct (m_sets m) as [b|] eqn:Hs.
  - destruct (_target_for m c) as [target|e]; [|by apply (capped_later _ _ last)].
    destruct (validate_set_candidate _ _ _ _ _ _ _ _ _) as [o l] eqn:Hval.
    pose proof (set_approved_stages c target (m_config m) (m_known m) (_active_targets m) (m_allowlist m) (m_limiter m) now (m_local m)) as Hst.
    rewrite Hval in Hst. cbn [fst] in Hst. apply set_chain_limiter in Hval as [Hl Hap]. unfold mmodify.
    pose proof (checked_capped _ _ last now m l Hnow Hc Hl) as H1.
    destruct (so_approved o); [|exact H1]. destruct target as [t|]; [|exact H1].
    destruct (Hst eq_refl) as (_ & _ & _ & _ & _ & _ & _ & Hok & _). rewrite (Hap eq_refl).
    pose proof (created_capped _ _ last now m (cr_id c) "passed the v2 validation chain" Hnow Hc Hok) as H2.
    case_decide; [eapply capped_quiet; [apply calm_shadow|exact H2]|].
    destruct (_ && _); eapply capped_quiet; [apply calm_hold|exact H2|apply calm_deploy_sets|exact H2].
  - destruct (validate_candidate_rule _ _ _ _ _ _ _ _ _) as [o l] eqn:Hval.
    pose proof (approved_stages c (m_config m) (m_known m) (active_rules m) (m_allowlist m) (m_limiter m) now (m_local m) (_bound_mac_of m c)) as Hst.
    rewrite Hval in Hst. cbn [fst] in Hst. apply chain_limiter in Hval as [Hl Hap]. unfold mmodify.
    pose proof (checked_capped _ _ last now m l Hnow Hc Hl) as H1.
    destruct (vo_approved o); [|exact H1]. destruct (vo_priority o) as [p|]; [|exact H1].
    destruct (Hst eq_refl) as (_ & _ & _ & _ & _ & _ & Hok & _). rewrite (Hap eq_refl).
    pose proof (created_capped _ _ last now m (cr_id c) "passed full validation chain" Hnow Hc Hok) as H2.
    case_decide; [eapply capped_quiet; [apply calm_shadow|exact H2]|].
    destruct (_ && _); eapply capped_quiet; [apply calm_hold|exact H2|apply calm_deploy|exact H2].
Qed.
Lemma calm_at {A} (f : M FM A) max window last now m : calm f → last ≤ now → capped max window last m → capped max window now (f m).2.
Proof. intros Hf Hnow Hc. eapply capped_quiet; [apply Hf|]. by apply (capped_later _ _ last). Qed.
Lemma step_capped max window last now m m' : last ≤ now → mstep_at now m m' → capped max window last m → capped max window now m'.
Proof.
  intros Hnow Hst Hc. destruct Hst;
    try (solve [apply (calm_at _ _ _ last); [|done..];
      unfold approve_pending, reject_pending, disable_rule, remove_rule, expire_rules, fail_open_shutdown, panic, _retire_all_active, reconcile, missing_tables,
        register_decision, backend_health, add_allowlist_entry, remove_allowlist_entry, sync_allowlist, sync_bindings, replace_bindings,
        authorize_portal_client, deauthorize_portal_client, authorized_portal_grants, authorized_portal_clients, set_guard_mode, guard_modes,
        kernel_set_fill, set_fill, kernel_counters, kernel_offenders;
      calm_solve; first [apply calm_kill | apply calm_retire_active; calm_solve | idtac]]).
  - by apply (submit_capped _ _ last).
  - apply (checked_capped _ _ last); [done..|by right].
Qed.

(** A manager that came up and served calls at instants that do not go back *)
Inductive timed_run (config : PirewallConfig) : Z → FM → Prop :=
| run_new from backend store sets resolver local : timed_run config from (new_manager config backend store sets resolver local)
| run_step last now m m' : timed_run config last m → last ≤ now → mstep_at now m m' → timed_run config now m'.

Lemma run_capped config last m : timed_run config last m → capped (c_max_adaptive_rules_per_window config) (c_rate_window_seconds config) last m.
Proof. induction 1 as [|last now m m' _ IH Hnow Hst]; [split; [apply new_limiter_good|done]|]. by eapply step_capped. Qed.

(** C8: Whatever calls a manager serves, at instants that do not go back, no
    window of [rate_window_seconds] on its audit trail holds more than
    [max_adaptive_rules_per_window] created rules, and its limiter lets a
    creation through exactly when the window that ends now has room. *)
Theorem rate_cap_never_exceeded config last m :
  0 ≤ c_max_adaptive_rules_per_window config → timed_run config last m →
  (∀ lo, Z.of_nat (length (in_window lo (lo + seconds (c_rate_window_seconds config)) (creations m))) ≤ c_max_adaptive_rules_per_window config) ∧
  (∀ now, last ≤ now → (would_allow (m_limiter m) now).1 =
     (Z.of_nat (length (in_window (now - seconds (c_rate_window_seconds config)) now (creations m))) <? c_max_adaptive_rules_per_window config)).
Proof.
  intros Hmax Hr. destruct (run_capped config last m Hr) as (Hg & Hm & Hw). split.
  - intros lo. pose proof Hg as (_ & Hsort & _ & Hsp). rewrite Hm, Hw in Hsp. by apply spaced_window.
  - intros now Hnow. by rewrite (would_allow_exact _ last now _ Hg Hnow), Hm, Hw.
Qed.
End Reachable.
