(* ===== verification/Enforce.v ===== *)
(** * From an approved candidate to a kernel element

    What a submission, an approval, a retirement and an expiry do to the
    kernel, and that what they put there was validated. *)

From S2P Require Import Prelude Float Net Models RateLimiter Sets SetBackend Backend Validator AllowlistStore Manager Lifecycle Reachable.
Local Open Scope Z_scope.

(** The rule lifecycle may write the enforcement sets and nothing else. *)
Definition lifecycle_frame (v v' : kernel_view) : Prop :=
  enforcement_only v v' ∧ ∀ g, kv_guard v' g = kv_guard v g.

#[global] Instance lifecycle_frame_preorder : PreOrder lifecycle_frame.
Proof.
  split; [by intros v|]. intros v1 v2 v3 [E1 G1] [E2 G2]. split; [by etrans|]. intros g. by rewrite G2, G1.
Qed.

Lemma view_eq_lifecycle v w : view_eq w v → lifecycle_frame v w.
Proof. intros Hv. split; [by apply view_eq_enforcement_only|]. apply Hv. Qed.

(** A single-part key is only ever accepted by an enforcement set of the
    adaptive table: [allow_bound] takes pairs. *)
Lemma adaptive_str_key_address kind set key timeout :
  validate_element (adaptive_op kind set (KStr key) timeout) = Ok tt → set ∈ ADAPTIVE_ENFORCEMENT_SETS.
Proof.
  unfold validate_element. cbn [adaptive_op op_address op_family op_table op_set_name op_key].
  destruct (dget MANAGER_WRITABLE_SETS _) as [shape|] eqn:Hw; [|done].
  apply dget_Some_elem in Hw. unfold op_address, MANAGER_WRITABLE_SETS in Hw.
  cbn [adaptive_op op_family op_table op_set_name] in Hw.
  repeat (apply elem_of_cons in Hw as [Hw|Hw]; [|]); try (by apply elem_of_nil in Hw);
    try (injection Hw as -> ->; unfold ADAPTIVE_ENFORCEMENT_SETS; set_solver);
    try (injection Hw as -> ->; discriminate); discriminate Hw.
Qed.

Definition adaptive_str_op (op : SetOp) : Prop :=
  ∃ kind set key timeout, op = adaptive_op kind set (KStr key) timeout.

(** A batch of such operations that the backend accepts is inside the frame. *)
Lemma apply_lifecycle_frame {B} {SB : SetBackend B} {SBL : SetBackendLaws B} ops (b : B) r b' :
  Forall adaptive_str_op ops → sb_apply ops b = (r, b') → lifecycle_frame (sb_view b) (sb_view b').
Proof.
  intros Hops Hap. apply apply_law in Hap. destruct r as [[]|e]; [|by apply view_eq_lifecycle, Hap].
  destruct Hap as (Hval & Hn & He & Hg & Ht). split; [|done]. repeat split; [done| |done].
  intros a k Ha. rewrite He. apply ops_effect_other. intros op Hin Hadd _.
  rewrite Forall_forall in Hops, Hval. destruct (Hops op Hin) as (kind & set & key & timeout & ->).
  apply Ha. rewrite <- Hadd. apply list_elem_of_fmap. exists set. split; [done|].
  eapply adaptive_str_key_address. by apply (Hval _ Hin).
Qed.

Lemma _delete_ops_str r : Forall adaptive_str_op (_delete_ops r).
Proof. unfold _delete_ops. case_match; [|done]. case_match. repeat constructor. by do 4 eexists. Qed.

Section Enforce.
Context {B F : Type} {SB : SetBackend B} {SBL : SetBackendLaws B}.
Context {FB : FirewallBackend F} {FBL : FirewallBackendLaws F}.
Notation FM := (FirewallManager B F).
Implicit Types (m : FM) (b : B).

(** The element [key] of the adaptive set [set] is in the kernel. *)
Definition element_live b set key : Prop := is_Some (kv_elem (sb_view b) (adaptive_address set) (KStr key)).

(** ** SHADOW and ASSISTED *)

Definition restrictive_outcome (r : result SubmissionResult) (s : RuleStatus) : Prop :=
  ∀ sr rule, r = Ok sr → sr_rule sr = Some rule → fr_status rule = s.

Lemma submit_shadow_spec m c now :
  m_mode m = MODE_SHADOW →
  let '(r, m') := submit_candidate c now m in
  m_backend m' = m_backend m ∧ m_sets m' = m_sets m ∧ m_mode m' = MODE_SHADOW ∧
  restrictive_outcome r SHADOWED.
Proof.
  intros Hm. unfold submit_candidate, _submit_to_sets, restrictive_outcome, mbind, m_bind, mget, mlift.
  destruct (m_sets m) as [b|] eqn:Hs.
  - destruct (_target_for m c) as [target|e]; [|by rewrite Hs].
    destruct (validate_set_candidate _ _ _ _ _ _ _ _ _) as [o l]. cbn.
    destruct (so_approved o); [|by repeat split; cbn; try congruence; naive_solver].
    destruct target as [t|]; [|by repeat split; cbn; try congruence; naive_solver].
    rewrite decide_True by done. by repeat split; cbn; try congruence; naive_solver.
  - destruct (validate_candidate_rule _ _ _ _ _ _ _ _ _) as [o l]. cbn.
    destruct (vo_approved o); [|by repeat split; cbn; try congruence; naive_solver].
    destruct (vo_priority o); [|by repeat split; cbn; try congruence; naive_solver].
    rewrite decide_True by done. by repeat split; cbn; try congruence; naive_solver.
Qed.

Lemma submit_review_spec m c now :
  m_mode m = MODE_ASSISTED → _needs_review m c = true →
  let '(r, m') := submit_candidate c now m in
  m_backend m' = m_backend m ∧ m_sets m' = m_sets m ∧ m_mode m' = m_mode m ∧ m_config m' = m_config m ∧
  restrictive_outcome r PENDING_APPROVAL.
Proof.
  intros Hm Hrev. unfold submit_candidate, _submit_to_sets, restrictive_outcome, mbind, m_bind, mget, mlift.
  destruct (m_sets m) as [b|] eqn:Hs.
  - destruct (_target_for m c) as [target|e]; [|by rewrite Hs].
    destruct (validate_set_candidate _ _ _ _ _ _ _ _ _) as [o l]. cbn.
    destruct (so_approved o); [|by repeat split; cbn; try congruence; naive_solver].
    destruct target as [t|]; [|by repeat split; cbn; try congruence; naive_solver].
    rewrite decide_False, bool_decide_eq_true_2 by (by rewrite Hm). rewrite Hrev.
    by repeat split; cbn; try congruence; naive_solver.
  - destruct (validate_candidate_rule _ _ _ _ _ _ _ _ _) as [o l]. cbn.
    destruct (vo_approved o); [|by repeat split; cbn; try congruence; naive_solver].
    destruct (vo_priority o); [|by repeat split; cbn; try congruence; naive_solver].
    rewrite decide_False, bool_decide_eq_true_2 by (by rewrite Hm). rewrite Hrev.
    by repeat split; cbn; try congruence; naive_solver.
Qed.

(** C3: In SHADOW mode a submission calls neither backend, whatever the
    candidate: it is rejected, or recorded as SHADOWED. *)
Theorem shadow_never_enforces m c now :
  m_mode m = MODE_SHADOW →
  let '(r, m') := submit_candidate c now m in
  m_backend m' = m_backend m ∧ m_sets m' = m_sets m ∧ m_mode m' = MODE_SHADOW ∧
  restrictive_outcome r SHADOWED.
Proof. apply submit_shadow_spec. Qed.

(** In ASSISTED mode a BLOCK at or above the review threshold waits for the
    administrator: neither backend is called. *)
Theorem assisted_holds_strong_blocks m c now :
  m_mode m = MODE_ASSISTED → _needs_review m c = true →
  let '(r, m') := submit_candidate c now m in
  m_backend m' = m_backend m ∧ m_sets m' = m_sets m ∧ restrictive_outcome r PENDING_APPROVAL.
Proof.
  intros Hm Hrev. pose proof (submit_review_spec m c now Hm Hrev) as Hspec. destruct (submit_candidate c now m). tauto.
Qed.

(** ** Deployment *)

Lemma deploy_plan_str m rule target sup now ops md :
  deploy_plan m rule target sup now = Ok (ops, md) → Forall adaptive_str_op ops.
Proof.
  unfold deploy_plan. assert (Hd : Forall adaptive_str_op (match sup with Some s => _delete_ops s | None => [] end)).
  { destruct sup; [apply _delete_ops_str|done]. }
  destruct (enforcement_set_for _ _) as [set|]; [|by intros [= <- _]].
  destruct (element_key set target) as [key|]; [|done]. cbn [rbind].
  destruct (fr_expires_at rule); [|done]. intros [= <- _]. apply Forall_app. split; [done|].
  repeat constructor. by do 4 eexists.
Qed.

(** The state in which [_submit_to_sets] decides what to do with an
    approved candidate. *)
Definition validated_state m (c : CandidateRule) (t : RuleTarget) (l : RuleCreationRateLimiter) (now : Z) : FM :=
  let id := cr_id c in
  let m1 := set_limiter m (rl_record l now) in
  set_transitions (set_targets m1 (dset (m_targets m) id t))
    (m_transitions m ++ [mk_transition id None VALIDATING now "passed the v2 validation chain"]).

(** A v2 submission whose rule is neither shadowed nor held was approved
    and handed to [_deploy_to_sets]. *)
Lemma submit_deploys m b c now sr rule m' :
  m_sets m = Some b → submit_candidate c now m = (Ok sr, m') → sr_rule sr = Some rule →
  fr_status rule ≠ SHADOWED → fr_status rule ≠ PENDING_APPROVAL →
  ∃ t o l, _target_for m c = Ok (Some t) ∧ so_approved o = true ∧
    validate_set_candidate c (Some t) (m_config m) (m_known m) (_active_targets m) (m_allowlist m)
      (m_limiter m) now (m_local m) = (o, l) ∧
    _deploy_to_sets (rule_of_candidate c (display_priority (rf_threat_score c)) (Some t)) now (so_upgrade_of o)
      (validated_state m c t l now) = (Ok sr, m').
Proof.
  intros Hs. unfold submit_candidate, _submit_to_sets, mbind, m_bind, mget, mlift. rewrite Hs.
  destruct (_target_for m c) as [target|e] eqn:Htgt; [|done].
  destruct (validate_set_candidate _ _ _ _ _ _ _ _ _) as [o l] eqn:Hval. cbn.
  destruct (so_approved o) eqn:Happ; [|by intros [= <- <-]].
  destruct target as [t|]; [|by intros [= <- <-]].
  case_decide; [intros [= <- <-] [= <-]; done|].
  destruct (_ && _); [intros [= <- <-] [= <-]; done|].
  intros Hdep Hrule _ _. exists t, o, l. by repeat split.
Qed.

Lemma target_for_device m (c : CandidateRule) t :
  rule_fields_wf c → config_wf (m_config m) → _target_for m c = Ok (Some t) →
  rt_ip t = IPv4.net_addr (rf_source c) ∧ target_wf t ∧
  IPv4.contains (c_protected_network (m_config m)) (rt_ip t) = true.
Proof.
  intros (Hsrc & _) (Hnet & _) Ht. unfold _target_for in Ht. pose proof Ht as Ht2.
  apply device_target_wf in Ht2; [|done]. unfold device_target in Ht.
  destruct (negb _ || negb _) eqn:Hg; [done|]. bool_prop.
  assert (Hip : rt_ip t = IPv4.net_addr (rf_source c)) by (repeat case_match; simplify_eq/=; done).
  split; [done|]. split; [done|]. rewrite Hip. apply IPv4.contains_spec; [done|apply Hsrc|].
  unfold IPv4.subnet_of in *. bool_prop. pose proof (IPv4.broadcast_add _ Hsrc).
  pose proof (IPv4.hostmask_range _ (proj1 (proj2 Hsrc))). lia.
Qed.

(** The plan of a restrictive rule: forget the superseded element, add one. *)
Lemma deploy_plan_restrictive m rule target sup now e :
  fr_expires_at rule = Some e → restrictive (rf_action rule) = true →
  ∃ set key, enforcement_set_for (rf_action rule) target = Some set ∧ element_key set target = Ok key ∧
    deploy_plan m rule target sup now =
      Ok ((match sup with Some s => _delete_ops s | None => [] end)
            ++ [adaptive_op OP_ADD set (KStr key)
                 (Some (element_timeout_seconds e now (pc_max_ttl_seconds (c_policy (m_config m)))))],
          dset (dset (rf_metadata rule) _META_SET set) _META_KEY key).
Proof.
  intros He Hr.
  assert (Hset : ∃ set, enforcement_set_for (rf_action rule) target = Some set).
  { destruct (rf_action rule); try done; by eexists. }
  destruct Hset as [set Hset]. pose proof (element_key_total _ _ _ Hset) as Hkey.
  eexists set, _. split; [done|]. split; [exact Hkey|]. unfold deploy_plan. rewrite Hset, Hkey. cbn [rbind].
  by rewrite He.
Qed.

Lemma element_of_deployed rule set key now :
  _element_of (rule_deployed (rule_with_metadata rule
    (dset (dset (rf_metadata rule) _META_SET set) _META_KEY key)) now) = Some (set, key).
Proof.
  unfold _element_of. cbn [rule_deployed rule_with_metadata fr_fields fields_with_metadata rf_metadata].
  assert (Hne : _META_KEY ≠ _META_SET) by (by intros [=]).
  rewrite (dget_set_ne _ _ _ _ Hne), !dget_set_eq. reflexivity.
Qed.

(** A batch ending in an add leaves that element live. *)
Lemma ops_effect_last_add clock ops op cur :
  op_kind op = OP_ADD →
  ops_effect clock (op_address op) (op_key op) cur (ops ++ [op]) =
    op_effect clock op (ops_effect clock (op_address op) (op_key op) cur ops).
Proof. intros Hk. rewrite ops_effect_app. unfold ops_effect at 1. cbn. by rewrite decide_True. Qed.

Lemma _delete_ops_kind s op : op ∈ _delete_ops s → op_kind op = OP_DELETE.
Proof. unfold _delete_ops. case_match; [|set_solver]. case_match. set_solver. Qed.

Lemma ops_effect_only_deletes clock a k ops : (∀ op, op ∈ ops → op_kind op = OP_DELETE) →
  ∀ cur, ops_effect clock a k cur ops = cur ∨ ops_effect clock a k cur ops = None.
Proof.
  intros Hd. induction ops as [|op ops IH] using rev_ind; intros cur; [by left|]. rewrite ops_effect_app.
  assert (Hop : op_kind op = OP_DELETE) by (apply Hd; set_solver). unfold ops_effect at 1 3. cbn [foldl].
  case_decide; [right; unfold op_effect; by rewrite Hop|]. apply IH. intros o Ho. apply Hd. set_solver.
Qed.

(** What a restrictive rule brought to ACTIVE stands for *)
Lemma restrictive_deployed m b (c : CandidateRule) now sr rule m' :
  m_sets m = Some b → rule_fields_wf c → config_wf (m_config m) →
  submit_candidate c now m = (Ok sr, m') → sr_rule sr = Some rule → fr_status rule = ACTIVE →
  restrictive (rf_action c) = true →
  ∃ t set key b',
    rt_ip t = IPv4.net_addr (rf_source c) ∧
    IPv4.contains (c_protected_network (m_config m)) (rt_ip t) = true ∧
    rt_ip t ∉ infrastructure (m_config m) (m_local m) ∧ special_address (rt_ip t) = false ∧
    (∀ a, c_admin_pc_mac (m_config m) = Some a → rt_mac t ≠ Some a) ∧
    (∀ e, e ∈ m_allowlist m → IPv4.contains (al_target e) (rt_ip t) = false ∧
                              ∀ a, rt_mac t = Some a → al_mac e ≠ Some a) ∧
    cr_decision_id c ∈ m_known m ∧
    enforcement_set_for (rf_action c) t = Some set ∧ element_key set t = Ok key ∧
    _element_of rule = Some (set, key) ∧ m_sets m' = Some b' ∧
    lifecycle_frame (sb_view b) (sb_view b') ∧
    ∃ deadline, kv_elem (sb_view b') (adaptive_address set) (KStr key) = Some deadline ∧
      (kv_elem (sb_view b) (adaptive_address set) (KStr key) = Some deadline ∨
       ∃ timeout, deadline = Some (kv_now (sb_view b) + seconds timeout) ∧
         1 ≤ timeout ≤ MAX_ELEMENT_TIMEOUT_SECONDS ∧ timeout ≤ pc_max_ttl_seconds (c_policy (m_config m))).
Proof.
  intros Hs Hwf Hcfg Hsub Hrule Hact Hres.
  destruct (submit_deploys m b c now sr rule m' Hs Hsub Hrule) as (t & o & l & Htgt & Happ & Hval & Hdep);
    [by rewrite Hact..|].
  destruct (target_for_device m c t Hwf Hcfg Htgt) as (Hip & Htwf & Hin).
  pose proof (set_approved_stages c (Some t) (m_config m) (m_known m) (_active_targets m) (m_allowlist m)
    (m_limiter m) now (m_local m)) as Hst. rewrite Hval in Hst.
  destruct (Hst Happ) as (t' & [= <-] & _ & Hal & Hsafe & _ & _ & _ & _ & Hexp & Hdec & _).
  pose proof (set_allowlist_None _ _ _ Hal Hres) as Hal'. apply set_safety_None in Hsafe as (Hinf & Hspec & Hadm); [|done].
  assert (He : ∃ e, cr_expires_at c = Some e).
  { unfold _validate_set_expiration in Hexp. destruct (cr_expires_at c); [by eauto|done]. }
  destruct He as [e He].
  set (m1 := validated_state m c t l now) in *. set (r0 := rule_of_candidate _ _ _) in *.
  destruct (_deploy_to_sets_spec m1 b r0 now (so_upgrade_of o) t) as (ops & md & r & b' & Hplan & Hap & Hspec');
    [done|by cbn; rewrite dget_set_eq|by exists e|].
  destruct (deploy_plan_restrictive m1 r0 t (superseded_rule m1 (so_upgrade_of o)) now e He Hres)
    as (set & key & Hset & Hkey & Hplan'). rewrite Hplan in Hplan'. injection Hplan' as Hops Hmd.
  pose proof (apply_lifecycle_frame ops b r b' (deploy_plan_str _ _ _ _ _ _ _ Hplan) Hap) as Hframe.
  destruct r as [[]|er].
  2: { destruct Hspec' as (msg & ev & m2 & _ & _ & Heq & _). rewrite Hdep in Heq. injection Heq as -> _.
       injection Hrule as <-. done. }
  destruct Hspec' as (ev & reason & m2 & Heq & Hs' & _). rewrite Hdep in Heq. injection Heq as -> ->.
  injection Hrule as <-. exists t, set, key, b'.
  do 9 (split; [done|]). split; [rewrite Hmd; apply element_of_deployed|]. split; [done|].
  apply apply_law in Hap as (_ & _ & Helem & _). rewrite Hops in Helem.
  specialize (Helem (adaptive_address set) (KStr key)).
  rewrite (ops_effect_last_add _ _ (adaptive_op OP_ADD set (KStr key) _)) in Helem by done.
  split; [done|].
  assert (Hpos : 0 < pc_max_ttl_seconds (c_policy (m_config m))) by (by apply Hcfg).
  pose proof (element_timeout_bounds e now _ Hpos) as Hbound. cbv zeta in Hbound.
  match type of Helem with _ = op_effect _ _ ?x =>
    assert (Hx : x = kv_elem (sb_view b) (adaptive_address set) (KStr key) ∨ x = None) end.
  { apply ops_effect_only_deletes. intros op Hop. destruct (superseded_rule m1 (so_upgrade_of o)) as [s|]; [by eapply _delete_ops_kind|set_solver]. }
  rewrite Helem. destruct Hx as [->| ->]; unfold op_effect; cbn [op_kind adaptive_op op_timeout_seconds fmap option_fmap option_map].
  - destruct (kv_elem (sb_view b) (adaptive_address set) (KStr key)) as [d|]; eexists; (split; [reflexivity|]); [by left|]. right. by eexists.
  - eexists. split; [reflexivity|]. right. by eexists.
Qed.

(** Both outcomes of handing an approved candidate to the kernel. *)
Lemma submit_outcomes m b c now sr rule m' :
  m_sets m = Some b → submit_candidate c now m = (Ok sr, m') → sr_rule sr = Some rule →
  fr_status rule ≠ SHADOWED → fr_status rule ≠ PENDING_APPROVAL →
  ∃ t o l ops md r b',
    let m1 := validated_state m c t l now in
    let r0 := rule_of_candidate c (display_priority (rf_threat_score c)) (Some t) in
    let sup := superseded_rule m (so_upgrade_of o) in
    _target_for m c = Ok (Some t) ∧ so_approved o = true ∧
    validate_set_candidate c (Some t) (m_config m) (m_known m) (_active_targets m) (m_allowlist m)
      (m_limiter m) now (m_local m) = (o, l) ∧
    deploy_plan m1 r0 t sup now = Ok (ops, md) ∧ sb_apply ops b = (r, b') ∧ m_sets m' = Some b' ∧
    match r with
    | Ok _ => rule = rule_deployed (rule_with_metadata r0 md) now ∧
              m_rules m' = dset (superseded_rules m sup) (cr_id c) rule
    | Raise _ => rule = rule_with_status r0 REJECTED ∧ ev_severity (sr_event sr) = SEV_CRITICAL ∧
                 m_rules m' = dset (m_rules m) (cr_id c) rule
    end.
Proof.
  intros Hs Hsub Hrule Hn1 Hn2.
  destruct (submit_deploys m b c now sr rule m' Hs Hsub Hrule Hn1 Hn2) as (t & o & l & Htgt & Happ & Hval & Hdep).
  pose proof (set_approved_stages c (Some t) (m_config m) (m_known m) (_active_targets m) (m_allowlist m)
    (m_limiter m) now (m_local m)) as Hst. rewrite Hval in Hst.
  destruct (Hst Happ) as (_ & _ & _ & _ & _ & _ & _ & _ & _ & Hexp & _ & _).
  set (m1 := validated_state m c t l now) in *. set (r0 := rule_of_candidate _ _ _) in *.
  destruct (_deploy_to_sets_spec m1 b r0 now (so_upgrade_of o) t) as (ops & md & r & b' & Hplan & Hap & Hspec);
    [done|by cbn; rewrite dget_set_eq| |].
  { unfold _validate_set_expiration in Hexp. cbn. destruct (cr_expires_at c); [by eauto|done]. }
  exists t, o, l, ops, md, r, b'. cbv zeta. do 5 (split; [done|]).
  destruct r as [[]|er].
  - destruct Hspec as (ev & reason & m2 & Heq & Hs' & _ & _ & Hr & _). rewrite Hdep in Heq. injection Heq as -> ->.
    injection Hrule as <-. by split.
  - destruct Hspec as (msg & ev & m2 & _ & Hsev & Heq & Hs' & _ & _ & Hr & _). rewrite Hdep in Heq.
    injection Heq as -> ->. injection Hrule as <-. by split.
Qed.

(** The manager's kernel shows what [b] showed. *)
Definition kernel_kept b m' : Prop := ∃ b', m_sets m' = Some b' ∧ view_eq (sb_view b') (sb_view b).

(** A submission that is not a BLOCK supersedes nothing: it writes at most one
    element, in a set of its own action, and keeps the mode. *)
Lemma submit_without_block m b (c : CandidateRule) now r m' :
  m_sets m = Some b → rf_action c ≠ BLOCK → submit_candidate c now m = (r, m') →
  m_mode m' = m_mode m ∧ m_config m' = m_config m ∧
  ∃ b', m_sets m' = Some b' ∧ kv_now (sb_view b') = kv_now (sb_view b) ∧
    (∀ a k, (∀ t set, enforcement_set_for (rf_action c) t = Some set → a ≠ adaptive_address set) →
       kv_elem (sb_view b') a k = kv_elem (sb_view b) a k) ∧
    (∀ g, kv_guard (sb_view b') g = kv_guard (sb_view b) g) ∧ (∀ l, kv_table (sb_view b') l = kv_table (sb_view b) l).
Proof.
  intros Hs Hnb. unfold submit_candidate, _submit_to_sets, mbind, m_bind, mget, mlift. rewrite Hs.
  destruct (_target_for m c) as [target|e] eqn:Htgt; [|by intros [= <- <-]; do 2 (split; [done|]); exists b].
  destruct (validate_set_candidate _ _ _ _ _ _ _ _ _) as [o l] eqn:Hval. cbn.
  destruct (so_approved o) eqn:Happ; [|by intros [= <- <-]; do 2 (split; [done|]); exists b].
  destruct target as [t|]; [|by intros [= <- <-]; do 2 (split; [done|]); exists b].
  case_decide; [intros [= <- <-]; do 2 (split; [done|]); by exists b|].
  destruct (_ && _); [intros [= <- <-]; do 2 (split; [done|]); by exists b|].
  assert (Hup : so_upgrade_of o = None).
  { pose proof (set_approved_stages c (Some t) (m_config m) (m_known m) (_active_targets m) (m_allowlist m) (m_limiter m) now (m_local m))
      as Hst. rewrite Hval in Hst. cbn [fst] in Hst. destruct (Hst Happ) as (t' & _ & _ & _ & _ & _ & _ & _ & _ & _ & _ & ->).
    unfold upgradable. by rewrite decide_False. }
  rewrite Hup. unfold _deploy_to_sets, mbind, m_bind, mget, mlift. cbn [m_targets set_targets set_transitions set_limiter fr_id rule_of_candidate].
  rewrite dget_set_eq. unfold superseded_rule. cbn [mbind option_bind].
  match goal with |- context[deploy_plan ?mm ?rr t None now] => destruct (deploy_plan mm rr t None now) as [[ops md]|e] eqn:Hplan end;
    [|intros [= <- <-]; do 2 (split; [done|]); by exists b].
  assert (Hops : ∀ op, op ∈ ops → ∃ set, enforcement_set_for (rf_action c) t = Some set ∧ op_address op = adaptive_address set).
  { revert Hplan. unfold deploy_plan. cbn [rf_action rule_of_candidate fr_fields app].
    destruct (enforcement_set_for _ t) as [set|] eqn:Hset; [|intros [= <- _]; set_solver].
    destruct (element_key set t); [cbn [rbind]|done]. destruct (fr_expires_at _); [|done]. intros [= <- _] op ->%list_elem_of_singleton.
    by exists set. }
  cbn [fst snd]. unfold try_firewall, on_sets, mbind, m_bind. cbn [m_sets set_targets set_transitions set_limiter].
  rewrite Hs. destruct (sb_apply ops b) as [ra b'] eqn:Hap. pose proof (apply_law _ _ _ _ Hap) as Hlaw.
  assert (Hview : kv_now (sb_view b') = kv_now (sb_view b) ∧
    (∀ a k, (∀ t set, enforcement_set_for (rf_action c) t = Some set → a ≠ adaptive_address set) →
       kv_elem (sb_view b') a k = kv_elem (sb_view b) a k) ∧
    (∀ g, kv_guard (sb_view b') g = kv_guard (sb_view b) g) ∧ (∀ l, kv_table (sb_view b') l = kv_table (sb_view b) l)).
  { destruct ra as [u|e]; [|destruct Hlaw as [(? & ? & ? & ?) _]; by split_and!].
    destruct Hlaw as (_ & ? & Hel & ? & ?). split_and!; try done. intros a k Ha. rewrite Hel. apply ops_effect_other.
    intros op Hop Hadd _. destruct (Hops op Hop) as (set & Hset & Heq). apply (Ha t set Hset). congruence. }
  destruct ra as [u|[]]; cbn; intros [= <- <-]; do 2 (split; [done|]); by exists b'.
Qed.

(** C1: What a v2 submission brings to ACTIVE was validated.  Its device is an
    address of the protected network and its decision is known.  When the action
    restricts, the device is moreover no infrastructure, no special address, not
    the Admin PC and not allowlisted, and the rule remembers one element, keyed
    by the device's MAC (or address) in the set of the action, which is in the
    kernel: until a deadline 1 to 3600 seconds away and within the configured
    cap, or until the deadline it already had if the same element was there
    before.  When the action does not restrict, no element changed.  In both
    cases nothing outside the enforcement sets changed. *)
Theorem deployed_element_is_validated m b (c : CandidateRule) now sr rule m' :
  m_sets m = Some b → rule_fields_wf c → config_wf (m_config m) →
  submit_candidate c now m = (Ok sr, m') → sr_rule sr = Some rule → fr_status rule = ACTIVE →
  ∃ t b',
    rt_ip t = IPv4.net_addr (rf_source c) ∧
    IPv4.contains (c_protected_network (m_config m)) (rt_ip t) = true ∧
    cr_decision_id c ∈ m_known m ∧ m_sets m' = Some b' ∧ lifecycle_frame (sb_view b) (sb_view b') ∧
    if restrictive (rf_action c) then
      rt_ip t ∉ infrastructure (m_config m) (m_local m) ∧ special_address (rt_ip t) = false ∧
      (∀ a, c_admin_pc_mac (m_config m) = Some a → rt_mac t ≠ Some a) ∧
      (∀ e, e ∈ m_allowlist m → IPv4.contains (al_target e) (rt_ip t) = false ∧
                                ∀ a, rt_mac t = Some a → al_mac e ≠ Some a) ∧
      ∃ set key deadline,
        enforcement_set_for (rf_action c) t = Some set ∧ element_key set t = Ok key ∧ _element_of rule = Some (set, key) ∧
        kv_elem (sb_view b') (adaptive_address set) (KStr key) = Some deadline ∧
        (kv_elem (sb_view b) (adaptive_address set) (KStr key) = Some deadline ∨
         ∃ timeout, deadline = Some (kv_now (sb_view b) + seconds timeout) ∧
           1 ≤ timeout ≤ MAX_ELEMENT_TIMEOUT_SECONDS ∧ timeout ≤ pc_max_ttl_seconds (c_policy (m_config m)))
    else ∀ a k, kv_elem (sb_view b') a k = kv_elem (sb_view b) a k.
Proof.
  intros Hs Hwf Hcfg Hsub Hrule Hact. destruct (restrictive (rf_action c)) eqn:Hres.
  - destruct (restrictive_deployed m b c now sr rule m') as (t & set & key & b' & Hip & Hin & Hinf & Hsp & Hadm & Hal & Hk & Hset & Hkey & Hel & Hs' &
      Hfr & deadline & Hd & Hd'); [done..|].
    exists t, b'. repeat (split; [done|]). by exists set, key, deadline.
  - destruct (submit_deploys m b c now sr rule m' Hs Hsub Hrule) as (t & o & l & Htgt & Happ & Hval & _); [by rewrite Hact..|].
    destruct (target_for_device m c t Hwf Hcfg Htgt) as (Hip & _ & Hin).
    pose proof (set_approved_stages c (Some t) (m_config m) (m_known m) (_active_targets m) (m_allowlist m) (m_limiter m) now (m_local m)) as Hst.
    rewrite Hval in Hst. destruct (Hst Happ) as (t' & _ & _ & _ & _ & _ & _ & _ & _ & _ & Hdec & _).
    destruct (submit_without_block m b c now (Ok sr) m') as (_ & _ & b' & Hs' & Hnow & Helem & Hg & Htab); [done|by intros Hb; rewrite Hb in Hres|done|].
    assert (Hall : ∀ a k, kv_elem (sb_view b') a k = kv_elem (sb_view b) a k).
    { intros a k. apply Helem. intros t2 set. by destruct (rf_action c). }
    exists t, b'. do 4 (split; [done|]). split; [|exact Hall]. apply view_eq_lifecycle.
    split; [exact Hnow|]. split; [exact Hall|]. by split.
Qed.

(** A submission that does not restrict its device writes nothing. *)
Lemma submit_harmless m b (c : CandidateRule) now r m' :
  m_sets m = Some b → restrictive (rf_action c) = false → submit_candidate c now m = (r, m') → kernel_kept b m'.
Proof.
  intros Hs Hres Hsub. destruct (submit_without_block m b c now r m' Hs ltac:(by intros Hb; rewrite Hb in Hres) Hsub)
    as (_ & _ & b' & Hs' & ? & Hel & ? & ?). exists b'. split; [done|]. split_and!; try done.
  intros a k. apply Hel. intros t set. by destruct (rf_action c).
Qed.

(** A deployment the kernel refuses leaves the kernel as it was and every
    other rule as it was; the rule ends REJECTED and the event is CRITICAL. *)
Theorem failed_deploy_changes_nothing m b c now sr rule m' :
  m_sets m = Some b → submit_candidate c now m = (Ok sr, m') → sr_rule sr = Some rule →
  fr_status rule = REJECTED →
  ev_severity (sr_event sr) = SEV_CRITICAL ∧ get_rule m' (cr_id c) = Some rule ∧
  (∀ id, id ≠ cr_id c → get_rule m' id = get_rule m id) ∧
  kernel_kept b m'.
Proof.
  intros Hs Hsub Hrule Hrej.
  destruct (submit_outcomes m b c now sr rule m' Hs Hsub Hrule) as
    (t & o & l & ops & md & r & b' & _ & _ & _ & _ & Hap & Hs' & Hout); [by rewrite Hrej..|].
  destruct r as [[]|e]; [destruct Hout as [-> _]; done|]. destruct Hout as (_ & Hsev & Hr).
  unfold get_rule. rewrite Hr. split; [done|]. split; [apply dget_set_eq|].
  split; [intros id Hne; by rewrite dget_set_ne|]. exists b'. split; [done|].
  apply apply_law in Hap. apply Hap.
Qed.

(** The rule an approved BLOCK upgrades is the first ACTIVE RATE_LIMIT on
    its device. *)
Lemma upgrade_supersedes m (c : CandidateRule) t s id :
  lc m → rf_action c = BLOCK → head (upgradable c t (_active_targets m)) = Some s →
  Some id = head ((λ e, fr_id (at_rule e)) <$> upgradable c t (_active_targets m)) →
  superseded_rule m (Some id) = Some (at_rule s) ∧ get_rule m (fr_id (at_rule s)) = Some (at_rule s).
Proof.
  intros Hlc Hblk Hhead Hid.
  destruct (upgradable c t (_active_targets m)) as [|e0 l0] eqn:Hu; [done|]. injection Hhead as ->.
  injection Hid as ->.
  assert (Hs0 : s ∈ upgradable c t (_active_targets m)) by (rewrite Hu; set_solver).
  unfold upgradable in Hs0. rewrite decide_True in Hs0 by done. apply list_elem_of_filter in Hs0 as [_ Hs0].
  unfold _active_targets in Hs0. apply list_elem_of_omap in Hs0 as (r1 & Hr1 & Ho).
  destruct (dget (m_targets m) (fr_id r1)); [|done]. injection Ho as <-. cbn [at_rule].
  destruct (active_rules_snapshot m Hlc) as [_ Hsnap]. destruct (Hsnap _ Hr1) as [Hget Hact].
  unfold superseded_rule, get_rule. cbn. rewrite Hget. unfold is_active. by rewrite bool_decide_eq_true_2.
Qed.

(** Replacing one element by another, in different sets, in one batch. *)
Lemma replace_effect clock (cur : set_address → ElementKey → option (option Z)) s set_s key_s set key timeout :
  _element_of s = Some (set_s, key_s) → set ≠ set_s →
  let after a k := ops_effect clock a k (cur a k) (_delete_ops s ++ [adaptive_op OP_ADD set (KStr key) timeout]) in
  after (adaptive_address set_s) (KStr key_s) = None ∧ is_Some (after (adaptive_address set) (KStr key)).
Proof.
  intros Hel Hdiff. split.
  - apply ops_effect_deletes.
    + intros op Hop Ha _. apply elem_of_app in Hop as [Hop|Hop]; [by eapply _delete_ops_kind|].
      apply list_elem_of_singleton in Hop as ->. injection Ha as Ha. done.
    + eexists. split; [apply elem_of_app; left|]. { unfold _delete_ops. rewrite Hel. by apply list_elem_of_singleton. } done.
  - rewrite (ops_effect_last_add _ _ (adaptive_op OP_ADD set (KStr key) _)) by done.
    unfold op_effect. cbn [op_kind adaptive_op]. destruct (ops_effect _ _ _ _ _); by eauto.
Qed.

(** C5: Escalation is atomic: a BLOCK that replaces the ACTIVE RATE_LIMIT on
    its device either takes effect with the rate-limit element gone and its
    rule REMOVED, or is refused with the kernel unchanged and that rule
    still ACTIVE.  There is no state in which the device is restricted by
    neither. *)
Theorem upgrade_is_atomic m b (c : CandidateRule) now sr rule m' t s set_s key_s :
  reachable m → m_sets m = Some b → rf_action c = BLOCK → get_rule m (cr_id c) = None →
  _target_for m c = Ok (Some t) →
  head (upgradable c t (_active_targets m)) = Some s →
  _element_of (at_rule s) = Some (set_s, key_s) → set_s = SET_RATELIMIT_MAC ∨ set_s = SET_RATELIMIT4 →
  submit_candidate c now m = (Ok sr, m') → sr_rule sr = Some rule →
  fr_status rule ≠ SHADOWED → fr_status rule ≠ PENDING_APPROVAL →
  ∃ b', m_sets m' = Some b' ∧
  ((fr_status rule = ACTIVE ∧
    get_rule m' (fr_id (at_rule s)) = Some (rule_with_status (at_rule s) REMOVED) ∧
    kv_elem (sb_view b') (adaptive_address set_s) (KStr key_s) = None ∧
    ∃ set key, _element_of rule = Some (set, key) ∧ enforcement_set_for BLOCK t = Some set ∧
      element_live b' set key) ∨
   (fr_status rule = REJECTED ∧ get_rule m' (fr_id (at_rule s)) = Some (at_rule s) ∧
    view_eq (sb_view b') (sb_view b))).
Proof.
  intros Hreach%reachable_lc Hs Hblk Hfresh Htgt Hhead Hel Hsets Hsub Hrule Hn1 Hn2.
  destruct (submit_outcomes m b c now sr rule m' Hs Hsub Hrule Hn1 Hn2) as
    (t' & o & l & ops & md & r & b' & Htgt' & Happ & Hval & Hplan & Hap & Hs' & Hout).
  rewrite Htgt in Htgt'. injection Htgt' as <-.
  pose proof (set_approved_stages c (Some t) (m_config m) (m_known m) (_active_targets m) (m_allowlist m)
    (m_limiter m) now (m_local m)) as Hst. rewrite Hval in Hst.
  destruct (Hst Happ) as (t' & [= <-] & _ & _ & _ & _ & _ & _ & _ & Hexp & _ & Hup).
  cbn [fst] in Hup.
  destruct (so_upgrade_of o) as [id|] eqn:Hupo.
  2: { destruct (upgradable c t (_active_targets m)); [done|discriminate Hup]. }
  destruct (upgrade_supersedes m c t s id Hreach Hblk Hhead Hup) as [Hsup Hget].
  assert (Hne : fr_id (at_rule s) ≠ cr_id c) by congruence.
  rewrite Hsup in *. exists b'. split; [done|]. unfold get_rule. destruct r as [[]|e].
  2: { destruct Hout as (-> & _ & Hr). right. split; [done|]. rewrite Hr, dget_set_ne by done.
       split; [done|]. by apply apply_law in Hap as [Hv _]. }
  destruct Hout as (-> & Hr). left. split; [done|]. split.
  { rewrite Hr, dget_set_ne by done. cbn [superseded_rules]. by rewrite dget_set_eq. }
  assert (He : ∃ e, cr_expires_at c = Some e).
  { unfold _validate_set_expiration in Hexp. destruct (cr_expires_at c); [by eauto|done]. }
  destruct He as [e He]. set (m1 := validated_state m c t l now) in *. set (r0 := rule_of_candidate _ _ _) in *.
  destruct (deploy_plan_restrictive m1 r0 t (Some (at_rule s)) now e He) as (set & key & Hset & Hkey & Hplan');
    [by cbn; rewrite Hblk|].
  rewrite Hplan in Hplan'. injection Hplan' as Hops Hmd.
  apply apply_law in Hap as (_ & _ & Helem & _). rewrite Hops in Helem.
  assert (Hset' : enforcement_set_for BLOCK t = Some set) by (cbn in Hset; by rewrite Hblk in Hset).
  assert (Hdiff : set ≠ set_s).
  { cbn in Hset'. destruct (rt_mac t); injection Hset' as <-; by destruct Hsets as [-> | ->]. }
  destruct (replace_effect (kv_now (sb_view b)) (kv_elem (sb_view b)) (at_rule s) set_s key_s set key
    (Some (element_timeout_seconds e now (pc_max_ttl_seconds (c_policy (m_config m1)))))) as [Hgone Hlive]; [done..|].
  rewrite !Helem. split; [done|]. exists set, key. split; [rewrite Hmd; apply element_of_deployed|].
  split; [done|]. unfold element_live. by rewrite Helem.
Qed.

(** ** Retirement and expiry *)

Definition kernel_frame m m' : Prop :=
  match m_sets m, m_sets m' with
  | Some b, Some b' => lifecycle_frame (sb_view b) (sb_view b')
  | None, None => True
  | _, _ => False
  end.

#[export] Instance kernel_frame_preorder : PreOrder kernel_frame.
Proof.
  split; [intros m; unfold kernel_frame; by destruct (m_sets m)|].
  intros m1 m2 m3. unfold kernel_frame. destruct (m_sets m1), (m_sets m2), (m_sets m3); try done. by intros; etrans.
Qed.

Lemma retire_kernel_frame m id to now reason :
  lc m → retired_status to → kernel_frame m (_retire_rule id to now reason m).2.
Proof.
  intros Hlc Hto. unfold _retire_rule, mbind, m_bind, mget.
  destruct (dget (m_rules m) id) as [r|]; [|cbn; reflexivity].
  destruct (is_active r); cbn [negb]; [|cbn; reflexivity].
  unfold suppress_firewall, try_firewall, kernel_frame. destruct (m_sets m) as [b|] eqn:Hs.
  - unfold _delete_element. destruct (_delete_ops r) as [|op ops] eqn:Hops; [cbn; by rewrite Hs|].
    unfold on_sets. rewrite Hs. destruct (sb_apply (op :: ops) b) as [x b'] eqn:Hap.
    assert (Hf : lifecycle_frame (sb_view b) (sb_view b')).
    { eapply apply_lifecycle_frame; [|exact Hap]. rewrite <- Hops. apply _delete_ops_str. }
    destruct x as [[]|[]]; cbn; done.
  - unfold on_backend. destruct (fb_remove_rule id (m_backend m)) as [[[]|[]] f']; cbn; by rewrite ?Hs.
Qed.

Definition expired_if_due (now : Z) (r : FirewallRule) : FirewallRule :=
  if is_expired now r then rule_with_status r EXPIRED else r.

Lemma is_expired_active now r : is_expired now r = true → is_active r = true.
Proof. unfold is_expired. intros. by bool_prop. Qed.

Lemma expire_loop_spec now rules : ∀ m acc, lc m → NoDup (fr_id <$> rules) →
  (∀ r, r ∈ rules → dget (m_rules m) (fr_id r) = Some r) →
  ∃ m', expire_loop now rules acc m =
          (Ok (acc ++ (expired_if_due now <$> filter (λ r, is_expired now r = true) rules)), m') ∧
    lc m' ∧ kernel_frame m m' ∧
    ∀ id, dget (m_rules m') id =
          (if decide (id ∈ fr_id <$> rules) then expired_if_due now <$> dget (m_rules m) id
           else dget (m_rules m) id).
Proof.
  induction rules as [|r rules IH]; intros m acc Hlc Hnd Hin.
  { exists m. cbn. rewrite app_nil_r. do 2 (split; [done|]). split; [reflexivity|]. done. }
  rewrite fmap_cons, NoDup_cons in Hnd. destruct Hnd as [Hnin Hnd].
  assert (Hr : dget (m_rules m) (fr_id r) = Some r) by (apply Hin; by left).
  cbn [expire_loop]. rewrite filter_cons. destruct (is_expired now r) eqn:Hx; cbn [negb].
  - unfold mbind, m_bind. pose proof (retire_kernel_frame m (fr_id r) EXPIRED now "rule TTL elapsed") as Hkf.
    destruct (_retire_rule_spec m (fr_id r) EXPIRED now "rule TTL elapsed") as (m1 & Hlc1 & _ & Hspec); [done|by left|].
    rewrite Hr, (is_expired_active _ _ Hx) in Hspec. destruct Hspec as [Heq Hr1]. rewrite Heq in *.
    destruct (IH m1 (acc ++ [rule_with_status r EXPIRED])) as (m' & -> & Hlc' & Hkf' & Hres); [done|done| |].
    { intros r' Hr'. rewrite Hr1, dget_set_ne; [apply Hin; by right|].
      intros Heq'. apply Hnin. rewrite Heq'. by apply list_elem_of_fmap_2. }
    exists m'. rewrite decide_True by done. split.
    { rewrite fmap_cons, <- app_assoc. unfold expired_if_due at 2. by rewrite Hx. }
    split; [done|]. split; [etrans; [apply Hkf; [done|by left]|done]|]. intros id. rewrite Hres, Hr1, dget_set.
    destruct (decide (id = fr_id r)) as [->|Hne].
    + rewrite (decide_False (P := _ ∈ fr_id <$> rules)), !decide_True by (done || set_solver).
      rewrite Hr. cbn. unfold expired_if_due. by rewrite Hx.
    + rewrite (decide_False (P := fr_id r = id)) by done.
      destruct (decide (id ∈ fr_id <$> rules)); [rewrite decide_True by set_solver|rewrite decide_False by set_solver]; done.
  - rewrite decide_False by done.
    destruct (IH m acc) as (m' & -> & Hlc' & Hkf' & Hres); [done..|intros; apply Hin; by right|].
    exists m'. do 3 (split; [done|]). intros id. rewrite Hres.
    destruct (decide (id = fr_id r)) as [->|Hne].
    + rewrite decide_False, decide_True by (done || set_solver). rewrite Hr. cbn. unfold expired_if_due. by rewrite Hx.
    + destruct (decide (id ∈ fr_id <$> rules)); [rewrite decide_True by set_solver|rewrite decide_False by set_solver]; done.
Qed.

(** [expire_rules] never raises and retires exactly the ACTIVE rules whose
    time has come: it returns them, every other rule is as it was, no
    ACTIVE rule past its expiry is left, and the kernel changed in the
    enforcement sets at most. *)
Theorem expire_rules_exact m now :
  reachable m →
  ∃ m', expire_rules now m =
          (Ok ((λ r, rule_with_status r EXPIRED) <$> filter (λ r, is_expired now r = true) (all_rules m)), m') ∧
    (∀ id, get_rule m' id =
           (λ r, if is_expired now r then rule_with_status r EXPIRED else r) <$> get_rule m id) ∧
    (∀ r e, r ∈ active_rules m' → fr_expires_at r = Some e → now < e) ∧ kernel_frame m m'.
Proof.
  intros Hlc%reachable_lc. destruct (lc_snapshot m Hlc) as (Hnd & Hin & Hdom).
  destruct (expire_loop_spec now (dvalues (m_rules m)) m [] Hlc Hnd Hin) as (m' & Heq & Hlc' & Hkf & Hres).
  assert (Hget : ∀ id, get_rule m' id = expired_if_due now <$> get_rule m id).
  { intros id. unfold get_rule. rewrite Hres. case_decide as Hd; [done|]. rewrite Hdom in Hd.
    by destruct (dget (m_rules m) id); [destruct Hd|]. }
  exists m'. split; [|split; [done|split; [|done]]].
  - unfold expire_rules, mbind, m_bind, mget. rewrite Heq. cbn [app]. do 2 f_equal.
    apply list_fmap_ext. intros i r Hi%list_elem_of_lookup_2. apply list_elem_of_filter in Hi as [Hx _].
    unfold expired_if_due. by rewrite Hx.
  - intros r e Hr He. destruct (active_rules_snapshot m' Hlc') as [_ Hsnap]. destruct (Hsnap r Hr) as [Hg Hact].
    specialize (Hget (fr_id r)). unfold get_rule in Hget. rewrite Hg in Hget.
    destruct (dget (m_rules m) (fr_id r)) as [r0|]; [|done]. injection Hget as Hr0. unfold expired_if_due in Hr0.
    destruct (is_expired now r0) eqn:Hx; subst r; [done|]. unfold is_expired, is_active in Hx.
    rewrite Hact, He, bool_decide_eq_true_2 in Hx by done. cbn [andb] in Hx. bool_prop. lia.
Qed.
End Enforce.
