(* ===== verification/Bindings.v ===== *)
(** * Device bindings (pirewall/core/bindings.py, core/binding_table.py)

    The strict dnsmasq lease parser and [LeaseBindingTable].  The lease file
    is client-controlled text, so it is modelled as Unicode code points and
    split the way [str.splitlines] splits it; everything the parser reads is
    ASCII, so a line is then read as a string in which every other character
    is one that no pattern accepts. *)

From S2P Require Import Prelude Float Net Models.
Local Open Scope Z_scope.

Definition MAX_LEASE_FILE_BYTES : Z := 1024 * 1024.
Definition _MAX_LINE_CHARS : Z := 512.

Inductive IgnoredLease :=
| MALFORMED | TOO_LONG | IPV6 | INFINITE | OUTSIDE_NETWORK | NOT_UNICAST | DUPLICATE_LEASE | CONFLICT_LEASE.

#[global] Instance IgnoredLease_eq_dec : EqDecision IgnoredLease.
Proof. solve_decision. Defined.

Record LeaseParse : Type := mk_parse { lp_bindings : list Binding; lp_ignored : list (IgnoredLease * Z) }.

Definition ignored_total (p : LeaseParse) : Z := foldr Z.add 0 (dvalues (lp_ignored p)).

(** ** Text *)

(** A decoded text: its code points. *)
Definition text : Type := list Z.

(** The line boundaries of [str.splitlines], [\r\n] apart. *)
Definition is_break (c : Z) : bool := inb c [10; 11; 12; 13; 28; 29; 30; 133; 8232; 8233].

(** [text.splitlines()]: no empty last line after a final boundary. *)
Fixpoint split_lines (cur : text) (l : text) : list text :=
  match l with
  | [] => match cur with [] => [] | _ => [reverse cur] end
  | c :: l' =>
      if is_break c then
        reverse cur ::
          match c, l' with
          | 13, 10 :: l'' => split_lines [] l''
          | _, _ => split_lines [] l'
          end
      else split_lines (c :: cur) l'
  end.

(** [str.isspace] *)
Definition is_space (c : Z) : bool :=
  (9 <=? c) && (c <=? 13) || (28 <=? c) && (c <=? 32) || (8192 <=? c) && (c <=? 8202)
  || inb c [133; 160; 5760; 8232; 8233; 8239; 8287; 12288].

(** [not line.strip()] *)
Definition is_blank (line : text) : bool := forallb is_space line.

(** A line as the parser sees it: a character outside ASCII is one that no
    field pattern matches. *)
Definition as_chars (line : text) : list ascii :=
  (λ c, if (0 <=? c) && (c <? 128) then ascii_of_nat (Z.to_nat c) else ascii_of_nat 255) <$> line.

(** ** IPv6 addresses, to tell an IPv6 lease from a malformed line

    [ipaddress.IPv6Address(field)] accepts or refuses; the value is unused. *)

Definition hextet (w : list ascii) : bool :=
  forallb Mac.is_hex w && negb (bool_decide (w = [])) && (length w <=? 4)%nat.

(** Positions of the empty parts strictly between the first and the last. *)
Definition inner_empty (parts : list (list ascii)) : list nat :=
  filter (λ i, (0 < i)%nat ∧ (i < length parts - 1)%nat ∧ parts !! i = Some []) (seq 0 (length parts)).

Definition ipv6_parts (parts : list (list ascii)) : bool :=
  let n := length parts in
  if (n <? 3)%nat || (9 <? n)%nat then false
  else
    let first_empty := bool_decide (head parts = Some []) in
    let last_empty := bool_decide (last parts = Some []) in
    match inner_empty parts with
    | [] => (n =? 8)%nat && forallb hextet parts
    | [i] =>
        let hi := if first_empty then (i - 1)%nat else i in
        let lo := if last_empty then (n - i - 2)%nat else (n - i - 1)%nat in
        negb (first_empty && negb (hi =? 0)%nat) && negb (last_empty && negb (lo =? 0)%nat)
        && (hi + lo <? 8)%nat && forallb hextet (take hi parts) && forallb hextet (drop (n - lo) parts)
    | _ => false
    end.

(** A dotted last part stands for two hextets. *)
Definition ipv6_text (l : list ascii) : bool :=
  let parts := split_on ":"%char l in
  match last parts with
  | Some w =>
      if inb "."%char w then
        match IPv4.parse_chars w with
        | Some _ => (3 <=? length parts)%nat && ipv6_parts (removelast parts ++ [["0"%char]; ["0"%char]])
        | None => false
        end
      else ipv6_parts parts
  | None => false
  end.

(** The scope id after [%] must be non-empty and hold no second [%]. *)
Definition _is_ipv6 (field : list ascii) : bool :=
  negb (inb "/"%char field) &&
  match split_on "%"%char field with
  | [a] => ipv6_text a
  | [a; scope] => negb (bool_decide (scope = [])) && ipv6_text a
  | _ => false
  end.

(** ** One line *)

Definition digits_between (lo hi : nat) (w : list ascii) : bool :=
  forallb IPv4.is_digit w && (lo <=? length w)%nat && (length w <=? hi)%nat.

(** The three captured groups of [_LEASE_LINE]; [None] when the line does
    not match.  The fields hold no space, so matching the whole line is
    splitting it into five fields and matching each. *)
Definition match_lease_line (line : list ascii) : option (list ascii * list ascii * list ascii) :=
  match split_on " "%char line with
  | [expiry; mac; ip; host; client] =>
      if digits_between 1 11 expiry
         && (bool_decide (length (split_on ":"%char mac) = 6%nat)
             && forallb (λ o, forallb Mac.is_hex o && bool_decide (length o = 2%nat)) (split_on ":"%char mac))
         && (bool_decide (length (split_on "."%char ip) = 4%nat)
             && forallb (digits_between 1 3) (split_on "."%char ip))
         && negb (bool_decide (host = [])) && negb (bool_decide (client = []))
      then Some (expiry, mac, ip) else None
  | _ => None
  end.

Definition _parse_line (line : list ascii) (protected : IPv4.network) : Binding + IgnoredLease :=
  match match_lease_line line with
  | None =>
      let fields := split_on " "%char line in
      if bool_decide (head fields = Some (string_to_list "duid"))
         || (length fields =? 5)%nat && match fields !! 2%nat with Some f => _is_ipv6 f | None => false end
      then inr IPV6 else inr MALFORMED
  | Some (expiry, mac, ip) =>
      match IPv4.parse_chars ip with
      | None => inr MALFORMED
      | Some a =>
          let e := IPv4.dec_val 0 expiry in
          if e =? 0 then inr INFINITE
          else if negb (IPv4.contains protected a) then inr OUTSIDE_NETWORK
          else match Mac.validate_unicast (string_of_list mac) with
               | None => inr NOT_UNICAST
               | Some m => inl (mk_binding a m LEASE (Some (seconds e)))
               end
      end
  end.

(** [binding.expires_at] of a lease binding *)
Definition _expiry (b : Binding) : Z := default 0 (b_expires_at b).

(** ** The file *)

Definition count_ignored (ignored : list (IgnoredLease * Z)) (r : IgnoredLease) : list (IgnoredLease * Z) :=
  dset ignored r (default 0 (dget ignored r) + 1).

Definition pair_of (b : Binding) : IPv4.t * Mac.t := (b_ip b, b_mac b).

Definition parse_state : Type := list (IgnoredLease * Z) * list (IPv4.t * Mac.t * Binding).

(** One usable lease: a duplicate pair is counted and keeps the later expiry. *)
Definition add_lease (st : parse_state) (b : Binding) : parse_state :=
  let '(ignored, by_pair) := st in
  match dget by_pair (pair_of b) with
  | Some previous =>
      let ignored := count_ignored ignored DUPLICATE_LEASE in
      if _expiry b <=? _expiry previous then (ignored, by_pair) else (ignored, dset by_pair (pair_of b) b)
  | None => (ignored, dset by_pair (pair_of b) b)
  end.

Definition parse_step (protected : IPv4.network) (st : parse_state) (line : text) : parse_state :=
  if is_blank line then st
  else if _MAX_LINE_CHARS <? Z.of_nat (length line) then (count_ignored st.1 TOO_LONG, st.2)
  else match _parse_line (as_chars line) protected with
       | inr reason => (count_ignored st.1 reason, st.2)
       | inl b => add_lease st b
       end.

Definition lease_leb (p q : IPv4.t * Mac.t * Binding) : bool :=
  if p.1.1 =? q.1.1 then String.leb p.1.2 q.1.2 else p.1.1 <? q.1.1.

(** [len(macs_by_ip[ip]) > 1] *)
Definition ambiguous (by_pair : list (IPv4.t * Mac.t * Binding)) (ip : IPv4.t) : bool :=
  (1 <? length (dedup ((λ p : IPv4.t * Mac.t * Binding, p.1.2) <$> filter (λ p, p.1.1 = ip) by_pair)))%nat.

Definition parse_leases (content : text) (protected : IPv4.network) : LeaseParse :=
  let '(ignored, by_pair) := foldl (parse_step protected) ([], []) (split_lines [] content) in
  let items := py_sorted lease_leb by_pair in
  mk_parse (snd <$> filter (λ p : IPv4.t * Mac.t * Binding, ambiguous by_pair p.1.1 = false) items)
    (foldl (λ acc _, count_ignored acc CONFLICT_LEASE) ignored
      (filter (λ p : IPv4.t * Mac.t * Binding, ambiguous by_pair p.1.1 = true) items)).

(** ** The table *)

Record StaticBindingEntry : Type := mk_static { sb_ip : IPv4.t; sb_mac : Mac.t; sb_reason : string }.

Definition static_bindings (entries : list StaticBindingEntry) : list Binding :=
  (λ e, mk_binding (sb_ip e) (sb_mac e) STATIC None) <$> entries.

Record LeaseBindingTable : Type := mk_table {
  lt_static : list (IPv4.t * Binding);
  lt_static_macs : list Mac.t;
  lt_leases : list (IPv4.t * Binding);
}.

Fixpoint load_static (static : list Binding) (t : LeaseBindingTable) : result LeaseBindingTable :=
  match static with
  | [] => Ok t
  | b :: rest =>
      if decide (b_source b = STATIC)
      then load_static rest (mk_table (dset (lt_static t) (b_ip b) b) (b_mac b :: lt_static_macs t) (lt_leases t))
      else Raise (ValueError "LeaseBindingTable(static=...) takes STATIC bindings only")
  end.

(** [LeaseBindingTable(static)] *)
Definition new_table (static : list Binding) : result LeaseBindingTable := load_static static (mk_table [] [] []).

Definition lookup_binding (t : LeaseBindingTable) (ip : IPv4.t) : option Binding :=
  match dget (lt_static t) ip with Some b => Some b | None => dget (lt_leases t) ip end.

Definition resolve_mac (t : LeaseBindingTable) (ip : IPv4.t) : option Mac.t := b_mac <$> lookup_binding t ip.

(** [max(leases, key=_expiry)]: the first of the latest-expiring. *)
Fixpoint latest (best : Binding) (l : list Binding) : Binding :=
  match l with
  | [] => best
  | b :: l' => latest (if _expiry best <? _expiry b then b else best) l'
  end.

Definition resolve_ip (t : LeaseBindingTable) (mac : Mac.t) : option IPv4.t :=
  match filter (λ b, b_mac b = mac) (dvalues (lt_static t)) with
  | b :: _ => Some (b_ip b)
  | [] => match filter (λ b, b_mac b = mac) (dvalues (lt_leases t)) with
          | [] => None
          | b :: l => Some (b_ip (latest b l))
          end
  end.

Definition ip_leb (a b : Binding) : bool := b_ip a <=? b_ip b.

Definition snapshot (t : LeaseBindingTable) : list Binding :=
  py_sorted ip_leb (dvalues (lt_static t)) ++ py_sorted ip_leb (dvalues (lt_leases t)).

(** A lease that names a static address or device, or has run out, is absent. *)
Definition admissible (t : LeaseBindingTable) (now : Z) (b : Binding) : bool :=
  (now <? _expiry b) && negb (dmem (lt_static t) (b_ip b)) && negb (inb (b_mac b) (lt_static_macs t)).

Fixpoint wanted_leases (t : LeaseBindingTable) (now : Z) (leases : list Binding)
  (wanted : list (IPv4.t * Binding)) : result (list (IPv4.t * Binding)) :=
  match leases with
  | [] => Ok wanted
  | b :: rest =>
      if negb (bool_decide (b_source b = LEASE)) then Raise (ValueError "apply_leases takes LEASE bindings only")
      else if negb (admissible t now b) then wanted_leases t now rest wanted
      else wanted_leases t now rest
             (match dget wanted (b_ip b) with
              | Some current => if _expiry current <? _expiry b then dset wanted (b_ip b) b else wanted
              | None => dset wanted (b_ip b) b
              end)
  end.

(** The bindings of [d] that [d'] does not hold as they are. *)
Definition changed_from (d d' : list (IPv4.t * Binding)) : list Binding :=
  snd <$> filter (λ p : IPv4.t * Binding, dget d' p.1 ≠ Some p.2) d.

Definition apply_leases (leases : list Binding) (now : Z) : M LeaseBindingTable BindingChange := λ t,
  match wanted_leases t now leases [] with
  | Raise e => (Raise e, t)
  | Ok wanted =>
      (Ok (mk_change (py_sorted ip_leb (changed_from (lt_leases t) wanted))
                     (py_sorted ip_leb (changed_from wanted (lt_leases t)))),
       mk_table (lt_static t) (lt_static_macs t) wanted)
  end.

(** ** The parser *)

(** The hostname and client-id fields, whatever a DHCP client put there,
    influence nothing of what a lease line parses to. *)
Theorem lease_line_ignores_client_fields expiry mac ip host client host' client' protected :
  Forall (λ w, " "%char ∉ w) [expiry; mac; ip; host; client; host'; client'] →
  Forall (λ w, w ≠ []) [host; client; host'; client'] →
  _parse_line (expiry ++ " "%char :: mac ++ " "%char :: ip ++ " "%char :: host ++ " "%char :: client) protected =
  _parse_line (expiry ++ " "%char :: mac ++ " "%char :: ip ++ " "%char :: host' ++ " "%char :: client') protected.
Proof.
  intros Hsp Hne. open_Forall. unfold _parse_line, match_lease_line.
  rewrite !split_on_app, (split_on_no_sep _ client), (split_on_no_sep _ client') by done.
  rewrite (bool_decide_eq_false_2 (host = [])), (bool_decide_eq_false_2 (client = [])),
    (bool_decide_eq_false_2 (host' = [])), (bool_decide_eq_false_2 (client' = [])) by done. reflexivity.
Qed.

Lemma lease_line_ignores_client_fields_witness :
  _parse_line (string_to_list "1760000000 aa:bb:cc:dd:ee:01 192.168.5.20 phone 01:aa") (IPv4.mk_network (IPv4.a_b_c_d 192 168 5 0) 24)
  = _parse_line (string_to_list "1760000000 aa:bb:cc:dd:ee:01 192.168.5.20 ; 192.168.5.99") (IPv4.mk_network (IPv4.a_b_c_d 192 168 5 0) 24).
Proof.
  apply (lease_line_ignores_client_fields (string_to_list "1760000000") (string_to_list "aa:bb:cc:dd:ee:01")
    (string_to_list "192.168.5.20") (string_to_list "phone") (string_to_list "01:aa")
    (string_to_list ";") (string_to_list "192.168.5.99"));
    [apply (bool_decide_unpack _); vm_compute; exact I | apply (bool_decide_unpack _); vm_compute; exact I].
Defined.

(** What a line parses to. *)
Lemma _parse_line_inl line protected b :
  _parse_line line protected = inl b →
  binding_wf b ∧ b_source b = LEASE ∧ IPv4.contains protected (b_ip b) = true ∧ is_Some (b_expires_at b).
Proof.
  unfold _parse_line. destruct (match_lease_line line) as [[[expiry mac] ip]|].
  2: { destruct (_ || _); done. }
  destruct (IPv4.parse_chars ip) as [a|] eqn:Hp; [|done].
  destruct (_ =? 0); [done|]. destruct (IPv4.contains protected a) eqn:Hc; [|done]. cbn [negb].
  destruct (Mac.validate_unicast _) as [m|] eqn:Hm; [|done]. intros [= <-].
  split; [|by eauto]. split; [|split; [|done]].
  - apply (IPv4.parse_valid (string_of_list ip)). unfold IPv4.parse. by rewrite string_to_of_list.
  - by eapply Mac.validate_unicast_idempotent.
Qed.

(** The usable leases of a file, in line order. *)
Definition line_lease (protected : IPv4.network) (line : text) : option Binding :=
  if is_blank line then None
  else if _MAX_LINE_CHARS <? Z.of_nat (length line) then None
  else match _parse_line (as_chars line) protected with inl b => Some b | inr _ => None end.

Definition file_leases (content : text) (protected : IPv4.network) : list Binding :=
  omap (line_lease protected) (split_lines [] content).

(** [by_pair] keeps, for each pair, a lease of the file no other outlasts. *)
Definition pairs_of (ps : list Binding) (d : list (IPv4.t * Mac.t * Binding)) : Prop :=
  dwf d ∧ (∀ k b, dget d k = Some b → b ∈ ps ∧ pair_of b = k) ∧
  (∀ b, b ∈ ps → ∃ b', dget d (pair_of b) = Some b' ∧ _expiry b ≤ _expiry b').

Lemma add_lease_pairs ps ig d b : pairs_of ps d → pairs_of (ps ++ [b]) (add_lease (ig, d) b).2.
Proof.
  intros (Hw & Hin & Hall). unfold add_lease.
  assert (Hset : (∀ p, dget d (pair_of b) = Some p → _expiry p ≤ _expiry b) → pairs_of (ps ++ [b]) (dset d (pair_of b) b)).
  { intros Hle. split; [by apply dwf_set|]. split.
    - intros k b'. rewrite dget_set. case_decide; [intros [= <-]; set_solver|]. intros Hg. apply Hin in Hg. set_solver.
    - intros b'. rewrite elem_of_app, list_elem_of_singleton. intros [Hb| ->].
      + destruct (Hall b' Hb) as (b'' & Hg & He). rewrite dget_set. case_decide as Hk; [|by eauto].
        exists b. split; [done|]. rewrite <- Hk in Hg. specialize (Hle _ Hg). lia.
      + exists b. rewrite dget_set_eq. split; [done|lia]. }
  destruct (dget d (pair_of b)) as [p|] eqn:Hp; [|apply Hset; done].
  destruct (_expiry b <=? _expiry p) eqn:Hle; bool_prop; [|apply Hset; intros ? [= <-]; lia].
  split; [done|]. split; [intros k b' Hg; apply Hin in Hg; set_solver|].
  intros b'. rewrite elem_of_app, list_elem_of_singleton. intros [Hb| ->]; [by auto|by eauto].
Qed.

Lemma parse_fold_pairs protected lines : ∀ ps st, pairs_of ps st.2 →
  pairs_of (ps ++ omap (line_lease protected) lines) (foldl (parse_step protected) st lines).2.
Proof.
  induction lines as [|line lines IH]; intros ps st Hp; cbn [foldl omap list_omap]; [by rewrite app_nil_r|].
  assert (Hskip : ∀ st', st'.2 = st.2 → pairs_of (ps ++ omap (line_lease protected) lines)
                     (foldl (parse_step protected) st' lines).2) by (intros st' Hst; apply IH; by rewrite Hst).
  unfold parse_step at 2. unfold line_lease at 1.
  destruct (is_blank line); [by apply Hskip|]. destruct (_ <? _); [by apply Hskip|].
  destruct (_parse_line (as_chars line) protected) as [b|]; [|by apply Hskip].
  rewrite cons_middle, app_assoc. apply IH. destruct st as [ig d]. by apply add_lease_pairs.
Qed.

Lemma ambiguous_false ps d ip : pairs_of ps d → ambiguous d ip = false →
  ∀ b b', b ∈ ps → b' ∈ ps → b_ip b = ip → b_ip b' = ip → b_mac b = b_mac b'.
Proof.
  intros (Hw & Hin & Hall) Ha b b' Hb Hb' Hip Hip'.
  assert (Hmem : ∀ x, x ∈ ps → b_ip x = ip → b_mac x ∈ dedup ((λ p : IPv4.t * Mac.t * Binding, p.1.2) <$> filter (λ p, p.1.1 = ip) d)).
  { intros x Hx Hxip. apply elem_of_dedup, list_elem_of_fmap. destruct (Hall x Hx) as (y & Hy & _).
    exists (pair_of x, y). split; [done|]. apply list_elem_of_filter. split; [done|]. by apply dget_Some_elem. }
  pose proof (Hmem b Hb Hip) as H1. pose proof (Hmem b' Hb' Hip') as H2. unfold ambiguous in Ha.
  apply Nat.ltb_ge in Ha. destruct (dedup _) as [|x [|y l]]; [set_solver| |cbn in Ha; lia]. set_solver.
Qed.

(** A binding the parser returns is a well-formed LEASE of the protected
    network; no two share an address; it comes from a line of
    the file; no line of the file leases its address to another MAC, and none
    gives its pair a later expiry. *)
Lemma parse_leases_facts content protected :
  let bs := lp_bindings (parse_leases content protected) in
  NoDup (b_ip <$> bs) ∧
  ∀ b, b ∈ bs →
    binding_wf b ∧ b_source b = LEASE ∧ IPv4.contains protected (b_ip b) = true ∧
    b ∈ file_leases content protected ∧
    ∀ b', b' ∈ file_leases content protected → b_ip b' = b_ip b → b_mac b' = b_mac b ∧ _expiry b' ≤ _expiry b.
Proof.
  unfold parse_leases. pose proof (parse_fold_pairs protected (split_lines [] content) [] ([], [])) as Hp.
  destruct (foldl _ _ _) as [ig d]. cbn [snd app] in Hp. fold (file_leases content protected) in Hp.
  assert (Hpairs : pairs_of (file_leases content protected) d) by (apply Hp; split; [constructor|]; set_solver).
  clear Hp. pose proof Hpairs as (Hw & Hin & Hall). cbn [lp_bindings].
  assert (Hmem : ∀ b, b ∈ snd <$> filter (λ p : IPv4.t * Mac.t * Binding, ambiguous d p.1.1 = false) (py_sorted lease_leb d) →
            dget d (pair_of b) = Some b ∧ ambiguous d (b_ip b) = false).
  { intros b Hb. apply list_elem_of_fmap in Hb as ([k b0] & -> & Hf). cbn [snd].
    apply list_elem_of_filter in Hf as [Ha Hf]. rewrite elem_of_py_sorted in Hf. apply dget_elem in Hf; [|done].
    destruct (Hin _ _ Hf) as [_ <-]. done. }
  split.
  - rewrite <- list_fmap_compose. apply (NoDup_fmap_2_strong (A:=IPv4.t * Mac.t * Binding) _ _).
    + intros [k1 b1] [k2 b2] H1 H2 Heq. cbn in Heq.
      apply list_elem_of_filter in H1 as [A1 D1]. apply list_elem_of_filter in H2 as [A2 D2].
      rewrite elem_of_py_sorted in D1, D2. apply dget_elem in D1, D2; try done.
      destruct (Hin _ _ D1) as [P1 <-], (Hin _ _ D2) as [P2 <-].
      assert (Hmac : b_mac b1 = b_mac b2) by (eapply ambiguous_false; [done|exact A1|done..|by symmetry]).
      assert (Hk : pair_of b1 = pair_of b2) by (unfold pair_of; congruence).
      rewrite Hk in *. congruence.
    + apply NoDup_filter. rewrite py_sorted_perm. eapply NoDup_fmap_1, Hw.
  - intros b Hb. destruct (Hmem b Hb) as [Hg Ha]. destruct (Hin _ _ Hg) as [Hps _].
    pose proof Hps as Hfile. unfold file_leases in Hfile. apply list_elem_of_omap in Hfile as (line & _ & Hl).
    unfold line_lease in Hl. destruct (is_blank line); [done|]. destruct (_ <? _); [done|].
    destruct (_parse_line (as_chars line) protected) as [b0|] eqn:Hpl; [|done]. injection Hl as ->.
    apply _parse_line_inl in Hpl as (Hbw & Hsrc & Hc & _). do 4 (split; [done|]).
    intros b' Hb' Hip. assert (Hmac : b_mac b' = b_mac b) by by eapply ambiguous_false.
    split; [done|]. destruct (Hall b' Hb') as (b'' & Hg'' & He).
    assert (Hk : pair_of b' = pair_of b) by (unfold pair_of; congruence). rewrite Hk in Hg''. congruence.
Qed.

(** Every line is accounted for. *)
Definition total (ignored : list (IgnoredLease * Z)) : Z := foldr Z.add 0 (dvalues ignored).

Lemma total_count ignored r : total (count_ignored ignored r) = total ignored + 1.
Proof.
  unfold total, count_ignored. induction ignored as [|[k v] d IH]; [done|]. cbn.
  case_decide; cbn; [lia|]. unfold dvalues in IH. rewrite IH. lia.
Qed.

Lemma total_counts {A} r (l : list A) : ∀ ignored,
  total (foldl (λ acc _, count_ignored acc r) ignored l) = total ignored + Z.of_nat (length l).
Proof. induction l as [|x l IH]; intros ignored; cbn [foldl length]; [lia|]. rewrite IH, total_count. lia. Qed.

Definition accounted (st : parse_state) : Z := total st.1 + Z.of_nat (length st.2).

Lemma add_lease_accounted st b : accounted (add_lease st b) = accounted st + 1.
Proof.
  destruct st as [ig d]. unfold add_lease, accounted. pose proof (dset_length d (pair_of b) b) as Hlen.
  destruct (dget d (pair_of b)) as [p|] eqn:Hg.
  - rewrite decide_True in Hlen by (apply dget_is_Some; by rewrite Hg).
    destruct (_ <=? _); cbn [fst snd]; rewrite total_count; lia.
  - rewrite decide_False in Hlen by (rewrite <- dget_is_Some, Hg; by intros [? ?]). cbn [fst snd]. lia.
Qed.

Lemma parse_fold_accounted protected lines : ∀ st,
  accounted (foldl (parse_step protected) st lines) =
  accounted st + Z.of_nat (length (filter (λ l, is_blank l = false) lines)).
Proof.
  induction lines as [|line lines IH]; intros st; cbn [foldl]; [cbn; lia|].
  rewrite IH, filter_cons. unfold parse_step. destruct (is_blank line).
  { by rewrite decide_False. }
  rewrite decide_True by done. cbn [length].
  assert (Hone : ∀ r, accounted (count_ignored st.1 r, st.2) = accounted st + 1).
  { intros r. unfold accounted. cbn [fst snd]. rewrite total_count. lia. }
  destruct (_ <? _); [rewrite Hone; lia|].
  destruct (_parse_line _ _); [rewrite add_lease_accounted; lia|rewrite Hone; lia].
Qed.

Lemma parse_leases_accounted content protected :
  let p := parse_leases content protected in
  Z.of_nat (length (lp_bindings p)) + ignored_total p =
  Z.of_nat (length (filter (λ l, is_blank l = false) (split_lines [] content))).
Proof.
  unfold parse_leases. pose proof (parse_fold_accounted protected (split_lines [] content) ([], [])) as Hacc.
  destruct (foldl (parse_step protected) _ _) as [ig d]. unfold accounted in Hacc. cbn [fst snd] in Hacc.
  unfold ignored_total. cbn [lp_bindings lp_ignored]. fold (total ig) in Hacc.
  change (foldr Z.add 0 (dvalues ?x)) with (total x). rewrite total_counts, length_fmap.
  pose proof (Permutation_length (py_sorted_perm lease_leb d)) as Hs.
  pose proof (filter_split (λ p : IPv4.t * Mac.t * Binding, ambiguous d p.1.1) (py_sorted lease_leb d)) as Hf.
  change (total []) with 0 in Hacc. cbn [length] in Hacc. lia.
Qed.

(** A lease of the file whose address no other MAC leases is bound. *)
Lemma parse_leases_complete content protected b :
  b ∈ file_leases content protected →
  (∀ b', b' ∈ file_leases content protected → b_ip b' = b_ip b → b_mac b' = b_mac b) →
  ∃ b', b' ∈ lp_bindings (parse_leases content protected) ∧ pair_of b' = pair_of b.
Proof.
  intros Hb Hun. unfold parse_leases. pose proof (parse_fold_pairs protected (split_lines [] content) [] ([], [])) as Hp.
  destruct (foldl _ _ _) as [ig d]. cbn [snd app] in Hp. fold (file_leases content protected) in Hp.
  destruct Hp as (Hw & Hin & Hall); [split; [constructor|]; set_solver|]. cbn [lp_bindings].
  destruct (Hall b Hb) as (b' & Hg & _). exists b'. split; [|by apply Hin].
  apply list_elem_of_fmap. exists (pair_of b, b'). split; [done|]. apply list_elem_of_filter.
  split; [|rewrite elem_of_py_sorted; by apply dget_Some_elem]. cbn [fst pair_of].
  apply Nat.ltb_ge, (same_dedup_length _ (b_mac b)). intros m Hm.
  apply list_elem_of_fmap in Hm as ([k b2] & -> & Hf). apply list_elem_of_filter in Hf as [Hip Hf].
  apply dget_elem in Hf; [|done]. destruct (Hin _ _ Hf) as [Hb2 <-]. by apply Hun.
Qed.

(** The lease parser is sound and loses nothing.  Every binding it returns is
    a well-formed LEASE of the protected network taken from a line of the
    file, no two share an address, no line leases its address to another MAC
    or outlasts it; every usable lease whose address no other MAC claims is
    bound; and every non-blank line is either bound or counted as ignored. *)
Theorem parse_leases_sound content protected :
  let p := parse_leases content protected in
  let file := file_leases content protected in
  NoDup (b_ip <$> lp_bindings p) ∧
  (∀ b, b ∈ lp_bindings p →
     binding_wf b ∧ b_source b = LEASE ∧ IPv4.contains protected (b_ip b) = true ∧ b ∈ file ∧
     ∀ b', b' ∈ file → b_ip b' = b_ip b → b_mac b' = b_mac b ∧ _expiry b' ≤ _expiry b) ∧
  (∀ b, b ∈ file → (∀ b', b' ∈ file → b_ip b' = b_ip b → b_mac b' = b_mac b) →
     ∃ b', b' ∈ lp_bindings p ∧ pair_of b' = pair_of b) ∧
  Z.of_nat (length (lp_bindings p)) + ignored_total p =
    Z.of_nat (length (filter (λ l, is_blank l = false) (split_lines [] content))).
Proof.
  cbv zeta. destruct (parse_leases_facts content protected) as [Hnd Hall].
  split; [done|]. split; [done|]. split; [apply parse_leases_complete|apply parse_leases_accounted].
Qed.

(** ** The table *)

Definition table_wf (t : LeaseBindingTable) : Prop :=
  dwf (lt_static t) ∧ dwf (lt_leases t) ∧
  (∀ ip b, dget (lt_static t) ip = Some b →
     b_ip b = ip ∧ binding_wf b ∧ b_source b = STATIC ∧ b_mac b ∈ lt_static_macs t) ∧
  (∀ ip b, dget (lt_leases t) ip = Some b →
     b_ip b = ip ∧ binding_wf b ∧ b_source b = LEASE ∧ dget (lt_static t) ip = None ∧ b_mac b ∉ lt_static_macs t).

Lemma load_static_wf static : ∀ t t', table_wf t → lt_leases t = [] → Forall binding_wf static →
  load_static static t = Ok t' → table_wf t' ∧ lt_leases t' = [].
Proof.
  induction static as [|b static IH]; intros t t' Hwf Hl Hs Hload; cbn in Hload; [by simplify_eq|].
  case_decide as Hsrc; [|done]. apply Forall_cons in Hs as [Hb Hs].
  eapply IH; [| |done|exact Hload]; [|done]. destruct Hwf as (Hw & Hwl & Hst & _). cbn.
  split; [by apply dwf_set|]. split; [done|]. cbn. split.
  - intros ip b'. rewrite dget_set. case_decide; [intros [= <-]; subst; set_solver|].
    intros Hg. destruct (Hst _ _ Hg) as (? & ? & ? & ?). set_solver.
  - rewrite Hl. done.
Qed.

Lemma new_table_wf static t : Forall binding_wf static → new_table static = Ok t → table_wf t ∧ lt_leases t = [].
Proof.
  intros Hs Hn. apply (load_static_wf static (mk_table [] [] [])); [|done|done|exact Hn].
  split; [constructor|]. split; [constructor|]. done.
Qed.

(** The wanted lease of an address: admissible, offered, outlasted by none. *)
Definition best_lease (t : LeaseBindingTable) (now : Z) (ls : list Binding) (ip : IPv4.t) (b : Binding) : Prop :=
  b ∈ ls ∧ b_ip b = ip ∧ admissible t now b = true ∧
  ∀ b', b' ∈ ls → b_ip b' = ip → admissible t now b' = true → _expiry b' ≤ _expiry b.

Definition wanted_ok (t : LeaseBindingTable) (now : Z) (ls : list Binding) (w : list (IPv4.t * Binding)) : Prop :=
  dwf w ∧ (∀ ip b, dget w ip = Some b → best_lease t now ls ip b) ∧
  (∀ b, b ∈ ls → admissible t now b = true → is_Some (dget w (b_ip b))).

Lemma wanted_ok_skip t now ls w b : admissible t now b = false → wanted_ok t now ls w → wanted_ok t now (ls ++ [b]) w.
Proof.
  intros Ha (Hw & Hbest & Hall). split; [done|]. split.
  - intros ip b0 Hg. destruct (Hbest _ _ Hg) as (H1 & H2 & H3 & H4). split; [set_solver|]. do 2 (split; [done|]).
    intros b'. rewrite elem_of_app, list_elem_of_singleton. intros [?| ->]; [by auto|congruence].
  - intros b0. rewrite elem_of_app, list_elem_of_singleton. intros [?| ->]; [by auto|congruence].
Qed.

Lemma wanted_ok_set t now ls w b : admissible t now b = true → wanted_ok t now ls w →
  wanted_ok t now (ls ++ [b])
    (match dget w (b_ip b) with
     | Some current => if _expiry current <? _expiry b then dset w (b_ip b) b else w
     | None => dset w (b_ip b) b
     end).
Proof.
  intros Ha (Hw & Hbest & Hall).
  assert (Hset : (∀ c, dget w (b_ip b) = Some c → _expiry c ≤ _expiry b) → wanted_ok t now (ls ++ [b]) (dset w (b_ip b) b)).
  { intros Hle. split; [by apply dwf_set|]. split.
    - intros ip b0. rewrite dget_set. case_decide as Hip.
      + intros [= <-]. split; [set_solver|]. do 2 (split; [done|]). intros b'.
        rewrite elem_of_app, list_elem_of_singleton. intros [Hb'| ->] Hip' Ha'; [|lia].
        destruct (Hall b' Hb' Ha') as [c Hc]. rewrite Hip', <- Hip in Hc.
        destruct (Hbest _ _ Hc) as (_ & _ & _ & Hmax). specialize (Hmax b' Hb'). specialize (Hle c Hc).
        rewrite Hip in Hmax. specialize (Hmax Hip' Ha'). lia.
      + intros Hg. destruct (Hbest _ _ Hg) as (H1 & H2 & H3 & H4). split; [set_solver|]. do 2 (split; [done|]).
        intros b'. rewrite elem_of_app, list_elem_of_singleton. intros [?| ->]; [by auto|congruence].
    - intros b0. rewrite elem_of_app, list_elem_of_singleton, dget_set. intros [?| ->] Ha0; case_decide; solve [by eauto | done]. }
  destruct (dget w (b_ip b)) as [c|] eqn:Hc; [|apply Hset; done].
  destruct (_expiry c <? _expiry b) eqn:Hle; bool_prop; [apply Hset; intros ? [= <-]; lia|].
  split; [done|]. split.
  - intros ip b0 Hg. destruct (Hbest _ _ Hg) as (H1 & H2 & H3 & H4). split; [set_solver|]. do 2 (split; [done|]).
    intros b'. rewrite elem_of_app, list_elem_of_singleton. intros [?| ->] Hip' ?; [by auto|]. subst ip.
    rewrite Hip' in Hc. rewrite Hc in Hg. injection Hg as ->. lia.
  - intros b0. rewrite elem_of_app, list_elem_of_singleton. intros [?| ->] ?; [by auto|]. by rewrite Hc.
Qed.

Lemma wanted_leases_spec t now ls : ∀ done_ w, wanted_ok t now done_ w → Forall (λ b, b_source b = LEASE) ls →
  ∃ w', wanted_leases t now ls w = Ok w' ∧ wanted_ok t now (done_ ++ ls) w'.
Proof.
  induction ls as [|b ls IH]; intros done_ w Hok Hsrc; cbn; [rewrite app_nil_r; by eauto|].
  apply Forall_cons in Hsrc as [Hb Hsrc]. rewrite bool_decide_eq_true_2 by done. cbn [negb].
  rewrite cons_middle, app_assoc.
  destruct (admissible t now b) eqn:Ha; cbn [negb]; apply IH; try done.
  - by apply wanted_ok_set.
  - by apply wanted_ok_skip.
Qed.

(** Applying a lease set: static bindings stay as they are and always win;
    an address is leased afterwards exactly when an admissible lease (not
    expired, naming no static address and no static device) was offered for
    it, and then the one no other outlasts; the reported change is exactly
    the difference between the two lease tables. *)
Lemma apply_leases_facts t leases now :
  table_wf t → Forall binding_wf leases → Forall (λ b, b_source b = LEASE) leases →
  ∃ change t', apply_leases leases now t = (Ok change, t') ∧ table_wf t' ∧
    lt_static t' = lt_static t ∧
    (∀ ip b, dget (lt_leases t') ip = Some b → best_lease t now leases ip b) ∧
    (∀ b, b ∈ leases → admissible t now b = true → is_Some (dget (lt_leases t') (b_ip b))) ∧
    (∀ b, b ∈ bc_removed change ↔ dget (lt_leases t) (b_ip b) = Some b ∧ dget (lt_leases t') (b_ip b) ≠ Some b) ∧
    (∀ b, b ∈ bc_added change ↔ dget (lt_leases t') (b_ip b) = Some b ∧ dget (lt_leases t) (b_ip b) ≠ Some b).
Proof.
  intros (Hw & Hwl & Hst & Hls) Hbw Hsrc.
  destruct (wanted_leases_spec t now leases [] []) as (w & Heq & Hww & Hbest & Hall); [|done|].
  { split; [constructor|]. set_solver. }
  unfold apply_leases. rewrite Heq. cbn [app] in *. do 2 eexists. split; [reflexivity|]. cbn.
  assert (Hchg : ∀ d d', dwf d → (∀ ip b, dget d ip = Some b → b_ip b = ip) →
    ∀ b, b ∈ py_sorted ip_leb (changed_from d d') ↔ dget d (b_ip b) = Some b ∧ dget d' (b_ip b) ≠ Some b).
  { clear. intros d d' Hd Hip b. rewrite elem_of_py_sorted. unfold changed_from. rewrite list_elem_of_fmap. split.
    - intros ([ip b'] & -> & Hf). apply list_elem_of_filter in Hf as [Hne Hf]. cbn in *.
      apply dget_elem in Hf; [|done]. pose proof (Hip _ _ Hf) as ->. done.
    - intros [Hg Hne]. exists (b_ip b, b). split; [done|]. apply list_elem_of_filter. split; [done|].
      by apply dget_Some_elem. }
  assert (Hwf' : ∀ ip b, dget w ip = Some b → b_ip b = ip ∧ binding_wf b ∧ b_source b = LEASE ∧
                   dget (lt_static t) ip = None ∧ b_mac b ∉ lt_static_macs t).
  { intros ip b Hg. destruct (Hbest _ _ Hg) as (Hin & Hip & Ha & _). rewrite Forall_forall in Hbw, Hsrc.
    unfold admissible in Ha. bool_prop. subst ip. split; [done|]. split; [by apply Hbw|]. split; [by apply Hsrc|].
    split; [unfold dmem in *; by destruct (dget (lt_static t) (b_ip b))|]. by apply inb_false. }
  split; [split; [done|]; split; [done|]; by split|]. split; [done|]. split; [done|]. split; [done|].
  split; apply Hchg; try done; naive_solver.
Qed.

(** After [apply_leases] every static address still resolves to its static
    MAC; any other address resolves exactly when an admissible lease (not
    expired at [now], naming no static address and no static device) was
    offered for it, and then to the MAC of the offered lease no other
    outlasts. *)
Theorem apply_leases_resolution t leases now :
  table_wf t → Forall binding_wf leases → Forall (λ b, b_source b = LEASE) leases →
  ∃ change t', apply_leases leases now t = (Ok change, t') ∧
    (∀ ip b, dget (lt_static t) ip = Some b → resolve_mac t' ip = Some (b_mac b)) ∧
    (∀ ip mac, dget (lt_static t) ip = None → resolve_mac t' ip = Some mac →
       ∃ b, best_lease t now leases ip b ∧ b_mac b = mac) ∧
    (∀ b, b ∈ leases → admissible t now b = true → is_Some (resolve_mac t' (b_ip b))).
Proof.
  intros Hwf Hb Hs. destruct (apply_leases_facts t leases now Hwf Hb Hs) as (c & t' & Heq & _ & Hst & Hbest & Hall & _).
  exists c, t'. split; [done|]. unfold resolve_mac, lookup_binding. rewrite Hst. split; [|split].
  - intros ip b Hg. by rewrite Hg.
  - intros ip mac Hno. rewrite Hno. destruct (dget (lt_leases t') ip) as [b|] eqn:Hg; [|done].
    intros [= <-]. by eauto.
  - intros b Hin Ha. destruct (dget (lt_static t) (b_ip b)); [by eexists|].
    destruct (Hall b Hin Ha) as [b' ->]. by eexists.
Qed.
