(* ===== verification/LeaseCheck.v ===== *)
(** * The preflight check of the lease file (scripts/deployment/lease_check.py)

    Which lease file the running dnsmasq processes write, read from their
    command lines, and whether the configured path is one of them.  The file
    is what the operating system gives for it, the decoded text included;
    [resolve] is [Path.resolve]. *)

From S2P Require Import Prelude Float Net Models RateLimiter Bindings.
Local Open Scope Z_scope.

Definition _DNSMASQ : string := "dnsmasq".
Definition _LEASEFILE_LONG : string := "--dhcp-leasefile".
Definition _LEASEFILE_SHORT : string := "-l".

Inductive LeaseFileState := LEASE_OK | LEASE_MISSING | LEASE_UNREADABLE | NO_DNSMASQ | OTHER_FILE.
Record LeaseFileCheck : Type := mk_lease_check {
  lk_state : LeaseFileState;
  lk_path : string;
  lk_writers : list string;
  lk_leases : Z;
  lk_message : string;
}.

(** [s.startswith(p)] with what follows [p] *)
Fixpoint after (p s : list ascii) : option (list ascii) :=
  match p, s with
  | [], _ => Some s
  | a :: p', b :: s' => if decide (a = b) then after p' s' else None
  | _ :: _, [] => None
  end.
Definition after_str (p s : string) : option string := string_of_list <$> after (string_to_list p) (string_to_list s).

(** [os.path.basename]: after the last slash *)
Definition basename (s : string) : string := string_of_list (default [] (last (split_on "/"%char (string_to_list s)))).

(** What one argument says, given the one after it *)
Definition leasefile_of (argument following : string) : option string :=
  match after_str (_LEASEFILE_LONG +:+ "=") argument with
  | Some path => Some path
  | None =>
      if (String.eqb argument _LEASEFILE_LONG || String.eqb argument _LEASEFILE_SHORT) && negb (String.eqb following "") then Some following
      else match after_str _LEASEFILE_SHORT argument with
           | Some rest => if String.eqb rest "" then None else Some rest
           | None => None
           end
  end.
(** [found.add(...)] where there is something to add *)
Definition from_argument (o : option string) : list string := match o with Some path => [path] | None => [] end.
Fixpoint argument_files (arguments : list string) : list string :=
  match arguments with
  | [] => []
  | a :: rest => from_argument (leasefile_of a (default "" (head rest))) ++ argument_files rest
  end.
Definition cmdline_files (argv : list string) : list string :=
  match argv with
  | [] => []
  | program :: arguments => if String.eqb (basename program) _DNSMASQ then argument_files arguments else []
  end.
(** [tuple(sorted(path for path in found if path))] *)
Definition dnsmasq_lease_files (cmdlines : list (list string)) : list string :=
  py_sorted String.leb (filter (λ path, path ≠ "") (dedup (cmdlines ≫= cmdline_files))).

(** What the operating system says of the path *)
Inductive lease_path : Type :=
| StatFails (why : string)
| Absent
| ReadFails (why : string)
| Contents (t : text).

Definition _writers_hint (writers : list string) : string :=
  match writers with [] => "" | _ => "; the running dnsmasq writes " +:+ String.concat ", " writers end.

Section Check.
Context (resolve : string → string).
Definition _same_file (left right : string) : bool := String.eqb (resolve left) (resolve right).

Definition check_lease_file (path : string) (file : lease_path) (cmdlines : list (list string)) (protected : IPv4.network) : LeaseFileCheck :=
  let writers := dnsmasq_lease_files cmdlines in
  match file with
  | StatFails why => mk_lease_check LEASE_UNREADABLE path writers 0 ("lease file " +:+ path +:+ " cannot be inspected (" +:+ why +:+ ")")
  | Absent => mk_lease_check LEASE_MISSING path writers 0 ("lease file " +:+ path +:+ " does not exist" +:+ _writers_hint writers)
  | ReadFails why => mk_lease_check LEASE_UNREADABLE path writers 0 ("lease file " +:+ path +:+ " cannot be read (" +:+ why +:+ ")")
  | Contents t =>
      let leases := Z.of_nat (length (lp_bindings (parse_leases t protected))) in
      match writers with
      | [] => mk_lease_check NO_DNSMASQ path writers leases
                ("no running dnsmasq is writing " +:+ path +:+ ", so its leases are stale or never update (is the NetworkManager shared connection up?)")
      | _ =>
          if negb (existsb (_same_file path) writers)
          then mk_lease_check OTHER_FILE path writers leases ("no running dnsmasq is writing " +:+ path +:+ _writers_hint writers)
          else mk_lease_check LEASE_OK path writers leases
                 ("lease file " +:+ path +:+ " is written by a running dnsmasq (" +:+ pretty leases +:+ " current IPv4 lease(s))")
      end
  end.

(** ** What the check means *)

(** A dnsmasq was started with this lease file: one of its arguments spells it
    in one of the four ways. *)
Definition spells (arguments : list string) (path : string) : Prop :=
  ∃ i a, arguments !! i = Some a ∧
    (a = _LEASEFILE_LONG +:+ "=" +:+ path ∨
     ((a = _LEASEFILE_LONG ∨ a = _LEASEFILE_SHORT) ∧ arguments !! S i = Some path) ∨
     a = _LEASEFILE_SHORT +:+ path).
Definition runs_with (argv : list string) (path : string) : Prop :=
  ∃ program arguments, argv = program :: arguments ∧ basename program = _DNSMASQ ∧ spells arguments path.

Lemma after_Some p s rest : after p s = Some rest ↔ s = p ++ rest.
Proof.
  revert s. induction p as [|a p IH]; intros s; [cbn; split; congruence|]. destruct s as [|b s]; [done|]. cbn [after].
  case_decide as Hd; [subst b; rewrite IH; cbn; split; congruence|]. split; [done|]. intros [= ? _]. congruence.
Qed.
Lemma after_str_Some p s rest : after_str p s = Some rest ↔ s = p +:+ rest.
Proof.
  unfold after_str. rewrite fmap_Some. split.
  - intros (l & Hl & ->). apply after_Some in Hl. rewrite <- (string_of_to_list s), Hl. clear.
    rewrite <- (string_of_to_list (p +:+ string_of_list l)), string_to_list_app, string_to_of_list. done.
  - intros ->. exists (string_to_list rest). rewrite string_of_to_list. split; [|done]. apply after_Some. by rewrite string_to_list_app.
Qed.

(** An option of another spelling never hides this one. *)
Lemma leasefile_of_spec a following path : path ≠ "" →
  leasefile_of a following = Some path ↔
  a = _LEASEFILE_LONG +:+ "=" +:+ path ∨ ((a = _LEASEFILE_LONG ∨ a = _LEASEFILE_SHORT) ∧ following = path) ∨ a = _LEASEFILE_SHORT +:+ path.
Proof.
  intros Hne. unfold leasefile_of. destruct (after_str (_LEASEFILE_LONG +:+ "=") a) as [p|] eqn:Hl.
  { apply after_str_Some in Hl as ->. split.
    - intros [= ->]. by left.
    - intros [Heq|[[[Heq|Heq] _]|Heq]]; try discriminate. f_equal. exact (inj (String.append (_LEASEFILE_LONG +:+ "=")) _ _ Heq). }
  assert (Hnl : a ≠ _LEASEFILE_LONG +:+ "=" +:+ path).
  { intros ->. assert (Ha : after_str (_LEASEFILE_LONG +:+ "=") (_LEASEFILE_LONG +:+ "=" +:+ path) = Some path) by (by apply after_str_Some). congruence. }
  destruct ((String.eqb a _LEASEFILE_LONG || String.eqb a _LEASEFILE_SHORT) && negb (String.eqb following "")) eqn:Hopt.
  { apply andb_prop in Hopt as [Ho Hf]. apply orb_prop in Ho. rewrite !String.eqb_eq in Ho. apply negb_true_iff, String.eqb_neq in Hf. split.
    - intros [= ->]. right. by left.
    - intros [?|[[_ ->]|Heq]]; [done|done|]. destruct Ho as [->| ->]; [discriminate|]. exfalso. apply Hne. exact (eq_sym (inj (String.append _LEASEFILE_SHORT) EmptyString path Heq)). }
  assert (Hnf : ¬ ((a = _LEASEFILE_LONG ∨ a = _LEASEFILE_SHORT) ∧ following = path)).
  { intros [Ho ->]. apply andb_false_iff in Hopt as [Hopt|Hopt].
    - apply orb_false_iff in Hopt. rewrite !String.eqb_neq in Hopt. tauto.
    - apply negb_false_iff, String.eqb_eq in Hopt. done. }
  destruct (after_str _LEASEFILE_SHORT a) as [rest|] eqn:Hs.
  - apply after_str_Some in Hs as ->. destruct (String.eqb_spec rest "") as [->|Hr].
    + split; [done|]. intros [?|[?|Heq]]; [done|done|]. exfalso. apply Hne. exact (eq_sym (inj (String.append _LEASEFILE_SHORT) EmptyString path Heq)).
    + split; [intros [= ->]; by right; right|]. intros [?|[?|Heq]]; [done|done|]. f_equal. exact (inj (String.append _LEASEFILE_SHORT) rest path Heq).
  - split; [done|]. intros [?|[?| ->]]; [done|done|]. assert (Ha : after_str _LEASEFILE_SHORT (_LEASEFILE_SHORT +:+ path) = Some path) by (by apply after_str_Some). congruence.
Qed.

Lemma argument_files_spec arguments path : path ≠ "" → path ∈ argument_files arguments ↔ spells arguments path.
Proof.
  intros Hne. induction arguments as [|a rest IH]; cbn [argument_files].
  { split; [by intros ?%elem_of_nil|]. intros (i & x & Hx & _). by rewrite lookup_nil in Hx. }
  rewrite elem_of_app, IH.
  assert (Hhead : path ∈ from_argument (leasefile_of a (default "" (head rest))) ↔ leasefile_of a (default "" (head rest)) = Some path).
  { destruct (leasefile_of _ _); cbn [from_argument]; [rewrite list_elem_of_singleton; split; congruence|by rewrite elem_of_nil]. }
  rewrite Hhead, leasefile_of_spec by done. split.
  - intros [H|(i & x & Hx & H)].
    + exists 0%nat, a. split; [done|]. destruct H as [?|[[Ho Hf]|?]]; [by left| |by right; right]. right. left. split; [done|].
      destruct rest as [|b rest]; cbn in *; [done|]. by subst.
    + by exists (S i), x.
  - intros (i & x & Hx & H). destruct i as [|i]; cbn [lookup list_lookup] in Hx.
    + injection Hx as <-. left. destruct H as [?|[[Ho Hf]|?]]; [by left| |by right; right]. right. left. split; [done|].
      by destruct rest as [|b rest]; cbn in *; simplify_eq.
    + right. by exists i, x.
Qed.

Lemma lease_files_exact cmdlines path : path ∈ dnsmasq_lease_files cmdlines ↔ path ≠ "" ∧ ∃ argv, argv ∈ cmdlines ∧ runs_with argv path.
Proof.
  unfold dnsmasq_lease_files. rewrite elem_of_py_sorted, list_elem_of_filter, elem_of_dedup, list_elem_of_bind. split.
  - intros (Hne & argv & Hp & Hin). split; [done|]. exists argv. split; [done|]. unfold cmdline_files in Hp. destruct argv as [|program arguments]; [by apply elem_of_nil in Hp|].
    destruct (String.eqb_spec (basename program) _DNSMASQ) as [Hb|]; [|by apply elem_of_nil in Hp]. exists program, arguments.
    split; [done|]. split; [done|]. by apply argument_files_spec.
  - intros (Hne & argv & Hin & program & arguments & -> & Hb & Hs). split; [done|]. exists (program :: arguments). split; [|done].
    cbn [cmdline_files]. rewrite (proj2 (String.eqb_eq _ _) Hb). by apply argument_files_spec.
Qed.

(** The check passes exactly when the file can be read and a running dnsmasq
    was started with a lease file that is the same file. *)
Theorem lease_check_passes_iff path file cmdlines protected :
  lk_state (check_lease_file path file cmdlines protected) = LEASE_OK ↔
  (∃ t, file = Contents t) ∧
  ∃ argv writer, argv ∈ cmdlines ∧ writer ≠ "" ∧ runs_with argv writer ∧ resolve path = resolve writer.
Proof.
  unfold check_lease_file. destruct file as [why| |why|t]; cbn [lk_state]; try (split; [done|]; by intros [[t ?] _]).
  assert (Hwriters : existsb (_same_file path) (dnsmasq_lease_files cmdlines) = true ↔
    ∃ argv writer, argv ∈ cmdlines ∧ writer ≠ "" ∧ runs_with argv writer ∧ resolve path = resolve writer).
  { rewrite existsb_exists. split.
    - intros (w & Hw & Hs). apply list_elem_of_In, lease_files_exact in Hw as (Hne & argv & Hin & Hr). exists argv, w.
      split; [done|]. split; [done|]. split; [done|]. by apply String.eqb_eq.
    - intros (argv & w & Hin & Hne & Hr & Hs). exists w. split; [|by apply String.eqb_eq]. apply list_elem_of_In, lease_files_exact. split; [done|]. by exists argv. }
  rewrite <- Hwriters. destruct (dnsmasq_lease_files cmdlines) as [|w ws]; cbn [lk_state].
  - split; [done|]. by intros [_ ?].
  - destruct (existsb _ (w :: ws)); cbn [negb lk_state]; [split; [|done]; intros _; split; [by exists t|done]|split; [done|]; by intros [_ ?]].
Qed.
End Check.
