(* ===== verification/BindingSync.v ===== *)
(** * Kernel bindings mirror the binding table

    [FirewallManager.sync_bindings] and [replace_bindings] against the binding
    table: what the four kernel binding sets hold afterwards. *)

From S2P Require Import Prelude Float Net Models RateLimiter Sets SetBackend Backend Validator AllowlistStore Manager Bindings.
Local Open Scope Z_scope.

Definition BINDING_SETS : list string := [SET_BOUND4; SET_MACBIND].

Definition binding_addresses : list set_address :=
  _BINDING_TABLES ≫= (λ ft : string * string, (λ s, (ft.1, ft.2, s)) <$> BINDING_SETS).

(** The key one binding has in a binding set. *)
Definition binding_key (set : string) (b : Binding) : ElementKey :=
  if decide (set = SET_MACBIND) then KPair (IPv4.to_string (b_ip b)) (b_mac b) else KStr (IPv4.to_string (b_ip b)).

(** Exactly the elements of [bs] are live, in both tables. *)
Definition mirrors (v : kernel_view) (bs : list Binding) : Prop :=
  ∀ f t s k, (f, t, s) ∈ binding_addresses →
    is_Some (kv_elem v (f, t, s) k) ↔ ∃ b, b ∈ bs ∧ k = binding_key s b.

(** No element outside [bs] is live: what stays true as elements time out. *)
Definition bounded_by (v : kernel_view) (bs : list Binding) : Prop :=
  ∀ f t s k, (f, t, s) ∈ binding_addresses → is_Some (kv_elem v (f, t, s) k) → ∃ b, b ∈ bs ∧ k = binding_key s b.

(** Only the binding sets may differ. *)
Definition bindings_only (v v' : kernel_view) : Prop :=
  kv_now v' = kv_now v ∧ (∀ a k, a ∉ binding_addresses → kv_elem v' a k = kv_elem v a k) ∧
  (∀ g, kv_guard v' g = kv_guard v g) ∧ ∀ l, kv_table v' l = kv_table v l.

Lemma binding_address_parts f t s :
  (f, t, s) ∈ binding_addresses ↔ (f, t) ∈ _BINDING_TABLES ∧ s ∈ BINDING_SETS.
Proof.
  unfold binding_addresses, _BINDING_TABLES, BINDING_SETS. cbn. rewrite !elem_of_cons, !elem_of_nil.
  split; [naive_solver|]. intros [[?|[?|?]] [?|[?|?]]]; simplify_eq; tauto.
Qed.

Lemma binding_key_bound4 b : binding_key SET_BOUND4 b = KStr (IPv4.to_string (b_ip b)).
Proof. done. Qed.
Lemma binding_key_macbind b : binding_key SET_MACBIND b = KPair (IPv4.to_string (b_ip b)) (b_mac b).
Proof. done. Qed.

Lemma binding_wanted_key s bs k : s ∈ BINDING_SETS →
  binding_wanted s bs k = true ↔ ∃ b, b ∈ bs ∧ k = binding_key s b.
Proof.
  unfold BINDING_SETS, binding_wanted. rewrite !elem_of_cons, elem_of_nil.
  assert (Hne : SET_BOUND4 ≠ SET_MACBIND) by (by intros [=]).
  intros [-> | [-> | []]].
  - setoid_rewrite binding_key_bound4. rewrite bool_decide_eq_false_2 by done. destruct k as [ip|ip mac]; cbn.
    + rewrite inb_true, list_elem_of_fmap. setoid_rewrite list_elem_of_fmap. split.
      * intros (p & -> & b & -> & Hb). by exists b.
      * intros (b & Hb & [= ->]). exists (binding_pair b). by eauto.
    + split; [done|]. naive_solver.
  - setoid_rewrite binding_key_macbind. rewrite bool_decide_eq_true_2 by done. destruct k as [ip|ip mac]; cbn.
    + split; [done|]. naive_solver.
    + rewrite inb_true, list_elem_of_fmap. split.
      * intros (b & [= -> ->] & Hb). by exists b.
      * intros (b & Hb & [= -> ->]). by exists b.
Qed.

(** ** The operations of one binding *)

Lemma _binding_ops_elem kind b timeout op : op ∈ _binding_ops kind b timeout →
  op_kind op = kind ∧ op_timeout_seconds op = timeout ∧ op_address op ∈ binding_addresses ∧
  op_key op = binding_key (op_set_name op) b.
Proof.
  unfold _binding_ops, _BINDING_TABLES. cbn. rewrite !elem_of_cons, elem_of_nil.
  unfold binding_addresses, _BINDING_TABLES, BINDING_SETS. cbn.
  intros [->|[->|[->|[->|[]]]]]; cbn; (split; [done|]); (split; [done|]); (split; [|done]); set_solver.
Qed.

Lemma _binding_ops_has kind b timeout f t s : (f, t, s) ∈ binding_addresses →
  ∃ op, op ∈ _binding_ops kind b timeout ∧ op_address op = (f, t, s) ∧ op_key op = binding_key s b.
Proof.
  unfold binding_addresses, _BINDING_TABLES, BINDING_SETS. cbn. rewrite !elem_of_cons, elem_of_nil.
  unfold _binding_ops, _BINDING_TABLES. cbn.
  intros Ha. exists (mk_op kind s (binding_key s b) timeout t f). split; [|done].
  destruct Ha as [[= -> -> ->]|[[= -> -> ->]|[[= -> -> ->]|[[= -> -> ->]|[]]]]];
    rewrite ?binding_key_bound4, ?binding_key_macbind, !elem_of_cons; tauto.
Qed.

(** All operations of a list of bindings, each with its own timeout. *)
Definition bindings_ops (kind : SetOpKind) (timeout : Binding → option Z) (bs : list Binding) : list SetOp :=
  bs ≫= (λ b, _binding_ops kind b (timeout b)).

Lemma bindings_ops_elem kind timeout bs op : op ∈ bindings_ops kind timeout bs →
  op_kind op = kind ∧ op_address op ∈ binding_addresses ∧ ∃ b, b ∈ bs ∧ op_key op = binding_key (op_set_name op) b.
Proof.
  unfold bindings_ops. rewrite list_elem_of_bind. intros (b & Hop & Hb).
  apply _binding_ops_elem in Hop as (? & _ & ? & ?). by eauto.
Qed.

Lemma bindings_ops_has kind timeout bs f t s b : (f, t, s) ∈ binding_addresses → b ∈ bs →
  ∃ op, op ∈ bindings_ops kind timeout bs ∧ op_address op = (f, t, s) ∧ op_key op = binding_key s b.
Proof.
  intros Ha Hb. destruct (_binding_ops_has kind b (timeout b) f t s Ha) as (op & Hop & ? & ?).
  exists op. split; [|done]. unfold bindings_ops. apply list_elem_of_bind. by exists b.
Qed.

(** What deletions do to a key, and what additions do to one. *)
Lemma deletes_effect clock f t s k cur timeout bs : (f, t, s) ∈ binding_addresses →
  is_Some (ops_effect clock (f, t, s) k cur (bindings_ops OP_DELETE timeout bs)) ↔
  is_Some cur ∧ ¬ ∃ b, b ∈ bs ∧ k = binding_key s b.
Proof.
  intros Ha. destruct (decide (Exists (λ b, k = binding_key s b) bs)) as [Hex|Hno].
  - apply Exists_exists in Hex. destruct Hex as (b & Hb & ->).
    rewrite ops_effect_deletes; [|intros op Hop _ _; by apply bindings_ops_elem in Hop as [? _]|].
    + split; [by intros [? [=]]|]. intros [_ Hn]. destruct Hn. by eauto.
    + destruct (bindings_ops_has OP_DELETE timeout bs f t s b Ha Hb) as (op & ? & ? & ?). by eauto.
  - rewrite Exists_exists in Hno. rewrite ops_effect_other; [tauto|].
    intros op Hop Hadd Hk. apply Hno. apply bindings_ops_elem in Hop as (_ & _ & b & Hb & Hkey).
    injection Hadd as _ _ Hs. exists b. split; [done|]. by rewrite <- Hk, Hkey, Hs.
Qed.

Lemma adds_effect clock f t s k cur timeout bs : (f, t, s) ∈ binding_addresses →
  is_Some (ops_effect clock (f, t, s) k cur (bindings_ops OP_ADD timeout bs)) ↔
  is_Some cur ∨ ∃ b, b ∈ bs ∧ k = binding_key s b.
Proof.
  intros Ha. destruct (decide (Exists (λ b, k = binding_key s b) bs)) as [Hex|Hno].
  - apply Exists_exists in Hex. destruct Hex as (b & Hb & ->). split; [by eauto|]. intros _.
    destruct (bindings_ops_has OP_ADD timeout bs f t s b Ha Hb) as (op & Hop & Hadd & Hk).
    eapply ops_effect_adds; [exact Hop|done|done|]. intros o Ho _ _. by apply bindings_ops_elem in Ho as [? _].
  - rewrite Exists_exists in Hno. rewrite ops_effect_other; [tauto|].
    intros op Hop Hadd Hk. apply Hno. apply bindings_ops_elem in Hop as (_ & _ & b & Hb & Hkey).
    injection Hadd as _ _ Hs. exists b. split; [done|]. by rewrite <- Hk, Hkey, Hs.
Qed.

(** A batch addressed to the binding sets changes nothing else. *)
Lemma apply_bindings_only {B} {SB : SetBackend B} {SBL : SetBackendLaws B} ops (b : B) r b' :
  (∀ op, op ∈ ops → op_address op ∈ binding_addresses) → sb_apply ops b = (r, b') →
  bindings_only (sb_view b) (sb_view b').
Proof.
  intros Hops Hap. apply apply_law in Hap. destruct r as [[]|e].
  - destruct Hap as (_ & Hn & He & Hg & Ht). repeat split; [done| |done|done].
    intros a k Ha. rewrite He. apply ops_effect_other. intros op Hop <-. by destruct Ha; apply Hops.
  - destruct Hap as [(?&?&?&?) _]. by repeat split.
Qed.

(** ** The two writers *)

Section Sync.
Context {B F : Type} {SB : SetBackend B} {SBL : SetBackendLaws B} {FB : FirewallBackend F}.
Notation FM := (FirewallManager B F).
Implicit Types (m : FM) (b : B).

Lemma change_ops_split m change now :
  change_ops m change now =
    bindings_ops OP_DELETE (λ _, None) (bc_removed change) ++
    bindings_ops OP_ADD (λ x, _binding_timeout m x now) (bc_added change).
Proof. done. Qed.

Lemma change_ops_address m change now op : op ∈ change_ops m change now → op_address op ∈ binding_addresses.
Proof.
  rewrite change_ops_split, elem_of_app. intros [Hop|Hop]; by apply bindings_ops_elem in Hop as (_ & ? & _).
Qed.

(** The batch of a change: removals, then additions. *)
Lemma change_ops_effect m change now clock f t s k cur : (f, t, s) ∈ binding_addresses →
  is_Some (ops_effect clock (f, t, s) k cur (change_ops m change now)) ↔
  (is_Some cur ∧ ¬ ∃ x, x ∈ bc_removed change ∧ k = binding_key s x) ∨
  ∃ x, x ∈ bc_added change ∧ k = binding_key s x.
Proof. intros Ha. by rewrite change_ops_split, ops_effect_app, adds_effect, deletes_effect. Qed.

(** What one sync does: it writes exactly the change and nothing else, or
    raises and the kernel is as it was. *)
Lemma sync_bindings_effect m b change now : m_sets m = Some b →
  let '(r, m') := sync_bindings change now m in
  ∃ b', m_sets m' = Some b' ∧ bindings_only (sb_view b) (sb_view b') ∧
  match r with
  | Ok _ => ∀ f t s k, (f, t, s) ∈ binding_addresses →
      is_Some (kv_elem (sb_view b') (f, t, s) k) ↔
      (is_Some (kv_elem (sb_view b) (f, t, s) k) ∧ ¬ ∃ x, x ∈ bc_removed change ∧ k = binding_key s x) ∨
      ∃ x, x ∈ bc_added change ∧ k = binding_key s x
  | Raise e => view_eq (sb_view b') (sb_view b) ∧ ∃ msg, e = FirewallError msg
  end.
Proof.
  intros Hs. unfold sync_bindings, mbind, m_bind, mget. rewrite Hs.
  destruct (bool_decide _ && bool_decide _) eqn:Hnil.
  { bool_prop. exists b. split; [done|]. split; [by repeat split|]. intros f t s k _.
    repeat match goal with H : _ = [] |- _ => rewrite H end. set_solver. }
  unfold on_sets. rewrite Hs. destruct (sb_apply _ b) as [r b'] eqn:Hap.
  pose proof (apply_bindings_only _ b r b' (change_ops_address m change now) Hap) as Honly.
  apply apply_law in Hap. destruct r as [[]|e]; (exists b'; split; [done|]; split; [done|]); [|done].
  destruct Hap as (_ & _ & He & _). intros f t s k Ha. rewrite He. by apply change_ops_effect.
Qed.

(** Stale elements: listed, not wanted, deleted. *)
Lemma stale_binding_ops_spec bs places : ∀ m b, m_sets m = Some b →
  (∀ p, p ∈ places → p ∈ binding_addresses) →
  let '(r, m') := stale_binding_ops bs places m in
  ∃ b', m_sets m' = Some b' ∧ m_config m' = m_config m ∧ view_eq (sb_view b') (sb_view b) ∧
  match r with
  | Ok ops =>
      (∀ op, op ∈ ops → op_kind op = OP_DELETE ∧ op_address op ∈ binding_addresses ∧
                        binding_wanted (op_set_name op) bs (op_key op) = false) ∧
      (∀ p k, p ∈ places → is_Some (kv_elem (sb_view b) p k) → binding_wanted p.2 bs k = false →
         ∃ op, op ∈ ops ∧ op_address op = p ∧ op_key op = k)
  | Raise e => ∃ msg, e = FirewallError msg
  end.
Proof.
  induction places as [|[[f t] s] places IH]; intros m b Hs Hp; cbn [stale_binding_ops].
  { exists b. do 2 (split; [done|]). split; [reflexivity|]. set_solver. }
  unfold mbind, m_bind. unfold on_sets at 1. rewrite Hs.
  destruct (sb_list_set (f, t, s) b) as [r1 b1] eqn:Hl. apply list_law in Hl as [Hv1 Hl].
  destruct r1 as [els|e]; [|by exists b1; eauto].
  specialize (IH (set_sets m (Some b1)) b1 eq_refl). destruct (stale_binding_ops bs places _) as [r2 m2].
  destruct IH as (b2 & Hs2 & Hc2 & Hv2 & Hr2); [set_solver|].
  assert (Hv : view_eq (sb_view b2) (sb_view b)) by by etrans.
  destruct r2 as [more|e]; [|by exists b2; eauto]. exists b2. do 3 (split; [done|]).
  destruct Hr2 as [Hall Hhas], Hl as [_ Hlisted]. split.
  - intros op. rewrite elem_of_app, list_elem_of_fmap. intros [(e & -> & He)|Hop]; [|by apply Hall].
    apply list_elem_of_filter in He as [Hw He]. split; [done|]. split; [apply Hp; set_solver|done].
  - intros p k. rewrite elem_of_cons. intros [->|Hin] [x Hx] Hw.
    + eexists. split; [apply elem_of_app; left; apply list_elem_of_fmap; eexists; split; [reflexivity|]|].
      * apply list_elem_of_filter. split; [|apply (Hlisted k x Hx)]. exact Hw.
      * done.
    + destruct (Hhas p k Hin) as (op & ? & ?); [|done|exists op; set_solver].
      destruct Hv1 as (_ & He & _). by rewrite He, Hx.
Qed.

Lemma binding_places_addresses p : p ∈ binding_places ↔ p ∈ binding_addresses.
Proof. unfold binding_places, binding_addresses, _BINDING_TABLES, BINDING_SETS. cbn. set_solver. Qed.

(** The startup seed: whatever the kernel held before, when
    [replace_bindings] returns, the binding sets of both tables hold
    exactly the given bindings and nothing else changed; when it raises,
    the kernel is as it was. *)
Lemma replace_bindings_effect m b bindings now :
  m_sets m = Some b →
  let '(r, m') := replace_bindings bindings now m in
  ∃ b', m_sets m' = Some b' ∧ bindings_only (sb_view b) (sb_view b') ∧
  match r with
  | Ok _ => mirrors (sb_view b') bindings
  | Raise e => view_eq (sb_view b') (sb_view b) ∧ ∃ msg, e = FirewallError msg
  end.
Proof.
  intros Hs. unfold replace_bindings, mbind, m_bind, mget. rewrite Hs.
  pose proof (stale_binding_ops_spec bindings binding_places m b Hs) as Hst.
  destruct (stale_binding_ops bindings binding_places m) as [r1 m1].
  destruct Hst as (b1 & Hs1 & Hc1 & Hv1 & Hr1); [intros p; apply binding_places_addresses|].
  destruct r1 as [stale|e].
  2: { exists b1. split; [done|]. split; [|done]. destruct Hv1 as (?&?&?&?). by repeat split. }
  destruct Hr1 as [Hall Hhas]. set (ops := stale ++ _).
  assert (Haddr : ∀ op, op ∈ ops → op_address op ∈ binding_addresses).
  { intros op. unfold ops. rewrite elem_of_app. intros [Hop|Hop]; [by apply Hall|by eapply change_ops_address]. }
  unfold on_sets. rewrite Hs1. destruct (sb_apply ops b1) as [r b'] eqn:Hap.
  pose proof (apply_bindings_only _ b1 r b' Haddr Hap) as Honly.
  assert (Honly' : bindings_only (sb_view b) (sb_view b')).
  { destruct Honly as (H1 & H2 & H3 & H4), Hv1 as (G1 & G2 & G3 & G4).
    repeat split; intros; [congruence|rewrite H2 by done; apply G2|rewrite H3; apply G3|rewrite H4; apply G4]. }
  apply apply_law in Hap. destruct r as [[]|e]; (exists b'; split; [done|]; split; [done|]);
    [|split; [etrans; [apply Hap|done]|apply Hap]].
  destruct Hap as (_ & _ & He & _). destruct Hv1 as (_ & Hv1 & _).
  intros f t s k Ha. rewrite He, Hv1. unfold ops.
  rewrite ops_effect_app, change_ops_effect by done. cbn [bc_removed bc_added].
  pose proof (proj1 (binding_address_parts f t s) Ha) as [_ Hset].
  rewrite <- (binding_wanted_key s bindings k Hset).
  destruct (binding_wanted s bindings k) eqn:Hw; [tauto|]. split; [|by intros ?].
  intros [[Hsome _]|?]; [|done]. exfalso. destruct (kv_elem (sb_view b) (f, t, s) k) as [x|] eqn:Hx.
  - rewrite ops_effect_deletes in Hsome; [by destruct Hsome|intros op Hop _ _; by apply Hall|].
    destruct (Hhas (f, t, s) k) as (op & ? & ? & ?); [by apply binding_places_addresses|by rewrite Hx|done|by eauto].
  - rewrite ops_effect_absent in Hsome; [by destruct Hsome|]. intros op Hop _ _. by apply Hall.
Qed.
End Sync.

(** ** Refinement: the kernel sets follow the table *)

Lemma snapshot_elem t b : table_wf t → b ∈ snapshot t ↔ lookup_binding t (b_ip b) = Some b.
Proof.
  intros (Hw & Hwl & Hst & Hls). unfold snapshot, lookup_binding. rewrite elem_of_app, !elem_of_py_sorted.
  unfold dvalues. rewrite !list_elem_of_fmap. split.
  - intros [([ip b'] & -> & Hin)|([ip b'] & -> & Hin)]; apply dget_elem in Hin; try done; cbn.
    + destruct (Hst _ _ Hin) as (-> & _). by rewrite Hin.
    + destruct (Hls _ _ Hin) as (-> & _ & _ & Hno & _). by rewrite Hno, Hin.
  - destruct (dget (lt_static t) (b_ip b)) as [b'|] eqn:Hs.
    + intros [= ->]. left. exists (b_ip b, b). split; [done|]. by apply dget_Some_elem.
    + intros Hl. right. exists (b_ip b, b). split; [done|]. by apply dget_Some_elem.
Qed.

Lemma snapshot_wf t b : table_wf t → b ∈ snapshot t → binding_wf b.
Proof.
  intros Hwf. rewrite snapshot_elem by done. destruct Hwf as (_ & _ & Hst & Hls). unfold lookup_binding.
  destruct (dget (lt_static t) (b_ip b)) as [b'|] eqn:Hs; [intros [= ->]; by apply Hst in Hs as (_ & ? & _)|].
  intros Hl. by apply Hls in Hl as (_ & ? & _).
Qed.

(** In either set a key determines the address. *)
Lemma binding_key_ip s x y : binding_wf x → binding_wf y → binding_key s x = binding_key s y → b_ip x = b_ip y.
Proof.
  intros (Hx & _) (Hy & _). unfold binding_key. case_decide; intros [=]; by apply IPv4.to_string_inj.
Qed.

(** A change reported by [apply_leases] takes the old keys to the new ones. *)
Lemma change_tracks t t' change s k :
  table_wf t → table_wf t' → lt_static t' = lt_static t →
  (∀ b, b ∈ bc_removed change ↔ dget (lt_leases t) (b_ip b) = Some b ∧ dget (lt_leases t') (b_ip b) ≠ Some b) →
  (∀ b, b ∈ bc_added change ↔ dget (lt_leases t') (b_ip b) = Some b ∧ dget (lt_leases t) (b_ip b) ≠ Some b) →
  (∃ x, x ∈ snapshot t' ∧ k = binding_key s x) ↔
  ((∃ x, x ∈ snapshot t ∧ k = binding_key s x) ∧ ¬ ∃ x, x ∈ bc_removed change ∧ k = binding_key s x) ∨
  ∃ x, x ∈ bc_added change ∧ k = binding_key s x.
Proof.
  intros Hwf Hwf' Hst Hrem Hadd.
  assert (Hlease : ∀ b, dget (lt_leases t) (b_ip b) = Some b → b ∈ snapshot t ∧ dget (lt_static t) (b_ip b) = None).
  { intros b Hg. pose proof Hwf as (_ & _ & _ & Hls). destruct (Hls _ _ Hg) as (_ & _ & _ & Hno & _).
    rewrite snapshot_elem by done. unfold lookup_binding. by rewrite Hno. }
  assert (Hlease' : ∀ b, dget (lt_leases t') (b_ip b) = Some b → b ∈ snapshot t').
  { intros b Hg. pose proof Hwf' as (_ & _ & _ & Hls). destruct (Hls _ _ Hg) as (_ & _ & _ & Hno & _).
    rewrite snapshot_elem by done. unfold lookup_binding. by rewrite Hno. }
  split.
  - intros (x & Hx & ->). pose proof (snapshot_wf t' x Hwf' Hx) as Hxw. rewrite snapshot_elem in Hx by done.
    unfold lookup_binding in Hx. rewrite Hst in Hx.
    destruct (decide (x ∈ bc_added change)) as [Hin|Hnin]; [by eauto|]. left.
    assert (Hold : lookup_binding t (b_ip x) = Some x).
    { unfold lookup_binding. destruct (dget (lt_static t) (b_ip x)) as [y|]; [done|].
      destruct (decide (dget (lt_leases t) (b_ip x) = Some x)); [done|]. destruct Hnin. by apply Hadd. }
    split; [exists x; by rewrite snapshot_elem|]. intros (y & Hy & Hkey). apply Hrem in Hy as [Hy Hy'].
    destruct (Hlease y Hy) as [Hys Hno]. pose proof (snapshot_wf t y Hwf Hys) as Hyw.
    apply binding_key_ip in Hkey; [|done..]. unfold lookup_binding in Hold. rewrite Hkey, Hno, Hy in Hold.
    injection Hold as ->. rewrite Hno in Hx. done.
  - intros [[(x & Hx & ->) Hno]|(x & Hx & ->)]; [|apply Hadd in Hx as [Hx _]; by eauto].
    exists x. split; [|done]. rewrite snapshot_elem in Hx by done. unfold lookup_binding in Hx.
    destruct (dget (lt_static t) (b_ip x)) as [y|] eqn:Hs.
    + rewrite snapshot_elem by done. unfold lookup_binding. by rewrite Hst, Hs.
    + apply Hlease'. destruct (decide (dget (lt_leases t') (b_ip x) = Some x)); [done|].
      destruct Hno. exists x. split; [by apply Hrem|done].
Qed.

Section Refinement.
Context {B F : Type} {SB : SetBackend B} {SBL : SetBackendLaws B} {FB : FirewallBackend F}.
Notation FM := (FirewallManager B F).

(** Applying a lease set to the table and its change to the kernel: when
    the kernel accepts the batch, binding sets that mirrored the table
    before mirror it after, and sets that held no binding outside the table
    before hold none outside the new one; when it refuses, it is as it
    was. *)
Lemma lease_change_refines_facts (m : FM) b t leases now change t' :
  m_sets m = Some b → table_wf t → Forall binding_wf leases → Forall (λ x, b_source x = LEASE) leases →
  apply_leases leases now t = (Ok change, t') →
  let '(r, m') := sync_bindings change now m in
  ∃ b', m_sets m' = Some b' ∧ bindings_only (sb_view b) (sb_view b') ∧
  match r with
  | Ok _ => (mirrors (sb_view b) (snapshot t) → mirrors (sb_view b') (snapshot t')) ∧
            (bounded_by (sb_view b) (snapshot t) → bounded_by (sb_view b') (snapshot t'))
  | Raise e => view_eq (sb_view b') (sb_view b) ∧ ∃ msg, e = FirewallError msg
  end.
Proof.
  intros Hs Hwf Hl Hsrc Happ.
  destruct (apply_leases_facts t leases now Hwf Hl Hsrc) as (c & t2 & Heq & Hwf' & Hst & _ & _ & Hrem & Hadd).
  rewrite Happ in Heq. injection Heq as <- <-.
  pose proof (sync_bindings_effect m b change now Hs) as Heff. destruct (sync_bindings change now m) as [r m'].
  destruct Heff as (b' & Hs' & Honly & Hr). exists b'. do 2 (split; [done|]). destruct r as [n|e]; [|apply Hr].
  pose proof (λ s k, change_tracks t t' change s k Hwf Hwf' Hst Hrem Hadd) as Htr.
  split; intros Hbefore f u s k Ha.
  - rewrite Hr, Htr, (Hbefore f u s k Ha) by done. done.
  - rewrite Hr, Htr by done. intros [[Hsome Hno]|?]; [|by right]. left. split; [|done]. by eapply Hbefore.
Qed.
End Refinement.

(** * The kernel allowlist pairs

    [sync_allowlist] at startup: both [allow_bound] sets end up holding
    exactly the MAC/address pairs the allowlist pins. *)

Local Open Scope Z_scope.

Definition allow_address (table : string) : set_address := (INET_FAMILY, table, SET_ALLOW_BOUND).
Definition allow_addresses : list set_address := allow_address <$> _ALLOW_BOUND_TABLES.

Definition pair_live (v : kernel_view) (table : string) (p : string * string) : Prop :=
  is_Some (kv_elem v (allow_address table) (KPair p.1 p.2)).

Lemma elem_of_sorted_minus p xs ys : p ∈ sorted_minus xs ys ↔ p ∈ xs ∧ p ∉ ys.
Proof. unfold sorted_minus. rewrite elem_of_py_sorted, list_elem_of_filter, elem_of_dedup. tauto. Qed.

Section AllowSync.
Context {B F : Type} {SB : SetBackend B} {SBL : SetBackendLaws B} {FB : FirewallBackend F}.
Notation FM := (FirewallManager B F).
Implicit Types (m : FM) (b : B).

(** A planned operation: forget an unwanted live pair, add a missing one. *)
Definition planned (v : kernel_view) (wanted : list (string * string)) (tables : list string) (op : SetOp) : Prop :=
  ∃ table p, table ∈ tables ∧
    ((op = allow_bound_op OP_DELETE p table ∧ pair_live v table p ∧ p ∉ wanted) ∨
     (op = allow_bound_op OP_ADD p table ∧ p ∈ wanted ∧ ¬ pair_live v table p)).

Lemma listed_pairs b table els b' : sb_list_set (allow_address table) b = (Ok els, b') →
  ∀ p, p ∈ pair_keys els ↔ pair_live (sb_view b) table p.
Proof.
  intros Hl [x y]. apply list_law in Hl as [_ [Hin Hall]]. unfold pair_keys, pair_live. rewrite list_elem_of_omap. split.
  - intros ([[k|u w] e] & He & Hk); [done|]. injection Hk as -> ->. by eapply Hin.
  - intros [z Hz]. eexists. split; [by apply Hall|]. done.
Qed.

Lemma sync_allowlist_ops_spec wanted tables : ∀ m b, m_sets m = Some b →
  let '(r, m') := sync_allowlist_ops wanted tables m in
  ∃ b', m_sets m' = Some b' ∧ view_eq (sb_view b') (sb_view b) ∧
  match r with
  | Ok ops => ∀ op, op ∈ ops ↔ planned (sb_view b) wanted tables op
  | Raise e => ∃ msg, e = FirewallError msg
  end.
Proof.
  induction tables as [|table tables IH]; intros m b Hs; cbn [sync_allowlist_ops].
  { exists b. split; [done|]. split; [reflexivity|]. intros op. unfold planned. set_solver. }
  unfold mbind, m_bind, on_sets at 1. rewrite Hs. fold (allow_address table).
  destruct (sb_list_set (allow_address table) b) as [r1 b1] eqn:Hl. pose proof Hl as [Hv1 Hr1]%list_law.
  destruct r1 as [els|e]; [|by exists b1; eauto]. pose proof (listed_pairs b table els b1 Hl) as Hlive.
  specialize (IH (set_sets m (Some b1)) b1 eq_refl). destruct (sync_allowlist_ops wanted tables _) as [r2 m2].
  destruct IH as (b2 & Hs2 & Hv2 & Hr2). assert (Hv : view_eq (sb_view b2) (sb_view b)) by by etrans.
  destruct r2 as [more|e]; [|by exists b2; eauto]. exists b2. do 2 (split; [done|]). intros op.
  assert (Heq : ∀ t p, pair_live (sb_view b1) t p ↔ pair_live (sb_view b) t p).
  { intros t p. unfold pair_live. destruct Hv1 as (_ & He & _). by rewrite He. }
  rewrite !elem_of_app, !list_elem_of_fmap, Hr2. unfold planned. setoid_rewrite elem_of_sorted_minus.
  setoid_rewrite Heq. setoid_rewrite Hlive. setoid_rewrite elem_of_cons. naive_solver.
Qed.

Lemma planned_address v wanted tables op : planned v wanted tables op →
  ∃ table p, table ∈ tables ∧ op_address op = allow_address table ∧ op_key op = KPair p.1 p.2.
Proof. intros (table & p & Ht & [(-> & _)|(-> & _)]); by exists table, p. Qed.

(** When [sync_allowlist] returns, each kernel [allow_bound] set holds
    exactly the pairs the allowlist pins, and nothing else in the kernel
    changed; when it raises, the kernel is as it was. *)
Theorem sync_allowlist_exact m b :
  m_sets m = Some b →
  let '(r, m') := sync_allowlist m in
  ∃ b', m_sets m' = Some b' ∧
  match r with
  | Ok _ =>
      (∀ table p, table ∈ _ALLOW_BOUND_TABLES →
         pair_live (sb_view b') table p ↔ p ∈ _allow_bound_pairs m None) ∧
      (∀ a k, a ∉ allow_addresses → kv_elem (sb_view b') a k = kv_elem (sb_view b) a k) ∧
      (∀ g, kv_guard (sb_view b') g = kv_guard (sb_view b) g)
  | Raise e => view_eq (sb_view b') (sb_view b) ∧ ∃ msg, e = FirewallError msg
  end.
Proof.
  intros Hs. unfold sync_allowlist, mbind, m_bind, mget. rewrite Hs.
  set (wanted := _allow_bound_pairs m None).
  pose proof (sync_allowlist_ops_spec wanted _ALLOW_BOUND_TABLES m b Hs) as Hops.
  destruct (sync_allowlist_ops wanted _ALLOW_BOUND_TABLES m) as [r1 m1]. destruct Hops as (b1 & Hs1 & Hv1 & Hr1).
  destruct r1 as [ops|e]; [|by eauto]. unfold on_sets. rewrite Hs1.
  destruct (sb_apply ops b1) as [r b'] eqn:Hap. apply apply_law in Hap.
  destruct r as [[]|e]; exists b'; (split; [done|]); [|split; [etrans; [apply Hap|done]|apply Hap]].
  destruct Hap as (_ & _ & He & Hg & _). destruct Hv1 as (_ & Hv1 & Hvg & _).
  split; [|split; [|by intros g; rewrite Hg]].
  - intros table p Ht. unfold pair_live. rewrite He, Hv1.
    assert (Hkind : ∀ op, op ∈ ops → op_address op = allow_address table → op_key op = KPair p.1 p.2 →
      (op_kind op = OP_DELETE ∧ p ∉ wanted) ∨ (op_kind op = OP_ADD ∧ p ∈ wanted)).
    { intros op Hop Ha Hk. apply Hr1 in Hop as (t & q & _ & [(-> & _ & Hq)|(-> & Hq & _)]);
        injection Hk as H1 H2; destruct p, q; cbn in *; subst; [by left|by right]. }
    destruct (decide (p ∈ wanted)) as [Hw|Hw]; (split; [intros Hsome|]); [done| |exfalso|done].
    + intros _. destruct (kv_elem (sb_view b) (allow_address table) (KPair p.1 p.2)) as [x|] eqn:Hx.
      * rewrite ops_effect_other; [by eauto|]. intros op Hop Ha Hk.
        apply Hr1 in Hop as (t & q & _ & [(-> & _ & Hq)|(-> & _ & Hno)]);
          injection Hk as H1 H2; injection Ha as ->; destruct p, q; cbn in *; subst; [done|].
        apply Hno. by exists x.
      * eapply (ops_effect_adds _ _ _ _ (allow_bound_op OP_ADD p table)); [|done|done|].
        { apply Hr1. exists table, p. split; [done|]. right. split; [done|]. split; [done|].
          unfold pair_live. rewrite Hx. by intros [? [=]]. }
        intros op Hop Ha Hk. destruct (Hkind op Hop Ha Hk) as [[_ ?]|[? _]]; done.
    + destruct (kv_elem (sb_view b) (allow_address table) (KPair p.1 p.2)) as [x|] eqn:Hx.
      * rewrite ops_effect_deletes in Hsome; [by destruct Hsome| |].
        { intros op Hop Ha Hk. destruct (Hkind op Hop Ha Hk) as [[? _]|[_ ?]]; done. }
        exists (allow_bound_op OP_DELETE p table). split; [|done]. apply Hr1. exists table, p. split; [done|]. left.
        split; [done|]. split; [|done]. by exists x.
      * rewrite ops_effect_absent in Hsome; [by destruct Hsome|].
        intros op Hop Ha Hk. destruct (Hkind op Hop Ha Hk) as [[? _]|[_ ?]]; done.
  - intros a k Ha. rewrite He, Hv1. apply ops_effect_other. intros op Hop Hadd _. apply Ha.
    apply Hr1, planned_address in Hop as (t & p & Ht & Hadd' & _). rewrite <- Hadd, Hadd'. by apply list_elem_of_fmap_2.
Qed.
End AllowSync.
