(* ===== verification/LeaseSync.v ===== *)
(** * Lease sync (pirewall/runtime/lease_sync.py)

    One pass of the lease-sync thread: read the lease file, update the
    binding table, write the change (or, after a refused write, everything)
    to the kernel.  The file comes in as what [open/read] and [decode] gave:
    an error text, or the number of bytes and the decoded text.  The inotify
    watcher and the thread around [poll] are not modelled. *)

From S2P Require Import Prelude Float Net Models RateLimiter Sets SetBackend Backend Validator AllowlistStore Manager Bindings BindingSync.
Local Open Scope Z_scope.

Definition LS_SUBSYSTEM : string := "runtime.lease_sync".
Definition SEED_FAILURE_ACTOR : string := "pirewall-core (binding seed failed)".

(** Outcome of reading the file: [strerror], or byte count and text. *)
Definition lease_file : Type := string + (Z * text).

Section LeaseSync.
Context {B F : Type} `{SetBackend B} `{FirewallBackend F}.

Record LeaseSync : Type := mk_ls {
  ls_protected : IPv4.network;
  ls_path : string;
  ls_table : LeaseBindingTable;
  ls_manager : FirewallManager B F;
  ls_events : list SecurityEvent;      (** what [on_event] was called with *)
  ls_needs_full_resync : bool;
  ls_read_failing : bool;
  ls_last_ignored : list (IgnoredLease * Z);
  ls_passes : Z;
  ls_failures : Z;
}.

Definition new_lease_sync (protected : IPv4.network) (path : string) (t : LeaseBindingTable)
  (m : FirewallManager B F) : LeaseSync := mk_ls protected path t m [] false false [] 0 0.

Definition ls_on_table {A} (f : M LeaseBindingTable A) : M LeaseSync A := λ s,
  let '(r, t') := f (ls_table s) in
  (r, mk_ls (ls_protected s) (ls_path s) t' (ls_manager s) (ls_events s) (ls_needs_full_resync s)
        (ls_read_failing s) (ls_last_ignored s) (ls_passes s) (ls_failures s)).
Definition ls_on_manager {A} (f : M (FirewallManager B F) A) : M LeaseSync A := λ s,
  let '(r, m') := f (ls_manager s) in
  (r, mk_ls (ls_protected s) (ls_path s) (ls_table s) m' (ls_events s) (ls_needs_full_resync s)
        (ls_read_failing s) (ls_last_ignored s) (ls_passes s) (ls_failures s)).
Definition ls_event (e : SecurityEvent) : M LeaseSync unit := mmodify (λ s,
  mk_ls (ls_protected s) (ls_path s) (ls_table s) (ls_manager s) (ls_events s ++ [e]) (ls_needs_full_resync s)
    (ls_read_failing s) (ls_last_ignored s) (ls_passes s) (ls_failures s)).
Definition ls_set_resync (x : bool) : M LeaseSync unit := mmodify (λ s,
  mk_ls (ls_protected s) (ls_path s) (ls_table s) (ls_manager s) (ls_events s) x
    (ls_read_failing s) (ls_last_ignored s) (ls_passes s) (ls_failures s)).
Definition ls_set_read_failing (x : bool) : M LeaseSync unit := mmodify (λ s,
  mk_ls (ls_protected s) (ls_path s) (ls_table s) (ls_manager s) (ls_events s) (ls_needs_full_resync s)
    x (ls_last_ignored s) (ls_passes s) (ls_failures s)).
Definition ls_set_ignored (x : list (IgnoredLease * Z)) : M LeaseSync unit := mmodify (λ s,
  mk_ls (ls_protected s) (ls_path s) (ls_table s) (ls_manager s) (ls_events s) (ls_needs_full_resync s)
    (ls_read_failing s) x (ls_passes s) (ls_failures s)).
Definition ls_count (passes failures : Z) : M LeaseSync unit := mmodify (λ s,
  mk_ls (ls_protected s) (ls_path s) (ls_table s) (ls_manager s) (ls_events s) (ls_needs_full_resync s)
    (ls_read_failing s) (ls_last_ignored s) (ls_passes s + passes) (ls_failures s + failures)).

Definition _emit (sev : EventSeverity) (reason : string) (now : Z) : M LeaseSync unit :=
  ls_event (mk_event now sev SYSTEM_WARNING LS_SUBSYSTEM None None None (Some reason)).

Definition _read (file : lease_file) : M LeaseSync (LeaseParse + string) :=
  match file with
  | inl err => mret (inr err)
  | inr (bytes, content) =>
      if MAX_LEASE_FILE_BYTES <? bytes then
        mret (inr ("larger than " +:+ pretty MAX_LEASE_FILE_BYTES +:+ " bytes"))
      else
        s ← mget;
        let parsed := parse_leases content (ls_protected s) in
        _ ← ls_set_ignored (lp_ignored parsed);
        mret (inl parsed)
  end.

Definition _seed_failed (why : string) (now : Z) : M LeaseSync unit :=
  _ ← ls_count 0 1;
  s ← mget;
  match m_sets (ls_manager s) with
  | None => _emit SEV_WARNING ("binding seed failed, " +:+ why +:+ ".") now
  | Some _ =>
      let hint := ". Fix the cause, then put the raw guard back in enforce mode (set_guard_mode, or reload the static template with pirewall-start)" in
      downgraded ← try_firewall
        (e ← ls_on_manager (set_guard_mode RAW OBSERVE SEED_FAILURE_ACTOR now);
         _ ← ls_event e;
         mret (SEV_WARNING, "; the raw guard is now in observe mode (anti-spoof records but does not drop)"))
        (λ msg, mret (SEV_CRITICAL, "; setting the raw guard to observe ALSO failed: " +:+ msg));
      _emit downgraded.1 ("binding seed failed, " +:+ why +:+ downgraded.2 +:+ hint +:+ ".") now
  end.

Definition apply_parsed (parsed : LeaseParse + string) (now : Z) : M LeaseSync unit :=
  match parsed with
  | inl p => _ ← ls_on_table (apply_leases (lp_bindings p) now); mret tt
  | inr _ => mret tt
  end.

Definition seed_failure (why : string) (now : Z) : M LeaseSync bool := _ ← _seed_failed why now; mret false.

Definition seed (file : lease_file) (now : Z) : M LeaseSync bool :=
  parsed ← _read file;
  _ ← apply_parsed parsed now;
  s ← mget;
  written ← try_firewall (_ ← ls_on_manager (replace_bindings (snapshot (ls_table s)) now); mret None)
              (λ msg, mret (Some msg));
  match written, parsed with
  | Some msg, _ => seed_failure ("writing the binding sets failed: " +:+ msg) now
  | None, inr err => seed_failure ("the lease file could not be read: " +:+ err) now
  | None, inl _ => mret true
  end.

(** The lease set of this pass: the file's, or what the table already holds. *)
Definition pass_leases (file : lease_file) (now : Z) : M LeaseSync (list Binding) :=
  parsed ← _read file;
  s ← mget;
  match parsed with
  | inr err =>
      _ ← (if ls_read_failing s then mret tt
           else _ ← ls_set_read_failing true;
                _emit SEV_ERROR ("the lease file " +:+ ls_path s +:+ " could not be read (" +:+ err
                  +:+ "); keeping the last known bindings until it can") now);
      mret (filter (λ b, is_Some (b_expires_at b)) (snapshot (ls_table s)))
  | inl p =>
      _ ← (if ls_read_failing s then
             _ ← ls_set_read_failing false;
             _emit SEV_INFO ("the lease file " +:+ ls_path s +:+ " is readable again") now
           else mret tt);
      mret (lp_bindings p)
  end.

Definition write_change (change : BindingChange) (now : Z) : M LeaseSync Z :=
  s ← mget;
  if ls_needs_full_resync s then
    written ← ls_on_manager (replace_bindings (snapshot (ls_table s)) now);
    _ ← ls_set_resync false;
    mret written
  else ls_on_manager (sync_bindings change now).

Definition poll (file : lease_file) (now : Z) : M LeaseSync Z :=
  _ ← ls_count 1 0;
  leases ← pass_leases file now;
  change ← ls_on_table (apply_leases leases now);
  try_firewall (write_change change now)
    (λ msg,
      _ ← ls_count 0 1;
      _ ← ls_set_resync true;
      _ ← _emit SEV_ERROR ("binding sync failed, retrying as a full resync: " +:+ msg) now;
      mret 0).
End LeaseSync.

Arguments LeaseSync : clear implicits.

(** ** Theorems *)

Section LeaseSyncProps.
Context {B F : Type} {SB : SetBackend B} {SBL : SetBackendLaws B} {FB : FirewallBackend F}.
Notation LS := (LeaseSync B F).
Implicit Types (s : LS).

Definition kernel_of s : option kernel_view := sb_view <$> m_sets (ls_manager s).

(** Exactly: the kernel mirrors the table.  Otherwise: it holds no binding the
    table does not, which stays true as its elements time out. *)
Definition tracks (exact : bool) (v : kernel_view) (bs : list Binding) : Prop :=
  if exact then mirrors v bs else bounded_by v bs.

(** The kernel tracks the table, unless a full resync is due. *)
Definition in_step (exact : bool) s : Prop :=
  table_wf (ls_table s) ∧
  ∃ v, kernel_of s = Some v ∧ (ls_needs_full_resync s = false → tracks exact v (snapshot (ls_table s))).

Lemma mirrors_tracks exact v bs : mirrors v bs → tracks exact v bs.
Proof. intros Hm. destruct exact; [done|]. intros f t s k Ha Hk. by apply (Hm f t s k Ha). Qed.

(** Between passes the kernel only drops bindings. *)
Lemma timeouts_keep_tracking exact v w bs :
  (∀ f t set k, (f, t, set) ∈ binding_addresses → is_Some (kv_elem w (f, t, set) k) → is_Some (kv_elem v (f, t, set) k)) →
  tracks exact v bs → tracks false w bs.
Proof. intros Hdrop Hb f t s k Ha Hk. destruct exact; apply (Hb f t s k Ha); by apply Hdrop. Qed.

(** What a pass decides on before it touches table or kernel. *)
Lemma pass_leases_spec file now s : table_wf (ls_table s) →
  ∃ ls s', pass_leases file now s = (Ok ls, s') ∧ ls_table s' = ls_table s ∧ ls_manager s' = ls_manager s ∧
    ls_needs_full_resync s' = ls_needs_full_resync s ∧ ls_failures s' = ls_failures s ∧
    Forall binding_wf ls ∧ Forall (λ b, b_source b = LEASE) ls ∧
    ((∃ bytes content, file = inr (bytes, content) ∧ ls = lp_bindings (parse_leases content (ls_protected s))) ∨
     ls = filter (λ b, is_Some (b_expires_at b)) (snapshot (ls_table s))).
Proof.
  intros Hwf. unfold pass_leases, _read, mbind, m_bind, mget.
  assert (Hkeep : let ls := filter (λ b, is_Some (b_expires_at b)) (snapshot (ls_table s)) in
            Forall binding_wf ls ∧ Forall (λ b, b_source b = LEASE) ls).
  { cbn. rewrite !Forall_forall. setoid_rewrite list_elem_of_filter. split; intros b [He Hb];
      pose proof (snapshot_wf _ _ Hwf Hb) as Hbw; [done|]. destruct Hbw as (_ & _ & Hck). unfold binding_check in Hck.
    destruct (b_source b), (b_expires_at b); try done; by destruct He. }
  destruct file as [err|[bytes content]].
  { cbn. destruct (ls_read_failing s); cbn; do 2 eexists; (split; [reflexivity|]); cbn; do 4 (split; [done|]);
      do 2 (split; [apply Hkeep|]); by right. }
  destruct (MAX_LEASE_FILE_BYTES <? bytes).
  { cbn. destruct (ls_read_failing s); cbn; do 2 eexists; (split; [reflexivity|]); cbn; do 4 (split; [done|]);
      do 2 (split; [apply Hkeep|]); by right. }
  pose proof (parse_leases_facts content (ls_protected s)) as [_ Hp].
  cbn. destruct (ls_read_failing s); cbn; do 2 eexists; (split; [reflexivity|]); cbn; do 4 (split; [done|]);
    (split; [apply Forall_forall; intros b Hb; by apply Hp|split; [apply Forall_forall; intros b Hb; by apply Hp|]]);
    left; by eauto.
Qed.

(** The write of one pass: accepted, and the kernel mirrors the table; or
    refused, and the kernel is as it was. *)
Lemma write_change_spec exact s b t ls now change :
  m_sets (ls_manager s) = Some b → table_wf t → Forall binding_wf ls → Forall (λ x, b_source x = LEASE) ls →
  apply_leases ls now t = (Ok change, ls_table s) →
  (ls_needs_full_resync s = false → tracks exact (sb_view b) (snapshot t)) →
  ∃ r s' b', write_change change now s = (r, s') ∧ ls_table s' = ls_table s ∧ ls_failures s' = ls_failures s ∧
    m_sets (ls_manager s') = Some b' ∧
    match r with
    | Ok _ => ls_needs_full_resync s' = false ∧ tracks exact (sb_view b') (snapshot (ls_table s)) ∧
              (ls_needs_full_resync s = true → mirrors (sb_view b') (snapshot (ls_table s)))
    | Raise e => view_eq (sb_view b') (sb_view b) ∧ ∃ msg, e = FirewallError msg
    end.
Proof.
  intros Hb Hwf Hlw Hsrc Happ Hstep. unfold write_change, mbind, m_bind, mget, ls_on_manager.
  destruct (ls_needs_full_resync s) eqn:Hfull.
  - pose proof (replace_bindings_effect (ls_manager s) b (snapshot (ls_table s)) now Hb) as Hrep.
    destruct (replace_bindings _ now (ls_manager s)) as [r m']. destruct Hrep as (b' & Hs' & _ & Hr).
    destruct r as [n|e]; cbn; do 3 eexists; (split; [reflexivity|]); cbn; [|by eauto].
    do 3 (split; [done|]). split; [done|]. split; [by apply mirrors_tracks|done].
  - pose proof (lease_change_refines_facts (ls_manager s) b t ls now change (ls_table s) Hb Hwf Hlw Hsrc Happ) as Href.
    destruct (sync_bindings change now (ls_manager s)) as [r m']. destruct Href as (b' & Hs' & _ & Hr).
    do 3 eexists; (split; [reflexivity|]); cbn. do 3 (split; [done|]). destruct r as [n|e]; [|done].
    split; [done|]. split; [|done]. specialize (Hstep eq_refl). destruct exact; by apply Hr.
Qed.

(** One pass, from a state whose kernel tracks the table or in which a full
    resync is due. *)
Lemma poll_in_step exact file now s :
  in_step exact s →
  ∃ n s' v', poll file now s = (Ok n, s') ∧ in_step exact s' ∧ kernel_of s' = Some v' ∧
    ((ls_needs_full_resync s' = false ∧ tracks exact v' (snapshot (ls_table s')) ∧
      (ls_needs_full_resync s = true → mirrors v' (snapshot (ls_table s')))) ∨
     (ls_needs_full_resync s' = true ∧ ls_failures s' = ls_failures s + 1 ∧
      ∀ v, kernel_of s = Some v → view_eq v' v)).
Proof.
  intros (Hwf & v & Hk & Hstep). unfold kernel_of in Hk.
  destruct (m_sets (ls_manager s)) as [b|] eqn:Hb; [|done]. injection Hk as <-.
  unfold poll, mbind, m_bind at 1, ls_count, mmodify. set (s0 := mk_ls _ _ _ _ _ _ _ _ _ _).
  destruct (pass_leases_spec file now s0 Hwf) as (ls & s1 & Hpass & Ht1 & Hm1 & Hn1 & Hf1 & Hlw & Hsrc & _).
  unfold m_bind. rewrite Hpass. unfold ls_on_table at 1. rewrite Ht1. change (ls_table s0) with (ls_table s).
  destruct (apply_leases_facts (ls_table s) ls now Hwf Hlw Hsrc) as (change & t' & Happ & Hwf' & _).
  rewrite Happ. set (s2 := mk_ls _ _ _ _ _ _ _ _ _ _).
  destruct (write_change_spec exact s2 b (ls_table s) ls now change) as (r & s3 & b' & Hw & Ht3 & Hf3 & Hs3 & Hr);
    [cbn; by rewrite Hm1|done..|cbn; by rewrite Hn1|].
  unfold try_firewall. rewrite Hw. unfold kernel_of. rewrite Hb. cbn [fmap option_fmap option_map].
  destruct r as [n|e]; [|destruct Hr as [Hv [msg ->]]]; cbn; do 3 eexists; (split; [reflexivity|]); cbn.
  - destruct Hr as (Hn & Htr & Hfull).
    split; [split; [by rewrite Ht3|]; exists (sb_view b'); split; [unfold kernel_of; by rewrite Hs3|]|].
    { intros _. by rewrite Ht3. }
    split; [by rewrite Hs3|]. left. split; [done|]. rewrite Ht3. split; [done|]. intros Hres. apply Hfull. cbn. by rewrite Hn1.
  - split; [split; [cbn; by rewrite Ht3|]; exists (sb_view b'); split; [unfold kernel_of; cbn; by rewrite Hs3|done]|].
    split; [by rewrite Hs3|]. right. split; [done|]. split; [cbn in *; lia|]. by intros ? [= <-].
Qed.

(** Re-applying the leases a table holds only drops the expired ones. *)
Lemma aged_table t t' now : table_wf t → table_wf t' → lt_static t' = lt_static t →
  let ls := filter (λ b, is_Some (b_expires_at b)) (snapshot t) in
  (∀ ip b, dget (lt_leases t') ip = Some b → best_lease t now ls ip b) →
  (∀ b, b ∈ ls → admissible t now b = true → is_Some (dget (lt_leases t') (b_ip b))) →
  ∀ b, lookup_binding t' (b_ip b) = Some b ↔
       lookup_binding t (b_ip b) = Some b ∧ (b_source b = LEASE → now < _expiry b).
Proof.
  intros Hwf Hwf' Hst ls Hbest Hall b. pose proof Hwf as (_ & _ & Hstat & Hls).
  unfold lookup_binding. rewrite Hst. destruct (dget (lt_static t) (b_ip b)) as [y|] eqn:Hs.
  { split; [|tauto]. intros [= ->]. split; [done|]. destruct (Hstat _ _ Hs) as (_ & _ & -> & _). done. }
  assert (Hin : ∀ x, dget (lt_leases t) (b_ip b) = Some x ↔ x ∈ ls ∧ b_ip x = b_ip b).
  { intros x. unfold ls. rewrite list_elem_of_filter, snapshot_elem by done. unfold lookup_binding. split.
    - intros Hx. destruct (Hls _ _ Hx) as (Hip & (_ & _ & Hck) & Hsrc & _). rewrite Hip, Hs, Hx.
      split; [|done]. split; [|done]. unfold binding_check in Hck. rewrite Hsrc in Hck. by destruct (b_expires_at x).
    - intros [[_ Hx] Hip]. by rewrite Hip, Hs in Hx. }
  split.
  - intros Hb. destruct (Hbest _ _ Hb) as (Hbl & _ & Ha & _). split; [by apply Hin|].
    intros _. unfold admissible in Ha. bool_prop. done.
  - intros [Hb Hexp]. pose proof (proj1 (Hin b) Hb) as [Hbl _]. destruct (Hls _ _ Hb) as (_ & _ & Hsrc & _ & Hmac).
    destruct (Hall b Hbl) as [x Hx].
    { unfold admissible, dmem. rewrite Hs. apply andb_true_iff. split; [apply andb_true_iff; split; [|done]|].
      - apply Z.ltb_lt. by apply Hexp.
      - apply negb_true_iff. by apply inb_false. }
    rewrite Hx. destruct (Hbest _ _ Hx) as (Hxl & Hxip & _). f_equal.
    assert (Hx' : dget (lt_leases t) (b_ip b) = Some x) by (apply Hin; done). congruence.
Qed.

(** A pass that cannot read the file keeps every binding that has not
    expired, static ones included, and binds nothing new. *)
Theorem poll_unreadable_keeps_bindings exact err now s :
  in_step exact s →
  ∃ n s', poll (inl err) now s = (Ok n, s') ∧
    ∀ b, lookup_binding (ls_table s') (b_ip b) = Some b ↔
         lookup_binding (ls_table s) (b_ip b) = Some b ∧ (b_source b = LEASE → now < _expiry b).
Proof.
  intros (Hwf & v & Hk & Hstep). unfold kernel_of in Hk.
  destruct (m_sets (ls_manager s)) as [k|] eqn:Hb; [|done]. injection Hk as <-.
  unfold poll, mbind, m_bind at 1, ls_count, mmodify. set (s0 := mk_ls _ _ _ _ _ _ _ _ _ _).
  destruct (pass_leases_spec (inl err) now s0 Hwf) as (ls & s1 & Hpass & Ht1 & Hm1 & Hn1 & Hf1 & Hlw & Hsrc & Hls).
  unfold m_bind. rewrite Hpass. unfold ls_on_table at 1. rewrite Ht1. change (ls_table s0) with (ls_table s).
  destruct Hls as [(? & ? & [=] & _)|Hls]. change (ls_table s0) with (ls_table s) in Hls.
  destruct (apply_leases_facts (ls_table s) ls now Hwf Hlw Hsrc) as (change & t' & Happ & Hwf' & Hst & Hbest & Hall & _).
  rewrite Happ. set (s2 := mk_ls _ _ _ _ _ _ _ _ _ _).
  destruct (write_change_spec exact s2 k (ls_table s) ls now change) as (r & s3 & b' & Hw & Ht3 & Hf3 & Hs3 & Hr);
    [cbn; by rewrite Hm1|done..|cbn; by rewrite Hn1|].
  assert (Hgoal : ∀ b, lookup_binding t' (b_ip b) = Some b ↔
            lookup_binding (ls_table s) (b_ip b) = Some b ∧ (b_source b = LEASE → now < _expiry b)).
  { subst ls. by apply (aged_table (ls_table s) t' now). }
  unfold try_firewall. rewrite Hw.
  destruct r as [n|e]; [|destruct Hr as [_ [msg ->]]]; cbn; do 2 eexists; (split; [reflexivity|]); cbn; by rewrite Ht3.
Qed.

Definition critical_event (e : SecurityEvent) : Prop := ev_severity e = SEV_CRITICAL.

Lemma _seed_failed_spec why now s b : m_sets (ls_manager s) = Some b →
  ∃ s' b', _seed_failed why now s = (Ok tt, s') ∧ m_sets (ls_manager s') = Some b' ∧
    ls_table s' = ls_table s ∧ ls_failures s' = ls_failures s + 1 ∧ ls_needs_full_resync s' = ls_needs_full_resync s ∧
    (∀ a k, kv_elem (sb_view b') a k = kv_elem (sb_view b) a k) ∧
    (kv_guard (sb_view b') RAW = Some OBSERVE ∨ Exists critical_event (ls_events s')).
Proof.
  intros Hb. unfold _seed_failed, mbind, m_bind, mget, ls_count, mmodify. cbn. rewrite Hb.
  unfold try_firewall, ls_on_manager, set_guard_mode, mbind, m_bind, mget, on_sets. cbn. repeat (rewrite Hb; cbn).
  destruct (sb_set_guard_modes [(RAW, OBSERVE)] b) as [[[]|e] b'] eqn:Hg; apply guards_law in Hg.
  - destruct Hg as (_ & He & Hset & _). cbn. do 2 eexists. split; [reflexivity|]. cbn.
    do 4 (split; [done|]). split; [done|]. left. apply Hset; [done|apply NoDup_singleton].
  - destruct Hg as [(_ & He & _) [msg ->]]. cbn. do 2 eexists. split; [reflexivity|]. cbn.
    do 4 (split; [done|]). split; [done|]. right. apply Exists_app. right. by constructor.
Qed.

Lemma read_spec file s : ∃ p s', _read file s = (Ok p, s') ∧ ls_table s' = ls_table s ∧
  ls_manager s' = ls_manager s ∧ ls_failures s' = ls_failures s ∧
  ls_needs_full_resync s' = ls_needs_full_resync s ∧
  ∀ x, p = inl x → Forall binding_wf (lp_bindings x) ∧ Forall (λ b, b_source b = LEASE) (lp_bindings x).
Proof.
  unfold _read, mbind, m_bind, mget. destruct file as [err|[bytes content]]; [by do 2 eexists|].
  destruct (_ <? _); [by do 2 eexists|]. do 2 eexists. split; [reflexivity|]. cbn. do 4 (split; [done|]).
  intros x [= <-]. pose proof (parse_leases_facts content (ls_protected s)) as [_ Hp].
  split; apply Forall_forall; intros b Hb; by apply Hp.
Qed.

Lemma apply_parsed_spec p now s : table_wf (ls_table s) →
  (∀ x, p = inl x → Forall binding_wf (lp_bindings x) ∧ Forall (λ b, b_source b = LEASE) (lp_bindings x)) →
  ∃ s', apply_parsed p now s = (Ok tt, s') ∧ table_wf (ls_table s') ∧ ls_manager s' = ls_manager s ∧
    ls_failures s' = ls_failures s.
Proof.
  intros Hwf Hp. unfold apply_parsed, mbind, m_bind. destruct p as [x|err]; [|by exists s].
  destruct (Hp x eq_refl) as [Hw Hsrc]. unfold ls_on_table.
  destruct (apply_leases_facts (ls_table s) (lp_bindings x) now Hwf Hw Hsrc) as (c & t' & -> & Hwf' & _).
  by eexists.
Qed.

(** The startup seed always returns.  [True] means the kernel's binding
    sets hold exactly the table (whatever they held before); [False] means
    a failure was counted and the raw guard observes, or the event says
    CRITICALLY that even that write failed. *)
Theorem seed_reports_truthfully file now s b :
  table_wf (ls_table s) → m_sets (ls_manager s) = Some b →
  ∃ r s' b', seed file now s = (Ok r, s') ∧ m_sets (ls_manager s') = Some b' ∧ table_wf (ls_table s') ∧
    (r = true → mirrors (sb_view b') (snapshot (ls_table s'))) ∧
    (r = false → ls_failures s' = ls_failures s + 1 ∧
       (kv_guard (sb_view b') RAW = Some OBSERVE ∨ Exists critical_event (ls_events s'))).
Proof.
  intros Hwf Hb. unfold seed, mbind, m_bind.
  destruct (read_spec file s) as (p & s1 & Hread & Ht1 & Hm1 & Hf1 & Hn1 & Hp). rewrite Hread.
  destruct (apply_parsed_spec p now s1) as (s2 & Hstep & Hwf2 & Hm2 & Hf2); [by rewrite Ht1|done|].
  rewrite Hstep. unfold mget, try_firewall, ls_on_manager. cbn.
  pose proof (replace_bindings_effect (ls_manager s2) b (snapshot (ls_table s2)) now) as Hrep.
  destruct (replace_bindings _ now (ls_manager s2)) as [r m']. destruct Hrep as (b' & Hs' & _ & Hr); [by rewrite Hm2, Hm1|].
  set (s3 := mk_ls _ _ _ m' _ _ _ _ _ _).
  assert (Hfail : ∀ why, ∃ r' s' b'', seed_failure why now s3 = (Ok r', s') ∧
            m_sets (ls_manager s') = Some b'' ∧ table_wf (ls_table s') ∧
            (r' = true → mirrors (sb_view b'') (snapshot (ls_table s'))) ∧
            (r' = false → ls_failures s' = ls_failures s + 1 ∧
              (kv_guard (sb_view b'') RAW = Some OBSERVE ∨ Exists critical_event (ls_events s')))).
  { intros why. destruct (_seed_failed_spec why now s3 b' Hs') as (s' & b'' & Heq & Hs'' & Ht & Hf & _ & _ & Hg).
    exists false, s', b''. unfold seed_failure, mbind, m_bind. rewrite Heq.
    split; [done|]. split; [done|]. split; [by rewrite Ht|]. split; [done|].
    intros _. split; [|done]. rewrite Hf. cbn. by rewrite Hf2, Hf1. }
  destruct r as [n|e]; [|destruct Hr as [_ [msg ->]]; apply Hfail].
  destruct p as [x|err]; [|apply Hfail]. exists true, s3, b'. do 3 (split; [done|]). split; [by intros _|done].
Qed.

(** Between two passes the other threads use the manager and time passes: the
    binding sets lose elements, and nobody else adds to them. *)
Definition meanwhile s s' : Prop :=
  ∃ m' b b', m_sets (ls_manager s) = Some b ∧ m_sets m' = Some b' ∧
    s' = mk_ls (ls_protected s) (ls_path s) (ls_table s) m' (ls_events s) (ls_needs_full_resync s) (ls_read_failing s) (ls_last_ignored s)
           (ls_passes s) (ls_failures s) ∧
    ∀ f t set k, (f, t, set) ∈ binding_addresses → is_Some (kv_elem (sb_view b') (f, t, set) k) → is_Some (kv_elem (sb_view b) (f, t, set) k).
(** The passes after a start; [exact] says that nothing happened in between. *)
Inductive passes_from (start : LS) : bool → LS → Prop :=
| at_start : passes_from start true start
| after_pass exact s file now r s' : passes_from start exact s → poll file now s = (r, s') → passes_from start exact s'
| after_others exact s s' : passes_from start exact s → meanwhile s s' → passes_from start false s'.

Lemma passes_in_step start exact s : in_step true start → passes_from start exact s → in_step exact s.
Proof.
  intros Hstart. induction 1 as [|exact s file now r s' _ IH Hp|exact s s' _ IH (m' & b & b' & Hb & Hb' & -> & Hdrop)]; [done|..].
  - destruct (poll_in_step exact file now s IH) as (n & s2 & v' & Heq & Hstep & _). congruence.
  - destruct IH as (Hwf & v & Hk & Ht). split; [done|]. exists (sb_view b'). unfold kernel_of in *. rewrite Hb in Hk. injection Hk as <-. cbn.
    rewrite Hb'. split; [done|]. intros Hn. eapply timeouts_keep_tracking; [exact Hdrop|]. by apply Ht.
Qed.

(** C7: After a startup seed that succeeded, every pass of lease sync returns,
    whatever the file holds, whatever the kernel answers and whatever passes and
    timeouts came before.  Either the kernel accepted the write and holds no
    binding outside the new table, and exactly the table if no element was lost
    between passes or if the pass was a full resync; or it refused and is as it
    was, the failure is counted and a full resync is due, which the next pass
    performs.  (A seed the kernel refused is not retried: see
    [refused_seed_is_not_retried].) *)
Theorem poll_keeps_kernel_in_step start b file0 now0 seeded exact s file now :
  table_wf (ls_table start) → m_sets (ls_manager start) = Some b → seed file0 now0 start = (Ok true, seeded) →
  passes_from seeded exact s →
  ∃ n s' v', poll file now s = (Ok n, s') ∧ kernel_of s' = Some v' ∧
    ((ls_needs_full_resync s' = false ∧ bounded_by v' (snapshot (ls_table s')) ∧
      (exact = true ∨ ls_needs_full_resync s = true → mirrors v' (snapshot (ls_table s')))) ∨
     (ls_needs_full_resync s' = true ∧ ls_failures s' = ls_failures s + 1 ∧
      ∀ v, kernel_of s = Some v → view_eq v' v)).
Proof.
  intros Hwf Hb Hseed Hs.
  destruct (seed_reports_truthfully file0 now0 start b Hwf Hb) as (r & s1 & b1 & Heq & Hb1 & Hwf1 & Htrue & _).
  rewrite Hseed in Heq. injection Heq as <- <-.
  assert (Hstep : in_step exact s).
  { apply (passes_in_step seeded); [|done]. split; [done|]. exists (sb_view b1). unfold kernel_of. rewrite Hb1. split; [done|]. intros _. by apply Htrue. }
  destruct (poll_in_step exact file now s Hstep) as (n & s' & v' & Hp & _ & Hk & [(Hn & Htr & Hfull)|Hr]); exists n, s', v'; (split; [done|]); (split; [done|]);
    [left|by right].
  split; [done|]. split.
  - destruct exact; [|done]. by apply (mirrors_tracks false).
  - intros [->|Hfr]; [done|by apply Hfull].
Qed.
End LeaseSyncProps.
