(* ===== verification/Policy.v ===== *)
(** * The v2 policy table and engine (pirewall/policy/table.py, policy/engine.py)

    The evidence variants (core/models/evidence_v2.py), the policy table with
    the checks that refuse a table breaking a ceiling, and [PolicyEngine]:
    one device's evidence bundle in, decisions out, with the per-device
    memory of what was already acted on.  Random decision ids are left out,
    and Python's float formatting is a parameter of the reason texts. *)

From S2P Require Import Prelude Float Net Models Sets.
Local Open Scope Z_scope.

(** ** Offender codes (core/nft_names.py) *)

Inductive OffenderCode :=
| SYN_PPS | UDP_LOCAL_PPS | ICMP_PPS | LOCAL_PPS | CLOSED_PORT | NEWCONN | NEWCONN_DST | UDP_FWD
| UNBOUND | DNS_QPS | DHCP | PORTAL_CONCURRENCY.

Definition offender_name (c : OffenderCode) : string :=
  match c with
  | SYN_PPS => "SYN_PPS" | UDP_LOCAL_PPS => "UDP_LOCAL_PPS" | ICMP_PPS => "ICMP_PPS" | LOCAL_PPS => "LOCAL_PPS"
  | CLOSED_PORT => "CLOSED_PORT" | NEWCONN => "NEWCONN" | NEWCONN_DST => "NEWCONN_DST" | UDP_FWD => "UDP_FWD"
  | UNBOUND => "UNBOUND" | DNS_QPS => "DNS_QPS" | DHCP => "DHCP" | PORTAL_CONCURRENCY => "PORTAL_CONCURRENCY"
  end.

Definition OFFENDER_GUARD (c : OffenderCode) : GuardName :=
  match c with
  | SYN_PPS | UDP_LOCAL_PPS | ICMP_PPS | LOCAL_PPS | UNBOUND | DHCP => RAW
  | CLOSED_PORT | DNS_QPS | PORTAL_CONCURRENCY => INPUT
  | NEWCONN | NEWCONN_DST | UDP_FWD => FORWARD
  end.

(** ** Evidence *)

Record KernelGuardEvidence : Type := mk_kernel_ev {
  ke_id : string; ke_code : OffenderCode; ke_mac : Mac.t; ke_guard : GuardName; ke_guard_mode : GuardMode;
  ke_sustained_polls : Z; ke_observed_at : Z }.
Record D1Evidence : Type := mk_d1_ev {
  de_id : string; de_detector : D1Detector; de_window_seconds : Z; de_value : float; de_threshold : float;
  de_mac : option Mac.t; de_observed_at : Z }.
Record ClassifierEvidence : Type := mk_class_ev {
  ce_id : string; ce_flow_id : string; ce_mac : option Mac.t; ce_attack_probability : float;
  ce_operating_threshold : float; ce_is_attack : bool; ce_family : option string;
  ce_family_probability : option float; ce_model_version : string; ce_feature_schema_version : string;
  ce_generated_at : Z }.
Record AnomalyEvidence : Type := mk_anom_ev {
  ae_flow_id : string; ae_anomaly_score : float; ae_threshold : float; ae_is_anomaly : bool;
  ae_model_version : string; ae_feature_schema_version : string; ae_generated_at : Z }.

(** [KernelGuardEvidence._check_guard_matches_code] and the field bound. *)
Definition kernel_evidence_check (e : KernelGuardEvidence) : bool :=
  (1 <=? ke_sustained_polls e) && bool_decide (ke_guard e = OFFENDER_GUARD (ke_code e)).

(** [ClassifierEvidence._check_consistency] *)
Definition classifier_evidence_check (e : ClassifierEvidence) : bool :=
  Bool.eqb (ce_is_attack e) (fle (ce_operating_threshold e) (ce_attack_probability e))
  && Bool.eqb (bool_decide (ce_family e = None))
       (match ce_family_probability e with None => true | Some _ => false end).

Inductive Evidence :=
| EvK (e : KernelGuardEvidence)
| EvD1 (e : D1Evidence)
| EvAnomaly (e : AnomalyEvidence)
| EvClassifier (e : ClassifierEvidence).

Definition evidence_id (e : Evidence) : string :=
  match e with
  | EvK k => ke_id k
  | EvD1 d => de_id d
  | EvClassifier c => ce_id c
  | EvAnomaly a => "anomaly:" +:+ ae_flow_id a
  end.

(** ** The table *)

Inductive EvidenceClass :=
| K_OBSERVE | K_ENFORCE_PENDING | K_ENFORCE_SUSTAINED | D1_HIGH | D1_STANDARD | D1_ESCALATED | ML_ONLY | ML_WITH_D1.
Inductive TableAction := T_LOG | T_MONITOR | T_RATE_LIMIT | T_BLOCK | T_BLOCK_APPROVAL.

#[global] Instance EvidenceClass_eq_dec : EqDecision EvidenceClass.
Proof. solve_decision. Defined.
#[global] Instance TableAction_eq_dec : EqDecision TableAction.
Proof. solve_decision. Defined.

Definition all_classes : list EvidenceClass :=
  [K_OBSERVE; K_ENFORCE_PENDING; K_ENFORCE_SUSTAINED; D1_HIGH; D1_STANDARD; D1_ESCALATED; ML_ONLY; ML_WITH_D1].

Definition MONITOR_CEILING_CLASSES : list EvidenceClass := [ML_ONLY; K_OBSERVE; K_ENFORCE_PENDING].

Record PolicyRow : Type := mk_row {
  pr_evidence : EvidenceClass;
  pr_shadow : list TableAction;
  pr_assisted : list TableAction;
  pr_active : list TableAction;
  pr_escalate : bool;
}.

(** The field constraints and [PolicyRow._check_cells]. *)
Definition row_check (r : PolicyRow) : bool :=
  negb (bool_decide (pr_assisted r = [])) && negb (bool_decide (pr_active r = []))
  && bool_decide (pr_shadow r = [T_LOG])
  && forallb (λ column, negb (inb T_LOG column)) [pr_assisted r; pr_active r]
  && (if inb (pr_evidence r) MONITOR_CEILING_CLASSES
      then forallb (λ column, forallb (λ a, bool_decide (a = T_MONITOR)) column) [pr_assisted r; pr_active r]
      else true)
  && negb (inb T_BLOCK_APPROVAL (pr_active r)).

(** SHADOW reads the ACTIVE column. *)
Definition row_cell (r : PolicyRow) (mode : EnforcementMode) : list TableAction :=
  match mode with MODE_ASSISTED => pr_assisted r | _ => pr_active r end.

Record PolicyTable : Type := mk_policy_table {
  pt_version : Z;
  pt_high : list D1Detector;
  pt_standard : list D1Detector;
  pt_rows : list (EvidenceClass * PolicyRow);
}.

(** [PolicyTable._check_complete] *)
Definition table_check (t : PolicyTable) : bool :=
  (pt_version t =? 1) && forallb (λ c, dmem (pt_rows t) c) all_classes
  && forallb (λ d, negb (inb d (pt_standard t))) (pt_high t).

(** [load_policy_table] after TOML decoding: check every row, refuse a
    duplicate, check the whole. *)
Definition load_policy_table (version : Z) (high standard : list D1Detector) (rows : list PolicyRow)
  : result PolicyTable :=
  if negb (forallb row_check rows) then Raise (ConfigurationError "policy table is invalid")
  else
    let by_class := foldl (λ acc r, dset acc (pr_evidence r) r) [] rows in
    if negb (length by_class =? length rows)%nat then Raise (ConfigurationError "policy table has a duplicate row")
    else
      let t := mk_policy_table version high standard by_class in
      if table_check t then Ok t else Raise (ConfigurationError "policy table is invalid").

(** The shipped policy/table.toml. *)
Definition shipped_rows : list PolicyRow :=
  [ mk_row K_OBSERVE [T_LOG] [T_MONITOR] [T_MONITOR] false;
    mk_row K_ENFORCE_PENDING [T_LOG] [T_MONITOR] [T_MONITOR] false;
    mk_row K_ENFORCE_SUSTAINED [T_LOG] [T_RATE_LIMIT] [T_RATE_LIMIT] false;
    mk_row D1_HIGH [T_LOG] [T_RATE_LIMIT; T_BLOCK_APPROVAL] [T_BLOCK] false;
    mk_row D1_STANDARD [T_LOG] [T_RATE_LIMIT] [T_RATE_LIMIT] false;
    mk_row D1_ESCALATED [T_LOG] [T_BLOCK_APPROVAL] [T_BLOCK] true;
    mk_row ML_ONLY [T_LOG] [T_MONITOR] [T_MONITOR] false;
    mk_row ML_WITH_D1 [T_LOG] [T_RATE_LIMIT] [T_RATE_LIMIT] false ].

Definition shipped_table : result PolicyTable :=
  load_policy_table 1 [VERTICAL_SCAN; HORIZONTAL_SCAN; BRUTE_FORCE]
    [FAILED_HANDSHAKE; SLOW_RATE_DOS; PORTAL_AUTH_FAILURES] shipped_rows.

(** ** Decisions (core/models/policy.py) *)

Definition MAX_ELEMENT_TTL_SECONDS : Z := 3600.

Definition THREAT_LEVEL_BY_ACTION (a : FirewallAction) : ThreatLevel :=
  match a with ALLOW => LOW | MONITOR => MEDIUM | RATE_LIMIT => HIGH | BLOCK => CRITICAL end.

Record PolicyDecision : Type := mk_policy_decision {
  pd_target : RuleTarget;
  pd_action : FirewallAction;
  pd_ttl_seconds : option Z;
  pd_reasons : list string;
  pd_evidence_ids : list string;
  pd_requires_approval : bool;
  pd_decided_at : Z;
  pd_threat_level : ThreatLevel;
}.

(** The constructor: field bounds, then [_check_consistency]; [threat_level]
    is omitted by every caller and filled in. *)
Definition new_decision (target : RuleTarget) (action : FirewallAction) (ttl : option Z) (reasons ids : list string)
  (approval : bool) (now : Z) : result PolicyDecision :=
  if match ttl with Some t => negb ((0 <? t) && (t <=? MAX_ELEMENT_TTL_SECONDS)) | None => false end
  then Raise (ValueError "ttl_seconds out of range")
  else if bool_decide (reasons = []) then Raise (ValueError "reasons must not be empty")
  else if restrictive action && bool_decide (ttl = None)
  then Raise (ValueError "RATE_LIMIT and BLOCK need ttl_seconds: every adaptive element expires")
  else if restrictive action && bool_decide (ids = [])
  then Raise (ValueError "an enforcing decision must name the evidence behind it")
  else if negb (restrictive action) && negb (bool_decide (ttl = None))
  then Raise (ValueError "only RATE_LIMIT and BLOCK carry a ttl_seconds")
  else if approval && negb (bool_decide (action = BLOCK))
  then Raise (ValueError "only BLOCK goes to the approval queue (ADDENDUM.md A7)")
  else Ok (mk_policy_decision target action ttl reasons ids approval now (THREAT_LEVEL_BY_ACTION action)).

(** ** Classification *)

Definition kernel_class (sustained_polls : Z) (k : KernelGuardEvidence) : EvidenceClass :=
  match ke_guard_mode k with
  | OBSERVE => K_OBSERVE
  | ENFORCE => if sustained_polls <=? ke_sustained_polls k then K_ENFORCE_SUSTAINED else K_ENFORCE_PENDING
  end.

Definition kernel_items (es : list Evidence) : list KernelGuardEvidence :=
  omap (λ e, match e with EvK k => Some k | _ => None end) es.
Definition d1_items (es : list Evidence) : list D1Evidence :=
  omap (λ e, match e with EvD1 d => Some d | _ => None end) es.
Definition is_ml (e : Evidence) : bool :=
  match e with EvAnomaly a => ae_is_anomaly a | EvClassifier c => ce_is_attack c | _ => false end.

Definition acting (t : PolicyTable) (d : D1Evidence) : bool :=
  inb (de_detector d) (pt_high t) || inb (de_detector d) (pt_standard t).

Definition classify (bundle : list Evidence) (t : PolicyTable) (sustained_polls prior_d1_strikes : Z)
  (new_ids : list string) : list EvidenceClass :=
  let kernel := kernel_class sustained_polls <$> kernel_items bundle in
  let d1 := d1_items bundle in
  let sustained := inb K_ENFORCE_SUSTAINED kernel in
  let acting_d1 := existsb (acting t) d1 in
  let new_d1 := existsb (λ d, acting t d && inb (de_id d) new_ids) d1 in
  dedup (kernel
    ++ (if existsb (λ d, inb (de_detector d) (pt_high t)) d1 then [D1_HIGH] else [])
    ++ (if existsb (λ d, inb (de_detector d) (pt_standard t)) d1 then [D1_STANDARD] else [])
    ++ (if acting_d1 && new_d1 && (sustained || (0 <? prior_d1_strikes)) then [D1_ESCALATED] else [])
    ++ (if existsb is_ml bundle then [if acting_d1 then ML_WITH_D1 else ML_ONLY] else [])).

(** ** The engine *)

Record EvidenceBundle : Type := mk_bundle { eb_target : RuleTarget; eb_evidence : list Evidence }.
Record History : Type := mk_history { h_used : list (string * unit); h_d1_strikes : Z }.
Record PolicyEngine : Type := mk_engine {
  pe_table : PolicyTable;
  pe_config : PolicyConfig;
  pe_history : list (string * History);
}.

Definition new_engine (t : PolicyTable) (c : PolicyConfig) : PolicyEngine := mk_engine t c [].

Definition tracked_devices (e : PolicyEngine) : Z := Z.of_nat (length (pe_history e)).

Definition device_key (target : RuleTarget) : string :=
  match rt_mac target with Some m => m | None => IPv4.to_string (rt_ip target) end.

(** [_history_for]: the device's record, moved to (or created at) the recent
    end; the least recent record goes when there are too many. *)
Definition _history_for (target : RuleTarget) : M PolicyEngine History := λ e,
  let key := device_key target in
  match dget (pe_history e) key with
  | None =>
      let h := mk_history [] 0 in
      let hs := dset (pe_history e) key h in
      let hs := if pc_max_tracked_devices (pe_config e) <? Z.of_nat (length hs) then dpopitem_first hs else hs in
      (Ok h, mk_engine (pe_table e) (pe_config e) hs)
  | Some h => (Ok h, mk_engine (pe_table e) (pe_config e) (dmove_to_end (pe_history e) key))
  end.

(** The record is shared with the dictionary, so changing it changes the
    entry, as long as it is still there. *)
Definition store_history (target : RuleTarget) (h : History) : M PolicyEngine unit := mmodify (λ e,
  if dmem (pe_history e) (device_key target)
  then mk_engine (pe_table e) (pe_config e) (dset (pe_history e) (device_key target) h) else e).

Definition touch (used : list (string * unit)) (id : string) : list (string * unit) :=
  dmove_to_end (dset used id tt) id.

(** [while len(used) > limit: used.popitem(last=False)] *)
Definition trim (limit : Z) (used : list (string * unit)) : list (string * unit) :=
  drop (length used - Z.to_nat limit) used.

Definition _remember (limit : Z) (h : History) (ids : list string) : History :=
  mk_history (trim limit (foldl touch (h_used h) ids)) (h_d1_strikes h).

Definition _block_ttl (c : PolicyConfig) (escalate : bool) (h : History) : Z :=
  let ttl := pc_block_ttl_seconds c in
  let ttl := if escalate then ttl * pc_escalation_ttl_multiplier c ^ Z.max (h_d1_strikes h) 1 else ttl in
  Z.min ttl (pc_max_ttl_seconds c).

Definition _STRENGTH (a : TableAction) : option Z :=
  match a with T_MONITOR => Some 1 | T_RATE_LIMIT => Some 2 | T_BLOCK => Some 3 | _ => None end.

(** [max((a for a in actions if a in _STRENGTH), key=_STRENGTH, default=None)] *)
Definition direct_action (actions : list TableAction) : option TableAction :=
  if inb T_BLOCK actions then Some T_BLOCK
  else if inb T_RATE_LIMIT actions then Some T_RATE_LIMIT
  else if inb T_MONITOR actions then Some T_MONITOR else None.

Definition detector_value (d : D1Detector) : string :=
  match d with
  | VERTICAL_SCAN => "vertical_scan" | HORIZONTAL_SCAN => "horizontal_scan" | FAILED_HANDSHAKE => "failed_handshake"
  | BRUTE_FORCE => "brute_force" | SLOW_RATE_DOS => "slow_rate_dos" | FAN_IN => "fan_in"
  | NEW_MAC_RATE => "new_mac_rate" | NEW_LEASE_RATE => "new_lease_rate"
  | PORTAL_AUTH_FAILURES => "portal_auth_failures"
  end.

Definition _reason (e : Evidence) : string :=
  match e with
  | EvK k => "kernel " +:+ guard_value (ke_guard k) +:+ " guard (" +:+ guard_mode_value (ke_guard_mode k)
             +:+ "): offender code " +:+ offender_name (ke_code k) +:+ " for " +:+ pretty (ke_sustained_polls k) +:+ " poll(s)"
  | EvD1 d => "D1 " +:+ detector_value (de_detector d) +:+ " over " +:+ pretty (de_window_seconds d) +:+ "s: "
              +:+ fmt_g (de_value d) +:+ " > " +:+ fmt_g (de_threshold d)
  | EvClassifier c => "classifier" +:+ (match ce_family c with Some f => " (" +:+ f +:+ ")" | None => "" end)
              +:+ ": p=" +:+ fmt_2f (ce_attack_probability c) +:+ " (corroboration only)"
  | EvAnomaly a => "anomaly score " +:+ fmt_3f (ae_anomaly_score a) +:+ " (corroboration only)"
  end.

Definition _decisions (c : PolicyConfig) (bundle : EvidenceBundle) (actions : list TableAction) (escalate : bool)
  (h : History) (ids : list string) (now : Z) : result (list PolicyDecision) :=
  let reasons := _reason <$> eb_evidence bundle in
  let direct := direct_action actions in
  rbind (if inb T_BLOCK_APPROVAL actions && negb (bool_decide (direct = Some T_BLOCK))
         then rbind (new_decision (eb_target bundle) BLOCK (Some (_block_ttl c escalate h))
                       ("BLOCK held for approval (ASSISTED)" :: reasons) ids true now) (λ d, Ok [d])
         else Ok []) (λ out,
  match direct with
  | Some T_BLOCK =>
      rbind (new_decision (eb_target bundle) BLOCK (Some (_block_ttl c escalate h)) reasons ids false now)
        (λ d, Ok (out ++ [d]))
  | Some T_RATE_LIMIT =>
      rbind (new_decision (eb_target bundle) RATE_LIMIT
               (Some (Z.min (pc_rate_limit_ttl_seconds c) (pc_max_ttl_seconds c))) reasons ids false now)
        (λ d, Ok (out ++ [d]))
  | Some T_MONITOR =>
      match out with
      | [] => rbind (new_decision (eb_target bundle) MONITOR None reasons ids false now) (λ d, Ok [d])
      | _ => Ok out
      end
  | _ => Ok out
  end).

(** The union of the matching rows' cells, and whether an escalating row
    matched. *)
Definition gather (t : PolicyTable) (mode : EnforcementMode) (classes : list EvidenceClass)
  : result (list TableAction * bool) :=
  foldr (λ cls acc, rbind acc (λ p,
    match dget (pt_rows t) cls with
    | None => Raise KeyError
    | Some row => Ok (row_cell row mode ++ p.1, (pr_escalate row && bool_decide (cls = D1_ESCALATED)) || p.2)
    end)) (Ok ([], false)) classes.

Definition decide_bundle (is_protected : RuleTarget → bool) (bundle : EvidenceBundle) (mode : EnforcementMode)
  (now : Z) : M PolicyEngine (list PolicyDecision) :=
  if bool_decide (length (eb_evidence bundle) = 0%nat) || is_protected (eb_target bundle) then mret []
  else
    h ← _history_for (eb_target bundle);
    e ← mget;
    let ids := dedup (evidence_id <$> eb_evidence bundle) in
    let new_ids := filter (λ i, dmem (h_used h) i = false) ids in
    match new_ids with
    | [] => mret []
    | _ =>
        let fresh := filter (λ x, inb (evidence_id x) new_ids = true) (eb_evidence bundle) in
        let classes := classify fresh (pe_table e) (pc_sustained_polls (pe_config e)) (h_d1_strikes h) new_ids in
        let h' := _remember (pc_max_evidence_ids_per_device (pe_config e)) h ids in
        _ ← store_history (eb_target bundle) h';
        match classes with
        | [] => mret []
        | _ =>
            p ← mlift (gather (pe_table e) mode classes);
            mlift (_decisions (pe_config e) bundle p.1 p.2 h' ids now)
        end
    end.

Definition record_enforced (d : PolicyDecision) (had_d1 : bool) : M PolicyEngine unit :=
  if had_d1 && restrictive (pd_action d) then
    h ← _history_for (pd_target d);
    store_history (pd_target d) (mk_history (h_used h) (h_d1_strikes h + 1))
  else mret tt.
