(* ===== verification/PolicyProps.v ===== *)
(** * What the policy engine can and cannot decide

    Ceilings, bounded lifetimes, no action on repeated evidence, bounded
    memory, and independence of the scores, for every table the loader
    accepts. *)

From S2P Require Import Prelude Float Net Models Sets Policy.
Local Open Scope Z_scope.

(** ** Loaded tables *)

Definition table_ok (t : PolicyTable) : Prop :=
  ∀ c, ∃ row, dget (pt_rows t) c = Some row ∧ row_check row = true ∧ pr_evidence row = c.

Lemma rows_by_class (rows : list PolicyRow) : ∀ acc c row,
  (∀ c r, dget acc c = Some r → row_check r = true ∧ pr_evidence r = c) → forallb row_check rows = true →
  dget (foldl (λ acc r, dset acc (pr_evidence r) r) acc rows) c = Some row → row_check row = true ∧ pr_evidence row = c.
Proof.
  induction rows as [|r rows IH]; intros acc c row Hacc Hrows Hget; cbn in *; [by apply Hacc|].
  bool_prop. eapply IH; [|done|exact Hget]. intros c' r'. rewrite dget_set.
  case_decide; [by intros [= <-]|apply Hacc].
Qed.

Lemma load_policy_table_ok version high standard rows t :
  load_policy_table version high standard rows = Ok t → table_ok t.
Proof.
  unfold load_policy_table. destruct (forallb row_check rows) eqn:Hrows; [|done]. cbn [negb].
  destruct (_ =? _)%nat; [|done]. cbn [negb]. destruct (table_check _) eqn:Ht; [|done]. intros [= <-] c.
  unfold table_check in Ht. bool_prop. cbn [pt_rows] in *.
  match goal with H : forallb _ all_classes = true |- _ => rename H into Hall end.
  rewrite forallb_forall in Hall. specialize (Hall c). destruct (dget _ c) as [row|] eqn:Hget.
  - exists row. split; [done|]. eapply (rows_by_class rows []); [|exact Hrows|exact Hget]. done.
  - unfold dmem in Hall. rewrite Hget in Hall.
    assert (false = true) by (apply Hall; destruct c; cbn; tauto). done.
Qed.

Lemma row_check_cells row mode : row_check row = true →
  T_LOG ∉ row_cell row mode ∧
  (pr_evidence row ∈ MONITOR_CEILING_CLASSES → ∀ a, a ∈ row_cell row mode → a = T_MONITOR) ∧
  (T_BLOCK_APPROVAL ∈ row_cell row mode → mode = MODE_ASSISTED).
Proof.
  unfold row_check. intros Hc. cbn [forallb] in Hc. bool_prop.
  repeat match goal with H : inb _ _ = false |- _ => apply inb_false in H end.
  split; [by destruct mode|]. split; [|destruct mode; cbn; done].
  intros Hin a Ha.
  match goal with H : (if inb _ MONITOR_CEILING_CLASSES then _ else _) = true |- _ => rename H into Hm end.
  rewrite (proj2 (inb_true _ _) Hin) in Hm. bool_prop.
  repeat match goal with H : forallb _ (pr_assisted row) = true |- _ => rewrite forallb_forall in H
                       | H : forallb _ (pr_active row) = true |- _ => rewrite forallb_forall in H end.
  apply list_elem_of_In in Ha. destruct mode; cbn in Ha;
    match goal with H : ∀ x, List.In x ?l → _, Ha : List.In a ?l |- _ => specialize (H a Ha) end; by bool_prop.
Qed.

(** ** Gathering the cells *)

Lemma gather_ok t mode classes : table_ok t →
  ∃ actions escalate, gather t mode classes = Ok (actions, escalate) ∧
    ∀ a, a ∈ actions ↔ ∃ cls row, cls ∈ classes ∧ dget (pt_rows t) cls = Some row ∧ a ∈ row_cell row mode.
Proof.
  intros Hok. induction classes as [|cls classes (actions & esc & Hg & Hin)]; cbn.
  { do 2 eexists. split; [done|]. set_solver. }
  destruct (Hok cls) as (row & Hrow & _). fold (gather t mode classes). rewrite Hg. cbn [rbind]. rewrite Hrow.
  do 2 eexists. split; [reflexivity|]. intros a. cbn [fst]. rewrite elem_of_app, Hin. set_solver.
Qed.

(** The evidence that may cause more than MONITOR: an acting D1 detector, or
    an enforce-mode kernel offender that lasted. *)
Definition hard_evidence (t : PolicyTable) (sustained : Z) (e : Evidence) : bool :=
  match e with
  | EvK k => bool_decide (ke_guard_mode k = ENFORCE) && (sustained <=? ke_sustained_polls k)
  | EvD1 d => acting t d
  | _ => false
  end.

Lemma classify_hard bundle t sustained strikes new_ids cls :
  cls ∈ classify bundle t sustained strikes new_ids → cls ∉ MONITOR_CEILING_CLASSES →
  ∃ e, e ∈ bundle ∧ hard_evidence t sustained e = true.
Proof.
  unfold classify. rewrite elem_of_dedup, !elem_of_app. intros Hcls Hceil.
  assert (Hd1 : ∀ P : D1Evidence → bool, (∀ d, P d = true → acting t d = true) → existsb P (d1_items bundle) = true →
            ∃ e, e ∈ bundle ∧ hard_evidence t sustained e = true).
  { intros P HP Hex. apply existsb_exists in Hex as (d & Hd & Hpd). apply list_elem_of_In in Hd.
    unfold d1_items in Hd. apply list_elem_of_omap in Hd as (e & He & Hd). destruct e; try done. injection Hd as ->.
    eexists. split; [exact He|]. by apply HP. }
  destruct Hcls as [Hk|[Hh|[Hs|[He|Hm]]]].
  - apply list_elem_of_fmap in Hk as (k & -> & Hk). unfold kernel_items in Hk.
    apply list_elem_of_omap in Hk as (e & He & Hk). destruct e; try done. injection Hk as ->.
    eexists. split; [exact He|]. unfold kernel_class in Hceil. cbn.
    destruct (ke_guard_mode k); [destruct Hceil; unfold MONITOR_CEILING_CLASSES; set_solver|].
    destruct (sustained <=? ke_sustained_polls k); [done|]. destruct Hceil. unfold MONITOR_CEILING_CLASSES. set_solver.
  - case_match eqn:Hx; [|set_solver]. eapply Hd1; [|exact Hx]. intros d Hp. unfold acting. by rewrite Hp.
  - case_match eqn:Hx; [|set_solver]. eapply Hd1; [|exact Hx]. intros d Hp. unfold acting. by rewrite Hp, orb_true_r.
  - case_match eqn:Hx; [|set_solver]. bool_prop. by eapply Hd1.
  - case_match; [|set_solver]. case_match eqn:Hx; [by eapply Hd1|]. destruct Hceil.
    unfold MONITOR_CEILING_CLASSES. set_solver.
Qed.

(** ** The decisions of one pass *)

Lemma direct_action_elem actions a : direct_action actions = Some a → a ∈ actions ∧ (a = T_BLOCK ∨ a = T_RATE_LIMIT ∨ a = T_MONITOR).
Proof.
  unfold direct_action. destruct (inb T_BLOCK actions) eqn:H1; [intros [= <-]; apply inb_true in H1; auto|].
  destruct (inb T_RATE_LIMIT actions) eqn:H2; [intros [= <-]; apply inb_true in H2; auto|].
  destruct (inb T_MONITOR actions) eqn:H3; [intros [= <-]; apply inb_true in H3; auto|done].
Qed.

Lemma block_ttl_bounds c escalate h : policy_config_wf c → 0 < _block_ttl c escalate h ≤ pc_max_ttl_seconds c.
Proof.
  intros (_ & Hb & Hm & [Hmax _] & _). unfold _block_ttl. destruct escalate; [|lia].
  assert (0 < pc_escalation_ttl_multiplier c ^ Z.max (h_d1_strikes h) 1) by (apply Z.pow_pos_nonneg; lia). nia.
Qed.

Lemma new_decision_ok target action ttl reasons ids approval now :
  reasons ≠ [] → ids ≠ [] → (restrictive action = true → ∃ t, ttl = Some t ∧ 0 < t ≤ MAX_ELEMENT_TTL_SECONDS) →
  (restrictive action = false → ttl = None) → (approval = true → action = BLOCK) →
  new_decision target action ttl reasons ids approval now =
    Ok (mk_policy_decision target action ttl reasons ids approval now (THREAT_LEVEL_BY_ACTION action)).
Proof.
  intros Hr Hi Ht Hn Ha. unfold new_decision.
  rewrite (bool_decide_eq_false_2 (reasons = [])), (bool_decide_eq_false_2 (ids = [])), andb_false_r by done.
  destruct (restrictive action) eqn:Hres.
  - destruct (Ht eq_refl) as (t & -> & Hb). replace (0 <? t) with true by lia.
    replace (t <=? MAX_ELEMENT_TTL_SECONDS) with true by lia. cbn.
    destruct approval; [rewrite (bool_decide_eq_true_2 (action = BLOCK)) by auto|]; done.
  - rewrite (Hn eq_refl). cbn. destruct approval; [|done]. rewrite (Ha eq_refl) in Hres. done.
Qed.

(** What every decision of a pass looks like. *)
Definition decision_good (c : PolicyConfig) (bundle : EvidenceBundle) (actions : list TableAction)
  (ids : list string) (d : PolicyDecision) : Prop :=
  pd_target d = eb_target bundle ∧ pd_evidence_ids d = ids ∧
  pd_threat_level d = THREAT_LEVEL_BY_ACTION (pd_action d) ∧
  (restrictive (pd_action d) = true → ∃ t, pd_ttl_seconds d = Some t ∧ 0 < t ≤ pc_max_ttl_seconds c) ∧
  (pd_requires_approval d = true → T_BLOCK_APPROVAL ∈ actions) ∧
  (pd_requires_approval d = false → ∃ a, a ∈ actions ∧
     (pd_action d, a) ∈ [(BLOCK, T_BLOCK); (RATE_LIMIT, T_RATE_LIMIT); (MONITOR, T_MONITOR)]).

Lemma _decisions_ok c bundle actions escalate h ids now :
  policy_config_wf c → eb_evidence bundle ≠ [] → ids ≠ [] →
  ∃ ds, _decisions c bundle actions escalate h ids now = Ok ds ∧ Forall (decision_good c bundle actions ids) ds.
Proof.
  intros Hc Hne Hids. pose proof (block_ttl_bounds c escalate h Hc) as Hb. pose proof Hc as (Hrl & _ & _ & [Hm1 Hm2] & _).
  unfold Policy._decisions, MAX_ELEMENT_TTL_SECONDS in *.
  assert (Hr : Policy._reason <$> eb_evidence bundle ≠ []) by (by destruct (eb_evidence bundle)).
  set (reasons := _ <$> eb_evidence bundle) in *.
  assert (Hout : ∃ out, (if inb T_BLOCK_APPROVAL actions && negb (bool_decide (direct_action actions = Some T_BLOCK))
         then rbind (new_decision (eb_target bundle) BLOCK (Some (_block_ttl c escalate h))
                       ("BLOCK held for approval (ASSISTED)" :: reasons) ids true now) (λ d, Ok [d])
         else Ok []) = Ok out ∧ Forall (decision_good c bundle actions ids) out).
  { destruct (inb T_BLOCK_APPROVAL actions && _) eqn:Ha; [|by eauto]. bool_prop.
    rewrite new_decision_ok; [|done|done|intros _; eexists; split; [done|unfold MAX_ELEMENT_TTL_SECONDS; lia]|done|done].
    eexists. split; [reflexivity|]. repeat constructor; cbn; try done; [by eauto|]. intros _. by apply inb_true. }
  destruct Hout as (out & -> & Hout). cbn [rbind].
  destruct (direct_action actions) as [a|] eqn:Hd; [|by eauto].
  apply direct_action_elem in Hd as [Hin [-> | [-> | ->]]].
  - rewrite new_decision_ok; [|done|done|intros _; eexists; split; [done|unfold MAX_ELEMENT_TTL_SECONDS; lia]|done|done].
    eexists. split; [reflexivity|]. apply Forall_app. split; [done|]. repeat constructor; cbn; try done; [by eauto|].
    intros _. exists T_BLOCK. set_solver.
  - rewrite new_decision_ok; [|done|done|intros _; eexists; split; [done|unfold MAX_ELEMENT_TTL_SECONDS; lia]|done|done].
    eexists. split; [reflexivity|]. apply Forall_app. split; [done|]. repeat constructor; cbn; try done.
    + intros _. eexists. split; [done|]. lia.
    + intros _. exists T_RATE_LIMIT. set_solver.
  - destruct out; [|by eauto]. rewrite new_decision_ok; [|done|done|done|done|done].
    eexists. split; [reflexivity|]. repeat constructor; cbn; try done. intros _. exists T_MONITOR. set_solver.
Qed.

(** ** Per-device memory *)

Definition history_ok (c : PolicyConfig) (h : History) : Prop :=
  dwf (h_used h) ∧ Z.of_nat (length (h_used h)) ≤ pc_max_evidence_ids_per_device c.

Definition engine_ok (e : PolicyEngine) : Prop :=
  policy_config_wf (pe_config e) ∧ table_ok (pe_table e) ∧ dwf (pe_history e) ∧
  Z.of_nat (length (pe_history e)) ≤ pc_max_tracked_devices (pe_config e) ∧
  ∀ k h, dget (pe_history e) k = Some h → history_ok (pe_config e) h.

Lemma touch_keys used id : dkeys (touch used id) = filter (λ k, k ≠ id) (dkeys used) ++ [id].
Proof.
  unfold touch, dmove_to_end. rewrite dget_set_eq. unfold dkeys at 1. rewrite fmap_app.
  change ((dpop (dset used id tt) id).*1) with (dkeys (dpop (dset used id tt) id)). f_equal.
  rewrite dkeys_pop, dkeys_set. case_decide; [done|]. rewrite filter_app, filter_cons_False, filter_nil, app_nil_r by naive_solver.
  done.
Qed.

Lemma touches_keys ids : ∀ used, NoDup ids →
  dkeys (foldl touch used ids) = filter (λ k, k ∉ ids) (dkeys used) ++ ids.
Proof.
  induction ids as [|id ids IH]; intros used Hnd; cbn [foldl].
  { rewrite app_nil_r, filter_all; [done|]. set_solver. }
  apply NoDup_cons in Hnd as [Hnin Hnd]. rewrite IH, touch_keys, filter_app by done.
  rewrite filter_cons_True, filter_nil, <- app_assoc by done. f_equal.
  rewrite list_filter_filter. apply list_filter_iff. set_solver.
Qed.

Lemma dkeys_drop {K V} n (d : list (K * V)) : dkeys (drop n d) = drop n (dkeys d).
Proof. unfold dkeys. by rewrite fmap_drop. Qed.

Lemma remember_ok c h ids : 0 < pc_max_evidence_ids_per_device c → NoDup ids →
  dwf (h_used h) → history_ok c (_remember (pc_max_evidence_ids_per_device c) h ids).
Proof.
  intros Hpos Hnd Hw. unfold history_ok, _remember, trim. cbn. split.
  - unfold dwf. rewrite dkeys_drop, touches_keys by done. eapply sublist_NoDup; [|apply sublist_drop].
    apply NoDup_app. split; [by apply NoDup_filter|]. split; [|done]. intros k. rewrite list_elem_of_filter. tauto.
  - rewrite length_drop. lia.
Qed.

(** Evidence just decided on is remembered, if it fits. *)
Lemma remember_has limit h ids id : NoDup ids → Z.of_nat (length ids) ≤ limit → id ∈ ids →
  dmem (h_used (_remember limit h ids)) id = true.
Proof.
  intros Hnd Hlen Hin. apply dmem_true, dget_is_Some. unfold _remember, trim. cbn [h_used]. rewrite dkeys_drop.
  assert (Hl : length (foldl touch (h_used h) ids) = length (dkeys (foldl touch (h_used h) ids))) by (unfold dkeys; by rewrite length_fmap).
  rewrite Hl, touches_keys, length_app by done. rewrite drop_app.
  apply elem_of_app. right. replace (_ - _)%nat with 0%nat by lia. done.
Qed.

Lemma history_for_spec t e : engine_ok e →
  ∃ h e', _history_for t e = (Ok h, e') ∧ engine_ok e' ∧ pe_config e' = pe_config e ∧ pe_table e' = pe_table e ∧
    dget (pe_history e') (device_key t) = Some h ∧ history_ok (pe_config e) h ∧
    (dget (pe_history e) (device_key t) = Some h ∨ dget (pe_history e) (device_key t) = None ∧ h = mk_history [] 0).
Proof.
  intros (Hc & Ht & Hw & Hlen & Hh). unfold _history_for. set (key := device_key t).
  destruct (dget (pe_history e) key) as [h|] eqn:Hg.
  { do 2 eexists. split; [reflexivity|]. cbn. rewrite dget_move_to_end. split; [|by eauto 10].
    split; [done|]. split; [done|]. cbn. split; [by apply dwf_move_to_end|]. split.
    - unfold dmove_to_end. rewrite Hg, length_app. cbn.
      assert (S (length (dpop (pe_history e) key)) ≤ length (pe_history e))%nat.
      { clear -Hg. induction (pe_history e) as [|[k v] d IH]; cbn in *; [done|].
        case_decide; cbn; [pose proof (dpop_length_le d key); lia|]. specialize (IH Hg). lia. }
      lia.
    - intros k h'. rewrite dget_move_to_end. apply Hh. }
  assert (Hpos : 0 < pc_max_tracked_devices (pe_config e)) by apply Hc.
  assert (Hempty : history_ok (pe_config e) (mk_history [] 0)).
  { split; [constructor|]. cbn. pose proof Hc as (_ & _ & _ & _ & _ & _ & ? & _). lia. }
  pose proof (dset_length (pe_history e) key (mk_history [] 0)) as Hl. apply dget_None in Hg as Hnin.
  rewrite decide_False in Hl by done. do 2 eexists. split; [reflexivity|]. cbn.
  set (hs := dset (pe_history e) key (mk_history [] 0)) in *.
  assert (Hw' : dwf hs) by by apply dwf_set.
  assert (Hh' : ∀ k h, dget hs k = Some h → history_ok (pe_config e) h).
  { intros k h. unfold hs. rewrite dget_set. case_decide; [by intros [= <-]|apply Hh]. }
  assert (Hsub : ∀ k h, dwf hs → dget (tail hs) k = Some h → dget hs k = Some h).
  { clear. intros k h Hwf. destruct hs as [|[k0 v0] d]; [done|]. cbn. intros Hg.
    rewrite decide_False; [done|]. intros ->. unfold dwf, dkeys in Hwf. cbn in Hwf. apply NoDup_cons in Hwf as [Hnin _].
    apply Hnin. apply dget_Some_elem in Hg. apply list_elem_of_fmap. by exists (k, h). }
  destruct (_ <? _) eqn:Hbig; bool_prop.
  - unfold dpopitem_first. split; [split; [done|]; split; [done|]; cbn; split; [by apply dwf_tail|]; split|].
    + destruct hs; cbn in *; lia.
    + intros k h Hk. by eapply Hh', Hsub.
    + do 2 (split; [done|]). split; [|by eauto]. clear Hsub Hh'. unfold hs in *.
      destruct (pe_history e) as [|[k0 v0] d]; [cbn in *; lia|]. cbn in *. case_decide; [set_solver|]. cbn.
      apply dget_set_eq.
  - split; [split; [done|]; split; [done|]; cbn; split; [done|]; split; [lia|done]|].
    do 2 (split; [done|]). split; [apply dget_set_eq|by eauto].
Qed.

Lemma store_history_ok t h e : engine_ok e → history_ok (pe_config e) h → is_Some (dget (pe_history e) (device_key t)) →
  ∃ e', store_history t h e = (Ok tt, e') ∧ engine_ok e' ∧ pe_config e' = pe_config e ∧ pe_table e' = pe_table e ∧
    dget (pe_history e') (device_key t) = Some h.
Proof.
  intros (Hc & Ht & Hw & Hlen & Hh) Hok Hin. unfold store_history, mmodify.
  rewrite (proj2 (dmem_true _ _) Hin). eexists. split; [reflexivity|]. cbn. rewrite dget_set_eq.
  split; [|done]. split; [done|]. split; [done|]. cbn. split; [by apply dwf_set|]. split.
  - rewrite dset_length, decide_True by by apply dget_is_Some. done.
  - intros k h'. rewrite dget_set. case_decide; [by intros [= <-]|apply Hh].
Qed.

(** ** One pass *)

Definition bundle_ids (b : EvidenceBundle) : list string := dedup (evidence_id <$> eb_evidence b).

(** A pass returns; a device with history keeps one; what it decides comes
    from evidence this device had not been decided on. *)
Lemma decide_spec prot bundle mode now e : engine_ok e →
  ∃ ds e', decide_bundle prot bundle mode now e = (Ok ds, e') ∧ engine_ok e' ∧
    pe_config e' = pe_config e ∧ pe_table e' = pe_table e ∧
    (prot (eb_target bundle) = true → ds = [] ∧ e' = e) ∧
    (prot (eb_target bundle) = false → eb_evidence bundle ≠ [] → ∃ h,
       dget (pe_history e') (device_key (eb_target bundle)) = Some h ∧
       (Z.of_nat (length (bundle_ids bundle)) ≤ pc_max_evidence_ids_per_device (pe_config e) →
        ∀ i, i ∈ bundle_ids bundle → dmem (h_used h) i = true)) ∧
    (ds = [] ∨ ∃ h fresh actions,
       (dget (pe_history e) (device_key (eb_target bundle)) = Some h ∨
        dget (pe_history e) (device_key (eb_target bundle)) = None ∧ h = mk_history [] 0) ∧
       fresh = filter (λ x, dmem (h_used h) (evidence_id x) = false) (eb_evidence bundle) ∧
       (∀ a, a ∈ actions → ∃ cls row,
          cls ∈ classify fresh (pe_table e) (pc_sustained_polls (pe_config e)) (h_d1_strikes h)
                  (filter (λ i, dmem (h_used h) i = false) (bundle_ids bundle)) ∧
          dget (pt_rows (pe_table e)) cls = Some row ∧ a ∈ row_cell row mode) ∧
       Forall (decision_good (pe_config e) bundle actions (bundle_ids bundle)) ds).
Proof.
  intros Hok. unfold Policy.decide_bundle. destruct (bool_decide _ || prot _) eqn:Hskip.
  { exists [], e. do 5 (split; [done|]). split; [|by left]. intros Hp Hne.
    rewrite Hp, orb_false_r in Hskip. bool_prop. destruct (eb_evidence bundle); done. }
  bool_prop. assert (Hne : eb_evidence bundle ≠ []) by (by intros Hnil; rewrite Hnil in *).
  unfold mbind, m_bind, mget.
  destruct (history_for_spec (eb_target bundle) e Hok) as (h & e1 & -> & Hok1 & Hc1 & Ht1 & Hg1 & Hh & Horig).
  fold (bundle_ids bundle). set (ids := bundle_ids bundle). set (new_ids := filter _ ids).
  rewrite Hc1, Ht1. destruct new_ids as [|n0 ns] eqn:Hnew.
  { exists [], e1. do 2 (split; [done|]). do 2 (split; [done|]). split; [congruence|]. split; [|by left].
    intros _ _. exists h. split; [done|]. intros _ i Hi. destruct (dmem (h_used h) i) eqn:Hd; [done|].
    assert (Hin : i ∈ new_ids) by (by apply list_elem_of_filter). rewrite Hnew in Hin. set_solver. }
  rewrite <- Hnew. set (fresh := filter _ (eb_evidence bundle)).
  set (h' := _remember _ h ids).
  assert (Hh' : history_ok (pe_config e1) h').
  { rewrite Hc1. apply remember_ok; [apply Hok|apply NoDup_dedup|apply Hh]. }
  destruct (store_history_ok (eb_target bundle) h' e1 Hok1 Hh') as (e2 & -> & Hok2 & Hc2 & Ht2 & Hg2); [by eauto|].
  assert (Hmem : ∃ h0, dget (pe_history e2) (device_key (eb_target bundle)) = Some h0 ∧
     (Z.of_nat (length ids) ≤ pc_max_evidence_ids_per_device (pe_config e) → ∀ i, i ∈ ids → dmem (h_used h0) i = true)).
  { exists h'. split; [done|]. intros Hlen i Hi. apply remember_has; [apply NoDup_dedup|done|done]. }
  assert (Hfresh : fresh = filter (λ x, dmem (h_used h) (evidence_id x) = false) (eb_evidence bundle)).
  { apply list_filter_iff_in. intros x Hx. rewrite inb_true. unfold new_ids. rewrite list_elem_of_filter.
    unfold ids, bundle_ids. rewrite elem_of_dedup, list_elem_of_fmap. naive_solver. }
  destruct (classify fresh _ _ _ new_ids) as [|c0 cs] eqn:Hcl.
  { exists [], e2. do 2 (split; [done|]). do 2 (split; [congruence|]). split; [congruence|]. split; [done|by left]. }
  destruct (gather_ok (pe_table e) mode (c0 :: cs)) as (actions & escalate & Hg & Hin); [apply Hok|].
  assert (Hids : ids ≠ []).
  { intros Hnil. unfold new_ids in Hnew. by rewrite Hnil in Hnew. }
  destruct (_decisions_ok (pe_config e) bundle actions escalate h' ids now) as (ds & Hds & Hgood); [apply Hok|done..|].
  unfold mlift. rewrite Hg. cbn [fst snd]. rewrite Hds.
  exists ds, e2. do 2 (split; [done|]). do 2 (split; [congruence|]). split; [congruence|]. split; [done|]. right.
  exists h, fresh, actions. do 2 (split; [done|]). split; [|done]. intros a Ha. apply Hin in Ha.
  by rewrite <- Hcl in Ha.
Qed.

(** What the cells of a loaded table allow the classes a pass acted on. *)
Lemma cells_respect_ceilings table mode (actions : list TableAction) (classes : list EvidenceClass) :
  table_ok table →
  (∀ a, a ∈ actions → ∃ cls row, cls ∈ classes ∧ dget (pt_rows table) cls = Some row ∧ a ∈ row_cell row mode) →
  ∀ a, a ∈ actions → ∃ cls, cls ∈ classes ∧
    (cls ∈ MONITOR_CEILING_CLASSES → a = T_MONITOR) ∧ (a = T_BLOCK_APPROVAL → mode = MODE_ASSISTED).
Proof.
  intros Hok Hact a Ha. destruct (Hact a Ha) as (cls & row & Hcls & Hget & Hcell). exists cls. split; [done|].
  destruct (Hok cls) as (row' & Hget' & Hck & Hev). rewrite Hget in Hget'. injection Hget' as <-.
  destruct (row_check_cells row mode Hck) as (_ & Hceil & Hap). split; [rewrite <- Hev; auto|intros ->; auto].
Qed.

(** A restrictive decision rests on hard evidence the device was not yet
    decided on, and its target is not protected. *)
Lemma restrictive_decision prot bundle mode now e ds e' d :
  engine_ok e → decide_bundle prot bundle mode now e = (Ok ds, e') → d ∈ ds → restrictive (pd_action d) = true →
  prot (eb_target bundle) = false ∧
  ∃ x, x ∈ eb_evidence bundle ∧ hard_evidence (pe_table e) (pc_sustained_polls (pe_config e)) x = true ∧
       ∀ h, dget (pe_history e) (device_key (eb_target bundle)) = Some h → dmem (h_used h) (evidence_id x) = false.
Proof.
  intros Hok Hdec Hd Hres. destruct (decide_spec prot bundle mode now e Hok) as (ds2 & e2 & Heq & _ & _ & _ & Hprot & _ & Hcase).
  rewrite Hdec in Heq. injection Heq as <- <-.
  destruct Hcase as [-> |(h & fresh & actions & Hh & Hfresh & Hact & Hgood)]; [set_solver|].
  rewrite Forall_forall in Hgood. destruct (Hgood d Hd) as (_ & _ & _ & _ & Happ & Hdir). pose proof Hok as (_ & Hok' & _).
  split; [destruct (prot _) eqn:Hp; [destruct (Hprot eq_refl) as [-> _]; set_solver|done]|].
  assert (Hstrong : ∃ a, a ∈ actions ∧ a ≠ T_MONITOR).
  { destruct (pd_requires_approval d); [by eauto|]. destruct (Hdir eq_refl) as (a & Ha & Hin). exists a. split; [done|].
    rewrite !elem_of_cons, elem_of_nil in Hin. destruct (pd_action d); naive_solver. }
  destruct Hstrong as (a & Ha & Hnm). destruct (cells_respect_ceilings _ mode actions _ Hok' Hact a Ha) as (cls & Hcls & Hceil & _).
  destruct (classify_hard _ _ _ _ _ _ Hcls) as (x & Hx & Hhard); [by auto|].
  rewrite Hfresh in Hx. apply list_elem_of_filter in Hx as [Hnew Hx]. exists x. do 2 (split; [done|]).
  intros h0 Hh0. destruct Hh as [Hh|[Hh _]]; congruence.
Qed.

(** C6: The ceilings, for every table the loader accepts and every mode: a
    RATE_LIMIT or BLOCK needs, among the evidence new to the device, an
    acting D1 detection or an enforce-mode kernel offender that lasted;
    ML evidence, observe-mode offenders, pending offenders and aggregate
    detectors never get past MONITOR, together or alone.  Approval is
    asked for in ASSISTED mode only. *)
Theorem enforcement_needs_hard_evidence prot bundle mode now e ds e' d :
  engine_ok e → decide_bundle prot bundle mode now e = (Ok ds, e') → d ∈ ds →
  (restrictive (pd_action d) = true →
   prot (eb_target bundle) = false ∧
   ∃ x, x ∈ eb_evidence bundle ∧ hard_evidence (pe_table e) (pc_sustained_polls (pe_config e)) x = true ∧
        ∀ h, dget (pe_history e) (device_key (eb_target bundle)) = Some h → dmem (h_used h) (evidence_id x) = false) ∧
  (pd_requires_approval d = true → mode = MODE_ASSISTED).
Proof.
  intros Hok Hdec Hd. split; [by apply (restrictive_decision _ _ mode now e ds e')|].
  destruct (decide_spec prot bundle mode now e Hok) as (ds2 & e2 & Heq & _ & _ & _ & _ & _ & Hcase).
  rewrite Hdec in Heq. injection Heq as <- <-. destruct Hcase as [-> |(h & fresh & actions & _ & _ & Hact & Hgood)]; [set_solver|].
  rewrite Forall_forall in Hgood. destruct (Hgood d Hd) as (_ & _ & _ & _ & Happ & _). pose proof Hok as (_ & Hok' & _).
  intros Hap. destruct (cells_respect_ceilings _ mode actions _ Hok' Hact _ (Happ Hap)) as (cls & _ & _ & Hm). by apply Hm.
Qed.

(** Every decision expires within the configured cap, itself at most an
    hour, however often the device struck before; the engine never raises
    and never keeps more devices or evidence ids than configured. *)
Theorem decisions_bounded prot bundle mode now e :
  engine_ok e →
  ∃ ds e', decide_bundle prot bundle mode now e = (Ok ds, e') ∧ engine_ok e' ∧
    tracked_devices e' ≤ pc_max_tracked_devices (pe_config e) ∧
    Forall (λ d, pd_target d = eb_target bundle ∧
      (restrictive (pd_action d) = true →
       ∃ t, pd_ttl_seconds d = Some t ∧ 0 < t ≤ pc_max_ttl_seconds (pe_config e) ∧ t ≤ MAX_ELEMENT_TTL_SECONDS)) ds.
Proof.
  intros Hok. destruct (decide_spec prot bundle mode now e Hok) as (ds & e' & Heq & Hok' & Hc & _ & _ & _ & Hcase).
  exists ds, e'. do 2 (split; [done|]). split; [destruct Hok' as (_ & _ & _ & Hl & _); by rewrite <- Hc|].
  destruct Hcase as [-> |(h & fresh & actions & _ & _ & _ & Hgood)]; [done|].
  eapply Forall_impl; [exact Hgood|]. intros d (Ht & _ & _ & Httl & _). split; [done|]. intros Hr.
  destruct (Httl Hr) as (t & ? & ?). exists t. split; [done|]. split; [done|].
  destruct Hok as ((_ & _ & _ & [_ Hm] & _) & _). unfold MAX_ELEMENT_TTL_SECONDS. lia.
Qed.

(** Evidence a device was already decided on decides nothing again: after
    a pass, any bundle for the same device made of ids of that pass yields
    no decision, in any mode, as long as the pass fits the device's
    evidence memory. *)
Theorem repeated_evidence_decides_nothing prot bundle mode now e ds e' bundle' mode' now' :
  engine_ok e → decide_bundle prot bundle mode now e = (Ok ds, e') →
  Z.of_nat (length (bundle_ids bundle)) ≤ pc_max_evidence_ids_per_device (pe_config e) →
  eb_target bundle' = eb_target bundle →
  (∀ x, x ∈ eb_evidence bundle' → evidence_id x ∈ bundle_ids bundle) →
  (decide_bundle prot bundle' mode' now' e').1 = Ok [].
Proof.
  intros Hok Hdec Hlen Htgt Hsub. destruct (decide_spec prot bundle mode now e Hok)
    as (ds2 & e2 & Heq & Hok' & Hc & _ & Hprot & Hmem & _). rewrite Hdec in Heq. injection Heq as <- <-.
  destruct (decide_spec prot bundle' mode' now' e' Hok') as (ds2 & e2 & Heq2 & _ & _ & _ & Hprot2 & _ & Hcase).
  rewrite Heq2. cbn. f_equal. destruct (prot (eb_target bundle)) eqn:Hp.
  { rewrite Htgt in Hprot2. by destruct (Hprot2 Hp) as [-> _]. }
  destruct Hcase as [-> |(h & fresh & actions & Hh & Hfresh & Hact & Hgood)]; [done|].
  destruct (eb_evidence bundle) as [|x0 xs] eqn:Hev.
  { assert (Hnil : eb_evidence bundle' = []).
    { destruct (eb_evidence bundle') as [|y ys]; [done|]. exfalso.
      assert (Hy : evidence_id y ∈ bundle_ids bundle) by (apply Hsub; set_solver).
      unfold bundle_ids in Hy. rewrite Hev in Hy. set_solver. }
    unfold Policy.decide_bundle in Heq2. rewrite Hnil in Heq2. by injection Heq2. }
  destruct (Hmem eq_refl) as (h0 & Hg & Hused); [done|].
  assert (Hfr : fresh = []).
  { rewrite Hfresh. apply filter_none. intros x Hx. rewrite Htgt, Hg in Hh. destruct Hh as [[= ->]|[? _]]; [|done].
    rewrite Hused; [done|done|by apply Hsub]. }
  destruct ds2 as [|d ds2]; [done|]. apply Forall_cons in Hgood as [(_ & _ & _ & _ & Ha1 & Ha2) _]. exfalso.
  assert (Hsome : ∃ a, a ∈ actions).
  { destruct (pd_requires_approval d); [by eauto|]. destruct (Ha2 eq_refl) as (a & ? & _). by eauto. }
  destruct Hsome as (a & Ha). destruct (Hact a Ha) as (cls & row & Hcls & _). rewrite Hfr in Hcls. set_solver.
Qed.

(** ** Scores *)

(** Two items that differ at most in measured values, probabilities and
    scores: same ids, same detector, same yes/no. *)
Definition same_shape (x y : Evidence) : Prop :=
  match x, y with
  | EvK a, EvK b => a = b
  | EvD1 a, EvD1 b => de_id a = de_id b ∧ de_detector a = de_detector b
  | EvAnomaly a, EvAnomaly b => ae_flow_id a = ae_flow_id b ∧ ae_is_anomaly a = ae_is_anomaly b
  | EvClassifier a, EvClassifier b => ce_id a = ce_id b ∧ ce_is_attack a = ce_is_attack b
  | _, _ => False
  end.

(** A decision without its reason texts. *)
Definition outcome_of (d : PolicyDecision) : PolicyDecision :=
  mk_policy_decision (pd_target d) (pd_action d) (pd_ttl_seconds d) [] (pd_evidence_ids d)
    (pd_requires_approval d) (pd_decided_at d) (pd_threat_level d).

Definition rmap {A C} (f : A → C) (r : result A) : result C := rbind r (λ a, Ok (f a)).

Lemma same_shape_ids es es' : Forall2 same_shape es es' → evidence_id <$> es = evidence_id <$> es'.
Proof.
  induction 1 as [|x y es es' Hxy _ IH]; cbn; [done|]. f_equal; [|done].
  destruct x, y; cbn in *; try done; naive_solver congruence.
Qed.

Lemma same_shape_filter (P : string → bool) es es' : Forall2 same_shape es es' →
  Forall2 same_shape (filter (λ x, P (evidence_id x) = true) es) (filter (λ x, P (evidence_id x) = true) es').
Proof.
  induction 1 as [|x y es es' Hxy _ IH]; [done|].
  assert (Hid : evidence_id x = evidence_id y) by (destruct x, y; cbn in *; try done; naive_solver congruence).
  rewrite !filter_cons, Hid. case_decide; [by constructor|done].
Qed.

Lemma same_shape_classify es es' t sp st ns : Forall2 same_shape es es' →
  classify es t sp st ns = classify es' t sp st ns.
Proof.
  intros Hs.
  assert (Hk : kernel_items es = kernel_items es').
  { unfold kernel_items. induction Hs as [|x y es es' Hxy _ IH]; cbn; [done|].
    destruct x, y; cbn in *; try done. by rewrite Hxy, IH. }
  assert (Hd : ∀ P : string → D1Detector → bool,
    existsb (λ d, P (de_id d) (de_detector d)) (d1_items es) = existsb (λ d, P (de_id d) (de_detector d)) (d1_items es')).
  { intros P. unfold d1_items. clear Hk. induction Hs as [|x y es es' Hxy _ IH]; cbn; [done|].
    destruct x, y; cbn in *; try done. destruct Hxy as [-> ->]. by rewrite IH. }
  assert (Hm : existsb is_ml es = existsb is_ml es').
  { clear Hk Hd. induction Hs as [|x y es es' Hxy _ IH]; cbn; [done|]. rewrite IH. f_equal.
    destruct x, y; cbn in *; try done; naive_solver. }
  unfold classify. rewrite Hk, Hm.
  rewrite (Hd (λ _ d, inb d (pt_high t))), (Hd (λ _ d, inb d (pt_standard t))).
  unfold acting. rewrite (Hd (λ _ d, inb d (pt_high t) || inb d (pt_standard t))).
  by rewrite (Hd (λ i d, (inb d (pt_high t) || inb d (pt_standard t)) && inb i ns)).
Qed.

Lemma new_decision_outcome target action ttl r r' ids ap now : (r = [] ↔ r' = []) →
  rmap outcome_of (new_decision target action ttl r ids ap now) =
  rmap outcome_of (new_decision target action ttl r' ids ap now).
Proof.
  intros Hr. unfold new_decision. rewrite (bool_decide_ext (r = []) (r' = [])) by done.
  repeat case_match; done.
Qed.

Lemma rmap_one target action ttl r r' ids ap now (out out' : list PolicyDecision) :
  (r = [] ↔ r' = []) → outcome_of <$> out = outcome_of <$> out' →
  rmap (fmap outcome_of) (rbind (new_decision target action ttl r ids ap now) (λ d, Ok (out ++ [d]))) =
  rmap (fmap outcome_of) (rbind (new_decision target action ttl r' ids ap now) (λ d, Ok (out' ++ [d]))).
Proof.
  intros Hr Ho. pose proof (new_decision_outcome target action ttl r r' ids ap now Hr) as Hn.
  destruct (new_decision target action ttl r ids ap now), (new_decision target action ttl r' ids ap now);
    unfold rmap in *; cbn [rbind] in *; [|congruence..].
  assert (Hd : outcome_of a = outcome_of a0) by congruence.
  rewrite !fmap_app, Ho, !list_fmap_singleton, Hd. done.
Qed.

Lemma _decisions_outcome c b b' actions esc h ids now :
  eb_target b = eb_target b' → (eb_evidence b = [] ↔ eb_evidence b' = []) →
  rmap (fmap outcome_of) (_decisions c b actions esc h ids now) =
  rmap (fmap outcome_of) (_decisions c b' actions esc h ids now).
Proof.
  intros Ht He. unfold Policy._decisions. rewrite Ht.
  set (r := _ <$> eb_evidence b). set (r' := _ <$> eb_evidence b').
  assert (Hr : r = [] ↔ r' = []) by (unfold r, r'; destruct (eb_evidence b), (eb_evidence b'); cbn in *; naive_solver).
  destruct (inb T_BLOCK_APPROVAL actions && _).
  2: { cbn [rbind]. destruct (direct_action actions) as [[]|]; try done;
       apply (rmap_one _ _ _ r r' _ _ _ [] [] Hr eq_refl). }
  pose proof (new_decision_outcome (eb_target b') BLOCK (Some (_block_ttl c esc h))
    ("BLOCK held for approval (ASSISTED)" :: r) ("BLOCK held for approval (ASSISTED)" :: r') ids true now) as Hn.
  specialize (Hn ltac:(done)).
  destruct (new_decision _ _ _ (_ :: r) _ _ _) as [d|], (new_decision _ _ _ (_ :: r') _ _ _) as [d'|];
    unfold rmap in Hn; cbn [rbind] in *; [|congruence..].
  assert (Hd : outcome_of <$> [d] = outcome_of <$> [d']) by (rewrite !list_fmap_singleton; congruence).
  destruct (direct_action actions) as [[]|]; try (unfold rmap; cbn [rbind]; by rewrite Hd); by apply rmap_one.
Qed.

(** No score, probability or measured value decides anything: bundles that
    agree on evidence kinds, ids and yes/no verdicts get the same actions,
    lifetimes and approvals, and leave the same memory. *)
Theorem scores_do_not_decide prot b b' mode now e :
  eb_target b = eb_target b' → Forall2 same_shape (eb_evidence b) (eb_evidence b') →
  rmap (fmap outcome_of) (decide_bundle prot b mode now e).1 = rmap (fmap outcome_of) (decide_bundle prot b' mode now e).1 ∧
  (decide_bundle prot b mode now e).2 = (decide_bundle prot b' mode now e).2.
Proof.
  intros Ht Hs. unfold Policy.decide_bundle.
  rewrite Ht, (Forall2_length _ _ _ Hs), (same_shape_ids _ _ Hs).
  destruct (bool_decide _ || prot _); [done|]. unfold mbind, m_bind, mget.
  destruct (_history_for (eb_target b') e) as [[h|] e1]; [|done].
  set (ids := dedup _). set (new_ids := filter _ ids). destruct new_ids as [|n ns]; [done|].
  pose proof (same_shape_filter (λ i, inb i (n :: ns)) _ _ Hs) as Hf.
  rewrite (same_shape_classify _ _ (pe_table e1) (pc_sustained_polls (pe_config e1)) (h_d1_strikes h) (n :: ns) Hf).
  destruct (store_history _ _ e1) as [[]e2]; [|done].
  destruct (classify _ _ _ _ _); [done|]. unfold mlift. destruct (gather _ _ _) as [p|]; [|done]. cbn [fst snd].
  split; [|done]. apply _decisions_outcome; [done|].
  by inversion Hs.
Qed.
