(* ===== verification/Throttle.v ===== *)
(** * Failed-login throttling (core/throttle.py, api/throttle.py, portal/sessions.py)

    [FailureWindow] counts failures per key in bounded deques and bounded
    numbers of keys; [ScopedThrottle] keeps one per scope; the admin and the
    portal throttle are built on it.  The theorems compare what the deques
    answer with the whole history of failures: a key is only ever locked by
    [max_failures] failures of its own inside the window, it is locked by them
    unless more distinct keys than [max_tracked_keys] failed, and a client
    that waits as long as it is told is let in. *)

From S2P Require Import Prelude Net Models RateLimiter.
Local Open Scope Z_scope.

(** ** [FailureWindow] *)

(** [deque(maxlen=m).append(x)] *)
Definition deque_append {A} (maxlen : Z) (d : list A) (x : A) : list A :=
  let d' := d ++ [x] in drop (length d' - Z.to_nat maxlen) d'.

(** [math.ceil(td.total_seconds())], exact below 2^32 seconds. *)
Definition ceil_seconds (td : Z) : Z := - (- td / us_per_second).

(** [while recent and recent[0] <= cutoff: recent.popleft()] *)
Fixpoint drop_through (cutoff : Z) (ts : list Z) : list Z :=
  match ts with
  | [] => []
  | t :: ts' => if t <=? cutoff then drop_through cutoff ts' else ts
  end.

Section Window.
Context {K : Type} `{EqDecision K}.

Record FailureWindow : Type := mk_window {
  fw_max_failures : Z;
  fw_window_seconds : Z;
  fw_max_tracked_keys : Z;
  fw_failures : list (K * list Z);
}.

Definition new_window (max window tracked : Z) : FailureWindow := mk_window max window tracked [].

Definition fw_with (w : FailureWindow) (d : list (K * list Z)) : FailureWindow :=
  mk_window (fw_max_failures w) (fw_window_seconds w) (fw_max_tracked_keys w) d.

Definition _recent (key : K) (now : Z) : M FailureWindow (list Z) := λ w,
  match dget (fw_failures w) key with
  | None => (Ok [], w)
  | Some ts =>
      let recent := drop_through (now - seconds (fw_window_seconds w)) ts in
      (Ok recent, fw_with w (if bool_decide (recent = []) then dpop (fw_failures w) key
                             else dset (fw_failures w) key recent))
  end.

Definition is_locked_out (key : K) (now : Z) : M FailureWindow bool :=
  recent ← _recent key now;
  w ← mget;
  mret (fw_max_failures w <=? Z.of_nat (length recent)).

Definition seconds_until_unlocked (key : K) (now : Z) : M FailureWindow Z :=
  recent ← _recent key now;
  w ← mget;
  if Z.of_nat (length recent) <? fw_max_failures w then mret 0
  else
    match recent with
    | [] => mraise IndexError
    | oldest :: _ => mret (Z.max 1 (ceil_seconds (oldest + seconds (fw_window_seconds w) - now)))
    end.

(** [min(self._failures, key=lambda tracked: self._failures[tracked][-1])] *)
Definition stalest (d : list (K * list Z)) : result K :=
  if existsb (λ p : K * list Z, bool_decide (p.2 = [])) d then Raise IndexError
  else match py_min (λ p : K * list Z, default 0 (last p.2)) d with
       | None => Raise (ValueError "min() iterable argument is empty")
       | Some p => Ok p.1
       end.

Definition record_failure (key : K) (now : Z) : M FailureWindow bool :=
  was_locked ← is_locked_out key now;
  w ← mget;
  _ ← (if negb (dmem (fw_failures w) key) && (fw_max_tracked_keys w <=? Z.of_nat (length (fw_failures w)))
       then old ← mlift (stalest (fw_failures w)); mmodify (λ w, fw_with w (dpop (fw_failures w) old))
       else mret tt);
  _ ← mmodify (λ w,
        let d := dsetdefault (fw_failures w) key [] in
        fw_with w (dset d key (deque_append (fw_max_failures w) (default [] (dget d key)) now)));
  locked ← is_locked_out key now;
  mret (negb was_locked && locked).

Definition clear (key : K) : M FailureWindow unit :=
  mmodify (λ w, fw_with w (dpop (fw_failures w) key)).

(** ** Runs, and the history they are measured against *)

Inductive fw_op : Type :=
| Failed (key : K) (now : Z)
| Asked (key : K) (now : Z)
| Waited (key : K) (now : Z)
| Cleared (key : K).

Definition fw_step (w : FailureWindow) (op : fw_op) : FailureWindow :=
  match op with
  | Failed k now => (record_failure k now w).2
  | Asked k now => (is_locked_out k now w).2
  | Waited k now => (seconds_until_unlocked k now w).2
  | Cleared k => (clear k w).2
  end.

Definition fw_run (w : FailureWindow) (ops : list fw_op) : FailureWindow := foldl fw_step w ops.

(** The failures of one key since it was last cleared, oldest first. *)
Definition hist_step (key : K) (h : list Z) (op : fw_op) : list Z :=
  match op with
  | Failed k now => if decide (k = key) then h ++ [now] else h
  | Cleared k => if decide (k = key) then [] else h
  | _ => h
  end.
Definition history (key : K) (ops : list fw_op) : list Z := foldl (hist_step key) [] ops.

Definition op_time (op : fw_op) : option Z :=
  match op with Failed _ t | Asked _ t | Waited _ t => Some t | Cleared _ => None end.
Definition failed_keys (ops : list fw_op) : list K :=
  dedup (omap (λ op, match op with Failed k _ => Some k | _ => None end) ops).

(** The instants of the calls never go back, and end by [now]. *)
Fixpoint clock_from (from : Z) (ops : list fw_op) (now : Z) : Prop :=
  match ops with
  | [] => from ≤ now
  | op :: ops' => match op_time op with
                  | None => clock_from from ops' now
                  | Some t => from ≤ t ∧ clock_from t ops' now
                  end
  end.

(** The failures inside the half-open window that ends now. *)
Definition recent_failures (window now : Z) (h : list Z) : list Z :=
  filter (λ t, now - seconds window < t) h.

(** ** The invariant *)

Definition deque_of (w : FailureWindow) (key : K) : list Z := default [] (dget (fw_failures w) key).

(** A key's deque is the end of its history; in an [exact] window, what it
    lost is out of every later window or made room in a full deque. *)
Definition dq_ok (mx win : Z) (exact : bool) (last : Z) (h ts : list Z) : Prop :=
  StronglySorted Z.le h ∧ Forall (λ t, t ≤ last) h ∧ Z.of_nat (length ts) ≤ mx ∧
  ∃ pre, h = pre ++ ts ∧
    (exact = true → Forall (λ t, t ≤ last - seconds win) pre ∨ Z.of_nat (length ts) = mx).

Record fw_inv (mx win tr : Z) (w : FailureWindow) (exact : bool) (last : Z) (h : K → list Z) : Prop := {
  inv_max : fw_max_failures w = mx;
  inv_window : fw_window_seconds w = win;
  inv_tracked_max : fw_max_tracked_keys w = tr;
  inv_dwf : dwf (fw_failures w);
  inv_nonempty : ∀ k ts, dget (fw_failures w) k = Some ts → ts ≠ [];
  inv_tracked : Z.of_nat (length (fw_failures w)) ≤ tr;
  inv_deques : ∀ k, dq_ok mx win exact last (h k) (deque_of w k);
}.

Lemma drop_through_app cutoff ts :
  ∃ gone, ts = gone ++ drop_through cutoff ts ∧ Forall (λ t, t ≤ cutoff) gone.
Proof.
  induction ts as [|t ts (gone & Heq & Hall)]; simpl; [by exists []|].
  destruct (t <=? cutoff) eqn:Ht; bool_prop; [|by exists []].
  exists (t :: gone). simpl. rewrite <- Heq. auto.
Qed.

Lemma drop_through_gt cutoff ts : StronglySorted Z.le ts → Forall (λ t, cutoff < t) (drop_through cutoff ts).
Proof.
  induction 1 as [|t ts Hs IH Hall]; simpl; [done|].
  destruct (t <=? cutoff) eqn:Ht; [done|]. bool_prop.
  constructor; [done|]. eapply Forall_impl; [exact Hall|]. simpl. lia.
Qed.

Lemma sorted_app_r (l1 l2 : list Z) : StronglySorted Z.le (l1 ++ l2) → StronglySorted Z.le l2.
Proof. induction l1 as [|x l1 IH]; simpl; [done|]. intros Hs. apply IH. by inversion Hs. Qed.

Lemma sorted_app_le (l1 l2 : list Z) x y : StronglySorted Z.le (l1 ++ l2) → x ∈ l1 → y ∈ l2 → x ≤ y.
Proof.
  induction l1 as [|z l1 IH]; simpl; intros Hs; [set_solver|]. inversion Hs as [|?? Hs' Hall]; subst.
  intros [->|Hx]%elem_of_cons Hy; [|auto]. rewrite Forall_forall in Hall. apply Hall. set_solver.
Qed.

Lemma sorted_snoc (l : list Z) x : StronglySorted Z.le l → Forall (λ t, t ≤ x) l → StronglySorted Z.le (l ++ [x]).
Proof.
  induction 1 as [|y l Hs IH Hall]; simpl; intros Hle; [repeat constructor|].
  apply Forall_cons in Hle as [? ?]. constructor; [by apply IH|]. apply Forall_app. auto.
Qed.

Lemma dq_later mx win exact last now h ts :
  dq_ok mx win exact last h ts → last ≤ now → dq_ok mx win exact now h ts.
Proof.
  intros (Hs & Hle & Hlen & pre & -> & Hex) Hnow. split; [done|]. split; [|split; [done|]].
  - eapply Forall_impl; [exact Hle|]. simpl. lia.
  - exists pre. split; [done|]. intros He. destruct (Hex He) as [Hp|]; [left|by right].
    eapply Forall_impl; [exact Hp|]. simpl. lia.
Qed.

Lemma dq_prune mx win exact last now h ts :
  dq_ok mx win exact last h ts → last ≤ now →
  dq_ok mx win exact now h (drop_through (now - seconds win) ts).
Proof.
  intros Hdq Hnow. apply (dq_later _ _ _ _ now) in Hdq; [|done].
  destruct Hdq as (Hs & Hle & Hlen & pre & -> & Hex).
  destruct (drop_through_app (now - seconds win) ts) as (gone & Heq & Hg).
  pose proof (f_equal (@length Z) Heq) as Hl. rewrite length_app in Hl.
  split; [done|]. split; [done|]. split; [lia|].
  exists (pre ++ gone). split; [by rewrite <- app_assoc, <- Heq|].
  intros He. destruct gone as [|g gone].
  - destruct (Hex He) as [Hp|Hfull]; [left; by rewrite app_nil_r|right]. simpl in Hl. lia.
  - left. apply Forall_app. split; [|done]. apply Forall_cons in Hg as [Hg _].
    apply Forall_forall. intros t Ht. simpl.
    enough (t ≤ g) by lia. eapply sorted_app_le; [exact Hs|exact Ht|]. rewrite Heq. set_solver.
Qed.

Lemma dq_append mx win exact now h ts :
  0 < mx → dq_ok mx win exact now h ts → dq_ok mx win exact now (h ++ [now]) (deque_append mx ts now).
Proof.
  intros Hmx (Hs & Hle & Hlen & pre & -> & Hex). unfold deque_append.
  set (n := (length (ts ++ [now]) - Z.to_nat mx)%nat).
  assert (Hn : length (ts ++ [now]) = S (length ts)) by (rewrite length_app; simpl; lia).
  split; [by apply sorted_snoc|]. split; [apply Forall_app; split; [done|repeat constructor; lia]|].
  split; [rewrite length_drop; lia|].
  exists (pre ++ take n (ts ++ [now])). split; [by rewrite <- !app_assoc, take_drop|].
  intros He. destruct (decide (Z.of_nat (length ts) = mx)) as [Hfull|Hnf].
  - right. rewrite length_drop. lia.
  - left. destruct (Hex He) as [Hp|]; [|done]. replace n with O by lia. by rewrite take_0, app_nil_r.
Qed.

(** What a pruned deque says about the history. *)
Lemma dq_count mx win exact now h ts :
  dq_ok mx win exact now h ts → Forall (λ t, now - seconds win < t) ts →
  (mx ≤ Z.of_nat (length ts) → mx ≤ Z.of_nat (length (recent_failures win now h))) ∧
  (exact = true → mx ≤ Z.of_nat (length (recent_failures win now h)) → mx ≤ Z.of_nat (length ts)).
Proof.
  intros (Hs & Hle & Hlen & pre & -> & Hex) Hgt. unfold recent_failures.
  rewrite filter_app, length_app, (filter_all _ ts) by (rewrite Forall_forall in Hgt; exact Hgt).
  split; [lia|]. intros He. destruct (Hex He) as [Hp|Hfull]; [|lia].
  rewrite filter_none; [simpl; lia|]. intros t Ht. rewrite Forall_forall in Hp. specialize (Hp t Ht).
  simpl in Hp. lia.
Qed.

Lemma dget_deque_of w k ts : dget (fw_failures w) k = Some ts → deque_of w k = ts.
Proof. unfold deque_of. by intros ->. Qed.

Lemma recent_spec mx win tr w exact last h key now :
  fw_inv mx win tr w exact last h → last ≤ now →
  ∃ w', _recent key now w = (Ok (drop_through (now - seconds win) (deque_of w key)), w') ∧
    fw_inv mx win tr w' exact now h ∧ deque_of w' key = drop_through (now - seconds win) (deque_of w key) ∧
    (∀ k, k ∈ dkeys (fw_failures w') → k ∈ dkeys (fw_failures w)).
Proof.
  intros [Hm Hw Ht Hwf Hne Htr Hdq] Hnow. unfold _recent.
  assert (Hlater : ∀ k, dq_ok mx win exact now (h k) (deque_of w k)) by (intros k; eapply dq_later; eauto).
  pose proof (dq_prune _ _ _ _ _ _ _ (Hdq key) Hnow) as Hp.
  destruct (dget (fw_failures w) key) as [ts|] eqn:Hk.
  - rewrite (dget_deque_of _ _ _ Hk) in *. rewrite Hw. eexists. split; [done|].
    set (recent := drop_through _ ts) in *. case_bool_decide as Hr.
    + split; [split; cbn [fw_failures fw_with fw_max_failures fw_window_seconds fw_max_tracked_keys]; auto with pirewall|].
      * intros k ts'. rewrite dget_pop. case_decide; [done|]. apply Hne.
      * pose proof (dpop_length_le (fw_failures w) key). lia.
      * intros k. unfold deque_of. cbn [fw_failures fw_with]. rewrite dget_pop.
        case_decide; [subst; simpl; by rewrite <- Hr|apply Hlater].
      * split; [unfold deque_of; cbn [fw_failures fw_with]; rewrite dget_pop; by case_decide|].
        intros k. cbn [fw_failures fw_with]. rewrite dkeys_pop, list_elem_of_filter. tauto.
    + split; [split; cbn [fw_failures fw_with fw_max_failures fw_window_seconds fw_max_tracked_keys]; auto with pirewall|].
      * intros k ts'. rewrite dget_set. case_decide; [naive_solver|]. apply Hne.
      * rewrite dset_length, decide_True by (apply dget_is_Some; eauto). done.
      * intros k. unfold deque_of. cbn [fw_failures fw_with]. rewrite dget_set.
        case_decide; [by subst|apply Hlater].
      * split; [unfold deque_of; cbn [fw_failures fw_with]; by rewrite dget_set_eq|].
        intros k. cbn [fw_failures fw_with]. rewrite dkeys_set_in; [done|]. apply dget_is_Some; eauto.
  - assert (deque_of w key = []) as Hdk by (unfold deque_of; by rewrite Hk). rewrite Hdk in *.
    exists w. split; [done|]. split; [by split|]. by split.
Qed.

Lemma is_locked_out_spec mx win tr w exact last h key now :
  fw_inv mx win tr w exact last h → last ≤ now →
  ∃ b w', is_locked_out key now w = (Ok b, w') ∧ fw_inv mx win tr w' exact now h ∧
    (b = true → mx ≤ Z.of_nat (length (recent_failures win now (h key)))) ∧
    (exact = true → mx ≤ Z.of_nat (length (recent_failures win now (h key))) → b = true) ∧
    (∀ k, k ∈ dkeys (fw_failures w') → k ∈ dkeys (fw_failures w)).
Proof.
  intros Hinv Hnow. destruct (recent_spec _ _ _ _ _ _ _ key now Hinv Hnow) as (w' & Hrec & Hinv' & Hdq & Hkeys).
  pose proof (inv_deques _ _ _ _ _ _ _ Hinv' key) as Hok. rewrite Hdq in Hok.
  assert (Hgt : Forall (λ t, now - seconds win < t) (drop_through (now - seconds win) (deque_of w key))).
  { apply drop_through_gt. destruct (inv_deques _ _ _ _ _ _ _ Hinv key) as (Hs & _ & _ & pre & Heq & _).
    rewrite Heq in Hs. by eapply sorted_app_r. }
  destruct (dq_count _ _ _ _ _ _ Hok Hgt) as [Hsound Hcomplete].
  eexists _, w'. split; [|split; [exact Hinv'|split; [|split; [|done]]]].
  - unfold is_locked_out, mbind, m_bind. by rewrite Hrec.
  - intros Hb. bool_prop. apply Hsound. by rewrite <- (inv_max _ _ _ _ _ _ _ Hinv').
  - intros He Hc. apply Z.leb_le. rewrite (inv_max _ _ _ _ _ _ _ Hinv'). auto.
Qed.

(** Making room: the stalest key goes, and only in a full window. *)
Definition evict_for (key : K) : M FailureWindow unit :=
  w ← mget;
  if negb (dmem (fw_failures w) key) && (fw_max_tracked_keys w <=? Z.of_nat (length (fw_failures w)))
  then old ← mlift (stalest (fw_failures w)); mmodify (λ w, fw_with w (dpop (fw_failures w) old))
  else mret tt.

Lemma stalest_spec d : d ≠ [] → (∀ k ts, (k, ts) ∈ d → ts ≠ []) → ∃ k, stalest d = Ok k ∧ k ∈ dkeys d.
Proof.
  intros Hd Hne. unfold stalest. replace (existsb _ d) with false.
  - destruct (py_min _ d) as [p|] eqn:Hp; [|by destruct d].
    apply py_min_spec in Hp as [Hin _]. exists p.1. split; [done|]. unfold dkeys. set_solver.
  - symmetry. apply not_true_iff_false. intros ([k ts] & Hin & Hb)%existsb_exists. bool_prop.
    apply list_elem_of_In in Hin. by apply (Hne k ts).
Qed.

Lemma dpop_length_in (d : list (K * list Z)) k : k ∈ dkeys d → (length (dpop d k) < length d)%nat.
Proof.
  unfold dkeys. induction d as [|[k' v] d IH]; simpl; [set_solver|]. intros Hin.
  case_decide; [pose proof (dpop_length_le d k); lia|]. simpl.
  assert (k ∈ d.*1) as Hk by set_solver. specialize (IH Hk). lia.
Qed.

Lemma evict_spec mx win tr w exact now h key :
  fw_inv mx win tr w exact now h → 0 < tr →
  (exact = true → key ∉ dkeys (fw_failures w) → Z.of_nat (length (fw_failures w)) < tr) →
  ∃ w', evict_for key w = (Ok tt, w') ∧ fw_inv mx win tr w' exact now h ∧
    deque_of w' key = deque_of w key ∧
    (key ∉ dkeys (fw_failures w') → Z.of_nat (length (fw_failures w')) < tr) ∧
    (∀ k, k ∈ dkeys (fw_failures w') → k ∈ dkeys (fw_failures w)).
Proof.
  intros Hinv Htr Hroom. pose proof Hinv as [Hm Hw Ht Hwf Hne Hlen Hdq].
  unfold evict_for, mbind, m_bind, mget.
  destruct (_ && _) eqn:Hfull.
  - apply andb_true_iff in Hfull as [Hmem Hfull]. bool_prop. rewrite Ht in Hfull.
    assert (Hk : dget (fw_failures w) key = None) by (unfold dmem in Hmem; by destruct (dget _ _)).
    assert (exact = false) as -> by (destruct exact; [|done]; apply dget_None in Hk; specialize (Hroom eq_refl Hk); lia).
    destruct (stalest_spec (fw_failures w)) as (old & Hold & Hin).
    { intros Hd. rewrite Hd in Hfull. simpl in Hfull. lia. }
    { intros k ts Hin. apply (Hne k). by apply dget_elem. }
    unfold mlift. rewrite Hold. eexists. split; [done|]. unfold mmodify.
    assert (Hlt := dpop_length_in _ _ Hin).
    assert (old ≠ key) by (intros ->; apply dget_None in Hk; done).
    split; [split; cbn [fw_failures fw_with fw_max_failures fw_window_seconds fw_max_tracked_keys]; auto with pirewall|].
    + intros k ts. rewrite dget_pop. case_decide; [done|]. apply Hne.
    + lia.
    + intros k. unfold deque_of. cbn [fw_failures fw_with]. rewrite dget_pop. case_decide; [|apply Hdq].
      destruct (Hdq k) as (Hs & Hle & Hl & pre & Heq & _). simpl. split; [done|]. split; [done|].
      split; [change (0 ≤ mx); lia|]. exists (h k). rewrite app_nil_r. done.
    + unfold deque_of. cbn [fw_failures fw_with]. rewrite dget_pop, decide_False by done.
      split; [done|]. split; [lia|]. intros k. rewrite dkeys_pop, list_elem_of_filter. tauto.
  - exists w. split; [done|]. split; [done|]. split; [done|]. split; [|done].
    intros Hk. apply dget_None in Hk. apply andb_false_iff in Hfull as [Hmem|Hf]; bool_prop; [|by rewrite <- Ht].
    unfold dmem in Hmem. by rewrite Hk in Hmem.
Qed.

Definition append_failure (key : K) (now : Z) : M FailureWindow unit :=
  mmodify (λ w, let d := dsetdefault (fw_failures w) key [] in
                fw_with w (dset d key (deque_append (fw_max_failures w) (default [] (dget d key)) now))).

Definition hist_add (h : K → list Z) (key : K) (now : Z) : K → list Z :=
  λ k, if decide (key = k) then h k ++ [now] else h k.

Lemma append_spec mx win tr w exact now h key :
  0 < mx → fw_inv mx win tr w exact now h →
  (key ∉ dkeys (fw_failures w) → Z.of_nat (length (fw_failures w)) < tr) →
  ∃ w', append_failure key now w = (Ok tt, w') ∧ fw_inv mx win tr w' exact now (hist_add h key now) ∧
    (∀ k, k ∈ dkeys (fw_failures w') → k = key ∨ k ∈ dkeys (fw_failures w)).
Proof.
  intros Hmx [Hm Hw Ht Hwf Hne Hlen Hdq] Hroom. eexists. split; [done|]. cbv zeta.
  set (d := dsetdefault (fw_failures w) key []).
  assert (Hd : ∀ k, dget d k = if decide (key = k) then Some (deque_of w key) else dget (fw_failures w) k).
  { intros k. unfold d, dsetdefault, deque_of. destruct (dget (fw_failures w) key) as [ts|] eqn:Hk.
    - case_decide; by subst.
    - rewrite dget_set. by case_decide. }
  assert (Hdk : ∀ k, k ∈ dkeys d ↔ k = key ∨ k ∈ dkeys (fw_failures w)).
  { intros k. rewrite <- !dget_is_Some, Hd. case_decide; naive_solver. }
  assert (Hwfd : dwf d) by (unfold d, dsetdefault; case_match; auto with pirewall).
  assert (Hld : Z.of_nat (length d) ≤ tr).
  { unfold d, dsetdefault. case_match eqn:Hk; [done|]. apply dget_None in Hk.
    rewrite dset_length, decide_False by done. specialize (Hroom Hk). lia. }
  split; [split; cbn [fw_failures fw_with fw_max_failures fw_window_seconds fw_max_tracked_keys]; auto with pirewall|].
  - intros k ts. rewrite dget_set, !Hd. destruct (decide (key = k)); [|apply Hne]. intros [= <-]. unfold deque_append.
    rewrite Hm. intros Hnil. apply (f_equal (@length Z)) in Hnil. rewrite length_drop, length_app in Hnil. simpl in Hnil. lia.
  - rewrite dset_length, decide_True; [done|]. apply Hdk. by left.
  - intros k. unfold deque_of, hist_add. cbn [fw_failures fw_with]. rewrite dget_set, !Hd. case_decide; [subst|by apply Hdq].
    rewrite decide_True by done. cbn [from_option]. apply dq_append; auto.
  - intros k. cbn [fw_failures fw_with]. rewrite dkeys_set. case_decide; [by rewrite Hdk|].
    rewrite elem_of_app, Hdk. set_solver.
Qed.

Lemma record_failure_spec mx win tr w exact last h key now :
  0 < mx → 0 < tr → fw_inv mx win tr w exact last h → last ≤ now →
  (exact = true → key ∉ dkeys (fw_failures w) → Z.of_nat (length (fw_failures w)) < tr) →
  ∃ b w', record_failure key now w = (Ok b, w') ∧ fw_inv mx win tr w' exact now (hist_add h key now) ∧
    (∀ k, k ∈ dkeys (fw_failures w') → k = key ∨ k ∈ dkeys (fw_failures w)) ∧
    (b = true → mx ≤ Z.of_nat (length (recent_failures win now (hist_add h key now key)))).
Proof.
  intros Hmx Htr Hinv Hnow Hroom.
  destruct (is_locked_out_spec _ _ _ _ _ _ _ key now Hinv Hnow) as (was & w1 & H1 & Hi1 & _ & _ & Hk1).
  destruct (evict_spec _ _ _ _ _ _ _ key Hi1 Htr) as (w2 & H2 & Hi2 & _ & Hroom2 & Hk2).
  { intros He Hk. pose proof (inv_dwf _ _ _ _ _ _ _ Hi1) as Hwf1.
    assert (Hsub : dkeys (fw_failures w1) ⊆+ dkeys (fw_failures w)) by (apply NoDup_submseteq; [done|exact Hk1]).
    apply submseteq_length in Hsub. unfold dkeys in Hsub. rewrite !length_fmap in Hsub.
    destruct (decide (key ∈ dkeys (fw_failures w))) as [Hin|Hnin]; [|specialize (Hroom He Hnin); lia].
    assert (Hsub' : key :: dkeys (fw_failures w1) ⊆+ dkeys (fw_failures w)).
    { apply NoDup_submseteq; [by constructor|]. intros k [->|?]%elem_of_cons; auto. }
    apply submseteq_length in Hsub'. simpl in Hsub'. unfold dkeys in Hsub'. rewrite !length_fmap in Hsub'.
    pose proof (inv_tracked _ _ _ _ _ _ _ Hinv). lia. }
  destruct (append_spec _ _ _ _ _ _ _ key Hmx Hi2 Hroom2) as (w3 & H3 & Hi3 & Hk3).
  destruct (is_locked_out_spec _ _ _ _ _ _ _ key now Hi3 (Z.le_refl _)) as (locked & w4 & H4 & Hi4 & Hl4 & _ & Hk4).
  exists (negb was && locked), w4. split; [|split; [done|split]].
  - unfold record_failure, mbind, m_bind. rewrite H1. cbn [mget].
    unfold evict_for, mbind, m_bind, mget in H2. rewrite H2. unfold append_failure in H3. rewrite H3, H4. done.
  - intros k Hk. destruct (Hk3 k (Hk4 k Hk)); auto.
  - intros Hb. apply andb_true_iff in Hb as [_ Hb]. auto.
Qed.

Lemma clear_spec mx win tr w exact last h key :
  0 ≤ mx → fw_inv mx win tr w exact last h →
  fw_inv mx win tr (clear key w).2 exact last (λ k, if decide (key = k) then [] else h k) ∧
  ∀ k, k ∈ dkeys (fw_failures (clear key w).2) → k ∈ dkeys (fw_failures w).
Proof.
  intros Hmx [Hm Hw Ht Hwf Hne Hlen Hdq]. unfold clear, mmodify. cbn [snd].
  split; [split; cbn [fw_failures fw_with fw_max_failures fw_window_seconds fw_max_tracked_keys]; auto with pirewall|].
  - intros k ts. rewrite dget_pop. case_decide; [done|]. apply Hne.
  - pose proof (dpop_length_le (fw_failures w) key). lia.
  - intros k. unfold deque_of. cbn [fw_failures fw_with]. rewrite dget_pop. case_decide; [|apply Hdq].
    simpl. split; [constructor|]. split; [constructor|]. split; [change (0 ≤ mx); lia|]. exists []. split; [done|]. left. constructor.
  - intros k. cbn [fw_failures fw_with]. rewrite dkeys_pop, list_elem_of_filter. tauto.
Qed.

Lemma seconds_until_unlocked_state key now (w : FailureWindow) :
  (seconds_until_unlocked key now w).2 = (is_locked_out key now w).2.
Proof.
  unfold seconds_until_unlocked, is_locked_out, mbind, m_bind. destruct (_recent key now w) as [[r|e] w']; [|done].
  cbn [mget]. case_match; [done|]. by destruct r.
Qed.

(** ** Every run keeps the invariant *)

Lemma fw_inv_ext mx win tr w exact last h h' :
  (∀ k, h k = h' k) → fw_inv mx win tr w exact last h → fw_inv mx win tr w exact last h'.
Proof. intros Heq [? ? ? ? ? ? Hdq]. split; auto. intros k. rewrite <- Heq. apply Hdq. Qed.

Lemma fw_run_inv mx win tr exact (keys : list K) : 0 < mx → 0 < tr →
  (exact = true → Z.of_nat (length keys) ≤ tr) →
  ∀ ops w last h now, fw_inv mx win tr w exact last h → clock_from last ops now →
  (∀ k, k ∈ dkeys (fw_failures w) → k ∈ keys) → (∀ k, k ∈ failed_keys ops → k ∈ keys) →
  ∃ last', fw_inv mx win tr (fw_run w ops) exact last' (λ k, foldl (hist_step k) (h k) ops) ∧ last' ≤ now.
Proof.
  intros Hmx Htr Hex. unfold failed_keys. setoid_rewrite elem_of_dedup.
  induction ops as [|op ops IH]; intros w last h now Hinv Hclock Hsub Hops; [by exists last|].
  simpl in Hclock. cbn [fw_run foldl] in *.
  assert (Htl : ∀ k, k ∈ omap (λ op, match op with Failed k _ => Some k | _ => None end) ops → k ∈ keys).
  { intros k Hk. apply Hops. simpl. by destruct op; rewrite ?elem_of_cons; auto. }
  destruct op as [key t|key t|key t|key]; simpl in Hclock |- *.
  - destruct Hclock as [Ht Hclock].
    destruct (record_failure_spec mx win tr w exact last h key t) as (b & w' & Hr & Hi & Hk & _); auto.
    { intros He Hnk. assert (Hs : key :: dkeys (fw_failures w) ⊆+ keys).
      { apply NoDup_submseteq; [constructor; [done|by destruct Hinv]|].
        intros k [->|?]%elem_of_cons; [apply Hops; simpl; set_solver|auto]. }
      apply submseteq_length in Hs. simpl in Hs. unfold dkeys in Hs. rewrite length_fmap in Hs. specialize (Hex He). lia. }
    rewrite Hr. cbn [snd].
    destruct (IH w' t _ now Hi Hclock) as (last' & Hi' & Hl); [|done|].
    { intros k Hk'. destruct (Hk k Hk') as [->|?]; [apply Hops; simpl; set_solver|auto]. }
    exists last'. split; [|done]. eapply fw_inv_ext; [|exact Hi']. intros k. reflexivity.
  - destruct Hclock as [Ht Hclock].
    destruct (is_locked_out_spec _ _ _ _ _ _ _ key t Hinv Ht) as (b & w' & Hr & Hi & _ & _ & Hk).
    rewrite Hr. cbn [snd]. apply (IH w' t h now Hi Hclock); auto.
  - destruct Hclock as [Ht Hclock]. rewrite seconds_until_unlocked_state.
    destruct (is_locked_out_spec _ _ _ _ _ _ _ key t Hinv Ht) as (b & w' & Hr & Hi & _ & _ & Hk).
    rewrite Hr. cbn [snd]. apply (IH w' t h now Hi Hclock); auto.
  - destruct (clear_spec mx win tr w exact last h key) as [Hi Hk]; [lia|done|].
    destruct (IH _ _ _ now Hi Hclock) as (last' & Hi' & Hl); [|done|].
    { intros k Hk'. auto. }
    exists last'. split; [|done]. eapply fw_inv_ext; [|exact Hi']. intros k. reflexivity.
Qed.

Lemma new_window_inv mx win tr exact from : 0 < mx → 0 < tr →
  fw_inv mx win tr (new_window mx win tr) exact from (λ _, []).
Proof.
  intros Hmx Htr. split; [done|done|done|apply dwf_nil|done|simpl; lia|].
  intros k. split; [constructor|]. split; [constructor|]. split; [change (0 ≤ mx); lia|]. exists []. split; [done|]. left. constructor.
Qed.
End Window.
Arguments FailureWindow K : clear implicits.

(** A lockout is the key's own doing and nobody else's: in any run of the
    operations at nondecreasing times, a locked key has [max] failures of its
    own in the window since it was last cleared; when no more than [tracked]
    distinct keys failed, such a key is always locked; and the window never
    holds more than [tracked] keys with [max] instants each. *)
Theorem lockout_counts_own_failures {K} `{EqDecision K} max window tracked from ops now (key : K) :
  0 < max → 0 < tracked → clock_from from ops now →
  let w := fw_run (new_window max window tracked) ops in
  let count := Z.of_nat (length (recent_failures window now (history key ops))) in
  ∃ locked, (is_locked_out key now w).1 = Ok locked ∧
    (locked = true → max ≤ count) ∧
    (Z.of_nat (length (failed_keys ops)) ≤ tracked → max ≤ count → locked = true) ∧
    Z.of_nat (length (fw_failures w)) ≤ tracked ∧
    ∀ k ts, dget (fw_failures w) k = Some ts → Z.of_nat (length ts) ≤ max.
Proof.
  intros Hmax Htr Hclock w count.
  destruct (fw_run_inv max window tracked (bool_decide (Z.of_nat (length (failed_keys ops)) ≤ tracked))
              (failed_keys ops) Hmax Htr (λ He, ltac:(by apply bool_decide_eq_true in He)) ops _ from _ now
              (new_window_inv _ _ _ _ _ Hmax Htr) Hclock) as (last & Hinv & Hle); [intros k Hk; by apply elem_of_nil in Hk|done|].
  destruct (is_locked_out_spec _ _ _ _ _ _ _ key now Hinv Hle) as (b & w' & Hb & _ & Hsound & Hcomplete & _).
  exists b. subst w. rewrite Hb. split; [done|]. split; [exact Hsound|]. split.
  - intros Hd. apply Hcomplete. by apply bool_decide_eq_true.
  - split; [by destruct Hinv|]. intros k ts Hk.
    destruct (inv_deques _ _ _ _ _ _ _ Hinv k) as (_ & _ & Hl & _). by rewrite (dget_deque_of _ _ _ Hk) in Hl.
Qed.

Lemma lockout_counts_own_failures_witness :
  let w := fw_run (new_window 2 60 1) [Failed 7%nat 0; Failed 8%nat 0; Failed 7%nat (seconds 59); Failed 7%nat (seconds 59)] in
  let count := Z.of_nat (length (recent_failures 60 (seconds 60) (history 7%nat
    [Failed 7%nat 0; Failed 8%nat 0; Failed 7%nat (seconds 59); Failed 7%nat (seconds 59)]))) in
  ∃ locked, (is_locked_out 7%nat (seconds 60) w).1 = Ok locked ∧
    (locked = true → 2 ≤ count) ∧
    (Z.of_nat (length (failed_keys [Failed 7%nat 0; Failed 8%nat 0; Failed 7%nat (seconds 59); Failed 7%nat (seconds 59)])) ≤ 1 → 2 ≤ count → locked = true) ∧
    Z.of_nat (length (fw_failures w)) ≤ 1 ∧
    ∀ k ts, dget (fw_failures w) k = Some ts → Z.of_nat (length ts) ≤ 2.
Proof.
  apply (lockout_counts_own_failures 2 60 1 0); [lia|lia|]. vm_compute. intuition congruence.
Defined.

(** ** [ScopedThrottle] *)

Inductive LockoutScope := SCOPE_SOURCE | SCOPE_ACCOUNT | SCOPE_GLOBAL.
#[global] Instance LockoutScope_eq_dec : EqDecision LockoutScope.
Proof. solve_decision. Defined.

Definition scope_value (s : LockoutScope) : string :=
  match s with SCOPE_SOURCE => "source" | SCOPE_ACCOUNT => "account" | SCOPE_GLOBAL => "global" end.

Record Lockout : Type := mk_lockout { lo_scope : LockoutScope; lo_retry_after_seconds : Z }.

(** The keys in use: addresses and names, which Python never compares equal. *)
Inductive Hashable := KAddr (ip : IPv4.t) | KText (s : string).
#[global] Instance Hashable_eq_dec : EqDecision Hashable.
Proof. solve_decision. Defined.

Definition _GLOBAL_KEY : Hashable := KText "*".

Record ScopedThrottle : Type := mk_scoped { st_windows : list (LockoutScope * FailureWindow Hashable) }.

Definition new_scoped (limits : list (LockoutScope * Z)) (window_seconds max_tracked_keys : Z) : ScopedThrottle :=
  mk_scoped ((λ p, (p.1, new_window p.2 window_seconds max_tracked_keys)) <$> limits).

Definition on_window {A} (scope : LockoutScope) (m : M (FailureWindow Hashable) A) : M ScopedThrottle A := λ t,
  match dget (st_windows t) scope with
  | None => (Raise KeyError, t)
  | Some w => let '(r, w') := m w in (r, mk_scoped (dset (st_windows t) scope w'))
  end.

Definition scoped_keys (t : ScopedThrottle) (keys : list (LockoutScope * Hashable)) : list (LockoutScope * Hashable) :=
  filter (λ p : LockoutScope * Hashable, dmem (st_windows t) p.1 = true ∧ p.1 ≠ SCOPE_GLOBAL) keys ++
  (if dmem (st_windows t) SCOPE_GLOBAL then [(SCOPE_GLOBAL, _GLOBAL_KEY)] else []).

Definition worse (worst : option Lockout) (scope : LockoutScope) (wait : Z) : option Lockout :=
  if negb (wait =? 0) && match worst with None => true | Some l => lo_retry_after_seconds l <? wait end
  then Some (mk_lockout scope wait) else worst.

Fixpoint lockout_loop (pairs : list (LockoutScope * Hashable)) (now : Z) (worst : option Lockout)
  : M ScopedThrottle (option Lockout) :=
  match pairs with
  | [] => mret worst
  | (scope, key) :: pairs' =>
      wait ← on_window scope (seconds_until_unlocked key now);
      lockout_loop pairs' now (worse worst scope wait)
  end.

Definition lockout (keys : list (LockoutScope * Hashable)) (now : Z) : M ScopedThrottle (option Lockout) :=
  t ← mget; lockout_loop (scoped_keys t keys) now None.

Fixpoint record_loop (pairs : list (LockoutScope * Hashable)) (now : Z) : M ScopedThrottle (list LockoutScope) :=
  match pairs with
  | [] => mret []
  | (scope, key) :: pairs' =>
      newly ← on_window scope (record_failure key now);
      rest ← record_loop pairs' now;
      mret (if newly : bool then scope :: rest else rest)
  end.

Definition scoped_record_failure (keys : list (LockoutScope * Hashable)) (now : Z)
  : M ScopedThrottle (list LockoutScope) :=
  t ← mget; record_loop (scoped_keys t keys) now.

Definition scoped_clear (scope : LockoutScope) (key : Hashable) : M ScopedThrottle unit := λ t,
  if dmem (st_windows t) scope && bool_decide (scope ≠ SCOPE_GLOBAL) then on_window scope (clear key) t
  else (Ok tt, t).

(** ** Waiting *)

(** The answer of [seconds_until_unlocked], as a function of the deque. *)
Definition wait_of {K} `{EqDecision K} (w : FailureWindow K) (key : K) (now : Z) : Z :=
  let recent := drop_through (now - seconds (fw_window_seconds w)) (deque_of w key) in
  if Z.of_nat (length recent) <? fw_max_failures w then 0
  else match recent with
       | [] => 0
       | oldest :: _ => Z.max 1 (ceil_seconds (oldest + seconds (fw_window_seconds w) - now))
       end.

Lemma drop_through_later c c' ts : c ≤ c' → drop_through c' (drop_through c ts) = drop_through c' ts.
Proof.
  intros Hc. induction ts as [|t ts IH]; simpl; [done|]. destruct (t <=? c) eqn:Ht; [|done].
  bool_prop. rewrite IH. by destruct (Z.leb_spec t c'); [|lia].
Qed.

Lemma ceil_seconds_spec td : td ≤ seconds (ceil_seconds td) < td + us_per_second.
Proof.
  unfold ceil_seconds, seconds, us_per_second.
  pose proof (Z.div_mod (- td) 1000000). pose proof (Z.mod_pos_bound (- td) 1000000). lia.
Qed.

Section Wait.
Context {K : Type} `{EqDecision K}.
Context (mx win tr : Z) (Hmx : 0 < mx).

Lemma seconds_until_unlocked_spec w exact last h (key : K) now :
  fw_inv mx win tr w exact last h → last ≤ now →
  ∃ w', seconds_until_unlocked key now w = (Ok (wait_of w key now), w') ∧ fw_inv mx win tr w' exact now h ∧
    ∀ now', now ≤ now' → wait_of w' key now' = wait_of w key now'.
Proof using Hmx.
  intros Hinv Hnow. destruct (recent_spec _ _ _ _ _ _ _ key now Hinv Hnow) as (w' & Hrec & Hinv' & Hdq & _).
  exists w'. pose proof Hinv as [Hm Hw _ _ _ _ _]. pose proof Hinv' as [Hm' Hw' _ _ _ _ _].
  split; [|split; [done|]].
  - unfold seconds_until_unlocked, wait_of, mbind, m_bind. rewrite Hrec, Hw. cbn [mget]. rewrite Hm', Hm, Hw'.
    case_match eqn:Hl; [done|]. case_match eqn:Hr; [|done]. bool_prop. simpl in Hl. lia.
  - intros now' Hn. unfold wait_of. rewrite Hdq, Hw, Hw', Hm, Hm'. by rewrite drop_through_later by lia.
Qed.

Lemma wait_of_expires w exact last h (key : K) now now' :
  fw_inv mx win tr w exact last h → last ≤ now → now + seconds (wait_of w key now) ≤ now' → wait_of w key now' = 0.
Proof using Hmx.
  intros Hinv Hnow Hlater. pose proof Hinv as [Hm Hw _ _ _ _ Hdq].
  destruct (dq_prune _ _ _ _ _ _ _ (Hdq key) Hnow) as (_ & _ & Hlen & _).
  unfold wait_of in *. rewrite Hm, Hw in *.
  set (recent := drop_through (now - seconds win) (deque_of w key)) in *.
  assert (Hn : now ≤ now').
  { revert Hlater. destruct (_ <? _); [unfold seconds; lia|]. destruct recent; unfold seconds, us_per_second; lia. }
  rewrite <- (drop_through_later (now - seconds win) (now' - seconds win)) by lia. fold recent.
  destruct (drop_through_app (now' - seconds win) recent) as (gone & Heq & _).
  pose proof (f_equal (@length Z) Heq) as Hl. rewrite length_app in Hl.
  destruct (Z.of_nat (length recent) <? mx) eqn:Hlt; bool_prop.
  - by destruct (Z.ltb_spec (Z.of_nat (length (drop_through (now' - seconds win) recent))) mx); [|lia].
  - destruct recent as [|o rest] eqn:Hr; [simpl in Hlt; lia|].
    pose proof (ceil_seconds_spec (o + seconds win - now)) as Hc.
    assert (Ho : o <=? now' - seconds win = true) by (apply Z.leb_le; unfold seconds, us_per_second in *; lia).
    simpl in Heq, Hl, Hlen |- *. rewrite Ho in *.
    destruct (drop_through_app (now' - seconds win) rest) as (gone' & Heq' & _).
    pose proof (f_equal (@length Z) Heq') as Hl'. rewrite length_app in Hl'.
    by destruct (Z.ltb_spec (Z.of_nat (length (drop_through (now' - seconds win) rest))) mx); [|lia].
Qed.

Lemma drop_through_head cutoff ts t rest : drop_through cutoff ts = t :: rest → cutoff < t.
Proof. induction ts as [|u ts IH]; simpl; [done|]. destruct (u <=? cutoff) eqn:Hu; [done|]. intros [= <- _]. by bool_prop. Qed.

Lemma wait_of_bounds w exact last h (key : K) now :
  fw_inv mx win tr w exact last h → last ≤ now → 0 < win →
  0 ≤ wait_of w key now ≤ win ∧
  ∀ t, now ≤ t → t ≤ now + seconds (wait_of w key now - 1) → wait_of w key t ≠ 0.
Proof using Hmx.
  intros Hinv Hnow Hwin. pose proof Hinv as [Hm Hw _ _ _ _ Hdq].
  destruct (dq_prune _ _ _ _ _ _ _ (Hdq key) Hnow) as (_ & Hle & _ & pre & Hpre & _).
  unfold wait_of. rewrite Hm, Hw. set (recent := drop_through (now - seconds win) (deque_of w key)) in *.
  destruct (Z.of_nat (length recent) <? mx) eqn:Hlt; [split; [lia|]; intros; unfold seconds, us_per_second in *; lia|].
  bool_prop. destruct recent as [|o rest] eqn:Hr; [simpl in Hlt; lia|]. unfold recent in *.
  pose proof (drop_through_head _ _ _ _ Hr) as Ho. pose proof (ceil_seconds_spec (o + seconds win - now)) as Hc.
  assert (Hon : o ≤ now). { rewrite Forall_forall in Hle. apply Hle. rewrite Hpre. set_solver. }
  split; [unfold seconds, us_per_second in *; lia|]. intros t Ht1 Ht2.
  rewrite <- (drop_through_later (now - seconds win) (t - seconds win)), Hr by lia. simpl.
  assert (Hot : o <=? t - seconds win = false) by (apply Z.leb_gt; unfold seconds, us_per_second in *; lia).
  rewrite Hot. simpl in Hlt |- *. destruct (Z.ltb_spec (Z.of_nat (S (length rest))) mx); lia.
Qed.
End Wait.

(** ** Every throttle that was built with positive limits and then used *)

Definition st_inv (win tr last : Z) (t : ScopedThrottle) : Prop :=
  dwf (st_windows t) ∧
  ∀ s w, dget (st_windows t) s = Some w → ∃ mx h, 0 < mx ∧ fw_inv mx win tr w false last h.

Inductive st_reach (win tr : Z) : Z → ScopedThrottle → Prop :=
| reach_new limits from : dwf limits → Forall (λ p, 0 < p.2) limits →
    st_reach win tr from (new_scoped limits win tr)
| reach_lockout last now keys t : st_reach win tr last t → last ≤ now → dwf keys →
    st_reach win tr now (lockout keys now t).2
| reach_record last now keys t : st_reach win tr last t → last ≤ now → dwf keys →
    st_reach win tr now (scoped_record_failure keys now t).2
| reach_clear last scope key t : st_reach win tr last t → st_reach win tr last (scoped_clear scope key t).2.

Lemma fw_inv_later {K} `{EqDecision K} mx win tr (w : FailureWindow K) exact last now h :
  fw_inv mx win tr w exact last h → last ≤ now → fw_inv mx win tr w exact now h.
Proof. intros [? ? ? ? ? ? Hdq] Hnow. split; auto. intros k. eapply dq_later; eauto. Qed.

Lemma st_inv_later win tr last now t : st_inv win tr last t → last ≤ now → st_inv win tr now t.
Proof.
  intros [Hwf Hall] Hnow. split; [done|]. intros s w Hs. destruct (Hall s w Hs) as (mx & h & ? & Hi).
  exists mx, h. split; [done|]. by eapply fw_inv_later.
Qed.

Lemma st_inv_set win tr now t s w mx h :
  st_inv win tr now t → 0 < mx → fw_inv mx win tr w false now h →
  st_inv win tr now (mk_scoped (dset (st_windows t) s w)).
Proof.
  intros [Hwf Hall] Hmx Hw. split; [by apply dwf_set|]. intros s' w'. cbn [st_windows]. rewrite dget_set.
  case_decide; [|by apply Hall]. intros [= <-]. eauto.
Qed.

Definition wait_in (t : ScopedThrottle) (p : LockoutScope * Hashable) (now : Z) : Z :=
  match dget (st_windows t) p.1 with Some w => wait_of w p.2 now | None => 0 end.

Lemma lockout_loop_spec win tr now : ∀ pairs worst t last,
  st_inv win tr last t → last ≤ now → NoDup pairs.*1 → (∀ s, s ∈ pairs.*1 → s ∈ dkeys (st_windows t)) →
  ∃ t', lockout_loop pairs now worst t = (Ok (foldl (λ acc p, worse acc p.1 (wait_in t p now)) worst pairs), t') ∧
    st_inv win tr now t' ∧ dkeys (st_windows t') = dkeys (st_windows t) ∧
    (∀ s, s ∉ pairs.*1 → dget (st_windows t') s = dget (st_windows t) s) ∧
    (∀ p now', p ∈ pairs → now ≤ now' → wait_in t' p now' = wait_in t p now').
Proof.
  induction pairs as [|[s k] pairs IH]; intros worst t last Hinv Hnow Hnd Hin.
  { exists t. split; [done|]. split; [by eapply st_inv_later|]. split; [done|]. split; [done|]. set_solver. }
  rewrite fmap_cons in Hnd, Hin. apply NoDup_cons in Hnd as [Hs Hnd]. cbn [fst] in Hs.
  assert (Hsk : s ∈ dkeys (st_windows t)) by (apply Hin; set_solver).
  apply dget_is_Some in Hsk as [w Hw]. destruct (proj2 Hinv s w Hw) as (mx & h & Hmx & Hfw).
  destruct (seconds_until_unlocked_spec mx win tr Hmx w false last h k now Hfw Hnow) as (w' & Hsu & Hfw' & Hwait).
  set (t1 := mk_scoped (dset (st_windows t) s w')).
  assert (Hi1 : st_inv win tr now t1) by (eapply st_inv_set; [by eapply st_inv_later|done|done]).
  assert (Hk1 : dkeys (st_windows t1) = dkeys (st_windows t)) by (apply dkeys_set_in, dget_is_Some; eauto).
  assert (Hsame : ∀ p now', p ∈ pairs → wait_in t1 p now' = wait_in t p now').
  { intros [s' k'] now' Hp. unfold wait_in, t1. cbn [st_windows fst snd]. rewrite dget_set, decide_False; [done|].
    intros ->. apply Hs. apply list_elem_of_fmap. by exists (s', k'). }
  destruct (IH (worse worst s (wait_of w k now)) t1 now Hi1) as (t' & Hl & Hi' & Hk' & Hfr & Hw'); [lia|done| |].
  { intros s' Hs'. rewrite Hk1. apply Hin. set_solver. }
  exists t'. split; [|split; [done|split; [by rewrite Hk'|split]]].
  - simpl. unfold mbind, m_bind, on_window. rewrite Hw, Hsu. fold t1. rewrite Hl. f_equal. f_equal.
    assert (Hw0 : wait_in t (s, k) now = wait_of w k now) by (unfold wait_in; cbn [fst snd]; by rewrite Hw).
    rewrite Hw0. generalize (worse worst s (wait_of w k now)). clear -Hsame.
    induction pairs as [|p pairs IHp]; intros acc; [done|]. simpl. rewrite Hsame by set_solver. apply IHp. set_solver.
  - intros s' Hs'. rewrite Hfr by set_solver. unfold t1. cbn [st_windows]. rewrite dget_set_ne; set_solver.
  - intros p now' [->|Hp]%elem_of_cons Hn; [|by rewrite Hw', Hsame].
    unfold wait_in. cbn [fst snd]. rewrite Hfr by done. unfold t1. cbn [st_windows]. rewrite dget_set_eq, Hw. auto.
Qed.

(** The longest wait wins. *)
Lemma worse_fold (f : LockoutScope * Hashable → Z) pairs : ∀ worst,
  (∀ p, p ∈ pairs → 0 ≤ f p) →
  match foldl (λ acc p, worse acc p.1 (f p)) worst pairs with
  | None => worst = None ∧ ∀ p, p ∈ pairs → f p = 0
  | Some l => (∀ p, p ∈ pairs → f p ≤ lo_retry_after_seconds l ∨ f p = 0) ∧
      (∀ l0, worst = Some l0 → lo_retry_after_seconds l0 ≤ lo_retry_after_seconds l) ∧
      (worst = Some l ∨ ∃ p, p ∈ pairs ∧ f p = lo_retry_after_seconds l ∧ f p ≠ 0)
  end.
Proof.
  induction pairs as [|p pairs IH]; intros worst Hpos; simpl.
  { destruct worst as [l|]; [|set_solver]. split; [set_solver|]. split; [|by left]. intros l0 [= <-]. lia. }
  assert (Hp : 0 ≤ f p) by (apply Hpos; set_solver). specialize (IH (worse worst p.1 (f p))).
  assert (Hpos' : ∀ q, q ∈ pairs → 0 ≤ f q) by (intros; apply Hpos; set_solver). specialize (IH Hpos'). revert IH.
  set (acc := worse worst p.1 (f p)). assert (Hacc : acc = worse worst p.1 (f p)) by done. clearbody acc.
  unfold worse in Hacc. destruct (foldl _ _ _) as [l|]; destruct (f p =? 0) eqn:Hz; bool_prop; cbn [negb andb] in Hacc.
  - subst acc. intros (H1 & H2 & H3). split; [|split; [done|]].
    + intros q [->|Hq]%elem_of_cons; auto.
    + destruct H3 as [|(q & ? & ?)]; [by left|right; exists q; set_solver].
  - destruct worst as [l0|]; [destruct (lo_retry_after_seconds l0 <? f p) eqn:Hlt; bool_prop|]; subst acc; intros (H1 & H2 & H3).
    + specialize (H2 _ eq_refl). cbn in H2. split; [|split].
      * intros q [->|Hq]%elem_of_cons; [left; lia|auto].
      * intros ? [= <-]. lia.
      * right. destruct H3 as [[= <-]|(q & ? & ?)]; [exists p; split; [set_solver|done]|exists q; set_solver].
    + specialize (H2 _ eq_refl) as H2'. split; [|split; [done|]].
      * intros q [->|Hq]%elem_of_cons; [left; lia|auto].
      * destruct H3 as [|(q & ? & ?)]; [by left|right; exists q; set_solver].
    + specialize (H2 _ eq_refl). cbn in H2. split; [|split; [done|]].
      * intros q [->|Hq]%elem_of_cons; [left; lia|auto].
      * right. destruct H3 as [[= <-]|(q & ? & ?)]; [exists p; split; [set_solver|done]|exists q; set_solver].
  - subst acc. intros [-> H2]. split; [done|]. intros q [->|Hq]%elem_of_cons; auto.
  - intros [-> _]. destruct worst as [l0|]; [destruct (_ <? _)|]; done.
Qed.

Lemma scoped_keys_wf t keys : dwf keys →
  NoDup (scoped_keys t keys).*1 ∧ ∀ s, s ∈ (scoped_keys t keys).*1 → s ∈ dkeys (st_windows t).
Proof.
  intros Hwf. unfold scoped_keys. rewrite fmap_app. split.
  - apply NoDup_app. split; [|split].
    + eapply sublist_NoDup; [exact Hwf|]. apply fmap_sublist, sublist_filter.
    + intros s ([s' k] & -> & [[_ Hs] _]%list_elem_of_filter)%list_elem_of_fmap.
      case_match; simpl; set_solver.
    + case_match; repeat constructor; set_solver.
  - intros s [([s' k] & -> & [[Hs _] _]%list_elem_of_filter)%list_elem_of_fmap|Hs]%elem_of_app.
    + by apply dget_is_Some, dmem_true.
    + destruct (dmem (st_windows t) SCOPE_GLOBAL) eqn:Hg; [|set_solver].
      simpl in Hs. apply list_elem_of_singleton in Hs as ->. by apply dget_is_Some, dmem_true.
Qed.

Lemma record_loop_inv win tr now : 0 < tr → ∀ pairs t last,
  st_inv win tr last t → last ≤ now → (∀ s, s ∈ pairs.*1 → s ∈ dkeys (st_windows t)) →
  ∃ newly t', record_loop pairs now t = (Ok newly, t') ∧ st_inv win tr now t' ∧
    dkeys (st_windows t') = dkeys (st_windows t).
Proof.
  intros Htr. induction pairs as [|[s k] pairs IH]; intros t last Hinv Hnow Hin.
  { exists [], t. split; [done|]. split; [by eapply st_inv_later|done]. }
  rewrite fmap_cons in Hin.
  assert (Hsk : s ∈ dkeys (st_windows t)) by (apply Hin; set_solver).
  apply dget_is_Some in Hsk as [w Hw]. destruct (proj2 Hinv s w Hw) as (mx & h & Hmx & Hfw).
  destruct (record_failure_spec mx win tr w false last h k now) as (b & w' & Hr & Hfw' & _); auto; [done|].
  set (t1 := mk_scoped (dset (st_windows t) s w')).
  assert (Hi1 : st_inv win tr now t1) by (eapply st_inv_set; [by eapply st_inv_later|done|done]).
  assert (Hk1 : dkeys (st_windows t1) = dkeys (st_windows t)) by (apply dkeys_set_in, dget_is_Some; eauto).
  destruct (IH t1 now Hi1) as (rest & t' & Hl & Hi' & Hk'); [lia| |].
  { intros s' Hs'. rewrite Hk1. apply Hin. set_solver. }
  eexists _, t'. split; [|split; [done|by rewrite Hk']].
  simpl. unfold mbind, m_bind, on_window. rewrite Hw, Hr. fold t1. by rewrite Hl.
Qed.

Lemma new_scoped_windows limits win tr :
  dkeys (st_windows (new_scoped limits win tr)) = dkeys limits.
Proof. unfold new_scoped, dkeys. cbn [st_windows]. by rewrite <- list_fmap_compose. Qed.

Lemma st_reach_inv win tr last t : 0 < tr → st_reach win tr last t → st_inv win tr last t.
Proof.
  intros Htr. induction 1 as [limits from Hwf Hpos|last now keys t Hr IH Hnow Hwf|last now keys t Hr IH Hnow Hwf|last s k t Hr IH].
  - split; [unfold dwf; by rewrite new_scoped_windows|]. intros s w Hs%dget_Some_elem.
    unfold new_scoped in Hs. cbn [st_windows] in Hs. apply list_elem_of_fmap in Hs as ([s' mx] & [= -> ->] & Hin).
    rewrite Forall_forall in Hpos. specialize (Hpos _ Hin). cbn in Hpos. exists mx, (λ _, []). split; [done|].
    by apply new_window_inv.
  - destruct (scoped_keys_wf t keys Hwf) as [Hnd Hin].
    destruct (lockout_loop_spec win tr now (scoped_keys t keys) None t last IH Hnow Hnd Hin) as (t' & Hl & Hi & _).
    unfold lockout, mbind, m_bind, mget. by rewrite Hl.
  - destruct (scoped_keys_wf t keys Hwf) as [_ Hin].
    destruct (record_loop_inv win tr now Htr (scoped_keys t keys) t last IH Hnow Hin) as (n & t' & Hl & Hi & _).
    unfold scoped_record_failure, mbind, m_bind, mget. by rewrite Hl.
  - unfold scoped_clear, on_window. destruct (_ && _); [|done].
    destruct (dget (st_windows t) s) as [w|] eqn:Hw; [|done]. destruct (proj2 IH s w Hw) as (mx & h & Hmx & Hfw).
    destruct (clear_spec mx win tr w false last h k) as [Hi _]; [lia|done|].
    destruct (clear k w) as [r w']. cbn [snd] in *. eapply st_inv_set; eauto.
Qed.

Lemma scoped_keys_same t t' keys :
  dkeys (st_windows t') = dkeys (st_windows t) → scoped_keys t' keys = scoped_keys t keys.
Proof.
  intros Hk. assert (Hm : ∀ s, dmem (st_windows t') s = dmem (st_windows t) s).
  { intros s. apply eq_true_iff_eq. by rewrite !dmem_true, !dget_is_Some, Hk. }
  unfold scoped_keys. rewrite Hm. f_equal. apply list_filter_iff_in. intros x _. by rewrite Hm.
Qed.

Lemma lockout_spec win tr last now keys t :
  0 < tr → st_reach win tr last t → last ≤ now → dwf keys →
  ∃ t', lockout keys now t = (Ok (foldl (λ acc p, worse acc p.1 (wait_in t p now)) None (scoped_keys t keys)), t') ∧
    st_inv win tr last t ∧ st_reach win tr now t' ∧ scoped_keys t' keys = scoped_keys t keys ∧
    (∀ p now', p ∈ scoped_keys t keys → now ≤ now' → wait_in t' p now' = wait_in t p now').
Proof.
  intros Htr Hr Hnow Hwf. pose proof (st_reach_inv _ _ _ _ Htr Hr) as Hinv.
  destruct (scoped_keys_wf t keys Hwf) as [Hnd Hin].
  destruct (lockout_loop_spec win tr now _ None t last Hinv Hnow Hnd Hin) as (t' & Hl & _ & Hk & _ & Hw).
  assert (Hlo : lockout keys now t = (Ok (foldl (λ acc p, worse acc p.1 (wait_in t p now)) None (scoped_keys t keys)), t'))
    by (unfold lockout, mbind, m_bind, mget; exact Hl).
  exists t'. split; [done|]. split; [done|]. split; [|split; [by apply scoped_keys_same|done]].
  replace t' with (lockout keys now t).2 by (by rewrite Hlo). by apply (reach_lockout win tr last).
Qed.

Lemma wait_in_bounds win tr last now t p : 0 < win → st_inv win tr last t → last ≤ now →
  (0 ≤ wait_in t p now ≤ win) ∧
  (∀ now', now ≤ now' → now' ≤ now + seconds (wait_in t p now - 1) → wait_in t p now' ≠ 0) ∧
  (∀ now', now + seconds (wait_in t p now) ≤ now' → wait_in t p now' = 0).
Proof.
  intros Hwin [_ Hall] Hnow. unfold wait_in. destruct (dget (st_windows t) p.1) as [w|] eqn:Hw.
  - destruct (Hall _ _ Hw) as (mx & h & Hmx & Hfw).
    destruct (wait_of_bounds mx win tr Hmx w false last h p.2 now Hfw Hnow Hwin) as [Hb Hl].
    split; [done|]. split; [done|]. intros now' Hn. by eapply (wait_of_expires mx).
  - split; [lia|]. split; [|done]. intros. unfold seconds, us_per_second in *. lia.
Qed.

(** C35: [Retry-After] is exact while nothing else happens.  In any throttle
    built with positive limits and then used under a clock that does not step
    back, an attempt is always answered; a refused client is told a wait
    between one second and the window's length; and as long as no further
    failure or success is recorded, of any client, it is still refused at any
    earlier whole second, and let in once it has waited that long. *)
Theorem waiting_as_told_unlocks win tr last now keys t :
  0 < win → 0 < tr → st_reach win tr last t → last ≤ now → dwf keys →
  ∃ answer t', lockout keys now t = (Ok answer, t') ∧
    match answer with
    | None => True
    | Some l =>
        1 ≤ lo_retry_after_seconds l ≤ win ∧
        (∀ now', now ≤ now' → now' ≤ now + seconds (lo_retry_after_seconds l - 1) →
           ∃ l', (lockout keys now' t').1 = Ok (Some l')) ∧
        (∀ now', now + seconds (lo_retry_after_seconds l) ≤ now' → (lockout keys now' t').1 = Ok None)
    end.
Proof.
  intros Hwin Htr Hreach Hnow Hwf.
  destruct (lockout_spec win tr last now keys t) as (t' & Hl & Hinv & Hr' & Hsk & Hw); auto.
  eexists _, t'. split; [exact Hl|].
  pose proof (λ p, wait_in_bounds win tr last now t p Hwin Hinv Hnow) as Hb.
  pose proof (worse_fold (λ p, wait_in t p now) (scoped_keys t keys) None) as Hfold.
  destruct (foldl _ _ _) as [l|]; [|done].
  destruct Hfold as (Hmax & _ & [?|(p & Hp & Hpl & Hp0)]); [intros p _; destruct (Hb p) as [? _]; lia|done|].
  destruct (Hb p) as (Hr & Hearly & _). split; [lia|].
  assert (Hlater : ∀ now', now ≤ now' → (lockout keys now' t').1 =
            Ok (foldl (λ acc p, worse acc p.1 (wait_in t' p now')) None (scoped_keys t keys))).
  { intros now' Hn. destruct (lockout_spec win tr now now' keys t') as (t2 & Hl2 & _); auto. by rewrite Hl2, Hsk. }
  split; intros now' Hn'.
  - intros Hn2. rewrite Hlater by done.
    pose proof (worse_fold (λ p, wait_in t' p now') (scoped_keys t keys) None) as Hf2.
    destruct (foldl _ _ _) as [l'|]; [by exists l'|]. exfalso.
    destruct Hf2 as [_ Hz]; [intros q Hq; rewrite Hw by done; destruct (wait_in_bounds win tr last now' t q Hwin Hinv); lia|].
    specialize (Hz p Hp). rewrite Hw in Hz by done. revert Hz. apply Hearly; [done|]. by rewrite Hpl.
  - assert (Hn2 : now ≤ now') by (unfold seconds, us_per_second in *; lia). rewrite Hlater by done.
    pose proof (worse_fold (λ p, wait_in t' p now') (scoped_keys t keys) None) as Hf2.
    destruct (foldl _ _ _) as [l'|]; [|done]. exfalso.
    destruct Hf2 as (_ & _ & [?|(q & Hq & _ & Hq0)]);
      [intros q Hq; rewrite Hw by done; destruct (wait_in_bounds win tr last now' t q Hwin Hinv); lia|done|].
    apply Hq0. rewrite Hw by done. destruct (Hb q) as (Hqr & _ & Hexp). apply Hexp.
    destruct (Hmax q Hq) as [|Hz]; [unfold seconds, us_per_second in *; lia|]. rewrite Hz. unfold seconds. lia.
Qed.

Lemma waiting_as_told_unlocks_witness :
  let keys := [(SCOPE_SOURCE, KText "10.0.0.2")] in
  let t := (scoped_record_failure keys 0 (new_scoped [(SCOPE_SOURCE, 1); (SCOPE_GLOBAL, 2)] 60 4)).2 in
  ∃ answer t', lockout keys 1 t = (Ok answer, t') ∧
    match answer with
    | None => True
    | Some l =>
        1 ≤ lo_retry_after_seconds l ≤ 60 ∧
        (∀ now', 1 ≤ now' → now' ≤ 1 + seconds (lo_retry_after_seconds l - 1) →
           ∃ l', (lockout keys now' t').1 = Ok (Some l')) ∧
        (∀ now', 1 + seconds (lo_retry_after_seconds l) ≤ now' → (lockout keys now' t').1 = Ok None)
    end.
Proof.
  apply (waiting_as_told_unlocks 60 4 0); [lia|lia| |lia|unfold dwf; cbn; apply NoDup_singleton].
  apply (reach_record _ _ 0); [|lia|unfold dwf; cbn; apply NoDup_singleton].
  apply reach_new; [|repeat constructor]. unfold dwf. cbn. apply NoDup_cons. split; [set_solver|apply NoDup_singleton].
Defined.

(** ** The admin throttle (api/throttle.py) *)

Record AuthenticationConfig : Type := mk_auth_config {
  ac_max_failed_logins_per_ip : Z;
  ac_max_failed_logins_global : Z;
  ac_failed_login_window_seconds : Z;
}.

Definition DEFAULT_MAX_TRACKED_KEYS : Z := 4096.

Definition AdminLoginThrottle : Type := ScopedThrottle.

Definition new_admin_throttle (c : AuthenticationConfig) : AdminLoginThrottle :=
  new_scoped [(SCOPE_SOURCE, ac_max_failed_logins_per_ip c); (SCOPE_GLOBAL, ac_max_failed_logins_global c)]
    (ac_failed_login_window_seconds c) DEFAULT_MAX_TRACKED_KEYS.

Definition _UNKNOWN_CLIENT : string := "unknown".

(** [_key]: the empty string is falsy. *)
Definition admin_key (client_host : option string) : Hashable :=
  KText (match client_host with
         | Some h => if String.eqb h "" then _UNKNOWN_CLIENT else h
         | None => _UNKNOWN_CLIENT
         end).

Definition admin_lockout (client_host : option string) (now : Z) : M AdminLoginThrottle (option Lockout) :=
  lockout [(SCOPE_SOURCE, admin_key client_host)] now.
Definition admin_record_failure (client_host : option string) (now : Z) : M AdminLoginThrottle (list LockoutScope) :=
  scoped_record_failure [(SCOPE_SOURCE, admin_key client_host)] now.
Definition admin_clear (client_host : option string) : M AdminLoginThrottle unit :=
  scoped_clear SCOPE_SOURCE (admin_key client_host).

(** [str(n)] for an integer *)
Definition str_Z (n : Z) : string := pretty n.

Definition refuse_if_locked_out (client_host : option string) (now : Z) : M AdminLoginThrottle unit :=
  l ← admin_lockout client_host now;
  match l with
  | None => mret tt
  | Some l =>
      let n := str_Z (lo_retry_after_seconds l) in
      mraise (HTTPException 429 ("too many failed attempts; try again in " +:+ n +:+ " seconds")
                [("Retry-After", n)])
  end.

Definition _failure_event (now : Z) (reason : string) : SecurityEvent :=
  mk_event now SEV_WARNING AUTHENTICATION_FAILURE "api.auth" None None None (Some reason).

(** The client's [record_event] is an RPC call: it may raise, and what was
    counted before it stays counted. *)
Section AdminRpc.
Context {R : Type} (record_event : SecurityEvent → M R unit).

Definition on_throttle {A} (m : M AdminLoginThrottle A) : M (AdminLoginThrottle * R) A := λ s,
  let '(r, t) := m s.1 in (r, (t, s.2)).
Definition on_rpc {A} (m : M R A) : M (AdminLoginThrottle * R) A := λ s,
  let '(r, c) := m s.2 in (r, (s.1, c)).

(** [f"... {client_host}"] prints None as Python does. *)
Definition host_text (client_host : option string) : string := default "None" client_host.

Definition record_failed_authentication (client_host : option string) (now : Z) (reason : string)
  : M (AdminLoginThrottle * R) unit :=
  newly ← on_throttle (admin_record_failure client_host now);
  _ ← on_rpc (record_event (_failure_event now reason));
  mfold_unit (λ scope, on_rpc (record_event (_failure_event now
    ("admin login lockout started (" +:+ scope_value scope +:+ ") after a failure from " +:+ host_text client_host)))) newly.
End AdminRpc.

(** ** The portal throttle ([LoginThrottle] of portal/sessions.py) *)

Section PortalThrottle.
(** [str.casefold] *)
Context (casefold : string → string).

Definition LoginThrottle : Type := ScopedThrottle.

Definition new_login_throttle (max_failures window_seconds max_tracked_sources : Z)
  (max_failures_per_account max_failures_global : option Z) : LoginThrottle :=
  new_scoped ([(SCOPE_SOURCE, max_failures)] ++
      match max_failures_per_account with Some n => [(SCOPE_ACCOUNT, n)] | None => [] end ++
      match max_failures_global with Some n => [(SCOPE_GLOBAL, n)] | None => [] end)
    window_seconds max_tracked_sources.

Definition _MAX_USERNAME_KEY_LENGTH : nat := 64.
Definition _account_key (username : string) : Hashable :=
  KText (String.substring 0 _MAX_USERNAME_KEY_LENGTH (casefold username)).

Definition portal_keys (client_ip : IPv4.t) (username : option string) : list (LockoutScope * Hashable) :=
  (SCOPE_SOURCE, KAddr client_ip) ::
  match username with Some u => [(SCOPE_ACCOUNT, _account_key u)] | None => [] end.

Definition portal_lockout (client_ip : IPv4.t) (username : option string) (now : Z) : M LoginThrottle (option Lockout) :=
  lockout (portal_keys client_ip username) now.
Definition portal_is_locked_out (client_ip : IPv4.t) (now : Z) : M LoginThrottle bool :=
  l ← portal_lockout client_ip None now; mret (match l with Some _ => true | None => false end).
Definition portal_seconds_until_unlocked (client_ip : IPv4.t) (now : Z) : M LoginThrottle Z :=
  l ← portal_lockout client_ip None now; mret (match l with Some l => lo_retry_after_seconds l | None => 0 end).
Definition portal_record_failure (client_ip : IPv4.t) (now : Z) (username : option string)
  : M LoginThrottle (list LockoutScope) :=
  scoped_record_failure (portal_keys client_ip username) now.
Definition portal_clear (client_ip : IPv4.t) (username : option string) : M LoginThrottle unit :=
  _ ← scoped_clear SCOPE_SOURCE (KAddr client_ip);
  match username with
  | Some u => scoped_clear SCOPE_ACCOUNT (_account_key u)
  | None => mret tt
  end.
End PortalThrottle.

(** A success never resets the global count. *)
Lemma scoped_clear_global t s k :
  dget (st_windows (scoped_clear s k t).2) SCOPE_GLOBAL = dget (st_windows t) SCOPE_GLOBAL.
Proof.
  unfold scoped_clear, on_window. destruct (_ && _) eqn:Hs; [|done]. apply andb_true_iff in Hs as [_ Hs].
  apply bool_decide_eq_true in Hs. destruct (dget (st_windows t) s); [|done]. destruct (clear k _) as [r w'].
  cbn [snd st_windows]. by apply dget_set_ne.
Qed.
