(* ===== verification/Templates.v ===== *)
(** * Rendering the kernel's templates (scripts/deployment/render_templates.py)

    The templates the tables are loaded from, with their [${TOKEN}]s replaced
    by configuration values.  A text is a list of characters.  The directories
    are their templates, with name and text, in name order. *)

From S2P Require Import Prelude Float Net Models RateLimiter Sets Validator Throttle.
Local Open Scope Z_scope.

(** ** Tokens *)

(** The regular expression [\$\{([A-Z0-9_]+)\}] *)
Definition token_char (c : ascii) : bool :=
  let n := nat_of_ascii c in
  ((65 <=? n)%nat && (n <=? 90)%nat) || ((48 <=? n)%nat && (n <=? 57)%nat) || bool_decide (c = "_"%char).
(** A name up to the closing brace, and what follows it *)
Fixpoint token_name (l : list ascii) : option (list ascii * list ascii) :=
  match l with
  | [] => None
  | c :: l' =>
      if decide (c = "}"%char) then Some ([], l')
      else if token_char c then '(name, rest) ← token_name l'; Some (c :: name, rest) else None
  end.
Definition token_at (l : list ascii) : option (list ascii * list ascii) :=
  match l with
  | a :: b :: l' =>
      if bool_decide (a = "$"%char) && bool_decide (b = "{"%char)
      then match token_name l' with Some ((_ :: _) as name, rest) => Some (name, rest) | _ => None end
      else None
  | _ => None
  end.

Inductive segment := Literal (c : ascii) | Token (name : string).
(** The matches of the expression, from left to right, and the text between
    them; the text itself is fuel enough. *)
Fixpoint scan (fuel : nat) (l : list ascii) : list segment :=
  match fuel, l with
  | O, _ | _, [] => []
  | S fuel, c :: l' =>
      match token_at l with
      | Some (name, rest) => Token (string_of_list name) :: scan fuel rest
      | None => Literal c :: scan fuel l'
      end
  end.
Definition segments (text : string) : list segment := scan (String.length text) (string_to_list text).
(** [_TOKEN.findall] *)
Definition tokens (text : string) : list string := omap (λ s, match s with Token name => Some name | Literal _ => None end) (segments text).

(** ** Values *)

Record MeterSetting : Type := mk_meter { mt_rate : Z; mt_burst : Z }.
Record GuardsConfig : Type := mk_guards {
  gc_raw_mode : GuardMode; gc_input_mode : GuardMode; gc_forward_mode : GuardMode;
  gc_dhcp_per_minute : MeterSetting; gc_unbound : MeterSetting; gc_syn : MeterSetting; gc_icmp : MeterSetting; gc_udp_local : MeterSetting;
  gc_local_pps : MeterSetting; gc_dns : MeterSetting; gc_closed_port : MeterSetting; gc_newconn : MeterSetting; gc_newconn_dst : MeterSetting;
  gc_udp_fwd : MeterSetting; gc_global_unbound : MeterSetting; gc_global_syn : MeterSetting; gc_global_icmp : MeterSetting;
  gc_global_udp_local : MeterSetting; gc_global_newconn : MeterSetting;
  gc_portal_concurrency : Z;
  gc_ratelimit : MeterSetting;
  gc_binding_set_size : Z; gc_meter_set_size : Z; gc_pair_meter_set_size : Z; gc_offender_set_size : Z; gc_adaptive_set_size : Z;
}.
(** The fields of the configuration the templates use *)
Record TemplateConfig : Type := mk_template_config {
  tc_config : PirewallConfig;
  tc_wan_interface : string;
  tc_lan_interface : string;
  tc_admin_interface : option string;
  tc_api_port : Z;
  tc_portal_port : Z;
  tc_guards : GuardsConfig;
}.

Definition _METER_VARIABLES : list ((GuardsConfig → MeterSetting) * string * string) :=
  [(gc_dhcp_per_minute, "DHCP_PER_MINUTE", "DHCP_BURST"); (gc_unbound, "UNBOUND_PPS", "UNBOUND_BURST"); (gc_syn, "SYN_PPS", "SYN_BURST");
   (gc_icmp, "ICMP_PPS", "ICMP_BURST"); (gc_udp_local, "UDP_LOCAL_PPS", "UDP_LOCAL_BURST"); (gc_local_pps, "LOCAL_PPS", "LOCAL_BURST");
   (gc_dns, "DNS_QPS", "DNS_BURST"); (gc_closed_port, "CLOSED_PPS", "CLOSED_BURST"); (gc_newconn, "NEWCONN_PPS", "NEWCONN_BURST");
   (gc_newconn_dst, "NEWCONN_DST_PPS", "NEWCONN_DST_BURST"); (gc_udp_fwd, "UDP_FWD_PPS", "UDP_FWD_BURST");
   (gc_global_unbound, "GLOBAL_UNBOUND_PPS", "GLOBAL_UNBOUND_BURST"); (gc_global_syn, "GLOBAL_SYN_PPS", "GLOBAL_SYN_BURST");
   (gc_global_icmp, "GLOBAL_ICMP_PPS", "GLOBAL_ICMP_BURST"); (gc_global_udp_local, "GLOBAL_UDP_LOCAL_PPS", "GLOBAL_UDP_LOCAL_BURST");
   (gc_global_newconn, "GLOBAL_NEWCONN_PPS", "GLOBAL_NEWCONN_BURST"); (gc_ratelimit, "RATELIMIT_PPS", "RATELIMIT_BURST")].

Definition verdict (mode : GuardMode) : string := match mode with ENFORCE => "drop" | OBSERVE => "" end.

(** [sorted({...})] *)
Definition infra4_addresses (c : PirewallConfig) : list IPv4.t :=
  py_sorted Z.leb (dedup [c_pirewall_lan_ip c; c_upstream_gateway c; c_admin_pc_ip c]).
Definition infra4_elements (c : PirewallConfig) : string := String.concat ", " (IPv4.to_string <$> infra4_addresses c).

Definition _guard_values (g : GuardsConfig) : list (string * string) :=
  let meters := _METER_VARIABLES ≫= λ m, [(m.1.2, str_Z (mt_rate (m.1.1 g))); (m.2, str_Z (mt_burst (m.1.1 g)))] in
  dupdate (dupdate [] meters)
    [("PORTAL_CONCURRENCY", str_Z (gc_portal_concurrency g)); ("BINDING_SIZE", str_Z (gc_binding_set_size g));
     ("METER_SIZE", str_Z (gc_meter_set_size g)); ("PAIR_METER_SIZE", str_Z (gc_pair_meter_set_size g));
     ("OFFENDER_SIZE", str_Z (gc_offender_set_size g)); ("ADAPTIVE_SIZE", str_Z (gc_adaptive_set_size g));
     ("RAW_VERDICT", verdict (gc_raw_mode g)); ("INPUT_VERDICT", verdict (gc_input_mode g)); ("FORWARD_VERDICT", verdict (gc_forward_mode g))].

Definition net_text (n : IPv4.network) : string := IPv4.to_string (IPv4.net_addr n) +:+ "/" +:+ str_Z (IPv4.prefixlen n).
Definition substitution_mapping (t : TemplateConfig) : list (string * option string) :=
  let c := tc_config t in
  dupdate
    [("WAN_INTERFACE", Some (tc_wan_interface t)); ("LAN_INTERFACE", Some (tc_lan_interface t)); ("ADMIN_INTERFACE", tc_admin_interface t);
     ("PROTECTED_NETWORK", Some (net_text (c_protected_network c))); ("LAN_BROADCAST", Some (IPv4.to_string (IPv4.broadcast (c_protected_network c))));
     ("UPSTREAM_GATEWAY", Some (IPv4.to_string (c_upstream_gateway c))); ("ADMIN_PC_IP", Some (IPv4.to_string (c_admin_pc_ip c)));
     ("ADMIN_PC_MAC", c_admin_pc_mac c); ("API_PORT", Some (str_Z (tc_api_port t))); ("PIREWALL_LAN_IP", Some (IPv4.to_string (c_pirewall_lan_ip c)));
     ("PORTAL_PORT", Some (str_Z (tc_portal_port t))); ("INFRA4_ELEMENTS", Some (infra4_elements c))]
    ((λ p : string * string, (p.1, Some p.2)) <$> _guard_values (tc_guards t)).
(** [mapping.get(name)] *)
Definition value_of (mapping : list (string * option string)) (name : string) : option string := default None (dget mapping name).

(** ** Rendering *)

Definition missing_tokens (text : string) (mapping : list (string * option string)) : list string :=
  py_sorted String.leb (dedup (filter (λ name, value_of mapping name = None) (tokens text))).
Definition substituted (mapping : list (string * option string)) (s : segment) : list ascii :=
  match s with Literal c => [c] | Token name => string_to_list (default "" (value_of mapping name)) end.
Definition render_template (text : string) (t : TemplateConfig) : result string :=
  let mapping := substitution_mapping t in
  match missing_tokens text mapping with
  | [] => Ok (string_of_list (segments text ≫= substituted mapping))
  | missing => Raise (ConfigurationError ("missing template values: " +:+ String.concat ", " missing))
  end.

Definition _TEMPLATE_DIRS : list string := ["deploy/network"; "deploy/firewall"].
Record template : Type := mk_template { te_path : string; te_name : string; te_text : string }.

Definition line_feed : string := String (ascii_of_nat 10) "".
(** The loop over the templates: what was rendered, and the problems *)
Definition render_step (t : TemplateConfig) (acc : list (string * string) * list string) (x : template) : list (string * string) * list string :=
  match render_template (te_text x) t with
  | Ok text => (acc.1 ++ [(te_name x, text)], acc.2)
  | Raise (ConfigurationError msg) => (acc.1, acc.2 ++ [te_path x +:+ ": " +:+ msg])
  | Raise _ => acc
  end.
(** [None] is a directory that is not there; the result is what was written. *)
Definition render_all (t : TemplateConfig) (dirs : list (option (list template))) : result (list (string * string)) :=
  let '(rendered, problems) := foldl (render_step t) ([], []) (dirs ≫= default []) in
  match problems with
  | [] => Ok rendered
  | _ => Raise (ConfigurationError ("refusing to render:" +:+ line_feed +:+ String.concat line_feed ((λ p, "  - " +:+ p) <$> problems)))
  end.

(** ** Nothing of a template is lost *)

Definition source (s : segment) : list ascii :=
  match s with Literal c => [c] | Token name => "$"%char :: "{"%char :: string_to_list name ++ ["}"%char] end.

Lemma token_name_source l name rest : token_name l = Some (name, rest) → l = name ++ "}"%char :: rest.
Proof.
  revert name. induction l as [|c l IH]; intros name; [done|]. cbn [token_name]. case_decide as Hc; [by intros [= <- ->]; subst c|].
  destruct (token_char c); [|done]. destruct (token_name l) as [[n r]|]; [|done]. cbn. intros [= <- ->]. by rewrite (IH n eq_refl).
Qed.
Lemma token_at_source l name rest : token_at l = Some (name, rest) → l = "$"%char :: "{"%char :: name ++ "}"%char :: rest ∧ name ≠ [].
Proof.
  unfold token_at. destruct l as [|a [|b l]]; [done|done|]. case_bool_decide as Ha; [|done]. case_bool_decide as Hb; [|done]. subst a b. cbn [andb].
  destruct (token_name l) as [[[|c n] r]|] eqn:Hn; [done| |done]. intros Heq. injection Heq as Hnm Hrs. subst name rest. apply token_name_source in Hn as ->. split; [reflexivity|discriminate].
Qed.

Lemma scan_source fuel l : (length l ≤ fuel)%nat → scan fuel l ≫= source = l.
Proof.
  revert l. induction fuel as [|fuel IH]; intros [|c l] Hl; cbn [length] in Hl; try lia; [done|done|]. cbn [scan].
  destruct (token_at (c :: l)) as [[name rest]|] eqn:Ht.
  - apply token_at_source in Ht as [Hcl _]. rewrite bind_cons, Hcl, IH.
    + cbn [source]. rewrite string_to_of_list. cbn [app]. by rewrite <- app_assoc.
    + apply (f_equal length) in Hcl. cbn [length] in Hcl. rewrite length_app in Hcl. cbn [length] in Hcl. lia.
  - rewrite bind_cons, IH by lia. done.
Qed.

Lemma length_string_list s : String.length s = length (string_to_list s).
Proof. induction s as [|c s IH]; [done|]. cbn. by f_equal. Qed.
(** Read back, the segments are the text. *)
Lemma segments_source text : segments text ≫= source = string_to_list text.
Proof. unfold segments. apply scan_source. by rewrite length_string_list. Qed.

(** ** What is refused *)

Lemma missing_nil text mapping : missing_tokens text mapping = [] ↔ Forall (λ name, is_Some (value_of mapping name)) (tokens text).
Proof.
  unfold missing_tokens. split.
  - intros Hm. apply Forall_forall. intros name Hn. destruct (value_of mapping name) as [v|] eqn:Hv; [by eexists|].
    assert (Hin : name ∈ py_sorted String.leb (dedup (filter (λ name, value_of mapping name = None) (tokens text)))).
    { by rewrite elem_of_py_sorted, elem_of_dedup, list_elem_of_filter. }
    rewrite Hm in Hin. by apply elem_of_nil in Hin.
  - intros Hall. rewrite filter_none; [done|]. intros name Hn Hv. rewrite Forall_forall in Hall. destruct (Hall name Hn) as [v Hv']. congruence.
Qed.

(** The rendering of a text all of whose tokens have values *)
Definition rendering (t : TemplateConfig) (text : string) : string := string_of_list (segments text ≫= substituted (substitution_mapping t)).
Definition complete (t : TemplateConfig) (text : string) : Prop := Forall (λ name, is_Some (value_of (substitution_mapping t) name)) (tokens text).

Lemma render_complete t text : complete t text → render_template text t = Ok (rendering t text).
Proof. intros Hc. unfold render_template. by rewrite (proj2 (missing_nil _ _) Hc). Qed.
Lemma render_incomplete t text : ¬ complete t text →
  render_template text t = Raise (ConfigurationError ("missing template values: " +:+ String.concat ", " (missing_tokens text (substitution_mapping t)))).
Proof. intros Hc. unfold render_template. destruct (missing_tokens _ _) eqn:Hm; [|done]. by apply missing_nil in Hm. Qed.
#[global] Instance complete_dec t text : Decision (complete t text).
Proof. unfold complete. apply _. Defined.

Definition problem (t : TemplateConfig) (x : template) : string :=
  te_path x +:+ ": missing template values: " +:+ String.concat ", " (missing_tokens (te_text x) (substitution_mapping t)).
Lemma render_steps t l : ∀ acc, foldl (render_step t) acc l =
  (acc.1 ++ ((λ x, (te_name x, rendering t (te_text x))) <$> filter (λ x, complete t (te_text x)) l),
   acc.2 ++ (problem t <$> filter (λ x, ¬ complete t (te_text x)) l)).
Proof.
  induction l as [|x l IH]; intros [out problems]; cbn [foldl]; [cbn; by rewrite !app_nil_r|]. rewrite IH, !filter_cons. unfold render_step.
  destruct (decide (complete t (te_text x))) as [Hc|Hc].
  - rewrite render_complete by done. rewrite (decide_False (P := ¬ _)) by tauto. cbn. by rewrite <- app_assoc.
  - rewrite render_incomplete by done. rewrite (decide_True (P := ¬ _)) by done. cbn. by rewrite <- app_assoc.
Qed.

(** rendering refuses rather than guessing.  When every token of every
    template has a value, each template is written, whole, with each token
    replaced by its value and every other character kept; when some token has
    none, nothing is written and the error names every template concerned
    with every name it lacks. *)
Theorem rendering_is_all_or_nothing t dirs :
  let all := dirs ≫= default [] in
  (Forall (λ x, complete t (te_text x)) all → render_all t dirs = Ok ((λ x, (te_name x, rendering t (te_text x))) <$> all)) ∧
  (¬ Forall (λ x, complete t (te_text x)) all → ∃ msg, render_all t dirs = Raise (ConfigurationError msg) ∧
     msg = "refusing to render:" +:+ line_feed +:+ String.concat line_feed ((λ p, "  - " +:+ p) <$> (problem t <$> filter (λ x, ¬ complete t (te_text x)) all))) ∧
  Forall (λ x, segments (te_text x) ≫= source = string_to_list (te_text x)) all.
Proof.
  cbv zeta. set (all := dirs ≫= default []). unfold render_all. fold all. rewrite render_steps. cbn [fst snd app]. split; [|split].
  - intros Hall. rewrite Forall_forall in Hall. rewrite (filter_none (λ x, ¬ complete t (te_text x))) by (intros x Hx Hn; by apply Hn, Hall).
    cbn. by rewrite filter_all.
  - intros Hnot. destruct (filter (λ x, ¬ complete t (te_text x)) all) as [|y l] eqn:Hf.
    + exfalso. apply Hnot, Forall_forall. intros x Hx. destruct (decide (complete t (te_text x))) as [|Hn]; [done|].
      assert (Hin : x ∈ filter (λ x, ¬ complete t (te_text x)) all) by (by apply list_elem_of_filter). rewrite Hf in Hin. by apply elem_of_nil in Hin.
    + cbn [fmap list_fmap]. eexists. split; [reflexivity|done].
  - apply Forall_forall. intros x _. apply segments_source.
Qed.

(** ** Which values *)

(** Every meter variable has its setting, and every guard its verdict. *)
Lemma every_variable_has_its_setting t :
  Forall (λ m : (GuardsConfig → MeterSetting) * string * string,
    value_of (substitution_mapping t) m.1.2 = Some (str_Z (mt_rate (m.1.1 (tc_guards t)))) ∧
    value_of (substitution_mapping t) m.2 = Some (str_Z (mt_burst (m.1.1 (tc_guards t))))) _METER_VARIABLES ∧
  value_of (substitution_mapping t) "RAW_VERDICT" = Some (verdict (gc_raw_mode (tc_guards t))) ∧
  value_of (substitution_mapping t) "INPUT_VERDICT" = Some (verdict (gc_input_mode (tc_guards t))) ∧
  value_of (substitution_mapping t) "FORWARD_VERDICT" = Some (verdict (gc_forward_mode (tc_guards t))).
Proof.
  split; [|split; [|split]]; [|reflexivity..].
  unfold _METER_VARIABLES. repeat (apply Forall_cons; split; [split; reflexivity|]). by apply Forall_nil.
Qed.

(** The kernel's infrastructure list: the three addresses, each once, in
    order, and none of them can be the target of an approved v2 rule. *)
Theorem infra4_is_never_targeted (c : PirewallConfig) :
  NoDup (infra4_addresses c) ∧ StronglySorted (λ a b, Z.leb a b = true) (infra4_addresses c) ∧
  (∀ a, a ∈ infra4_addresses c ↔ a = c_pirewall_lan_ip c ∨ a = c_upstream_gateway c ∨ a = c_admin_pc_ip c) ∧
  (∀ (candidate : CandidateRule) target known active allowlist limiter now local, restrictive (rf_action candidate) = true →
     rt_ip target ∈ infra4_addresses c →
     so_approved (validate_set_candidate candidate (Some target) c known active allowlist limiter now local).1 = false).
Proof.
  assert (Hin : ∀ a, a ∈ infra4_addresses c ↔ a = c_pirewall_lan_ip c ∨ a = c_upstream_gateway c ∨ a = c_admin_pc_ip c).
  { intros a. unfold infra4_addresses. rewrite elem_of_py_sorted, elem_of_dedup. set_solver. }
  split; [unfold infra4_addresses; rewrite py_sorted_perm; apply NoDup_dedup|]. split.
  { apply (py_sorted_sorted _ (λ _, True)); [intros x y _ _; rewrite Z.leb_le, Z.leb_gt; lia|intros x y z _ _ _; rewrite !Z.leb_le; lia|by apply Forall_true]. }
  split; [done|]. intros candidate target known active allowlist limiter now local Hr Ht. apply not_true_iff_false. intros Happ.
  apply set_approved_stages in Happ as (t' & [= <-] & _ & _ & Hsafe & _). apply set_safety_None in Hsafe as (Hnot & _); [|done].
  apply Hnot. apply Hin in Ht. unfold infrastructure. set_solver.
Qed.
