(* ===== verification/PortalSessions.v ===== *)
(** * Captive-portal sessions ([PortalSessionRegistry] of portal/sessions.py)

    Sessions keyed by token, with an index from client address to token.  The
    invariant [reg_inv] says that every session is indexed by its own address,
    so an address never has two; it holds in every registry reachable by the
    methods, whatever tokens the callers supply. *)

From S2P Require Import Prelude Net Models.
Local Open Scope Z_scope.

(** [PortalSession] (core/models/portal.py) without its random id. *)
Record PortalSession : Type := mk_session {
  se_token : string;
  se_username : string;
  se_client_ip : IPv4.t;
  se_issued_at : Z;
  se_expires_at : Z;
  se_client_mac : option string;
}.

#[global] Instance PortalSession_eq_dec : EqDecision PortalSession.
Proof. solve_decision. Defined.

(** The field constraints its constructor checks: [min_length=1]. *)
Definition session_check (s : PortalSession) : result PortalSession :=
  if String.eqb (se_token s) "" || String.eqb (se_username s) ""
  then Raise (ValueError "String should have at least 1 character") else Ok s.

Record PortalSessionRegistry : Type := mk_registry {
  reg_token_expiry_seconds : Z;
  reg_max_sessions : Z;
  reg_by_token : list (string * PortalSession);
  reg_token_by_ip : list (IPv4.t * string);
}.

Definition new_registry (token_expiry_seconds max_sessions : Z) : PortalSessionRegistry :=
  mk_registry token_expiry_seconds max_sessions [] [].

Definition reg_with (r : PortalSessionRegistry) by_token by_ip : PortalSessionRegistry :=
  mk_registry (reg_token_expiry_seconds r) (reg_max_sessions r) by_token by_ip.

Definition invalidate (token : string) (r : PortalSessionRegistry) : option PortalSession * PortalSessionRegistry :=
  match dget (reg_by_token r) token with
  | None => (None, r)
  | Some s =>
      (Some s, reg_with r (dpop (reg_by_token r) token)
        (if bool_decide (dget (reg_token_by_ip r) (se_client_ip s) = Some token)
         then dpop (reg_token_by_ip r) (se_client_ip s) else reg_token_by_ip r))
  end.

Definition invalidate_ip (client_ip : IPv4.t) (r : PortalSessionRegistry)
  : option PortalSession * PortalSessionRegistry :=
  match dget (reg_token_by_ip r) client_ip with
  | None => (None, r)
  | Some token => invalidate token r
  end.

Definition validate (token : string) (client_ip : IPv4.t) (now : Z) (r : PortalSessionRegistry)
  : option PortalSession * PortalSessionRegistry :=
  match dget (reg_by_token r) token with
  | None => (None, r)
  | Some s =>
      if se_expires_at s <=? now then (None, (invalidate token r).2)
      else if negb (se_client_ip s =? client_ip) then (None, r)
      else (Some s, r)
  end.

Definition get_by_ip (client_ip : IPv4.t) (now : Z) (r : PortalSessionRegistry)
  : option PortalSession * PortalSessionRegistry :=
  match dget (reg_token_by_ip r) client_ip with
  | None => (None, r)
  | Some token => validate token client_ip now r
  end.

Definition purge_expired (now : Z) (r : PortalSessionRegistry) : list PortalSession * PortalSessionRegistry :=
  let expired := filter (λ s, se_expires_at s ≤ now) (dvalues (reg_by_token r)) in
  (expired, foldl (λ r s, (invalidate (se_token s) r).2) r expired).

Definition expires_leb (a b : PortalSession) : bool := se_expires_at a <=? se_expires_at b.

Definition list_sessions (now : Z) (r : PortalSessionRegistry) : list PortalSession * PortalSessionRegistry :=
  let r' := (purge_expired now r).2 in
  (py_sorted expires_leb (dvalues (reg_by_token r')), r').

Definition create (username : string) (client_ip : IPv4.t) (token : string) (now : Z) (client_mac : option string)
  : M PortalSessionRegistry PortalSession :=
  _ ← mmodify (λ r, (purge_expired now r).2);
  _ ← mmodify (λ r, (invalidate_ip client_ip r).2);
  r ← mget;
  _ ← (if reg_max_sessions r <=? Z.of_nat (length (reg_by_token r)) then
         match py_min se_expires_at (dvalues (reg_by_token r)) with
         | None => mraise (ValueError "min() iterable argument is empty")
         | Some oldest => mmodify (λ r, (invalidate (se_token oldest) r).2)
         end
       else mret tt);
  session ← mlift (session_check (mk_session token username client_ip now
                     (now + seconds (reg_token_expiry_seconds r)) client_mac));
  _ ← mmodify (λ r, reg_with r (dset (reg_by_token r) token session) (dset (reg_token_by_ip r) client_ip token));
  mret session.

(** ** The invariant *)

Record reg_inv (r : PortalSessionRegistry) : Prop := {
  ri_tokens : dwf (reg_by_token r);
  ri_ips : dwf (reg_token_by_ip r);
  ri_indexed : ∀ tok s, dget (reg_by_token r) tok = Some s →
    se_token s = tok ∧ dget (reg_token_by_ip r) (se_client_ip s) = Some tok;
  ri_bounded : Z.of_nat (length (reg_by_token r)) ≤ reg_max_sessions r;
}.

(** The sessions a registry holds. *)
Definition holds (r : PortalSessionRegistry) (s : PortalSession) : Prop := dget (reg_by_token r) (se_token s) = Some s.

Lemma holds_elem r s : reg_inv r → holds r s ↔ s ∈ dvalues (reg_by_token r).
Proof.
  intros Hi. unfold holds, dvalues. split.
  - intros Hs%dget_Some_elem. apply list_elem_of_fmap. by exists (se_token s, s).
  - intros ([tok s'] & -> & Hin)%list_elem_of_fmap. cbn [snd].
    pose proof (dget_elem _ _ _ (ri_tokens _ Hi) Hin) as Hg. by destruct (ri_indexed _ Hi _ _ Hg) as [-> _].
Qed.

Lemma one_per_ip r s s' : reg_inv r → holds r s → holds r s' → se_client_ip s = se_client_ip s' → s = s'.
Proof.
  intros Hi Hs Hs' Heq. destruct (ri_indexed _ Hi _ _ Hs) as [_ H1]. destruct (ri_indexed _ Hi _ _ Hs') as [_ H2].
  rewrite Heq, H2 in H1. injection H1 as H1. unfold holds in *. rewrite H1 in Hs'. congruence.
Qed.

Lemma invalidate_spec tok r : reg_inv r →
  reg_inv (invalidate tok r).2 ∧ reg_max_sessions (invalidate tok r).2 = reg_max_sessions r ∧
  reg_token_expiry_seconds (invalidate tok r).2 = reg_token_expiry_seconds r ∧
  (invalidate tok r).1 = dget (reg_by_token r) tok ∧
  (∀ s, holds (invalidate tok r).2 s ↔ holds r s ∧ se_token s ≠ tok) ∧
  (length (reg_by_token (invalidate tok r).2) ≤ length (reg_by_token r))%nat.
Proof.
  intros Hi. pose proof Hi as [Ht Hips Hix Hb]. unfold invalidate, holds.
  destruct (dget (reg_by_token r) tok) as [s0|] eqn:Htok; cbn [fst snd].
  - split; [split|]; cbn [reg_by_token reg_token_by_ip reg_with reg_max_sessions].
    + by apply dwf_pop.
    + case_match; auto with pirewall.
    + intros tok' s'. rewrite dget_pop. case_decide as Hne; [done|]. intros Hs'.
      destruct (Hix _ _ Hs') as [-> Hip]. split; [done|]. case_bool_decide as Hc; [|done].
      rewrite dget_pop, decide_False; [done|]. intros Heq. rewrite Heq, Hip in Hc. naive_solver.
    + pose proof (dpop_length_le (reg_by_token r) tok). lia.
    + split; [done|]. split; [done|]. split; [done|]. split; [|apply dpop_length_le].
      intros s. rewrite dget_pop. case_decide; naive_solver.
  - split; [done|]. split; [done|]. split; [done|]. split; [done|]. split; [|lia].
    intros s. split; [|tauto]. intros Hs. split; [done|]. intros Heq. rewrite Heq, Htok in Hs. done.
Qed.

Lemma invalidate_ip_spec ip r : reg_inv r →
  reg_inv (invalidate_ip ip r).2 ∧ reg_max_sessions (invalidate_ip ip r).2 = reg_max_sessions r ∧
  reg_token_expiry_seconds (invalidate_ip ip r).2 = reg_token_expiry_seconds r ∧
  (∀ s, holds (invalidate_ip ip r).2 s → holds r s ∧ se_client_ip s ≠ ip) ∧
  (∀ s, holds r s → se_client_ip s = ip → (invalidate_ip ip r).1 = Some s) ∧
  (∀ s, (invalidate_ip ip r).1 = Some s → holds r s) ∧
  (length (reg_by_token (invalidate_ip ip r).2) ≤ length (reg_by_token r))%nat.
Proof.
  intros Hi. unfold invalidate_ip. destruct (dget (reg_token_by_ip r) ip) as [tok|] eqn:Hip.
  - destruct (invalidate_spec tok r Hi) as (Hi' & Hm & He & Hr & Hh & Hl).
    split; [done|]. split; [done|]. split; [done|]. split; [|split; [|split; [|done]]].
    + intros s Hs. apply Hh in Hs as [Hs Hne]. split; [done|]. intros Heq.
      destruct (ri_indexed _ Hi _ _ Hs) as [_ H2]. rewrite Heq, Hip in H2. naive_solver.
    + intros s Hs Heq. rewrite Hr. destruct (ri_indexed _ Hi _ _ Hs) as [_ H2]. rewrite Heq, Hip in H2.
      injection H2 as ->. exact Hs.
    + intros s Hs. rewrite Hr in Hs. unfold holds. by destruct (ri_indexed _ Hi _ _ Hs) as [-> _].
  - split; [done|]. split; [done|]. split; [done|]. split; [|split; [|split; [done|done]]].
    + intros s Hs. split; [done|]. intros Heq. destruct (ri_indexed _ Hi _ _ Hs) as [_ H2]. by rewrite Heq, Hip in H2.
    + intros s Hs Heq. destruct (ri_indexed _ Hi _ _ Hs) as [_ H2]. by rewrite Heq, Hip in H2.
Qed.

Lemma purge_loop_spec l : ∀ r, reg_inv r →
  let r' := foldl (λ r s, (invalidate (se_token s) r).2) r l in
  reg_inv r' ∧ reg_max_sessions r' = reg_max_sessions r ∧
  reg_token_expiry_seconds r' = reg_token_expiry_seconds r ∧
  (∀ s, holds r' s ↔ holds r s ∧ se_token s ∉ se_token <$> l) ∧
  (length (reg_by_token r') ≤ length (reg_by_token r))%nat.
Proof.
  induction l as [|s0 l IH]; intros r Hi; cbn [foldl].
  { split; [done|]. split; [done|]. split; [done|]. split; [|lia]. intros s. set_solver. }
  destruct (invalidate_spec (se_token s0) r Hi) as (Hi' & Hm & He & _ & Hh & Hl).
  destruct (IH _ Hi') as (H1 & H2 & H3 & H4 & H5).
  split; [done|]. split; [by rewrite H2|]. split; [by rewrite H3|]. split; [|lia].
  intros s. rewrite H4, Hh, fmap_cons, not_elem_of_cons. tauto.
Qed.

Lemma purge_expired_spec now r : reg_inv r →
  reg_inv (purge_expired now r).2 ∧ reg_max_sessions (purge_expired now r).2 = reg_max_sessions r ∧
  reg_token_expiry_seconds (purge_expired now r).2 = reg_token_expiry_seconds r ∧
  (∀ s, holds (purge_expired now r).2 s ↔ holds r s ∧ now < se_expires_at s) ∧
  (∀ s, s ∈ (purge_expired now r).1 ↔ holds r s ∧ se_expires_at s ≤ now) ∧
  (length (reg_by_token (purge_expired now r).2) ≤ length (reg_by_token r))%nat.
Proof.
  intros Hi. unfold purge_expired. cbn [fst snd].
  destruct (purge_loop_spec (filter (λ s, se_expires_at s ≤ now) (dvalues (reg_by_token r))) r Hi)
    as (H1 & H2 & H3 & H4 & H5).
  assert (Hex : ∀ s, s ∈ filter (λ s, se_expires_at s ≤ now) (dvalues (reg_by_token r)) ↔ holds r s ∧ se_expires_at s ≤ now).
  { intros s. rewrite list_elem_of_filter, <- holds_elem by done. tauto. }
  split; [done|]. split; [done|]. split; [done|]. split; [|split; [done|done]].
  intros s. rewrite H4. split; intros [Hs Hs2]; (split; [done|]).
  - destruct (Z.lt_ge_cases now (se_expires_at s)) as [|Hge]; [done|]. destruct Hs2.
    apply list_elem_of_fmap. exists s. split; [done|]. by apply Hex.
  - intros (s' & Heq & [Hh' Hle]%Hex)%list_elem_of_fmap. unfold holds in *. rewrite <- Heq in Hh'.
    assert (s = s') by congruence. subst. lia.
Qed.

Lemma validate_spec token ip now r : reg_inv r →
  reg_inv (validate token ip now r).2 ∧ reg_max_sessions (validate token ip now r).2 = reg_max_sessions r ∧
  reg_token_expiry_seconds (validate token ip now r).2 = reg_token_expiry_seconds r ∧
  (∀ s, holds (validate token ip now r).2 s → holds r s) ∧
  (∀ s, holds r s → now < se_expires_at s → holds (validate token ip now r).2 s) ∧
  (∀ s, (validate token ip now r).1 = Some s ↔
     holds r s ∧ se_token s = token ∧ se_client_ip s = ip ∧ now < se_expires_at s).
Proof.
  intros Hi. unfold validate. destruct (dget (reg_by_token r) token) as [s0|] eqn:Hs0; cbn [fst snd].
  - destruct (ri_indexed _ Hi _ _ Hs0) as [Htok _]. destruct (se_expires_at s0 <=? now) eqn:Hexp; bool_prop.
    + destruct (invalidate_spec token r Hi) as (H1 & H2 & H3 & _ & H5 & _). cbn [fst snd].
      split; [done|]. split; [done|]. split; [done|]. split; [intros s; rewrite H5; tauto|]. split.
      * intros s Hs Hlt. apply H5. split; [done|]. intros Heq. unfold holds in Hs. rewrite Heq, Hs0 in Hs.
        injection Hs as ->. lia.
      * intros s. split; [done|]. intros (Hs & Heq & _ & Hlt). unfold holds in Hs. rewrite Heq, Hs0 in Hs.
        injection Hs as ->. lia.
    + assert (Hsame : ∀ s, holds r s ∧ se_token s = token ↔ s = s0).
      { intros s. unfold holds. split; [intros [Hs Heq]; rewrite Heq in Hs; congruence|intros ->; by rewrite Htok]. }
      destruct (se_client_ip s0 =? ip) eqn:Hip; bool_prop; cbn [negb fst snd]; (do 5 (split; [done|])); intros s.
      * split; [|intros (H1 & H2 & _); f_equal; symmetry; by apply Hsame].
        intros [= <-]. destruct (proj2 (Hsame s0) eq_refl) as [H1 H2]. done.
      * split; [done|]. intros (H1 & H2 & H3 & _). destruct Hip. rewrite <- H3. f_equal. symmetry. by apply Hsame.
  - do 5 (split; [done|]). intros s. split; [done|]. intros (Hs & Heq & _). unfold holds in Hs. by rewrite Heq, Hs0 in Hs.
Qed.

Lemma get_by_ip_spec ip now r : reg_inv r →
  reg_inv (get_by_ip ip now r).2 ∧ reg_max_sessions (get_by_ip ip now r).2 = reg_max_sessions r ∧
  reg_token_expiry_seconds (get_by_ip ip now r).2 = reg_token_expiry_seconds r ∧
  (∀ s, holds (get_by_ip ip now r).2 s → holds r s) ∧
  (∀ s, holds r s → now < se_expires_at s → holds (get_by_ip ip now r).2 s) ∧
  (∀ s, (get_by_ip ip now r).1 = Some s ↔ holds r s ∧ se_client_ip s = ip ∧ now < se_expires_at s).
Proof.
  intros Hi. unfold get_by_ip. destruct (dget (reg_token_by_ip r) ip) as [tok|] eqn:Hip.
  - destruct (validate_spec tok ip now r Hi) as (H1 & H2 & H3 & H4 & H5 & H6). do 5 (split; [done|]).
    intros s. rewrite H6. split; [tauto|]. intros (Hs & Heq & Hlt). repeat (split; [done|]). split; [|done].
    destruct (ri_indexed _ Hi _ _ Hs) as [_ H7]. rewrite Heq, Hip in H7. by injection H7 as ->.
  - do 5 (split; [done|]). intros s. split; [done|]. intros (Hs & Heq & _).
    destruct (ri_indexed _ Hi _ _ Hs) as [_ H7]. by rewrite Heq, Hip in H7.
Qed.

(** Room for one more: what [create] does before it builds the session. *)
Lemma create_room (r : PortalSessionRegistry) : reg_inv r → 0 < reg_max_sessions r →
  ∃ r', (if reg_max_sessions r <=? Z.of_nat (length (reg_by_token r)) then
           match py_min se_expires_at (dvalues (reg_by_token r)) with
           | None => mraise (ValueError "min() iterable argument is empty")
           | Some oldest => mmodify (λ r, (invalidate (se_token oldest) r).2)
           end
         else mret tt) r = (Ok tt, r') ∧
    reg_inv r' ∧ reg_max_sessions r' = reg_max_sessions r ∧
    reg_token_expiry_seconds r' = reg_token_expiry_seconds r ∧
    (∀ s, holds r' s → holds r s) ∧ Z.of_nat (length (reg_by_token r')) < reg_max_sessions r'.
Proof.
  intros Hi Hpos. destruct (_ <=? _) eqn:Hfull; bool_prop; [|exists r; by do 5 (split; [done|])].
  destruct (py_min se_expires_at (dvalues (reg_by_token r))) as [old|] eqn:Hmin.
  - apply py_min_spec in Hmin as [Hin _]. apply holds_elem in Hin; [|done].
    destruct (invalidate_spec (se_token old) r Hi) as (H1 & H2 & H3 & _ & H5 & _).
    eexists. split; [done|]. do 3 (split; [done|]). split; [intros s; rewrite H5; tauto|].
    rewrite H2. unfold invalidate. rewrite Hin. cbn [snd reg_by_token reg_with].
    assert (length (dpop (reg_by_token r) (se_token old)) < length (reg_by_token r))%nat.
    { assert (Hk : se_token old ∈ dkeys (reg_by_token r)) by (apply dget_is_Some; by exists old).
      clear -Hk. revert Hk. unfold dkeys. induction (reg_by_token r) as [|[k v] d IH]; simpl; [set_solver|].
      intros Hk. case_decide; [pose proof (dpop_length_le d (se_token old)); lia|]. simpl.
      assert (se_token old ∈ d.*1) as Hk' by set_solver. specialize (IH Hk'). lia. }
    pose proof (ri_bounded _ Hi). lia.
  - unfold dvalues in Hmin. destruct (reg_by_token r); [simpl in Hfull; lia|done].
Qed.

Lemma create_spec username ip token now mac r : reg_inv r → 0 < reg_max_sessions r →
  ∃ res r', create username ip token now mac r = (res, r') ∧ reg_inv r' ∧
    reg_max_sessions r' = reg_max_sessions r ∧ reg_token_expiry_seconds r' = reg_token_expiry_seconds r ∧
    let s := mk_session token username ip now (now + seconds (reg_token_expiry_seconds r)) mac in
    match res with
    | Ok s' => s' = s ∧ token ≠ "" ∧ username ≠ "" ∧ holds r' s ∧
        ∀ s', holds r' s' → s' = s ∨ holds r s' ∧ now < se_expires_at s' ∧ se_client_ip s' ≠ ip
    | Raise e => (token = "" ∨ username = "") ∧ (∃ msg, e = ValueError msg) ∧
        ∀ s', holds r' s' → holds r s' ∧ now < se_expires_at s' ∧ se_client_ip s' ≠ ip
    end.
Proof.
  intros Hi Hpos. destruct (purge_expired_spec now r Hi) as (I1 & M1 & E1 & H1 & _ & _).
  destruct (invalidate_ip_spec ip _ I1) as (I2 & M2 & E2 & H2 & _ & _ & _).
  destruct (create_room _ I2) as (r3 & Heq & I3 & M3 & E3 & H3 & Hroom); [by rewrite M2, M1|].
  assert (Hold : ∀ s', holds r3 s' → holds r s' ∧ now < se_expires_at s' ∧ se_client_ip s' ≠ ip).
  { intros s' Hs'. apply H3, H2 in Hs' as [Hs' ?]. apply H1 in Hs' as [? ?]. done. }
  assert (Hex : reg_token_expiry_seconds (invalidate_ip ip (purge_expired now r).2).2 = reg_token_expiry_seconds r)
    by (by rewrite E2, E1).
  unfold create, mbind, m_bind, mmodify at 1 2, mget, mlift. rewrite Heq, Hex.
  set (s := mk_session _ _ _ _ _ _). unfold session_check. cbn [se_token se_username s].
  destruct (String.eqb_spec token "") as [Ht|Ht]; [|destruct (String.eqb_spec username "") as [Hu|Hu]]; cbn [orb].
  1,2: eexists _, r3; split; [reflexivity|]; split; [done|]; split; [by rewrite M3, M2, M1|];
    split; [by rewrite E3, E2, E1|]; split; [tauto|]; split; [by eexists|]; exact Hold.
  eexists _, _. split; [reflexivity|]. split; [|split; [|split; [|split; [done|split; [done|split; [done|split]]]]]].
  - pose proof I3 as [Hdt Hdi Hix Hb].
    split; unfold mmodify; cbn [snd reg_by_token reg_token_by_ip reg_with reg_max_sessions]; auto with pirewall.
    + intros tok s'. rewrite dget_set. case_decide as Htok; [intros [= <-]; subst; by rewrite dget_set_eq|].
      intros Hs'. assert (holds r3 s') as Hh by (unfold holds; by destruct (Hix _ _ Hs') as [-> _]).
      destruct (Hix _ _ Hs') as [<- Hip]. split; [done|].
      rewrite dget_set_ne; [done|]. apply not_eq_sym. by apply Hold.
    + rewrite dset_length. case_decide; lia.
  - cbn. by rewrite M3, M2, M1.
  - cbn. by rewrite E3, E2, E1.
  - unfold holds. cbn. by rewrite dget_set_eq.
  - intros s'. unfold holds. unfold mmodify. cbn [snd reg_by_token reg_with]. rewrite dget_set.
    case_decide as Htok; [intros [= <-]; by left|]. intros Hs'. right. apply Hold. exact Hs'.
Qed.

(** ** Every registry reachable by the methods *)

Inductive reg_reach (expiry max_sessions : Z) : PortalSessionRegistry → Prop :=
| reg_new : reg_reach expiry max_sessions (new_registry expiry max_sessions)
| reg_create u ip tok now mac r : reg_reach expiry max_sessions r →
    reg_reach expiry max_sessions (create u ip tok now mac r).2
| reg_validate tok ip now r : reg_reach expiry max_sessions r → reg_reach expiry max_sessions (validate tok ip now r).2
| reg_get ip now r : reg_reach expiry max_sessions r → reg_reach expiry max_sessions (get_by_ip ip now r).2
| reg_invalidate tok r : reg_reach expiry max_sessions r → reg_reach expiry max_sessions (invalidate tok r).2
| reg_invalidate_ip ip r : reg_reach expiry max_sessions r → reg_reach expiry max_sessions (invalidate_ip ip r).2
| reg_purge now r : reg_reach expiry max_sessions r → reg_reach expiry max_sessions (purge_expired now r).2
| reg_list now r : reg_reach expiry max_sessions r → reg_reach expiry max_sessions (list_sessions now r).2.

Lemma reg_reach_inv expiry max r : 0 < max → reg_reach expiry max r →
  reg_inv r ∧ reg_max_sessions r = max ∧ reg_token_expiry_seconds r = expiry.
Proof.
  intros Hmax. induction 1 as [|u ip tok now mac r _ (Hi & Hm & He)|tok ip now r _ (Hi & Hm & He)|ip now r _ (Hi & Hm & He)
    |tok r _ (Hi & Hm & He)|ip r _ (Hi & Hm & He)|now r _ (Hi & Hm & He)|now r _ (Hi & Hm & He)].
  - split; [split; cbn; auto with pirewall; [done|lia]|done].
  - destruct (create_spec u ip tok now mac r Hi) as (res & r' & -> & ? & ? & ? & _); [lia|]. cbn [snd]. naive_solver.
  - destruct (validate_spec tok ip now r Hi) as (? & ? & ? & _). naive_solver.
  - destruct (get_by_ip_spec ip now r Hi) as (? & ? & ? & _). naive_solver.
  - destruct (invalidate_spec tok r Hi) as (? & ? & ? & _). naive_solver.
  - destruct (invalidate_ip_spec ip r Hi) as (? & ? & ? & _). naive_solver.
  - destruct (purge_expired_spec now r Hi) as (? & ? & ? & _). naive_solver.
  - destruct (purge_expired_spec now r Hi) as (? & ? & ? & _). unfold list_sessions. naive_solver.
Qed.

(** C33: A session belongs to one address and an address to one session: in
    every reachable registry, there are at most [max_sessions] sessions, no
    two for the same address; a token is accepted exactly when it names an
    unexpired session of the asking address, and looking that address up
    finds the same session; after a new login from an address, no older
    token of that address is accepted again. *)
Theorem portal_session_is_bound_to_its_address expiry max r : 0 < max → reg_reach expiry max r →
  Z.of_nat (length (reg_by_token r)) ≤ max ∧
  (∀ s s', holds r s → holds r s' → se_client_ip s = se_client_ip s' → s = s') ∧
  (∀ token ip now s, (validate token ip now r).1 = Some s ↔
     holds r s ∧ se_token s = token ∧ se_client_ip s = ip ∧ now < se_expires_at s) ∧
  (∀ token ip now s, (validate token ip now r).1 = Some s → (get_by_ip ip now r).1 = Some s) ∧
  (∀ u ip token now mac s r', create u ip token now mac r = (Ok s, r') →
     (get_by_ip ip now r').1 = (if decide (0 < expiry) then Some s else None) ∧
     ∀ token' now', token' ≠ token → (validate token' ip now' r').1 = None).
Proof.
  intros Hmax Hr. destruct (reg_reach_inv _ _ _ Hmax Hr) as (Hi & Hm & He).
  split; [rewrite <- Hm; apply Hi|]. split; [intros s s'; by apply one_per_ip|].
  split; [intros token ip now s; apply (validate_spec token ip now r Hi)|]. split.
  { intros token ip now s Hv. apply (validate_spec token ip now r Hi) in Hv. apply (get_by_ip_spec ip now r Hi). tauto. }
  intros u ip token now mac s r' Hc.
  destruct (create_spec u ip token now mac r Hi) as (res & r2 & Heq & Hi' & _ & _ & Hres); [lia|].
  rewrite Hc in Heq. injection Heq as <- <-. destruct Hres as (Hs & _ & _ & Hh & Honly). rewrite <- Hs in Hh, Honly.
  split.
  - destruct (get_by_ip_spec ip now r' Hi') as (_ & _ & _ & _ & _ & Hg).
    assert (Hexp : se_expires_at s = now + seconds expiry) by (subst s; cbn; by rewrite He).
    case_decide as Hp.
    + apply Hg. split; [done|]. split; [by subst s|]. rewrite Hexp. unfold seconds, us_per_second. lia.
    + destruct (get_by_ip ip now r').1 as [s'|] eqn:Hg'; [|done]. exfalso.
      destruct (proj1 (Hg s') eq_refl) as (Hs' & Hip & Hlt). assert (s' = s) as ->.
      { apply (one_per_ip r'); auto. subst s. by rewrite Hip. }
      rewrite Hexp in Hlt. unfold seconds, us_per_second in Hlt. lia.
  - intros token' now' Hne. destruct (validate token' ip now' r').1 as [s'|] eqn:Hv; [|done]. exfalso.
    apply (validate_spec token' ip now' r' Hi') in Hv as (Hs' & Htok & Hip & _).
    destruct (Honly s' Hs') as [->|(_ & _ & Hne')]; [|done]. subst s. cbn in Htok. done.
Qed.

Lemma portal_session_is_bound_to_its_address_witness :
  let r := (create "bob" 7 "t1" 0 None (new_registry 60 2)).2 in
  Z.of_nat (length (reg_by_token r)) ≤ 2 ∧
  (∀ s s', holds r s → holds r s' → se_client_ip s = se_client_ip s' → s = s') ∧
  (∀ token ip now s, (validate token ip now r).1 = Some s ↔
     holds r s ∧ se_token s = token ∧ se_client_ip s = ip ∧ now < se_expires_at s) ∧
  (∀ token ip now s, (validate token ip now r).1 = Some s → (get_by_ip ip now r).1 = Some s) ∧
  (∀ u ip token now mac s r', create u ip token now mac r = (Ok s, r') →
     (get_by_ip ip now r').1 = (if decide (0 < 60) then Some s else None) ∧
     ∀ token' now', token' ≠ token → (validate token' ip now' r').1 = None).
Proof. apply (portal_session_is_bound_to_its_address 60 2); [lia|]. apply reg_create, reg_new. Defined.
