(* ===== verification/Hex.v ===== *)
(** * Bytes in hexadecimal

    [bytes.hex], [bytes.fromhex] and [bytes.hex(":")] of the language, as the
    password store and the packet parser use them.  A byte is an integer in
    0..255. *)

From S2P Require Import Prelude Net.
Local Open Scope Z_scope.

Definition hex_digit (n : Z) : ascii :=
  if n <? 10 then ascii_of_nat (48 + Z.to_nat n) else ascii_of_nat (87 + Z.to_nat n).

Fixpoint bytes_hex (bs : list Z) : list ascii :=
  match bs with
  | [] => []
  | b :: bs' => hex_digit (b / 16) :: hex_digit (b mod 16) :: bytes_hex bs'
  end.

Definition is_space (c : ascii) : bool :=
  let n := Z.of_nat (nat_of_ascii c) in (n =? 32) || ((9 <=? n) && (n <=? 13)).

(** [None] is the [ValueError]; whitespace is skipped between bytes only. *)
Fixpoint bytes_fromhex (l : list ascii) : option (list Z) :=
  match l with
  | [] => Some []
  | c :: l' =>
      if is_space c then bytes_fromhex l'
      else match l' with
           | d :: l'' =>
               if Mac.is_hex c && Mac.is_hex d
               then cons (Mac.hex_val c * 16 + Mac.hex_val d) <$> bytes_fromhex l''
               else None
           | [] => None
           end
  end.

Definition byte_ok (b : Z) : Prop := 0 ≤ b < 256.

Definition hex_ok (b : Z) : bool :=
  let h := hex_digit (b / 16) in
  let l := hex_digit (b mod 16) in
  negb (is_space h) && Mac.is_hex h && Mac.is_hex l && bool_decide (h ≠ "$"%char) && bool_decide (l ≠ "$"%char)
  && (Mac.hex_val h * 16 + Mac.hex_val l =? b).

Lemma hex_ok_all b : byte_ok b → hex_ok b = true.
Proof.
  intros Hb. assert (Hall : forallb hex_ok (Z.of_nat <$> seq 0 256) = true) by (vm_compute; reflexivity).
  rewrite forallb_forall in Hall. apply Hall. apply list_elem_of_In, list_elem_of_fmap.
  exists (Z.to_nat b). unfold byte_ok in Hb. split; [lia|]. apply elem_of_seq. lia.
Qed.

Lemma fromhex_hex bs : Forall byte_ok bs → bytes_fromhex (bytes_hex bs) = Some bs.
Proof.
  induction 1 as [|b bs Hb _ IH]; [done|]. cbn [bytes_hex bytes_fromhex].
  apply hex_ok_all in Hb. unfold hex_ok in Hb. cbv zeta in Hb. bool_prop.
  repeat match goal with H : ?x = _ |- context [?x] => rewrite H end. cbn. by f_equal.
Qed.

Lemma hex_no_dollar bs : Forall byte_ok bs → "$"%char ∉ bytes_hex bs.
Proof.
  induction 1 as [|b bs Hb _ IH]; [set_solver|]. apply hex_ok_all in Hb. unfold hex_ok in Hb. cbv zeta in Hb.
  bool_prop. cbn [bytes_hex]. rewrite !not_elem_of_cons. auto.
Qed.

(** [raw.hex(":")] *)
Fixpoint bytes_hex_colon (bs : list Z) : list ascii :=
  match bs with
  | [] => []
  | [b] => [hex_digit (b / 16); hex_digit (b mod 16)]
  | b :: bs' => hex_digit (b / 16) :: hex_digit (b mod 16) :: ":"%char :: bytes_hex_colon bs'
  end.

(** A frame's six address bytes print as a normalised MAC address. *)
Definition hex_mac_ok (b : Z) : bool :=
  let h := hex_digit (b / 16) in
  let l := hex_digit (b mod 16) in
  bool_decide (Mac.dash_to_colon (Mac.lower h) = h) && bool_decide (Mac.dash_to_colon (Mac.lower l) = l)
  && Mac.is_hex h && Mac.is_hex l.

Lemma hex_mac_ok_all b : byte_ok b → hex_mac_ok b = true.
Proof.
  intros Hb. assert (Hall : forallb hex_mac_ok (Z.of_nat <$> seq 0 256) = true) by (vm_compute; reflexivity).
  rewrite forallb_forall in Hall. apply Hall. apply list_elem_of_In, list_elem_of_fmap.
  exists (Z.to_nat b). unfold byte_ok in Hb. split; [lia|]. apply elem_of_seq. lia.
Qed.

Lemma hex_mac_normal bs : length bs = 6%nat → Forall byte_ok bs →
  Mac.normalise (string_of_list (bytes_hex_colon bs)) = Some (string_of_list (bytes_hex_colon bs)).
Proof.
  intros Hlen Hb. do 6 (destruct bs as [|? bs]; [done|]). destruct bs; [|done].
  repeat (apply Forall_cons in Hb as [? Hb]).
  repeat match goal with H : byte_ok _ |- _ => apply hex_mac_ok_all in H; unfold hex_mac_ok in H; cbv zeta in H end.
  bool_prop. unfold Mac.normalise. rewrite string_to_of_list. unfold Mac.matches_pattern. cbn [bytes_hex_colon forallb].
  repeat match goal with H : Mac.is_hex ?x = true |- _ => rewrite !H; clear H end. cbn [andb].
  change (bool_decide (":"%char = ":"%char)) with true. cbn [andb orb].
  do 2 f_equal. cbn [fmap list_fmap].
  repeat match goal with H : Mac.dash_to_colon (Mac.lower ?x) = ?x |- _ => rewrite !H; clear H end. reflexivity.
Qed.

(** * MD5 (RFC 1321)

    [hashlib.md5(data).hexdigest()] of Python's standard library, which
    detection/tls_fingerprint.py applies to a JA3 string.  Words are integers
    in [0, 2^32), bytes integers in [0, 256). *)

Local Open Scope Z_scope.

Module Md5.

Definition w32 (x : Z) : Z := x mod 2 ^ 32.
Definition lognot32 (x : Z) : Z := 2 ^ 32 - 1 - x.
Definition rotl (x s : Z) : Z := Z.lor (w32 (Z.shiftl x s)) (Z.shiftr x (32 - s)).

(** floor(2^32 * |sin(i + 1)|) *)
Definition K : list Z :=
  [3614090360; 3905402710; 606105819; 3250441966; 4118548399; 1200080426; 2821735955; 4249261313;
   1770035416; 2336552879; 4294925233; 2304563134; 1804603682; 4254626195; 2792965006; 1236535329;
   4129170786; 3225465664; 643717713; 3921069994; 3593408605; 38016083; 3634488961; 3889429448;
   568446438; 3275163606; 4107603335; 1163531501; 2850285829; 4243563512; 1735328473; 2368359562;
   4294588738; 2272392833; 1839030562; 4259657740; 2763975236; 1272893353; 4139469664; 3200236656;
   681279174; 3936430074; 3572445317; 76029189; 3654602809; 3873151461; 530742520; 3299628645;
   4096336452; 1126891415; 2878612391; 4237533241; 1700485571; 2399980690; 4293915773; 2240044497;
   1873313359; 4264355552; 2734768916; 1309151649; 4149444226; 3174756917; 718787259; 3951481745].

(** the shifts of the four rounds *)
Definition shifts : list (list Z) := [[7; 12; 17; 22]; [5; 9; 14; 20]; [4; 11; 16; 23]; [6; 10; 15; 21]].

Definition le_word (bs : list Z) : Z := foldr (λ b acc, b + 256 * acc) 0 bs.
Fixpoint le_bytes (n : nat) (x : Z) : list Z :=
  match n with O => [] | S n => x mod 256 :: le_bytes n (x / 256) end.

Fixpoint words (bs : list Z) : list Z :=
  match bs with a :: b :: c :: d :: bs => le_word [a; b; c; d] :: words bs | _ => [] end.

Record state : Type := mk_state { sa : Z; sb : Z; sc : Z; sd : Z }.

Definition round (m : list Z) (st : state) (i : nat) : state :=
  let '(mk_state a b c d) := st in
  let q := (i / 16)%nat in
  let '(f, g) := match q with
    | 0%nat => (Z.lor (Z.land b c) (Z.land (lognot32 b) d), i)
    | 1%nat => (Z.lor (Z.land d b) (Z.land (lognot32 d) c), ((5 * i + 1) mod 16)%nat)
    | 2%nat => (Z.lxor (Z.lxor b c) d, ((3 * i + 5) mod 16)%nat)
    | _ => (Z.lxor c (Z.lor b (lognot32 d)), ((7 * i) mod 16)%nat)
    end in
  let f := w32 (f + a + default 0 (K !! i) + default 0 (m !! g)) in
  let s := default 0 (default [] (shifts !! q) !! (i mod 4)%nat) in
  mk_state d (w32 (b + rotl f s)) b c.

Definition chunk (st : state) (bs : list Z) : state :=
  let st' := foldl (round (words bs)) st (seq 0 64) in
  mk_state (w32 (sa st + sa st')) (w32 (sb st + sb st')) (w32 (sc st + sc st')) (w32 (sd st + sd st')).

Definition pad (bs : list Z) : list Z :=
  let n := Z.of_nat (length bs) in
  bs ++ [128] ++ replicate (Z.to_nat ((55 - n) mod 64)) 0 ++ le_bytes 8 (8 * n).

Fixpoint chunks (k : nat) (st : state) (bs : list Z) : state :=
  match k with O => st | S k => chunks k (chunk st (take 64 bs)) (drop 64 bs) end.

Definition digest (bs : list Z) : list Z :=
  let p := pad bs in
  let '(mk_state a b c d) := chunks (length p / 64) (mk_state 1732584193 4023233417 2562383102 271733878) p in
  le_bytes 4 a ++ le_bytes 4 b ++ le_bytes 4 c ++ le_bytes 4 d.

(** [hashlib.md5(s.encode("ascii")).hexdigest()] *)
Definition hexdigest (s : string) : string :=
  string_of_list (bytes_hex (digest ((λ c, Z.of_N (N_of_ascii c)) <$> string_to_list s))).

End Md5.

(** The test vectors of RFC 1321, appendix A.5. *)
Example md5_empty : Md5.hexdigest "" = "d41d8cd98f00b204e9800998ecf8427e".
Proof. vm_compute. reflexivity. Qed.
Example md5_abc : Md5.hexdigest "abc" = "900150983cd24fb0d6963f7d28e17f72".
Proof. vm_compute. reflexivity. Qed.
Example md5_two_blocks :
  Md5.hexdigest "12345678901234567890123456789012345678901234567890123456789012345678901234567890" = "57edf4a22be3c955ac49da2e2107b67a".
Proof. vm_compute. reflexivity. Qed.
