(* ===== verification/PortalStore.v ===== *)
(** * Portal accounts (portal/store.py, portal/demo_policy.py, core/passwords.py)

    The password hash format, the on-disk account store and the startup rule
    for demo accounts.  scrypt itself is a parameter: a function of password,
    salt and output length that returns that many bytes.  The file is a text:
    an account is written field by field as a JSON object and read back through
    the model's validation.  The text codec of the [json] module and Pydantic's
    reading of a datetime and of a boolean are parameters, a [Codec] the store
    carries, with their documented round trips as [codec_law].  What the
    operating system does with a write is [us_io_ok], as in [AllowlistStore]. *)

From S2P Require Import Prelude Net Hex Models Json.
Local Open Scope Z_scope.

(** [s.split("$", 1)] into exactly two parts *)
Fixpoint split_once (c : ascii) (l : list ascii) : option (list ascii * list ascii) :=
  match l with
  | [] => None
  | x :: l' => if decide (x = c) then Some ([], l')
               else match split_once c l' with
                    | Some (a, b) => Some (x :: a, b)
                    | None => None
                    end
  end.

Lemma split_once_app c a b : c ∉ a → split_once c (a ++ c :: b) = Some (a, b).
Proof.
  induction a as [|x a IH]; simpl; intros Hn; [by rewrite decide_True|].
  rewrite decide_False by set_solver. by rewrite IH by set_solver.
Qed.

(** ** Passwords *)

Definition _KEY_LENGTH : Z := 32.
Definition _SALT_BYTES : Z := 16.

Section Passwords.
Context (scrypt : string → list Z → Z → list Z).

(** [hash_password], with the random salt it draws. *)
Definition hash_password (password : string) (salt : list Z) : string :=
  string_of_list (bytes_hex salt ++ "$"%char :: bytes_hex (scrypt password salt _KEY_LENGTH)).

Definition verify_password (password stored_hash : string) : bool :=
  match split_once "$"%char (string_to_list stored_hash) with
  | None => false
  | Some (salt_hex, hash_hex) =>
      match bytes_fromhex salt_hex, bytes_fromhex hash_hex with
      | Some salt, Some expected =>
          if bool_decide (expected = []) then false
          else bool_decide (scrypt password salt (Z.of_nat (length expected)) = expected)
      | _, _ => false
      end
  end.

(** What hashlib.scrypt documents: [dklen] bytes. *)
Definition scrypt_law : Prop :=
  ∀ p salt n, 0 < n → Z.of_nat (length (scrypt p salt n)) = n ∧ Forall byte_ok (scrypt p salt n).

Lemma verify_hash p q salt : scrypt_law → Forall byte_ok salt →
  verify_password q (hash_password p salt) = bool_decide (scrypt q salt _KEY_LENGTH = scrypt p salt _KEY_LENGTH).
Proof.
  intros Hlaw Hsalt. destruct (Hlaw p salt _KEY_LENGTH) as [Hlen Hbytes]; [done|].
  unfold verify_password, hash_password. rewrite string_to_of_list, split_once_app by (by apply hex_no_dollar).
  rewrite !fromhex_hex by done. rewrite bool_decide_eq_false_2; [by rewrite Hlen|].
  intros Hnil. rewrite Hnil in Hlen. done.
Qed.
End Passwords.

(** ** Accounts *)

Record PortalUser : Type := mk_user {
  pu_username : string;
  pu_password_hash : string;
  pu_created_at : Z;
  pu_created_by : string;
  pu_note : string;
  pu_is_demo : bool;
}.

(** [username]'s pattern ^[A-Za-z0-9._-]+$ *)
Definition username_char (c : ascii) : bool :=
  let n := Z.of_nat (nat_of_ascii c) in
  ((48 <=? n) && (n <=? 57)) || ((65 <=? n) && (n <=? 90)) || ((97 <=? n) && (n <=? 122))
  || (n =? 46) || (n =? 95) || (n =? 45).

(** The constraints [PortalUser]'s constructor checks. *)
Definition portal_user_ok (u : PortalUser) : bool :=
  let name := string_to_list (pu_username u) in
  (1 <=? Z.of_nat (length name)) && (Z.of_nat (length name) <=? 64) && forallb username_char name
  && negb (String.eqb (pu_password_hash u) "") && negb (String.eqb (pu_created_by u) "")
  && (Z.of_nat (String.length (pu_note u)) <=? 200).

Definition portal_user (u : PortalUser) : result PortalUser :=
  if portal_user_ok u then Ok u else Raise (ValueError "validation error for PortalUser").

(** ** The file *)

Definition line_feed : string := String (ascii_of_nat 10) "".

(** [json_dump] is [json.dump(..., indent=2)] of a value whose keys are in
    order; [json_loads] fails with [JSONDecodeError]. *)
Record Codec : Type := mk_codec {
  json_dump : json → string;
  json_loads : string → option json;
  dump_datetime : Z → string;
  read_datetime : json → option Z;
  read_bool : json → option bool;
}.

(** A Python value has each key of a dict once. *)
Fixpoint json_ok (v : json) : Prop :=
  match v with
  | JList l => foldr (λ x acc, json_ok x ∧ acc) True l
  | JObj o => NoDup (fst <$> o) ∧ foldr (λ x acc, json_ok x.2 ∧ acc) True o
  | _ => True
  end.
Record codec_law (c : Codec) : Prop := {
  cl_json : ∀ v, json_ok v → json_loads c (json_dump c v +:+ line_feed) = Some v;
  cl_datetime : ∀ t, is_datetime t → read_datetime c (JStr (dump_datetime c t)) = Some t;
  cl_bool : ∀ b, read_bool c (JBool b) = Some b;
}.

(** [user.model_dump(mode="json")] *)
Definition dump_user (c : Codec) (u : PortalUser) : list (string * json) :=
  [("username", JStr (pu_username u)); ("password_hash", JStr (pu_password_hash u)); ("created_at", JStr (dump_datetime c (pu_created_at u)));
   ("created_by", JStr (pu_created_by u)); ("note", JStr (pu_note u)); ("is_demo", JBool (pu_is_demo u))].
(** [sort_keys=True] *)
Definition sort_keys (o : list (string * json)) : list (string * json) := py_sorted (λ a b, String.leb a.1 b.1) o.

Definition _FIELDS : list string := ["username"; "password_hash"; "created_at"; "created_by"; "note"; "is_demo"].
Definition invalid_user : exn := ValueError "validation error for PortalUser".
(** [PortalUser.model_validate(item)]: no other field ([extra="forbid"]), the
    two with a default may be missing. *)
Definition load_user (c : Codec) (item : json) : result PortalUser :=
  match item with
  | JObj o =>
      if forallb (λ k, inb k _FIELDS) (dkeys o) then
        match dget o "username", dget o "password_hash", dget o "created_at" ≫= read_datetime c, dget o "created_by",
              match dget o "note" with None => Some "" | Some v => as_str (Some v) end,
              match dget o "is_demo" with None => Some false | Some v => read_bool c v end with
        | Some (JStr username), Some (JStr password_hash), Some created_at, Some (JStr created_by), Some note, Some is_demo =>
            portal_user (mk_user username password_hash created_at created_by note is_demo)
        | _, _, _, _, _, _ => Raise invalid_user
        end
      else Raise invalid_user
  | _ => Raise invalid_user
  end.
Fixpoint load_users (c : Codec) (raw : list json) : result (list PortalUser) :=
  match raw with
  | [] => Ok []
  | item :: raw => rbind (load_user c item) (λ u, rbind (load_users c raw) (λ us, Ok (u :: us)))
  end.

(** What a read of the file finds *)
Inductive UserFile : Type :=
| Missing
| Unreadable  (** an [OSError] *)
| NotUtf8     (** a [UnicodeDecodeError], a [ValueError] no handler names *)
| Text (t : string).

Record PortalUserStore : Type := mk_user_store {
  us_users : list (string * PortalUser);
  us_disk : UserFile;
  us_codec : Codec;
  us_io_ok : bool;
}.

Definition DEMO_USERNAME_PREFIX : string := "demo-".

Definition us_with (s : PortalUserStore) users : PortalUserStore := mk_user_store users (us_disk s) (us_codec s) (us_io_ok s).

Definition user_reload : M PortalUserStore unit := λ s,
  match us_disk s with
  | Missing => (Ok tt, us_with s [])
  | Unreadable => (Raise (ConfigurationError "could not read portal user store"), s)
  | NotUtf8 => (Raise (ValueError "invalid byte"), s)
  | Text t =>
      match json_loads (us_codec s) t with
      | None => (Raise (ConfigurationError "could not read portal user store"), s)
      | Some (JList raw) =>
          match load_users (us_codec s) raw with
          | Ok us => (Ok tt, us_with s (rebuild pu_username us))
          | Raise e => (Raise e, s)
          end
      | Some _ => (Raise (ConfigurationError "portal user store must contain a JSON list of users"), s)
      end
  end.

(** [PortalUserStore(path)] *)
Definition open_user_store (codec : Codec) (disk : UserFile) (io_ok : bool) : result PortalUserStore :=
  match user_reload (mk_user_store [] disk codec io_ok) with
  | (Ok _, s) => Ok s
  | (Raise e, _) => Raise e
  end.

Definition user_leb (a b : PortalUser) : bool := String.leb (pu_username a) (pu_username b).

Definition list_users (s : PortalUserStore) : list PortalUser := py_sorted user_leb (dvalues (us_users s)).
Definition get_user (s : PortalUserStore) (username : string) : option PortalUser := dget (us_users s) username.
Definition has_demo_accounts (s : PortalUserStore) : bool := existsb pu_is_demo (dvalues (us_users s)).
Definition demo_usernames (s : PortalUserStore) : list string :=
  py_sorted String.leb (pu_username <$> filter (λ u, pu_is_demo u = true) (dvalues (us_users s))).

(** [_persist]: mkstemp in the same directory, then [os.replace]: the new list
    or the old file. *)
Definition payload (s : PortalUserStore) : json := JList ((λ u, JObj (sort_keys (dump_user (us_codec s) u))) <$> list_users s).
Definition persist_users : M PortalUserStore unit := λ s,
  if us_io_ok s then (Ok tt, mk_user_store (us_users s) (Text (json_dump (us_codec s) (payload s) +:+ line_feed)) (us_codec s) (us_io_ok s))
  else (Raise (ConfigurationError "could not write portal user store"), s).

Definition is_sample (p : string * PortalUser) : bool := pu_is_demo p.2 || String.prefix DEMO_USERNAME_PREFIX p.1.

Definition remove_demo_accounts : M PortalUserStore (list string) :=
  s ← mget;
  let doomed := py_sorted String.leb (dkeys (filter (λ p, is_sample p = true) (us_users s))) in
  match doomed with
  | [] => mret []
  | _ =>
      _ ← mmodify (λ s, us_with s (foldl dpop (us_users s) doomed));
      _ ← persist_users;
      mret doomed
  end.

Section Store.
Context (scrypt : string → list Z → Z → list Z).

(** [verify]: an unknown name is compared with a decoy, and refused. *)
Definition verify_user (s : PortalUserStore) (username password : string) : bool :=
  match dget (us_users s) username with
  | None => false
  | Some u => verify_password scrypt password (pu_password_hash u)
  end.

Definition add_user (username password : string) (salt : list Z) (created_at : Z) (created_by note : string)
  (is_demo : bool) : M PortalUserStore PortalUser :=
  s ← mget;
  if dmem (us_users s) username then mraise (ConfigurationError ("portal user '" +:+ username +:+ "' already exists"))
  else
    user ← mlift (portal_user (mk_user username (hash_password scrypt password salt) created_at created_by note is_demo));
    _ ← mmodify (λ s, us_with s (dset (us_users s) username user));
    _ ← persist_users;
    mret user.

(** [model_copy(update=...)] does not re-validate. *)
Definition set_user_password (username password : string) (salt : list Z) : M PortalUserStore PortalUser :=
  s ← mget;
  match dget (us_users s) username with
  | None => mraise (ConfigurationError ("portal user '" +:+ username +:+ "' does not exist"))
  | Some u =>
      let updated := mk_user (pu_username u) (hash_password scrypt password salt) (pu_created_at u)
                       (pu_created_by u) (pu_note u) false in
      _ ← mmodify (λ s, us_with s (dset (us_users s) username updated));
      _ ← persist_users;
      mret updated
  end.

Definition remove_user (username : string) : M PortalUserStore bool :=
  s ← mget;
  match dget (us_users s) username with
  | None => mret false
  | Some _ =>
      _ ← mput (us_with s (dpop (us_users s) username));
      _ ← persist_users;
      mret true
  end.
End Store.

(** ** The startup rule (portal/demo_policy.py) *)

Record PortalStartConfig : Type := mk_portal_start {
  psc_enabled : bool;
  psc_allow_demo_accounts : bool;
  psc_enforcement_mode : EnforcementMode;
}.

Definition refuse_demo_accounts_when_enforcing (c : PortalStartConfig) (codec : Codec) (disk : UserFile) (io_ok : bool) : result unit :=
  if negb (psc_enabled c) || psc_allow_demo_accounts c then Ok tt
  else if decide (psc_enforcement_mode c = MODE_SHADOW) then Ok tt
  else rbind (open_user_store codec disk io_ok) (λ s,
         match demo_usernames s with
         | [] => Ok tt
         | _ => Raise (ConfigurationError "refusing to start: portal demo accounts still exist")
         end).

(** ** Theorems *)

Definition users_ok (s : PortalUserStore) : Prop :=
  dwf (us_users s) ∧ ∀ n u, dget (us_users s) n = Some u → pu_username u = n ∧ portal_user_ok u = true ∧ is_datetime (pu_created_at u).

(** The store a restart would open holds the same accounts. *)
Definition reopens (s : PortalUserStore) : Prop :=
  ∀ io, ∃ s', open_user_store (us_codec s) (us_disk s) io = Ok s' ∧ ∀ n, get_user s' n = get_user s n.

Lemma users_ok_set s n u : users_ok s → pu_username u = n → portal_user_ok u = true → is_datetime (pu_created_at u) →
  users_ok (us_with s (dset (us_users s) n u)).
Proof.
  intros [Hwf Hall] Hn Hu Ht. split; [by apply dwf_set|]. intros n' u'. cbn [us_users us_with]. rewrite dget_set.
  case_decide; [intros [= <-]; by subst|]. apply Hall.
Qed.

Lemma users_ok_pop s n : users_ok s → users_ok (us_with s (dpop (us_users s) n)).
Proof.
  intros [Hwf Hall]. split; [by apply dwf_pop|]. intros n' u'. cbn [us_users us_with]. rewrite dget_pop.
  case_decide; [done|]. apply Hall.
Qed.

Lemma users_ok_pops l : ∀ s, users_ok s → users_ok (us_with s (foldl dpop (us_users s) l)).
Proof.
  induction l as [|n l IH]; intros s Hs; [by destruct s|]. simpl.
  specialize (IH _ (users_ok_pop s n Hs)). exact IH.
Qed.

(** The keys of an account in the order of the file *)
Lemma sorted_user c u : sort_keys (dump_user c u) =
  [("created_at", JStr (dump_datetime c (pu_created_at u))); ("created_by", JStr (pu_created_by u)); ("is_demo", JBool (pu_is_demo u));
   ("note", JStr (pu_note u)); ("password_hash", JStr (pu_password_hash u)); ("username", JStr (pu_username u))].
Proof. reflexivity. Qed.
(** Every field comes back as it was written. *)
Lemma user_round_trip c u : codec_law c → is_datetime (pu_created_at u) → portal_user_ok u = true → load_user c (JObj (sort_keys (dump_user c u))) = Ok u.
Proof.
  intros [_ Hd Hb] Ht Hok. rewrite sorted_user. unfold load_user. set (o := [_; _; _; _; _; _]).
  change (forallb (λ k, inb k _FIELDS) (dkeys o)) with true. cbv iota.
  change (dget o "username") with (Some (JStr (pu_username u))). change (dget o "password_hash") with (Some (JStr (pu_password_hash u))).
  change (dget o "created_at") with (Some (JStr (dump_datetime c (pu_created_at u)))). change (dget o "created_by") with (Some (JStr (pu_created_by u))).
  change (dget o "note") with (Some (JStr (pu_note u))). change (dget o "is_demo") with (Some (JBool (pu_is_demo u))).
  cbn [mbind option_bind as_str]. rewrite Hd, Hb by done. destruct u. unfold portal_user. cbn [pu_username pu_password_hash pu_created_at pu_created_by pu_note pu_is_demo]. by rewrite Hok.
Qed.
Lemma payload_ok s : json_ok (payload s).
Proof.
  unfold payload. cbn [json_ok]. induction (list_users s) as [|u us IH]; [done|]. cbn [fmap list_fmap foldr]. split; [|exact IH]. rewrite sorted_user.
  cbn [json_ok fmap list_fmap foldr fst snd]. split; [|done]. apply (bool_decide_unpack _). vm_compute. exact I.
Qed.
Lemma users_round_trip c us : codec_law c → Forall (λ u, is_datetime (pu_created_at u) ∧ portal_user_ok u = true) us →
  load_users c ((λ u, JObj (sort_keys (dump_user c u))) <$> us) = Ok us.
Proof.
  intros Hc. induction 1 as [|u us [Ht Hu] _ IH]; [done|]. cbn [fmap list_fmap load_users]. by rewrite user_round_trip, IH.
Qed.

Lemma persist_spec s r s' : users_ok s → codec_law (us_codec s) → persist_users s = (r, s') →
  us_users s' = us_users s ∧ (r = Ok tt → users_ok s' ∧ reopens s').
Proof.
  intros [Hwf Hall] Hc Hp. unfold persist_users in Hp. destruct (us_io_ok s); injection Hp as <- <-; [|done].
  split; [done|]. intros _. split; [by split|]. intros io. unfold open_user_store, user_reload. cbn [us_disk us_codec].
  rewrite (cl_json _ Hc _ (payload_ok s)). unfold payload. rewrite users_round_trip; [|done|].
  - eexists. split; [done|]. intros n. unfold get_user. cbn [us_users us_with].
    apply rebuild_sorted; [done|]. intros j e Hj. by destruct (Hall j e Hj).
  - apply Forall_forall. intros u Hu. unfold list_users in Hu. rewrite elem_of_py_sorted in Hu. unfold dvalues in Hu.
    apply list_elem_of_fmap in Hu as ([n u'] & -> & Hin). destruct (Hall n u') as (_ & Hok & Ht); [by apply dget_elem|]. done.
Qed.

Lemma hash_nonempty scrypt p salt : String.eqb (hash_password scrypt p salt) "" = false.
Proof. unfold hash_password. by destruct (bytes_hex salt). Qed.

(** C34: Accounts survive a restart and passwords work: whenever an account
    operation succeeds, the file it wrote, read back through JSON and the
    model's validation, reopens to exactly the accounts in memory, every field
    as it was; an added account, and one whose password was changed, accepts
    that password and any other only if scrypt maps both to the same key; a
    removed one accepts none. *)
Theorem portal_accounts_survive_restart scrypt s name password salt at_ by_ note demo :
  scrypt_law scrypt → Forall byte_ok salt → codec_law (us_codec s) → is_datetime at_ → users_ok s →
  (∀ u s', add_user scrypt name password salt at_ by_ note demo s = (Ok u, s') →
     users_ok s' ∧ reopens s' ∧ get_user s name = None ∧
     ∀ q, verify_user scrypt s' name q = bool_decide (scrypt q salt _KEY_LENGTH = scrypt password salt _KEY_LENGTH)) ∧
  (∀ u s', set_user_password scrypt name password salt s = (Ok u, s') →
     users_ok s' ∧ reopens s' ∧ pu_is_demo u = false ∧
     ∀ q, verify_user scrypt s' name q = bool_decide (scrypt q salt _KEY_LENGTH = scrypt password salt _KEY_LENGTH)) ∧
  (∀ s', remove_user name s = (Ok true, s') →
     users_ok s' ∧ reopens s' ∧ ∀ q, verify_user scrypt s' name q = false).
Proof.
  intros Hlaw Hsalt Hc Hat Hok. split; [|split].
  - intros u s' Hadd. unfold add_user, mbind, m_bind, mget, mlift, mmodify in Hadd.
    destruct (dmem (us_users s) name) eqn:Hmem; [done|]. unfold portal_user in Hadd.
    destruct (portal_user_ok _) eqn:Huok; [|done]. cbv beta iota in Hadd.
    destruct (persist_users _) as [r s2] eqn:Hp. destruct r as [[]|]; [|done]. injection Hadd as <- <-.
    pose proof (users_ok_set s name (mk_user name _ at_ by_ note demo) Hok eq_refl Huok Hat) as Hok2.
    destruct (persist_spec _ _ _ Hok2 Hc Hp) as [Husers Hre]. destruct (Hre eq_refl) as [? ?].
    split; [done|]. split; [done|]. split; [unfold dmem, get_user in *; by destruct (dget _ _)|].
    intros q. unfold verify_user. rewrite Husers. cbn [us_users us_with]. rewrite dget_set_eq. by apply verify_hash.
  - intros u s' Hset. unfold set_user_password, mbind, m_bind, mget, mmodify in Hset.
    destruct (dget (us_users s) name) as [u0|] eqn:Hu0; [|done].
    destruct (persist_users _) as [r s2] eqn:Hp. destruct r as [[]|]; [|done]. injection Hset as <- <-.
    destruct (proj2 Hok name u0 Hu0) as (Hn & Hu & Hat0).
    assert (Hok2 : portal_user_ok (mk_user (pu_username u0) (hash_password scrypt password salt) (pu_created_at u0)
                     (pu_created_by u0) (pu_note u0) false) = true).
    { unfold portal_user_ok in *. cbn in *. rewrite hash_nonempty. bool_prop. by rewrite !andb_true_iff, !Z.leb_le, !negb_true_iff. }
    destruct (persist_spec _ _ _ (users_ok_set s name (mk_user (pu_username u0) _ _ _ _ false) Hok Hn Hok2 Hat0) Hc Hp) as [Husers Hre]. destruct (Hre eq_refl) as [? ?].
    split; [done|]. split; [done|]. split; [done|].
    intros q. unfold verify_user. rewrite Husers. cbn [us_users us_with]. rewrite dget_set_eq. by apply verify_hash.
  - intros s' Hrm. unfold remove_user, mbind, m_bind, mget, mput in Hrm.
    destruct (dget (us_users s) name) as [u0|] eqn:Hu0; [|done].
    destruct (persist_users _) as [r s2] eqn:Hp. destruct r as [[]|]; [|done]. injection Hrm as <-.
    destruct (persist_spec _ _ _ (users_ok_pop s name Hok) Hc Hp) as [Husers Hre]. destruct (Hre eq_refl) as [? ?].
    split; [done|]. split; [done|]. intros q. unfold verify_user. rewrite Husers. cbn [us_users us_with].
    by rewrite dget_pop, decide_True.
Qed.

(** Bytes repeated from the password: enough to run the store. *)
Definition toy_scrypt (p : string) (salt : list Z) (n : Z) : list Z :=
  replicate (Z.to_nat n) (Z.of_nat (String.length p) mod 256).

Lemma toy_scrypt_law : scrypt_law toy_scrypt.
Proof.
  intros p salt n Hn. unfold toy_scrypt. rewrite length_replicate. split; [lia|].
  apply Forall_replicate. unfold byte_ok. pose proof (Z.mod_pos_bound (Z.of_nat (String.length p)) 256). lia.
Qed.

(** A codec that writes a value as the bits of its code *)
Notation tree := (gen_tree (bool + Z + string)).
Fixpoint to_tree (v : json) : tree :=
  match v with
  | JNull => GenNode 0 []
  | JBool b => GenLeaf (inl (inl b))
  | JInt n => GenLeaf (inl (inr n))
  | JStr s => GenLeaf (inr s)
  | JList l => GenNode 1 (map to_tree l)
  | JObj o => GenNode 2 (map (λ x, GenNode 3 [GenLeaf (inr x.1); to_tree x.2]) o)
  end.
Fixpoint of_tree (x : tree) : json :=
  match x with
  | GenLeaf (inl (inl b)) => JBool b
  | GenLeaf (inl (inr n)) => JInt n
  | GenLeaf (inr s) => JStr s
  | GenNode 1 l => JList (map of_tree l)
  | GenNode 2 l => JObj (map (λ x, match x with GenNode 3 [GenLeaf (inr k); y] => (k, of_tree y) | _ => ("", JNull) end) l)
  | _ => JNull
  end.
Lemma of_to_tree : ∀ v, of_tree (to_tree v) = v.
Proof.
  fix go 1. intros [|b|n|s|l|o]; cbn; try reflexivity.
  - f_equal. induction l as [|x l IH]; cbn; [reflexivity|]. f_equal; [apply go|exact IH].
  - f_equal. induction o as [|[k x] o IH]; cbn; [reflexivity|]. f_equal; [f_equal; apply go|exact IH].
Qed.
#[global] Instance json_eq_dec : EqDecision json.
Proof.
  intros v w. destruct (decide (to_tree v = to_tree w)) as [H|H]; [left|right; congruence].
  by rewrite <- (of_to_tree v), H, of_to_tree.
Defined.
#[global] Instance json_countable : Countable json := inj_countable' to_tree of_tree of_to_tree.

Fixpoint bits (p : positive) : string :=
  match p with xH => "" | xO p => String "0" (bits p) | xI p => String "1" (bits p) end.
Fixpoint of_bits (t : string) : positive :=
  match t with
  | String "0" t => xO (of_bits t)
  | String "1" t => xI (of_bits t)
  | _ => xH
  end.
Lemma of_bits_bits p : of_bits (bits p +:+ line_feed) = p.
Proof.
  induction p as [p IH|p IH|]; [| |reflexivity].
  - change (xI (of_bits (bits p +:+ line_feed)) = xI p). by rewrite IH.
  - change (xO (of_bits (bits p +:+ line_feed)) = xO p). by rewrite IH.
Qed.
Definition toy_codec : Codec := mk_codec
  (λ v, bits (encode v)) (λ t, decode (of_bits t)) (λ t, bits (encode t) +:+ line_feed)
  (λ v, as_str (Some v) ≫= λ t, decode (of_bits t)) (λ v, match v with JBool b => Some b | _ => None end).
Lemma toy_codec_law : codec_law toy_codec.
Proof.
  split; cbn [json_loads json_dump read_datetime dump_datetime read_bool toy_codec]; [| |done].
  - intros v _. rewrite of_bits_bits. apply decode_encode.
  - intros t _. cbn [as_str mbind option_bind]. rewrite of_bits_bits. apply decode_encode.
Qed.

Lemma portal_accounts_survive_restart_witness :
  let s := mk_user_store [] Missing toy_codec true in
  (∀ u s', add_user toy_scrypt "alice" "secret" [1; 2] 0 "admin" "" false s = (Ok u, s') →
     users_ok s' ∧ reopens s' ∧ get_user s "alice" = None ∧
     ∀ q, verify_user toy_scrypt s' "alice" q =
       bool_decide (toy_scrypt q [1; 2] _KEY_LENGTH = toy_scrypt "secret" [1; 2] _KEY_LENGTH)) ∧
  (∀ u s', set_user_password toy_scrypt "alice" "secret" [1; 2] s = (Ok u, s') →
     users_ok s' ∧ reopens s' ∧ pu_is_demo u = false ∧
     ∀ q, verify_user toy_scrypt s' "alice" q =
       bool_decide (toy_scrypt q [1; 2] _KEY_LENGTH = toy_scrypt "secret" [1; 2] _KEY_LENGTH)) ∧
  (∀ s', remove_user "alice" s = (Ok true, s') →
     users_ok s' ∧ reopens s' ∧ ∀ q, verify_user toy_scrypt s' "alice" q = false).
Proof.
  apply (portal_accounts_survive_restart toy_scrypt).
  - exact toy_scrypt_law.
  - repeat constructor; done.
  - exact toy_codec_law.
  - split; vm_compute; discriminate.
  - split; [apply dwf_nil|done].
Defined.

(** With the policy on, an enforcing start needs a readable store with no
    demo account. *)
Lemma demo_policy_exact c codec disk io :
  refuse_demo_accounts_when_enforcing c codec disk io = Ok tt ↔
  psc_enabled c = false ∨ psc_allow_demo_accounts c = true ∨ psc_enforcement_mode c = MODE_SHADOW ∨
  ∃ s, open_user_store codec disk io = Ok s ∧ ∀ n u, (n, u) ∈ us_users s → pu_is_demo u = false.
Proof.
  unfold refuse_demo_accounts_when_enforcing.
  destruct (psc_enabled c), (psc_allow_demo_accounts c); cbn [negb orb]; try naive_solver.
  destruct (decide _) as [?|Hmode]; [naive_solver|]. destruct (open_user_store codec disk io) as [s|e]; cbn [rbind]; [|naive_solver].
  destruct (demo_usernames s) as [|d ds] eqn:Hd; unfold demo_usernames in Hd.
  - split; [|done]. intros _. do 3 right. exists s. split; [done|]. intros n u Hin.
    destruct (pu_is_demo u) eqn:Hu; [|done]. exfalso.
    assert (Hin' : pu_username u ∈ ([] : list string)); [|set_solver]. rewrite <- Hd, elem_of_py_sorted.
    apply list_elem_of_fmap. exists u. split; [done|]. apply list_elem_of_filter. split; [done|].
    unfold dvalues. apply list_elem_of_fmap. by exists (n, u).
  - split; [done|]. intros [?|[?|[?|(s' & [= <-] & Hno)]]]; try done. exfalso.
    assert (Hin : d ∈ d :: ds) by set_solver. rewrite <- Hd, elem_of_py_sorted in Hin.
    apply list_elem_of_fmap in Hin as (u & _ & [Hu Hin]%list_elem_of_filter).
    unfold dvalues in Hin. apply list_elem_of_fmap in Hin as ([n u'] & -> & Hin). cbn in Hu. by rewrite (Hno n u') in Hu.
Qed.
