(* ===== verification/PortalService.v ===== *)
(** * The portal's kernel grants (firewall/interface.py, firewall/manager.py)

    [PortalBackendLaws] is what [FirewallBackend] documents about the
    [authed] set: which grants it holds, and how authorising, deauthorising
    and listing change them.  A call that fails changed nothing or did all of
    its work (the nft run of the production backend may be killed after its
    commit).  The in-memory backend and the production backend satisfy it;
    from it follow the contracts of the manager's portal methods. *)

From S2P Require Import Prelude Float Net Models Sets SetBackend Backend Manager Json NftRules.
Local Open Scope Z_scope.

(** An IPv4 address, and a MAC in lower case, as every MAC of the system is. *)
Definition grant_normal (g : PortalGrant) : Prop := IPv4.valid g.1 ∧ ∀ m, g.2 = Some m → str_lower m = m.

Section Effects.
Context {F : Type} (grant : F → PortalGrant → Prop).
Definition grants_kept (f f' : F) : Prop := ∀ g, grant f' g ↔ grant f g.
Definition grant_added (ip : IPv4.t) (mac : option string) (f f' : F) : Prop :=
  grant f' (ip, mac) ∧ (∀ g, g.1 ≠ ip → grant f' g ↔ grant f g) ∧ (∀ g, grant f' g → g = (ip, mac) ∨ grant f g).
Definition grant_removed (ip : IPv4.t) (mac : option string) (f f' : F) : Prop := ∀ g, grant f' g ↔ grant f g ∧ g ≠ (ip, mac).
End Effects.

(** [pb_wf]: the grants the backend tells apart by their texts. *)
Class PortalBackendLaws (F : Type) `{FirewallBackend F} := {
  pb_grant : F → PortalGrant → Prop;
  pb_wf : PortalGrant → Prop;
  pb_normal_wf : ∀ g, grant_normal g → pb_wf g;
  pb_authorize_law : ∀ ip t mac f r f', pb_wf (ip, mac) → 0 < t → fb_authorize_portal_client ip t mac f = (r, f') →
    match r with
    | Ok _ => grant_added pb_grant ip mac f f'
    | Raise e => (grants_kept pb_grant f f' ∨ grant_added pb_grant ip mac f f') ∧ ∃ msg, e = FirewallError msg
    end;
  pb_deauthorize_law : ∀ ip mac f r f', pb_wf (ip, mac) → fb_deauthorize_portal_client ip mac f = (r, f') →
    match r with
    | Ok _ => grant_removed pb_grant ip mac f f'
    | Raise e => (grants_kept pb_grant f f' ∨ grant_removed pb_grant ip mac f f') ∧ ∃ msg, e = FirewallError msg
    end;
  pb_list_law : ∀ f r f', fb_list_portal_grants f = (r, f') →
    grants_kept pb_grant f f' ∧
    match r with
    | Ok gs => ∀ g, (g ∈ gs ↔ pb_grant f g) ∧ (g ∈ gs → pb_wf g)
    | Raise e => ∃ msg, e = FirewallError msg
    end;
}.

(** ** The in-memory backend *)

Definition fake_live (b : FakeFirewallBackend) (p : IPv4.t * option Z) : Prop :=
  match fbk_now b with Some now => portal_live now p = true | None => True end.

Definition fake_grant (b : FakeFirewallBackend) (g : PortalGrant) : Prop :=
  (∃ e, (g.1, e) ∈ fbk_portal_clients b ∧ fake_live b (g.1, e)) ∧
  default None (dget (fbk_portal_macs b) g.1) = g.2.

Lemma elem_of_dset {K V} `{EqDecision K} (d : list (K * V)) k v p :
  p ∈ dset d k v → p = (k, v) ∨ p ∈ d.
Proof.
  induction d as [|[k0 v0] d IH]; simpl; [set_solver|]. case_decide; [subst|]; rewrite !elem_of_cons; naive_solver.
Qed.

Lemma elem_of_dset_other {K V} `{EqDecision K} (d : list (K * V)) k v p :
  p.1 ≠ k → p ∈ dset d k v ↔ p ∈ d.
Proof.
  intros Hp. split; [intros [->|]%elem_of_dset; done|].
  induction d as [|[k0 v0] d IH]; simpl; [set_solver|]. case_decide; [subst|]; rewrite !elem_of_cons; naive_solver.
Qed.

Lemma elem_of_dpop {K V} `{EqDecision K} (d : list (K * V)) k p : p ∈ dpop d k ↔ p ∈ d ∧ p.1 ≠ k.
Proof.
  induction d as [|[k0 v0] d IH]; simpl; [set_solver|].
  case_decide; [subst|]; rewrite ?elem_of_cons, IH; naive_solver.
Qed.

Lemma dget_filter_key {K V} `{EqDecision K} (d : list (K * V)) (P : K * V → Prop) `{!∀ p, Decision (P p)} k :
  (∀ v, P (k, v)) → dget (filter P d) k = dget d k.
Proof.
  intros HP. induction d as [|[k0 v0] d IH]; [done|]. rewrite filter_cons.
  destruct (decide (P (k0, v0))); cbn [dget]; case_decide; subst; [done|done| |done]. naive_solver.
Qed.

Lemma fake_list_clients_spec b r b' : fake_list_portal_clients b = (r, b') →
  (∀ g, fake_grant b' g ↔ fake_grant b g) ∧
  ∃ ips, r = Ok ips ∧ ∀ ip, ip ∈ ips ↔ ∃ e, (ip, e) ∈ fbk_portal_clients b ∧ fake_live b (ip, e).
Proof.
  unfold fake_list_portal_clients. destruct (fbk_now b) as [now|] eqn:Hnow; intros [= <- <-].
  - set (live := filter (λ p, portal_live now p = true) (fbk_portal_clients b)).
    assert (Hlive : ∀ ip, ip ∈ dkeys live ↔ ∃ e, (ip, e) ∈ fbk_portal_clients b ∧ fake_live b (ip, e)).
    { intros ip. unfold dkeys, fake_live. rewrite Hnow, list_elem_of_fmap. split.
      - intros ([ip' e] & -> & [Hl Hin]%list_elem_of_filter). by exists e.
      - intros (e & Hin & Hl). exists (ip, e). split; [done|]. by apply list_elem_of_filter. }
    split; [|eexists; split; [done|exact Hlive]].
    intros [ip mac]. unfold fake_grant, fake_live. cbn [fst snd fbk_portal_clients fbk_with_portal fbk_now fbk_portal_macs].
    rewrite Hnow. split.
    + intros [(e & [Hl Hin]%list_elem_of_filter & _) Hm]. split; [by exists e|]. rewrite <- Hm. f_equal. symmetry.
      apply dget_filter_key. intros ?. apply Hlive. exists e. unfold fake_live. by rewrite Hnow.
    + intros [(e & Hin & Hl) Hm]. split; [exists e; split; [by apply list_elem_of_filter|done]|]. rewrite <- Hm. f_equal.
      apply dget_filter_key. intros ?. apply Hlive. exists e. unfold fake_live. by rewrite Hnow.
  - split; [done|]. eexists. split; [done|]. intros ip. unfold dkeys, fake_live. rewrite Hnow, list_elem_of_fmap. split.
    + intros ([ip' e] & -> & Hin). by exists e.
    + intros (e & Hin & _). by exists (ip, e).
Qed.

#[global] Instance fake_portal_laws : PortalBackendLaws FakeFirewallBackend.
Proof.
  refine (Build_PortalBackendLaws _ _ fake_grant (λ _, True) _ _ _ _); [done|..].
  - intros ip t mac b r b' _ Ht. cbn. unfold fake_authorize_portal_client.
    destruct (fbk_fail_on_portal b); intros [= <- <-]; [split; [by left|by eexists]|].
    unfold grant_added, fake_grant, fake_live. cbn [fst snd fbk_portal_clients fbk_with_portal fbk_now fbk_portal_macs].
    split; [|split].
    + split; [|by rewrite dget_set_eq]. eexists. split; [apply dget_Some_elem, dget_set_eq|].
      destruct (fbk_now b); [|done]. cbn. apply Z.ltb_lt. unfold seconds, us_per_second. lia.
    + intros [ip' mac'] Hne. cbn in Hne |- *. rewrite dget_set_ne by done.
      setoid_rewrite (elem_of_dset_other _ _ _ (ip', _)); done.
    + intros [ip' mac'] [(e & Hin & Hl) Hm]. cbn in *. destruct (decide (ip' = ip)) as [->|Hne].
      * rewrite dget_set_eq in Hm. left. by subst.
      * right. rewrite dget_set_ne in Hm by done. apply elem_of_dset in Hin as [?|]; [naive_solver|]. eauto.
  - intros ip mac b r b' _. cbn. unfold fake_deauthorize_portal_client.
    destruct (fbk_fail_on_portal b); [intros [= <- <-]; split; [by left|by eexists]|].
    case_decide as Hmac; intros [= <- <-]; intros [ip' mac']; unfold fake_grant, fake_live;
      cbn [fst snd fbk_portal_clients fbk_with_portal fbk_now fbk_portal_macs].
    + setoid_rewrite elem_of_dpop. cbn [fst]. rewrite dget_pop. case_decide; subst; cbn; split; naive_solver.
    + split; [|tauto]. intros Hg. split; [done|]. intros [= -> ->]. destruct Hg as [_ Hg]. done.
  - intros b r b'. cbn. unfold fake_list_portal_grants, mbind, m_bind.
    destruct (fake_list_portal_clients b) as [r1 b1] eqn:Hl.
    destruct (fake_list_clients_spec _ _ _ Hl) as (Heq & ips & -> & Hips). cbn. intros [= <- <-].
    split; [done|]. intros [ip mac]. split; [|done]. rewrite list_elem_of_fmap. rewrite <- Heq. split.
    + intros (ip' & [= -> ->] & Hin). apply Hips in Hin as (e & Hin & Hlv). apply Heq. split; [by exists e|]. cbn.
      assert (Hg : fake_grant b1 (ip', default None (dget (fbk_portal_macs b) ip'))).
      { apply Heq. split; [by exists e|done]. }
      destruct Hg as [_ Hg]. cbn in Hg. by rewrite Hg.
    + intros Hg. exists ip. split; [destruct Hg as [_ Hg]; cbn in Hg; by rewrite Hg|].
      apply Hips. apply Heq in Hg as [(e & ? & ?) _]. by exists e.
Defined.

(** ** The production backend *)

Section Production.
Context {T : Type} (nft : list string → option json → M T json) {NC : NftV1Contract T nft} (exn_text : exn → string).

Lemma grant_of_normal ip mac : grant_normal (ip, mac) → grant_of ip mac = (ip, mac).
Proof. intros [_ Hm]. unfold grant_of. destruct mac as [m|]; [|done]. cbn. by rewrite (Hm m). Qed.

Lemma lower_twice c : Mac.lower (Mac.lower c) = Mac.lower c.
Proof. by destruct c as [[] [] [] [] [] [] [] []]. Qed.
Lemma str_lower_twice m : str_lower (str_lower m) = str_lower m.
Proof.
  unfold str_lower. rewrite string_to_of_list, <- list_fmap_compose. f_equal. apply list_fmap_ext. intros _ c _. apply lower_twice.
Qed.
Lemma value_grant_normal v g : value_grant v = Some g → grant_normal g.
Proof.
  assert (Hn : ∀ a s m, IPv4.parse s = Some a → (∀ m', m = Some m' → str_lower m' = m') → grant_normal (a, m)).
  { intros a s m Hp Hm. split; [by eapply IPv4.parse_valid|done]. }
  destruct v as [| | | |l|d]; try done; cbn [value_grant].
  - destruct (IPv4.parse _) as [a|] eqn:Hp; [|done]. intros [= <-]. by eapply Hn.
  - destruct (as_list (dget d "concat")) as [|[] [|[] []]]; try done. destruct (IPv4.parse _) as [a|] eqn:Hp; [|done].
    intros [= <-]. eapply Hn; [done|]. intros m' [= <-]. apply str_lower_twice.
Qed.
Lemma element_grant_normal e g : _portal_element_grant e = Some g → grant_normal g.
Proof.
  destruct e as [| | | | |d]; cbn [_portal_element_grant]; try apply value_grant_normal.
  destruct (dget d "elem") as [x|]; [|apply value_grant_normal]. destruct (as_dict x); [|done]. apply value_grant_normal.
Qed.

Definition v1_grant (b : NftablesBackend T) (g : PortalGrant) : Prop := is_Some (NftRules.granted (NftRules.kernel_of nft b) g).

Lemma authorized_added ip t mac b b' : grant_normal (ip, mac) →
  authorized ip t mac (NftRules.kernel_of nft b) (NftRules.kernel_of nft b') → grant_added v1_grant ip mac b b'.
Proof.
  intros Hn [Hoth Hone]. rewrite grant_of_normal in * by done. unfold grant_added, v1_grant. rewrite Hone. split; [by case_match|].
  split; [intros g Hne; rewrite Hoth; [done|by intros ->]|]. intros g Hg. destruct (decide (g = (ip, mac))) as [->|Hne]; [by left|right].
  by rewrite <- Hoth.
Qed.
Lemma deauthorized_removed ip mac b b' : grant_normal (ip, mac) →
  deauthorized ip mac (NftRules.kernel_of nft b) (NftRules.kernel_of nft b') → grant_removed v1_grant ip mac b b'.
Proof.
  intros Hn Hd g. unfold v1_grant. rewrite Hd, grant_of_normal by done. case_decide as Hg; [|tauto]. split; [by intros [? ?]|tauto].
Qed.

#[local] Instance v1_portal_laws : PortalBackendLaws (NftablesBackend T) (H := v1_backend nft exn_text).
Proof.
  refine (Build_PortalBackendLaws _ (v1_backend nft exn_text) v1_grant grant_normal _ _ _ _); [done|..].
  - intros ip t mac b r b' Hn Ht Hr0. pose proof (v1_authorize_spec nft exn_text ip t mac b r b' (proj1 Hn) Ht Hr0) as Hr. destruct r as [[]|e]; [by eapply authorized_added|].
    destruct Hr as [He [Hk|Ha]]; (split; [|exact He]); [left|right; by eapply authorized_added]. intros g. unfold v1_grant. by rewrite Hk.
  - intros ip mac b r b' Hn Hr0. pose proof (v1_deauthorize_spec nft ip mac b r b' (proj1 Hn) Hr0) as Hr. destruct r as [[]|e]; [by eapply deauthorized_removed|].
    destruct Hr as [He [Hk|Ha]]; (split; [|exact He]); [left|right; by eapply deauthorized_removed]. intros g. unfold v1_grant. by rewrite Hk.
  - intros b r b' Hr0. pose proof (v1_grants_spec nft b r b' Hr0) as [Hk Hr]. split; [intros g; unfold v1_grant; by rewrite Hk|]. destruct r as [gs|e]; [|done].
    intros g. destruct (Hr g) as [Hiff Hel]. split; [exact Hiff|]. intros Hin. destruct (Hel Hin) as [e He]. by eapply element_grant_normal.
Defined.
End Production.

(** ** The manager's portal methods *)

Section ManagerPortal.
Context {B F : Type} {SB : SetBackend B} {FB : FirewallBackend F} {PBL : PortalBackendLaws F}.
Notation FM := (FirewallManager B F).
Implicit Types (m : FM).

Definition granted m (g : PortalGrant) : Prop := pb_grant (m_backend m) g.

(** Two managers that differ in their backend only. *)
Definition only_backend m m' : Prop := ∃ f, m' = set_backend m f.

Lemma only_backend_refl m : only_backend m m.
Proof. exists (m_backend m). by destruct m. Qed.

Lemma only_backend_trans m1 m2 m3 : only_backend m1 m2 → only_backend m2 m3 → only_backend m1 m3.
Proof. intros [f ->] [f' ->]. by exists f'. Qed.

Lemma authorize_spec ip t mac m r m' : pb_wf (ip, mac) → 0 < t → authorize_portal_client ip t mac m = (r, m') →
  only_backend m m' ∧
  match r with
  | Ok _ => IPv4.contains (c_protected_network (m_config m)) ip = true ∧ grant_added granted ip mac m m'
  | Raise e => (grants_kept granted m m' ∨ grant_added granted ip mac m m' ∧
                 ∃ msg, (fb_authorize_portal_client ip t mac (m_backend m)).1 = Raise (FirewallError msg)) ∧ ∃ msg, e = FirewallError msg
  end.
Proof.
  intros Hwf Ht. unfold authorize_portal_client, mbind, m_bind, mget.
  destruct (IPv4.contains _ _) eqn:Hc; cbn [negb].
  - unfold on_backend. destruct (fb_authorize_portal_client ip t mac (m_backend m)) as [r' f'] eqn:Hf.
    intros [= <- <-]. split; [by exists f'|]. pose proof (pb_authorize_law _ _ _ _ _ _ Hwf Ht Hf) as Hlaw.
    destruct r' as [[]|e]; [by split|]. destruct Hlaw as [[Hk|Ha] [msg ->]]; (split; [|by eexists]); [by left|right]. split; [exact Ha|by eexists].
  - intros [= <- <-]. split; [apply only_backend_refl|]. split; [by left|by eexists].
Qed.

Lemma on_deauthorize_spec ip mac m r m' : pb_wf (ip, mac) →
  on_backend (fb_deauthorize_portal_client ip mac) m = (r, m') →
  only_backend m m' ∧
  match r with
  | Ok _ => grant_removed granted ip mac m m'
  | Raise e => (grants_kept granted m m' ∨ grant_removed granted ip mac m m') ∧ ∃ msg, e = FirewallError msg
  end.
Proof.
  intros Hwf. unfold on_backend. destruct (fb_deauthorize_portal_client ip mac (m_backend m)) as [r' f'] eqn:Hf.
  intros [= <- <-]. split; [by exists f'|]. exact (pb_deauthorize_law _ _ _ _ _ Hwf Hf).
Qed.

Lemma on_list_grants_spec m r m' : on_backend fb_list_portal_grants m = (r, m') →
  only_backend m m' ∧ grants_kept granted m m' ∧
  match r with Ok gs => ∀ g, (g ∈ gs ↔ granted m g) ∧ (g ∈ gs → pb_wf g) | Raise e => ∃ msg, e = FirewallError msg end.
Proof.
  unfold on_backend. destruct (fb_list_portal_grants (m_backend m)) as [r' f'] eqn:Hf.
  intros [= <- <-]. split; [by exists f'|]. exact (pb_list_law _ _ _ Hf).
Qed.

(** What deauthorising may and must do to the grants. *)
Record deauth_effect (ip : IPv4.t) (mac : option string) (ok : bool) m m' : Prop := {
  de_frame : only_backend m m';
  de_subset : ∀ g, granted m' g → granted m g;
  de_others : ∀ g, g.1 ≠ ip → granted m g → granted m' g;
  de_exact : mac ≠ None → ∀ g, g ≠ (ip, mac) → granted m g → granted m' g;
  de_gone : ok = true → ¬ granted m' (ip, mac);
}.

Lemma deauth_loop_spec ip (gs : list PortalGrant) : Forall (λ g, pb_wf (ip, g.2)) gs → ∀ m r m',
  mfold_unit (λ g : PortalGrant, on_backend (fb_deauthorize_portal_client ip g.2)) gs m = (r, m') →
  only_backend m m' ∧ (∀ g, granted m' g → granted m g) ∧ (∀ g, g.1 ≠ ip → granted m g → granted m' g) ∧
  match r with
  | Ok _ => ∀ mac, mac ∈ gs.*2 → ¬ granted m' (ip, mac)
  | Raise e => ∃ msg, e = FirewallError msg
  end.
Proof.
  induction 1 as [|g0 gs Hwf _ IH]; intros m r m'; cbn [mfold_unit].
  { intros [= <- <-]. split; [apply only_backend_refl|]. split; [done|]. split; [done|]. set_solver. }
  unfold mbind, m_bind. destruct (on_backend _ m) as [r1 m1] eqn:Hd.
  destruct (on_deauthorize_spec _ _ _ _ _ Hwf Hd) as [Hb Hlaw]. destruct r1 as [[]|e].
  - intros Hrest. destruct (IH _ _ _ Hrest) as (Hb' & Hsub & Hoth & Hgone).
    split; [by eapply only_backend_trans|]. split; [intros g Hg; by apply Hlaw, Hsub|].
    split; [intros g Hg Hm; apply Hoth; [done|]; apply Hlaw; split; [done|]; intros ->; done|].
    destruct r as [[]|e]; [|done]. intros mac. rewrite fmap_cons. intros [->|Hin]%elem_of_cons; [|by apply Hgone].
    intros Hg%Hsub. by apply Hlaw in Hg as [_ []].
  - intros [= <- <-]. destruct Hlaw as [[Heq|Hrm] He]; (split; [done|]).
    + split; [intros g; by apply Heq|]. split; [|done]. intros g _. by apply Heq.
    + split; [intros g [? _]%Hrm; done|]. split; [|done]. intros g Hne Hg. apply Hrm. split; [done|]. by intros ->.
Qed.

Lemma deauthorize_spec ip mac m r m' : pb_wf (ip, mac) → deauthorize_portal_client ip mac m = (r, m') →
  match r with
  | Ok _ => deauth_effect ip mac true m m'
  | Raise e => deauth_effect ip mac false m m' ∧ ∃ msg, e = FirewallError msg
  end.
Proof.
  intros Hwf. unfold deauthorize_portal_client. destruct mac as [mac|].
  - intros Hd. destruct (on_deauthorize_spec _ _ _ _ _ Hwf Hd) as [Hb Hlaw].
    assert (Hrm : ∀ ok, grant_removed granted ip (Some mac) m m' → deauth_effect ip (Some mac) ok m m').
    { intros ok Hrm. split; [done|..].
      - intros g Hg. by apply Hrm in Hg as [? _].
      - intros g Hne Hg. apply Hrm. split; [done|]. intros ->. done.
      - intros _ g Hne Hg. by apply Hrm.
      - intros _ Hg. by apply Hrm in Hg as [_ []]. }
    destruct r as [[]|e]; [by apply Hrm|]. destruct Hlaw as [[Heq|Hlaw] He]; (split; [|done]); [|by apply Hrm].
    split; [done|intros g; by apply Heq|intros g _; by apply Heq|intros _ g _; by apply Heq|done].
  - unfold mbind, m_bind, try_firewall. destruct (on_backend fb_list_portal_grants m) as [rl ml] eqn:Hl.
    destruct (on_list_grants_spec _ _ _ Hl) as (Hb & Heq & Hls).
    assert (Hfinish : ∀ gs : list PortalGrant,
      (granted m (ip, None) → None ∈ gs.*2) → Forall (λ g, pb_wf (ip, g.2)) gs →
      mfold_unit (λ g : PortalGrant, on_backend (fb_deauthorize_portal_client ip g.2)) gs ml = (r, m') →
      match r with
      | Ok _ => deauth_effect ip None true m m'
      | Raise e => deauth_effect ip None false m m' ∧ ∃ msg, e = FirewallError msg
      end).
    { intros gs Hnone Hgs Hloop. destruct (deauth_loop_spec _ _ Hgs _ _ _ Hloop) as (Hb' & Hsub & Hoth & Hgone).
      assert (Heff : ∀ ok, (ok = true → ¬ granted m' (ip, None)) → deauth_effect ip None ok m m').
      { intros ok Hok. split; [by eapply only_backend_trans| | |done|exact Hok].
        - intros g Hg. by apply Heq, Hsub.
        - intros g Hne Hg. apply Hoth; [done|]. by apply Heq. }
      destruct r as [[]|e]; [|split; [by apply Heff|done]]. apply Heff. intros _ Hg.
      apply (Hgone None); [|done]. apply Hnone. by apply Heq, Hsub. }
    destruct rl as [gs|e]; [cbn|destruct Hls as [msg ->]; cbn].
    + assert (Hfilter : ∀ g, g ∈ filter (λ g : PortalGrant, g.1 = ip) gs → pb_wf (ip, g.2)).
      { intros [ip' mac'] [Hip Hg]%list_elem_of_filter. cbn in Hip |- *. subst ip'. by apply (Hls (ip, mac')). }
      apply Hfinish.
      * intros Hg. assert (Hin : (ip, None) ∈ filter (λ g : PortalGrant, g.1 = ip) gs)
          by (apply list_elem_of_filter; split; [done|by apply Hls]).
        destruct (filter _ gs) as [|g0 gs'] eqn:Hf; [set_solver|]. apply list_elem_of_fmap. by exists (ip, None).
      * destruct (filter _ gs) as [|g0 gs'] eqn:Hf; [by constructor|]. by apply Forall_forall.
    + apply (Hfinish [(ip, None)]); [intros _; set_solver|by constructor].
Qed.

Lemma grants_spec m : ∃ gs m', authorized_portal_grants m = (Ok gs, m') ∧ only_backend m m' ∧
  grants_kept granted m m' ∧ (∀ g, g ∈ gs → granted m g ∧ pb_wf g) ∧
  (∀ gs', (fb_list_portal_grants (m_backend m)).1 = Ok gs' → ∀ g, granted m g → g ∈ gs).
Proof.
  unfold authorized_portal_grants, try_firewall. destruct (on_backend fb_list_portal_grants m) as [r m'] eqn:Hl.
  destruct (on_list_grants_spec _ _ _ Hl) as (Hb & Heq & Hls). destruct r as [gs|e].
  - exists gs, m'. split; [done|]. split; [done|]. split; [done|]. split; [intros g Hg; by split; apply Hls|].
    intros _ _ g. apply Hls.
  - destruct Hls as [msg ->]. exists [], m'. split; [done|]. split; [done|]. split; [done|]. split; [set_solver|].
    intros gs' Hok. unfold on_backend in Hl. destruct (fb_list_portal_grants (m_backend m)) as [r f]. cbn in Hok. subst r. done.
Qed.
End ManagerPortal.

(** * The captive portal's core half (ipc/portal_service.py)

    [PortalService] owns the login throttle, the session registry and the
    account store, and reaches the kernel through the firewall manager.  Its
    methods run in the state-and-exception monad; [sv_events] is what was
    passed to [on_event] and [sv_failures] what was passed to
    [on_login_failure], newest last.  One call reads the clock once, except
    [sweep], whose two reads are two arguments.  [repr] prints a name in an
    event, [casefold] is the one of [str], [scrypt] the one of hashlib; the
    fresh session token is an argument of [login]. *)

From S2P Require Import Throttle PortalSessions PortalStore.
Local Open Scope Z_scope.

Record PortalConfig : Type := mk_portal_config {
  pcf_enabled : bool;
  pcf_session_timeout_seconds : Z;
  pcf_keepalive_interval_seconds : Z;
  pcf_max_failed_logins_per_ip : Z;
  pcf_failed_login_window_seconds : Z;
  pcf_max_failed_logins_per_account : Z;
  pcf_max_failed_logins_global : Z;
  pcf_max_sessions : Z;
  pcf_contact_message : string;
}.

(** The field constraints of [PortalConfig]. *)
Definition portal_config_wf (c : PortalConfig) : Prop :=
  0 < pcf_session_timeout_seconds c ∧ 0 < pcf_max_failed_logins_per_ip c ∧ 0 < pcf_failed_login_window_seconds c ∧
  0 < pcf_max_failed_logins_per_account c ∧ 0 < pcf_max_failed_logins_global c ∧ 0 < pcf_max_sessions c.

Inductive PortalClientStatus := UNAUTHENTICATED | AUTHENTICATED | SESSION_EXPIRED | BLOCKED.

Record PortalClientState : Type := mk_client_state {
  cs_status : PortalClientStatus;
  cs_username : option string;
  cs_client_ip : IPv4.t;
  cs_seconds_remaining : Z;
  cs_expires_at : option Z;
  cs_message : string;
}.

Definition _BLOCKED_MESSAGE : string :=
  "Malicious activity has been detected from this device and its network access has been suspended.".
Definition _NO_BINDING_MESSAGE : string :=
  "This device does not have an address lease from this network yet. Disconnect from the Wi-Fi, reconnect, and try again.".

Section Service.
Context {B F : Type} {SB : SetBackend B} {FB : FirewallBackend F}.
Context (casefold repr : string → string) (scrypt : string → list Z → Z → list Z).

Record PortalService : Type := mk_service {
  sv_config : PortalConfig;
  sv_bindings : option (IPv4.t → option string);
  sv_manager : FirewallManager B F;
  sv_store : PortalUserStore;
  sv_sessions : PortalSessionRegistry;
  sv_throttle : LoginThrottle;
  sv_events : list SecurityEvent;
  sv_failures : list (string * IPv4.t * option string * Z);
}.

Definition new_service (c : PortalConfig) (m : FirewallManager B F) (store : PortalUserStore)
  (bindings : option (IPv4.t → option string)) : PortalService :=
  mk_service c bindings m store
    (new_registry (pcf_session_timeout_seconds c) (pcf_max_sessions c))
    (new_login_throttle (pcf_max_failed_logins_per_ip c) (pcf_failed_login_window_seconds c)
       DEFAULT_MAX_TRACKED_KEYS (Some (pcf_max_failed_logins_per_account c)) (Some (pcf_max_failed_logins_global c)))
    [] [].

Definition sv_set_manager (s : PortalService) m := mk_service (sv_config s) (sv_bindings s) m (sv_store s)
  (sv_sessions s) (sv_throttle s) (sv_events s) (sv_failures s).
Definition sv_set_store (s : PortalService) x := mk_service (sv_config s) (sv_bindings s) (sv_manager s) x
  (sv_sessions s) (sv_throttle s) (sv_events s) (sv_failures s).
Definition sv_set_sessions (s : PortalService) x := mk_service (sv_config s) (sv_bindings s) (sv_manager s) (sv_store s)
  x (sv_throttle s) (sv_events s) (sv_failures s).
Definition sv_set_throttle (s : PortalService) x := mk_service (sv_config s) (sv_bindings s) (sv_manager s) (sv_store s)
  (sv_sessions s) x (sv_events s) (sv_failures s).
Definition sv_add_event (s : PortalService) e := mk_service (sv_config s) (sv_bindings s) (sv_manager s) (sv_store s)
  (sv_sessions s) (sv_throttle s) (sv_events s ++ [e]) (sv_failures s).
Definition sv_add_failure (s : PortalService) f := mk_service (sv_config s) (sv_bindings s) (sv_manager s) (sv_store s)
  (sv_sessions s) (sv_throttle s) (sv_events s) (sv_failures s ++ [f]).

Definition on_manager {A} (f : M (FirewallManager B F) A) : M PortalService A := λ s,
  let '(r, m) := f (sv_manager s) in (r, sv_set_manager s m).
Definition on_users {A} (f : M PortalUserStore A) : M PortalService A := λ s,
  let '(r, x) := f (sv_store s) in (r, sv_set_store s x).
Definition on_registry {A} (f : M PortalSessionRegistry A) : M PortalService A := λ s,
  let '(r, x) := f (sv_sessions s) in (r, sv_set_sessions s x).
Definition on_sessions {A} (f : PortalSessionRegistry → A * PortalSessionRegistry) : M PortalService A := λ s,
  let '(a, x) := f (sv_sessions s) in (Ok a, sv_set_sessions s x).
Definition on_login_throttle {A} (f : M LoginThrottle A) : M PortalService A := λ s,
  let '(r, x) := f (sv_throttle s) in (r, sv_set_throttle s x).

Definition portal_event (now : Z) (sev : EventSeverity) (ty : SecurityEventType) (reason : string) : SecurityEvent :=
  mk_event now sev ty "portal" None None None (Some reason).
Definition _emit (now : Z) (sev : EventSeverity) (ty : SecurityEventType) (reason : string) : M PortalService unit :=
  mmodify (λ s, sv_add_event s (portal_event now sev ty reason)).

(** ** Internals *)

Definition deauth_error (client_ip : IPv4.t) (msg : string) : string :=
  "could not deauthorize portal client " +:+ IPv4.to_string client_ip +:+ ": " +:+ msg.

Definition _deauthorize (client_ip : IPv4.t) (client_mac : option string) (now : Z) : M PortalService unit :=
  try_firewall (on_manager (deauthorize_portal_client client_ip client_mac))
    (λ msg, _emit now SEV_ERROR FIREWALL_ERROR (deauth_error client_ip msg)).

Definition _revoke (client_ip : IPv4.t) (reason : string) (now : Z) : M PortalService unit :=
  session ← on_sessions (invalidate_ip client_ip);
  _ ← _deauthorize client_ip (session ≫= se_client_mac) now;
  match session with
  | None => mret tt
  | Some s => _emit now SEV_WARNING SYSTEM_WARNING
      ("portal session for " +:+ repr (se_username s) +:+ " at " +:+ IPv4.to_string client_ip +:+ " revoked: " +:+ reason)
  end.

Definition _bound_mac (s : PortalService) (client_ip : IPv4.t) : option string :=
  match sv_bindings s with None => None | Some resolve => resolve client_ip end.

Definition _same_device (s : PortalService) (session : PortalSession) (client_ip : IPv4.t) : bool :=
  match sv_bindings s, se_client_mac session with
  | Some resolve, Some mac => bool_decide (resolve client_ip = Some mac)
  | _, _ => true
  end.

Definition _grant_has_session (client_ip : IPv4.t) (client_mac : option string) (now : Z) : M PortalService bool :=
  session ← on_sessions (get_by_ip client_ip now);
  mret (match session with None => false | Some s => bool_decide (se_client_mac s = client_mac) end).

(** ** Clients *)

Definition lockout_text (client_ip : IPv4.t) (username : string) (l : Lockout) : string :=
  "portal login throttled for " +:+ IPv4.to_string client_ip +:+ " as " +:+ repr username +:+ " ("
  +:+ scope_value (lo_scope l) +:+ " lockout, " +:+ str_Z (lo_retry_after_seconds l) +:+ "s remaining)".

(** The wrong-password branch of [login]. *)
Definition login_failed (username : string) (client_ip : IPv4.t) (client_mac : option string) (now : Z)
  : M PortalService PortalSession :=
  newly ← on_login_throttle (portal_record_failure casefold client_ip now (Some username));
  _ ← mmodify (λ s, sv_add_failure s (username, client_ip, client_mac, now));
  _ ← _emit now SEV_WARNING AUTHENTICATION_FAILURE
        ("portal login failed for username " +:+ repr username +:+ " from " +:+ IPv4.to_string client_ip);
  _ ← mfold_unit (λ scope, _emit now SEV_WARNING AUTHENTICATION_FAILURE
        ("portal login lockout started (" +:+ scope_value scope +:+ ") after a failed login for "
         +:+ repr username +:+ " from " +:+ IPv4.to_string client_ip)) newly;
  mraise (PortalLoginError "Invalid username or password.").

(** The branch of [login] that issues a session and opens the network. *)
Definition login_granted (username : string) (client_ip : IPv4.t) (client_mac : option string) (token : string) (now : Z)
  : M PortalService PortalSession :=
  session ← on_registry (create username client_ip token now client_mac);
  s ← mget;
  _ ← try_firewall
        (on_manager (authorize_portal_client client_ip (pcf_session_timeout_seconds (sv_config s)) client_mac))
        (λ msg,
           _ ← on_sessions (invalidate token);
           _ ← _emit now SEV_ERROR FIREWALL_ERROR
                 ("portal authorization failed for " +:+ IPv4.to_string client_ip +:+ ": " +:+ msg);
           mraise (PortalLoginError "Could not grant network access. Please try again."));
  _ ← on_login_throttle (portal_clear casefold client_ip (Some username));
  let device := match client_mac with
                | None => IPv4.to_string client_ip
                | Some mac => IPv4.to_string client_ip +:+ " (" +:+ mac +:+ ")"
                end in
  _ ← _emit now SEV_INFO FIREWALL_ALLOW
        ("portal login: " +:+ repr username +:+ " authorized " +:+ device +:+ " for "
         +:+ str_Z (pcf_session_timeout_seconds (sv_config s)) +:+ "s");
  mret session.

Definition login (username password : string) (client_ip : IPv4.t) (token : string) (now : Z)
  : M PortalService PortalSession :=
  l ← on_login_throttle (portal_lockout casefold client_ip (Some username) now);
  match l with
  | Some l =>
      _ ← _emit now SEV_WARNING AUTHENTICATION_FAILURE (lockout_text client_ip username l);
      mraise (PortalLoginError ("Too many failed attempts. Try again in "
        +:+ str_Z (lo_retry_after_seconds l) +:+ " seconds."))
  | None =>
      s ← mget;
      match blocking_rules_matching (sv_manager s) client_ip with
      | _ :: _ => mraise (PortalLoginError (_BLOCKED_MESSAGE +:+ " " +:+ pcf_contact_message (sv_config s)))
      | [] =>
          let client_mac := _bound_mac s client_ip in
          match sv_bindings s, client_mac with
          | Some _, None =>
              _ ← _emit now SEV_INFO AUTHENTICATION_FAILURE
                    ("portal login refused for " +:+ IPv4.to_string client_ip +:+ ": no IP-MAC binding for this address");
              mraise (PortalLoginError _NO_BINDING_MESSAGE)
          | _, _ =>
              if negb (verify_user scrypt (sv_store s) username password)
              then login_failed username client_ip client_mac now
              else login_granted username client_ip client_mac token now
          end
      end
  end.

Definition truthy (token : option string) : option string :=
  match token with Some t => if String.eqb t "" then None else Some t | None => None end.

Definition client_state (st : PortalClientStatus) (client_ip : IPv4.t) (message : string) : PortalClientState :=
  mk_client_state st None client_ip 0 None message.

Definition keepalive (token : option string) (client_ip : IPv4.t) (now : Z) : M PortalService PortalClientState :=
  s ← mget;
  match blocking_rules_matching (sv_manager s) client_ip with
  | _ :: _ =>
      _ ← _revoke client_ip "blocked by an active firewall rule" now;
      mret (client_state BLOCKED client_ip (_BLOCKED_MESSAGE +:+ " " +:+ pcf_contact_message (sv_config s)))
  | [] =>
      session ← match truthy token with
                | Some t => on_sessions (validate t client_ip now)
                | None => mret None
                end;
      match session with
      | Some se =>
          if negb (_same_device s se client_ip) then
            _ ← _revoke client_ip "the address is now bound to a different device" now;
            mret (client_state SESSION_EXPIRED client_ip "")
          else
            mret (mk_client_state AUTHENTICATED (Some (se_username se)) client_ip
                    (Z.max 0 (whole_seconds (se_expires_at se - now))) (Some (se_expires_at se)) "")
      | None =>
          match truthy token with
          | Some _ =>
              _ ← _revoke client_ip "portal session expired" now;
              mret (client_state SESSION_EXPIRED client_ip "")
          | None => mret (client_state UNAUTHENTICATED client_ip "")
          end
      end
  end.

Definition logout (token : string) (client_ip : IPv4.t) (now : Z) : M PortalService bool :=
  s ← mget;
  session ← on_sessions (validate token client_ip now);
  match session with
  | None => mret false
  | Some se =>
      if negb (_same_device s se client_ip) then
        _ ← _revoke client_ip "the address is now bound to a different device" now;
        mret false
      else
        _ ← on_sessions (invalidate token);
        _ ← _deauthorize client_ip (se_client_mac se) now;
        _ ← _emit now SEV_INFO FIREWALL_ALLOW
              ("portal logout: " +:+ repr (se_username se) +:+ " released " +:+ IPv4.to_string client_ip);
        mret true
  end.

(** ** Administration *)

Fixpoint end_sessions (sessions : list PortalSession) (username reason : string) (now : Z) : M PortalService unit :=
  match sessions with
  | [] => mret tt
  | se :: sessions' =>
      _ ← (if decide (se_username se = username) then
             _ ← on_sessions (invalidate (se_token se));
             _ ← _deauthorize (se_client_ip se) (se_client_mac se) now;
             _emit now SEV_INFO SYSTEM_WARNING
               ("portal session for " +:+ repr username +:+ " at " +:+ IPv4.to_string (se_client_ip se)
                +:+ " ended: " +:+ reason)
           else mret tt);
      end_sessions sessions' username reason now
  end.

Definition _end_sessions_for (username reason : string) (now : Z) : M PortalService unit :=
  sessions ← on_sessions (list_sessions now);
  end_sessions sessions username reason now.

(** [password or generated or ""]: an absent or empty password is replaced by
    [generated], the [generate_password()] draw, which is then returned. *)
Definition chosen_password (password : option string) (generated : string) : string * option string :=
  match truthy password with Some p => (p, None) | None => (generated, Some generated) end.

Definition service_add_user (username : string) (password : option string) (generated : string) (salt : list Z)
  (created_by note : string) (now : Z) : M PortalService (PortalUser * option string) :=
  let '(p, gen) := chosen_password password generated in
  user ← on_users (add_user scrypt username p salt now created_by note false);
  _ ← _emit now SEV_INFO (if pu_is_demo user then SYSTEM_WARNING else FIREWALL_ALLOW)
        ("portal user " +:+ repr username +:+ " created by " +:+ repr created_by);
  mret (user, gen).

Definition service_set_password (username : string) (password : option string) (generated : string) (salt : list Z)
  (now : Z) : M PortalService (PortalUser * option string) :=
  let '(p, gen) := chosen_password password generated in
  user ← on_users (set_user_password scrypt username p salt);
  _ ← _end_sessions_for username "password changed" now;
  mret (user, gen).

Definition service_remove_user (username : string) (now : Z) : M PortalService bool :=
  removed ← on_users (remove_user username);
  if removed : bool then
    _ ← _end_sessions_for username "account removed" now;
    _ ← _emit now SEV_INFO SYSTEM_WARNING ("portal user " +:+ repr username +:+ " removed");
    mret true
  else mret false.

Definition force_logout (client_ip : IPv4.t) (now : Z) : M PortalService bool :=
  session ← on_sessions (invalidate_ip client_ip);
  _ ← _deauthorize client_ip None now;
  match session with
  | None => mret false
  | Some se =>
      _ ← _emit now SEV_WARNING SYSTEM_WARNING
            ("portal session for " +:+ repr (se_username se) +:+ " at " +:+ IPv4.to_string client_ip
             +:+ " ended by administrator");
      mret true
  end.

Definition warn_about_demo_accounts (now : Z) : M PortalService unit :=
  s ← mget;
  if negb (has_demo_accounts (sv_store s)) then mret tt
  else _emit now SEV_WARNING SYSTEM_WARNING
         ("portal demo accounts are still present (" +:+ String.concat ", " (demo_usernames (sv_store s))
          +:+ ") — their passwords are public (scripts/deployment/portal_users.py) and they must be removed before "
          +:+ "production use: portal_users remove-demo").

(** ** Sweeping *)

Fixpoint find_orphans (grants : list PortalGrant) (now : Z) : M PortalService (list PortalGrant) :=
  match grants with
  | [] => mret []
  | (ip, mac) :: grants' =>
      has ← _grant_has_session ip mac now;
      rest ← find_orphans grants' now;
      mret (if has : bool then rest else (ip, mac) :: rest)
  end.

Definition grant_leb (a b : PortalGrant) : bool :=
  if a.1 =? b.1 then String.leb (default "" a.2) (default "" b.2) else a.1 <=? b.1.

Definition drop_orphan (now : Z) (g : PortalGrant) : M PortalService unit :=
  _ ← _deauthorize g.1 g.2 now;
  _emit now SEV_WARNING SYSTEM_WARNING
    ("revoked orphaned portal authorization for " +:+ IPv4.to_string g.1
     +:+ ": no active session (pirewall-core restart, or a login that did not complete)").

Definition reconcile_portal (now : Z) : M PortalService Z :=
  grants ← on_manager authorized_portal_grants;
  orphans ← find_orphans grants now;
  _ ← mfold_unit (drop_orphan now) (py_sorted grant_leb orphans);
  mret (Z.of_nat (length orphans)).

Definition sweep (now now' : Z) : M PortalService Z :=
  expired ← on_sessions (purge_expired now);
  _ ← mfold_unit (λ se, _deauthorize (se_client_ip se) (se_client_mac se) now) expired;
  n ← reconcile_portal now';
  mret (Z.of_nat (length expired) + n).

(** ** What stays the same *)

Context {PBL : PortalBackendLaws F}.
Implicit Types (s : PortalService) (g : PortalGrant).

(** A step that only talked to the kernel and emitted [evs]. *)
Definition kernel_step s s' (evs : list SecurityEvent) : Prop :=
  ∃ f, s' = mk_service (sv_config s) (sv_bindings s) (set_backend (sv_manager s) f) (sv_store s) (sv_sessions s)
              (sv_throttle s) (sv_events s ++ evs) (sv_failures s).

Definition sv_granted s g : Prop := granted (sv_manager s) g.

Lemma kernel_step_refl s : kernel_step s s [].
Proof. exists (m_backend (sv_manager s)). destruct s as [c b m st r t e f]. cbn. rewrite app_nil_r. by destruct m. Qed.

Lemma kernel_step_trans s1 s2 s3 e1 e2 : kernel_step s1 s2 e1 → kernel_step s2 s3 e2 → kernel_step s1 s3 (e1 ++ e2).
Proof. intros [f1 ->] [f2 ->]. exists f2. cbn. by rewrite app_assoc. Qed.

Lemma emit_step s now sev ty reason : ∃ s', _emit now sev ty reason s = (Ok tt, s') ∧
  kernel_step s s' [portal_event now sev ty reason] ∧ ∀ g, sv_granted s' g ↔ sv_granted s g.
Proof.
  eexists. split; [done|]. split; [|done]. exists (m_backend (sv_manager s)). destruct s as [c b m st r t e f]. by destruct m.
Qed.

(** The event that says an address could not be deauthorised. *)
Definition reports_failure (ip : IPv4.t) (e : SecurityEvent) : Prop :=
  ∃ now msg, e = portal_event now SEV_ERROR FIREWALL_ERROR (deauth_error ip msg).

Lemma deauthorize_step ip mac now s : pb_wf (ip, mac) → ∃ s' evs, _deauthorize ip mac now s = (Ok tt, s') ∧ kernel_step s s' evs ∧
  (∀ g, sv_granted s' g → sv_granted s g) ∧ (∀ g, g.1 ≠ ip → sv_granted s g → sv_granted s' g) ∧
  (mac ≠ None → ∀ g, g ≠ (ip, mac) → sv_granted s g → sv_granted s' g) ∧
  (¬ sv_granted s' (ip, mac) ∨ ∃ e, e ∈ evs ∧ reports_failure ip e).
Proof.
  intros Hwf. unfold _deauthorize, try_firewall, on_manager.
  destruct (deauthorize_portal_client ip mac (sv_manager s)) as [r m'] eqn:Hd.
  pose proof (deauthorize_spec _ _ _ _ _ Hwf Hd) as Hspec. destruct r as [[]|e].
  - destruct Hspec as [[f ->] Hsub Hoth Hex Hgone]. eexists _, []. split; [done|].
    split; [exists f; by rewrite app_nil_r|]. repeat (split; [done|]). left. by apply Hgone.
  - destruct Hspec as [[[f ->] Hsub Hoth Hex _] [msg ->]].
    eexists _, [_]. split; [reflexivity|]. split; [by exists f|]. repeat (split; [done|]). right.
    eexists. split; [apply list_elem_of_singleton; reflexivity|]. by eexists _, _.
Qed.

(** ** Reconciling *)

Definition live_for s (now : Z) g : Prop :=
  ∃ se, holds (sv_sessions s) se ∧ se_client_ip se = g.1 ∧ se_client_mac se = g.2 ∧ now < se_expires_at se.

(** A step that at most forgot sessions expired by [now]. *)
Definition forgets (now : Z) s s' : Prop :=
  (∃ r, s' = sv_set_sessions s r) ∧ reg_inv (sv_sessions s') ∧
  (∀ se, holds (sv_sessions s') se → holds (sv_sessions s) se) ∧
  (∀ se, holds (sv_sessions s) se → now < se_expires_at se → holds (sv_sessions s') se).

Lemma forgets_live now s s' g : forgets now s s' → live_for s' now g ↔ live_for s now g.
Proof. intros (_ & _ & H1 & H2). split; intros (se & Hh & ? & ? & Hlt); exists se; auto. Qed.

Lemma grant_has_session_spec ip mac now s : reg_inv (sv_sessions s) →
  ∃ b s', _grant_has_session ip mac now s = (Ok b, s') ∧ forgets now s s' ∧ (b = true ↔ live_for s now (ip, mac)).
Proof.
  intros Hi. destruct (get_by_ip_spec ip now _ Hi) as (Hi' & _ & _ & Hsub & Hkeep & Hget).
  unfold _grant_has_session, on_sessions, mbind, m_bind. destruct (get_by_ip ip now (sv_sessions s)) as [o r] eqn:Hg.
  cbn [fst snd] in *. eexists _, _. split; [reflexivity|]. split.
  { split; [by exists r|]. done. }
  unfold live_for. cbn [fst snd]. destruct o as [se|].
  - rewrite bool_decide_eq_true. split.
    + intros Hm. exists se. destruct (proj1 (Hget se) eq_refl) as (? & ? & ?). done.
    + intros (se' & Hh & Hip & Hm & Hlt). assert (Some se = Some se') as [= ->] by (by apply Hget). done.
  - split; [done|]. intros (se' & Hh & Hip & _ & Hlt). assert (None = Some se') as ? by (by apply Hget). done.
Qed.

Lemma find_orphans_spec now gs : ∀ s, reg_inv (sv_sessions s) →
  ∃ os s', find_orphans gs now s = (Ok os, s') ∧ forgets now s s' ∧ ∀ g, g ∈ os ↔ g ∈ gs ∧ ¬ live_for s now g.
Proof.
  induction gs as [|[ip mac] gs IH]; intros s Hi.
  { exists [], s. split; [done|]. split; [|set_solver]. split; [exists (sv_sessions s); by destruct s|done]. }
  destruct (grant_has_session_spec ip mac now s Hi) as (b & s1 & H1 & Hf & Hb).
  pose proof Hf as ([r1 Hs1] & Hi1 & Hsub1 & Hkeep1).
  destruct (IH s1 Hi1) as (os & s2 & H2 & ([r2 Hs2] & Hi2 & Hsub2 & Hkeep2) & Hos).
  eexists _, s2. split; [cbn [find_orphans]; unfold mbind, m_bind; rewrite H1, H2; reflexivity|]. split.
  - split; [exists r2; rewrite Hs2, Hs1; reflexivity|]. split; [done|]. split; auto.
  - intros g. destruct b; rewrite ?elem_of_cons, Hos, (forgets_live _ _ _ _ Hf); [destruct (proj1 Hb eq_refl) as [se Hse]|].
    + split; [naive_solver|]. intros [[->|?] Hn]; [|done]. destruct Hn. by exists se.
    + assert (¬ live_for s now (ip, mac)) by (intros Hl%Hb; done). naive_solver.
Qed.

Lemma drop_orphan_step now g0 s : pb_wf g0 → ∃ s' evs, drop_orphan now g0 s = (Ok tt, s') ∧ kernel_step s s' evs ∧
  (∀ g, sv_granted s' g → sv_granted s g) ∧
  (∀ g, sv_granted s g → g.1 ≠ g0.1 ∨ g0.2 ≠ None ∧ g ≠ g0 → sv_granted s' g) ∧
  (¬ sv_granted s' g0 ∨ ∃ e, e ∈ evs ∧ reports_failure g0.1 e).
Proof.
  destruct g0 as [ip mac]. intros Hwf. cbn [fst snd].
  destruct (deauthorize_step ip mac now s Hwf) as (s1 & e1 & H1 & K1 & Hsub & Hoth & Hex & Hgone).
  destruct (emit_step s1 now SEV_WARNING SYSTEM_WARNING
    ("revoked orphaned portal authorization for " +:+ IPv4.to_string ip
     +:+ ": no active session (pirewall-core restart, or a login that did not complete)")) as (s2 & H2 & K2 & Hg2).
  eexists s2, _. split; [unfold drop_orphan, mbind, m_bind; cbn [fst snd]; rewrite H1; exact H2|].
  split; [by eapply kernel_step_trans|]. split; [intros g Hg; by apply Hsub, Hg2|]. split.
  - intros g Hg [Hne|[Hm Hne]]; apply Hg2; auto.
  - destruct Hgone as [Hn|(e & He & Hr)]; [left; by rewrite Hg2|right; exists e; set_solver].
Qed.

Lemma drop_orphans_spec now os : Forall pb_wf os → ∀ s, ∃ s' evs, mfold_unit (drop_orphan now) os s = (Ok tt, s') ∧ kernel_step s s' evs ∧
  (∀ g, sv_granted s' g → sv_granted s g) ∧
  (∀ g, sv_granted s g → (∀ o, o ∈ os → g.1 ≠ o.1 ∨ o.2 ≠ None ∧ g ≠ o) → sv_granted s' g) ∧
  (∀ o, o ∈ os → ¬ sv_granted s' o ∨ ∃ e, e ∈ evs ∧ reports_failure o.1 e).
Proof.
  induction 1 as [|o os Hwf _ IH]; intros s.
  { exists s, []. split; [done|]. split; [apply kernel_step_refl|]. split; [done|]. split; [done|]. set_solver. }
  destruct (drop_orphan_step now o s Hwf) as (s1 & e1 & H1 & K1 & Hsub1 & Hkeep1 & Hgone1).
  destruct (IH s1) as (s2 & e2 & H2 & K2 & Hsub2 & Hkeep2 & Hgone2).
  exists s2, (e1 ++ e2). split; [cbn [mfold_unit]; unfold mbind, m_bind; rewrite H1; exact H2|].
  split; [by eapply kernel_step_trans|]. split; [auto|]. split.
  - intros g Hg Ho. apply Hkeep2; [apply Hkeep1; [done|apply Ho; set_solver]|]. intros o' Ho'. apply Ho. set_solver.
  - intros o' [->|Ho']%elem_of_cons.
    + destruct Hgone1 as [Hn|(e & He & Hr)]; [left; auto|right; exists e; set_solver].
    + destruct (Hgone2 o' Ho') as [Hn|(e & He & Hr)]; [by left|right; exists e; set_solver].
Qed.

(** No orphan grants.  Whatever the sessions and the kernel hold,
    reconciling returns, forgets no live session and adds no grant; a client
    with a live session keeps its grant; and when the kernel can be listed,
    every grant left has a live session of that address and MAC behind it, or
    an error event says that this address could not be deauthorised. *)
Theorem portal_reconcile_leaves_no_orphan now s : reg_inv (sv_sessions s) →
  ∃ n s' evs, reconcile_portal now s = (Ok n, s') ∧ sv_events s' = sv_events s ++ evs ∧
    (∀ se, now < se_expires_at se → holds (sv_sessions s') se ↔ holds (sv_sessions s) se) ∧
    (∀ g, sv_granted s' g → sv_granted s g) ∧
    (∀ g, sv_granted s g → live_for s now g → ¬ sv_granted s (g.1, None) ∨ g.2 = None → sv_granted s' g) ∧
    (∀ gs, (fb_list_portal_grants (m_backend (sv_manager s))).1 = Ok gs →
     ∀ g, sv_granted s' g → live_for s' now g ∨ ∃ e, e ∈ evs ∧ reports_failure g.1 e).
Proof.
  intros Hi. destruct (grants_spec (sv_manager s)) as (gs & m1 & Hgs & [f Hm1] & Heq & Hin & Hall).
  set (s1 := sv_set_manager s m1).
  destruct (find_orphans_spec now gs s1 Hi) as (os & s2 & Hfo & Hf & Hos).
  pose proof Hf as ([r2 Hs2] & Hi2 & Hsub2 & Hkeep2).
  assert (Hoswf : Forall pb_wf (py_sorted grant_leb os)).
  { apply Forall_forall. intros g. rewrite elem_of_py_sorted, Hos. intros [Hg _]. by apply Hin. }
  destruct (drop_orphans_spec now (py_sorted grant_leb os) Hoswf s2) as (s3 & evs & Hdrop & [f3 Hs3] & Hsub & Hkeep & Hgone).
  assert (Hg2 : ∀ g, sv_granted s2 g ↔ sv_granted s g) by (intros g; rewrite Hs2; apply Heq).
  assert (Hreg : sv_sessions s3 = sv_sessions s2) by (by rewrite Hs3).
  exists (Z.of_nat (length os)), s3, evs. split; [|split; [|split; [|split; [|split]]]].
  - unfold reconcile_portal, mbind, m_bind, on_manager. rewrite Hgs. fold s1. rewrite Hfo, Hdrop. done.
  - rewrite Hs3, Hs2. done.
  - intros se Hlt. rewrite Hreg. split; [exact (Hsub2 se)|intros Hh; by apply (Hkeep2 se)].
  - intros g Hg. by apply Hg2, Hsub.
  - intros g Hg Hlive Hmix. apply Hkeep; [by apply Hg2|]. intros o Ho. rewrite elem_of_py_sorted in Ho.
    apply Hos in Ho as [Ho Hdead]. destruct (decide (g.1 = o.1)) as [Hip|]; [right|by left].
    assert (g ≠ o) by (intros ->; done). split; [|done]. intros Hnone.
    assert (Hog : o = (g.1, None)) by (destruct o; cbn in *; by subst).
    destruct Hmix as [Hmix|Hmix]; [destruct Hmix; rewrite <- Hog; by apply Hin|].
    destruct Hlive as (se & ? & ? & ? & ?). apply Hdead. exists se. rewrite Hog. cbn. rewrite Hmix in *. done.
  - intros gs' Hlist g Hg. specialize (Hall gs' Hlist).
    assert (Hgin : g ∈ gs) by (by apply Hall, Hg2, Hsub).
    destruct (decide (g ∈ os)) as [Ho|Hn].
    + destruct (Hgone g) as [Hng|He]; [by rewrite elem_of_py_sorted|done|by right].
    + left. assert (Hnn : ¬ ¬ live_for s1 now g) by (intros Hd; apply Hn, Hos; done).
      assert (Hdec : live_for s1 now g ∨ ¬ live_for s1 now g).
      { destruct (grant_has_session_spec g.1 g.2 now s1 Hi) as (b & _ & _ & _ & Hb). destruct g as [ip mac]. cbn in Hb.
        destruct b; [left; by apply Hb|right; by intros ?%Hb]. }
      destruct Hdec as [Hl|]; [|done]. destruct Hl as (se & Hh & ? & ? & Hlt). exists se. rewrite Hreg.
      split; [by apply (Hkeep2 se)|done].
Qed.

(** ** Logging in *)

(** A service built from a valid configuration and then used. *)
Record sv_ok (last : Z) s : Prop := {
  ok_config : portal_config_wf (sv_config s);
  ok_sessions : reg_inv (sv_sessions s);
  ok_max : 0 < reg_max_sessions (sv_sessions s);
  ok_expiry : reg_token_expiry_seconds (sv_sessions s) = pcf_session_timeout_seconds (sv_config s);
  ok_throttle : st_reach (pcf_failed_login_window_seconds (sv_config s)) DEFAULT_MAX_TRACKED_KEYS last (sv_throttle s);
  ok_users : users_ok (sv_store s);
  ok_bindings : ∀ resolve ip m, sv_bindings s = Some resolve → resolve ip = Some m → str_lower m = m;
}.

Lemma new_service_ok c m store bindings from :
  portal_config_wf c → users_ok store →
  (∀ resolve ip m, bindings = Some resolve → resolve ip = Some m → str_lower m = m) → sv_ok from (new_service c m store bindings).
Proof.
  intros Hc Hu Hb. pose proof Hc as (? & ? & ? & ? & ? & Hmax). split; cbn; auto.
  - by destruct (reg_reach_inv _ _ _ Hmax (reg_new (pcf_session_timeout_seconds c) _)) as [? _].
  - apply reach_new; [|repeat constructor; done]. unfold dwf. cbn. repeat (constructor; [set_solver|]). constructor.
Qed.

Lemma portal_keys_wf ip u : dwf (portal_keys casefold ip (Some u)).
Proof. unfold dwf. cbn. repeat (constructor; [set_solver|]). constructor. Qed.

Lemma portal_lockout_ok last now ip u s : sv_ok last s → last ≤ now →
  ∃ l t, portal_lockout casefold ip (Some u) now (sv_throttle s) = (Ok l, t).
Proof.
  intros Hok Hnow. destruct (lockout_spec (pcf_failed_login_window_seconds (sv_config s)) DEFAULT_MAX_TRACKED_KEYS last now (portal_keys casefold ip (Some u)) (sv_throttle s))
    as (t & Hl & _); [done|apply Hok|done|apply portal_keys_wf|]. eauto.
Qed.

Lemma scoped_clear_ok sc k t : ∃ t', scoped_clear sc k t = (Ok tt, t').
Proof.
  unfold scoped_clear, on_window. destruct (dmem (st_windows t) sc) eqn:Hm; cbn [andb]; [|eauto].
  destruct (bool_decide _); [|eauto]. apply dmem_true in Hm as [w ->]. unfold clear, mmodify. eauto.
Qed.

Lemma portal_clear_ok ip u t : ∃ t', portal_clear casefold ip (Some u) t = (Ok tt, t').
Proof.
  unfold portal_clear, mbind, m_bind. destruct (scoped_clear_ok SCOPE_SOURCE (KAddr ip) t) as [t1 ->]. apply scoped_clear_ok.
Qed.

Lemma emits_step {A} (f : A → M PortalService unit) l :
  (∀ a s, ∃ s' e, f a s = (Ok tt, s') ∧ s' = sv_add_event s e) →
  ∀ s, ∃ s' evs, mfold_unit f l s = (Ok tt, s') ∧ kernel_step s s' evs ∧ ∀ g, sv_granted s' g ↔ sv_granted s g.
Proof.
  intros Hf. induction l as [|a l IH]; intros s; cbn [mfold_unit].
  { exists s, []. split; [done|]. split; [apply kernel_step_refl|done]. }
  destruct (Hf a s) as (s1 & e & H1 & Hs1). destruct (IH s1) as (s2 & evs & H2 & K & Hg).
  exists s2, ([e] ++ evs). unfold mbind, m_bind. rewrite H1. split; [done|]. subst s1. split; [|intros g; by rewrite Hg].
  eapply kernel_step_trans; [|exact K]. exists (m_backend (sv_manager s)). destruct s as [c b m st r t ev fl]. by destruct m.
Qed.

(** What the wrong-password branch leaves alone. *)
Lemma login_failed_spec last now ip u mac s : sv_ok last s → last ≤ now →
  ∃ s', login_failed u ip mac now s = (Raise (PortalLoginError "Invalid username or password."), s') ∧
    sv_sessions s' = sv_sessions s ∧ sv_failures s' = sv_failures s ++ [(u, ip, mac, now)] ∧
    ∀ g, sv_granted s' g ↔ sv_granted s g.
Proof.
  intros Hok Hnow. unfold login_failed, mbind, m_bind, on_login_throttle.
  destruct (scoped_keys_wf (sv_throttle s) _ (portal_keys_wf ip u)) as [_ Hin].
  destruct (record_loop_inv (pcf_failed_login_window_seconds (sv_config s)) DEFAULT_MAX_TRACKED_KEYS now eq_refl
    (scoped_keys (sv_throttle s) (portal_keys casefold ip (Some u))) (sv_throttle s) last) as (newly & t' & Hr & _ & _);
    [by apply st_reach_inv, Hok|done|done|].
  assert (Hrec : portal_record_failure casefold ip now (Some u) (sv_throttle s) = (Ok newly, t')) by exact Hr.
  rewrite Hrec. cbn [mmodify _emit].
  edestruct (emits_step (λ scope, _emit now SEV_WARNING AUTHENTICATION_FAILURE
        ("portal login lockout started (" +:+ scope_value scope +:+ ") after a failed login for "
         +:+ repr u +:+ " from " +:+ IPv4.to_string ip)) newly) as (s2 & evs & H2 & [f Hs2] & Hg); [|rewrite H2].
  { intros a s0. eexists _, _. split; reflexivity. }
  eexists. split; [reflexivity|]. rewrite Hs2. split; [done|]. split; [done|].
  intros g. rewrite Hs2 in Hg. rewrite Hg. done.
Qed.

(** The grant branch: a session and a kernel grant together, or no session. *)
Lemma login_granted_spec last now ip u mac token s r s' : sv_ok last s → pb_wf (ip, mac) → token ≠ "" → u ≠ "" →
  login_granted u ip mac token now s = (r, s') →
  let se := mk_session token u ip now (now + seconds (pcf_session_timeout_seconds (sv_config s))) mac in
  match r with
  | Ok se' => se' = se ∧ IPv4.contains (c_protected_network (m_config (sv_manager s))) ip = true ∧
      holds (sv_sessions s') se ∧ grant_added sv_granted ip mac s s'
  | Raise e => (∃ msg, e = PortalLoginError msg) ∧
      (grants_kept sv_granted s s' ∨ grant_added sv_granted ip mac s s' ∧
         ∃ msg, (fb_authorize_portal_client ip (pcf_session_timeout_seconds (sv_config s)) mac (m_backend (sv_manager s))).1 = Raise (FirewallError msg)) ∧
      ∀ se', holds (sv_sessions s') se' → holds (sv_sessions s) se'
  end.
Proof.
  intros Hok Hwf Htok Hu. unfold login_granted, mbind, m_bind, on_registry.
  destruct (create_spec u ip token now mac (sv_sessions s)) as (res & r1 & Hc & Hi1 & _ & _ & Hres); [apply Hok|apply Hok|].
  rewrite Hc. destruct res as [se'|e]; [|destruct Hres as ([?|?] & _); done].
  destruct Hres as (-> & _ & _ & Hh & Honly). rewrite (ok_expiry _ _ Hok) in *. cbn [mget].
  unfold try_firewall, on_manager. cbn [sv_manager sv_set_sessions sv_config].
  destruct (authorize_portal_client ip _ mac (sv_manager s)) as [ra m1] eqn:Ha.
  destruct (authorize_spec _ _ _ _ _ _ Hwf (proj1 (ok_config _ _ Hok)) Ha) as [[f Hm1] Hauth].
  destruct ra as [[]|e].
  - unfold on_login_throttle. cbn [sv_throttle sv_set_manager sv_set_sessions].
    destruct (portal_clear_ok ip u (sv_throttle s)) as [t' ->]. cbn [_emit mmodify mret m_ret].
    intros [= <- <-]. destruct Hauth as [Hc' Hg]. split; [done|]. split; [done|]. split; [exact Hh|exact Hg].
  - destruct Hauth as [Heq [msg ->]]. unfold on_sessions. cbn [sv_sessions sv_set_manager sv_set_sessions].
    destruct (invalidate token r1) as [o r2] eqn:Hinv. cbn [_emit mmodify mraise]. intros [= <- <-].
    split; [by eexists|]. split; [exact Heq|]. intros se'. cbn [sv_sessions sv_add_event sv_set_sessions].
    destruct (invalidate_spec token r1 Hi1) as (_ & _ & _ & _ & Hin & _). rewrite Hinv in Hin. cbn [snd] in Hin.
    intros [Hh' Hne]%Hin. destruct (Honly se' Hh') as [->|[? _]]; [done|done].
Qed.

Lemma users_nonempty u p s : users_ok (sv_store s) → verify_user scrypt (sv_store s) u p = true → u ≠ "".
Proof.
  intros [_ Hall] Hv ->. unfold verify_user in Hv. destruct (dget _ _) as [usr|] eqn:Hu; [|done].
  destruct (Hall _ _ Hu) as (Hn & Hok & _). unfold portal_user_ok in Hok. rewrite Hn in Hok. done.
Qed.

(** C32: Access is granted exactly by a successful login: a login returns a
    session only if the client is not locked out, no active rule blocks its
    address, the address is bound to the session's MAC and the password is
    right, and then the session is live and the kernel has gained exactly the
    grant for that address and MAC, every grant of another address being what
    it was.  Every other outcome is a [PortalLoginError] that adds no session
    and leaves all grants as they were, except that where all the conditions
    held and the backend itself failed to authorise the client, the kernel may
    have gained that grant all the same. *)
Theorem portal_login_grants_exactly last now u p ip token s r s' :
  sv_ok last s → IPv4.valid ip → last ≤ now → token ≠ "" → login u p ip token now s = (r, s') →
  let admitted mac :=
    (portal_lockout casefold ip (Some u) now (sv_throttle s)).1 = Ok None ∧
    blocking_rules_matching (sv_manager s) ip = [] ∧ verify_user scrypt (sv_store s) u p = true ∧
    (∀ resolve, sv_bindings s = Some resolve → resolve ip = mac ∧ is_Some mac) ∧ (sv_bindings s = None → mac = None) in
  match r with
  | Ok se =>
      admitted (se_client_mac se) ∧
      IPv4.contains (c_protected_network (m_config (sv_manager s))) ip = true ∧
      se_username se = u ∧ se_client_ip se = ip ∧
      se_expires_at se = now + seconds (pcf_session_timeout_seconds (sv_config s)) ∧
      holds (sv_sessions s') se ∧ grant_added sv_granted ip (se_client_mac se) s s'
  | Raise e =>
      (∃ msg, e = PortalLoginError msg) ∧
      (grants_kept sv_granted s s' ∨
       ∃ mac, admitted mac ∧ grant_added sv_granted ip mac s s' ∧
         ∃ msg, (fb_authorize_portal_client ip (pcf_session_timeout_seconds (sv_config s)) mac (m_backend (sv_manager s))).1 = Raise (FirewallError msg)) ∧
      ∀ se, holds (sv_sessions s') se → holds (sv_sessions s) se
  end.
Proof.
  intros Hok Hip Hnow Htok Hlogin admitted. revert Hlogin. unfold admitted. clear admitted.
  destruct (portal_lockout_ok last now ip u s Hok Hnow) as (l & t & Hl).
  unfold login, mbind, m_bind, on_login_throttle. rewrite Hl.
  destruct l as [l|]; [cbn; intros [= <- <-]; split; [by eexists|]; split; [by left|done]|].
  cbn [mget sv_manager sv_set_throttle fst].
  destruct (blocking_rules_matching (sv_manager s) ip) as [|rule rules] eqn:Hblk;
    [|cbn; intros [= <- <-]; split; [by eexists|]; split; [by left|done]].
  set (s1 := sv_set_throttle s t). change (sv_bindings s1) with (sv_bindings s). change (sv_store s1) with (sv_store s).
  assert (Hok1 : sv_ok now s1).
  { destruct Hok as [? ? ? ? Ht ? ?]. split; auto. cbn [s1 sv_throttle sv_set_throttle sv_config].
    replace t with (portal_lockout casefold ip (Some u) now (sv_throttle s)).2 by (by rewrite Hl).
    eapply reach_lockout; [exact Ht|done|apply portal_keys_wf]. }
  assert (Hmac : _bound_mac s1 ip = _bound_mac s ip) by done. rewrite Hmac.
  match goal with |- _ → ?G =>
    assert (Hfin : (if negb (verify_user scrypt (sv_store s) u p) then login_failed u ip (_bound_mac s ip) now
                    else login_granted u ip (_bound_mac s ip) token now) s1 = (r, s') →
      (∀ resolve, sv_bindings s = Some resolve → is_Some (_bound_mac s ip)) → G)
  end.
  2: { destruct (sv_bindings s) as [resolve|] eqn:Hb; [destruct (_bound_mac s ip) as [mac|] eqn:Hbm|];
         try (intros Hlog; refine (Hfin Hlog _); intros; done).
       cbn. intros [= <- <-]. split; [by eexists|]. split; [by left|done]. }
  intros Hlog Hbound. destruct (verify_user scrypt (sv_store s) u p) eqn:Hv; cbn [negb] in Hlog.
  - assert (Hwf : pb_wf (ip, _bound_mac s ip)).
    { apply pb_normal_wf. split; [done|]. intros m Hm. cbn in Hm. unfold _bound_mac in Hm. destruct (sv_bindings s) as [resolve|] eqn:Hb; [|done].
      by eapply (ok_bindings _ _ Hok). }
    assert (Hadm : (∀ resolve, sv_bindings s = Some resolve → resolve ip = _bound_mac s ip ∧ is_Some (_bound_mac s ip)) ∧
                   (sv_bindings s = None → _bound_mac s ip = None)).
    { split; [|unfold _bound_mac; by intros ->]. intros resolve Hres. split; [unfold _bound_mac; by rewrite Hres|by apply (Hbound resolve)]. }
    pose proof (login_granted_spec now now ip u _ token s1 r s' Hok1 Hwf Htok (users_nonempty _ _ _ (ok_users _ _ Hok) Hv) Hlog) as Hspec.
    destruct r as [se|e].
    + destruct Hspec as (-> & Hc & Hh & Hg). cbn [se_client_mac se_username se_client_ip se_expires_at].
      split; [split; [done|]; split; [done|]; split; [done|exact Hadm]|]. do 5 (split; [done|]). exact Hg.
    + destruct Hspec as (He & Hg & Hh). split; [exact He|]. split; [|exact Hh]. destruct Hg as [Hg|[Hg Hb]]; [by left|right].
      exists (_bound_mac s ip). split; [split; [done|]; split; [done|]; split; [done|exact Hadm]|]. split; [exact Hg|exact Hb].
  - destruct (login_failed_spec now now ip u (_bound_mac s ip) s1 Hok1 (Z.le_refl _)) as (s2 & Hf & Hss & _ & Hg).
    rewrite Hf in Hlog. injection Hlog as <- <-. split; [by eexists|]. split; [left; exact Hg|]. intros se. by rewrite Hss.
Qed.
End Service.
Arguments PortalService B F : clear implicits.
