(* ===== verification/Flow.v ===== *)
(** * Flow tracking (flow/key.py, flow/state.py, flow/timeout.py, flow/aggregator.py, flow/connection_start.py)

    Packets are folded into per-connection accumulators held in a bounded,
    least-recently-used table; closed accumulators become [Flow] records.
    The random flow id is left out of [Flow].  A comparison of
    [total_seconds()] with a whole number of seconds is made on microseconds,
    which is exact below 2^32 seconds; averages and deviations are IEEE
    doubles.  Pydantic's [ge=0.0] constraints on those doubles are not
    checked; the cross-field check of [Flow] is. *)

From S2P Require Import Prelude Float Net Models.
Local Open Scope Z_scope.

(** ** Packets (core/models/packet.py) *)

Inductive Address : Type := V4 (a : IPv4.t) | V6 (a : Z).

Record TcpFlags : Type := mk_flags {
  tf_syn : bool; tf_ack : bool; tf_fin : bool; tf_rst : bool; tf_psh : bool; tf_urg : bool;
}.

Record PacketMetadata : Type := mk_packet {
  pk_timestamp : Z;
  pk_source_ip : Address;
  pk_destination_ip : Address;
  pk_protocol : Protocol;
  pk_source_port : option Z;
  pk_destination_port : option Z;
  pk_tcp_flags : option TcpFlags;
  pk_total_length : Z;
  pk_payload_length : Z;
  pk_source_mac : option string;
  pk_destination_mac : option string;
}.

(** ** Keys (flow/key.py) *)

Definition Endpoint : Type := IPv4.t * option Z.

Record FlowKey : Type := mk_key { fk_protocol : Protocol; fk_endpoint_a : Endpoint; fk_endpoint_b : Endpoint }.

#[global] Instance FlowKey_eq_dec : EqDecision FlowKey.
Proof. solve_decision. Defined.

Definition _sort_value (e : Endpoint) : Z * Z := (e.1, default (-1) e.2).

Definition endpoint_leb (a b : Endpoint) : bool :=
  let '(x, p) := _sort_value a in
  let '(y, q) := _sort_value b in
  if x =? y then p <=? q else x <=? y.

Definition compute_flow_key (source_ip destination_ip : IPv4.t) (source_port destination_port : option Z)
  (protocol : Protocol) : FlowKey :=
  let forward := (source_ip, source_port) in
  let backward := (destination_ip, destination_port) in
  match py_sorted endpoint_leb [forward; backward] with
  | [a; b] => mk_key protocol a b
  | _ => mk_key protocol forward backward
  end.

(** ** Statistics *)

Record RunningStats : Type := mk_stats {
  rs_count : Z; rs_mean : float; rs_m2 : float; rs_min : float; rs_max : float;
}.

Definition f0 : float := float_of_Z 0.
Definition new_stats : RunningStats := mk_stats 0 f0 f0 (S754_infinity false) (S754_infinity true).

Definition stats_add (s : RunningStats) (value : float) : RunningStats :=
  let count := rs_count s + 1 in
  let delta := fsub value (rs_mean s) in
  let mean := fadd (rs_mean s) (fdiv delta (float_of_Z count)) in
  mk_stats count mean (fadd (rs_m2 s) (fmul delta (fsub value mean))) (fmin (rs_min s) value) (fmax (rs_max s) value).

Definition fsqrt (x : float) : float := SFsqrt 53 1024 x.

Definition stats_mean (s : RunningStats) : float := if rs_count s =? 0 then f0 else rs_mean s.
Definition stats_std (s : RunningStats) : float :=
  if rs_count s =? 0 then f0 else fsqrt (fdiv (rs_m2 s) (float_of_Z (rs_count s))).
Definition stats_sample_std (s : RunningStats) : float :=
  if 1 <? rs_count s then fsqrt (fdiv (rs_m2 s) (float_of_Z (rs_count s - 1))) else f0.
Definition stats_min (s : RunningStats) : float := if rs_count s =? 0 then f0 else rs_min s.
Definition stats_max (s : RunningStats) : float := if rs_count s =? 0 then f0 else rs_max s.

(** [td.total_seconds()] *)
Definition total_seconds (td : Z) : float := fdiv (float_of_Z td) (float_of_Z us_per_second).

(** ** Flow state *)

Definition is_initiation (p : PacketMetadata) : bool :=
  match pk_protocol p, pk_tcp_flags p with
  | TCP, Some f => tf_syn f && negb (tf_ack f) && negb (tf_rst f)
  | _, _ => true
  end.

Record FlowState : Type := mk_state {
  fs_key : FlowKey;
  fs_protocol : Protocol;
  fs_forward_source_ip : IPv4.t;
  fs_forward_source_port : option Z;
  fs_forward_destination_ip : IPv4.t;
  fs_forward_destination_port : option Z;
  fs_forward_source_mac : option string;
  fs_forward_destination_mac : option string;
  fs_first_seen : Z;
  fs_last_seen : Z;
  fs_packet_count : Z;
  fs_byte_count : Z;
  fs_forward_packet_count : Z;
  fs_backward_packet_count : Z;
  fs_forward_byte_count : Z;
  fs_backward_byte_count : Z;
  fs_forward_payload_bytes : Z;
  fs_backward_payload_bytes : Z;
  fs_syn_count : Z;
  fs_ack_count : Z;
  fs_fin_count : Z;
  fs_rst_count : Z;
  fs_psh_count : Z;
  fs_urg_count : Z;
  fs_saw_fin_forward : bool;
  fs_saw_fin_backward : bool;
  fs_saw_rst : bool;
  fs_packet_size_stats : RunningStats;
  fs_payload_size_stats : RunningStats;
  fs_inter_arrival_stats : RunningStats;
  fs_last_packet_time : option Z;
  fs_initiated : bool;
}.

Definition is_forward (s : FlowState) (p : PacketMetadata) : bool :=
  match pk_source_ip p with
  | V4 a => (a =? fs_forward_source_ip s) && bool_decide (pk_source_port p = fs_forward_source_port s)
  | V6 _ => false
  end.

(** [n + flag] with a bool as 0 or 1 *)
Definition plus_flag (n : Z) (flags : option TcpFlags) (f : TcpFlags → bool) : Z :=
  match flags with Some fl => n + Z.b2z (f fl) | None => n end.
Definition flag_set (flags : option TcpFlags) (f : TcpFlags → bool) : bool :=
  match flags with Some fl => f fl | None => false end.

(** [observe] *)
Definition observe (s : FlowState) (p : PacketMetadata) : FlowState :=
  let fwd := is_forward s p in
  let fl := pk_tcp_flags p in
  let fin := flag_set fl tf_fin in
  mk_state (fs_key s) (fs_protocol s)
    (fs_forward_source_ip s) (fs_forward_source_port s) (fs_forward_destination_ip s) (fs_forward_destination_port s)
    (fs_forward_source_mac s) (fs_forward_destination_mac s) (fs_first_seen s)
    (if fs_last_seen s <? pk_timestamp p then pk_timestamp p else fs_last_seen s)
    (fs_packet_count s + 1)
    (fs_byte_count s + pk_total_length p)
    (if fwd then fs_forward_packet_count s + 1 else fs_forward_packet_count s)
    (if fwd then fs_backward_packet_count s else fs_backward_packet_count s + 1)
    (if fwd then fs_forward_byte_count s + pk_total_length p else fs_forward_byte_count s)
    (if fwd then fs_backward_byte_count s else fs_backward_byte_count s + pk_total_length p)
    (if fwd then fs_forward_payload_bytes s + pk_payload_length p else fs_forward_payload_bytes s)
    (if fwd then fs_backward_payload_bytes s else fs_backward_payload_bytes s + pk_payload_length p)
    (plus_flag (fs_syn_count s) fl tf_syn) (plus_flag (fs_ack_count s) fl tf_ack)
    (plus_flag (fs_fin_count s) fl tf_fin) (plus_flag (fs_rst_count s) fl tf_rst)
    (plus_flag (fs_psh_count s) fl tf_psh) (plus_flag (fs_urg_count s) fl tf_urg)
    (fs_saw_fin_forward s || (fin && fwd)) (fs_saw_fin_backward s || (fin && negb fwd))
    (fs_saw_rst s || flag_set fl tf_rst)
    (stats_add (fs_packet_size_stats s) (float_of_Z (pk_total_length p)))
    (stats_add (fs_payload_size_stats s) (float_of_Z (pk_payload_length p)))
    (match fs_last_packet_time s with
     | Some t => if 0 <=? pk_timestamp p - t then stats_add (fs_inter_arrival_stats s) (total_seconds (pk_timestamp p - t))
                 else fs_inter_arrival_stats s
     | None => fs_inter_arrival_stats s
     end)
    (Some (pk_timestamp p)) (fs_initiated s).

(** [FlowState.__init__], with [initiated] as [opening] sets it *)
Definition new_state (key : FlowKey) (p : PacketMetadata) (src dst : IPv4.t) : FlowState :=
  mk_state key (pk_protocol p) src (pk_source_port p) dst (pk_destination_port p)
    (pk_source_mac p) (pk_destination_mac p) (pk_timestamp p) (pk_timestamp p)
    0 0 0 0 0 0 0 0 0 0 0 0 0 0 false false false new_stats new_stats new_stats None (is_initiation p).

(** [FlowState.opening], called with both addresses already IPv4 *)
Definition opening (key : FlowKey) (p : PacketMetadata) (src dst : IPv4.t) : FlowState :=
  observe (new_state key p src dst) p.

(** ** The [Flow] record (core/models/flow.py) *)

Record SizeStats : Type := mk_size_stats { ss_min : Z; ss_max : Z; ss_mean : float; ss_std : float }.
Record InterArrivalStats : Type := mk_arrival { ia_min : float; ia_max : float; ia_mean : float; ia_std : float }.

Record PayloadStats : Type := mk_payload_stats { ps_forward_bytes : Z; ps_backward_bytes : Z; ps_sizes : SizeStats }.

Record Flow : Type := mk_flow {
  fl_source_ip : IPv4.t;
  fl_destination_ip : IPv4.t;
  fl_source_port : option Z;
  fl_destination_port : option Z;
  fl_protocol : Protocol;
  fl_first_seen : Z;
  fl_last_seen : Z;
  fl_packet_count : Z;
  fl_byte_count : Z;
  fl_forward_packet_count : Z;
  fl_backward_packet_count : Z;
  fl_forward_byte_count : Z;
  fl_backward_byte_count : Z;
  fl_tcp_flags : list Z;  (** syn, ack, fin, rst, psh, urg *)
  fl_packet_size_stats : SizeStats;
  fl_inter_arrival_stats : InterArrivalStats;
  fl_opened_by_initiation : bool;
  fl_source_mac : option string;
  fl_destination_mac : option string;
  fl_payload_stats : option PayloadStats;
}.

(** [Flow._check_consistency] *)
Definition flow_check (f : Flow) : result Flow :=
  if fl_last_seen f <? fl_first_seen f then Raise (ValueError "last_seen must not precede first_seen")
  else if match fl_payload_stats f with
          | Some p => fl_byte_count f <? ps_forward_bytes p + ps_backward_bytes p
          | None => false
          end
  then Raise (ValueError "payload bytes cannot exceed total (IP-level) bytes")
  else if negb (fl_forward_packet_count f + fl_backward_packet_count f =? fl_packet_count f)
  then Raise (ValueError "forward_packet_count + backward_packet_count must equal packet_count")
  else if negb (fl_forward_byte_count f + fl_backward_byte_count f =? fl_byte_count f)
  then Raise (ValueError "forward_byte_count + backward_byte_count must equal byte_count")
  else Ok f.

Definition flow_of (s : FlowState) : Flow :=
  mk_flow (fs_forward_source_ip s) (fs_forward_destination_ip s) (fs_forward_source_port s)
    (fs_forward_destination_port s) (fs_protocol s) (fs_first_seen s) (fs_last_seen s)
    (fs_packet_count s) (fs_byte_count s) (fs_forward_packet_count s) (fs_backward_packet_count s)
    (fs_forward_byte_count s) (fs_backward_byte_count s)
    [fs_syn_count s; fs_ack_count s; fs_fin_count s; fs_rst_count s; fs_psh_count s; fs_urg_count s]
    (mk_size_stats (fround (stats_min (fs_packet_size_stats s))) (fround (stats_max (fs_packet_size_stats s)))
       (stats_mean (fs_packet_size_stats s)) (stats_std (fs_packet_size_stats s)))
    (mk_arrival (stats_min (fs_inter_arrival_stats s)) (stats_max (fs_inter_arrival_stats s))
       (stats_mean (fs_inter_arrival_stats s)) (stats_sample_std (fs_inter_arrival_stats s)))
    (fs_initiated s) (fs_forward_source_mac s) (fs_forward_destination_mac s)
    (Some (mk_payload_stats (fs_forward_payload_bytes s) (fs_backward_payload_bytes s)
       (mk_size_stats (fround (stats_min (fs_payload_size_stats s))) (fround (stats_max (fs_payload_size_stats s)))
          (stats_mean (fs_payload_size_stats s)) (stats_sample_std (fs_payload_size_stats s))))).

(** [to_flow] *)
Definition to_flow (s : FlowState) : result Flow := flow_check (flow_of s).

(** ** Closing (flow/timeout.py) *)

Inductive FlowCloseReason := TCP_COMPLETED | ACTIVE_TIMEOUT | INACTIVE_TIMEOUT.

Definition is_tcp_completed (s : FlowState) : bool :=
  bool_decide (fs_protocol s = TCP) && (fs_saw_rst s || (fs_saw_fin_forward s && fs_saw_fin_backward s)).

Definition check_closure (s : FlowState) (now active inactive : Z) : option FlowCloseReason :=
  if is_tcp_completed s then Some TCP_COMPLETED
  else if seconds active <=? now - fs_first_seen s then Some ACTIVE_TIMEOUT
  else if seconds inactive <=? now - fs_last_seen s then Some INACTIVE_TIMEOUT
  else None.

(** ** The table *)

Record FlowTable : Type := mk_table { ft_max_flows : Z; ft_flows : list (FlowKey * FlowState) }.

Definition ft_with (t : FlowTable) fs : FlowTable := mk_table (ft_max_flows t) fs.

Definition table_get (key : FlowKey) (t : FlowTable) : option FlowState * FlowTable :=
  match dget (ft_flows t) key with
  | None => (None, t)
  | Some s => (Some s, ft_with t (dmove_to_end (ft_flows t) key))
  end.

(** [popitem] on an empty table raises [KeyError]. *)
Definition table_insert (key : FlowKey) (s : FlowState) : M FlowTable (option FlowState) := λ t,
  if ft_max_flows t <=? Z.of_nat (length (ft_flows t)) then
    match ft_flows t with
    | [] => (Raise KeyError, t)
    | (_, old) :: rest => (Ok (Some old), ft_with t (dset rest key s))
    end
  else (Ok None, ft_with t (dset (ft_flows t) key s)).

Definition table_pop (key : FlowKey) (t : FlowTable) : FlowTable := ft_with t (dpop (ft_flows t) key).

(** ** The aggregator (flow/aggregator.py) *)

Record NewFlowSignal : Type := mk_signal {
  nf_source_ip : IPv4.t;
  nf_destination_ip : IPv4.t;
  nf_destination_port : option Z;
  nf_protocol : Protocol;
  nf_timestamp : Z;
  nf_source_mac : option string;
  nf_destination_mac : option string;
}.

Definition _LIMITED_BROADCAST : IPv4.t := IPv4.a_b_c_d 255 255 255 255.

Definition is_routable_unicast (a : IPv4.t) (protected : option IPv4.network) : bool :=
  if IPv4.is_unspecified a || IPv4.is_loopback a || IPv4.is_multicast a || IPv4.is_link_local a
     || IPv4.is_reserved a || (a =? _LIMITED_BROADCAST) then false
  else match protected with
       | Some n => negb ((IPv4.prefixlen n <? 31) && (a =? IPv4.broadcast n))
       | None => true
       end.

(** [ag_signals] is what was passed to [on_new_flow], if there is one. *)
Record FlowAggregator : Type := mk_aggregator {
  ag_table : FlowTable;
  ag_active_timeout_seconds : Z;
  ag_inactive_timeout_seconds : Z;
  ag_protected_network : option IPv4.network;
  ag_on_new_flow : bool;
  ag_signals : list NewFlowSignal;
}.

Definition new_aggregator (max_flows active inactive : Z) (protected : option IPv4.network) (sink : bool) : FlowAggregator :=
  mk_aggregator (mk_table max_flows []) active inactive protected sink [].

Definition ag_set_table (a : FlowAggregator) t : FlowAggregator :=
  mk_aggregator t (ag_active_timeout_seconds a) (ag_inactive_timeout_seconds a) (ag_protected_network a)
    (ag_on_new_flow a) (ag_signals a).
Definition ag_signal (a : FlowAggregator) (n : NewFlowSignal) : FlowAggregator :=
  mk_aggregator (ag_table a) (ag_active_timeout_seconds a) (ag_inactive_timeout_seconds a) (ag_protected_network a)
    (ag_on_new_flow a) (ag_signals a ++ [n]).

Definition on_table {A} (m : M FlowTable A) : M FlowAggregator A := λ a,
  let '(r, t) := m (ag_table a) in (r, ag_set_table a t).

(** [_finalize] *)
Definition _finalize (s : FlowState) : M FlowAggregator Flow := mlift (to_flow s).

(** Both addresses, when both are routable IPv4 unicast addresses. *)
Definition accepted (protected : option IPv4.network) (p : PacketMetadata) : option (IPv4.t * IPv4.t) :=
  match pk_source_ip p, pk_destination_ip p with
  | V4 src, V4 dst =>
      if is_routable_unicast src protected && is_routable_unicast dst protected then Some (src, dst) else None
  | _, _ => None
  end.

Definition open_flow (key : FlowKey) (p : PacketMetadata) (src dst : IPv4.t) : M FlowAggregator (FlowState * list Flow) :=
  let s := opening key p src dst in
  _ ← mmodify (λ a, if ag_on_new_flow a && fs_initiated s
                    then ag_signal a (mk_signal src dst (pk_destination_port p) (pk_protocol p) (pk_timestamp p)
                                        (pk_source_mac p) (pk_destination_mac p))
                    else a);
  evicted ← on_table (table_insert key s);
  match evicted with
  | None => mret (s, [])
  | Some old => f ← _finalize old; mret (s, [f])
  end.

(** The end of [process_packet]: close the flow the packet completed. *)
Definition close_if_due (key : FlowKey) (s : FlowState) (now : Z) (emitted : list Flow) : M FlowAggregator (list Flow) :=
  a ← mget;
  match check_closure s now (ag_active_timeout_seconds a) (ag_inactive_timeout_seconds a) with
  | None => mret emitted
  | Some _ =>
      _ ← mmodify (λ a, ag_set_table a (table_pop key (ag_table a)));
      f ← _finalize s;
      mret (emitted ++ [f])
  end.

Definition process_packet (p : PacketMetadata) : M FlowAggregator (list Flow) :=
  a ← mget;
  match accepted (ag_protected_network a) p with
  | None => mret []
  | Some (src, dst) =>
      let key := compute_flow_key src dst (pk_source_port p) (pk_destination_port p) (pk_protocol p) in
      found ← on_table (λ t, let '(o, t') := table_get key t in (Ok o, t'));
      '(s, emitted) ←
        match found with
        | None => open_flow key p src dst
        | Some s =>
            let s' := observe s p in
            _ ← mmodify (λ a, ag_set_table a (ft_with (ag_table a) (dset (ft_flows (ag_table a)) key s')));
            mret (s', [])
        end;
      close_if_due key s (pk_timestamp p) emitted
  end.

Fixpoint sweep_loop (items : list (FlowKey * FlowState)) (now : Z) : M FlowAggregator (list Flow) :=
  match items with
  | [] => mret []
  | (key, s) :: items' =>
      a ← mget;
      match check_closure s now (ag_active_timeout_seconds a) (ag_inactive_timeout_seconds a) with
      | None => sweep_loop items' now
      | Some _ =>
          _ ← mmodify (λ a, ag_set_table a (table_pop key (ag_table a)));
          f ← _finalize s;
          rest ← sweep_loop items' now;
          mret (f :: rest)
      end
  end.

Definition sweep_timeouts (now : Z) : M FlowAggregator (list Flow) :=
  a ← mget; sweep_loop (ft_flows (ag_table a)) now.

Fixpoint finalize_all (states : list FlowState) : M FlowAggregator (list Flow) :=
  match states with
  | [] => mret []
  | s :: states' => f ← _finalize s; rest ← finalize_all states'; mret (f :: rest)
  end.

Definition flush : M FlowAggregator (list Flow) :=
  a ← mget;
  emitted ← finalize_all (dvalues (ft_flows (ag_table a)));
  _ ← mmodify (λ a, ag_set_table a (ft_with (ag_table a) []));
  mret emitted.

(** [_is_slow_connection_candidate]; [min_duration_seconds] is positive in
    every valid configuration, so the division is defined. *)
Definition _is_slow_connection_candidate (s : FlowState) (now : Z) (min_duration max_bytes_per_second max_idle : float) : bool :=
  if negb (bool_decide (fs_protocol s = TCP)) then false
  else if fs_backward_packet_count s <? 1 then false
  else if fs_saw_fin_forward s || fs_saw_fin_backward s || fs_saw_rst s then false
  else
    let duration := total_seconds (now - fs_first_seen s) in
    if flt duration min_duration then false
    else if flt max_idle (total_seconds (now - fs_last_seen s)) then false
    else fle (fdiv (float_of_Z (fs_byte_count s)) duration) max_bytes_per_second.

Record SlowConnectionCluster : Type := mk_cluster {
  sc_source_ip : IPv4.t;
  sc_destination_ip : IPv4.t;
  sc_concurrent_count : Z;
  sc_representative_flow : result Flow;
}.

Definition group_by_pair (states : list FlowState) : list ((IPv4.t * IPv4.t) * list FlowState) :=
  foldl (λ acc s, let key := (fs_forward_source_ip s, fs_forward_destination_ip s) in
                  dset acc key (default [] (dget acc key) ++ [s])) [] states.

Definition snapshot_slow_connection_clusters (a : FlowAggregator) (now : Z)
  (min_duration max_bytes_per_second : float) (concurrent_threshold : Z) (max_idle : float)
  : list SlowConnectionCluster :=
  let slow := filter (λ s, _is_slow_connection_candidate s now min_duration max_bytes_per_second max_idle = true)
                (dvalues (ft_flows (ag_table a))) in
  omap (λ p : (IPv4.t * IPv4.t) * list FlowState,
    if Z.of_nat (length p.2) <? concurrent_threshold then None
    else rep ← py_min fs_first_seen p.2;
         Some (mk_cluster p.1.1 p.1.2 (Z.of_nat (length p.2)) (to_flow rep))) (group_by_pair slow).

Definition newer (best : option FlowState) (s : FlowState) : option FlowState :=
  match best with
  | None => Some s
  | Some b => if fs_last_seen b <? fs_last_seen s then Some s else best
  end.

Definition snapshot_open_flow_from (a : FlowAggregator) (source_ip : IPv4.t) : option (result Flow) :=
  to_flow <$> foldl newer None
    (filter (λ s, fs_forward_source_ip s = source_ip) (dvalues (ft_flows (ag_table a)))).

(** ** Connection starts (flow/connection_start.py) *)

Definition FiveTuple : Type := IPv4.t * IPv4.t * option Z * option Z.

Record ConnectionStartTracker : Type := mk_tracker {
  ct_max_tracked : Z;
  ct_seen : list (FiveTuple * unit);
  ct_evictions : Z;
}.

Definition new_tracker (max_tracked : Z) : result ConnectionStartTracker :=
  if max_tracked <=? 0 then Raise (ValueError "max_tracked must be positive") else Ok (mk_tracker max_tracked [] 0).

Definition flow_tuple (f : Flow) : FiveTuple :=
  (fl_source_ip f, fl_destination_ip f, fl_source_port f, fl_destination_port f).

Definition tracker_observe (f : Flow) (t : ConnectionStartTracker) : bool * ConnectionStartTracker :=
  if negb (bool_decide (fl_protocol f = TCP)) then (false, t)
  else
    let key := flow_tuple f in
    if dmem (ct_seen t) key then (false, mk_tracker (ct_max_tracked t) (dmove_to_end (ct_seen t) key) (ct_evictions t))
    else
      let seen := dset (ct_seen t) key tt in
      (fl_opened_by_initiation f,
       if ct_max_tracked t <? Z.of_nat (length seen)
       then mk_tracker (ct_max_tracked t) (dpopitem_first seen) (ct_evictions t + 1)
       else mk_tracker (ct_max_tracked t) seen (ct_evictions t)).
