(* ===== verification/FlowProps.v ===== *)
(** * Theorems about flow tracking

    Keys do not depend on a packet's direction; every accumulator a reachable
    aggregator holds or emits passes [Flow]'s consistency check, so closing a
    flow never fails; and no packet is lost or counted twice: what the table
    holds and what was emitted add up to what was accepted. *)

From S2P Require Import Prelude Float Net Models Flow.
Local Open Scope Z_scope.

(** ** Keys *)

Lemma endpoint_leb_total a b : endpoint_leb a b = false → endpoint_leb b a = true.
Proof.
  destruct a as [x p], b as [y q]. unfold endpoint_leb, _sort_value. cbn.
  destruct (x =? y) eqn:Hxy, (y =? x) eqn:Hyx; bool_prop; intros; bool_prop; try lia; apply Z.leb_le; lia.
Qed.

Lemma endpoint_leb_antisym a b : port_wf a.2 → port_wf b.2 →
  endpoint_leb a b = true → endpoint_leb b a = true → a = b.
Proof.
  destruct a as [x p], b as [y q]. unfold endpoint_leb, _sort_value, port_wf. cbn. intros Hp Hq.
  destruct (x =? y) eqn:Hxy, (y =? x) eqn:Hyx; bool_prop; intros; bool_prop; try lia.
  subst. f_equal. destruct p as [p|], q as [q|]; cbn in *.
  - f_equal. lia.
  - specialize (Hp p eq_refl). lia.
  - specialize (Hq q eq_refl). lia.
  - done.
Qed.

Lemma sorted_pair a b : py_sorted endpoint_leb [a; b] = if endpoint_leb a b then [a; b] else [b; a].
Proof. done. Qed.

Lemma flow_key_eq s d sp dp pr :
  compute_flow_key s d sp dp pr = if endpoint_leb (s, sp) (d, dp) then mk_key pr (s, sp) (d, dp) else mk_key pr (d, dp) (s, sp).
Proof. unfold compute_flow_key. rewrite sorted_pair. by destruct (endpoint_leb _ _). Qed.

(** A flow's key is the unordered pair of its endpoints: both directions
    of a connection have the same key, and two packets with the same key run
    between the same endpoints, in one direction or the other. *)
Theorem flow_key_is_the_unordered_pair s d sp dp pr : port_wf sp → port_wf dp →
  compute_flow_key s d sp dp pr = compute_flow_key d s dp sp pr ∧
  ∀ s' d' sp' dp' pr', compute_flow_key s d sp dp pr = compute_flow_key s' d' sp' dp' pr' ↔
    pr = pr' ∧ ((s, sp) = (s', sp') ∧ (d, dp) = (d', dp') ∨
                (s, sp) = (d', dp') ∧ (d, dp) = (s', sp')).
Proof.
  intros Hs Hd. assert (Hsym : compute_flow_key s d sp dp pr = compute_flow_key d s dp sp pr).
  { rewrite !flow_key_eq. destruct (endpoint_leb (s, sp) (d, dp)) eqn:H1, (endpoint_leb (d, dp) (s, sp)) eqn:H2; try done.
    - assert ((s, sp) = (d, dp)) as [= -> ->] by (by apply endpoint_leb_antisym). done.
    - apply endpoint_leb_total in H1. congruence. }
  split; [done|]. intros s' d' sp' dp' pr'. split.
  - rewrite !flow_key_eq. destruct (endpoint_leb (s, sp) (d, dp)), (endpoint_leb (s', sp') (d', dp'));
      intros [= -> -> -> -> ->]; tauto.
  - intros [-> [[[= -> ->] [= -> ->]]|[[= -> ->] [= -> ->]]]]; [done|]. exact Hsym.
Qed.

Lemma flow_key_is_the_unordered_pair_witness :
  compute_flow_key 7 9 (Some 40000) (Some 443) TCP = compute_flow_key 9 7 (Some 443) (Some 40000) TCP ∧
  ∀ s' d' sp' dp' pr', compute_flow_key 7 9 (Some 40000) (Some 443) TCP = compute_flow_key s' d' sp' dp' pr' ↔
    TCP = pr' ∧ ((7, Some 40000) = (s', sp') ∧ (9, Some 443) = (d', dp') ∨
                 (7, Some 40000) = (d', dp') ∧ (9, Some 443) = (s', sp')).
Proof. apply flow_key_is_the_unordered_pair; intros ? [= <-]; lia. Defined.

(** ** Accumulators stay consistent *)

Definition packet_ok (p : PacketMetadata) : Prop := 0 ≤ pk_payload_length p ≤ pk_total_length p.

Record state_ok (s : FlowState) : Prop := {
  so_packets : fs_forward_packet_count s + fs_backward_packet_count s = fs_packet_count s;
  so_bytes : fs_forward_byte_count s + fs_backward_byte_count s = fs_byte_count s;
  so_payload : fs_forward_payload_bytes s + fs_backward_payload_bytes s ≤ fs_byte_count s;
  so_times : fs_first_seen s ≤ fs_last_seen s;
}.

Lemma observe_ok s p : state_ok s → packet_ok p → state_ok (observe s p).
Proof.
  intros [H1 H2 H3 H4] [? ?]. unfold observe. destruct (is_forward s p); split; cbn; try lia;
    destruct (fs_last_seen s <? pk_timestamp p) eqn:Hl; bool_prop; lia.
Qed.

Lemma opening_ok key p src dst : packet_ok p → state_ok (opening key p src dst).
Proof. intros Hp. apply observe_ok; [|done]. split; cbn; lia. Qed.

Lemma to_flow_ok s : state_ok s → to_flow s = Ok (flow_of s).
Proof.
  intros [H1 H2 H3 H4]. unfold to_flow, flow_check. cbn [flow_of fl_last_seen fl_first_seen fl_byte_count
    fl_payload_stats ps_forward_bytes ps_backward_bytes fl_forward_packet_count fl_backward_packet_count fl_packet_count
    fl_forward_byte_count fl_backward_byte_count].
  rewrite H1, H2, !Z.eqb_refl. by destruct (Z.ltb_spec (fs_last_seen s) (fs_first_seen s)),
    (Z.ltb_spec (fs_byte_count s) (fs_forward_payload_bytes s + fs_backward_payload_bytes s)); try lia.
Qed.

Record agg_inv (a : FlowAggregator) : Prop := {
  ag_positive : 0 < ft_max_flows (ag_table a);
  ag_dwf : dwf (ft_flows (ag_table a));
  ag_bounded : Z.of_nat (length (ft_flows (ag_table a))) ≤ ft_max_flows (ag_table a);
  ag_states : ∀ k s, dget (ft_flows (ag_table a)) k = Some s → state_ok s ∧ fs_key s = k;
}.

(** What a step leaves alone. *)
Definition same_config (a a' : FlowAggregator) : Prop :=
  ft_max_flows (ag_table a') = ft_max_flows (ag_table a) ∧
  ag_active_timeout_seconds a' = ag_active_timeout_seconds a ∧
  ag_inactive_timeout_seconds a' = ag_inactive_timeout_seconds a ∧
  ag_protected_network a' = ag_protected_network a.

#[global] Instance same_config_preorder : PreOrder same_config.
Proof.
  split; [by intros a|]. intros a b c (H1 & H2 & H3 & H4) (G1 & G2 & G3 & G4).
  split; [by rewrite G1|]. split; [by rewrite G2|]. split; [by rewrite G3|by rewrite G4].
Qed.

(** ** Measures: something every observed packet adds to *)

Section Measure.
Context (m : FlowState → Z) (w : PacketMetadata → Z).

Class Measure : Prop := {
  measure_observe : ∀ s p, m (observe s p) = m s + w p;
  measure_new : ∀ k p src dst, m (new_state k p src dst) = 0;
}.

Definition total (states : list FlowState) : Z := foldr (λ s acc, m s + acc) 0 states.
Definition held (a : FlowAggregator) : Z := total (dvalues (ft_flows (ag_table a))).

Lemma total_app l1 l2 : total (l1 ++ l2) = total l1 + total l2.
Proof. induction l1 as [|s l1 IH]; cbn; [done|]. unfold total in *. cbn. lia. Qed.

Lemma total_pop (d : list (FlowKey * FlowState)) k s : dwf d → dget d k = Some s →
  total (dvalues d) = m s + total (dvalues (dpop d k)).
Proof.
  unfold dwf, dkeys, dvalues. induction d as [|[k0 s0] d IH]; cbn; [done|]. intros [Hnin Hnd]%NoDup_cons.
  case_decide as Hk.
  - intros [= ->]. subst k0. replace (dpop d k) with d; [done|].
    symmetry. clear -Hnin. induction d as [|[k1 s1] d IH]; cbn; [done|]. cbn in Hnin.
    rewrite decide_False by set_solver. rewrite IH; set_solver.
  - intros Hs. cbn. unfold total in *. cbn. rewrite (IH Hnd Hs). lia.
Qed.

Lemma total_set_new (d : list (FlowKey * FlowState)) k s : dget d k = None →
  total (dvalues (dset d k s)) = total (dvalues d) + m s.
Proof.
  unfold dvalues. induction d as [|[k0 s0] d IH]; cbn; [intros _; unfold total; cbn; lia|].
  case_decide; [done|]. intros Hn. cbn. unfold total in *. cbn. rewrite (IH Hn). lia.
Qed.

Lemma total_set_in (d : list (FlowKey * FlowState)) k s s' : dget d k = Some s →
  total (dvalues (dset d k s')) + m s = total (dvalues d) + m s'.
Proof.
  unfold dvalues. induction d as [|[k0 s0] d IH]; cbn; [done|].
  case_decide; [intros [= ->]; unfold total; cbn; lia|]. intros Hs. cbn. unfold total in *. cbn. specialize (IH Hs). lia.
Qed.

Lemma total_move (d : list (FlowKey * FlowState)) k : dwf d → total (dvalues (dmove_to_end d k)) = total (dvalues d).
Proof.
  intros Hwf. unfold dmove_to_end. destruct (dget d k) as [s|] eqn:Hs; [|done].
  rewrite (total_pop d k s Hwf Hs). unfold dvalues. rewrite fmap_app, total_app. unfold total. cbn. lia.
Qed.
End Measure.

(** A step that leaves [a'], having closed [closed] and, for each measure,
    taken in [w p] for each accepted packet. *)
Record agg_step (a a' : FlowAggregator) (closed : list FlowState) (taken : list PacketMetadata) : Prop := {
  as_inv : agg_inv a';
  as_config : same_config a a';
  as_closed : Forall state_ok closed;
  as_conserves : ∀ m w, Measure m w →
    held m a' + total m closed = held m a + foldr (λ p acc, w p + acc) 0 taken;
}.

Lemma agg_inv_table a fs :
  agg_inv a → dwf fs → Z.of_nat (length fs) ≤ ft_max_flows (ag_table a) →
  (∀ k s, dget fs k = Some s → state_ok s ∧ fs_key s = k) →
  agg_inv (ag_set_table a (ft_with (ag_table a) fs)).
Proof. intros [? ? ? ?] ? ? ?. by split. Qed.

Lemma observe_key s p : fs_key (observe s p) = fs_key s.
Proof. done. Qed.

Lemma measure_opening m w key p src dst : Measure m w → m (opening key p src dst) = w p.
Proof. intros [Ho Hn]. unfold opening. rewrite Ho, Hn. lia. Qed.

(** Opening a flow evicts at most the least recently used one. *)
Lemma open_flow_spec key p src dst a : agg_inv a → packet_ok p → dget (ft_flows (ag_table a)) key = None →
  ∃ a' closed, open_flow key p src dst a = (Ok (opening key p src dst, flow_of <$> closed), a') ∧
    agg_step a a' closed [p] ∧ dget (ft_flows (ag_table a')) key = Some (opening key p src dst).
Proof.
  intros Hi Hp Hnew. pose proof Hi as [Hpos Hwf Hb Hst]. unfold open_flow, mbind, m_bind, mmodify.
  set (s := opening key p src dst). set (a1 := if _ && _ then _ else a).
  assert (Ht1 : ag_table a1 = ag_table a) by (unfold a1; by destruct (_ && _)).
  assert (Hc1 : same_config a a1) by (unfold a1; by destruct (_ && _)).
  assert (Hs : state_ok s) by (by apply opening_ok).
  assert (Hadd : ∀ fs k s', (∀ k s, dget fs k = Some s → state_ok s ∧ fs_key s = k) →
            dget (dset fs key s) k = Some s' → state_ok s' ∧ fs_key s' = k).
  { intros fs k s' Hfs. rewrite dget_set. case_decide as Hk; [intros [= <-]; by subst|]. apply Hfs. }
  unfold on_table, table_insert. rewrite Ht1. destruct (_ <=? _) eqn:Hfull; bool_prop.
  - destruct (ft_flows (ag_table a)) as [|[k0 old] rest] eqn:Hfl; [cbn in Hfull; lia|].
    destruct (Hst k0 old) as [Hold _]; [cbn; by rewrite decide_True|].
    unfold _finalize, mlift. rewrite (to_flow_ok _ Hold).
    assert (Hwf' : dwf rest) by (by apply (dwf_tail ((k0, old) :: rest))).
    assert (Hnr : dget rest key = None) by (cbn in Hnew; by case_decide).
    assert (Hrest : ∀ k s', dget rest k = Some s' → state_ok s' ∧ fs_key s' = k).
    { intros k s' Hk. apply Hst. cbn. case_decide as He; [|done]. subst k0. exfalso.
      unfold dwf, dkeys in Hwf. cbn in Hwf. apply NoDup_cons in Hwf as [Hnin _]. apply Hnin.
      apply dget_is_Some. eauto. }
    eexists _, [old]. split; [reflexivity|]. split; [split|].
    + split; cbn [ag_table ag_set_table ft_max_flows ft_with ft_flows]; auto with pirewall.
      * rewrite dset_length, decide_False by (by apply dget_None). cbn in Hb. lia.
      * intros k s'. by apply Hadd.
    + split; [done|]. apply Hc1.
    + constructor; [done|constructor].
    + intros m w Hm. unfold held. cbn [ag_table ag_set_table ft_flows ft_with]. rewrite Hfl, total_set_new by done.
      unfold s. rewrite (measure_opening m w) by done. unfold total, dvalues. cbn. lia.
    + cbn. by rewrite dget_set_eq.
  - eexists _, []. split; [reflexivity|]. split; [split|].
    + split; cbn [ag_table ag_set_table ft_max_flows ft_with ft_flows]; auto with pirewall.
      * rewrite dset_length, decide_False by (by apply dget_None). lia.
      * intros k s'. by apply Hadd.
    + split; [done|]. apply Hc1.
    + constructor.
    + intros m w Hm. unfold held. cbn [ag_table ag_set_table ft_flows ft_with]. rewrite total_set_new by done.
      unfold s. rewrite (measure_opening m w) by done. unfold total, dvalues. cbn. lia.
    + cbn. by rewrite dget_set_eq.
Qed.

(** Removing and finalising one held flow. *)
Lemma close_flow_step a key s : agg_inv a → dget (ft_flows (ag_table a)) key = Some s →
  to_flow s = Ok (flow_of s) ∧ agg_step a (ag_set_table a (table_pop key (ag_table a))) [s] [].
Proof.
  intros Hi Hs. pose proof Hi as [Hpos Hwf Hb Hst]. destruct (Hst key s Hs) as [Hok _]. split; [by apply to_flow_ok|].
  split; [|done|constructor; [done|constructor]|].
  - split; cbn [ag_table ag_set_table table_pop ft_max_flows ft_with ft_flows]; auto with pirewall.
    + pose proof (dpop_length_le (ft_flows (ag_table a)) key). lia.
    + intros k s'. rewrite dget_pop. case_decide; [done|]. apply Hst.
  - intros m w Hm. unfold held. cbn [ag_table ag_set_table table_pop ft_flows ft_with].
    rewrite (total_pop m (ft_flows (ag_table a)) key s Hwf Hs). cbn. lia.
Qed.

Lemma agg_step_trans a1 a2 a3 c1 c2 t1 t2 :
  agg_step a1 a2 c1 t1 → agg_step a2 a3 c2 t2 → agg_step a1 a3 (c1 ++ c2) (t1 ++ t2).
Proof.
  intros [I1 C1 F1 M1] [I2 C2 F2 M2]. split; [done|by etrans|by apply Forall_app|].
  intros m w Hm. specialize (M1 m w Hm). specialize (M2 m w Hm). rewrite total_app, foldr_app.
  assert (Hf : ∀ x, foldr (λ p acc, w p + acc) x t1 = foldr (λ p acc, w p + acc) 0 t1 + x).
  { clear. induction t1 as [|p t1 IH]; intros x; cbn; [lia|]. rewrite IH. lia. }
  rewrite Hf. lia.
Qed.

Definition was_accepted (a : FlowAggregator) (p : PacketMetadata) : bool :=
  match accepted (ag_protected_network a) p with Some _ => true | None => false end.

Lemma agg_step_refl a : agg_inv a → agg_step a a [] [].
Proof. intros Hi. split; [done|done|constructor|]. intros m w _. cbn. lia. Qed.

(** Looking a flow up and folding the packet in. *)
Lemma observe_flow_step a key s p : agg_inv a → packet_ok p → dget (ft_flows (ag_table a)) key = Some s →
  let fs := dset (dmove_to_end (ft_flows (ag_table a)) key) key (observe s p) in
  agg_step a (ag_set_table a (ft_with (ag_table a) fs)) [] [p] ∧ dget fs key = Some (observe s p).
Proof.
  intros Hi Hp Hs fs. pose proof Hi as [Hpos Hwf Hb Hst]. destruct (Hst key s Hs) as [Hok Hk].
  assert (Hm : dget (dmove_to_end (ft_flows (ag_table a)) key) key = Some s) by (by rewrite dget_move_to_end).
  split; [|apply dget_set_eq]. split; [|done|constructor|].
  - apply agg_inv_table; [done|unfold fs; auto with pirewall| |].
    + unfold fs. rewrite dset_length, decide_True by (apply dget_is_Some; eauto). by rewrite dmove_length.
    + intros k s'. unfold fs. rewrite dget_set, dget_move_to_end. case_decide as He; [|apply Hst].
      intros [= <-]. split; [by apply observe_ok|]. by rewrite observe_key, Hk.
  - intros m w Hw. unfold held. cbn [ag_table ag_set_table ft_flows ft_with].
    pose proof (total_set_in m _ key s (observe s p) Hm) as Ht. rewrite total_move in Ht by done.
    destruct Hw as [Ho _]. rewrite Ho in Ht. unfold fs. cbn. lia.
Qed.

Lemma process_packet_step p a : agg_inv a → packet_ok p →
  ∃ a' closed, process_packet p a = (Ok (flow_of <$> closed), a') ∧
    agg_step a a' closed (if was_accepted a p then [p] else []).
Proof.
  intros Hi Hp. unfold process_packet, was_accepted, mbind, m_bind, mget.
  destruct (accepted (ag_protected_network a) p) as [[src dst]|] eqn:Hacc;
    [|exists a, []; split; [done|by apply agg_step_refl]].
  set (key := compute_flow_key src dst (pk_source_port p) (pk_destination_port p) (pk_protocol p)).
  assert (Hfin : ∀ s a1 closed, agg_step a a1 closed [p] → dget (ft_flows (ag_table a1)) key = Some s →
    ∃ a' closed', close_if_due key s (pk_timestamp p) (flow_of <$> closed) a1 = (Ok (flow_of <$> closed'), a') ∧
      agg_step a a' closed' [p]).
  { intros s a1 closed Hst1 Hs. unfold close_if_due, mbind, m_bind, mget. destruct (check_closure _ _ _ _).
    - destruct (close_flow_step a1 key s) as [Hf Hcl]; [apply Hst1|done|].
      eexists _, (closed ++ [s]). split; [unfold mmodify, _finalize, mlift; rewrite Hf, fmap_app; reflexivity|].
      change [p] with ([p] ++ []). by eapply agg_step_trans.
    - by exists a1, closed. }
  unfold on_table, table_get. destruct (dget (ft_flows (ag_table a)) key) as [s|] eqn:Hs.
  - destruct (observe_flow_step a key s p Hi Hp Hs) as [Hst Hg].
    destruct (Hfin (observe s p) _ [] Hst Hg) as (a' & closed' & Heq & Hst'). exists a', closed'.
    split; [exact Heq|done].
  - assert (Hsame : ag_set_table a (ag_table a) = a) by (by destruct a). rewrite Hsame.
    destruct (open_flow_spec key p src dst a Hi Hp Hs) as (a1 & closed & Hopen & Hst & Hg). rewrite Hopen.
    destruct (Hfin _ _ _ Hst Hg) as (a' & closed' & Heq & Hst'). exists a', closed'. split; [exact Heq|done].
Qed.

(** Sweeping the items [items] of the table closes exactly the overdue ones. *)
Definition overdue (a : FlowAggregator) (now : Z) (s : FlowState) : bool :=
  match check_closure s now (ag_active_timeout_seconds a) (ag_inactive_timeout_seconds a) with Some _ => true | None => false end.

Lemma sweep_loop_step now items : ∀ a, agg_inv a → NoDup items.*1 →
  (∀ k s, (k, s) ∈ items → dget (ft_flows (ag_table a)) k = Some s) →
  ∃ a', sweep_loop items now a = (Ok (flow_of <$> (filter (λ p, overdue a now p.2 = true) items).*2), a') ∧
    agg_step a a' (filter (λ p, overdue a now p.2 = true) items).*2 [] ∧
    ∀ k, dget (ft_flows (ag_table a')) k =
         if decide (k ∈ (filter (λ p, overdue a now p.2 = true) items).*1) then None else dget (ft_flows (ag_table a)) k.
Proof.
  induction items as [|[key s] items IH]; intros a Hi Hnd Hin.
  { exists a. split; [done|]. split; [by apply agg_step_refl|done]. }
  rewrite fmap_cons in Hnd. apply NoDup_cons in Hnd as [Hnk Hnd]. cbn [fst] in Hnk.
  assert (Hs : dget (ft_flows (ag_table a)) key = Some s) by (apply Hin; set_solver).
  cbn [sweep_loop]. unfold mbind at 1, m_bind at 1, mget at 1. rewrite filter_cons. cbn [snd].
  destruct (check_closure s now _ _) as [reason|] eqn:Hc.
  - rewrite decide_True by (unfold overdue; by rewrite Hc).
    destruct (close_flow_step a key s Hi Hs) as [Hf Hcl].
    set (a1 := ag_set_table a (table_pop key (ag_table a))).
    destruct (IH a1) as (a' & Hl & Hst & Hg); [apply Hcl|done| |].
    { intros k s' Hk. cbn. rewrite dget_pop, decide_False; [apply Hin; set_solver|].
      intros ->. apply Hnk. apply list_elem_of_fmap. by exists (k, s'). }
    exists a'. change (overdue a1 now) with (overdue a now) in *. split; [|split].
    + unfold mbind, m_bind, mmodify, _finalize, mlift. rewrite Hf. fold a1. rewrite Hl. done.
    + rewrite fmap_cons. exact (agg_step_trans _ _ _ [s] _ [] [] Hcl Hst).
    + intros k. rewrite Hg. cbn [a1 ag_table ag_set_table table_pop ft_flows ft_with]. rewrite dget_pop, fmap_cons.
      cbn [fst]. repeat case_decide; set_solver.
  - rewrite decide_False by (unfold overdue; by rewrite Hc). apply IH; [done|done|]. intros k s' Hk. apply Hin. set_solver.
Qed.

Lemma sweep_step now a : agg_inv a →
  ∃ a' closed, sweep_timeouts now a = (Ok (flow_of <$> closed), a') ∧ agg_step a a' closed [] ∧
    closed = (filter (λ p, overdue a now p.2 = true) (ft_flows (ag_table a))).*2 ∧
    ∀ k, dget (ft_flows (ag_table a')) k =
      match dget (ft_flows (ag_table a)) k with Some s => if overdue a now s then None else Some s | None => None end.
Proof.
  intros Hi. pose proof (ag_dwf _ Hi) as Hwf.
  destruct (sweep_loop_step now (ft_flows (ag_table a)) a Hi) as (a' & Hl & Hst & Hg); [done|intros; by apply dget_elem|].
  eexists a', _. split; [exact Hl|]. split; [done|]. split; [done|]. intros k. rewrite Hg.
  assert (Hk : k ∈ (filter (λ p, overdue a now p.2 = true) (ft_flows (ag_table a))).*1 ↔
               ∃ s, dget (ft_flows (ag_table a)) k = Some s ∧ overdue a now s = true).
  { rewrite list_elem_of_fmap. split.
    - intros ([k' s] & -> & [Ho Hin]%list_elem_of_filter). exists s. split; [by apply dget_elem|done].
    - intros (s & Hs & Ho). exists (k, s). split; [done|]. apply list_elem_of_filter. split; [done|by apply dget_Some_elem]. }
  case_decide as Hd.
  - apply Hk in Hd as (s & -> & ->). done.
  - destruct (dget (ft_flows (ag_table a)) k) as [s|] eqn:Hs; [|done]. destruct (overdue a now s) eqn:Ho; [|done].
    destruct Hd. apply Hk. eauto.
Qed.

Lemma finalize_all_ok states : ∀ a, Forall state_ok states → finalize_all states a = (Ok (flow_of <$> states), a).
Proof.
  induction states as [|s states IH]; intros a; [done|]. intros [Hs Hrest]%Forall_cons.
  cbn [finalize_all]. unfold mbind, m_bind, _finalize, mlift. by rewrite (to_flow_ok _ Hs), IH.
Qed.

Lemma flush_step a : agg_inv a →
  ∃ a' closed, flush a = (Ok (flow_of <$> closed), a') ∧ agg_step a a' closed [] ∧ ft_flows (ag_table a') = [].
Proof.
  intros Hi. pose proof Hi as [Hpos Hwf Hb Hst].
  assert (Hall : Forall state_ok (dvalues (ft_flows (ag_table a)))).
  { apply Forall_forall. intros s Hs. unfold dvalues in Hs. apply list_elem_of_fmap in Hs as ([k s'] & -> & Hin).
    by destruct (Hst k s') as [? _]; [apply dget_elem|]. }
  eexists _, _. split; [unfold flush, mbind, m_bind, mget; rewrite finalize_all_ok by done; reflexivity|].
  split; [|done]. split; [|done|done|].
  - apply agg_inv_table; auto with pirewall; [cbn; lia|done].
  - intros m w Hm. unfold held, mmodify. cbn. lia.
Qed.

(** ** Runs *)

Inductive agg_op := Packet (p : PacketMetadata) | Sweep (now : Z) | Flush.

Definition agg_do (op : agg_op) : M FlowAggregator (list Flow) :=
  match op with Packet p => process_packet p | Sweep now => sweep_timeouts now | Flush => flush end.

Fixpoint agg_run (ops : list agg_op) : M FlowAggregator (list Flow) :=
  match ops with
  | [] => mret []
  | op :: ops' => fs ← agg_do op; rest ← agg_run ops'; mret (fs ++ rest)
  end.

Definition op_ok (op : agg_op) : Prop := match op with Packet p => packet_ok p | _ => True end.

(** The packets of a run that the aggregator accepts. *)
Definition accepted_packets (protected : option IPv4.network) (ops : list agg_op) : list PacketMetadata :=
  omap (λ op, match op with
              | Packet p => match accepted protected p with Some _ => Some p | None => None end
              | _ => None
              end) ops.

Lemma agg_run_step ops : ∀ a, agg_inv a → Forall op_ok ops →
  ∃ a' closed, agg_run ops a = (Ok (flow_of <$> closed), a') ∧
    agg_step a a' closed (accepted_packets (ag_protected_network a) ops).
Proof.
  induction ops as [|op ops IH]; intros a Hi Hok.
  { exists a, []. split; [done|by apply agg_step_refl]. }
  apply Forall_cons in Hok as [Hop Hops].
  assert (Hstep : ∃ a1 c1, agg_do op a = (Ok (flow_of <$> c1), a1) ∧
            agg_step a a1 c1 (accepted_packets (ag_protected_network a) [op])).
  { destruct op as [p|now|]; cbn [agg_do].
    - destruct (process_packet_step p a Hi Hop) as (a1 & c1 & H1 & Hst). exists a1, c1. split; [done|].
      unfold was_accepted in Hst. cbn. by destruct (accepted (ag_protected_network a) p).
    - destruct (sweep_step now a Hi) as (a1 & c1 & H1 & Hst & _). by exists a1, c1.
    - destruct (flush_step a Hi) as (a1 & c1 & H1 & Hst & _). by exists a1, c1. }
  destruct Hstep as (a1 & c1 & H1 & Hst1). destruct (IH a1) as (a2 & c2 & H2 & Hst2); [apply Hst1|done|].
  exists a2, (c1 ++ c2). split.
  - cbn [agg_run]. unfold mbind, m_bind. rewrite H1, H2. by rewrite fmap_app.
  - destruct Hst1 as [I1 C1 F1 M1]. pose proof C1 as (_ & _ & _ & Hprot). rewrite Hprot in Hst2.
    replace (accepted_packets (ag_protected_network a) (op :: ops)) with
      (accepted_packets (ag_protected_network a) [op] ++ accepted_packets (ag_protected_network a) ops).
    + by eapply agg_step_trans; [split|].
    + unfold accepted_packets. cbn. destruct op as [p|now|]; [|done|done]. by destruct (accepted _ _).
Qed.

Lemma new_aggregator_inv max active inactive protected sink : 0 < max →
  agg_inv (new_aggregator max active inactive protected sink).
Proof. intros Hm. split; cbn; auto with pirewall; [lia|done]. Qed.

Definition sum_of (f : Flow → Z) (fs : list Flow) : Z := foldr (λ x acc, f x + acc) 0 fs.

#[global] Instance packet_measure : Measure fs_packet_count (λ _, 1).
Proof. by split. Qed.
#[global] Instance byte_measure : Measure fs_byte_count pk_total_length.
Proof. by split. Qed.

Lemma sum_of_closed (f : Flow → Z) (m : FlowState → Z) closed :
  (∀ s, f (flow_of s) = m s) → sum_of f (flow_of <$> closed) = total m closed.
Proof. intros Hf. induction closed as [|s l IH]; [done|]. unfold sum_of, total in *. cbn. rewrite IH, Hf. done. Qed.

(** C36: No packet is lost and none counted twice.  Whatever sequence of
    packets, timeout sweeps and flushes an aggregator serves, every call
    returns, the table never holds more than [max_flows] flows, and the
    packets (and bytes) of the flows emitted so far and of the flows still
    open are exactly those of the accepted packets. *)
Theorem packets_are_conserved max active inactive protected sink ops :
  0 < max → Forall op_ok ops →
  ∃ flows a, agg_run ops (new_aggregator max active inactive protected sink) = (Ok flows, a) ∧
    Z.of_nat (length (ft_flows (ag_table a))) ≤ max ∧
    held fs_packet_count a + sum_of fl_packet_count flows = Z.of_nat (length (accepted_packets protected ops)) ∧
    held fs_byte_count a + sum_of fl_byte_count flows =
      foldr (λ p acc, pk_total_length p + acc) 0 (accepted_packets protected ops) ∧
    Forall (λ f, flow_check f = Ok f) flows.
Proof.
  intros Hmax Hops.
  destruct (agg_run_step ops _ (new_aggregator_inv max active inactive protected sink Hmax) Hops)
    as (a & closed & Hrun & [Hi (Hm & _) Hcl Hcons]).
  eexists _, a. split; [exact Hrun|]. split; [|split; [|split]].
  - pose proof (ag_bounded _ Hi) as Hb. by rewrite Hm in Hb.
  - rewrite (sum_of_closed fl_packet_count fs_packet_count) by done.
    rewrite (Hcons _ _ packet_measure). cbn [new_aggregator ag_protected_network]. clear. unfold held. cbn.
    induction (accepted_packets protected ops) as [|p l IH]; cbn; lia.
  - rewrite (sum_of_closed fl_byte_count fs_byte_count) by done. rewrite (Hcons _ _ byte_measure). done.
  - apply Forall_fmap. eapply Forall_impl; [exact Hcl|]. intros s Hs. exact (to_flow_ok s Hs).
Qed.

Definition sample_packet (src dst t len : Z) : PacketMetadata :=
  mk_packet t (V4 src) (V4 dst) UDP (Some 1000) (Some 53) None len 8 None None.
Definition lan_a : IPv4.t := IPv4.a_b_c_d 192 168 100 10.
Definition lan_b : IPv4.t := IPv4.a_b_c_d 192 168 100 11.
Definition lan_c : IPv4.t := IPv4.a_b_c_d 192 168 100 12.

(** Three conversations through a table of one flow: two evictions. *)
Definition sample_ops : list agg_op :=
  [Packet (sample_packet lan_a lan_b 0 60); Packet (sample_packet lan_b lan_c 1 70);
   Packet (sample_packet lan_a lan_c 2 80); Sweep (seconds 30)].

Lemma packets_are_conserved_witness :
  ∃ flows a, agg_run sample_ops (new_aggregator 1 120 60 None true) = (Ok flows, a) ∧
    Z.of_nat (length (ft_flows (ag_table a))) ≤ 1 ∧
    held fs_packet_count a + sum_of fl_packet_count flows = Z.of_nat (length (accepted_packets None sample_ops)) ∧
    held fs_byte_count a + sum_of fl_byte_count flows =
      foldr (λ p acc, pk_total_length p + acc) 0 (accepted_packets None sample_ops) ∧
    Forall (λ f, flow_check f = Ok f) flows.
Proof.
  apply (packets_are_conserved 1 120 60 None true); [lia|].
  repeat (constructor; [unfold op_ok, packet_ok; cbn; first [lia | exact I]|]). constructor.
Defined.

Example sample_ops_accepted : length (accepted_packets None sample_ops) = 3%nat ∧
  match (agg_run sample_ops (new_aggregator 1 120 60 None true)).1 with Ok fs => length fs = 2%nat | _ => False end.
Proof. vm_compute. done. Qed.

(** A sweep is complete and exact: whatever the aggregator served before,
    a sweep at [now] returns and closes exactly the flows whose TCP
    connection ended, that are [active] seconds old or have been silent for
    [inactive] seconds; no flow it leaves open is overdue, and sweeping again
    at the same instant emits nothing. *)
Theorem sweep_closes_exactly_the_overdue max active inactive protected sink ops now :
  0 < max → Forall op_ok ops →
  let a := (agg_run ops (new_aggregator max active inactive protected sink)).2 in
  ∃ flows a', sweep_timeouts now a = (Ok flows, a') ∧
    (∀ k, dget (ft_flows (ag_table a')) k =
       match dget (ft_flows (ag_table a)) k with
       | Some s => if is_tcp_completed s || (seconds active <=? now - fs_first_seen s)
                      || (seconds inactive <=? now - fs_last_seen s) then None else Some s
       | None => None
       end) ∧
    length flows = (length (ft_flows (ag_table a)) - length (ft_flows (ag_table a')))%nat ∧
    (sweep_timeouts now a').1 = Ok [].
Proof.
  intros Hmax Hops a.
  destruct (agg_run_step ops _ (new_aggregator_inv max active inactive protected sink Hmax) Hops)
    as (a0 & closed0 & Hrun & [Hi (_ & Ha & Hin & _) _ _]).
  assert (Haeq : a = a0) by (unfold a; by rewrite Hrun). clearbody a. subst a0.
  assert (Hover : ∀ s, overdue a now s = is_tcp_completed s || (seconds active <=? now - fs_first_seen s)
                      || (seconds inactive <=? now - fs_last_seen s)).
  { intros s. unfold overdue, check_closure. rewrite Ha, Hin. cbn [new_aggregator ag_active_timeout_seconds ag_inactive_timeout_seconds].
    by destruct (is_tcp_completed s), (seconds active <=? _), (seconds inactive <=? _). }
  destruct (sweep_step now a Hi) as (a' & closed & Hs & [Hi' (_ & Ha' & Hin' & _) _ Hcons] & Hcl & Hget).
  eexists _, a'. split; [exact Hs|]. split; [|split].
  - intros k. rewrite Hget. destruct (dget _ k) as [s|]; [|done]. by rewrite Hover.
  - rewrite length_fmap, Hcl, length_fmap.
    pose proof (filter_split (λ p : FlowKey * FlowState, overdue a now p.2) (ft_flows (ag_table a))) as Hsplit. cbv beta in Hsplit.
    enough (length (ft_flows (ag_table a')) = length (filter (λ p, overdue a now p.2 = false) (ft_flows (ag_table a)))) by lia.
    apply Permutation_length. apply NoDup_Permutation.
    + apply (NoDup_fmap_1 fst). exact (ag_dwf _ Hi').
    + apply NoDup_filter, (NoDup_fmap_1 fst), (ag_dwf _ Hi).
    + intros [k s]. rewrite list_elem_of_filter. cbn [snd]. split.
      * intros Hin2. apply dget_elem in Hin2; [|apply Hi']. rewrite Hget in Hin2.
        destruct (dget (ft_flows (ag_table a)) k) as [s'|] eqn:Hk; [|done]. destruct (overdue a now s') eqn:Ho; [done|].
        injection Hin2 as ->. split; [done|]. by apply dget_Some_elem.
      * intros [Ho Hin2]. apply dget_elem in Hin2; [|apply Hi]. apply dget_Some_elem. rewrite Hget, Hin2, Ho. done.
  - destruct (sweep_step now a' Hi') as (a2 & closed2 & Hs2 & _ & Hcl2 & _). rewrite Hs2. cbn [fst]. subst closed2.
    rewrite filter_none; [done|]. intros [k s] Hin2 Ho. cbn in Ho. apply dget_elem in Hin2; [|apply Hi'].
    rewrite Hget in Hin2. destruct (dget (ft_flows (ag_table a)) k) as [s'|]; [|done].
    destruct (overdue a now s') eqn:Ho'; [done|]. injection Hin2 as ->.
    unfold overdue in *. rewrite Ha', Hin' in Ho. by rewrite Ho in Ho'.
Qed.

Lemma sweep_closes_exactly_the_overdue_witness :
  let a := (agg_run sample_ops (new_aggregator 8 120 60 None true)).2 in
  ∃ flows a', sweep_timeouts (seconds 90) a = (Ok flows, a') ∧
    (∀ k, dget (ft_flows (ag_table a')) k =
       match dget (ft_flows (ag_table a)) k with
       | Some s => if is_tcp_completed s || (seconds 120 <=? seconds 90 - fs_first_seen s)
                      || (seconds 60 <=? seconds 90 - fs_last_seen s) then None else Some s
       | None => None
       end) ∧
    length flows = (length (ft_flows (ag_table a)) - length (ft_flows (ag_table a')))%nat ∧
    (sweep_timeouts (seconds 90) a').1 = Ok [].
Proof.
  apply (sweep_closes_exactly_the_overdue 8 120 60 None true); [lia|].
  repeat (constructor; [unfold op_ok, packet_ok; cbn; first [lia | exact I]|]). constructor.
Defined.

(** ** Connection starts *)

Fixpoint track (fs : list Flow) (t : ConnectionStartTracker) : list bool * ConnectionStartTracker :=
  match fs with
  | [] => ([], t)
  | f :: fs' => let '(b, t1) := tracker_observe f t in
                let '(bs, t2) := track fs' t1 in (b :: bs, t2)
  end.

(** The definition in words: a TCP record opened by a SYN, the first of its
    tuple. *)
Fixpoint starts (seen : list FiveTuple) (fs : list Flow) : list bool :=
  match fs with
  | [] => []
  | f :: fs' =>
      if decide (fl_protocol f = TCP)
      then (fl_opened_by_initiation f && negb (inb (flow_tuple f) seen)) :: starts (flow_tuple f :: seen) fs'
      else false :: starts seen fs'
  end.

Definition tcp_tuples (fs : list Flow) : list FiveTuple :=
  omap (λ f, if decide (fl_protocol f = TCP) then Some (flow_tuple f) else None) fs.

Lemma track_exact max fs : ∀ seen t, ct_max_tracked t = max → dwf (ct_seen t) → (∀ k, k ∈ dkeys (ct_seen t) ↔ k ∈ seen) →
  Z.of_nat (length (dedup (seen ++ tcp_tuples fs))) ≤ max →
  (track fs t).1 = starts seen fs ∧ ct_evictions (track fs t).2 = ct_evictions t.
Proof.
  induction fs as [|f fs IH]; intros seen t Hmax Hwf Hseen Hlen; [done|]. cbn [track starts].
  unfold tracker_observe. unfold tcp_tuples in Hlen. cbn [omap list_omap] in Hlen.
  destruct (decide (fl_protocol f = TCP)) as [Htcp|Hno].
  2: { rewrite bool_decide_eq_false_2 by done. cbn [negb]. destruct (IH seen t Hmax Hwf Hseen Hlen) as [H1 H2].
       destruct (track fs t) as [bs t2]. cbn [fst snd] in *. by rewrite H1. }
  rewrite bool_decide_eq_true_2 by done. cbn [negb].
  assert (Hkeep : ∀ k, k ∈ seen ++ flow_tuple f :: tcp_tuples fs ↔ k ∈ (flow_tuple f :: seen) ++ tcp_tuples fs) by set_solver.
  assert (Hlen' : Z.of_nat (length (dedup ((flow_tuple f :: seen) ++ tcp_tuples fs))) ≤ max).
  { erewrite Permutation_length; [exact Hlen|]. apply NoDup_Permutation; [apply NoDup_dedup|apply NoDup_dedup|].
    intros k. rewrite !elem_of_dedup. symmetry. apply Hkeep. }
  destruct (dmem (ct_seen t) (flow_tuple f)) eqn:Hm.
  - assert (Hin : flow_tuple f ∈ seen) by (by apply Hseen, dget_is_Some, dmem_true).
    rewrite (proj2 (inb_true _ _) Hin), andb_false_r.
    destruct (IH (flow_tuple f :: seen) (mk_tracker (ct_max_tracked t) (dmove_to_end (ct_seen t) (flow_tuple f)) (ct_evictions t)))
      as [H1 H2]; cbn [ct_max_tracked ct_seen]; auto with pirewall.
    { intros k. rewrite <- dget_is_Some, dget_move_to_end, dget_is_Some, Hseen. set_solver. }
    destruct (track fs _) as [bs t2]. cbn [fst snd] in *. by rewrite H1.
  - assert (Hnin : flow_tuple f ∉ dkeys (ct_seen t)) by (apply dget_None; unfold dmem in Hm; by destruct (dget _ _)).
    rewrite (proj2 (inb_false (flow_tuple f) seen)) by (by rewrite <- Hseen). rewrite andb_true_r.
    set (seen' := dset (ct_seen t) (flow_tuple f) tt).
    assert (Hk' : ∀ k, k ∈ dkeys seen' ↔ k ∈ flow_tuple f :: seen).
    { intros k. unfold seen'. rewrite dkeys_set_notin by done. rewrite elem_of_app, Hseen. set_solver. }
    assert (Hl' : Z.of_nat (length seen') ≤ max).
    { assert (Hsub : dkeys seen' ⊆+ dedup ((flow_tuple f :: seen) ++ tcp_tuples fs)).
      { apply NoDup_submseteq; [by apply dwf_set|]. intros k Hk. rewrite elem_of_dedup, elem_of_app. left. by apply Hk'. }
      apply submseteq_length in Hsub. unfold dkeys in Hsub. rewrite length_fmap in Hsub. lia. }
    rewrite Hmax. destruct (Z.ltb_spec max (Z.of_nat (length seen'))); [lia|].
    destruct (IH (flow_tuple f :: seen) (mk_tracker max seen' (ct_evictions t))) as [H1 H2];
      cbn [ct_max_tracked ct_seen]; auto; [by apply dwf_set|].
    destruct (track fs _) as [bs t2]. cbn [fst snd] in *. by rewrite H1.
Qed.

Lemma track_bounded fs : ∀ t, 0 < ct_max_tracked t → dwf (ct_seen t) → Z.of_nat (length (ct_seen t)) ≤ ct_max_tracked t →
  Z.of_nat (length (ct_seen (track fs t).2)) ≤ ct_max_tracked t.
Proof.
  induction fs as [|f fs IH]; intros t Hpos Hwf Hlen; [done|]. cbn [track].
  destruct (tracker_observe f t) as [b t1] eqn:Ho.
  assert (Ht1 : ct_max_tracked t1 = ct_max_tracked t ∧ dwf (ct_seen t1) ∧ Z.of_nat (length (ct_seen t1)) ≤ ct_max_tracked t1).
  { unfold tracker_observe in Ho. destruct (bool_decide _); cbn [negb] in Ho; [|by injection Ho as <- <-].
    destruct (dmem _ _) eqn:Hm; [injection Ho as <- <-; cbn; rewrite dmove_length by done; auto with pirewall|].
    assert (Hl : length (dset (ct_seen t) (flow_tuple f) tt) = S (length (ct_seen t))).
    { rewrite dset_length, decide_False; [done|]. apply dget_None. unfold dmem in Hm. by destruct (dget _ _). }
    rewrite Hl in Ho. destruct (Z.ltb_spec (ct_max_tracked t) (Z.of_nat (S (length (ct_seen t))))) as [Hlt|Hge]; injection Ho as <- <-; cbn.
    - split; [done|]. split; [apply dwf_tail; auto with pirewall|].
      unfold dpopitem_first. destruct (dset _ _ _) as [|x l]; [done|]. cbn in *. lia.
    - split; [done|]. split; [auto with pirewall|]. rewrite Hl. lia. }
  destruct Ht1 as (H1 & H2 & H3). specialize (IH t1). rewrite H1 in *. specialize (IH Hpos H2 H3).
  destruct (track fs t1) as [bs t2]. exact IH.
Qed.

(** While no more than [max_tracked] distinct TCP 5-tuples occur, the
    tracker reports exactly the first record of each tuple, when a SYN opened
    it, and forgets none; in any stream it never remembers more than
    [max_tracked] tuples. *)
Theorem connection_starts_exact max fs t : new_tracker max = Ok t →
  Z.of_nat (length (ct_seen (track fs t).2)) ≤ max ∧
  (Z.of_nat (length (dedup (tcp_tuples fs))) ≤ max →
   (track fs t).1 = starts [] fs ∧ ct_evictions (track fs t).2 = 0).
Proof.
  unfold new_tracker. destruct (max <=? 0) eqn:Hmax; [done|]. bool_prop. intros [= <-]. split.
  - apply (track_bounded fs (mk_tracker max [] 0)); cbn; auto with pirewall; lia.
  - intros Hlen. apply (track_exact max fs [] (mk_tracker max [] 0)); cbn; auto with pirewall.
Qed.

Definition sample_flow (dport : Z) : Flow :=
  match to_flow (opening (compute_flow_key lan_a lan_b (Some 1) (Some dport) TCP)
    (mk_packet 0 (V4 lan_a) (V4 lan_b) TCP (Some 1) (Some dport) (Some (mk_flags true false false false false false)) 60 0 None None)
    lan_a lan_b) with Ok f => f | Raise _ => flow_of (new_state (mk_key TCP (0, None) (0, None)) (sample_packet 0 0 0 0) 0 0) end.

Lemma connection_starts_exact_witness :
  Z.of_nat (length (ct_seen (track [sample_flow 22; sample_flow 22; sample_flow 80] (mk_tracker 2 [] 0)).2)) ≤ 2 ∧
  (Z.of_nat (length (dedup (tcp_tuples [sample_flow 22; sample_flow 22; sample_flow 80]))) ≤ 2 →
   (track [sample_flow 22; sample_flow 22; sample_flow 80] (mk_tracker 2 [] 0)).1 =
     starts [] [sample_flow 22; sample_flow 22; sample_flow 80] ∧
   ct_evictions (track [sample_flow 22; sample_flow 22; sample_flow 80] (mk_tracker 2 [] 0)).2 = 0).
Proof. apply (connection_starts_exact 2). reflexivity. Defined.
