(* ===== verification/Parser.v ===== *)
(** * The packet parser (capture/parser.py)

    Raw Ethernet frames, as lists of bytes, into [PacketMetadata].  Indexing
    and slicing are Python's: a slice is cut at the end of the buffer, an
    index past it raises.  The theorems say that every frame is either
    refused with a parse error or read within its bounds, and that the second,
    payload-extracting reader agrees with the first. *)

From S2P Require Import Prelude Float Net Hex Models Flow.
Local Open Scope Z_scope.

#[global] Instance result_ret : MRet result := λ A a, Ok a.
#[global] Instance result_bind : MBind result := λ A B k r, rbind r k.

Notation bytes := (list Z) (only parsing).
Definition len (raw : bytes) : Z := Z.of_nat (length raw).

(** [raw[i]] for a non-negative index *)
Definition byte_at (raw : bytes) (i : Z) : result Z :=
  match raw !! Z.to_nat i with Some b => Ok b | None => Raise IndexError end.

(** [raw[i:j]] *)
Definition slice (raw : bytes) (i j : Z) : bytes := take (Z.to_nat (j - i)) (drop (Z.to_nat i) raw).

(** [struct.unpack("!H", bs)[0]] *)
Definition unpack_H (bs : bytes) : result Z :=
  match bs with [a; b] => Ok (a * 256 + b) | _ => Raise (ValueError "unpack requires a buffer of 2 bytes") end.
(** [struct.unpack("!HH", bs)] *)
Definition unpack_HH (bs : bytes) : result (Z * Z) :=
  match bs with
  | [a; b; c; d] => Ok (a * 256 + b, c * 256 + d)
  | _ => Raise (ValueError "unpack requires a buffer of 4 bytes")
  end.

(** The big-endian value of [IPv4Address(bytes)] and [IPv6Address(bytes)],
    which want exactly four and sixteen bytes. *)
Definition be_value (bs : bytes) : Z := foldl (λ acc b, acc * 256 + b) 0 bs.
Definition ipv4_of_bytes (bs : bytes) : result Address :=
  if (length bs =? 4)%nat then Ok (V4 (be_value bs)) else Raise (ValueError "expected 4 bytes").
Definition ipv6_of_bytes (bs : bytes) : result Address :=
  if (length bs =? 16)%nat then Ok (V6 (be_value bs)) else Raise (ValueError "expected 16 bytes").

Definition _ETH_HEADER_LEN : Z := 14.
Definition _ETHERTYPE_IPV4 : Z := 2048.    (* 0x0800 *)
Definition _ETHERTYPE_IPV6 : Z := 34525.   (* 0x86DD *)
Definition _IPV4_MIN_HEADER_LEN : Z := 20.
Definition _IPV6_HEADER_LEN : Z := 40.
Definition _IP_PROTO_ICMP : Z := 1.
Definition _IP_PROTO_TCP : Z := 6.
Definition _IP_PROTO_UDP : Z := 17.
Definition _IP_PROTO_ICMPV6 : Z := 58.
Definition _TCP_MIN_HEADER_LEN : Z := 20.
Definition _UDP_HEADER_LEN : Z := 8.
Definition _ICMP_MIN_HEADER_LEN : Z := 4.

Record L4Info : Type := mk_l4 {
  l4_protocol : Protocol;
  l4_source_port : option Z;
  l4_destination_port : option Z;
  l4_tcp_flags : option TcpFlags;
  l4_header_length : Z;
}.

Definition parse_error {A} (msg : string) : result A := Raise (PacketParseError msg).

(** [bool(flags_byte & mask)] with the masks FIN 1, SYN 2, RST 4, PSH 8,
    ACK 16, URG 32 *)
Definition flags_of (b : Z) : TcpFlags :=
  mk_flags (Z.testbit b 1) (Z.testbit b 4) (Z.testbit b 0) (Z.testbit b 2) (Z.testbit b 3) (Z.testbit b 5).

Definition _parse_tcp (raw : bytes) (offset available : Z) : result L4Info :=
  if (available <? _TCP_MIN_HEADER_LEN) || (len raw <? offset + _TCP_MIN_HEADER_LEN) then parse_error "truncated TCP header"
  else
    '(sp, dp) ← unpack_HH (slice raw offset (offset + 4));
    b12 ← byte_at raw (offset + 12);
    let data_offset := Z.shiftr b12 4 * 4 in
    if data_offset <? _TCP_MIN_HEADER_LEN then parse_error "invalid TCP data offset"
    else if (available <? data_offset) || (len raw <? offset + data_offset) then parse_error "truncated TCP header options"
    else
      b13 ← byte_at raw (offset + 13);
      mret (mk_l4 TCP (Some sp) (Some dp) (Some (flags_of b13)) data_offset).

Definition _parse_udp (raw : bytes) (offset available : Z) : result L4Info :=
  if (available <? _UDP_HEADER_LEN) || (len raw <? offset + _UDP_HEADER_LEN) then parse_error "truncated UDP header"
  else
    '(sp, dp) ← unpack_HH (slice raw offset (offset + 4));
    mret (mk_l4 UDP (Some sp) (Some dp) None _UDP_HEADER_LEN).

Definition _parse_icmp (raw : bytes) (offset available : Z) (protocol : Protocol) : result L4Info :=
  if (available <? _ICMP_MIN_HEADER_LEN) || (len raw <? offset + _ICMP_MIN_HEADER_LEN)
  then parse_error "truncated ICMP header" else mret (mk_l4 protocol None None None _ICMP_MIN_HEADER_LEN).

Definition _parse_l4 (raw : bytes) (offset ip_protocol available : Z) : result L4Info :=
  if ip_protocol =? _IP_PROTO_TCP then _parse_tcp raw offset available
  else if ip_protocol =? _IP_PROTO_UDP then _parse_udp raw offset available
  else if ip_protocol =? _IP_PROTO_ICMP then _parse_icmp raw offset available ICMP
  else if ip_protocol =? _IP_PROTO_ICMPV6 then _parse_icmp raw offset available ICMPV6
  else mret (mk_l4 OTHER None None None 0).

(** [raw[a:b].hex(":")] *)
Definition mac_text (bs : bytes) : string := string_of_list (bytes_hex_colon bs).

Definition metadata (captured_at : Z) (src dst : Address) (l4 : L4Info) (total payload : Z) (smac dmac : string)
  : PacketMetadata :=
  mk_packet captured_at src dst (l4_protocol l4) (l4_source_port l4) (l4_destination_port l4) (l4_tcp_flags l4)
    total payload (Some smac) (Some dmac).

Definition _parse_ipv4 (raw : bytes) (offset captured_at : Z) (smac dmac : string) : result PacketMetadata :=
  if len raw <? offset + _IPV4_MIN_HEADER_LEN then parse_error "truncated IPv4 header"
  else
    b0 ← byte_at raw offset;
    if negb (Z.shiftr b0 4 =? 4) then parse_error "unexpected IP version under IPv4 ethertype"
    else
      let ihl := Z.land b0 15 * 4 in
      if ihl <? _IPV4_MIN_HEADER_LEN then parse_error "invalid IPv4 IHL"
      else if len raw <? offset + ihl then parse_error "truncated IPv4 header options"
      else
        total_length ← unpack_H (slice raw (offset + 2) (offset + 4));
        if total_length <? ihl then parse_error "IPv4 total_length shorter than header length"
        else if len raw <? offset + total_length then parse_error "IPv4 total_length exceeds captured data"
        else
          ip_protocol ← byte_at raw (offset + 9);
          source_ip ← ipv4_of_bytes (slice raw (offset + 12) (offset + 16));
          destination_ip ← ipv4_of_bytes (slice raw (offset + 16) (offset + 20));
          let l4_available := total_length - ihl in
          l4 ← _parse_l4 raw (offset + ihl) ip_protocol l4_available;
          let payload_length := l4_available - l4_header_length l4 in
          if payload_length <? 0 then parse_error "IPv4 payload shorter than transport header"
          else mret (metadata captured_at source_ip destination_ip l4 total_length payload_length smac dmac).

Definition _parse_ipv6 (raw : bytes) (offset captured_at : Z) (smac dmac : string) : result PacketMetadata :=
  if len raw <? offset + _IPV6_HEADER_LEN then parse_error "truncated IPv6 header"
  else
    b0 ← byte_at raw offset;
    if negb (Z.shiftr b0 4 =? 6) then parse_error "unexpected IP version under IPv6 ethertype"
    else
      declared ← unpack_H (slice raw (offset + 4) (offset + 6));
      next_header ← byte_at raw (offset + 6);
      source_ip ← ipv6_of_bytes (slice raw (offset + 8) (offset + 24));
      destination_ip ← ipv6_of_bytes (slice raw (offset + 24) (offset + 40));
      let l4_offset := offset + _IPV6_HEADER_LEN in
      let l4_available := Z.min declared (len raw - l4_offset) in
      l4 ← _parse_l4 raw l4_offset next_header l4_available;
      let payload_length := l4_available - l4_header_length l4 in
      if payload_length <? 0 then parse_error "IPv6 payload shorter than transport header"
      else mret (metadata captured_at source_ip destination_ip l4 (_IPV6_HEADER_LEN + declared) payload_length smac dmac).

Definition _parse_packet (raw : bytes) (captured_at : Z) : result PacketMetadata :=
  if len raw <? _ETH_HEADER_LEN then parse_error "truncated Ethernet header"
  else
    ethertype ← unpack_H (slice raw 12 14);
    let smac := mac_text (slice raw 6 12) in
    let dmac := mac_text (slice raw 0 6) in
    if ethertype =? _ETHERTYPE_IPV4 then _parse_ipv4 raw _ETH_HEADER_LEN captured_at smac dmac
    else if ethertype =? _ETHERTYPE_IPV6 then _parse_ipv6 raw _ETH_HEADER_LEN captured_at smac dmac
    else Raise (UnsupportedProtocolError "unsupported ethertype").

(** [UnsupportedProtocolError] is a [PacketParseError] and passes through;
    anything else is wrapped. *)
Definition parse_packet (raw : bytes) (captured_at : Z) : result PacketMetadata :=
  match _parse_packet raw captured_at with
  | Ok p => Ok p
  | Raise (PacketParseError msg) => Raise (PacketParseError msg)
  | Raise (UnsupportedProtocolError msg) => Raise (UnsupportedProtocolError msg)
  | Raise _ => Raise (PacketParseError "unexpected error parsing packet")
  end.

Definition _extract_tcp_payload (raw : bytes) : result (option bytes) :=
  if len raw <? _ETH_HEADER_LEN + _IPV4_MIN_HEADER_LEN then mret None
  else
    ethertype ← unpack_H (slice raw 12 14);
    if negb (ethertype =? _ETHERTYPE_IPV4) then mret None
    else
      let offset := _ETH_HEADER_LEN in
      b0 ← byte_at raw offset;
      if negb (Z.shiftr b0 4 =? 4) then mret None
      else
        let ihl := Z.land b0 15 * 4 in
        if (ihl <? _IPV4_MIN_HEADER_LEN) || (len raw <? offset + ihl) then mret None
        else
          proto ← byte_at raw (offset + 9);
          if negb (proto =? _IP_PROTO_TCP) then mret None
          else
            total_length ← unpack_H (slice raw (offset + 2) (offset + 4));
            let l4_offset := offset + ihl in
            if len raw <? l4_offset + _TCP_MIN_HEADER_LEN then mret None
            else
              b12 ← byte_at raw (l4_offset + 12);
              let data_offset := Z.shiftr b12 4 * 4 in
              if (data_offset <? _TCP_MIN_HEADER_LEN) || (len raw <? l4_offset + data_offset) then mret None
              else
                let payload_offset := l4_offset + data_offset in
                let payload_end := Z.min (offset + total_length) (len raw) in
                if payload_end <? payload_offset then mret None
                else mret (Some (slice raw payload_offset payload_end)).

Definition extract_tcp_payload (raw : bytes) : option bytes :=
  match _extract_tcp_payload raw with Ok o => o | Raise _ => None end.

(** ** Theorems *)

Lemma byte_at_lt raw i : 0 ≤ i < len raw → ∃ b, byte_at raw i = Ok b ∧ b ∈ raw.
Proof.
  unfold len, byte_at. intros Hi. destruct (lookup_lt_is_Some_2 raw (Z.to_nat i)) as [b Hb]; [lia|].
  rewrite Hb. exists b. split; [done|]. by eapply list_elem_of_lookup_2.
Qed.

Lemma length_slice raw i j : 0 ≤ i → i ≤ j → j ≤ len raw → Z.of_nat (length (slice raw i j)) = j - i.
Proof. unfold slice, len. intros. rewrite length_take, length_drop. lia. Qed.

Lemma slice_bytes raw i j : Forall byte_ok raw → Forall byte_ok (slice raw i j).
Proof. intros Hb. unfold slice. by apply Forall_take, Forall_drop. Qed.

(** Take a computation that returned apart. *)
Ltac inv_result :=
  repeat match goal with
  | H : parse_error _ = Ok _ |- _ => discriminate H
  | H : Raise _ = Ok _ |- _ => discriminate H
  | H : (if ?b then _ else _) = Ok _ |- _ => destruct b eqn:?
  | H : mret _ = Ok _ |- _ => injection H as H
  | H : rbind ?m _ = Ok _ |- _ => destruct m eqn:?; cbn [rbind] in H
  | H : mbind _ _ = Ok _ |- _ => unfold mbind, result_bind in H
  end.

Lemma unpack_H_range bs n : Forall byte_ok bs → unpack_H bs = Ok n → 0 ≤ n ≤ 65535.
Proof.
  unfold unpack_H. destruct bs as [|a [|b [|c bs]]]; try done. intros Hb [= <-]. open_Forall. unfold byte_ok in *. lia.
Qed.

Lemma unpack_HH_range bs p : Forall byte_ok bs → unpack_HH bs = Ok p → 0 ≤ p.1 ≤ 65535 ∧ 0 ≤ p.2 ≤ 65535.
Proof.
  unfold unpack_HH. destruct bs as [|a [|b [|c [|d [|e bs]]]]]; try done. intros Hb [= <-]. open_Forall. unfold byte_ok in *. cbn. lia.
Qed.

Lemma byte_at_range raw i b : Forall byte_ok raw → byte_at raw i = Ok b → byte_ok b.
Proof.
  unfold byte_at. destruct (raw !! Z.to_nat i) as [b'|] eqn:Hb; [|done]. intros Hall [= <-]. by eapply Forall_lookup_1.
Qed.

(** What a transport header reader returns. *)
Record l4_ok (available : Z) (l4 : L4Info) : Prop := {
  lo_length : 0 ≤ l4_header_length l4;
  lo_sport : port_wf (l4_source_port l4);
  lo_dport : port_wf (l4_destination_port l4);
  lo_flags : is_Some (l4_tcp_flags l4) ↔ l4_protocol l4 = TCP;
}.

Lemma parse_l4_ok raw offset proto available l4 : Forall byte_ok raw →
  _parse_l4 raw offset proto available = Ok l4 → l4_ok available l4.
Proof.
  intros Hb H. unfold _parse_l4, _parse_tcp, _parse_udp, _parse_icmp in H. inv_result.
  all: repeat match goal with
       | H : (let '(_, _) := ?p in _) = Ok _ |- _ => destruct p as [? ?] eqn:?; inv_result
       end.
  all: repeat match goal with
       | H : unpack_HH _ = Ok _ |- _ => apply unpack_HH_range in H; [cbn in H|by apply slice_bytes]
       end.
  all: subst l4; split; cbn; try done; try (intros ? [= <-]; lia); try (bool_prop; unfold _TCP_MIN_HEADER_LEN in *; lia).
  all: split; [done|intros Heq; try discriminate Heq; by eexists].
Qed.

Lemma be_value_range bs : Forall byte_ok bs → 0 ≤ be_value bs < 256 ^ Z.of_nat (length bs).
Proof.
  unfold be_value. assert (Hgen : ∀ acc n, 0 ≤ acc < 256 ^ Z.of_nat n → Forall byte_ok bs →
    0 ≤ foldl (λ acc b, acc * 256 + b) acc bs < 256 ^ Z.of_nat (n + length bs)).
  { induction bs as [|b bs IH]; intros acc n Hacc Hb; cbn [foldl length]; [by rewrite Nat.add_0_r|].
    apply Forall_cons in Hb as [Hb Hbs]. replace (n + S (length bs))%nat with (S n + length bs)%nat by lia.
    apply IH; [|done]. unfold byte_ok in Hb. rewrite Nat2Z.inj_succ, Z.pow_succ_r by lia. lia. }
  intros Hb. apply (Hgen 0 O); [cbn; lia|done].
Qed.

Definition address_valid (a : Address) : Prop :=
  match a with V4 x => IPv4.valid x | V6 x => 0 ≤ x < 2 ^ 128 end.

Lemma ipv4_of_bytes_valid bs a : Forall byte_ok bs → ipv4_of_bytes bs = Ok a → address_valid a ∧ ∃ x, a = V4 x.
Proof.
  unfold ipv4_of_bytes. intros Hb. destruct (length bs =? 4)%nat eqn:Hl; [|done]. intros [= <-].
  apply Nat.eqb_eq in Hl. pose proof (be_value_range bs Hb) as Hr. rewrite Hl in Hr. split; [exact Hr|eauto].
Qed.

Lemma ipv6_of_bytes_valid bs a : Forall byte_ok bs → ipv6_of_bytes bs = Ok a → address_valid a ∧ ∃ x, a = V6 x.
Proof.
  unfold ipv6_of_bytes. intros Hb. destruct (length bs =? 16)%nat eqn:Hl; [|done]. intros [= <-].
  apply Nat.eqb_eq in Hl. pose proof (be_value_range bs Hb) as Hr. rewrite Hl in Hr. split; [exact Hr|eauto].
Qed.

(** What is promised of a parsed packet: every field is what
    [PacketMetadata] declares, and lengths are consistent. *)
Record metadata_ok (raw : bytes) (p : PacketMetadata) : Prop := {
  mo_payload : 0 ≤ pk_payload_length p ≤ pk_total_length p;
  mo_source : address_valid (pk_source_ip p);
  mo_destination : address_valid (pk_destination_ip p);
  mo_sport : port_wf (pk_source_port p);
  mo_dport : port_wf (pk_destination_port p);
  mo_flags : is_Some (pk_tcp_flags p) ↔ pk_protocol p = TCP;
  mo_captured : ∀ x, pk_source_ip p = V4 x → _ETH_HEADER_LEN + pk_total_length p ≤ len raw;
  mo_macs : ∃ s d, pk_source_mac p = Some s ∧ pk_destination_mac p = Some d ∧
    Mac.normalise s = Some s ∧ Mac.normalise d = Some d;
}.

Definition macs_ok (s d : string) : Prop := Mac.normalise s = Some s ∧ Mac.normalise d = Some d.

Lemma mac_text_ok raw i j : Forall byte_ok raw → 0 ≤ i → j = i + 6 → j ≤ len raw →
  Mac.normalise (mac_text (slice raw i j)) = Some (mac_text (slice raw i j)).
Proof.
  intros Hb Hi -> Hl. apply hex_mac_normal; [|by apply slice_bytes].
  pose proof (length_slice raw i (i + 6)). lia.
Qed.

Lemma parse_ipv4_ok raw t s d p : Forall byte_ok raw → macs_ok s d →
  _parse_ipv4 raw _ETH_HEADER_LEN t s d = Ok p → metadata_ok raw p ∧ ∃ x y, pk_source_ip p = V4 x ∧ pk_destination_ip p = V4 y.
Proof.
  intros Hb [Hs Hd] H. unfold _parse_ipv4 in H. inv_result. subst p. unfold metadata.
  repeat match goal with
  | H : ipv4_of_bytes _ = Ok _ |- _ => apply ipv4_of_bytes_valid in H as [? [? ?]]; [|by apply slice_bytes]
  | H : _parse_l4 _ _ _ _ = Ok _ |- _ => apply parse_l4_ok in H as [? ? ? ?]; [|done]
  | H : unpack_H _ = Ok _ |- _ => apply unpack_H_range in H; [|by apply slice_bytes]
  | H : byte_at _ _ = Ok _ |- _ => apply byte_at_range in H; [|done]
  end. bool_prop. unfold _IPV4_MIN_HEADER_LEN in *.
  split; [split; cbn [pk_payload_length pk_total_length pk_source_ip pk_destination_ip pk_source_port pk_destination_port
    pk_tcp_flags pk_protocol pk_source_mac pk_destination_mac]; try done; try lia|].
  - by exists s, d.
  - cbn. eauto.
Qed.

Lemma parse_ipv6_ok raw t s d p : Forall byte_ok raw → macs_ok s d →
  _parse_ipv6 raw _ETH_HEADER_LEN t s d = Ok p → metadata_ok raw p ∧ ∃ x, pk_source_ip p = V6 x.
Proof.
  intros Hb [Hs Hd] H. unfold _parse_ipv6 in H. inv_result. subst p. unfold metadata.
  repeat match goal with
  | H : ipv6_of_bytes _ = Ok _ |- _ => apply ipv6_of_bytes_valid in H as [? [? ?]]; [|by apply slice_bytes]
  | H : _parse_l4 _ _ _ _ = Ok _ |- _ => apply parse_l4_ok in H as [? ? ? ?]; [|done]
  | H : unpack_H _ = Ok _ |- _ => apply unpack_H_range in H; [|by apply slice_bytes]
  end. bool_prop. unfold _IPV6_HEADER_LEN in *.
  split; [split; cbn [pk_payload_length pk_total_length pk_source_ip pk_destination_ip pk_source_port pk_destination_port
    pk_tcp_flags pk_protocol pk_source_mac pk_destination_mac]; try done; try lia|].
  - subst. intros y Hx. discriminate Hx.
  - by exists s, d.
  - cbn. eauto.
Qed.

Lemma parse_packet_inner raw t p : Forall byte_ok raw → _parse_packet raw t = Ok p → metadata_ok raw p.
Proof.
  intros Hb H. unfold _parse_packet in H. inv_result. all: unfold _ETH_HEADER_LEN in *; bool_prop.
  all: assert (Hm : macs_ok (mac_text (slice raw 6 12)) (mac_text (slice raw 0 6)))
    by (split; apply mac_text_ok; [done|lia|lia|lia|done|lia|lia|lia]).
  - by eapply parse_ipv4_ok in H as [? _].
  - by eapply parse_ipv6_ok in H as [? _].
Qed.

Lemma parse_packet_ok raw t p : parse_packet raw t = Ok p ↔ _parse_packet raw t = Ok p.
Proof. unfold parse_packet. destruct (_parse_packet raw t) as [q|[]]; done. Qed.

(** C40: The parser is total and safe: any sequence of bytes is refused with a
    parse error, or gives a packet whose addresses, ports and MAC addresses
    are well formed, that has TCP flags exactly when it is TCP, whose payload
    is no longer than the packet and whose IPv4 length lies inside what was
    captured. *)
Theorem parse_packet_safe raw t : Forall byte_ok raw →
  match parse_packet raw t with
  | Ok p => metadata_ok raw p ∧ pk_timestamp p = t
  | Raise e => ∃ msg, e = PacketParseError msg ∨ e = UnsupportedProtocolError msg
  end.
Proof.
  intros Hb. destruct (parse_packet raw t) as [p|e] eqn:Hp.
  - apply parse_packet_ok in Hp. split; [by eapply parse_packet_inner|].
    unfold _parse_packet, _parse_ipv4, _parse_ipv6 in Hp. inv_result; by subst p.
  - unfold parse_packet in Hp. destruct (_parse_packet raw t) as [q|[]]; [done|..]; injection Hp as <-; eauto.
Qed.

(** A SYN from 192.168.100.10 to 10.0.0.1, six bytes of payload. *)
Definition sample_frame : bytes :=
  [2; 0; 0; 0; 0; 1; 2; 0; 0; 0; 0; 2; 8; 0] ++
  [69; 0; 0; 46; 0; 0; 0; 0; 64; 6; 0; 0; 192; 168; 100; 10; 10; 0; 0; 1] ++
  [156; 64; 1; 187; 0; 0; 0; 0; 0; 0; 0; 0; 80; 2; 0; 0; 0; 0; 0; 0] ++ [1; 2; 3; 4; 5; 6].

Lemma sample_frame_bytes : Forall byte_ok sample_frame.
Proof. repeat (constructor; [unfold byte_ok; lia|]). constructor. Qed.

Example sample_frame_parses :
  parse_packet sample_frame 5 = Ok (mk_packet 5 (V4 (IPv4.a_b_c_d 192 168 100 10)) (V4 (IPv4.a_b_c_d 10 0 0 1)) TCP
    (Some 40000) (Some 443) (Some (mk_flags true false false false false false)) 46 6
    (Some "02:00:00:00:00:02") (Some "02:00:00:00:00:01")).
Proof. vm_compute. reflexivity. Qed.

Lemma parse_packet_safe_witness :
  match parse_packet sample_frame 5 with
  | Ok p => metadata_ok sample_frame p ∧ pk_timestamp p = 5
  | Raise e => ∃ msg, e = PacketParseError msg ∨ e = UnsupportedProtocolError msg
  end.
Proof. apply (parse_packet_safe sample_frame 5). exact sample_frame_bytes. Defined.

(** ** The payload reader agrees *)

Lemma tcp_of_l4 raw offset proto available l4 : _parse_l4 raw offset proto available = Ok l4 → l4_protocol l4 = TCP →
  proto = _IP_PROTO_TCP ∧ ∃ b, byte_at raw (offset + 12) = Ok b ∧ l4_header_length l4 = Z.shiftr b 4 * 4 ∧
    _TCP_MIN_HEADER_LEN ≤ Z.shiftr b 4 * 4 ≤ available ∧ offset + Z.shiftr b 4 * 4 ≤ len raw ∧
    offset + _TCP_MIN_HEADER_LEN ≤ len raw.
Proof.
  intros H Htcp. unfold _parse_l4, _parse_tcp, _parse_udp, _parse_icmp in H. inv_result.
  all: repeat match goal with
       | H : (let '(_, _) := ?p in _) = Ok _ |- _ => destruct p as [? ?] eqn:?; inv_result
       end.
  all: subst l4; cbn in Htcp; try discriminate Htcp. bool_prop. split; [done|]. eexists. split; [done|]. cbn. lia.
Qed.

(** The payload reader agrees with the parser: on every IPv4/TCP packet
    the parser accepts, [extract_tcp_payload] returns the bytes after the TCP
    header, as many as the parser's payload length says, all of them inside
    the captured frame. *)
Theorem extract_tcp_payload_agrees raw t p x :
  Forall byte_ok raw → parse_packet raw t = Ok p → pk_source_ip p = V4 x → pk_protocol p = TCP →
  ∃ offset payload, extract_tcp_payload raw = Some payload ∧
    Z.of_nat (length payload) = pk_payload_length p ∧
    payload = slice raw offset (offset + pk_payload_length p) ∧
    0 ≤ offset ∧ offset + pk_payload_length p ≤ len raw.
Proof.
  intros Hb Hp Hx Htcp. apply parse_packet_ok in Hp. unfold _parse_packet in Hp. inv_result.
  2: { apply parse_ipv6_ok in Hp as [_ [y Hy]]; [congruence|done|]. unfold _ETH_HEADER_LEN in *. bool_prop.
       split; apply mac_text_ok; [done|lia|lia|lia|done|lia|lia|lia]. }
  unfold _parse_ipv4 in Hp. inv_result. subst p. cbn [pk_protocol metadata] in Htcp.
  match goal with H : _parse_l4 _ _ _ _ = Ok ?l |- _ => rename H into Hl4 end.
  apply tcp_of_l4 in Hl4 as (-> & b12 & Hb12 & Hh & Hav & Hin & Hmin); [|done].
  cbn [pk_payload_length metadata]. rewrite Hh.
  match goal with H : (?v <? ?ihl) = false, H' : unpack_H (slice raw (_ETH_HEADER_LEN + 2) _) = Ok ?v |- _ =>
    set (total := v) in *; rename H' into Htotal end.
  match goal with H : byte_at raw _ETH_HEADER_LEN = Ok ?b |- _ => set (b0 := b) in *; rename H into Hb0 end.
  assert (Hrng : 0 ≤ total ≤ 65535) by (eapply unpack_H_range; [|exact Htotal]; by apply slice_bytes).
  unfold extract_tcp_payload, _extract_tcp_payload, mbind, result_bind. bool_prop. unfold _ETH_HEADER_LEN, _IPV4_MIN_HEADER_LEN, _TCP_MIN_HEADER_LEN in *.
  replace (len raw <? 14 + 20) with false by (symmetry; apply Z.ltb_ge; lia).
  match goal with H : unpack_H (slice raw 12 14) = Ok ?e, H' : ?e = _ETHERTYPE_IPV4 |- _ => rewrite H, H' end.
  cbn [rbind]. rewrite Z.eqb_refl, Hb0. cbn [negb rbind].
  match goal with H : Z.shiftr b0 4 = 4 |- _ => rewrite H end. cbn [Z.eqb negb].
  change (4 =? 4) with true. cbn [negb].
  replace (Z.land b0 15 * 4 <? 20) with false by (symmetry; apply Z.ltb_ge; lia).
  replace (len raw <? 14 + Z.land b0 15 * 4) with false by (symmetry; apply Z.ltb_ge; lia). cbn [orb].
  match goal with H : byte_at raw (14 + 9) = Ok _ |- _ => rewrite H end. cbn [rbind]. rewrite Z.eqb_refl. cbn [negb].
  rewrite Htotal. cbn [rbind].
  replace (len raw <? 14 + Z.land b0 15 * 4 + 20) with false by (symmetry; apply Z.ltb_ge; lia).
  rewrite Hb12. cbn [rbind].
  replace (Z.shiftr b12 4 * 4 <? 20) with false by (symmetry; apply Z.ltb_ge; lia).
  replace (len raw <? 14 + Z.land b0 15 * 4 + Z.shiftr b12 4 * 4) with false by (symmetry; apply Z.ltb_ge; lia). cbn [orb].
  rewrite (Z.min_l (14 + total)) by lia.
  replace (14 + total <? 14 + Z.land b0 15 * 4 + Z.shiftr b12 4 * 4) with false by (symmetry; apply Z.ltb_ge; lia).
  set (off := 14 + Z.land b0 15 * 4 + Z.shiftr b12 4 * 4).
  assert (Hoff : 0 ≤ off) by lia.
  exists off. eexists. split; [reflexivity|].
  replace (14 + total) with (off + (total - Z.land b0 15 * 4 - Z.shiftr b12 4 * 4)) by lia.
  split; [rewrite length_slice by lia; lia|]. split; [done|]. split; [done|]. lia.
Qed.

Lemma extract_tcp_payload_agrees_witness :
  ∃ offset payload, extract_tcp_payload sample_frame = Some payload ∧
    Z.of_nat (length payload) = 6 ∧ payload = slice sample_frame offset (offset + 6) ∧
    0 ≤ offset ∧ offset + 6 ≤ len sample_frame.
Proof.
  exact (extract_tcp_payload_agrees sample_frame 5 _ (IPv4.a_b_c_d 192 168 100 10) sample_frame_bytes
    sample_frame_parses eq_refl eq_refl).
Defined.
