(* ===== verification/Pcap.v ===== *)
(** * [struct] formats with an explicit byte order

    [struct.pack] and [struct.unpack] for the format codes the capture files
    use, over lists of bytes.  Packing raises [struct.error] on a value that
    does not fit, unpacking on a buffer of another size; the lemmas say that
    each undoes the other. *)

From S2P Require Import Prelude Float Net Hex Models Flow Parser.
Local Open Scope Z_scope.

Inductive endian : Type := Little | Big.
Inductive struct_field : Type := FH | FI | Fi | Fq.    (** the codes H, I, i and q *)

Definition width (f : struct_field) : nat := match f with FH => 2 | FI => 4 | Fi => 4 | Fq => 8 end.
Definition signed (f : struct_field) : bool := match f with Fi | Fq => true | _ => false end.
Definition calcsize (fs : list struct_field) : nat := sum_list_with width fs.

Fixpoint little_bytes (n : nat) (x : Z) : bytes :=
  match n with O => [] | S n' => x mod 256 :: little_bytes n' (x / 256) end.
Definition le_value (bs : bytes) : Z := foldr (λ b acc, b + 256 * acc) 0 bs.
Definition bits (f : struct_field) : Z := 8 * Z.of_nat (width f).

Definition unpack_field (e : endian) (f : struct_field) (bs : bytes) : Z :=
  let v := match e with Little => le_value bs | Big => be_value bs end in
  if signed f && (2 ^ (bits f - 1) <=? v) then v - 2 ^ bits f else v.
Definition pack_field (e : endian) (f : struct_field) (v : Z) : bytes :=
  let bs := little_bytes (width f) (v mod 2 ^ bits f) in
  match e with Little => bs | Big => reverse bs end.
Definition in_range (f : struct_field) (v : Z) : bool :=
  if signed f then (- 2 ^ (bits f - 1) <=? v) && (v <? 2 ^ (bits f - 1)) else (0 <=? v) && (v <? 2 ^ bits f).

Fixpoint unpack_fields (e : endian) (fs : list struct_field) (bs : bytes) : list Z :=
  match fs with
  | [] => []
  | f :: fs' => unpack_field e f (take (width f) bs) :: unpack_fields e fs' (drop (width f) bs)
  end.
Definition unpack (e : endian) (fs : list struct_field) (bs : bytes) : result (list Z) :=
  if (length bs =? calcsize fs)%nat then Ok (unpack_fields e fs bs) else Raise (StructError "unpack requires a buffer of another size").

Fixpoint pack (e : endian) (fs : list struct_field) (vs : list Z) : result bytes :=
  match fs, vs with
  | [], [] => Ok []
  | f :: fs', v :: vs' =>
      if in_range f v then rbind (pack e fs' vs') (λ bs, Ok (pack_field e f v ++ bs)) else Raise (StructError "argument out of range")
  | _, _ => Raise (StructError "pack expected another number of items")
  end.

(** [struct.unpack(fmt, bs)[0]] *)
Definition first (r : result (list Z)) : result Z :=
  rbind r (λ vs, match vs with v :: _ => Ok v | [] => Raise IndexError end).

(** ** Laws *)

Lemma length_little_bytes n x : length (little_bytes n x) = n.
Proof. revert x; induction n; intros; cbn; auto. Qed.
Lemma little_bytes_ok n x : Forall byte_ok (little_bytes n x).
Proof. revert x; induction n; intros; cbn; constructor; auto. unfold byte_ok. pose proof (Z.mod_pos_bound x 256). lia. Qed.

Lemma pow256_S n : 256 ^ Z.of_nat (S n) = 256 * 256 ^ Z.of_nat n.
Proof. rewrite Nat2Z.inj_succ, Z.pow_succ_r by lia. done. Qed.

Lemma le_value_bytes n x : 0 ≤ x < 256 ^ Z.of_nat n → le_value (little_bytes n x) = x.
Proof.
  revert x; induction n as [|n IH]; intros x Hx; [cbn in *; lia|]. rewrite pow256_S in Hx. cbn [little_bytes le_value foldr].
  change (foldr _ 0 ?l) with (le_value l). rewrite IH; [|split; [apply Z.div_pos; lia|apply Z.div_lt_upper_bound; lia]].
  pose proof (Z.div_mod x 256). lia.
Qed.

Lemma le_value_range bs : Forall byte_ok bs → 0 ≤ le_value bs < 256 ^ Z.of_nat (length bs).
Proof.
  induction 1 as [|b bs Hb _ IH]; [cbn; lia|]. cbn [length]. rewrite pow256_S. cbn [le_value foldr].
  change (foldr _ 0 ?l) with (le_value l). unfold byte_ok in Hb. lia.
Qed.

Lemma be_value_reverse bs : be_value (reverse bs) = le_value bs.
Proof.
  induction bs as [|b bs IH]; [done|]. rewrite reverse_cons. unfold be_value in *. rewrite foldl_app, IH. cbn. 
  change (foldr _ 0 ?l) with (le_value l). lia.
Qed.

Lemma pow_bits f : 2 ^ bits f = 256 ^ Z.of_nat (width f).
Proof. destruct f; reflexivity. Qed.

Lemma half_bits f : 2 ^ (bits f - 1) * 2 = 2 ^ bits f.
Proof. destruct f; reflexivity. Qed.

Lemma wrap_small f v : in_range f v = true → v mod 2 ^ bits f = if v <? 0 then v + 2 ^ bits f else v.
Proof.
  assert (Hp : 0 < 2 ^ bits f) by (apply Z.pow_pos_nonneg; [lia|]; unfold bits; lia).
  pose proof (half_bits f) as Hh.
  unfold in_range. destruct (Z.ltb_spec v 0); intros Hr.
  - rewrite <- (Z.mod_add v 1), Z.mul_1_l by lia. apply Z.mod_small. destruct (signed f); bool_prop; lia.
  - apply Z.mod_small. destruct (signed f); bool_prop; lia.
Qed.

Lemma unpack_field_pack e f v : in_range f v = true → unpack_field e f (pack_field e f v) = v.
Proof.
  intros Hr. unfold unpack_field, pack_field.
  assert (Hv : 0 ≤ v mod 2 ^ bits f < 256 ^ Z.of_nat (width f)).
  { rewrite <- pow_bits. apply Z.mod_pos_bound. apply Z.pow_pos_nonneg; [lia|]. unfold bits; lia. }
  replace (match e with Little => le_value _ | Big => be_value _ end) with (v mod 2 ^ bits f);
    [|destruct e; [by rewrite le_value_bytes|by rewrite be_value_reverse, le_value_bytes]].
  rewrite (wrap_small f v Hr). clear Hv. unfold in_range in Hr.
  pose proof (half_bits f) as Hh. destruct (Z.ltb_spec v 0), (signed f); cbn [andb]; split_ifs; bool_prop; lia.
Qed.

Lemma length_pack_field e f v : length (pack_field e f v) = width f.
Proof. unfold pack_field. destruct e; [|rewrite length_reverse]; by rewrite length_little_bytes. Qed.
Lemma pack_field_ok e f v : Forall byte_ok (pack_field e f v).
Proof. unfold pack_field. destruct e; [|rewrite reverse_Permutation]; apply little_bytes_ok. Qed.

Lemma pack_length e fs vs bs : pack e fs vs = Ok bs → length bs = calcsize fs.
Proof.
  revert vs bs; induction fs as [|f fs IH]; intros [|v vs] bs; cbn; try done; [by intros [= <-]|].
  destruct (in_range f v); [|done]. destruct (pack e fs vs) as [rest|] eqn:Hp; [|done]. cbn. intros [= <-].
  rewrite length_app, length_pack_field. erewrite IH by done. done.
Qed.
Lemma pack_ok e fs vs bs : pack e fs vs = Ok bs → Forall byte_ok bs.
Proof.
  revert vs bs; induction fs as [|f fs IH]; intros [|v vs] bs; cbn; try done; [by intros [= <-]|].
  destruct (in_range f v); [|done]. destruct (pack e fs vs) as [rest|] eqn:Hp; [|done]. cbn. intros [= <-].
  apply Forall_app. split; [apply pack_field_ok|]. eauto.
Qed.

(** What was packed is read back. *)
Lemma unpack_pack e fs vs bs : pack e fs vs = Ok bs → unpack e fs bs = Ok vs.
Proof.
  intros Hp. unfold unpack. rewrite (pack_length _ _ _ _ Hp), Nat.eqb_refl. f_equal.
  revert vs bs Hp; induction fs as [|f fs IH]; intros [|v vs] bs; cbn; try done.
  destruct (in_range f v) eqn:Hr; [|done]. destruct (pack e fs vs) as [rest|] eqn:Hp; [|done]. cbn. intros [= <-].
  rewrite take_app_length', drop_app_length' by (symmetry; apply length_pack_field). by rewrite unpack_field_pack, (IH vs rest).
Qed.

(** A format accepts its values exactly when each is in range. *)
Lemma pack_Ok e fs vs : Forall2 (λ f v, in_range f v = true) fs vs → ∃ bs, pack e fs vs = Ok bs.
Proof.
  induction 1 as [|f v fs vs Hr _ [bs IH]]; cbn; [by eauto|]. rewrite Hr, IH. cbn. eauto.
Qed.

Definition field_range (f : struct_field) (v : Z) : Prop := in_range f v = true.
Lemma unpack_field_range e f bs : length bs = width f → Forall byte_ok bs → field_range f (unpack_field e f bs).
Proof.
  intros Hl Hb. unfold field_range, in_range, unpack_field.
  assert (Hv : 0 ≤ match e with Little => le_value bs | Big => be_value bs end < 2 ^ bits f).
  { rewrite pow_bits, <- Hl. destruct e; [by apply le_value_range|by apply be_value_range]. }
  revert Hv. generalize (match e with Little => le_value bs | Big => be_value bs end) as v. intros v Hv.
  pose proof (half_bits f) as Hh. destruct (signed f); cbn [andb]; split_ifs; bool_prop;
    apply andb_true_iff; rewrite Z.leb_le, Z.ltb_lt; lia.
Qed.

(** A buffer of the right size unpacks, to values the format can hold. *)
Lemma unpack_ok_size e fs bs : length bs = calcsize fs → Forall byte_ok bs →
  ∃ vs, unpack e fs bs = Ok vs ∧ Forall2 field_range fs vs.
Proof.
  intros Hl Hb. unfold unpack. rewrite Hl, Nat.eqb_refl. eexists. split; [done|].
  revert bs Hl Hb; induction fs as [|f fs IH]; intros bs Hl Hb; cbn [unpack_fields]; [done|].
  change (calcsize (f :: fs)) with (width f + calcsize fs)%nat in Hl. constructor.
  - apply unpack_field_range; [rewrite length_take; lia|by apply Forall_take].
  - apply IH; [rewrite length_drop; lia|by apply Forall_drop].
Qed.

(** * Capture files (capture/pcapio.py)

    The reader of classic pcap and pcapng files, the writer of classic pcap
    files, and the search for capture files.

    The reader is a Python generator, so it is modelled as one: [position] is
    where it is suspended, [turn] one iteration of the loop it is in, and
    [resume] runs turns up to the next [yield].  The file is [pr_stream]: the
    bytes not read yet, and whether reading past them is an I/O error
    ([st_fault]) instead of the end of the file.  Every turn that goes on
    consumes at least four bytes, so one more turn than there are bytes left
    is enough fuel ([PcapProps.resume_enough]). *)

Local Open Scope Z_scope.

(** ** Constants, records and statistics *)

Definition LINKTYPE_ETHERNET : Z := 1.
Definition _PCAP_MAGIC_US : Z := 2712847316.              (* 0xA1B2C3D4 *)
Definition _PCAP_MAGIC_NS : Z := 2712812621.              (* 0xA1B23C4D *)
Definition _PCAPNG_SHB : Z := 168627466.                  (* 0x0A0D0D0A *)
Definition _PCAPNG_BYTE_ORDER_MAGIC : Z := 439041101.     (* 0x1A2B3C4D *)
Definition _PCAPNG_IDB : Z := 1.
Definition _PCAPNG_OPB : Z := 2.
Definition _PCAPNG_SPB : Z := 3.
Definition _PCAPNG_EPB : Z := 6.
Definition _OPT_END : Z := 0.
Definition _OPT_IF_TSRESOL : Z := 9.
Definition _OPT_IF_TSOFFSET : Z := 14.
Definition _MAX_RECORD_BYTES : Z := Z.shiftl 1 18.
Definition _MAX_BLOCK_BYTES : Z := Z.shiftl 1 24.

Record PcapRecord : Type := mk_record { rec_data : bytes; rec_ts_us : Z; rec_original_length : Z }.

Record PcapStats : Type := mk_pstats {
  ps_records : Z;
  ps_truncated_records : Z;
  ps_skipped_non_ethernet : Z;
  ps_skipped_without_timestamp : Z;
  ps_truncated_tail : bool;
  ps_link_types : gset Z;
}.
Definition new_pcap_stats : PcapStats := mk_pstats 0 0 0 0 false ∅.

Definition count_record (cut : bool) (s : PcapStats) : PcapStats :=
  mk_pstats (ps_records s + 1) (if cut then ps_truncated_records s + 1 else ps_truncated_records s)
    (ps_skipped_non_ethernet s) (ps_skipped_without_timestamp s) (ps_truncated_tail s) (ps_link_types s).
Definition count_non_ethernet (s : PcapStats) : PcapStats :=
  mk_pstats (ps_records s) (ps_truncated_records s) (ps_skipped_non_ethernet s + 1)
    (ps_skipped_without_timestamp s) (ps_truncated_tail s) (ps_link_types s).
Definition count_without_timestamp (s : PcapStats) : PcapStats :=
  mk_pstats (ps_records s) (ps_truncated_records s) (ps_skipped_non_ethernet s)
    (ps_skipped_without_timestamp s + 1) (ps_truncated_tail s) (ps_link_types s).
Definition mark_tail (s : PcapStats) : PcapStats :=
  mk_pstats (ps_records s) (ps_truncated_records s) (ps_skipped_non_ethernet s)
    (ps_skipped_without_timestamp s) true (ps_link_types s).
Definition add_link_type (l : Z) (s : PcapStats) : PcapStats :=
  mk_pstats (ps_records s) (ps_truncated_records s) (ps_skipped_non_ethernet s)
    (ps_skipped_without_timestamp s) (ps_truncated_tail s) ({[l]} ∪ ps_link_types s).

Definition _floor_to_us (units per_second : Z) : result Z :=
  if per_second =? 0 then Raise ZeroDivisionError else Ok (units * 1000000 / per_second).

(** ** The reader *)

Record stream : Type := mk_stream { st_bytes : bytes; st_fault : bool }.
Record PcapReader : Type := mk_reader { pr_path : string; pr_stats : PcapStats; pr_stream : stream }.
Notation R := PcapReader.

Definition upd (f : PcapStats → PcapStats) : M R unit := mmodify (λ r, mk_reader (pr_path r) (f (pr_stats r)) (pr_stream r)).

(** [stream.read(n)], for the non-negative counts of the callers *)
Definition read (n : Z) : M R bytes := λ r,
  let bs := st_bytes (pr_stream r) in
  if (len bs <? n) && st_fault (pr_stream r) then (Raise (OSError "Input/output error"), r)
  else (Ok (take (Z.to_nat n) bs), mk_reader (pr_path r) (pr_stats r) (mk_stream (drop (Z.to_nat n) bs) (st_fault (pr_stream r)))).

(** [raise PcapFormatError(f"{self.path}: " + msg)] *)
Definition format_error {A} (msg : string) : M R A := λ r, (Raise (PcapFormatError (pr_path r +:+ ": " +:+ msg)), r).

Notation interface := (Z * Z * Z)%type (only parsing).    (* link type, ticks per second, offset in seconds *)

Inductive position : Type :=
| NotStarted
| InPcap (e : endian) (per_second link_type : Z)
| InPcapng (e : endian) (interfaces : list interface) (pending : bytes)
| Ended.
Inductive turn : Type := Yield (x : PcapRecord) (p : position) | Next (p : position) | Return.

Definition _pcap_record (data : bytes) (ts_us original : Z) : M R PcapRecord :=
  _ ← upd (count_record (len data <? original));
  mret (mk_record data ts_us original).

Definition magic_order (head : bytes) : result (option (endian * Z)) :=
  m ← first (unpack Little [FI] head);
  if (m =? _PCAP_MAGIC_US) || (m =? _PCAP_MAGIC_NS) then mret (Some (Little, m))
  else
    m ← first (unpack Big [FI] head);
    if (m =? _PCAP_MAGIC_US) || (m =? _PCAP_MAGIC_NS) then mret (Some (Big, m)) else mret None.

(** [_read_pcap] up to its loop *)
Definition _read_pcap (head : bytes) : M R turn :=
  order ← mlift (magic_order head);
  match order with
  | None => format_error ("not a pcap or pcapng file (magic " +:+ string_of_list (bytes_hex head) +:+ ")")
  | Some (e, magic) =>
      let per_second := if magic =? _PCAP_MAGIC_US then 1000000 else 1000000000 in
      rest ← read 20;
      if len rest <? 20 then format_error "truncated pcap file header"
      else
        fields ← mlift (unpack e [FH; FH; Fi; FI; FI; FI] rest);
        match fields with
        | [_; _; _; _; _; network] =>
            let link_type := Z.land network 65535 in
            _ ← upd (add_link_type link_type);
            mret (Next (InPcap e per_second link_type))
        | _ => mraise (ValueError "not enough values to unpack")
        end
  end.

Definition pcap_turn (e : endian) (per_second link_type : Z) : M R turn :=
  raw_header ← read 16;
  if len raw_header =? 0 then mret Return
  else if len raw_header <? 16 then (_ ← upd mark_tail; mret Return)
  else
    fields ← mlift (unpack e [FI; FI; FI; FI] raw_header);
    match fields with
    | [seconds; fraction; captured; original] =>
        if _MAX_RECORD_BYTES <? captured then format_error ("record of " +:+ pretty captured +:+ " bytes; the file is corrupt")
        else
          data ← read captured;
          if len data <? captured then (_ ← upd mark_tail; mret Return)
          else if negb (link_type =? LINKTYPE_ETHERNET)
          then (_ ← upd count_non_ethernet; mret (Next (InPcap e per_second link_type)))
          else
            us ← mlift (_floor_to_us fraction per_second);
            x ← _pcap_record data (seconds * 1000000 + us) original;
            mret (Yield x (InPcap e per_second link_type))
    | _ => mraise (ValueError "not enough values to unpack")
    end.

(** [while at + 4 <= len(raw): ...] of [_options] *)
Fixpoint options_loop (fuel : nat) (raw : bytes) (e : endian) (at_ : Z) : result (list (Z * bytes)) :=
  match fuel with
  | O => Ok []
  | S fuel' =>
      if at_ + 4 <=? len raw then
        fields ← unpack e [FH; FH] (slice raw at_ (at_ + 4));
        match fields with
        | [code; length_] =>
            if code =? _OPT_END then mret []
            else
              rest ← options_loop fuel' raw e (at_ + (4 + length_ + (- length_) mod 4));
              mret ((code, slice raw (at_ + 4) (at_ + 4 + length_)) :: rest)
        | _ => Raise (ValueError "not enough values to unpack")
        end
      else mret []
  end.
Definition _options (raw : bytes) (e : endian) : result (list (Z * bytes)) := options_loop (S (length raw)) raw e 0.

Fixpoint interface_options (e : endian) (options : list (Z * bytes)) (per_second offset_seconds : Z) : M R (Z * Z) :=
  match options with
  | [] => mret (per_second, offset_seconds)
  | (code, value) :: rest =>
      if (code =? _OPT_IF_TSRESOL) && (1 <=? len value) then
        v ← mlift (byte_at value 0);
        let exponent := Z.land v 127 in
        if 30 <? exponent then format_error ("unsupported timestamp resolution 0x" +:+ string_of_list (bytes_hex [v]))
        else interface_options e rest (if Z.testbit v 7 then 2 ^ exponent else 10 ^ exponent) offset_seconds
      else if (code =? _OPT_IF_TSOFFSET) && (8 <=? len value) then
        o ← mlift (first (unpack e [Fq] (slice value 0 8)));
        interface_options e rest per_second o
      else interface_options e rest per_second offset_seconds
  end.

Definition _interface (body : bytes) (e : endian) : M R interface :=
  if len body <? 8 then format_error "truncated interface description block"
  else
    link_type ← mlift (first (unpack e [FH] (slice body 0 2)));
    _ ← upd (add_link_type link_type);
    options ← mlift (_options (drop 8 body) e);
    r ← interface_options e options 1000000 0;
    mret (link_type, r.1, r.2).

(** What both packet blocks carry: interface, high, low, captured, original *)
Definition packet_fields (block_type : Z) (body : bytes) (e : endian) : M R (Z * Z * Z * Z * Z) :=
  if block_type =? _PCAPNG_EPB then
    if len body <? 20 then format_error "truncated enhanced packet block"
    else
      fields ← mlift (unpack e [FI; FI; FI; FI; FI] (slice body 0 20));
      match fields with
      | [interface; high; low; captured; original] => mret (interface, high, low, captured, original)
      | _ => mraise (ValueError "not enough values to unpack")
      end
  else
    if len body <? 20 then format_error "truncated packet block"
    else
      fields ← mlift (unpack e [FH; FH; FI; FI; FI; FI] (slice body 0 20));
      match fields with
      | [interface; _; high; low; captured; original] => mret (interface, high, low, captured, original)
      | _ => mraise (ValueError "not enough values to unpack")
      end.

Definition _packet_block (block_type : Z) (body : bytes) (e : endian) (interfaces : list interface) : M R (option PcapRecord) :=
  '(interface, high, low, captured, original) ← packet_fields block_type body e;
  if Z.of_nat (length interfaces) <=? interface then format_error ("packet for undeclared interface " +:+ pretty interface)
  else if (len body - 20 <? captured) || (_MAX_RECORD_BYTES <? captured)
  then format_error ("packet length " +:+ pretty captured +:+ " overruns its block")
  else
    match interfaces !! Z.to_nat interface with
    | None => mraise IndexError
    | Some (link_type, per_second, offset_seconds) =>
        if negb (link_type =? LINKTYPE_ETHERNET) then (_ ← upd count_non_ethernet; mret None)
        else
          let ticks := Z.lor (Z.shiftl high 32) low in
          us ← mlift (_floor_to_us ticks per_second);
          let ts_us := offset_seconds * 1000000 + us in
          x ← _pcap_record (slice body 20 (20 + captured)) ts_us original;
          mret (Some x)
    end.

(** The block after its header: what the section knows, and how the body starts *)
Definition section_header : M R (option (endian * bytes)) :=
  order ← read 4;
  if len order <? 4 then (_ ← upd mark_tail; mret None)
  else
    l ← mlift (first (unpack Little [FI] order));
    if l =? _PCAPNG_BYTE_ORDER_MAGIC then mret (Some (Little, order))
    else
      b ← mlift (first (unpack Big [FI] order));
      if b =? _PCAPNG_BYTE_ORDER_MAGIC then mret (Some (Big, order)) else format_error "bad pcapng byte-order magic".

Definition block_body (block_type : Z) (e : endian) (interfaces : list interface) (raw body_prefix : bytes) : M R turn :=
  total ← mlift (first (unpack e [FI] (slice raw 4 8)));
  if (total <? 12) || negb (total mod 4 =? 0) || (_MAX_BLOCK_BYTES <? total)
  then format_error ("bad pcapng block length " +:+ pretty total)
  else
    remainder ← read (total - 8 - len body_prefix);
    if len remainder <? total - 8 - len body_prefix then (_ ← upd mark_tail; mret Return)
    else
      let whole := body_prefix ++ remainder in
      let body := take (length whole - 4) whole in
      if block_type =? _PCAPNG_IDB then
        declared ← _interface body e;
        mret (Next (InPcapng e (interfaces ++ [declared]) []))
      else if (block_type =? _PCAPNG_EPB) || (block_type =? _PCAPNG_OPB) then
        record ← _packet_block block_type body e interfaces;
        match record with
        | Some x => mret (Yield x (InPcapng e interfaces []))
        | None => mret (Next (InPcapng e interfaces []))
        end
      else if block_type =? _PCAPNG_SPB then
        _ ← upd count_without_timestamp;
        mret (Next (InPcapng e interfaces []))
      else mret (Next (InPcapng e interfaces [])).

Definition pcapng_turn (e : endian) (interfaces : list interface) (pending : bytes) : M R turn :=
  more ← read (8 - len pending);
  let raw := pending ++ more in
  if len raw =? 0 then mret Return
  else if len raw <? 8 then (_ ← upd mark_tail; mret Return)
  else
    block_type ← mlift (first (unpack e [FI] (slice raw 0 4)));
    if block_type =? _PCAPNG_SHB then
      order ← section_header;
      match order with
      | None => mret Return
      | Some (e', prefix) => block_body block_type e' [] raw prefix
      end
    else block_body block_type e interfaces raw [].

(** [__iter__] up to the reader it delegates to *)
Definition open_turn : M R turn :=
  head ← read 4;
  if len head <? 4 then format_error "too short to be a capture file"
  else
    m ← mlift (first (unpack Little [FI] head));
    if m =? _PCAPNG_SHB then mret (Next (InPcapng Little [] head)) else _read_pcap head.

Definition turn_at (p : position) : M R turn :=
  match p with
  | NotStarted => open_turn
  | InPcap e per_second link_type => pcap_turn e per_second link_type
  | InPcapng e interfaces pending => pcapng_turn e interfaces pending
  | Ended => mret Return
  end.

(** [next(iterator, None)]: turns up to the next [yield]; [None] outside is
    out of fuel.  A generator that returned or raised has ended. *)
Fixpoint resume (fuel : nat) (p : position) (r : R) : option (result (option PcapRecord) * position * R) :=
  match fuel with
  | O => None
  | S fuel' =>
      match turn_at p r with
      | (Ok (Yield x p'), r') => Some (Ok (Some x), p', r')
      | (Ok (Next p'), r') => resume fuel' p' r'
      | (Ok Return, r') => Some (Ok None, Ended, r')
      | (Raise e, r') => Some (Raise e, Ended, r')
      end
  end.
Definition iter_next (p : position) (r : R) : option (result (option PcapRecord) * position * R) :=
  resume (S (length (st_bytes (pr_stream r)))) p r.

(** [for record in reader]: every record, then how the iteration ended *)
Fixpoint drain (fuel : nat) (p : position) (r : R) : option (list PcapRecord * result unit * R) :=
  match fuel with
  | O => None
  | S fuel' =>
      match turn_at p r with
      | (Ok (Yield x p'), r') =>
          match drain fuel' p' r' with Some (xs, e, r'') => Some (x :: xs, e, r'') | None => None end
      | (Ok (Next p'), r') => drain fuel' p' r'
      | (Ok Return, r') => Some ([], Ok tt, r')
      | (Raise e, r') => Some ([], Raise e, r')
      end
  end.
Definition open_reader (path : string) (s : stream) : R := mk_reader path new_pcap_stats s.
Definition read_file (path : string) (s : stream) : option (list PcapRecord * result unit * R) :=
  drain (S (length (st_bytes s))) NotStarted (open_reader path s).

(** ** The writer *)

Record PcapWriter : Type := mk_writer { pw_nanosecond : bool; pw_snaplen : Z; pw_stream : bytes }.

(** [PcapWriter(path, nanosecond, snaplen)]: the stream is what the file holds *)
Definition new_writer (nanosecond : bool) (snaplen : Z) : result PcapWriter :=
  if snaplen <=? 0 then Raise (ValueError "snaplen must be positive")
  else
    let magic := if nanosecond then _PCAP_MAGIC_NS else _PCAP_MAGIC_US in
    header ← pack Little [FI; FH; FH; Fi; FI; FI; FI] [magic; 2; 4; 0; 0; snaplen; LINKTYPE_ETHERNET];
    mret (mk_writer nanosecond snaplen header).

Definition write (data : bytes) (ts_us ts_ns_remainder : Z) : M PcapWriter unit := λ w,
  if ts_us <? 0 then (Raise (ValueError "pcap timestamps cannot precede the Unix epoch"), w)
  else if negb ((0 <=? ts_ns_remainder) && (ts_ns_remainder <? 1000))
  then (Raise (ValueError "ts_ns_remainder must be in [0, 1000)"), w)
  else
    let seconds := ts_us / 1000000 in
    let micros := ts_us mod 1000000 in
    let fraction := if pw_nanosecond w then micros * 1000 + ts_ns_remainder else micros in
    let captured := take (Z.to_nat (pw_snaplen w)) data in
    match pack Little [FI; FI; FI; FI] [seconds; fraction; len captured; len data] with
    | Raise e => (Raise e, w)
    | Ok header => (Ok tt, mk_writer (pw_nanosecond w) (pw_snaplen w) (pw_stream w ++ header ++ captured))
    end.

(** ** Finding the capture files *)

Definition PCAP_SUFFIXES : list string := [".pcap"; ".pcapng"; ".cap"].

(** [PurePath.suffix] of a file name: from the last dot, unless it is the
    first or the last character *)
Definition path_suffix (name : string) : string :=
  let l := string_to_list name in
  let after := length (default [] (last (split_on "."%char l))) in
  if negb (inb "."%char l) || (after =? 0)%nat || (length l =? S after)%nat then ""
  else string_of_list (drop (length l - S after) l).
Definition lower_text (s : string) : string := string_of_list (Mac.lower <$> string_to_list s).

(** What a path is; a directory lists its entries and whether each is a file *)
Inductive path_kind : Type :=
| NoSuchPath
| PlainFile
| Directory (entries : list (string * bool))
| Unreadable (msg : string).    (** a directory whose listing fails *)

Definition capture_files (path : string) (kind : path_kind) : result (list string) :=
  match kind with
  | Directory entries =>
      let files := py_sorted String.leb
        (omap (λ x : string * bool, if x.2 && inb (lower_text (path_suffix x.1)) PCAP_SUFFIXES then Some x.1 else None) entries) in
      match files with
      | [] => Raise (PcapFormatError (path +:+ ": no .pcap/.pcapng/.cap files in this directory"))
      | _ => Ok ((λ name, path +:+ "/" +:+ name) <$> files)
      end
  | Unreadable msg => Raise (OSError msg)
  | PlainFile => Ok [path]
  | NoSuchPath => Raise (PcapFormatError (path +:+ ": no such capture file or directory"))
  end.
