(* ===== verification/HostAddrs.v ===== *)
(** * The addresses of this host (firewall/local_addresses.py)

    The parser of the kernel's [/proc/net/fib_trie] and the short cache in
    front of it.  A text is its code points, as in [Bindings], and lines are
    split and stripped as Python does it.  The monotonic clock is in
    microseconds.  [_EMPTY] is told from an empty set read from the file by
    identity in the source, so the cache holds [None] for it. *)

From S2P Require Import Prelude Float Net Models RateLimiter Sets Validator Bindings.
Local Open Scope Z_scope.

(** ** Text *)

Fixpoint lstrip (l : text) : text := match l with c :: l' => if Bindings.is_space c then lstrip l' else l | [] => [] end.
Definition strip (l : text) : text := reverse (lstrip (reverse (lstrip l))).
(** [line.startswith(p)] and [p in line] *)
Fixpoint starts_with (p l : text) : bool :=
  match p, l with
  | [], _ => true
  | a :: p', b :: l' => (a =? b) && starts_with p' l'
  | _ :: _, [] => false
  end.
Fixpoint has_part (p l : text) : bool :=
  starts_with p l || match l with [] => false | _ :: l' => has_part p l' end.
Definition of_string (s : string) : text := (λ c, Z.of_nat (nat_of_ascii c)) <$> string_to_list s.

Definition _ADDRESS_PREFIX : text := of_string "|--".
Definition _LOCAL_MARKERS : list text := [of_string "host LOCAL"].
Definition _BROADCAST_MARKERS : list text := [of_string "link BROADCAST"].
Definition _CACHE_TTL_SECONDS : Z := 10.

(** ** The parser *)

Definition _parse_address (token : text) : option IPv4.t := IPv4.parse_chars (as_chars token).

Record fib : Type := mk_fib { fb_host : list IPv4.t; fb_broadcast : list IPv4.t; fb_pending : option IPv4.t }.
(** [s.add(a)] *)
Definition add_address (a : IPv4.t) (s : list IPv4.t) : list IPv4.t := if inb a s then s else s ++ [a].

Definition fib_line (s : fib) (raw_line : text) : fib :=
  let line := strip raw_line in
  if starts_with _ADDRESS_PREFIX line
  then mk_fib (fb_host s) (fb_broadcast s) (_parse_address (strip (drop (length _ADDRESS_PREFIX) line)))
  else match fb_pending s with
       | None => s
       | Some a =>
           if existsb (λ marker, has_part marker line) _LOCAL_MARKERS then mk_fib (add_address a (fb_host s)) (fb_broadcast s) None
           else if existsb (λ marker, has_part marker line) _BROADCAST_MARKERS then mk_fib (fb_host s) (add_address a (fb_broadcast s)) None
           else mk_fib (fb_host s) (fb_broadcast s) None
       end.
Definition fib_lines (lines : list text) : fib := foldl fib_line (mk_fib [] [] None) lines.
Definition _parse_fib_trie (t : text) : LocalAddresses :=
  let s := fib_lines (split_lines [] t) in mk_local (fb_host s) (fb_broadcast s).

(** [None] is [_EMPTY]: the file could not be read. *)
Definition read_local_addresses (file : option text) : option LocalAddresses := _parse_fib_trie <$> file.

(** ** The cache *)

Record cache : Type := mk_cache { ca_cached : option LocalAddresses; ca_cached_at : Z }.
Definition new_cache : cache := mk_cache None 0.
Definition reset_cache (c : cache) : cache := new_cache.
Definition empty_local : LocalAddresses := mk_local [] [].

Definition cached_local_addresses (file : option text) (now : Z) (c : cache) : LocalAddresses * cache :=
  let c' := match ca_cached c with
            | None => mk_cache (read_local_addresses file) now
            | Some _ => if seconds _CACHE_TTL_SECONDS <=? now - ca_cached_at c then mk_cache (read_local_addresses file) now else c
            end in
  (default empty_local (ca_cached c'), c').

(** [LocalAddresses.contains] *)
Definition local_contains (l : LocalAddresses) (a : IPv4.t) : bool := inb a (la_host l) || inb a (la_broadcast l).

(** ** What the parser recognises *)

(** The address a line announces, and what a line says of the one before it *)
Definition announces (raw : text) : option (option IPv4.t) :=
  let line := strip raw in
  if starts_with _ADDRESS_PREFIX line then Some (_parse_address (strip (drop 3 line))) else None.
Definition says_local (raw : text) : bool := existsb (λ m, has_part m (strip raw)) _LOCAL_MARKERS.
Definition says_broadcast (raw : text) : bool := negb (says_local raw) && existsb (λ m, has_part m (strip raw)) _BROADCAST_MARKERS.

(** [a] is announced by a line and the very next line, which announces
    nothing, says [p] of it. *)
Definition tagged (p : text → bool) (lines : list text) (a : IPv4.t) : Prop :=
  ∃ i x y, lines !! i = Some x ∧ lines !! S i = Some y ∧ announces x = Some (Some a) ∧ announces y = None ∧ p y = true.

Lemma elem_of_add_address a b s : b ∈ add_address a s ↔ b = a ∨ b ∈ s.
Proof.
  unfold add_address. destruct (inb a s) eqn:Hin; [apply inb_true in Hin|]; [|rewrite elem_of_app, list_elem_of_singleton; tauto].
  split; [tauto|]. by intros [->|].
Qed.

Lemma fib_line_spec s x : fib_line s x =
  match announces x with
  | Some a => mk_fib (fb_host s) (fb_broadcast s) a
  | None =>
      match fb_pending s with
      | None => s
      | Some a => mk_fib (if says_local x then add_address a (fb_host s) else fb_host s)
                         (if says_broadcast x then add_address a (fb_broadcast s) else fb_broadcast s) None
      end
  end.
Proof.
  unfold fib_line, announces, says_broadcast. fold (says_local x). change (length _ADDRESS_PREFIX) with 3%nat.
  destruct (starts_with _ADDRESS_PREFIX (strip x)); [done|]. destruct (fb_pending s); [|done].
  destruct (says_local x); cbn [negb andb]; [done|]. by destruct (existsb _ _BROADCAST_MARKERS).
Qed.

(** What has been collected after some lines: the tagged addresses; what is
    pending: the address the last line announced. *)
Definition collected (lines : list text) (s : fib) : Prop :=
  (∀ a, a ∈ fb_host s ↔ tagged says_local lines a) ∧ (∀ a, a ∈ fb_broadcast s ↔ tagged says_broadcast lines a) ∧
  (∀ a, fb_pending s = Some a ↔ ∃ x, last lines = Some x ∧ announces x = Some (Some a)).

Lemma tagged_snoc p lines y a : tagged p (lines ++ [y]) a ↔
  tagged p lines a ∨ (∃ x, last lines = Some x ∧ announces x = Some (Some a) ∧ announces y = None ∧ p y = true).
Proof.
  split.
  - intros (i & x & z & Hx & Hz & Ha & Hn & Hp). destruct (decide (S i < length lines)%nat) as [Hlt|Hge].
    + left. exists i, x, z. rewrite lookup_app_l in Hx by lia. rewrite lookup_app_l in Hz by lia. done.
    + right. assert (S i = length lines) as Hi.
      { apply lookup_lt_Some in Hz. rewrite length_app in Hz. cbn in Hz. lia. }
      rewrite lookup_app_r, Hi, Nat.sub_diag in Hz by lia. injection Hz as <-. exists x.
      rewrite lookup_app_l in Hx by lia. split; [|done]. rewrite last_lookup, <- Hi. done.
  - intros [(i & x & z & Hx & Hz & Hrest)|(x & Hl & Ha & Hn & Hp)].
    + exists i, x, z. split; [by apply lookup_app_l_Some|]. split; [by apply lookup_app_l_Some|done].
    + rewrite last_lookup in Hl. exists (pred (length lines)), x, y. pose proof (lookup_lt_Some _ _ _ Hl).
      rewrite lookup_app_l by lia. split; [done|]. rewrite lookup_app_r by lia.
      replace (S (pred (length lines)) - length lines)%nat with 0%nat by lia. done.
Qed.

(** One more line, for either kind of tag *)
Lemma tag_step p lines x set pending : (∀ a, a ∈ set ↔ tagged p lines a) →
  (∀ a, pending = Some a ↔ ∃ x, last lines = Some x ∧ announces x = Some (Some a)) →
  ∀ b, b ∈ match announces x, pending with None, Some a => if p x then add_address a set else set | _, _ => set end ↔ tagged p (lines ++ [x]) b.
Proof.
  intros Hset Hp b. rewrite tagged_snoc. destruct (announces x) as [a|]; [|destruct pending as [a|]].
  - rewrite Hset. split; [tauto|]. intros [?|(? & _ & _ & ? & _)]; done.
  - destruct (p x); [rewrite elem_of_add_address|]; rewrite Hset; split.
    + intros [->|Hb]; [right; destruct (proj1 (Hp a) eq_refl) as (z & Hz & Hza); by exists z|by left].
    + intros [Hb|(z & Hz & Hza & _ & _)]; [by right|left]. assert (Some a = Some b) by (apply Hp; eauto). congruence.
    + by left.
    + by intros [Hb|(z & Hz & Hza & _ & ?)].
  - rewrite Hset. split; [tauto|]. intros [?|(z & Hz & Hza & _)]; [done|]. by assert (None = Some b) by (apply Hp; eauto).
Qed.

Lemma tagged_nil p a : ¬ tagged p [] a.
Proof. intros (? & ? & ? & Hx & _). by rewrite lookup_nil in Hx. Qed.

Lemma collected_lines lines : collected lines (fib_lines lines).
Proof.
  induction lines as [|x lines IH] using rev_ind.
  { split; [|split]; cbn; intros a; [pose proof (tagged_nil says_local a); set_solver|pose proof (tagged_nil says_broadcast a); set_solver|].
    split; [done|]. by intros (? & ? & _). }
  destruct IH as (Hh & Hb & Hp). unfold fib_lines in *. rewrite foldl_app. cbn [foldl]. rewrite fib_line_spec.
  set (s := foldl _ _ lines) in *. pose proof (tag_step _ _ x _ _ Hh Hp) as Hh'. pose proof (tag_step _ _ x _ _ Hb Hp) as Hb'.
  unfold collected. rewrite last_snoc.
  destruct (announces x) as [a|] eqn:Ha; [|destruct (fb_pending s) as [a|] eqn:Hpend]; (split; [exact Hh'|]); (split; [exact Hb'|]); intros b; cbn [fb_pending].
  - split; [intros ->; eauto|]. intros (? & [= <-] & Hx). congruence.
  - split; [done|]. intros (? & [= <-] & Hx). congruence.
  - rewrite Hpend. split; [done|]. intros (? & [= <-] & Hx). congruence.
Qed.

(** The parser finds exactly the addresses the dump tags: an address is the
    host's when the line after the one that announces it says [host LOCAL],
    and a broadcast address when that line says [link BROADCAST] instead. *)
Theorem fib_trie_exact t a :
  (a ∈ la_host (_parse_fib_trie t) ↔ tagged says_local (split_lines [] t) a) ∧
  (a ∈ la_broadcast (_parse_fib_trie t) ↔ tagged says_broadcast (split_lines [] t) a).
Proof. destruct (collected_lines (split_lines [] t)) as (Hh & Hb & _). by split. Qed.

(** ** How stale an answer can be *)

(** The file over time, and the queries of the validator: each returns what
    the file held at most ten seconds before. *)
Definition fresh (file : Z → option text) (now : Z) (c : cache) : Prop :=
  ∀ l, ca_cached c = Some l → ca_cached_at c ≤ now ∧ read_local_addresses (file (ca_cached_at c)) = Some l.

Fixpoint queries (file : Z → option text) (times : list Z) (c : cache) : list (Z * LocalAddresses) * cache :=
  match times with
  | [] => ([], c)
  | now :: rest =>
      let '(l, c') := cached_local_addresses (file now) now c in
      let '(answers, c'') := queries file rest c' in ((now, l) :: answers, c'')
  end.

Lemma cached_fresh file now c : fresh file now c →
  fresh file now (cached_local_addresses (file now) now c).2 ∧
  ∃ at_, now - seconds _CACHE_TTL_SECONDS < at_ ≤ now ∧
    (cached_local_addresses (file now) now c).1 = default empty_local (read_local_addresses (file at_)).
Proof.
  intros Hc. unfold cached_local_addresses. pose proof (seconds _CACHE_TTL_SECONDS) as _.
  assert (Httl : 0 < seconds _CACHE_TTL_SECONDS) by done.
  assert (Hread : fresh file now (mk_cache (read_local_addresses (file now)) now)) by (intros l Hl; cbn in *; by split).
  destruct (ca_cached c) as [l|] eqn:Hcc; cbn [fst snd]; [|split; [done|]; exists now; by split; [lia|]].
  destruct (Z.leb_spec (seconds _CACHE_TTL_SECONDS) (now - ca_cached_at c)); cbn [fst snd].
  { split; [done|]. exists now. by split; [lia|]. }
  split; [done|]. destruct (Hc l Hcc) as [Hle Hr]. exists (ca_cached_at c). split; [lia|]. by rewrite Hr, Hcc.
Qed.

Lemma fresh_later file now now' c : now ≤ now' → fresh file now c → fresh file now' c.
Proof. intros Hle Hc l Hl. destruct (Hc l Hl). split; [lia|done]. Qed.

(** Every answer was read from the file within the ten seconds before it was
    given: a new address is seen within ten seconds, and no answer invents
    one. *)
Theorem cached_addresses_are_recent file times t0 c :
  fresh file t0 c → StronglySorted Z.le (t0 :: times) →
  Forall (λ q : Z * LocalAddresses, ∃ at_, q.1 - seconds _CACHE_TTL_SECONDS < at_ ≤ q.1 ∧
    q.2 = default empty_local (read_local_addresses (file at_))) (queries file times c).1.
Proof.
  revert t0 c; induction times as [|now times IH]; intros t0 c Hc Hs; cbn [queries]; [constructor|].
  apply StronglySorted_inv in Hs as [Hs Hall]. pose proof (Forall_inv Hall) as Hle.
  destruct (cached_fresh file now c) as [Hc' Hq]; [by apply (fresh_later file t0)|].
  destruct (cached_local_addresses (file now) now c) as [l c']. cbn [fst snd] in *.
  specialize (IH now c' Hc' Hs). destruct (queries file times c') as [answers c'']. by constructor.
Qed.

(** ** What the validator makes of it *)

Lemma queries_fresh file times now : ∀ t0 c, fresh file t0 c → StronglySorted Z.le (t0 :: times ++ [now]) → fresh file now (queries file times c).2.
Proof.
  induction times as [|t times IH]; intros t0 c Hc Hs; cbn [queries]; apply StronglySorted_inv in Hs as [Hs Hall].
  - apply (fresh_later file t0); [|done]. by apply (Forall_inv Hall).
  - pose proof (Forall_inv Hall) as Hle. destruct (cached_fresh file t c) as [Hc' _]; [by apply (fresh_later file t0)|].
    destruct (cached_local_addresses (file t) t c) as [l c']. cbn [snd] in Hc'. specialize (IH t c' Hc' Hs).
    by destruct (queries file times c') as [answers c''].
Qed.

(** The file names the address as the host's own or as a broadcast address. *)
Definition lists (file : option text) (a : IPv4.t) : Prop :=
  ∃ t, file = Some t ∧ (tagged says_local (split_lines [] t) a ∨ tagged says_broadcast (split_lines [] t) a).
Lemma read_lists file a : lists file a → a ∈ la_host (default empty_local (read_local_addresses file)) ++ la_broadcast (default empty_local (read_local_addresses file)).
Proof. intros (t & -> & Ht). cbn. rewrite elem_of_app. destruct (fib_trie_exact t a) as [Hh Hb]. tauto. Qed.

(** C24: the addresses the kernel lists as this host's own, or as its
    broadcast addresses, are never the target of a restrictive rule.  The file
    changes over time and the validator reads it through the ten-second cache,
    at the times of a monotonic clock: an address the file has listed for the
    last ten seconds is refused by both chains, in v2 as the target, in v1
    as an address of either side of the rule, whatever the configuration
    names. *)
Theorem own_addresses_are_never_targeted file times now a (candidate : CandidateRule) config known allowlist limiter wall :
  let local := (cached_local_addresses (file now) now (queries file times new_cache).2).1 in
  StronglySorted Z.le (times ++ [now]) →
  (∀ s, now - seconds _CACHE_TTL_SECONDS < s ≤ now → lists (file s) a) →
  IPv4.valid a → restrictive (rf_action candidate) = true →
  (∀ active target, rt_ip target = a →
     so_approved (validate_set_candidate candidate (Some target) config known active allowlist limiter wall local).1 = false) ∧
  (∀ active bound, rule_fields_wf candidate → IPv4.contains (rf_source candidate) a = true ∨ IPv4.contains (rf_destination candidate) a = true →
     vo_approved (validate_candidate_rule candidate config known active allowlist limiter wall local bound).1 = false).
Proof.
  intros local Hsort Hfile Ha Hr.
  assert (Hin : a ∈ la_host local ++ la_broadcast local).
  { destruct (cached_fresh file now (queries file times new_cache).2) as (_ & s & Hs & Heq).
    - destruct times as [|t0 times]; [done|]. apply (queries_fresh file (t0 :: times) now t0); [done|].
      cbn [app] in *. constructor; [done|]. constructor; [lia|]. by apply StronglySorted_inv in Hsort as [_ ?].
    - unfold local. rewrite Heq. by apply read_lists, Hfile. }
  split.
  - intros active target Hip. apply not_true_iff_false. intros Happ.
    apply set_approved_stages in Happ as (t' & [= <-] & _ & _ & Hsafe & _). apply set_safety_None in Hsafe as (Hnot & _); [|done].
    apply Hnot. unfold infrastructure. rewrite Hip, app_assoc, elem_of_app. by left.
  - intros active bound Hwf Hc. apply not_true_iff_false. intros Happ. apply approved_stages in Happ as (_ & _ & _ & Hsafe & _).
    apply safety_None in Hsafe as (Hhosts & _); [|done]. rewrite Forall_forall in Hhosts.
    apply (names_host_spec candidate a a Hwf Ha); [|done|done]. apply Hhosts. unfold protected_hosts. rewrite app_assoc, elem_of_app. by left.
Qed.

(** * The start-up check of configured addresses (core/network_drift.py)

    What the kernel is asked is a [Kernel]: the bytes of [/proc/net/route] (or
    that it cannot be read), the interfaces of [/sys/class/net], and the two
    ioctls by interface name.  An exception the source does not catch is a
    [Raise]: the check is called by [CoreDaemon.start] without a handler. *)

From S2P Require Import Hex Flow Parser Pcap.
Local Open Scope Z_scope.

Record Kernel : Type := mk_kernel {
  k_route : option (list Z);                    (** [None]: [OSError] *)
  k_interfaces : option (list string);
  k_address : string → option IPv4.t;           (** SIOCGIFADDR *)
  k_netmask : string → option IPv4.t;           (** SIOCGIFNETMASK *)
}.

(** [network.*], [admin.admin_pc_ip] and [integration.*], as the check reads them *)
Record DriftConfig : Type := mk_drift_config {
  dc_wan_interface : string;
  dc_lan_interface : string;
  dc_config : PirewallConfig;
  dc_wazuh : option string;      (** [wazuh_host] where enabled *)
  dc_netdata : option string;
}.

Record DriftWarning : Type := mk_drift { dw_field : string; dw_detail : string }.

Definition first15 (s : string) : string := string_of_list (take 15 (string_to_list s)).
(** [_interface_ipv4] with either request *)
Definition _interface_ipv4 (ask : string → option IPv4.t) (ifname : string) : option IPv4.t := ask (first15 ifname).

(** ** The default route *)

(** [line.split()] *)
Fixpoint split_fields (cur : text) (l : text) : list text :=
  match l with
  | [] => match cur with [] => [] | _ => [reverse cur] end
  | c :: l' =>
      if Bindings.is_space c then match cur with [] => split_fields [] l' | _ => reverse cur :: split_fields [] l' end
      else split_fields (c :: cur) l'
  end.
Definition chars (t : text) : string := string_of_list (as_chars t).

(** [int(text, 16)] of a text without spaces: a sign, a [0x], and digits with
    single underscores between them *)
Fixpoint hex_digits (acc : Z) (l : list ascii) : option Z :=
  match l with
  | [] => Some acc
  | c :: l' =>
      if Mac.is_hex c then hex_digits (acc * 16 + Mac.hex_val c) l'
      else match l' with
           | d :: l'' => if bool_decide (c = "_"%char) && Mac.is_hex d then hex_digits (acc * 16 + Mac.hex_val d) l'' else None
           | [] => None
           end
  end.
Definition hex_number (l : list ascii) : option Z := match l with c :: l' => if Mac.is_hex c then hex_digits (Mac.hex_val c) l' else None | [] => None end.
Definition hex_body (l : list ascii) : option Z :=
  match l with
  | "0"%char :: c :: l' =>
      if bool_decide (c = "x"%char) || bool_decide (c = "X"%char)
      then hex_number (match l' with "_"%char :: l'' => l'' | _ => l' end) else hex_number l
  | _ => hex_number l
  end.
Definition int_base16 (l : list ascii) : option Z :=
  match l with
  | "-"%char :: l' => Z.opp <$> hex_body l'
  | "+"%char :: l' => hex_body l'
  | _ => hex_body l
  end.

(** [IPv4Address(socket.inet_ntoa(struct.pack("<L", n)))] *)
Definition swapped_address (n : Z) : result IPv4.t := bs ← pack Little [FI] [n]; mret (be_value bs).

Fixpoint route_lines (lines : list text) : result (option (string * IPv4.t)) :=
  match lines with
  | [] => Ok None
  | line :: rest =>
      match split_fields [] line with
      | iface :: destination :: gateway :: _ =>
          if negb (bool_decide (chars destination = "00000000")) then route_lines rest
          else match int_base16 (as_chars gateway) with
               | None => route_lines rest
               | Some n => a ← swapped_address n; mret (Some (chars iface, a))
               end
      | _ => route_lines rest
      end
  end.

(** [read_text(encoding="ascii")] raises [UnicodeDecodeError], a [ValueError],
    on a byte outside ASCII: only [OSError] is caught. *)
Definition _default_route (k : Kernel) : result (option (string * IPv4.t)) :=
  match k_route k with
  | None => Ok None
  | Some bs =>
      if forallb (λ b, b <? 128) bs then route_lines (drop 1 (split_lines [] bs))
      else Raise (ValueError "'ascii' codec can't decode byte")
  end.

(** ** Networks *)

(** The prefix length of a netmask, or of a host mask, as [IPv4Network] reads
    the text after the slash *)
Definition prefix_of_mask (mask : IPv4.t) : option Z :=
  let candidates := Z.of_nat <$> seq 0 33 in
  match list_find (λ p, IPv4.netmask p = mask) candidates with
  | Some (_, p) => Some p
  | None => snd <$> list_find (λ p, IPv4.hostmask p = mask) candidates
  end.
(** [IPv4Network(f"{address}/{netmask}", strict=False)] *)
Definition network_of (address mask : IPv4.t) : result IPv4.network :=
  match prefix_of_mask mask with
  | None => Raise (ValueError "not a valid netmask")
  | Some p => Ok (IPv4.mk_network (Z.land address (IPv4.netmask p)) p)
  end.

Fixpoint networks_of (k : Kernel) (interfaces : list string) : result (list IPv4.network) :=
  match interfaces with
  | [] => Ok []
  | ifname :: rest =>
      if bool_decide (ifname = "lo") then networks_of k rest
      else
        match _interface_ipv4 (k_address k) ifname, _interface_ipv4 (k_netmask k) ifname with
        | Some address, Some netmask => n ← network_of address netmask; ns ← networks_of k rest; mret (n :: ns)
        | _, _ => networks_of k rest
        end
  end.
Definition _local_ipv4_networks (k : Kernel) : result (list IPv4.network) :=
  match k_interfaces k with None => Ok [] | Some l => networks_of k l end.

Definition _address_is_stale (a : IPv4.t) (networks : list IPv4.network) : bool := negb (existsb (λ n, IPv4.contains n a) networks).
Definition _parse_ipv4_or_none (value : string) : option IPv4.t := IPv4.parse value.

(** ** The check *)

Definition network_text (n : IPv4.network) : string := IPv4.to_string (IPv4.net_addr n) +:+ "/" +:+ pretty (IPv4.prefixlen n).

Definition route_warnings (c : DriftConfig) (route : option (string * IPv4.t)) : list DriftWarning :=
  match route with
  | None => [mk_drift "network.upstream_gateway" "no IPv4 default route found; cannot verify against the live uplink"]
  | Some (live_interface, live_gateway) =>
      (if bool_decide (live_interface = dc_wan_interface c) then []
       else [mk_drift "network.wan_interface" ("configured as " +:+ py_repr (dc_wan_interface c)
               +:+ " but the kernel's default route is via " +:+ py_repr live_interface)]) ++
      (if live_gateway =? c_upstream_gateway (dc_config c) then []
       else [mk_drift "network.upstream_gateway" ("configured as " +:+ IPv4.to_string (c_upstream_gateway (dc_config c))
               +:+ " but the kernel's live default gateway is " +:+ IPv4.to_string live_gateway)])
  end.

Definition lan_warnings (c : DriftConfig) (address netmask : option IPv4.t) : result (list DriftWarning) :=
  match address with
  | None => Ok [mk_drift "network.lan_interface" (py_repr (dc_lan_interface c) +:+ " has no IPv4 address; is it up?")]
  | Some lan =>
      let first :=
        if lan =? c_pirewall_lan_ip (dc_config c) then []
        else [mk_drift "network.pirewall_lan_ip" ("configured as " +:+ IPv4.to_string (c_pirewall_lan_ip (dc_config c)) +:+ " but "
                +:+ dc_lan_interface c +:+ " is actually " +:+ IPv4.to_string lan)] in
      match netmask with
      | None => Ok first
      | Some mask =>
          live ← network_of lan mask;
          mret (first ++
            (if bool_decide (live = c_protected_network (dc_config c)) then []
             else [mk_drift "network.protected_network" ("configured as " +:+ network_text (c_protected_network (dc_config c)) +:+ " but "
                     +:+ dc_lan_interface c +:+ "'s live network is " +:+ network_text live)]))
      end
  end.

Definition stale_candidates (c : DriftConfig) : list (string * option IPv4.t) :=
  [("admin.admin_pc_ip", Some (c_admin_pc_ip (dc_config c)))] ++
  match dc_wazuh c with None => [] | Some h => [("integration.wazuh_host", _parse_ipv4_or_none h)] end ++
  match dc_netdata c with None => [] | Some h => [("integration.netdata_host", _parse_ipv4_or_none h)] end.

Definition stale_warnings (networks : list IPv4.network) (candidates : list (string * option IPv4.t)) : list DriftWarning :=
  candidates ≫= λ x : string * option IPv4.t,
    match x.2 with
    | None => []
    | Some a =>
        if negb (bool_decide (networks = [])) && _address_is_stale a networks
        then [mk_drift x.1 (IPv4.to_string a +:+ " is not on any subnet this host currently has an address on; likely stale after a network move")]
        else []
    end.

Definition check_network_drift (k : Kernel) (c : DriftConfig) : result (list DriftWarning) :=
  route ← _default_route k;
  lan ← lan_warnings c (_interface_ipv4 (k_address k) (dc_lan_interface c)) (_interface_ipv4 (k_netmask k) (dc_lan_interface c));
  networks ← _local_ipv4_networks k;
  mret (route_warnings c route ++ lan ++ stale_warnings networks (stale_candidates c)).

(** ** When it raises, and when it does not *)

(** A netmask as the kernel keeps it: leading ones *)
Definition is_netmask (m : IPv4.t) : Prop := ∃ p, 0 ≤ p ≤ 32 ∧ m = IPv4.netmask p.

Lemma prefix_of_netmask p : 0 ≤ p ≤ 32 → prefix_of_mask (IPv4.netmask p) = Some p.
Proof.
  intros Hp. assert (Hall : forallb (λ q, bool_decide (prefix_of_mask (IPv4.netmask q) = Some q)) (Z.of_nat <$> seq 0 33) = true) by (by vm_compute).
  rewrite forallb_forall in Hall. specialize (Hall p). apply bool_decide_eq_true in Hall; [done|].
  apply list_elem_of_In, list_elem_of_fmap. exists (Z.to_nat p). split; [lia|]. apply elem_of_seq. lia.
Qed.
Lemma network_of_ok a m : is_netmask m → ∃ n, network_of a m = Ok n.
Proof. intros (p & Hp & ->). unfold network_of. rewrite prefix_of_netmask by done. eauto. Qed.

(** Of the default rows of a routing table, the gateways that are numbers fit
    in 32 bits. *)
Definition row_ok (line : text) : Prop :=
  match split_fields [] line with
  | _ :: destination :: gateway :: _ =>
      chars destination = "00000000" → ∀ n, int_base16 (as_chars gateway) = Some n → 0 ≤ n < 2 ^ 32
  | _ => True
  end.
Record sane (k : Kernel) : Prop := {
  sk_ascii : ∀ bs, k_route k = Some bs → Forall (λ b, b < 128) bs;
  sk_rows : ∀ bs, k_route k = Some bs → Forall row_ok (split_lines [] bs);
  sk_masks : ∀ ifname m, k_netmask k ifname = Some m → is_netmask m;
}.

Lemma route_lines_ok lines : Forall row_ok lines → ∃ r, route_lines lines = Ok r.
Proof.
  induction 1 as [|line lines Hrow _ IH]; [by eexists|]. cbn [route_lines]. unfold row_ok in Hrow.
  destruct (split_fields [] line) as [|iface [|destination [|gateway rest]]]; try done.
  case_bool_decide as Hd; [|done]. cbn [negb]. destruct (int_base16 (as_chars gateway)) as [n|]; [|done].
  unfold swapped_address. destruct (pack_Ok Little [FI] [n]) as [bs Hbs].
  { constructor; [|constructor]. change (in_range FI n) with ((0 <=? n) && (n <? 2 ^ 32)). destruct (Hrow Hd n eq_refl).
    apply andb_true_intro. split; [by apply Z.leb_le|by apply Z.ltb_lt]. }
  rewrite Hbs. cbn. eauto.
Qed.
Lemma default_route_ok k : sane k → ∃ r, _default_route k = Ok r.
Proof.
  intros [Ha Hr _]. unfold _default_route. destruct (k_route k) as [bs|]; [|by eexists].
  rewrite (proj2 (forallb_forall (λ b, b <? 128) bs)); [by apply route_lines_ok, Forall_drop, Hr|].
  intros b Hb. apply Z.ltb_lt. apply list_elem_of_In in Hb. specialize (Ha bs eq_refl). rewrite Forall_forall in Ha. by apply Ha.
Qed.
Lemma lan_warnings_ok c a m : (∀ x, m = Some x → is_netmask x) → ∃ ws, lan_warnings c a m = Ok ws.
Proof.
  intros Hm. unfold lan_warnings. destruct a as [lan|]; [|by eexists]. destruct m as [mask|]; [|by eexists].
  destruct (network_of_ok lan mask (Hm mask eq_refl)) as [n ->]. cbn. eauto.
Qed.
Lemma networks_ok k l : sane k → ∃ ns, networks_of k l = Ok ns.
Proof.
  intros Hk. induction l as [|ifname l [ns IH]]; [by eexists|]. cbn [networks_of]. case_bool_decide; [eauto|].
  unfold _interface_ipv4. destruct (k_address k (first15 ifname)) as [a|], (k_netmask k (first15 ifname)) as [m|] eqn:Hm; eauto.
  destruct (network_of_ok a m (sk_masks k Hk _ _ Hm)) as [n ->]. rewrite IH. cbn. eauto.
Qed.

(** On a kernel whose interface names are ASCII the check always answers. *)
Theorem drift_check_answers k c : sane k → ∃ ws, check_network_drift k c = Ok ws.
Proof.
  intros Hk. unfold check_network_drift. destruct (default_route_ok k Hk) as [r ->].
  destruct (lan_warnings_ok c (_interface_ipv4 (k_address k) (dc_lan_interface c)) (_interface_ipv4 (k_netmask k) (dc_lan_interface c))) as [ws Hws].
  { intros x. apply (sk_masks k Hk). }
  assert (∃ ns, _local_ipv4_networks k = Ok ns) as [ns Hns].
  { unfold _local_ipv4_networks. destruct (k_interfaces k) as [l|]; [by apply networks_ok|by eexists]. }
  cbn [mbind result_bind rbind]. rewrite Hws. cbn [rbind]. rewrite Hns. cbn. eauto.
Qed.

(** ** What silence means *)

(** The configured addresses are the live ones. *)
Record agrees (k : Kernel) (c : DriftConfig) : Prop := {
  ag_route : _default_route k = Ok (Some (dc_wan_interface c, c_upstream_gateway (dc_config c)));
  ag_lan : _interface_ipv4 (k_address k) (dc_lan_interface c) = Some (c_pirewall_lan_ip (dc_config c));
  ag_network : ∀ m, _interface_ipv4 (k_netmask k) (dc_lan_interface c) = Some m →
    network_of (c_pirewall_lan_ip (dc_config c)) m = Ok (c_protected_network (dc_config c));
  ag_stale : ∃ ns, _local_ipv4_networks k = Ok ns ∧
    (ns = [] ∨ ∀ f a, (f, Some a) ∈ stale_candidates c → ∃ n, n ∈ ns ∧ IPv4.contains n a = true);
}.

Lemma route_silent c r : route_warnings c r = [] ↔ r = Some (dc_wan_interface c, c_upstream_gateway (dc_config c)).
Proof.
  destruct r as [[i g]|]; cbn; [|done]. case_bool_decide as Hi; cbn; [|split; [done|congruence]]. subst i.
  destruct (Z.eqb_spec g (c_upstream_gateway (dc_config c))) as [->|Hg]; [done|]. split; [done|congruence].
Qed.
Lemma lan_silent c a m : lan_warnings c a m = Ok [] ↔ a = Some (c_pirewall_lan_ip (dc_config c)) ∧
  ∀ x, m = Some x → network_of (c_pirewall_lan_ip (dc_config c)) x = Ok (c_protected_network (dc_config c)).
Proof.
  unfold lan_warnings. destruct a as [lan|]; [|split; [done|by intros [? _]]].
  destruct (Z.eqb_spec lan (c_pirewall_lan_ip (dc_config c))) as [->|Hne].
  - destruct m as [mask|]; [|split; [done|done]]. destruct (network_of _ mask) as [n|e] eqn:Hn; cbn.
    + case_bool_decide as Hb; [subst n; split; [|done]|split; [done|]].
      * intros _. split; [done|]. by intros x [= <-].
      * intros [_ Hx]. specialize (Hx mask eq_refl). congruence.
    + split; [done|]. intros [_ Hx]. specialize (Hx mask eq_refl). congruence.
  - split; [|intros [[= ?] _]; done]. destruct m as [mask|]; [|done]. by destruct (network_of lan mask).
Qed.
Lemma stale_silent ns l : stale_warnings ns l = [] ↔ (ns = [] ∨ ∀ f a, (f, Some a) ∈ l → ∃ n, n ∈ ns ∧ IPv4.contains n a = true).
Proof.
  induction l as [|[f [a|]] l IH]; cbn [stale_warnings]; [split; [right; set_solver|done]|..].
  - unfold stale_warnings in *. rewrite bind_cons. cbn [snd fst]. destruct (negb (bool_decide (ns = [])) && _address_is_stale a ns) eqn:Hs.
    + bool_prop. split; [done|]. intros [->|Hall]; [done|]. destruct (Hall f a) as (n & Hn & Hc); [set_solver|].
      unfold _address_is_stale in *. bool_prop. rewrite <- not_true_iff_false, existsb_exists in *.
      exfalso. match goal with Hx : ¬ _ |- _ => apply Hx end. exists n. by rewrite <- list_elem_of_In.
    + cbn [app]. rewrite IH. apply andb_false_iff in Hs as [Hs|Hs].
      * bool_prop. split; [by left|]. subst. intros _. by left.
      * unfold _address_is_stale in Hs. bool_prop. apply existsb_exists in Hs as (n & Hn & Hc). apply list_elem_of_In in Hn.
        split; (intros [->|Hall]; [by left|right]); intros f' a' Hin; [|apply (Hall f'); by right].
        apply elem_of_cons in Hin as [[= -> ->]|Hin]; [by exists n|by apply (Hall f')].
  - unfold stale_warnings in *. rewrite bind_cons. cbn [snd app]. rewrite IH.
    split; (intros [->|Hall]; [by left|right]); intros f' a' Hin; [|apply (Hall f'); by right].
    apply elem_of_cons in Hin as [[=]|Hin]. by apply (Hall f').
Qed.

(** the check is silent exactly when the configuration agrees with the
    kernel's live view: the default route, the LAN address and its network,
    and every literal address on a network the host is on. *)
Theorem drift_silent_exactly_when_live k c : check_network_drift k c = Ok [] ↔ agrees k c.
Proof.
  unfold check_network_drift, mbind, result_bind. split.
  - destruct (_default_route k) as [r|] eqn:Hr; [|done]. cbn [rbind].
    destruct (lan_warnings c _ _) as [ws|] eqn:Hl; [|done]. cbn [rbind]. destruct (_local_ipv4_networks k) as [ns|] eqn:Hn; [|done]. cbn [rbind mret result_ret].
    intros Heq. assert (H1 : route_warnings c r ++ ws ++ stale_warnings ns (stale_candidates c) = [])
      by (apply (f_equal (λ x, match x with Ok l => l | Raise _ => [] end)) in Heq; exact Heq). clear Heq.
    apply app_eq_nil in H1 as [H1 H2]. apply app_eq_nil in H2 as [-> H2].
    apply route_silent in H1 as ->. apply lan_silent in Hl as [Ha Hm]. apply stale_silent in H2. by split; [..|exists ns].
  - intros [-> Hl Hm (ns & -> & Hs)]. cbn [rbind].
    rewrite (proj2 (lan_silent c _ _)) by done. cbn [rbind mret result_ret]. rewrite (proj2 (stale_silent ns _)) by done.
    by rewrite (proj2 (route_silent c _) eq_refl).
Qed.

(** ** The kernel's rows *)

Lemma little_bytes_value bs : Forall byte_ok bs → little_bytes (length bs) (le_value bs) = bs.
Proof.
  induction 1 as [|b bs Hb _ IH]; [done|]. cbn [length little_bytes le_value foldr]. change (foldr _ 0 bs) with (le_value bs).
  unfold byte_ok in Hb. replace ((b + 256 * le_value bs) mod 256) with b by (apply Z.mod_unique with (le_value bs); lia).
  replace ((b + 256 * le_value bs) / 256) with (le_value bs) by (apply Z.div_unique with b; lia). by rewrite IH.
Qed.

(** The number the kernel prints for an address: its network-order bytes, read
    little-endian *)
Definition kernel_number (a : IPv4.t) : Z := le_value (reverse (little_bytes 4 a)).
Lemma kernel_number_range a : 0 ≤ kernel_number a < 2 ^ 32.
Proof.
  unfold kernel_number. pose proof (le_value_range (reverse (little_bytes 4 a))) as Hr. rewrite length_reverse, length_little_bytes in Hr.
  apply Hr. rewrite reverse_Permutation. apply little_bytes_ok.
Qed.
Lemma swapped_back a : IPv4.valid a → swapped_address (kernel_number a) = Ok a.
Proof.
  intros Ha. unfold swapped_address. pose proof (kernel_number_range a) as Hn.
  cbn [pack]. change (in_range FI (kernel_number a)) with ((0 <=? kernel_number a) && (kernel_number a <? 2 ^ 32)).
  rewrite (proj2 (Z.leb_le 0 (kernel_number a))), (proj2 (Z.ltb_lt (kernel_number a) (2 ^ 32))) by lia. cbn [andb]. cbn [rbind mbind result_bind mret result_ret]. rewrite app_nil_r.
  unfold pack_field. rewrite Z.mod_small by done. unfold kernel_number. change (width FI) with (length (reverse (little_bytes 4 a))).
  rewrite little_bytes_value by (rewrite reverse_Permutation; apply little_bytes_ok).
  rewrite be_value_reverse, le_value_bytes; [done|]. exact Ha.
Qed.

(** Eight upper-case digits, as [%08X] prints them *)
Definition upper_digit (n : Z) : ascii := if n <? 10 then ascii_of_nat (48 + Z.to_nat n) else ascii_of_nat (55 + Z.to_nat n).
Fixpoint kernel_hex (k : nat) (n : Z) : list ascii := match k with O => [] | S k' => kernel_hex k' (n / 16) ++ [upper_digit (n mod 16)] end.

Lemma kernel_hex_nonempty k n : kernel_hex (S k) n ≠ [].
Proof. cbn [kernel_hex]. intros He. by destruct (app_cons_not_nil _ _ _ (eq_sym He)). Qed.
Lemma upper_digit_ok n : 0 ≤ n < 16 → Mac.is_hex (upper_digit n) = true ∧ Mac.hex_val (upper_digit n) = n.
Proof.
  intros Hn. assert (Hall : forallb (λ n, Mac.is_hex (upper_digit n) && (Mac.hex_val (upper_digit n) =? n)) (Z.of_nat <$> seq 0 16) = true) by (by vm_compute).
  rewrite forallb_forall in Hall. specialize (Hall n). rewrite andb_true_iff, Z.eqb_eq in Hall. apply Hall.
  apply list_elem_of_In, list_elem_of_fmap. exists (Z.to_nat n). split; [lia|]. apply elem_of_seq. lia.
Qed.

Lemma kernel_hex_digits k n : 0 ≤ n → Forall (λ c, Mac.is_hex c = true) (kernel_hex k n) ∧
  ∀ acc, hex_digits acc (kernel_hex k n) = Some (acc * 16 ^ Z.of_nat k + n mod 16 ^ Z.of_nat k).
Proof.
  revert n; induction k as [|k IH]; intros n Hn; cbn [kernel_hex].
  { split; [constructor|]. intros acc. cbn. by rewrite Z.mod_1_r, Z.mul_1_r, Z.add_0_r. }
  pose proof (Z.mod_pos_bound n 16). destruct (upper_digit_ok (n mod 16)) as [Hx Hv]; [lia|].
  destruct (IH (n / 16)) as [Hf Hd]; [apply Z.div_pos; lia|]. split; [apply Forall_app; split; [done|by repeat constructor]|].
  assert (Hsnoc : ∀ l acc, Forall (λ c, Mac.is_hex c = true) l →
    hex_digits acc (l ++ [upper_digit (n mod 16)]) = (λ v, v * 16 + n mod 16) <$> hex_digits acc l).
  { intros l. induction l as [|c l IHl]; intros acc Hl; cbn [app hex_digits]; [by rewrite Hx, Hv|].
    apply Forall_cons in Hl as [Hc Hl]. rewrite Hc. by apply IHl. }
  intros acc. rewrite Hsnoc, Hd by done. cbn [fmap option_fmap option_map]. f_equal.
  rewrite Nat2Z.inj_succ, Z.pow_succ_r, (Z.rem_mul_r n 16) by lia. lia.
Qed.

Lemma int_base16_hex l : l ≠ [] → Forall (λ c, Mac.is_hex c = true) l → int_base16 l = hex_digits 0 l.
Proof.
  intros Hne Hl. destruct l as [|c l]; [done|]. apply Forall_cons in Hl as [Hc Hl].
  assert (Hnum : hex_number (c :: l) = hex_digits 0 (c :: l)) by (cbn; by rewrite Hc).
  assert (Hbody : hex_body (c :: l) = hex_number (c :: l)).
  { unfold hex_body. destruct l as [|d l]; [by destruct c as [[] [] [] [] [] [] [] []]|]. apply Forall_cons in Hl as [Hd _].
    assert (bool_decide (d = "x"%char) || bool_decide (d = "X"%char) = false) as ->.
    { apply orb_false_iff. split; apply bool_decide_eq_false; by intros ->. }
    by destruct c as [[] [] [] [] [] [] [] []]. }
  rewrite <- Hnum, <- Hbody. by destruct c as [[] [] [] [] [] [] [] []].
Qed.

Lemma kernel_number_read a : int_base16 (kernel_hex 8 (kernel_number a)) = Some (kernel_number a).
Proof.
  pose proof (kernel_number_range a) as Hn. destruct (kernel_hex_digits 8 (kernel_number a)) as [Hf Hd]; [lia|].
  rewrite int_base16_hex by (done || apply kernel_hex_nonempty).
  rewrite Hd, Z.mul_0_l, Z.add_0_l, Z.mod_small by exact Hn. done.
Qed.

(** A field of a row: printable ASCII without spaces, and not empty *)
Definition plain (l : list ascii) : Prop := l ≠ [] ∧ Forall (λ c, (33 ≤ nat_of_ascii c < 127)%nat) l.
Definition codes (l : list ascii) : text := (λ c, Z.of_nat (nat_of_ascii c)) <$> l.

Lemma as_chars_codes l : Forall (λ c, (33 ≤ nat_of_ascii c < 127)%nat) l → as_chars (codes l) = l.
Proof.
  induction 1 as [|c l Hc _ IH]; [done|]. unfold as_chars, codes in *. cbn [fmap list_fmap]. rewrite IH. f_equal.
  rewrite (proj2 (Z.leb_le 0 _)), (proj2 (Z.ltb_lt _ 128)) by lia. cbn [andb]. by rewrite Nat2Z.id, ascii_nat_embedding.
Qed.
Lemma plain_code c : (33 ≤ nat_of_ascii c < 127)%nat → Bindings.is_space (Z.of_nat (nat_of_ascii c)) = false.
Proof.
  intros Hc. unfold Bindings.is_space. repeat (apply orb_false_iff; split).
  1-3: apply andb_false_iff; rewrite !Z.leb_gt; lia.
  apply inb_false. set_unfold. intros Hx. lia.
Qed.

Lemma split_fields_word l : Forall (λ c, (33 ≤ nat_of_ascii c < 127)%nat) l → ∀ cur rest, cur ≠ [] ∨ l ≠ [] →
  split_fields cur (codes l ++ 9 :: rest) = (reverse cur ++ codes l) :: split_fields [] rest.
Proof.
  induction 1 as [|c l Hc _ IH]; intros cur rest Hne.
  { cbn. rewrite app_nil_r. by destruct cur; [destruct Hne|]. }
  cbn [codes fmap list_fmap app split_fields]. rewrite plain_code by done. fold (codes l). rewrite IH by (by left).
  by rewrite reverse_cons, <- app_assoc.
Qed.

(** The default row of [/proc/net/route]: interface, destination, gateway,
    and the columns after them *)
Definition default_row (iface : list ascii) (a : IPv4.t) (rest : text) : text :=
  codes iface ++ 9 :: codes (string_to_list "00000000") ++ 9 :: codes (kernel_hex 8 (kernel_number a)) ++ 9 :: rest.

Lemma hex_plain c : Mac.is_hex c = true → (33 ≤ nat_of_ascii c < 127)%nat.
Proof. destruct c as [[] [] [] [] [] [] [] []]; intros Hx; vm_compute in Hx; try discriminate; vm_compute; lia. Qed.

(** The check reads the gateway of a kernel row back, whatever its byte order
    makes of it. *)
Theorem default_row_read iface a rest lines : plain iface → IPv4.valid a →
  route_lines (default_row iface a rest :: lines) = Ok (Some (string_of_list iface, a)).
Proof.
  intros [Hne Hi] Ha. destruct (kernel_hex_digits 8 (kernel_number a)) as [Hx _]; [pose proof (kernel_number_range a); lia|].
  assert (Hk : Forall (λ c, (33 ≤ nat_of_ascii c < 127)%nat) (kernel_hex 8 (kernel_number a))).
  { eapply Forall_impl; [exact Hx|]. intros c. apply hex_plain. }
  pose proof (kernel_hex_nonempty 7 (kernel_number a)) as Hnz.
  assert (Hz : Forall (λ c, (33 ≤ nat_of_ascii c < 127)%nat) (string_to_list "00000000")) by (repeat constructor; by apply Nat.leb_le).
  cbn [route_lines]. unfold default_row. rewrite split_fields_word by (done || by right). rewrite split_fields_word by (done || by right).
  rewrite split_fields_word by (done || by right). rewrite !reverse_nil, !app_nil_l. unfold chars. rewrite !as_chars_codes by done.
  change (string_of_list (string_to_list "00000000")) with "00000000". rewrite bool_decide_eq_true_2 by done. cbn [negb].
  rewrite kernel_number_read, swapped_back by done. done.
Qed.
