(* ===== verification/Features.v ===== *)
(** * Feature extraction (features/schema.py, features/extractor.py)

    The one function from flows to model inputs: a table of primitive values,
    projected through the column list of the requested schema version.  A
    feature definition's type, unit and description are documentation and
    left out: a schema is its ordered list of names. *)

From S2P Require Import Prelude Float Net Models Flow.
Local Open Scope Z_scope.

Definition SCHEMA_VERSION : string := "3.0.0".
Definition LEGACY_SCHEMA_VERSION : string := "2.0.0".

Inductive PortCategory := CAT_NONE | CAT_WEB | CAT_DNS | CAT_SSH | CAT_MAIL | CAT_OTHER_WELL_KNOWN | CAT_EPHEMERAL.

Definition category_code (c : PortCategory) : Z :=
  match c with
  | CAT_NONE => 0 | CAT_WEB => 1 | CAT_DNS => 2 | CAT_SSH => 3 | CAT_MAIL => 4
  | CAT_OTHER_WELL_KNOWN => 5 | CAT_EPHEMERAL => 6
  end.

Definition _WEB_PORTS : list Z := [80; 443; 8080; 8443].
Definition _DNS_PORTS : list Z := [53].
Definition _SSH_PORTS : list Z := [22].
Definition _MAIL_PORTS : list Z := [25; 110; 143; 465; 587; 993; 995].

Definition port_category (port : option Z) : PortCategory :=
  match port with
  | None => CAT_NONE
  | Some p =>
      if inb p _WEB_PORTS then CAT_WEB
      else if inb p _DNS_PORTS then CAT_DNS
      else if inb p _SSH_PORTS then CAT_SSH
      else if inb p _MAIL_PORTS then CAT_MAIL
      else if p <=? 1023 then CAT_OTHER_WELL_KNOWN
      else CAT_EPHEMERAL
  end.

Definition common_head : list string :=
  ["duration_seconds"; "packet_count"; "forward_packet_count"; "backward_packet_count"; "payload_byte_count";
   "forward_payload_byte_count"; "backward_payload_byte_count"; "packets_per_second"; "payload_bytes_per_second";
   "mean_payload_size"; "std_payload_size"; "min_payload_size"; "max_payload_size"; "mean_inter_arrival_seconds";
   "std_inter_arrival_seconds"; "min_inter_arrival_seconds"; "max_inter_arrival_seconds";
   "forward_backward_payload_ratio"].
Definition common_tail : list string := ["protocol_is_tcp"; "protocol_is_udp"; "protocol_is_icmp"; "protocol_is_other"].

Definition FEATURE_NAMES : list string := common_head ++ ["destination_port_category"] ++ common_tail.
Definition LEGACY_FEATURE_NAMES : list string := common_head ++ ["destination_port"] ++ common_tail.

Definition feature_names (version : string) : result (list string) :=
  match dget [(SCHEMA_VERSION, FEATURE_NAMES); (LEGACY_SCHEMA_VERSION, LEGACY_FEATURE_NAMES)] version with
  | Some names => Ok names
  | None => Raise KeyError
  end.

Definition supports_schema_version (version : string) : bool :=
  match feature_names version with Ok _ => true | Raise _ => false end.

(** The fields of [FeatureVector] besides the flow's id. *)
Record FeatureVector : Type := mk_vector {
  fv_schema_version : string;
  fv_feature_names : list string;
  fv_values : list float;
  fv_computed_at : Z;
}.

Definition duration_seconds (f : Flow) : float := total_seconds (fl_last_seen f - fl_first_seen f).

Definition flag (b : bool) : float := if b then float_of_Z 1 else f0.

(** [values_by_name] *)
Definition values_by_name (f : Flow) (p : PayloadStats) : list (string * float) :=
  let duration := duration_seconds f in
  let payload_total := float_of_Z (ps_forward_bytes p + ps_backward_bytes p) in
  let per_second x := if flt f0 duration then fdiv x duration else f0 in
  [("duration_seconds", duration);
   ("packet_count", float_of_Z (fl_packet_count f));
   ("forward_packet_count", float_of_Z (fl_forward_packet_count f));
   ("backward_packet_count", float_of_Z (fl_backward_packet_count f));
   ("payload_byte_count", payload_total);
   ("forward_payload_byte_count", float_of_Z (ps_forward_bytes p));
   ("backward_payload_byte_count", float_of_Z (ps_backward_bytes p));
   ("packets_per_second", per_second (float_of_Z (fl_packet_count f)));
   ("payload_bytes_per_second", per_second payload_total);
   ("mean_payload_size", ss_mean (ps_sizes p));
   ("std_payload_size", ss_std (ps_sizes p));
   ("min_payload_size", float_of_Z (ss_min (ps_sizes p)));
   ("max_payload_size", float_of_Z (ss_max (ps_sizes p)));
   ("mean_inter_arrival_seconds", ia_mean (fl_inter_arrival_stats f));
   ("std_inter_arrival_seconds", ia_std (fl_inter_arrival_stats f));
   ("min_inter_arrival_seconds", ia_min (fl_inter_arrival_stats f));
   ("max_inter_arrival_seconds", ia_max (fl_inter_arrival_stats f));
   ("forward_backward_payload_ratio",
     if 0 <? ps_backward_bytes p then fdiv (float_of_Z (ps_forward_bytes p)) (float_of_Z (ps_backward_bytes p)) else f0);
   ("destination_port", match fl_destination_port f with Some n => float_of_Z n | None => float_of_Z (-1) end);
   ("destination_port_category", float_of_Z (category_code (port_category (fl_destination_port f))));
   ("protocol_is_tcp", flag (bool_decide (fl_protocol f = TCP)));
   ("protocol_is_udp", flag (bool_decide (fl_protocol f = UDP)));
   ("protocol_is_icmp", flag (bool_decide (fl_protocol f = ICMP)));
   ("protocol_is_other", flag (negb (inb (fl_protocol f) [TCP; UDP; ICMP])))].

(** [tuple(values_by_name[name] for name in names)] *)
Fixpoint project (table : list (string * float)) (names : list string) : result (list float) :=
  match names with
  | [] => Ok []
  | n :: names' =>
      match dget table n with
      | None => Raise KeyError
      | Some v => rbind (project table names') (λ vs, Ok (v :: vs))
      end
  end.

Definition _extract_features (f : Flow) (version : string) : result FeatureVector :=
  match feature_names version with
  | Raise _ => Raise (FeatureExtractionError "unknown feature schema version")
  | Ok names =>
      match fl_payload_stats f with
      | None => Raise (FeatureExtractionError "flow has no payload_stats")
      | Some p => rbind (project (values_by_name f p) names) (λ vs, Ok (mk_vector version names vs (fl_last_seen f)))
      end
  end.

Definition extract_features (f : Flow) (version : string) : result FeatureVector :=
  match _extract_features f version with
  | Ok v => Ok v
  | Raise (FeatureExtractionError msg) => Raise (FeatureExtractionError msg)
  | Raise _ => Raise (FeatureExtractionError "failed to extract features")
  end.

(** ** Theorems *)

Lemma project_total table names : Forall (λ n, is_Some (dget table n)) names →
  ∃ vs, project table names = Ok vs ∧ length vs = length names.
Proof.
  induction 1 as [|n names [v Hv] _ (vs & IH & Hl)]; [by exists []|]. exists (v :: vs). simpl. by rewrite Hv, IH, Hl.
Qed.

(** What the models may see of a flow: not its addresses, its source port or
    its devices, and of the destination port only the category. *)
Record same_behaviour (f g : Flow) : Prop := {
  sb_packets : fl_packet_count f = fl_packet_count g;
  sb_forward : fl_forward_packet_count f = fl_forward_packet_count g;
  sb_backward : fl_backward_packet_count f = fl_backward_packet_count g;
  sb_first : fl_first_seen f = fl_first_seen g;
  sb_last : fl_last_seen f = fl_last_seen g;
  sb_arrival : fl_inter_arrival_stats f = fl_inter_arrival_stats g;
  sb_payload : fl_payload_stats f = fl_payload_stats g;
  sb_protocol : fl_protocol f = fl_protocol g;
  sb_category : port_category (fl_destination_port f) = port_category (fl_destination_port g);
}.

Lemma values_same f g p n : same_behaviour f g → n ≠ "destination_port" →
  dget (values_by_name f p) n = dget (values_by_name g p) n.
Proof.
  intros [H1 H2 H3 H4 H5 H6 H7 H8 H9] Hn. unfold values_by_name, duration_seconds.
  rewrite H1, H2, H3, H4, H5, H6, H8, H9. cbn [dget]. repeat case_decide; done.
Qed.

Lemma project_ext t t' names : (∀ n, n ∈ names → dget t n = dget t' n) → project t names = project t' names.
Proof.
  induction names as [|n names IH]; intros Heq; [done|]. simpl. rewrite (Heq n), IH by set_solver. done.
Qed.

(** Features never identify a device: every flow with payload statistics
    has a feature vector with one value per column of its schema, and two
    flows that behaved the same have the same current-schema vector, whatever
    their addresses, their source ports, their MAC addresses and, within a
    category, their destination ports; a version that is not frozen is
    refused. *)
Theorem features_never_identify f : is_Some (fl_payload_stats f) →
  (∀ version, supports_schema_version version = true → ∃ v, extract_features f version = Ok v ∧
     length (fv_values v) = length (fv_feature_names v) ∧ feature_names version = Ok (fv_feature_names v)) ∧
  (∀ version, supports_schema_version version = false → ∃ msg, extract_features f version = Raise (FeatureExtractionError msg)) ∧
  (∀ g, same_behaviour f g → extract_features f SCHEMA_VERSION = extract_features g SCHEMA_VERSION).
Proof.
  intros [p Hp]. split; [|split].
  - intros version Hv. unfold supports_schema_version in Hv. destruct (feature_names version) as [names|e] eqn:Hn; [|done].
    assert (Hnames : names = FEATURE_NAMES ∨ names = LEGACY_FEATURE_NAMES).
    { unfold feature_names in Hn. cbn [dget] in Hn. repeat case_decide; try discriminate Hn; injection Hn as <-; tauto. }
    destruct (project_total (values_by_name f p) names) as (vs & Hpr & Hl).
    { destruct Hnames as [-> | ->]; repeat (constructor; [cbn; eexists; reflexivity|]); constructor. }
    exists (mk_vector version names vs (fl_last_seen f)). unfold extract_features, _extract_features. rewrite Hn, Hp, Hpr. done.
  - intros version Hv. unfold supports_schema_version in Hv. unfold extract_features, _extract_features.
    destruct (feature_names version); [done|]. by eexists.
  - intros g Hs. unfold extract_features, _extract_features. change (feature_names SCHEMA_VERSION) with (Ok FEATURE_NAMES).
    rewrite <- (sb_payload _ _ Hs), Hp, (project_ext _ (values_by_name g p)); [by rewrite (sb_last _ _ Hs)|].
    intros n Hn. apply values_same; [done|]. intros ->. revert Hn. unfold FEATURE_NAMES, common_head, common_tail. cbn [app].
    rewrite !elem_of_cons, elem_of_nil. intuition discriminate.
Qed.

Definition sample_record (sport dport : Z) (mac : string) : Flow :=
  flow_of (opening (compute_flow_key 7 9 (Some sport) (Some dport) TCP)
    (mk_packet 0 (V4 7) (V4 9) TCP (Some sport) (Some dport) (Some (mk_flags true false false false false false)) 60 0 (Some mac) None) 7 9).

Lemma features_never_identify_witness :
  is_Some (fl_payload_stats (sample_record 40000 443 "02:00:00:00:00:01")) ∧
  extract_features (sample_record 40000 443 "02:00:00:00:00:01") SCHEMA_VERSION =
  extract_features (sample_record 50000 80 "02:00:00:00:00:02") SCHEMA_VERSION.
Proof.
  split; [by eexists|].
  apply (proj2 (proj2 (features_never_identify (sample_record 40000 443 "02:00:00:00:00:01") ltac:(by eexists)))).
  split; reflexivity.
Defined.
