(* ===== verification/Thresholds.v ===== *)
(** * D1 thresholds (pirewall/detection_v2/thresholds.py)

    Threshold keys and their names, the security priors, the entries and the
    file that holds them, and the fit from benign samples.  SHA-256 over the
    canonical JSON of the sorted entries is the parameter [digest]; a file on
    disk is what [tomllib] makes of it; [dump_thresholds], which prints TOML,
    is not modelled. *)

From S2P Require Import Prelude Float Net Models Policy.
Local Open Scope Z_scope.

(** ** [int(text)] on ASCII text *)

Definition is_space (c : ascii) : bool :=
  let n := Z.of_nat (nat_of_ascii c) in ((9 <=? n) && (n <=? 13)) || ((28 <=? n) && (n <=? 32)).

Fixpoint lstrip (l : list ascii) : list ascii :=
  match l with
  | [] => []
  | c :: l' => if is_space c then lstrip l' else l
  end.

Definition strip (l : list ascii) : list ascii := reverse (lstrip (reverse (lstrip l))).

(** Digits with single underscores between them. *)
Fixpoint int_digits (acc : Z) (l : list ascii) : option Z :=
  match l with
  | [] => Some acc
  | c :: l' =>
      if IPv4.is_digit c then int_digits (acc * 10 + IPv4.digit_val c) l'
      else if decide (c = "_"%char) then
        match l' with
        | d :: l'' => if IPv4.is_digit d then int_digits (acc * 10 + IPv4.digit_val d) l'' else None
        | [] => None
        end
      else None
  end.

Definition int_literal (l : list ascii) : option Z :=
  match l with
  | [] => None
  | c :: l' => if IPv4.is_digit c then int_digits (IPv4.digit_val c) l' else None
  end.

Definition py_int (s : string) : option Z :=
  match strip (string_to_list s) with
  | [] => None
  | c :: l' =>
      if decide (c = "+"%char) then int_literal l'
      else if decide (c = "-"%char) then Z.opp <$> int_literal l'
      else int_literal (c :: l')
  end.

Example py_int_cases :
  py_int " +1_0 " = Some 10 ∧ py_int "-07" = Some (-7) ∧ py_int "1__0" = None ∧ py_int "_1" = None ∧ py_int "" = None.
Proof. repeat split. Qed.

(** What [int] reads from the decimal digits [str] prints. *)
Lemma pretty_char_digit n : (n < 10)%N → IPv4.is_digit (pretty_N_char n) = true ∧ IPv4.digit_val (pretty_N_char n) = Z.of_N n.
Proof.
  intros Hn. assert (Hc : n = 0%N ∨ n = 1%N ∨ n = 2%N ∨ n = 3%N ∨ n = 4%N ∨ n = 5%N ∨ n = 6%N ∨ n = 7%N ∨ n = 8%N ∨ n = 9%N) by lia.
  repeat destruct Hc as [->|Hc]; try done. by subst.
Qed.


(** The digits [pretty_N_go x] puts before an accumulator. *)
Lemma pretty_go_digits x : (0 < x)%N → ∃ ds, ds ≠ [] ∧ Forall (λ c, IPv4.is_digit c = true) ds ∧
  (∀ s, string_to_list (pretty_N_go x s) = ds ++ string_to_list s) ∧ IPv4.dec_val 0 ds = Z.of_N x.
Proof.
  induction (N.lt_wf_0 x) as [x _ IH]. intros Hx.
  destruct (pretty_char_digit (x `mod` 10)) as [Hd Hv]; [apply N.mod_lt; lia|].
  assert (Hdm : Z.of_N x = 10 * Z.of_N (x `div` 10) + Z.of_N (x `mod` 10)).
  { rewrite (N.div_mod x 10) at 1 by lia. lia. }
  destruct (decide (x `div` 10 = 0)%N) as [H0|H0].
  - exists [pretty_N_char (x `mod` 10)]. split; [done|]. split; [by repeat constructor|]. split.
    + intros s. rewrite pretty_N_go_step, H0, pretty_N_go_0 by done. done.
    + cbn [IPv4.dec_val]. rewrite H0 in Hdm. lia.
  - destruct (IH (x `div` 10)%N) as (ds & Hne & Hall & Hs & Hval); [apply N.div_lt; lia|by apply N.neq_0_lt_0|].
    exists (ds ++ [pretty_N_char (x `mod` 10)]). split; [by destruct ds|]. split; [apply Forall_app; split; [done|by repeat constructor]|].
    split.
    + intros s. rewrite pretty_N_go_step, Hs by done. simpl. by rewrite <- app_assoc.
    + assert (Hdv : ∀ l acc c, IPv4.dec_val acc (l ++ [c]) = IPv4.dec_val acc l * 10 + IPv4.digit_val c).
      { induction l as [|y l IHl]; intros acc c; [done|]. cbn [app IPv4.dec_val]. apply IHl. }
      rewrite Hdv, Hval. lia.
Qed.

Lemma pretty_digits x : 0 ≤ x → ∃ ds, ds ≠ [] ∧ Forall (λ c, IPv4.is_digit c = true) ds ∧
  string_to_list (pretty x) = ds ∧ IPv4.dec_val 0 ds = x.
Proof.
  intros Hx. destruct x as [|p|p]; [|destruct (pretty_go_digits (N.pos p)) as (ds & Hne & Hall & Hs & Hval); [lia|]|lia].
  - exists ["0"%char]. split; [done|]. by repeat constructor.
  - exists ds. split; [done|]. split; [done|]. split; [|exact Hval].
    rewrite <- (app_nil_r ds). exact (Hs EmptyString).
Qed.

Lemma int_digits_all l : ∀ acc, Forall (λ c, IPv4.is_digit c = true) l → int_digits acc l = Some (IPv4.dec_val acc l).
Proof. induction l as [|c l IH]; intros acc Hall; [done|]. inv Hall. cbn [int_digits IPv4.dec_val]. rewrite H1. by apply IH. Qed.

Lemma digit_not_space c : IPv4.is_digit c = true → is_space c = false.
Proof. unfold IPv4.is_digit, is_space. intros H. bool_prop. rewrite orb_false_iff, !andb_false_iff, !Z.leb_gt. lia. Qed.

Lemma lstrip_digits l : Forall (λ c, IPv4.is_digit c = true) l → lstrip l = l.
Proof. intros Hall. destruct Hall as [|c l Hc]; [done|]. simpl. by rewrite digit_not_space. Qed.

Lemma strip_digits l : Forall (λ c, IPv4.is_digit c = true) l → strip l = l.
Proof. intros Hall. unfold strip. rewrite (lstrip_digits l) by done. rewrite lstrip_digits by (by apply Forall_reverse). apply reverse_involutive. Qed.

Lemma py_int_pretty x : 0 ≤ x → py_int (pretty x) = Some x.
Proof.
  intros Hx. destruct (pretty_digits x Hx) as (ds & Hne & Hall & Hs & Hval). unfold py_int. rewrite Hs, strip_digits by done.
  destruct Hall as [|c l Hc Hl]; [done|].
  rewrite decide_False by (intros ->; done). rewrite decide_False by (intros ->; done).
  unfold int_literal. rewrite Hc, int_digits_all by done. by rewrite <- Hval.
Qed.

(** ** Keys *)

Inductive Scope := S_DEVICE | S_DESTINATION | S_ACCOUNT | S_GLOBAL.

#[global] Instance Scope_eq_dec : EqDecision Scope.
Proof. solve_decision. Defined.

Definition scope_value (s : Scope) : string :=
  match s with S_DEVICE => "device" | S_DESTINATION => "destination" | S_ACCOUNT => "account" | S_GLOBAL => "global" end.

Record ThresholdKey : Type := mk_tkey { tk_detector : D1Detector; tk_scope : Scope; tk_window_seconds : Z }.

#[global] Instance ThresholdKey_eq_dec : EqDecision ThresholdKey.
Proof. solve_decision. Defined.

(** [str(key)] *)
Definition key_name (k : ThresholdKey) : string :=
  detector_value (tk_detector k) +:+ "/" +:+ scope_value (tk_scope k) +:+ "/" +:+ pretty (tk_window_seconds k).

Definition all_detectors : list D1Detector :=
  [VERTICAL_SCAN; HORIZONTAL_SCAN; FAILED_HANDSHAKE; BRUTE_FORCE; SLOW_RATE_DOS; FAN_IN; NEW_MAC_RATE; NEW_LEASE_RATE;
   PORTAL_AUTH_FAILURES].
Definition all_scopes : list Scope := [S_DEVICE; S_DESTINATION; S_ACCOUNT; S_GLOBAL].

(** The enumeration member with this value. *)
Definition of_value {A} (value : A → string) (all : list A) (s : string) : option A :=
  first_some (λ a, if decide (value a = s) then Some a else None) all.

Definition _parse_key (name : string) : result ThresholdKey :=
  match split_on "/"%char (string_to_list name) with
  | [detector; scope; window] =>
      match of_value scope_value all_scopes (string_of_list scope) with
      | None => Raise (ValueError ("threshold name " +:+ name +:+ " has an unknown scope"))
      | Some sc =>
          match of_value detector_value all_detectors (string_of_list detector), py_int (string_of_list window) with
          | Some d, Some w => Ok (mk_tkey d sc w)
          | _, _ => Raise (ValueError ("threshold name " +:+ name))
          end
      end
  | _ => Raise (ValueError ("threshold name " +:+ name +:+ " is not detector/scope/window"))
  end.

(** ** Priors *)

Record Prior : Type := mk_prior { pr_floor : float; pr_ceiling : float }.

(** A decimal fraction literal: the double nearest to [n / 100]. *)
Definition hundredths (n : Z) : float := fdiv (float_of_Z n) (float_of_Z 100).

Definition prior_row (d : D1Detector) (s : Scope) (f : Z → float) (rows : list (Z * (Z * Z))) : list (ThresholdKey * Prior) :=
  (λ r : Z * (Z * Z), (mk_tkey d s r.1, mk_prior (f r.2.1) (f r.2.2))) <$> rows.

Definition DEFAULT_PRIORS : list (ThresholdKey * Prior) :=
  prior_row VERTICAL_SCAN S_DEVICE float_of_Z [(10, (15, 50)); (60, (25, 100)); (3600, (60, 300))] ++
  prior_row HORIZONTAL_SCAN S_DEVICE float_of_Z [(10, (20, 64)); (60, (40, 128)); (3600, (100, 512))] ++
  prior_row FAILED_HANDSHAKE S_DEVICE hundredths [(10, (60, 95)); (60, (50, 90)); (3600, (50, 90))] ++
  prior_row BRUTE_FORCE S_DEVICE float_of_Z [(10, (10, 30)); (60, (20, 60)); (3600, (60, 300))] ++
  prior_row SLOW_RATE_DOS S_DEVICE float_of_Z [(10, (8, 50)); (60, (8, 50)); (3600, (8, 50))] ++
  prior_row FAN_IN S_DESTINATION float_of_Z [(10, (10, 64)); (60, (20, 128)); (3600, (40, 256))] ++
  prior_row NEW_MAC_RATE S_GLOBAL float_of_Z [(10, (5, 20)); (60, (10, 30)); (3600, (40, 200))] ++
  prior_row NEW_LEASE_RATE S_GLOBAL float_of_Z [(10, (5, 20)); (60, (10, 30)); (3600, (40, 200))] ++
  prior_row PORTAL_AUTH_FAILURES S_ACCOUNT float_of_Z [(10, (5, 20)); (60, (10, 30)); (3600, (30, 100))] ++
  prior_row PORTAL_AUTH_FAILURES S_GLOBAL float_of_Z [(10, (15, 50)); (60, (30, 100)); (3600, (100, 400))].

(** ** Entries and the file *)

Record ThresholdEntry : Type := mk_entry {
  te_name : string;
  te_value : float;
  te_floor : float;
  te_ceiling : float;
  te_benign_p999 : option float;
  te_margin : option float;
  te_samples : Z;
}.

Definition zero : float := float_of_Z 0.

(** The field constraints, then [_check_clamped]. *)
Definition threshold_entry (e : ThresholdEntry) : result ThresholdEntry :=
  if bool_decide (te_name e = "") || negb (fle zero (te_value e)) || negb (fle zero (te_floor e)) || negb (fle zero (te_ceiling e))
     || negb (from_option (fle zero) true (te_benign_p999 e)) || negb (from_option (flt zero) true (te_margin e))
     || (te_samples e <? 0)
  then Raise (ValueError "field constraint")
  else if flt (te_ceiling e) (te_floor e) then Raise (ValueError (te_name e +:+ ": floor above ceiling"))
  else if negb (fle (te_floor e) (te_value e) && fle (te_value e) (te_ceiling e)) then Raise (ValueError (te_name e +:+ ": value outside"))
  else Ok e.

Inductive ProvenanceValue :=
| PV_str (s : string) | PV_int (n : Z) | PV_float (x : float) | PV_bool (b : bool) | PV_list (l : list string).

Record D1ThresholdFile : Type := mk_tfile {
  tf_version : Z;
  tf_frozen : bool;
  tf_sha256 : string;
  tf_provenance : list (string * ProvenanceValue);
  tf_thresholds : list (string * ThresholdEntry);
}.

Definition THRESHOLD_FILE_VERSION : Z := 1.

Definition entry_leb (a b : ThresholdEntry) : bool := String.leb (te_name a) (te_name b).

(** [D1ThresholdFile.value] *)
Definition threshold_value (f : D1ThresholdFile) (k : ThresholdKey) : option float :=
  te_value <$> dget (tf_thresholds f) (key_name k).

(** What opening and parsing a thresholds file gives. *)
Inductive ThresholdsOnDisk :=
| T_missing
| T_unreadable (msg : string)
| T_parsed (version : Z) (frozen : bool) (sha256 : string) (provenance : list (string * ProvenanceValue))
    (entries : list ThresholdEntry).

Section File.
Context (digest : list ThresholdEntry → string).

Definition entries_sha256 (entries : list ThresholdEntry) : string := digest (py_sorted entry_leb entries).

(** The field constraints, every entry's own validation, then [_check_hash]. *)
Definition threshold_file (f : D1ThresholdFile) : result D1ThresholdFile :=
  rbind (rforall (λ p, rbind (threshold_entry p.2) (λ _, Ok tt)) (tf_thresholds f)) (λ _,
  if negb (bool_decide (String.length (tf_sha256 f) = 64%nat)) then Raise (ValueError "sha256 length")
  else if negb (tf_version f =? THRESHOLD_FILE_VERSION) then Raise (ValueError "unsupported thresholds file version")
  else
    rbind (rforall (λ p, if negb (bool_decide (te_name p.2 = p.1)) then Raise (ValueError ("threshold " +:+ p.1))
                         else rbind (_parse_key p.1) (λ _, Ok tt)) (tf_thresholds f)) (λ _,
    if negb (bool_decide (tf_sha256 f = entries_sha256 (dvalues (tf_thresholds f))))
    then Raise (ValueError "thresholds sha256 does not match the entries (edited by hand?)")
    else Ok f)).

Definition _assemble (entries : list ThresholdEntry) (frozen : bool) (provenance : list (string * ProvenanceValue))
  : result D1ThresholdFile :=
  threshold_file (mk_tfile THRESHOLD_FILE_VERSION frozen (entries_sha256 entries) provenance (rebuild te_name entries)).

(** [sorted(DEFAULT_PRIORS.items())]: by detector value, scope, window. *)
Definition prior_leb (a b : ThresholdKey * Prior) : bool :=
  match String.compare (detector_value (tk_detector a.1)) (detector_value (tk_detector b.1)) with
  | Lt => true
  | Gt => false
  | Eq => match String.compare (scope_value (tk_scope a.1)) (scope_value (tk_scope b.1)) with
          | Lt => true
          | Gt => false
          | Eq => tk_window_seconds a.1 <=? tk_window_seconds b.1
          end
  end.

Definition floor_entry (p : ThresholdKey * Prior) : ThresholdEntry :=
  mk_entry (key_name p.1) (pr_floor p.2) (pr_floor p.2) (pr_ceiling p.2) None None 0.

(** [floors_file]; [provenance] is the caller's, after ["source": "floors"]. *)
Definition floors_file (windows : list Z) (provenance : list (string * ProvenanceValue)) : result D1ThresholdFile :=
  _assemble (floor_entry <$> filter (λ p : ThresholdKey * Prior, tk_window_seconds p.1 ∈ windows) (py_sorted prior_leb DEFAULT_PRIORS))
    false (dupdate [("source", PV_str "floors")] provenance).

Definition load_thresholds (disk : ThresholdsOnDisk) : result D1ThresholdFile :=
  match disk with
  | T_missing => Raise (ConfigurationError "D1 thresholds file not found")
  | T_unreadable msg => Raise (ConfigurationError ("D1 thresholds file is unreadable: " +:+ msg))
  | T_parsed version frozen sha provenance entries =>
      match threshold_file (mk_tfile version frozen sha provenance (rebuild te_name entries)) with
      | Ok f => Ok f
      | Raise (ValueError msg) => Raise (ConfigurationError ("D1 thresholds file is invalid: " +:+ msg))
      | Raise e => Raise e
      end
  end.
End File.

(** ** Fitting *)

Definition float_leb (x y : float) : bool := fle x y.

(** [ordered[i]] for an index the caller keeps in range. *)
Definition at_index (l : list float) (i : Z) : float := default zero (l !! Z.to_nat i).

Definition percentile (values : list float) (q : float) : float :=
  match values with
  | [] => zero
  | _ =>
      let ordered := py_sorted float_leb values in
      let position := fmul q (float_of_Z (Z.of_nat (length ordered) - 1)) in
      let low := ffloor position in
      let high := fceil position in
      if low =? high then at_index ordered low
      else fadd (at_index ordered low)
             (fmul (fsub (at_index ordered high) (at_index ordered low)) (fsub position (float_of_Z low)))
  end.

Definition q999 : float := fdiv (float_of_Z 999) (float_of_Z 1000).

Definition threshold_from_benign (values : list float) (margin : float) (prior : Prior) : float * float :=
  let p999 := percentile values q999 in
  (fmin (fmax (fmul p999 margin) (pr_floor prior)) (pr_ceiling prior), p999).

(** ** Names *)

Lemma detector_value_no_slash d : "/"%char ∉ string_to_list (detector_value d).
Proof. destruct d; cbn; rewrite !not_elem_of_cons; split_and!; try done; apply not_elem_of_nil. Qed.

Lemma scope_value_no_slash s : "/"%char ∉ string_to_list (scope_value s).
Proof. destruct s; cbn; rewrite !not_elem_of_cons; split_and!; try done; apply not_elem_of_nil. Qed.

Lemma digits_no_slash x : 0 ≤ x → "/"%char ∉ string_to_list (pretty x).
Proof.
  intros Hx. destruct (pretty_digits x Hx) as (ds & _ & Hall & -> & _). intros Hin.
  by apply (Forall_forall _ _) with (x := "/"%char) in Hall.
Qed.

Lemma of_detector_value d : of_value detector_value all_detectors (detector_value d) = Some d.
Proof. by destruct d. Qed.

Lemma of_scope_value s : of_value scope_value all_scopes (scope_value s) = Some s.
Proof. by destruct s. Qed.

Lemma parse_key_name k : 0 ≤ tk_window_seconds k → _parse_key (key_name k) = Ok k.
Proof.
  intros Hw. unfold _parse_key, key_name. rewrite !string_to_list_app. cbn [string_to_list app].
  rewrite !split_on_app by (apply detector_value_no_slash || apply scope_value_no_slash).
  rewrite split_on_no_sep by (by apply digits_no_slash). rewrite !string_of_to_list.
  rewrite of_scope_value, of_detector_value, py_int_pretty by done. by destruct k.
Qed.

(** ** The file *)

Lemma rebuild_distinct {A} (key : A → string) l :
  NoDup (key <$> l) → rebuild key l = (λ e, (key e, e)) <$> l.
Proof.
  unfold rebuild. enough (Hgen : ∀ acc, NoDup (dkeys acc ++ (key <$> l)) →
    foldl (λ acc e, dset acc (key e) e) acc l = acc ++ ((λ e, (key e, e)) <$> l)) by (intros; by apply (Hgen [])).
  induction l as [|x l IH]; intros acc Hnd; [by rewrite app_nil_r|]. cbn [foldl fmap list_fmap] in *.
  assert (Hx : key x ∉ dkeys acc).
  { apply NoDup_app in Hnd as (_ & Hd & _). intros Hin. apply (Hd _ Hin). set_solver. }
  assert (Hset : ∀ (d : list (string * A)) v, key x ∉ dkeys d → dset d (key x) v = d ++ [(key x, v)]).
  { intros d v. induction d as [|[k w] d IHd]; [done|]. cbn. intros Hn. rewrite decide_False by set_solver.
    rewrite IHd by set_solver. done. }
  rewrite Hset, IH by (try done; unfold dkeys; rewrite fmap_app, <- app_assoc; exact Hnd).
  by rewrite <- app_assoc.
Qed.

Definition prior_ok (p : ThresholdKey * Prior) : bool :=
  fle zero (pr_floor p.2) && fle (pr_floor p.2) (pr_ceiling p.2) && (0 <=? tk_window_seconds p.1).

Lemma priors_ok k p : (k, p) ∈ DEFAULT_PRIORS →
  fle zero (pr_floor p) = true ∧ fle (pr_floor p) (pr_ceiling p) = true ∧ 0 ≤ tk_window_seconds k.
Proof.
  intros Hin. assert (Hall : forallb prior_ok DEFAULT_PRIORS = true) by (vm_compute; reflexivity).
  rewrite forallb_forall in Hall. specialize (Hall _ (proj1 (list_elem_of_In _ _) Hin)). unfold prior_ok in Hall. cbn [fst snd] in Hall.
  bool_prop. by split_and!.
Qed.

Lemma prior_names_distinct : NoDup (key_name <$> DEFAULT_PRIORS.*1).
Proof. apply (bool_decide_unpack _). vm_compute. done. Qed.

Lemma priors_wf : dwf DEFAULT_PRIORS.
Proof. unfold dwf, dkeys. eapply NoDup_fmap_1, prior_names_distinct. Qed.

Lemma threshold_entry_ok e : threshold_entry e = Ok e ↔
  te_name e ≠ "" ∧ fle zero (te_value e) = true ∧ fle zero (te_floor e) = true ∧ fle zero (te_ceiling e) = true ∧
  from_option (fle zero) true (te_benign_p999 e) = true ∧ from_option (flt zero) true (te_margin e) = true ∧ 0 ≤ te_samples e ∧
  fle (te_floor e) (te_value e) = true ∧ fle (te_value e) (te_ceiling e) = true.
Proof.
  unfold threshold_entry. split.
  - split_ifs; try done. intros _. bool_prop. split_and!; try done; lia.
  - intros (H1 & H2 & H3 & H4 & H5 & H6 & H7 & H8 & H9). rewrite bool_decide_false, H2, H3, H4, H5, H6, H8, H9 by done.
    rewrite (fle_not_flt _ _ (fle_trans _ _ _ H8 H9)). by rewrite (proj2 (Z.ltb_ge _ _) H7).
Qed.

Lemma key_name_nonempty k : key_name k ≠ "".
Proof. unfold key_name. by destruct (tk_detector k). Qed.

(** No benign soak can move a threshold out of its security priors:
    whatever the samples and the margin, the fitted value lies between the
    floor and the ceiling of its detector, scope and window and the entry
    that records it is accepted, or it is NaN, which happens only when the
    samples' percentile times the margin is, and that entry is refused. *)
Theorem fitted_threshold_within_priors values margin key prior : DEFAULT_PRIORS.[key] = Some prior →
  let '(v, p999) := threshold_from_benign values margin prior in
  let entry samples := mk_entry (key_name key) v (pr_floor prior) (pr_ceiling prior) (Some p999) (Some margin) samples in
  (fle (pr_floor prior) v = true ∧ fle v (pr_ceiling prior) = true ∧
     (fle zero p999 = true → flt zero margin = true → ∀ samples, 0 ≤ samples → threshold_entry (entry samples) = Ok (entry samples))) ∨
  (is_nan v = true ∧ is_nan (fmul p999 margin) = true ∧ ∀ samples, ∃ e, threshold_entry (entry samples) = Raise e).
Proof.
  intros Hp%dget_Some_elem. destruct (priors_ok _ _ Hp) as (Hf & Hle & _). unfold threshold_from_benign.
  set (p999 := percentile values q999).
  destruct (fclamp_bounds (fmul p999 margin) _ _ Hle) as [[Hn Hv]|[H1 H2]]; [right|left].
  - split; [done|]. split; [done|]. intros samples. destruct (threshold_entry _) as [e'|e] eqn:He; [|by eexists]. exfalso.
    assert (e' = mk_entry (key_name key) (fmin (fmax (fmul p999 margin) (pr_floor prior)) (pr_ceiling prior)) (pr_floor prior)
                   (pr_ceiling prior) (Some p999) (Some margin) samples) as ->.
    { revert He. unfold threshold_entry. split_ifs; congruence. }
    apply threshold_entry_ok in He as (_ & Hz & _). apply fle_not_nan in Hz as [_ Hz]. cbn [te_value] in Hz. congruence.
  - split; [done|]. split; [done|]. intros Hp0 Hm samples Hs. apply threshold_entry_ok. cbn.
    split_and!; try done; [apply key_name_nonempty|eauto using fle_trans..].
Qed.

Lemma fitted_threshold_within_priors_witness :
  let key := mk_tkey VERTICAL_SCAN S_DEVICE 10 in
  let prior := mk_prior (float_of_Z 15) (float_of_Z 50) in
  let v := (threshold_from_benign [float_of_Z 1000; float_of_Z 2000] (float_of_Z 2) prior).1 in
  DEFAULT_PRIORS.[key] = Some prior ∧ (fle v (float_of_Z 50) = true ∨ is_nan v = true).
Proof.
  split; [reflexivity|].
  destruct (fitted_threshold_within_priors [float_of_Z 1000; float_of_Z 2000] (float_of_Z 2)
    (mk_tkey VERTICAL_SCAN S_DEVICE 10) (mk_prior (float_of_Z 15) (float_of_Z 50)) eq_refl) as [(_ & H & _)|(H & _)]; auto.
Defined.

Lemma rbind_ok {A B} (r : result A) (k : A → result B) b : rbind r k = Ok b → ∃ a, r = Ok a ∧ k a = Ok b.
Proof. destruct r as [a|]; [by exists a|done]. Qed.

Lemma key_name_inj k k' : 0 ≤ tk_window_seconds k → 0 ≤ tk_window_seconds k' → key_name k = key_name k' → k = k'.
Proof. intros H H' Heq. apply parse_key_name in H, H'. rewrite Heq in H. congruence. Qed.

Section Loading.
Context (digest : list ThresholdEntry → string) (digest_length : ∀ es, String.length (digest es) = 64%nat).

(** What a file the loader accepts guarantees. *)
Lemma load_thresholds_sound disk f : load_thresholds digest disk = Ok f →
  tf_version f = THRESHOLD_FILE_VERSION ∧ tf_sha256 f = entries_sha256 digest (dvalues (tf_thresholds f)) ∧
  ∀ name e, (name, e) ∈ tf_thresholds f →
    te_name e = name ∧ (∃ k, _parse_key name = Ok k) ∧ fle (te_floor e) (te_value e) = true ∧ fle (te_value e) (te_ceiling e) = true.
Proof.
  destruct disk as [|msg|v fr sha pv es]; [done..|]. unfold load_thresholds.
  destruct (threshold_file _ _) as [f'|[]] eqn:Hf; try done. intros [= ->]. revert Hf. unfold threshold_file.
  set (g := mk_tfile _ _ _ _ _). intros ([] & H1 & Hf)%rbind_ok.
  destruct (negb (bool_decide _)) eqn:Hlen in Hf; [done|]. destruct (negb _) eqn:Hv in Hf; [done|].
  apply rbind_ok in Hf as ([] & H2 & Hf). destruct (negb _) eqn:Hsha in Hf; [done|].
  injection Hf as Hg. rewrite <- Hg. clear f Hg. bool_prop. split; [done|]. split; [done|].
  apply rforall_ok in H1, H2. rewrite Forall_forall in H1, H2. intros name e Hin. specialize (H1 _ Hin). specialize (H2 _ Hin).
  cbn [fst snd] in *. destruct (negb (bool_decide (te_name e = name))) eqn:Hn; [done|]. bool_prop. split; [done|].
  destruct (_parse_key name) as [k|]; [|done]. split; [by exists k|].
  destruct (threshold_entry e) as [e'|] eqn:He; [|done].
  assert (e' = e) as -> by (revert He; unfold threshold_entry; split_ifs; congruence). apply threshold_entry_ok in He. tauto.
Qed.

Definition chosen (windows : list Z) : list (ThresholdKey * Prior) :=
  filter (λ p : ThresholdKey * Prior, tk_window_seconds p.1 ∈ windows) (py_sorted prior_leb DEFAULT_PRIORS).

Lemma elem_of_chosen windows k p :
  (k, p) ∈ chosen windows ↔ DEFAULT_PRIORS.[k] = Some p ∧ tk_window_seconds k ∈ windows.
Proof.
  unfold chosen. rewrite list_elem_of_filter, elem_of_py_sorted. cbn [fst]. split; intros [H1 H2]; split; [|exact H1|exact H2|].
  - apply dget_elem; [apply priors_wf|exact H2].
  - by apply dget_Some_elem in H1.
Qed.

Lemma floor_names windows : te_name <$> (floor_entry <$> chosen windows) = key_name <$> (chosen windows).*1.
Proof. rewrite <- !list_fmap_compose. done. Qed.

Lemma chosen_distinct windows : NoDup (key_name <$> (chosen windows).*1).
Proof.
  unfold chosen. eapply sublist_NoDup; [|do 2 apply fmap_sublist; apply sublist_filter].
  rewrite (py_sorted_perm prior_leb DEFAULT_PRIORS). apply prior_names_distinct.
Qed.

Lemma floors_thresholds windows :
  rebuild te_name (floor_entry <$> chosen windows) = (λ p, (key_name p.1, floor_entry p)) <$> chosen windows.
Proof.
  rewrite rebuild_distinct by (rewrite floor_names; apply chosen_distinct). rewrite <- list_fmap_compose. done.
Qed.

Lemma floors_valid windows prov :
  let f := mk_tfile THRESHOLD_FILE_VERSION false (entries_sha256 digest (floor_entry <$> chosen windows)) prov
             ((λ p, (key_name p.1, floor_entry p)) <$> chosen windows) in
  threshold_file digest f = Ok f.
Proof.
  intros f. unfold threshold_file. rewrite (proj2 (rforall_ok _ (tf_thresholds f))); [cbn [rbind]|].
  2: { apply Forall_fmap, Forall_forall. intros [k p] [Hp%dget_Some_elem _]%elem_of_chosen.
       destruct (priors_ok _ _ Hp) as (Hf & Hle & _). cbn. rewrite (proj2 (threshold_entry_ok (floor_entry (k, p)))); [done|].
       cbn. split_and!; try done; [apply key_name_nonempty|by eapply fle_trans|].
       apply fle_refl. by destruct (fle_not_nan _ _ Hle). }
  rewrite bool_decide_true by apply digest_length. cbn [negb tf_version f]. rewrite Z.eqb_refl. cbn [negb].
  rewrite (proj2 (rforall_ok _ (tf_thresholds f))); [cbn [rbind]|].
  2: { apply Forall_fmap, Forall_forall. intros [k p] [Hp%dget_Some_elem _]%elem_of_chosen.
       destruct (priors_ok _ _ Hp) as (_ & _ & Hw). cbn. rewrite bool_decide_true by done. cbn [negb].
       by rewrite parse_key_name. }
  rewrite bool_decide_true; [done|]. cbn. unfold dvalues. by rewrite <- list_fmap_compose.
Qed.

(** The shipped floors are a complete, readable file: whatever windows
    are configured, [floors_file] succeeds, the file it builds is accepted
    again when it is read back, and it holds for every key exactly the floor
    of its prior when the key's window is configured, and nothing for any
    other key. *)
Theorem floors_file_is_complete windows prov : ∃ f,
  floors_file digest windows prov = Ok f ∧ tf_frozen f = false ∧
  load_thresholds digest (T_parsed (tf_version f) (tf_frozen f) (tf_sha256 f) (tf_provenance f) (dvalues (tf_thresholds f))) = Ok f ∧
  ∀ k, 0 ≤ tk_window_seconds k →
    threshold_value f k = match DEFAULT_PRIORS.[k] with
                          | Some p => if decide (tk_window_seconds k ∈ windows) then Some (pr_floor p) else None
                          | None => None
                          end.
Proof.
  unfold floors_file, _assemble. fold (chosen windows). rewrite floors_thresholds, floors_valid.
  eexists. split; [reflexivity|]. split; [done|]. split.
  - unfold load_thresholds. cbn [tf_version tf_frozen tf_sha256 tf_provenance tf_thresholds]. unfold dvalues.
    rewrite <- list_fmap_compose. change (snd ∘ _) with floor_entry. by rewrite floors_thresholds, floors_valid.
  - intros k Hk. unfold threshold_value. cbn [tf_thresholds].
    assert (Hwf : dwf ((λ p, (key_name p.1, floor_entry p)) <$> chosen windows)).
    { unfold dwf, dkeys. rewrite <- list_fmap_compose. pose proof (chosen_distinct windows) as Hnd. by rewrite <- list_fmap_compose in Hnd. }
    destruct (dget (_ <$> chosen windows) (key_name k)) as [e|] eqn:He.
    + apply dget_Some_elem, list_elem_of_fmap in He as ([k' p] & [= Hkk ->] & [Hp Hin]%elem_of_chosen).
      destruct (priors_ok _ _ (dget_Some_elem _ _ _ Hp)) as (_ & _ & Hw').
      apply key_name_inj in Hkk as <-; [|done..]. rewrite Hp. cbn. by rewrite decide_True.
    + destruct (DEFAULT_PRIORS.[k]) as [p|] eqn:Hp; [|done]. cbn. case_decide as Hin; [|done]. exfalso.
      apply dget_None in He. apply He. unfold dkeys. rewrite <- list_fmap_compose. apply list_elem_of_fmap.
      exists (k, p). split; [done|]. by apply elem_of_chosen.
Qed.
End Loading.

Lemma floors_file_is_complete_witness : ∃ f,
  floors_file (λ _, string_of_list (replicate 64 "0"%char)) [10; 60] [] = Ok f ∧
  threshold_value f (mk_tkey VERTICAL_SCAN S_DEVICE 10) = Some (float_of_Z 15).
Proof.
  destruct (floors_file_is_complete (λ _, string_of_list (replicate 64 "0"%char)) (λ _, eq_refl) [10; 60] [])
    as (f & Hf & _ & _ & Hv). exists f. split; [exact Hf|]. rewrite Hv by (cbn; lia). reflexivity.
Defined.
