(* ===== verification/Transport.v ===== *)
(** * Reaching nft (firewall/backend/nft_transport.py)

    The two transports, [nft -j -f -] as a process and libnftables, their
    selection, and the counters around them.  The host is a parameter: what
    running the binary and calling the library do, the JSON codec, and the
    clock.  [NftHost] states what nft documents about them; a process that
    ran out of time may or may not have committed its transaction.  The
    transport keeps the contract that the production backend
    ([NftablesLaws]) is proved against, its killed runs being those. *)

From S2P Require Import Prelude Float Net Models Sets SetBackend Json Nftables NftablesLaws NftSim Thresholds.
Local Open Scope Z_scope.

Inductive NftTransportKind := LIBNFTABLES | SUBPROCESS.
#[global] Instance NftTransportKind_eq_dec : EqDecision NftTransportKind.
Proof. solve_decision. Defined.

(** [subprocess.run]: [FileNotFoundError], [TimeoutExpired], a non-zero exit
    with its standard error, or the standard output *)
Inductive process_outcome (text : Type) := PNotFound (msg : string) | PTimeout (msg : string) | PFailed (stderr : string) | PExited (stdout : text).
Arguments PNotFound {_}. Arguments PTimeout {_}. Arguments PFailed {_}. Arguments PExited {_}.

Definition _NFT_BINARY : string := "nft".
Definition stripped (s : string) : string := string_of_list (strip (string_to_list s)).

Record Metered (T : Type) : Type := mk_metered { me_inner : T; me_calls : Z; me_failures : Z; me_total_seconds : float }.
Arguments mk_metered {_}. Arguments me_inner {_}. Arguments me_calls {_}. Arguments me_failures {_}. Arguments me_total_seconds {_}.

Section Transport.
(** [text] is the JSON text on the pipes; [is_blank] is [not text.strip()] *)
Context {W text : Type} (is_blank : text → bool).
Context (process : string → text → W → process_outcome text * W).          (** the binary, its standard input *)
Context (json_cmd : json → W → (Z * option json * string) * W).         (** the code, the output, the error *)
Context (dumps : json → text) (loads : text → string + json) (perf_counter : W → float * W).

Definition _parse (stdout : text) : result json :=
  if is_blank stdout then Ok (JObj [])
  else match loads stdout with
       | inl msg => Raise (FirewallError ("nft returned invalid JSON: " +:+ msg))
       | inr (JObj o) => Ok (JObj o)
       | inr _ => Raise (FirewallError "nft returned JSON that is not an object")
       end.

(** [SubprocessTransport.run] *)
Definition subprocess_run (binary : string) (doc : json) : M W json := λ w,
  match process binary (dumps doc) w with
  | (PNotFound msg, w) => (Raise (FirewallError ("'" +:+ binary +:+ "' binary not found: " +:+ msg)), w)
  | (PTimeout msg, w) => (Raise (FirewallError ("nft command timed out: " +:+ msg)), w)
  | (PFailed stderr, w) => (Raise (FirewallError ("nft command failed: " +:+ stripped stderr)), w)
  | (PExited stdout, w) => (_parse stdout, w)
  end.
(** [LibNftablesTransport.run] *)
Definition libnftables_run (doc : json) : M W json := λ w,
  let '((rc, output, error), w) := json_cmd doc w in
  if negb (rc =? 0) then (Raise (FirewallError ("nft command failed: " +:+ stripped error)), w)
  else (Ok (match output with Some (JObj o) => JObj o | _ => JObj [] end), w).
(** [select_transport]; the argument is the error of importing the library,
    if it cannot be *)
Definition select_transport (prefer : option NftTransportKind) (import_error : option string) : result NftTransportKind :=
  if bool_decide (prefer = Some SUBPROCESS) then Ok SUBPROCESS
  else match import_error with
       | None => Ok LIBNFTABLES
       | Some msg => if bool_decide (prefer = Some LIBNFTABLES) then Raise (FirewallError ("python3-nftables is not importable: " +:+ msg)) else Ok SUBPROCESS
       end.
Definition transport_run (kind : NftTransportKind) : json → M W json :=
  match kind with LIBNFTABLES => libnftables_run | SUBPROCESS => subprocess_run _NFT_BINARY end.

(** [MeteredTransport.run] *)
Definition metered_run (inner : json → M W json) (doc : json) : M (Metered W) json := λ s,
  let '(started, w) := perf_counter (me_inner s) in
  let '(r, w) := inner doc w in
  let '(ended, w) := perf_counter w in
  (r, mk_metered w (me_calls s + 1)
        (match r with Raise (FirewallError _) => me_failures s + 1 | _ => me_failures s end) (fadd (me_total_seconds s) (fsub ended started))).
Definition backend_run (kind : NftTransportKind) : json → M (Metered W) json := metered_run (transport_run kind).
Definition new_metered (w : W) : Metered W := mk_metered w 0 0 (float_of_Z 0).

(** ** What nft documents *)

(** A document of write commands is one transaction, of which a process that
    ran out of time may have been killed before or after the commit; a
    listing writes nothing and says what is there.  A write prints nothing or
    a JSON object, a listing prints a JSON object.  Between calls time passes
    ([host_later]). *)
Class NftHost : Type := {
  host_rules : W → ruleset;
  host_later : W → W → Prop;
  host_later_law : ∀ w w', host_later w w' → rs_now (host_rules w) ≤ rs_now (host_rules w') ∧
    rs_eq (host_rules w') (rs_at (rs_now (host_rules w')) (host_rules w));
  process_write : ∀ commands w o w', commands ≠ [] → (∀ k x, list_command k x ∉ commands) →
    process _NFT_BINARY (dumps (document commands)) w = (o, w') →
    match o with
    | PExited stdout => applied commands (host_rules w) (host_rules w') ∧ (is_blank stdout = true ∨ ∃ out, loads stdout = inr (JObj out))
    | PTimeout _ => rs_eq (host_rules w') (host_rules w) ∨ applied commands (host_rules w) (host_rules w')
    | _ => rs_eq (host_rules w') (host_rules w)
    end;
  process_list : ∀ kind what w o w', process _NFT_BINARY (dumps (document [list_command kind what])) w = (o, w') → rs_eq (host_rules w') (host_rules w);
  process_set : ∀ f n s w stdout w', process _NFT_BINARY (dumps (document [list_command "set" (JObj (set_path f n s))])) w = (PExited stdout, w') →
    is_blank stdout = false ∧ ∃ o, loads stdout = inr (JObj o) ∧ lists_set (JObj o) (f, n, s) (host_rules w);
  process_chain : ∀ f n c w stdout w', process _NFT_BINARY (dumps (document [list_command "chain" (JObj (set_path f n c))])) w = (PExited stdout, w') →
    is_blank stdout = false ∧ ∃ o, loads stdout = inr (JObj o) ∧
      ∃ rules, rs_chain (host_rules w) (f, n, c) = Some rules ∧ lists_chain (JObj o) (f, n, c) rules;
  process_tables : ∀ w stdout w', process _NFT_BINARY (dumps (document [list_command "tables" JNull])) w = (PExited stdout, w') →
    is_blank stdout = false ∧ ∃ o, loads stdout = inr (JObj o) ∧ lists_tables (JObj o) (host_rules w);
  library_write : ∀ commands w rc out err w', commands ≠ [] → (∀ k x, list_command k x ∉ commands) → json_cmd (document commands) w = ((rc, out, err), w') →
    if rc =? 0 then applied commands (host_rules w) (host_rules w') else rs_eq (host_rules w') (host_rules w);
  library_list : ∀ kind what w r w', json_cmd (document [list_command kind what]) w = (r, w') → rs_eq (host_rules w') (host_rules w);
  library_set : ∀ f n s w out err w', json_cmd (document [list_command "set" (JObj (set_path f n s))]) w = ((0, out, err), w') →
    ∃ o, out = Some (JObj o) ∧ lists_set (JObj o) (f, n, s) (host_rules w);
  library_chain : ∀ f n c w out err w', json_cmd (document [list_command "chain" (JObj (set_path f n c))]) w = ((0, out, err), w') →
    ∃ o rules, out = Some (JObj o) ∧ rs_chain (host_rules w) (f, n, c) = Some rules ∧ lists_chain (JObj o) (f, n, c) rules;
  library_tables : ∀ w out err w', json_cmd (document [list_command "tables" JNull]) w = ((0, out, err), w') →
    ∃ o, out = Some (JObj o) ∧ lists_tables (JObj o) (host_rules w);
  clock_reads : ∀ w, host_rules (perf_counter w).2 = host_rules w;
}.

Context {H : NftHost}.

(** The process that runs the document loses patience with it. *)
Definition runs_out (kind : NftTransportKind) (doc : json) (w : W) : Prop :=
  kind = SUBPROCESS ∧ ∃ msg, (process _NFT_BINARY (dumps doc) w).1 = PTimeout msg.

Lemma parse_raises stdout e : _parse stdout = Raise e → ∃ msg, e = FirewallError msg.
Proof. unfold _parse. destruct (is_blank stdout); [done|]. destruct (loads stdout) as [msg|[]]; intros [= <-]; eauto. Qed.

(** One write through either transport *)
Lemma transport_write kind commands w r w' : commands ≠ [] → (∀ k x, list_command k x ∉ commands) →
  transport_run kind (document commands) w = (r, w') →
  match r with
  | Ok _ => applied commands (host_rules w) (host_rules w')
  | Raise e => (∃ msg, e = FirewallError msg) ∧
      (rs_eq (host_rules w') (host_rules w) ∨
       applied commands (host_rules w) (host_rules w') ∧ runs_out kind (document commands) w)
  end.
Proof.
  intros Hne Hw. destruct kind; cbn [transport_run].
  - unfold libnftables_run. destruct (json_cmd (document commands) w) as [[[rc out] err] w1] eqn:Hj. pose proof (library_write _ _ _ _ _ _ Hne Hw Hj) as Hl.
    destruct (rc =? 0); cbn [negb]; intros [= <- <-]; [exact Hl|]. split; [by eexists|]. by left.
  - unfold subprocess_run. destruct (process _NFT_BINARY (dumps (document commands)) w) as [o w1] eqn:Hp. pose proof (process_write _ _ _ _ Hne Hw Hp) as Hl.
    destruct o; intros [= <- <-]; try (split; [by eexists|]; by left).
    + split; [by eexists|]. destruct Hl as [Hl|Hl]; [by left|right]. split; [exact Hl|]. split; [done|]. rewrite Hp. by eexists.
    + destruct Hl as [Hl Hout]. unfold _parse. destruct (is_blank stdout); [exact Hl|]. destruct Hout as [|[out ->]]; [done|exact Hl].
Qed.

Lemma every_write kind commands s r s' : commands ≠ [] → (∀ k x, list_command k x ∉ commands) →
  backend_run kind (document commands) s = (r, s') →
  match r with
  | Ok _ => applied commands (host_rules (me_inner s)) (host_rules (me_inner s')) ∧ me_failures s' = me_failures s
  | Raise e => (∃ msg, e = FirewallError msg) ∧ me_failures s' = me_failures s + 1 ∧
      (rs_eq (host_rules (me_inner s')) (host_rules (me_inner s)) ∨
       applied commands (host_rules (me_inner s)) (host_rules (me_inner s')) ∧ runs_out kind (document commands) (perf_counter (me_inner s)).2)
  end ∧ me_calls s' = me_calls s + 1.
Proof.
  intros Hne Hw. unfold backend_run, metered_run. pose proof (clock_reads (me_inner s)) as Hc.
  destruct (perf_counter (me_inner s)) as [started w0]. cbn in Hc. destruct (transport_run kind (document commands) w0) as [r0 w1] eqn:Hr.
  pose proof (transport_write _ _ _ _ _ Hne Hw Hr) as Ht. pose proof (clock_reads w1) as Hc'. destruct (perf_counter w1) as [ended w2]. cbn in Hc'.
  rewrite Hc in Ht. rewrite <- Hc' in Ht. destruct r0 as [out|e]; intros [= <- <-]; cbn.
  - done.
  - destruct Ht as [[msg ->] Ht]. split; [|done]. split; [by eexists|]. split; [done|]. destruct Ht as [Ht|[Ht Hk]]; [by left|by right].
Qed.


(** ** The backend's contract *)

Context (kind : NftTransportKind).

Lemma metered_as (inner : json → M W json) doc s r s' : metered_run inner doc s = (r, s') → ∃ w0 w1,
  host_rules w0 = host_rules (me_inner s) ∧ inner doc w0 = (r, w1) ∧ host_rules (me_inner s') = host_rules w1.
Proof.
  unfold metered_run. pose proof (clock_reads (me_inner s)) as Hc. destruct (perf_counter (me_inner s)) as [started w0]. destruct (inner doc w0) as [r0 w1] eqn:Hr.
  pose proof (clock_reads w1) as Hc'. destruct (perf_counter w1) as [ended w2]. intros [= <- <-]. exists w0, w1. done.
Qed.
Lemma transport_list k what w r w' : transport_run kind (document [list_command k what]) w = (r, w') →
  rs_eq (host_rules w') (host_rules w) ∧ match r with Ok _ => True | Raise e => ∃ msg, e = FirewallError msg end.
Proof.
  destruct kind; cbn [transport_run].
  - unfold libnftables_run. destruct (json_cmd _ w) as [[[rc out] err] w1] eqn:Hj. apply library_list in Hj.
    destruct (negb _); intros [= <- <-]; (split; [done|]); [by eexists|done].
  - unfold subprocess_run. destruct (process _ _ w) as [o w1] eqn:Hp. apply process_list in Hp.
    destruct o as [m|m|m|stdout]; intros [= <- <-]; (split; [done|]); try (by eexists). destruct (_parse stdout) eqn:Hx; [done|by eapply parse_raises].
Qed.
(** A listing that succeeded, over either transport *)
Lemma transport_lists k what w out w' (P : json → Prop) : transport_run kind (document [list_command k what]) w = (Ok out, w') →
  (∀ stdout w', process _NFT_BINARY (dumps (document [list_command k what])) w = (PExited stdout, w') →
     is_blank stdout = false ∧ ∃ o, loads stdout = inr (JObj o) ∧ P (JObj o)) →
  (∀ o err w', json_cmd (document [list_command k what]) w = ((0, o, err), w') → ∃ x, o = Some (JObj x) ∧ P (JObj x)) → P out.
Proof.
  intros Hr Hp Hl. destruct kind; cbn [transport_run] in Hr.
  - unfold libnftables_run in Hr. destruct (json_cmd _ w) as [[[rc o] err] w1] eqn:Hj. destruct (Z.eqb_spec rc 0) as [->|]; cbn [negb] in Hr; [|done].
    destruct (Hl _ _ _ eq_refl) as (x & -> & HP). by injection Hr as <- <-.
  - unfold subprocess_run in Hr. destruct (process _ _ w) as [[m|m|m|stdout] w1] eqn:Hx; try done. destruct (Hp _ _ eq_refl) as (Hb & o & Ho & HP).
    unfold _parse in Hr. rewrite Hb, Ho in Hr. by injection Hr as <- <-.
Qed.

#[global] Instance transport_contract : NftContract (Metered W) (backend_run kind).
Proof.
  refine {| nk_rules := λ s, host_rules (me_inner s);
            nk_killed := λ doc s, runs_out kind doc (perf_counter (me_inner s)).2;
            nk_later := λ s s', host_later (me_inner s) (me_inner s') |}.
  - intros s s'. apply host_later_law.
  - intros commands s r s' Hne Hw Hr. pose proof (every_write kind commands s r s' Hne Hw Hr) as [Ht _].
    destruct r as [out|e]; [exact (proj1 Ht)|]. by destruct Ht as (? & _ & ?).
  - intros k what s r s' (w0 & w1 & H0 & Hr & H1)%metered_as. rewrite <- H0, H1. by eapply transport_list.
  - intros f n c s out s' (w0 & w1 & H0 & Hr & H1)%metered_as. rewrite <- H0. eapply (transport_lists _ _ _ _ _ (λ o, lists_set o (f, n, c) (host_rules w0)) Hr).
    + intros stdout w' Hp. by eapply process_set.
    + intros o err w' Hj. by eapply library_set.
  - intros f n c s out s' (w0 & w1 & H0 & Hr & H1)%metered_as. rewrite <- H0.
    eapply (transport_lists _ _ _ _ _ (λ o, ∃ rules, rs_chain (host_rules w0) (f, n, c) = Some rules ∧ lists_chain o (f, n, c) rules) Hr).
    + intros stdout w' Hp. by eapply process_chain.
    + intros o err w' Hj. destruct (library_chain _ _ _ _ _ _ _ Hj) as (x & rules & -> & Hc & Hl). exists x. split; [done|]. by exists rules.
  - intros s out s' (w0 & w1 & H0 & Hr & H1)%metered_as. rewrite <- H0. eapply (transport_lists _ _ _ _ _ (λ o, lists_tables o (host_rules w0)) Hr).
    + intros stdout w' Hp. by eapply process_tables.
    + intros o err w' Hj. by eapply library_tables.
Defined.
End Transport.

(** ** A host

    nft is the simulated kernel of [NftSim], as a process and as a library.
    [late]: the process commits and then runs out of time. *)
Definition sim_process (late : bool) (binary : string) (input : option json) (s : sim_kernel) : process_outcome (option json) * sim_kernel :=
  match input with
  | Some doc =>
      match sim_run doc s with
      | (Ok out, s') => (if late then PTimeout "10 seconds" else PExited (Some out), s')
      | (Raise _, s') => (PFailed "Error", s')
      end
  | None => (PFailed "Error", s)
  end.
Definition sim_cmd (doc : json) (s : sim_kernel) : (Z * option json * string) * sim_kernel :=
  match sim_run doc s with
  | (Ok out, s') => ((0, Some out, ""), s')
  | (Raise _, s') => ((1, None, "Error"), s')
  end.
Definition sim_loads (t : option json) : string + json := match t with Some v => inr v | None => inl "no text" end.
Definition still_clock (s : sim_kernel) : float * sim_kernel := (float_of_Z 0, s).
Definition is_none (t : option json) : bool := match t with None => true | Some _ => false end.

Lemma sim_list_object kind what s out : sim_list kind what s = Some out → ∃ o, out = JObj o.
Proof.
  unfold sim_list. repeat case_decide; try done; intros Hl; repeat (apply bind_Some in Hl as (? & _ & Hl)); injection Hl as <-; by eexists.
Qed.
Lemma sim_output doc s out s' : sim_run doc s = (Ok out, s') → ∃ o, out = JObj o.
Proof.
  unfold sim_run. destruct (asked doc) as [[kind what]|].
  - destruct (sim_list kind what s) as [v|] eqn:Hl; [|done]. intros [= <- <-]. by eapply sim_list_object.
  - destruct doc as [| | | | |[|[k []] []]]; try done. destruct (sim_exec_all _ _); intros [= <- <-]. by eexists.
Qed.
(** What the two calls are of one run *)
Lemma sim_process_run late doc s o s' : sim_process late _NFT_BINARY (Some doc) s = (o, s') →
  ∃ r, sim_run doc s = (r, s') ∧
    match r, o with Ok out, PExited t => t = Some out | Ok _, PTimeout _ => late = true | Raise _, PFailed _ => True | _, _ => False end.
Proof. unfold sim_process. destruct (sim_run doc s) as [[out|e] s1]; [destruct late|]; intros [= <- <-]; by eexists. Qed.
Lemma sim_exited late doc s stdout s' : sim_process late _NFT_BINARY (Some doc) s = (PExited stdout, s') →
  ∃ v, sim_run doc s = (Ok v, s') ∧ stdout = Some v.
Proof. intros (r & Hr & Ho)%sim_process_run. destruct r as [v|]; [|done]. by exists v. Qed.
Lemma sim_cmd_run doc s rc out err s' : sim_cmd doc s = ((rc, out, err), s') →
  ∃ r, sim_run doc s = (r, s') ∧ match r with Ok v => rc = 0 ∧ out = Some v | Raise _ => rc = 1 end.
Proof. unfold sim_cmd. destruct (sim_run doc s) as [[v|e] s1]; intros [= <- <- <- <-]; by eexists. Qed.

#[global] Instance sim_host late : NftHost is_none (sim_process late) sim_cmd Some sim_loads still_clock.
Proof.
  refine {| host_rules := sim_rules; host_later := sim_later |}.
  - exact sim_later_law.
  - intros commands s o s' Hne Hw (r & Hr & Ho)%sim_process_run. pose proof (nk_write _ _ _ _ Hne Hw Hr) as Hk.
    destruct r as [out|e], o; try done; [by right| |destruct Hk as [_ [Hk|[_ []]]]; exact Hk].
    subst. split; [exact Hk|]. right. destruct (sim_output _ _ _ _ Hr) as [o ->]. by exists o.
  - intros kind what s o s' (r & Hr & _)%sim_process_run. by apply nk_list in Hr as [Hr _].
  - intros f n c s stdout s' (v & Hr & ->)%sim_exited. destruct (sim_output _ _ _ _ Hr) as [o ->]. split; [done|]. exists o. split; [done|].
    exact (nk_list_set _ _ _ _ _ _ Hr).
  - intros f n c s stdout s' (v & Hr & ->)%sim_exited. destruct (sim_output _ _ _ _ Hr) as [o ->]. split; [done|]. exists o. split; [done|].
    exact (nk_list_chain _ _ _ _ _ _ Hr).
  - intros s stdout s' (v & Hr & ->)%sim_exited. destruct (sim_output _ _ _ _ Hr) as [o ->]. split; [done|]. exists o. split; [done|].
    exact (nk_list_tables _ _ _ Hr).
  - intros commands s rc out err s' Hne Hw (r & Hr & Ho)%sim_cmd_run. pose proof (nk_write _ _ _ _ Hne Hw Hr) as Hk.
    destruct r as [v|e]; [destruct Ho as [-> ->]; exact Hk|]. subst rc. destruct Hk as [_ [Hk|[_ []]]]. exact Hk.
  - intros kind what s [[rc out] err] s' (r & Hr & _)%sim_cmd_run. by apply nk_list in Hr as [Hr _].
  - intros f n c s out err s' (r & Hr & Ho)%sim_cmd_run. destruct r as [v|]; [|done]. destruct Ho as [_ ->]. destruct (sim_output _ _ _ _ Hr) as [o ->].
    exists o. split; [done|]. exact (nk_list_set _ _ _ _ _ _ Hr).
  - intros f n c s out err s' (r & Hr & Ho)%sim_cmd_run. destruct r as [v|]; [|done]. destruct Ho as [_ ->]. destruct (sim_output _ _ _ _ Hr) as [o ->].
    destruct (nk_list_chain _ _ _ _ _ _ Hr) as (rules & Hc & Hl). by exists o, rules.
  - intros s out err s' (r & Hr & Ho)%sim_cmd_run. destruct r as [v|]; [|done]. destruct Ho as [_ ->]. destruct (sim_output _ _ _ _ Hr) as [o ->].
    exists o. split; [done|]. exact (nk_list_tables _ _ _ Hr).
  - done.
Defined.

Definition late_run (late : bool) (kind : NftTransportKind) : json → M (Metered sim_kernel) json :=
  backend_run is_none (sim_process late) sim_cmd Some sim_loads still_clock kind.
Definition block_op : SetOp := adaptive_op OP_ADD SET_BLOCK_MAC offender (Some 300).
Definition block_document : list json := match batch_commands [block_op] with Ok l => l | Raise _ => [] end.


(** A write that is reported failed may be in force: the process committed
    and was killed for taking too long. *)
Theorem timed_out_write_is_applied :
  let t := nft_apply (late_run true SUBPROCESS) [block_op] (new_metered gateway) in
  t.1 = Raise (FirewallError "nft command timed out: 10 seconds") ∧
  (nft_list_set sim_run (adaptive_address SET_BLOCK_MAC) (me_inner t.2)).1 = Ok [mk_element offender (Some 300)].
Proof. vm_compute. done. Qed.
