(* ===== verification/Threat.v ===== *)
(** * Threat scoring, decisions and candidate rules (pirewall/engine,
      pirewall/firewall/generator.py)

    The v1 path from evidence to a candidate rule: [score_evidence] and
    [assess_threat] combine whatever evidence there is into a score, a level
    and an explanation; [decide_threat] picks the action, under the ceiling on
    machine-learning evidence and the evidence-maturity gate with its tracker;
    [generate_candidate_rule] turns the decision into the narrowest rule.
    The identifiers the program draws at random are arguments. *)

From S2P Require Import Prelude Float Net Models Policy Flow Thresholds.
Local Open Scope Z_scope.

(** ** Labels (ml/labels.py) *)

Definition _BENIGN_LABELS : list string := ["benign"; "normal"].

(** [label.strip().lower() not in _BENIGN_LABELS], on ASCII labels *)
Definition is_attack_label (label : string) : bool :=
  negb (inb (string_of_list (Mac.lower <$> strip (string_to_list label))) _BENIGN_LABELS).

(** ** Evidence models *)

Record KnownEvidence : Type := mk_known {
  ka_flow_id : string;
  ka_predicted_class : string;
  ka_confidence : float;
  ka_class_probabilities : list (string * float);
  ka_operating_threshold : option float;
  ka_model_version : string;
  ka_feature_schema_version : string;
  ka_generated_at : Z;
}.

Record ProtocolSignatureEvidence : Type := mk_signature {
  ps_flow_id : string;
  ps_signature : string;
  ps_confidence : float;
  ps_detail : string;
  ps_generated_at : Z;
}.

Inductive BehaviorPatternType :=
| REPEATED_CONNECTIONS | HIGH_FREQUENCY | BURST | PERSISTENCE | DESTINATION_DIVERSITY | REPEATED_FAILURES
| TEMPORAL_PATTERN | SCANNING | P_SLOW_RATE_DOS | FLOOD.

#[global] Instance BehaviorPatternType_eq_dec : EqDecision BehaviorPatternType.
Proof. solve_decision. Defined.

Definition pattern_value (p : BehaviorPatternType) : string :=
  match p with
  | REPEATED_CONNECTIONS => "repeated_connections" | HIGH_FREQUENCY => "high_frequency" | BURST => "burst"
  | PERSISTENCE => "persistence" | DESTINATION_DIVERSITY => "destination_diversity"
  | REPEATED_FAILURES => "repeated_failures" | TEMPORAL_PATTERN => "temporal_pattern" | SCANNING => "scanning"
  | P_SLOW_RATE_DOS => "slow_rate_dos" | FLOOD => "flood"
  end.

Record BehaviorAssessment : Type := mk_behavior {
  ba_source_ip : IPv4.t;
  ba_detected_patterns : list BehaviorPatternType;
  ba_confidence : float;
  ba_description : string;
  ba_window_start : Z;
  ba_window_end : Z;
}.

(** ** Configuration *)

Record ThreatConfig : Type := mk_threat_config {
  tc_low_threshold : float;
  tc_medium_threshold : float;
  tc_high_threshold : float;
  tc_critical_threshold : float;
  tc_known_attack_weight : float;
  tc_anomaly_weight : float;
  tc_behavior_weight : float;
  tc_behavior_pattern_points : list (BehaviorPatternType * float);
  tc_protocol_signature_weight : float;
  tc_evidence_maturity_consistency_windows : Z;
  tc_max_tracked_maturity_sources : Z;
  tc_ml_evidence_can_enforce : bool;
}.

Definition score_range (x : float) : Prop := fle (float_of_Z 0) x = true ∧ fle x (float_of_Z 100) = true.

(** The field constraints and [_check_ascending]. *)
Definition threat_config_wf (c : ThreatConfig) : Prop :=
  score_range (tc_low_threshold c) ∧ score_range (tc_medium_threshold c) ∧ score_range (tc_high_threshold c) ∧
  score_range (tc_critical_threshold c) ∧ score_range (tc_known_attack_weight c) ∧ score_range (tc_anomaly_weight c) ∧
  score_range (tc_behavior_weight c) ∧ score_range (tc_protocol_signature_weight c) ∧
  0 < tc_evidence_maturity_consistency_windows c ∧ 0 < tc_max_tracked_maturity_sources c ∧
  flt (tc_low_threshold c) (tc_medium_threshold c) = true ∧ flt (tc_medium_threshold c) (tc_high_threshold c) = true ∧
  flt (tc_high_threshold c) (tc_critical_threshold c) = true.

(** ** Scoring (engine/scoring.py) *)

Record ScoreBreakdown : Type := mk_breakdown {
  sb_total : float;
  sb_known_attack_contribution : float;
  sb_anomaly_contribution : float;
  sb_behavior_contribution : float;
  sb_protocol_signature_contribution : float;
}.

Definition non_ml_total (b : ScoreBreakdown) : float :=
  fmin (float_of_Z 100) (fadd (sb_behavior_contribution b) (sb_protocol_signature_contribution b)).

(** [config.behavior_pattern_points[pattern] for pattern in patterns] *)
Definition pattern_points (c : ThreatConfig) (patterns : list BehaviorPatternType) : result (list float) :=
  foldr (λ p acc, match dget (tc_behavior_pattern_points c) p with
                  | Some x => rbind acc (λ xs, Ok (x :: xs))
                  | None => Raise KeyError
                  end) (Ok []) patterns.

Definition known_attack_contribution (c : ThreatConfig) (known : option KnownEvidence) : float :=
  match known with
  | Some k => if is_attack_label (ka_predicted_class k) then fmul (tc_known_attack_weight c) (ka_confidence k) else f0
  | None => f0
  end.

Definition anomaly_contribution (c : ThreatConfig) (anomaly : option AnomalyEvidence) : float :=
  match anomaly with Some a => if ae_is_anomaly a then tc_anomaly_weight c else f0 | None => f0 end.

Definition behavior_contribution (c : ThreatConfig) (behavior : option BehaviorAssessment) : result float :=
  match behavior with
  | Some b => match ba_detected_patterns b with
              | [] => Ok f0
              | ps => rbind (pattern_points c ps) (λ xs, Ok (fmin (tc_behavior_weight c) (py_sum xs)))
              end
  | None => Ok f0
  end.

Definition signature_contribution (c : ThreatConfig) (sig : option ProtocolSignatureEvidence) : float :=
  match sig with Some s => fmul (tc_protocol_signature_weight c) (ps_confidence s) | None => f0 end.

Definition score_evidence (c : ThreatConfig) (known : option KnownEvidence) (anomaly : option AnomalyEvidence)
  (behavior : option BehaviorAssessment) (sig : option ProtocolSignatureEvidence) : result ScoreBreakdown :=
  rbind (behavior_contribution c behavior) (λ b,
  let k := known_attack_contribution c known in
  let a := anomaly_contribution c anomaly in
  let p := signature_contribution c sig in
  Ok (mk_breakdown (fmin (float_of_Z 100) (fadd (fadd (fadd k a) b) p)) k a b p)).

(** ** Assessment (engine/threat.py) *)

Record ThreatAssessment : Type := mk_assessment {
  ta_id : string;
  ta_flow_id : string;
  ta_source_ip : IPv4.t;
  ta_destination_ip : IPv4.t;
  ta_threat_score : float;
  ta_threat_level : ThreatLevel;
  ta_confidence : float;
  ta_enforceable_level : option ThreatLevel;
  ta_known_evidence : option KnownEvidence;
  ta_anomaly_evidence : option AnomalyEvidence;
  ta_behavior_assessment : option BehaviorAssessment;
  ta_protocol_signature_evidence : option ProtocolSignatureEvidence;
  ta_explanation : string;
  ta_contributing_evidence : list string;
  ta_assessed_at : Z;
}.

(** The constraints of the model's fields. *)
Definition assessment_check (a : ThreatAssessment) : bool :=
  negb (String.eqb (ta_id a) "") && negb (String.eqb (ta_flow_id a) "") &&
  fle (float_of_Z 0) (ta_threat_score a) && fle (ta_threat_score a) (float_of_Z 100) &&
  fle (float_of_Z 0) (ta_confidence a) && fle (ta_confidence a) (float_of_Z 1) &&
  negb (String.eqb (ta_explanation a) "").

Definition _determine_level (score : float) (c : ThreatConfig) : ThreatLevel :=
  if fle (tc_critical_threshold c) score then CRITICAL
  else if fle (tc_high_threshold c) score then HIGH
  else if fle (tc_medium_threshold c) score then MEDIUM
  else LOW.

Definition positive (x : float) : bool := flt f0 x.

Definition _explain (b : ScoreBreakdown) (known : option KnownEvidence) (anomaly : option AnomalyEvidence)
  (behavior : option BehaviorAssessment) (sig : option ProtocolSignatureEvidence) : string * list string :=
  let parts :=
    (match known with
     | Some k => if positive (sb_known_attack_contribution b)
                 then [("classified as " +:+ py_repr (ka_predicted_class k) +:+ " with " +:+ percent (ka_confidence k)
                        +:+ " confidence", ["known_evidence:" +:+ ka_predicted_class k])] else []
     | None => []
     end) ++
    (match anomaly with
     | Some a => if positive (sb_anomaly_contribution b)
                 then [("anomalous traffic pattern (score=" +:+ fmt_3f (ae_anomaly_score a) +:+ ")",
                        ["anomaly_evidence:anomalous"])] else []
     | None => []
     end) ++
    (match behavior with
     | Some ba => if positive (sb_behavior_contribution b)
                  then [("behavioral patterns: " +:+ String.concat ", " (pattern_value <$> ba_detected_patterns ba),
                         (λ p, "behavior:" +:+ pattern_value p) <$> ba_detected_patterns ba)] else []
     | None => []
     end) ++
    (match sig with
     | Some s => if positive (sb_protocol_signature_contribution b)
                 then [("protocol signature match: " +:+ ps_detail s, ["protocol_signature:" +:+ ps_signature s])] else []
     | None => []
     end) in
  (match parts with [] => "no significant threat indicators observed" | _ => String.concat "; " parts.*1 end,
   concat parts.*2).

Definition _overall_confidence (known : option KnownEvidence) (anomaly : option AnomalyEvidence)
  (behavior : option BehaviorAssessment) (sig : option ProtocolSignatureEvidence) : float :=
  foldl fmax f0
    ((match known with Some k => if is_attack_label (ka_predicted_class k) then [ka_confidence k] else [] | None => [] end) ++
     (match anomaly with Some a => if ae_is_anomaly a then [hundredths 70] else [] | None => [] end) ++
     (match behavior with Some b => match ba_detected_patterns b with [] => [] | _ => [ba_confidence b] end | None => [] end) ++
     (match sig with Some s => [ps_confidence s] | None => [] end)).

Definition assess_threat (c : ThreatConfig) (id flow_id : string) (source destination : IPv4.t)
  (known : option KnownEvidence) (anomaly : option AnomalyEvidence) (behavior : option BehaviorAssessment)
  (assessed_at : Z) (sig : option ProtocolSignatureEvidence) : result ThreatAssessment :=
  rbind (score_evidence c known anomaly behavior sig) (λ b,
  let enforceable := if tc_ml_evidence_can_enforce c then None else Some (_determine_level (non_ml_total b) c) in
  let '(explanation, contributing) := _explain b known anomaly behavior sig in
  let a := mk_assessment id flow_id source destination (sb_total b) (_determine_level (sb_total b) c)
             (_overall_confidence known anomaly behavior sig) enforceable known anomaly behavior sig
             explanation contributing assessed_at in
  if assessment_check a then Ok a else Raise (ValueError "ThreatAssessment")).

(** ** Decision (engine/decision.py) *)

Definition _ACTION_BY_LEVEL (l : ThreatLevel) : FirewallAction :=
  match l with LOW => ALLOW | MEDIUM => MONITOR | HIGH => RATE_LIMIT | CRITICAL => BLOCK end.
Definition _ACTION_RANK (a : FirewallAction) : Z := match a with ALLOW => 0 | MONITOR => 1 | RATE_LIMIT => 2 | BLOCK => 3 end.
Definition _MATURITY_GATED_ACTIONS : list FirewallAction := [RATE_LIMIT; BLOCK].
Definition _DEFAULT_KNOWN_ATTACK_CONFIDENCE : float := hundredths 80.

Record EvidenceMaturityTracker : Type := mk_maturity {
  mt_consistency_windows : Z;
  mt_max_tracked_sources : Z;
  mt_sources : list (IPv4.t * Z);
}.

(** [from_config] *)
Definition new_maturity (c : ThreatConfig) : EvidenceMaturityTracker :=
  mk_maturity (tc_evidence_maturity_consistency_windows c) (tc_max_tracked_maturity_sources c) [].

Definition maturity_observe (ip : IPv4.t) (t : EvidenceMaturityTracker) : bool * EvidenceMaturityTracker :=
  let d := mt_sources t in
  let count := Z.min (default 0 (dget d ip) + 1) (mt_consistency_windows t) in
  let d1 := if negb (dmem d ip) && (mt_max_tracked_sources t <=? Z.of_nat (length d)) then drop 1 d else d in
  (mt_consistency_windows t <=? count,
   mk_maturity (mt_consistency_windows t) (mt_max_tracked_sources t) (dmove_to_end (dset d1 ip count) ip)).

(** [max(ceiling, MONITOR, key=_ACTION_RANK.__getitem__)] keeps the first of
    two of the same rank. *)
Definition stronger (a b : FirewallAction) : FirewallAction := if _ACTION_RANK a <? _ACTION_RANK b then b else a.

Definition _ml_ceiling (a : ThreatAssessment) : option FirewallAction :=
  match ta_enforceable_level a with
  | None => None
  | Some l =>
      let ceiling := _ACTION_BY_LEVEL l in
      Some (if _ACTION_RANK MONITOR <=? _ACTION_RANK (_ACTION_BY_LEVEL (ta_threat_level a))
            then stronger ceiling MONITOR else ceiling)
  end.

(** Paths (a) and (b) of the gate. *)
Definition conclusive (a : ThreatAssessment) (threshold : float) : bool :=
  match ta_known_evidence a with
  | Some k => is_attack_label (ka_predicted_class k) && fle threshold (ka_confidence k)
  | None => false
  end
  || match ta_protocol_signature_evidence a with Some _ => true | None => false end
  || match ta_behavior_assessment a with
     | Some b => match ba_detected_patterns b with [] => false | _ => true end
     | None => false
     end.

Definition _has_mature_evidence (a : ThreatAssessment) (tracker : option EvidenceMaturityTracker) (threshold : float)
  : bool * option EvidenceMaturityTracker :=
  if conclusive a threshold then (true, tracker)
  else match tracker with
       | None => (false, None)
       | Some t => let '(b, t') := maturity_observe (ta_source_ip a) t in (b, Some t')
       end.

(** The action before the maturity gate, and its reason. *)
Definition capped_action (a : ThreatAssessment) : FirewallAction * string :=
  let action := _ACTION_BY_LEVEL (ta_threat_level a) in
  match _ml_ceiling a with
  | Some ceiling =>
      if _ACTION_RANK ceiling <? _ACTION_RANK action
      then (ceiling, ta_explanation a +:+ "; action capped at " +:+ action_value ceiling +:+ " (would be " +:+ action_value action
                     +:+ "): ML evidence alone may not enforce (threat.ml_evidence_can_enforce = false)")
      else (action, ta_explanation a)
  | None => (action, ta_explanation a)
  end.

Definition decide_threat (a : ThreatAssessment) (id : string) (decided_at : Z) (tracker : option EvidenceMaturityTracker)
  (threshold : float) : FirewallDecision * option EvidenceMaturityTracker :=
  let '(action, reason) := capped_action a in
  let '(mature, tracker') := if inb action _MATURITY_GATED_ACTIONS then _has_mature_evidence a tracker threshold
                             else (true, tracker) in
  (mk_decision id (ta_id a) (Some (ta_flow_id a)) (if mature then action else MONITOR) (ta_threat_score a)
     (ta_threat_level a) reason (ta_contributing_evidence a) decided_at, tracker').

(** ** Candidate rules (firewall/generator.py) *)

Definition _unicast_or_none (mac : option string) : option Mac.t := mac ≫= Mac.validate_unicast.

Definition _target_mac (flow : Flow) (resolve_mac : option (IPv4.t → option Mac.t)) : option Mac.t :=
  match (match resolve_mac with Some f => f (fl_source_ip flow) | None => None end) with
  | None => None
  | Some bound =>
      match _unicast_or_none (fl_source_mac flow) with
      | Some observed => if bool_decide (observed = bound) then Some bound else Some observed
      | None => Some bound
      end
  end.

Definition generate_candidate_rule (d : FirewallDecision) (flow : Flow) (created_at default_ttl_seconds : Z)
  (resolve_mac : option (IPv4.t → option Mac.t)) (rule_id : string) : option CandidateRule :=
  match fd_action d with
  | ALLOW => None
  | action =>
      Some (mk_candidate
        (mk_rule_fields action INBOUND (IPv4.host (fl_source_ip flow)) (IPv4.host (fl_destination_ip flow)) (fl_protocol flow)
           None (fl_destination_port flow) (fd_reason d) (Some (fd_threat_score d)) (fd_evidence d) []
           (Some (mk_target (fl_source_ip flow) (_target_mac flow resolve_mac))))
        rule_id (fd_id d) created_at (Some (created_at + seconds default_ttl_seconds)) CANDIDATE)
  end.

(** ** The ceiling on machine-learning evidence *)

Lemma determine_level_reaches c score l : threat_config_wf c → _determine_level score c = l →
  match l with
  | LOW => True
  | MEDIUM => fle (tc_medium_threshold c) score = true
  | HIGH => fle (tc_high_threshold c) score = true
  | CRITICAL => fle (tc_high_threshold c) score = true ∧ fle (tc_critical_threshold c) score = true
  end.
Proof.
  intros (_ & _ & _ & _ & _ & _ & _ & _ & _ & _ & _ & _ & Hhc) <-. unfold _determine_level.
  destruct (fle (tc_critical_threshold c) score) eqn:Hc.
  - split; [exact (fle_trans _ _ _ (flt_fle _ _ Hhc) Hc)|reflexivity].
  - destruct (fle (tc_high_threshold c) score) eqn:Hh; [reflexivity|].
    destruct (fle (tc_medium_threshold c) score) eqn:Hm; [reflexivity|exact I].
Qed.

(** Nothing above the level the deterministic evidence reaches, but for
    MONITOR. *)
Lemma capped_below_ceiling a l : restrictive (capped_action a).1 = true → ta_enforceable_level a = Some l →
  _ACTION_RANK (capped_action a).1 ≤ _ACTION_RANK (_ACTION_BY_LEVEL l).
Proof.
  intros Hr Hl. revert Hr. unfold capped_action, _ml_ceiling, stronger. rewrite Hl.
  destruct (ta_threat_level a), l; cbn; (lia || done).
Qed.

Lemma decided_action a id now tracker thr : restrictive (fd_action (decide_threat a id now tracker thr).1) = true →
  fd_action (decide_threat a id now tracker thr).1 = (capped_action a).1 ∧ restrictive (capped_action a).1 = true ∧
  (_has_mature_evidence a tracker thr).1 = true.
Proof.
  unfold decide_threat. destruct (capped_action a) as [action reason]. cbn [fst].
  destruct action; cbn [inb existsb _MATURITY_GATED_ACTIONS]; rewrite ?bool_decide_false, ?bool_decide_true by done; cbn;
    try done; destruct (_has_mature_evidence a tracker thr) as [[] t']; cbn; done.
Qed.

(** What a restrictive decision rests on. *)
Lemma ml_ceiling_holds c id flow_id src dst known anomaly behavior now sig a did tracker thr :
  threat_config_wf c → tc_ml_evidence_can_enforce c = false →
  assess_threat c id flow_id src dst known anomaly behavior now sig = Ok a →
  restrictive (fd_action (decide_threat a did now tracker thr).1) = true →
  (is_Some sig ∨ ∃ b p, behavior = Some b ∧ p ∈ ba_detected_patterns b) ∧
  ∃ b, score_evidence c known anomaly behavior sig = Ok b ∧ fle (tc_high_threshold c) (non_ml_total b) = true ∧
    (fd_action (decide_threat a did now tracker thr).1 = BLOCK → fle (tc_critical_threshold c) (non_ml_total b) = true).
Proof.
  intros Hwf Hml Ha Hres. apply decided_action in Hres as (-> & Hres & _).
  unfold assess_threat, rbind in Ha. rewrite Hml in Ha. destruct (score_evidence c known anomaly behavior sig) as [b|e] eqn:Hsc; [|done].
  destruct (_explain _ _ _ _ _) as [ex contrib]. destruct (assessment_check _); [|done]. injection Ha as <-.
  pose proof (capped_below_ceiling _ (_determine_level (non_ml_total b) c) Hres eq_refl) as Hrank.
  set (action := (capped_action _).1) in *. pose proof (determine_level_reaches c (non_ml_total b) _ Hwf eq_refl) as Hlev.
  assert (Hhigh : fle (tc_high_threshold c) (non_ml_total b) = true ∧ (action = BLOCK → fle (tc_critical_threshold c) (non_ml_total b) = true)).
  { clearbody action. destruct (_determine_level (non_ml_total b) c), action; cbn [_ACTION_RANK _ACTION_BY_LEVEL] in Hrank; try lia;
      cbn in Hres; try discriminate Hres; split; try exact Hlev; try exact (proj1 Hlev); try exact (λ _, proj2 Hlev); intros [=]. }
  split; [|exact (ex_intro _ b (conj eq_refl Hhigh))]. destruct Hhigh as [Hhigh _].
  destruct sig as [s|]; [left; eauto|right].
  destruct behavior as [ba|]; [exists ba; destruct (ba_detected_patterns ba) as [|p ps] eqn:Hps; [|exists p; set_solver]|];
    exfalso; unfold score_evidence, behavior_contribution, rbind in Hsc; rewrite ?Hps in Hsc; injection Hsc as <-;
    destruct Hwf as (_ & [Hm0 _] & _ & _ & _ & _ & _ & _ & _ & _ & _ & Hmh & _);
    (assert (Hz : fle (tc_high_threshold c) (float_of_Z 0) = true) by exact Hhigh);
    pose proof (fle_not_flt _ _ (fle_trans _ _ _ Hz Hm0)); congruence.
Qed.

(** On the v1 path machine learning never enforces: unless the
    configuration lets it, a RATE_LIMIT or BLOCK is decided only when the
    deterministic evidence alone (behaviour patterns and protocol
    signatures) reaches the high threshold, and the critical one for a
    BLOCK; whatever the classifier and the anomaly detector said. *)
Theorem ml_evidence_never_enforces c id flow_id src dst known anomaly behavior now sig a did tracker thr :
  threat_config_wf c → tc_ml_evidence_can_enforce c = false →
  assess_threat c id flow_id src dst known anomaly behavior now sig = Ok a →
  restrictive (fd_action (decide_threat a did now tracker thr).1) = true →
  (is_Some sig ∨ ∃ b p, behavior = Some b ∧ p ∈ ba_detected_patterns b) ∧
  ∃ b, score_evidence c known anomaly behavior sig = Ok b ∧ fle (tc_high_threshold c) (non_ml_total b) = true ∧
    (fd_action (decide_threat a did now tracker thr).1 = BLOCK → fle (tc_critical_threshold c) (non_ml_total b) = true).
Proof. apply ml_ceiling_holds. Qed.

(** ** The evidence-maturity gate *)

(** An assessment that would act without conclusive evidence. *)
Definition weak_attempt (thr : float) (a : ThreatAssessment) : bool :=
  inb (capped_action a).1 _MATURITY_GATED_ACTIONS && negb (conclusive a thr).

Definition attempts (thr : float) (ip : IPv4.t) (past : list ThreatAssessment) : Z :=
  Z.of_nat (length (filter (λ a, weak_attempt thr a = true ∧ ta_source_ip a = ip) past)).

Definition weak_sources (thr : float) (past : list ThreatAssessment) : list IPv4.t :=
  dedup (ta_source_ip <$> filter (λ a, weak_attempt thr a = true) past).

(** The tracker after a run of decisions. *)
Definition after_decisions (thr : float) (t : EvidenceMaturityTracker) (past : list ThreatAssessment) : EvidenceMaturityTracker :=
  foldl (λ t a, default t (decide_threat a "" 0 (Some t) thr).2) t past.

Lemma gated_restrictive a : inb a _MATURITY_GATED_ACTIONS = restrictive a.
Proof. by destruct a. Qed.

(** A decision moves the tracker exactly on weak attempts. *)
Lemma decide_tracker a id now t thr :
  (decide_threat a id now (Some t) thr).2 =
  Some (if weak_attempt thr a then (maturity_observe (ta_source_ip a) t).2 else t).
Proof.
  unfold decide_threat, weak_attempt. destruct (capped_action a) as [action reason]. cbn [fst].
  destruct (inb action _MATURITY_GATED_ACTIONS); [|done]. unfold _has_mature_evidence. destruct (conclusive a thr); [done|].
  by destruct (maturity_observe _ t).
Qed.

Lemma attempts_snoc thr ip past a : attempts thr ip (past ++ [a]) =
  attempts thr ip past + (if decide (weak_attempt thr a = true ∧ ta_source_ip a = ip) then 1 else 0).
Proof. unfold attempts. rewrite filter_app, length_app. rewrite filter_cons, filter_nil. case_decide; cbn; lia. Qed.

Lemma weak_sources_elem thr past ip : ip ∈ weak_sources thr past ↔ 0 < attempts thr ip past.
Proof.
  unfold weak_sources, attempts. rewrite elem_of_dedup, list_elem_of_fmap. split.
  - intros (a & -> & Ha). apply list_elem_of_filter in Ha as [Hw Ha].
    assert (Hin : a ∈ filter (λ a0, weak_attempt thr a0 = true ∧ ta_source_ip a0 = ta_source_ip a) past) by (by apply list_elem_of_filter).
    destruct (filter _ past); [set_solver|cbn; lia].
  - destruct (filter (λ a, weak_attempt thr a = true ∧ ta_source_ip a = ip) past) as [|a l] eqn:Hf; [cbn; lia|]. intros _.
    assert (Hin : a ∈ filter (λ a, weak_attempt thr a = true ∧ ta_source_ip a = ip) past) by (rewrite Hf; set_solver).
    apply list_elem_of_filter in Hin as [[Hw <-] Ha]. exists a. split; [done|]. by apply list_elem_of_filter.
Qed.

Lemma weak_sources_mono thr past a : (length (weak_sources thr past) ≤ length (weak_sources thr (past ++ [a])))%nat.
Proof.
  apply submseteq_length, NoDup_submseteq; [apply NoDup_dedup|]. intros ip. rewrite !weak_sources_elem, attempts_snoc. case_decide; lia.
Qed.

Lemma dget_drop1 {K V} `{EqDecision K} (d : list (K * V)) k v : dwf d → dget (drop 1 d) k = Some v → dget d k = Some v.
Proof.
  destruct d as [|[k0 v0] d]; [done|]. intros Hwf Hk. cbn in Hk |- *. case_decide as Heq; [|done]. subst k0.
  apply NoDup_cons in Hwf as [Hn _]. destruct Hn. apply (dget_is_Some d k). eauto.
Qed.

Record tracker_inv (thr : float) (W mx : Z) (past : list ThreatAssessment) (t : EvidenceMaturityTracker) : Prop := {
  ti_windows : mt_consistency_windows t = W;
  ti_max : mt_max_tracked_sources t = mx;
  ti_wf : dwf (mt_sources t);
  ti_bound : Z.of_nat (length (mt_sources t)) ≤ mx;
  ti_some ip n : dget (mt_sources t) ip = Some n → 0 < n ≤ Z.min (attempts thr ip past) W;
  ti_exact ip : Z.of_nat (length (weak_sources thr past)) ≤ mx → 0 < attempts thr ip past →
    dget (mt_sources t) ip = Some (Z.min (attempts thr ip past) W);
}.

Lemma attempts_nonneg thr ip past : 0 ≤ attempts thr ip past.
Proof. unfold attempts. lia. Qed.

(** The entries of the table never outnumber the sources that tried. *)
Lemma tracked_le_sources thr W mx past t : tracker_inv thr W mx past t →
  (length (mt_sources t) ≤ length (weak_sources thr past))%nat.
Proof.
  intros Hi. rewrite <- (length_fmap fst). apply submseteq_length, NoDup_submseteq; [apply (ti_wf _ _ _ _ _ Hi)|].
  intros ip Hin. apply weak_sources_elem. fold (dkeys (mt_sources t)) in Hin. apply dget_is_Some in Hin as [n Hn].
  apply (ti_some _ _ _ _ _ Hi) in Hn. lia.
Qed.

(** The count a weak attempt reaches. *)
Definition next_count (t : EvidenceMaturityTracker) (ip : IPv4.t) : Z :=
  Z.min (default 0 (dget (mt_sources t) ip) + 1) (mt_consistency_windows t).

Lemma next_count_bounds thr W mx past t a : 0 < W → tracker_inv thr W mx past t → weak_attempt thr a = true →
  0 < next_count t (ta_source_ip a) ≤ Z.min (attempts thr (ta_source_ip a) (past ++ [a])) W ∧
  (Z.of_nat (length (weak_sources thr past)) ≤ mx →
   next_count t (ta_source_ip a) = Z.min (attempts thr (ta_source_ip a) (past ++ [a])) W).
Proof.
  intros HW Hi Hw. unfold next_count. rewrite (ti_windows _ _ _ _ _ Hi), attempts_snoc, decide_True by done.
  set (ip := ta_source_ip a). pose proof (attempts_nonneg thr ip past). split.
  - destruct (dget (mt_sources t) ip) as [n|] eqn:Hn; cbn; [apply (ti_some _ _ _ _ _ Hi) in Hn|]; lia.
  - intros Hl. destruct (Z.eq_dec (attempts thr ip past) 0) as [Hz|Hnz].
    + destruct (dget (mt_sources t) ip) as [n|] eqn:Hn; cbn; [apply (ti_some _ _ _ _ _ Hi) in Hn; lia|]. by rewrite Hz.
    + rewrite (ti_exact _ _ _ _ _ Hi ip Hl) by lia. cbn. lia.
Qed.

Lemma weak_attempt_inv thr W mx past t a : 0 < W → 0 < mx → tracker_inv thr W mx past t → weak_attempt thr a = true →
  tracker_inv thr W mx (past ++ [a]) (maturity_observe (ta_source_ip a) t).2.
Proof.
  intros HW Hmx Hi Hw. destruct (next_count_bounds _ _ _ _ _ a HW Hi Hw) as [Hb Hex]. pose proof (tracked_le_sources _ _ _ _ _ Hi) as Hle.
  unfold maturity_observe. fold (next_count t (ta_source_ip a)). set (ip := ta_source_ip a) in *. set (cnt := next_count t ip) in *.
  set (evict := negb _ && _). set (d1 := if evict then _ else _). destruct Hi as [Hw0 Hm0 Hwf Hbd Hsome Hexact].
  assert (Hwf1 : dwf d1) by (unfold d1; destruct evict; [|done]; destruct (mt_sources t) as [|p d]; [done|exact (dwf_tail (p :: d) Hwf)]).
  assert (Hget1 : ∀ k n, dget d1 k = Some n → dget (mt_sources t) k = Some n) by (unfold d1; destruct evict; [intros k n; by apply dget_drop1|done]).
  assert (Hnoev : Z.of_nat (length (weak_sources thr (past ++ [a]))) ≤ mx → evict = false).
  { intros Hl. unfold evict. destruct (dmem (mt_sources t) ip) eqn:Hmem; [done|]. cbn [negb andb]. apply Z.leb_gt. rewrite Hm0.
    assert (Hlt : (length (ip :: weak_sources thr past) ≤ length (weak_sources thr (past ++ [a])))%nat); [|cbn in Hlt; lia].
    pose proof (weak_sources_mono thr past a) as Hmono.
    assert (Hnot : ip ∉ weak_sources thr past).
    { rewrite weak_sources_elem. intros Hp. rewrite <- not_true_iff_false, dmem_true in Hmem. destruct Hmem.
      rewrite (Hexact ip); [by eexists|lia|done]. }
    apply submseteq_length, NoDup_submseteq; [constructor; [done|apply NoDup_dedup]|].
    intros k. rewrite elem_of_cons, !weak_sources_elem, attempts_snoc. pose proof (attempts_nonneg thr k past). intros [Heq|Hk]; case_decide as Hd; try lia. subst k. naive_solver. }
  split; cbn; rewrite ?Hw0, ?Hm0; try done.
  - by apply dwf_move_to_end, dwf_set.
  - rewrite dmove_length by (by apply dwf_set). rewrite dset_length. unfold d1, evict.
    destruct (dmem (mt_sources t) ip) eqn:Hmem; cbn [negb andb].
    + rewrite decide_True by (by apply dget_is_Some, dmem_true). lia.
    + rewrite Hm0. destruct (mx <=? _) eqn:Hfull; [apply Z.leb_le in Hfull|apply Z.leb_gt in Hfull]; case_decide; rewrite ?length_drop; lia.
  - intros k n. rewrite dget_move_to_end, dget_set. case_decide as Hk.
    + intros [= <-]. subst k. exact Hb.
    + intros Hn. apply Hget1, Hsome in Hn. rewrite attempts_snoc. case_decide; lia.
  - intros k Hl Hp. rewrite dget_move_to_end, dget_set. pose proof (weak_sources_mono thr past a) as Hmono. case_decide as Hk.
    + subst k. f_equal. apply Hex. lia.
    + rewrite attempts_snoc, decide_False in Hp |- * by naive_solver. unfold d1. rewrite (Hnoev Hl), Z.add_0_r. apply Hexact; lia.
Qed.

Lemma after_decisions_inv c thr past : threat_config_wf c →
  tracker_inv thr (tc_evidence_maturity_consistency_windows c) (tc_max_tracked_maturity_sources c) past
    (after_decisions thr (new_maturity c) past).
Proof.
  intros (_ & _ & _ & _ & _ & _ & _ & _ & HW & Hmx & _). induction past as [|a past IH] using rev_ind.
  { split; try done; [constructor|cbn; lia]. }
  unfold after_decisions in *. rewrite foldl_app. cbn [foldl]. rewrite decide_tracker. cbn [default].
  destruct (weak_attempt thr a) eqn:Hw; [by apply weak_attempt_inv|]. destruct IH as [H1 H2 H3 H4 H5 H6].
  assert (Heq : ∀ ip, attempts thr ip (past ++ [a]) = attempts thr ip past).
  { intros ip. rewrite attempts_snoc, decide_False; [lia|]. rewrite Hw. naive_solver. }
  assert (Hws : weak_sources thr (past ++ [a]) = weak_sources thr past).
  { unfold weak_sources. rewrite filter_app, filter_cons_False, filter_nil, app_nil_r by (by rewrite Hw). done. }
  split; try done; intros ip; rewrite Heq, ?Hws; auto.
Qed.

(** The maturity gate, over any history of assessments: a RATE_LIMIT or
    BLOCK rests on conclusive evidence (an attack class at or above the
    threshold, a protocol signature, a behaviour pattern) or is at least the
    configured-th attempt without it by the same source; when the sources
    that ever tried fit the tracker, exactly those decisions pass and every
    other one is downgraded to MONITOR; and the tracker never holds more
    sources than configured. *)
Theorem maturity_gate_exact c thr past a id now :
  threat_config_wf c →
  let t := after_decisions thr (new_maturity c) past in
  let d := (decide_threat a id now (Some t) thr).1 in
  let justified := conclusive a thr = true ∨
    tc_evidence_maturity_consistency_windows c ≤ attempts thr (ta_source_ip a) (past ++ [a]) in
  Z.of_nat (length (mt_sources t)) ≤ tc_max_tracked_maturity_sources c ∧
  (restrictive (fd_action d) = true → justified) ∧
  (Z.of_nat (length (weak_sources thr (past ++ [a]))) ≤ tc_max_tracked_maturity_sources c →
   restrictive (capped_action a).1 = true →
   justified ∧ fd_action d = (capped_action a).1 ∨ ¬ justified ∧ fd_action d = MONITOR).
Proof.
  intros Hwf t d justified. pose proof (after_decisions_inv c thr past Hwf) as Hi. fold t in Hi.
  pose proof Hwf as (_ & _ & _ & _ & _ & _ & _ & _ & HW & Hmx & _). split; [apply Hi|].
  unfold d, decide_threat. destruct (capped_action a) as [action reason] eqn:Hcap. cbn [fst]. rewrite gated_restrictive.
  destruct (restrictive action) eqn:Hres; [|cbn; rewrite Hres; done]. unfold _has_mature_evidence, justified.
  destruct (conclusive a thr) eqn:Hcon; [cbn; naive_solver|].
  assert (Hw : weak_attempt thr a = true) by (unfold weak_attempt; by rewrite Hcap, gated_restrictive, Hcon; cbn [fst]; rewrite Hres).
  destruct (next_count_bounds _ _ _ _ _ a HW Hi Hw) as [Hb Hex]. unfold maturity_observe. fold (next_count t (ta_source_ip a)).
  rewrite (ti_windows _ _ _ _ _ Hi). pose proof (weak_sources_mono thr past a) as Hmono.
  destruct (_ <=? next_count t _) eqn:Hle; [apply Z.leb_le in Hle|apply Z.leb_gt in Hle]; cbn.
  - split; [intros _; right; lia|]. intros _ _. left. split; [right; lia|done].
  - split; [done|]. intros Hl _. right. split; [|done]. intros [?|Hat]; [done|]. rewrite Hex in Hle; lia.
Qed.

(** ** Candidate rules *)

(** The MAC a candidate names. *)
Lemma target_mac_spec flow resolve : (∀ ip m, resolve ip = Some m → Mac.unicast m) →
  (∀ m, _target_mac flow (Some resolve) = Some m → Mac.unicast m) ∧
  match resolve (fl_source_ip flow), fl_source_mac flow ≫= Mac.validate_unicast with
  | None, _ => _target_mac flow (Some resolve) = None
  | Some bound, Some sender => _target_mac flow (Some resolve) = Some sender
  | Some bound, None => _target_mac flow (Some resolve) = Some bound
  end.
Proof.
  intros Hres. unfold _target_mac, _unicast_or_none. destruct (resolve (fl_source_ip flow)) as [b|] eqn:Hb; [|done].
  destruct (fl_source_mac flow ≫= Mac.validate_unicast) as [o|] eqn:Ho.
  - assert (Hu : Mac.unicast o) by (apply bind_Some in Ho as (x & _ & Hx); by eapply Mac.validate_unicast_idempotent).
    case_bool_decide; subst; (split; [|done]); intros m [= <-]; done.
  - split; [|done]. intros m [= <-]. by eapply Hres.
Qed.

Lemma host_rule_wf action src dst proto port reason score evidence mac :
  IPv4.valid src → IPv4.valid dst → port_wf port → (∀ m, mac = Some m → Mac.unicast m) →
  rule_fields_wf (mk_rule_fields action INBOUND (IPv4.host src) (IPv4.host dst) proto None port reason score evidence []
                    (Some (mk_target src mac))).
Proof.
  intros Hs Hd Hp Hm. assert (Hh : ∀ a, IPv4.valid a → IPv4.wf (IPv4.host a)) by (intros a Ha; split; [done|]; split; [cbn; lia|apply Z.land_0_r]).
  unfold rule_fields_wf. cbn. split; [by apply Hh|]. split; [by apply Hh|]. split; [done|]. split; [done|].
  split; [intros t [= <-]; by split|by apply bool_decide_eq_true].
Qed.

(** A candidate rule is as narrow as the flow it comes from and names the
    device that sent it: ALLOW gives none; otherwise the rule is well formed,
    matches one source and one destination address, expires after the
    default lifetime, and its target is the source address with the MAC bound
    to it, unless the opening frame carried another unicast MAC, in which
    case it is the sender's and never the address owner's; an unbound source
    gets no MAC at all. *)
Theorem candidate_names_the_sender d flow created ttl resolve rule_id :
  IPv4.valid (fl_source_ip flow) → IPv4.valid (fl_destination_ip flow) → port_wf (fl_destination_port flow) →
  (∀ ip m, resolve ip = Some m → Mac.unicast m) →
  match generate_candidate_rule d flow created ttl (Some resolve) rule_id with
  | None => fd_action d = ALLOW
  | Some r =>
      fd_action d ≠ ALLOW ∧ rf_action r = fd_action d ∧ rule_fields_wf r ∧ cr_decision_id r = fd_id d ∧
      rf_source r = IPv4.host (fl_source_ip flow) ∧ rf_destination r = IPv4.host (fl_destination_ip flow) ∧
      cr_expires_at r = Some (created + seconds ttl) ∧
      ∃ mac, rf_target r = Some (mk_target (fl_source_ip flow) mac) ∧
        match resolve (fl_source_ip flow), fl_source_mac flow ≫= Mac.validate_unicast with
        | None, _ => mac = None
        | Some bound, Some sender => mac = Some sender
        | Some bound, None => mac = Some bound
        end
  end.
Proof.
  intros Hs Hd Hp Hres. destruct (target_mac_spec flow resolve Hres) as [Hu Hmac]. unfold generate_candidate_rule.
  destruct (fd_action d); [done|..]; (do 2 (split; [done|])); (split; [by apply host_rule_wf|]); (do 4 (split; [done|]));
    (eexists; split; [reflexivity|]); destruct (resolve _); [|done| |done| |done]; by destruct (_ ≫= _).
Qed.

(** ** The shipped defaults *)

Definition default_threat_config : ThreatConfig :=
  mk_threat_config (float_of_Z 25) (float_of_Z 50) (float_of_Z 75) (float_of_Z 90) (float_of_Z 60) (float_of_Z 15) (float_of_Z 80)
    [(SCANNING, float_of_Z 55); (REPEATED_FAILURES, float_of_Z 45); (P_SLOW_RATE_DOS, float_of_Z 45); (FLOOD, float_of_Z 80);
     (BURST, float_of_Z 10); (HIGH_FREQUENCY, float_of_Z 10); (REPEATED_CONNECTIONS, float_of_Z 5);
     (TEMPORAL_PATTERN, float_of_Z 10); (DESTINATION_DIVERSITY, float_of_Z 5); (PERSISTENCE, float_of_Z 0)]
    (float_of_Z 75) 3 10000 false.

Lemma default_threat_config_wf : threat_config_wf default_threat_config.
Proof. unfold threat_config_wf, score_range. repeat split; vm_compute; congruence. Qed.

(** A scan with bursts, and a confident classification of the same flow. *)
Definition scan_behavior : BehaviorAssessment :=
  mk_behavior 7 [HIGH_FREQUENCY; BURST; SCANNING] (hundredths 30) "12 distinct ports on a single destination" 0 0.
Definition bot_verdict : KnownEvidence := mk_known "f" "Bot" (hundredths 99) [] None "0.4.0" "2.0.0" 0.
Definition odd_flow : AnomalyEvidence := mk_anom_ev "f" (hundredths 20) (hundredths 0) true "0.4.0" "2.0.0" 0.

Definition assessment_or (r : result ThreatAssessment) : ThreatAssessment :=
  match r with
  | Ok a => a
  | Raise _ => mk_assessment "" "" 0 0 f0 LOW f0 None None None None None "" [] 0
  end.
Definition assess_default (id : string) known anomaly behavior sig : ThreatAssessment :=
  assessment_or (assess_threat default_threat_config id "f" 7 9 known anomaly behavior 0 sig).

Definition scan_assessment : ThreatAssessment := assess_default "t" (Some bot_verdict) None (Some scan_behavior) None.

Example scan_is_capped : fd_action (decide_threat scan_assessment "d" 0 None _DEFAULT_KNOWN_ATTACK_CONFIDENCE).1 = RATE_LIMIT ∧
  ta_threat_level scan_assessment = CRITICAL ∧
  fd_action (decide_threat (assess_default "u" (Some bot_verdict) (Some odd_flow) None None) "d" 0 None _DEFAULT_KNOWN_ATTACK_CONFIDENCE).1 = MONITOR.
Proof. vm_compute. done. Qed.

Lemma ml_evidence_never_enforces_witness : ∃ b p, Some scan_behavior = Some b ∧ p ∈ ba_detected_patterns b.
Proof.
  refine (match proj1 (ml_evidence_never_enforces default_threat_config "t" "f" 7 9 (Some bot_verdict) None (Some scan_behavior) 0 None
    scan_assessment "d" None _DEFAULT_KNOWN_ATTACK_CONFIDENCE default_threat_config_wf eq_refl _ _) with
    | or_introl (ex_intro _ _ H) => match eq_ind None (λ o, match o with None => True | Some _ => False end) I _ H with end
    | or_intror H => H
    end); vm_compute; reflexivity.
Defined.

(** Weights under which an anomaly alone acts: only the gate is left. *)
Definition anomaly_heavy : ThreatConfig :=
  mk_threat_config (float_of_Z 25) (float_of_Z 50) (float_of_Z 75) (float_of_Z 90) (float_of_Z 60) (float_of_Z 80) (float_of_Z 80) []
    (float_of_Z 75) 3 2 true.

Lemma anomaly_heavy_wf : threat_config_wf anomaly_heavy.
Proof. unfold threat_config_wf, score_range. repeat split; vm_compute; congruence. Qed.

Definition anomaly_assessment : ThreatAssessment :=
  assessment_or (assess_threat anomaly_heavy "t" "f" 7 9 None (Some odd_flow) None 0 None).

Lemma maturity_gate_exact_witness :
  fd_action (decide_threat anomaly_assessment "d" 0
    (Some (after_decisions _DEFAULT_KNOWN_ATTACK_CONFIDENCE (new_maturity anomaly_heavy) [anomaly_assessment])) _DEFAULT_KNOWN_ATTACK_CONFIDENCE).1
  = MONITOR ∧
  3 ≤ attempts _DEFAULT_KNOWN_ATTACK_CONFIDENCE 7 [anomaly_assessment; anomaly_assessment; anomaly_assessment].
Proof.
  split; [vm_compute; reflexivity|].
  destruct (maturity_gate_exact anomaly_heavy _DEFAULT_KNOWN_ATTACK_CONFIDENCE [anomaly_assessment; anomaly_assessment] anomaly_assessment "d" 0
    anomaly_heavy_wf) as (_ & Hj & _).
  destruct Hj as [Hc|Ha]; [vm_compute; reflexivity| |exact Ha]. vm_compute in Hc. discriminate Hc.
Defined.

Definition sample_v1_flow (mac : option string) : Flow :=
  mk_flow 7 9 (Some 4000) (Some 80) TCP 0 0 1 60 1 0 60 0 [1; 0; 0; 0; 0; 0] (mk_size_stats 60 60 f0 f0) (mk_arrival f0 f0 f0 f0) true mac None None.

Definition bound_to (mac : Mac.t) : IPv4.t → option Mac.t := λ ip, if ip =? 7 then Some mac else None.

Lemma candidate_names_the_sender_witness :
  ∃ r, generate_candidate_rule (decide_threat scan_assessment "d" 0 None _DEFAULT_KNOWN_ATTACK_CONFIDENCE).1
         (sample_v1_flow (Some "02:00:00:00:00:99")) 0 600 (Some (bound_to "02:00:00:00:00:20")) "r" = Some r ∧
    rf_target r = Some (mk_target 7 (Some "02:00:00:00:00:99")) ∧ rf_source r = IPv4.host 7.
Proof.
  pose proof (candidate_names_the_sender (decide_threat scan_assessment "d" 0 None _DEFAULT_KNOWN_ATTACK_CONFIDENCE).1
    (sample_v1_flow (Some "02:00:00:00:00:99")) 0 600 (bound_to "02:00:00:00:00:20") "r") as Hs.
  destruct (generate_candidate_rule _ _ _ _ _ _) as [r|] eqn:Hg; [|vm_compute in Hg; discriminate Hg].
  exists r. split; [reflexivity|]. destruct Hs as (_ & _ & _ & _ & Hsrc & _ & _ & mac & Ht & Hmac).
  - split; vm_compute; congruence.
  - split; vm_compute; congruence.
  - intros n [= <-]. lia.
  - intros ip m. unfold bound_to. destruct (ip =? 7); [|done]. intros [= <-]. vm_compute. reflexivity.
  - split; [|exact Hsrc]. rewrite Ht. vm_compute in Hmac. rewrite Hmac. reflexivity.
Defined.
