(* ===== verification/Tls.v ===== *)
(** * TLS structural detectors (detection/tls_heartbeat.py, detection/tls_fingerprint.py)

    The Heartbleed length check and the JA3 fingerprint of a ClientHello,
    both over the raw bytes of one TCP segment.  Buffers, slices and indexing
    are those of [Parser].  The loop over the extensions block runs on fuel;
    [extensions_loop_terminates] gives the number of iterations it can take.
    The theorems compare both detectors with the wire format: a Heartbleed
    match is exactly a complete heartbeat record whose claimed length exceeds
    what it holds, and the fingerprint of an encoded ClientHello is the JA3
    string of its fields with the GREASE values left out. *)

From S2P Require Import Prelude Float Net Hex Models Flow Parser.
Local Open Scope Z_scope.

(** ** Heartbleed *)

Definition _RECORD_HEADER_LEN : Z := 5.
Definition _CONTENT_TYPE_HEARTBEAT : Z := 24.
Definition _HEARTBEAT_HEADER_LEN : Z := 3.
Definition _LEGAL_VERSIONS : list Z := [768; 769; 770; 771; 772].   (* 0x0300 .. 0x0304 *)
Definition _MAX_RECORD_LENGTH : Z := 2 ^ 14 + 256.
Definition _HEARTBEAT_REQUEST : Z := 1.
Definition _HEARTBEAT_RESPONSE : Z := 2.
Definition _LEGAL_HEARTBEAT_TYPES : list Z := [_HEARTBEAT_REQUEST; _HEARTBEAT_RESPONSE].

Record HeartbleedMatch : Type := mk_heartbleed { hb_claimed_payload_length : Z; hb_available_bytes : Z }.

Definition _check_heartbleed (payload : bytes) : result (option HeartbleedMatch) :=
  if len payload <? _RECORD_HEADER_LEN then mret None
  else
    content_type ← byte_at payload 0;
    if negb (content_type =? _CONTENT_TYPE_HEARTBEAT) then mret None
    else
      version ← unpack_H (slice payload 1 3);
      if negb (inb version _LEGAL_VERSIONS) then mret None
      else
        declared_length ← unpack_H (slice payload 3 5);
        if (declared_length <? _HEARTBEAT_HEADER_LEN) || (_MAX_RECORD_LENGTH <? declared_length) then mret None
        else if len payload <? _RECORD_HEADER_LEN + declared_length then mret None
        else
          let fragment := slice payload _RECORD_HEADER_LEN (_RECORD_HEADER_LEN + declared_length) in
          if len fragment <? _HEARTBEAT_HEADER_LEN then mret None
          else
            message_type ← byte_at fragment 0;
            if negb (inb message_type _LEGAL_HEARTBEAT_TYPES) then mret None
            else
              claimed_payload_length ← unpack_H (slice fragment 1 3);
              let available_bytes := declared_length - _HEARTBEAT_HEADER_LEN in
              if available_bytes <? claimed_payload_length
              then mret (Some (mk_heartbleed claimed_payload_length available_bytes))
              else mret None.

(** [try: ... except Exception: return None] *)
Definition quietly {A} (r : result (option A)) : option A := match r with Ok o => o | Raise _ => None end.

Definition check_heartbleed (payload : bytes) : option HeartbleedMatch := quietly (_check_heartbleed payload).

(** ** JA3 *)

Definition _HANDSHAKE_CONTENT_TYPE : Z := 22.
Definition _CLIENT_HELLO_HANDSHAKE_TYPE : Z := 1.
Definition _RANDOM_LEN : Z := 32.
Definition _EXT_SUPPORTED_GROUPS : Z := 10.
Definition _EXT_EC_POINT_FORMATS : Z := 11.

Definition _is_grease (value : Z) : bool :=
  let high := Z.shiftr value 8 in
  let low := Z.land value 255 in
  (high =? low) && (Z.land low 15 =? 10).

Record ClientHelloFingerprint : Type := mk_fingerprint { ja3_string : string; ja3_hash : string }.
Record KnownToolMatch : Type := mk_tool_match { kt_tool : string; kt_ja3_hash : string }.

(** [struct.unpack(f"!{len(data) // 2}H", data)] on an even number of bytes *)
Fixpoint uint16s (data : bytes) : list Z :=
  match data with a :: b :: data => a * 256 + b :: uint16s data | _ => [] end.

Definition _parse_uint16_list (data : bytes) : list Z := if negb (len data mod 2 =? 0) then [] else uint16s data.

(** The three lists the loop over the extensions fills. *)
Record Extensions : Type := mk_exts { ex_types : list Z; ex_curves : list Z; ex_formats : list Z }.

Definition extension_fields (extension_type : Z) (extension_data : bytes) (acc : Extensions) : result Extensions :=
  let types := ex_types acc ++ [extension_type] in
  if (extension_type =? _EXT_SUPPORTED_GROUPS) && (2 <=? len extension_data) then
    list_length ← unpack_H (slice extension_data 0 2);
    mret (mk_exts types (_parse_uint16_list (slice extension_data 2 (2 + list_length))) (ex_formats acc))
  else if (extension_type =? _EXT_EC_POINT_FORMATS) && (1 <=? len extension_data) then
    list_length ← byte_at extension_data 0;
    mret (mk_exts types (ex_curves acc) (slice extension_data 1 (1 + list_length)))
  else mret (mk_exts types (ex_curves acc) (ex_formats acc)).

(** [while offset + 4 <= len(block)], [None] when the fuel runs out. *)
Fixpoint extensions_loop (fuel : nat) (block : bytes) (offset : Z) (acc : Extensions) : result (option Extensions) :=
  match fuel with
  | O => mret None
  | S fuel =>
      if offset + 4 <=? len block then
        extension_type ← unpack_H (slice block offset (offset + 2));
        extension_length ← unpack_H (slice block (offset + 2) (offset + 4));
        let extension_data := slice block (offset + 4) (offset + 4 + extension_length) in
        acc ← extension_fields extension_type extension_data acc;
        extensions_loop fuel block (offset + (4 + extension_length)) acc
      else mret (Some acc)
  end.

Definition _parse_extensions (remainder : bytes) : result Extensions :=
  if len remainder <? 2 then mret (mk_exts [] [] [])
  else
    extensions_length ← unpack_H (slice remainder 0 2);
    let block := slice remainder 2 (2 + extensions_length) in
    acc ← extensions_loop (S (length block)) block 0 (mk_exts [] [] []);
    mret (default (mk_exts [] [] []) acc).

Definition joined (sep : string) (values : list Z) : string := String.concat sep (pretty <$> values).
Definition not_grease (values : list Z) : list Z := filter (λ v, _is_grease v = false) values.

Definition ja3_text (version : Z) (cipher_suites : list Z) (e : Extensions) : string :=
  String.concat "," [pretty version; joined "-" (not_grease cipher_suites); joined "-" (not_grease (ex_types e));
    joined "-" (not_grease (ex_curves e)); joined "-" (ex_formats e)].

Definition _compute_ja3 (payload : bytes) : result (option ClientHelloFingerprint) :=
  if len payload <? 5 then mret None
  else
    content_type ← byte_at payload 0;
    if negb (content_type =? _HANDSHAKE_CONTENT_TYPE) then mret None
    else
      record_length ← unpack_H (slice payload 3 5);
      let fragment := slice payload 5 (5 + record_length) in
      if len fragment <? 4 then mret None
      else
        handshake_type ← byte_at fragment 0;
        if negb (handshake_type =? _CLIENT_HELLO_HANDSHAKE_TYPE) then mret None
        else
          let hello_length := be_value (slice fragment 1 4) in
          let body := slice fragment 4 (4 + hello_length) in
          let offset := 0 in
          if len body <? offset + 2 then mret None
          else
            client_version ← unpack_H (slice body offset (offset + 2));
            let offset := offset + (2 + _RANDOM_LEN) in
            if len body <? offset + 1 then mret None
            else
              session_id_length ← byte_at body offset;
              let offset := offset + (1 + session_id_length) in
              if len body <? offset + 2 then mret None
              else
                cipher_suites_length ← unpack_H (slice body offset (offset + 2));
                let offset := offset + 2 in
                let cipher_suites := _parse_uint16_list (slice body offset (offset + cipher_suites_length)) in
                let offset := offset + cipher_suites_length in
                if len body <? offset + 1 then mret None
                else
                  compression_methods_length ← byte_at body offset;
                  let offset := offset + (1 + compression_methods_length) in
                  extensions ← _parse_extensions (slice body offset (len body));
                  let text := ja3_text client_version cipher_suites extensions in
                  mret (Some (mk_fingerprint text (Md5.hexdigest text))).

Definition compute_ja3 (payload : bytes) : option ClientHelloFingerprint := quietly (_compute_ja3 payload).

Definition match_known_tool (fingerprint : ClientHelloFingerprint) (known_hashes : list (string * string))
  : option KnownToolMatch :=
  match dget known_hashes (ja3_hash fingerprint) with
  | Some tool => Some (mk_tool_match tool (ja3_hash fingerprint))
  | None => None
  end.

(** [config/known_tool_fingerprints.toml] as read: [None] when it is missing
    or not TOML, else its (hash, tool) entries, which must not be empty; one
    invalid entry refuses the file.  Hashes are ASCII. *)
Definition load_known_tool_fingerprints (parsed : option (list (string * string))) : list (string * string) :=
  match parsed with
  | None => []
  | Some entries =>
      if forallb (λ e, negb (String.eqb e.1 "") && negb (String.eqb e.2 "")) entries
      then foldl (λ d e, dset d (string_of_list (Mac.lower <$> string_to_list e.1)) e.2) [] entries else []
  end.

(** ** The wire format *)

Definition u16 (n : Z) : bytes := [n / 256; n mod 256].
Definition u16_ok (n : Z) : Prop := 0 ≤ n < 65536.

(** A heartbeat record that holds [body] and claims [claimed] bytes. *)
Definition heartbeat_record (version message_type claimed : Z) (body : bytes) : bytes :=
  _CONTENT_TYPE_HEARTBEAT :: u16 version ++ u16 (len body + 3) ++ message_type :: u16 claimed ++ body.

Lemma len_nil : len [] = 0.
Proof. done. Qed.
Lemma len_cons b bs : len (b :: bs) = 1 + len bs.
Proof. unfold len. cbn [length]. lia. Qed.
Lemma len_app bs bs' : len (bs ++ bs') = len bs + len bs'.
Proof. unfold len. rewrite length_app. lia. Qed.
Lemma len_u16 n : len (u16 n) = 2.
Proof. done. Qed.
Lemma len_pos bs : 0 ≤ len bs.
Proof. unfold len. lia. Qed.
#[local] Hint Rewrite len_nil len_cons len_app len_u16 : len_db.

Lemma u16_pack a b : byte_ok a → byte_ok b → u16 (a * 256 + b) = [a; b].
Proof. unfold byte_ok, u16. intros ? ?. f_equal; [|f_equal]; symmetry; [apply (Z.div_unique _ _ _ b)|apply (Z.mod_unique _ _ a)]; lia. Qed.
Lemma unpack_u16 n : unpack_H (u16 n) = Ok n.
Proof. unfold u16. cbn. f_equal. pose proof (Z.div_mod n 256). lia. Qed.
Lemma u16_of_bytes a b : byte_ok a → byte_ok b → u16_ok (a * 256 + b).
Proof. unfold byte_ok, u16_ok. lia. Qed.

Lemma slice_app a b c i j : len a = i → len b = j - i → slice (a ++ b ++ c) i j = b.
Proof.
  unfold slice, len. intros <- Hj. rewrite Nat2Z.id, drop_app_length. replace (j - Z.of_nat (length a)) with (Z.of_nat (length b)) by lia.
  by rewrite Nat2Z.id, take_app_length.
Qed.
Lemma byte_at_app a x c i : len a = i → byte_at (a ++ x :: c) i = Ok x.
Proof. unfold len, byte_at. intros <-. by rewrite Nat2Z.id, list_lookup_middle. Qed.

Lemma slice_two bs i : 0 ≤ i → i + 2 ≤ len bs → ∃ a b, slice bs i (i + 2) = [a; b] ∧ a ∈ bs ∧ b ∈ bs.
Proof.
  unfold slice, len. intros Hi Hl. replace (i + 2 - i) with 2 by lia. change (Z.to_nat 2) with 2%nat.
  destruct (drop (Z.to_nat i) bs) as [|a [|b l]] eqn:E; apply (f_equal length) in E as El; rewrite length_drop in El; cbn in El; try lia.
  exists a, b. split; [done|]. rewrite <- (take_drop (Z.to_nat i) bs), E. set_solver.
Qed.
Lemma byte_at_ok bs i : 0 ≤ i → i + 1 ≤ len bs → ∃ b, byte_at bs i = Ok b ∧ b ∈ bs.
Proof.
  unfold byte_at, len. intros Hi Hl. destruct (lookup_lt_is_Some_2 bs (Z.to_nat i)) as [b Hb]; [lia|].
  exists b. rewrite Hb. split; [done|]. by eapply list_elem_of_lookup_2.
Qed.
Lemma unpack_ok bs i : Forall byte_ok bs → 0 ≤ i → i + 2 ≤ len bs → ∃ n, unpack_H (slice bs i (i + 2)) = Ok n ∧ u16_ok n.
Proof.
  intros Hbs Hi Hl. destruct (slice_two bs i Hi Hl) as (a & b & -> & Ha & Hb). rewrite Forall_forall in Hbs.
  eexists. split; [done|]. apply u16_of_bytes; auto.
Qed.
Lemma slice_Forall P bs i j : Forall P bs → Forall P (slice bs i j).
Proof. intros H. unfold slice. by apply Forall_take, Forall_drop. Qed.

(** *** Heartbleed *)

Definition heartbleed_at (payload : bytes) (m : HeartbleedMatch) : Prop :=
  ∃ version message_type body rest,
    payload = heartbeat_record version message_type (hb_claimed_payload_length m) body ++ rest ∧
    version ∈ _LEGAL_VERSIONS ∧ message_type ∈ _LEGAL_HEARTBEAT_TYPES ∧
    len body + 3 ≤ _MAX_RECORD_LENGTH ∧ hb_available_bytes m = len body ∧
    len body < hb_claimed_payload_length m < 65536.

Lemma heartbleed_short payload : len payload < 8 → Forall byte_ok payload → _check_heartbleed payload = Ok None.
Proof.
  intros Hl Hb. unfold _check_heartbleed, mbind, result_bind, mret, result_ret, _RECORD_HEADER_LEN, _HEARTBEAT_HEADER_LEN.
  destruct (Z.ltb_spec (len payload) 5); [done|].
  destruct (byte_at_ok payload 0) as (c & -> & _); [lia..|]. cbn [rbind]. destruct (negb _); [done|].
  destruct (unpack_ok payload 1) as (v & Hv & _); [done|lia..|]. change (1 + 2) with 3 in Hv. rewrite Hv. cbn [rbind]. destruct (negb _); [done|].
  destruct (unpack_ok payload 3) as (d & Hd & _); [done|lia..|]. change (3 + 2) with 5 in Hd. rewrite Hd. cbn [rbind].
  destruct (Z.ltb_spec d 3); [done|]. cbn [orb]. destruct (_ <? d); [done|]. destruct (Z.ltb_spec (len payload) (5 + d)); [done|lia].
Qed.

Lemma heartbleed_long c v1 v2 d1 d2 t p1 p2 rest :
  let d := d1 * 256 + d2 in
  let claimed := p1 * 256 + p2 in
  _check_heartbleed (c :: v1 :: v2 :: d1 :: d2 :: t :: p1 :: p2 :: rest) =
  Ok (if bool_decide (c = 24 ∧ v1 * 256 + v2 ∈ _LEGAL_VERSIONS ∧ 3 ≤ d ≤ _MAX_RECORD_LENGTH ∧ d ≤ 3 + len rest ∧
        t ∈ _LEGAL_HEARTBEAT_TYPES ∧ d - 3 < claimed)
      then Some (mk_heartbleed claimed (d - 3)) else None).
Proof.
  intros d claimed. unfold _check_heartbleed, mbind, result_bind, mret, result_ret, _RECORD_HEADER_LEN, _HEARTBEAT_HEADER_LEN, _CONTENT_TYPE_HEARTBEAT.
  destruct (Z.ltb_spec (len (c :: v1 :: v2 :: d1 :: d2 :: t :: p1 :: p2 :: rest)) 5) as [Hl|_];
    [autorewrite with len_db in Hl; pose proof (len_pos rest); lia|].
  change (byte_at (c :: v1 :: v2 :: d1 :: d2 :: t :: p1 :: p2 :: rest) 0) with (Ok c). cbn [rbind].
  change (slice (c :: v1 :: v2 :: d1 :: d2 :: t :: p1 :: p2 :: rest) 1 3) with [v1; v2].
  change (slice (c :: v1 :: v2 :: d1 :: d2 :: t :: p1 :: p2 :: rest) 3 5) with [d1; d2]. cbn [unpack_H rbind].
  fold d. destruct (Z.eqb_spec c 24) as [->|Hc]; cbn [negb]; [|by rewrite bool_decide_false by naive_solver].
  destruct (inb (v1 * 256 + v2) _LEGAL_VERSIONS) eqn:Hv; cbn [negb];
    [apply inb_true in Hv|apply inb_false in Hv; by rewrite bool_decide_false by naive_solver].
  destruct ((d <? 3) || (_MAX_RECORD_LENGTH <? d)) eqn:Hd; bool_prop; [rewrite bool_decide_false; [done|naive_solver lia]|].
  destruct (Z.ltb_spec (len (24 :: v1 :: v2 :: d1 :: d2 :: t :: p1 :: p2 :: rest)) (5 + d)) as [Hl|Hl]; autorewrite with len_db in Hl;
    [rewrite bool_decide_false; [done|naive_solver lia]|].
  assert (Hf : slice (24 :: v1 :: v2 :: d1 :: d2 :: t :: p1 :: p2 :: rest) 5 (5 + d) = t :: p1 :: p2 :: take (Z.to_nat (d - 3)) rest).
  { unfold slice. replace (Z.to_nat (5 + d - 5)) with (3 + Z.to_nat (d - 3))%nat by lia. done. }
  rewrite Hf. destruct (Z.ltb_spec (len (t :: p1 :: p2 :: take (Z.to_nat (d - 3)) rest)) 3) as [Hl'|_];
    [autorewrite with len_db in Hl'; pose proof (len_pos (take (Z.to_nat (d - 3)) rest)); lia|].
  change (byte_at (t :: p1 :: p2 :: take (Z.to_nat (d - 3)) rest) 0) with (Ok t). cbn [rbind].
  change (slice (t :: p1 :: p2 :: take (Z.to_nat (d - 3)) rest) 1 3) with [p1; p2]. cbn [unpack_H rbind]. fold claimed.
  destruct (inb t _LEGAL_HEARTBEAT_TYPES) eqn:Ht; cbn [negb];
    [apply inb_true in Ht|apply inb_false in Ht; by rewrite bool_decide_false by naive_solver].
  destruct (Z.ltb_spec (d - 3) claimed); [rewrite bool_decide_true; [done|]|rewrite bool_decide_false; [done|]]; naive_solver lia.
Qed.

Lemma heartbleed_total payload : Forall byte_ok payload → _check_heartbleed payload = Ok (check_heartbleed payload).
Proof.
  intros Hb. assert (∃ o, _check_heartbleed payload = Ok o) as [o Ho]; [|unfold check_heartbleed; by rewrite Ho].
  destruct (decide (len payload < 8)); [exists None; by apply heartbleed_short|].
  destruct payload as [|c [|v1 [|v2 [|d1 [|d2 [|t [|p1 [|p2 rest]]]]]]]]; autorewrite with len_db in *; try lia.
  eexists. apply heartbleed_long.
Qed.

Lemma heartbleed_fields c v1 v2 d1 d2 t p1 p2 rest m :
  heartbleed_at (c :: v1 :: v2 :: d1 :: d2 :: t :: p1 :: p2 :: rest) m →
  let d := d1 * 256 + d2 in
  (c = 24 ∧ v1 * 256 + v2 ∈ _LEGAL_VERSIONS ∧ 3 ≤ d ≤ _MAX_RECORD_LENGTH ∧ d ≤ 3 + len rest ∧
     t ∈ _LEGAL_HEARTBEAT_TYPES ∧ d - 3 < p1 * 256 + p2) ∧ m = mk_heartbleed (p1 * 256 + p2) (d - 3).
Proof.
  intros (v & t' & body & rest' & Heq & Hv & Ht & Hmax & Hav & Hcl). cbn zeta. destruct m as [claimed available].
  unfold heartbeat_record, u16, hb_claimed_payload_length, hb_available_bytes in *. cbn [app] in Heq.
  injection Heq as -> -> -> -> -> -> -> -> ->.
  pose proof (Z.div_mod v 256). pose proof (Z.div_mod (len body + 3) 256). pose proof (Z.div_mod claimed 256).
  replace (v / 256 * 256 + v mod 256) with v by lia.
  replace ((len body + 3) / 256 * 256 + (len body + 3) mod 256) with (len body + 3) by lia.
  replace (claimed / 256 * 256 + claimed mod 256) with claimed by lia. rewrite len_app.
  pose proof (len_pos body). pose proof (len_pos rest'). split; [|f_equal; lia]. split_and!; try done; lia.
Qed.

(** the Heartbleed detector is exact: on any bytes it returns, never through
    its catch-all handler, and it matches precisely the payloads that start
    with a complete TLS heartbeat record (legal version, legal message type,
    length within the TLS limit, all of it captured) whose claimed payload
    length exceeds the bytes the record holds; the match reports both
    numbers. *)
Theorem heartbleed_exact payload : Forall byte_ok payload →
  _check_heartbleed payload = Ok (check_heartbleed payload) ∧
  ∀ m, check_heartbleed payload = Some m ↔ heartbleed_at payload m.
Proof.
  intros Hb. split; [by apply heartbleed_total|]. intros m. pose proof (heartbleed_total payload Hb) as Ht.
  destruct (decide (len payload < 8)) as [Hs|Hl].
  - rewrite (heartbleed_short _ Hs Hb) in Ht. injection Ht as <-. split; [done|].
    intros (v & t & body & rest & -> & _). exfalso. unfold heartbeat_record in Hs. autorewrite with len_db in Hs.
    pose proof (len_pos body); pose proof (len_pos rest). lia.
  - destruct payload as [|c [|v1 [|v2 [|d1 [|d2 [|t [|p1 [|p2 rest]]]]]]]]; autorewrite with len_db in *; try (cbn in *; lia).
    repeat match goal with H : Forall byte_ok (_ :: _) |- _ => apply Forall_cons in H as [? H] end.
    rewrite heartbleed_long in Ht. injection Ht as <-. case_bool_decide as Hm; split; try done;
      [|by intros (_ & ->)%heartbleed_fields|by intros (? & _)%heartbleed_fields].
    intros [= <-]. destruct Hm as (-> & Hv & Hd & Hr & Htt & Hp).
    exists (v1 * 256 + v2), t, (take (Z.to_nat (d1 * 256 + d2 - 3)) rest), (drop (Z.to_nat (d1 * 256 + d2 - 3)) rest).
    assert (Hlen : len (take (Z.to_nat (d1 * 256 + d2 - 3)) rest) = d1 * 256 + d2 - 3).
    { unfold len in *. rewrite length_take. lia. }
    rewrite Hlen. split; [|split; [done|split; [done|]]].
    * unfold heartbeat_record. rewrite Hlen. replace (d1 * 256 + d2 - 3 + 3) with (d1 * 256 + d2) by lia.
      cbn [hb_claimed_payload_length]. rewrite !u16_pack by done. cbn. by rewrite take_drop.
    * cbn. unfold byte_ok in *. lia.
Qed.

Definition sample_heartbeat : bytes := [24; 3; 2; 0; 3; 1; 64; 0].

Lemma heartbleed_exact_witness : Forall byte_ok sample_heartbeat ∧ heartbleed_at sample_heartbeat (mk_heartbleed 16384 0).
Proof.
  assert (Hb : Forall byte_ok sample_heartbeat) by (repeat constructor; done).
  split; [exact Hb|]. apply (proj2 (heartbleed_exact sample_heartbeat Hb)). vm_compute. reflexivity.
Defined.

(** *** The extensions loop *)

Lemma extension_fields_ok t data acc : Forall byte_ok data → ∃ acc', extension_fields t data acc = Ok acc'.
Proof.
  intros Hd. unfold extension_fields, mbind, result_bind, mret, result_ret.
  destruct ((t =? _EXT_SUPPORTED_GROUPS) && (2 <=? len data)) eqn:H10; bool_prop.
  { destruct (unpack_ok data 0) as (n & Hn & _); [done|lia..|]. change (0 + 2) with 2 in Hn. rewrite Hn. by eexists. }
  destruct ((t =? _EXT_EC_POINT_FORMATS) && (1 <=? len data)) eqn:H11; bool_prop; [|by eexists].
  destruct (byte_at_ok data 0) as (n & -> & _); [lia..|]. by eexists.
Qed.

Lemma extensions_loop_terminates fuel block offset acc :
  Forall byte_ok block → 0 ≤ offset → (0 < fuel)%nat → len block - offset < 4 * Z.of_nat fuel →
  ∃ acc', ∀ fuel', (fuel ≤ fuel')%nat → extensions_loop fuel' block offset acc = Ok (Some acc').
Proof.
  intros Hb. revert offset acc. induction fuel as [|fuel IH]; intros offset acc Ho Hp Hf; [lia|].
  destruct (Z.leb_spec (offset + 4) (len block)) as [Hle|Hgt].
  2: { exists acc. intros [|fuel'] ?; [lia|]. cbn [extensions_loop]. by destruct (Z.leb_spec (offset + 4) (len block)); [lia|]. }
  destruct (unpack_ok block offset) as (t & Ht & _); [done|lia..|].
  destruct (unpack_ok block (offset + 2)) as (n & Hn & Hn0); [done|lia..|]. replace (offset + 2 + 2) with (offset + 4) in Hn by lia.
  destruct (extension_fields_ok t (slice block (offset + 4) (offset + 4 + n)) acc) as [acc1 Hacc]; [by apply slice_Forall|].
  destruct (IH (offset + (4 + n)) acc1) as [acc2 H2]; [unfold u16_ok in *; lia..|].
  exists acc2. intros [|fuel'] ?; [lia|]. cbn [extensions_loop]. unfold mbind, result_bind.
  destruct (Z.leb_spec (offset + 4) (len block)); [|lia]. rewrite Ht. cbn [rbind]. rewrite Hn. cbn [rbind].
  rewrite Hacc. cbn [rbind]. apply H2. lia.
Qed.

Lemma parse_extensions_ok remainder : Forall byte_ok remainder → ∃ e, _parse_extensions remainder = Ok e.
Proof.
  intros Hr. unfold _parse_extensions, mbind, result_bind, mret, result_ret. destruct (Z.ltb_spec (len remainder) 2); [by eexists|].
  destruct (unpack_ok remainder 0) as (n & Hn & _); [done|lia..|]. change (0 + 2) with 2 in Hn. rewrite Hn. cbn [rbind].
  match goal with |- context [extensions_loop ?k ?b 0 ?a] => destruct (extensions_loop_terminates k b 0 a) as [e He] end;
    [by apply slice_Forall|lia|lia|unfold len; lia|]. rewrite He by lia. by eexists.
Qed.

Lemma ja3_total payload : Forall byte_ok payload → _compute_ja3 payload = Ok (compute_ja3 payload).
Proof.
  intros Hb. assert (∃ o, _compute_ja3 payload = Ok o) as [o Ho]; [|unfold compute_ja3; by rewrite Ho].
  unfold _compute_ja3, mbind, result_bind, mret, result_ret. destruct (Z.ltb_spec (len payload) 5); [by eexists|].
  destruct (byte_at_ok payload 0) as (c & -> & _); [lia..|]. cbn [rbind]. destruct (negb _); [by eexists|].
  destruct (unpack_ok payload 3) as (n & Hn & _); [done|lia..|]. change (3 + 2) with 5 in Hn. rewrite Hn. cbn [rbind].
  set (fragment := slice payload 5 (5 + n)). assert (Hfb : Forall byte_ok fragment) by by apply slice_Forall.
  destruct (Z.ltb_spec (len fragment) 4); [by eexists|].
  destruct (byte_at_ok fragment 0) as (t & -> & _); [lia..|]. cbn [rbind]. destruct (negb _); [by eexists|].
  set (body := slice fragment 4 _). assert (Hbb : Forall byte_ok body) by by apply slice_Forall.
  destruct (Z.ltb_spec (len body) (0 + 2)); [by eexists|].
  destruct (unpack_ok body 0) as (v & -> & _); [done|lia..|]. cbn [rbind]. unfold _RANDOM_LEN.
  destruct (Z.ltb_spec (len body) (0 + (2 + 32) + 1)); [by eexists|].
  destruct (byte_at_ok body (0 + (2 + 32))) as (sid & -> & Hsid); [lia..|]. cbn [rbind].
  assert (Hpos : ∀ b, b ∈ body → 0 ≤ b) by (intros b Hb'; rewrite Forall_forall in Hbb; apply (Hbb b Hb')).
  apply Hpos in Hsid. destruct (Z.ltb_spec (len body) (0 + (2 + 32) + (1 + sid) + 2)); [by eexists|].
  destruct (unpack_ok body (0 + (2 + 32) + (1 + sid))) as (cs & -> & Hcs); [done|lia..|]. cbn [rbind]. unfold u16_ok in Hcs.
  match goal with |- context [if ?b then _ else _] => destruct b eqn:Hc end; [by eexists|]. bool_prop.
  match goal with |- context [byte_at body ?i] => destruct (byte_at_ok body i) as (cm & -> & Hcm) end; [lia..|]. cbn [rbind].
  match goal with |- context [_parse_extensions ?r] => destruct (parse_extensions_ok r) as [e ->] end; [by apply slice_Forall|].
  by eexists.
Qed.

(** ** ClientHello on the wire (RFC 8446, 4.1.2) *)

Inductive Extension :=
| SupportedGroups (groups : list Z)
| EcPointFormats (formats : bytes)
| OtherExtension (extension_type : Z) (data : bytes).

Record ClientHello : Type := mk_hello {
  ch_version : Z;
  ch_random : bytes;
  ch_session_id : bytes;
  ch_cipher_suites : list Z;
  ch_compression : bytes;
  ch_extensions : list Extension;
}.

Definition u16s (l : list Z) : bytes := l ≫= u16.
Definition u24 (n : Z) : bytes := n / 65536 :: u16 (n mod 65536).

Definition extension_type_of (e : Extension) : Z :=
  match e with SupportedGroups _ => 10 | EcPointFormats _ => 11 | OtherExtension t _ => t end.
Definition extension_data_of (e : Extension) : bytes :=
  match e with
  | SupportedGroups l => u16 (len (u16s l)) ++ u16s l
  | EcPointFormats l => len l :: l
  | OtherExtension _ d => d
  end.
Definition extension_bytes (e : Extension) : bytes :=
  u16 (extension_type_of e) ++ u16 (len (extension_data_of e)) ++ extension_data_of e.

Definition hello_body (h : ClientHello) : bytes :=
  u16 (ch_version h) ++ ch_random h ++ len (ch_session_id h) :: ch_session_id h ++
  u16 (len (u16s (ch_cipher_suites h))) ++ u16s (ch_cipher_suites h) ++
  len (ch_compression h) :: ch_compression h ++
  u16 (len (ch_extensions h ≫= extension_bytes)) ++ (ch_extensions h ≫= extension_bytes).
Definition hello_handshake (h : ClientHello) : bytes :=
  _CLIENT_HELLO_HANDSHAKE_TYPE :: u24 (len (hello_body h)) ++ hello_body h.
Definition hello_record (record_version : Z) (h : ClientHello) : bytes :=
  _HANDSHAKE_CONTENT_TYPE :: u16 record_version ++ u16 (len (hello_handshake h)) ++ hello_handshake h.

(** Extensions of the two types JA3 looks into have their own constructors,
    and the random value has its 32 bytes. *)
Definition extension_wf (e : Extension) : Prop :=
  match e with OtherExtension t _ => t ≠ 10 ∧ t ≠ 11 | _ => True end.
Definition hello_wf (h : ClientHello) : Prop := len (ch_random h) = 32 ∧ Forall extension_wf (ch_extensions h).

(** The fields JA3 reads off the extensions: their types, and the contents of
    the last list of groups and of the last list of point formats. *)
Definition ja3_extension (acc : Extensions) (e : Extension) : Extensions :=
  let types := ex_types acc ++ [extension_type_of e] in
  match e with
  | SupportedGroups l => mk_exts types l (ex_formats acc)
  | EcPointFormats l => mk_exts types (ex_curves acc) l
  | OtherExtension _ _ => mk_exts types (ex_curves acc) (ex_formats acc)
  end.
Definition ja3_extensions (l : list Extension) : Extensions := foldl ja3_extension (mk_exts [] [] []) l.

Definition ja3_of (h : ClientHello) : string := ja3_text (ch_version h) (ch_cipher_suites h) (ja3_extensions (ch_extensions h)).

(** A ClientHello without its GREASE values. *)
Definition degreased_extension (e : Extension) : list Extension :=
  match e with
  | SupportedGroups l => [SupportedGroups (not_grease l)]
  | EcPointFormats l => [EcPointFormats l]
  | OtherExtension t d => if _is_grease t then [] else [OtherExtension t []]
  end.

(** Two hellos of the same client: equal but for GREASE values and for what
    JA3 does not read. *)
Definition same_client (h h' : ClientHello) : Prop :=
  ch_version h = ch_version h' ∧ not_grease (ch_cipher_suites h) = not_grease (ch_cipher_suites h') ∧
  (ch_extensions h ≫= degreased_extension) = (ch_extensions h' ≫= degreased_extension).

Lemma uint16s_u16s l : uint16s (u16s l) = l.
Proof.
  induction l as [|n l IH]; [done|]. change (u16s (n :: l)) with (n / 256 :: n mod 256 :: u16s l). cbn [uint16s]. rewrite IH.
  f_equal. pose proof (Z.div_mod n 256). lia.
Qed.
Lemma parse_uint16_list_u16s l : _parse_uint16_list (u16s l) = l.
Proof.
  unfold _parse_uint16_list. assert (H : len (u16s l) mod 2 = 0).
  { replace (len (u16s l)) with (Z.of_nat (length l) * 2); [apply Z.mod_mul; lia|].
    induction l as [|n l IH]; [done|]. change (u16s (n :: l)) with (n / 256 :: n mod 256 :: u16s l).
    autorewrite with len_db. cbn [length]. lia. }
  rewrite H. apply uint16s_u16s.
Qed.
Lemma be_value_u24 n : be_value (u24 n) = n.
Proof.
  unfold u24, u16, be_value. cbn [foldl]. pose proof (Z.div_mod n 65536). pose proof (Z.div_mod (n mod 65536) 256). lia.
Qed.
Lemma len_u24 n : len (u24 n) = 3.
Proof. done. Qed.

Lemma extension_fields_of e acc : extension_wf e →
  extension_fields (extension_type_of e) (extension_data_of e) acc = Ok (ja3_extension acc e).
Proof.
  unfold extension_fields, _EXT_SUPPORTED_GROUPS, _EXT_EC_POINT_FORMATS, mbind, result_bind, mret, result_ret.
  destruct e as [l|l|t d]; cbn [extension_wf extension_type_of extension_data_of ja3_extension].
  - intros _. autorewrite with len_db. pose proof (len_pos (u16s l)). destruct (Z.leb_spec 2 (2 + len (u16s l))); [|lia].
    cbn [Z.eqb Pos.eqb andb]. change (slice (u16 (len (u16s l)) ++ u16s l) 0 2) with (u16 (len (u16s l))). rewrite unpack_u16.
    cbn [rbind]. do 2 f_equal. rewrite <- (app_nil_r (u16s l)) at 2. rewrite slice_app by (rewrite ?len_u16; lia).
    apply parse_uint16_list_u16s.
  - intros _. autorewrite with len_db. pose proof (len_pos l). destruct (Z.leb_spec 1 (1 + len l)); [|lia].
    cbn [Z.eqb Pos.eqb andb]. change (byte_at (len l :: l) 0) with (Ok (len l)). cbn [rbind]. do 2 f_equal.
    change (len l :: l) with ([len l] ++ l). rewrite <- (app_nil_r l) at 2. apply slice_app; [done|lia].
  - intros [H10 H11]. destruct (Z.eqb_spec t 10); [done|]. destruct (Z.eqb_spec t 11); [done|]. done.
Qed.

Lemma slice_tail a b i j : len a = i → j = i + len b → slice (a ++ b) i j = b.
Proof. intros Hi Hj. rewrite <- (app_nil_r b) at 1. apply slice_app; lia. Qed.

Lemma extensions_loop_encoded es : ∀ fuel pre acc, Forall extension_wf es → (length es < fuel)%nat →
  extensions_loop fuel (pre ++ (es ≫= extension_bytes)) (len pre) acc = Ok (Some (foldl ja3_extension acc es)).
Proof.
  induction es as [|e es IH]; intros [|fuel] pre acc Hwf Hf; try (cbn in Hf; lia); cbn [extensions_loop].
  { change ([] ≫= extension_bytes) with (@nil Z). rewrite len_app, len_nil. destruct (Z.leb_spec (len pre + 4) (len pre + 0)); [lia|]. done. }
  apply Forall_cons in Hwf as [He Hes].
  change ((e :: es) ≫= extension_bytes) with (extension_bytes e ++ (es ≫= extension_bytes)).
  set (tl := es ≫= extension_bytes) in *. set (d := extension_data_of e). unfold mbind, result_bind.
  assert (Hsplit : pre ++ extension_bytes e ++ tl = pre ++ u16 (extension_type_of e) ++ u16 (len d) ++ d ++ tl).
  { unfold extension_bytes. by rewrite <- !app_assoc. }
  destruct (Z.leb_spec (len pre + 4) (len (pre ++ extension_bytes e ++ tl))) as [_|Hle];
    [|rewrite Hsplit in Hle; autorewrite with len_db in Hle; pose proof (len_pos d); pose proof (len_pos tl); lia].
  rewrite Hsplit at 1. rewrite slice_app by (rewrite ?len_u16; lia). rewrite unpack_u16. cbn [rbind].
  assert (Hs2 : pre ++ extension_bytes e ++ tl = (pre ++ u16 (extension_type_of e)) ++ u16 (len d) ++ d ++ tl)
    by (rewrite Hsplit; by rewrite <- !app_assoc).
  rewrite Hs2 at 1. rewrite slice_app by (rewrite ?len_app, ?len_u16; lia). rewrite unpack_u16. cbn [rbind].
  assert (Hs3 : pre ++ extension_bytes e ++ tl = ((pre ++ u16 (extension_type_of e)) ++ u16 (len d)) ++ d ++ tl)
    by (rewrite Hs2; by rewrite <- !app_assoc).
  rewrite Hs3 at 1. rewrite slice_app by (rewrite ?len_app, ?len_u16; lia). unfold d. rewrite extension_fields_of by done.
  cbn [rbind foldl]. rewrite app_assoc.
  replace (len pre + (4 + len (extension_data_of e))) with (len (pre ++ extension_bytes e)); [apply IH; [done|cbn in Hf; lia]|].
  unfold extension_bytes. autorewrite with len_db. lia.
Qed.

Lemma length_extension_bytes es : (length es ≤ length (es ≫= extension_bytes))%nat.
Proof.
  induction es as [|e es IH]; [done|]. change ((e :: es) ≫= extension_bytes) with (extension_bytes e ++ (es ≫= extension_bytes)).
  rewrite length_app. unfold extension_bytes at 1. rewrite !length_app. cbn [length u16]. lia.
Qed.

Lemma parse_extensions_encoded es : Forall extension_wf es →
  _parse_extensions (u16 (len (es ≫= extension_bytes)) ++ (es ≫= extension_bytes)) = Ok (ja3_extensions es).
Proof.
  intros Hwf. set (bl := es ≫= extension_bytes) in *. unfold _parse_extensions, mbind, result_bind, mret, result_ret.
  destruct (Z.ltb_spec (len (u16 (len bl) ++ bl)) 2) as [Hl|_]; [autorewrite with len_db in Hl; pose proof (len_pos bl); lia|].
  change (slice (u16 (len bl) ++ bl) 0 2) with (u16 (len bl)). rewrite unpack_u16. cbn [rbind].
  assert (Hs : slice (u16 (len bl) ++ bl) 2 (2 + len bl) = bl) by by apply slice_tail. rewrite Hs.
  pose proof (extensions_loop_encoded es (S (length bl)) [] (mk_exts [] [] []) Hwf) as H. cbn [app] in H. change (len []) with 0 in H.
  fold bl in H. rewrite H; [done|]. pose proof (length_extension_bytes es). fold bl in H0. lia.
Qed.

(** The fields of an encoded ClientHello at the offsets the parser reads. *)
Lemma hello_body_fields h : len (ch_random h) = 32 →
  let b := hello_body h in
  let n1 := len (ch_session_id h) in
  let cs := u16s (ch_cipher_suites h) in
  let n3 := len (ch_compression h) in
  let tl := u16 (len (ch_extensions h ≫= extension_bytes)) ++ (ch_extensions h ≫= extension_bytes) in
  slice b 0 2 = u16 (ch_version h) ∧ byte_at b 34 = Ok n1 ∧
  (∀ i, i = 35 + n1 → slice b i (i + 2) = u16 (len cs)) ∧
  (∀ i, i = 37 + n1 → slice b i (i + len cs) = cs) ∧
  (∀ i, i = 37 + n1 + len cs → byte_at b i = Ok n3) ∧
  (∀ i, i = 38 + n1 + len cs + n3 → slice b i (len b) = tl) ∧
  len b = 38 + n1 + len cs + n3 + len tl.
Proof.
  intros Hr b n1 cs n3 tl. unfold b, hello_body. fold n1 cs n3 tl.
  assert (Hlen : len (u16 (ch_version h) ++ ch_random h ++ n1 :: ch_session_id h ++ u16 (len cs) ++ cs ++ n3 :: ch_compression h ++ tl)
    = 38 + n1 + len cs + n3 + len tl) by (unfold n1, n3; autorewrite with len_db; lia).
  split; [done|]. split; [rewrite app_assoc; apply byte_at_app; autorewrite with len_db; lia|].
  split. { intros i ->. rewrite app_assoc. rewrite (app_comm_cons (ch_session_id h)), app_assoc. apply slice_app; unfold n1; autorewrite with len_db; lia. }
  split. { intros i ->. rewrite app_assoc, (app_comm_cons (ch_session_id h)), app_assoc, (app_assoc _ (u16 _)).
    apply slice_app; unfold n1; autorewrite with len_db; lia. }
  split. { intros i ->. rewrite app_assoc, (app_comm_cons (ch_session_id h)), app_assoc, (app_assoc _ (u16 _)), (app_assoc _ cs).
    apply byte_at_app; unfold n1; autorewrite with len_db; lia. }
  split; [|done]. intros i ->. rewrite Hlen.
  rewrite app_assoc, (app_comm_cons (ch_session_id h)), app_assoc, (app_assoc _ (u16 _)), (app_assoc _ cs), (app_comm_cons (ch_compression h)), app_assoc.
  apply slice_tail; unfold n1, n3; autorewrite with len_db; lia.
Qed.

Lemma compute_ja3_hello record_version h rest : hello_wf h →
  _compute_ja3 (hello_record record_version h ++ rest) = Ok (Some (mk_fingerprint (ja3_of h) (Md5.hexdigest (ja3_of h)))).
Proof.
  intros [Hrnd Hwf]. unfold _compute_ja3, mbind, result_bind, mret, result_ret. set (hs := hello_handshake h).
  assert (Hrec : hello_record record_version h ++ rest = (_HANDSHAKE_CONTENT_TYPE :: u16 record_version) ++ u16 (len hs) ++ hs ++ rest)
    by (unfold hello_record; fold hs; cbn [app]; by rewrite <- !app_assoc).
  rewrite Hrec. destruct (Z.ltb_spec (len ((_HANDSHAKE_CONTENT_TYPE :: u16 record_version) ++ u16 (len hs) ++ hs ++ rest)) 5) as [Hl|_];
    [autorewrite with len_db in Hl; pose proof (len_pos hs); pose proof (len_pos rest); lia|].
  change (byte_at ((_HANDSHAKE_CONTENT_TYPE :: u16 record_version) ++ u16 (len hs) ++ hs ++ rest) 0) with (Ok _HANDSHAKE_CONTENT_TYPE).
  cbn [rbind]. change (negb (_HANDSHAKE_CONTENT_TYPE =? _HANDSHAKE_CONTENT_TYPE)) with false. cbn iota.
  change (slice ((_HANDSHAKE_CONTENT_TYPE :: u16 record_version) ++ u16 (len hs) ++ hs ++ rest) 3 5) with (u16 (len hs)).
  rewrite unpack_u16. cbn [rbind].
  rewrite (app_assoc (_HANDSHAKE_CONTENT_TYPE :: u16 record_version) (u16 (len hs))), slice_app by (try reflexivity; lia).
  set (b := hello_body h). assert (Hhs : hs = (_CLIENT_HELLO_HANDSHAKE_TYPE :: u24 (len b)) ++ b) by reflexivity. rewrite Hhs.
  destruct (Z.ltb_spec (len ((_CLIENT_HELLO_HANDSHAKE_TYPE :: u24 (len b)) ++ b)) 4) as [Hl|_];
    [rewrite len_app, len_cons, len_u24 in Hl; pose proof (len_pos b); lia|].
  change (byte_at ((_CLIENT_HELLO_HANDSHAKE_TYPE :: u24 (len b)) ++ b) 0) with (Ok _CLIENT_HELLO_HANDSHAKE_TYPE).
  cbn [rbind]. change (negb (_CLIENT_HELLO_HANDSHAKE_TYPE =? _CLIENT_HELLO_HANDSHAKE_TYPE)) with false. cbn iota.
  change (slice ((_CLIENT_HELLO_HANDSHAKE_TYPE :: u24 (len b)) ++ b) 1 4) with (u24 (len b)). rewrite be_value_u24.
  rewrite (slice_tail (_CLIENT_HELLO_HANDSHAKE_TYPE :: u24 (len b)) b 4 (4 + len b)) by done.
  destruct (hello_body_fields h Hrnd) as (Hv & Hsid & Hcs & Hcl & Hcm & Htl & Hlen). fold b in Hv, Hsid, Hcs, Hcl, Hcm, Htl, Hlen.
  pose proof (len_pos (ch_session_id h)). pose proof (len_pos (u16s (ch_cipher_suites h))). pose proof (len_pos (ch_compression h)).
  match type of Hlen with _ = _ + len ?t => pose proof (len_pos t) end.
  destruct (Z.ltb_spec (len b) (0 + 2)); [lia|]. change (0 + 2) with 2. rewrite Hv, unpack_u16. cbn [rbind]. unfold _RANDOM_LEN.
  destruct (Z.ltb_spec (len b) (0 + (2 + 32) + 1)); [lia|]. change (0 + (2 + 32)) with 34. rewrite Hsid. cbn [rbind].
  match goal with |- context [if ?c then _ else _] => destruct c eqn:Hc end; bool_prop; [lia|]. rewrite Hcs by lia. rewrite unpack_u16. cbn [rbind].
  rewrite Hcl by lia. rewrite parse_uint16_list_u16s.
  match goal with |- context [if ?c then _ else _] => destruct c eqn:Hc' end; bool_prop; [lia|]. rewrite Hcm by lia. cbn [rbind].
  rewrite Htl by lia. rewrite parse_extensions_encoded by done. done.
Qed.

(** *** GREASE *)

Lemma not_grease_idem l : not_grease (not_grease l) = not_grease l.
Proof. unfold not_grease. rewrite list_filter_filter_r; naive_solver. Qed.
Lemma not_grease_app l l' : not_grease (l ++ l') = not_grease l ++ not_grease l'.
Proof. apply filter_app. Qed.

(** What of the extensions the JA3 text depends on. *)
Definition visible (e : Extensions) : Extensions := mk_exts (not_grease (ex_types e)) (not_grease (ex_curves e)) (ex_formats e).

Lemma ja3_text_visible v cs e : ja3_text v cs e = ja3_text v (not_grease cs) (visible e).
Proof. unfold ja3_text, visible. cbn [ex_types ex_curves ex_formats]. by rewrite !not_grease_idem. Qed.

Lemma visible_extension acc acc' e : visible acc = visible acc' →
  visible (ja3_extension acc e) = visible (foldl ja3_extension acc' (degreased_extension e)).
Proof.
  destruct acc as [t c f], acc' as [t' c' f']. unfold visible. cbn [ex_types ex_curves ex_formats]. intros [= Ht Hc Hf].
  destruct e as [l|l|n d]; cbn [degreased_extension foldl ja3_extension extension_type_of ex_types ex_curves ex_formats];
    [| |destruct (_is_grease n) eqn:Hn; cbn [foldl ja3_extension extension_type_of ex_types ex_curves ex_formats]];
    rewrite ?not_grease_app, ?not_grease_idem, ?Ht, ?Hc, ?Hf; try done.
  assert (Hng : not_grease [n] = []) by (unfold not_grease; rewrite filter_cons_False by congruence; done). by rewrite Hng, app_nil_r.
Qed.

Lemma visible_degreased l : ∀ acc acc', visible acc = visible acc' →
  visible (foldl ja3_extension acc l) = visible (foldl ja3_extension acc' (l ≫= degreased_extension)).
Proof.
  induction l as [|e l IH]; intros acc acc' H; [done|]. cbn [foldl].
  change ((e :: l) ≫= degreased_extension) with (degreased_extension e ++ (l ≫= degreased_extension)).
  rewrite foldl_app. by apply IH, visible_extension.
Qed.

Lemma ja3_of_same_client h h' : same_client h h' → ja3_of h = ja3_of h'.
Proof.
  intros (Hv & Hc & He). unfold ja3_of. rewrite ja3_text_visible, (ja3_text_visible (ch_version h')).
  unfold ja3_extensions. rewrite (visible_degreased _ _ (mk_exts [] [] [])), (visible_degreased (ch_extensions h') _ (mk_exts [] [] [])) by done.
  by rewrite Hv, Hc, He.
Qed.

(** the fingerprint of a ClientHello as a client sends it, whatever follows
    it in the segment, is the JA3 string of its fields and the MD5 of that
    string; and two hellos of one client, which differ only in their GREASE
    values and in fields JA3 does not read, have the same fingerprint. *)
Theorem ja3_reads_the_hello record_version record_version' h h' rest rest' : hello_wf h → hello_wf h' →
  compute_ja3 (hello_record record_version h ++ rest) = Some (mk_fingerprint (ja3_of h) (Md5.hexdigest (ja3_of h))) ∧
  (same_client h h' → compute_ja3 (hello_record record_version h ++ rest) = compute_ja3 (hello_record record_version' h' ++ rest')).
Proof.
  intros Hwf Hwf'. unfold compute_ja3. rewrite !compute_ja3_hello by done. split; [done|].
  intros Hs. by rewrite (ja3_of_same_client h h' Hs).
Qed.

(** the fingerprint is computed on every segment: the loop over the
    extensions stops after at most a quarter of the block's bytes, whatever
    lengths the extensions claim, more fuel changes nothing, and no read
    leaves the buffer, so the catch-all handler never runs. *)
Theorem ja3_always_terminates payload block acc : Forall byte_ok payload → Forall byte_ok block →
  _compute_ja3 payload = Ok (compute_ja3 payload) ∧
  ∃ acc', ∀ fuel, (length block / 4 < fuel)%nat → extensions_loop fuel block 0 acc = Ok (Some acc').
Proof.
  intros Hp Hb. split; [by apply ja3_total|].
  destruct (extensions_loop_terminates (S (length block / 4)) block 0 acc Hb) as [acc' H]; [lia|lia| |].
  - unfold len. pose proof (Nat.div_mod (length block) 4 ltac:(lia)) as Hd. pose proof (Nat.mod_upper_bound (length block) 4 ltac:(lia)). lia.
  - exists acc'. intros fuel Hf. apply H. lia.
Qed.

Definition plain_hello : ClientHello :=
  mk_hello 771 (replicate 32 0) [] [4865; 4866] [0] [OtherExtension 0 [1; 2]; SupportedGroups [29; 23]; EcPointFormats [0]].
(** the same client on another connection *)
Definition greased_hello : ClientHello :=
  mk_hello 771 (replicate 32 7) [] [6682; 4865; 4866] [0]
    [OtherExtension 10794 []; OtherExtension 0 [1; 2]; SupportedGroups [14906; 29; 23]; EcPointFormats [0]].

Lemma plain_hello_wf : hello_wf plain_hello ∧ hello_wf greased_hello.
Proof. split; split; repeat constructor; lia. Qed.

Lemma ja3_reads_the_hello_witness :
  compute_ja3 (hello_record 769 plain_hello) = compute_ja3 (hello_record 769 greased_hello ++ [1; 2]) ∧
  compute_ja3 (hello_record 769 greased_hello) =
    Some (mk_fingerprint "771,4865-4866,0-10-11,29-23,0" "38eaca597c62da4c9db8cfad482f14ad").
Proof.
  split; [|vm_compute; reflexivity]. rewrite <- (app_nil_r (hello_record 769 plain_hello)).
  apply (proj2 (ja3_reads_the_hello 769 769 plain_hello greased_hello [] [1; 2] (proj1 plain_hello_wf) (proj2 plain_hello_wf))).
  split; [reflexivity|]. split; vm_compute; reflexivity.
Defined.

(** an extension that claims 65535 bytes in a block of five *)
Definition lying_extension : bytes := [0; 0; 255; 255; 1].

Lemma ja3_always_terminates_witness :
  Forall byte_ok lying_extension ∧
  ∃ acc', ∀ fuel, (1 < fuel)%nat → extensions_loop fuel lying_extension 0 (mk_exts [] [] []) = Ok (Some acc').
Proof.
  assert (H : Forall byte_ok lying_extension) by (repeat constructor; done).
  split; [exact H|]. exact (proj2 (ja3_always_terminates lying_extension lying_extension (mk_exts [] [] []) H H)).
Defined.
