(* ===== verification/PcapProps.v ===== *)
(** * Capture files: what the reader and the writer guarantee

    The classic writer and reader are inverse, also on a file cut anywhere;
    and the reader, on any bytes at all, ends after finitely many turns with
    nothing but a [PcapFormatError]. *)

From S2P Require Import Prelude Float Net Hex Models Flow Parser Pcap Tls.
Local Open Scope Z_scope.

(** ** Reading a stream *)

Lemma read_exact p s a b f n : len a = n → read n (mk_reader p s (mk_stream (a ++ b) f)) = (Ok a, mk_reader p s (mk_stream b f)).
Proof.
  intros <-. unfold read. cbn. rewrite len_app. pose proof (len_pos b).
  destruct (Z.ltb_spec (len a + len b) (len a)); [lia|]. cbn. unfold len. rewrite Nat2Z.id.
  by rewrite take_app_length, drop_app_length.
Qed.
Lemma read_short p s a n : len a < n → read n (mk_reader p s (mk_stream a false)) = (Ok a, mk_reader p s (mk_stream [] false)).
Proof.
  intros Hn. unfold read. cbn. rewrite andb_false_r. unfold len in Hn.
  by rewrite take_ge, drop_ge by lia.
Qed.

(** ** The classic format *)

Record frame : Type := mk_frame { fr_data : bytes; fr_ts : Z; fr_ns : Z }.
Definition write_frame (f : frame) : M PcapWriter unit := write (fr_data f) (fr_ts f) (fr_ns f).
Definition write_frames (fs : list frame) : M PcapWriter unit := mfold_unit write_frame fs.

(** The record a reader returns for a frame written with a snaplen *)
Definition stored_record (snaplen : Z) (f : frame) : PcapRecord :=
  mk_record (take (Z.to_nat snaplen) (fr_data f)) (fr_ts f) (len (fr_data f)).

(** What the writer accepts *)
Definition frame_ok (f : frame) : Prop :=
  0 ≤ fr_ts f < 2 ^ 32 * 1000000 ∧ 0 ≤ fr_ns f < 1000 ∧ len (fr_data f) < 2 ^ 32.

Definition fraction_of (ns : bool) (f : frame) : Z :=
  if ns then fr_ts f mod 1000000 * 1000 + fr_ns f else fr_ts f mod 1000000.
Definition record_header (ns : bool) (snaplen : Z) (f : frame) : result bytes :=
  pack Little [FI; FI; FI; FI] [fr_ts f / 1000000; fraction_of ns f; len (take (Z.to_nat snaplen) (fr_data f)); len (fr_data f)].
Definition record_bytes (ns : bool) (snaplen : Z) (f : frame) : bytes :=
  match record_header ns snaplen f with Ok h => h ++ take (Z.to_nat snaplen) (fr_data f) | Raise _ => [] end.

Lemma u32_range v : in_range FI v = true ↔ 0 ≤ v < 2 ^ 32.
Proof. change (in_range FI v) with ((0 <=? v) && (v <? 2 ^ 32)). rewrite andb_true_iff, Z.leb_le, Z.ltb_lt. lia. Qed.

Lemma len_take_le n (bs : bytes) : len (take n bs) ≤ len bs.
Proof. unfold len. rewrite length_take. lia. Qed.

Lemma fraction_range ns f : 0 ≤ fr_ns f < 1000 → 0 ≤ fraction_of ns f < 2 ^ 32.
Proof. intros Hn. unfold fraction_of. pose proof (Z.mod_pos_bound (fr_ts f) 1000000). destruct ns; lia. Qed.

Lemma header_Ok ns snaplen f : frame_ok f → ∃ h, record_header ns snaplen f = Ok h.
Proof.
  intros (Ht & Hn & Hl). apply pack_Ok. pose proof (len_take_le (Z.to_nat snaplen) (fr_data f)).
  pose proof (len_pos (take (Z.to_nat snaplen) (fr_data f))). pose proof (len_pos (fr_data f)).
  repeat constructor; apply u32_range; [|by apply fraction_range|lia|lia].
  split; [apply Z.div_pos; lia|apply Z.div_lt_upper_bound; lia].
Qed.

Lemma header_inv ns snaplen f h : record_header ns snaplen f = Ok h → 0 ≤ fr_ts f / 1000000 < 2 ^ 32 ∧ len (fr_data f) < 2 ^ 32.
Proof.
  unfold record_header. cbn [pack]. repeat (case_match; [|done]).
  intros _. repeat match goal with Hr : in_range FI _ = true |- _ => apply u32_range in Hr end. lia.
Qed.

(** The writer appends exactly the record, or raises and writes nothing. *)
Lemma write_spec f w : write_frame f w =
  if bool_decide (0 ≤ fr_ts f ∧ 0 ≤ fr_ns f < 1000)
  then match record_header (pw_nanosecond w) (pw_snaplen w) f with
       | Ok _ => (Ok tt, mk_writer (pw_nanosecond w) (pw_snaplen w) (pw_stream w ++ record_bytes (pw_nanosecond w) (pw_snaplen w) f))
       | Raise e => (Raise e, w)
       end
  else (Raise (ValueError (if fr_ts f <? 0 then "pcap timestamps cannot precede the Unix epoch"
                           else "ts_ns_remainder must be in [0, 1000)")), w).
Proof.
  unfold write_frame, write. destruct (Z.ltb_spec (fr_ts f) 0).
  { rewrite bool_decide_eq_false_2 by lia. done. }
  destruct (Z.leb_spec 0 (fr_ns f)), (Z.ltb_spec (fr_ns f) 1000); cbn [andb negb];
    [|rewrite bool_decide_eq_false_2 by lia; done..].
  rewrite bool_decide_eq_true_2 by lia. unfold record_bytes, record_header, fraction_of.
  destruct (pw_nanosecond w); cbv zeta; case_match; done.
Qed.

Lemma write_ok f w : (∃ w', write_frame f w = (Ok tt, w')) ↔ frame_ok f.
Proof.
  rewrite write_spec. split.
  - intros [w' Hw]. case_bool_decide as Hb; [|done]. destruct (record_header _ _ f) as [h|] eqn:Hh; [|done].
    apply header_inv in Hh as [Ht Hl]. unfold frame_ok. pose proof (Z.div_mod (fr_ts f) 1000000).
    pose proof (Z.mod_pos_bound (fr_ts f) 1000000). lia.
  - intros Hf. pose proof Hf as (? & ? & ?). rewrite bool_decide_eq_true_2 by lia.
    destruct (header_Ok (pw_nanosecond w) (pw_snaplen w) f Hf) as [h ->]. eauto.
Qed.

Lemma writes_spec fs : Forall frame_ok fs → ∀ w, write_frames fs w =
  (Ok tt, mk_writer (pw_nanosecond w) (pw_snaplen w) (pw_stream w ++ (fs ≫= record_bytes (pw_nanosecond w) (pw_snaplen w)))).
Proof.
  induction 1 as [|f fs Hf _ IH]; intros w; cbn [write_frames mfold_unit].
  { rewrite app_nil_r. by destruct w. }
  unfold mbind, m_bind. rewrite write_spec. pose proof Hf as (? & ? & ?). rewrite bool_decide_eq_true_2 by lia.
  destruct (header_Ok (pw_nanosecond w) (pw_snaplen w) f Hf) as [h Hh]. rewrite Hh.
  change (mfold_unit write_frame fs) with (write_frames fs). rewrite IH. cbn. by rewrite <- app_assoc.
Qed.

Definition ticks_of (ns : bool) : Z := if ns then 1000000000 else 1000000.

(** The nanosecond remainder is floored away, and nothing else. *)
Lemma stamp_back ns f : 0 ≤ fr_ns f < 1000 →
  _floor_to_us (fraction_of ns f) (ticks_of ns) = Ok (fr_ts f - fr_ts f / 1000000 * 1000000).
Proof.
  intros Hn. unfold _floor_to_us, fraction_of, ticks_of. pose proof (Z.div_mod (fr_ts f) 1000000).
  destruct ns; cbn [Z.eqb]; f_equal.
  - replace ((fr_ts f mod 1000000 * 1000 + fr_ns f) * 1000000 / 1000000000) with (fr_ts f mod 1000000); [lia|].
    apply Z.div_unique with (r := fr_ns f * 1000000); [left|]; lia.
  - rewrite Z.div_mul by lia. lia.
Qed.

Definition fits (snaplen : Z) (f : frame) : Prop := len (take (Z.to_nat snaplen) (fr_data f)) ≤ _MAX_RECORD_BYTES.
Definition cut (snaplen : Z) (f : frame) : bool := len (take (Z.to_nat snaplen) (fr_data f)) <? len (fr_data f).

Section Classic.
Context (ns : bool) (snaplen : Z).
Notation at_loop := (InPcap Little (ticks_of ns) LINKTYPE_ETHERNET).
Notation recb := (record_bytes ns snaplen).

Lemma recb_split f : frame_ok f → ∃ h, record_header ns snaplen f = Ok h ∧ recb f = h ++ take (Z.to_nat snaplen) (fr_data f) ∧ len h = 16.
Proof.
  intros Hf. destruct (header_Ok ns snaplen f Hf) as [h Hh]. exists h. unfold record_bytes. rewrite Hh. repeat split.
  unfold len. by rewrite (pack_length _ _ _ _ Hh).
Qed.
Lemma recb_len f : frame_ok f → 16 ≤ len (recb f).
Proof. intros Hf. destruct (recb_split f Hf) as (h & _ & -> & Hh). rewrite len_app. pose proof (len_pos (take (Z.to_nat snaplen) (fr_data f))). lia. Qed.

(** One turn reads one written record back. *)
Lemma turn_written f p s rest fault : frame_ok f → fits snaplen f →
  turn_at at_loop (mk_reader p s (mk_stream (recb f ++ rest) fault)) =
    (Ok (Yield (stored_record snaplen f) at_loop), mk_reader p (count_record (cut snaplen f) s) (mk_stream rest fault)).
Proof.
  intros Hf Hfit. destruct (recb_split f Hf) as (h & Hh & -> & Hl). destruct Hf as (_ & Hn & _). unfold fits in Hfit.
  cbn [turn_at]. unfold pcap_turn, mbind, m_bind. rewrite <- app_assoc, (read_exact _ _ h) by done. cbv beta iota. rewrite Hl.
  change (16 =? 0) with false. change (16 <? 16) with false. cbv iota. unfold mlift. rewrite (unpack_pack _ _ _ _ Hh).
  destruct (Z.ltb_spec _MAX_RECORD_BYTES (len (take (Z.to_nat snaplen) (fr_data f)))); [lia|].
  rewrite read_exact by done. cbv beta iota. rewrite Z.ltb_irrefl. change (negb (LINKTYPE_ETHERNET =? LINKTYPE_ETHERNET)) with false.
  rewrite (stamp_back ns f Hn). unfold _pcap_record, upd, mmodify, mbind, m_bind. cbv beta iota.
  replace (fr_ts f / 1000000 * 1000000 + _) with (fr_ts f) by lia. done.
Qed.

(** A record that is cut, but not empty, ends the reading. *)
Lemma turn_cut f p s tail : frame_ok f → fits snaplen f → tail `prefix_of` recb f → tail ≠ recb f → tail ≠ [] →
  turn_at at_loop (mk_reader p s (mk_stream tail false)) = (Ok Return, mk_reader p (mark_tail s) (mk_stream [] false)).
Proof.
  intros Hf Hfit [rest Hrest] Hne Hnil. destruct (recb_split f Hf) as (h & Hh & Hrec & Hl). unfold fits in Hfit.
  cbn [turn_at]. unfold pcap_turn, mbind, m_bind.
  assert (len tail ≠ 0) as Hz by (destruct tail; [done|rewrite len_cons; pose proof (len_pos tail); lia]).
  destruct (decide (len tail < 16)) as [Hlt|Hge].
  { rewrite read_short by done. cbv beta iota. destruct (Z.eqb_spec (len tail) 0); [done|].
    destruct (Z.ltb_spec (len tail) 16); [done|lia]. }
  assert (∃ part, tail = h ++ part ∧ take (Z.to_nat snaplen) (fr_data f) = part ++ rest) as (part & -> & Hpart).
  { rewrite Hrec in Hrest. exists (drop 16 tail). unfold len in *.
    assert (h = take 16 tail) as ->.
    { apply (f_equal (take 16)) in Hrest. rewrite take_app_length' in Hrest by lia. rewrite take_app_le in Hrest by lia. done. }
    rewrite take_drop. split; [done|]. apply (f_equal (drop 16)) in Hrest.
    rewrite drop_app_length' in Hrest by (rewrite length_take; lia). rewrite drop_app_le in Hrest by lia. done. }
  rewrite read_exact by done. cbv beta iota. rewrite Hl. change (16 =? 0) with false. change (16 <? 16) with false. cbv iota.
  unfold mlift. rewrite (unpack_pack _ _ _ _ Hh).
  destruct (Z.ltb_spec _MAX_RECORD_BYTES (len (take (Z.to_nat snaplen) (fr_data f)))); [lia|].
  assert (len part < len (take (Z.to_nat snaplen) (fr_data f))).
  { rewrite Hpart, len_app. destruct rest; [|rewrite len_cons; pose proof (len_pos rest); lia].
    exfalso. apply Hne. rewrite Hrec, Hpart, app_nil_r. done. }
  rewrite read_short by done. cbv beta iota. by destruct (Z.ltb_spec (len part) (len (take (Z.to_nat snaplen) (fr_data f)))); [|lia].
Qed.

Lemma turn_end p s : turn_at at_loop (mk_reader p s (mk_stream [] false)) = (Ok Return, mk_reader p s (mk_stream [] false)).
Proof. done. Qed.

Definition counted_frames (fs : list frame) (s : PcapStats) : PcapStats := foldl (λ s f, count_record (cut snaplen f) s) s fs.

(** A run of whole records, then a cut one (or nothing). *)
Lemma drain_written fs tail p : Forall frame_ok fs → Forall (fits snaplen) fs →
  (tail = [] ∨ ∃ f, frame_ok f ∧ fits snaplen f ∧ tail `prefix_of` recb f ∧ tail ≠ recb f) →
  ∀ fuel s, (length (fs ≫= recb) < fuel)%nat →
  drain fuel at_loop (mk_reader p s (mk_stream ((fs ≫= recb) ++ tail) false)) =
    Some (stored_record snaplen <$> fs, Ok tt,
          mk_reader p (if bool_decide (tail = []) then counted_frames fs s else mark_tail (counted_frames fs s)) (mk_stream [] false)).
Proof.
  intros Hfs Hfits Htail. induction Hfs as [|f fs Hf Hfs IH]; intros [|fuel] s Hfuel; try lia; cbn [drain].
  - cbn [mbind list_bind app]. case_bool_decide as Hnil; [by rewrite Hnil|].
    destruct Htail as [?|(f & Hf & Hfit & Hpre & Hne)]; [done|]. rewrite (turn_cut f) by done. done.
  - apply Forall_cons in Hfits as [Hfit Hfits]. rewrite bind_cons in *. rewrite <- app_assoc, turn_written by done.
    rewrite length_app in Hfuel. pose proof (recb_len f Hf). unfold len in *. rewrite IH by (done || lia). done.
Qed.
End Classic.

Lemma writer_header ns snaplen w : new_writer ns snaplen = Ok w →
  pw_nanosecond w = ns ∧ pw_snaplen w = snaplen ∧ 0 < snaplen < 2 ^ 32 ∧
  ∃ h, pw_stream w = pack_field Little FI (if ns then _PCAP_MAGIC_NS else _PCAP_MAGIC_US) ++ h ∧
    pack Little [FH; FH; Fi; FI; FI; FI] [2; 4; 0; 0; snaplen; LINKTYPE_ETHERNET] = Ok h.
Proof.
  unfold new_writer. destruct (Z.leb_spec snaplen 0) as [|Hpos]; [done|].
  change (pack Little (FI :: ?fs) (?v :: ?vs)) with
    (if in_range FI v then rbind (pack Little fs vs) (λ bs, Ok (pack_field Little FI v ++ bs)) else Raise (StructError "argument out of range")).
  replace (in_range FI (if ns then _PCAP_MAGIC_NS else _PCAP_MAGIC_US)) with true by (by destruct ns).
  destruct (pack Little [FH; FH; Fi; FI; FI; FI] _) as [h|] eqn:Hh; [|done]. intros [= <-]. cbn [pw_nanosecond pw_snaplen pw_stream].
  repeat split; [done| |by eauto].
  revert Hh. cbn [pack]. repeat (case_match; [|done]). intros _.
  repeat match goal with Hr : in_range FI _ = true |- _ => apply u32_range in Hr end. lia.
Qed.

Lemma writer_header_len ns snaplen w : new_writer ns snaplen = Ok w → length (pw_stream w) = 24%nat.
Proof.
  intros Hw. destruct (writer_header _ _ _ Hw) as (_ & _ & _ & h & -> & Hh).
  rewrite length_app, length_pack_field, (pack_length _ _ _ _ Hh). done.
Qed.

(** The file header brings the reader to its loop. *)
Lemma drain_header ns snaplen w p s rest fault fuel : new_writer ns snaplen = Ok w →
  drain (S fuel) NotStarted (mk_reader p s (mk_stream (pw_stream w ++ rest) fault)) =
  drain fuel (InPcap Little (ticks_of ns) LINKTYPE_ETHERNET) (mk_reader p (add_link_type LINKTYPE_ETHERNET s) (mk_stream rest fault)).
Proof.
  intros Hw. destruct (writer_header _ _ _ Hw) as (_ & _ & _ & h & -> & Hh). cbn [drain turn_at].
  set (magic := if ns then _PCAP_MAGIC_NS else _PCAP_MAGIC_US). set (head := pack_field Little FI magic).
  assert (Hlen : len head = 4) by (by destruct ns).
  assert (Hmagic : first (unpack Little [FI] head) = Ok magic) by (by destruct ns).
  assert (Hshb : (magic =? _PCAPNG_SHB) = false) by (by destruct ns).
  assert (Horder : magic_order head = Ok (Some (Little, magic))) by (by destruct ns).
  assert (Hticks : (if magic =? _PCAP_MAGIC_US then 1000000 else 1000000000) = ticks_of ns) by (by destruct ns).
  assert (Hlh : len h = 20) by (unfold len; by rewrite (pack_length _ _ _ _ Hh)).
  unfold open_turn, _read_pcap, mbind, m_bind, mlift. rewrite <- app_assoc, read_exact by done. cbv beta iota.
  rewrite Hlen, Hmagic. change (4 <? 4) with false. cbv iota. rewrite Hshb, Horder, Hticks, read_exact by done. cbv beta iota.
  rewrite Hlh. change (20 <? 20) with false. cbv iota. rewrite (unpack_pack _ _ _ _ Hh). done.
Qed.

Lemma writes_inv fs w w' : write_frames fs w = (Ok tt, w') → Forall frame_ok fs.
Proof.
  revert w; induction fs as [|f fs IH]; intros w Hw; [done|]. cbn [write_frames mfold_unit] in Hw.
  apply m_bind_ok in Hw as ([] & w1 & H1 & H2). constructor; [apply (write_ok f w); eauto|]. by eapply IH.
Qed.

Lemma counted_stats snaplen fs s : counted_frames snaplen fs s =
  mk_pstats (ps_records s + Z.of_nat (length fs)) (ps_truncated_records s + Z.of_nat (length (filter (λ f, cut snaplen f = true) fs)))
    (ps_skipped_non_ethernet s) (ps_skipped_without_timestamp s) (ps_truncated_tail s) (ps_link_types s).
Proof.
  revert s; induction fs as [|f fs IH]; intros s.
  { destruct s; cbn. f_equal; lia. }
  unfold counted_frames in *. cbn [foldl]. rewrite IH, filter_cons. destruct (cut snaplen f) eqn:Hc; cbn; repeat case_decide; try done; cbn; f_equal; lia.
Qed.

(** A file of whole records and then part of one more *)
Lemma read_written ns snaplen w0 fs tail path : new_writer ns snaplen = Ok w0 → Forall frame_ok fs → Forall (fits snaplen) fs →
  (tail = [] ∨ ∃ f, frame_ok f ∧ fits snaplen f ∧ tail `prefix_of` record_bytes ns snaplen f ∧ tail ≠ record_bytes ns snaplen f) →
  read_file path (mk_stream (pw_stream w0 ++ (fs ≫= record_bytes ns snaplen) ++ tail) false) =
    Some (stored_record snaplen <$> fs, Ok tt,
      mk_reader path (mk_pstats (Z.of_nat (length fs)) (Z.of_nat (length (filter (λ f, cut snaplen f = true) fs))) 0 0
        (negb (bool_decide (tail = []))) {[LINKTYPE_ETHERNET]}) (mk_stream [] false)).
Proof.
  intros Hw Hfs Hfits Htail. unfold read_file, open_reader. cbn [st_bytes]. erewrite drain_header by done.
  rewrite (drain_written ns snaplen fs tail path Hfs Hfits Htail).
  2:{ rewrite !length_app, (writer_header_len _ _ _ Hw). lia. }
  do 3 f_equal. rewrite counted_stats. unfold mark_tail, add_link_type, new_pcap_stats. cbn.
  rewrite (right_id_L ∅ (∪)). case_bool_decide; done.
Qed.

(** Reading a classic capture file that was written here returns every frame,
    in order, cut at the snap length, at its whole microsecond and with its
    length on the wire; the statistics count them. *)
Theorem pcap_roundtrip ns snaplen fs w0 w path :
  new_writer ns snaplen = Ok w0 → write_frames fs w0 = (Ok tt, w) → Forall (fits snaplen) fs →
  read_file path (mk_stream (pw_stream w) false) =
    Some (stored_record snaplen <$> fs, Ok tt,
      mk_reader path (mk_pstats (Z.of_nat (length fs)) (Z.of_nat (length (filter (λ f, cut snaplen f = true) fs))) 0 0
        false {[LINKTYPE_ETHERNET]}) (mk_stream [] false)).
Proof.
  intros Hw Hws Hfits. pose proof (writes_inv _ _ _ Hws) as Hfs. rewrite writes_spec in Hws by done.
  destruct (writer_header _ _ _ Hw) as (Hn & Hs & _). rewrite Hn, Hs in Hws. injection Hws as <-. cbn [pw_stream].
  pose proof (read_written ns snaplen w0 fs [] path Hw Hfs Hfits (or_introl eq_refl)) as Hr. by rewrite app_nil_r in Hr.
Qed.

Lemma take_bind_cut {A} (g : A → bytes) (l : list A) k : ∃ j tail, (j ≤ length l)%nat ∧
  take k (l ≫= g) = (take j l ≫= g) ++ tail ∧
  ((j = length l ∧ tail = []) ∨ ∃ x, l !! j = Some x ∧ tail `prefix_of` g x ∧ tail ≠ g x).
Proof.
  revert k; induction l as [|x l IH]; intros k.
  { exists 0%nat, []. cbn. rewrite take_nil. auto. }
  rewrite bind_cons. destruct (decide (length (g x) ≤ k)%nat) as [Hle|Hgt].
  - destruct (IH (k - length (g x))%nat) as (j & tail & Hj & Ht & Hc). exists (S j), tail. cbn [length take]. split; [lia|].
    rewrite bind_cons, take_app, take_ge, Ht, app_assoc by done. split; [done|]. destruct Hc as [[-> ->]|Hx]; [by left|by right].
  - exists 0%nat, (take k (g x)). split; [cbn; lia|]. split; [by rewrite take_app_le by lia|]. right. exists x.
    split; [done|]. split; [by apply prefix_of_take || (exists (drop k (g x)); by rewrite take_drop)|].
    intros He. apply (f_equal length) in He. rewrite length_take in He. lia.
Qed.

Lemma bind_take_lt {A} (g : A → bytes) (l : list A) j i x : l !! j = Some x → (j < i)%nat →
  (length (take j l ≫= g) + length (g x) ≤ length (take i l ≫= g))%nat.
Proof.
  revert l i; induction j as [|j IH]; intros [|y l] [|i] Hx Hi; try done; try lia; cbn in Hx; cbn [take]; rewrite !bind_cons, !length_app.
  - injection Hx as ->. cbn. lia.
  - specialize (IH l i Hx). lia.
Qed.

(** The file as it stands once its first [j] frames are written *)
Definition file_after (ns : bool) (snaplen : Z) (fs : list frame) (j : nat) (bs : bytes) : Prop :=
  ∃ w0 w, new_writer ns snaplen = Ok w0 ∧ write_frames (take j fs) w0 = (Ok tt, w) ∧ pw_stream w = bs.

(** C27: a capture killed while writing, that is a written file cut after any
    byte past its 24-byte header, is read without an error up to its last
    whole record: the reader returns exactly the frames whose records are
    complete, and reports a truncated tail exactly when the cut is not at the
    end of a record. *)
Theorem pcap_cut_anywhere ns snaplen fs bs path k :
  file_after ns snaplen fs (length fs) bs → Forall (fits snaplen) fs → (24 ≤ k)%nat →
  ∃ j bsj r, (j ≤ length fs)%nat ∧ file_after ns snaplen fs j bsj ∧
    read_file path (mk_stream (take k bs) false) = Some (stored_record snaplen <$> take j fs, Ok tt, r) ∧
    (ps_truncated_tail (pr_stats r) = false ↔ take k bs = bsj) ∧
    (∀ i bsi, (j < i ≤ length fs)%nat → file_after ns snaplen fs i bsi → (k < length bsi)%nat).
Proof.
  intros (w0 & w & Hw & Hws & <-) Hfits Hk. rewrite firstn_all in Hws. pose proof (writes_inv _ _ _ Hws) as Hfs.
  destruct (writer_header _ _ _ Hw) as (Hn & Hs & _). pose proof (writer_header_len _ _ _ Hw) as Hl.
  assert (Hfile : ∀ i, write_frames (take i fs) w0 = (Ok tt, mk_writer ns snaplen (pw_stream w0 ++ (take i fs ≫= record_bytes ns snaplen)))).
  { intros i. rewrite writes_spec, Hn, Hs by by apply Forall_take. done. }
  rewrite writes_spec, Hn, Hs in Hws by done. injection Hws as <-. cbn [pw_stream].
  rewrite take_app, take_ge, Hl by lia.
  destruct (take_bind_cut (record_bytes ns snaplen) fs (k - 24)) as (j & tail & Hj & Ht & Hc). rewrite Ht.
  eexists j, _, _. split; [done|]. split; [by exists w0; eexists|].
  split; [apply (read_written ns snaplen w0 _ _ path Hw); [by apply Forall_take..|]|split].
  - destruct Hc as [[_ ->]|(f & Hf & Hpre & Hne)]; [by left|]. right. exists f. split; [|split; [|done]].
    + by eapply Forall_lookup_1 in Hfs.
    + by eapply Forall_lookup_1 in Hfits.
  - cbn [pr_stats ps_truncated_tail pw_stream]. rewrite negb_false_iff, bool_decide_eq_true. split; [by intros ->; rewrite app_nil_r|].
    intros He. apply app_inv_head in He. rewrite <- (app_nil_r (take j fs ≫= _)) in He at 2. by apply app_inv_head in He.
  - intros i bsi Hi (w0' & w' & Hw' & Hws' & <-). rewrite Hw in Hw'. injection Hw' as <-. rewrite Hfile in Hws'. injection Hws' as <-.
    cbn [pw_stream]. rewrite length_app, Hl. destruct Hc as [[-> _]|(f & Hf & Hpre & Hne)]; [lia|].
    assert (length tail < length (record_bytes ns snaplen f))%nat.
    { destruct Hpre as [q Hq]. rewrite Hq in Hne |- *. rewrite length_app. destruct q; [by rewrite app_nil_r in Hne|cbn; lia]. }
    pose proof (bind_take_lt (record_bytes ns snaplen) fs j i f Hf). pose proof (bind_take_lt (record_bytes ns snaplen) fs j (length fs) f Hf) as Hall.
    rewrite firstn_all in Hall. apply (f_equal length) in Ht. rewrite length_take, length_app in Ht. lia.
Qed.

(** ** Any bytes at all *)

Definition wp {A} (m : M R A) (r : R) (Q : A → R → Prop) (E : exn → Prop) : Prop :=
  match m r with (Ok a, r') => Q a r' | (Raise e, _) => E e end.

Lemma wp_ret {A} (a : A) r Q E : Q a r → wp (mret a) r Q E.
Proof. done. Qed.
Lemma wp_bind {A B} (m : M R A) (k : A → M R B) r Q E : wp m r (λ a r', wp (k a) r' Q E) E → wp (m ≫= k) r Q E.
Proof. unfold wp, mbind, m_bind. by destruct (m r) as [[a|e] r']. Qed.
Lemma wp_upd g p s st Q E : Q tt (mk_reader p (g s) st) → wp (upd g) (mk_reader p s st) Q E.
Proof. done. Qed.
Lemma wp_lift {A} (x : result A) a r Q E : x = Ok a → Q a r → wp (mlift x) r Q E.
Proof. by intros ->. Qed.
Lemma wp_mono {A} (m : M R A) r (Q Q' : A → R → Prop) E : wp m r Q E → (∀ a r', Q a r' → Q' a r') → wp m r Q' E.
Proof. unfold wp. destruct (m r) as [[a|e] r']; eauto. Qed.

(** The errors a reader may end with *)
Definition read_error (fault : bool) (e : exn) : Prop :=
  (∃ msg, e = PcapFormatError msg) ∨ (fault = true ∧ e = OSError "Input/output error").

Lemma wp_format_error {A} msg r (Q : A → R → Prop) f : wp (format_error msg) r Q (read_error f).
Proof. left. by eexists. Qed.
Lemma wp_read n p s bs f Q : 0 ≤ n →
  (∀ a b, bs = a ++ b → len a = n ∨ (len a < n ∧ b = []) → Q a (mk_reader p s (mk_stream b f))) →
  wp (read n) (mk_reader p s (mk_stream bs f)) Q (read_error f).
Proof.
  intros Hn HQ. unfold wp, read. cbn [pr_stream st_bytes st_fault pr_path pr_stats].
  destruct ((len bs <? n) && f) eqn:Hf; [right; by bool_prop|].
  apply HQ; [by rewrite take_drop|]. unfold len. rewrite length_take.
  destruct (decide (n ≤ Z.of_nat (length bs))); [left; lia|right]. split; [lia|]. apply drop_ge. lia.
Qed.
Lemma wp_unpack e fs bs r (Q : list Z → R → Prop) E : Forall byte_ok bs → length bs = calcsize fs →
  (∀ vs, Forall2 field_range fs vs → Q vs r) → wp (mlift (unpack e fs bs)) r Q E.
Proof. intros Hb Hl HQ. destruct (unpack_ok_size e fs bs Hl Hb) as (vs & Hu & Hr). apply (wp_lift _ _ _ _ _ Hu). auto. Qed.
Lemma wp_first e g bs r (Q : Z → R → Prop) E : Forall byte_ok bs → length bs = width g →
  (∀ v, field_range g v → Q v r) → wp (mlift (first (unpack e [g] bs))) r Q E.
Proof.
  intros Hb Hl HQ. destruct (unpack_ok_size e [g] bs) as (vs & Hu & Hr); [cbn; lia|done|].
  apply Forall2_cons_inv_l in Hr as (v & vs' & Hv & _ & ->). eapply wp_lift; [|by apply HQ]. by rewrite Hu.
Qed.

Definition record_ok (x : PcapRecord) : Prop :=
  Forall byte_ok (rec_data x) ∧ len (rec_data x) ≤ _MAX_RECORD_BYTES ∧ 0 ≤ rec_original_length x < 2 ^ 32.
Definition position_ok (p : position) : Prop :=
  match p with
  | InPcap _ per_second _ => 0 < per_second
  | InPcapng _ interfaces pending =>
      Forall (λ i : interface, 0 < i.1.2) interfaces ∧ Forall byte_ok pending ∧ (pending = [] ∨ length pending = 4%nat)
  | _ => True
  end.
Definition counts (s s' : PcapStats) (n t : Z) : Prop := ps_records s' = ps_records s + n ∧ ps_truncated_records s' = ps_truncated_records s + t.
Definition record_cut (x : PcapRecord) : bool := len (rec_data x) <? rec_original_length x.

(** What one turn may do to the reader it started from *)
Definition turn_post (p : string) (s : PcapStats) (bs : bytes) (f : bool) (t : turn) (r' : R) : Prop :=
  pr_path r' = p ∧ st_fault (pr_stream r') = f ∧ ∃ used, bs = used ++ st_bytes (pr_stream r') ∧
  match t with
  | Next q => 4 ≤ len used ∧ position_ok q ∧ counts s (pr_stats r') 0 0
  | Yield x q => 4 + len (rec_data x) ≤ len used ∧ position_ok q ∧ record_ok x ∧ counts s (pr_stats r') 1 (if record_cut x then 1 else 0)
  | Return => counts s (pr_stats r') 0 0
  end.

Lemma field_u32 v : field_range FI v → 0 ≤ v < 2 ^ 32.
Proof. apply u32_range. Qed.
Lemma field_u16 v : field_range FH v → 0 ≤ v < 65536.
Proof. unfold field_range. change (in_range FH v) with ((0 <=? v) && (v <? 65536)). rewrite andb_true_iff, Z.leb_le, Z.ltb_lt. lia. Qed.
Lemma counts_refl s : counts s s 0 0.
Proof. unfold counts; lia. Qed.
Lemma app_byte_ok (a b : bytes) : Forall byte_ok (a ++ b) → Forall byte_ok a ∧ Forall byte_ok b.
Proof. apply Forall_app. Qed.

Lemma wp_record data ts original p s st Q E :
  Q (mk_record data ts original) (mk_reader p (count_record (len data <? original) s) st) →
  wp (_pcap_record data ts original) (mk_reader p s st) Q E.
Proof. done. Qed.
Lemma wp_floor units per r (Q : Z → R → Prop) E : 0 < per → Q (units * 1000000 / per) r → wp (mlift (_floor_to_us units per)) r Q E.
Proof. intros Hp HQ. apply (wp_lift _ (units * 1000000 / per)); [|done]. unfold _floor_to_us. by destruct (Z.eqb_spec per 0); [lia|]. Qed.
Lemma counts_record s x ts original : counts s (count_record (len x <? original) s) 1 (if record_cut (mk_record x ts original) then 1 else 0).
Proof. unfold counts, record_cut, count_record. cbn. destruct (len x <? original); cbn; lia. Qed.
Lemma counts_mark s : counts s (mark_tail s) 0 0.
Proof. unfold counts; cbn; lia. Qed.
Lemma counts_link l s : counts s (add_link_type l s) 0 0.
Proof. unfold counts; cbn; lia. Qed.
Lemma counts_skip s : counts s (count_non_ethernet s) 0 0 ∧ counts s (count_without_timestamp s) 0 0.
Proof. unfold counts; cbn; lia. Qed.
Lemma counts_trans s s' s'' n t : counts s s' 0 0 → counts s' s'' n t → counts s s'' n t.
Proof. unfold counts. lia. Qed.

Lemma length_len (bs : bytes) n : len bs = Z.of_nat n → length bs = n.
Proof. unfold len. lia. Qed.

Lemma pcap_turn_ok e per link p s bs f : 0 < per → Forall byte_ok bs →
  wp (pcap_turn e per link) (mk_reader p s (mk_stream bs f)) (turn_post p s bs f) (read_error f).
Proof.
  intros Hper Hbs. unfold pcap_turn. apply wp_bind, wp_read; [lia|]. intros h b1 -> Hh. apply app_byte_ok in Hbs as [Hhb Hb1].
  destruct (Z.eqb_spec (len h) 0).
  { apply wp_ret. split; [done|]. split; [done|]. exists h. split; [done|apply counts_refl]. }
  destruct (Z.ltb_spec (len h) 16).
  { apply wp_bind, wp_upd, wp_ret. split; [done|]. split; [done|]. exists h. split; [done|apply counts_mark]. }
  apply wp_bind, wp_unpack; [done|apply length_len; change (calcsize _) with 16%nat; lia|]. intros vs Hvs.
  apply Forall2_cons_inv_l in Hvs as (seconds & ? & ?%field_u32 & Hvs & ->). apply Forall2_cons_inv_l in Hvs as (fraction & ? & ?%field_u32 & Hvs & ->).
  apply Forall2_cons_inv_l in Hvs as (captured & ? & ?%field_u32 & Hvs & ->). apply Forall2_cons_inv_l in Hvs as (original & ? & ?%field_u32 & Hvs & ->).
  apply Forall2_nil_inv_l in Hvs as ->. cbv beta iota. destruct (Z.ltb_spec _MAX_RECORD_BYTES captured); [apply wp_format_error|].
  apply wp_bind, wp_read; [lia|]. intros data b2 -> Hd. apply app_byte_ok in Hb1 as [Hdb Hb2].
  destruct (Z.ltb_spec (len data) captured).
  { apply wp_bind, wp_upd, wp_ret. split; [done|]. split; [done|]. exists (h ++ data). rewrite <- app_assoc. split; [done|apply counts_mark]. }
  pose proof (len_pos data). assert (Hused : h ++ data ++ b2 = (h ++ data) ++ b2) by by rewrite app_assoc.
  destruct (negb (link =? LINKTYPE_ETHERNET)).
  { apply wp_bind, wp_upd, wp_ret. split; [done|]. split; [done|]. exists (h ++ data). rewrite len_app.
    split; [done|]. split; [lia|]. split; [done|apply counts_skip]. }
  apply wp_bind, wp_floor; [done|]. apply wp_bind, wp_record, wp_ret. split; [done|]. split; [done|]. exists (h ++ data). rewrite len_app.
  split; [done|]. cbn [rec_data]. split; [lia|]. split; [done|]. split; [|apply counts_record]. unfold record_ok. cbn. split; [done|lia].
Qed.

Lemma open_turn_ok p s bs f : Forall byte_ok bs →
  wp open_turn (mk_reader p s (mk_stream bs f)) (turn_post p s bs f) (read_error f).
Proof.
  intros Hbs. unfold open_turn. apply wp_bind, wp_read; [lia|]. intros h b1 -> Hh. apply app_byte_ok in Hbs as [Hhb Hb1].
  destruct (Z.ltb_spec (len h) 4); [apply wp_format_error|]. assert (Hl : length h = 4%nat) by (apply length_len; lia).
  apply wp_bind, wp_first; [done|done|]. intros m Hm. destruct (m =? _PCAPNG_SHB).
  { apply wp_ret. split; [done|]. split; [done|]. exists h. split; [done|]. split; [lia|]. split; [|apply counts_refl].
    split; [done|]. split; [done|by right]. }
  unfold _read_pcap. assert (∃ o, magic_order h = Ok o) as [o Ho].
  { destruct (unpack_ok_size Little [FI] h Hl Hhb) as (v1 & Hv1 & Hr1). destruct (unpack_ok_size Big [FI] h Hl Hhb) as (v2 & Hv2 & Hr2).
    apply Forall2_cons_inv_l in Hr1 as (? & ? & _ & _ & ->). apply Forall2_cons_inv_l in Hr2 as (? & ? & _ & _ & ->).
    unfold magic_order, mbind, result_bind. rewrite Hv1, Hv2. cbn [first rbind]. split_ifs; eauto. }
  apply wp_bind, (wp_lift _ _ _ _ _ Ho). destruct o as [[e magic]|]; [|apply wp_format_error].
  apply wp_bind, wp_read; [lia|]. intros rest b2 -> Hr. apply app_byte_ok in Hb1 as [Hrb Hb2].
  destruct (Z.ltb_spec (len rest) 20); [apply wp_format_error|].
  apply wp_bind, wp_unpack; [done|apply length_len; change (calcsize _) with 20%nat; lia|]. intros vs Hvs.
  repeat match goal with Hv : Forall2 _ (_ :: _) _ |- _ => apply Forall2_cons_inv_l in Hv as (? & ? & _ & Hv & ->) end.
  apply Forall2_nil_inv_l in Hvs as ->. cbv beta iota. apply wp_bind, wp_upd, wp_ret. split; [done|]. split; [done|].
  exists (h ++ rest). rewrite len_app, <- app_assoc. split; [done|]. split; [lia|]. split; [by case_match|apply counts_link].
Qed.

Lemma slice_ok raw i j : Forall byte_ok raw → Forall byte_ok (slice raw i j).
Proof. apply slice_bytes. Qed.
Lemma slice_length raw i j n : 0 ≤ i → i ≤ j → j ≤ len raw → j - i = Z.of_nat n → length (slice raw i j) = n.
Proof. intros. pose proof (length_slice raw i j). lia. Qed.

Lemma option_step raw e at_ : Forall byte_ok raw → 0 ≤ at_ → at_ + 4 ≤ len raw →
  ∃ code l, unpack e [FH; FH] (slice raw at_ (at_ + 4)) = Ok [code; l] ∧ 0 ≤ l < 65536.
Proof.
  intros Hraw Hat Hle. destruct (unpack_ok_size e [FH; FH] (slice raw at_ (at_ + 4))) as (vs & Hu & Hvs);
    [apply slice_length; cbn; lia|by apply slice_ok|].
  apply Forall2_cons_inv_l in Hvs as (code & ? & _ & Hvs & ->). apply Forall2_cons_inv_l in Hvs as (l & ? & Hl%field_u16 & Hvs & ->).
  apply Forall2_nil_inv_l in Hvs as ->. eauto.
Qed.

(** Every option takes at least four bytes, so the loop ends and never needs
    the fuel it is given. *)
Lemma options_total raw e : Forall byte_ok raw → ∀ fuel at_, 0 ≤ at_ → (length raw - Z.to_nat at_ < fuel)%nat →
  ∃ os, Forall (λ o : Z * bytes, Forall byte_ok o.2) os ∧ ∀ fuel', (fuel ≤ fuel')%nat → options_loop fuel' raw e at_ = Ok os.
Proof.
  intros Hraw. induction fuel as [|fuel IH]; intros at_ Hat Hf; [lia|].
  destruct (Z.leb_spec (at_ + 4) (len raw)) as [Hle|Hgt].
  2:{ exists []. split; [done|]. intros [|fuel'] Hf'; [lia|]. cbn. by destruct (Z.leb_spec (at_ + 4) (len raw)); [lia|]. }
  destruct (option_step raw e at_ Hraw Hat Hle) as (code & l & Hu & Hl). pose proof (Z.mod_pos_bound (- l) 4).
  destruct (decide (code = _OPT_END)) as [->|Hne].
  { exists []. split; [done|]. intros [|fuel'] Hf'; [lia|]. cbn [options_loop]. destruct (Z.leb_spec (at_ + 4) (len raw)); [|lia].
    unfold mbind, result_bind. by rewrite Hu. }
  destruct (IH (at_ + (4 + l + (- l) mod 4))) as (os & Hos & Hrun); [lia|unfold len in *; lia|].
  exists ((code, slice raw (at_ + 4) (at_ + 4 + l)) :: os). split; [constructor; [by apply slice_ok|done]|].
  intros [|fuel'] Hf'; [lia|]. cbn [options_loop]. destruct (Z.leb_spec (at_ + 4) (len raw)); [|lia].
  unfold mbind, result_bind. rewrite Hu. cbn [rbind]. destruct (Z.eqb_spec code _OPT_END); [done|]. rewrite Hrun by lia. done.
Qed.
Lemma options_ok raw e : Forall byte_ok raw → ∃ os, _options raw e = Ok os ∧ Forall (λ o : Z * bytes, Forall byte_ok o.2) os.
Proof. intros Hraw. destruct (options_total raw e Hraw (S (length raw)) 0) as (os & Hos & Hrun); [lia..|]. exists os. split; [by apply Hrun|done]. Qed.

Lemma interface_options_ok e os per off r f : Forall (λ o : Z * bytes, Forall byte_ok o.2) os → 0 < per →
  wp (interface_options e os per off) r (λ x r', r' = r ∧ 0 < x.1) (read_error f).
Proof.
  intros Hos. revert per off. induction Hos as [|[code v] os Hv _ IH]; intros per off Hper; cbn [interface_options]; [done|].
  destruct ((code =? _OPT_IF_TSRESOL) && (1 <=? len v)) eqn:Hres.
  - bool_prop. destruct v as [|b v]; [done|]. apply wp_bind, (wp_lift _ b); [done|].
    destruct (30 <? Z.land b 127) eqn:H30; [apply wp_format_error|]. apply IH.
    assert (0 ≤ Z.land b 127) by (apply Z.land_nonneg; lia). case_match; apply Z.pow_pos_nonneg; lia.
  - destruct ((code =? _OPT_IF_TSOFFSET) && (8 <=? len v)) eqn:Hoff; [|by apply IH].
    bool_prop. apply wp_bind, wp_first; [by apply slice_ok|apply slice_length; cbn; lia|]. intros o _. by apply IH.
Qed.

Lemma interface_ok body e p s st f : Forall byte_ok body →
  wp (_interface body e) (mk_reader p s st) (λ i r', 0 < i.1.2 ∧ ∃ l, r' = mk_reader p (add_link_type l s) st) (read_error f).
Proof.
  intros Hb. unfold _interface. destruct (Z.ltb_spec (len body) 8); [apply wp_format_error|].
  apply wp_bind, wp_first; [by apply slice_ok|apply slice_length; cbn; lia|]. intros l _. apply wp_bind, wp_upd.
  destruct (options_ok (drop 8 body) e) as (os & Ho & Hos); [by apply Forall_drop|].
  apply wp_bind, (wp_lift _ _ _ _ _ Ho), wp_bind. eapply wp_mono; [by apply interface_options_ok|].
  intros [per off] r' [-> Hper]. apply wp_ret. eauto.
Qed.

Lemma packet_fields_ok block_type body e r f : Forall byte_ok body →
  wp (packet_fields block_type body e) r (λ x r', r' = r ∧ 20 ≤ len body ∧ 0 ≤ x.1.1.1.1 ∧ 0 ≤ x.1.2 ∧ 0 ≤ x.2 < 2 ^ 32) (read_error f).
Proof.
  intros Hb. unfold packet_fields. destruct (block_type =? _PCAPNG_EPB); (destruct (Z.ltb_spec (len body) 20); [apply wp_format_error|]);
    (apply wp_bind, wp_unpack; [by apply slice_ok|apply slice_length; cbn; lia|]); intros vs Hvs;
    repeat match goal with
    | Hv : Forall2 _ (FI :: _) _ |- _ => apply Forall2_cons_inv_l in Hv as (? & ? & ?%field_u32 & Hv & ->)
    | Hv : Forall2 _ (FH :: _) _ |- _ => apply Forall2_cons_inv_l in Hv as (? & ? & ?%field_u16 & Hv & ->)
    end; apply Forall2_nil_inv_l in Hvs as ->; cbn; repeat split; lia.
Qed.

(** A packet block yields a record cut out of its body, or is skipped. *)
Lemma packet_block_ok block_type body e ifs p s st f : Forall byte_ok body → Forall (λ i : interface, 0 < i.1.2) ifs →
  wp (_packet_block block_type body e ifs) (mk_reader p s st)
    (λ x r', ∃ s', r' = mk_reader p s' st ∧
       match x with
       | None => counts s s' 0 0
       | Some x => record_ok x ∧ len (rec_data x) + 20 ≤ len body ∧ counts s s' 1 (if record_cut x then 1 else 0)
       end) (read_error f).
Proof.
  intros Hb Hifs. unfold _packet_block. apply wp_bind. eapply wp_mono; [by apply packet_fields_ok|].
  intros [[[[i high] low] captured] original] r' (-> & Hlen & Hi & Hc & Ho). cbn [fst snd] in *.
  destruct (Z.leb_spec (Z.of_nat (length ifs)) i); [apply wp_format_error|].
  destruct ((len body - 20 <? captured) || (_MAX_RECORD_BYTES <? captured)) eqn:Hcap; [apply wp_format_error|]. bool_prop.
  destruct (lookup_lt_is_Some_2 ifs (Z.to_nat i)) as [[[link per] off] Hlook]; [lia|]. rewrite Hlook.
  assert (0 < per) by (apply (Forall_lookup_1 _ _ _ _ Hifs Hlook)). destruct (negb (link =? LINKTYPE_ETHERNET)).
  { apply wp_bind, wp_upd, wp_ret. eexists. split; [done|apply counts_skip]. }
  apply wp_bind, wp_floor; [done|]. apply wp_bind, wp_record, wp_ret. eexists. split; [done|].
  assert (Hd : len (slice body 20 (20 + captured)) = captured).
  { pose proof (length_slice body 20 (20 + captured)). unfold len. lia. }
  unfold record_ok. cbn [rec_data rec_original_length]. split; [split; [by apply slice_ok|lia]|]. split; [lia|apply counts_record].
Qed.

(** What is left after the header of a block is read *)
Definition rest_post (p : string) (s : PcapStats) (bs : bytes) (f : bool) (t : turn) (r' : R) : Prop :=
  pr_path r' = p ∧ st_fault (pr_stream r') = f ∧ ∃ used, bs = used ++ st_bytes (pr_stream r') ∧
  match t with
  | Next q => position_ok q ∧ counts s (pr_stats r') 0 0
  | Yield x q => len (rec_data x) ≤ len used ∧ position_ok q ∧ record_ok x ∧ counts s (pr_stats r') 1 (if record_cut x then 1 else 0)
  | Return => counts s (pr_stats r') 0 0
  end.

Lemma block_body_ok block_type e ifs raw prefix p s bs f : Forall byte_ok bs → Forall byte_ok raw → length raw = 8%nat →
  Forall byte_ok prefix → len prefix ≤ 4 → Forall (λ i : interface, 0 < i.1.2) ifs →
  wp (block_body block_type e ifs raw prefix) (mk_reader p s (mk_stream bs f)) (rest_post p s bs f) (read_error f).
Proof.
  intros Hbs Hraw Hlraw Hpre Hlpre Hifs. unfold block_body.
  apply wp_bind, wp_first; [by apply slice_ok|apply slice_length; unfold len; cbn; lia|]. intros total Ht%field_u32.
  destruct ((total <? 12) || negb (total mod 4 =? 0) || (_MAX_BLOCK_BYTES <? total)) eqn:Hbad; [apply wp_format_error|]. bool_prop.
  apply wp_bind, wp_read; [pose proof (len_pos prefix); lia|]. intros rem b -> Hrem. apply app_byte_ok in Hbs as [Hremb Hb].
  destruct (Z.ltb_spec (len rem) (total - 8 - len prefix)).
  { apply wp_bind, wp_upd, wp_ret. split; [done|]. split; [done|]. exists rem. split; [done|apply counts_mark]. }
  set (whole := prefix ++ rem). set (body := take (length whole - 4) whole).
  assert (Hbody : Forall byte_ok body) by (apply Forall_take, Forall_app; done).
  assert (Hlbody : len body = total - 12).
  { unfold body, len. rewrite length_take. assert (len whole = total - 8) by (unfold whole; rewrite len_app; lia). unfold len in *. lia. }
  assert (Hpos : ∀ ifs', Forall (λ i : interface, 0 < i.1.2) ifs' → position_ok (InPcapng e ifs' [])) by (split; [done|split; [done|by left]]).
  destruct (block_type =? _PCAPNG_IDB).
  { apply wp_bind. eapply wp_mono; [by apply interface_ok|]. intros i r' [Hi [l ->]]. apply wp_ret. split; [done|]. split; [done|].
    exists rem. split; [done|]. split; [|apply counts_link]. apply Hpos, Forall_app. split; [done|by constructor]. }
  destruct ((block_type =? _PCAPNG_EPB) || (block_type =? _PCAPNG_OPB)).
  { apply wp_bind. eapply wp_mono; [by apply packet_block_ok|]. intros [x|] r' (s' & -> & Hx); apply wp_ret; (split; [done|]); (split; [done|]);
      exists rem; (split; [done|]); [|by split; [apply Hpos|]].
    destruct Hx as (Hok & Hlx & Hcx). split; [lia|]. split; [by apply Hpos|]. done. }
  destruct (block_type =? _PCAPNG_SPB).
  { apply wp_bind, wp_upd, wp_ret. split; [done|]. split; [done|]. exists rem. split; [done|]. split; [by apply Hpos|apply counts_skip]. }
  apply wp_ret. split; [done|]. split; [done|]. exists rem. split; [done|]. split; [by apply Hpos|apply counts_refl].
Qed.

(** The reads before a block's body only consume, four bytes at least. *)
Lemma rest_turn p s a b f t r' : 4 ≤ len a → rest_post p s b f t r' → turn_post p s (a ++ b) f t r'.
Proof.
  intros Ha (Hp & Hf & used & -> & Ht). split; [done|]. split; [done|]. exists (a ++ used). split; [by rewrite app_assoc|].
  rewrite len_app. pose proof (len_pos used). destruct t; [|split; [lia|done]|done]. split; [lia|]. apply Ht.
Qed.

Lemma pcapng_turn_ok e ifs pending p s bs f : position_ok (InPcapng e ifs pending) → Forall byte_ok bs →
  wp (pcapng_turn e ifs pending) (mk_reader p s (mk_stream bs f)) (turn_post p s bs f) (read_error f).
Proof.
  intros (Hifs & Hpend & Hlp) Hbs. unfold pcapng_turn.
  assert (Hl : 0 ≤ len pending ≤ 4) by (destruct Hlp as [->|Hlp]; [done|unfold len; lia]).
  apply wp_bind, wp_read; [lia|]. intros more b1 -> Hm. apply app_byte_ok in Hbs as [Hmb Hb1]. set (raw := pending ++ more).
  assert (Hraw : Forall byte_ok raw) by (by apply Forall_app). assert (Hlr : len raw = len pending + len more) by apply len_app.
  destruct (Z.eqb_spec (len raw) 0).
  { apply wp_ret. split; [done|]. split; [done|]. exists more. split; [done|apply counts_refl]. }
  destruct (Z.ltb_spec (len raw) 8).
  { apply wp_bind, wp_upd, wp_ret. split; [done|]. split; [done|]. exists more. split; [done|apply counts_mark]. }
  assert (Hr8 : length raw = 8%nat) by (apply length_len; lia).
  apply wp_bind, wp_first; [by apply slice_ok|apply slice_length; cbn; lia|]. intros bt _. destruct (bt =? _PCAPNG_SHB).
  - apply wp_bind. unfold section_header. apply wp_bind, wp_read; [lia|]. intros order b2 -> Ho. apply app_byte_ok in Hb1 as [Hob Hb2].
    destruct (Z.ltb_spec (len order) 4).
    { apply wp_bind, wp_upd, wp_ret, wp_ret. split; [done|]. split; [done|]. exists (more ++ order). rewrite app_assoc.
      split; [done|apply counts_mark]. }
    assert (Hgo : ∀ e', wp (block_body bt e' [] raw order) (mk_reader p s (mk_stream b2 f)) (turn_post p s (more ++ order ++ b2) f) (read_error f)).
    { intros e'. eapply wp_mono; [apply block_body_ok; try done; lia|]. intros t r' Hrest. rewrite app_assoc. apply rest_turn; [|done].
      rewrite len_app. pose proof (len_pos more). lia. }
    assert (length order = 4%nat) by (apply length_len; lia).
    apply wp_bind, wp_first; [done|done|]. intros l _. destruct (l =? _PCAPNG_BYTE_ORDER_MAGIC); [apply Hgo|].
    apply wp_bind, wp_first; [done|done|]. intros l' _. destruct (l' =? _PCAPNG_BYTE_ORDER_MAGIC); [apply Hgo|apply wp_format_error].
  - eapply wp_mono; [by apply block_body_ok|]. intros t r' Hrest. apply rest_turn; [lia|done].
Qed.

Lemma turn_ok q p s bs f : position_ok q → Forall byte_ok bs →
  wp (turn_at q) (mk_reader p s (mk_stream bs f)) (turn_post p s bs f) (read_error f).
Proof.
  intros Hq Hbs. destruct q; [by apply open_turn_ok|by apply pcap_turn_ok|by apply pcapng_turn_ok|].
  split; [done|]. split; [done|]. exists []. split; [done|apply counts_refl].
Qed.

Definition reader_ok (r : R) : Prop := Forall byte_ok (st_bytes (pr_stream r)).
Definition bytes_left (r : R) : nat := length (st_bytes (pr_stream r)).
Definition ended_well (fault : bool) (e : result unit) : Prop := match e with Ok _ => True | Raise x => read_error fault x end.
Definition data_size (xs : list PcapRecord) : Z := foldr (λ x n, len (rec_data x) + n) 0 xs.

Lemma turn_cases q r : position_ok q → reader_ok r →
  match turn_at q r with
  | (Ok t, r') => turn_post (pr_path r) (pr_stats r) (st_bytes (pr_stream r)) (st_fault (pr_stream r)) t r' ∧ reader_ok r'
  | (Raise e, _) => read_error (st_fault (pr_stream r)) e
  end.
Proof.
  intros Hq Hr. destruct r as [p s [bs f]]. pose proof (turn_ok q p s bs f Hq Hr) as Ht. unfold wp in Ht. cbn.
  destruct (turn_at q _) as [[t|e] r']; [|done]. split; [done|]. destruct Ht as (_ & _ & used & Hu & _). unfold reader_ok in *.
  cbn in Hr. rewrite Hu in Hr. apply (app_byte_ok used), Hr.
Qed.

(** However the iteration goes, it ends within the fuel. *)
Lemma drain_total fuel : ∀ q r, position_ok q → reader_ok r → (bytes_left r < fuel)%nat →
  ∃ xs e r', (∀ fuel', (fuel ≤ fuel')%nat → drain fuel' q r = Some (xs, e, r')) ∧ ended_well (st_fault (pr_stream r)) e ∧
    Forall record_ok xs ∧ data_size xs ≤ len (st_bytes (pr_stream r)) ∧
    (e = Ok tt → counts (pr_stats r) (pr_stats r') (Z.of_nat (length xs)) (Z.of_nat (length (filter (λ x, record_cut x = true) xs)))).
Proof.
  induction fuel as [|fuel IH]; intros q r Hq Hr Hf; [lia|]. pose proof (turn_cases q r Hq Hr) as Ht.
  destruct (turn_at q r) as [[t|e] r'] eqn:Hturn.
  2:{ exists [], (Raise e), r'. split; [intros [|fuel'] ?; [lia|]; cbn; by rewrite Hturn|]. repeat split; try done. apply len_pos. }
  destruct Ht as [(Hp & Hflt & used & Hu & Hpost) Hr'].
  assert (Hlen : len (st_bytes (pr_stream r)) = len used + len (st_bytes (pr_stream r'))) by (rewrite Hu at 1; apply len_app).
  destruct t as [x q'|q'|].
  - destruct Hpost as (Hl4 & Hq' & Hx & Hc). destruct (IH q' r' Hq' Hr') as (xs & e & r'' & Hrun & He & Hxs & Hsz & Hcs).
    { unfold bytes_left, len in *. lia. }
    exists (x :: xs), e, r''. split; [intros [|fuel'] ?; [lia|]; cbn; by rewrite Hturn, Hrun by lia|]. rewrite Hflt in He.
    split; [done|]. split; [by constructor|]. split; [cbn [data_size foldr]; fold (data_size xs); lia|]. intros ->. specialize (Hcs eq_refl).
    rewrite filter_cons. unfold counts in *. destruct (record_cut x) eqn:Hcut; repeat case_decide; try done; cbn [length]; lia.
  - destruct Hpost as (Hl4 & Hq' & Hc). destruct (IH q' r' Hq' Hr') as (xs & e & r'' & Hrun & He & Hxs & Hsz & Hcs).
    { unfold bytes_left, len in *. lia. }
    exists xs, e, r''. split; [intros [|fuel'] ?; [lia|]; cbn; by rewrite Hturn, Hrun by lia|]. rewrite Hflt in He.
    pose proof (len_pos used). repeat (split; [done || lia|]). intros ->. eapply counts_trans; [done|by apply Hcs].
  - exists [], (Ok tt), r'. split; [intros [|fuel'] ?; [lia|]; cbn; by rewrite Hturn|]. repeat split; try done; [apply len_pos|..]; cbn; apply Hpost.
Qed.

(** C28: on any bytes whatsoever, the reader ends: after finitely many records
    it stops, or raises a [PcapFormatError] (or, on a device that fails, the
    I/O error itself), and never anything else.  Every record is within the
    size limit, the data returned is no larger than the file, and the
    statistics count the records and the cut ones. *)
Theorem reader_total path bs fault : Forall byte_ok bs →
  ∃ xs e r, read_file path (mk_stream bs fault) = Some (xs, e, r) ∧ ended_well fault e ∧
    Forall record_ok xs ∧ data_size xs ≤ len bs ∧
    (e = Ok tt → ps_records (pr_stats r) = Z.of_nat (length xs) ∧
       ps_truncated_records (pr_stats r) = Z.of_nat (length (filter (λ x, record_cut x = true) xs))).
Proof.
  intros Hbs. destruct (drain_total (S (length bs)) NotStarted (open_reader path (mk_stream bs fault))) as (xs & e & r & Hrun & He & Hxs & Hsz & Hc);
    [done|done|unfold bytes_left; cbn; lia|]. exists xs, e, r. split; [by apply Hrun|]. done.
Qed.

(** ** One record at a time *)

(** What is still to come from a suspended reader *)
Definition contents (q : position) (r : R) : list PcapRecord * result unit :=
  match drain (S (bytes_left r)) q r with Some (xs, e, _) => (xs, e) | None => ([], Ok tt) end.

Lemma drain_contents q r fuel : position_ok q → reader_ok r → (bytes_left r < fuel)%nat → ∃ r', drain fuel q r = Some ((contents q r).1, (contents q r).2, r').
Proof.
  intros Hq Hr Hf. destruct (drain_total (S (bytes_left r)) q r Hq Hr) as (xs & e & r' & Hrun & _); [lia|].
  unfold contents. rewrite !Hrun by lia. by exists r'.
Qed.

Definition live (q : position) (r : R) : Prop := q = Ended ∨ (position_ok q ∧ reader_ok r).
Lemma contents_ended r : contents Ended r = ([], Ok tt).
Proof. done. Qed.

(** [next] always answers, with the next record of the contents, or says how
    they end. *)
Lemma resume_enough fuel : ∀ q r, position_ok q → reader_ok r → (bytes_left r < fuel)%nat →
  ∃ res q' r', resume fuel q r = Some (res, q', r') ∧ live q' r' ∧
    match res with
    | Ok (Some x) => contents q r = (x :: (contents q' r').1, (contents q' r').2) ∧ (bytes_left r' < bytes_left r)%nat ∧ st_fault (pr_stream r') = st_fault (pr_stream r)
    | Ok None => contents q r = ([], Ok tt) ∧ q' = Ended
    | Raise e => contents q r = ([], Raise e) ∧ read_error (st_fault (pr_stream r)) e ∧ q' = Ended
    end.
Proof.
  induction fuel as [|fuel IH]; intros q r Hq Hr Hf; [lia|]. pose proof (turn_cases q r Hq Hr) as Ht. cbn [resume].
  assert (Hc : contents q r = match drain (S (bytes_left r)) q r with Some (xs, e, _) => (xs, e) | None => ([], Ok tt) end) by done.
  cbn [drain] in Hc. destruct (turn_at q r) as [[t|e] r'] eqn:Hturn.
  2:{ exists (Raise e), Ended, r'. split; [done|]. split; [by left|]. split; [done|]. by split. }
  destruct Ht as [(Hp & Hflt & used & Hu & Hpost) Hr'].
  assert (Hlen : bytes_left r = (length used + bytes_left r')%nat) by (unfold bytes_left; rewrite Hu at 1; apply length_app).
  destruct t as [x q'|q'|].
  - destruct Hpost as (Hl4 & Hq' & _). pose proof (len_pos (rec_data x)).
    exists (Ok (Some x)), q', r'. split; [done|]. split; [by right|]. assert (bytes_left r' < bytes_left r)%nat by (unfold len in *; lia). split; [|by split].
    destruct (drain_contents q' r' (bytes_left r)) as [r'' Hd]; [done..|]. by rewrite Hd in Hc.
  - destruct Hpost as (Hl4 & Hq' & _). assert (bytes_left r' < bytes_left r)%nat by (unfold len in *; lia).
    destruct (drain_contents q' r' (bytes_left r)) as [r'' Hd]; [done..|]. rewrite Hd in Hc.
    destruct (IH q' r' Hq' Hr') as (res & q'' & r3 & Hres & Hlive & Hm); [lia|].
    exists res, q'', r3. rewrite Hflt in Hm. split; [done|]. split; [done|]. rewrite Hc. destruct (contents q' r') as [xs e'] eqn:Hcc.
    cbn [fst snd] in *. destruct res as [[x|]|e]; [|done|done]. destruct Hm as (? & ? & ?). split; [done|]. split; [lia|done].
  - exists (Ok None), Ended, r'. split; [done|]. split; [by left|]. by split.
Qed.

Lemma next_answers q r : live q r → ∃ res q' r', iter_next q r = Some (res, q', r') ∧ live q' r' ∧
  match res with
  | Ok (Some x) => contents q r = (x :: (contents q' r').1, (contents q' r').2)
  | Ok None => contents q r = ([], Ok tt) ∧ q' = Ended
  | Raise e => contents q r = ([], Raise e) ∧ read_error (st_fault (pr_stream r)) e ∧ q' = Ended
  end.
Proof.
  intros [->|[Hq Hr]].
  { exists (Ok None), Ended, r. split; [done|]. split; [by left|]. by split. }
  destruct (resume_enough (S (bytes_left r)) q r Hq Hr) as (res & q' & r' & Hres & Hl & Hm); [lia|]. exists res, q', r'. split; [done|].
  split; [done|]. destruct res as [[x|]|e]; [apply Hm|done|done].
Qed.
