(* ===== verification/TlsCache.v ===== *)
(** * TLS evidence between capture and detection (runtime/core.py)

    A TLS match is found on a segment by the capture thread and belongs to a
    flow that completes later.  [CoreDaemon._tls_evidence] keeps it by flow
    key until [_pop_tls_evidence] hands it to the pipeline.  The theorem says
    what the detection thread can receive: the latest match seen on the flow's
    own key since that key was last asked for, at most once. *)

From S2P Require Import Prelude Float Net Models Flow Parser Thresholds Threat Tls.
Local Open Scope Z_scope.

Definition _TLS_EVIDENCE_CACHE_MAX : Z := 10000.

Record _CachedTlsMatch : Type := mk_cached {
  ct_signature : string;
  ct_confidence : float;
  ct_detail : string;
  ct_generated_at : Z;
}.

(** [capture/interfaces.py] *)
Record TcpPayload : Type := mk_segment {
  tp_source_ip : IPv4.t;
  tp_destination_ip : IPv4.t;
  tp_source_port : option Z;
  tp_destination_port : option Z;
  tp_timestamp : Z;
  tp_payload : bytes;
}.

Definition TlsCache : Type := list (FlowKey * _CachedTlsMatch).

Definition segment_key (s : TcpPayload) : FlowKey :=
  compute_flow_key (tp_source_ip s) (tp_destination_ip s) (tp_source_port s) (tp_destination_port s) TCP.
Definition flow_key_of (f : Flow) : FlowKey :=
  compute_flow_key (fl_source_ip f) (fl_destination_ip f) (fl_source_port f) (fl_destination_port f) (fl_protocol f).

Definition _cache_tls_match (s : TcpPayload) (signature : string) (confidence : float) (detail : string) (d : TlsCache) : TlsCache :=
  let key := segment_key s in
  let m := mk_cached signature confidence detail (tp_timestamp s) in
  let d := if negb (dmem d key) && (_TLS_EVIDENCE_CACHE_MAX <=? Z.of_nat (length d)) then dpopitem_first d else d in
  dmove_to_end (dset d key m) key.

Definition heartbleed_detail (m : HeartbleedMatch) : string :=
  "TLS heartbeat claimed payload_length=" +:+ pretty (hb_claimed_payload_length m) +:+ " but the record held only "
  +:+ pretty (hb_available_bytes m) +:+ " bytes (CVE-2014-0160 signature)".
Definition ja3_detail (k : KnownToolMatch) : string :=
  "TLS ClientHello JA3 fingerprint matches known tool " +:+ py_repr (kt_tool k).

(** [_inspect_tcp_payload] and [_inspect_tcp_payload_unsafe]: neither detector
    raises, so the guard around them has nothing to catch. *)
Definition _inspect_tcp_payload (known : list (string * string)) (s : TcpPayload) (d : TlsCache) : TlsCache :=
  match tp_payload s with
  | [] => d
  | payload =>
      match check_heartbleed payload with
      | Some hb => _cache_tls_match s "heartbleed" (float_of_Z 1) (heartbleed_detail hb) d
      | None =>
          match compute_ja3 payload with
          | None => d
          | Some fingerprint =>
              match match_known_tool fingerprint known with
              | None => d
              | Some tool => _cache_tls_match s ("ja3:" +:+ kt_ja3_hash tool) (hundredths 60) (ja3_detail tool) d
              end
          end
      end
  end.

Definition _handle_tcp_payload (known : list (string * string)) (metadata : PacketMetadata) (raw : bytes) (d : TlsCache) : TlsCache :=
  match pk_source_ip metadata, pk_destination_ip metadata with
  | V4 src, V4 dst =>
      match extract_tcp_payload raw with
      | None | Some [] => d
      | Some payload =>
          _inspect_tcp_payload known
            (mk_segment src dst (pk_source_port metadata) (pk_destination_port metadata) (pk_timestamp metadata) payload) d
      end
  | _, _ => d
  end.

Definition _pop_tls_evidence (flow_id : Flow → string) (f : Flow) (d : TlsCache) : option ProtocolSignatureEvidence * TlsCache :=
  let key := flow_key_of f in
  match dget d key with
  | None => (None, d)
  | Some c => (Some (mk_signature (flow_id f) (ct_signature c) (ct_confidence c) (ct_detail c) (ct_generated_at c)), dpop d key)
  end.

(** ** What is handed over *)

Section Cache.
Context (known : list (string * string)).

(** What the two detectors say of a segment. *)
Definition finding (s : TcpPayload) : option _CachedTlsMatch :=
  match check_heartbleed (tp_payload s) with
  | Some hb => Some (mk_cached "heartbleed" (float_of_Z 1) (heartbleed_detail hb) (tp_timestamp s))
  | None =>
      fingerprint ← compute_ja3 (tp_payload s);
      tool ← match_known_tool fingerprint known;
      Some (mk_cached ("ja3:" +:+ kt_ja3_hash tool) (hundredths 60) (ja3_detail tool) (tp_timestamp s))
  end.

Inductive tls_event :=
| Seen (s : TcpPayload)     (** a segment the capture thread inspected *)
| Completed (f : Flow).     (** a flow whose evidence was asked for *)

Definition event_key (e : tls_event) : FlowKey := match e with Seen s => segment_key s | Completed f => flow_key_of f end.

Definition cache_step (flow_id : Flow → string) (d : TlsCache) (e : tls_event) : TlsCache :=
  match e with Seen s => _inspect_tcp_payload known s d | Completed f => (_pop_tls_evidence flow_id f d).2 end.

(** The latest finding on a key since a flow of that key last completed. *)
Definition awaiting_step (k : FlowKey) (o : option _CachedTlsMatch) (e : tls_event) : option _CachedTlsMatch :=
  if decide (event_key e = k) then
    match e with Seen s => match finding s with Some m => Some m | None => o end | Completed _ => None end
  else o.
Definition awaiting (k : FlowKey) (es : list tls_event) : option _CachedTlsMatch := foldl (awaiting_step k) None es.

Lemma inspect_finding s d : _inspect_tcp_payload known s d =
  match finding s with
  | Some m => _cache_tls_match s (ct_signature m) (ct_confidence m) (ct_detail m) d
  | None => d
  end.
Proof.
  unfold _inspect_tcp_payload, finding. destruct (tp_payload s) as [|b p]; [done|].
  destruct (check_heartbleed (b :: p)); [done|]. destruct (compute_ja3 (b :: p)) as [fp|]; [|done]. cbn.
  by destruct (match_known_tool fp known).
Qed.

Lemma finding_time s m : finding s = Some m → ct_generated_at m = tp_timestamp s.
Proof.
  unfold finding. destruct (check_heartbleed _); [by intros [= <-]|]. destruct (compute_ja3 _) as [fp|]; [|done]. cbn.
  destruct (match_known_tool fp known); [|done]. by intros [= <-].
Qed.

Lemma cached_get s sig c det d k : dwf d →
  dget (_cache_tls_match s sig c det d) k =
  if decide (k = segment_key s) then Some (mk_cached sig c det (tp_timestamp s))
  else if negb (dmem d (segment_key s)) && (_TLS_EVIDENCE_CACHE_MAX <=? Z.of_nat (length d)) then dget (tail d) k else dget d k.
Proof.
  intros Hwf. unfold _cache_tls_match, dpopitem_first. rewrite dget_move_to_end. destruct (decide (k = segment_key s)) as [->|Hk]; [apply dget_set_eq|].
  rewrite dget_set_ne by done. by destruct (_ && _).
Qed.

Lemma tail_get (d : TlsCache) k m : dwf d → dget (tail d) k = Some m → dget d k = Some m.
Proof.
  intros Hwf Hg. apply dget_elem; [done|]. apply dget_Some_elem in Hg. destruct d as [|p d]; [done|]. cbn in Hg. set_solver.
Qed.

Lemma cached_wf s sig c det d : dwf d → dwf (_cache_tls_match s sig c det d).
Proof. intros Hwf. unfold _cache_tls_match, dpopitem_first. apply dwf_move_to_end, dwf_set. destruct (_ && _); [by apply dwf_tail|done]. Qed.

Lemma cached_length s sig c det d : dwf d → Z.of_nat (length d) ≤ _TLS_EVIDENCE_CACHE_MAX →
  Z.of_nat (length (_cache_tls_match s sig c det d)) ≤ _TLS_EVIDENCE_CACHE_MAX.
Proof.
  intros Hwf Hl. unfold _cache_tls_match, dpopitem_first.
  destruct (negb (dmem d (segment_key s)) && _) eqn:Hfull; rewrite dmove_length by (apply dwf_set; try apply dwf_tail; done);
    rewrite dset_length; bool_prop.
  - destruct d as [|p d]; cbn [tail length] in *; [vm_compute in *; congruence|]. destruct (decide _); lia.
  - destruct (decide _) as [|Hn]; [done|]. rewrite <- dget_None in Hn. unfold dmem in Hfull. rewrite Hn in Hfull. bool_prop. lia.
Qed.

(** The keys an event list mentions. *)
Definition keys_of (es : list tls_event) : list FlowKey := dedup (event_key <$> es).

Definition cache_inv (es : list tls_event) (d : TlsCache) : Prop :=
  dwf d ∧ Z.of_nat (length d) ≤ _TLS_EVIDENCE_CACHE_MAX ∧ (∀ k, k ∈ dkeys d → k ∈ event_key <$> es) ∧
  (∀ k m, dget d k = Some m → awaiting k es = Some m) ∧
  (Z.of_nat (length (keys_of es)) ≤ _TLS_EVIDENCE_CACHE_MAX → ∀ k, dget d k = awaiting k es).

Lemma awaiting_snoc k es e : awaiting k (es ++ [e]) = awaiting_step k (awaiting k es) e.
Proof. unfold awaiting. by rewrite foldl_app. Qed.

Lemma keys_grow es e : (length (keys_of es) ≤ length (keys_of (es ++ [e])))%nat.
Proof.
  apply submseteq_length, NoDup_submseteq; [apply NoDup_dedup|]. intros k. unfold keys_of. rewrite !elem_of_dedup, fmap_app. set_solver.
Qed.

(** A full cache that lacks a key has room only if a key is new. *)
Lemma full_has_all es (d : TlsCache) k : dwf d → (∀ k, k ∈ dkeys d → k ∈ event_key <$> es) → k ∉ dkeys d → k ∈ event_key <$> es →
  (length d < length (keys_of es))%nat.
Proof.
  intros Hwf Hsub Hn Hk. assert (H : (length (k :: dkeys d) ≤ length (keys_of es))%nat).
  { apply submseteq_length, NoDup_submseteq; [by apply NoDup_cons|]. intros x. unfold keys_of. rewrite elem_of_dedup. set_solver. }
  cbn in H. unfold dkeys in H. rewrite length_fmap in H. lia.
Qed.

(** What a new match leaves of the other keys: all of them, or all but the
    oldest of a full cache. *)
Lemma cached_others s sig c det d k : dwf d → segment_key s ≠ k →
  ∃ d', (d' = d ∨ d' = tail d ∧ segment_key s ∉ dkeys d ∧ _TLS_EVIDENCE_CACHE_MAX ≤ Z.of_nat (length d)) ∧
    dget (_cache_tls_match s sig c det d) k = dget d' k.
Proof.
  intros Hwf Hne. rewrite cached_get, decide_False by done.
  destruct (negb (dmem d (segment_key s)) && _) eqn:Hb; [exists (tail d)|exists d; by split; [left|]].
  split; [|done]. right. bool_prop. rewrite <- dget_None. unfold dmem in *. destruct (dget d (segment_key s)); [done|].
  split; [done|]. split; [done|lia].
Qed.

Lemma cache_inv_found es d s m : finding s = Some m → cache_inv es d →
  cache_inv (es ++ [Seen s]) (_cache_tls_match s (ct_signature m) (ct_confidence m) (ct_detail m) d).
Proof.
  intros Hf (Hwf & Hlen & Hsub & Hs & Hc). set (d1 := _cache_tls_match s _ _ _ d).
  assert (Haw : ∀ k, awaiting k (es ++ [Seen s]) = if decide (segment_key s = k) then Some m else awaiting k es).
  { intros k. rewrite awaiting_snoc. unfold awaiting_step. cbn [event_key]. by rewrite Hf. }
  assert (Hown : dget d1 (segment_key s) = Some m).
  { unfold d1. rewrite cached_get, decide_True, <- (finding_time s m Hf) by done. by destruct m. }
  assert (Hmono : ∀ k m', segment_key s ≠ k → dget d1 k = Some m' → dget d k = Some m').
  { intros k m' Hne. destruct (cached_others s (ct_signature m) (ct_confidence m) (ct_detail m) d k Hwf Hne) as (d' & Hd' & Heq). fold d1 in Heq. rewrite Heq.
    destruct Hd' as [->|(-> & _)]; [done|by apply tail_get]. }
  split; [by apply cached_wf|]. split; [by apply cached_length|]. rewrite fmap_app. split; [|split].
  - intros k [m' Hm']%dget_is_Some. apply elem_of_app. destruct (decide (segment_key s = k)) as [<-|Hne]; [right; cbn; set_solver|].
    left. apply Hsub, dget_is_Some. exists m'. by apply Hmono.
  - intros k m' Hg. rewrite Haw. destruct (decide (segment_key s = k)) as [<-|Hne]; [congruence|]. by apply Hs, Hmono.
  - intros Hfit k. rewrite Haw. destruct (decide (segment_key s = k)) as [<-|Hne]; [done|]. pose proof (keys_grow es (Seen s)).
    rewrite <- Hc by lia. destruct (cached_others s (ct_signature m) (ct_confidence m) (ct_detail m) d k Hwf Hne) as (d' & Hd' & Heq). fold d1 in Heq. rewrite Heq.
    destruct Hd' as [->|(-> & Hn & Hfull)]; [done|]. exfalso.
    assert (Hx : (length d < length (keys_of (es ++ [Seen s])))%nat); [|lia].
    apply (full_has_all _ _ (segment_key s)); [done| |done|]; rewrite fmap_app; [intros; apply elem_of_app; auto|cbn; set_solver].
Qed.

Lemma cache_inv_quiet es d e : (∀ k, awaiting k (es ++ [e]) = awaiting k es) → cache_inv es d → cache_inv (es ++ [e]) d.
Proof.
  intros Haw (Hwf & Hlen & Hsub & Hs & Hc). split; [done|]. split; [done|]. rewrite fmap_app. split; [intros; apply elem_of_app; auto|].
  split; [intros k m; rewrite Haw; apply Hs|]. intros Hfit k. rewrite Haw. apply Hc. pose proof (keys_grow es e). lia.
Qed.

Lemma cache_inv_completed es d f : cache_inv es d → cache_inv (es ++ [Completed f]) (dpop d (flow_key_of f)).
Proof.
  intros (Hwf & Hlen & Hsub & Hs & Hc).
  assert (Haw : ∀ k, awaiting k (es ++ [Completed f]) = if decide (flow_key_of f = k) then None else awaiting k es).
  { intros k. by rewrite awaiting_snoc. }
  split; [by apply dwf_pop|]. split; [pose proof (dpop_length_le d (flow_key_of f)); lia|]. rewrite fmap_app. split; [|split].
  - intros k. rewrite dkeys_pop, list_elem_of_filter. intros [_ Hk]. apply elem_of_app. auto.
  - intros k m. rewrite Haw, dget_pop. destruct (decide _); [done|]. apply Hs.
  - intros Hfit k. rewrite Haw, dget_pop. destruct (decide _); [done|]. apply Hc. pose proof (keys_grow es (Completed f)). lia.
Qed.

Lemma pop_cache flow_id f d : (_pop_tls_evidence flow_id f d).2 = dpop d (flow_key_of f).
Proof.
  unfold _pop_tls_evidence. destruct (dget d (flow_key_of f)) as [c|] eqn:Hg; [done|]. cbn [snd]. apply dget_None in Hg.
  induction d as [|[k v] d IH]; [done|]. cbn. unfold dkeys in Hg. cbn in Hg. apply not_elem_of_cons in Hg as [Hk Hd].
  rewrite decide_False by done. f_equal. by apply IH.
Qed.

Lemma cache_inv_step flow_id es d e : cache_inv es d → cache_inv (es ++ [e]) (cache_step flow_id d e).
Proof.
  intros Hi. destruct e as [s|f]; cbn [cache_step]; [|rewrite pop_cache; by apply cache_inv_completed].
  rewrite inspect_finding. destruct (finding s) as [m|] eqn:Hf; [by apply cache_inv_found|].
  apply cache_inv_quiet; [|done]. intros k. rewrite awaiting_snoc. unfold awaiting_step. cbn [event_key]. rewrite Hf. by destruct (decide _).
Qed.

Lemma cache_run_inv flow_id es : cache_inv es (foldl (cache_step flow_id) [] es).
Proof.
  induction es as [|e es IH] using rev_ind; [|rewrite foldl_app; by apply cache_inv_step].
  split; [apply dwf_nil|]. split; [vm_compute; discriminate|]. split; [intros k Hk; by apply not_elem_of_nil in Hk|]. done.
Qed.

(** TLS evidence reaches the flow it belongs to, once: after any sequence of
    inspected segments and completed flows the cache holds at most ten
    thousand entries, and what a completing flow receives is the latest match
    the detectors found on a segment of its own five-tuple since a flow of
    that five-tuple last completed; asked a second time it receives nothing;
    and while no more than ten thousand five-tuples are involved no match is
    lost. *)
Theorem tls_evidence_reaches_its_flow flow_id es f :
  let d := foldl (cache_step flow_id) [] es in
  let r := (_pop_tls_evidence flow_id f d).1 in
  let evidence m := mk_signature (flow_id f) (ct_signature m) (ct_confidence m) (ct_detail m) (ct_generated_at m) in
  Z.of_nat (length d) ≤ _TLS_EVIDENCE_CACHE_MAX ∧
  (∀ e, r = Some e → ∃ m, awaiting (flow_key_of f) es = Some m ∧ e = evidence m) ∧
  (Z.of_nat (length (keys_of es)) ≤ _TLS_EVIDENCE_CACHE_MAX → r = evidence <$> awaiting (flow_key_of f) es) ∧
  (∀ g, flow_key_of g = flow_key_of f → (_pop_tls_evidence flow_id g (_pop_tls_evidence flow_id f d).2).1 = None).
Proof.
  intros d r evidence. pose proof (cache_run_inv flow_id es : cache_inv es d) as (Hwf & Hlen & _ & Hs & Hc).
  assert (Hr : r = evidence <$> dget d (flow_key_of f)).
  { unfold r, _pop_tls_evidence. by destruct (dget d (flow_key_of f)). }
  split; [done|]. split; [|split].
  - rewrite Hr. intros e. destruct (dget d (flow_key_of f)) as [m|] eqn:Hg; [|done]. intros [= <-]. exists m. split; [by apply Hs|done].
  - intros Hfit. by rewrite Hr, Hc.
  - intros g Hg. rewrite pop_cache. unfold _pop_tls_evidence. by rewrite Hg, dget_pop, decide_True.
Qed.
End Cache.

(** A segment one way, the flow of the other way round. *)
Definition heartbeat_segment : TcpPayload :=
  mk_segment (IPv4.a_b_c_d 10 0 0 7) (IPv4.a_b_c_d 192 168 100 10) (Some 40000) (Some 443) 5 sample_heartbeat.
Example heartbleed_segment_is_cached :
  (λ c : FlowKey * _CachedTlsMatch, ct_signature c.2) <$> _inspect_tcp_payload [] heartbeat_segment [] = ["heartbleed"].
Proof. vm_compute. reflexivity. Qed.
