(* ===== verification/Fallback.v ===== *)
(** * Surviving native engine panics (flow/fallback.py)

    [NativePanicBudget] counts caught panics; [FallbackFlowEngine] feeds
    frames to the native engine until too many panics fell within a minute,
    salvages what the engine still holds, and goes on in Python.  The native
    engine is an interface, [NativeEngine]: any of its calls may raise
    [NativeEngineError] at any time, and nothing else ([NativeEngineLaws]).

    A call of the engine takes the readings it may need: [mono], the monotonic
    clock in microseconds when a panic is recorded, and [wall], the time of
    the events it emits.  The float rounding of the monotonic clock is not
    modelled.  [fe_events] is what was passed to [on_event]; the lists of
    [fe_pending] are shared with the Python aggregator's new-flow sink, so
    [take_new_flows] moves what the sink received after every call. *)

From S2P Require Import Prelude Float Net Models Throttle Flow FlowProps Parser Thresholds Threat Tls TlsCache.
Local Open Scope Z_scope.

Definition FB_SUBSYSTEM : string := "flow.fallback".
Definition _WINDOW_SECONDS : Z := 60.
Definition FB_TLS_PORT : Z := 443.

(** ** The budget *)

Record NativePanicBudget : Type := mk_budget {
  pb_max : Z;
  pb_recent : list Z;
  pb_total : Z;
  pb_exhausted : bool;
}.
Definition new_budget (max_per_minute : Z) : result NativePanicBudget :=
  if max_per_minute <=? 0 then Raise (ValueError "max_per_minute must be positive") else Ok (mk_budget max_per_minute [] 0 false).

(** [while recent and now - recent[0] >= 60: recent.popleft()] *)
Fixpoint drop_old (now : Z) (recent : list Z) : list Z :=
  match recent with
  | t :: rest => if seconds _WINDOW_SECONDS <=? now - t then drop_old now rest else recent
  | [] => []
  end.
Definition record_panic (now : Z) (b : NativePanicBudget) : NativePanicBudget :=
  let recent := drop_old now (pb_recent b ++ [now]) in
  mk_budget (pb_max b) recent (pb_total b + 1) (pb_exhausted b || (pb_max b <=? Z.of_nat (length recent))).

(** ** Engines *)

Record NativeBatch : Type := mk_batch {
  nb_completed : list Flow;
  nb_new_flows : list NewFlowSignal;
  nb_tls_payloads : list TcpPayload;
}.
Definition empty_batch : NativeBatch := mk_batch [] [] [].
Definition _merge (first second : NativeBatch) : NativeBatch :=
  mk_batch (nb_completed first ++ nb_completed second) (nb_new_flows first ++ nb_new_flows second)
    (nb_tls_payloads first ++ nb_tls_payloads second).

Class NativeEngine (N : Type) := {
  ne_feed_us : bytes → Z → M N unit;
  ne_drain : M N NativeBatch;
  ne_sweep_timeouts : Z → M N (list Flow);
  ne_flush : M N (list Flow);
  ne_counters : M N (Z * Z);
  ne_panic_stats : M N (Z * Z);
}.
Definition from_microseconds (microseconds : Z) : result Z :=
  if (datetime_min <=? microseconds) && (microseconds <=? datetime_max) then Ok microseconds else Raise (OverflowError "date value out of range").

(** From the engines of [P], a call raises [NativeEngineError] or nothing, and
    leaves an engine of [P]. *)
Definition raises_native_only {N A} (P : N → Prop) (f : M N A) : Prop := ∀ n r n', P n → f n = (r, n') →
  P n' ∧ ∀ e, r = Raise e → ∃ msg, e = NativeEngineError msg.
(** [ne_dated]: every frame the engine was fed had a time a datetime can hold,
    as the flows it hands out must. *)
Class NativeEngineLaws (N : Type) `{NativeEngine N} := {
  ne_dated : N → Prop;
  ne_feed_law raw ts : is_datetime ts → raises_native_only ne_dated (ne_feed_us raw ts);
  ne_drain_law : raises_native_only ne_dated ne_drain;
  ne_sweep_law now : raises_native_only ne_dated (ne_sweep_timeouts now);
  ne_flush_law : raises_native_only ne_dated ne_flush;
  ne_counters_law : raises_native_only ne_dated ne_counters;
  ne_stats_law : raises_native_only ne_dated ne_panic_stats;
}.

(** [try: m  except NativeEngineError as exc: h(str(exc))] *)
Definition try_native {S A} (m : M S A) (h : string → M S A) : M S A := λ s,
  match m s with
  | (Raise (NativeEngineError msg), s') => h msg s'
  | r => r
  end.

(** The engine's TLS prefilter: a heartbeat record, or a handshake record that
    starts with a ClientHello. *)
Definition _tls_candidate (raw : bytes) (src dst : IPv4.t) (sport dport : option Z) (at_ : Z) : option TcpPayload :=
  match extract_tcp_payload raw with
  | Some ((first :: rest) as payload) =>
      if (first =? 24) || ((first =? 22) && bool_decide (nth_error payload 5 = Some 1)) then Some (mk_segment src dst sport dport at_ payload) else None
  | _ => None
  end.

Section Engine.
Context {N : Type} {NE : NativeEngine N}.

Record flow_config : Type := mk_flow_config { fc_max_flows : Z; fc_active_timeout : Z; fc_inactive_timeout : Z }.

Record FallbackFlowEngine : Type := mk_fallback {
  fe_config : flow_config;
  fe_protected : option IPv4.network;
  fe_budget : NativePanicBudget;
  fe_native : option N;
  fe_python : option FlowAggregator;
  fe_pending : NativeBatch;
  fe_offsets : Z * Z;            (** frames seen and malformed before the switch *)
  fe_python_counts : Z * Z;      (** and since *)
  fe_flows_lost : Z;
  fe_batches_lost : Z;
  fe_events : list SecurityEvent;
}.
Notation E := FallbackFlowEngine.

Definition fe_set_budget (s : E) x := mk_fallback (fe_config s) (fe_protected s) x (fe_native s) (fe_python s) (fe_pending s)
  (fe_offsets s) (fe_python_counts s) (fe_flows_lost s) (fe_batches_lost s) (fe_events s).
Definition fe_set_native (s : E) x := mk_fallback (fe_config s) (fe_protected s) (fe_budget s) x (fe_python s) (fe_pending s)
  (fe_offsets s) (fe_python_counts s) (fe_flows_lost s) (fe_batches_lost s) (fe_events s).
Definition fe_set_python (s : E) x := mk_fallback (fe_config s) (fe_protected s) (fe_budget s) (fe_native s) x (fe_pending s)
  (fe_offsets s) (fe_python_counts s) (fe_flows_lost s) (fe_batches_lost s) (fe_events s).
Definition fe_set_pending (s : E) x := mk_fallback (fe_config s) (fe_protected s) (fe_budget s) (fe_native s) (fe_python s) x
  (fe_offsets s) (fe_python_counts s) (fe_flows_lost s) (fe_batches_lost s) (fe_events s).
Definition fe_set_offsets (s : E) x := mk_fallback (fe_config s) (fe_protected s) (fe_budget s) (fe_native s) (fe_python s) (fe_pending s)
  x (fe_python_counts s) (fe_flows_lost s) (fe_batches_lost s) (fe_events s).
Definition fe_set_counts (s : E) x := mk_fallback (fe_config s) (fe_protected s) (fe_budget s) (fe_native s) (fe_python s) (fe_pending s)
  (fe_offsets s) x (fe_flows_lost s) (fe_batches_lost s) (fe_events s).
Definition fe_set_lost (s : E) x y := mk_fallback (fe_config s) (fe_protected s) (fe_budget s) (fe_native s) (fe_python s) (fe_pending s)
  (fe_offsets s) (fe_python_counts s) x y (fe_events s).
Definition fe_add_event (s : E) e := mk_fallback (fe_config s) (fe_protected s) (fe_budget s) (fe_native s) (fe_python s) (fe_pending s)
  (fe_offsets s) (fe_python_counts s) (fe_flows_lost s) (fe_batches_lost s) (fe_events s ++ [e]).

Definition fb_emit (wall : Z) (sev : EventSeverity) (reason : string) : M E unit :=
  mmodify (λ s, fe_add_event s (mk_event wall sev CAPTURE_ERROR FB_SUBSYSTEM None None None (Some reason))).

Definition python_aggregator (s : E) : FlowAggregator :=
  new_aggregator (fc_max_flows (fe_config s)) (fc_active_timeout (fe_config s)) (fc_inactive_timeout (fe_config s)) (fe_protected s) true.
Definition _start_python : M E unit := mmodify (λ s, fe_set_python s (Some (python_aggregator s))).

(** [__init__] *)
Definition new_fallback (config : flow_config) (protected : option IPv4.network) (max_panics : Z) (native : option N) : result E :=
  rbind (new_budget max_panics) (λ budget,
  let s := mk_fallback config protected budget native None empty_batch (0, 0) (0, 0) 0 0 [] in
  Ok (match native with Some _ => s | None => (_start_python s).2 end)).

Definition fe_backend (s : E) : string := match fe_native s with Some _ => "native" | None => "python" end.

(** A call of the native engine [n] held by the caller. *)
Definition call_native {A} (n : N) (f : M N A) (keep : E → N → E) : M E A := λ s,
  let '(r, n') := f n in (r, keep s n').
Definition held_native (s : E) (n : N) : E := fe_set_native s (Some n).

(** ** Panics *)

Definition extend_pending (b : NativeBatch) : M E unit := mmodify (λ s, fe_set_pending s (_merge (fe_pending s) b)).

(** The salvage of [_fall_back] works on the abandoned engine, no longer
    reachable from the state, and counts the flows it closed. *)
Notation salvage_state := (N * E * Z)%type.
Definition with_engine {A} (f : M N A) : M salvage_state A := λ '(n, s, k), let '(r, n) := f n in (r, (n, s, k)).
Definition keeping (f : E → E) : M salvage_state unit := mmodify (λ '(n, s, k), (n, f s, k)).
Definition salvage : M salvage_state unit :=
  drained ← with_engine ne_drain;
  _ ← keeping (λ s, fe_set_pending s (_merge (fe_pending s) drained));
  closed ← with_engine ne_flush;
  _ ← keeping (λ s, fe_set_pending s (_merge (fe_pending s) (mk_batch closed [] [])));
  _ ← mmodify (λ '(n, s, _), (n, s, Z.of_nat (length closed)));
  counts ← with_engine ne_counters;
  _ ← keeping (λ s, fe_set_offsets s counts);
  stats ← with_engine ne_panic_stats;
  keeping (λ s, fe_set_lost s (fe_flows_lost s + stats.2) (fe_batches_lost s)).
Definition abandoned (salvaged : Z) (b : NativePanicBudget) : string :=
  "native engine panicked " +:+ pretty (pb_max b) +:+ " time(s) within 60 s (" +:+ pretty (pb_total b)
  +:+ " in all); falling back to the Python flow path (" +:+ pretty salvaged +:+ " open flow(s) closed early on the way out)".
Definition _fall_back (wall : Z) (n : N) : M E unit := λ s,
  match try_native salvage (λ _, mret tt) (n, fe_set_native s None, 0) with
  | (Raise e, (_, s, _)) => (Raise e, s)
  | (Ok _, (_, s, salvaged)) => (_ ← fb_emit wall SEV_CRITICAL (abandoned salvaged (fe_budget s)); _start_python) s
  end.
Definition _panicked (mono wall : Z) (where_ msg cost : string) : M E unit := λ s,
  let s := fe_set_budget s (record_panic mono (fe_budget s)) in
  (_ ← fb_emit wall SEV_WARNING
         ("native engine panicked in " +:+ where_ +:+ " and recovered (" +:+ pretty (pb_total (fe_budget s)) +:+ " so far); "
          +:+ cost +:+ ": " +:+ msg);
   match pb_exhausted (fe_budget s), fe_native s with
   | true, Some n => _fall_back wall n
   | _, _ => mret tt
   end) s.

(** ** The Python path *)

Definition on_python {A} (f : M FlowAggregator A) : M E A := λ s,
  match fe_python s with
  | None => (Raise AssertionError, s)
  | Some a => let '(r, a') := f a in (r, fe_set_python s (Some a'))
  end.
(** What the sink [pending.new_flows.append] received. *)
Definition take_new_flows : M E unit := λ s,
  match fe_python s with
  | None => (Ok tt, s)
  | Some a =>
      (Ok tt, fe_set_pending (fe_set_python s (Some (mk_aggregator (ag_table a) (ag_active_timeout_seconds a) (ag_inactive_timeout_seconds a)
                                                     (ag_protected_network a) (ag_on_new_flow a) [])))
                (_merge (fe_pending s) (mk_batch [] (ag_signals a) [])))
  end.
(** The TLS payload of a packet, when the prefilter keeps it. *)
Definition tls_of (raw : bytes) (p : PacketMetadata) (at_ : Z) : list TcpPayload :=
  if bool_decide (pk_protocol p = TCP) &&
     (bool_decide (pk_source_port p = Some FB_TLS_PORT) || bool_decide (pk_destination_port p = Some FB_TLS_PORT))
  then match pk_source_ip p, pk_destination_ip p with
       | V4 src, V4 dst => option_list (_tls_candidate raw src dst (pk_source_port p) (pk_destination_port p) at_)
       | _, _ => []
       end
  else [].
Definition _feed_python (raw : bytes) (ts_us : Z) : M E unit :=
  _ ← mmodify (λ s, fe_set_counts s ((fe_python_counts s).1 + 1, (fe_python_counts s).2));
  at_ ← mlift (from_microseconds ts_us);
  match parse_packet raw at_ with
  | Raise (PacketParseError _) | Raise (UnsupportedProtocolError _) =>
      mmodify (λ s, fe_set_counts s ((fe_python_counts s).1, (fe_python_counts s).2 + 1))
  | Raise e => mraise e
  | Ok packet =>
      _ ← extend_pending (mk_batch [] [] (tls_of raw packet at_));
      completed ← on_python (process_packet packet);
      _ ← take_new_flows;
      extend_pending (mk_batch completed [] [])
  end.

(** ** Feeding *)

Definition fb_feed_us (mono wall : Z) (raw : bytes) (ts_us : Z) : M E unit := λ s,
  match fe_native s with
  | Some n =>
      try_native (call_native n (ne_feed_us raw ts_us) held_native)
        (λ msg, _panicked mono wall "feed" msg "the frame was dropped") s
  | None => _feed_python raw ts_us s
  end.

Definition _take_pending : M E NativeBatch := λ s, (Ok (fe_pending s), fe_set_pending s empty_batch).

Definition drain_native (mono wall : Z) (batch : NativeBatch) : M E NativeBatch := λ s,
  match fe_native s with
  | Some n =>
      try_native (fresh ← call_native n ne_drain held_native; mret (_merge batch fresh))
        (λ msg,
           _ ← mmodify (λ s, fe_set_lost s (fe_flows_lost s) (fe_batches_lost s + 1));
           _ ← _panicked mono wall "drain" msg "that batch of output was lost";
           rest ← _take_pending;
           mret (_merge batch rest)) s
  | None => (Ok batch, s)
  end.
Definition fb_drain (mono wall : Z) : M E NativeBatch := batch ← _take_pending; drain_native mono wall batch.
Definition fb_sweep_timeouts (mono wall now : Z) : M E (list Flow) := λ s,
  match fe_native s with
  | Some n =>
      try_native (call_native n (ne_sweep_timeouts now) held_native)
        (λ msg, _ ← _panicked mono wall "sweep" msg "flows it would have closed stay open"; mret []) s
  | None => on_python (sweep_timeouts now) s
  end.
Definition fb_flush (mono wall : Z) : M E (list Flow) := λ s,
  match fe_native s with
  | Some n =>
      try_native (call_native n ne_flush held_native)
        (λ msg, _ ← _panicked mono wall "flush" msg "the open flows were lost"; mret []) s
  | None => on_python flush s
  end.
Definition fb_counters : M E (Z * Z) := λ s,
  match fe_native s with
  | Some n => try_native (call_native n ne_counters held_native) (λ _ s, (Ok (fe_offsets s), s)) s
  | None => (Ok ((fe_offsets s).1 + (fe_python_counts s).1, (fe_offsets s).2 + (fe_python_counts s).2), s)
  end.
End Engine.
Arguments FallbackFlowEngine : clear implicits.

(** * The native flow engine's Python side (flow/native.py)

    The engine itself is Rust and a parameter here, [RustEngine]: each call
    answers, or panics with a message ([inr]).  What is modelled is what the
    wrapper does with the answers: it turns plain records into domain objects,
    validating them, and re-raises panics as [NativeEngineError].

    [RustLaws] states what the engine documents about its records (the stub
    file: unsigned 32-bit addresses, 48-bit MACs, the protocols of the enum;
    the parity test: counters that add up, as the Python aggregator's do).
    Under it the wrapper implements the interface [NativeEngine] the fallback
    engine and the capture loop are proved against. *)

From S2P Require Import Hex.
Local Open Scope Z_scope.

(** ** Time and addresses *)

Definition us_per_day : Z := 86400 * 1000000.
(** [delta.days], [delta.seconds] and [delta.microseconds] of a timedelta *)
Definition td_days (delta : Z) : Z := delta / us_per_day.
Definition td_seconds (delta : Z) : Z := delta mod us_per_day / 1000000.
Definition td_microseconds (delta : Z) : Z := delta mod 1000000.
Definition to_microseconds (moment : Z) : Z :=
  (td_days moment * 86400 + td_seconds moment) * 1000000 + td_microseconds moment.

(** [value.to_bytes(6, "big")] *)
Fixpoint be_bytes (n : nat) (x : Z) : list Z := match n with O => [] | S n' => be_bytes n' (x / 256) ++ [x mod 256] end.
Definition mac_from_int (value : Z) : result string :=
  if (0 <=? value) && (value <? 2 ^ 48) then Ok (string_of_list (bytes_hex_colon (be_bytes 6 value)))
  else Raise (OverflowError "int too big to convert").

(** [IPv4Address(n)] of an integer, [Protocol(text)], [round(x)] *)
Definition address_of_int (n : Z) : result IPv4.t := if (0 <=? n) && (n <? 2 ^ 32) then Ok n else Raise (ValueError "not an IPv4 address").
Definition protocol_of_text (text : string) : result Protocol :=
  match text with
  | "tcp" => Ok TCP | "udp" => Ok UDP | "icmp" => Ok ICMP | "icmpv6" => Ok ICMPV6 | "other" => Ok OTHER | "any" => Ok ANY
  | _ => Raise (ValueError "not a valid Protocol")
  end%string.
Definition py_round (x : float) : result Z :=
  match x with
  | S754_infinity _ => Raise (OverflowError "cannot convert float infinity to integer")
  | S754_nan => Raise (ValueError "cannot convert float NaN to integer")
  | _ => Ok (fround x)
  end.

(** ** Records *)

Record FlowRecord : Type := mk_flow_record {
  fr_src : Z; fr_dst : Z; fr_src_mac : Z; fr_dst_mac : Z; fr_sport : option Z; fr_dport : option Z; fr_protocol : string;
  fr_first_seen_us : Z; fr_last_seen_us : Z; fr_packet_count : Z; fr_byte_count : Z;
  fr_forward_packet_count : Z; fr_backward_packet_count : Z; fr_forward_byte_count : Z; fr_backward_byte_count : Z;
  fr_forward_payload_bytes : Z; fr_backward_payload_bytes : Z;
  fr_syn : Z; fr_ack : Z; fr_fin : Z; fr_rst : Z; fr_psh : Z; fr_urg : Z;
  fr_size_min : float; fr_size_max : float; fr_size_mean : float; fr_size_std : float;
  fr_payload_min : float; fr_payload_max : float; fr_payload_mean : float; fr_payload_sample_std : float;
  fr_iat_min : float; fr_iat_max : float; fr_iat_mean : float; fr_iat_sample_std : float;
  fr_opened_by_initiation : bool;
}.
Record NewFlowRecord : Type := mk_new_flow_record {
  nr_src : Z; nr_dst : Z; nr_src_mac : Z; nr_dst_mac : Z; nr_dport : option Z; nr_protocol : string; nr_ts_us : Z;
}.
Record TlsRecord : Type := mk_tls_record {
  tr_src : Z; tr_dst : Z; tr_sport : option Z; tr_dport : option Z; tr_ts_us : Z; tr_payload : bytes;
}.

(** The field constraints of [Flow.model_validate]: ports in range, counters
    and sizes not negative, floats [ge=0] *)
Definition port_valid (p : option Z) : bool := match p with None => true | Some n => (0 <=? n) && (n <=? 65535) end.
Definition nonneg_float (x : float) : bool := fle (float_of_Z 0) x.
Definition sizes_valid (s : SizeStats) : bool :=
  (0 <=? ss_min s) && (0 <=? ss_max s) && nonneg_float (ss_mean s) && nonneg_float (ss_std s).
Definition flow_fields_valid (f : Flow) : bool :=
  port_valid (fl_source_port f) && port_valid (fl_destination_port f)
  && forallb (λ n, 0 <=? n) ([fl_packet_count f; fl_byte_count f; fl_forward_packet_count f; fl_backward_packet_count f;
                              fl_forward_byte_count f; fl_backward_byte_count f] ++ fl_tcp_flags f)
  && sizes_valid (fl_packet_size_stats f)
  && nonneg_float (ia_min (fl_inter_arrival_stats f)) && nonneg_float (ia_max (fl_inter_arrival_stats f))
  && nonneg_float (ia_mean (fl_inter_arrival_stats f)) && nonneg_float (ia_std (fl_inter_arrival_stats f))
  && match fl_payload_stats f with
     | None => true
     | Some p => (0 <=? ps_forward_bytes p) && (0 <=? ps_backward_bytes p) && sizes_valid (ps_sizes p)
     end.
Definition model_validate (f : Flow) : result Flow :=
  if flow_fields_valid f then flow_check f else Raise (ValueError "validation error for Flow").

Definition _flow_from_record (r : FlowRecord) : result Flow :=
  source ← address_of_int (fr_src r);
  destination ← address_of_int (fr_dst r);
  protocol ← protocol_of_text (fr_protocol r);
  first_seen ← from_microseconds (fr_first_seen_us r);
  last_seen ← from_microseconds (fr_last_seen_us r);
  size_min ← py_round (fr_size_min r);
  size_max ← py_round (fr_size_max r);
  source_mac ← mac_from_int (fr_src_mac r);
  destination_mac ← mac_from_int (fr_dst_mac r);
  payload_min ← py_round (fr_payload_min r);
  payload_max ← py_round (fr_payload_max r);
  model_validate
    (mk_flow source destination (fr_sport r) (fr_dport r) protocol first_seen last_seen (fr_packet_count r) (fr_byte_count r)
       (fr_forward_packet_count r) (fr_backward_packet_count r) (fr_forward_byte_count r) (fr_backward_byte_count r)
       [fr_syn r; fr_ack r; fr_fin r; fr_rst r; fr_psh r; fr_urg r]
       (mk_size_stats size_min size_max (fr_size_mean r) (fr_size_std r))
       (mk_arrival (fr_iat_min r) (fr_iat_max r) (fr_iat_mean r) (fr_iat_sample_std r))
       (fr_opened_by_initiation r) (Some source_mac) (Some destination_mac)
       (Some (mk_payload_stats (fr_forward_payload_bytes r) (fr_backward_payload_bytes r)
                (mk_size_stats payload_min payload_max (fr_payload_mean r) (fr_payload_sample_std r))))).

Definition signal_from_record (r : NewFlowRecord) : result NewFlowSignal :=
  source ← address_of_int (nr_src r);
  destination ← address_of_int (nr_dst r);
  protocol ← protocol_of_text (nr_protocol r);
  timestamp ← from_microseconds (nr_ts_us r);
  source_mac ← mac_from_int (nr_src_mac r);
  destination_mac ← mac_from_int (nr_dst_mac r);
  mret (mk_signal source destination (nr_dport r) protocol timestamp (Some source_mac) (Some destination_mac)).

Definition payload_from_record (r : TlsRecord) : result TcpPayload :=
  source ← address_of_int (tr_src r);
  destination ← address_of_int (tr_dst r);
  timestamp ← from_microseconds (tr_ts_us r);
  mret (mk_segment source destination (tr_sport r) (tr_dport r) timestamp (tr_payload r)).

(** [[f(x) for x in xs]] where [f] may raise *)
Fixpoint record_map {A B} (f : A → result B) (l : list A) : result (list B) :=
  match l with
  | [] => Ok []
  | x :: l' => y ← f x; ys ← record_map f l'; mret (y :: ys)
  end.

(** ** The engine and its wrapper *)

Class RustEngine (X : Type) := {
  rx_feed : bytes → Z → X → (unit + string) * X;
  rx_drain : X → (list FlowRecord * list NewFlowRecord * list TlsRecord + string) * X;
  rx_sweep : Z → X → (list FlowRecord + string) * X;
  rx_slow_clusters : Z → float → float → Z → float → X → (list (Z * Z * Z * FlowRecord) + string) * X;
  rx_snapshot_open_flow_from : Z → X → (option FlowRecord + string) * X;
  rx_flush : X → (list FlowRecord + string) * X;
  rx_counters : X → (Z * Z + string) * X;
  rx_shed : X → (Z * Z + string) * X;
  rx_panic_stats : X → (Z * Z + string) * X;
  rx_len : X → (Z + string) * X;
}.

Section Wrapper.
Context {X : Type} `{RustEngine X}.

(** [_call]: the extension's panic, re-raised as our own [NativeEngineError] *)
Definition _call {A} (call : X → (A + string) * X) : M X A := λ x,
  match call x with
  | (inl a, x') => (Ok a, x')
  | (inr msg, x') => (Raise (NativeEngineError msg), x')
  end.

Definition native_feed_us (raw : bytes) (ts_us : Z) : M X unit := _call (rx_feed raw ts_us).
Definition native_feed (raw : bytes) (captured_at : Z) : M X unit := native_feed_us raw (to_microseconds captured_at).
Definition native_drain : M X NativeBatch :=
  '(completed, new_flows, tls) ← _call rx_drain;
  completed ← mlift (record_map _flow_from_record completed);
  new_flows ← mlift (record_map signal_from_record new_flows);
  tls_payloads ← mlift (record_map payload_from_record tls);
  mret (mk_batch completed new_flows tls_payloads).
Definition native_counters : M X (Z * Z) := _call rx_counters.
Definition native_shed : M X (Z * Z) := _call rx_shed.
Definition native_panic_stats : M X (Z * Z) := _call rx_panic_stats.
Definition native_len : M X Z := _call rx_len.
Definition native_sweep_timeouts (now : Z) : M X (list Flow) :=
  records ← _call (rx_sweep (to_microseconds now)); mlift (record_map _flow_from_record records).
Definition native_flush : M X (list Flow) :=
  records ← _call rx_flush; mlift (record_map _flow_from_record records).
Definition cluster_from (c : Z * Z * Z * FlowRecord) : result SlowConnectionCluster :=
  let '(source, destination, count, record) := c in
  source ← address_of_int source;
  destination ← address_of_int destination;
  flow ← _flow_from_record record;
  mret (mk_cluster source destination count (Ok flow)).
Definition native_snapshot_slow_connection_clusters (now : Z) (min_duration max_rate : float) (threshold : Z) (max_idle : float)
  : M X (list SlowConnectionCluster) :=
  clusters ← _call (rx_slow_clusters (to_microseconds now) min_duration max_rate threshold max_idle);
  mlift (record_map cluster_from clusters).
Definition native_snapshot_open_flow_from (source_ip : IPv4.t) : M X (option Flow) :=
  record ← _call (rx_snapshot_open_flow_from source_ip);
  match record with None => mret None | Some r => f ← mlift (_flow_from_record r); mret (Some f) end.
End Wrapper.

#[global] Instance wrapped_engine {X} `{RustEngine X} : NativeEngine X := {
  ne_feed_us := native_feed_us;
  ne_drain := native_drain;
  ne_sweep_timeouts := native_sweep_timeouts;
  ne_flush := native_flush;
  ne_counters := native_counters;
  ne_panic_stats := native_panic_stats;
}.

(** ** Exactness *)

Lemma to_microseconds_exact t : to_microseconds t = t.
Proof.
  unfold to_microseconds, td_days, td_seconds, td_microseconds, us_per_day.
  pose proof (Z.div_mod t (86400 * 1000000)). pose proof (Z.div_mod (t mod (86400 * 1000000)) 1000000).
  replace (t mod 1000000) with (t mod (86400 * 1000000) mod 1000000); [lia|].
  rewrite (Z.mul_comm 86400), Z.rem_mul_r by lia. rewrite Z.mul_comm, Z.mod_add by lia. by rewrite Z.mod_mod.
Qed.

Lemma from_microseconds_ok t : is_datetime t → from_microseconds t = Ok t.
Proof. intros [Hlo Hhi]. unfold from_microseconds. rewrite andb_true_intro by (split; by apply Z.leb_le). done. Qed.

Lemma be_bytes_value bs : Forall byte_ok bs → be_bytes (length bs) (be_value bs) = bs.
Proof.
  induction bs as [|b bs IH] using rev_ind; intros Hb; [done|]. apply Forall_app in Hb as [Hb Hx]. apply Forall_cons in Hx as [Hx _].
  rewrite length_app, Nat.add_comm. cbn [length plus be_bytes]. unfold be_value in *. rewrite foldl_app. cbn [foldl].
  unfold byte_ok in Hx. set (v := foldl _ 0 bs) in *.
  replace ((v * 256 + b) / 256) with v by (apply Z.div_unique with b; lia).
  replace ((v * 256 + b) mod 256) with b by (apply Z.mod_unique with v; lia). by rewrite IH.
Qed.

(** The engine's 48-bit MACs print as the packet parser prints the six bytes
    of the frame. *)
Lemma mac_from_int_parser bs : Forall byte_ok bs → length bs = 6%nat → mac_from_int (be_value bs) = Ok (mac_text bs).
Proof.
  intros Hb Hl. pose proof (be_value_range bs Hb) as [H0 H1]. rewrite Hl in H1. unfold mac_from_int, mac_text.
  rewrite andb_true_intro by (split; [by apply Z.leb_le|apply Z.ltb_lt; lia]). by rewrite <- Hl, be_bytes_value.
Qed.

(** ** Parity with the Python aggregator *)

Definition protocol_text (p : Protocol) : string :=
  match p with TCP => "tcp" | UDP => "udp" | ICMP => "icmp" | ICMPV6 => "icmpv6" | OTHER => "other" | ANY => "any" end.
Definition finite (x : float) : bool := match x with S754_nan | S754_infinity _ => false | _ => true end.

(** The record an engine holds for a flow in the Python aggregator's state *)
Definition record_of (s : FlowState) (src_mac dst_mac : Z) : FlowRecord :=
  mk_flow_record (fs_forward_source_ip s) (fs_forward_destination_ip s) src_mac dst_mac (fs_forward_source_port s)
    (fs_forward_destination_port s) (protocol_text (fs_protocol s)) (fs_first_seen s) (fs_last_seen s)
    (fs_packet_count s) (fs_byte_count s) (fs_forward_packet_count s) (fs_backward_packet_count s)
    (fs_forward_byte_count s) (fs_backward_byte_count s) (fs_forward_payload_bytes s) (fs_backward_payload_bytes s)
    (fs_syn_count s) (fs_ack_count s) (fs_fin_count s) (fs_rst_count s) (fs_psh_count s) (fs_urg_count s)
    (stats_min (fs_packet_size_stats s)) (stats_max (fs_packet_size_stats s)) (stats_mean (fs_packet_size_stats s)) (stats_std (fs_packet_size_stats s))
    (stats_min (fs_payload_size_stats s)) (stats_max (fs_payload_size_stats s)) (stats_mean (fs_payload_size_stats s))
    (stats_sample_std (fs_payload_size_stats s))
    (stats_min (fs_inter_arrival_stats s)) (stats_max (fs_inter_arrival_stats s)) (stats_mean (fs_inter_arrival_stats s))
    (stats_sample_std (fs_inter_arrival_stats s)) (fs_initiated s).

Definition finite_sizes (s : FlowState) : Prop :=
  finite (stats_min (fs_packet_size_stats s)) = true ∧ finite (stats_max (fs_packet_size_stats s)) = true ∧
  finite (stats_min (fs_payload_size_stats s)) = true ∧ finite (stats_max (fs_payload_size_stats s)) = true.

Lemma py_round_finite x : finite x = true → py_round x = Ok (fround x).
Proof. by destruct x. Qed.
Lemma address_of_int_ok n : IPv4.valid n → address_of_int n = Ok n.
Proof. intros [Hlo Hhi]. unfold address_of_int. rewrite andb_true_intro; [done|]. split; [by apply Z.leb_le|by apply Z.ltb_lt]. Qed.
Lemma protocol_round p : protocol_of_text (protocol_text p) = Ok p.
Proof. by destruct p. Qed.

(** A flow whose record carries the statistics of the Python aggregator's
    state is turned into the very flow the Python aggregator closes it with. *)
Theorem native_flow_is_the_python_flow s smac dmac f :
  to_flow s = Ok f → flow_fields_valid f = true → finite_sizes s →
  IPv4.valid (fs_forward_source_ip s) → IPv4.valid (fs_forward_destination_ip s) →
  is_datetime (fs_first_seen s) → is_datetime (fs_last_seen s) →
  Forall byte_ok smac → length smac = 6%nat → Forall byte_ok dmac → length dmac = 6%nat →
  fs_forward_source_mac s = Some (mac_text smac) → fs_forward_destination_mac s = Some (mac_text dmac) →
  _flow_from_record (record_of s (be_value smac) (be_value dmac)) = Ok f.
Proof.
  intros Hf Hvalid (H1 & H2 & H3 & H4) Hsrc Hdst Hfirst Hlast Hsb Hsl Hdb Hdl Hsm Hdm. unfold _flow_from_record, record_of.
  cbn [fr_src fr_dst fr_src_mac fr_dst_mac fr_protocol fr_first_seen_us fr_last_seen_us fr_size_min fr_size_max fr_payload_min fr_payload_max].
  rewrite !address_of_int_ok, protocol_round, !from_microseconds_ok, !py_round_finite, !mac_from_int_parser by done.
  cbn [mbind result_bind rbind]. rewrite <- Hsm, <- Hdm. change (mk_flow _ _ _ _ _ _ _ _ _ _ _ _ _ _ _ _ _ _ _ _) with (flow_of s).
  unfold model_validate. unfold to_flow in Hf. assert (Heq : flow_of s = f); [|rewrite Heq in Hf |- *; by rewrite Hvalid].
  unfold flow_check in Hf. repeat case_match; by simplify_eq.
Qed.

(** ** The interface of the fallback engine *)

(** What the engine documents of a record *)
Record record_wf (r : FlowRecord) : Prop := {
  rw_addresses : IPv4.valid (fr_src r) ∧ IPv4.valid (fr_dst r);
  rw_macs : 0 ≤ fr_src_mac r < 2 ^ 48 ∧ 0 ≤ fr_dst_mac r < 2 ^ 48;
  rw_ports : port_valid (fr_sport r) = true ∧ port_valid (fr_dport r) = true;
  rw_protocol : ∃ p, fr_protocol r = protocol_text p;
  rw_times : is_datetime (fr_first_seen_us r) ∧ is_datetime (fr_last_seen_us r) ∧ fr_first_seen_us r ≤ fr_last_seen_us r;
  rw_counts : 0 ≤ fr_forward_packet_count r ∧ 0 ≤ fr_backward_packet_count r ∧ 0 ≤ fr_forward_byte_count r ∧ 0 ≤ fr_backward_byte_count r ∧
    fr_forward_packet_count r + fr_backward_packet_count r = fr_packet_count r ∧
    fr_forward_byte_count r + fr_backward_byte_count r = fr_byte_count r;
  rw_payload : 0 ≤ fr_forward_payload_bytes r ∧ 0 ≤ fr_backward_payload_bytes r ∧
    fr_forward_payload_bytes r + fr_backward_payload_bytes r ≤ fr_byte_count r;
  rw_flags : Forall (λ n, 0 ≤ n) [fr_syn r; fr_ack r; fr_fin r; fr_rst r; fr_psh r; fr_urg r];
  rw_sizes : Forall (λ x, finite x = true ∧ 0 ≤ fround x) [fr_size_min r; fr_size_max r; fr_payload_min r; fr_payload_max r];
  rw_floats : Forall (λ x, nonneg_float x = true)
    [fr_size_mean r; fr_size_std r; fr_payload_mean r; fr_payload_sample_std r; fr_iat_min r; fr_iat_max r; fr_iat_mean r; fr_iat_sample_std r];
}.
Record signal_wf (r : NewFlowRecord) : Prop := {
  sw_addresses : IPv4.valid (nr_src r) ∧ IPv4.valid (nr_dst r);
  sw_macs : 0 ≤ nr_src_mac r < 2 ^ 48 ∧ 0 ≤ nr_dst_mac r < 2 ^ 48;
  sw_protocol : ∃ p, nr_protocol r = protocol_text p;
  sw_time : is_datetime (nr_ts_us r);
}.
Record tls_wf (r : TlsRecord) : Prop := {
  tw_addresses : IPv4.valid (tr_src r) ∧ IPv4.valid (tr_dst r);
  tw_time : is_datetime (tr_ts_us r);
}.

(** [rl_dated]: the engines fed only with times a datetime can hold. *)
Class RustLaws (X : Type) `{RustEngine X} := {
  rl_dated : X → Prop;
  rl_feed raw ts x r x' : is_datetime ts → rl_dated x → rx_feed raw ts x = (r, x') → rl_dated x';
  rl_drain x r x' : rl_dated x → rx_drain x = (r, x') → rl_dated x' ∧
    ∀ fs ns ts, r = inl (fs, ns, ts) → Forall record_wf fs ∧ Forall signal_wf ns ∧ Forall tls_wf ts;
  rl_sweep now x r x' : rl_dated x → rx_sweep now x = (r, x') → rl_dated x' ∧ ∀ fs, r = inl fs → Forall record_wf fs;
  rl_flush x r x' : rl_dated x → rx_flush x = (r, x') → rl_dated x' ∧ ∀ fs, r = inl fs → Forall record_wf fs;
  rl_counters x r x' : rl_dated x → rx_counters x = (r, x') → rl_dated x';
  rl_panic_stats x r x' : rl_dated x → rx_panic_stats x = (r, x') → rl_dated x';
}.

Lemma mac_from_int_ok n : 0 ≤ n < 2 ^ 48 → ∃ m, mac_from_int n = Ok m.
Proof. intros [Hlo Hhi]. unfold mac_from_int. rewrite andb_true_intro by (split; [by apply Z.leb_le|by apply Z.ltb_lt]). eauto. Qed.

(** A well-formed record always converts, and to a flow the model accepts. *)
Lemma flow_from_record_ok r : record_wf r → ∃ f, _flow_from_record r = Ok f ∧ flow_fields_valid f = true ∧ flow_check f = Ok f ∧
  fl_source_ip f = fr_src r ∧ fl_destination_ip f = fr_dst r ∧ fl_packet_count f = fr_packet_count r ∧ fl_byte_count f = fr_byte_count r.
Proof.
  intros [[Hs Hd] [Hsm Hdm] [Hsp Hdp] [p Hp] (Hf & Hl & Ht) Hc Hpl Hfl Hsz Hflt]. unfold _flow_from_record.
  destruct (mac_from_int_ok _ Hsm) as [sm Hsm']. destruct (mac_from_int_ok _ Hdm) as [dm Hdm'].
  open_Forall. repeat match goal with Hx : _ ∧ _ |- _ => destruct Hx end.
  rewrite !address_of_int_ok, Hp, protocol_round, !from_microseconds_ok, !py_round_finite, Hsm', Hdm' by done.
  cbn [mbind result_bind rbind]. unfold model_validate.
  set (f := mk_flow _ _ _ _ _ _ _ _ _ _ _ _ _ _ _ _ _ _ _ _).
  assert (Hv : flow_fields_valid f = true).
  { unfold flow_fields_valid, sizes_valid, f. cbn -[Z.leb]. rewrite Hsp, Hdp. cbn [andb].
    repeat (apply andb_true_intro; split); try done; apply Z.leb_le; lia. }
  assert (Hk : flow_check f = Ok f).
  { unfold flow_check, f. cbn -[Z.leb Z.ltb Z.add]. destruct (Z.ltb_spec (fr_last_seen_us r) (fr_first_seen_us r)); [lia|].
    destruct (Z.ltb_spec (fr_byte_count r) (fr_forward_payload_bytes r + fr_backward_payload_bytes r)); [lia|].
    destruct (Z.eqb_spec (fr_forward_packet_count r + fr_backward_packet_count r) (fr_packet_count r)); [|lia].
    by destruct (Z.eqb_spec (fr_forward_byte_count r + fr_backward_byte_count r) (fr_byte_count r)); [|lia]. }
  exists f. rewrite Hv. done.
Qed.
Lemma signal_from_record_ok r : signal_wf r → ∃ s, signal_from_record r = Ok s.
Proof.
  intros [[Hs Hd] [Hsm Hdm] [p Hp] Ht]. unfold signal_from_record.
  destruct (mac_from_int_ok _ Hsm) as [sm Hsm']. destruct (mac_from_int_ok _ Hdm) as [dm Hdm'].
  rewrite !address_of_int_ok, Hp, protocol_round, !from_microseconds_ok, Hsm', Hdm' by done. cbn. eauto.
Qed.
Lemma payload_from_record_ok r : tls_wf r → ∃ s, payload_from_record r = Ok s.
Proof. intros [[Hs Hd] Ht]. unfold payload_from_record. rewrite !address_of_int_ok, !from_microseconds_ok by done. cbn. eauto. Qed.

Lemma rmap_ok {A B} (f : A → result B) (P : A → Prop) l : (∀ a, P a → ∃ b, f a = Ok b) → Forall P l → ∃ bs, record_map f l = Ok bs ∧ length bs = length l.
Proof.
  intros Hf. induction 1 as [|a l Ha _ (bs & IH & Hl)]; [by exists []|]. destruct (Hf a Ha) as [b Hb].
  exists (b :: bs). cbn [record_map]. unfold mbind, result_bind. rewrite Hb, IH. cbn. auto.
Qed.
Lemma flows_ok l : Forall record_wf l → ∃ fs, record_map _flow_from_record l = Ok fs ∧ length fs = length l.
Proof. apply rmap_ok. intros r Hr. destruct (flow_from_record_ok r Hr) as (f & Hf & _). eauto. Qed.

Section Laws.
Context {X : Type} `{RustLaws X}.

Lemma wrapped_call_raises {A} (call : X → (A + string) * X) :
  (∀ x r x', rl_dated x → call x = (r, x') → rl_dated x') → raises_native_only rl_dated (_call call).
Proof.
  intros Hk x r x' Hx. unfold _call. destruct (call x) as [[a|msg] y] eqn:Hc; intros [= <- <-]; (split; [by eapply Hk|]); [done|]. intros e [= <-]. eauto.
Qed.
(** A panic of the call comes out as [NativeEngineError]; a conversion that
    cannot fail adds nothing. *)
Lemma call_then {A B} (call : X → (A + string) * X) (convert : A → result B) :
  (∀ x r x', rl_dated x → call x = (r, x') → rl_dated x' ∧ ∀ a, r = inl a → ∃ b, convert a = Ok b) →
  raises_native_only rl_dated (x ← _call call; mlift (convert x)).
Proof.
  intros Hk x r x' Hx. unfold mbind, m_bind, _call, mlift. destruct (call x) as [[a|msg] y] eqn:Hc; destruct (Hk _ _ _ Hx Hc) as [Hy Ha].
  - destruct (Ha a eq_refl) as [b ->]. by intros [= <- <-].
  - intros [= <- <-]. split; [done|]. intros e [= <-]. eauto.
Qed.

(** The wrapper keeps the promise the fallback engine relies on. *)
#[global, refine] Instance wrapped_engine_laws : NativeEngineLaws X := { ne_dated := rl_dated }.
Proof.
  - intros raw ts Ht. apply wrapped_call_raises. intros x r x'. by apply rl_feed.
  - intros x r x' Hx. cbn [ne_drain wrapped_engine]. unfold native_drain, mbind, m_bind, _call.
    destruct (rx_drain x) as [[[[fs ns] ts]|msg] y] eqn:Hc; destruct (rl_drain _ _ _ Hx Hc) as [Hy Hd].
    2:{ intros [= <- <-]. split; [done|]. intros e [= <-]. eauto. }
    destruct (Hd _ _ _ eq_refl) as (Hfs & Hns & Hts). destruct (flows_ok fs Hfs) as (l & Hl & _).
    destruct (rmap_ok _ _ _ signal_from_record_ok Hns) as (l' & Hl' & _). destruct (rmap_ok _ _ _ payload_from_record_ok Hts) as (l'' & Hl'' & _).
    unfold mlift. rewrite Hl, Hl', Hl''. by intros [= <- <-].
  - intros now. apply call_then. intros x r x' Hx Hc. destruct (rl_sweep _ _ _ _ Hx Hc) as [Hx' Hf]. split; [done|].
    intros fs ->. destruct (flows_ok fs (Hf fs eq_refl)) as (l & Hl & _). eauto.
  - apply call_then. intros x r x' Hx Hc. destruct (rl_flush _ _ _ Hx Hc) as [Hx' Hf]. split; [done|].
    intros fs ->. destruct (flows_ok fs (Hf fs eq_refl)) as (l & Hl & _). eauto.
  - apply wrapped_call_raises. exact rl_counters.
  - apply wrapped_call_raises. exact rl_panic_stats.
Defined.
End Laws.
