(* ===== verification/FallbackProps.v ===== *)
(** * What a panicking engine can and cannot cost

    Theorems about [Fallback]: when the budget is spent, that no call of the
    engine ever raises and that it switches exactly once, and that after the
    switch no packet is lost. *)

From S2P Require Import Prelude Float Net Models Throttle Hex Flow FlowProps Parser Thresholds Threat Tls TlsCache Fallback.
Local Open Scope Z_scope.

(** ** The budget *)

Definition recorded (max : Z) (ts : list Z) : NativePanicBudget := foldl (λ b t, record_panic t b) (mk_budget max [] 0 false) ts.
Definition within_window (now : Z) (ts : list Z) : list Z := filter (λ t, now - t < seconds _WINDOW_SECONDS) ts.

Lemma drop_old_sorted now l : StronglySorted Z.le l → drop_old now l = within_window now l.
Proof.
  unfold within_window. induction 1 as [|t l Hs IH Hall]; [done|]. cbn [drop_old]. destruct (Z.leb_spec (seconds _WINDOW_SECONDS) (now - t)) as [Hle|Hlt].
  - rewrite filter_cons_False by lia. exact IH.
  - rewrite filter_cons_True by lia. f_equal. symmetry. apply filter_all.
    rewrite Forall_forall in Hall. intros x Hx. specialize (Hall x Hx). cbn in Hall. lia.
Qed.

Lemma instants_snoc l x : StronglySorted Z.le (l ++ [x]) → StronglySorted Z.le l ∧ ∀ y, y ∈ l → y ≤ x.
Proof.
  induction l as [|y l IH]; cbn; [intros; split; [constructor|set_solver]|]. inversion 1 as [|? ? Hs Hall]; subst.
  destruct (IH Hs) as [Hl Hx]. split.
  - constructor; [done|]. apply Forall_app in Hall as [? _]. done.
  - intros z [->|Hz]%elem_of_cons; [|by apply Hx]. rewrite Forall_forall in Hall. apply Hall. set_solver.
Qed.

Lemma sorted_sub {A} (R : A → A → Prop) (P : A → Prop) `{!∀ x, Decision (P x)} l : StronglySorted R l → StronglySorted R (filter P l).
Proof.
  induction 1 as [|x l Hs IH Hall]; [constructor|]. rewrite filter_cons. case_decide; [|done]. constructor; [done|].
  rewrite Forall_forall in *. intros y [_ Hy]%list_elem_of_filter. by apply Hall.
Qed.

Lemma recorded_snoc max ts t : recorded max (ts ++ [t]) = record_panic t (recorded max ts).
Proof. unfold recorded. by rewrite foldl_app. Qed.

Lemma recorded_recent max ts now : StronglySorted Z.le (ts ++ [now]) →
  pb_recent (recorded max (ts ++ [now])) = within_window now (ts ++ [now]).
Proof.
  revert now. induction ts as [|t ts IH] using rev_ind; intros now Hs; rewrite recorded_snoc; cbn [record_panic pb_recent].
  { cbn [recorded foldl pb_recent app]. by apply drop_old_sorted. }
  destruct (instants_snoc _ _ Hs) as [Hs' Hle]. rewrite IH by done.
  rewrite drop_old_sorted.
  - unfold within_window. rewrite !filter_app. f_equal. rewrite !list_filter_filter.
    f_equal; apply list_filter_iff; intros x; specialize (Hle t ltac:(set_solver)); lia.
  - assert (Hf : StronglySorted Z.le (within_window t (ts ++ [t]))) by (by apply sorted_sub).
    assert (Hin : ∀ y, y ∈ within_window t (ts ++ [t]) → y ≤ now) by (intros y [_ Hy]%list_elem_of_filter; by apply Hle).
    clear - Hf Hin. induction Hf as [|x l Hl IHl Hall]; cbn; [repeat constructor|]. constructor; [apply IHl; set_solver|].
    apply Forall_app. split; [done|]. apply Forall_singleton. apply Hin. set_solver.
Qed.

Lemma recorded_max max ts : pb_max (recorded max ts) = max ∧ pb_total (recorded max ts) = Z.of_nat (length ts).
Proof.
  induction ts as [|t ts [IH1 IH2]] using rev_ind; [done|]. rewrite recorded_snoc, length_app. cbn. split; [done|]. rewrite IH2. lia.
Qed.

(** The budget is spent exactly when some panic was the last of at least
    [max_per_minute] within its trailing minute, whatever came after; and it
    counts every panic. *)
Theorem panic_budget_exact max ts :
  StronglySorted Z.le ts →
  pb_total (recorded max ts) = Z.of_nat (length ts) ∧
  (pb_exhausted (recorded max ts) = true ↔
   ∃ before now after, ts = before ++ now :: after ∧ max ≤ Z.of_nat (length (within_window now (before ++ [now])))).
Proof.
  intros Hs. split; [apply recorded_max|]. induction ts as [|t ts IH] using rev_ind.
  { split; [done|]. by intros ([|] & now & after & ? & _). }
  destruct (instants_snoc _ _ Hs) as [Hs' _]. rewrite recorded_snoc. unfold record_panic. cbn [pb_exhausted].
  pose proof (recorded_recent max ts t Hs) as Hrec. rewrite recorded_snoc in Hrec. unfold record_panic in Hrec. cbn [pb_recent] in Hrec.
  rewrite Hrec, orb_true_iff, IH, (proj1 (recorded_max max ts)), Z.leb_le by done. split.
  - intros [(before & now & after & -> & Hm)|Hm]; [|by exists ts, t, []].
    exists before, now, (after ++ [t]). split; [by rewrite <- app_assoc|done].
  - intros (before & now & after & Heq & Hm). destruct after as [|x after _] using rev_ind.
    + apply app_inj_tail in Heq as [-> ->]. by right.
    + left. rewrite app_comm_cons, app_assoc in Heq. apply app_inj_tail in Heq as [-> _]. by exists before, now, after.
Qed.

(** ** The engine *)

Section Engine.
Context {N : Type} {NE : NativeEngine N} {NEL : NativeEngineLaws N}.
Notation E := (FallbackFlowEngine N).
Implicit Types (s : E).

(** The Python half is ready to take over. *)
Definition python_ok s : Prop := ∃ a, fe_python s = Some a ∧ agg_inv a ∧ ag_protected_network a = fe_protected s.
(** An engine that started on the native path: on it until the budget is spent, on the Python one from then on. *)
Record fe_inv s : Prop := {
  fi_config : 0 < fc_max_flows (fe_config s);
  fi_native : is_Some (fe_native s) ↔ pb_exhausted (fe_budget s) = false;
  fi_python : fe_native s = None → python_ok s;
  fi_dated : ∀ n, fe_native s = Some n → ne_dated n;
}.

Inductive fb_op :=
| FbFeed (raw : bytes) (ts_us : Z)
| FbDrain
| FbSweep (now : Z)
| FbFlush
| FbCounters.
Inductive fb_out :=
| OutNothing
| OutBatch (b : NativeBatch)
| OutFlows (l : list Flow)
| OutCounts (c : Z * Z).
(** One call, with the clock readings it may use. *)
Definition fb_call : Type := Z * Z * fb_op.
Definition fb_do (k : fb_call) : M E fb_out :=
  let '(mono, wall, op) := k in
  match op with
  | FbFeed raw ts => _ ← fb_feed_us mono wall raw ts; mret OutNothing
  | FbDrain => b ← fb_drain mono wall; mret (OutBatch b)
  | FbSweep now => l ← fb_sweep_timeouts mono wall now; mret (OutFlows l)
  | FbFlush => l ← fb_flush mono wall; mret (OutFlows l)
  | FbCounters => c ← fb_counters; mret (OutCounts c)
  end.
Fixpoint fb_run (ks : list fb_call) (s : E) : list (result fb_out) * E :=
  match ks with
  | [] => ([], s)
  | k :: ks => let '(r, s) := fb_do k s in let '(rs, s) := fb_run ks s in (r :: rs, s)
  end.
(** A frame is bytes, and has a time a datetime can hold. *)
Definition fed_bytes (k : fb_call) : Prop := match k.2 with FbFeed raw ts => Forall byte_ok raw ∧ is_datetime ts | _ => True end.

(** *** Switching *)

Lemma new_aggregator_ok s : 0 < fc_max_flows (fe_config s) → python_ok (_start_python s).2.
Proof. intros H. eexists. split; [reflexivity|]. split; [by apply new_aggregator_inv|done]. Qed.

(** The salvage touches pending output, offsets and losses only. *)
Definition salvage_keeps (x y : N * E * Z) : Prop :=
  fe_config y.1.2 = fe_config x.1.2 ∧ fe_protected y.1.2 = fe_protected x.1.2 ∧ fe_budget y.1.2 = fe_budget x.1.2 ∧
  fe_native y.1.2 = fe_native x.1.2.
#[local] Instance salvage_keeps_preorder : PreOrder salvage_keeps.
Proof. split; [by intros x|]. intros x y z (?&?&?&?) (?&?&?&?). repeat split; congruence. Qed.
Lemma engine_framed {A} (f : M N A) : framed salvage_keeps (with_engine f).
Proof. intros [[n s] k]. unfold with_engine. destruct (f n). by repeat split. Qed.
Lemma count_framed c : framed salvage_keeps (mmodify (λ '(n, s, _), (n, s, c)) : M (N * E * Z) unit).
Proof. intros [[n s] k]. by repeat split. Qed.
Lemma salvage_framed : framed salvage_keeps (salvage (N := N)).
Proof.
  unfold salvage, keeping. repeat first
    [ (apply (frame_bind salvage_keeps); [|intros]) | apply engine_framed | apply count_framed | (intros [[n s] k]; by repeat split) ].
Qed.
Lemma salvage_raises n s k e x : ne_dated n → salvage (n, s, k) = (Raise e, x) → ∃ msg, e = NativeEngineError msg.
Proof.
  intros Hd. unfold salvage, keeping, with_engine, mbind, m_bind, mmodify.
  destruct (ne_drain n) as [r1 n1] eqn:H1. destruct (ne_drain_law _ _ _ Hd H1) as [D1 R1]. destruct r1 as [b|e1]; [|intros [= <- _]; by apply R1].
  destruct (ne_flush n1) as [r2 n2] eqn:H2. destruct (ne_flush_law _ _ _ D1 H2) as [D2 R2]. destruct r2 as [l|e1]; [|intros [= <- _]; by apply R2].
  destruct (ne_counters n2) as [r3 n3] eqn:H3. destruct (ne_counters_law _ _ _ D2 H3) as [D3 R3]. destruct r3 as [c|e1]; [|intros [= <- _]; by apply R3].
  destruct (ne_panic_stats n3) as [r4 n4] eqn:H4. destruct (ne_stats_law _ _ _ D3 H4) as [D4 R4]. destruct r4 as [c'|e1]; [done|]. intros [= <- _]; by apply R4.
Qed.

Lemma salvage_ok n s : ne_dated n → ∃ n' s' k, try_native salvage (λ _, mret tt) (n, s, 0) = (Ok tt, (n', s', k)) ∧
  fe_config s' = fe_config s ∧ fe_protected s' = fe_protected s ∧ fe_budget s' = fe_budget s ∧ fe_native s' = fe_native s.
Proof.
  intros Hd. unfold try_native. pose proof (salvage_framed (n, s, 0)) as Hk.
  destruct (salvage (n, s, 0)) as [[[]|e] [[n' s1] k]] eqn:Hs; [by exists n', s1, k|].
  destruct (salvage_raises _ _ _ _ _ Hd Hs) as [msg ->]. by exists n', s1, k.
Qed.

Lemma fall_back_inv wall n s : ne_dated n → 0 < fc_max_flows (fe_config s) → pb_exhausted (fe_budget s) = true →
  ∃ s', _fall_back wall n s = (Ok tt, s') ∧ fe_inv s'.
Proof.
  intros Hd Hc Hx. unfold _fall_back. destruct (salvage_ok n (fe_set_native s None) Hd) as (n' & s1 & k & -> & Hcfg & _ & Hb & Hn).
  eexists. split; [reflexivity|]. cbn in Hcfg, Hb, Hn. split.
  - cbn. by rewrite Hcfg.
  - cbn. rewrite Hn, Hb, Hx. split; [by intros [? ?]|done].
  - intros _. eexists. split; [reflexivity|]. split; [apply new_aggregator_inv; cbn; by rewrite Hcfg|done].
  - cbn. by rewrite Hn.
Qed.

Lemma panicked_inv mono wall where_ msg cost s : fe_inv s → is_Some (fe_native s) →
  ∃ s', _panicked mono wall where_ msg cost s = (Ok tt, s') ∧ fe_inv s'.
Proof.
  intros [Hc Hn Hp Hd] Hs. unfold _panicked. set (s1 := fe_set_budget s _). unfold mbind, m_bind, fb_emit, mmodify.
  destruct (pb_exhausted (fe_budget s1)) eqn:Hx.
  - cbn [fe_native fe_add_event s1 fe_set_budget]. destruct Hs as [n Hs]. rewrite Hs. 
    match goal with |- ∃ s', _fall_back wall n ?s2 = _ ∧ _ => destruct (fall_back_inv wall n s2) as (s' & -> & Hi); [by apply Hd|done|exact Hx|] end.
    by exists s'.
  - eexists. split; [reflexivity|]. split; [done| | |].
    + cbn. cbn in Hx. by rewrite Hx.
    + cbn. intros Hnone. by rewrite Hnone in Hs; destruct Hs.
    + exact Hd.
Qed.

Lemma held_native_inv s n : ne_dated n → fe_inv s → is_Some (fe_native s) → fe_inv (held_native s n).
Proof. intros Hd [Hc Hn Hp _] Hs. split; [done| |done|by intros n' [= <-]]. cbn. rewrite <- Hn. done. Qed.

Lemma native_call_inv {A} s n (f : M N A) h : fe_inv s → fe_native s = Some n → raises_native_only ne_dated f →
  (∀ msg s1, fe_inv s1 → is_Some (fe_native s1) → ∃ a s', h msg s1 = (Ok a, s') ∧ fe_inv s') →
  ∃ a s', try_native (call_native n f held_native) h s = (Ok a, s') ∧ fe_inv s'.
Proof.
  intros Hi Hn Hf Hh. unfold try_native, call_native. destruct (f n) as [r n'] eqn:Hr.
  destruct (Hf _ _ _ (fi_dated _ Hi _ Hn) Hr) as [Hd He]. destruct r as [a|e].
  - eexists _, _. split; [reflexivity|]. by apply held_native_inv.
  - destruct (He _ eq_refl) as [msg ->]. apply Hh; [by apply held_native_inv|done].
Qed.

Lemma on_python_inv {A} (f : M FlowAggregator A) s : fe_inv s → fe_native s = None →
  (∀ a, agg_inv a → ∃ x a', f a = (Ok x, a') ∧ agg_inv a' ∧ ag_protected_network a' = ag_protected_network a) →
  ∃ x a', on_python f s = (Ok x, fe_set_python s (Some a')) ∧ fe_inv (fe_set_python s (Some a')).
Proof.
  intros [Hc Hn Hp Hd] Hnone Hf. destruct (Hp Hnone) as (a & Ha & Hai & Hpr). unfold on_python. rewrite Ha.
  destruct (Hf a Hai) as (x & a' & -> & Hi' & Hpr'). exists x, a'. split; [done|]. split; [done|done| |exact Hd].
  intros _. exists a'. split; [done|]. split; [done|]. by rewrite Hpr'.
Qed.

Lemma fe_inv_same s s' : fe_inv s → fe_config s' = fe_config s → fe_native s' = fe_native s → fe_budget s' = fe_budget s →
  fe_python s' = fe_python s → fe_protected s' = fe_protected s → fe_inv s'.
Proof.
  intros [Hc Hn Hp Hd] E1 E2 E3 E4 E5. split; [by rewrite E1|by rewrite E2, E3| |by rewrite E2]. rewrite E2. intros Hnone.
  destruct (Hp Hnone) as (a & Ha & Hai & Hpr). exists a. by rewrite E4, E5.
Qed.

Lemma parse_packet_result raw t : Forall byte_ok raw →
  match parse_packet raw t with
  | Ok p => packet_ok p
  | Raise (PacketParseError _) | Raise (UnsupportedProtocolError _) => True
  | Raise _ => False
  end.
Proof.
  intros Hb. destruct (parse_packet raw t) as [p|e] eqn:Hp.
  - apply parse_packet_ok in Hp. by destruct (parse_packet_inner _ _ _ Hb Hp).
  - unfold parse_packet in Hp. destruct (_parse_packet raw t) as [q|[]]; [done|..]; injection Hp as <-; done.
Qed.

(** One frame on the Python path: what the engine then holds. *)
Lemma feed_python_spec raw ts s : Forall byte_ok raw → is_datetime ts → fe_inv s → fe_native s = None →
  ∃ a s', fe_python s = Some a ∧ _feed_python raw ts s = (Ok tt, s') ∧ fe_inv s' ∧ fe_native s' = None ∧ fe_protected s' = fe_protected s ∧
    match parse_packet raw ts with
    | Ok p => ∃ a' closed, process_packet p a = (Ok (flow_of <$> closed), a') ∧
        agg_step a a' closed (if was_accepted a p then [p] else []) ∧
        (∃ a2, fe_python s' = Some a2 ∧ ag_table a2 = ag_table a') ∧
        nb_completed (fe_pending s') = nb_completed (fe_pending s) ++ (flow_of <$> closed)
    | Raise _ => fe_python s' = Some a ∧ nb_completed (fe_pending s') = nb_completed (fe_pending s)
    end.
Proof.
  intros Hb Hts Hi Hnone. pose proof (parse_packet_result raw ts Hb) as Hok. destruct (fi_python _ Hi Hnone) as (a & Ha & Hai & Hpr).
  exists a. unfold _feed_python, mbind, m_bind, mmodify, mlift. rewrite from_microseconds_ok by done. destruct (parse_packet raw ts) as [p|e].
  - destruct (process_packet_step p a Hai Hok) as (a' & closed & Hpp & Hst). unfold extend_pending, on_python, mmodify. cbn [fe_python fe_set_pending fe_set_counts].
    rewrite Ha, Hpp. cbn [take_new_flows fe_python fe_set_python]. eexists. split; [done|]. split; [reflexivity|].
    pose proof (as_inv _ _ _ _ Hst) as Hi'. pose proof (as_config _ _ _ _ Hst) as (Hm & Hac & Hin & Hp').
    split; [|split; [done|split; [done|]]].
    + destruct Hi as [Hc Hn Hp Hd]. split; [done|done| |exact Hd]. intros _. eexists. split; [reflexivity|]. split; [|cbn; congruence].
      destruct Hi' as [? ? ? ?]. by split.
    + exists a', closed. split; [done|]. split; [done|]. split; [by eexists|]. cbn. by rewrite !app_nil_r.
  - destruct e; try done; (eexists; split; [done|]; split; [reflexivity|]; split; [by eapply fe_inv_same|]; split; [done|]; split; [done|]; done).
Qed.

Lemma sweep_total now a : agg_inv a → ∃ x a', sweep_timeouts now a = (Ok x, a') ∧ agg_inv a' ∧ ag_protected_network a' = ag_protected_network a.
Proof. intros Hi. destruct (sweep_step now a Hi) as (a' & c & -> & [? (_ & _ & _ & ?) _ _] & _). eauto 10. Qed.
Lemma flush_total a : agg_inv a → ∃ x a', flush a = (Ok x, a') ∧ agg_inv a' ∧ ag_protected_network a' = ag_protected_network a.
Proof. intros Hi. destruct (flush_step a Hi) as (a' & c & -> & [? (_ & _ & _ & ?) _ _] & _). eauto 10. Qed.

Lemma fb_do_inv k s : fed_bytes k → fe_inv s → ∃ o s', fb_do k s = (Ok o, s') ∧ fe_inv s'.
Proof.
  destruct k as [[mono wall] op]. unfold fed_bytes. cbn [snd]. intros Hb Hi. destruct op as [raw ts| |now| |]; cbn [fb_do]; unfold mbind at 1, m_bind at 1.
  - unfold fb_feed_us. destruct (fe_native s) as [n|] eqn:Hn.
    + destruct Hb as [_ Ht]. destruct (native_call_inv s n (ne_feed_us raw ts) (λ msg, _panicked mono wall "feed" msg "the frame was dropped"))
        as ([] & s' & -> & Hi'); [done|done|by apply ne_feed_law| |by eauto].
      intros msg s1 H1 H2. destruct (panicked_inv mono wall "feed" msg "the frame was dropped" s1 H1 H2) as (s' & -> & ?). eauto.
    + destruct Hb as [Hb Ht]. destruct (feed_python_spec raw ts s Hb Ht Hi Hn) as (a & s' & _ & -> & Hi' & _). eauto.
  - unfold fb_drain, _take_pending, mbind, m_bind. set (s0 := fe_set_pending s empty_batch). assert (Hi0 : fe_inv s0) by by eapply fe_inv_same.
    unfold drain_native. destruct (fe_native s0) as [n|] eqn:Hn; [|by eauto].
    assert (Hcall : ∀ h, (∀ msg s1, fe_inv s1 → is_Some (fe_native s1) → ∃ a s', h msg s1 = (Ok a, s') ∧ fe_inv s') →
      ∃ a s', try_native (fresh ← call_native n ne_drain held_native; mret (_merge (fe_pending s) fresh)) h s0 = (Ok a, s') ∧ fe_inv s').
    { intros h Hh. unfold try_native, call_native, mbind, m_bind. destruct (ne_drain n) as [r n'] eqn:Hr.
      destruct (ne_drain_law _ _ _ (fi_dated _ Hi0 _ Hn) Hr) as [Hd He]. destruct r as [b|e].
      - eexists _, _. split; [reflexivity|]. by apply held_native_inv.
      - destruct (He _ eq_refl) as [msg ->]. apply Hh; [by apply held_native_inv|done]. }
    edestruct Hcall as (a & s' & -> & Hi'); [|by eauto]. intros msg s1 H1 H2. unfold mbind, m_bind, mmodify.
    match goal with |- context [_panicked _ _ _ _ _ ?s2] => destruct (panicked_inv mono wall "drain" msg "that batch of output was lost" s2) as (s3 & -> & H3) end;
      [by eapply fe_inv_same|done|]. eexists _, _. split; [reflexivity|]. by eapply fe_inv_same.
  - unfold fb_sweep_timeouts. destruct (fe_native s) as [n|] eqn:Hn.
    + edestruct (native_call_inv s n (ne_sweep_timeouts now)) as (a & s' & -> & Hi'); [done|done|apply ne_sweep_law| |by eauto].
      intros msg s1 H1 H2. unfold mbind, m_bind. edestruct panicked_inv as (s3 & -> & H3); [done|done|]. eauto.
    + destruct (on_python_inv (sweep_timeouts now) s Hi Hn (sweep_total now)) as (x & a' & -> & Hi'). eauto.
  - unfold fb_flush. destruct (fe_native s) as [n|] eqn:Hn.
    + edestruct (native_call_inv s n ne_flush) as (a & s' & -> & Hi'); [done|done|apply ne_flush_law| |by eauto].
      intros msg s1 H1 H2. unfold mbind, m_bind. edestruct panicked_inv as (s3 & -> & H3); [done|done|]. eauto.
    + destruct (on_python_inv flush s Hi Hn flush_total) as (x & a' & -> & Hi'). eauto.
  - unfold fb_counters. destruct (fe_native s) as [n|] eqn:Hn; [|by eauto].
    edestruct (native_call_inv s n ne_counters) as (a & s' & -> & Hi'); [done|done|apply ne_counters_law| |by eauto]. intros msg s1 H1 _. eauto.
Qed.

(** *** After the switch *)

Definition packets (fs : list Flow) : Z := sum_of fl_packet_count fs.
(** The packets of the flows the engine still has: open, or waiting for a drain. *)
Definition kept_packets s : Z :=
  match fe_python s with Some a => held fs_packet_count a | None => 0 end + packets (nb_completed (fe_pending s)).
Definition out_packets (o : fb_out) : Z :=
  match o with OutBatch b => packets (nb_completed b) | OutFlows l => packets l | _ => 0 end.
(** The frame of a call, when it parses and the aggregator accepts it. *)
Definition fed_packets (protected : option IPv4.network) (k : fb_call) : Z :=
  match k.2 with
  | FbFeed raw ts => match parse_packet raw ts with
                     | Ok p => match accepted protected p with Some _ => 1 | None => 0 end
                     | Raise _ => 0
                     end
  | _ => 0
  end.

Lemma packets_app l1 l2 : packets (l1 ++ l2) = packets l1 + packets l2.
Proof. unfold packets, sum_of. induction l1 as [|f l1 IH]; cbn; [lia|]. rewrite IH. lia. Qed.
Lemma packets_closed closed : packets (flow_of <$> closed) = total fs_packet_count closed.
Proof. by apply sum_of_closed. Qed.
Lemma step_packets a a' closed taken : agg_step a a' closed taken →
  held fs_packet_count a' + packets (flow_of <$> closed) = held fs_packet_count a + Z.of_nat (length taken).
Proof.
  intros Hst. rewrite packets_closed, (as_conserves _ _ _ _ Hst _ _ packet_measure). f_equal.
  clear. induction taken as [|p l IH]; cbn; [done|]. rewrite IH. lia.
Qed.

Definition python_step s s' (o : fb_out) (fed : Z) : Prop :=
  fe_inv s' ∧ fe_native s' = None ∧ fe_protected s' = fe_protected s ∧ kept_packets s' + out_packets o = kept_packets s + fed.

Lemma on_python_step f s : fe_inv s → fe_native s = None →
  (∀ a, agg_inv a → ∃ a' closed, f a = (Ok (flow_of <$> closed), a') ∧ agg_step a a' closed []) →
  ∃ l s', on_python f s = (Ok l, s') ∧ python_step s s' (OutFlows l) 0.
Proof.
  intros Hi Hn Hf. destruct (fi_python _ Hi Hn) as (a & Ha & Hai & Hpr). destruct (Hf a Hai) as (a' & closed & Hr & Hst).
  unfold on_python. rewrite Ha, Hr. eexists _, _. split; [reflexivity|]. pose proof (as_inv _ _ _ _ Hst) as Hi'.
  pose proof (as_config _ _ _ _ Hst) as (_ & _ & _ & Hp'). split; [|split; [done|split; [done|]]].
  - destruct Hi as [Hc Hn' Hp Hd]. split; [done|done| |exact Hd]. intros _. exists a'. split; [done|]. split; [done|]. by rewrite Hp'.
  - apply step_packets in Hst. unfold kept_packets. cbn. rewrite Ha. cbn in Hst. lia.
Qed.

Lemma fb_do_python k s : fed_bytes k → fe_inv s → fe_native s = None →
  ∃ o s', fb_do k s = (Ok o, s') ∧ python_step s s' o (fed_packets (fe_protected s) k).
Proof.
  destruct k as [[mono wall] op]. unfold fed_bytes, fed_packets. cbn [snd]. intros Hb Hi Hn.
  destruct op as [raw ts| |now| |]; cbn [fb_do]; unfold mbind at 1, m_bind at 1.
  - unfold fb_feed_us. rewrite Hn. destruct Hb as [Hb Ht]. destruct (feed_python_spec raw ts s Hb Ht Hi Hn) as (a & s' & Ha & -> & Hi' & Hn' & Hpr' & Hspec).
    exists OutNothing, s'. split; [done|]. destruct (fi_python _ Hi Hn) as (a0 & Ha0 & _ & Hpr). rewrite Ha in Ha0. injection Ha0 as <-.
    split; [done|]. split; [done|]. split; [done|]. unfold kept_packets. rewrite Ha. cbn [out_packets]. rewrite <- Hpr.
    destruct (parse_packet raw ts) as [p|e].
    + destruct Hspec as (a' & closed & _ & Hst & (a2 & -> & Htab) & ->). apply step_packets in Hst. rewrite packets_app.
      unfold held in *. rewrite Htab. unfold was_accepted in Hst. destruct (accepted _ p); cbn in Hst; lia.
    + destruct Hspec as [-> ->]. lia.
  - unfold fb_drain, _take_pending, mbind, m_bind, drain_native. cbn [fe_native fe_set_pending]. rewrite Hn. eexists _, _. split; [reflexivity|].
    split; [by eapply fe_inv_same|]. split; [done|]. split; [done|]. unfold kept_packets. cbn. lia.
  - unfold fb_sweep_timeouts. rewrite Hn. destruct (on_python_step (sweep_timeouts now) s Hi Hn) as (l & s' & -> & Hst); [|by eauto].
    intros a Ha. destruct (sweep_step now a Ha) as (a' & c & ? & ? & _). eauto.
  - unfold fb_flush. rewrite Hn. destruct (on_python_step flush s Hi Hn) as (l & s' & -> & Hst); [|by eauto].
    intros a Ha. destruct (flush_step a Ha) as (a' & c & ? & ? & _). eauto.
  - unfold fb_counters. rewrite Hn. eexists _, _. split; [reflexivity|]. split; [done|]. split; [done|]. split; [done|]. cbn. lia.
Qed.

Lemma fb_run_inv ks : ∀ s, fe_inv s → Forall fed_bytes ks →
  ∃ os s', fb_run ks s = (Ok <$> os, s') ∧ fe_inv s' ∧ (fe_native s = None → fe_native s' = None).
Proof.
  induction ks as [|k ks IH]; intros s Hi Hb; [by exists [], s|]. apply Forall_cons in Hb as [Hk Hks]. cbn.
  destruct (fb_do_inv k s Hk Hi) as (o & s1 & H1 & Hi1). rewrite H1. destruct (IH s1 Hi1 Hks) as (os & s2 & -> & Hi2 & Hstay).
  exists (o :: os), s2. split; [done|]. split; [done|]. intros Hn. apply Hstay.
  destruct (fb_do_python k s Hk Hi Hn) as (o' & s1' & H1' & _ & Hn' & _). rewrite H1 in H1'. by injection H1' as _ <-.
Qed.

Lemma new_fallback_inv config protected max n s : ne_dated n → 0 < fc_max_flows config → new_fallback config protected max (Some n) = Ok s → fe_inv s.
Proof.
  intros Hd Hc. unfold new_fallback, new_budget. destruct (max <=? 0); [done|]. cbn. intros [= <-].
  split; [done| |done|by intros n' [= <-]]. cbn. split; [done|by eauto].
Qed.

(** C37: However often the native engine panics, in whatever calls, no call of the
    fallback engine raises, as long as the frames have times that a datetime can
    hold.  It is on the native path exactly until the budget is spent, and once
    in Python it stays there, whatever is called next. *)
Theorem fallback_survives_panics config protected max n s ks :
  ne_dated n → 0 < fc_max_flows config → new_fallback config protected max (Some n) = Ok s → Forall fed_bytes ks →
  ∃ os s', fb_run ks s = (Ok <$> os, s') ∧ (fe_native s' = None ↔ pb_exhausted (fe_budget s') = true) ∧
    ∀ more, Forall fed_bytes more → fe_native s' = None → fe_native (fb_run more s').2 = None.
Proof.
  intros Hd Hc Hnew Hb. apply new_fallback_inv in Hnew; [|done|done]. destruct (fb_run_inv ks s Hnew Hb) as (os & s' & Hr & Hi & _).
  exists os, s'. split; [done|]. split.
  - pose proof (fi_native _ Hi) as Hn. destruct (fe_native s'), (pb_exhausted (fe_budget s')); naive_solver.
  - intros more Hm Hn. destruct (fb_run_inv more s' Hi Hm) as (os2 & s2 & -> & _ & Hstay). by apply Hstay.
Qed.

(** From the switch on nothing is lost: the packets of the flows delivered by
    drains, sweeps and flushes, of those waiting for a drain, salvaged ones
    included, and of those still open are exactly the ones there were at the
    switch and the accepted packets fed since. *)
Theorem no_packet_is_lost_after_the_switch ks : ∀ s, fe_inv s → fe_native s = None → Forall fed_bytes ks →
  ∃ os s', fb_run ks s = (Ok <$> os, s') ∧
    kept_packets s' + foldr (λ o acc, out_packets o + acc) 0 os =
      kept_packets s + foldr (λ k acc, fed_packets (fe_protected s) k + acc) 0 ks.
Proof.
  induction ks as [|k ks IH]; intros s Hi Hn Hb; [by exists [], s|]. apply Forall_cons in Hb as [Hk Hks]. cbn.
  destruct (fb_do_python k s Hk Hi Hn) as (o & s1 & H1 & Hi1 & Hn1 & Hp1 & Hw1). rewrite H1.
  destruct (IH s1 Hi1 Hn1 Hks) as (os & s2 & -> & Hw2). exists (o :: os), s2. split; [done|]. cbn. rewrite Hp1 in Hw2. lia.
Qed.
End Engine.

(** ** An engine that always panics

    The third panic within a minute spends a budget of three; the frames fed
    afterwards go through the Python aggregator. *)

#[local] Instance broken_engine : NativeEngine unit := {|
  ne_feed_us _ _ := mraise (NativeEngineError "index out of bounds");
  ne_drain := mraise (NativeEngineError "index out of bounds");
  ne_sweep_timeouts _ := mraise (NativeEngineError "index out of bounds");
  ne_flush := mraise (NativeEngineError "index out of bounds");
  ne_counters := mraise (NativeEngineError "index out of bounds");
  ne_panic_stats := mraise (NativeEngineError "index out of bounds");
|}.
#[local, refine] Instance broken_laws : NativeEngineLaws unit := { ne_dated _ := True }.
Proof. all: intros; intros n r n' _ [= <- _]; split; [done|]; intros e [= <-]; by eexists. Defined.

Definition broken_start : FallbackFlowEngine unit :=
  mk_fallback (mk_flow_config 100 120 30) None (mk_budget 3 [] 0 false) (Some tt) None empty_batch (0, 0) (0, 0) 0 0 [].
Definition broken_calls : list fb_call :=
  [(0, 0, FbFeed sample_frame 1); (seconds 10, 1, FbDrain); (seconds 20, 2, FbFeed sample_frame 2);
   (seconds 30, 3, FbFeed sample_frame 3); (seconds 40, 4, FbFlush)].
Definition broken_run : list (result fb_out) * FallbackFlowEngine unit := fb_run broken_calls broken_start.

Lemma broken_start_inv : fe_inv broken_start.
Proof. by eapply (new_fallback_inv (NEL := broken_laws) (mk_flow_config 100 120 30) None 3 tt broken_start I). Qed.
Lemma sample_calls_bytes ks : Forall (λ k : fb_call, match k.2 with FbFeed raw ts => raw = sample_frame ∧ 0 ≤ ts ≤ 3 | _ => True end) ks → Forall fed_bytes ks.
Proof.
  intros Hks. eapply Forall_impl; [exact Hks|]. intros [[mono wall] []]; cbn; try done. intros [-> Ht]. split; [exact sample_frame_bytes|].
  unfold is_datetime, datetime_min, datetime_max. lia.
Qed.

Lemma panic_budget_exact_witness :
  pb_exhausted (recorded 3 [0; seconds 10; seconds 65; seconds 69]) = true ↔
   ∃ before now after, [0; seconds 10; seconds 65; seconds 69] = before ++ now :: after ∧
     3 ≤ Z.of_nat (length (within_window now (before ++ [now]))).
Proof.
  apply (panic_budget_exact 3 [0; seconds 10; seconds 65; seconds 69]). repeat constructor; unfold seconds, us_per_second; lia.
Defined.

Lemma fallback_survives_panics_witness :
  ∃ os s', broken_run = (Ok <$> os, s') ∧ (fe_native s' = None ↔ pb_exhausted (fe_budget s') = true).
Proof.
  destruct (fallback_survives_panics (mk_flow_config 100 120 30) None 3 tt broken_start broken_calls) as (os & s' & Hr & Hn & _).
  - exact I.
  - cbn. lia.
  - reflexivity.
  - by apply sample_calls_bytes; repeat constructor.
  - by exists os, s'.
Defined.

(** The state after the third panic, and what is done with it. *)
Definition switched : FallbackFlowEngine unit := (fb_run (take 3 broken_calls) broken_start).2.
Lemma switched_inv : fe_inv switched ∧ fe_native switched = None.
Proof.
  split; [|vm_compute; reflexivity].
  destruct (fb_run_inv (take 3 broken_calls) broken_start broken_start_inv) as (os & s' & Hr & Hi & _);
    [by apply sample_calls_bytes; repeat constructor|]. unfold switched. by rewrite Hr.
Qed.
Lemma no_packet_is_lost_after_the_switch_witness :
  ∃ os s', fb_run (drop 3 broken_calls) switched = (Ok <$> os, s') ∧
    kept_packets s' + foldr (λ o acc, out_packets o + acc) 0 os =
      kept_packets switched + foldr (λ k acc, fed_packets (fe_protected switched) k + acc) 0 (drop 3 broken_calls).
Proof.
  apply (no_packet_is_lost_after_the_switch (drop 3 broken_calls) switched).
  - exact (proj1 switched_inv).
  - exact (proj2 switched_inv).
  - by apply sample_calls_bytes; repeat constructor.
Defined.

(** A time beyond [datetime.max] is outside the promise: the Python path turns it
    into a datetime before it looks at the frame. *)
Example undated_frame_raises : (fb_feed_us 0 0 sample_frame (2 ^ 62) switched).1 = Raise (OverflowError "date value out of range").
Proof. vm_compute. reflexivity. Qed.

Example broken_backend : fe_backend broken_start = "native" ∧ fe_backend broken_run.2 = "python" ∧ length (fe_events broken_run.2) = 4%nat.
Proof. vm_compute. done. Qed.
