(* ===== verification/Inference.v ===== *)
(** * Inference (pirewall/ml/inference, ml/calibration.py, detection/known_attack.py, detection/anomaly.py)

    What surrounds the trained models: the schema gates at load and at every
    call, calibration, operating points, and the two functions that turn a
    model's output into evidence.  LightGBM's booster, scikit-learn's
    [decision_function], [numpy.interp] and the files of the artifacts are
    not part of the program: a loaded model carries its booster as a
    function, and the loaders take the outcomes of the two reads. *)

From S2P Require Import Prelude Float Net Models Throttle Policy Flow Features Thresholds Threat.
Local Open Scope Z_scope.

Inductive ModelType := LIGHTGBM | ISOLATION_FOREST.
#[global] Instance ModelType_eq_dec : EqDecision ModelType.
Proof. solve_decision. Defined.
Definition model_type_value (t : ModelType) : string :=
  match t with LIGHTGBM => "lightgbm" | ISOLATION_FOREST => "isolation_forest" end.

(** The fields of [ModelMetadata] the runtime reads. *)
Record ModelMetadata : Type := mk_metadata {
  mm_model_version : string;
  mm_feature_schema_version : string;
  mm_feature_ordering : list string;
  mm_class_mapping : list (string * Z);
  mm_operating_threshold : option float;
  mm_calibration_method : option string;
  mm_calibration_x : list float;
  mm_calibration_y : list float;
}.

(** [ModelMetadata._check_calibration] *)
Definition metadata_check (m : ModelMetadata) : bool :=
  Nat.eqb (length (mm_calibration_x m)) (length (mm_calibration_y m))
  && negb (bool_decide (mm_calibration_method m = None) && negb (bool_decide (mm_calibration_x m = []))).

(** What [booster.predict] returns for one input row: [(1,)] holding the
    positive-class probability, or [(1, num_class)]. *)
Inductive prediction :=
| Positive (p : float)
| Row (ps : list float).

Record LoadedLightGBMModel : Type := mk_lightgbm {
  lg_booster : list float → result prediction;
  lg_metadata : ModelMetadata;
}.

(** [decision_function] of one batch of rows *)
Record LoadedIsolationForestModel : Type := mk_isolation_forest {
  if_model : list (list float) → result (list float);
  if_metadata : ModelMetadata;
}.

(** ** The schema gates *)

Definition validate_feature_vector (v : FeatureVector) (m : ModelMetadata) : result unit :=
  if negb (String.eqb (fv_schema_version v) (mm_feature_schema_version m))
  then Raise (ModelInferenceError
    ("feature vector schema " +:+ py_repr (fv_schema_version v) +:+ " does not match model schema "
     +:+ py_repr (mm_feature_schema_version m)))
  else if negb (bool_decide (fv_feature_names v = mm_feature_ordering m))
  then Raise (ModelInferenceError "feature vector ordering does not match model feature ordering")
  else Ok tt.

Definition _check_schema_compatibility (m : ModelMetadata) (model_path : string) (expected : option string) : result unit :=
  let version := mm_feature_schema_version m in
  if match expected with Some e => negb (String.eqb version e) | None => false end
  then Raise (ModelInferenceError
    ("model at " +:+ model_path +:+ " was trained against feature schema " +:+ py_repr version
     +:+ " but this caller requires " +:+ py_repr (default EmptyString expected) +:+ "; refusing to load"))
  else if negb (supports_schema_version version)
  then Raise (ModelInferenceError
    ("model at " +:+ model_path +:+ " declares unknown feature schema " +:+ py_repr version +:+ "; refusing to load"))
  else rbind (feature_names version) (λ ordering,
    if negb (bool_decide (mm_feature_ordering m = ordering))
    then Raise (ModelInferenceError
      ("model at " +:+ model_path +:+ " has a different feature ordering than feature schema " +:+ py_repr version
       +:+ " despite matching version strings; refusing to load"))
    else Ok tt).

(** The loaders, given what reading the sidecar ([load_metadata]) and
    deserialising the artifact give. *)
Definition load_lightgbm_model (metadata : string → result ModelMetadata)
  (booster : string → string + (list float → result prediction)) (model_path : string) (expected : option string)
  : result LoadedLightGBMModel :=
  rbind (metadata model_path) (λ m,
  rbind (_check_schema_compatibility m model_path expected) (λ _,
  match booster model_path with
  | inl msg => Raise (ModelLoadError ("failed to load LightGBM model from " +:+ model_path +:+ ": " +:+ msg))
  | inr b => Ok (mk_lightgbm b m)
  end)).

(** What [joblib.load] gives: an error, something else, or a forest. *)
Inductive joblib_outcome :=
| JoblibFailed (msg : string)
| JoblibOther
| JoblibForest (f : list (list float) → result (list float)).

Definition load_isolation_forest_model (metadata : string → result ModelMetadata)
  (joblib : string → joblib_outcome) (model_path : string) (expected : option string)
  : result LoadedIsolationForestModel :=
  rbind (metadata model_path) (λ m,
  rbind (_check_schema_compatibility m model_path expected) (λ _,
  match joblib model_path with
  | JoblibFailed msg =>
      Raise (ModelLoadError ("failed to load Isolation Forest model from " +:+ model_path +:+ ": " +:+ msg))
  | JoblibOther => Raise (ModelLoadError ("file at " +:+ model_path +:+ " did not deserialize to an IsolationForest"))
  | JoblibForest f => Ok (mk_isolation_forest f m)
  end)).

(** ** Calibration *)

Definition fclip (x : float) : float := fmin (fmax x f0) (float_of_Z 1).

Record IsotonicCalibration : Type := mk_calibration { cal_x : list float; cal_y : list float }.

(** [IsotonicCalibration.__post_init__]; [sorted] is Python's stable sort. *)
Definition new_calibration (x y : list float) : result IsotonicCalibration :=
  if negb (Nat.eqb (length x) (length y)) then Raise (ValueError "calibration x and y must have the same length")
  else match x with
       | [] => Raise (ValueError "calibration needs at least one knot")
       | _ => if negb (bool_decide (py_sorted (λ a b, negb (flt b a)) x = x))
              then Raise (ValueError "calibration knots must be sorted by x")
              else Ok (mk_calibration x y)
       end.

Section Interp.
Context (interp : float → list float → list float → float).

Definition calibration_apply (c : IsotonicCalibration) (score : float) : float :=
  match cal_x c, cal_y c with
  | [_], y :: _ => fclip y
  | _, _ => fclip (interp score (cal_x c) (cal_y c))
  end.

(** [apply_many] on the array of one prediction *)
Definition apply_many (c : IsotonicCalibration) (p : prediction) : prediction :=
  match p with
  | Positive s => Positive (calibration_apply c s)
  | Row ss => Row (calibration_apply c <$> ss)
  end.

Definition predict_class_probabilities (model : LoadedLightGBMModel) (v : FeatureVector) : result prediction :=
  let m := lg_metadata model in
  rbind (validate_feature_vector v m) (λ _,
  rbind (lg_booster model (fv_values v)) (λ values,
  match mm_calibration_method m with
  | None => Ok values
  | Some method =>
      if negb (String.eqb method "isotonic")
      then Raise (ModelInferenceError
        ("model " +:+ mm_model_version m +:+ " declares unsupported calibration method " +:+ py_repr method))
      else if 2 <? Z.of_nat (length (mm_class_mapping m))
      then Raise (ModelInferenceError "isotonic calibration is only supported for binary models")
      else rbind (new_calibration (mm_calibration_x m) (mm_calibration_y m)) (λ c, Ok (apply_many c values))
  end)).

(** ** [known_attack.classify] *)

(** [{index: label for label, index in class_mapping.items()}] *)
Definition index_to_label (mapping : list (string * Z)) : list (Z * string) :=
  foldl (λ d e, dset d e.2 e.1) [] mapping.

Definition item {K V} `{EqDecision K} (d : list (K * V)) (k : K) : result V :=
  match dget d k with Some v => Ok v | None => Raise KeyError end.

(** [{index_to_label[i]: float(row[i]) for i in range(num_class)}] *)
Fixpoint row_probabilities (labels : list (Z * string)) (row : list float) (ixs : list Z) (acc : list (string * float))
  : result (list (string * float)) :=
  match ixs with
  | [] => Ok acc
  | i :: ixs' =>
      rbind (item labels i) (λ l,
      match row !! Z.to_nat i with
      | None => Raise IndexError
      | Some p => row_probabilities labels row ixs' (dset acc l p)
      end)
  end.

Definition class_probabilities (mapping : list (string * Z)) (raw : prediction) : result (list (string * float)) :=
  let labels := index_to_label mapping in
  let num_class := Z.of_nat (length mapping) in
  if 2 <? num_class then
    match raw with
    | Positive _ => Raise IndexError
    | Row row => row_probabilities labels row (seqZ 0 num_class) []
    end
  else
    rbind (match raw with Positive p => Ok p | Row [p] => Ok p | Row _ => Raise TypeError end) (λ p,
    rbind (item labels 0) (λ l0,
    rbind (item labels 1) (λ l1,
    Ok (dset (dset [] l0 (fsub (float_of_Z 1) p)) l1 p)))).

(** [max(probabilities, key=probabilities.get)]: the first of equals *)
Fixpoint argmax_from (best : string * float) (d : list (string * float)) : string * float :=
  match d with
  | [] => best
  | q :: d' => argmax_from (if flt best.2 q.2 then q else best) d'
  end.
Definition argmax (d : list (string * float)) : result (string * float) :=
  match d with [] => Raise (ValueError "max() iterable argument is empty") | q :: d' => Ok (argmax_from q d') end.

Definition unit_interval (x : float) : bool := fle f0 x && fle x (float_of_Z 1).

(** The field constraints of [KnownEvidence]. *)
Definition known_evidence_check (e : KnownEvidence) : bool :=
  negb (String.eqb (ka_flow_id e) "") && negb (String.eqb (ka_predicted_class e) "") && unit_interval (ka_confidence e)
  && match ka_operating_threshold e with Some t => unit_interval t | None => true end
  && negb (String.eqb (ka_model_version e) "") && negb (String.eqb (ka_feature_schema_version e) "").

Definition classify (model : LoadedLightGBMModel) (flow_id : string) (v : FeatureVector) (generated_at : Z)
  : result KnownEvidence :=
  rbind (predict_class_probabilities model v) (λ raw,
  let m := lg_metadata model in
  rbind (class_probabilities (mm_class_mapping m) raw) (λ probabilities,
  rbind (argmax probabilities) (λ best,
  let e := mk_known flow_id best.1 best.2 probabilities (mm_operating_threshold m) (mm_model_version m)
             (mm_feature_schema_version m) generated_at in
  if known_evidence_check e then Ok e else Raise (ValueError "known evidence")))).
End Interp.

(** ** [anomaly.detect] *)

Definition anomaly_score (model : LoadedIsolationForestModel) (v : FeatureVector) : result float :=
  rbind (validate_feature_vector v (if_metadata model)) (λ _,
  rbind (if_model model [fv_values v]) (λ raw,
  match raw with [] => Raise IndexError | s :: _ => Ok s end)).

Definition anomaly_score_batch (model : LoadedIsolationForestModel) (vs : list FeatureVector) : result (list float) :=
  match vs with
  | [] => Ok []
  | _ => rbind (rforall (λ v, validate_feature_vector v (if_metadata model)) vs) (λ _,
         if_model model (fv_values <$> vs))
  end.

(** The field constraints of [AnomalyEvidence]. *)
Definition anomaly_evidence_check (e : AnomalyEvidence) : bool :=
  negb (String.eqb (ae_flow_id e) "") && negb (String.eqb (ae_model_version e) "")
  && negb (String.eqb (ae_feature_schema_version e) "").

Definition anomaly_of (m : ModelMetadata) (flow_id : string) (score threshold : float) (generated_at : Z)
  : result AnomalyEvidence :=
  let e := mk_anom_ev flow_id score threshold (flt score threshold) (mm_model_version m) (mm_feature_schema_version m)
             generated_at in
  if anomaly_evidence_check e then Ok e else Raise (ValueError "anomaly evidence").

Definition detect (model : LoadedIsolationForestModel) (flow_id : string) (v : FeatureVector) (threshold : float)
  (generated_at : Z) : result AnomalyEvidence :=
  rbind (anomaly_score model v) (λ score, anomaly_of (if_metadata model) flow_id score threshold generated_at).

(** [[... for v, score in zip(vs, scores, strict=True)]] *)
Fixpoint zip_evidence (m : ModelMetadata) (threshold : float) (generated_at : Z) (vs : list (string * FeatureVector))
  (scores : list float) : result (list AnomalyEvidence) :=
  match vs, scores with
  | [], [] => Ok []
  | (flow_id, _) :: vs', score :: scores' =>
      rbind (anomaly_of m flow_id score threshold generated_at) (λ e,
      rbind (zip_evidence m threshold generated_at vs' scores') (λ es, Ok (e :: es)))
  | _, _ => Raise (ValueError "zip() arguments of different length")
  end.

Definition detect_batch (model : LoadedIsolationForestModel) (vs : list (string * FeatureVector)) (threshold : float)
  (generated_at : Z) : result (list AnomalyEvidence) :=
  rbind (anomaly_score_batch model (snd <$> vs)) (λ scores,
  zip_evidence (if_metadata model) threshold generated_at vs scores).

(** ** Operating points *)

(** [math.nextafter(x, math.inf)] and [math.nextafter(x, -math.inf)] *)
Definition next_up (x : float) : float :=
  match x with
  | S754_zero _ => S754_finite false 1 (-1074)
  | S754_infinity true => S754_finite true (2 ^ 53 - 1) 971
  | S754_finite false m e =>
      if (m + 1 =? 2 ^ 53)%positive then (if e =? 971 then S754_infinity false else S754_finite false (2 ^ 52) (e + 1))
      else S754_finite false (m + 1) e
  | S754_finite true m e =>
      if (m =? 1)%positive then S754_zero true
      else if (m =? 2 ^ 52)%positive && (-1074 <? e) then S754_finite true (2 ^ 53 - 1) (e - 1)
      else S754_finite true (m - 1) e
  | x => x
  end.
Definition next_down (x : float) : float := SFopp (next_up (SFopp x)).

Record ThresholdChoice : Type := mk_choice {
  tc_threshold : float;
  tc_target_fpr : float;
  tc_achieved_fpr : float;
  tc_benign_rows : Z;
  tc_benign_flagged : Z;
}.

Definition resolution (c : ThresholdChoice) : float :=
  if 0 <? tc_benign_rows c then fdiv (float_of_Z 1) (float_of_Z (tc_benign_rows c)) else S754_infinity false.

Definition sort_scores (l : list float) : list float := py_sorted (λ a b, negb (flt b a)) l.

(** [math.floor(target_fpr * count + 1e-12)] *)
Definition allowed_rows (target : float) (count : Z) : Z :=
  ffloor (fadd (fmul target (float_of_Z count)) (fdiv (float_of_Z 1) (float_of_Z (10 ^ 12)))).

(** [xs[i]], from the end when [i] is negative *)
Definition index {A} (l : list A) (i : Z) : result A :=
  let j := if i <? 0 then i + Z.of_nat (length l) else i in
  if j <? 0 then Raise IndexError else match l !! Z.to_nat j with Some x => Ok x | None => Raise IndexError end.

Definition count_of (f : float → bool) (l : list float) : Z := Z.of_nat (length (filter (λ x, f x = true) l)).

Definition threshold_for_fpr (benign_scores : list float) (target_fpr : float) (lower_is_attack : bool) : result ThresholdChoice :=
  match benign_scores with
  | [] => Raise (ValueError "cannot choose an operating point without benign validation rows")
  | _ =>
      if negb (fle f0 target_fpr && flt target_fpr (float_of_Z 1)) then Raise (ValueError "target_fpr must be in [0, 1)")
      else
        let ordered := sort_scores benign_scores in
        let count := Z.of_nat (length ordered) in
        let allowed := allowed_rows target_fpr count in
        rbind (if lower_is_attack
               then if allowed <=? 0 then rbind (index ordered 0) (λ x, Ok (next_down x)) else index ordered allowed
               else if allowed <=? 0 then rbind (index ordered (count - 1)) (λ x, Ok (next_up x))
                    else index ordered (count - allowed)) (λ threshold,
        let flagged := count_of (λ s, if lower_is_attack then flt s threshold else fle threshold s) ordered in
        Ok (mk_choice threshold target_fpr (fdiv (float_of_Z flagged) (float_of_Z count)) count flagged))
  end.

Definition expected_alerts_per_day (target_fpr benign_flows_per_day : float) : float := fmul target_fpr benign_flows_per_day.

(** ** The schema gate *)

Lemma schema_checked m path expected : _check_schema_compatibility m path expected = Ok tt →
  feature_names (mm_feature_schema_version m) = Ok (mm_feature_ordering m).
Proof.
  unfold _check_schema_compatibility. destruct (match expected with Some _ => _ | None => _ end); [done|].
  destruct (negb (supports_schema_version _)); [done|]. destruct (feature_names _) as [names|]; cbn; [|done].
  case_bool_decide; cbn; [by subst|done].
Qed.

Lemma extract_names f v vec : extract_features f v = Ok vec → fv_schema_version vec = v ∧ feature_names v = Ok (fv_feature_names vec).
Proof.
  unfold extract_features, _extract_features. destruct (feature_names v) as [names|] eqn:Hn; [|done].
  destruct (fl_payload_stats f); [|done]. destruct (project _ _) as [vs|[]]; cbn; try done. by intros [= <-].
Qed.

(** A model a loader accepted validates exactly the vectors of its own
    schema. *)
Lemma gate_exact m path expected f v vec : _check_schema_compatibility m path expected = Ok tt → extract_features f v = Ok vec →
  if decide (v = mm_feature_schema_version m) then validate_feature_vector vec m = Ok tt
  else ∃ msg, validate_feature_vector vec m = Raise (ModelInferenceError msg).
Proof.
  intros Hs Hx. apply schema_checked in Hs. apply extract_names in Hx as [Hv Hn]. unfold validate_feature_vector. rewrite Hv.
  case_decide as Hd.
  - subst v. rewrite Hd in Hn. rewrite Hs in Hn. injection Hn as Hn. rewrite Hd, String.eqb_refl. cbn. by rewrite bool_decide_eq_true_2.
  - rewrite (proj2 (String.eqb_neq _ _) Hd). cbn. by eexists.
Qed.

(** ** Operating points *)

Lemma next_up_lt x : is_finite x = true → flt x (next_up x) = true.
Proof.
  destruct x as [s|s| |[] m e]; try done; cbn [next_up].
  - intros _. destruct (Pos.eqb_spec m 1); [done|]. destruct ((m =? 2 ^ 52)%positive && (-1074 <? e)).
    + unfold flt, SFltb. cbn [SFcompare]. by rewrite (proj2 (Z.compare_gt_iff e (e - 1))) by lia.
    + unfold flt, SFltb. cbn [SFcompare]. rewrite Z.compare_refl. change (Pos.compare_cont Eq) with Pos.compare.
      by rewrite (proj2 (Pos.compare_gt_iff m (m - 1))) by lia.
  - intros _. destruct (Pos.eqb_spec (m + 1) (2 ^ 53)); [destruct (e =? 971); [done|]|].
    + unfold flt, SFltb. cbn [SFcompare]. by rewrite (proj2 (Z.compare_lt_iff e (e + 1))) by lia.
    + unfold flt, SFltb. cbn [SFcompare]. rewrite Z.compare_refl. change (Pos.compare_cont Eq) with Pos.compare.
      by rewrite (proj2 (Pos.compare_lt_iff m (m + 1))) by lia.
Qed.

Lemma flt_opp x y : flt (SFopp x) (SFopp y) = flt y x.
Proof.
  unfold flt, SFltb. destruct x as [[]|[]| |[] m1 e1], y as [[]|[]| |[] m2 e2]; try done; cbn [SFopp SFcompare negb];
    rewrite (Z.compare_antisym e1 e2); change (Pos.compare_cont Eq) with Pos.compare; rewrite (Pos.compare_antisym m1 m2);
    destruct (e1 ?= e2), (m1 ?= m2)%positive; done.
Qed.

Lemma next_down_lt x : is_finite x = true → flt (next_down x) x = true.
Proof.
  intros Hx. unfold next_down. assert (Hxx : SFopp (SFopp x) = x) by (by destruct x as [[]|[]| |[] m e]).
  rewrite <- Hxx at 2. rewrite flt_opp. apply next_up_lt. by destruct x as [[]|[]| |[] m e].
Qed.

Definition not_nan (x : float) : Prop := is_nan x = false.
Definition leq (x y : float) : Prop := negb (flt y x) = true.

Lemma leq_fle x y : not_nan x → not_nan y → leq x y ↔ fle x y = true.
Proof.
  unfold leq. intros Hx Hy. rewrite negb_true_iff. split; [by apply flt_false|apply fle_not_flt].
Qed.

Lemma sort_scores_sorted l : Forall not_nan l → StronglySorted leq (sort_scores l).
Proof.
  intros Hl. apply (py_sorted_sorted _ not_nan); [| |done]; unfold not_nan.
  - intros x y Hx Hy Hxy. apply negb_false_iff in Hxy. apply negb_true_iff. apply fle_not_flt.
    unfold flt, fle, SFltb, SFleb in *. by destruct (SFcompare y x) as [[]|].
  - intros x y z Hx Hy Hz. fold (leq x y) (leq y z) (leq x z). rewrite !leq_fle by done. apply fle_trans.
Qed.

Lemma count_of_perm f l l' : l ≡ₚ l' → count_of f l = count_of f l'.
Proof. intros Hp. unfold count_of. f_equal. by apply Permutation_length, filter_Permutation. Qed.
Lemma count_of_app f l l' : count_of f (l ++ l') = count_of f l + count_of f l'.
Proof. unfold count_of. rewrite filter_app, length_app. lia. Qed.
Lemma count_of_le f l : 0 ≤ count_of f l ≤ Z.of_nat (length l).
Proof. unfold count_of. pose proof (length_filter (λ x, f x = true) l). lia. Qed.
Lemma count_of_none f l : Forall (λ x, f x = false) l → count_of f l = 0.
Proof. unfold count_of. intros Hl. induction Hl as [|x l Hx Hl IH]; [done|]. rewrite filter_cons, decide_False by (by rewrite Hx). done. Qed.
Lemma count_of_all f l : Forall (λ x, f x = true) l → count_of f l = Z.of_nat (length l).
Proof. unfold count_of. intros Hl. induction Hl as [|x l Hx Hl IH]; [done|]. rewrite filter_cons, decide_True by done. cbn. lia. Qed.

(** A score fires a threshold. *)
Definition fires (lower_is_attack : bool) (threshold s : float) : bool := if lower_is_attack then flt s threshold else fle threshold s.

(** A sorted list around the element at [k]. *)
Lemma sorted_split l k x : StronglySorted leq l → l !! k = Some x →
  ∃ l1 l2, l = l1 ++ x :: l2 ∧ length l1 = k ∧ Forall (λ y, leq y x) l1 ∧ Forall (leq x) l2.
Proof.
  intros Hs Hk. exists (take k l), (drop (S k) l). split; [symmetry; by apply take_drop_middle|].
  apply lookup_lt_Some in Hk as Hlt. split; [rewrite length_take; lia|]. rewrite <- (take_drop_middle l k x Hk) in Hs.
  apply StronglySorted_app in Hs as (Hall & _ & Hs2). apply StronglySorted_inv in Hs2 as [_ ?]. split; [|done].
  apply Forall_forall. intros y Hy. apply Hall; [done|left].
Qed.

(** How many fire at [l !! k], and what any threshold that fires as few
    misses. *)
Lemma lower_count l k x : Forall not_nan l → StronglySorted leq l → l !! k = Some x → count_of (fires true x) l ≤ Z.of_nat k.
Proof.
  intros Hn Hs Hk. destruct (sorted_split _ _ _ Hs Hk) as (l1 & l2 & -> & <- & _ & H2). rewrite count_of_app.
  rewrite (count_of_none _ (x :: l2)); [pose proof (count_of_le (fires true x) l1); lia|]. cbn [fires].
  constructor; [|apply (Forall_impl _ _ _ H2); intros y; unfold leq; by rewrite negb_true_iff].
  apply fle_not_flt, fle_refl. rewrite Forall_forall in Hn. apply Hn. set_solver.
Qed.

Lemma lower_permissive l k x t s : Forall not_nan l → StronglySorted leq l → l !! k = Some x →
  count_of (fires true t) l ≤ Z.of_nat k → s ∈ l → fires true t s = true → fires true x s = true.
Proof.
  intros Hn Hs Hk Hc Hin Hst. destruct (fires true x s) eqn:Hf; [done|]. exfalso. cbn [fires] in *.
  destruct (sorted_split _ _ _ Hs Hk) as (l1 & l2 & -> & <- & H1 & _). rewrite Forall_forall in Hn, H1.
  assert (Hx : not_nan x) by (apply Hn; set_solver). assert (Hxs : fle x s = true) by (apply flt_false; [by apply Hn|done|done]).
  assert (Hlt : ∀ y, fle y s = true → flt y t = true) by (intros y Hy; by eapply fle_flt_trans).
  rewrite count_of_app in Hc. rewrite (count_of_all _ l1) in Hc.
  - unfold count_of in Hc. rewrite filter_cons, decide_True in Hc by by apply Hlt. cbn in Hc. lia.
  - apply Forall_forall. intros y Hy. apply Hlt. eapply fle_trans; [|done]. apply leq_fle; [apply Hn; set_solver|done|by apply H1].
Qed.

Lemma higher_permissive l k x t s : Forall not_nan l → StronglySorted leq l → l !! k = Some x →
  count_of (fires false t) l ≤ Z.of_nat (length l - k) → s ∈ l → fires false t s = true → fires false x s = true.
Proof.
  intros Hn Hs Hk Hc Hin Hst. destruct (fires false x s) eqn:Hf; [done|]. exfalso. cbn [fires] in *.
  destruct (sorted_split _ _ _ Hs Hk) as (l1 & l2 & -> & <- & H1 & H2). rewrite Forall_forall in Hn, H1, H2.
  assert (Hx : not_nan x) by (apply Hn; set_solver). assert (Hs' : not_nan s) by by apply Hn.
  assert (Hlt : flt s x = true) by (destruct (flt s x) eqn:Hlt; [done|]; apply flt_false in Hlt; [congruence|done|done]).
  assert (Hin1 : s ∈ l1).
  { assert (Hnx : ∀ y, leq x y → y ≠ s) by (intros y Hy ->; unfold leq in Hy; by rewrite Hlt in Hy).
    apply elem_of_app in Hin as [?|Hin]; [done|]. apply elem_of_cons in Hin as [->|Hin].
    - rewrite (fle_not_flt x x) in Hlt; [done|by apply fle_refl].
    - by destruct (Hnx s (H2 s Hin)). }
  apply list_elem_of_split in Hin1 as (a & b & ->). rewrite <- app_assoc in Hc. rewrite count_of_app in Hc.
  change ((s :: b) ++ x :: l2) with ([s] ++ b ++ x :: l2) in Hc. rewrite !count_of_app in Hc. rewrite (count_of_all _ [s]) in Hc by by repeat constructor.
  rewrite (count_of_all _ (x :: l2)) in Hc.
  - pose proof (count_of_le (fires false t) a). pose proof (count_of_le (fires false t) b). rewrite ?length_app in Hc. cbn [length] in Hc.
    rewrite ?length_app in Hc. cbn [length] in Hc. lia.
  - apply Forall_forall. intros y Hy. apply (fle_trans _ _ _ Hst). apply (fle_trans _ x); [by apply flt_fle|].
    apply elem_of_cons in Hy as [->|Hy]; [by apply fle_refl|]. apply leq_fle; [done|apply Hn; set_solver|by apply H2].
Qed.

(** Distinct scores: exactly the ones from [k] on fire. *)
Lemma higher_count l k x : Forall not_nan l → StronglySorted leq l → l !! k = Some x →
  (∀ i j a b, l !! i = Some a → l !! j = Some b → fle a b = true → fle b a = true → i = j) →
  count_of (fires false x) l = Z.of_nat (length l - k).
Proof.
  intros Hn Hs Hk Hd. destruct (sorted_split _ _ _ Hs Hk) as (l1 & l2 & Hl & Hlen & H1 & H2).
  assert (Hx : not_nan x) by (rewrite Forall_forall in Hn; apply Hn, list_elem_of_lookup; eauto).
  rewrite Hl, count_of_app. rewrite count_of_none.
  - rewrite count_of_all; [rewrite length_app; cbn; lia|]. constructor; [by apply fle_refl|]. apply Forall_forall. intros y Hy.
    rewrite Forall_forall in H2, Hn. apply leq_fle; [done|apply Hn; subst l; set_solver|by apply H2].
  - apply Forall_forall. intros y Hy. cbn [fires]. destruct (fle x y) eqn:Hxy; [exfalso|done]. apply list_elem_of_lookup in Hy as [i Hi].
    assert (Hil : l !! i = Some y) by (rewrite Hl, lookup_app_l; [done|by eapply lookup_lt_Some]).
    assert (Hyx : fle y x = true).
    { rewrite Forall_forall in H1, Hn. apply leq_fle; [apply Hn, list_elem_of_lookup; eauto|done|]. apply H1, list_elem_of_lookup; eauto. }
    pose proof (Hd _ _ _ _ Hil Hk Hyx Hxy). apply lookup_lt_Some in Hi. lia.
Qed.

Definition distinct_scores (l : list float) : Prop :=
  ∀ i j a b, l !! i = Some a → l !! j = Some b → fle a b = true → fle b a = true → i = j.

Lemma distinct_perm l l' : l ≡ₚ l' → distinct_scores l → distinct_scores l'.
Proof.
  intros Hp Hd i j a b Hi Hj Hab Hba. symmetry in Hp. apply Permutation_inj in Hp as [Hlen (f & Hf & Hmap)].
  rewrite Hmap in Hi, Hj. apply Hf. by eapply Hd.
Qed.

Lemma index_ok {A} (l : list A) i x : 0 ≤ i → index l i = Ok x → l !! Z.to_nat i = Some x.
Proof.
  intros Hi. unfold index. destruct (Z.ltb_spec i 0); [lia|]. destruct (Z.ltb_spec i 0); [lia|].
  destruct (l !! _); [by intros [= ->]|done].
Qed.

(** No row fires beyond the extreme one. *)
Lemma extreme_quiet lower l x : Forall (λ s, is_finite s = true) l → StronglySorted leq l →
  index l (if lower : bool then 0 else Z.of_nat (length l) - 1) = Ok x →
  Forall (λ s, fires lower (if lower then next_down x else next_up x) s = false) l.
Proof.
  intros Hfin Hs Hx. destruct l as [|y l]; [by destruct lower|].
  assert (Hn : Forall not_nan (y :: l)) by (apply (Forall_impl _ _ _ Hfin); by intros []).
  assert (Hi : (y :: l) !! (if lower then 0%nat else length l) = Some x).
  { destruct lower; apply index_ok in Hx; [done|lia| |cbn; lia]. replace (length l) with (Z.to_nat (Z.of_nat (length (y :: l)) - 1)) by (cbn; lia). done. }
  destruct (sorted_split _ _ _ Hs Hi) as (l1 & l2 & Hl & Hlen & H1 & H2). rewrite Hl in *. rewrite Forall_forall in *.
  assert (Hxf : is_finite x = true) by (apply Hfin; set_solver). assert (Hxn : not_nan x) by (apply Hn; set_solver).
  intros s Hin. assert (Hsn : not_nan s) by by apply Hn. destruct lower; cbn [fires].
  - apply fle_not_flt, flt_fle. eapply flt_fle_trans; [by apply next_down_lt|]. destruct l1; [|done].
    cbn in Hin. apply elem_of_cons in Hin as [->|Hin]; [by apply fle_refl|]. apply leq_fle; [done|done|by apply H2].
  - destruct (fle (next_up x) s) eqn:Hf; [exfalso|done]. pose proof (next_up_lt x Hxf) as Hlt.
    assert (Hsx : fle s x = true).
    { assert (Hl2 : l2 = []) by (apply (f_equal length) in Hl; rewrite length_app in Hl; cbn in Hl; destruct l2; [done|cbn in Hl; lia]).
      subst l2. apply elem_of_app in Hin as [Hin|Hin]; [by apply leq_fle; [..|apply H1]|].
      apply list_elem_of_singleton in Hin as ->. by apply fle_refl. }
    pose proof (fle_trans _ _ _ Hf Hsx) as Hbad. apply fle_not_flt in Hbad. congruence.
Qed.

(** The chosen threshold over the sorted scores. *)
Definition chosen_threshold (ordered : list float) (allowed : Z) (lower_is_attack : bool) : result float :=
  let count := Z.of_nat (length ordered) in
  if lower_is_attack
  then if allowed <=? 0 then rbind (index ordered 0) (λ x, Ok (next_down x)) else index ordered allowed
  else if allowed <=? 0 then rbind (index ordered (count - 1)) (λ x, Ok (next_up x)) else index ordered (count - allowed).

Lemma chosen_bound ordered allowed lower t : Forall (λ s, is_finite s = true) ordered → StronglySorted leq ordered →
  allowed ≤ Z.of_nat (length ordered) → chosen_threshold ordered allowed lower = Ok t →
  (lower = true ∨ distinct_scores ordered → count_of (fires lower t) ordered ≤ Z.max 0 allowed) ∧
  (∀ t' s, count_of (fires lower t') ordered ≤ Z.max 0 allowed → s ∈ ordered → fires lower t' s = true → fires lower t s = true).
Proof.
  intros Hfin Hs Hle. unfold chosen_threshold. assert (Hn : Forall not_nan ordered) by (apply (Forall_impl _ _ _ Hfin); by intros []).
  destruct (Z.leb_spec allowed 0) as [H0|H0].
  - intros Ht. assert (Hq : Forall (λ s, fires lower t s = false) ordered).
    { destruct lower; destruct (index _ _) as [x|] eqn:Hx; try done; cbn in Ht; injection Ht as <-;
        [by apply (extreme_quiet true)|by apply (extreme_quiet false)]. }
    split; [intros _; rewrite (count_of_none _ _ Hq); lia|]. intros t' s Hc Hin Hf. exfalso.
    assert (Hpos : 0 < count_of (fires lower t') ordered).
    { apply list_elem_of_split in Hin as (a & b & ->). rewrite count_of_app. change (s :: b) with ([s] ++ b). rewrite count_of_app.
      rewrite (count_of_all _ [s]) by by repeat constructor. pose proof (count_of_le (fires lower t') a).
      pose proof (count_of_le (fires lower t') b). cbn. lia. }
    lia.
  - destruct lower; intros Ht; apply index_ok in Ht; try lia.
    + split; [intros _; pose proof (lower_count _ _ _ Hn Hs Ht); lia|]. intros t' s Hc. apply (lower_permissive _ _ _ _ _ Hn Hs Ht). lia.
    + split; [intros [?|Hd]; [done|]; rewrite (higher_count _ _ _ Hn Hs Ht Hd); lia|].
      intros t' s Hc. apply (higher_permissive _ _ _ _ _ Hn Hs Ht). lia.
Qed.

Lemma sort_scores_length l : length (sort_scores l) = length l.
Proof. by rewrite (py_sorted_perm (λ a b, negb (flt b a)) l). Qed.

Lemma threshold_chosen scores target lower c : threshold_for_fpr scores target lower = Ok c →
  ∃ t, chosen_threshold (sort_scores scores) (allowed_rows target (Z.of_nat (length scores))) lower = Ok t ∧
    tc_threshold c = t ∧ tc_benign_rows c = Z.of_nat (length scores) ∧
    tc_benign_flagged c = count_of (fires lower t) (sort_scores scores).
Proof.
  unfold threshold_for_fpr, chosen_threshold. destruct scores as [|s0 scores]; [done|]. destruct (negb _); [done|].
  rewrite sort_scores_length. intros H. destruct (if lower : bool then _ else _) as [t|]; cbn in H; [|done].
  injection H as <-. by exists t.
Qed.

(** an operating point fires on at most the allowed number of benign
    validation rows when a low score is the attack or the scores are
    distinct, and whatever threshold fires on at most that many rows, the
    chosen one fires on every row that one fires on. *)
Theorem operating_point_exact scores target lower c :
  Forall (λ s, is_finite s = true) scores →
  let count := Z.of_nat (length scores) in
  let allowed := Z.max 0 (allowed_rows target count) in
  allowed_rows target count ≤ count →
  threshold_for_fpr scores target lower = Ok c →
  tc_benign_rows c = count ∧ tc_benign_flagged c = count_of (fires lower (tc_threshold c)) scores ∧
  (lower = true ∨ distinct_scores scores → tc_benign_flagged c ≤ allowed) ∧
  (∀ t s, count_of (fires lower t) scores ≤ allowed → s ∈ scores → fires lower t s = true → fires lower (tc_threshold c) s = true).
Proof.
  intros Hfin count allowed Hle Hc. apply threshold_chosen in Hc as (t & Ht & -> & -> & ->).
  pose proof (py_sorted_perm (λ a b, negb (flt b a)) scores : sort_scores scores ≡ₚ scores) as Hp.
  destruct (chosen_bound (sort_scores scores) (allowed_rows target count) lower t) as [Hb Hm].
  - by rewrite Hp.
  - apply sort_scores_sorted. apply (Forall_impl _ _ _ Hfin). by intros [].
  - by rewrite sort_scores_length.
  - done.
  - split; [done|]. split; [by apply count_of_perm|]. split.
    + intros Hd. apply Hb. destruct Hd as [?|Hd]; [by left|right]. by eapply distinct_perm.
    + intros t' s Hc Hin. apply Hm; [by rewrite (count_of_perm _ _ _ Hp)|by rewrite Hp].
Qed.

Definition sample_scores : list float := hundredths <$> [40; 10; 30; 20].

Definition sample_choice : ThresholdChoice :=
  match threshold_for_fpr sample_scores (hundredths 25) false with Ok c => c | Raise _ => mk_choice f0 f0 f0 0 0 end.

Lemma operating_point_exact_witness :
  threshold_for_fpr sample_scores (hundredths 25) false = Ok sample_choice ∧ tc_threshold sample_choice = hundredths 40 ∧
  tc_benign_flagged sample_choice = count_of (fires false (tc_threshold sample_choice)) sample_scores ∧
  tc_benign_flagged sample_choice = 1.
Proof.
  assert (Hc : threshold_for_fpr sample_scores (hundredths 25) false = Ok sample_choice) by (vm_compute; reflexivity).
  split; [exact Hc|]. split; [vm_compute; reflexivity|]. split; [|vm_compute; reflexivity].
  refine (proj1 (proj2 (operating_point_exact sample_scores (hundredths 25) false sample_choice _ _ Hc))).
  - repeat constructor.
  - vm_compute. discriminate.
Defined.

(** Equal scores: the threshold is a benign score itself, and every row that
    ties with it fires. *)
Theorem tied_scores_exceed_the_target :
  ∃ c, threshold_for_fpr (replicate 4 (hundredths 10)) (hundredths 25) false = Ok c ∧
    allowed_rows (hundredths 25) 4 = 1 ∧ tc_benign_flagged c = 4 ∧ tc_achieved_fpr c = float_of_Z 1.
Proof. eexists. split; [vm_compute; reflexivity|]. split; vm_compute; done. Qed.
