(* ===== verification/Runtime.v ===== *)
(** * Recent history (pirewall/ipc/history.py, pirewall/ipc/state.py)

    [FairShareHistory] keeps a bounded number of items and evicts from
    whichever key holds the most; [CoreStateStore] is the set of histories
    the daemon keeps for its readers.  [max] over no keys, indexing an empty
    deque and deleting a missing item raise, as they do in Python. *)

From S2P Require Import Prelude Float Net Models Throttle Policy Flow Threat.
Local Open Scope Z_scope.

Section History.
Context {K T : Type} `{EqDecision K}.

Record FairShareHistory : Type := mk_history_of {
  hy_maxlen : Z;
  hy_sequence : Z;
  hy_items : list (Z * T);
  hy_by_key : list (K * list Z);
}.

Definition new_history (maxlen : Z) : result FairShareHistory :=
  if maxlen <? 1 then Raise (ValueError "maxlen must be at least 1") else Ok (mk_history_of maxlen 0 [] []).

(** [(len(by_key[k]), -by_key[k][0])], compared as a tuple *)
Definition share (q : K * list Z) : result (Z * Z) :=
  match q.2 with [] => Raise IndexError | i :: _ => Ok (Z.of_nat (length q.2), - i) end.
Definition share_ltb (a b : Z * Z) : bool := (a.1 <? b.1) || ((a.1 =? b.1) && (a.2 <? b.2)).

(** [max(by_key, key=...)] keeps the first of equals and raises on none. *)
Fixpoint largest (best : K * list Z) (best_share : Z * Z) (d : list (K * list Z)) : result (K * list Z) :=
  match d with
  | [] => Ok best
  | q :: d' => rbind (share q) (λ s, if share_ltb best_share s then largest q s d' else largest best best_share d')
  end.
Definition victim (d : list (K * list Z)) : result (K * list Z) :=
  match d with
  | [] => Raise (ValueError "max() iterable argument is empty")
  | q :: d' => rbind (share q) (λ s, largest q s d')
  end.

Definition _evict_one (h : FairShareHistory) : result FairShareHistory :=
  rbind (victim (hy_by_key h)) (λ v,
  match v.2 with
  | [] => Raise IndexError
  | i :: rest =>
      if negb (dmem (hy_items h) i) then Raise KeyError
      else Ok (mk_history_of (hy_maxlen h) (hy_sequence h) (dpop (hy_items h) i)
                 (match rest with [] => dpop (hy_by_key h) v.1 | _ => dset (hy_by_key h) v.1 rest end))
  end).

Definition append_at (h : FairShareHistory) (item : T) (resolved : K) : result FairShareHistory :=
  rbind (if hy_maxlen h <=? Z.of_nat (length (hy_items h)) then _evict_one h else Ok h) (λ h,
  let n := hy_sequence h + 1 in
  Ok (mk_history_of (hy_maxlen h) n (dset (hy_items h) n item)
        (dset (hy_by_key h) resolved (default [] (dget (hy_by_key h) resolved) ++ [n])))).

(** [append(item, key=None)] of a history built with the key function [key_of] *)
Definition append_history (key_of : T → K) (h : FairShareHistory) (item : T) (key : option K) : result FairShareHistory :=
  append_at h item (match key with None => key_of item | Some k => k end).

Definition history_values (h : FairShareHistory) : list T := (hy_items h).*2.

(** ** What a history holds after a sequence of appends *)

Definition append_all (h : FairShareHistory) (log : list (K * T)) : result FairShareHistory :=
  foldl (λ r e, rbind r (λ h, append_at h e.2 e.1)) (Ok h) log.

(** The log with its sequence numbers. *)
Definition numbered (log : list (K * T)) : list (Z * (K * T)) := zip (seqZ 1 (Z.of_nat (length log))) log.

Definition of_key (k : K) (l : list (Z * (K * T))) : list (Z * (K * T)) := filter (λ e, e.2.1 = k) l.

(** [h] holds [kept], a part of the numbered log. *)
Record holds_kept (log : list (K * T)) (kept : list (Z * (K * T))) (h : FairShareHistory) : Prop := {
  hk_sub : kept `sublist_of` numbered log;
  hk_sequence : hy_sequence h = Z.of_nat (length log);
  hk_items : hy_items h = (λ e, (e.1, e.2.2)) <$> kept;
  hk_wf : dwf (hy_by_key h);
  hk_by_key k : dget (hy_by_key h) k = match (of_key k kept).*1 with [] => None | l => Some l end;
}.

Lemma numbered_snoc log e : numbered (log ++ [e]) = numbered log ++ [(Z.of_nat (length log) + 1, e)].
Proof.
  unfold numbered. rewrite length_app. cbn [length]. replace (length log + 1)%nat with (S (length log)) by lia.
  rewrite seqZ_S. rewrite zip_with_app by (rewrite length_seqZ; lia). cbn. do 2 f_equal. f_equal. lia.
Qed.

Lemma numbered_fst log : (numbered log).*1 = seqZ 1 (Z.of_nat (length log)).
Proof. unfold numbered. apply fst_zip. rewrite length_seqZ. lia. Qed.

Lemma kept_seqs log kept : kept `sublist_of` numbered log → NoDup kept.*1 ∧ ∀ i, i ∈ kept.*1 → i ≤ Z.of_nat (length log).
Proof.
  intros Hsub. assert (Hs : kept.*1 `sublist_of` seqZ 1 (Z.of_nat (length log))) by (rewrite <- numbered_fst; by apply fmap_sublist).
  split; [eapply sublist_NoDup; [|exact Hs]; apply NoDup_seqZ|]. intros i Hi. eapply elem_of_sublist in Hi; [|exact Hs].
  apply elem_of_seqZ in Hi. lia.
Qed.

(** The oldest entry of [k] leaves. *)
Fixpoint remove_first (k : K) (l : list (Z * (K * T))) : list (Z * (K * T)) :=
  match l with
  | [] => []
  | e :: l' => if decide (e.2.1 = k) then l' else e :: remove_first k l'
  end.

Lemma remove_first_sub k l : remove_first k l `sublist_of` l.
Proof. induction l as [|e l IH]; [done|]. cbn. case_decide; [by apply sublist_cons|by apply sublist_skip]. Qed.

Lemma remove_first_key k k' l : of_key k' (remove_first k l) = if decide (k' = k) then tail (of_key k l) else of_key k' l.
Proof.
  unfold of_key. induction l as [|e l IH]; [by case_decide|]. cbn [remove_first]. rewrite !filter_cons.
  destruct (decide (e.2.1 = k)) as [He|He].
  - case_decide as Hk; [by subst k'|]. rewrite decide_False by congruence. done.
  - rewrite filter_cons, IH. destruct (decide (k' = k)); [|done]. subst k'. by rewrite decide_False.
Qed.

Lemma remove_first_items k l e es : NoDup l.*1 → of_key k l = e :: es →
  (λ x : Z * (K * T), (x.1, x.2.2)) <$> remove_first k l = dpop ((λ x : Z * (K * T), (x.1, x.2.2)) <$> l) e.1.
Proof.
  unfold of_key. induction l as [|x l IH]; intros Hnd Hk; [done|]. cbn in Hnd. apply NoDup_cons in Hnd as [Hn Hnd].
  rewrite filter_cons in Hk. cbn [remove_first]. destruct (decide (x.2.1 = k)).
  - injection Hk as <- _. cbn. rewrite decide_True by done. symmetry. clear -Hn.
    induction l as [|y l IH]; [done|]. cbn in *. rewrite decide_False by set_solver. f_equal. apply IH. set_solver.
  - cbn. rewrite (IH Hnd Hk). rewrite decide_False; [done|]. intros Heq. apply Hn. rewrite Heq. apply list_elem_of_fmap. exists e. split; [done|].
    assert (Hin : e ∈ filter (λ e, e.2.1 = k) l) by (rewrite Hk; left). by apply list_elem_of_filter in Hin as [_ ?].
Qed.

(** ** The largest share *)

Lemma share_ltb_length a b : share_ltb a b = true → a.1 ≤ b.1.
Proof. unfold share_ltb. rewrite orb_true_iff, andb_true_iff, Z.ltb_lt, Z.eqb_eq. lia. Qed.
Lemma share_ltb_false a b : share_ltb a b = false → b.1 ≤ a.1.
Proof. unfold share_ltb. rewrite orb_false_iff, andb_false_iff, Z.ltb_ge, Z.eqb_neq. lia. Qed.

Lemma largest_spec d : ∀ best s, share best = Ok s → Forall (λ q : K * list Z, q.2 ≠ []) d →
  ∃ q, largest best s d = Ok q ∧ q ∈ best :: d ∧ ∀ q', q' ∈ best :: d → (length q'.2 ≤ length q.2)%nat.
Proof.
  induction d as [|x d IH]; intros best s Hs Hd; cbn [largest].
  { exists best. split; [done|]. split; [left|]. intros q' Hq. apply list_elem_of_singleton in Hq as ->. lia. }
  apply Forall_cons in Hd as [Hx Hd]. destruct (share x) as [sx|] eqn:Hsx; [|unfold share in Hsx; by destruct x as [? []]]. cbn [rbind].
  assert (Hlen : ∀ q (sq : Z * Z), share q = Ok sq → sq.1 = Z.of_nat (length q.2)) by (intros [? []] sq; cbn; [done|by intros [= <-]]).
  pose proof (Hlen _ _ Hs) as Hls. pose proof (Hlen _ _ Hsx) as Hlx. destruct (share_ltb s sx) eqn:Hlt.
  - destruct (IH x sx Hsx Hd) as (q & -> & Hin & Hmax). exists q. split; [done|]. split; [set_solver|]. intros q' Hq'.
    apply share_ltb_length in Hlt. apply elem_of_cons in Hq' as [->|Hq']; [|by apply Hmax].
    specialize (Hmax x (list_elem_of_here _ _)). lia.
  - destruct (IH best s Hs Hd) as (q & -> & Hin & Hmax). exists q. split; [done|]. split; [set_solver|]. intros q' Hq'.
    apply share_ltb_false in Hlt. apply elem_of_cons in Hq' as [->|Hq']; [apply Hmax; left|].
    apply elem_of_cons in Hq' as [->|Hq']; [|apply Hmax; by right]. specialize (Hmax best (list_elem_of_here _ _)). lia.
Qed.

Lemma victim_spec d : d ≠ [] → Forall (λ q : K * list Z, q.2 ≠ []) d →
  ∃ q, victim d = Ok q ∧ q ∈ d ∧ ∀ q', q' ∈ d → (length q'.2 ≤ length q.2)%nat.
Proof.
  intros Hne Hd. destruct d as [|x d]; [done|]. apply Forall_cons in Hd as [Hx Hd]. cbn.
  destruct (share x) as [s|] eqn:Hs; [|unfold share in Hs; by destruct x as [? []]]. by apply largest_spec.
Qed.

(** So many keys of at most so many entries each. *)
Lemma keys_bound (ks : list K) m : ∀ l : list (Z * (K * T)), (∀ e, e ∈ l → e.2.1 ∈ ks) → (∀ k, (length (of_key k l) ≤ m)%nat) →
  (length l ≤ length ks * m)%nat.
Proof.
  induction ks as [|k ks IH]; intros l Hin Hm; cbn; [destruct l as [|e l]; [done|]; specialize (Hin e (list_elem_of_here _ _)); set_solver|].
  assert (Hsplit : length l = (length (of_key k l) + length (filter (λ e : Z * (K * T), e.2.1 ≠ k) l))%nat).
  { unfold of_key. clear. induction l as [|e l IH]; [done|]. rewrite !filter_cons. destruct (decide (e.2.1 = k));
      [rewrite decide_False by tauto|rewrite decide_True by done]; cbn; lia. }
  assert (Hrest : (length (filter (λ e : Z * (K * T), e.2.1 ≠ k) l) ≤ length ks * m)%nat).
  { apply IH; [intros e He; apply list_elem_of_filter in He as [Hk He]; specialize (Hin e He); set_solver|].
    intros k'. specialize (Hm k'). unfold of_key in *. etransitivity; [|exact Hm]. clear. induction l as [|e l IH]; [done|].
    rewrite !filter_cons. destruct (decide (e.2.1 ≠ k)); rewrite ?filter_cons; case_decide; cbn; lia. }
  specialize (Hm k). lia.
Qed.

(** ** The invariant *)

Record fair_kept (maxlen : Z) (log : list (K * T)) (kept : list (Z * (K * T))) : Prop := {
  fk_length : Z.of_nat (length kept) = Z.min (Z.of_nat (length log)) maxlen;
  fk_latest k : of_key k kept `suffix_of` of_key k (numbered log);
  fk_share ks k : (∀ e, e ∈ log → e.1 ∈ ks) → Z.of_nat (length ks * length (of_key k (numbered log))) < maxlen →
    of_key k kept = of_key k (numbered log);
}.

Lemma of_key_app k l l' : of_key k (l ++ l') = of_key k l ++ of_key k l'.
Proof. apply filter_app. Qed.

Lemma numbered_key log e : e ∈ numbered log → e.2 ∈ log.
Proof. unfold numbered. intros He. destruct e as [i e]. by apply elem_of_zip_r in He. Qed.

Lemma by_key_nonempty log kept h : holds_kept log kept h → Forall (λ q : K * list Z, q.2 ≠ []) (hy_by_key h).
Proof.
  intros Hh. apply Forall_forall. intros [k l] Hq. apply dget_elem in Hq; [|apply Hh]. rewrite (hk_by_key _ _ _ Hh) in Hq. cbn.
  destruct ((of_key k kept).*1); [done|]. by injection Hq as <-.
Qed.

(** Evicting removes the oldest entry of a key that holds the most. *)
Lemma evict_holds log kept h : holds_kept log kept h → kept ≠ [] →
  ∃ k h', _evict_one h = Ok h' ∧ hy_maxlen h' = hy_maxlen h ∧ holds_kept log (remove_first k kept) h' ∧ of_key k kept ≠ [] ∧
    ∀ k', (length (of_key k' kept) ≤ length (of_key k kept))%nat.
Proof.
  intros Hh Hne. pose proof (by_key_nonempty _ _ _ Hh) as Hnb.
  assert (Hq0 : hy_by_key h ≠ []).
  { intros H0. destruct kept as [|e kept]; [done|]. pose proof (hk_by_key _ _ _ Hh e.2.1) as Hk. rewrite H0 in Hk.
    unfold of_key in Hk. rewrite filter_cons, decide_True in Hk by done. done. }
  destruct (victim_spec _ Hq0 Hnb) as ([k l] & Hv & Hin & Hmax). unfold _evict_one. rewrite Hv. cbn [rbind fst snd].
  apply dget_elem in Hin; [|apply Hh]. pose proof (hk_by_key _ _ _ Hh k) as Hk. rewrite Hin in Hk.
  destruct (of_key k kept) as [|e es] eqn:He; [done|]. cbn in Hk. injection Hk as ->.
  destruct (kept_seqs _ _ (hk_sub _ _ _ Hh)) as [Hnd Hle].
  assert (Hek : e ∈ kept) by (assert (Hin' : e ∈ of_key k kept) by (rewrite He; left); by apply list_elem_of_filter in Hin' as [_ ?]).
  assert (Hmem : dmem (hy_items h) e.1 = true).
  { apply dmem_true, dget_is_Some. rewrite (hk_items _ _ _ Hh). unfold dkeys. rewrite <- list_fmap_compose. by apply list_elem_of_fmap_2. }
  rewrite Hmem. cbn [negb]. exists k. eexists. split; [reflexivity|]. split; [done|]. split; [|split; [by rewrite He|]].
  - split; cbn.
    + etransitivity; [apply remove_first_sub|apply Hh].
    + apply Hh.
    + rewrite (hk_items _ _ _ Hh). symmetry. by eapply remove_first_items.
    + destruct (es.*1); [apply dwf_pop|apply dwf_set]; apply Hh.
    + intros k'. rewrite remove_first_key, He. cbn [tail].
      destruct (es.*1) as [|i rest] eqn:Hes; rewrite ?dget_pop, ?dget_set; destruct (decide (k = k')) as [<-|Hk].
      all: rewrite ?(decide_True (P := k = k)), ?(decide_False (P := k' = k)), ?Hes by congruence; try done; apply Hh.
  - intros k'. rewrite He. pose proof (hk_by_key _ _ _ Hh k') as Hk'. destruct (of_key k' kept) as [|e' es'] eqn:He'; [cbn; lia|].
    cbn in Hk'. apply dget_Some_elem in Hk'. specialize (Hmax _ Hk'). cbn in Hmax. rewrite !length_fmap in Hmax. cbn. lia.
Qed.

Lemma put_holds log kept h e : holds_kept log kept h →
  holds_kept (log ++ [e]) (kept ++ [(Z.of_nat (length log) + 1, e)])
    (mk_history_of (hy_maxlen h) (hy_sequence h + 1) (dset (hy_items h) (hy_sequence h + 1) e.2)
       (dset (hy_by_key h) e.1 (default [] (dget (hy_by_key h) e.1) ++ [hy_sequence h + 1]))).
Proof.
  intros Hh. destruct (kept_seqs _ _ (hk_sub _ _ _ Hh)) as [Hnd Hle]. rewrite (hk_sequence _ _ _ Hh). split; cbn.
  - rewrite numbered_snoc. apply sublist_app; [apply Hh|done].
  - rewrite length_app. cbn. lia.
  - rewrite fmap_app, (hk_items _ _ _ Hh). cbn. apply dset_fresh. unfold dkeys. rewrite <- list_fmap_compose. intros Hin.
    specialize (Hle _ Hin). lia.
  - apply dwf_set, Hh.
  - intros k. rewrite of_key_app, fmap_app, dget_set, !(hk_by_key _ _ _ Hh). unfold of_key at 4. rewrite filter_cons. cbn.
    destruct (decide (e.1 = k)) as [<-|Hk]; cbn; [by destruct ((of_key e.1 kept).*1)|by rewrite app_nil_r].
Qed.

Lemma remove_first_length k l : of_key k l ≠ [] → length l = S (length (remove_first k l)).
Proof.
  unfold of_key. induction l as [|e l IH]; [done|]. rewrite filter_cons. cbn [remove_first]. case_decide; [done|]. intros Hk. cbn.
  f_equal. by apply IH.
Qed.

(** What eviction keeps, and what the append after it adds. *)
Lemma fair_step maxlen log kept kept' e :
  fair_kept maxlen log kept →
  Z.of_nat (length kept') + 1 = Z.min (Z.of_nat (length log) + 1) maxlen →
  (∀ k, of_key k kept' `suffix_of` of_key k kept) →
  (∀ ks k, (∀ e, e ∈ log → e.1 ∈ ks) → Z.of_nat (length ks * length (of_key k (numbered log))) < maxlen →
     of_key k kept' = of_key k kept) →
  fair_kept maxlen (log ++ [e]) (kept' ++ [(Z.of_nat (length log) + 1, e)]).
Proof.
  intros Hf Hlen Hsuf Hshare. split.
  - rewrite !length_app. cbn. lia.
  - intros k. rewrite numbered_snoc, !of_key_app. apply suffix_app. etransitivity; [apply Hsuf|apply Hf].
  - intros ks k Hks Hlt. rewrite numbered_snoc, !of_key_app in *. rewrite length_app in Hlt. f_equal.
    assert (Hks' : ∀ e0, e0 ∈ log → e0.1 ∈ ks) by (intros e0 ?; apply Hks; set_solver).
    assert (Hlt' : Z.of_nat (length ks * length (of_key k (numbered log))) < maxlen) by nia.
    rewrite (Hshare ks k Hks' Hlt'). by apply (fk_share _ _ _ Hf ks).
Qed.

(** A key within its share is not the one evicted from. *)
Lemma victim_over_share maxlen log kept k ks : fair_kept maxlen log kept → kept `sublist_of` numbered log →
  maxlen ≤ Z.of_nat (length kept) → (∀ k', (length (of_key k' kept) ≤ length (of_key k kept))%nat) →
  (∀ e, e ∈ log → e.1 ∈ ks) → maxlen ≤ Z.of_nat (length ks * length (of_key k (numbered log))).
Proof.
  intros Hf Hsub Hfull Hmost Hks. pose proof (suffix_length _ _ (fk_latest _ _ _ Hf k)) as Hle.
  assert (Hb : (length kept ≤ length ks * length (of_key k kept))%nat).
  { apply keys_bound; [|done]. intros e He. eapply elem_of_sublist in He; [|done]. by apply Hks, numbered_key. }
  nia.
Qed.

Lemma append_keeps log kept h e : 1 ≤ hy_maxlen h → holds_kept log kept h → fair_kept (hy_maxlen h) log kept →
  ∃ h' kept', append_at h e.2 e.1 = Ok h' ∧ hy_maxlen h' = hy_maxlen h ∧ holds_kept (log ++ [e]) kept' h' ∧
    fair_kept (hy_maxlen h) (log ++ [e]) kept'.
Proof.
  intros Hmax Hh Hf. unfold append_at. pose proof (fk_length _ _ _ Hf) as Hlen.
  assert (Hil : length (hy_items h) = length kept) by (rewrite (hk_items _ _ _ Hh); apply length_fmap). rewrite Hil.
  destruct (Z.leb_spec (hy_maxlen h) (Z.of_nat (length kept))).
  - destruct (evict_holds log kept h Hh) as (k & h' & -> & Hm & Hh' & Hk & Hmost); [by destruct kept; cbn in *; [lia|]|]. cbn [rbind].
    eexists _, _. split; [reflexivity|]. cbn [hy_maxlen]. split; [done|]. split; [by apply put_holds|].
    pose proof (remove_first_length _ _ Hk) as Hrl. apply (fair_step _ _ kept); [done|lia| |].
    + intros k'. rewrite remove_first_key. case_decide as Hkk; [|done]. subst k'. destruct (of_key k kept) as [|x l]; [done|]. by exists [x].
    + intros ks k' Hks Hlt. rewrite remove_first_key. rewrite decide_False; [done|]. intros ->.
      pose proof (victim_over_share _ _ _ k ks Hf (hk_sub _ _ _ Hh) ltac:(done) Hmost Hks). lia.
  - cbn [rbind]. eexists _, _. split; [reflexivity|]. split; [done|]. split; [by apply put_holds|].
    apply (fair_step _ _ kept); [done|lia|done|done].
Qed.

Lemma append_all_keeps maxlen : 1 ≤ maxlen → ∀ log, ∃ h kept, append_all (mk_history_of maxlen 0 [] []) log = Ok h ∧
  hy_maxlen h = maxlen ∧ holds_kept log kept h ∧ fair_kept maxlen log kept.
Proof.
  intros Hmax log. induction log as [|e log IH] using rev_ind.
  - eexists _, []. split; [reflexivity|]. split; [done|]. split; split; cbn; done || lia || constructor.
  - destruct IH as (h & kept & Hok & Hm & Hh & Hf). unfold append_all in *. rewrite foldl_app, Hok. cbn [foldl rbind].
    rewrite <- Hm in Hf. destruct (append_keeps log kept h e) as (h' & kept' & ? & Hm' & ? & Hf'); [lia|done..|].
    exists h', kept'. rewrite Hm in Hm', Hf'. done.
Qed.

(** a history of capacity [maxlen] accepts every sequence of appends
    without raising; afterwards it iterates, in chronological order, over
    exactly min(appended, maxlen) of them; what it keeps of any one key is
    the latest of that key; and a key whose own appends, counted once per
    key in the history, stay below the capacity loses none of them, however
    many the other keys append. *)
Theorem history_fair maxlen h0 log : new_history maxlen = Ok h0 →
  ∃ h kept, append_all h0 log = Ok h ∧
    kept `sublist_of` numbered log ∧ history_values h = kept.*2.*2 ∧
    Z.of_nat (length (history_values h)) = Z.min (Z.of_nat (length log)) maxlen ∧
    (∀ k, of_key k kept `suffix_of` of_key k (numbered log)) ∧
    (∀ ks k, (∀ e, e ∈ log → e.1 ∈ ks) → Z.of_nat (length ks * length (of_key k (numbered log))) < maxlen →
       of_key k kept = of_key k (numbered log)).
Proof.
  unfold new_history. destruct (Z.ltb_spec maxlen 1) as [|Hmax]; [done|]. intros [= <-].
  destruct (append_all_keeps maxlen Hmax log) as (h & kept & Hok & _ & Hh & [Hlen Hsuf Hsh]). exists h, kept.
  assert (Hv : history_values h = kept.*2.*2).
  { unfold history_values. rewrite (hk_items _ _ _ Hh), <- !list_fmap_compose. done. }
  split; [done|]. split; [apply Hh|]. split; [done|]. rewrite Hv, !length_fmap. done.
Qed.
End History.
Arguments FairShareHistory K T : clear implicits.

(** Two sources: a flood of five from one, a single record of the other
    before it, room for four. *)
Lemma history_fair_witness : new_history (K := Z) (T := Z) 4 = Ok (mk_history_of 4 0 [] []) ∧
  ∃ h, append_all (mk_history_of 4 0 [] []) [(7, 70); (1, 10); (1, 11); (1, 12); (1, 13); (1, 14)] = Ok h ∧
    history_values h = [70; 12; 13; 14] ∧ Z.of_nat (length (history_values h)) = 4.
Proof.
  split; [reflexivity|].
  destruct (history_fair (K := Z) (T := Z) 4 (mk_history_of 4 0 [] []) [(7, 70); (1, 10); (1, 11); (1, 12); (1, 13); (1, 14)] eq_refl)
    as (h & kept & Hok & _ & _ & Hlen & _).
  exists h. split; [exact Hok|]. split; [|exact Hlen]. vm_compute in Hok. injection Hok as <-. reflexivity.
Defined.

(** * Shared runtime state (ipc/state.py, runtime/forwarder.py, runtime/metrics.py)

    The store of recent history, the single sink of every security event and
    the runtime counters.  The forwarder and the pipelines hold the same
    store object, so the store is a field of the forwarder here and the
    pipelines reach it through their forwarder.  Logging is left out; the
    collector's transport is a parameter: what the n-th send gives. *)

Local Open Scope Z_scope.

(** ** Counters *)

Inductive counter :=
| FLOWS_COMPLETED | FLOWS_EXPIRED | INFERENCES | DETECTIONS | BLOCKS | RULES_REJECTED | FLOWS_DROPPED | ANOMALY_SCORES_DROPPED
| SOURCE_SNAPSHOTS.

Record RuntimeCounters : Type := mk_runtime_counters {
  rc_flows_completed : Z;
  rc_flows_expired : Z;
  rc_inferences : Z;
  rc_inference_seconds_total : float;
  rc_detections : Z;
  rc_blocks : Z;
  rc_rules_rejected : Z;
  rc_flows_dropped_for_backpressure : Z;
  rc_anomaly_scores_dropped_for_backpressure : Z;
  rc_source_snapshot_assessments : Z;
}.

Definition no_counts : RuntimeCounters := mk_runtime_counters 0 0 0 f0 0 0 0 0 0 0.

(** [counters.add(name=n)] *)
Definition add_count (k : counter) (n : Z) (c : RuntimeCounters) : RuntimeCounters :=
  let plus k' x := match k, k' with
                   | FLOWS_COMPLETED, FLOWS_COMPLETED | FLOWS_EXPIRED, FLOWS_EXPIRED | INFERENCES, INFERENCES
                   | DETECTIONS, DETECTIONS | BLOCKS, BLOCKS | RULES_REJECTED, RULES_REJECTED | FLOWS_DROPPED, FLOWS_DROPPED
                   | ANOMALY_SCORES_DROPPED, ANOMALY_SCORES_DROPPED | SOURCE_SNAPSHOTS, SOURCE_SNAPSHOTS => x + n
                   | _, _ => x
                   end in
  mk_runtime_counters (plus FLOWS_COMPLETED (rc_flows_completed c)) (plus FLOWS_EXPIRED (rc_flows_expired c))
    (plus INFERENCES (rc_inferences c)) (rc_inference_seconds_total c) (plus DETECTIONS (rc_detections c))
    (plus BLOCKS (rc_blocks c)) (plus RULES_REJECTED (rc_rules_rejected c))
    (plus FLOWS_DROPPED (rc_flows_dropped_for_backpressure c))
    (plus ANOMALY_SCORES_DROPPED (rc_anomaly_scores_dropped_for_backpressure c))
    (plus SOURCE_SNAPSHOTS (rc_source_snapshot_assessments c)).

(** [counters.add(inferences=n, inference_seconds_total=s)] *)
Definition add_inferences (n : Z) (s : float) (c : RuntimeCounters) : RuntimeCounters :=
  mk_runtime_counters (rc_flows_completed c) (rc_flows_expired c) (rc_inferences c + n)
    (fadd (rc_inference_seconds_total c) s) (rc_detections c) (rc_blocks c) (rc_rules_rejected c)
    (rc_flows_dropped_for_backpressure c) (rc_anomaly_scores_dropped_for_backpressure c) (rc_source_snapshot_assessments c).

(** ** The store *)

Record CaptureStatistics : Type := mk_capture_stats {
  cp_interface : string;
  cp_packets_seen : Z;
  cp_packets_dropped : Z;
  cp_packets_malformed : Z;
}.

Record DetectionRecord : Type := mk_detection_record {
  dr_flow_id : string;
  dr_known_evidence : option KnownEvidence;
  dr_anomaly_evidence : option AnomalyEvidence;
  dr_protocol_signature_evidence : option ProtocolSignatureEvidence;
  dr_recorded_at : Z;
}.

(** The model metadata two of its fields carry are display values and left
    out. *)
Record CoreStateStore : Type := mk_store {
  st_max_history : Z;
  st_started_at : Z;
  st_capture_stats : option CaptureStatistics;
  st_flows : FairShareHistory IPv4.t Flow;
  st_detections : FairShareHistory (option IPv4.t) DetectionRecord;
  st_threats : FairShareHistory IPv4.t ThreatAssessment;
  st_decisions : list FirewallDecision;
  st_events : list SecurityEvent;
}.

(** [CoreStateStore.__post_init__] *)
Definition new_store (max_history started_at : Z) : result CoreStateStore :=
  rbind (new_history max_history) (λ flows,
  rbind (new_history max_history) (λ detections,
  rbind (new_history max_history) (λ threats,
  Ok (mk_store max_history started_at None flows detections threats [] [])))).

Definition st_set_flows (s : CoreStateStore) x : CoreStateStore :=
  mk_store (st_max_history s) (st_started_at s) (st_capture_stats s) x (st_detections s) (st_threats s) (st_decisions s) (st_events s).
Definition st_set_detections (s : CoreStateStore) x : CoreStateStore :=
  mk_store (st_max_history s) (st_started_at s) (st_capture_stats s) (st_flows s) x (st_threats s) (st_decisions s) (st_events s).
Definition st_set_threats (s : CoreStateStore) x : CoreStateStore :=
  mk_store (st_max_history s) (st_started_at s) (st_capture_stats s) (st_flows s) (st_detections s) x (st_decisions s) (st_events s).
Definition st_set_decisions (s : CoreStateStore) x : CoreStateStore :=
  mk_store (st_max_history s) (st_started_at s) (st_capture_stats s) (st_flows s) (st_detections s) (st_threats s) x (st_events s).
Definition st_set_events (s : CoreStateStore) x : CoreStateStore :=
  mk_store (st_max_history s) (st_started_at s) (st_capture_stats s) (st_flows s) (st_detections s) (st_threats s) (st_decisions s) x.

Definition record_flow (f : Flow) : M CoreStateStore unit := λ s,
  match append_history fl_source_ip (st_flows s) f None with
  | Ok h => (Ok tt, st_set_flows s h)
  | Raise e => (Raise e, s)
  end.
Definition record_detection (r : DetectionRecord) (source_ip : IPv4.t) : M CoreStateStore unit := λ s,
  match append_history (λ _, None) (st_detections s) r (Some (Some source_ip)) with
  | Ok h => (Ok tt, st_set_detections s h)
  | Raise e => (Raise e, s)
  end.
Definition record_threat (a : ThreatAssessment) : M CoreStateStore unit := λ s,
  match append_history ta_source_ip (st_threats s) a None with
  | Ok h => (Ok tt, st_set_threats s h)
  | Raise e => (Raise e, s)
  end.
Definition record_decision (d : FirewallDecision) : M CoreStateStore unit :=
  mmodify (λ s, st_set_decisions s (deque_append (st_max_history s) (st_decisions s) d)).
Definition record_event (e : SecurityEvent) : M CoreStateStore unit :=
  mmodify (λ s, st_set_events s (deque_append (st_max_history s) (st_events s) e)).
Definition record_capture_stats (c : CaptureStatistics) : M CoreStateStore unit :=
  mmodify (λ s, mk_store (st_max_history s) (st_started_at s) (Some c) (st_flows s) (st_detections s) (st_threats s)
                  (st_decisions s) (st_events s)).

(** ** The forwarder *)

Definition FW_SUBSYSTEM : string := "runtime.forwarder".
Definition _FORWARD_FAILURE_EVENT_INTERVAL : Z := 50.

Record EventForwarder : Type := mk_forwarder {
  fw_state : CoreStateStore;
  fw_wazuh : option (Z → SecurityEvent → option string);  (** the failure of the n-th send *)
  fw_sends : Z;
  fw_forward_failures : Z;
}.

Definition on_store {A} (m : M CoreStateStore A) : M EventForwarder A := λ w,
  let '(r, st) := m (fw_state w) in (r, mk_forwarder st (fw_wazuh w) (fw_sends w) (fw_forward_failures w)).

(** [count == 1 or count % interval == 0] *)
Definition reported (count interval : Z) : bool := negb (negb (count =? 1) && negb (Z.modulo count interval =? 0)).

Definition _note_forward_failure (e : SecurityEvent) (msg : string) : M EventForwarder unit := λ w,
  let count := fw_forward_failures w + 1 in
  let w := mk_forwarder (fw_state w) (fw_wazuh w) (fw_sends w) count in
  if negb (reported count _FORWARD_FAILURE_EVENT_INTERVAL) then (Ok tt, w)
  else on_store (record_event (mk_event (ev_timestamp e) SEV_WARNING SYSTEM_WARNING FW_SUBSYSTEM None None None
         (Some ("Wazuh forwarding failed (" +:+ pretty count +:+ " total): " +:+ msg)))) w.

Definition _forward (e : SecurityEvent) : M EventForwarder unit := λ w,
  match fw_wazuh w with
  | None => (Ok tt, w)
  | Some send =>
      let w' := mk_forwarder (fw_state w) (fw_wazuh w) (fw_sends w + 1) (fw_forward_failures w) in
      match send (fw_sends w) e with
      | None => (Ok tt, w')
      | Some msg => _note_forward_failure e msg w'
      end
  end.

Definition emit (e : SecurityEvent) : M EventForwarder unit := _ ← on_store (record_event e); _forward e.
