(* ===== verification/Replay.v ===== *)
(** * Replaying capture files (capture/replay.py)

    [_PacedFrames] is the generator over every file, with its one-frame
    lookahead, the rebasing offset and the pacing on the wall clock;
    [ReplayCapture] feeds its frames to a sink, [ReplayPacketCapture] yields
    them as packets.

    What the code is given is given here too: the file system ([Files]: what
    a path is, and the bytes of a file that opens), the wall clock, the sleep
    and the calls of [stop] by other threads ([Wall], any object that answers
    the three), and the sink ([FrameSink], whose [feed_us] may raise).  Times
    on the wall are binary64 floats, as [time.monotonic] returns them; capture
    times are whole microseconds. *)

From S2P Require Import Prelude Float Net Hex Models Flow Parser Pcap Fallback Runtime.
Local Open Scope Z_scope.

Definition REPLAY_INTERFACE : string := "replay".
Definition _MAX_FRAMES_PER_POLL : nat := 5000.

Record Files : Type := mk_files { fs_kind : string → path_kind; fs_open : string → option stream }.

Class Wall (W : Type) := {
  wall_clock : W → float * W;
  wall_sleep : float → W → W;
  wall_stop : W → bool * W;      (** whether another thread has called [stop] since the last look *)
}.
Class FrameSink (K : Type) := {
  sink_feed_us : bytes → Z → M K unit;
  sink_counters : M K (Z * Z);
}.

(** [text[:-1]] of a text that ends in [x], and the text itself otherwise *)
Definition before_x (text : string) : option string :=
  match reverse (string_to_list text) with "x"%char :: l => Some (string_of_list (reverse l)) | _ => None end.

(** [float()] is the language's: [parse_float] is [None] where it raises. *)
Definition parse_replay_speed (parse_float : string → option float) (text : string) : result (option float) :=
  let refused := Raise (ConfigurationError "replay speed must be max, realtime or <N>x with N > 0") in
  if bool_decide (text = "max") then Ok None
  else if bool_decide (text = "realtime") then Ok (Some (float_of_Z 1))
  else match before_x text with
       | None => refused
       | Some number =>
           let factor := default (float_of_Z 0) (parse_float number) in
           if flt (float_of_Z 0) factor then Ok (Some factor) else refused
       end.

Record ReplayFrame : Type := mk_rframe { rf_data : bytes; rf_ts_us : Z }.

(** Where the generator over the files is suspended *)
Inductive generator : Type :=
| Between (todo : list string)
| Reading (todo : list string) (path : string) (q : position) (r : PcapReader)
| Dead.

Record _PacedFrames : Type := mk_paced {
  pf_files : list string;
  pf_closed : list (string * PcapStats);    (** of the readers that are done *)
  pf_speed : option float;
  pf_rebase_to_us : option Z;
  pf_frames : generator;
  pf_lookahead : option ReplayFrame;
  pf_offset_us : option Z;
  pf_wall_start : float;
  pf_virtual_start_us : Z;
  pf_exhausted : bool;
}.
Notation P := _PacedFrames.

Definition pf_set_frames (x : generator) (s : P) : P :=
  mk_paced (pf_files s) (pf_closed s) (pf_speed s) (pf_rebase_to_us s) x (pf_lookahead s) (pf_offset_us s) (pf_wall_start s)
    (pf_virtual_start_us s) (pf_exhausted s).
Definition pf_close (path : string) (stats : PcapStats) (x : generator) (s : P) : P :=
  mk_paced (pf_files s) (pf_closed s ++ [(path, stats)]) (pf_speed s) (pf_rebase_to_us s) x (pf_lookahead s) (pf_offset_us s)
    (pf_wall_start s) (pf_virtual_start_us s) (pf_exhausted s).
Definition pf_begin (offset virtual : Z) (wall : float) (s : P) : P :=
  mk_paced (pf_files s) (pf_closed s) (pf_speed s) (pf_rebase_to_us s) (pf_frames s) (pf_lookahead s) (Some offset) wall virtual (pf_exhausted s).
Definition pf_set_lookahead (x : option ReplayFrame) (exhausted : bool) (s : P) : P :=
  mk_paced (pf_files s) (pf_closed s) (pf_speed s) (pf_rebase_to_us s) (pf_frames s) x (pf_offset_us s) (pf_wall_start s)
    (pf_virtual_start_us s) exhausted.

(** [self.stats]: the readers' own counters, the current one's as they are now *)
Definition pf_stats (s : P) : list (string * PcapStats) :=
  pf_closed s ++ match pf_frames s with Reading _ path _ r => [(path, pr_stats r)] | _ => [] end.

Definition new_paced (fs : Files) (source : string) (speed : option float) (rebase_to_us : option Z) : result P :=
  files ← capture_files source (fs_kind fs source);
  mret (mk_paced files [] speed rebase_to_us (Between files) None None (float_of_Z 0) 0 false).

Section Replay.
Context (fs : Files) {W K : Type} `{Wall W} `{FrameSink K}.

(** ** The frames *)

Definition replay_clock : M (P * W) float := λ s, let '(t, w) := wall_clock s.2 in (Ok t, (s.1, w)).

(** The body of [for record in reader] of [_iterate] *)
Definition stamped (x : PcapRecord) : M (P * W) ReplayFrame :=
  s ← mget;
  match pf_offset_us s.1 with
  | Some offset => mret (mk_rframe (rec_data x) (rec_ts_us x + offset))
  | None =>
      let offset := match pf_rebase_to_us s.1 with None => 0 | Some rebase => rebase - rec_ts_us x end in
      wall ← replay_clock;
      _ ← mmodify (λ s : P * W, (pf_begin offset (rec_ts_us x + offset) wall s.1, s.2));
      mret (mk_rframe (rec_data x) (rec_ts_us x + offset))
  end.

(** [next(self._frames, None)]; a step opens a file, reads a record, or ends
    a file, so two steps per file still to open and one more are enough. *)
Fixpoint generate (fuel : nat) (s : P * W) : result (option ReplayFrame) * (P * W) :=
  match fuel with
  | O => (Raise AssertionError, s)
  | S fuel' =>
      match pf_frames s.1 with
      | Dead => (Ok None, s)
      | Between [] => (Ok None, (pf_set_frames Dead s.1, s.2))
      | Between (path :: todo) =>
          match fs_open fs path with
          | None => (Raise (OSError "No such file or directory"), (pf_close path new_pcap_stats Dead s.1, s.2))
          | Some st => generate fuel' (pf_set_frames (Reading todo path NotStarted (open_reader path st)) s.1, s.2)
          end
      | Reading todo path q r =>
          match iter_next q r with
          | Some (Ok (Some x), q', r') =>
              match stamped x (pf_set_frames (Reading todo path q' r') s.1, s.2) with
              | (Ok f, s') => (Ok (Some f), s')
              | (Raise e, s') => (Raise e, s')
              end
          | Some (Ok None, _, r') => generate fuel' (pf_close path (pr_stats r') (Between todo) s.1, s.2)
          | Some (Raise e, _, r') => (Raise e, (pf_close path (pr_stats r') Dead s.1, s.2))
          | None => (Raise AssertionError, s)
          end
      end
  end.
Definition steps_left (g : generator) : nat :=
  match g with Dead => 1 | Between todo => 2 * length todo + 1 | Reading todo _ _ _ => 2 * length todo + 2 end.
Definition next_frame : M (P * W) (option ReplayFrame) := λ s, generate (steps_left (pf_frames s.1)) s.

Definition peek : M (P * W) (option ReplayFrame) :=
  s ← mget;
  match pf_lookahead s.1 with
  | Some f => mret (Some f)
  | None =>
      if pf_exhausted s.1 then mret None
      else
        x ← next_frame;
        _ ← mmodify (λ s : P * W, (pf_set_lookahead x (bool_decide (x = None)) s.1, s.2));
        mret x
  end.

Definition take_frame : M (P * W) ReplayFrame :=
  x ← peek;
  match x with
  | None => mraise AssertionError
  | Some f => _ ← mmodify (λ s : P * W, (pf_set_lookahead None (pf_exhausted s.1) s.1, s.2)); mret f
  end.

Definition seconds_until_due (f : ReplayFrame) : M (P * W) float :=
  s ← mget;
  match pf_speed s.1 with
  | None => mret (float_of_Z 0)
  | Some speed =>
      let virtual_elapsed := fdiv (float_of_Z (rf_ts_us f - pf_virtual_start_us s.1)) (float_of_Z 1000000) in
      t ← replay_clock;
      mret (fsub (fadd (pf_wall_start s.1) (fdiv virtual_elapsed speed)) t)
  end.

(** ** [ReplayCapture] *)

Record ReplayCapture : Type := mk_replay {
  rc_source : string;
  rc_sink : K;
  rc_speed : option float;
  rc_rebase_to_us : option Z;
  rc_frames : option P;
  rc_stopped : bool;
  rc_virtual_now_us : option Z;
  rc_wall : W;
}.
Notation C := ReplayCapture.

Definition rc_set_sink (k : K) (c : C) : C :=
  mk_replay (rc_source c) k (rc_speed c) (rc_rebase_to_us c) (rc_frames c) (rc_stopped c) (rc_virtual_now_us c) (rc_wall c).
Definition rc_set_frames (p : option P) (w : W) (c : C) : C :=
  mk_replay (rc_source c) (rc_sink c) (rc_speed c) (rc_rebase_to_us c) p (rc_stopped c) (rc_virtual_now_us c) w.
Definition rc_set_stopped (b : bool) (w : W) (c : C) : C :=
  mk_replay (rc_source c) (rc_sink c) (rc_speed c) (rc_rebase_to_us c) (rc_frames c) b (rc_virtual_now_us c) w.
Definition rc_set_now (t : Z) (c : C) : C :=
  mk_replay (rc_source c) (rc_sink c) (rc_speed c) (rc_rebase_to_us c) (rc_frames c) (rc_stopped c) (Some t) (rc_wall c).

Definition new_replay (parse_float : string → option float) (source : string) (sink : K) (speed : string) (rebase_to : option Z) (w : W) : result C :=
  factor ← parse_replay_speed parse_float speed;
  mret (mk_replay source sink factor rebase_to None false None w).

Definition replay_start : M C unit := λ c,
  match rc_frames c with
  | Some _ => (Ok tt, c)
  | None =>
      match new_paced fs (rc_source c) (rc_speed c) (rc_rebase_to_us c) with
      | Raise (OSError msg) => (Raise (CaptureError ("cannot open replay source " +:+ rc_source c +:+ ": " +:+ msg)), c)
      | Raise e => (Raise e, c)
      | Ok p => (Ok tt, rc_set_stopped false (rc_wall c) (rc_set_frames (Some p) (rc_wall c) c))
      end
  end.
Definition replay_stop : M C unit := λ c, (Ok tt, rc_set_stopped true (rc_wall c) c).

(** An operation of the frames, on the frames the capture holds *)
Definition on_frames {A} (m : M (P * W) A) : M C A := λ c,
  match rc_frames c with
  | None => (Raise AssertionError, c)
  | Some p => let '(x, (p', w')) := m (p, rc_wall c) in (x, rc_set_frames (Some p') w' c)
  end.
Definition nap (t : float) : M C unit := λ c, (Ok tt, rc_set_frames (rc_frames c) (wall_sleep t (rc_wall c)) c).
(** [self._stopped], as this thread reads it *)
Definition is_stopped : M C bool := λ c,
  let '(b, w) := wall_stop (rc_wall c) in (Ok (rc_stopped c || b), rc_set_stopped (rc_stopped c || b) w c).

Definition _peek : M C (option ReplayFrame) := λ c,
  match on_frames peek c with
  | (Raise (OSError msg), c') => (Raise (CaptureError ("error reading replay source " +:+ rc_source c +:+ ": " +:+ msg)), c')
  | r => r
  end.

Definition replay_feed (f : ReplayFrame) : M C unit := λ c,
  let '(r, k) := sink_feed_us (rf_data f) (rf_ts_us f) (rc_sink c) in (r, rc_set_sink k c).

(** [while fed < _MAX_FRAMES_PER_POLL and not self._stopped], with [room]
    frames to go *)
Fixpoint feed_loop (room : nat) : M C Z :=
  match room with
  | O => mret 0
  | S room' =>
      stopped ← is_stopped;
      if stopped : bool then mret 0
      else
        x ← _peek;
        match x with
        | None => mret 0
        | Some f =>
            wait ← on_frames (seconds_until_due f);
            if flt (float_of_Z 0) wait then mret 0
            else
              _ ← on_frames take_frame;
              _ ← mmodify (rc_set_now (rf_ts_us f));
              _ ← replay_feed f;
              n ← feed_loop room';
              mret (n + 1)
        end
  end.

Definition replay_poll (timeout_ms : Z) : M C Z :=
  c ← mget;
  match rc_frames c with
  | None => mret 0
  | Some _ =>
      stopped ← is_stopped;
      if stopped : bool then mret 0
      else
        let timeout := fdiv (float_of_Z (Z.max timeout_ms 0)) (float_of_Z 1000) in
        x ← _peek;
        match x with
        | None => _ ← nap timeout; mret 0
        | Some f =>
            wait ← on_frames (seconds_until_due f);
            if flt timeout wait then (_ ← nap timeout; mret 0)
            else
              _ ← (if flt (float_of_Z 0) wait then nap wait else mret tt);
              feed_loop _MAX_FRAMES_PER_POLL
        end
  end.

Definition finished (c : C) : bool := match rc_frames c with Some p => pf_exhausted p | None => false end.
Definition virtual_now_us (c : C) : option Z := rc_virtual_now_us c.
Definition pcap_stats (c : C) : list (string * PcapStats) := match rc_frames c with None => [] | Some p => pf_stats p end.
Definition replay_statistics : M C CaptureStatistics := λ c,
  match sink_counters (rc_sink c) with
  | (Ok (seen, malformed), k) => (Ok (mk_capture_stats REPLAY_INTERFACE seen 0 malformed), rc_set_sink k c)
  | (Raise e, k) => (Raise e, rc_set_sink k c)
  end.

(** ** [ReplayPacketCapture] *)

(** Where the generator of [read_packets] is: not asked for a packet yet,
    between two packets, or over *)
Inductive packet_stream : Type := Unread | Serving (p : P) | Over.
Record CapturedPacket : Type := mk_captured { cpk_raw : bytes; cpk_captured_at : Z }.
Record ReplayPacketCapture : Type := mk_packet_replay {
  rpc_source : string;
  rpc_speed : option float;
  rpc_rebase_to_us : option Z;
  rpc_running : bool;
  rpc_seen : Z;
  rpc_malformed : Z;
  rpc_packets : packet_stream;
  rpc_wall : W;
}.
Notation PC := ReplayPacketCapture.

Definition rpc_set_running (b : bool) (c : PC) : PC :=
  mk_packet_replay (rpc_source c) (rpc_speed c) (rpc_rebase_to_us c) b (rpc_seen c) (rpc_malformed c) (rpc_packets c) (rpc_wall c).
Definition rpc_set_packets (g : packet_stream) (w : W) (c : PC) : PC :=
  mk_packet_replay (rpc_source c) (rpc_speed c) (rpc_rebase_to_us c) (rpc_running c) (rpc_seen c) (rpc_malformed c) g w.
Definition rpc_count_seen (c : PC) : PC :=
  mk_packet_replay (rpc_source c) (rpc_speed c) (rpc_rebase_to_us c) (rpc_running c) (rpc_seen c + 1) (rpc_malformed c) (rpc_packets c) (rpc_wall c).
Definition rpc_count_malformed (c : PC) : PC :=
  mk_packet_replay (rpc_source c) (rpc_speed c) (rpc_rebase_to_us c) (rpc_running c) (rpc_seen c) (rpc_malformed c + 1) (rpc_packets c) (rpc_wall c).

Definition new_packet_replay (parse_float : string → option float) (source speed : string) (rebase_to : option Z) (w : W) : result PC :=
  factor ← parse_replay_speed parse_float speed;
  mret (mk_packet_replay source factor rebase_to false 0 0 Unread w).
Definition pstart : M PC unit :=
  c ← mget;
  _ ← mlift (capture_files (rpc_source c) (fs_kind fs (rpc_source c)));
  mmodify (rpc_set_running true).
Definition pstop : M PC unit := mmodify (rpc_set_running false).
Definition replay_record_malformed : M PC unit := mmodify rpc_count_malformed.
Definition pstatistics (c : PC) : CaptureStatistics := mk_capture_stats REPLAY_INTERFACE (rpc_seen c) 0 (rpc_malformed c).

(** [self._running], as the generator reads it *)
Definition is_running (w : W) (c : PC) : bool * PC :=
  let '(stopped, w') := wall_stop w in
  let running := rpc_running c && negb stopped in (running, rpc_set_packets (rpc_packets c) w' (rpc_set_running running c)).

(** One turn of the loop of [read_packets], up to its [yield]: every way out
    of it but the yield ends the generator *)
Definition serve_packet (p : P) : M PC (option CapturedPacket) := λ c,
  let '(running, c) := is_running (rpc_wall c) c in
  if negb running then (Ok None, rpc_set_packets Over (rpc_wall c) c)
  else
    match peek (p, rpc_wall c) with
    | (Raise e, (_, w)) => (Raise e, rpc_set_packets Over w c)
    | (Ok None, (_, w)) => (Ok None, rpc_set_packets Over w c)
    | (Ok (Some f), s) =>
        match seconds_until_due f s with
        | (Raise e, (_, w)) => (Raise e, rpc_set_packets Over w c)
        | (Ok wait, (p', w)) =>
            let w := if flt (float_of_Z 0) wait then wall_sleep wait w else w in
            match take_frame (p', w) with
            | (Raise e, (_, w)) => (Raise e, rpc_set_packets Over w c)
            | (Ok _, (p'', w)) =>
                let c := rpc_count_seen c in
                match from_microseconds (rf_ts_us f) with
                | Raise e => (Raise e, rpc_set_packets Over w c)
                | Ok t => (Ok (Some (mk_captured (rf_data f) t)), rpc_set_packets (Serving p'') w c)
                end
            end
        end
    end.

(** [next(read_packets(), None)] *)
Definition next_packet : M PC (option CapturedPacket) := λ c,
  match rpc_packets c with
  | Over => (Ok None, c)
  | Serving p => serve_packet p c
  | Unread =>
      if negb (rpc_running c) then (Raise (CaptureError "cannot read packets before start() is called"), rpc_set_packets Over (rpc_wall c) c)
      else match new_paced fs (rpc_source c) (rpc_speed c) (rpc_rebase_to_us c) with
           | Raise e => (Raise e, rpc_set_packets Over (rpc_wall c) c)
           | Ok p => serve_packet p c
           end
  end.
End Replay.

(** ** Choosing the capture *)

(** [build_replay_capture]: the native capture over an engine where the
    extension is there, packets for the Python loop otherwise. *)
Definition build_replay_capture {W K} (parse_float : string → option float) (replay_path : option string) (replay_speed : string)
  (engine : option K) (rebase_to : option Z) (w : W) : result (@ReplayCapture W K + @ReplayPacketCapture W) :=
  match replay_path with
  | None => Raise (ConfigurationError "capture.backend = replay needs capture.replay_path")
  | Some source =>
      match engine with
      | Some aggregator => c ← new_replay parse_float source aggregator replay_speed rebase_to w; mret (inl c)
      | None => c ← new_packet_replay parse_float source replay_speed rebase_to w; mret (inr c)
      end
  end.

(** The wrapper of the native engine is a sink. *)
#[global] Instance native_sink {X} `{RustEngine X} : FrameSink X := { sink_feed_us := native_feed_us; sink_counters := native_counters }.

(** * Replays: every frame, once, in order, at every speed

    What the sink of a replay is offered, whatever the wall clock, the speed
    and the sink do, is the capture itself: the records of every file in
    order, shifted by one constant. *)

From S2P Require Import PcapProps.
Local Open Scope Z_scope.

(** A sink that remembers every frame it was offered, over any sink *)
#[global] Instance logged_sink {K} `{FrameSink K} : FrameSink (K * list ReplayFrame) := {
  sink_feed_us data ts s := let '(r, k) := sink_feed_us data ts s.1 in (r, (k, s.2 ++ [mk_rframe data ts]));
  sink_counters s := let '(r, k) := sink_counters s.1 in (r, (k, s.2));
}.

Section Props.
Context (fs : Files) {W K : Type} `{Wall W} `{FrameSink K}.
Context (files_are_bytes : ∀ path st, fs_open fs path = Some st → Forall byte_ok (st_bytes st)).

(** ** What the files hold *)

Fixpoint records_of (todo : list string) : list PcapRecord * result unit :=
  match todo with
  | [] => ([], Ok tt)
  | path :: rest =>
      match fs_open fs path with
      | None => ([], Raise (OSError "No such file or directory"))
      | Some st =>
          match contents NotStarted (open_reader path st) with
          | (xs, Ok _) => (xs ++ (records_of rest).1, (records_of rest).2)
          | (xs, Raise e) => (xs, Raise e)
          end
      end
  end.
Definition records_left (g : generator) : list PcapRecord * result unit :=
  match g with
  | Dead => ([], Ok tt)
  | Between todo => records_of todo
  | Reading todo _ q r =>
      match contents q r with
      | (xs, Ok _) => (xs ++ (records_of todo).1, (records_of todo).2)
      | (xs, Raise e) => (xs, Raise e)
      end
  end.
Definition generator_ok (g : generator) : Prop := match g with Reading _ _ q r => live q r | _ => True end.

Definition rebase_offset (rebase : option Z) (xs : list PcapRecord) : Z :=
  match rebase, xs with Some b, x :: _ => b - rec_ts_us x | _, _ => 0 end.
Definition shift (offset : Z) (x : PcapRecord) : ReplayFrame := mk_rframe (rec_data x) (rec_ts_us x + offset).
Definition offset_of (p : _PacedFrames) (xs : list PcapRecord) : Z :=
  match pf_offset_us p with Some o => o | None => rebase_offset (pf_rebase_to_us p) xs end.

(** The frames still to be delivered *)
Definition to_come (p : _PacedFrames) : list ReplayFrame :=
  let xs := (records_left (pf_frames p)).1 in shift (offset_of p xs) <$> xs.
Definition future (p : _PacedFrames) : list ReplayFrame := option_list (pf_lookahead p) ++ to_come p.
Definition paced_ok (p : _PacedFrames) : Prop := generator_ok (pf_frames p) ∧ (pf_exhausted p = true → future p = []).

(** The settings no reading changes *)
Definition same_settings (p p' : _PacedFrames) : Prop :=
  pf_speed p' = pf_speed p ∧ pf_rebase_to_us p' = pf_rebase_to_us p ∧ pf_lookahead p' = pf_lookahead p ∧ pf_exhausted p' = pf_exhausted p.

Lemma stamped_spec x p (w : W) xs : (records_left (pf_frames p)).1 = xs →
  ∃ p' w', stamped x (p, w) = (Ok (shift (offset_of p (x :: xs)) x), (p', w')) ∧ same_settings p p' ∧ pf_frames p' = pf_frames p ∧
    pf_offset_us p' = Some (offset_of p (x :: xs)).
Proof.
  intros Hrem. unfold stamped, replay_clock, mbind, m_bind, mget, mmodify, offset_of. cbn [fst snd].
  destruct (pf_offset_us p) as [o|] eqn:Ho; cbn [fst snd].
  { exists p, w. repeat split; done. }
  destruct (wall_clock w) as [t w']. cbn [fst snd mret m_ret]. unfold rebase_offset. 
  destruct (pf_rebase_to_us p) as [b|]; eexists _, _; (split; [unfold mret, m_ret, shift; reflexivity|]); repeat split; done.
Qed.

(** The generator delivers the next record of the files, or says how they
    end. *)
Lemma generate_spec fuel : ∀ p (w : W), generator_ok (pf_frames p) → (steps_left (pf_frames p) ≤ fuel)%nat →
  ∃ res p' w', generate fs fuel (p, w) = (res, (p', w')) ∧ same_settings p p' ∧ generator_ok (pf_frames p') ∧
    match res with
    | Ok (Some f) => to_come p = f :: to_come p' ∧ (records_left (pf_frames p')).2 = (records_left (pf_frames p)).2
    | Ok None => records_left (pf_frames p) = ([], Ok tt) ∧ pf_frames p' = Dead
    | Raise e => records_left (pf_frames p) = ([], Raise e) ∧ pf_frames p' = Dead
    end.
Proof.
  induction fuel as [|fuel IH]; intros p w Hok Hfuel; [destruct (pf_frames p); cbn in Hfuel; lia|].
  cbn [generate fst snd]. destruct (pf_frames p) as [[|path todo]|todo path q r|] eqn:Hg.
  - eexists (Ok None), _, _. split; [done|]. repeat split; done.
  - destruct (fs_open fs path) as [st|] eqn:Hopen.
    2:{ eexists (Raise _), _, _. split; [done|]. repeat split; try done. cbn [records_left records_of]. by rewrite Hopen. }
    destruct (IH (pf_set_frames (Reading todo path NotStarted (open_reader path st)) p) w) as (res & p' & w' & Hrun & Hset & Hok' & Hres).
    { right. split; [done|]. apply (files_are_bytes path st Hopen). }
    { cbn in *. lia. }
    assert (Hrem : records_left (Between (path :: todo)) = records_left (Reading todo path NotStarted (open_reader path st))) by (cbn; by rewrite Hopen).
    exists res, p', w'. split; [done|]. split; [done|]. split; [done|]. unfold to_come, offset_of in *. rewrite Hg, Hrem in *. done.
  - destruct (next_answers q r Hok) as (res & q' & r' & Hnext & Hlive & Hres). rewrite Hnext.
    destruct res as [[x|]|e].
    + set (p1 := pf_set_frames (Reading todo path q' r') p). destruct (stamped_spec x p1 w _ eq_refl) as (p' & w' & Hst & Hset & Hfr & Hoff).
      rewrite Hst. eexists (Ok (Some _)), p', w'. split; [done|]. split; [done|]. split; [by rewrite Hfr|].
      split; [|rewrite Hfr; cbn; rewrite Hres; by destruct (contents q' r') as [xs []]].
      unfold to_come at 1. rewrite Hg. assert (Hrem : (records_left (Reading todo path q r)).1 = x :: (records_left (pf_frames p1)).1).
      { cbn. rewrite Hres. cbn [fst snd]. destruct (contents q' r') as [xs []]; done. }
      rewrite Hrem. cbn [fmap list_fmap]. unfold to_come. rewrite Hfr. unfold offset_of at 4. rewrite Hoff. done.
    + destruct Hres as [Hc ->]. destruct (IH (pf_close path (pr_stats r') (Between todo) p) w) as (res & p' & w' & Hrun & Hset & Hok' & Hres).
      { done. }
      { cbn in *. lia. }
      assert (Hrem : records_left (Reading todo path q r) = records_left (Between todo)) by (cbn; rewrite Hc; by destruct (records_of todo)).
      exists res, p', w'. split; [done|]. split; [done|]. split; [done|]. unfold to_come, offset_of in *. rewrite Hg, Hrem in *. done.
    + destruct Hres as (Hc & _ & ->). eexists (Raise e), _, _. split; [done|]. repeat split; try done. cbn. by rewrite Hc.
  - exists (Ok None), p, w. split; [done|]. split; [by repeat split|]. rewrite Hg. split; [done|]. by split.
Qed.

(** ** Looking and taking *)

Lemma to_come_dead p : pf_frames p = Dead → to_come p = [].
Proof. unfold to_come. by intros ->. Qed.

Lemma peek_spec p (w : W) : paced_ok p → ∃ res p' w', peek fs (p, w) = (res, (p', w')) ∧ paced_ok p' ∧ future p' = future p ∧
  pf_speed p' = pf_speed p ∧ ((records_left (pf_frames p)).2 = Ok tt → (records_left (pf_frames p')).2 = Ok tt) ∧
  match res with
  | Ok (Some f) => pf_lookahead p' = Some f
  | Ok None => pf_exhausted p' = true
  | Raise e => pf_lookahead p = None ∧ records_left (pf_frames p) = ([], Raise e)
  end.
Proof.
  intros Hok. pose proof Hok as [Hg Hx]. unfold peek, mbind, m_bind, mget. cbn [fst snd]. destruct (pf_lookahead p) as [f|] eqn:Hl.
  { exists (Ok (Some f)), p, w. done. }
  destruct (pf_exhausted p) eqn:Hex.
  { exists (Ok None), p, w. split; [done|]. split; [done|]. done. }
  unfold next_frame. cbn [fst]. destruct (generate_spec (steps_left (pf_frames p)) p w Hg) as (res & p' & w' & Hrun & (Hs1 & Hs2 & Hs3 & Hs4) & Hg' & Hres); [done|].
  rewrite Hrun. destruct res as [[f|]|e]; cbn [mmodify mret m_ret fst snd].
  - exists (Ok (Some f)), (pf_set_lookahead (Some f) false p'), w'. split; [done|]. split; [split; [done|done]|].
    destruct Hres as [Hres Hrem]. split; [unfold future; by rewrite Hl, Hres|]. split; [done|]. split; [|done]. cbn. by rewrite Hrem.
  - destruct Hres as [Hr Hd]. exists (Ok None), (pf_set_lookahead None true p'), w'. split; [done|].
    assert (Hn : future p = []) by (unfold future, to_come; by rewrite Hl, Hr).
    assert (Hn' : future (pf_set_lookahead None true p') = []) by (unfold future, to_come; cbn [pf_set_lookahead pf_lookahead pf_frames]; by rewrite Hd).
    split; [by split|]. split; [by rewrite Hn, Hn'|]. split; [done|]. split; [|done]. cbn. by rewrite Hd.
  - destruct Hres as [Hr Hd]. exists (Raise e), p', w'. split; [done|].
    assert (Hn : future p = []) by (unfold future, to_come; by rewrite Hl, Hr).
    assert (Hn' : future p' = []) by (unfold future, to_come; by rewrite Hs3, Hl, Hd).
    split; [by split|]. split; [by rewrite Hn|]. split; [done|]. by rewrite Hr, Hd.
Qed.

Lemma due_spec f p (w : W) : ∃ t w', seconds_until_due f (p, w) = (Ok t, (p, w')).
Proof.
  unfold seconds_until_due, replay_clock, mbind, m_bind, mget. cbn [fst snd]. destruct (pf_speed p); [|by eexists _, _].
  cbn [fst snd]. destruct (wall_clock w) as [t w']. eexists _, w'. reflexivity.
Qed.

Lemma take_spec f p (w : W) : pf_lookahead p = Some f → paced_ok p →
  ∃ p' w', take_frame fs (p, w) = (Ok f, (p', w')) ∧ paced_ok p' ∧ future p = f :: future p'.
Proof.
  intros Hl [Hg Hx]. unfold take_frame, peek, mbind, m_bind, mget, mmodify. cbn [fst snd]. rewrite Hl. cbn [mret m_ret fst snd].
  eexists _, w. split; [reflexivity|]. assert (Hf : future p = f :: future (pf_set_lookahead None (pf_exhausted p) p)) by (unfold future; by rewrite Hl).
  split; [|done]. split; [done|]. intros He. specialize (Hx He). by rewrite Hf in Hx.
Qed.

(** ** The capture *)

Notation C := (@ReplayCapture W (K * list ReplayFrame)).
Definition offered (c : C) : list ReplayFrame := (rc_sink c).2.
Definition capture_ok (c : C) : Prop := match rc_frames c with Some p => paced_ok p | None => True end.
Definition undelivered (c : C) : list ReplayFrame := match rc_frames c with Some p => future p | None => [] end.
(** What was offered and what is still to come, and whether it is open *)
Definition keeps (c c' : C) : Prop := capture_ok c →
  capture_ok c' ∧ offered c' ++ undelivered c' = offered c ++ undelivered c ∧ (rc_frames c = None ↔ rc_frames c' = None).

#[local] Instance keeps_preorder : PreOrder keeps.
Proof. split; [done|]. intros a b c Hab Hbc Ha. destruct (Hab Ha) as (Hb & Hu & Ho). destruct (Hbc Hb) as (Hc & Hu' & Ho'). split; [done|]. split; [congruence|tauto]. Qed.

Lemma keeps_wall (c : C) w p : rc_frames c = p → keeps c (rc_set_frames p w c).
Proof. intros <- Hc. done. Qed.
Lemma keeps_nap t : framed keeps (nap t).
Proof. intros c. by apply keeps_wall. Qed.
Lemma keeps_stopped : framed keeps is_stopped.
Proof. intros c. unfold is_stopped. by destruct (wall_stop (rc_wall c)). Qed.
Lemma keeps_due f : framed keeps (on_frames (seconds_until_due f)).
Proof.
  intros c. unfold on_frames. destruct (rc_frames c) as [p|] eqn:Hp; [|done].
  destruct (due_spec f p (rc_wall c)) as (t & w' & ->). by apply keeps_wall.
Qed.

Lemma peek_keeps c : capture_ok c → ∃ res c', _peek fs c = (res, c') ∧ capture_ok c' ∧ keeps c c' ∧ offered c' = offered c ∧
  match res with
  | Ok (Some f) => ∃ p, rc_frames c' = Some p ∧ pf_lookahead p = Some f
  | Ok None => finished c' = true
  | Raise _ => True
  end.
Proof.
  intros Hc. unfold _peek, on_frames. destruct (rc_frames c) as [p|] eqn:Hp.
  2:{ eexists _, _. split; [done|]. done. }
  unfold capture_ok in Hc. rewrite Hp in Hc. destruct (peek_spec p (rc_wall c) Hc) as (res & p' & w' & -> & Hp' & Hf & _ & _ & Hres).
  assert (Hk : keeps c (rc_set_frames (Some p') w' c)).
  { intros _. split; [done|]. unfold undelivered. rewrite Hp. cbn. rewrite Hf. done. }
  destruct res as [[f|]|e].
  - eexists _, _. split; [done|]. split; [done|]. split; [done|]. split; [done|]. cbn. eauto.
  - eexists _, _. split; [done|]. done.
  - destruct e; (eexists _, _; split; [done|]; done).
Qed.

(** Taking a frame and feeding it moves it from what is to come to what was
    offered, even when the sink raises. *)
Lemma feed_moves c p f : rc_frames c = Some p → pf_lookahead p = Some f → capture_ok c → ∀ k : M C Z, framed keeps k →
  keeps c ((_ ← on_frames (take_frame fs); _ ← mmodify (rc_set_now (rf_ts_us f)); _ ← replay_feed f; k) c).2.
Proof.
  intros Hp Hl Hc k Hk. unfold on_frames, mbind, m_bind. rewrite Hp. unfold capture_ok in Hc. rewrite Hp in Hc.
  destruct (take_spec f p (rc_wall c) Hl Hc) as (p' & w' & -> & Hp' & Hf). unfold replay_feed, mmodify. cbn [rc_sink rc_set_now rc_set_frames sink_feed_us logged_sink].
  destruct (sink_feed_us (rf_data f) (rf_ts_us f) (rc_sink c).1) as [r k'].
  set (c1 := rc_set_sink _ _). assert (Hk1 : keeps c c1).
  { intros _. split; [done|]. unfold undelivered, offered. cbn [c1 rc_set_sink rc_set_now rc_set_frames rc_sink rc_frames snd]. rewrite Hp, Hf.
    split; [|done]. rewrite <- app_assoc. by destruct f. }
  destruct r as [[]|e]; [|done]. etrans; [exact Hk1|apply Hk].
Qed.

Lemma keeps_if_ok c c' : (capture_ok c → keeps c c') → keeps c c'.
Proof. intros Hk Hc. by apply Hk. Qed.
Lemma keeps_step {A B} (m : M C A) (k : A → M C B) c r c1 : m c = (r, c1) → keeps c c1 →
  (∀ a, r = Ok a → keeps c1 (k a c1).2) → keeps c ((m ≫= k) c).2.
Proof. intros Hm Hc1 Hk. unfold mbind, m_bind. rewrite Hm. destruct r as [a|e]; [|done]. etrans; [done|by apply Hk]. Qed.

(** After a look, the reading of the due time leaves the frame in place. *)
Lemma due_keeps {B} c p f (k : float → M C B) : rc_frames c = Some p → 
  (∀ t c', rc_frames c' = Some p → (capture_ok c → capture_ok c') → keeps c' (k t c').2) → keeps c ((on_frames (seconds_until_due f) ≫= k) c).2.
Proof.
  intros Hp Hk. destruct (due_spec f p (rc_wall c)) as (t & w' & Hd).
  apply (keeps_step _ _ _ (Ok t) (rc_set_frames (Some p) w' c)); [unfold on_frames; by rewrite Hp, Hd|by apply keeps_wall|].
  intros ? [= <-]. apply Hk; [done|]. unfold capture_ok. by rewrite Hp.
Qed.

Lemma feed_loop_keeps room : framed keeps (feed_loop fs room).
Proof.
  induction room as [|room IH]; intros c; [done|]. cbn [feed_loop]. revert c. apply (frame_bind keeps); [apply keeps_stopped|].
  intros [|] c; [done|]. apply keeps_if_ok. intros Hc. destruct (peek_keeps c Hc) as (res & c1 & Hpk & Hc1 & Hk & _ & Hres).
  apply (keeps_step _ _ _ _ _ Hpk Hk). intros [f|] ->; [|done]. destruct Hres as (p & Hp & Hl).
  apply (due_keeps c1 p f); [done|]. intros t c2 Hp2 Hok. destruct (flt (float_of_Z 0) t); [done|].
  apply (feed_moves c2 p f); [done|done|by apply Hok|]. apply (frame_bind keeps); [apply IH|]. intros n c'. done.
Qed.

Lemma poll_keeps ms : framed keeps (replay_poll fs ms).
Proof.
  intros c. unfold replay_poll. unfold mbind at 1, m_bind at 1, mget at 1. destruct (rc_frames c) as [p0|] eqn:Hp0; [|done].
  clear Hp0 p0. revert c. apply (frame_bind keeps); [apply keeps_stopped|]. intros [|] c; [done|].
  apply keeps_if_ok. intros Hc. destruct (peek_keeps c Hc) as (res & c1 & Hpk & Hc1 & Hk & _ & Hres).
  apply (keeps_step _ _ _ _ _ Hpk Hk). intros [f|] ->.
  2:{ revert c1 Hpk Hc1 Hk Hres. intros c1 _ _ _ _. apply (frame_bind keeps); [apply keeps_nap|]. done. }
  destruct Hres as (p & Hp & Hl). apply (due_keeps c1 p f); [done|]. intros t c2 _ _.
  match goal with |- context [if flt ?a ?b then _ else _] => destruct (flt a b) end.
  { apply (frame_bind keeps); [apply keeps_nap|]. done. }
  apply (frame_bind keeps); [|intros _; apply feed_loop_keeps]. destruct (flt (float_of_Z 0) t); [apply keeps_nap|done].
Qed.

(** ** Runs *)

Inductive op : Type := Start | Stop | Poll (timeout_ms : Z).
Definition do_op (o : op) (c : C) : C :=
  match o with Start => (replay_start fs c).2 | Stop => (replay_stop c).2 | Poll ms => (replay_poll fs ms c).2 end.
Definition run_ops (os : list op) (c : C) : C := foldl (λ c o, do_op o c) c os.

Lemma do_op_keeps o c : rc_frames c ≠ None → keeps c (do_op o c).
Proof.
  intros Hopen. destruct o as [| |ms]; cbn [do_op]; [|done|apply poll_keeps]. unfold replay_start. by destruct (rc_frames c).
Qed.
Lemma run_keeps os : ∀ c, rc_frames c ≠ None → keeps c (run_ops os c).
Proof.
  induction os as [|o os IH]; intros c Hopen; [done|]. cbn [run_ops foldl]. apply keeps_if_ok. intros Hc.
  pose proof (do_op_keeps o c Hopen) as Ho. etrans; [exact Ho|]. apply IH. destruct (Ho Hc) as (_ & _ & Hn). tauto.
Qed.

(** What the generator reads: every record of every file, in order, up to the
    first file that cannot be read on, shifted by one constant. *)
Definition read_frames (files : list string) (rebase : option Z) : list ReplayFrame :=
  let xs := (records_of files).1 in shift (rebase_offset rebase xs) <$> xs.

(** The frames of a capture: the records of every file, each file on its own,
    in order, shifted by one constant.  A file is readable when it opens and is
    read to its end. *)
Definition file_records (path : string) : list PcapRecord :=
  match fs_open fs path with Some st => (contents NotStarted (open_reader path st)).1 | None => [] end.
Definition readable (path : string) : Prop :=
  ∃ st xs, fs_open fs path = Some st ∧ contents NotStarted (open_reader path st) = (xs, Ok tt).
Definition frames_of (files : list string) (rebase : option Z) : list ReplayFrame :=
  let xs := flat_map file_records files in shift (rebase_offset rebase xs) <$> xs.

Lemma records_prefix files : (records_of files).1 `prefix_of` flat_map file_records files.
Proof.
  induction files as [|path files IH]; [done|]. cbn [records_of flat_map]. unfold file_records at 1.
  destruct (fs_open fs path) as [st|]; [|apply prefix_nil]. destruct (contents NotStarted (open_reader path st)) as [xs [u|e]]; cbn [fst].
  - by apply prefix_app.
  - by apply prefix_app_r.
Qed.
Lemma records_readable files : Forall readable files → records_of files = (flat_map file_records files, Ok tt).
Proof.
  induction 1 as [|path files (st & xs & Ho & Hc) _ IH]; [done|]. cbn [records_of flat_map]. unfold file_records at 1. by rewrite Ho, Hc, IH.
Qed.
Lemma read_prefix files rebase : read_frames files rebase `prefix_of` frames_of files rebase.
Proof.
  unfold read_frames, frames_of. cbv zeta. destruct (records_prefix files) as [rest Hrest]. rewrite Hrest.
  destruct (records_of files).1 as [|x xs]; [apply prefix_nil|]. cbn [app]. exists (shift (rebase_offset rebase (x :: xs)) <$> rest).
  by rewrite <- fmap_app.
Qed.
Lemma read_whole files rebase : Forall readable files → read_frames files rebase = frames_of files rebase.
Proof. intros Hr. unfold read_frames. by rewrite records_readable. Qed.

Lemma start_opens (c c' : C) : rc_frames c = None → replay_start fs c = (Ok tt, c') →
  ∃ files p, capture_files (rc_source c) (fs_kind fs (rc_source c)) = Ok files ∧ rc_frames c' = Some p ∧ paced_ok p ∧
    future p = read_frames files (rc_rebase_to_us c) ∧ rc_sink c' = rc_sink c.
Proof.
  unfold replay_start, new_paced, mbind, result_bind. intros ->. destruct (capture_files _ _) as [files|e]; [|by destruct e].
  cbn [rbind mret result_ret]. intros [= <-]. eexists files, _. split; [done|]. split; [done|]. split; [split; done|]. done.
Qed.

Lemma replay_offers (c c1 : C) os files :
  rc_frames c = None → offered c = [] → replay_start fs c = (Ok tt, c1) →
  capture_files (rc_source c) (fs_kind fs (rc_source c)) = Ok files →
  let c2 := run_ops os c1 in
  offered c2 `prefix_of` read_frames files (rc_rebase_to_us c) ∧
  (finished c2 = true → offered c2 = read_frames files (rc_rebase_to_us c)).
Proof.
  intros Hn Ho Hst Hfiles c2. destruct (start_opens c c1 Hn Hst) as (files' & p & Hf & Hp & Hok & Hfut & Hsink).
  rewrite Hfiles in Hf. injection Hf as <-.
  assert (Hall : offered c1 ++ undelivered c1 = read_frames files (rc_rebase_to_us c)).
  { unfold offered in *. rewrite Hsink, Ho. unfold undelivered. by rewrite Hp, Hfut. }
  assert (Hc1 : capture_ok c1) by (unfold capture_ok; by rewrite Hp).
  destruct (run_keeps os c1 (ltac:(by rewrite Hp)) Hc1) as (Hc2 & Hkeep & Hopen). fold c2 in Hc2, Hkeep, Hopen.
  rewrite Hall in Hkeep. rewrite <- Hkeep. split; [by eexists|]. intros Hfin. unfold finished in Hfin. unfold undelivered, capture_ok in *.
  destruct (rc_frames c2) as [p2|]; [|done]. destruct Hc2 as [_ Hx]. rewrite (Hx Hfin). by rewrite app_nil_r.
Qed.

(** C26: a replay is the capture.  Whatever its speed, the wall clock, the
    sleeps, the stops and the sink do, however often it is polled, and
    whatever the files hold, the frames offered to the sink are an initial part
    of the records of all the files in name order, each once and in order, all
    shifted by the same constant; and when every file can be read to its end,
    a replay that says it is finished has offered all of them. *)
Theorem replay_is_the_capture (c c1 : C) os files :
  rc_frames c = None → offered c = [] → replay_start fs c = (Ok tt, c1) →
  capture_files (rc_source c) (fs_kind fs (rc_source c)) = Ok files →
  let c2 := run_ops os c1 in
  offered c2 `prefix_of` frames_of files (rc_rebase_to_us c) ∧
  (finished c2 = true → Forall readable files → offered c2 = frames_of files (rc_rebase_to_us c)).
Proof.
  intros Hn Ho Hst Hfiles c2. destruct (replay_offers c c1 os files Hn Ho Hst Hfiles) as [Hpre Hfin]. split.
  - etrans; [exact Hpre|apply read_prefix].
  - intros Hf Hr. rewrite <- (read_whole files _ Hr). by apply Hfin.
Qed.
End Props.

(** ** At full speed *)

Definition not_negative (x : float) : bool :=
  match x with S754_finite s _ _ => negb s | S754_infinity s => negb s | _ => true end.
Lemma not_negative_flt x : not_negative x = true → flt x (float_of_Z 0) = false.
Proof. by destruct x as [[]|[]| |[] m e]. Qed.
Lemma round_aux_sign m e l : not_negative (binary_round_aux 53 1024 false m e l) = true.
Proof. unfold binary_round_aux. repeat case_match; done. Qed.
Lemma float_of_nonneg n : 0 ≤ n → not_negative (float_of_Z n) = true.
Proof.
  intros Hn. unfold float_of_Z, binary_normalize. destruct n as [|n|n]; [done| |lia]. unfold binary_round.
  case_match. apply round_aux_sign.
Qed.
Lemma div_not_negative x y : not_negative x = true → not_negative y = true → y ≠ S754_zero true → not_negative (fdiv x y) = true.
Proof.
  unfold fdiv, SFdiv. destruct x as [[]|[]| |[] mx ex], y as [[]|[]| |[] my ey]; try done; cbn [xorb not_negative negb]; intros _ _ _; try done.
  all: destruct (SFdiv_core_binary _ _ _ _ _ _) as [[q e] l]; apply round_aux_sign.
Qed.

Section Full.
Context (fs : Files) {W K : Type} `{Wall W} `{FrameSink K}.
Context (files_are_bytes : ∀ path st, fs_open fs path = Some st → Forall byte_ok (st_bytes st)).
Context (quiet : ∀ w : W, (wall_stop w).1 = false) (willing : ∀ data ts (k : K), (sink_feed_us data ts k).1 = Ok tt).
Notation C := (@ReplayCapture W (K * list ReplayFrame)).

(** A started, unstopped replay at speed "max" whose files read without error *)
Record replay_ready (c : C) (p : _PacedFrames) : Prop := {
  rd_frames : rc_frames c = Some p;
  rd_ok : paced_ok fs p;
  rd_speed : pf_speed p = None;
  rd_whole : (records_left fs (pf_frames p)).2 = Ok tt;
  rd_running : rc_stopped c = false;
}.

Lemma not_stopped (c : C) p : replay_ready c p → ∃ c', is_stopped c = (Ok false, c') ∧ replay_ready c' p ∧ offered c' = offered c.
Proof.
  intros [Hf Hok Hs Hw Hr]. unfold is_stopped. pose proof (quiet (rc_wall c)) as Hq. destruct (wall_stop (rc_wall c)) as [b w].
  cbn in Hq. subst b. rewrite Hr. eexists. split; [done|]. by split.
Qed.

Lemma look (c : C) p : replay_ready c p → ∃ x c' p', _peek fs c = (Ok x, c') ∧ replay_ready c' p' ∧ future fs p' = future fs p ∧ offered c' = offered c ∧
  match x with Some f => pf_lookahead p' = Some f | None => finished c' = true ∧ future fs p = [] end.
Proof.
  intros [Hf Hok Hs Hw Hr]. unfold _peek, on_frames. rewrite Hf.
  destruct (peek_spec fs files_are_bytes p (rc_wall c) Hok) as (res & p' & w' & -> & Hok' & Hfut & Hsp & Hrem & Hres).
  destruct res as [x|e]; [|destruct Hres as [_ Hres]; by rewrite Hres in Hw].
  exists x, (rc_set_frames (Some p') w' c), p'. split; [by destruct x|]. split; [split; try done; [by rewrite Hsp|auto]|].
  split; [done|]. split; [done|]. destruct x; [done|]. split; [done|]. rewrite <- Hfut. by apply Hok'.
Qed.

Lemma due_now (c : C) p f : replay_ready c p → on_frames (seconds_until_due f) c = (Ok (float_of_Z 0), c).
Proof.
  intros [Hf Hok Hs Hw Hr]. unfold on_frames, seconds_until_due, mbind, m_bind, mget. rewrite Hf. cbn [fst snd]. rewrite Hs.
  cbn [mret m_ret]. destruct c. cbn in *. by subst.
Qed.

Lemma take_it (c : C) p f : replay_ready c p → pf_lookahead p = Some f →
  ∃ c' p', on_frames (take_frame fs) c = (Ok f, c') ∧ replay_ready c' p' ∧ future fs p = f :: future fs p' ∧ rc_sink c' = rc_sink c.
Proof.
  intros [Hf Hok Hs Hw Hr] Hl. unfold on_frames. rewrite Hf. unfold take_frame, peek, mbind, m_bind, mget, mmodify. cbn [fst snd].
  rewrite Hl. cbn [mret m_ret fst snd]. eexists _, _. split; [reflexivity|].
  assert (Hfut : future fs p = f :: future fs (pf_set_lookahead None (pf_exhausted p) p)) by (unfold future; by rewrite Hl).
  split; [split; try done|done]. destruct Hok as [Hg Hx]. split; [done|]. intros He. specialize (Hx He). by rewrite Hfut in Hx.
Qed.

Lemma feed_it (c : C) p f : replay_ready c p → ∃ c', replay_feed f c = (Ok tt, c') ∧ replay_ready c' p.
Proof.
  intros [Hf Hok Hs Hw Hr]. unfold replay_feed. cbn [sink_feed_us logged_sink]. pose proof (willing (rf_data f) (rf_ts_us f) (rc_sink c).1) as Hw'.
  destruct (sink_feed_us (rf_data f) (rf_ts_us f) (rc_sink c).1) as [r k]. cbn in Hw'. subst r. eexists. split; [done|]. by split.
Qed.

(** A poll at full speed feeds all that is left, up to its limit, and knows
    the end when there is room left. *)
Lemma loop_at_full_speed room : ∀ (c : C) p, replay_ready c p → ∃ n c' p', feed_loop fs room c = (Ok n, c') ∧ replay_ready c' p' ∧
  n = Z.of_nat (min room (length (future fs p))) ∧ future fs p' = drop room (future fs p) ∧
  ((length (future fs p) < room)%nat → finished c' = true).
Proof.
  induction room as [|room IH]; intros c p Hr.
  { exists 0, c, p. split; [done|]. split; [done|]. split; [done|]. split; [done|lia]. }
  cbn [feed_loop]. unfold mbind, m_bind. destruct (not_stopped c p Hr) as (c1 & -> & Hr1 & _).
  destruct (look c1 p Hr1) as (x & c2 & p2 & -> & Hr2 & Hfut & _ & Hx). destruct x as [f|].
  2:{ destruct Hx as [Hfin Hnil]. exists 0, c2, p2. rewrite Hfut, Hnil. done. }
  rewrite (due_now c2 p2 f Hr2). change (flt (float_of_Z 0) (float_of_Z 0)) with false. cbv iota.
  destruct (take_it c2 p2 f Hr2 Hx) as (c3 & p3 & -> & Hr3 & Hf3 & _). unfold mmodify.
  assert (Hr3' : replay_ready (rc_set_now (rf_ts_us f) c3) p3) by (destruct Hr3; by split).
  destruct (feed_it _ p3 f Hr3') as (c4 & -> & Hr4). destruct (IH c4 p3 Hr4) as (n & c5 & p5 & -> & Hr5 & Hn & Hf5 & Hfin).
  rewrite <- Hfut, Hf3. cbn [length drop mret m_ret]. exists (n + 1), c5, p5. split; [done|]. split; [done|]. split; [lia|]. split; [done|].
  intros. apply Hfin. lia.
Qed.

Lemma poll_at_full_speed ms (c : C) p : replay_ready c p → ∃ n c' p', replay_poll fs ms c = (Ok n, c') ∧ replay_ready c' p' ∧
  n = Z.of_nat (min _MAX_FRAMES_PER_POLL (length (future fs p))) ∧ future fs p' = drop _MAX_FRAMES_PER_POLL (future fs p) ∧
  ((length (future fs p) < _MAX_FRAMES_PER_POLL)%nat → finished c' = true).
Proof.
  intros Hr. unfold replay_poll, mbind at 1, m_bind at 1, mget. rewrite (rd_frames c p Hr). unfold mbind, m_bind.
  destruct (not_stopped c p Hr) as (c1 & -> & Hr1 & _). destruct (look c1 p Hr1) as (x & c2 & p2 & -> & Hr2 & Hfut & _ & Hx).
  destruct x as [f|].
  2:{ destruct Hx as [Hfin Hnil]. eexists 0, _, p2. split; [done|]. rewrite Hfut, Hnil. split; [destruct Hr2; by split|]. done. }
  rewrite (due_now c2 p2 f Hr2). rewrite not_negative_flt.
  2:{ apply div_not_negative; [apply float_of_nonneg; lia|done|done]. }
  change (flt (float_of_Z 0) (float_of_Z 0)) with false. cbv iota. cbn [mret m_ret]. rewrite <- Hfut. by apply loop_at_full_speed.
Qed.

Lemma polls_at_full_speed ms n : ∀ (c : C) p, replay_ready c p → (length (future fs p) < n * _MAX_FRAMES_PER_POLL)%nat →
  finished (run_ops fs (replicate n (Poll ms)) c) = true.
Proof.
  induction n as [|n IH]; intros c p Hr Hn; [lia|]. cbn [replicate run_ops foldl do_op].
  destruct (poll_at_full_speed ms c p Hr) as (k & c' & p' & Hp & Hr' & _ & Hf' & Hfin). rewrite Hp. cbn [snd].
  destruct n as [|n].
  - apply Hfin. lia.
  - apply (IH c' p' Hr'). rewrite Hf', length_drop. lia.
Qed.

(** Without pacing, stops or errors, a replay of n frames is finished after
    one poll more than n/5000, and has then offered every frame. *)
Theorem replay_finishes (c c1 : C) ms n files :
  rc_frames c = None → offered c = [] → rc_speed c = None → replay_start fs c = (Ok tt, c1) →
  capture_files (rc_source c) (fs_kind fs (rc_source c)) = Ok files → Forall (readable fs) files →
  (length (frames_of fs files (rc_rebase_to_us c)) < n * _MAX_FRAMES_PER_POLL)%nat →
  let c2 := run_ops fs (replicate n (Poll ms)) c1 in
  finished c2 = true ∧ offered c2 = frames_of fs files (rc_rebase_to_us c).
Proof.
  intros Hn Ho Hsp Hst Hfiles Hwhole Hlen c2. assert (Hfin : finished c2 = true).
  { unfold replay_start, new_paced, mbind, result_bind in Hst. rewrite Hn, Hfiles in Hst. cbn [rbind mret result_ret] in Hst. injection Hst as <-.
    assert (Hr : (records_of fs files).2 = Ok tt) by (by rewrite (records_readable fs _ Hwhole)).
    eapply polls_at_full_speed; [split; [reflexivity|..]; try done; split; done|].
    rewrite <- (read_whole fs _ _ Hwhole) in Hlen. exact Hlen. }
  split; [done|]. rewrite <- (read_whole fs _ _ Hwhole). by apply (replay_offers fs files_are_bytes c c1 (replicate n (Poll ms)) files).
Qed.
End Full.
