(* ===== verification/D1.v ===== *)
(** * The deterministic detectors (pirewall/detection_v2/d1.py)

    Bounded sliding state per device, destination, portal account and for the
    whole network, and the detectors over it.  A [deque(maxlen=n)] is a list
    that [deque_append] keeps to its last [n] items; an [OrderedDict] used as
    an LRU table is an association list through [lru_touch].  Sets of which
    only the size is read are duplicate-free lists. *)

From S2P Require Import Prelude Float Net Models Throttle Policy Flow Features Thresholds.
Local Open Scope Z_scope.

(** ** Connection starts *)

Definition unicast_mac (value : option string) : option Mac.t := v ← value; Mac.validate_unicast v.

Record ConnectionStart : Type := mk_start {
  cs_mac : Mac.t;
  cs_source_ip : IPv4.t;
  cs_destination_ip : IPv4.t;
  cs_destination_port : option Z;
  cs_at : Z;
  cs_failed : option bool;
  cs_duration_seconds : option float;
  cs_byte_count : option Z;
}.

Definition has_outcome (s : ConnectionStart) : bool := match cs_failed s with Some _ => true | None => false end.

Definition feq (x y : float) : bool := SFeqb x y.

Definition feature (features : list (string * float)) (name : string) : result float :=
  match dget features name with Some x => Ok x | None => Raise KeyError end.

Definition start_from_features (is_start : bool) (source_mac : option string) (source_ip destination_ip : IPv4.t)
  (destination_port : option Z) (first_seen : Z) (features : list (string * float)) : result (option ConnectionStart) :=
  match is_start, unicast_mac source_mac with
  | true, Some mac =>
      rbind (feature features "packet_count") (λ packets,
      rbind (feature features "payload_byte_count") (λ payload,
      rbind (feature features "backward_packet_count") (λ backward,
      let failed := feq backward zero || (fle packets (float_of_Z 3) && feq payload zero) in
      rbind (feature features "duration_seconds") (λ duration,
      Ok (Some (mk_start mac source_ip destination_ip destination_port first_seen (Some failed)
                  (Some (fmax duration zero)) (Some (ftrunc payload))))))))
  | _, _ => Ok None
  end.

Definition start_from_record (flow : Flow) (is_start : bool) : result (option ConnectionStart) :=
  match is_start, unicast_mac (fl_source_mac flow) with
  | true, Some _ =>
      rbind (extract_features flow SCHEMA_VERSION) (λ vector,
      start_from_features true (fl_source_mac flow) (fl_source_ip flow) (fl_destination_ip flow) (fl_destination_port flow)
        (fl_first_seen flow) (zip (fv_feature_names vector) (fv_values vector)))
  | _, _ => Ok None
  end.

Definition start_from_signal (source_mac : option string) (source_ip destination_ip : IPv4.t) (destination_port : option Z)
  (protocol : Protocol) (at_ : Z) : option ConnectionStart :=
  match unicast_mac source_mac with
  | Some mac => if decide (protocol = TCP)
                then Some (mk_start mac source_ip destination_ip destination_port at_ None None None) else None
  | None => None
  end.

(** ** State *)

Record D1Config : Type := mk_d1_config {
  d1c_windows_seconds : list Z;
  d1c_max_tracked_macs : Z;
  d1c_max_tracked_destinations : Z;
  d1c_max_events_per_mac : Z;
  d1c_max_tracked_accounts : Z;
  d1c_brute_force_ports : list Z;
  d1c_brute_force_max_duration_seconds : float;
  d1c_brute_force_size_tolerance : float;
  d1c_failed_handshake_min_starts : Z;
  d1c_max_known_macs : Z;
}.

(** The field constraints and [_check_windows]. *)
Definition d1_config_wf (c : D1Config) : Prop :=
  0 < d1c_max_tracked_macs c ∧ 0 < d1c_max_tracked_destinations c ∧ 0 < d1c_max_events_per_mac c ∧
  0 < d1c_max_tracked_accounts c ∧ 0 < d1c_failed_handshake_min_starts c ∧ 0 < d1c_max_known_macs c ∧
  10 ∈ d1c_windows_seconds c ∧ 60 ∈ d1c_windows_seconds c ∧ Forall (λ w, 0 < w) (d1c_windows_seconds c).

Record D1Counters : Type := mk_counters {
  n_macs_evicted : Z;
  n_destinations_evicted : Z;
  n_events_dropped : Z;
  n_accounts_evicted : Z;
  n_known_macs_evicted : Z;
}.

Record Device : Type := mk_device {
  dv_last_ip : IPv4.t;
  dv_events : list ConnectionStart;
  dv_slow : list (IPv4.t * (Z * Z));  (** count, when observed *)
}.

Record D1State : Type := mk_d1 {
  d1_config : D1Config;
  d1_thresholds : D1ThresholdFile;
  d1_windows : list Z;
  d1_horizon : Z;
  d1_brute_ports : list Z;
  d1_devices : list (Mac.t * Device);
  d1_destinations : list (IPv4.t * list (Z * Mac.t));
  d1_known_macs : list (Mac.t * unit);
  d1_known_leases : list ((IPv4.t * Mac.t) * unit);
  d1_new_macs : list Z;
  d1_new_leases : list Z;
  d1_accounts : list (string * list (Z * option Mac.t));
  d1_portal_failures : list Z;
  d1_leases_seeded : bool;
  d1_counters : D1Counters;
}.

(** [max(xs, default=d)] *)
Definition py_max (d : Z) (l : list Z) : Z := match l with [] => d | x :: l' => foldl Z.max x l' end.

(** [D1State.__init__]; [max(windows)] raises on no window, which a valid
    configuration excludes. *)
Definition new_d1 (c : D1Config) (thresholds : D1ThresholdFile) (extra_ports : list Z) : D1State :=
  let windows := py_sorted Z.leb (dedup (d1c_windows_seconds c)) in
  mk_d1 c thresholds windows (seconds (py_max 0 windows)) (d1c_brute_force_ports c ++ extra_ports)
    [] [] [] [] [] [] [] [] false (mk_counters 0 0 0 0 0).

Definition replace_thresholds (t : D1ThresholdFile) (s : D1State) : D1State :=
  mk_d1 (d1_config s) t (d1_windows s) (d1_horizon s) (d1_brute_ports s) (d1_devices s) (d1_destinations s) (d1_known_macs s)
    (d1_known_leases s) (d1_new_macs s) (d1_new_leases s) (d1_accounts s) (d1_portal_failures s) (d1_leases_seeded s) (d1_counters s).
Definition set_devices (s : D1State) x : D1State :=
  mk_d1 (d1_config s) (d1_thresholds s) (d1_windows s) (d1_horizon s) (d1_brute_ports s) x (d1_destinations s) (d1_known_macs s)
    (d1_known_leases s) (d1_new_macs s) (d1_new_leases s) (d1_accounts s) (d1_portal_failures s) (d1_leases_seeded s) (d1_counters s).
Definition set_destinations (s : D1State) x : D1State :=
  mk_d1 (d1_config s) (d1_thresholds s) (d1_windows s) (d1_horizon s) (d1_brute_ports s) (d1_devices s) x (d1_known_macs s)
    (d1_known_leases s) (d1_new_macs s) (d1_new_leases s) (d1_accounts s) (d1_portal_failures s) (d1_leases_seeded s) (d1_counters s).
Definition set_macs (s : D1State) known news : D1State :=
  mk_d1 (d1_config s) (d1_thresholds s) (d1_windows s) (d1_horizon s) (d1_brute_ports s) (d1_devices s) (d1_destinations s) known
    (d1_known_leases s) news (d1_new_leases s) (d1_accounts s) (d1_portal_failures s) (d1_leases_seeded s) (d1_counters s).
Definition set_leases (s : D1State) known news seeded : D1State :=
  mk_d1 (d1_config s) (d1_thresholds s) (d1_windows s) (d1_horizon s) (d1_brute_ports s) (d1_devices s) (d1_destinations s)
    (d1_known_macs s) known (d1_new_macs s) news (d1_accounts s) (d1_portal_failures s) seeded (d1_counters s).
Definition set_portal (s : D1State) accounts failures : D1State :=
  mk_d1 (d1_config s) (d1_thresholds s) (d1_windows s) (d1_horizon s) (d1_brute_ports s) (d1_devices s) (d1_destinations s)
    (d1_known_macs s) (d1_known_leases s) (d1_new_macs s) (d1_new_leases s) accounts failures (d1_leases_seeded s) (d1_counters s).
Definition count (s : D1State) (f : D1Counters → D1Counters) : D1State :=
  mk_d1 (d1_config s) (d1_thresholds s) (d1_windows s) (d1_horizon s) (d1_brute_ports s) (d1_devices s) (d1_destinations s)
    (d1_known_macs s) (d1_known_leases s) (d1_new_macs s) (d1_new_leases s) (d1_accounts s) (d1_portal_failures s)
    (d1_leases_seeded s) (f (d1_counters s)).

Definition mac_evicted (c : D1Counters) := mk_counters (n_macs_evicted c + 1) (n_destinations_evicted c) (n_events_dropped c) (n_accounts_evicted c) (n_known_macs_evicted c).
Definition destination_evicted (c : D1Counters) := mk_counters (n_macs_evicted c) (n_destinations_evicted c + 1) (n_events_dropped c) (n_accounts_evicted c) (n_known_macs_evicted c).
Definition event_dropped (c : D1Counters) := mk_counters (n_macs_evicted c) (n_destinations_evicted c) (n_events_dropped c + 1) (n_accounts_evicted c) (n_known_macs_evicted c).
Definition account_evicted (c : D1Counters) := mk_counters (n_macs_evicted c) (n_destinations_evicted c) (n_events_dropped c) (n_accounts_evicted c + 1) (n_known_macs_evicted c).
Definition known_mac_evicted (c : D1Counters) := mk_counters (n_macs_evicted c) (n_destinations_evicted c) (n_events_dropped c) (n_accounts_evicted c) (n_known_macs_evicted c + 1).

Definition count_if (b : bool) (f : D1Counters → D1Counters) (s : D1State) : D1State := if b then count s f else s.

Section Lru.
Context {K V : Type} `{EqDecision K}.

(** The tables' common step: move a known key to the end, or insert [fresh]
    and evict the oldest key over [max]. *)
Definition lru_touch (max : Z) (d : list (K * V)) (k : K) (fresh : V) : list (K * V) * bool :=
  if dmem d k then (dmove_to_end d k, false)
  else let d' := dset d k fresh in
       if max <? Z.of_nat (length d') then (dpopitem_first d', true) else (d', false).

(** Mutating the object stored under [k]. *)
Definition dmodify (d : list (K * V)) (k : K) (f : V → V) : list (K * V) :=
  match dget d k with Some v => dset d k (f v) | None => d end.
End Lru.

(** ** Input *)

Definition _device (mac : Mac.t) (source_ip : IPv4.t) (s : D1State) : D1State :=
  let '(d, evicted) := lru_touch (d1c_max_tracked_macs (d1_config s)) (d1_devices s) mac (mk_device source_ip [] []) in
  count_if evicted mac_evicted
    (set_devices s (dmodify d mac (λ v, mk_device source_ip (dv_events v) (dv_slow v)))).

Definition _note_mac (mac : Mac.t) (at_ : Z) (s : D1State) : D1State :=
  let '(d, evicted) := lru_touch (d1c_max_known_macs (d1_config s)) (d1_known_macs s) mac tt in
  if dmem (d1_known_macs s) mac then set_macs s d (d1_new_macs s)
  else count_if evicted known_mac_evicted
         (set_macs s d (deque_append (d1c_max_events_per_mac (d1_config s)) (d1_new_macs s) at_)).

Definition arrival (start : ConnectionStart) (s : D1State) : D1State :=
  let '(d, evicted) := lru_touch (d1c_max_tracked_destinations (d1_config s)) (d1_destinations s) (cs_destination_ip start) [] in
  count_if evicted destination_evicted
    (set_destinations s (dmodify d (cs_destination_ip start)
       (λ q, deque_append (d1c_max_events_per_mac (d1_config s)) q (cs_at start, cs_mac start)))).

Definition append_event (start : ConnectionStart) (s : D1State) : D1State :=
  let max := d1c_max_events_per_mac (d1_config s) in
  let full := match dget (d1_devices s) (cs_mac start) with
              | Some v => Z.of_nat (length (dv_events v)) =? max
              | None => false
              end in
  count_if full event_dropped
    (set_devices s (dmodify (d1_devices s) (cs_mac start)
       (λ v, mk_device (dv_last_ip v) (deque_append max (dv_events v) start) (dv_slow v)))).

Definition d1_observe (start : ConnectionStart) (s : D1State) : D1State :=
  arrival start (_note_mac (cs_mac start) (cs_at start) (append_event start (_device (cs_mac start) (cs_source_ip start) s))).

(** The device's table of slow connections after one more observation, and
    whether its oldest entry was dropped. *)
Definition note_slow (max : Z) (slow : list (IPv4.t * (Z * Z))) (destination_ip : IPv4.t) (n at_ : Z)
  : list (IPv4.t * (Z * Z)) * bool :=
  let slow' := dset slow destination_ip (n, at_) in
  if max <? Z.of_nat (length slow') then
    match py_min (λ p : IPv4.t * (Z * Z), p.2.2) slow' with
    | Some oldest => (dpop slow' oldest.1, true)
    | None => (slow', true)
    end
  else (slow', false).

Definition observe_slow_cluster (mac : option string) (source_ip destination_ip : IPv4.t) (n at_ : Z) (s : D1State) : D1State :=
  match unicast_mac mac with
  | None => s
  | Some m =>
      let s1 := _device m source_ip s in
      let max := d1c_max_tracked_destinations (d1_config s) in
      match dget (d1_devices s1) m with
      | None => s1
      | Some v =>
          let '(slow, evicted) := note_slow max (dv_slow v) destination_ip n at_ in
          count_if evicted destination_evicted
            (set_devices s1 (dset (d1_devices s1) m (mk_device (dv_last_ip v) (dv_events v) slow)))
      end
  end.

Definition note_binding (at_ : Z) (s : D1State) (b : Binding) : D1State :=
  let key := (b_ip b, b_mac b) in
  let d := (lru_touch (d1c_max_known_macs (d1_config s)) (d1_known_leases s) key tt).1 in
  set_leases s d
    (if negb (dmem (d1_known_leases s) key) && d1_leases_seeded s
     then deque_append (d1c_max_events_per_mac (d1_config s)) (d1_new_leases s) at_ else d1_new_leases s)
    (d1_leases_seeded s).

Definition observe_bindings (bindings : list Binding) (at_ : Z) (s : D1State) : D1State :=
  let s' := foldl (note_binding at_) s bindings in
  set_leases s' (d1_known_leases s') (d1_new_leases s') true.

Definition observe_portal_failure (account : string) (mac : option string) (at_ : Z) (s : D1State) : D1State :=
  let max := d1c_max_events_per_mac (d1_config s) in
  let '(d, evicted) := lru_touch (d1c_max_tracked_accounts (d1_config s)) (d1_accounts s) account [] in
  count_if evicted account_evicted
    (set_portal s (dmodify d account (λ q, deque_append max q (at_, unicast_mac mac)))
       (deque_append max (d1_portal_failures s) at_)).

(** ** Queries *)

Definition last_ip (s : D1State) (mac : Mac.t) : option IPv4.t := dv_last_ip <$> dget (d1_devices s) mac.
Definition tracked_macs (s : D1State) : Z := Z.of_nat (length (d1_devices s)).
Definition destinations (s : D1State) : list IPv4.t := dkeys (d1_destinations s).

(** ** Detectors *)

(** [while q and stale(q[0]): q.popleft()] *)
Fixpoint popleft_while {A} (stale : A → bool) (l : list A) : list A :=
  match l with
  | [] => []
  | x :: l' => if stale x then popleft_while stale l' else l
  end.

Definition _prune (s : D1State) (events : list ConnectionStart) (now : Z) : list ConnectionStart :=
  popleft_while (λ e, cs_at e <? now - d1_horizon s) events.

(** [since <= at <= now] with [since = now - timedelta(seconds=window)] *)
Definition in_window (window now at_ : Z) : bool := (now - seconds window <=? at_) && (at_ <=? now).

Definition set_add {V} `{EqDecision V} (l : list V) (v : V) : list V := if inb v l then l else l ++ [v].

Section MaxDistinct.
Context {K V : Type} `{EqDecision K} `{EqDecision V} (group : ConnectionStart → K) (member : ConnectionStart → V).

Definition buckets (events : list ConnectionStart) : list (K * list V) :=
  foldl (λ acc e, let acc' := dsetdefault acc (group e) [] in dmodify acc' (group e) (λ b, set_add b (member e))) [] events.

Definition _max_distinct (events : list ConnectionStart) : float :=
  float_of_Z (py_max 0 ((λ b, Z.of_nat (length b)) <$> dvalues (buckets events))).
End MaxDistinct.

Definition _failed_ratio (s : D1State) (events : list ConnectionStart) : option float :=
  let completed := filter (λ e, has_outcome e = true) events in
  let n := Z.of_nat (length completed) in
  if n <? d1c_failed_handshake_min_starts (d1_config s) then None
  else Some (fdiv (float_of_Z (Z.of_nat (length (filter (λ e, cs_failed e = Some true) completed)))) (float_of_Z n)).

(** [statistics.median] of a non-empty list of byte counts; byte counts are
    below 2^53, so their floats are exact. *)
Definition median (sizes : list Z) : float :=
  let data := py_sorted Z.leb sizes in
  let n := Z.of_nat (length data) in
  let at_ i := default 0 (data !! Z.to_nat i) in
  if Z.odd n then float_of_Z (at_ (n / 2))
  else fdiv (float_of_Z (at_ (n / 2 - 1) + at_ (n / 2))) (float_of_Z 2).

(** The byte count of a start the brute-force detector counts. *)
Definition brute_size (s : D1State) (e : ConnectionStart) : option ((IPv4.t * Z) * Z) :=
  match cs_destination_port e, cs_duration_seconds e, cs_byte_count e with
  | Some port, Some duration, Some bytes =>
      if inb port (d1_brute_ports s) && fle duration (d1c_brute_force_max_duration_seconds (d1_config s))
         && negb (bool_decide (cs_failed e = Some true))
      then Some ((cs_destination_ip e, port), bytes) else None
  | _, _, _ => None
  end.

Definition brute_groups (s : D1State) (events : list ConnectionStart) : list ((IPv4.t * Z) * list Z) :=
  foldl (λ acc (p : (IPv4.t * Z) * Z), let acc' := dsetdefault acc p.1 [] in dmodify acc' p.1 (λ b, b ++ [p.2])) []
    (omap (brute_size s) events).

Definition similar (tolerance : float) (sizes : list Z) : Z :=
  let centre := median sizes in
  Z.of_nat (length (filter (λ size,
    fle (SFabs (fsub (float_of_Z size) centre)) (fmul tolerance (fmax centre (float_of_Z 1))) = true) sizes)).

Definition _brute_force (s : D1State) (events : list ConnectionStart) : float :=
  float_of_Z (foldl (λ best sizes, Z.max best (similar (d1c_brute_force_size_tolerance (d1_config s)) sizes)) 0
    (dvalues (brute_groups s events))).

Definition slow_rate (window now : Z) (slow : list (IPv4.t * (Z * Z))) : float :=
  float_of_Z (py_max 0 (fst <$> filter (λ p : Z * Z, in_window window now p.2 = true) (dvalues slow))).

(** One window of [measure_device]. *)
Definition measure_window (s : D1State) (events : list ConnectionStart) (slow : list (IPv4.t * (Z * Z))) (now window : Z)
  : list (ThresholdKey * float) :=
  let events := filter (λ e, in_window window now (cs_at e) = true) events in
  let key d := mk_tkey d S_DEVICE window in
  [(key VERTICAL_SCAN, _max_distinct cs_destination_ip cs_destination_port events);
   (key HORIZONTAL_SCAN, _max_distinct cs_destination_port cs_destination_ip events);
   (key BRUTE_FORCE, _brute_force s events);
   (key SLOW_RATE_DOS, slow_rate window now slow)] ++
  match _failed_ratio s events with Some r => [(key FAILED_HANDSHAKE, r)] | None => [] end.

Definition measure_device (mac : Mac.t) (now : Z) (s : D1State) : list (ThresholdKey * float) * D1State :=
  match dget (d1_devices s) mac with
  | None => ([], s)
  | Some v =>
      let events := _prune s (dv_events v) now in
      (mjoin (measure_window s events (dv_slow v) now <$> d1_windows s),
       set_devices s (dset (d1_devices s) mac (mk_device (dv_last_ip v) events (dv_slow v))))
  end.

Definition measure_destination (destination : IPv4.t) (now : Z) (s : D1State) : list (ThresholdKey * float) * D1State :=
  match dget (d1_destinations s) destination with
  | None => ([], s)
  | Some q =>
      let arrivals := popleft_while (λ p : Z * Mac.t, p.1 <? now - d1_horizon s) q in
      ((λ w, (mk_tkey FAN_IN S_DESTINATION w,
              float_of_Z (Z.of_nat (length (dedup (filter (λ p : Z * Mac.t, in_window w now p.1 = true) arrivals).*2)))))
         <$> d1_windows s,
       set_destinations s (dset (d1_destinations s) destination arrivals))
  end.

Definition rate (window now : Z) (series : list Z) : float :=
  float_of_Z (Z.of_nat (length (filter (λ at_, in_window window now at_ = true) series))).

Definition measure_global (s : D1State) (now : Z) : list (ThresholdKey * float) :=
  mjoin ((λ w, [(mk_tkey NEW_MAC_RATE S_GLOBAL w, rate w now (d1_new_macs s));
                (mk_tkey NEW_LEASE_RATE S_GLOBAL w, rate w now (d1_new_leases s));
                (mk_tkey PORTAL_AUTH_FAILURES S_GLOBAL w, rate w now (d1_portal_failures s))]) <$> d1_windows s).

(** [math.floor(now.timestamp() / window)] *)
Definition bucket (window now : Z) : Z := ffloor (fdiv (total_seconds now) (float_of_Z window)).

Definition d1_id (k : ThresholdKey) (subject : string) (now : Z) : string :=
  "d1:" +:+ detector_value (tk_detector k) +:+ ":" +:+ scope_value (tk_scope k) +:+ ":" +:+ pretty (tk_window_seconds k)
    +:+ ":" +:+ subject +:+ ":" +:+ pretty (bucket (tk_window_seconds k) now).

Definition _fire (s : D1State) (k : ThresholdKey) (value : float) (mac : option Mac.t) (subject : string) (now : Z)
  : option D1Evidence :=
  match threshold_value (d1_thresholds s) k with
  | None => None
  | Some threshold =>
      if fle value threshold then None
      else Some (mk_d1_ev (d1_id k subject now) (tk_detector k) (tk_window_seconds k) value threshold mac now)
  end.

Definition fire_all (s : D1State) (mac : option Mac.t) (subject : string) (now : Z) (measured : list (ThresholdKey * float))
  : list D1Evidence :=
  omap (λ p : ThresholdKey * float, _fire s p.1 p.2 mac subject now) measured.

Definition evaluate_device (mac : Mac.t) (now : Z) (s : D1State) : list D1Evidence * D1State :=
  let '(measured, s') := measure_device mac now s in (fire_all s' (Some mac) mac now measured, s').

Definition evaluate_destination (destination : IPv4.t) (now : Z) (s : D1State) : list D1Evidence * D1State :=
  let '(measured, s') := measure_destination destination now s in
  (fire_all s' None (IPv4.to_string destination) now measured, s').

(** The device behind every failure, when it is one known device. *)
Definition culprit (macs : list (option Mac.t)) : option Mac.t := match dedup macs with [m] => m | _ => None end.

Definition fire_account (s : D1State) (now window : Z) (p : string * list (Z * option Mac.t)) : option D1Evidence :=
  let recent := (filter (λ q : Z * option Mac.t, in_window window now q.1 = true) p.2).*2 in
  _fire s (mk_tkey PORTAL_AUTH_FAILURES S_ACCOUNT window) (float_of_Z (Z.of_nat (length recent))) (culprit recent)
    ("account=" +:+ p.1) now.

Definition evaluate_global (s : D1State) (now : Z) : list D1Evidence :=
  fire_all s None "lan" now (measure_global s now) ++
  mjoin ((λ w, omap (fire_account s now w) (d1_accounts s)) <$> d1_windows s).

(** ** Bounded state *)

Lemma deque_append_le {A} max (d : list A) x : 0 ≤ max → Z.of_nat (length (deque_append max d x)) ≤ max.
Proof. intros Hm. unfold deque_append. rewrite length_drop. lia. Qed.

Lemma deque_append_last {A} max (d : list A) x : 0 < max → last (deque_append max d x) = Some x.
Proof.
  intros Hm. unfold deque_append. rewrite drop_app_le; [by rewrite last_snoc|]. rewrite length_app. simpl. lia.
Qed.

Section Tables.
Context {K V : Type} `{EqDecision K} (max : Z) (P : V → Prop).

(** A table of at most [max] keys whose values satisfy [P]. *)
Definition table_ok (d : list (K * V)) : Prop :=
  dwf d ∧ Z.of_nat (length d) ≤ max ∧ ∀ k v, dget d k = Some v → P v.

Lemma table_ok_nil : 0 ≤ max → table_ok [].
Proof. intros Hm. split; [auto with pirewall|]. split; [exact Hm|done]. Qed.

Lemma dset_known_ok d k v : table_ok d → is_Some (dget d k) → P v → table_ok (dset d k v).
Proof.
  intros (Hwf & Hl & Hp) Hk%dget_is_Some Hv. split; [auto with pirewall|]. split.
  - by rewrite dset_length, decide_True.
  - intros k' v'. rewrite dget_set. case_decide; [intros [= <-]; done|apply Hp].
Qed.

Lemma dmodify_ok d k f : table_ok d → (∀ v, P v → P (f v)) → table_ok (dmodify d k f).
Proof.
  intros Hd Hf. unfold dmodify. destruct (dget d k) as [v|] eqn:Hk; [|done].
  apply dset_known_ok; [done|by eexists|]. apply Hf. by apply Hd in Hk.
Qed.

Lemma lru_touch_ok d k fresh : 0 < max → table_ok d → P fresh → table_ok (lru_touch max d k fresh).1.
Proof.
  intros Hm (Hwf & Hl & Hp) Hf. unfold lru_touch. destruct (dmem d k) eqn:Hk; cbn [fst].
  - split; [auto with pirewall|]. split; [by rewrite dmove_length|]. intros k' v. rewrite dget_move_to_end. apply Hp.
  - assert (Hk' : ¬ k ∈ dkeys d) by (intros Hin%dget_is_Some%dmem_true; congruence).
    assert (Hget : ∀ k' v, dget (dset d k fresh) k' = Some v → P v).
    { intros k' v. rewrite dget_set. case_decide; [intros [= <-]; done|apply Hp]. }
    destruct (max <? _) eqn:Hlt; cbn [fst]; bool_prop; (split; [unfold dpopitem_first; auto with pirewall|]).
    + split; [|intros k' v Hv; apply (Hget k')].
      * pose proof (dset_length d k fresh) as Hset. rewrite decide_False in Hset by done.
        unfold dpopitem_first. destruct (dset d k fresh); simpl in *; lia.
      * unfold dpopitem_first in Hv. destruct (dset d k fresh) as [|[k0 v0] d'] eqn:Hd; [done|]. cbn in *.
        rewrite decide_False; [done|]. intros ->.
        assert (Hnd : dwf ((k', v0) :: d')) by (rewrite <- Hd; auto with pirewall).
        unfold dwf in Hnd. cbn in Hnd. apply NoDup_cons in Hnd as [Hn _]. apply Hn, dget_is_Some. by exists v.
    + split; [done|exact Hget].
Qed.

(** The touched key is in the table afterwards. *)
Lemma lru_touch_get (d : list (K * V)) (k : K) fresh : 0 < max → dwf d → Z.of_nat (length d) ≤ max →
  dget (lru_touch max d k fresh).1 k = Some (default fresh (dget d k)).
Proof.
  intros Hm Hwf Hl. unfold lru_touch, dmem. destruct (dget d k) as [v|] eqn:Hk; cbn [fst default].
  - by rewrite dget_move_to_end.
  - destruct (max <? _) eqn:Hlt; cbn [fst]; [|apply dget_set_eq].
    rewrite dset_fresh by by apply dget_None. unfold dpopitem_first. destruct d as [|[k0 v0] d]; [cbn in Hlt; bool_prop; lia|]. cbn [app tail].
    cbn in Hk. case_decide; [done|]. rewrite dget_app, Hk. cbn. by rewrite decide_True.
Qed.
End Tables.

(** What the detection thread does to the state. *)
Inductive d1_op :=
| Start (start : ConnectionStart)
| Slow (mac : option string) (source_ip destination_ip : IPv4.t) (n at_ : Z)
| Leases (bindings : list Binding) (at_ : Z)
| PortalFailure (account : string) (mac : option string) (at_ : Z)
| EvaluateDevice (mac : Mac.t) (now : Z)
| EvaluateDestination (destination : IPv4.t) (now : Z)
| Reload (t : D1ThresholdFile).

Definition d1_do (s : D1State) (op : d1_op) : D1State :=
  match op with
  | Start start => d1_observe start s
  | Slow mac src dst n at_ => observe_slow_cluster mac src dst n at_ s
  | Leases bs at_ => observe_bindings bs at_ s
  | PortalFailure account mac at_ => observe_portal_failure account mac at_ s
  | EvaluateDevice mac now => (evaluate_device mac now s).2
  | EvaluateDestination d now => (evaluate_destination d now s).2
  | Reload t => replace_thresholds t s
  end.

Definition device_ok (c : D1Config) (v : Device) : Prop :=
  Z.of_nat (length (dv_events v)) ≤ d1c_max_events_per_mac c ∧ dwf (dv_slow v) ∧
  Z.of_nat (length (dv_slow v)) ≤ d1c_max_tracked_destinations c.

Definition short {A} (max : Z) (q : list A) : Prop := Z.of_nat (length q) ≤ max.

Record d1_inv (c : D1Config) (s : D1State) : Prop := {
  i_config : d1_config s = c;
  i_devices : table_ok (d1c_max_tracked_macs c) (device_ok c) (d1_devices s);
  i_destinations : table_ok (d1c_max_tracked_destinations c) (short (d1c_max_events_per_mac c)) (d1_destinations s);
  i_known_macs : table_ok (d1c_max_known_macs c) (λ _, True) (d1_known_macs s);
  i_known_leases : table_ok (d1c_max_known_macs c) (λ _, True) (d1_known_leases s);
  i_accounts : table_ok (d1c_max_tracked_accounts c) (short (d1c_max_events_per_mac c)) (d1_accounts s);
  i_new_macs : short (d1c_max_events_per_mac c) (d1_new_macs s);
  i_new_leases : short (d1c_max_events_per_mac c) (d1_new_leases s);
  i_portal_failures : short (d1c_max_events_per_mac c) (d1_portal_failures s);
}.

Lemma count_if_inv c b f s : d1_inv c s → d1_inv c (count_if b f s).
Proof. unfold count_if. destruct b; [|done]. by intros []. Qed.

Section Invariant.
Context (c : D1Config) (Hc : d1_config_wf c).

Lemma max_events_pos : 0 < d1c_max_events_per_mac c.
Proof. apply Hc. Qed.

Lemma new_d1_inv t ports : d1_inv c (new_d1 c t ports).
Proof.
  destruct Hc as (? & ? & ? & ? & ? & ? & _).
  split; cbn; try done; try (apply table_ok_nil; lia); unfold short; cbn; lia.
Qed.

Lemma device_inv mac ip s : d1_inv c s → d1_inv c (_device mac ip s).
Proof.
  intros Hs. unfold _device. pose proof (i_config _ _ Hs) as Hcfg. rewrite Hcfg.
  assert (Hok : table_ok (d1c_max_tracked_macs c) (device_ok c)
    (lru_touch (d1c_max_tracked_macs c) (d1_devices s) mac (mk_device ip [] [])).1).
  { apply lru_touch_ok; [apply Hc|apply Hs|]. destruct Hc as (? & ? & ? & _). split; [cbn; lia|]. split; [auto with pirewall|cbn; lia]. }
  destruct (lru_touch _ _ _ _) as [d ev]. apply count_if_inv. destruct Hs. split; cbn; try done.
  apply dmodify_ok; [exact Hok|]. intros v Hv. exact Hv.
Qed.

Lemma append_event_inv start s : d1_inv c s → d1_inv c (append_event start s).
Proof.
  intros Hs. unfold append_event. pose proof (i_config _ _ Hs) as Hcfg. rewrite Hcfg. apply count_if_inv.
  destruct Hs. split; cbn; try done. apply dmodify_ok; [done|]. intros v (_ & H). split; [|exact H].
  apply deque_append_le. pose proof max_events_pos. lia.
Qed.

Lemma note_mac_inv mac at_ s : d1_inv c s → d1_inv c (_note_mac mac at_ s).
Proof.
  intros Hs. unfold _note_mac. pose proof (i_config _ _ Hs) as Hcfg. rewrite Hcfg.
  assert (Hok : table_ok (d1c_max_known_macs c) (λ _, True) (lru_touch (d1c_max_known_macs c) (d1_known_macs s) mac tt).1).
  { apply lru_touch_ok; [apply Hc|apply Hs|done]. }
  destruct (lru_touch _ _ _ _) as [d ev]. destruct (dmem _ _); [|apply count_if_inv]; destruct Hs; split; cbn; try done.
  apply deque_append_le. pose proof max_events_pos. lia.
Qed.

Lemma arrival_inv start s : d1_inv c s → d1_inv c (arrival start s).
Proof.
  intros Hs. unfold arrival. pose proof (i_config _ _ Hs) as Hcfg. rewrite Hcfg. pose proof max_events_pos as Hpos.
  assert (Hok : table_ok (d1c_max_tracked_destinations c) (short (d1c_max_events_per_mac c))
    (lru_touch (d1c_max_tracked_destinations c) (d1_destinations s) (cs_destination_ip start) []).1).
  { apply lru_touch_ok; [apply Hc|apply Hs|unfold short; cbn; lia]. }
  destruct (lru_touch _ _ _ _) as [d ev]. apply count_if_inv. destruct Hs. split; cbn; try done.
  apply dmodify_ok; [exact Hok|]. intros q _. apply deque_append_le. lia.
Qed.

Lemma note_slow_ok slow dst n at_ : let max := d1c_max_tracked_destinations c in
  dwf slow → Z.of_nat (length slow) ≤ max →
  dwf (note_slow max slow dst n at_).1 ∧ Z.of_nat (length (note_slow max slow dst n at_).1) ≤ max.
Proof.
  intros max Hwf Hl. unfold note_slow. pose proof (dset_length slow dst (n, at_)) as Hset.
  destruct (max <? _) eqn:Hlt; bool_prop; [|split; [cbn; auto with pirewall|done]].
  destruct (py_min _ _) as [[o x]|] eqn:Hmin; cbn [fst].
  - apply py_min_spec in Hmin as [Hin _]. split; [auto with pirewall|].
    assert (Hlen : (length (dpop (dset slow dst (n, at_)) o) < length (dset slow dst (n, at_)))%nat).
    { rewrite <- (length_fmap fst (dpop _ _)), <- (length_fmap fst (dset _ _ _)). fold (dkeys (dpop (dset slow dst (n, at_)) o)) (dkeys (dset slow dst (n, at_))).
      rewrite dkeys_pop. assert (Ho : o ∈ dkeys (dset slow dst (n, at_))) by (apply list_elem_of_fmap; by exists (o, x)).
      clear -Ho. induction (dkeys _) as [|y l IH]; [set_solver|]. rewrite filter_cons. case_decide.
      - simpl. apply elem_of_cons in Ho as [->|Ho]; [done|]. specialize (IH Ho). lia.
      - simpl. pose proof (length_filter (λ k', k' ≠ o) l). lia. }
    case_decide; lia.
  - exfalso. unfold py_min in Hmin. destruct (dset slow dst (n, at_)) eqn:Hd; [|done]. cbn in Hlt. destruct Hc as (_ & ? & _). lia.
Qed.

Lemma slow_inv mac src dst n at_ s : d1_inv c s → d1_inv c (observe_slow_cluster mac src dst n at_ s).
Proof.
  intros Hs. unfold observe_slow_cluster. destruct (unicast_mac mac) as [m|]; [|done].
  pose proof (device_inv m src s Hs) as Hs1. pose proof (i_config _ _ Hs) as Hcfg. rewrite Hcfg.
  destruct (dget (d1_devices (_device m src s)) m) as [v|] eqn:Hv; [|done].
  destruct (proj2 (proj2 (i_devices _ _ Hs1)) _ _ Hv) as (He & Hwf & Hl).
  pose proof (note_slow_ok (dv_slow v) dst n at_ Hwf Hl) as Hok. destruct (note_slow _ _ _ _ _) as [slow ev]. cbn in Hok.
  apply count_if_inv. destruct Hs1. split; cbn; try done. apply dset_known_ok; [done|by eexists|]. by split.
Qed.

Lemma bindings_inv bs at_ s : d1_inv c s → d1_inv c (observe_bindings bs at_ s).
Proof.
  intros Hs. assert (Hf : d1_inv c (foldl (note_binding at_) s bs)).
  { revert s Hs. induction bs as [|b bs IH]; intros s Hs; [done|]. cbn. apply IH. unfold note_binding.
    pose proof (i_config _ _ Hs) as Hcfg. rewrite Hcfg.
    pose proof (lru_touch_ok (d1c_max_known_macs c) (λ _, True) (d1_known_leases s) (b_ip b, b_mac b) tt) as Hok.
    destruct Hs. split; cbn; try done; [apply Hok; [apply Hc|done|done]|].
    case_match; [|done]. apply deque_append_le. pose proof max_events_pos. lia. }
  unfold observe_bindings. destruct Hf. by split.
Qed.

Lemma portal_failure_inv account mac at_ s : d1_inv c s → d1_inv c (observe_portal_failure account mac at_ s).
Proof.
  intros Hs. unfold observe_portal_failure. pose proof (i_config _ _ Hs) as Hcfg. rewrite Hcfg. pose proof max_events_pos as Hpos.
  assert (Hok : table_ok (d1c_max_tracked_accounts c) (short (d1c_max_events_per_mac c))
    (lru_touch (d1c_max_tracked_accounts c) (d1_accounts s) account []).1).
  { apply lru_touch_ok; [apply Hc|apply Hs|unfold short; cbn; lia]. }
  destruct (lru_touch _ _ _ _) as [d ev]. apply count_if_inv. destruct Hs. split; cbn; try done.
  - apply dmodify_ok; [exact Hok|]. intros q _. apply deque_append_le. lia.
  - apply deque_append_le. lia.
Qed.

Lemma popleft_length {A} stale (l : list A) : (length (popleft_while stale l) ≤ length l)%nat.
Proof. induction l as [|x l IH]; [done|]. simpl. destruct (stale x); simpl; lia. Qed.

Lemma measure_device_inv mac now s : d1_inv c s → d1_inv c (measure_device mac now s).2.
Proof.
  intros Hs. unfold measure_device. destruct (dget (d1_devices s) mac) as [v|] eqn:Hv; [|done]. cbn.
  destruct (proj2 (proj2 (i_devices _ _ Hs)) _ _ Hv) as (He & Hrest).
  destruct Hs. split; cbn; try done. apply dset_known_ok; [done|by eexists|]. split; [|exact Hrest]. cbn.
  pose proof (popleft_length (λ e, cs_at e <? now - d1_horizon s) (dv_events v)). unfold _prune. lia.
Qed.

Lemma measure_destination_inv d now s : d1_inv c s → d1_inv c (measure_destination d now s).2.
Proof.
  intros Hs. unfold measure_destination. destruct (dget (d1_destinations s) d) as [q|] eqn:Hq; [|done]. cbn.
  pose proof (proj2 (proj2 (i_destinations _ _ Hs)) _ _ Hq) as Hl.
  destruct Hs. split; cbn; try done. apply dset_known_ok; [done|by eexists|]. unfold short in *.
  pose proof (popleft_length (λ p : Z * Mac.t, p.1 <? now - d1_horizon s) q). lia.
Qed.

Lemma d1_do_inv op s : d1_inv c s → d1_inv c (d1_do s op).
Proof.
  destruct op; cbn [d1_do]; intros Hs.
  - unfold d1_observe. auto using arrival_inv, note_mac_inv, append_event_inv, device_inv.
  - by apply slow_inv.
  - by apply bindings_inv.
  - by apply portal_failure_inv.
  - unfold evaluate_device. pose proof (measure_device_inv mac now s Hs). by destruct (measure_device mac now s).
  - unfold evaluate_destination. pose proof (measure_destination_inv destination now s Hs). by destruct (measure_destination destination now s).
  - destruct Hs. by split.
Qed.

Lemma d1_run_inv ops : ∀ s, d1_inv c s → d1_inv c (foldl d1_do s ops).
Proof. induction ops as [|op ops IH]; intros s Hs; [done|]. cbn. by apply IH, d1_do_inv. Qed.
End Invariant.

Lemma count_if_devices b f s : d1_devices (count_if b f s) = d1_devices s.
Proof. by destruct b. Qed.

Lemma dget_modify {K V} `{EqDecision K} (d : list (K * V)) k f v : dget d k = Some v → dget (dmodify d k f) k = Some (f v).
Proof. intros Hk. unfold dmodify. rewrite Hk. apply dget_set_eq. Qed.

(** The device of an observed start is tracked, and the start is its newest
    event. *)
Lemma observe_tracks c start s : d1_config_wf c → d1_inv c s → ∃ v,
  dget (d1_devices (d1_observe start s)) (cs_mac start) = Some v ∧ dv_last_ip v = cs_source_ip start ∧
  last (dv_events v) = Some start.
Proof.
  intros Hc Hs. pose proof (i_config _ _ Hs) as Hcfg. unfold d1_observe.
  assert (Hkeep : ∀ s', d1_devices (arrival start (_note_mac (cs_mac start) (cs_at start) s')) = d1_devices s').
  { intros s'. unfold arrival, _note_mac. destruct (lru_touch _ (d1_known_macs s') _ _) as [d ev].
    destruct (dmem _ _); destruct (lru_touch _ _ _ _) as [d' ev']; by rewrite ?count_if_devices; cbn; rewrite ?count_if_devices. }
  rewrite Hkeep. unfold append_event. rewrite count_if_devices. cbn [d1_devices set_devices].
  destruct (i_devices _ _ Hs) as (Hwf & Hl & _).
  pose proof (lru_touch_get (d1c_max_tracked_macs c) (d1_devices s) (cs_mac start) (mk_device (cs_source_ip start) [] [])
    ltac:(apply Hc) Hwf Hl) as Hget. rewrite <- Hcfg in Hget.
  assert (Hd : ∃ v, dget (d1_devices (_device (cs_mac start) (cs_source_ip start) s)) (cs_mac start) = Some v ∧
                    dv_last_ip v = cs_source_ip start).
  { unfold _device. destruct (lru_touch _ _ _ _) as [d ev]. cbn in Hget. rewrite count_if_devices. cbn [d1_devices set_devices].
    rewrite (dget_modify _ _ _ _ Hget). by eexists. }
  destruct Hd as (v & Hv & Hip). rewrite (dget_modify _ _ _ _ Hv). eexists. split; [done|]. split; [done|].
  cbn. apply deque_append_last.
  assert (Hcfg1 : d1_config (_device (cs_mac start) (cs_source_ip start) s) = c) by (eapply i_config, device_inv; done).
  rewrite Hcfg1. apply Hc.
Qed.

(** D1's memory is bounded whatever the network does: after any sequence
    of connection starts, slow clusters, lease tables, portal failures,
    evaluations and threshold reloads, every table is within its configured
    size and every queue within its length, and yet the device of the latest
    start is tracked, with that start as its newest event. *)
Theorem d1_state_bounded c t ports ops start : d1_config_wf c →
  let s := foldl d1_do (new_d1 c t ports) ops in
  let s' := d1_observe start s in
  (Z.of_nat (length (d1_devices s)) ≤ d1c_max_tracked_macs c ∧
   Z.of_nat (length (d1_destinations s)) ≤ d1c_max_tracked_destinations c ∧
   Z.of_nat (length (d1_known_macs s)) ≤ d1c_max_known_macs c ∧ Z.of_nat (length (d1_known_leases s)) ≤ d1c_max_known_macs c ∧
   Z.of_nat (length (d1_accounts s)) ≤ d1c_max_tracked_accounts c ∧
   Z.of_nat (length (d1_new_macs s)) ≤ d1c_max_events_per_mac c ∧ Z.of_nat (length (d1_new_leases s)) ≤ d1c_max_events_per_mac c ∧
   Z.of_nat (length (d1_portal_failures s)) ≤ d1c_max_events_per_mac c ∧
   (∀ mac v, dget (d1_devices s) mac = Some v → Z.of_nat (length (dv_events v)) ≤ d1c_max_events_per_mac c ∧
      Z.of_nat (length (dv_slow v)) ≤ d1c_max_tracked_destinations c) ∧
   (∀ d q, dget (d1_destinations s) d = Some q → Z.of_nat (length q) ≤ d1c_max_events_per_mac c) ∧
   ∀ a q, dget (d1_accounts s) a = Some q → Z.of_nat (length q) ≤ d1c_max_events_per_mac c) ∧
  ∃ v, dget (d1_devices s') (cs_mac start) = Some v ∧ last_ip s' (cs_mac start) = Some (cs_source_ip start) ∧
       last (dv_events v) = Some start.
Proof.
  intros Hc s s'. pose proof (d1_run_inv c Hc ops _ (new_d1_inv c Hc t ports)) as Hs. fold s in Hs. split.
  - destruct Hs as [_ (_ & ? & Hd) (_ & ? & Hq) (_ & ? & _) (_ & ? & _) (_ & ? & Ha) ? ? ?]. unfold short in *.
    split_and!; try done. intros mac v Hv. by destruct (Hd _ _ Hv) as (? & _ & ?).
  - destruct (observe_tracks c start s Hc Hs) as (v & Hv & Hip & Hl). exists v. split; [done|]. split; [|done].
    unfold last_ip. fold s' in Hv. rewrite Hv. cbn. by rewrite Hip.
Qed.

(** ** Exact measurement *)

Lemma dedup_snoc {A} `{EqDecision A} (l : list A) x : dedup (l ++ [x]) = set_add (dedup l) x.
Proof.
  unfold set_add. induction l as [|y l IH]; [done|]. cbn [app dedup]. rewrite IH.
  destruct (inb x (dedup l)) eqn:Hx.
  - apply inb_true in Hx. replace (inb x (y :: _)) with true; [done|]. symmetry. apply inb_true.
    rewrite elem_of_cons, list_elem_of_filter. destruct (decide (x = y)); [by left|by right].
  - apply inb_false in Hx. rewrite filter_app, filter_cons, filter_nil. case_decide as Hxy.
    + replace (inb x (y :: _)) with false; [done|]. symmetry. apply inb_false. rewrite elem_of_cons, list_elem_of_filter. tauto.
    + assert (x = y) as -> by (destruct (decide (x = y)); tauto). replace (inb y (y :: _)) with true; [by rewrite app_nil_r|].
      symmetry. apply inb_true. set_solver.
Qed.

Section Grouped.
Context {X K V : Type} `{EqDecision K} (key : X → K) (add : list V → X → list V) (gather : K → list X → list V).
Context (gather_nil : ∀ g, gather g [] = []).
Context (gather_snoc : ∀ g xs x, gather g (xs ++ [x]) = if decide (key x = g) then add (gather g xs) x else gather g xs).

Lemma dget_fmap_key {B} (f : K → B) (l : list K) g : NoDup l → dget ((λ k, (k, f k)) <$> l) g = if decide (g ∈ l) then Some (f g) else None.
Proof.
  induction l as [|k l IH]; intros Hnd; [done|]. apply NoDup_cons in Hnd as [Hn Hnd]. cbn. rewrite (IH Hnd).
  destruct (decide (g = k)) as [->|Hg]; [rewrite !decide_True by set_solver; done|].
  destruct (decide (g ∈ l)); [rewrite (decide_True (P := g ∈ k :: l)) by set_solver|rewrite (decide_False (P := g ∈ k :: l)) by set_solver];
    repeat case_decide; congruence.
Qed.

Lemma dset_fmap_key {B} (f : K → B) (l : list K) g b : NoDup l →
  dset ((λ k, (k, f k)) <$> l) g b =
  (λ k, (k, if decide (k = g) then b else f k)) <$> (if decide (g ∈ l) then l else l ++ [g]).
Proof.
  induction l as [|k l IH]; intros Hnd.
  { rewrite (decide_False (P := g ∈ [])) by set_solver. cbn. by rewrite decide_True. }
  apply NoDup_cons in Hnd as [Hn Hnd]. cbn [fmap list_fmap dset]. destruct (decide (g = k)) as [->|Hg].
  - rewrite (decide_True (P := k ∈ k :: l)) by set_solver. cbn. rewrite !decide_True by done. f_equal.
    apply list_fmap_ext. intros i k' Hk%list_elem_of_lookup_2. rewrite decide_False; [done|]. by intros ->.
  - rewrite decide_False by done. rewrite (IH Hnd).
    destruct (decide (g ∈ l)); [rewrite (decide_True (P := g ∈ k :: l)) by set_solver|rewrite (decide_False (P := g ∈ k :: l)) by set_solver];
      cbn; by rewrite (decide_False (P := k = g)).
Qed.

Lemma gather_out g xs : g ∉ key <$> xs → gather g xs = [].
Proof.
  induction xs as [|x xs IH] using rev_ind; [done|]. rewrite fmap_app, not_elem_of_app, gather_snoc. intros [Hn Hx].
  rewrite decide_False; [by apply IH|]. intros <-. apply Hx. cbn. set_solver.
Qed.

(** A dictionary of lists filled in one pass holds, for every key that occurs,
    what was gathered for it. *)
Lemma grouped xs :
  foldl (λ acc x, let acc' := dsetdefault acc (key x) [] in dmodify acc' (key x) (λ b, add b x)) [] xs =
  (λ g, (g, gather g xs)) <$> dedup (key <$> xs).
Proof.
  induction xs as [|x xs IH] using rev_ind; [done|]. rewrite foldl_snoc, IH. clear IH.
  rewrite fmap_app. cbn [fmap list_fmap]. rewrite dedup_snoc. set (gs := dedup (key <$> xs)).
  assert (Hnd : NoDup gs) by apply NoDup_dedup. unfold dsetdefault, set_add.
  rewrite (dget_fmap_key (λ g, gather g xs) gs _ Hnd).
  assert (Hout : key x ∉ gs → gather (key x) xs = []) by (unfold gs; rewrite elem_of_dedup; apply gather_out).
  assert (Hfin : ∀ l : list K, (λ k, (k, if decide (k = key x) then add (gather (key x) xs) x else gather k xs)) <$> l =
                      (λ g, (g, gather g (xs ++ [x]))) <$> l).
  { intros l. apply list_fmap_ext. intros i k _. rewrite gather_snoc. f_equal.
    destruct (decide (k = key x)) as [->|Hne]; [by rewrite decide_True|by rewrite decide_False]. }
  destruct (decide (key x ∈ gs)) as [Hin|Hn].
  - rewrite (proj2 (inb_true _ _) Hin). unfold dmodify. rewrite (dget_fmap_key (λ g, gather g xs) gs _ Hnd), decide_True by done.
    rewrite dset_fmap_key, decide_True by done. apply Hfin.
  - rewrite (proj2 (inb_false _ _) Hn). unfold dmodify. rewrite dset_fmap_key, decide_False by done.
    rewrite <- (Hfin (gs ++ [key x])).
    assert (Hnd' : NoDup (gs ++ [key x])).
    { apply NoDup_app. split; [done|]. split; [set_solver|apply NoDup_singleton]. }
    rewrite (dget_fmap_key (λ k, if decide (k = key x) then [] else gather k xs)), decide_True by (done || set_solver).
    rewrite (dset_fmap_key (λ k, if decide (k = key x) then [] else gather k xs)), (decide_True (P := key x ∈ _)) by (done || set_solver).
    rewrite (decide_True (P := key x = key x)) by done. apply list_fmap_ext. intros i k _. f_equal.
    destruct (decide (k = key x)); [by rewrite (Hout Hn)|done].
Qed.
End Grouped.

Section DistinctSpec.
Context {K V : Type} `{EqDecision K} `{EqDecision V} (group : ConnectionStart → K) (member : ConnectionStart → V).

(** The distinct members of one group, and the size of the largest group. *)
Definition members (g : K) (events : list ConnectionStart) : list V :=
  dedup (member <$> filter (λ e, group e = g) events).
Definition max_distinct_spec (events : list ConnectionStart) : Z :=
  foldr Z.max 0 ((λ g, Z.of_nat (length (members g events))) <$> dedup (group <$> events)).

Lemma members_snoc g events e :
  members g (events ++ [e]) = if decide (group e = g) then set_add (members g events) (member e) else members g events.
Proof.
  unfold members. rewrite filter_app, fmap_app, filter_cons, filter_nil. case_decide; cbn; [apply dedup_snoc|by rewrite app_nil_r].
Qed.

(** The dictionary of sets the detector builds is the grouping itself. *)
Lemma buckets_spec events : buckets group member events = (λ g, (g, members g events)) <$> dedup (group <$> events).
Proof.
  apply (grouped group (λ b e, set_add b (member e)) members); [done|]. intros g xs x. apply members_snoc.
Qed.

Lemma py_max_foldr l : Forall (λ n, 0 ≤ n) l → py_max 0 l = foldr Z.max 0 l.
Proof.
  destruct l as [|x l]; [done|]. cbn. intros [Hx Hl]%Forall_cons.
  revert x Hx. induction Hl as [|y l Hy Hl IH]; intros x Hx; [cbn; lia|]. cbn. rewrite IH by lia. lia.
Qed.

Lemma max_distinct_exact events : _max_distinct group member events = float_of_Z (max_distinct_spec events).
Proof.
  unfold _max_distinct, max_distinct_spec. rewrite buckets_spec. unfold dvalues. rewrite <- !list_fmap_compose.
  rewrite py_max_foldr; [done|]. apply Forall_fmap, Forall_forall. intros g _. cbn. lia.
Qed.

Lemma foldr_max_nonneg l : 0 ≤ foldr Z.max 0 l.
Proof. induction l; cbn; lia. Qed.
Lemma foldr_max_ge l n : n ∈ l → n ≤ foldr Z.max 0 l.
Proof. induction l as [|x l IH]; [set_solver|]. cbn. intros [->|Hn]%elem_of_cons; [lia|]. specialize (IH Hn). lia. Qed.

Lemma foldr_max_le l m : 0 ≤ m → (∀ n, n ∈ l → n ≤ m) → foldr Z.max 0 l ≤ m.
Proof. intros Hm. induction l as [|x l IH]; intros Hl; [done|]. cbn. specialize (IH ltac:(set_solver)). pose proof (Hl x ltac:(set_solver)). lia. Qed.

(** More pairs of a group and a member, larger groups. *)
Lemma max_distinct_mono es es' :
  (∀ e, e ∈ es → ∃ e', e' ∈ es' ∧ group e' = group e ∧ member e' = member e) → max_distinct_spec es ≤ max_distinct_spec es'.
Proof.
  intros Hsub. unfold max_distinct_spec at 1. apply foldr_max_le; [unfold max_distinct_spec; clear; induction (_ <$> _); cbn; lia|].
  intros n Hn. apply list_elem_of_fmap in Hn as (g & -> & Hg). rewrite elem_of_dedup in Hg.
  transitivity (Z.of_nat (length (members g es'))).
  - assert (Hlen : members g es ⊆+ members g es').
    { apply NoDup_submseteq; [apply NoDup_dedup|]. intros v. unfold members. rewrite !elem_of_dedup.
      intros (e & -> & [Hge He]%list_elem_of_filter)%list_elem_of_fmap. destruct (Hsub e He) as (e' & He' & Hg' & Hm').
      apply list_elem_of_fmap. exists e'. split; [done|]. apply list_elem_of_filter. split; [congruence|done]. }
    apply submseteq_length in Hlen. lia.
  - apply foldr_max_ge. apply list_elem_of_fmap in Hg as (e & -> & He). destruct (Hsub e He) as (e' & He' & Hg' & _).
    apply list_elem_of_fmap. exists (group e). split; [done|]. rewrite elem_of_dedup, <- Hg'. by apply list_elem_of_fmap_2.
Qed.
End DistinctSpec.

Lemma popleft_filter {A} (stale : A → bool) (P : A → Prop) `{!∀ x, Decision (P x)} l :
  (∀ x, stale x = true → ¬ P x) → filter P (popleft_while stale l) = filter P l.
Proof.
  intros Hs. induction l as [|x l IH]; [done|]. simpl. destruct (stale x) eqn:Hx; [|done].
  by rewrite IH, filter_cons, decide_False by auto.
Qed.

(** The retention horizon covers every window. *)
Definition covers (s : D1State) : Prop := ∀ w, w ∈ d1_windows s → seconds w ≤ d1_horizon s.

Lemma py_max_ge d l x : x ∈ l → x ≤ py_max d l.
Proof.
  destruct l as [|y l]; [set_solver|]. cbn. assert (Hf : ∀ l y, y ≤ foldl Z.max y l ∧ ∀ x, x ∈ l → x ≤ foldl Z.max y l).
  { clear. induction l as [|z l IH]; intros y; [split; [done|set_solver]|]. cbn. destruct (IH (Z.max y z)) as [H1 H2].
    split; [lia|]. intros x [->|Hx]%elem_of_cons; [lia|auto]. }
  destruct (Hf l y) as [H1 H2]. intros [->|Hx]%elem_of_cons; auto.
Qed.

Lemma new_d1_covers c t ports : covers (new_d1 c t ports).
Proof. intros w Hw. cbn in *. pose proof (py_max_ge 0 _ _ Hw). unfold seconds, us_per_second. lia. Qed.

Definition same_setup (s s' : D1State) : Prop :=
  d1_windows s' = d1_windows s ∧ d1_horizon s' = d1_horizon s ∧ d1_brute_ports s' = d1_brute_ports s ∧ d1_config s' = d1_config s.

#[global] Instance same_setup_preorder : PreOrder same_setup.
Proof. unfold same_setup. split; [done|]. intros s1 s2 s3 (-> & -> & -> & ->) (-> & -> & -> & ->). done. Qed.

Lemma count_if_setup b f s : same_setup s (count_if b f s).
Proof. by destruct b. Qed.

Lemma d1_do_setup op s : same_setup s (d1_do s op).
Proof.
  destruct op as [start|mac src dst n at_|bs at_|account mac at_|mac now|d now|t]; cbn [d1_do].
  - unfold d1_observe. transitivity (_device (cs_mac start) (cs_source_ip start) s).
    { unfold _device. destruct (lru_touch _ _ _ _). etransitivity; [|apply count_if_setup]. done. }
    set (s1 := _device _ _ s). transitivity (append_event start s1).
    { unfold append_event. etransitivity; [|apply count_if_setup]. done. }
    set (s2 := append_event _ _). transitivity (_note_mac (cs_mac start) (cs_at start) s2).
    { unfold _note_mac. destruct (lru_touch _ _ _ _). destruct (dmem _ _); [done|]. etransitivity; [|apply count_if_setup]. done. }
    unfold arrival. destruct (lru_touch _ _ _ _). etransitivity; [|apply count_if_setup]. done.
  - unfold observe_slow_cluster. destruct (unicast_mac mac) as [m|]; [|done]. transitivity (_device m src s).
    { unfold _device. destruct (lru_touch _ _ _ _). etransitivity; [|apply count_if_setup]. done. }
    destruct (dget _ _); [|done]. destruct (note_slow _ _ _ _ _). etransitivity; [|apply count_if_setup]. done.
  - unfold observe_bindings. transitivity (foldl (note_binding at_) s bs); [|done].
    revert s. induction bs as [|b bs IH]; intros s; [done|]. cbn. etransitivity; [|apply IH]. done.
  - unfold observe_portal_failure. destruct (lru_touch _ _ _ _). etransitivity; [|apply count_if_setup]. done.
  - unfold evaluate_device, measure_device. by destruct (dget _ _).
  - unfold evaluate_destination, measure_destination. by destruct (dget _ _).
  - done.
Qed.

Lemma d1_run_covers c t ports ops : covers (foldl d1_do (new_d1 c t ports) ops).
Proof.
  enough (Hs : same_setup (new_d1 c t ports) (foldl d1_do (new_d1 c t ports) ops)).
  { destruct Hs as (Hw & Hh & _). intros w. rewrite Hw, Hh. apply new_d1_covers. }
  generalize (new_d1 c t ports). induction ops as [|op ops IH]; intros s; [done|]. cbn.
  etransitivity; [apply (d1_do_setup op)|apply IH].
Qed.

(** ** The measures, from the definitions of the module's documentation *)

Definition recent (window now at_ : Z) : Prop := now - window * 1000000 ≤ at_ ≤ now.
#[global] Instance recent_dec window now at_ : Decision (recent window now at_) := _.

(** Failed starts over starts, of those that carry an outcome, once there are
    enough of them *)
Definition failures (events : list ConnectionStart) : Z := Z.of_nat (length (filter (λ e, cs_failed e = Some true) events)).
Definition successes (events : list ConnectionStart) : Z := Z.of_nat (length (filter (λ e, cs_failed e = Some false) events)).
Definition failed_spec (min_starts : Z) (events : list ConnectionStart) : option float :=
  let starts := failures events + successes events in
  if decide (min_starts ≤ starts) then Some (fdiv (float_of_Z (failures events)) (float_of_Z starts)) else None.

(** Short starts to one host and one of the brute-force ports, whose handshake
    did not fail; of their sizes, those within the tolerance of the median *)
Definition attempt (ports : list Z) (limit : float) (k : IPv4.t * Z) (e : ConnectionStart) : Prop :=
  cs_destination_ip e = k.1 ∧ cs_destination_port e = Some k.2 ∧ k.2 ∈ ports ∧
  from_option (λ duration, fle duration limit = true) False (cs_duration_seconds e) ∧ cs_failed e ≠ Some true.
#[global] Instance attempt_dec ports limit k e : Decision (attempt ports limit k e).
Proof. unfold attempt. destruct (cs_duration_seconds e); cbn [from_option]; apply _. Defined.
Definition attempt_sizes (ports : list Z) (limit : float) (k : IPv4.t * Z) (events : list ConnectionStart) : list Z :=
  omap cs_byte_count (filter (attempt ports limit k) events).
Definition alike (tolerance : float) (sizes : list Z) : Z :=
  Z.of_nat (length (filter (λ size, fle (SFabs (fsub (float_of_Z size) (median sizes)))
                                       (fmul tolerance (fmax (median sizes) (float_of_Z 1))) = true) sizes)).
Definition endpoints (events : list ConnectionStart) : list (IPv4.t * Z) :=
  omap (λ e, pair (cs_destination_ip e) <$> cs_destination_port e) events.
Definition brute_spec (ports : list Z) (limit tolerance : float) (events : list ConnectionStart) : Z :=
  foldr Z.max 0 ((λ k, alike tolerance (attempt_sizes ports limit k events)) <$> endpoints events).

(** The largest of some counts, 0 when there is none *)
Definition largest (counts : list Z) : Z := match counts with [] => 0 | x :: l => foldr Z.max x l end.
Definition slow_spec (window now : Z) (slow : list (IPv4.t * (Z * Z))) : Z :=
  largest (omap (λ x : IPv4.t * (Z * Z), if decide (recent window now x.2.2) then Some x.2.1 else None) slow).

(** What a window's detectors measure, over every event the device has *)
Definition window_spec (s : D1State) (v : Device) (now window : Z) : list (ThresholdKey * float) :=
  let events := filter (λ e, recent window now (cs_at e)) (dv_events v) in
  let key d := mk_tkey d S_DEVICE window in
  let c := d1_config s in
  [(key VERTICAL_SCAN, float_of_Z (max_distinct_spec cs_destination_ip cs_destination_port events));
   (key HORIZONTAL_SCAN, float_of_Z (max_distinct_spec cs_destination_port cs_destination_ip events));
   (key BRUTE_FORCE, float_of_Z (brute_spec (d1_brute_ports s) (d1c_brute_force_max_duration_seconds c) (d1c_brute_force_size_tolerance c) events));
   (key SLOW_RATE_DOS, float_of_Z (slow_spec window now (dv_slow v)))] ++
  option_list (pair (key FAILED_HANDSHAKE) <$> failed_spec (d1c_failed_handshake_min_starts c) events).

Lemma in_window_recent window now at_ : in_window window now at_ = true ↔ recent window now at_.
Proof. unfold in_window, recent, seconds, us_per_second. rewrite andb_true_iff, !Z.leb_le. done. Qed.

Lemma failed_exact s events : _failed_ratio s events = failed_spec (d1c_failed_handshake_min_starts (d1_config s)) events.
Proof.
  unfold _failed_ratio, failed_spec. cbv zeta.
  assert (Hf : filter (λ e, cs_failed e = Some true) (filter (λ e, has_outcome e = true) events) = filter (λ e, cs_failed e = Some true) events).
  { rewrite list_filter_filter. apply list_filter_iff. intros e. unfold has_outcome. split; [tauto|]. by intros ->. }
  assert (Hn : Z.of_nat (length (filter (λ e, has_outcome e = true) events)) = failures events + successes events).
  { clear. unfold failures, successes. induction events as [|e events IH]; [done|]. rewrite !filter_cons.
    assert (Ho : has_outcome e = true ↔ cs_failed e = Some true ∨ cs_failed e = Some false)
      by (unfold has_outcome; destruct (cs_failed e) as [[]|]; naive_solver).
    repeat case_decide; try (exfalso; naive_solver congruence); cbn [length]; lia. }
  rewrite Hf, Hn. destruct (Z.ltb_spec (failures events + successes events) (d1c_failed_handshake_min_starts (d1_config s)));
    case_decide; lia || done.
Qed.

Lemma foldl_max_foldr l : ∀ x, foldl Z.max x l = foldr Z.max x l.
Proof.
  induction l as [|y l IH]; intros x; [done|]. cbn. rewrite IH. clear IH. induction l as [|z l IH]; cbn; [lia|]. rewrite IH. lia.
Qed.
Lemma slow_exact window now slow : slow_rate window now slow = float_of_Z (slow_spec window now slow).
Proof.
  unfold slow_rate, slow_spec. f_equal.
  assert (Hl : fst <$> filter (λ p : Z * Z, in_window window now p.2 = true) (dvalues slow) =
    omap (λ x : IPv4.t * (Z * Z), if decide (recent window now x.2.2) then Some x.2.1 else None) slow).
  { unfold dvalues. induction slow as [|[d [n at_]] slow IH]; [done|]. cbn [fmap list_fmap omap list_omap snd fst]. rewrite filter_cons.
    pose proof (in_window_recent window now at_) as Hr. repeat case_decide; cbn in *; try tauto. cbn [fmap list_fmap]. by rewrite IH. }
  rewrite Hl. unfold py_max, largest. destruct (omap _ slow) as [|x l]; [done|]. apply foldl_max_foldr.
Qed.

(** The sizes gathered for an endpoint *)
Definition gathered (k : IPv4.t * Z) (l : list ((IPv4.t * Z) * Z)) : list Z := snd <$> filter (λ p, p.1 = k) l.
Lemma gathered_sizes s k events :
  gathered k (omap (brute_size s) events) = attempt_sizes (d1_brute_ports s) (d1c_brute_force_max_duration_seconds (d1_config s)) k events.
Proof.
  unfold gathered, attempt_sizes. induction events as [|e events IH]; [done|]. cbn [omap list_omap]. rewrite (filter_cons _ e).
  unfold brute_size at 1. destruct k as [ip port]. destruct (decide (attempt _ _ (ip, port) e)) as [Ha|Ha].
  - pose proof Ha as (Hip & Hport & Hin & Hd & Hf). cbn [fst snd] in *. cbn [omap list_omap]. rewrite Hport.
    destruct (cs_duration_seconds e) as [d|]; [|done]. cbn in Hd. destruct (cs_byte_count e) as [n|]; [|exact IH].
    rewrite (proj2 (inb_true _ _) Hin), Hd, bool_decide_eq_false_2 by done. cbn [andb negb]. rewrite filter_cons_True by (cbn; congruence).
    cbn. by rewrite IH.
  - destruct (cs_destination_port e) as [p|] eqn:Hp; [|exact IH]. destruct (cs_duration_seconds e) as [d|] eqn:Hd; [|exact IH].
    destruct (cs_byte_count e) as [n|]; [|exact IH]. destruct (_ && _) eqn:Hc; [|exact IH]. apply andb_prop in Hc as [[Hc1 Hc2]%andb_prop Hc3].
    rewrite filter_cons_False; [exact IH|]. cbn. intros Heq. apply Ha. injection Heq as <- <-. apply inb_true in Hc1.
    apply negb_true_iff, bool_decide_eq_false in Hc3. unfold attempt. rewrite Hp, Hd. done.
Qed.

Lemma brute_groups_spec s events :
  brute_groups s events = (λ k, (k, gathered k (omap (brute_size s) events))) <$> dedup (fst <$> omap (brute_size s) events).
Proof.
  unfold brute_groups. apply (grouped (X := (IPv4.t * Z) * Z) fst (λ b p, b ++ [p.2]) gathered); [done|]. intros k xs x. unfold gathered.
  rewrite filter_app, fmap_app, filter_cons, filter_nil. case_decide; cbn; [done|by rewrite app_nil_r].
Qed.

Lemma brute_exact s events : _brute_force s events =
  float_of_Z (brute_spec (d1_brute_ports s) (d1c_brute_force_max_duration_seconds (d1_config s)) (d1c_brute_force_size_tolerance (d1_config s)) events).
Proof.
  unfold _brute_force, brute_spec. f_equal. set (tol := d1c_brute_force_size_tolerance _). set (lim := d1c_brute_force_max_duration_seconds _).
  assert (Hfold : ∀ (l : list (list Z)) x, foldl (λ best sizes, Z.max best (similar tol sizes)) x l = foldl Z.max x (similar tol <$> l)).
  { induction l as [|y l IH]; intros x; [done|]. cbn. apply IH. }
  rewrite Hfold, foldl_max_foldr, brute_groups_spec. unfold dvalues. rewrite <- !list_fmap_compose.
  assert (Hnn : 0 ≤ foldr Z.max 0 ((λ k, alike tol (attempt_sizes (d1_brute_ports s) lim k events)) <$> endpoints events))
    by apply foldr_max_nonneg.
  apply Z.le_antisymm; apply foldr_max_le.
  - exact Hnn.
  - intros n (k & -> & Hk)%list_elem_of_fmap. cbn. rewrite gathered_sizes. rewrite elem_of_dedup in Hk.
    apply list_elem_of_fmap in Hk as ([k' sz] & -> & (e & He & Hb)%list_elem_of_omap). cbn [fst]. apply foldr_max_ge.
    change (similar tol (attempt_sizes (d1_brute_ports s) lim k' events)) with (alike tol (attempt_sizes (d1_brute_ports s) lim k' events)).
    apply (list_elem_of_fmap_2 (λ k, alike tol (attempt_sizes (d1_brute_ports s) lim k events))). apply list_elem_of_omap. exists e. split; [done|].
    unfold brute_size in Hb. destruct (cs_destination_port e) as [p|]; [|done]. destruct (cs_duration_seconds e); [|done].
    destruct (cs_byte_count e); [|done]. destruct (_ && _); [|done]. by injection Hb as <- _.
  - apply foldr_max_nonneg.
  - intros n (k & -> & Hk)%list_elem_of_fmap. destruct (decide (k ∈ fst <$> omap (brute_size s) events)) as [Hin|Hout].
    + apply foldr_max_ge, list_elem_of_fmap. exists k. split; [|by rewrite elem_of_dedup]. cbn. by rewrite gathered_sizes.
    + assert (Hnil : attempt_sizes (d1_brute_ports s) lim k events = []).
      { unfold lim. rewrite <- gathered_sizes. unfold gathered. rewrite filter_none; [done|]. intros x Hx Heq. apply Hout.
        apply list_elem_of_fmap. by exists x. }
      rewrite Hnil. apply (foldr_max_nonneg _).
Qed.

Lemma window_exact s v now w : measure_window s (dv_events v) (dv_slow v) now w = window_spec s v now w.
Proof.
  unfold measure_window, window_spec. cbv zeta.
  rewrite (list_filter_iff _ (λ e, recent w now (cs_at e))) by (intros e; apply in_window_recent).
  rewrite !max_distinct_exact, brute_exact, slow_exact, failed_exact. by destruct (failed_spec _ _).
Qed.

Lemma measure_device_spec s mac now v : covers s → dget (d1_devices s) mac = Some v →
  (measure_device mac now s).1 = mjoin (window_spec s v now <$> d1_windows s).
Proof.
  intros Hcov Hv. unfold measure_device. rewrite Hv. cbn [fst]. f_equal. apply list_fmap_ext.
  intros i w Hw%list_elem_of_lookup_2. specialize (Hcov w Hw). rewrite <- window_exact. unfold measure_window, _prune.
  rewrite popleft_filter; [done|]. intros e He. unfold in_window. bool_prop. intros Hin. bool_prop. lia.
Qed.

(** The same connections, whether a creation-time signal announced them or
    not: the same completed records, and no other destination, port or
    instant. *)
Definition same_contact (e e' : ConnectionStart) : Prop :=
  cs_at e' = cs_at e ∧ cs_destination_ip e' = cs_destination_ip e ∧ cs_destination_port e' = cs_destination_port e.
Definition twins (es es' : list ConnectionStart) : Prop :=
  filter (λ e, has_outcome e = true) es' = filter (λ e, has_outcome e = true) es ∧
  (∀ e', e' ∈ es' → ∃ e, e ∈ es ∧ same_contact e' e) ∧ (∀ e, e ∈ es → ∃ e', e' ∈ es' ∧ same_contact e e').

(** A signal carries no outcome at all, as [start_from_signal] builds it. *)
Definition outcome_wf (e : ConnectionStart) : Prop := has_outcome e = false → cs_duration_seconds e = None.

Lemma brute_size_outcome s es : Forall outcome_wf es →
  omap (brute_size s) es = omap (brute_size s) (filter (λ e, has_outcome e = true) es).
Proof.
  induction 1 as [|e es He Hes IH]; [done|]. rewrite filter_cons. cbn [omap list_omap].
  destruct (decide (has_outcome e = true)) as [Ho|Ho]; [cbn [omap list_omap]; by rewrite IH|].
  apply not_true_is_false in Ho. unfold brute_size at 1. rewrite (He Ho). by destruct (cs_destination_port e), (cs_byte_count e).
Qed.

Lemma filter_comm {A} (P Q : A → Prop) `{!∀ x, Decision (P x), !∀ x, Decision (Q x)} (l : list A) :
  filter P (filter Q l) = filter Q (filter P l).
Proof. rewrite !list_filter_filter. apply list_filter_iff. tauto. Qed.

Lemma twins_window es es' P `{!∀ e, Decision (P e)} :
  (∀ e e', same_contact e e' → P e → P e') → twins es es' → twins (filter P es) (filter P es').
Proof.
  intros HP (Ho & Hl & Hr). split; [by rewrite filter_comm, Ho, filter_comm|]. split.
  - intros e' [Hp He']%list_elem_of_filter. destruct (Hl e' He') as (e & He & Hs). exists e. rewrite list_elem_of_filter. eauto.
  - intros e [Hp He]%list_elem_of_filter. destruct (Hr e He) as (e' & He' & Hs). exists e'. rewrite list_elem_of_filter. eauto.
Qed.

Lemma window_spec_twins s v es' now w : twins (dv_events v) es' → Forall outcome_wf (dv_events v) → Forall outcome_wf es' →
  window_spec s (mk_device (dv_last_ip v) es' (dv_slow v)) now w = window_spec s v now w.
Proof.
  intros Ht Hw Hw'. rewrite <- !window_exact. unfold measure_window. cbv zeta. cbn [dv_events dv_slow].
  set (P := λ e, in_window w now (cs_at e) = true).
  assert (HP : ∀ e e', same_contact e e' → P e → P e') by (intros e e' (Ha & _); unfold P; by rewrite Ha).
  pose proof (twins_window _ _ P HP Ht) as (Ho & Hl & Hr).
  assert (Hv : ∀ {K V} `{EqDecision K} `{EqDecision V} (g : ConnectionStart → K) (m : ConnectionStart → V),
    (∀ e e', same_contact e e' → g e' = g e ∧ m e' = m e) →
    max_distinct_spec g m (filter P es') = max_distinct_spec g m (filter P (dv_events v))).
  { intros K V ?? g m Hgm. apply Z.le_antisymm; apply max_distinct_mono.
    - intros e He. destruct (Hl e He) as (e' & He' & Hs). exists e'. split; [done|by apply Hgm].
    - intros e He. destruct (Hr e He) as (e' & He' & Hs). exists e'. split; [done|by apply Hgm]. }
  rewrite !max_distinct_exact, !Hv by (intros e e' (_ & ? & ?); done).
  assert (Hfil : ∀ l, Forall outcome_wf l → Forall outcome_wf (filter P l)).
  { intros l Hall. apply Forall_forall. intros e [_ He]%list_elem_of_filter. by eapply Forall_forall in Hall. }
  assert (Hb : _brute_force s (filter P es') = _brute_force s (filter P (dv_events v))).
  { unfold _brute_force, brute_groups. rewrite (brute_size_outcome s (filter P es')), Ho, <- brute_size_outcome by auto. done. }
  assert (Hf : _failed_ratio s (filter P es') = _failed_ratio s (filter P (dv_events v))) by (unfold _failed_ratio; by rewrite Ho).
  by rewrite Hb, Hf.
Qed.

(** C38: D1 measures each connection once.  After any run, what
    [measure_device] reports for a tracked device is, in every window, the
    measure the documentation defines over all the device's events (dropping
    old events early loses nothing); and it does not change when
    creation-time signals for the same connections are added to or removed
    from those events. *)
Theorem d1_measures_each_connection_once c t ports ops mac now v :
  let s := foldl d1_do (new_d1 c t ports) ops in
  dget (d1_devices s) mac = Some v →
  (measure_device mac now s).1 = mjoin (window_spec s v now <$> d1_windows s) ∧
  ∀ es', twins (dv_events v) es' → Forall outcome_wf (dv_events v) → Forall outcome_wf es' →
    (measure_device mac now (set_devices s (dset (d1_devices s) mac (mk_device (dv_last_ip v) es' (dv_slow v))))).1 =
    (measure_device mac now s).1.
Proof.
  intros s Hv. pose proof (d1_run_covers c t ports ops : covers s) as Hcov. split; [by apply measure_device_spec|].
  intros es' Ht Hw Hw'. rewrite (measure_device_spec s _ _ v) by done.
  rewrite (measure_device_spec _ mac now (mk_device (dv_last_ip v) es' (dv_slow v)));
    [|exact Hcov|cbn [d1_devices set_devices]; apply dget_set_eq].
  f_equal. apply list_fmap_ext. intros i w _. by rewrite <- (window_spec_twins s v es' now w).
Qed.

(** ** Evidence *)

Lemma sep_inj (c : ascii) (a a' b b' : list ascii) : c ∉ a → c ∉ a' → a ++ c :: b = a' ++ c :: b' → a = a' ∧ b = b'.
Proof.
  revert a'. induction a as [|x a IH]; intros [|x' a'] Ha Ha' Heq; cbn in Heq; simplify_eq; try set_solver.
  destruct (IH a') as [-> ->]; set_solver.
Qed.

Lemma sep_inj_last (c : ascii) (a a' b b' : list ascii) : c ∉ b → c ∉ b' → a ++ c :: b = a' ++ c :: b' → a = a' ∧ b = b'.
Proof.
  intros Hb Hb' Heq. apply (f_equal reverse) in Heq. rewrite !reverse_app, !reverse_cons, <- !app_assoc in Heq. cbn [app] in Heq.
  apply sep_inj in Heq as [H1 H2]; [by apply (inj reverse) in H1, H2| |]; by rewrite elem_of_reverse.
Qed.

Lemma string_to_list_inj s s' : string_to_list s = string_to_list s' → s = s'.
Proof. intros H. by rewrite <- (string_of_to_list s), H, string_of_to_list. Qed.

Lemma pretty_no_colon (x : Z) : ":"%char ∉ string_to_list (pretty x).
Proof.
  assert (Hd : ∀ y, 0 ≤ y → ":"%char ∉ string_to_list (pretty y)).
  { intros y Hy. destruct (pretty_digits y Hy) as (ds & _ & Hall & -> & _). intros Hin.
    by apply (Forall_forall _ _) with (x := ":"%char) in Hall. }
  destruct x as [|p|p]; [by apply Hd..|]. change (pretty (Z.neg p)) with ("-" +:+ pretty (Z.pos p)). rewrite string_to_list_app.
  rewrite not_elem_of_app. split; [cbn; set_solver|by apply Hd].
Qed.

Lemma no_colon_detector d : ":"%char ∉ string_to_list (detector_value d).
Proof. destruct d; cbn; rewrite !not_elem_of_cons; split_and!; try done; apply not_elem_of_nil. Qed.

Lemma no_colon_scope s : ":"%char ∉ string_to_list (scope_value s).
Proof. destruct s; cbn; rewrite !not_elem_of_cons; split_and!; try done; apply not_elem_of_nil. Qed.

Lemma detector_value_inj d d' : detector_value d = detector_value d' → d = d'.
Proof. by destruct d, d'. Qed.

Lemma scope_value_inj s s' : scope_value s = scope_value s' → s = s'.
Proof. by destruct s, s'. Qed.

Lemma d1_id_inj k k' subject subject' now now' : d1_id k subject now = d1_id k' subject' now' →
  k = k' ∧ subject = subject' ∧ bucket (tk_window_seconds k) now = bucket (tk_window_seconds k') now'.
Proof.
  intros Heq. apply (f_equal string_to_list) in Heq. unfold d1_id in Heq. rewrite !string_to_list_app in Heq.
  cbn [string_to_list app] in Heq. injection Heq as Heq.
  apply sep_inj in Heq as [Hd%string_to_list_inj%detector_value_inj Heq]; [|apply no_colon_detector..].
  apply sep_inj in Heq as [Hs%string_to_list_inj%scope_value_inj Heq]; [|apply no_colon_scope..].
  apply sep_inj in Heq as [Hw%string_to_list_inj Heq]; [|apply pretty_no_colon..].
  apply sep_inj_last in Heq as [Hsub%string_to_list_inj Hb%string_to_list_inj]; [|apply pretty_no_colon..].
  apply (inj pretty) in Hw, Hb. destruct k, k'. cbn in *. subst. done.
Qed.

(** D1 fires exactly above its thresholds, and re-evaluating is not new
    evidence: a device's evaluation reports exactly the measured values that
    exceed a threshold in force, each about that device with the value and
    the threshold it was compared with, and two reports carry the same id
    exactly when they are of the same detector, scope, window, subject and
    time bucket. *)
Theorem d1_evidence_identity s mac now :
  (∀ e, e ∈ (evaluate_device mac now s).1 ↔
     ∃ k value threshold, (k, value) ∈ (measure_device mac now s).1 ∧ threshold_value (d1_thresholds s) k = Some threshold ∧
       fle value threshold = false ∧
       e = mk_d1_ev (d1_id k mac now) (tk_detector k) (tk_window_seconds k) value threshold (Some mac) now) ∧
  ∀ k k' subject subject' now', d1_id k subject now = d1_id k' subject' now' ↔
     k = k' ∧ subject = subject' ∧ bucket (tk_window_seconds k) now = bucket (tk_window_seconds k') now'.
Proof.
  split.
  - intros e. unfold evaluate_device. destruct (measure_device mac now s) as [measured s'] eqn:Hm. cbn [fst].
    assert (Ht : d1_thresholds s' = d1_thresholds s).
    { revert Hm. unfold measure_device. destruct (dget _ _); intros [= <- <-]; done. }
    unfold fire_all. rewrite list_elem_of_omap. split.
    + intros ([k x] & Hin & Hf). unfold _fire in Hf. cbn [fst snd] in Hf. rewrite Ht in Hf.
      destruct (threshold_value _ k) as [t|] eqn:Hk; [|done]. destruct (fle x t) eqn:Hle; [done|]. injection Hf as <-.
      exists k, x, t. done.
    + intros (k & x & t & Hin & Hk & Hle & ->). exists (k, x). split; [done|]. unfold _fire. cbn [fst snd]. by rewrite Ht, Hk, Hle.
  - intros k k' subject subject' now'. split; [apply d1_id_inj|]. intros (<- & <- & Hb). unfold d1_id. by rewrite Hb.
Qed.

(** ** A device that scans *)

Definition sample_d1_config : D1Config :=
  mk_d1_config [10; 60] 2 2 4 2 [22] (float_of_Z 5) (hundredths 25) 10 2.

Lemma sample_d1_config_wf : d1_config_wf sample_d1_config.
Proof. unfold d1_config_wf. cbn. split_and!; try lia; try set_solver. repeat constructor. Qed.

Definition sample_thresholds : D1ThresholdFile := mk_tfile 1 false "" [] [].
Definition scanner : Mac.t := "02:00:00:00:00:20".
Definition contact (port : Z) (outcome : bool) : ConnectionStart :=
  mk_start scanner 7 9 (Some port) 0 (if outcome then Some true else None) (if outcome then Some zero else None)
    (if outcome then Some 0 else None).

(** Two ports, the first announced by a signal before its record. *)
Definition scan_ops : list d1_op := [Start (contact 1 false); Start (contact 1 true); Start (contact 2 true)].

Lemma d1_state_bounded_witness :
  Z.of_nat (length (d1_devices (foldl d1_do (new_d1 sample_d1_config sample_thresholds []) scan_ops))) ≤ 2.
Proof. exact (proj1 (proj1 (d1_state_bounded sample_d1_config sample_thresholds [] scan_ops (contact 3 true) sample_d1_config_wf))). Defined.

Definition scan_events : list ConnectionStart := [contact 1 false; contact 1 true; contact 2 true].

Lemma scan_twins : twins scan_events [contact 1 true; contact 2 true].
Proof.
  split; [reflexivity|]. split.
  - intros e He. exists e. split; [|done]. unfold scan_events. set_solver.
  - intros e. unfold scan_events. rewrite !elem_of_cons, elem_of_nil. intros [->|[->|[->|[]]]];
      [exists (contact 1 true)|exists (contact 1 true)|exists (contact 2 true)]; (split; [set_solver|done]).
Qed.

Lemma d1_measures_each_connection_once_witness :
  let s := foldl d1_do (new_d1 sample_d1_config sample_thresholds []) scan_ops in
  (measure_device scanner 0 (set_devices s (dset (d1_devices s) scanner (mk_device 7 [contact 1 true; contact 2 true] [])))).1 =
  (measure_device scanner 0 s).1.
Proof.
  assert (Hw : Forall outcome_wf scan_events ∧ Forall outcome_wf [contact 1 true; contact 2 true]) by (split; repeat constructor; done).
  assert (Hv : dget (d1_devices (foldl d1_do (new_d1 sample_d1_config sample_thresholds []) scan_ops)) scanner
               = Some (mk_device 7 scan_events [])) by (vm_compute; reflexivity).
  exact (proj2 (d1_measures_each_connection_once sample_d1_config sample_thresholds [] scan_ops scanner 0 (mk_device 7 scan_events []) Hv)
    _ scan_twins (proj1 Hw) (proj2 Hw)).
Defined.

Example scan_measured :
  (measure_device scanner 0 (foldl d1_do (new_d1 sample_d1_config sample_thresholds []) scan_ops)).1.[mk_tkey VERTICAL_SCAN S_DEVICE 10]
  = Some (float_of_Z 2).
Proof. vm_compute. reflexivity. Qed.
