(* ===== verification/Behavior.v ===== *)
(** * Behaviour analysis (pirewall/detection/behavior.py)

    Bounded, time-windowed state per source address: the connection events
    and failures of the window with the indexes counted from them, the recent
    connection times, the slow-connection snapshots and the flood windows.
    [assess] reads the patterns off that state; [BehaviorAnalyzer] keeps one
    state per source, least recently active out first.  The only exception an
    operation could raise is the [IndexError] of reading the last element of
    an empty deque. *)

From S2P Require Import Prelude Float Net Models Throttle Policy Flow Thresholds Threat D1.
Local Open Scope Z_scope.

(** ** Configuration *)

Record DetectionConfig : Type := mk_detection_config {
  dc_behavior_window_seconds : Z;
  dc_max_tracked_sources : Z;
  dc_max_tracked_destinations_per_source : Z;
  dc_max_tracked_ports_per_source : Z;
  dc_max_tracked_connections_per_source : Z;
  dc_recent_connections_window : Z;
  dc_repeated_connections_threshold : Z;
  dc_high_frequency_per_second_threshold : float;
  dc_burst_window_seconds : float;
  dc_burst_count_threshold : Z;
  dc_persistence_seconds_threshold : float;
  dc_destination_diversity_threshold : Z;
  dc_scanning_port_threshold : Z;
  dc_repeated_failures_threshold : Z;
  dc_temporal_pattern_cv_threshold : float;
  dc_flood_connections_per_second_threshold : float;
  dc_concurrent_slow_connections_threshold : Z;
}.

(** The field constraints the state depends on. *)
Definition detection_config_wf (c : DetectionConfig) : Prop :=
  0 < dc_behavior_window_seconds c ∧ 0 < dc_max_tracked_sources c ∧ 0 < dc_max_tracked_destinations_per_source c ∧
  0 < dc_max_tracked_ports_per_source c ∧ 0 < dc_max_tracked_connections_per_source c ∧
  0 < dc_recent_connections_window c ∧ flt f0 (dc_burst_window_seconds c) = true ∧
  flt f0 (dc_flood_connections_per_second_threshold c) = true.

(** ** The state of one source *)

Record ConnectionEvent : Type := mk_conn_event {
  be_timestamp : Z;
  be_destination_ip : IPv4.t;
  be_destination_port : option Z;
  be_destination_tracked : bool;
  be_port_tracked : bool;
  be_global_port_tracked : bool;
  be_pair_tracked : bool;
}.

(** What the constructor fixes. *)
Record SourceLimits : Type := mk_limits {
  lm_max_destinations : Z;
  lm_max_ports : Z;
  lm_max_recent : Z;
  lm_window_seconds : float;
  lm_max_events : Z;
  lm_flood_window_seconds : float;
  lm_max_flood_entries : Z;
}.

(** The indexes counted from the events of the window. *)
Record EventIndex : Type := mk_index {
  ix_destination_counts : list (IPv4.t * Z);
  ix_ports : list (Z * Z);
  ix_ports_per_destination : list (IPv4.t * list (Z * Z));
  ix_connections_per_destination : list ((IPv4.t * option Z) * Z);
}.

Record SourceBehaviorState : Type := mk_source {
  bs_limits : SourceLimits;
  bs_first_seen : Z;
  bs_last_seen : Z;
  bs_streak_started : Z;
  bs_events : list ConnectionEvent;
  bs_index : EventIndex;
  bs_failures : list (Z * IPv4.t * bool);
  bs_failures_per_destination : list (IPv4.t * Z);
  bs_recent_connection_times : list Z;
  bs_slow_connection_counts : list (IPv4.t * (Z * Z));
  bs_recent_per_destination : list (IPv4.t * list Z);
}.

Definition new_source (l : SourceLimits) (first_seen : Z) : SourceBehaviorState :=
  mk_source l first_seen first_seen first_seen [] (mk_index [] [] [] []) [] [] [] [] [].

(** [_decrement] *)
Definition _decrement {K} `{EqDecision K} (counts : list (K * Z)) (key : K) : list (K * Z) :=
  let remaining := default 0 (dget counts key) - 1 in
  if 0 <? remaining then dset counts key remaining else dpop counts key.

(** [counts[key] = counts.get(key, 0) + 1] *)
Definition increment {K} `{EqDecision K} (counts : list (K * Z)) (key : K) : list (K * Z) :=
  dset counts key (default 0 (dget counts key) + 1).

(** [key in counts or len(counts) < cap] *)
Definition admits {K V} `{EqDecision K} (cap : Z) (d : list (K * V)) (key : K) : bool :=
  dmem d key || (Z.of_nat (length d) <? cap).

(** The port [p] leaves the ports of [dst]; the last one takes the entry with
    it. *)
Definition expire_port (ppd : list (IPv4.t * list (Z * Z))) (dst : IPv4.t) (p : Z) : list (IPv4.t * list (Z * Z)) :=
  match dget ppd dst with
  | Some here => match _decrement here p with [] => dpop ppd dst | here' => dset ppd dst here' end
  | None => ppd
  end.

Definition _expire_event (ix : EventIndex) (e : ConnectionEvent) : EventIndex :=
  let dst := be_destination_ip e in
  mk_index
    (if be_destination_tracked e then _decrement (ix_destination_counts ix) dst else ix_destination_counts ix)
    (match be_destination_port e with
     | Some p => if be_global_port_tracked e then _decrement (ix_ports ix) p else ix_ports ix
     | None => ix_ports ix
     end)
    (match be_destination_port e with
     | Some p => if be_port_tracked e then expire_port (ix_ports_per_destination ix) dst p else ix_ports_per_destination ix
     | None => ix_ports_per_destination ix
     end)
    (if be_pair_tracked e then _decrement (ix_connections_per_destination ix) (dst, be_destination_port e)
     else ix_connections_per_destination ix).

Definition _expire_failure (counts : list (IPv4.t * Z)) (f : Z * IPv4.t * bool) : list (IPv4.t * Z) :=
  let '(_, dst, tracked) := f in if (tracked : bool) then _decrement counts dst else counts.

(** [while q and q[0] is old: expire(q.popleft())] *)
Fixpoint expire_while {A I} (old : A → bool) (expire : I → A → I) (q : list A) (i : I) : list A * I :=
  match q with
  | a :: q' => if old a then expire_while old expire q' (expire i a) else (q, i)
  | [] => ([], i)
  end.

(** The destinations whose flood window has gone quiet; [times[-1]] raises on
    an empty deque. *)
Fixpoint live_floods (horizon : Z) (d : list (IPv4.t * list Z)) : result (list (IPv4.t * list Z)) :=
  match d with
  | [] => Ok []
  | (ip, times) :: d' =>
      match last times with
      | None => Raise IndexError
      | Some t => rbind (live_floods horizon d') (λ rest, Ok (if t <? horizon then rest else (ip, times) :: rest))
      end
  end.

Definition _advance (s : SourceBehaviorState) (timestamp : Z) : result SourceBehaviorState :=
  let l := bs_limits s in
  let later := bs_last_seen s <? timestamp in
  let streak := if later && flt (lm_window_seconds l) (total_seconds (timestamp - bs_last_seen s)) then timestamp
                else bs_streak_started s in
  let now := if later then timestamp else bs_last_seen s in
  let horizon := now - timedelta_of_seconds (lm_window_seconds l) in
  let '(events, ix) := expire_while (λ e, be_timestamp e <? horizon) _expire_event (bs_events s) (bs_index s) in
  let '(failures, fpd) := expire_while (λ f, f.1.1 <? horizon) _expire_failure (bs_failures s) (bs_failures_per_destination s) in
  rbind (live_floods (now - timedelta_of_seconds (lm_flood_window_seconds l)) (bs_recent_per_destination s)) (λ floods,
  Ok (mk_source l (bs_first_seen s) now streak events ix failures fpd (bs_recent_connection_times s)
        (filter (λ q : IPv4.t * (Z * Z), horizon ≤ q.2.2) (bs_slow_connection_counts s)) floods)).

(** The ports of a tracked destination after a connection to [p]. *)
Definition admit_port (cap : Z) (ppd : list (IPv4.t * list (Z * Z))) (dst : IPv4.t) (p : Z) : bool * list (IPv4.t * list (Z * Z)) :=
  let here := default [] (dget ppd dst) in
  if admits cap here p then (true, dset ppd dst (increment here p)) else (false, dset ppd dst here).

(** The index after the event it returns is admitted. *)
Definition admit_event (l : SourceLimits) (ix : EventIndex) (dst : IPv4.t) (port : option Z) (timestamp : Z)
  : EventIndex * ConnectionEvent :=
  let dtracked := admits (lm_max_destinations l) (ix_destination_counts ix) dst in
  let gtracked := match port with Some p => admits (lm_max_ports l) (ix_ports ix) p | None => false end in
  let '(ptracked, ppd) :=
    match port with
    | Some p => if dtracked then admit_port (lm_max_ports l) (ix_ports_per_destination ix) dst p
                else (false, ix_ports_per_destination ix)
    | None => (false, ix_ports_per_destination ix)
    end in
  let pairtracked := admits (lm_max_destinations l) (ix_connections_per_destination ix) (dst, port) in
  (mk_index
     (if dtracked then increment (ix_destination_counts ix) dst else ix_destination_counts ix)
     (match port with Some p => if gtracked then increment (ix_ports ix) p else ix_ports ix | None => ix_ports ix end)
     ppd
     (if pairtracked then increment (ix_connections_per_destination ix) (dst, port) else ix_connections_per_destination ix),
   mk_conn_event timestamp dst port dtracked ptracked gtracked pairtracked).

Definition note_flood (l : SourceLimits) (d : list (IPv4.t * list Z)) (dst : IPv4.t) (timestamp : Z) : list (IPv4.t * list Z) :=
  match dget d dst with
  | Some times => dset d dst (deque_append (lm_max_flood_entries l) times timestamp)
  | None => if Z.of_nat (length d) <? lm_max_destinations l then dset d dst (deque_append (lm_max_flood_entries l) [] timestamp) else d
  end.

(** [if len(q) >= cap: expire(q.popleft())] *)
Definition make_room {A I} (cap : Z) (expire : I → A → I) (q : list A) (i : I) : list A * I :=
  if cap <=? Z.of_nat (length q) then match q with a :: q' => (q', expire i a) | [] => ([], i) end else (q, i).

Definition observe_new_connection (s : SourceBehaviorState) (dst : IPv4.t) (port : option Z) (timestamp : Z)
  : result SourceBehaviorState :=
  rbind (_advance s timestamp) (λ s,
  let l := bs_limits s in
  let '(events, ix) := make_room (lm_max_events l) _expire_event (bs_events s) (bs_index s) in
  let '(ix', e) := admit_event l ix dst port timestamp in
  Ok (mk_source l (bs_first_seen s) (bs_last_seen s) (bs_streak_started s) (events ++ [e]) ix' (bs_failures s)
        (bs_failures_per_destination s) (deque_append (lm_max_recent l) (bs_recent_connection_times s) timestamp)
        (bs_slow_connection_counts s) (note_flood l (bs_recent_per_destination s) dst timestamp))).

Definition is_failed_connection_attempt (f : Flow) : bool :=
  bool_decide (fl_protocol f = TCP) && (fl_backward_packet_count f =? 0) && (1 <=? default 0 (fl_tcp_flags f !! 0%nat)).

Definition observe_completion (s : SourceBehaviorState) (f : Flow) : result SourceBehaviorState :=
  rbind (_advance s (fl_last_seen f)) (λ s,
  if negb (is_failed_connection_attempt f) then Ok s
  else
    let l := bs_limits s in
    let '(failures, fpd) := make_room (lm_max_events l) _expire_failure (bs_failures s) (bs_failures_per_destination s) in
    let dst := fl_destination_ip f in
    let tracked := admits (lm_max_destinations l) fpd dst in
    Ok (mk_source l (bs_first_seen s) (bs_last_seen s) (bs_streak_started s) (bs_events s) (bs_index s)
          (failures ++ [(fl_last_seen f, dst, tracked)]) (if tracked then increment fpd dst else fpd)
          (bs_recent_connection_times s) (bs_slow_connection_counts s) (bs_recent_per_destination s))).

Definition observe_source (s : SourceBehaviorState) (f : Flow) : result SourceBehaviorState :=
  rbind (observe_new_connection s (fl_destination_ip f) (fl_destination_port f) (fl_first_seen f)) (λ s, observe_completion s f).

Definition note_slow_connections (s : SourceBehaviorState) (dst : IPv4.t) (n timestamp : Z) : result SourceBehaviorState :=
  rbind (_advance s timestamp) (λ s,
  if admits (lm_max_destinations (bs_limits s)) (bs_slow_connection_counts s) dst
  then Ok (mk_source (bs_limits s) (bs_first_seen s) (bs_last_seen s) (bs_streak_started s) (bs_events s) (bs_index s)
             (bs_failures s) (bs_failures_per_destination s) (bs_recent_connection_times s)
             (dset (bs_slow_connection_counts s) dst (n, timestamp)) (bs_recent_per_destination s))
  else Ok s).

Definition prune_source (s : SourceBehaviorState) (now : Z) : result SourceBehaviorState := _advance s now.

(** ** Reading the state *)

(** [max(values, default=0)] of non-negative counts *)
Definition max0 (l : list Z) : Z := foldr Z.max 0 l.

Definition connection_count (s : SourceBehaviorState) : Z := Z.of_nat (length (bs_events s)).
Definition failure_count (s : SourceBehaviorState) : Z := Z.of_nat (length (bs_failures s)).
Definition distinct_destinations (s : SourceBehaviorState) : Z := Z.of_nat (length (ix_destination_counts (bs_index s))).
Definition max_failures_to_single_destination (s : SourceBehaviorState) : Z := max0 (bs_failures_per_destination s).*2.
Definition scanned_port_breadth (s : SourceBehaviorState) : Z :=
  max0 ((λ q : IPv4.t * list (Z * Z), Z.of_nat (length q.2)) <$> ix_ports_per_destination (bs_index s)).
Definition max_connections_to_single_destination (s : SourceBehaviorState) : Z :=
  max0 (ix_connections_per_destination (bs_index s)).*2.
Definition max_concurrent_slow_connections (s : SourceBehaviorState) : Z :=
  max0 ((λ q : IPv4.t * (Z * Z), q.2.1) <$> bs_slow_connection_counts s).
Definition max_recent_connections_to_single_destination (s : SourceBehaviorState) : Z :=
  let horizon := bs_last_seen s - timedelta_of_seconds (lm_flood_window_seconds (bs_limits s)) in
  max0 ((λ q : IPv4.t * list Z, Z.of_nat (length (filter (λ t, horizon ≤ t) q.2))) <$> bs_recent_per_destination s).
Definition streak_seconds (s : SourceBehaviorState) : float := total_seconds (bs_last_seen s - bs_streak_started s).

(** [(later - earlier).total_seconds()] of the sorted times, pairwise *)
Definition _inter_arrival_seconds (times : list Z) : list float :=
  let ordered := py_sorted Z.leb times in
  zip_with (λ earlier later, total_seconds (later - earlier)) ordered (tail ordered).

Definition _recent_frequency (s : SourceBehaviorState) : float :=
  match bs_recent_connection_times s with
  | first :: _ :: _ =>
      fdiv (float_of_Z (Z.of_nat (length (bs_recent_connection_times s))))
        (fmax (total_seconds (bs_last_seen s - first)) (float_of_Z 1))
  | _ => f0
  end.

Definition burst_count (s : SourceBehaviorState) (c : DetectionConfig) : Z :=
  Z.of_nat (length (filter (λ t, fle (total_seconds (bs_last_seen s - t)) (dc_burst_window_seconds c) = true)
                      (bs_recent_connection_times s))).

(** The coefficient of variation of the connection intervals, of at least
    three with a positive mean. *)
Definition interval_variation (s : SourceBehaviorState) : option float :=
  let intervals := _inter_arrival_seconds (bs_recent_connection_times s) in
  if Z.of_nat (length intervals) <? 3 then None
  else let mean := fmean intervals in if flt f0 mean then Some (fdiv (pstdev intervals) mean) else None.

(** A pattern with the reason it was found for. *)
Definition found (b : bool) (p : BehaviorPatternType) (reason : string) : list (BehaviorPatternType * string) :=
  if b then [(p, reason)] else [].

Definition detected (s : SourceBehaviorState) (c : DetectionConfig) : list (BehaviorPatternType * string) :=
  let repeated := max_connections_to_single_destination s in
  let frequency := _recent_frequency s in
  let burst := burst_count s c in
  let streak := streak_seconds s in
  let diversity := distinct_destinations s in
  let breadth := scanned_port_breadth s in
  let failures := max_failures_to_single_destination s in
  let slow := max_concurrent_slow_connections s in
  let flood := max_recent_connections_to_single_destination s in
  found (dc_repeated_connections_threshold c <=? repeated) REPEATED_CONNECTIONS
    (pretty repeated +:+ " connections to a single destination") ++
  found (fle (dc_high_frequency_per_second_threshold c) frequency) HIGH_FREQUENCY
    ("connection frequency " +:+ fmt_2f frequency +:+ "/s") ++
  found (dc_burst_count_threshold c <=? burst) BURST
    (pretty burst +:+ " connections within " +:+ fmt_0f (dc_burst_window_seconds c) +:+ "s") ++
  found (fle (dc_persistence_seconds_threshold c) streak && (2 <=? connection_count s)) PERSISTENCE
    ("continuously active for " +:+ fmt_0f streak +:+ "s") ++
  found (dc_destination_diversity_threshold c <=? diversity) DESTINATION_DIVERSITY
    (pretty diversity +:+ " distinct destinations") ++
  found (dc_scanning_port_threshold c <=? breadth) SCANNING
    (pretty breadth +:+ " distinct ports on a single destination") ++
  found (dc_repeated_failures_threshold c <=? failures) REPEATED_FAILURES
    (pretty failures +:+ " unanswered connection attempts to a single destination") ++
  found (dc_concurrent_slow_connections_threshold c <=? slow) P_SLOW_RATE_DOS
    (pretty slow +:+ " concurrent slow connections to one destination") ++
  found (fle (fmul (dc_flood_connections_per_second_threshold c) (dc_burst_window_seconds c)) (float_of_Z flood)) FLOOD
    (pretty flood +:+ " new connections to a single destination within " +:+ fmt_0f (dc_burst_window_seconds c) +:+ "s") ++
  match interval_variation s with
  | Some cv => found (fle cv (dc_temporal_pattern_cv_threshold c)) TEMPORAL_PATTERN
                 ("regular connection timing (cv=" +:+ fmt_3f cv +:+ ")")
  | None => []
  end.

Definition _TOTAL_PATTERN_TYPES : Z := 10.

(** [BehaviorAssessment] refuses a window that ends before it starts. *)
Definition _assess_state (ip : IPv4.t) (s : SourceBehaviorState) (c : DetectionConfig) : result BehaviorAssessment :=
  let ps := detected s c in
  let confidence := fmin (float_of_Z 1) (fdiv (float_of_Z (Z.of_nat (length ps))) (float_of_Z _TOTAL_PATTERN_TYPES)) in
  let window_start := Z.max (bs_first_seen s) (bs_last_seen s - seconds (dc_behavior_window_seconds c)) in
  if bs_last_seen s <? window_start then Raise (ValueError "window_end must not precede window_start")
  else Ok (mk_behavior ip ps.*1 confidence
             (match ps with [] => "no notable behavioral patterns observed" | _ => String.concat "; " ps.*2 end)
             window_start (bs_last_seen s)).

(** ** The analyser *)

Record BehaviorAnalyzer : Type := mk_analyzer {
  an_config : DetectionConfig;
  an_sources : list (IPv4.t * SourceBehaviorState);
}.

Definition new_analyzer (c : DetectionConfig) : BehaviorAnalyzer := mk_analyzer c [].

Definition limits_of (c : DetectionConfig) : SourceLimits :=
  mk_limits (dc_max_tracked_destinations_per_source c) (dc_max_tracked_ports_per_source c) (dc_recent_connections_window c)
    (float_of_Z (dc_behavior_window_seconds c)) (dc_max_tracked_connections_per_source c) (dc_burst_window_seconds c)
    (fceil (fmul (dc_flood_connections_per_second_threshold c) (dc_burst_window_seconds c)) + 1).

(** The source's state, made if need be, and the table it is now the most
    recent entry of. *)
Definition _get_or_create (ip : IPv4.t) (first_seen : Z) (a : BehaviorAnalyzer) : SourceBehaviorState * BehaviorAnalyzer :=
  let d := an_sources a in
  match dget d ip with
  | Some s => (s, mk_analyzer (an_config a) (dmove_to_end d ip))
  | None =>
      let d' := if dc_max_tracked_sources (an_config a) <=? Z.of_nat (length d) then drop 1 d else d in
      let s := new_source (limits_of (an_config a)) first_seen in
      (s, mk_analyzer (an_config a) (dset d' ip s))
  end.

(** An update of the state of [ip], in place: what the update did before it
    raised is lost only with the source's own state. *)
Definition update_source (ip : IPv4.t) (f : SourceBehaviorState → result SourceBehaviorState) (s : SourceBehaviorState)
  : M BehaviorAnalyzer unit := λ a,
  match f s with
  | Ok s' => (Ok tt, mk_analyzer (an_config a) (dset (an_sources a) ip s'))
  | Raise e => (Raise e, a)
  end.

Definition analyzer_observe_new_connection (src dst : IPv4.t) (port : option Z) (timestamp : Z) : M BehaviorAnalyzer unit :=
  s ← (λ a, let '(s, a') := _get_or_create src timestamp a in (Ok s, a'));
  update_source src (λ s, observe_new_connection s dst port timestamp) s.

Definition analyzer_note_slow_connections (src dst : IPv4.t) (n timestamp : Z) : M BehaviorAnalyzer unit :=
  s ← (λ a, let '(s, a') := _get_or_create src timestamp a in (Ok s, a'));
  update_source src (λ s, note_slow_connections s dst n timestamp) s.

Definition analyzer_observe_completion (f : Flow) : M BehaviorAnalyzer unit :=
  a ← mget;
  match dget (an_sources a) (fl_source_ip f) with
  | None =>
      if negb (fl_opened_by_initiation f) then mret tt
      else s ← (λ a, let '(s, a') := _get_or_create (fl_source_ip f) (fl_first_seen f) a in (Ok s, a'));
           update_source (fl_source_ip f) (λ s, observe_source s f) s
  | Some s =>
      _ ← mmodify (λ a, mk_analyzer (an_config a) (dmove_to_end (an_sources a) (fl_source_ip f)));
      update_source (fl_source_ip f) (λ s, observe_completion s f) s
  end.

Definition analyzer_observe_flow (f : Flow) : M BehaviorAnalyzer unit :=
  s ← (λ a, let '(s, a') := _get_or_create (fl_source_ip f) (fl_first_seen f) a in (Ok s, a'));
  update_source (fl_source_ip f) (λ s, observe_source s f) s.

Definition assess (ip : IPv4.t) (a : BehaviorAnalyzer) : result (option BehaviorAssessment) :=
  match dget (an_sources a) ip with
  | None => Ok None
  | Some s => rbind (_assess_state ip s (an_config a)) (λ b, Ok (Some b))
  end.

Definition assess_at (ip : IPv4.t) (now : Z) : M BehaviorAnalyzer (option BehaviorAssessment) :=
  a ← mget;
  match dget (an_sources a) ip with
  | None => mret None
  | Some s =>
      _ ← update_source ip (λ s, prune_source s now) s;
      a ← mget; mlift (assess ip a)
  end.
