(* ===== verification/BehaviorProps.v ===== *)
(** * What the behaviour window counts

    In every state a source can reach the indexes hold exactly the counts of
    the admitted events of the window, within their caps, and no operation
    raises. *)

From S2P Require Import Prelude Float Net Models Throttle Policy Flow Thresholds Threat D1 Behavior.
Local Open Scope Z_scope.

(** ** Counters *)

Section Counted.
Context {K : Type} `{EqDecision K}.
Implicit Types (d : list (K * Z)) (ks : list K).

Definition occurrences (k : K) (ks : list K) : Z := Z.of_nat (length (filter (λ x, x = k) ks)).

(** [d] counts the keys of [ks]. *)
Definition counted (d : list (K * Z)) (ks : list K) : Prop :=
  dwf d ∧ ∀ k, dget d k = if occurrences k ks =? 0 then None else Some (occurrences k ks).

Lemma occurrences_app k ks ks' : occurrences k (ks ++ ks') = occurrences k ks + occurrences k ks'.
Proof. unfold occurrences. rewrite filter_app, length_app. lia. Qed.

Lemma occurrences_one k k' : occurrences k [k'] = if decide (k' = k) then 1 else 0.
Proof. unfold occurrences. rewrite filter_cons, filter_nil. by case_decide. Qed.

Lemma occurrences_nonneg k ks : 0 ≤ occurrences k ks.
Proof. unfold occurrences. lia. Qed.

Lemma occurrences_elem k ks : occurrences k ks ≠ 0 ↔ k ∈ ks.
Proof.
  unfold occurrences. split.
  - destruct (filter (λ x, x = k) ks) as [|x l] eqn:Hf; [done|]. intros _.
    assert (Hx : x ∈ filter (λ x, x = k) ks) by (rewrite Hf; set_solver). apply list_elem_of_filter in Hx as [-> Hx]. done.
  - intros Hk. assert (Hx : k ∈ filter (λ x, x = k) ks) by (by apply list_elem_of_filter). destruct (filter _ ks); [set_solver|done].
Qed.

Lemma counted_nil : counted [] [].
Proof. split; [apply dwf_nil|done]. Qed.

Lemma counted_get d ks k : counted d ks → default 0 (dget d k) = occurrences k ks.
Proof. intros [_ Hd]. rewrite Hd. by destruct (Z.eqb_spec (occurrences k ks) 0). Qed.

Lemma counted_mem d ks k : counted d ks → k ∈ dkeys d ↔ k ∈ ks.
Proof.
  intros [_ Hd]. rewrite <- dget_is_Some, <- occurrences_elem, Hd. destruct (Z.eqb_spec (occurrences k ks) 0); split; done.
Qed.

Lemma counted_increment d ks k : counted d ks → counted (increment d k) (ks ++ [k]).
Proof.
  intros Hc. pose proof (counted_get d ks k Hc) as Hg. destruct Hc as [Hwf Hd]. unfold increment. split; [by apply dwf_set|]. intros k'.
  rewrite dget_set, occurrences_app, occurrences_one, Hg. pose proof (occurrences_nonneg k' ks). case_decide; subst.
  - destruct (Z.eqb_spec (occurrences k' ks + 1) 0); [lia|done].
  - by rewrite Z.add_0_r.
Qed.

Lemma counted_decrement d ks k : counted d (k :: ks) → counted (_decrement d k) ks.
Proof.
  intros Hc. pose proof (counted_get _ _ k Hc) as Hg. destruct Hc as [Hwf Hd]. change (k :: ks) with ([k] ++ ks) in *.
  rewrite occurrences_app, occurrences_one, decide_True in Hg by done. unfold _decrement. rewrite Hg.
  replace (1 + occurrences k ks - 1) with (occurrences k ks) by lia. pose proof (occurrences_nonneg k ks).
  destruct (Z.ltb_spec 0 (occurrences k ks)).
  - split; [by apply dwf_set|]. intros k'. rewrite dget_set. case_decide; subst; [by destruct (Z.eqb_spec (occurrences k' ks) 0); [lia|]|].
    rewrite Hd, occurrences_app, occurrences_one, decide_False by done. done.
  - split; [by apply dwf_pop|]. intros k'. rewrite dget_pop. case_decide; subst.
    + assert (Hz : occurrences k' ks = 0) by lia. by rewrite Hz.
    + rewrite Hd, occurrences_app, occurrences_one, decide_False by done. done.
Qed.

Lemma decrement_length d k : (length (_decrement d k) ≤ length d)%nat.
Proof.
  unfold _decrement. destruct (0 <? _) eqn:Hlt; [|apply dpop_length_le]. rewrite dset_length, decide_True; [done|].
  apply dget_is_Some. apply Z.ltb_lt in Hlt. destruct (dget d k); [eauto|cbn in Hlt; lia].
Qed.

Lemma increment_length cap d k : admits cap d k = true → Z.of_nat (length d) ≤ cap → Z.of_nat (length (increment d k)) ≤ cap.
Proof.
  unfold admits, increment. rewrite orb_true_iff. intros Ha Hl. rewrite dset_length. case_decide as Hk; [done|].
  destruct Ha as [Hm|Hlt]; [|apply Z.ltb_lt in Hlt; lia]. apply dmem_true in Hm. by apply dget_is_Some in Hm.
Qed.

(** [d] never counts more than there is. *)
Definition at_most (d : list (K * Z)) (ks : list K) : Prop := ∀ k n, dget d k = Some n → 1 ≤ n ≤ occurrences k ks.

Lemma counted_at_most d ks' ks : counted d ks' → sublist ks' ks → at_most d ks.
Proof.
  intros [_ Hd] Hs k n. rewrite Hd. pose proof (occurrences_nonneg k ks'). destruct (Z.eqb_spec (occurrences k ks') 0); [done|]. intros [= <-].
  split; [lia|]. unfold occurrences. apply inj_le, sublist_length. clear -Hs.
  induction Hs as [|x l l' _ IH|x l l' _ IH]; [done|..]; rewrite ?filter_cons; case_decide; rewrite ?filter_cons_True, ?filter_cons_False by done;
    try done; by constructor.
Qed.

Definition distinct (ks : list K) : Z := Z.of_nat (length (dedup ks)).
Lemma counted_length d ks : counted d ks → Z.of_nat (length d) = distinct ks.
Proof.
  intros Hc. unfold distinct. rewrite <- (length_fmap fst d). f_equal. apply Permutation_length, NoDup_Permutation.
  - apply Hc.
  - apply NoDup_dedup.
  - intros k. rewrite elem_of_dedup. apply (counted_mem d ks k Hc).
Qed.
(** A key is admitted as long as the cap is not exceeded with it. *)
Lemma counted_admits cap d ks k : counted d ks → distinct (ks ++ [k]) ≤ cap → admits cap d k = true.
Proof.
  intros Hc Hd. unfold admits. destruct (dmem d k) eqn:Hm; [done|]. cbn. apply Z.ltb_lt. rewrite (counted_length d ks Hc).
  unfold distinct in *. rewrite dedup_snoc in Hd. unfold set_add in Hd. rewrite (proj2 (inb_false _ _)) in Hd.
  - rewrite length_app in Hd. cbn in Hd. lia.
  - rewrite elem_of_dedup. intros Hk. apply (counted_mem d ks k Hc), dget_is_Some in Hk. apply dmem_true in Hk. congruence.
Qed.
Lemma distinct_mono ks ks' : (∀ k, k ∈ ks → k ∈ ks') → distinct ks ≤ distinct ks'.
Proof.
  intros Hsub. apply inj_le, submseteq_length, NoDup_submseteq; [apply NoDup_dedup|]. intros k. rewrite !elem_of_dedup. apply Hsub.
Qed.
End Counted.

(** ** The event index *)

Definition event_connection (e : ConnectionEvent) : Z * IPv4.t * option Z := (be_timestamp e, be_destination_ip e, be_destination_port e).

Definition tracked_destinations (es : list ConnectionEvent) : list IPv4.t :=
  be_destination_ip <$> filter (λ e, be_destination_tracked e = true) es.
Definition tracked_ports (es : list ConnectionEvent) : list Z :=
  omap be_destination_port (filter (λ e, be_global_port_tracked e = true) es).
Definition tracked_ports_at (ip : IPv4.t) (es : list ConnectionEvent) : list Z :=
  omap be_destination_port (filter (λ e, be_port_tracked e = true ∧ be_destination_ip e = ip) es).
Definition tracked_pairs (es : list ConnectionEvent) : list (IPv4.t * option Z) :=
  (λ e, (be_destination_ip e, be_destination_port e)) <$> filter (λ e, be_pair_tracked e = true) es.

(** What the events of the window name, admitted or not *)
Definition destinations_of (es : list ConnectionEvent) : list IPv4.t := be_destination_ip <$> es.
Definition ports_of (es : list ConnectionEvent) : list Z := omap be_destination_port es.
Definition ports_at (ip : IPv4.t) (es : list ConnectionEvent) : list Z := omap be_destination_port (filter (λ e, be_destination_ip e = ip) es).
Definition pairs_of (es : list ConnectionEvent) : list (IPv4.t * option Z) := (λ e, (be_destination_ip e, be_destination_port e)) <$> es.

Lemma omap_sublist {A B} (f : A → option B) l l' : sublist l l' → sublist (omap f l) (omap f l').
Proof. induction 1 as [|x l l' _ IH|x l l' _ IH]; [done|..]; cbn; destruct (f x); try done; by constructor. Qed.
Lemma tracked_sublists es :
  sublist (tracked_destinations es) (destinations_of es) ∧ sublist (tracked_ports es) (ports_of es) ∧
  sublist (tracked_pairs es) (pairs_of es) ∧ ∀ ip, sublist (tracked_ports_at ip es) (ports_at ip es).
Proof.
  split_and!; [apply fmap_sublist, sublist_filter|apply omap_sublist, sublist_filter|apply fmap_sublist, sublist_filter|].
  intros ip. apply omap_sublist. rewrite <- (list_filter_filter (λ e, be_port_tracked e = true) (λ e, be_destination_ip e = ip)). apply sublist_filter.
Qed.

(** Every event was admitted to every index. *)
Definition admitted_event (e : ConnectionEvent) : Prop :=
  be_destination_tracked e = true ∧ be_pair_tracked e = true ∧
  (is_Some (be_destination_port e) → be_port_tracked e = true ∧ be_global_port_tracked e = true).
Lemma omap_skip {A B} (f : A → option B) (P : A → Prop) `{!∀ x, Decision (P x)} (l : list A) :
  (∀ x, x ∈ l → is_Some (f x) → P x) → omap f (filter P l) = omap f l.
Proof.
  induction l as [|x l IH]; intros Hp; [done|]. rewrite filter_cons. assert (IH' := IH ltac:(set_solver)). case_decide as Hx; cbn.
  - by rewrite IH'.
  - destruct (f x) eqn:Hf; [|done]. exfalso. apply Hx, Hp; [set_solver|by rewrite Hf].
Qed.
Lemma admitted_all es : Forall admitted_event es →
  tracked_destinations es = destinations_of es ∧ tracked_ports es = ports_of es ∧ tracked_pairs es = pairs_of es ∧
  ∀ ip, tracked_ports_at ip es = ports_at ip es.
Proof.
  rewrite Forall_forall. intros Hall. unfold tracked_destinations, tracked_ports, tracked_pairs, tracked_ports_at, ports_at.
  split_and!; [rewrite filter_all; [done|]; intros e He; apply (Hall e He)| |rewrite filter_all; [done|]; intros e He; apply (Hall e He)|].
  - apply omap_skip. intros e He Hp. by apply (Hall e He).
  - intros ip. rewrite <- (list_filter_filter (λ e, be_port_tracked e = true) (λ e, be_destination_ip e = ip)). apply omap_skip.
    intros e He Hp. apply list_elem_of_filter in He as [_ He]. by apply (Hall e He).
Qed.

(** A flag is set only for what the event has. *)
Definition event_wf (e : ConnectionEvent) : Prop :=
  (be_port_tracked e = true → be_destination_tracked e = true ∧ is_Some (be_destination_port e)) ∧
  (be_global_port_tracked e = true → is_Some (be_destination_port e)).

(** The nested table holds, per destination, the counts of [ports]. *)
Definition ports_table_ok (cap : Z) (ports : IPv4.t → list Z) (ppd : list (IPv4.t * list (Z * Z))) : Prop :=
  dwf ppd ∧ ∀ ip, match dget ppd ip with
                  | None => ports ip = []
                  | Some here => here ≠ [] ∧ counted here (ports ip) ∧ Z.of_nat (length here) ≤ cap
                  end.

Record index_ok (l : SourceLimits) (es : list ConnectionEvent) (ix : EventIndex) : Prop := {
  io_events : Forall event_wf es;
  io_destinations : counted (ix_destination_counts ix) (tracked_destinations es);
  io_ports : counted (ix_ports ix) (tracked_ports es);
  io_connections : counted (ix_connections_per_destination ix) (tracked_pairs es);
  io_ports_table : ports_table_ok (lm_max_ports l) (λ ip, tracked_ports_at ip es) (ix_ports_per_destination ix);
  io_max_destinations : Z.of_nat (length (ix_destination_counts ix)) ≤ lm_max_destinations l;
  io_max_ports : Z.of_nat (length (ix_ports ix)) ≤ lm_max_ports l;
  io_max_connections : Z.of_nat (length (ix_connections_per_destination ix)) ≤ lm_max_destinations l;
}.

Definition limits_ok (l : SourceLimits) : Prop :=
  0 < lm_max_destinations l ∧ 0 < lm_max_ports l ∧ 0 < lm_max_recent l ∧ 0 < lm_max_events l ∧ 0 < lm_max_flood_entries l.

Lemma index_nil l : limits_ok l → index_ok l [] (mk_index [] [] [] []).
Proof. intros (? & ? & _). split; cbn; try apply counted_nil; try done; try lia. split; [apply dwf_nil|done]. Qed.

(** The entries of the nested table are destinations of the first. *)
Lemma ports_table_destinations l es ix : index_ok l es ix →
  (length (ix_ports_per_destination ix) ≤ length (ix_destination_counts ix))%nat.
Proof.
  intros Hi. destruct (io_ports_table _ _ _ Hi) as [Hwf Hpp]. rewrite <- (length_fmap fst), <- (length_fmap fst (ix_destination_counts ix)).
  apply submseteq_length, NoDup_submseteq; [done|]. intros ip Hip. fold (dkeys (ix_destination_counts ix)).
  apply (counted_mem _ _ ip (io_destinations _ _ _ Hi)). fold (dkeys (ix_ports_per_destination ix)) in Hip.
  apply dget_is_Some in Hip as [here Hh]. specialize (Hpp ip). rewrite Hh in Hpp. destruct Hpp as (Hne & Hc & _).
  destruct here as [|[p n] here]; [done|].
  assert (Hin : p ∈ tracked_ports_at ip es) by (apply (counted_mem _ _ p Hc); set_solver).
  apply list_elem_of_omap in Hin as (e & He & _). apply list_elem_of_filter in He as [[Hpt <-] He].
  apply list_elem_of_fmap. exists e. split; [done|]. apply list_elem_of_filter. split; [|done].
  pose proof (io_events _ _ _ Hi) as Hev. rewrite Forall_forall in Hev. by apply (Hev e He).
Qed.

Lemma counted_empty {K} `{EqDecision K} (d : list (K * Z)) ks : counted d ks → d = [] ↔ ks = [].
Proof.
  intros Hc. split; intros ->.
  - destruct ks as [|k ks]; [done|]. exfalso. assert (Hin : k ∈ dkeys ([] : list (K * Z))); [|set_solver].
    apply (counted_mem _ _ k Hc). set_solver.
  - destruct d as [|[k n] d]; [done|]. exfalso. assert (Hin : k ∈ ([] : list K)); [|set_solver].
    apply (counted_mem _ _ k Hc). set_solver.
Qed.

Lemma ports_table_ext cap f g ppd : (∀ ip, f ip = g ip) → ports_table_ok cap f ppd → ports_table_ok cap g ppd.
Proof. intros Hfg [Hwf Hp]. split; [done|]. intros ip. rewrite <- Hfg. apply Hp. Qed.

Lemma expire_port_ok cap f ppd dst p rest : ports_table_ok cap f ppd → f dst = p :: rest →
  ports_table_ok cap (λ ip, if decide (dst = ip) then rest else f ip) (expire_port ppd dst p).
Proof.
  intros [Hwf Hp] Hf. unfold expire_port. pose proof (Hp dst) as Hd. destruct (dget ppd dst) as [here|] eqn:Hh; [|by rewrite Hf in Hd].
  destruct Hd as (Hne & Hc & Hl). rewrite Hf in Hc. apply counted_decrement in Hc. pose proof (decrement_length here p) as Hdl.
  destruct (_decrement here p) as [|q here'] eqn:Hdec.
  - split; [by apply dwf_pop|]. intros ip. rewrite dget_pop. case_decide; [|apply Hp]. by apply (counted_empty [] rest).
  - split; [by apply dwf_set|]. intros ip. rewrite dget_set. case_decide; [|apply Hp]. split; [done|]. split; [done|]. lia.
Qed.

Lemma admit_port_ok cap f ppd dst p : 0 < cap → ports_table_ok cap f ppd →
  ports_table_ok cap (λ ip, if decide (dst = ip) then f ip ++ (if (admit_port cap ppd dst p).1 then [p] else []) else f ip)
    (admit_port cap ppd dst p).2.
Proof.
  intros Hcap [Hwf Hp]. unfold admit_port. pose proof (Hp dst) as Hd. set (here := default [] (dget ppd dst)).
  assert (Hh : counted here (f dst) ∧ Z.of_nat (length here) ≤ cap).
  { unfold here. destruct (dget ppd dst) as [h|]; [naive_solver|]. rewrite Hd. split; [apply counted_nil|cbn; lia]. }
  destruct Hh as [Hc Hl]. destruct (admits cap here p) eqn:Ha; cbn [fst snd]; (split; [by apply dwf_set|]); intros ip; rewrite dget_set;
    (case_decide; [subst ip|apply Hp]).
  - split; [|split; [by apply counted_increment|by apply increment_length]]. intros Hnil.
    apply (counted_empty _ (f dst ++ [p])) in Hnil; [by destruct (f dst)|by apply counted_increment].
  - rewrite app_nil_r. split; [|done]. intros Hnil. unfold admits in Ha. rewrite Hnil in Ha. cbn in Ha. apply Z.ltb_ge in Ha. lia.
Qed.

(** ** An event leaves the window *)

Lemma expire_event_ok l e es ix : index_ok l (e :: es) ix → index_ok l es (_expire_event ix e).
Proof.
  intros [Hwf Hd Hp Hc Hpp Hmd Hmp Hmc]. apply Forall_cons in Hwf as [[He1 He2] Hes].
  unfold tracked_destinations, tracked_ports, tracked_pairs in *. rewrite filter_cons in Hd, Hp, Hc.
  unfold _expire_event. split; cbn [ix_destination_counts ix_ports ix_ports_per_destination ix_connections_per_destination]; try done.
  - destruct (be_destination_tracked e); [rewrite decide_True in Hd by done; by apply counted_decrement|by rewrite decide_False in Hd].
  - destruct (be_global_port_tracked e) eqn:Hg.
    + destruct (He2 eq_refl) as [p Hpe]. rewrite decide_True in Hp by done. cbn in Hp. rewrite Hpe in Hp |- *. by apply counted_decrement.
    + rewrite decide_False in Hp by done. by destruct (be_destination_port e).
  - destruct (be_pair_tracked e); [rewrite decide_True in Hc by done; by apply counted_decrement|by rewrite decide_False in Hc].
  - destruct (be_port_tracked e) eqn:Hpt.
    + destruct (He1 eq_refl) as [_ [p Hpe]]. rewrite Hpe. eapply ports_table_ext; [|eapply (expire_port_ok _ _ _ _ p); [exact Hpp|]].
      * intros ip. cbn beta. unfold tracked_ports_at. rewrite filter_cons.
        destruct (decide (be_destination_ip e = ip)) as [Hip|Hip]; [by subst ip|]. rewrite decide_False by naive_solver. done.
      * unfold tracked_ports_at. rewrite filter_cons, decide_True by done. cbn. by rewrite Hpe.
    + eapply ports_table_ext; [|by destruct (be_destination_port e)]. intros ip. unfold tracked_ports_at.
      rewrite filter_cons, decide_False by (rewrite Hpt; naive_solver). done.
  - destruct (be_destination_tracked e); [|done]. pose proof (decrement_length (ix_destination_counts ix) (be_destination_ip e)). lia.
  - destruct (be_destination_port e) as [p|]; [|done]. destruct (be_global_port_tracked e); [|done].
    pose proof (decrement_length (ix_ports ix) p). lia.
  - destruct (be_pair_tracked e); [|done].
    pose proof (decrement_length (ix_connections_per_destination ix) (be_destination_ip e, be_destination_port e)). lia.
Qed.

(** ** An event enters the window *)

Lemma admit_event_ok l es ix dst port ts : limits_ok l → index_ok l es ix →
  index_ok l (es ++ [(admit_event l ix dst port ts).2]) (admit_event l ix dst port ts).1.
Proof.
  intros (_ & Hmp0 & _) [Hwf Hd Hp Hc Hpp Hmd Hmp Hmc]. unfold admit_event.
  set (dt := admits (lm_max_destinations l) _ dst). set (gt := match port with Some p => admits (lm_max_ports l) (ix_ports ix) p | None => false end).
  set (pt := admits (lm_max_destinations l) _ (dst, port)).
  pose proof (λ p, admit_port_ok _ _ _ dst p Hmp0 Hpp) as Hap.
  destruct (match port with Some _ => if dt then _ else _ | None => _ end) as [ptk ppd] eqn:Hport. cbn [fst snd].
  assert (Hpt : ptk = true → dt = true ∧ is_Some port) by (intros ->; destruct port; [destruct dt; [eauto|]|]; congruence).
  assert (Hgt : gt = true → is_Some port) by (unfold gt; destruct port; [eauto|done]).
  split; unfold tracked_destinations, tracked_ports, tracked_pairs; rewrite ?filter_app, ?fmap_app, ?omap_app, ?filter_cons, ?filter_nil;
    cbn [be_destination_ip be_destination_port be_destination_tracked be_port_tracked be_global_port_tracked be_pair_tracked
         ix_destination_counts ix_ports ix_ports_per_destination ix_connections_per_destination].
  - apply Forall_app. split; [done|]. apply Forall_singleton. by split.
  - destruct dt; [by apply counted_increment|]. by rewrite app_nil_r.
  - destruct gt eqn:Hg; [destruct (Hgt eq_refl) as [p ->]; by apply counted_increment|]. rewrite app_nil_r. by destruct port.
  - destruct pt; [by apply counted_increment|]. by rewrite app_nil_r.
  - eapply ports_table_ext with (f := λ ip, if decide (dst = ip) then tracked_ports_at ip es ++ (if ptk then option_list port else [])
                                            else tracked_ports_at ip es).
    { intros ip. unfold tracked_ports_at. rewrite filter_app, omap_app, filter_cons, filter_nil. cbn.
      destruct (decide (dst = ip)) as [Hip|Hip]; [|rewrite decide_False by naive_solver; by rewrite app_nil_r].
      destruct ptk; [rewrite decide_True by done|rewrite decide_False by naive_solver; done]. cbn. by destruct port. }
    destruct port as [p|]; [destruct dt|].
    + specialize (Hap p). rewrite Hport in Hap. exact Hap.
    + injection Hport as <- <-. eapply ports_table_ext; [|exact Hpp]. intros ip. case_decide; [by rewrite app_nil_r|done].
    + injection Hport as <- <-. eapply ports_table_ext; [|exact Hpp]. intros ip. case_decide; [by rewrite app_nil_r|done].
  - unfold dt. destruct (admits (lm_max_destinations l) (ix_destination_counts ix) dst) eqn:Ha; [by apply increment_length|done].
  - unfold gt. destruct port as [p|]; [|done]. destruct (admits _ _ p) eqn:Ha; [by apply increment_length|done].
  - unfold pt. destruct (admits (lm_max_destinations l) (ix_connections_per_destination ix) (dst, port)) eqn:Ha; [by apply increment_length|done].
Qed.

(** An event is admitted everywhere unless a cap is exceeded with it. *)
Lemma admit_event_all l es ix dst port ts : index_ok l es ix → Forall admitted_event es →
  let es' := es ++ [(admit_event l ix dst port ts).2] in
  distinct (destinations_of es') ≤ lm_max_destinations l → distinct (pairs_of es') ≤ lm_max_destinations l → distinct (ports_of es') ≤ lm_max_ports l →
  Forall admitted_event es'.
Proof.
  intros Hix Hall es' Hd Hp Hq. apply Forall_app. split; [done|]. apply Forall_singleton.
  destruct (admitted_all es Hall) as (Ed & Ep & Eq & Ea). pose proof Hix as [_ Id Ip Ic [_ It] _ _ _]. rewrite Ed in Id. rewrite Ep in Ip. rewrite Eq in Ic.
  assert (Hev : event_connection (admit_event l ix dst port ts).2 = (ts, dst, port)).
  { unfold admit_event. destruct port as [p|]; [destruct (admits _ (ix_destination_counts ix) dst); [by destruct (admit_port _ _ _ _)|]|]; done. }
  unfold event_connection in Hev. injection Hev as _ Hdst Hport.
  unfold es', destinations_of, pairs_of, ports_of in Hd, Hp, Hq. rewrite fmap_app in Hd. rewrite fmap_app in Hp. rewrite omap_app in Hq. cbn [fmap list_fmap omap list_omap] in Hd, Hp, Hq.
  rewrite Hdst in Hd, Hp. rewrite Hport in Hp, Hq. unfold admitted_event. rewrite Hport. unfold admit_event.
  rewrite (counted_admits _ _ _ dst Id Hd), (counted_admits _ _ _ (dst, port) Ic Hp).
  destruct port as [p|]; [|split_and!; [done|done|by intros [? ?]]].
  rewrite (counted_admits _ _ _ p Ip Hq). unfold admit_port. specialize (It dst).
  assert (Hhere : counted (default [] (dget (ix_ports_per_destination ix) dst)) (ports_at dst es)).
  { rewrite <- Ea. destruct (dget _ dst) as [here|]; cbn; [by destruct It as (_ & ? & _)|]. rewrite It. apply counted_nil. }
  rewrite (counted_admits (lm_max_ports l) _ _ p Hhere); [by split_and!|]. etransitivity; [|exact Hq]. apply distinct_mono. intros k.
  rewrite !elem_of_app. intros [Hk|Hk]; [left|by right]. apply list_elem_of_omap in Hk as (e & He & Hke). apply list_elem_of_filter in He as [_ He].
  apply list_elem_of_omap. by exists e.
Qed.

(** ** Queues with an index *)

Section Queue.
Context {A I : Type} (expire : I → A → I) (P : list A → I → Prop).
Context (Hexpire : ∀ a q i, P (a :: q) i → P q (expire i a)).

Lemma expire_while_ok old q i : P q i → P (expire_while old expire q i).1 (expire_while old expire q i).2.
Proof. revert i. induction q as [|a q IH]; intros i Hp; [done|]. cbn. destruct (old a); [|done]. by apply IH, Hexpire. Qed.

Lemma expire_while_queue old q i : (expire_while old expire q i).1 = popleft_while old q.
Proof. revert i. induction q as [|a q IH]; intros i; [done|]. cbn. by destruct (old a). Qed.

Lemma make_room_ok cap q i : P q i → P (make_room cap expire q i).1 (make_room cap expire q i).2.
Proof. intros Hp. unfold make_room. destruct (_ <=? _); [|done]. destruct q as [|a q]; [done|]. by apply Hexpire. Qed.

Lemma make_room_incl cap q i x : x ∈ (make_room cap expire q i).1 → x ∈ q.
Proof. unfold make_room. destruct (_ <=? _); [|done]. destruct q; [done|]. cbn. intros Hx. by right. Qed.

Lemma make_room_length cap q i : 0 < cap → Z.of_nat (length q) ≤ cap → Z.of_nat (length (make_room cap expire q i).1) < cap.
Proof. intros Hc Hl. unfold make_room. destruct (Z.leb_spec cap (Z.of_nat (length q))); [|done]. destruct q; cbn in *; lia. Qed.
End Queue.

(** ** The invariant of a source *)

Definition tracked_failures (fs : list (Z * IPv4.t * bool)) : list IPv4.t :=
  (λ f, f.1.2) <$> filter (λ f : Z * IPv4.t * bool, f.2 = true) fs.

Definition failed_destinations (fs : list (Z * IPv4.t * bool)) : list IPv4.t := (λ f, f.1.2) <$> fs.

Definition failures_ok (l : SourceLimits) (fs : list (Z * IPv4.t * bool)) (d : list (IPv4.t * Z)) : Prop :=
  counted d (tracked_failures fs) ∧ Z.of_nat (length d) ≤ lm_max_destinations l.

Definition flood_ok (l : SourceLimits) (now : Z) (q : IPv4.t * list Z) : Prop :=
  q.2 ≠ [] ∧ Z.of_nat (length q.2) ≤ lm_max_flood_entries l ∧ Forall (λ t, t ≤ now) q.2.

Record src_inv (s : SourceBehaviorState) : Prop := {
  si_limits : limits_ok (bs_limits s);
  si_index : index_ok (bs_limits s) (bs_events s) (bs_index s);
  si_events : Z.of_nat (length (bs_events s)) ≤ lm_max_events (bs_limits s);
  si_event_times : Forall (λ e, be_timestamp e ≤ bs_last_seen s) (bs_events s);
  si_failures : failures_ok (bs_limits s) (bs_failures s) (bs_failures_per_destination s);
  si_failure_count : Z.of_nat (length (bs_failures s)) ≤ lm_max_events (bs_limits s);
  si_failure_times : Forall (λ f, f.1.1 ≤ bs_last_seen s) (bs_failures s);
  si_recent : Z.of_nat (length (bs_recent_connection_times s)) ≤ lm_max_recent (bs_limits s);
  si_slow_wf : dwf (bs_slow_connection_counts s);
  si_slow : Z.of_nat (length (bs_slow_connection_counts s)) ≤ lm_max_destinations (bs_limits s);
  si_slow_times : Forall (λ q, q.2.2 ≤ bs_last_seen s) (bs_slow_connection_counts s);
  si_flood_wf : dwf (bs_recent_per_destination s);
  si_floods : Z.of_nat (length (bs_recent_per_destination s)) ≤ lm_max_destinations (bs_limits s);
  si_flood_entries : Forall (flood_ok (bs_limits s) (bs_last_seen s)) (bs_recent_per_destination s);
  si_seen : bs_first_seen s ≤ bs_last_seen s;
}.

Lemma new_source_inv l t : limits_ok l → src_inv (new_source l t).
Proof.
  intros Hl. pose proof Hl as (? & ? & ? & ? & ?).
  split; cbn; try done; try lia; [by apply index_nil|split; [apply counted_nil|cbn; lia]|apply dwf_nil|apply dwf_nil].
Qed.

Lemma expire_failure_ok l f fs d : failures_ok l (f :: fs) d → failures_ok l fs (_expire_failure d f).
Proof.
  intros [Hc Hl]. destruct f as [[t dst] []]; unfold failures_ok, tracked_failures in *; rewrite filter_cons in Hc; cbn in *; [|done].
  split; [by apply counted_decrement|]. pose proof (decrement_length d dst). lia.
Qed.

Lemma popleft_incl {A} (old : A → bool) q x : x ∈ popleft_while old q → x ∈ q.
Proof. induction q as [|a q IH]; [done|]. cbn. destruct (old a); [|done]. set_solver. Qed.

Lemma live_floods_ok l now h d : Forall (flood_ok l now) d → dwf d →
  ∃ d', live_floods h d = Ok d' ∧ dwf d' ∧ (length d' ≤ length d)%nat ∧ (∀ q, q ∈ d' ↔ q ∈ d ∧ ∃ t, last q.2 = Some t ∧ h ≤ t).
Proof.
  induction d as [|[ip times] d IH]; intros Hall Hwf; [exists []; split_and!; try done; set_solver|].
  apply Forall_cons in Hall as [(Hne & _) Hall]. pose proof (dwf_tail _ Hwf) as Hwf'. destruct (IH Hall Hwf') as (d' & Hd & Hw & Hl & Hin).
  cbn [live_floods]. destruct (last times) as [t|] eqn:Hlast; [|by apply last_None in Hlast]. rewrite Hd. cbn [rbind].
  destruct (Z.ltb_spec t h).
  - exists d'. split_and!; [done|done|cbn; lia|]. intros q. rewrite elem_of_cons, Hin. split; [naive_solver|].
    intros [[->|Hq] (t' & Ht & Hh)]; [cbn in Ht; rewrite Hlast in Ht; injection Ht as <-; lia|eauto].
  - exists ((ip, times) :: d'). split_and!; [done| |cbn; lia|].
    + unfold dwf, dkeys in *. cbn in *. apply NoDup_cons in Hwf as [Hn _]. constructor; [|done]. intros Hi. destruct Hn.
      apply list_elem_of_fmap in Hi as (q & -> & Hq). apply list_elem_of_fmap. exists q. split; [done|]. by apply Hin.
    + intros q. rewrite !elem_of_cons, Hin. split; [intros [->|[Hq Ht]]; [eauto|naive_solver]|naive_solver].
Qed.

Lemma times_later {A} (time : A → Z) l l' a b : (∀ x, x ∈ l' → x ∈ l) → a ≤ b →
  Forall (λ x, time x ≤ a) l → Forall (λ x, time x ≤ b) l'.
Proof. rewrite !Forall_forall. intros Hsub Hab Hl x Hx. specialize (Hl x (Hsub x Hx)). cbn in Hl. lia. Qed.

(** Everything [_advance] does. *)
Lemma advance_ok s ts : src_inv s →
  let now := Z.max (bs_last_seen s) ts in
  let horizon := now - timedelta_of_seconds (lm_window_seconds (bs_limits s)) in
  ∃ s', _advance s ts = Ok s' ∧ src_inv s' ∧ bs_limits s' = bs_limits s ∧ bs_last_seen s' = now ∧
    bs_first_seen s' = bs_first_seen s ∧ bs_events s' = popleft_while (λ e, be_timestamp e <? horizon) (bs_events s) ∧
    bs_failures s' = popleft_while (λ f, f.1.1 <? horizon) (bs_failures s) ∧
    bs_recent_connection_times s' = bs_recent_connection_times s ∧
    (∀ q, q ∈ bs_slow_connection_counts s' ↔ q ∈ bs_slow_connection_counts s ∧ horizon ≤ q.2.2).
Proof.
  intros [Hl Hix Hec Het Hf Hfc Hft Hr Hsw Hs Hst Hfw Hfl Hfe Hse] now horizon. unfold _advance.
  assert (Hnow : (if bs_last_seen s <? ts then ts else bs_last_seen s) = now) by (unfold now; destruct (Z.ltb_spec (bs_last_seen s) ts); lia).
  rewrite Hnow. fold horizon. assert (Hle : bs_last_seen s ≤ now) by (unfold now; lia).
  pose proof (expire_while_ok _ (index_ok (bs_limits s)) (expire_event_ok _) (λ e, be_timestamp e <? horizon) _ _ Hix) as Hix'.
  pose proof (expire_while_queue _expire_event (λ e, be_timestamp e <? horizon) (bs_events s) (bs_index s)) as Hq.
  pose proof (expire_while_ok _ (failures_ok (bs_limits s)) (expire_failure_ok _) (λ f, f.1.1 <? horizon) _ _ Hf) as Hf'.
  pose proof (expire_while_queue _expire_failure (λ f, f.1.1 <? horizon) (bs_failures s) (bs_failures_per_destination s)) as Hq'.
  destruct (expire_while _ _expire_event _ _) as [events ix]. destruct (expire_while _ _expire_failure _ _) as [failures fpd].
  cbn [fst snd] in *. destruct (live_floods_ok _ _ (now - timedelta_of_seconds (lm_flood_window_seconds (bs_limits s))) _ Hfe Hfw)
    as (floods & -> & Hfw' & Hfl' & Hfin). cbn [rbind]. eexists. split; [reflexivity|].
  split; [|split_and!; try done; intros q; cbn; rewrite list_elem_of_filter; naive_solver].
  pose proof (popleft_length (λ e, be_timestamp e <? horizon) (bs_events s)).
  pose proof (popleft_length (λ f : Z * IPv4.t * bool, f.1.1 <? horizon) (bs_failures s)).
  split; cbn; try done; rewrite ?Hq, ?Hq'; try lia.
  - eapply times_later; [|exact Hle|exact Het]. intros e. apply popleft_incl.
  - eapply times_later; [|exact Hle|exact Hft]. intros f. apply popleft_incl.
  - unfold dwf, dkeys. eapply sublist_NoDup; [exact Hsw|]. apply fmap_sublist, sublist_filter.
  - pose proof (length_filter (λ q : IPv4.t * (Z * Z), horizon ≤ q.2.2) (bs_slow_connection_counts s)). lia.
  - eapply times_later; [|exact Hle|exact Hst]. intros q. rewrite list_elem_of_filter. by intros [_ ?].
  - apply Forall_forall. intros q Hq0. apply Hfin in Hq0 as [Hq0 _]. rewrite Forall_forall in Hfe. destruct (Hfe q Hq0) as (? & ? & Ht).
    split; [done|]. split; [done|]. eapply Forall_impl; [exact Ht|]. intros t. cbn. lia.
Qed.

(** ** The operations keep it *)

Lemma note_flood_ok l d now dst ts : limits_ok l → ts ≤ now → dwf d → Z.of_nat (length d) ≤ lm_max_destinations l →
  Forall (flood_ok l now) d →
  dwf (note_flood l d dst ts) ∧ Z.of_nat (length (note_flood l d dst ts)) ≤ lm_max_destinations l ∧
  Forall (flood_ok l now) (note_flood l d dst ts).
Proof.
  intros (_ & _ & _ & _ & Hm) Hts Hwf Hl Hall. unfold note_flood.
  assert (Hnew : ∀ times, Forall (λ t, t ≤ now) times → flood_ok l now (dst, deque_append (lm_max_flood_entries l) times ts)).
  { intros times Ht. split; [|split].
    - cbn. intros Hnil. pose proof (deque_append_last (lm_max_flood_entries l) times ts Hm) as Hlast. by rewrite Hnil in Hlast.
    - apply deque_append_le. lia.
    - cbn. unfold deque_append. apply Forall_drop, Forall_app. split; [done|by apply Forall_singleton]. }
  assert (Hset : ∀ times, Forall (λ t, t ≤ now) times → Forall (flood_ok l now) (dset d dst (deque_append (lm_max_flood_entries l) times ts))).
  { intros times Ht. rewrite Forall_forall in Hall |- *. intros [k v] Hin. destruct (decide (dst = k)) as [<-|Hne].
    - apply (dget_elem (dset d dst _)) in Hin; [|by apply dwf_set]. rewrite dget_set_eq in Hin. injection Hin as <-. by apply Hnew.
    - apply (dget_elem (dset d dst _)) in Hin; [|by apply dwf_set]. rewrite dget_set_ne in Hin by done. apply Hall. by apply dget_Some_elem. }
  destruct (dget d dst) as [times|] eqn:Hd.
  - split; [by apply dwf_set|]. split; [rewrite dset_length, decide_True; [done|]; apply dget_is_Some; eauto|]. apply Hset.
    apply dget_Some_elem in Hd. rewrite Forall_forall in Hall. by apply (Hall _ Hd).
  - destruct (Z.ltb_spec (Z.of_nat (length d)) (lm_max_destinations l)); [|done]. split; [by apply dwf_set|]. split; [|by apply Hset].
    rewrite dset_length. case_decide; lia.
Qed.

Lemma observe_new_connection_ok s dst port ts : src_inv s →
  ∃ s', observe_new_connection s dst port ts = Ok s' ∧ src_inv s' ∧ bs_limits s' = bs_limits s ∧
    bs_last_seen s' = Z.max (bs_last_seen s) ts.
Proof.
  intros Hs. destruct (advance_ok s ts Hs) as (s1 & Hadv & Hs1 & Hl1 & Hn1 & _). unfold observe_new_connection. rewrite Hadv. cbn [rbind].
  pose proof Hs1 as [Hl Hix Hec Het Hf Hfc Hft Hr Hsw Hsl Hst Hfw Hfl Hfe Hse]. pose proof Hl as (_ & _ & Hmr & Hme & _).
  pose proof (make_room_ok _ (index_ok (bs_limits s1)) (expire_event_ok _) (lm_max_events (bs_limits s1)) _ _ Hix) as Hix'.
  pose proof (make_room_length _expire_event (lm_max_events (bs_limits s1)) (bs_events s1) (bs_index s1) Hme Hec) as Hlen.
  pose proof (make_room_incl _expire_event (lm_max_events (bs_limits s1)) (bs_events s1) (bs_index s1)) as Hsub.
  destruct (make_room _ _expire_event _ _) as [events ix]. cbn [fst snd] in *.
  pose proof (admit_event_ok _ _ _ dst port ts Hl Hix') as Hadm. assert (Hev : be_timestamp (admit_event (bs_limits s1) ix dst port ts).2 = ts).
  { unfold admit_event. destruct port as [p|]; [destruct (admits _ (ix_destination_counts ix) dst); [by destruct (admit_port _ _ _ _)|]|]; done. }
  destruct (admit_event (bs_limits s1) ix dst port ts) as [ix' e]. cbn [fst snd] in *. assert (Hts : ts ≤ bs_last_seen s1) by (rewrite Hn1; lia).
  destruct (note_flood_ok _ _ _ dst ts Hl Hts Hfw Hfl Hfe) as (? & ? & ?). eexists. split; [reflexivity|]. split; [|done].
  split; cbn; try done.
  - rewrite length_app. cbn. lia.
  - apply Forall_app. split; [|apply Forall_singleton; by rewrite Hev]. by apply (times_later be_timestamp (bs_events s1) _ (bs_last_seen s1)).
  - apply deque_append_le. lia.
Qed.

Lemma observe_completion_ok s f : src_inv s →
  ∃ s', observe_completion s f = Ok s' ∧ src_inv s' ∧ bs_limits s' = bs_limits s ∧ bs_last_seen s' = Z.max (bs_last_seen s) (fl_last_seen f) ∧
    bs_events s' = popleft_while (λ e, be_timestamp e <? bs_last_seen s' - timedelta_of_seconds (lm_window_seconds (bs_limits s))) (bs_events s).
Proof.
  intros Hs. destruct (advance_ok s (fl_last_seen f) Hs) as (s1 & Hadv & Hs1 & Hl1 & Hn1 & _ & He1 & _). unfold observe_completion.
  rewrite Hadv. cbn [rbind]. destruct (negb _); [exists s1; split_and!; try done; by rewrite Hn1|].
  pose proof Hs1 as [Hl Hix Hec Het Hf Hfc Hft Hr Hsw Hsl Hst Hfw Hfl Hfe Hse]. pose proof Hl as (_ & _ & _ & Hme & _).
  pose proof (make_room_ok _ (failures_ok (bs_limits s1)) (expire_failure_ok _) (lm_max_events (bs_limits s1)) _ _ Hf) as Hf'.
  pose proof (make_room_length _expire_failure (lm_max_events (bs_limits s1)) _ (bs_failures_per_destination s1) Hme Hfc) as Hlen.
  pose proof (make_room_incl _expire_failure (lm_max_events (bs_limits s1)) (bs_failures s1) (bs_failures_per_destination s1)) as Hsub.
  destruct (make_room _ _expire_failure _ _) as [failures fpd]. cbn [fst snd] in *.
  eexists. split; [reflexivity|]. split; [|by rewrite Hn1 in *]. split; cbn; try done.
  - destruct Hf' as [Hc Hcap]. unfold failures_ok, tracked_failures in *. rewrite filter_app, fmap_app, filter_cons, filter_nil. cbn.
    destruct (admits _ fpd _) eqn:Ha; cbn; [split; [by apply counted_increment|by apply increment_length]|by rewrite app_nil_r].
  - rewrite length_app. cbn. lia.
  - apply Forall_app. split; [by apply (times_later (λ x : Z * IPv4.t * bool, x.1.1) (bs_failures s1) _ (bs_last_seen s1))|].
    apply Forall_singleton. cbn. rewrite Hn1. lia.
Qed.

Lemma note_slow_connections_ok s dst n ts : src_inv s →
  ∃ s', note_slow_connections s dst n ts = Ok s' ∧ src_inv s' ∧ bs_limits s' = bs_limits s ∧ bs_last_seen s' = Z.max (bs_last_seen s) ts ∧
    bs_events s' = popleft_while (λ e, be_timestamp e <? bs_last_seen s' - timedelta_of_seconds (lm_window_seconds (bs_limits s))) (bs_events s).
Proof.
  intros Hs. destruct (advance_ok s ts Hs) as (s1 & Hadv & Hs1 & Hl1 & Hn1 & _ & He1 & _). unfold note_slow_connections.
  rewrite Hadv. cbn [rbind]. destruct (admits _ _ dst) eqn:Ha; [|exists s1; split_and!; try done; by rewrite Hn1].
  pose proof Hs1 as [Hl Hix Hec Het Hf Hfc Hft Hr Hsw Hsl Hst Hfw Hfl Hfe Hse].
  eexists. split; [reflexivity|]. split; [|by rewrite Hn1 in *]. split; cbn; try done; [by apply dwf_set| |].
  - unfold admits in Ha. rewrite dset_length. case_decide as Hk; [done|]. apply orb_true_iff in Ha as [Hm|Hlt]; [|apply Z.ltb_lt in Hlt; lia].
    apply dmem_true in Hm. by apply dget_is_Some in Hm.
  - rewrite Forall_forall in Hst |- *. intros [k v] Hin. apply dget_elem in Hin; [|by apply dwf_set]. rewrite dget_set in Hin. case_decide.
    + injection Hin as <-. cbn. rewrite Hn1. lia.
    + apply (Hst (k, v)). by apply dget_Some_elem.
Qed.

(** ** The window of an orderly source *)

Definition lastn {A} (n : nat) (l : list A) : list A := drop (length l - n) l.

Lemma lastn_all {A} n (l : list A) : (length l ≤ n)%nat → lastn n l = l.
Proof. intros Hl. unfold lastn. by replace (length l - n)%nat with 0%nat by lia. Qed.

Lemma lastn_cons {A} n (x : A) l : lastn n (x :: l) = if decide (length l < n)%nat then x :: l else lastn n l.
Proof.
  case_decide; [apply lastn_all; cbn; lia|]. unfold lastn. cbn [length].
  by replace (S (length l) - n)%nat with (S (length l - n)) by lia.
Qed.

Lemma lastn_snoc {A} n (l : list A) x : (0 < n)%nat → lastn n (l ++ [x]) = lastn (n - 1) l ++ [x].
Proof.
  intros Hn. unfold lastn. rewrite length_app. cbn. replace (length l + 1 - n)%nat with (length l - (n - 1))%nat by lia.
  by rewrite drop_app_le by lia.
Qed.

Lemma lastn_lastn {A} n m (l : list A) : (n ≤ m)%nat → lastn n (lastn m l) = lastn n l.
Proof. intros Hnm. unfold lastn. rewrite length_drop, drop_drop. f_equal. lia. Qed.

Section Ordered.
Context {A : Type} (time : A → Z).

Definition ordered (l : list A) : Prop := StronglySorted (λ a b, time a ≤ time b) l.

Lemma filter_lastn n h l : ordered l → filter (λ x, h ≤ time x) (lastn n l) = lastn n (filter (λ x, h ≤ time x) l).
Proof.
  induction l as [|x l IH]; intros Hs; [done|]. apply StronglySorted_inv in Hs as [Hs Hx]. rewrite lastn_cons, filter_cons.
  destruct (decide (h ≤ time x)) as [Hh|Hh].
  - assert (Hall : filter (λ x, h ≤ time x) l = l).
    { apply filter_all. intros y Hy. rewrite Forall_forall in Hx. specialize (Hx y Hy). cbn in Hx. lia. }
    rewrite Hall, lastn_cons. case_decide; [by rewrite filter_cons_True, Hall|]. by rewrite IH, Hall.
  - case_decide as Hl; [rewrite filter_cons_False by done; rewrite lastn_all; [done|]|by rewrite IH].
    pose proof (length_filter (λ x, h ≤ time x) l). lia.
Qed.

Lemma popleft_ordered h l : ordered l → popleft_while (λ x, time x <? h) l = filter (λ x, h ≤ time x) l.
Proof.
  induction l as [|x l IH]; intros Hs; [done|]. apply StronglySorted_inv in Hs as [Hs Hx]. cbn [popleft_while]. rewrite filter_cons.
  destruct (Z.ltb_spec (time x) h); [rewrite decide_False by lia; by apply IH|]. rewrite decide_True by lia. f_equal. symmetry.
  apply filter_all. intros y Hy. rewrite Forall_forall in Hx. specialize (Hx y Hy). cbn in Hx. lia.
Qed.

Lemma filter_later h h' (l : list A) : h ≤ h' → filter (λ x, h' ≤ time x) (filter (λ x, h ≤ time x) l) = filter (λ x, h' ≤ time x) l.
Proof.
  intros Hh. induction l as [|x l IH]; [done|]. rewrite !filter_cons.
  destruct (decide (h ≤ time x)); [rewrite filter_cons|]; repeat case_decide; try lia; by rewrite IH.
Qed.

Lemma ordered_snoc l x : ordered l → Forall (λ y, time y ≤ time x) l → ordered (l ++ [x]).
Proof.
  intros Hs. induction Hs as [|y l Hs IH Hy]; intros Hall; cbn; [repeat constructor|]. apply Forall_cons in Hall as [? Hall].
  constructor; [by apply IH|]. apply Forall_app. split; [done|]. by repeat constructor.
Qed.
End Ordered.

(** What a source does, in order. *)
Inductive src_op :=
| SrcConnection (dst : IPv4.t) (port : option Z) (ts : Z)
| SrcCompletion (f : Flow)
| SrcSlow (dst : IPv4.t) (n ts : Z)
| SrcPrune (now : Z).

Definition src_do (s : SourceBehaviorState) (op : src_op) : result SourceBehaviorState :=
  match op with
  | SrcConnection dst port ts => observe_new_connection s dst port ts
  | SrcCompletion f => observe_completion s f
  | SrcSlow dst n ts => note_slow_connections s dst n ts
  | SrcPrune now => prune_source s now
  end.

Definition src_run (s : SourceBehaviorState) (ops : list src_op) : result SourceBehaviorState :=
  foldl (λ r op, rbind r (λ s, src_do s op)) (Ok s) ops.

Definition op_time (op : src_op) : Z :=
  match op with SrcConnection _ _ ts => ts | SrcCompletion f => fl_last_seen f | SrcSlow _ _ ts => ts | SrcPrune now => now end.

(** The connections a run opened: when, to whom and on which port; and the
    attempts that were never answered: a TCP flow with a SYN and nothing back. *)
Definition connection_of (op : src_op) : option (Z * IPv4.t * option Z) :=
  match op with SrcConnection dst port ts => Some (ts, dst, port) | _ => None end.
Definition failure_of (op : src_op) : option (Z * IPv4.t) :=
  match op with
  | SrcCompletion f =>
      if decide (fl_protocol f = TCP ∧ fl_backward_packet_count f = 0 ∧ 1 ≤ default 0 (fl_tcp_flags f !! 0%nat))
      then Some (fl_last_seen f, fl_destination_ip f) else None
  | _ => None
  end.

Lemma src_do_ok s op : src_inv s →
  ∃ s', src_do s op = Ok s' ∧ src_inv s' ∧ bs_limits s' = bs_limits s ∧ bs_last_seen s' = Z.max (bs_last_seen s) (op_time op).
Proof.
  intros Hs. destruct op as [dst port ts|f|dst n ts|now]; cbn.
  - by apply observe_new_connection_ok.
  - destruct (observe_completion_ok s f Hs) as (s' & ? & ? & ? & ? & _). eauto.
  - destruct (note_slow_connections_ok s dst n ts Hs) as (s' & ? & ? & ? & ? & _). eauto.
  - destruct (advance_ok s now Hs) as (s' & ? & ? & ? & ? & _). exists s'. done.
Qed.

Lemma src_run_ok l t0 ops : limits_ok l →
  ∃ s, src_run (new_source l t0) ops = Ok s ∧ src_inv s ∧ bs_limits s = l.
Proof.
  intros Hl. induction ops as [|op ops IH] using rev_ind; [exists (new_source l t0); split_and!; try done; by apply new_source_inv|].
  destruct IH as (s & Hrun & Hs & Hls). unfold src_run in *. rewrite foldl_app, Hrun. cbn.
  destruct (src_do_ok s op Hs) as (s' & -> & Hs' & Hl' & _). exists s'. split_and!; try done. congruence.
Qed.

(** The span of the window. *)
Definition window_of (l : SourceLimits) : Z := timedelta_of_seconds (lm_window_seconds l).

Definition conn_time (c : Z * IPv4.t * option Z) : Z := c.1.1.
Definition failure_time (c : Z * IPv4.t) : Z := c.1.

(** What a window should hold: the latest, no more than the cap, of what is
    not older than the window. *)
Definition window_items {A} (time : A → Z) (l : SourceLimits) (now : Z) (cs : list A) : list A :=
  lastn (Z.to_nat (lm_max_events l)) (filter (λ c, now - window_of l ≤ time c) cs).

Lemma popleft_fmap {A B} (f : A → B) (old : B → bool) l : f <$> popleft_while (λ x, old (f x)) l = popleft_while old (f <$> l).
Proof. induction l as [|x l IH]; [done|]. cbn. by destruct (old (f x)). Qed.

Lemma ordered_filter {A} (time : A → Z) (P : A → Prop) `{!∀ x, Decision (P x)} l : ordered time l → ordered time (filter P l).
Proof.
  intros Hs. induction Hs as [|x l Hs IH Hx]; [constructor|]. rewrite filter_cons. case_decide; [|done]. constructor; [done|].
  rewrite Forall_forall in Hx |- *. intros y Hy. apply Hx. by apply list_elem_of_filter in Hy as [_ ?].
Qed.

Lemma ordered_app_inv {A} (time : A → Z) l x : ordered time (l ++ [x]) → ordered time l ∧ Forall (λ y, time y ≤ time x) l.
Proof.
  induction l as [|y l IH]; intros Hs; [split; constructor|]. apply StronglySorted_inv in Hs as [Hs Hy]. destruct (IH Hs) as [Hl Hx].
  apply Forall_app in Hy as [Hy1 Hy2]. pose proof (proj1 (Forall_singleton _ _) Hy2) as Hyx. split; constructor; [exact Hl|exact Hy1|exact Hyx|exact Hx].
Qed.

Lemma ordered_drop {A} (time : A → Z) n l : ordered time l → ordered time (drop n l).
Proof. revert l. induction n as [|n IH]; intros [|x l]; [done..|]. cbn. intros Hs. apply IH. by apply StronglySorted_inv in Hs as [? _]. Qed.

(** Time passes: what is too old leaves. *)
Lemma window_advance {A} (time : A → Z) l now now' cs : now ≤ now' → ordered time cs →
  popleft_while (λ c, time c <? now' - window_of l) (window_items time l now cs) = window_items time l now' cs.
Proof.
  intros Hn Ho. unfold window_items. rewrite popleft_ordered by (unfold lastn; by apply ordered_drop, ordered_filter).
  rewrite filter_lastn by (by apply ordered_filter). by rewrite filter_later by lia.
Qed.

(** An item enters. *)
Lemma window_enter {A} (time : A → Z) l now cs c : 0 ≤ window_of l → time c = now → 0 < lm_max_events l →
  window_items time l now (cs ++ [c]) = lastn (Z.to_nat (lm_max_events l) - 1) (window_items time l now cs) ++ [c].
Proof.
  intros Hw Hc Hm. unfold window_items. rewrite filter_app, filter_cons_True, filter_nil by lia.
  rewrite lastn_snoc by lia. by rewrite lastn_lastn by lia.
Qed.

Lemma make_room_lastn {A I} (expire : I → A → I) cap q i : 0 < cap → Z.of_nat (length q) ≤ cap →
  (make_room cap expire q i).1 = lastn (Z.to_nat cap - 1) q.
Proof.
  intros Hc Hl. unfold make_room. destruct (Z.leb_spec cap (Z.of_nat (length q))); [|rewrite lastn_all; [done|lia]].
  destruct q as [|a q]; [done|]. cbn [length fst] in *. rewrite lastn_cons, decide_False, lastn_all by lia. done.
Qed.

Lemma lastn_fmap {A B} (f : A → B) n l : f <$> lastn n l = lastn n (f <$> l).
Proof. unfold lastn. by rewrite fmap_drop, length_fmap. Qed.

(** One operation on a queue of the state: the old items leave, and the item
    of the operation, if it has one, enters. *)
Definition queue_step {A} (time : A → Z) (item : option A) (l : SourceLimits) (now : Z) (q : list A) : list A :=
  let rest := popleft_while (λ c, time c <? now - window_of l) q in
  match item with None => rest | Some c => lastn (Z.to_nat (lm_max_events l) - 1) rest ++ [c] end.

Lemma event_time_fmap h es : event_connection <$> popleft_while (λ e, be_timestamp e <? h) es =
  popleft_while (λ c, conn_time c <? h) (event_connection <$> es).
Proof. exact (popleft_fmap event_connection (λ c, conn_time c <? h) es). Qed.
Lemma failure_time_fmap h fs : fst <$> popleft_while (λ f : Z * IPv4.t * bool, f.1.1 <? h) fs =
  popleft_while (λ c, failure_time c <? h) (fst <$> fs).
Proof. exact (popleft_fmap fst (λ c, failure_time c <? h) fs). Qed.

(** What a connection does: the events after the others left, and the new one *)
Lemma observe_new_connection_events s dst port ts s' : src_inv s → observe_new_connection s dst port ts = Ok s' →
  ∃ es ix, index_ok (bs_limits s) es ix ∧ bs_events s' = es ++ [(admit_event (bs_limits s) ix dst port ts).2] ∧
    es = lastn (Z.to_nat (lm_max_events (bs_limits s)) - 1)
           (popleft_while (λ e, be_timestamp e <? bs_last_seen s' - window_of (bs_limits s)) (bs_events s)) ∧
    bs_failures s' = popleft_while (λ f, f.1.1 <? bs_last_seen s' - window_of (bs_limits s)) (bs_failures s).
Proof.
  intros Hs Ho. destruct (advance_ok s ts Hs) as (s1 & Hadv & Hs1 & Hl1 & Hn1 & _ & He1 & Hf1 & _). unfold observe_new_connection in Ho.
  rewrite Hadv in Ho. cbn [rbind] in Ho. rewrite Hl1 in Ho. pose proof (si_limits _ Hs1) as (_ & _ & _ & Hme & _).
  pose proof (make_room_lastn _expire_event (lm_max_events (bs_limits s1)) (bs_events s1) (bs_index s1) Hme (si_events _ Hs1)) as Hroom.
  pose proof (make_room_ok _ (index_ok (bs_limits s1)) (expire_event_ok _) (lm_max_events (bs_limits s1)) _ _ (si_index _ Hs1)) as Hix.
  rewrite Hl1 in *. destruct (make_room _ _expire_event _ _) as [events ix]. cbn [fst snd] in *.
  exists events, ix. destruct (admit_event (bs_limits s) ix dst port ts) as [ix' e]. injection Ho as <-. cbn [bs_events bs_failures bs_last_seen snd].
  rewrite Hn1, He1 in *. done.
Qed.
(** What a completion does to the failures *)
Lemma observe_completion_failures s f s' : src_inv s → observe_completion s f = Ok s' →
  let rest := popleft_while (λ x : Z * IPv4.t * bool, x.1.1 <? bs_last_seen s' - window_of (bs_limits s)) (bs_failures s) in
  match failure_of (SrcCompletion f) with
  | None => bs_failures s' = rest
  | Some (ts, dst) => ∃ fs d, failures_ok (bs_limits s) fs d ∧ fs = lastn (Z.to_nat (lm_max_events (bs_limits s)) - 1) rest ∧
      bs_failures s' = fs ++ [(ts, dst, admits (lm_max_destinations (bs_limits s)) d dst)]
  end.
Proof.
  intros Hs Ho. destruct (advance_ok s (fl_last_seen f) Hs) as (s1 & Hadv & Hs1 & Hl1 & Hn1 & _ & He1 & Hf1 & _). unfold observe_completion in Ho.
  rewrite Hadv in Ho. cbn [rbind] in Ho. rewrite Hl1 in Ho. pose proof (si_limits _ Hs1) as (_ & _ & _ & Hme & _). cbn [failure_of].
  assert (Hiff : is_failed_connection_attempt f = true ↔
    fl_protocol f = TCP ∧ fl_backward_packet_count f = 0 ∧ 1 ≤ default 0 (fl_tcp_flags f !! 0%nat)).
  { unfold is_failed_connection_attempt. rewrite !andb_true_iff, bool_decide_eq_true, Z.eqb_eq, Z.leb_le. tauto. }
  destruct (is_failed_connection_attempt f); cbn [negb] in Ho; case_decide; try (exfalso; naive_solver congruence).
  - pose proof (make_room_lastn _expire_failure (lm_max_events (bs_limits s1)) (bs_failures s1) (bs_failures_per_destination s1) Hme (si_failure_count _ Hs1)) as Hroom.
    pose proof (make_room_ok _ (failures_ok (bs_limits s1)) (expire_failure_ok _) (lm_max_events (bs_limits s1)) _ _ (si_failures _ Hs1)) as Hok.
    rewrite Hl1 in *. destruct (make_room _ _expire_failure _ _) as [fs d]. cbn [fst snd] in *. injection Ho as <-.
    exists fs, d. cbn [bs_failures bs_last_seen]. rewrite Hn1, Hf1 in *. done.
  - injection Ho as <-. by rewrite Hn1, Hf1.
Qed.

Lemma slow_queues s dst n ts s' : src_inv s → note_slow_connections s dst n ts = Ok s' →
  bs_failures s' = popleft_while (λ x : Z * IPv4.t * bool, x.1.1 <? bs_last_seen s' - window_of (bs_limits s)) (bs_failures s).
Proof.
  intros Hs Ho. destruct (advance_ok s ts Hs) as (s1 & Hadv & _ & Hl1 & Hn1 & _ & _ & Hf1 & _). unfold note_slow_connections in Ho.
  rewrite Hadv in Ho. cbn [rbind] in Ho. destruct (admits _ _ dst); injection Ho as <-; cbn [bs_failures bs_last_seen]; by rewrite Hn1, Hf1.
Qed.

(** What every operation does to the two queues *)
Lemma events_step s op s' : src_inv s → src_do s op = Ok s' →
  event_connection <$> bs_events s' = queue_step conn_time (connection_of op) (bs_limits s) (bs_last_seen s') (event_connection <$> bs_events s).
Proof.
  intros Hs Hdo. unfold queue_step. cbv zeta. rewrite <- event_time_fmap. destruct op as [dst port ts|f|dst n ts|now]; cbn [src_do connection_of] in *.
  - destruct (observe_new_connection_events s dst port ts s' Hs Hdo) as (es & ix & _ & -> & -> & _). rewrite fmap_app, lastn_fmap. do 2 f_equal.
    unfold admit_event. destruct port as [p|]; [destruct (admits _ (ix_destination_counts ix) dst); [by destruct (admit_port _ _ _ _)|]|]; done.
  - destruct (observe_completion_ok s f Hs) as (s1 & H1 & _ & _ & _ & He). rewrite Hdo in H1. injection H1 as <-. by rewrite He.
  - destruct (note_slow_connections_ok s dst n ts Hs) as (s1 & H1 & _ & _ & _ & He). rewrite Hdo in H1. injection H1 as <-. by rewrite He.
  - destruct (advance_ok s now Hs) as (s1 & H1 & _ & _ & Hn & _ & He & _). unfold prune_source in Hdo. rewrite Hdo in H1.
    injection H1 as <-. by rewrite Hn, He.
Qed.
Lemma failures_step s op s' : src_inv s → src_do s op = Ok s' →
  fst <$> bs_failures s' = queue_step failure_time (failure_of op) (bs_limits s) (bs_last_seen s') (fst <$> bs_failures s).
Proof.
  intros Hs Hdo. unfold queue_step. cbv zeta. rewrite <- failure_time_fmap. destruct op as [dst port ts|f|dst n ts|now]; cbn [src_do] in *.
  - destruct (observe_new_connection_events s dst port ts s' Hs Hdo) as (es & ix & _ & _ & _ & ->). done.
  - pose proof (observe_completion_failures s f s' Hs Hdo) as Hf. cbv zeta in Hf. destruct (failure_of (SrcCompletion f)) as [[ts dst]|]; [|by rewrite Hf].
    destruct Hf as (fs & d & _ & -> & ->). rewrite fmap_app, lastn_fmap. done.
  - by rewrite (slow_queues s dst n ts s' Hs Hdo).
  - destruct (advance_ok s now Hs) as (s1 & H1 & _ & _ & Hn & _ & _ & Hf & _). unfold prune_source in Hdo. rewrite Hdo in H1.
    injection H1 as <-. by rewrite Hn, Hf.
Qed.

(** A queue of the state over a run whose operations come in order *)
Section WindowRun.
Context {A : Type} (time : A → Z) (get : SourceBehaviorState → list A) (item : src_op → option A).
Context (item_time : ∀ op c, item op = Some c → time c = op_time op) (get_new : ∀ l t, get (new_source l t) = []).
Context (get_step : ∀ s op s', src_inv s → src_do s op = Ok s' →
  get s' = queue_step time (item op) (bs_limits s) (bs_last_seen s') (get s)).

Lemma ordered_run l t0 ops : limits_ok l → 0 ≤ window_of l → ordered op_time ops → Forall (λ op, t0 ≤ op_time op) ops →
  ∃ s, src_run (new_source l t0) ops = Ok s ∧ src_inv s ∧ bs_limits s = l ∧
    get s = window_items time l (bs_last_seen s) (omap item ops) ∧
    ordered time (omap item ops) ∧ Forall (λ c, time c ≤ bs_last_seen s) (omap item ops) ∧
    (∀ b, t0 ≤ b → Forall (λ op, op_time op ≤ b) ops → bs_last_seen s ≤ b).
Proof.
  intros Hl Hw. pose proof Hl as (_ & _ & _ & Hme & _). induction ops as [|op ops IH] using rev_ind.
  { intros _ _. exists (new_source l t0). rewrite get_new. split_and!; try done; [by apply new_source_inv|constructor]. }
  intros Ho Hge. apply Forall_app in Hge as [Hge Hop]. rewrite Forall_singleton in Hop. destruct (ordered_app_inv _ _ _ Ho) as [Ho1 Hle].
  destruct (IH Ho1 Hge) as (s & Hrun & Hs & Hls & Hwin & Hord & Hlast & Hmax). pose proof (Hmax _ Hop Hle) as Hlt.
  destruct (src_do_ok s op Hs) as (s' & Hdo & Hs' & Hl' & Hn'). assert (Hn : bs_last_seen s' = op_time op) by lia.
  exists s'. unfold src_run in *. rewrite foldl_app, Hrun. cbn. split; [done|]. split; [done|]. split; [congruence|].
  rewrite omap_app. cbn [omap list_omap].
  assert (Hb : ∀ b, t0 ≤ b → Forall (λ op0, op_time op0 ≤ b) (ops ++ [op]) → bs_last_seen s' ≤ b).
  { intros b Hb Hall. apply Forall_app in Hall as [_ Hall]. rewrite Forall_singleton in Hall. lia. }
  assert (Hlast' : Forall (λ c, time c ≤ op_time op) (omap item ops)).
  { eapply Forall_impl; [exact Hlast|]. intros c. cbn. lia. }
  pose proof (get_step s op s' Hs Hdo) as Hst. unfold queue_step in Hst. rewrite Hwin, Hls, Hn, window_advance in Hst by done.
  rewrite Hst, Hn. destruct (item op) as [c|] eqn:Hc.
  - pose proof (item_time op c Hc) as Ht. split; [symmetry; by apply window_enter|]. split; [apply ordered_snoc; [done|by rewrite Ht]|].
    split; [|rewrite Hn in Hb; exact Hb]. apply Forall_app. split; [exact Hlast'|]. apply Forall_singleton. lia.
  - rewrite app_nil_r. split; [done|]. split; [done|]. split; [done|rewrite Hn in Hb; exact Hb].
Qed.
End WindowRun.

(** ** While no cap is exceeded *)

(** No more distinct keys in the window than an index may hold *)
Definition few (s : SourceBehaviorState) : Prop :=
  distinct (destinations_of (bs_events s)) ≤ lm_max_destinations (bs_limits s) ∧
  distinct (pairs_of (bs_events s)) ≤ lm_max_destinations (bs_limits s) ∧
  distinct (ports_of (bs_events s)) ≤ lm_max_ports (bs_limits s) ∧
  distinct (failed_destinations (bs_failures s)) ≤ lm_max_destinations (bs_limits s).
Definition all_admitted (s : SourceBehaviorState) : Prop :=
  Forall admitted_event (bs_events s) ∧ Forall (λ f : Z * IPv4.t * bool, f.2 = true) (bs_failures s).

Lemma Forall_popleft {A} (P : A → Prop) old q : Forall P q → Forall P (popleft_while old q).
Proof. induction 1 as [|a q Ha Hq IH]; cbn; [constructor|]. destruct (old a); [done|by constructor]. Qed.
Lemma Forall_lastn {A} (P : A → Prop) n q : Forall P q → Forall P (lastn n q).
Proof. apply Forall_drop. Qed.
Lemma tracked_all fs : Forall (λ f : Z * IPv4.t * bool, f.2 = true) fs → tracked_failures fs = failed_destinations fs.
Proof. rewrite Forall_forall. intros Hall. unfold tracked_failures. by rewrite filter_all. Qed.

Lemma step_admits s op s' : src_inv s → src_do s op = Ok s' → all_admitted s → few s' → all_admitted s'.
Proof.
  intros Hs Hdo [He Hf] Hfew. destruct (src_do_ok s op Hs) as (s1 & H1 & _ & Hl & _). rewrite Hdo in H1. injection H1 as <-.
  unfold few in Hfew. rewrite Hl in Hfew. destruct Hfew as (Fd & Fp & Fq & Ff). destruct op as [dst port ts|f|dst n ts|now]; cbn [src_do] in Hdo.
  - destruct (observe_new_connection_events s dst port ts s' Hs Hdo) as (es & ix & Hix & Hes & Heq & Hfs). split; [|rewrite Hfs; by apply Forall_popleft].
    rewrite Hes in *. apply admit_event_all; try done. rewrite Heq. by apply Forall_lastn, Forall_popleft.
  - destruct (observe_completion_ok s f Hs) as (s1 & H1 & _ & _ & _ & Hes). rewrite Hdo in H1. injection H1 as <-.
    split; [rewrite Hes; by apply Forall_popleft|]. pose proof (observe_completion_failures s f s' Hs Hdo) as Hc. cbv zeta in Hc.
    destruct (failure_of (SrcCompletion f)) as [[ts dst]|]; [|rewrite Hc; by apply Forall_popleft].
    destruct Hc as (fs & d & [Hcount _] & Heq & Hfs). assert (Hall : Forall (λ f : Z * IPv4.t * bool, f.2 = true) fs)
      by (rewrite Heq; by apply Forall_lastn, Forall_popleft).
    rewrite (tracked_all fs Hall) in Hcount. rewrite Hfs in Ff |- *. apply Forall_app. split; [done|]. apply Forall_singleton. cbn.
    eapply counted_admits; [exact Hcount|]. unfold failed_destinations in *. by rewrite fmap_app in Ff.
  - destruct (note_slow_connections_ok s dst n ts Hs) as (s1 & H1 & _ & _ & _ & Hes). rewrite Hdo in H1. injection H1 as <-.
    split; [rewrite Hes; by apply Forall_popleft|]. rewrite (slow_queues s dst n ts s' Hs Hdo). by apply Forall_popleft.
  - destruct (advance_ok s now Hs) as (s1 & H1 & _ & _ & _ & _ & Hes & Hfs & _). unfold prune_source in Hdo. rewrite Hdo in H1.
    injection H1 as <-. split; [rewrite Hes|rewrite Hfs]; by apply Forall_popleft.
Qed.

Lemma run_admits l t0 ops : limits_ok l → (∀ pre s, pre `prefix_of` ops → src_run (new_source l t0) pre = Ok s → few s) →
  ∃ s, src_run (new_source l t0) ops = Ok s ∧ src_inv s ∧ all_admitted s.
Proof.
  intros Hl. induction ops as [|op ops IH] using rev_ind; intros Hfew.
  { exists (new_source l t0). split; [done|]. split; [by apply new_source_inv|]. split; constructor. }
  destruct IH as (s & Hrun & Hs & Ha); [intros pre s Hp; apply Hfew; by apply prefix_app_r|].
  destruct (src_do_ok s op Hs) as (s' & Hdo & Hs' & _). assert (Hrun' : src_run (new_source l t0) (ops ++ [op]) = Ok s').
  { unfold src_run in *. by rewrite foldl_app, Hrun. }
  exists s'. split; [done|]. split; [done|]. apply (step_admits s op); try done. by apply (Hfew (ops ++ [op])).
Qed.

(** ** A quiet source is forgotten *)

Lemma stale_gone {A} (time : A → Z) a h l : Forall (λ x, time x ≤ a) l → a < h → popleft_while (λ x, time x <? h) l = [].
Proof. intros Hl Hh. induction Hl as [|x l Hx Hl IH]; [done|]. cbn. destruct (Z.ltb_spec (time x) h); [done|lia]. Qed.

Lemma no_keys_nil {K V} `{EqDecision K} (d : list (K * V)) : (∀ k, dget d k = None) → d = [].
Proof. destruct d as [|[k v] d]; [done|]. intros Hd. specialize (Hd k). cbn in Hd. by rewrite decide_True in Hd. Qed.

Lemma index_empty l ix : index_ok l [] ix → ix = mk_index [] [] [] [].
Proof.
  intros [_ Hd Hp Hc [_ Hpp] _ _ _]. destruct ix as [dc ports ppd conns]. cbn in *.
  apply counted_empty in Hd as [_ Hd], Hp as [_ Hp], Hc as [_ Hc]. rewrite Hd, Hp, Hc by done. f_equal. apply no_keys_nil. intros ip.
  specialize (Hpp ip). destruct (dget ppd ip) as [h|]; [|done]. destruct Hpp as (Hne & Hh & _). exfalso. apply Hne. by apply (counted_empty h _ Hh).
Qed.

Lemma quiet_source_is_forgotten s now : src_inv s → bs_last_seen s + window_of (bs_limits s) < now → 0 ≤ window_of (bs_limits s) →
  ∃ s', prune_source s now = Ok s' ∧ bs_events s' = [] ∧ bs_failures s' = [] ∧ bs_index s' = mk_index [] [] [] [] ∧
    bs_failures_per_destination s' = [] ∧ bs_slow_connection_counts s' = [].
Proof.
  intros Hs Hnow Hw. pose proof Hs as [_ _ _ Het _ _ Hft _ _ _ Hst _ _ _ _].
  destruct (advance_ok s now Hs) as (s' & Hadv & Hs' & Hl' & _ & _ & He' & Hf' & _ & Hsl).
  replace (Z.max (bs_last_seen s) now) with now in * by lia. exists s'. split; [done|].
  fold (window_of (bs_limits s)) in He', Hf'. rewrite (stale_gone be_timestamp _ _ _ Het) in He' by lia.
  rewrite (stale_gone (λ f : Z * IPv4.t * bool, f.1.1) _ _ _ Hft) in Hf' by lia.
  split; [done|]. split; [done|]. pose proof (si_index _ Hs') as Hix'. rewrite He' in Hix'. split; [by eapply index_empty|].
  destruct (si_failures _ Hs') as [Hcf _]. rewrite Hf' in Hcf. split; [by apply (counted_empty _ [] Hcf)|].
  destruct (bs_slow_connection_counts s') as [|q qs] eqn:Hq; [done|]. exfalso. destruct (proj1 (Hsl q)) as [Hin Hh]; [left|].
  rewrite Forall_forall in Hst. specialize (Hst q Hin). cbn in Hst. fold (window_of (bs_limits s)) in Hh. lia.
Qed.


Definition sample_detection : DetectionConfig :=
  mk_detection_config 300 10000 200 200 2000 50 20 (float_of_Z 2) (float_of_Z 5) 10 (float_of_Z 1800) 15 10 10 (hundredths 15)
    (float_of_Z 100) 8.

Lemma sample_limits_ok : limits_ok (limits_of sample_detection) ∧ 0 ≤ window_of (limits_of sample_detection).
Proof. unfold limits_ok. split_and!; vm_compute; congruence. Qed.

(** Twelve ports of one host in twelve seconds, and one connection ten
    minutes earlier. *)
Definition port_scan : list src_op :=
  SrcConnection 9 (Some 443) 0 :: ((λ i, SrcConnection 9 (Some i) (seconds (600 + i))) <$> seqZ 1 12).

Definition port_scan_state : SourceBehaviorState :=
  match src_run (new_source (limits_of sample_detection) 0) port_scan with Ok s => s | Raise _ => new_source (limits_of sample_detection) 0 end.

Example port_scan_detected : (detected port_scan_state sample_detection).*1 = [SCANNING] ∧
  scanned_port_breadth port_scan_state = 12 ∧ connection_count port_scan_state = 12.
Proof. vm_compute. done. Qed.

