(* ===== verification/Coordinator.v ===== *)
(** * Detection coordination (pirewall/detection/coordinator.py, ml/artifacts/metadata.py)

    Which models were loaded, and the evidence they and the behaviour
    analyser give about one flow.  Reading a metadata file, validating its
    JSON and deserialising an artifact are parameters of the loader.  The
    coordinator reports inference failures through the event forwarder, so
    its operations run over the pair of the two. *)

From S2P Require Import Prelude Float Net Models Throttle Policy Flow Features Thresholds Threat Inference Runtime D1 Behavior.
Local Open Scope Z_scope.

Definition CO_SUBSYSTEM : string := "detection.coordinator".
Definition ML_DOMAIN_PROTOCOLS : list Protocol := [TCP; UDP].
Definition _INFERENCE_FAILURE_EVENT_INTERVAL : Z := 100.

(** ** The registry of loaded models *)

Record ModelRegistry : Type := mk_registry_of_models {
  mr_lightgbm : option LoadedLightGBMModel;
  mr_isolation_forest : option LoadedIsolationForestModel;
  mr_v2_lightgbm : option LoadedLightGBMModel;
  mr_v2_isolation_forest : option LoadedIsolationForestModel;
  mr_v2_family : option LoadedLightGBMModel;
  mr_load_errors : list string;
}.

Definition is_loaded {A} (m : option A) : bool := match m with Some _ => true | None => false end.
Definition any_loaded (r : ModelRegistry) : bool :=
  is_loaded (mr_lightgbm r) || is_loaded (mr_isolation_forest r) || is_loaded (mr_v2_lightgbm r)
  || is_loaded (mr_v2_isolation_forest r).
Definition any_v2_loaded (r : ModelRegistry) : bool := is_loaded (mr_v2_lightgbm r) || is_loaded (mr_v2_isolation_forest r).

Record MLConfig : Type := mk_ml_config {
  ml_lightgbm_model_path : string;
  ml_isolation_forest_model_path : string;
  ml_v2_lightgbm_model_path : option string;
  ml_v2_isolation_forest_model_path : option string;
  ml_v2_family_model_path : option string;
  ml_v2_feature_schema_version : string;
}.

(** A metadata sidecar on disk: absent, unreadable, or its text. *)
Inductive sidecar :=
| NoFile
| Unreadable (msg : string)
| Text (json : string).

Definition metadata_path_for (model_path : string) : string := model_path +:+ ".metadata.json".

Section Load.
Context (disk : string → sidecar) (validate_json : string → string + ModelMetadata)
  (booster : string → string + (list float → result prediction)) (joblib : string → joblib_outcome).

Definition load_metadata (model_path : string) : result ModelMetadata :=
  let path := metadata_path_for model_path in
  match disk path with
  | NoFile => Raise (ModelLoadError ("model metadata file not found at " +:+ path))
  | Unreadable msg => Raise (OSError msg)
  | Text json =>
      match validate_json json with
      | inl msg => Raise (ModelLoadError ("invalid model metadata at " +:+ path +:+ ": " +:+ msg))
      | inr m => Ok m
      end
  end.

(** [except (ModelLoadError, ModelInferenceError) as exc: errors.append(...)] *)
Definition degrade {A} (label : string) (r : result A) : result (option A * list string) :=
  match r with
  | Ok a => Ok (Some a, [])
  | Raise (ModelLoadError msg) | Raise (ModelInferenceError msg) => Ok (None, [label +:+ ": " +:+ msg])
  | Raise e => Raise e
  end.

Definition load_optional {A} (label : string) (path : option string) (load : string → result A) : result (option A * list string) :=
  match path with
  | None => Ok (None, [])
  | Some p => degrade label (load p)
  end.

Definition _load_v2_models (c : MLConfig)
  : result (option LoadedLightGBMModel * option LoadedIsolationForestModel * option LoadedLightGBMModel * list string) :=
  let expected := Some (ml_v2_feature_schema_version c) in
  rbind (load_optional "v2 lightgbm" (ml_v2_lightgbm_model_path c) (λ p, load_lightgbm_model load_metadata booster p expected)) (λ lg,
  rbind (load_optional "v2 isolation_forest" (ml_v2_isolation_forest_model_path c)
           (λ p, load_isolation_forest_model load_metadata joblib p expected)) (λ iso,
  rbind (load_optional "v2 family" (ml_v2_family_model_path c) (λ p, load_lightgbm_model load_metadata booster p expected)) (λ fam,
  Ok (lg.1, iso.1, fam.1, lg.2 ++ iso.2 ++ fam.2)))).

Definition load_models (c : MLConfig) (load_v2 : bool) : result ModelRegistry :=
  rbind (degrade "lightgbm" (load_lightgbm_model load_metadata booster (ml_lightgbm_model_path c) None)) (λ lg,
  rbind (degrade "isolation_forest"
           (load_isolation_forest_model load_metadata joblib (ml_isolation_forest_model_path c) None)) (λ iso,
  rbind (if load_v2 then _load_v2_models c else Ok (None, None, None, [])) (λ v2,
  let '(lg2, iso2, fam2, errors) := v2 in
  Ok (mk_registry_of_models lg.1 iso.1 lg2 iso2 fam2 (lg.2 ++ iso.2 ++ errors))))).
End Load.

(** ** Outcomes *)

Record DetectionOutcome : Type := mk_outcome { do_record : DetectionRecord; do_behavior : option BehaviorAssessment }.

Definition with_anomaly_evidence (o : DetectionOutcome) (e : option AnomalyEvidence) : DetectionOutcome :=
  let r := do_record o in
  mk_outcome (mk_detection_record (dr_flow_id r) (dr_known_evidence r) e (dr_protocol_signature_evidence r) (dr_recorded_at r))
    (do_behavior o).

(** ** The coordinator *)

Record DetectionCoordinator : Type := mk_detection_coordinator {
  co_anomaly_score_threshold : float;   (** [detection.anomaly_score_threshold] *)
  co_models : ModelRegistry;
  co_reports : bool;                    (** an event sink was given *)
  co_behavior : BehaviorAnalyzer;
  co_inference_failures : list (ModelType * Z);
}.

Definition new_coordinator (c : DetectionConfig) (anomaly_score_threshold : float) (models : ModelRegistry) (reports : bool)
  : DetectionCoordinator :=
  mk_detection_coordinator anomaly_score_threshold models reports (new_analyzer c) [(LIGHTGBM, 0); (ISOLATION_FOREST, 0)].

Definition co_set_behavior (c : DetectionCoordinator) x : DetectionCoordinator :=
  mk_detection_coordinator (co_anomaly_score_threshold c) (co_models c) (co_reports c) x (co_inference_failures c).
Definition co_set_failures (c : DetectionCoordinator) x : DetectionCoordinator :=
  mk_detection_coordinator (co_anomaly_score_threshold c) (co_models c) (co_reports c) (co_behavior c) x.

Definition in_model_domain (f : Flow) : bool := inb (fl_protocol f) ML_DOMAIN_PROTOCOLS.

Definition CoM : Type → Type := M (DetectionCoordinator * EventForwarder).
Definition on_behavior {A} (m : M BehaviorAnalyzer A) : CoM A := λ cw,
  let '(r, a) := m (co_behavior cw.1) in (r, (co_set_behavior cw.1 a, cw.2)).
Definition co_emit (e : SecurityEvent) : CoM unit := λ cw, let '(r, w) := emit e cw.2 in (r, (cw.1, w)).

Definition _report_inference_failure (t : ModelType) (flow_id : string) (now : Z) (msg : string) : CoM unit := λ cw,
  match dget (co_inference_failures cw.1) t with
  | None => (Raise KeyError, cw)
  | Some n =>
      let count := n + 1 in
      let cw' := (co_set_failures cw.1 (dset (co_inference_failures cw.1) t count), cw.2) in
      if negb (co_reports cw.1) then (Ok tt, cw')
      else if negb (reported count _INFERENCE_FAILURE_EVENT_INTERVAL) then (Ok tt, cw')
      else co_emit (mk_event now SEV_ERROR MODEL_ERROR CO_SUBSYSTEM None None None
             (Some (model_type_value t +:+ " inference failed (" +:+ pretty count +:+ " total): " +:+ msg))) cw'
  end.

(** [except (ModelInferenceError, ValueError) as exc: report; return None] *)
Definition or_report {A} (t : ModelType) (flow_id : string) (now : Z) (r : result A) : CoM (option A) :=
  match r with
  | Ok a => mret (Some a)
  | Raise (ModelInferenceError msg) | Raise (ValueError msg) => _ ← _report_inference_failure t flow_id now msg; mret None
  | Raise e => mraise e
  end.

Section Detect.
Context (interp : float → list float → list float → float) (flow_id : Flow → string).

Definition _classify_with (model : option LoadedLightGBMModel) (f : Flow) (v : FeatureVector) (now : Z) : CoM (option KnownEvidence) :=
  match model with
  | None => mret None
  | Some m => or_report LIGHTGBM (flow_id f) now (classify interp m (flow_id f) v now)
  end.

Definition _detect_with (model : option LoadedIsolationForestModel) (f : Flow) (v : FeatureVector) (now : Z)
  : CoM (option AnomalyEvidence) :=
  match model with
  | None => mret None
  | Some m =>
      cw ← mget;
      let threshold := default (co_anomaly_score_threshold cw.1) (mm_operating_threshold (if_metadata m)) in
      or_report ISOLATION_FOREST (flow_id f) now (detect m (flow_id f) v threshold now)
  end.

Definition _classify_known (f : Flow) (v : FeatureVector) (now : Z) : CoM (option KnownEvidence) :=
  cw ← mget; _classify_with (mr_lightgbm (co_models cw.1)) f v now.
Definition classify_known_v2 (f : Flow) (v : FeatureVector) (now : Z) : CoM (option KnownEvidence) :=
  cw ← mget; _classify_with (mr_v2_lightgbm (co_models cw.1)) f v now.
Definition classify_family_v2 (f : Flow) (v : FeatureVector) (now : Z) : CoM (option KnownEvidence) :=
  cw ← mget; _classify_with (mr_v2_family (co_models cw.1)) f v now.
Definition _detect_anomaly (f : Flow) (v : FeatureVector) (now : Z) : CoM (option AnomalyEvidence) :=
  cw ← mget; _detect_with (mr_isolation_forest (co_models cw.1)) f v now.
Definition detect_anomaly_v2 (f : Flow) (v : FeatureVector) (now : Z) : CoM (option AnomalyEvidence) :=
  cw ← mget; _detect_with (mr_v2_isolation_forest (co_models cw.1)) f v now.

Definition analyze_except_anomaly (f : Flow) (v : FeatureVector) (now : Z) (sig : option ProtocolSignatureEvidence)
  : CoM DetectionOutcome :=
  _ ← on_behavior (analyzer_observe_completion f);
  known ← (if in_model_domain f then _classify_known f v now else mret None);
  cw ← mget;
  behavior ← mlift (assess (fl_source_ip f) (co_behavior cw.1));
  mret (mk_outcome (mk_detection_record (flow_id f) known None sig now) behavior).

Definition analyze (f : Flow) (v : FeatureVector) (now : Z) (sig : option ProtocolSignatureEvidence) : CoM DetectionOutcome :=
  o ← analyze_except_anomaly f v now sig;
  anomaly ← (if in_model_domain f then _detect_anomaly f v now else mret None);
  mret (with_anomaly_evidence o anomaly).

Definition analyze_snapshot (f : Flow) (now : Z) : CoM DetectionOutcome :=
  behavior ← on_behavior (assess_at (fl_source_ip f) (fl_last_seen f));
  mret (mk_outcome (mk_detection_record (flow_id f) None None None now) behavior).
End Detect.

(** ** What the models cannot touch *)

(** The same analyser, models and thresholds. *)
Definition same_detection (cw cw' : DetectionCoordinator * EventForwarder) : Prop :=
  co_behavior cw'.1 = co_behavior cw.1 ∧ co_models cw'.1 = co_models cw.1 ∧
  co_anomaly_score_threshold cw'.1 = co_anomaly_score_threshold cw.1.

#[global] Instance same_detection_preorder : PreOrder same_detection.
Proof. split; [done|]. intros x y z (H1 & H2 & H3) (H4 & H5 & H6). split_and!; congruence. Qed.

Section DetectProps.
Context (interp : float → list float → list float → float) (flow_id : Flow → string).

Lemma or_report_keeps {A} t id now (r : result A) : framed same_detection (or_report t id now r).
Proof.
  assert (Hrep : ∀ msg, framed same_detection (_report_inference_failure t id now msg)).
  { intros msg cw. unfold _report_inference_failure. destruct (dget _ t); [|done]. destruct (negb (co_reports cw.1)); [done|].
    destruct (negb (reported _ _)); [done|]. unfold co_emit. by destruct (emit _ _). }
  unfold or_report. destruct r as [a|[]]; try apply (frame_raise same_detection); try apply (frame_ret same_detection);
    (apply (frame_bind same_detection); [apply Hrep|]; intros _; apply (frame_ret same_detection)).
Qed.

Lemma classify_keeps model f v now : framed same_detection (_classify_with interp flow_id model f v now).
Proof. unfold _classify_with. destruct model; [apply or_report_keeps|apply (frame_ret same_detection)]. Qed.

Lemma detect_keeps model f v now : framed same_detection (_detect_with flow_id model f v now).
Proof.
  unfold _detect_with. destruct model; [|apply (frame_ret same_detection)]. apply (frame_bind same_detection); [apply (frame_get same_detection)|].
  intros cw. apply or_report_keeps.
Qed.

(** An outcome carries the signature it was given and the behaviour of its
    source, whatever the models say. *)
Lemma analyze_except_outcome f v now sig c w o cw : analyze_except_anomaly interp flow_id f v now sig (c, w) = (Ok o, cw) →
  dr_protocol_signature_evidence (do_record o) = sig ∧
  assess (fl_source_ip f) (analyzer_observe_completion f (co_behavior c)).2 = Ok (do_behavior o) ∧
  co_models cw.1 = co_models c ∧ co_anomaly_score_threshold cw.1 = co_anomaly_score_threshold c.
Proof.
  unfold analyze_except_anomaly, mbind, m_bind, on_behavior, mget, mlift. cbn [fst snd].
  destruct (analyzer_observe_completion f (co_behavior c)) as [[u|e] a] eqn:Ho; [|done]. cbn [snd].
  set (m := if in_model_domain f then _ else _).
  assert (Hk : framed same_detection m).
  { unfold m. destruct (in_model_domain f); [|apply (frame_ret same_detection)]. unfold _classify_known.
    apply (frame_bind same_detection); [apply (frame_get same_detection)|]. intros cw0. apply classify_keeps. }
  specialize (Hk (co_set_behavior c a, w)). destruct (m _) as [[known|e] cw1]; [|done]. destruct Hk as (Hb & Hm & Ht). cbn in Hb, Hm, Ht.
  rewrite Hb. destruct (assess (fl_source_ip f) a) as [b|]; [|done]. intros [= <- <-]. done.
Qed.

Lemma analyze_outcome f v now sig c w o cw : analyze interp flow_id f v now sig (c, w) = (Ok o, cw) →
  dr_protocol_signature_evidence (do_record o) = sig ∧
  assess (fl_source_ip f) (analyzer_observe_completion f (co_behavior c)).2 = Ok (do_behavior o).
Proof.
  unfold analyze, mbind, m_bind. destruct (analyze_except_anomaly _ _ _ _ _ _ _) as [[o1|e] cw1] eqn:Ha; [|done].
  apply analyze_except_outcome in Ha as (Hs & Hb & _). set (m := if in_model_domain f then _ else _).
  destruct (m cw1) as [[an|e] cw2]; [|done]. by intros [= <- _].
Qed.
End DetectProps.

(** ** Loading degrades *)

(** No sidecar on the configured paths fails with an operating-system
    error. *)
Definition readable (disk : string → sidecar) (c : MLConfig) : Prop :=
  ∀ p msg, p ∈ [ml_lightgbm_model_path c; ml_isolation_forest_model_path c]
             ++ option_list (ml_v2_lightgbm_model_path c) ++ option_list (ml_v2_isolation_forest_model_path c)
             ++ option_list (ml_v2_family_model_path c) →
    disk (metadata_path_for p) ≠ Unreadable msg.

Definition registry_v2_metadata (r : ModelRegistry) : list ModelMetadata :=
  option_list (lg_metadata <$> mr_v2_lightgbm r) ++ option_list (if_metadata <$> mr_v2_isolation_forest r)
  ++ option_list (lg_metadata <$> mr_v2_family r).
Definition registry_metadata (r : ModelRegistry) : list ModelMetadata :=
  option_list (lg_metadata <$> mr_lightgbm r) ++ option_list (if_metadata <$> mr_isolation_forest r) ++ registry_v2_metadata r.

(** The artifacts a start asks for. *)
Definition configured (c : MLConfig) (load_v2 : bool) : list string :=
  [ml_lightgbm_model_path c; ml_isolation_forest_model_path c]
  ++ if load_v2 then option_list (ml_v2_lightgbm_model_path c) ++ option_list (ml_v2_isolation_forest_model_path c)
                     ++ option_list (ml_v2_family_model_path c) else [].

(** What a loader can give when the sidecar can be read. *)
Inductive load_result {A} (md : A → ModelMetadata) (path : string) (expected : option string) : result A → Prop :=
| Loaded a : _check_schema_compatibility (md a) path expected = Ok tt → load_result md path expected (Ok a)
| NotLoaded msg : load_result md path expected (Raise (ModelLoadError msg))
| Incompatible msg : load_result md path expected (Raise (ModelInferenceError msg)).

Lemma check_raises m path expected e : _check_schema_compatibility m path expected = Raise e → ∃ msg, e = ModelInferenceError msg.
Proof.
  unfold _check_schema_compatibility, supports_schema_version. destruct (match expected with Some _ => _ | None => _ end);
    [intros [= <-]; by eexists|]. destruct (feature_names _); cbn; [|intros [= <-]; by eexists].
  destruct (negb _); [intros [= <-]; by eexists|done].
Qed.

Section LoadProps.
Context (disk : string → sidecar) (validate_json : string → string + ModelMetadata)
  (booster : string → string + (list float → result prediction)) (joblib : string → joblib_outcome).
#[local] Notation metadata := (load_metadata disk validate_json).

Lemma metadata_outcome path : (∀ msg, disk (metadata_path_for path) ≠ Unreadable msg) →
  (∃ m, metadata path = Ok m) ∨ ∃ msg, metadata path = Raise (ModelLoadError msg).
Proof.
  intros Hd. unfold load_metadata. destruct (disk _) as [|msg|json] eqn:Hf; [right; by eexists|by destruct (Hd msg)|].
  destruct (validate_json json); [right|left]; by eexists.
Qed.

Lemma lightgbm_outcome path expected : (∀ msg, disk (metadata_path_for path) ≠ Unreadable msg) →
  load_result lg_metadata path expected (load_lightgbm_model metadata booster path expected).
Proof.
  intros Hd. unfold load_lightgbm_model. destruct (metadata_outcome path Hd) as [[m ->]|[msg ->]]; cbn [rbind]; [|constructor].
  destruct (_check_schema_compatibility m path expected) as [[]|e] eqn:Hc; cbn [rbind].
  - destruct (booster path); by constructor.
  - apply check_raises in Hc as [msg ->]. constructor.
Qed.

Lemma forest_outcome path expected : (∀ msg, disk (metadata_path_for path) ≠ Unreadable msg) →
  load_result if_metadata path expected (load_isolation_forest_model metadata joblib path expected).
Proof.
  intros Hd. unfold load_isolation_forest_model. destruct (metadata_outcome path Hd) as [[m ->]|[msg ->]]; cbn [rbind]; [|constructor].
  destruct (_check_schema_compatibility m path expected) as [[]|e] eqn:Hc; cbn [rbind].
  - destruct (joblib path); by constructor.
  - apply check_raises in Hc as [msg ->]. constructor.
Qed.

(** A model that passed the check, for some artifact and expectation. *)
Definition gated (expected : option string) (m : ModelMetadata) : Prop := ∃ path, _check_schema_compatibility m path expected = Ok tt.

(** Degrading returns, with one error line per artifact that gave no model. *)
Lemma degrade_ok {A} (md : A → ModelMetadata) label path expected r : load_result md path expected r →
  ∃ a errors, degrade label r = Ok (a, errors) ∧ (length (option_list a) + length errors = 1)%nat ∧
    ∀ m, m ∈ option_list (md <$> a) → gated expected m.
Proof.
  intros [a Hc|msg|msg]; cbn; eexists _, _; (split; [done|]); (split; [done|]); cbn; intros m Hm; [|set_solver..].
  apply list_elem_of_singleton in Hm as ->. by exists path.
Qed.

Lemma optional_ok {A} (md : A → ModelMetadata) label path expected load :
  (∀ p, path = Some p → load_result md p expected (load p)) →
  ∃ a errors, load_optional label path load = Ok (a, errors) ∧
    (length (option_list a) + length errors = length (option_list path))%nat ∧
    ∀ m, m ∈ option_list (md <$> a) → gated expected m.
Proof.
  intros Hl. destruct path as [p|]; cbn; [by apply (degrade_ok md _ p), Hl|]. eexists _, _. split; [done|]. split; [done|]. set_solver.
Qed.

Lemma gated_exact expected m f v vec : gated expected m → extract_features f v = Ok vec →
  if decide (v = mm_feature_schema_version m) then validate_feature_vector vec m = Ok tt
  else ∃ msg, validate_feature_vector vec m = Raise (ModelInferenceError msg).
Proof. intros [path Hc]. by apply (gate_exact m path expected). Qed.

Lemma gated_expected e m : gated (Some e) m → mm_feature_schema_version m = e.
Proof.
  intros [path Hc]. unfold _check_schema_compatibility in Hc. destruct (String.eqb_spec (mm_feature_schema_version m) e); [done|done].
Qed.

Lemma v2_models_ok c : readable disk c →
  ∃ lg iso fam errors, _load_v2_models disk validate_json booster joblib c = Ok (lg, iso, fam, errors) ∧
    (length (option_list lg) + length (option_list iso) + length (option_list fam) + length errors =
     length (option_list (ml_v2_lightgbm_model_path c) ++ option_list (ml_v2_isolation_forest_model_path c)
             ++ option_list (ml_v2_family_model_path c)))%nat ∧
    ∀ m, m ∈ option_list (lg_metadata <$> lg) ++ option_list (if_metadata <$> iso) ++ option_list (lg_metadata <$> fam) →
      gated (Some (ml_v2_feature_schema_version c)) m.
Proof.
  intros Hr. unfold _load_v2_models. set (expected := Some _).
  destruct (optional_ok lg_metadata "v2 lightgbm" (ml_v2_lightgbm_model_path c) expected (λ p, load_lightgbm_model metadata booster p expected))
    as (lg & e1 & -> & Hn1 & Hg1); [intros p Hp; apply lightgbm_outcome; intros msg; apply Hr; rewrite Hp; set_solver|]. cbn [rbind].
  destruct (optional_ok if_metadata "v2 isolation_forest" (ml_v2_isolation_forest_model_path c) expected
    (λ p, load_isolation_forest_model metadata joblib p expected))
    as (iso & e2 & -> & Hn2 & Hg2); [intros p Hp; apply forest_outcome; intros msg; apply Hr; rewrite Hp; set_solver|]. cbn [rbind].
  destruct (optional_ok lg_metadata "v2 family" (ml_v2_family_model_path c) expected (λ p, load_lightgbm_model metadata booster p expected))
    as (fam & e3 & -> & Hn3 & Hg3); [intros p Hp; apply lightgbm_outcome; intros msg; apply Hr; rewrite Hp; set_solver|]. cbn [rbind fst snd].
  exists lg, iso, fam, (e1 ++ e2 ++ e3). split; [done|]. split; [rewrite !length_app; lia|]. intros m Hm.
  rewrite !elem_of_app in Hm. naive_solver.
Qed.

(** whatever artifacts are missing, broken or of another schema, start-up
    gets a registry as long as the operating system lets it read the
    metadata files that exist: one error line per artifact without a model,
    and every model that was loaded accepts exactly the feature vectors of
    the schema version it was trained on and answers any other with an
    inference error before its booster is asked; the v2 models are all of
    the configured v2 schema, so neither engine's vector reaches the other
    engine's models. *)
Theorem loaded_models_are_schema_gated c load_v2 : readable disk c →
  ∃ r, load_models disk validate_json booster joblib c load_v2 = Ok r ∧
    (length (registry_metadata r) + length (mr_load_errors r) = length (configured c load_v2))%nat ∧
    (∀ m f v vec, m ∈ registry_metadata r → extract_features f v = Ok vec →
       if decide (v = mm_feature_schema_version m) then validate_feature_vector vec m = Ok tt
       else ∃ msg, validate_feature_vector vec m = Raise (ModelInferenceError msg)) ∧
    (∀ m, m ∈ registry_v2_metadata r → mm_feature_schema_version m = ml_v2_feature_schema_version c).
Proof.
  intros Hr. unfold load_models.
  destruct (degrade_ok lg_metadata "lightgbm" _ _ _ (lightgbm_outcome (ml_lightgbm_model_path c) None ltac:(intros msg; apply Hr; set_solver)))
    as (lg & e1 & -> & Hn1 & Hg1). cbn [rbind].
  destruct (degrade_ok if_metadata "isolation_forest" _ _ _ (forest_outcome (ml_isolation_forest_model_path c) None ltac:(intros msg; apply Hr; set_solver)))
    as (iso & e2 & -> & Hn2 & Hg2). cbn [rbind].
  assert (Hv2 : ∃ lg2 iso2 fam2 e3, (if load_v2 then _load_v2_models disk validate_json booster joblib c else Ok (None, None, None, [])) =
      Ok (lg2, iso2, fam2, e3) ∧
    (length (option_list lg2) + length (option_list iso2) + length (option_list fam2) + length e3 = length (configured c load_v2) - 2)%nat ∧
    ∀ m, m ∈ option_list (lg_metadata <$> lg2) ++ option_list (if_metadata <$> iso2) ++ option_list (lg_metadata <$> fam2) →
      gated (Some (ml_v2_feature_schema_version c)) m).
  { destruct load_v2; [|exists None, None, None, []; split; [done|]; split; [done|]; set_solver].
    destruct (v2_models_ok c Hr) as (lg2 & iso2 & fam2 & e3 & -> & Hn & Hg). exists lg2, iso2, fam2, e3. split; [done|]. split; [|done].
    rewrite Hn. cbn. lia. }
  destruct Hv2 as (lg2 & iso2 & fam2 & e3 & -> & Hn3 & Hg3). cbn [rbind fst snd]. eexists. split; [reflexivity|].
  unfold registry_metadata, registry_v2_metadata. cbn [mr_lightgbm mr_isolation_forest mr_v2_lightgbm mr_v2_isolation_forest mr_v2_family mr_load_errors].
  split; [|split].
  - rewrite !length_app. destruct lg, iso, lg2, iso2, fam2; cbn in *; lia.
  - intros m f v vec Hm Hx. rewrite !elem_of_app in Hm.
    destruct Hm as [Hm|[Hm|Hm]]; [apply (gated_exact None m f v vec (Hg1 m Hm) Hx)|apply (gated_exact None m f v vec (Hg2 m Hm) Hx)|].
    apply (gated_exact (Some (ml_v2_feature_schema_version c)) m f v vec); [|done]. apply Hg3. by rewrite !elem_of_app.
  - intros m Hm. apply gated_expected, Hg3. done.
Qed.
End LoadProps.

(** A deployment with the v2 forest only, its v1 classifier of the wrong
    order. *)
Definition sample_metadata (version : string) (names : list string) : ModelMetadata :=
  mk_metadata "1" version names [("benign", 0); ("attack", 1)] None None [] [].
Definition sample_disk (p : string) : sidecar :=
  if String.eqb p "a.metadata.json" then Text "short" else if String.eqb p "v.metadata.json" then Text "v2" else NoFile.
Definition sample_validate (json : string) : string + ModelMetadata :=
  if String.eqb json "v2" then inr (sample_metadata SCHEMA_VERSION FEATURE_NAMES) else inr (sample_metadata LEGACY_SCHEMA_VERSION ["x"]).
Definition sample_ml : MLConfig := mk_ml_config "a" "b" None (Some "v") None SCHEMA_VERSION.
Definition sample_forest : list (list float) → result (list float) := λ rows, Ok ((λ _, hundredths 10) <$> rows).
Definition sample_registry : result ModelRegistry :=
  load_models sample_disk sample_validate (λ _, inl "no booster") (λ _, JoblibForest sample_forest) sample_ml true.

Lemma sample_readable : readable sample_disk sample_ml.
Proof. intros p msg _. unfold sample_disk. by repeat destruct (String.eqb _ _). Qed.

Lemma loaded_models_are_schema_gated_witness :
  ∃ r, sample_registry = Ok r ∧ length (registry_metadata r) = 1%nat ∧ length (mr_load_errors r) = 2%nat ∧
    (∀ m, m ∈ registry_v2_metadata r → mm_feature_schema_version m = SCHEMA_VERSION).
Proof.
  destruct (loaded_models_are_schema_gated sample_disk sample_validate (λ _, inl "no booster") (λ _, JoblibForest sample_forest)
    sample_ml true sample_readable) as (r & Hr & _ & _ & Hv).
  exists r. split; [exact Hr|]. split; [|split; [|exact Hv]]; vm_compute in Hr; injection Hr as <-; reflexivity.
Defined.

(** A metadata file that exists and cannot be read stops the start. *)
Theorem unreadable_sidecar_raises :
  load_models (λ _, Unreadable "[Errno 13] Permission denied") sample_validate (λ _, inl "no booster") (λ _, JoblibForest sample_forest)
    sample_ml true = Raise (OSError "[Errno 13] Permission denied").
Proof. reflexivity. Qed.
