(* ===== verification/PipelineV1.v ===== *)
(** * The v1 pipeline (pirewall/runtime/pipeline.py, the batching of runtime/core.py)

    One completed flow's way from features to a submitted rule, and the
    batched anomaly scoring of [CoreDaemon] that splits it in two.  The
    pipeline's counters, forwarder (with the shared store), coordinator and
    manager are its state; the queue of flows waiting for a batch is the
    daemon's, filled by the scorer callback.  Random identifiers come from a
    supply, [perf_counter] differences and the wall clock are arguments, and
    what [str] gives for an exception is a parameter. *)

From S2P Require Import Prelude Float Net Models Sets SetBackend Validator Backend Manager Enforce Throttle Policy Flow Features Thresholds Threat Inference Runtime D1 Behavior Coordinator.
Local Open Scope Z_scope.

Definition V1_SUBSYSTEM : string := "runtime.pipeline".
Definition CORE_SUBSYSTEM : string := "runtime.core".
Definition _REPORTABLE_LEVELS : list ThreatLevel := [MEDIUM; HIGH; CRITICAL].
Definition _BACKPRESSURE_REPORT_INTERVAL : Z := 1000.

Definition _severity_for (l : ThreatLevel) : EventSeverity :=
  match l with CRITICAL => SEV_CRITICAL | HIGH => SEV_ERROR | _ => SEV_WARNING end.

(** [type(exc).__name__] *)
Definition exn_name (e : exn) : string :=
  match e with
  | FirewallError _ => "FirewallError" | ConfigurationError _ => "ConfigurationError" | ValueError _ => "ValueError"
  | RpcError _ => "RpcError" | RpcFault _ => "_RpcError" | PortalParamError _ => "_PortalParamError" | PacketParseError _ => "PacketParseError" | UnsupportedProtocolError _ => "UnsupportedProtocolError"
  | FlowError _ => "FlowError" | ThreatAssessmentError _ => "ThreatAssessmentError"
  | FeatureExtractionError _ => "FeatureExtractionError" | ModelInferenceError _ => "ModelInferenceError"
  | ModelLoadError _ => "ModelLoadError" | IntegrationError _ => "IntegrationError" | OSError _ => "OSError" | CaptureError _ => "CaptureError" | PcapFormatError _ => "PcapFormatError" | AuthenticationError _ => "AuthenticationError" | StructError _ => "error" | OverflowError _ => "OverflowError" | NativeEngineError _ => "NativeEngineError"
  | ZeroDivisionError => "ZeroDivisionError" | PortalLoginError _ => "PortalLoginError"
  | HTTPException _ _ _ => "HTTPException" | IndexError => "IndexError" | KeyError => "KeyError" | TypeError => "TypeError"
  | AssertionError => "AssertionError"
  end.

Record PendingAnomalyScoring : Type := mk_pending {
  pn_flow : Flow;
  pn_now : Z;
  pn_features : FeatureVector;
  pn_outcome : DetectionOutcome;
}.

Section Pipeline.
Context {B F : Type} {SB : SetBackend B} {FB : FirewallBackend F} {SBL : SetBackendLaws B} {FBL : FirewallBackendLaws F}.
Context (new_id : Z → string) (flow_id : Flow → string) (interp : float → list float → list float → float) (exn_text : exn → string).

Record FlowPipeline : Type := mk_flow_pipeline {
  fp_threat : ThreatConfig;                          (** [config.threat] *)
  fp_default_ttl : Z;                                (** [config.firewall.default_rule_ttl_seconds] *)
  fp_resolve_mac : option (IPv4.t → option Mac.t);
  fp_coordinator : DetectionCoordinator;
  fp_manager : FirewallManager B F;
  fp_forwarder : EventForwarder;
  fp_counters : RuntimeCounters;
  fp_maturity : EvidenceMaturityTracker;
  fp_next_id : Z;
  fp_queue : list PendingAnomalyScoring;             (** [CoreDaemon._anomaly_queue] *)
  fp_queue_max : Z;
  fp_scores_dropped : Z;                             (** [CoreDaemon._anomaly_scores_dropped] *)
}.

Definition fp_set_coordinator (s : FlowPipeline) x : FlowPipeline :=
  mk_flow_pipeline (fp_threat s) (fp_default_ttl s) (fp_resolve_mac s) x (fp_manager s) (fp_forwarder s) (fp_counters s)
    (fp_maturity s) (fp_next_id s) (fp_queue s) (fp_queue_max s) (fp_scores_dropped s).
Definition fp_set_manager (s : FlowPipeline) x : FlowPipeline :=
  mk_flow_pipeline (fp_threat s) (fp_default_ttl s) (fp_resolve_mac s) (fp_coordinator s) x (fp_forwarder s) (fp_counters s)
    (fp_maturity s) (fp_next_id s) (fp_queue s) (fp_queue_max s) (fp_scores_dropped s).
Definition fp_set_forwarder (s : FlowPipeline) x : FlowPipeline :=
  mk_flow_pipeline (fp_threat s) (fp_default_ttl s) (fp_resolve_mac s) (fp_coordinator s) (fp_manager s) x (fp_counters s)
    (fp_maturity s) (fp_next_id s) (fp_queue s) (fp_queue_max s) (fp_scores_dropped s).
Definition fp_set_counters (s : FlowPipeline) x : FlowPipeline :=
  mk_flow_pipeline (fp_threat s) (fp_default_ttl s) (fp_resolve_mac s) (fp_coordinator s) (fp_manager s) (fp_forwarder s) x
    (fp_maturity s) (fp_next_id s) (fp_queue s) (fp_queue_max s) (fp_scores_dropped s).
Definition fp_set_maturity (s : FlowPipeline) x : FlowPipeline :=
  mk_flow_pipeline (fp_threat s) (fp_default_ttl s) (fp_resolve_mac s) (fp_coordinator s) (fp_manager s) (fp_forwarder s)
    (fp_counters s) x (fp_next_id s) (fp_queue s) (fp_queue_max s) (fp_scores_dropped s).
Definition fp_set_next_id (s : FlowPipeline) x : FlowPipeline :=
  mk_flow_pipeline (fp_threat s) (fp_default_ttl s) (fp_resolve_mac s) (fp_coordinator s) (fp_manager s) (fp_forwarder s)
    (fp_counters s) (fp_maturity s) x (fp_queue s) (fp_queue_max s) (fp_scores_dropped s).
Definition fp_set_queue (s : FlowPipeline) x dropped : FlowPipeline :=
  mk_flow_pipeline (fp_threat s) (fp_default_ttl s) (fp_resolve_mac s) (fp_coordinator s) (fp_manager s) (fp_forwarder s)
    (fp_counters s) (fp_maturity s) (fp_next_id s) x (fp_queue_max s) dropped.

(** [FlowPipeline.__init__] *)
Definition new_flow_pipeline (threat : ThreatConfig) (default_ttl : Z) (resolve_mac : option (IPv4.t → option Mac.t))
  (coordinator : DetectionCoordinator) (manager : FirewallManager B F) (forwarder : EventForwarder) (counters : RuntimeCounters)
  (queue_max : Z) : FlowPipeline :=
  mk_flow_pipeline threat default_ttl resolve_mac coordinator manager forwarder counters (new_maturity threat) 0 [] queue_max 0.

#[local] Notation FpM := (M FlowPipeline).

Definition v1_id : FpM string := λ s, (Ok (new_id (fp_next_id s)), fp_set_next_id s (fp_next_id s + 1)).
Definition on_forwarder {A} (m : M EventForwarder A) : FpM A := λ s,
  let '(r, w) := m (fp_forwarder s) in (r, fp_set_forwarder s w).
Definition on_manager {A} (m : M (FirewallManager B F) A) : FpM A := λ s,
  let '(r, w) := m (fp_manager s) in (r, fp_set_manager s w).
Definition on_coordinator {A} (m : CoM A) : FpM A := λ s,
  let '(r, cw) := m (fp_coordinator s, fp_forwarder s) in (r, fp_set_forwarder (fp_set_coordinator s cw.1) cw.2).
Definition count_v1 (k : counter) (n : Z) : FpM unit := mmodify (λ s, fp_set_counters s (add_count k n (fp_counters s))).
Definition count_inferences (n : Z) (elapsed : float) : FpM unit :=
  mmodify (λ s, fp_set_counters s (add_inferences n elapsed (fp_counters s))).

(** [decide(assessment, now, self._maturity_tracker)]: the tracker is the
    pipeline's, the confidence threshold the function's default. *)
Definition decide_as (a : ThreatAssessment) (now : Z) (id : string) : FpM FirewallDecision := λ s,
       let '(d, t) := decide_threat a id now (Some (fp_maturity s)) _DEFAULT_KNOWN_ATTACK_CONFIDENCE in
       (Ok d, fp_set_maturity s (default (fp_maturity s) t)).
Definition decide_v1 (a : ThreatAssessment) (now : Z) : FpM FirewallDecision := id ← v1_id; decide_as a now id.

Definition assess_v1 (f : Flow) (now : Z) (o : DetectionOutcome) : FpM ThreatAssessment :=
  id ← v1_id;
  s ← mget;
  let r := do_record o in
  mlift (assess_threat (fp_threat s) id (flow_id f) (fl_source_ip f) (fl_destination_ip f) (dr_known_evidence r)
           (dr_anomaly_evidence r) (do_behavior o) now (dr_protocol_signature_evidence r)).

(** From the decision to the submitted candidate. *)
Definition enforce_v1 (f : Flow) (now : Z) (d : FirewallDecision) : FpM unit :=
  rule_id ← v1_id;
  s ← mget;
  match generate_candidate_rule d f now (fp_default_ttl s) (fp_resolve_mac s) rule_id with
  | None => mret tt
  | Some candidate =>
      _ ← on_manager (register_decision d);
      result ← on_manager (submit_candidate candidate now);
      _ ← match sr_rule result with
          | None => count_v1 RULES_REJECTED 1
          | Some _ => if bool_decide (fd_action d = BLOCK) then count_v1 BLOCKS 1 else mret tt
          end;
      on_forwarder (emit (sr_event result))
  end.

Definition _finish (f : Flow) (now : Z) (o : DetectionOutcome) : FpM unit :=
  assessment ← assess_v1 f now o;
  decision ← decide_v1 assessment now;
  _ ← on_forwarder (on_store (record_detection (do_record o) (fl_source_ip f)));
  _ ← on_forwarder (on_store (record_threat assessment));
  _ ← on_forwarder (on_store (record_decision decision));
  _ ← count_v1 DETECTIONS 1;
  _ ← (if inb (ta_threat_level assessment) _REPORTABLE_LEVELS
       then on_forwarder (emit (mk_event now (_severity_for (ta_threat_level assessment)) THREAT_DETECTED V1_SUBSYSTEM
              (Some (ta_threat_score assessment)) (Some (fd_action decision)) None (Some (ta_explanation assessment))))
       else mret tt);
  enforce_v1 f now decision.

Definition _report_failure (f : Flow) (now : Z) (e : exn) : FpM unit :=
  on_forwarder (emit (mk_event now SEV_ERROR FLOW_ERROR V1_SUBSYSTEM None None None
    (Some (exn_name e +:+ ": " +:+ exn_text e)))).

(** [try: m  except PirewallError ... except Exception ...] *)
Definition or_report_failure (f : Flow) (now : Z) (m : FpM unit) : FpM unit := λ s,
  match m s with
  | (Raise e, s') => _report_failure f now e s'
  | r => r
  end.

Definition finish (f : Flow) (now : Z) (o : DetectionOutcome) : FpM unit := or_report_failure f now (_finish f now o).

Definition process_snapshot (f : Flow) (now : Z) : FpM unit :=
  or_report_failure f now (
    _ ← on_forwarder (on_store (record_flow f));
    o ← on_coordinator (analyze_snapshot flow_id f now);
    _finish f now o).

Definition behavior_warrants_assessment (b : BehaviorAssessment) : FpM bool :=
  match ba_detected_patterns b with
  | [] => mret false
  | _ =>
      s ← mget;
      breakdown ← mlift (score_evidence (fp_threat s) None None (Some b) None);
      mret (fle (tc_medium_threshold (fp_threat s)) (sb_total breakdown))
  end.

Definition defers (scorer : option (PendingAnomalyScoring → FpM unit)) (s : FlowPipeline) (f : Flow)
  : option (PendingAnomalyScoring → FpM unit) :=
  match scorer with
  | Some score => if is_loaded (mr_isolation_forest (co_models (fp_coordinator s))) && in_model_domain f then Some score else None
  | None => None
  end.

Definition _process (scorer : option (PendingAnomalyScoring → FpM unit)) (f : Flow) (now : Z)
  (sig : option ProtocolSignatureEvidence) (elapsed : float) : FpM unit :=
  _ ← on_forwarder (on_store (record_flow f));
  match extract_features f LEGACY_SCHEMA_VERSION with
  | Raise (FeatureExtractionError msg) => _report_failure f now (FeatureExtractionError msg)
  | Raise e => mraise e
  | Ok features =>
      s ← mget;
      match defers scorer s f with
      | Some score =>
          outcome ← on_coordinator (analyze_except_anomaly interp flow_id f features now sig);
          _ ← (if is_loaded (mr_lightgbm (co_models (fp_coordinator s))) then count_inferences 1 elapsed else mret tt);
          score (mk_pending f now features outcome)
      | None =>
          outcome ← on_coordinator (analyze interp flow_id f features now sig);
          _ ← (if any_loaded (co_models (fp_coordinator s)) then count_inferences 1 elapsed else mret tt);
          _finish f now outcome
      end
  end.

Definition process (scorer : option (PendingAnomalyScoring → FpM unit)) (f : Flow) (now : Z)
  (sig : option ProtocolSignatureEvidence) (elapsed : float) : FpM unit :=
  or_report_failure f now (_process scorer f now sig elapsed).

(** ** Batched anomaly scoring (runtime/core.py) *)

Definition _note_anomaly_scoring_drop (f : Flow) (wall : Z) : FpM unit :=
  _ ← mmodify (λ s, fp_set_queue s (fp_queue s) (fp_scores_dropped s + 1));
  _ ← count_v1 ANOMALY_SCORES_DROPPED 1;
  s ← mget;
  let count := fp_scores_dropped s in
  if negb (reported count _BACKPRESSURE_REPORT_INTERVAL) then mret tt
  else on_forwarder (emit (mk_event wall SEV_WARNING SYSTEM_WARNING CORE_SUBSYSTEM None None None
         (Some ("anomaly-scoring queue full; " +:+ pretty count +:+ " flow(s) finished without an anomaly score. "
                +:+ "Batched Isolation Forest inference is falling behind.")))).

Definition _enqueue_anomaly_scoring (wall : Z) (p : PendingAnomalyScoring) : FpM unit :=
  s ← mget;
  if Z.of_nat (length (fp_queue s)) <? fp_queue_max s
  then mmodify (λ s, fp_set_queue s (fp_queue s ++ [p]) (fp_scores_dropped s))
  else _ ← _note_anomaly_scoring_drop (pn_flow p) wall; finish (pn_flow p) (pn_now p) (pn_outcome p).

(** [zip(batch, evidences, strict=True)] over a batch of the same length *)
Fixpoint finish_batch (batch : list (PendingAnomalyScoring * option AnomalyEvidence)) : FpM unit :=
  match batch with
  | [] => mret tt
  | (p, e) :: batch' =>
      _ ← finish (pn_flow p) (pn_now p) (with_anomaly_evidence (pn_outcome p) e);
      finish_batch batch'
  end.

Definition batch_inputs (batch : list PendingAnomalyScoring) : list (string * FeatureVector) :=
  (λ p, (flow_id (pn_flow p), pn_features p)) <$> batch.

Definition _score_and_finish_batch (batch : list PendingAnomalyScoring) (wall : Z) (elapsed : float) : FpM unit :=
  s ← mget;
  match mr_isolation_forest (co_models (fp_coordinator s)) with
  | None => mfold_unit (λ p, finish (pn_flow p) (pn_now p) (pn_outcome p)) batch
  | Some model =>
      evidences ← (match detect_batch model (batch_inputs batch) (co_anomaly_score_threshold (fp_coordinator s)) wall with
                   | Ok es => mret (Some <$> es)
                   | Raise (ModelInferenceError _) | Raise (ValueError _) => mret (replicate (length batch) None)
                   | Raise e => mraise e
                   end : FpM (list (option AnomalyEvidence)));
      _ ← count_inferences (Z.of_nat (length batch)) elapsed;
      finish_batch (zip batch evidences)
  end.

(** [_collect_anomaly_batch] once its wait is over: the first item and up to
    [anomaly_batch_size] in all. *)
Definition take_batch (size : Z) : FpM (list PendingAnomalyScoring) := λ s,
  (Ok (take (Z.to_nat size) (fp_queue s)), fp_set_queue s (drop (Z.to_nat size) (fp_queue s)) (fp_scores_dropped s)).
End Pipeline.
Arguments FlowPipeline B F : clear implicits.

(** * Properties of the v1 pipeline

    What the pipeline may do to the firewall, and that batching the anomaly
    scores changes no verdict. *)

Local Open Scope Z_scope.

Section Props.
Context {B F : Type} {SB : SetBackend B} {FB : FirewallBackend F} {SBL : SetBackendLaws B} {FBL : FirewallBackendLaws F}.
Context (new_id : Z → string) (flow_id : Flow → string) (interp : float → list float → list float → float) (exn_text : exn → string).

#[local] Notation Pipe := (FlowPipeline B F).
#[local] Notation finish_ := (_finish new_id flow_id).
#[local] Notation finish := (finish new_id flow_id exn_text).
#[local] Notation process := (process new_id flow_id interp exn_text).
#[local] Notation process_snapshot := (process_snapshot new_id flow_id exn_text).
#[local] Notation enqueue := (_enqueue_anomaly_scoring new_id flow_id exn_text).
#[local] Notation score_batch := (_score_and_finish_batch new_id flow_id exn_text).

(** ** Steps that leave the manager and the configuration alone *)

Section Keeps.
Context (R : Pipe → Pipe → Prop) `{!PreOrder R}.
Context (HR : ∀ s s', fp_manager s' = fp_manager s → fp_threat s' = fp_threat s → R s s').
#[local] Notation framed := (framed R).

Lemma v1_local {A} (m : M Pipe A) : (∀ s, fp_manager (m s).2 = fp_manager s ∧ fp_threat (m s).2 = fp_threat s) → framed m.
Proof. intros Hm s. destruct (Hm s). by apply HR. Qed.

Lemma v1_forwarder {A} (m : M EventForwarder A) : framed (on_forwarder m).
Proof. apply v1_local. intros s. unfold on_forwarder. by destruct (m (fp_forwarder s)). Qed.
Lemma v1_coordinator {A} (m : CoM A) : framed (on_coordinator m).
Proof. apply v1_local. intros s. unfold on_coordinator. by destruct (m (fp_coordinator s, fp_forwarder s)). Qed.
Lemma v1_decide a now : framed (decide_v1 new_id a now).
Proof.
  unfold decide_v1. apply (frame_bind R); [by apply v1_local|]. intros id. apply v1_local. intros s. unfold decide_as.
  by destruct (decide_threat _ _ _ _ _).
Qed.
Lemma v1_assess f now o : framed (assess_v1 new_id flow_id f now o).
Proof.
  unfold assess_v1. apply (frame_bind R); [by apply v1_local|]. intros id. apply (frame_bind R); [apply (frame_get R)|]. intros s.
  apply (frame_lift R).
Qed.
Lemma v1_failure f now e : framed (_report_failure exn_text f now e).
Proof. apply v1_forwarder. Qed.
Lemma v1_or_report f now m : framed m → framed (or_report_failure exn_text f now m).
Proof.
  intros Hm s. unfold or_report_failure. specialize (Hm s). destruct (m s) as [[u|e] s']; [exact Hm|]. cbn in Hm.
  etransitivity; [exact Hm|apply v1_failure].
Qed.

(** Everything of [_finish] before the candidate. *)
Lemma v1_finish f now o : (∀ d, framed (enforce_v1 new_id f now d)) → framed (finish_ f now o).
Proof.
  intros He. unfold _finish. apply (frame_bind R); [apply v1_assess|]. intros a. apply (frame_bind R); [apply v1_decide|]. intros d.
  do 3 (apply (frame_bind R); [apply v1_forwarder|]; intros _). apply (frame_bind R); [by apply v1_local|]. intros _.
  apply (frame_bind R); [|intros _; apply He]. destruct (inb _ _); [apply v1_forwarder|apply (frame_ret R)].
Qed.

Lemma v1_enforce f now d :
  (∀ c, framed (on_manager (register_decision d)) ∧ (rf_action (cr_fields c) = fd_action d → framed (on_manager (submit_candidate c now)))) →
  framed (enforce_v1 new_id f now d).
Proof.
  intros Hm. unfold enforce_v1. apply (frame_bind R); [by apply v1_local|]. intros rule_id. apply (frame_bind R); [apply (frame_get R)|]. intros s.
  destruct (generate_candidate_rule _ _ _ _ _ _) as [c|] eqn:Hc; [|apply (frame_ret R)].
  assert (Ha : rf_action (cr_fields c) = fd_action d) by (unfold generate_candidate_rule in Hc; destruct (fd_action d); [done|by injection Hc as <-..]).
  destruct (Hm c) as [Hreg Hsub]. apply (frame_bind R); [apply Hreg|]. intros _. apply (frame_bind R); [by apply Hsub|]. intros res.
  apply (frame_bind R); [|intros _; apply v1_forwarder]. destruct (sr_rule res); [|by apply v1_local].
  destruct (bool_decide _); [by apply v1_local|apply (frame_ret R)].
Qed.

(** Everything the threads do with the pipeline. *)
Lemma v1_process f now sig elapsed scorer :
  (∀ g t o, framed (finish_ g t o)) → (∀ p, match scorer with Some score => framed (score p) | None => True end) →
  framed (process scorer f now sig elapsed).
Proof.
  intros Hf Hs. apply v1_or_report. unfold _process. apply (frame_bind R); [apply v1_forwarder|]. intros _.
  destruct (extract_features _ _) as [v|e].
  - apply (frame_bind R); [apply (frame_get R)|]. intros s. destruct (defers scorer s f) as [score|] eqn:Hd.
    + unfold defers in Hd. destruct scorer as [score'|]; [|done]. destruct (_ && _); [|done]. injection Hd as ->.
      apply (frame_bind R); [apply v1_coordinator|]. intros o. apply (frame_bind R); [|intros _; apply Hs].
      destruct (is_loaded _); [by apply v1_local|apply (frame_ret R)].
    + apply (frame_bind R); [apply v1_coordinator|]. intros o. apply (frame_bind R); [|intros _; apply Hf].
      destruct (any_loaded _); [by apply v1_local|apply (frame_ret R)].
  - destruct e; solve [apply (frame_raise R)|apply v1_failure].
Qed.

Lemma v1_snapshot f now : (∀ g t o, framed (finish_ g t o)) → framed (process_snapshot f now).
Proof.
  intros Hf. apply v1_or_report. apply (frame_bind R); [apply v1_forwarder|]. intros _.
  apply (frame_bind R); [apply v1_coordinator|]. intros o. apply Hf.
Qed.

Lemma v1_enqueue wall p : (∀ g t o, framed (finish_ g t o)) → framed (enqueue wall p).
Proof.
  intros Hf. unfold _enqueue_anomaly_scoring. apply (frame_bind R); [apply (frame_get R)|]. intros s.
  destruct (_ <? _); [by apply v1_local|]. apply (frame_bind R); [|intros _; apply v1_or_report, Hf].
  unfold _note_anomaly_scoring_drop. do 2 (apply (frame_bind R); [by apply v1_local|]; intros _).
  apply (frame_bind R); [apply (frame_get R)|]. intros s'. destruct (negb _); [apply (frame_ret R)|apply v1_forwarder].
Qed.

Lemma v1_batch batch wall elapsed : (∀ g t o, framed (finish_ g t o)) → framed (score_batch batch wall elapsed).
Proof.
  intros Hf. unfold _score_and_finish_batch. apply (frame_bind R); [apply (frame_get R)|]. intros s.
  destruct (mr_isolation_forest _) as [model|]; [|apply (frame_fold R); intros p; apply v1_or_report, Hf].
  apply (frame_bind R); [destruct (detect_batch _ _ _ _) as [es|[]]; solve [apply (frame_ret R)|apply (frame_raise R)]|]. intros es.
  apply (frame_bind R); [by apply v1_local|]. intros _. generalize (zip batch es). intros l.
  induction l as [|[p e] l IH]; [apply (frame_ret R)|]. apply (frame_bind R); [apply v1_or_report, Hf|]. done.
Qed.
End Keeps.

Inductive v1_op :=
| V1Process (f : Flow) (now : Z) (sig : option ProtocolSignatureEvidence) (elapsed : float)
| V1Snapshot (f : Flow) (now : Z)
| V1Batch (size wall : Z) (elapsed : float).

(** [batching]: the daemon gave the pipeline its scorer; [wall] is the clock
    of a dropped score. *)
Definition v1_do (batching : bool) (wall : Z) (op : v1_op) : M Pipe unit :=
  match op with
  | V1Process f now sig elapsed => process (if batching then Some (enqueue wall) else None) f now sig elapsed
  | V1Snapshot f now => process_snapshot f now
  | V1Batch size wall elapsed => batch ← take_batch size; score_batch batch wall elapsed
  end.
Definition v1_run (batching : bool) (wall : Z) (s : Pipe) (ops : list v1_op) : Pipe := foldl (λ s op, (v1_do batching wall op s).2) s ops.

Lemma v1_do_framed (R : Pipe → Pipe → Prop) `{!PreOrder R} batching wall op :
  (∀ s s', fp_manager s' = fp_manager s → fp_threat s' = fp_threat s → R s s') → (∀ g t o, framed R (finish_ g t o)) →
  framed R (v1_do batching wall op).
Proof.
  intros HR Hf. destruct op as [f now sig el|f now|size w el]; cbn [v1_do].
  - apply (v1_process R HR); [done|]. intros p. destruct batching; [|done]. by apply (v1_enqueue R HR).
  - by apply (v1_snapshot R HR).
  - apply (frame_bind R); [by apply (v1_local R HR)|]. intros batch. by apply (v1_batch R HR).
Qed.

(** ** SHADOW *)

Definition inert_v1 (s s' : Pipe) : Prop := m_mode (fp_manager s) = MODE_SHADOW →
  m_mode (fp_manager s') = MODE_SHADOW ∧ m_sets (fp_manager s') = m_sets (fp_manager s) ∧
  m_backend (fp_manager s') = m_backend (fp_manager s).

#[local] Instance inert_v1_preorder : PreOrder inert_v1.
Proof.
  split; [done|]. intros s1 s2 s3 H12 H23 Hm. destruct (H12 Hm) as (Hm2 & Hs2 & Hb2). destruct (H23 Hm2) as (Hm3 & Hs3 & Hb3).
  rewrite Hs3, Hb3. done.
Qed.

Lemma inert_v1_local s s' : fp_manager s' = fp_manager s → fp_threat s' = fp_threat s → inert_v1 s s'.
Proof. unfold inert_v1. by intros -> _. Qed.

Lemma inert_v1_finish f now o : framed inert_v1 (finish_ f now o).
Proof.
  apply (v1_finish _ inert_v1_local). intros d. apply (v1_enforce _ inert_v1_local). intros c. split; [done|]. intros _ s Hm.
  unfold on_manager. pose proof (submit_shadow_spec (fp_manager s) c now Hm) as Hspec.
  destruct (submit_candidate c now (fp_manager s)) as [r m']. destruct Hspec as (Hb & Hs & Hmode & _). cbn. done.
Qed.

(** Under SHADOW the whole v1 pipeline is inert: whatever flows,
    snapshots and batches it is given, inline or batched, and however they
    end, the kernel sets and the v1 backend are exactly what they were and
    the mode is still SHADOW. *)
Theorem shadow_v1_is_inert batching wall s ops :
  m_mode (fp_manager s) = MODE_SHADOW →
  m_mode (fp_manager (v1_run batching wall s ops)) = MODE_SHADOW ∧
  m_sets (fp_manager (v1_run batching wall s ops)) = m_sets (fp_manager s) ∧
  m_backend (fp_manager (v1_run batching wall s ops)) = m_backend (fp_manager s).
Proof.
  intros Hm. assert (Hi : inert_v1 s (v1_run batching wall s ops)); [|by apply Hi]. clear Hm. revert s. unfold v1_run.
  induction ops as [|op ops IH]; intros s; [reflexivity|]. cbn. etransitivity; [|apply IH].
  apply v1_do_framed; [apply _|apply inert_v1_local|apply inert_v1_finish].
Qed.

(** ** Machine learning *)

Definition same_kernel_v1 (s s' : Pipe) : Prop := ∀ b, m_sets (fp_manager s) = Some b → kernel_kept b (fp_manager s').

#[local] Instance same_kernel_v1_preorder : PreOrder same_kernel_v1.
Proof.
  split; [intros s b Hs; by exists b|]. intros s1 s2 s3 H12 H23 b Hs. destruct (H12 b Hs) as (b2 & Hs2 & Hv2).
  destruct (H23 b2 Hs2) as (b3 & Hs3 & Hv3). exists b3. split; [done|]. by rewrite Hv3.
Qed.

Lemma same_kernel_v1_local s s' : fp_manager s' = fp_manager s → fp_threat s' = fp_threat s → same_kernel_v1 s s'.
Proof. intros Heq _ b Hs. rewrite Heq. by exists b. Qed.

Lemma enforce_harmless f now d : restrictive (fd_action d) = false → framed same_kernel_v1 (enforce_v1 new_id f now d).
Proof.
  intros Hd. apply (v1_enforce _ same_kernel_v1_local). intros c. split; [intros s b Hs; by exists b|]. intros Ha s b Hs. unfold on_manager.
  destruct (submit_candidate c now (fp_manager s)) as [r m'] eqn:Hsub. cbn.
  refine (submit_harmless _ b c now r m' Hs _ Hsub). rewrite Ha. exact Hd.
Qed.

(** Behaviour or a protocol signature behind an outcome. *)
Definition deterministic (o : DetectionOutcome) : Prop :=
  is_Some (dr_protocol_signature_evidence (do_record o)) ∨ ∃ b p, do_behavior o = Some b ∧ p ∈ ba_detected_patterns b.

Lemma finish_harmless f now o s : threat_config_wf (fp_threat s) → tc_ml_evidence_can_enforce (fp_threat s) = false →
  ¬ deterministic o → same_kernel_v1 s (finish_ f now o s).2.
Proof.
  intros Hwf Hml Hdet. unfold _finish. unfold mbind at 1, m_bind at 1.
  pose proof (v1_assess same_kernel_v1 same_kernel_v1_local f now o s) as Ha.
  destruct (assess_v1 _ _ f now o s) as [[a|e] s1] eqn:Has; [|exact Ha]. cbn [snd] in Ha. etransitivity; [exact Ha|].
  unfold mbind at 1, m_bind at 1. pose proof (v1_decide same_kernel_v1 same_kernel_v1_local a now s1) as Hd.
  destruct (decide_v1 new_id a now s1) as [[d|e] s2] eqn:Hdec; [|exact Hd]. cbn [snd] in Hd. etransitivity; [exact Hd|].
  assert (Hres : restrictive (fd_action d) = false).
  { unfold assess_v1, mbind, m_bind, mget, mlift in Has. cbn in Has. injection Has as Has _.
    unfold decide_v1, decide_as, mbind, m_bind in Hdec. cbn in Hdec.
    destruct (decide_threat a _ now _ _) as [d' t'] eqn:Hdt in Hdec. injection Hdec as <- _.
    destruct (restrictive (fd_action d')) eqn:Hr; [|done]. exfalso. apply Hdet. replace d' with (d', t').1 in Hr by done. rewrite <- Hdt in Hr.
    apply (ml_ceiling_holds _ _ _ _ _ _ _ _ _ _ _ _ _ _ Hwf Hml Has Hr). }
  clear Hdec Has Ha Hd. revert s2. change (framed same_kernel_v1 (
    _ ← on_forwarder (on_store (record_detection (do_record o) (fl_source_ip f)));
    _ ← on_forwarder (on_store (record_threat a));
    _ ← on_forwarder (on_store (record_decision d));
    _ ← count_v1 DETECTIONS 1;
    _ ← (if inb (ta_threat_level a) _REPORTABLE_LEVELS
         then on_forwarder (emit (mk_event now (_severity_for (ta_threat_level a)) THREAT_DETECTED V1_SUBSYSTEM
                (Some (ta_threat_score a)) (Some (fd_action d)) None (Some (ta_explanation a))))
         else mret tt);
    enforce_v1 new_id f now d)).
  do 3 (apply (frame_bind _); [apply (v1_forwarder _ same_kernel_v1_local)|]; intros _).
  apply (frame_bind _); [by apply (v1_local _ same_kernel_v1_local)|]. intros _.
  apply (frame_bind _); [|intros _; by apply enforce_harmless].
  destruct (inb _ _); [apply (v1_forwarder _ same_kernel_v1_local)|apply (frame_ret _)].
Qed.

Lemma report_harmless f now (m : M Pipe unit) s : same_kernel_v1 s (m s).2 → same_kernel_v1 s (or_report_failure exn_text f now m s).2.
Proof.
  intros Hm. unfold or_report_failure. destruct (m s) as [[u|e] s']; [exact Hm|]. cbn in Hm. etransitivity; [exact Hm|].
  apply (v1_failure _ same_kernel_v1_local).
Qed.

(** The source shows a behavioural pattern. *)
Definition shows_pattern (r : result (option BehaviorAssessment)) : Prop :=
  ∃ b p, r = Ok (Some b) ∧ p ∈ ba_detected_patterns b.

Lemma deterministic_dec o : deterministic o ∨ ¬ deterministic o.
Proof.
  unfold deterministic. destruct (dr_protocol_signature_evidence _); [left; left; by eexists|].
  destruct (do_behavior o) as [b|]; [|right; by intros [[? ?]|(? & ? & ? & _)]].
  destruct (ba_detected_patterns b) as [|p ps] eqn:Hp; [right|left; right; exists b, p; rewrite Hp; split; [done|left]].
  intros [[? ?]|(b' & p & Hb & Hin)]; [done|]. injection Hb as <-. rewrite Hp in Hin. set_solver.
Qed.

(** Detection and then [_finish], from a state with the same manager. *)
Lemma detected_harmless f now o s s' b : threat_config_wf (fp_threat s) → tc_ml_evidence_can_enforce (fp_threat s) = false →
  m_sets (fp_manager s) = Some b → fp_manager s' = fp_manager s → fp_threat s' = fp_threat s →
  kernel_kept b (fp_manager (finish_ f now o s').2) ∨ deterministic o.
Proof.
  intros Hwf Hml Hb Hm Ht. destruct (deterministic_dec o) as [|Hn]; [by right|left]. rewrite <- Ht in Hwf, Hml.
  apply (finish_harmless f now o s' Hwf Hml Hn b). by rewrite Hm.
Qed.

Lemma reported_kept f now (m : M Pipe unit) s b : kernel_kept b (fp_manager (m s).2) → kernel_kept b (fp_manager (or_report_failure exn_text f now m s).2).
Proof.
  unfold or_report_failure. destruct (m s) as [[u|e] s']; [done|]. cbn. intros (b' & Hb' & Hv).
  destruct (v1_failure _ same_kernel_v1_local f now e s' b' Hb') as (b2 & Hb2 & Hv2). exists b2. split; [done|]. by rewrite Hv2.
Qed.

Lemma process_kept f now sig elapsed s b : threat_config_wf (fp_threat s) → tc_ml_evidence_can_enforce (fp_threat s) = false →
  m_sets (fp_manager s) = Some b →
  kernel_kept b (fp_manager (_process new_id flow_id interp exn_text None f now sig elapsed s).2) ∨
  ∃ v o cw w, analyze interp flow_id f v now sig (fp_coordinator s, w) = (Ok o, cw) ∧ deterministic o.
Proof.
  intros Hwf Hml Hb. assert (Hself : ∀ s', fp_manager s' = fp_manager s → kernel_kept b (fp_manager s')) by (intros s' ->; by exists b).
  unfold _process. unfold mbind at 1, m_bind at 1. unfold on_forwarder at 1.
  destruct (on_store (record_flow f) (fp_forwarder s)) as [[u|e] w]; [|left; by apply Hself]. set (s1 := fp_set_forwarder s w).
  destruct (extract_features f _) as [v|e].
  2:{ left. destruct e; try (by apply Hself). unfold _report_failure, on_forwarder. destruct (emit _ _). by apply Hself. }
  unfold mbind at 1, m_bind at 1, mget. cbn [defers]. unfold mbind at 1, m_bind at 1. unfold on_coordinator.
  change (fp_coordinator s1) with (fp_coordinator s).
  destruct (analyze interp flow_id f v now sig _) as [[o|e] cw] eqn:Ha; [|left; by apply Hself].
  unfold mbind at 1, m_bind at 1. destruct (any_loaded _); unfold count_inferences, mmodify, mret, m_ret; cbn [fst snd];
    match goal with |- context [finish_ f now o ?s2] => destruct (detected_harmless f now o s s2 b Hwf Hml Hb eq_refl eq_refl) as [|Hd] end;
    solve [by left|right; by exists v, o, cw, (fp_forwarder s1)].
Qed.

Lemma snapshot_kept f now s b : threat_config_wf (fp_threat s) → tc_ml_evidence_can_enforce (fp_threat s) = false →
  m_sets (fp_manager s) = Some b →
  kernel_kept b (fp_manager ((_ ← on_forwarder (on_store (record_flow f)); o ← on_coordinator (analyze_snapshot flow_id f now); finish_ f now o) s).2) ∨
  ∃ ba p, (assess_at (fl_source_ip f) (fl_last_seen f) (co_behavior (fp_coordinator s))).1 = Ok (Some ba) ∧ p ∈ ba_detected_patterns ba.
Proof.
  intros Hwf Hml Hb. assert (Hself : ∀ s', fp_manager s' = fp_manager s → kernel_kept b (fp_manager s')) by (intros s' ->; by exists b).
  unfold mbind at 1, m_bind at 1. unfold on_forwarder at 1. destruct (on_store (record_flow f) (fp_forwarder s)) as [[u|e] w]; [|left; by apply Hself].
  unfold mbind at 1, m_bind at 1. unfold on_coordinator, analyze_snapshot, mbind, m_bind, on_behavior. cbn [fst snd fp_coordinator fp_set_forwarder].
  destruct (assess_at _ _ _) as [[ba|e] a]; cbn [fst snd]; [|left; by apply Hself]. unfold mret, m_ret. cbn [fst snd].
  match goal with |- context [finish_ f now ?o ?s2] =>
    destruct (detected_harmless f now o s s2 b Hwf Hml Hb eq_refl eq_refl) as [|[[? ?]|(b0 & p & Hb0 & Hp)]] end; [by left|done|right].
  cbn in Hb0. subst ba. by exists b0, p.
Qed.

(** C31: On the v1 path no model can make the firewall act: with
    [ml_evidence_can_enforce] off, whatever booster and forest are loaded
    and whatever they answer, processing a flow leaves every kernel element
    as it was unless a protocol signature came with the flow or its source
    shows a behavioural pattern; a snapshot changes the kernel only on a
    pattern; and a flow finished after its batch only on one of the two. *)
Theorem v1_models_never_enforce s b : threat_config_wf (fp_threat s) → tc_ml_evidence_can_enforce (fp_threat s) = false →
  m_sets (fp_manager s) = Some b →
  (∀ f now sig elapsed, kernel_kept b (fp_manager (process None f now sig elapsed s).2) ∨ is_Some sig ∨
     shows_pattern (assess (fl_source_ip f) (analyzer_observe_completion f (co_behavior (fp_coordinator s))).2)) ∧
  (∀ f now, kernel_kept b (fp_manager (process_snapshot f now s).2) ∨
     shows_pattern (assess_at (fl_source_ip f) (fl_last_seen f) (co_behavior (fp_coordinator s))).1) ∧
  (∀ f now o, kernel_kept b (fp_manager (finish f now o s).2) ∨ deterministic o).
Proof.
  intros Hwf Hml Hb. split; [|split].
  - intros f now sig elapsed. destruct (process_kept f now sig elapsed s b Hwf Hml Hb) as [Hk|(v & o & cw & w & Ha & Hd)]; [left; by apply reported_kept|].
    right. apply analyze_outcome in Ha as [Hs Ho]. destruct Hd as [Hd|(ba & p & Hba & Hp)]; [left; congruence|right].
    exists ba, p. by rewrite Ho, Hba.
  - intros f now. unfold process_snapshot.
    destruct (snapshot_kept f now s b Hwf Hml Hb) as [Hk|(ba & p & Hr & Hp)]; [left; by apply reported_kept|right; by exists ba, p].
  - intros f now o. destruct (detected_harmless f now o s s b Hwf Hml Hb eq_refl eq_refl) as [Hk|Hd]; [left; by apply reported_kept|by right].
Qed.
End Props.
