(* ===== verification/Batching.v ===== *)
(** * Batched anomaly scoring changes no verdict

    With a scorer the pipeline only detects, and the rest of a flow's way
    runs when its batch has been scored; without one it runs at once.  The
    two orders give the same firewall, the same audit trail and the same
    history, as long as the model carries no operating threshold of its
    own. *)

From S2P Require Import Prelude Float Net Models Sets SetBackend Validator Backend Manager Throttle Policy Flow Features Thresholds Threat Inference Runtime D1 Behavior Coordinator PipelineV1.
Local Open Scope Z_scope.

(** ** Scoring a batch is scoring its rows *)

Fixpoint rmap {A C} (f : A → result C) (l : list A) : result (list C) :=
  match l with
  | [] => Ok []
  | a :: l' => rbind (f a) (λ c, rbind (rmap f l') (λ cs, Ok (c :: cs)))
  end.

Lemma score_batch_rows model g vs : (∀ rows, if_model model rows = Ok (g <$> rows)) →
  Forall (λ v, validate_feature_vector v (if_metadata model) = Ok tt) vs →
  anomaly_score_batch model vs = Ok (g <$> (fv_values <$> vs)).
Proof.
  intros Hg Hv. unfold anomaly_score_batch. rewrite Hg. destruct vs as [|v vs]; [done|].
  assert (Hall : rforall (λ v, validate_feature_vector v (if_metadata model)) (v :: vs) = Ok tt); [|by rewrite Hall].
  induction Hv as [|x l Hx Hl IH]; [done|]. cbn [rforall]. by rewrite Hx.
Qed.

Lemma detect_batch_rows model g vs threshold now : (∀ rows, if_model model rows = Ok (g <$> rows)) →
  Forall (λ v : string * FeatureVector, validate_feature_vector v.2 (if_metadata model) = Ok tt) vs →
  detect_batch model vs threshold now = rmap (λ v, detect model v.1 v.2 threshold now) vs.
Proof.
  intros Hg Hv. unfold detect_batch. rewrite (score_batch_rows model g); [|done|by rewrite Forall_fmap]. cbn [rbind].
  induction Hv as [|[id v] vs Hx Hl IH]; [done|]. cbn [fmap list_fmap zip_evidence rmap fst snd].
  unfold detect at 1, anomaly_score. cbn in Hx. rewrite Hx. cbn [rbind]. rewrite Hg. cbn [rbind fmap list_fmap].
  destruct (anomaly_of _ _ _ _ _); [|done]. cbn [rbind]. by rewrite <- IH.
Qed.

Section Batching.
Context {B F : Type} {SB : SetBackend B} {FB : FirewallBackend F} {SBL : SetBackendLaws B} {FBL : FirewallBackendLaws F}.
Context (new_id : Z → string) (flow_id : Flow → string) (interp : float → list float → list float → float) (exn_text : exn → string).

#[local] Notation Pipe := (FlowPipeline B F).
#[local] Notation finish_ := (_finish new_id flow_id).
#[local] Notation finish := (finish new_id flow_id exn_text).
#[local] Notation process := (process new_id flow_id interp exn_text).
#[local] Notation enqueue := (_enqueue_anomaly_scoring new_id flow_id exn_text).
#[local] Notation score_batch := (_score_and_finish_batch new_id flow_id exn_text).

(** ** The part of the state detection owns *)

Record Front : Type := mk_front {
  fr_coordinator : DetectionCoordinator;
  fr_flows : FairShareHistory IPv4.t Flow;
  fr_inferences : Z;
  fr_seconds : float;
  fr_queue : list PendingAnomalyScoring;
}.

Definition fw_with_flows (h : FairShareHistory IPv4.t Flow) (w : EventForwarder) : EventForwarder :=
  mk_forwarder (st_set_flows (fw_state w) h) (fw_wazuh w) (fw_sends w) (fw_forward_failures w).
Definition rc_with (n : Z) (t : float) (c : RuntimeCounters) : RuntimeCounters :=
  mk_runtime_counters (rc_flows_completed c) (rc_flows_expired c) n t (rc_detections c) (rc_blocks c) (rc_rules_rejected c)
    (rc_flows_dropped_for_backpressure c) (rc_anomaly_scores_dropped_for_backpressure c) (rc_source_snapshot_assessments c).

Definition with_front (x : Front) (s : Pipe) : Pipe :=
  mk_flow_pipeline (fp_threat s) (fp_default_ttl s) (fp_resolve_mac s) (fr_coordinator x) (fp_manager s)
    (fw_with_flows (fr_flows x) (fp_forwarder s)) (rc_with (fr_inferences x) (fr_seconds x) (fp_counters s)) (fp_maturity s)
    (fp_next_id s) (fr_queue x) (fp_queue_max s) (fp_scores_dropped s).

Definition front_of (s : Pipe) : Front :=
  mk_front (fp_coordinator s) (st_flows (fw_state (fp_forwarder s))) (rc_inferences (fp_counters s))
    (rc_inference_seconds_total (fp_counters s)) (fp_queue s).

Lemma with_front_of s : with_front (front_of s) s = s.
Proof. by destruct s as [? ? ? ? ? [[] ? ? ?] [] ? ? ? ? ?]. Qed.

(** [m] neither reads nor writes that part. *)
Definition independent {A} (m : M Pipe A) : Prop := ∀ x s, m (with_front x s) = ((m s).1, with_front x (m s).2).

Lemma ind_ret {A} (a : A) : independent (mret a).
Proof. by intros x s. Qed.
Lemma ind_bind {A C} (m : M Pipe A) (k : A → M Pipe C) : independent m → (∀ a, independent (k a)) → independent (m ≫= k).
Proof.
  intros Hm Hk x s. unfold mbind, m_bind. rewrite Hm. destruct (m s) as [[a|e] s']; cbn [fst snd]; [apply Hk|done].
Qed.
Lemma ind_read {A C} (g : Pipe → C) (k : C → M Pipe A) : (∀ x s, g (with_front x s) = g s) → (∀ c, independent (k c)) →
  independent (s ← mget; k (g s)).
Proof. intros Hg Hk x s. unfold mbind, m_bind, mget. rewrite Hg. apply Hk. Qed.
Lemma ind_id : independent (v1_id new_id).
Proof. by intros x s. Qed.
Lemma ind_manager {A} (m : M (FirewallManager B F) A) : independent (on_manager m).
Proof. intros x s. unfold on_manager. cbn [fp_manager with_front]. by destruct (m (fp_manager s)). Qed.

Definition ind_fw {A} (m : M EventForwarder A) : Prop := ∀ h w, m (fw_with_flows h w) = ((m w).1, fw_with_flows h (m w).2).
Lemma ind_forwarder {A} (m : M EventForwarder A) : ind_fw m → independent (on_forwarder m).
Proof.
  intros Hm x s. unfold on_forwarder. cbn [fp_forwarder with_front]. rewrite Hm. by destruct (m (fp_forwarder s)).
Qed.
Lemma fw_event e : ind_fw (on_store (record_event e)).
Proof. by intros h w. Qed.
Lemma fw_decision d : ind_fw (on_store (record_decision d)).
Proof. by intros h w. Qed.
Lemma fw_detection r ip : ind_fw (on_store (record_detection r ip)).
Proof.
  intros h w. unfold on_store, record_detection. cbn [fw_state fw_with_flows st_detections st_set_flows].
  by destruct (append_history _ _ _ _).
Qed.
Lemma fw_threat a : ind_fw (on_store (record_threat a)).
Proof.
  intros h w. unfold on_store, record_threat. cbn [fw_state fw_with_flows st_threats st_set_flows]. by destruct (append_history _ _ _ _).
Qed.
Lemma fw_emit e : ind_fw (emit e).
Proof.
  intros h w. unfold emit, mbind, m_bind. rewrite fw_event. cbn [fst snd on_store record_event mmodify].
  unfold _forward. cbn [fw_wazuh fw_with_flows]. destruct (fw_wazuh w) as [send|]; [|done]. cbn [fw_sends].
  destruct (send _ e); [|done]. unfold _note_forward_failure. cbn [fw_forward_failures].
  destruct (negb _); [done|]. done.
Qed.

Lemma ind_decide a now : independent (decide_v1 new_id a now).
Proof.
  apply ind_bind; [apply ind_id|]. intros id x s. unfold decide_as. cbn [fp_maturity with_front]. by destruct (decide_threat _ _ _ _ _).
Qed.
Lemma ind_enforce f now d : independent (enforce_v1 new_id f now d).
Proof.
  apply ind_bind; [apply ind_id|]. intros rule_id.
  apply (ind_read (λ s, generate_candidate_rule d f now (fp_default_ttl s) (fp_resolve_mac s) rule_id)
    (λ c, match c with None => mret tt | Some candidate =>
      _ ← on_manager (register_decision d);
      result ← on_manager (submit_candidate candidate now);
      _ ← match sr_rule result with
          | None => count_v1 RULES_REJECTED 1
          | Some _ => if bool_decide (fd_action d = BLOCK) then count_v1 BLOCKS 1 else mret tt
          end;
      on_forwarder (emit (sr_event result)) end)); [done|].
  intros [c|]; [|apply ind_ret]. apply ind_bind; [apply ind_manager|]. intros _. apply ind_bind; [apply ind_manager|]. intros res.
  apply ind_bind; [|intros _; apply ind_forwarder, fw_emit]. destruct (sr_rule res); [|by intros x s].
  destruct (bool_decide _); by intros x s.
Qed.

Lemma ind_finish f now o : independent (finish f now o).
Proof.
  assert (Hf : independent (finish_ f now o)).
  { apply ind_bind; [by intros x s|]. intros a. apply ind_bind; [apply ind_decide|]. intros d.
    apply ind_bind; [apply ind_forwarder, fw_detection|]. intros _. apply ind_bind; [apply ind_forwarder, fw_threat|]. intros _.
    apply ind_bind; [apply ind_forwarder, fw_decision|]. intros _. apply ind_bind; [by intros x s|]. intros _.
    apply ind_bind; [destruct (inb _ _); [apply ind_forwarder, fw_emit|apply ind_ret]|]. intros _. apply ind_enforce. }
  intros x s. unfold PipelineV1.finish, or_report_failure. rewrite Hf. destruct (finish_ f now o s) as [[u|e] s']; cbn [fst snd]; [done|].
  apply ind_forwarder, fw_emit.
Qed.

(** ** Detection that meets no failure *)

Record Job : Type := mk_job { jb_flow : Flow; jb_sig : option ProtocolSignatureEvidence; jb_elapsed : float }.

(** The classifier, when there is one, answers. *)
Definition answers (c : DetectionCoordinator) (f : Flow) (v : FeatureVector) (now : Z) (known : option KnownEvidence) : Prop :=
  match mr_lightgbm (co_models c) with
  | None => known = None
  | Some m => ∃ k, known = Some k ∧ classify interp m (flow_id f) v now = Ok k
  end.

Inductive quiet (now : Z) : DetectionCoordinator → FairShareHistory IPv4.t Flow → list Job → list PendingAnomalyScoring →
  DetectionCoordinator → FairShareHistory IPv4.t Flow → Prop :=
| quiet_nil c h : quiet now c h [] [] c h
| quiet_cons c h j h1 v known a b jobs ps c' h' :
    append_at h (jb_flow j) (fl_source_ip (jb_flow j)) = Ok h1 →
    extract_features (jb_flow j) LEGACY_SCHEMA_VERSION = Ok v →
    in_model_domain (jb_flow j) = true →
    analyzer_observe_completion (jb_flow j) (co_behavior c) = (Ok tt, a) →
    answers c (jb_flow j) v now known →
    assess (fl_source_ip (jb_flow j)) a = Ok b →
    quiet now (co_set_behavior c a) h1 jobs ps c' h' →
    quiet now c h (j :: jobs)
      (mk_pending (jb_flow j) now v (mk_outcome (mk_detection_record (flow_id (jb_flow j)) known None (jb_sig j) now) b) :: ps) c' h'.

Lemma quiet_models now c h jobs ps c' h' : quiet now c h jobs ps c' h' →
  co_models c' = co_models c ∧ co_anomaly_score_threshold c' = co_anomaly_score_threshold c ∧ length ps = length jobs.
Proof. induction 1 as [|c h j h1 v known a b jobs ps c' h' _ _ _ _ _ _ _ (IH1 & IH2 & IH3)]; [done|]. cbn. rewrite IH1, IH2, IH3. done. Qed.

Lemma answers_known c f v now known w : answers c f v now known → _classify_known interp flow_id f v now (c, w) = (Ok known, (c, w)).
Proof.
  unfold answers. intros Hk. unfold _classify_known, mbind, m_bind, mget, _classify_with. cbn [fst]. destruct (mr_lightgbm _) as [m|]; [|by subst].
  destruct Hk as (k & -> & ->). done.
Qed.

Lemma analyze_quiet c w f v now sig known a b : in_model_domain f = true → analyzer_observe_completion f (co_behavior c) = (Ok tt, a) →
  answers c f v now known → assess (fl_source_ip f) a = Ok b →
  analyze_except_anomaly interp flow_id f v now sig (c, w) =
  (Ok (mk_outcome (mk_detection_record (flow_id f) known None sig now) b), (co_set_behavior c a, w)).
Proof.
  intros Hd Ho Hk Ha. unfold analyze_except_anomaly. unfold mbind at 1, m_bind at 1. unfold on_behavior. cbn [fst snd]. rewrite Ho.
  unfold mbind at 1, m_bind at 1. rewrite Hd, (answers_known (co_set_behavior c a) f v now known w Hk).
  unfold mbind, m_bind, mget, mlift. cbn [fst co_behavior co_set_behavior]. by rewrite Ha.
Qed.

(** ** The forest *)

Context (model : LoadedIsolationForestModel) (g : list float → float).
Context (Hrows : ∀ rows, if_model model rows = Ok (g <$> rows)).
Context (Hgate : gated None (if_metadata model)) (Hlegacy : mm_feature_schema_version (if_metadata model) = LEGACY_SCHEMA_VERSION).
Context (Hversion : mm_model_version (if_metadata model) ≠ "") (Hid : ∀ f, flow_id f ≠ "").
Context (Hthreshold : mm_operating_threshold (if_metadata model) = None).

Lemma legacy_valid f v : extract_features f LEGACY_SCHEMA_VERSION = Ok v → validate_feature_vector v (if_metadata model) = Ok tt.
Proof. intros Hx. pose proof (gated_exact None _ f _ v Hgate Hx) as Hv. by rewrite decide_True in Hv. Qed.

(** What the forest says of a flow. *)
Definition verdict (threshold : float) (f : Flow) (v : FeatureVector) (now : Z) : AnomalyEvidence :=
  mk_anom_ev (flow_id f) (g (fv_values v)) threshold (flt (g (fv_values v)) threshold) (mm_model_version (if_metadata model))
    LEGACY_SCHEMA_VERSION now.

Lemma detect_verdict f v threshold now : extract_features f LEGACY_SCHEMA_VERSION = Ok v →
  detect model (flow_id f) v threshold now = Ok (verdict threshold f v now).
Proof.
  intros Hx. unfold detect, anomaly_score. rewrite (legacy_valid f v Hx). cbn [rbind]. rewrite Hrows. cbn [rbind fmap list_fmap].
  unfold anomaly_of, anomaly_evidence_check. cbn [ae_flow_id ae_model_version ae_feature_schema_version].
  rewrite (proj2 (String.eqb_neq _ _) (Hid f)), (proj2 (String.eqb_neq _ _) Hversion), Hlegacy. done.
Qed.

Lemma detect_anomaly_quiet c w f v now : mr_isolation_forest (co_models c) = Some model → extract_features f LEGACY_SCHEMA_VERSION = Ok v →
  _detect_anomaly flow_id f v now (c, w) = (Ok (Some (verdict (co_anomaly_score_threshold c) f v now)), (c, w)).
Proof.
  intros Hm Hx. unfold _detect_anomaly, mbind, m_bind, mget, _detect_with. cbn [fst]. rewrite Hm. unfold mbind, m_bind, mget. cbn [fst].
  rewrite Hthreshold. cbn [default]. by rewrite (detect_verdict f v _ now Hx).
Qed.

(** A pending flow finished with the forest's verdict. *)
Definition finish_pending (threshold : float) (now : Z) (p : PendingAnomalyScoring) : M Pipe unit :=
  finish (pn_flow p) (pn_now p) (with_anomaly_evidence (pn_outcome p) (Some (verdict threshold (pn_flow p) (pn_features p) now))).
Definition finish_all (threshold : float) (now : Z) (ps : list PendingAnomalyScoring) (s : Pipe) : Pipe :=
  foldl (λ s p, (finish_pending threshold now p s).2) s ps.

Lemma finish_all_front threshold now ps x s : finish_all threshold now ps (with_front x s) = with_front x (finish_all threshold now ps s).
Proof.
  revert s. induction ps as [|p ps IH]; intros s; [done|]. cbn. unfold finish_pending at 2. rewrite ind_finish. cbn [snd]. apply IH.
Qed.

(** ** One flow, both ways *)

Definition record_front (x : Front) (h : FairShareHistory IPv4.t Flow) (c : DetectionCoordinator) (counted : bool) (el : float)
  (q : list PendingAnomalyScoring) : Front :=
  mk_front c h (if counted then fr_inferences x + 1 else fr_inferences x) (if counted then fadd (fr_seconds x) el else fr_seconds x) q.

Lemma inline_step x s f now sig el h1 v known a b :
  mr_isolation_forest (co_models (fr_coordinator x)) = Some model →
  append_at (fr_flows x) f (fl_source_ip f) = Ok h1 → extract_features f LEGACY_SCHEMA_VERSION = Ok v → in_model_domain f = true →
  analyzer_observe_completion f (co_behavior (fr_coordinator x)) = (Ok tt, a) → answers (fr_coordinator x) f v now known →
  assess (fl_source_ip f) a = Ok b →
  let p := mk_pending f now v (mk_outcome (mk_detection_record (flow_id f) known None sig now) b) in
  (process None f now sig el (with_front x s)).2 =
  with_front (record_front x h1 (co_set_behavior (fr_coordinator x) a) true el (fr_queue x))
    (finish_pending (co_anomaly_score_threshold (fr_coordinator x)) now p s).2.
Proof.
  intros Hm Hh Hx Hd Ho Hk Hb p. set (x' := record_front _ _ _ _ _ _).
  assert (Hp : _process new_id flow_id interp exn_text None f now sig el (with_front x s) =
    finish_ f now (with_anomaly_evidence (pn_outcome p) (Some (verdict (co_anomaly_score_threshold (fr_coordinator x)) f v now))) (with_front x' s)).
  { unfold _process. unfold mbind at 1, m_bind at 1. unfold on_forwarder at 1, on_store, record_flow, append_history.
    cbn [fp_forwarder with_front fw_state fw_with_flows st_flows st_set_flows]. rewrite Hh, Hx.
    unfold mbind at 1, m_bind at 1, mget. cbn [defers]. unfold mbind at 1, m_bind at 1. unfold on_coordinator.
    cbn [fp_coordinator fp_set_forwarder with_front]. unfold analyze. unfold mbind at 1, m_bind at 1.
    rewrite (analyze_quiet _ _ f v now sig known a b Hd Ho Hk Hb). rewrite Hd. unfold mbind at 1, m_bind at 1.
    rewrite (detect_anomaly_quiet (co_set_behavior (fr_coordinator x) a) _ f v now Hm Hx). unfold mret, m_ret.
    unfold mbind at 1, m_bind at 1. unfold any_loaded. rewrite Hm. cbn [is_loaded]. rewrite orb_true_r. cbn [orb]. done. }
  unfold finish_pending. cbn [pn_flow pn_now pn_features p].
  transitivity (finish f now (with_anomaly_evidence (pn_outcome p) (Some (verdict (co_anomaly_score_threshold (fr_coordinator x)) f v now)))
    (with_front x' s)).2; [|by rewrite ind_finish].
  unfold PipelineV1.process, PipelineV1.finish, or_report_failure. by rewrite Hp.
Qed.

Lemma deferred_step wall x s f now sig el h1 v known a b :
  mr_isolation_forest (co_models (fr_coordinator x)) = Some model →
  append_at (fr_flows x) f (fl_source_ip f) = Ok h1 → extract_features f LEGACY_SCHEMA_VERSION = Ok v → in_model_domain f = true →
  analyzer_observe_completion f (co_behavior (fr_coordinator x)) = (Ok tt, a) → answers (fr_coordinator x) f v now known →
  assess (fl_source_ip f) a = Ok b → Z.of_nat (length (fr_queue x)) < fp_queue_max s →
  let p := mk_pending f now v (mk_outcome (mk_detection_record (flow_id f) known None sig now) b) in
  (process (Some (enqueue wall)) f now sig el (with_front x s)).2 =
  with_front (record_front x h1 (co_set_behavior (fr_coordinator x) a) (is_loaded (mr_lightgbm (co_models (fr_coordinator x)))) el
    (fr_queue x ++ [p])) s.
Proof.
  intros Hm Hh Hx Hd Ho Hk Hb Hq p. unfold PipelineV1.process, or_report_failure, _process. unfold mbind at 1, m_bind at 1.
  unfold on_forwarder at 1, on_store, record_flow, append_history.
  cbn [fp_forwarder with_front fw_state fw_with_flows st_flows st_set_flows]. rewrite Hh, Hx.
  unfold mbind at 1, m_bind at 1, mget. unfold defers. cbn [fp_coordinator fp_set_forwarder with_front]. rewrite Hm, Hd. cbn [is_loaded andb].
  unfold mbind at 1, m_bind at 1. unfold on_coordinator. cbn [fp_coordinator fp_set_forwarder with_front].
  rewrite (analyze_quiet _ _ f v now sig known a b Hd Ho Hk Hb). unfold mbind at 1, m_bind at 1.
  destruct (is_loaded _); unfold count_inferences, mmodify, mret, m_ret, _enqueue_anomaly_scoring, mbind, m_bind, mget;
    cbn [fst snd fp_queue fp_queue_max with_front fp_set_forwarder fp_set_coordinator fp_set_counters];
    rewrite (proj2 (Z.ltb_lt _ _) Hq); reflexivity.
Qed.

(** ** Whole runs *)

Definition inline_run (now : Z) (s : Pipe) (jobs : list Job) : Pipe :=
  foldl (λ s j, (process None (jb_flow j) now (jb_sig j) (jb_elapsed j) s).2) s jobs.
Definition deferred_run (wall now : Z) (s : Pipe) (jobs : list Job) : Pipe :=
  foldl (λ s j, (process (Some (enqueue wall)) (jb_flow j) now (jb_sig j) (jb_elapsed j) s).2) s jobs.
(** [_collect_anomaly_batch] and [_score_and_finish_batch] *)
Definition batch_step (size wall : Z) (elapsed : float) (s : Pipe) : Pipe :=
  ((batch ← take_batch size; score_batch batch wall elapsed) s).2.

Lemma inline_front now c h jobs ps c' h' : quiet now c h jobs ps c' h' → ∀ x s,
  fr_coordinator x = c → fr_flows x = h → mr_isolation_forest (co_models c) = Some model →
  ∃ n t, inline_run now (with_front x s) jobs =
    with_front (mk_front c' h' n t (fr_queue x)) (finish_all (co_anomaly_score_threshold c) now ps s).
Proof.
  induction 1 as [c h|c h j h1 v known a b jobs ps c' h' Hh Hx Hd Ho Hk Hb Hq IH]; intros x s <- <- Hm.
  { by exists (fr_inferences x), (fr_seconds x). }
  unfold inline_run. cbn [foldl]. erewrite inline_step by done.
  match goal with |- context [with_front ?y _] => destruct (IH y (finish_pending (co_anomaly_score_threshold (fr_coordinator x)) now
    (mk_pending (jb_flow j) now v (mk_outcome (mk_detection_record (flow_id (jb_flow j)) known None (jb_sig j) now) b)) s).2 eq_refl eq_refl Hm) as (n & t & IH') end.
  exists n, t. exact IH'.
Qed.

Lemma deferred_front wall now c h jobs ps c' h' : quiet now c h jobs ps c' h' → ∀ x s,
  fr_coordinator x = c → fr_flows x = h → mr_isolation_forest (co_models c) = Some model →
  Z.of_nat (length (fr_queue x) + length jobs) ≤ fp_queue_max s →
  ∃ n t, deferred_run wall now (with_front x s) jobs = with_front (mk_front c' h' n t (fr_queue x ++ ps)) s.
Proof.
  induction 1 as [c h|c h j h1 v known a b jobs ps c' h' Hh Hx Hd Ho Hk Hb Hq IH]; intros x s <- <- Hm Hl.
  { exists (fr_inferences x), (fr_seconds x). rewrite app_nil_r. by destruct x. }
  unfold deferred_run. cbn [foldl]. cbn [length] in Hl. erewrite deferred_step by (done || lia).
  match goal with |- context [with_front ?y s] => destruct (IH y s eq_refl eq_refl Hm) as (n & t & IH') end.
  { cbn [fr_queue record_front]. rewrite length_app. cbn. lia. }
  exists n, t. etransitivity; [exact IH'|]. cbn [fr_queue record_front]. by rewrite <- app_assoc.
Qed.

Lemma quiet_detect now c h jobs ps c' h' threshold : quiet now c h jobs ps c' h' →
  detect_batch model (batch_inputs flow_id ps) threshold now = Ok ((λ p, verdict threshold (pn_flow p) (pn_features p) now) <$> ps).
Proof.
  intros Hq. rewrite (detect_batch_rows model g).
  - induction Hq as [|c h j h1 v known a b jobs ps c' h' _ Hx _ _ _ _ _ IH]; [done|]. cbn [batch_inputs fmap list_fmap rmap pn_flow pn_features fst snd].
    rewrite (detect_verdict _ _ _ _ Hx). cbn [rbind]. unfold batch_inputs in IH. by rewrite IH.
  - done.
  - induction Hq as [|c h j h1 v known a b jobs ps c' h' _ Hx _ _ _ _ _ IH]; [constructor|]. constructor; [|done]. by eapply legacy_valid.
Qed.

Lemma finish_batch_all threshold now ps x s :
  finish_batch new_id flow_id exn_text (zip ps (Some <$> ((λ p, verdict threshold (pn_flow p) (pn_features p) now) <$> ps))) (with_front x s) =
  (Ok tt, with_front x (finish_all threshold now ps s)).
Proof.
  revert s. induction ps as [|p ps IH]; intros s; [done|]. cbn [fmap list_fmap zip zip_with finish_batch]. unfold mbind, m_bind.
  rewrite ind_finish. assert (Hok : ∀ f t o s0, ∃ s1, finish f t o s0 = (Ok tt, s1)).
  { intros f t o s0. unfold PipelineV1.finish, or_report_failure. destruct (finish_ f t o s0) as [[[]|e] s1]; [by eexists|].
    unfold _report_failure, on_forwarder, emit, mbind, m_bind, on_store, record_event, mmodify. cbn [fst snd].
    unfold _forward. cbn [fw_wazuh]. destruct (fw_wazuh _) as [send|]; [|by eexists]. destruct (send _ _); [|by eexists].
    unfold _note_forward_failure. destruct (negb _); by eexists. }
  unfold finish_all. cbn [foldl]. unfold finish_pending at 2.
  destruct (Hok (pn_flow p) (pn_now p) (with_anomaly_evidence (pn_outcome p) (Some (verdict threshold (pn_flow p) (pn_features p) now))) s) as [s1 ->].
  cbn [fst snd]. apply IH.
Qed.

(** Batching the anomaly scores changes no verdict: when the loaded
    models answer for each flow and the forest, of the legacy schema and
    with no operating threshold of its own, scores rows one by one, then
    handing the flows to the scorer and finishing the batch gives the same
    firewall, the same events and histories, the same maturity tracker and
    the same behaviour state as processing each flow at once; only the
    inference counters may differ. *)
Theorem batching_changes_no_verdict wall now size elapsed s jobs ps c' h' :
  mr_isolation_forest (co_models (fp_coordinator s)) = Some model →
  quiet now (fp_coordinator s) (st_flows (fw_state (fp_forwarder s))) jobs ps c' h' →
  fp_queue s = [] → Z.of_nat (length jobs) ≤ fp_queue_max s → Z.of_nat (length jobs) ≤ size →
  let s1 := inline_run now s jobs in
  let s2 := batch_step size now elapsed (deferred_run wall now s jobs) in
  fp_manager s2 = fp_manager s1 ∧ fp_forwarder s2 = fp_forwarder s1 ∧ fp_maturity s2 = fp_maturity s1 ∧
  fp_coordinator s2 = fp_coordinator s1 ∧ fp_queue s2 = [] ∧
  rc_detections (fp_counters s2) = rc_detections (fp_counters s1) ∧ rc_blocks (fp_counters s2) = rc_blocks (fp_counters s1) ∧
  rc_rules_rejected (fp_counters s2) = rc_rules_rejected (fp_counters s1).
Proof.
  intros Hm Hq Hqs Hmax Hsize. cbn zeta. rewrite <- (with_front_of s).
  destruct (inline_front _ _ _ _ _ _ _ Hq (front_of s) s eq_refl eq_refl Hm) as (n1 & t1 & ->).
  destruct (deferred_front wall _ _ _ _ _ _ _ Hq (front_of s) s eq_refl eq_refl Hm) as (n2 & t2 & ->); [cbn; rewrite Hqs; cbn; lia|].
  destruct (quiet_models _ _ _ _ _ _ _ Hq) as (Hmod & Hthr & Hlen). cbn [fr_queue front_of]. rewrite Hqs. cbn [app].
  unfold batch_step, take_batch, mbind, m_bind, fp_set_queue. cbn [fp_queue with_front fr_queue].
  rewrite take_ge, drop_ge by lia. unfold _score_and_finish_batch, mbind, m_bind, mget. cbn [fp_coordinator with_front fr_coordinator].
  rewrite Hmod, Hm, (quiet_detect _ _ _ _ _ _ _ _ Hq), Hthr. unfold mret, m_ret, count_inferences, mmodify.
  match goal with |- context [finish_batch _ _ _ _ ?s0] =>
    change s0 with (with_front (mk_front c' h' (n2 + Z.of_nat (length ps)) (fadd t2 elapsed) []) s) end.
  rewrite finish_batch_all. cbn [snd]. done.
Qed.
End Batching.
