(* ===== verification/KernelPoller.v ===== *)
(** * The kernel offender poller (pirewall/detection_v2/kernel.py)

    [KernelReader] is the protocol the poller reads the kernel through: five
    views, each of which may raise.  The poller keeps the running episodes of
    offender elements, the last verdict counters and the sets it has warned
    about.  The text of an exception is a parameter: it only reaches the
    error a failed poll reports. *)

From S2P Require Import Prelude Float Net Models Sets SetBackend Backend Manager Policy Flow D1.
Local Open Scope Z_scope.

Class KernelReader (R : Type) := {
  kr_offenders : M R (list (string * Z));
  kr_counters : list string → M R (list (string * Z));
  kr_guard_modes : M R (list (GuardName * GuardMode));
  kr_static_table_present : M R bool;
  kr_set_fill : string → string → M R (Z * option Z);
}.

(** [_ManagerKernelReader]: the manager's read-only views (runtime/core.py). *)
#[global] Instance manager_reader {B F} `{SetBackend B} : KernelReader (FirewallManager B F) := {|
  kr_offenders := kernel_offenders;
  kr_counters := kernel_counters;
  kr_guard_modes := guard_modes;
  kr_static_table_present := missing ← missing_tables; mret (negb (inb (INET_FAMILY, STATIC_TABLE) missing));
  kr_set_fill := kernel_set_fill;
|}.

Definition offender_code (c : OffenderCode) : Z :=
  match c with
  | SYN_PPS => 1 | UDP_LOCAL_PPS => 2 | ICMP_PPS => 3 | LOCAL_PPS => 4 | CLOSED_PORT => 5 | NEWCONN => 6
  | NEWCONN_DST => 7 | UDP_FWD => 8 | UNBOUND => 10 | DNS_QPS => 53 | DHCP => 67 | PORTAL_CONCURRENCY => 8080
  end.

Definition all_codes : list OffenderCode :=
  [SYN_PPS; UDP_LOCAL_PPS; ICMP_PPS; LOCAL_PPS; CLOSED_PORT; NEWCONN; NEWCONN_DST; UDP_FWD; UNBOUND; DNS_QPS; DHCP;
   PORTAL_CONCURRENCY].

(** [OffenderCode(raw)] *)
Definition code_of_int (raw : Z) : option OffenderCode :=
  first_some (λ c, if offender_code c =? raw then Some c else None) all_codes.

#[global] Instance OffenderCode_eq_dec : EqDecision OffenderCode.
Proof. solve_decision. Defined.

Definition location_leb (a b : string) : bool := String.leb a b.

(** [WATCHED_SETS]; both sources are sorted by name. *)
Definition WATCHED_SETS : list (string * string) :=
  ((λ n, (ADAPTIVE_TABLE, n)) <$> py_sorted location_leb ADAPTIVE_ENFORCEMENT_SETS) ++
  ((λ n, (STATIC_TABLE, n)) <$> py_sorted location_leb STATIC_METER_SETS) ++
  [(STATIC_TABLE, SET_OFFENDERS); (STATIC_TABLE, SET_MACBIND)].

Record KernelAlert : Type := mk_alert { al_severity : EventSeverity; al_reason : string }.

Record KernelPollResult : Type := mk_poll_result {
  kp_evidence : list KernelGuardEvidence;
  kp_started_at : list (string * Z);
  kp_guard_hits : list (GuardName * Z);
  kp_offender_count : Z;
  kp_max_set_fill_ratio : float;
  kp_alerts : list KernelAlert;
  kp_table_present : bool;
  kp_error : option string;
}.

Definition poll_result0 (present : bool) (error : option string) : KernelPollResult :=
  mk_poll_result [] [] [] 0 f0 [] present error.

Record Episode : Type := mk_episode { ep_started_at : Z; ep_polls : Z }.

Definition OffenderKey : Type := OffenderCode * Mac.t.

Section Poller.
Context {R : Type} `{KernelReader R}.
Context (exn_text : exn → string).

Record KernelPoller : Type := mk_poller {
  po_reader : R;
  po_sustained_polls : Z;
  po_warning_ratio : float;
  po_episodes : list (OffenderKey * Episode);
  po_last_counters : list (GuardName * Z);
  po_warned : list (string * string);
}.

Definition new_poller (reader : R) (sustained_polls : Z) (set_fill_warning_ratio : float) : KernelPoller :=
  mk_poller reader sustained_polls set_fill_warning_ratio [] [] [].

Definition po_with (p : KernelPoller) reader episodes counters warned : KernelPoller :=
  mk_poller reader (po_sustained_polls p) (po_warning_ratio p) episodes counters warned.

(** The reads of one poll, in order; [None] when the static table is gone. *)
Record KernelReads : Type := mk_reads {
  rd_offenders : list (string * Z);
  rd_modes : list (GuardName * GuardMode);
  rd_counters : list (string * Z);
  rd_fills : list ((string * string) * (Z * option Z));
}.

Fixpoint read_fills (ls : list (string * string)) : M R (list ((string * string) * (Z * option Z))) :=
  match ls with
  | [] => mret []
  | l :: ls' => x ← kr_set_fill l.1 l.2; xs ← read_fills ls'; mret ((l, x) :: xs)
  end.

Definition read_kernel : M R (option KernelReads) :=
  present ← kr_static_table_present;
  if negb present then mret None
  else
    offenders ← kr_offenders;
    modes ← kr_guard_modes;
    counters ← kr_counters (guard_verdict_counter <$> all_guards);
    fills ← read_fills WATCHED_SETS;
    mret (Some (mk_reads offenders modes counters fills)).

(** ** Offenders *)

Definition valid_offender (o : string * Z) : option OffenderKey :=
  mac ← unicast_mac (Some o.1); code ← code_of_int o.2; Some (code, mac).

(** [(code, mac)] pairs in the order of [sorted]: by code, then by MAC. *)
Definition offender_leb (a b : OffenderKey) : bool :=
  (offender_code a.1 <? offender_code b.1) || ((offender_code a.1 =? offender_code b.1) && String.leb a.2 b.2).

Definition present_of (offenders : list (string * Z)) : list OffenderKey := dedup (omap valid_offender offenders).

Definition stage_of (sustained_polls : Z) (mode : GuardMode) (polls : Z) : string :=
  match mode with
  | OBSERVE => "observe"
  | ENFORCE => if sustained_polls <=? polls then "sustained" else "new"
  end.

Definition offender_id (k : OffenderKey) (started_at : Z) (mode : GuardMode) (stage : string) : string :=
  "k:" +:+ pretty (offender_code k.1) +:+ ":" +:+ k.2 +:+ ":" +:+ isoformat started_at +:+ ":" +:+ guard_mode_value mode
    +:+ ":" +:+ stage.

(** [KernelGuardEvidence(...)] with its validators. *)
Definition kernel_evidence (e : KernelGuardEvidence) : result KernelGuardEvidence :=
  if kernel_evidence_check e then Ok e else Raise (ValueError "guard does not match code").

Fixpoint track_loop (sustained_polls : Z) (modes : list (GuardName * GuardMode)) (now : Z) (keys : list OffenderKey)
  (episodes : list (OffenderKey * Episode)) : result (list KernelGuardEvidence) * list (OffenderKey * Episode) :=
  match keys with
  | [] => (Ok [], episodes)
  | k :: keys' =>
      let ep := default (mk_episode now 0) (dget episodes k) in
      let ep' := mk_episode (ep_started_at ep) (ep_polls ep + 1) in
      let episodes' := dset episodes k ep' in
      let guard := OFFENDER_GUARD k.1 in
      let mode := default OBSERVE (dget modes guard) in
      match kernel_evidence (mk_kernel_ev
              (offender_id k (ep_started_at ep') mode (stage_of sustained_polls mode (ep_polls ep')))
              k.1 k.2 guard mode (ep_polls ep') now) with
      | Raise e => (Raise e, episodes')
      | Ok ev =>
          let '(r, episodes'') := track_loop sustained_polls modes now keys' episodes' in
          (rbind r (λ found, Ok (ev :: found)), episodes'')
      end
  end.

Definition _track (p : KernelPoller) (offenders : list (string * Z)) (modes : list (GuardName * GuardMode)) (now : Z)
  : result (list KernelGuardEvidence) * list (OffenderKey * Episode) :=
  let present := present_of offenders in
  let kept := filter (λ q : OffenderKey * Episode, q.1 ∈ present) (po_episodes p) in
  track_loop (po_sustained_polls p) modes now (py_sorted offender_leb present) kept.

(** ** Counters and fill levels *)

Definition delta (previous : option Z) (value : Z) : Z :=
  match previous with
  | None => value
  | Some old => if value <? old then value else value - old
  end.

Definition _deltas (counters : list (string * Z)) (last : list (GuardName * Z)) : list (GuardName * Z) * list (GuardName * Z) :=
  foldl (λ acc g, match dget counters (guard_verdict_counter g) with
                  | None => acc
                  | Some value => (dset acc.1 g (delta (dget acc.2 g) value), dset acc.2 g value)
                  end) ([], last) all_guards.

(** [count / size if size else 0.0] *)
Definition fill_ratio (x : Z * option Z) : float :=
  match x.2 with
  | Some size => if size =? 0 then f0 else fdiv (float_of_Z x.1) (float_of_Z size)
  | None => f0
  end.

Definition fill_alert (location : string * string) (x : Z * option Z) : KernelAlert :=
  mk_alert SEV_WARNING ("set " +:+ location.1 +:+ " @" +:+ location.2 +:+ " is " +:+ percent (fill_ratio x) +:+ " full ("
    +:+ pretty x.1 +:+ "/" +:+ pretty (default 0 x.2)
    +:+ "); a full set refuses adds (enforcement) or fails open (meters)").

Definition fill_step (ratio : float) (acc : list KernelAlert * list (string * string))
  (f : (string * string) * (Z * option Z)) : list KernelAlert * list (string * string) :=
  if flt ratio (fill_ratio f.2) && negb (inb f.1 acc.2) then (acc.1 ++ [fill_alert f.1 f.2], set_add acc.2 f.1)
  else if fle (fill_ratio f.2) ratio then (acc.1, filter (λ l, l ≠ f.1) acc.2)
  else acc.

Definition _fill_alerts (ratio : float) (warned : list (string * string)) (fills : list ((string * string) * (Z * option Z)))
  : list KernelAlert * list (string * string) := foldl (fill_step ratio) ([], warned) fills.

(** [max(ratios, default=0.0)] over the sets with a size *)
Definition max_fill (fills : list ((string * string) * (Z * option Z))) : float :=
  match omap (λ f : (string * string) * (Z * option Z),
                match f.2.2 with Some size => if size =? 0 then None else Some (fill_ratio f.2) | None => None end) fills with
  | [] => f0
  | x :: xs => foldl fmax x xs
  end.

Fixpoint started_map (episodes : list (OffenderKey * Episode)) (found : list KernelGuardEvidence) (acc : list (string * Z))
  : result (list (string * Z)) :=
  match found with
  | [] => Ok acc
  | e :: found' =>
      match dget episodes (ke_code e, ke_mac e) with
      | None => Raise KeyError
      | Some ep => started_map episodes found' (dset acc (ke_id e) (ep_started_at ep))
      end
  end.

Definition poll (now : Z) (p : KernelPoller) : result KernelPollResult * KernelPoller :=
  match read_kernel (po_reader p) with
  | (Raise e, r) => (Ok (poll_result0 true (Some ("kernel poll failed: " +:+ exn_text e))),
                     po_with p r (po_episodes p) (po_last_counters p) (po_warned p))
  | (Ok None, r) => (Ok (poll_result0 false None), po_with p r [] (po_last_counters p) (po_warned p))
  | (Ok (Some rd), r) =>
      let '(found, episodes) := _track p (rd_offenders rd) (rd_modes rd) now in
      match found with
      | Raise e => (Raise e, po_with p r episodes (po_last_counters p) (po_warned p))
      | Ok evidence =>
          match started_map episodes evidence [] with
          | Raise e => (Raise e, po_with p r episodes (po_last_counters p) (po_warned p))
          | Ok started =>
              let '(hits, last) := _deltas (rd_counters rd) (po_last_counters p) in
              let '(alerts, warned) := _fill_alerts (po_warning_ratio p) (po_warned p) (rd_fills rd) in
              (Ok (mk_poll_result evidence started hits (Z.of_nat (length (rd_offenders rd))) (max_fill (rd_fills rd)) alerts true None),
               po_with p r episodes last warned)
          end
      end
  end.

(** ** Episodes *)

(** What one poll saw of the offenders. *)
Inductive sight := Gone | Failed | Saw (present : list OffenderKey).

Definition sight_of (r : R) : sight :=
  match (read_kernel r).1 with
  | Ok None => Gone
  | Ok (Some rd) => Saw (present_of (rd_offenders rd))
  | Raise _ => Failed
  end.

(** The polls, latest first, that saw [k] without interruption; a poll that
    could not read the kernel neither counts nor interrupts. *)
Fixpoint streak (k : OffenderKey) (h : list (sight * Z)) : Z :=
  match h with
  | (Saw present, _) :: h' => if inb k present then 1 + streak k h' else 0
  | (Failed, _) :: h' => streak k h'
  | _ => 0
  end.

(** When the first of them was. *)
Fixpoint streak_start (k : OffenderKey) (h : list (sight * Z)) : option Z :=
  match h with
  | (Saw present, t) :: h' => if inb k present then Some (default t (streak_start k h')) else None
  | (Failed, _) :: h' => streak_start k h'
  | _ => None
  end.

Lemma streak_none k h : streak_start k h = None → streak k h = 0.
Proof.
  induction h as [|[[| |ps] t] h IH]; cbn; try done. destruct (inb k ps); [done|done].
Qed.

Lemma streak_nonneg k h : 0 ≤ streak k h.
Proof. induction h as [|[[| |ps] t] h IH]; cbn; try done. destruct (inb k ps); lia. Qed.

(** The episodes a poller holds after the polls of [h]. *)
Definition episodes_match (eps : list (OffenderKey * Episode)) (h : list (sight * Z)) : Prop :=
  ∀ k, dget eps k = (λ st, mk_episode st (streak k h)) <$> streak_start k h.

Definition bump (now : Z) (o : option Episode) : Episode :=
  mk_episode (from_option ep_started_at now o) (from_option ep_polls 0 o + 1).

Definition evidence_of (sp : Z) (modes : list (GuardName * GuardMode)) (now : Z) (k : OffenderKey) (ep : Episode) : KernelGuardEvidence :=
  let mode := default OBSERVE (dget modes (OFFENDER_GUARD k.1)) in
  mk_kernel_ev (offender_id k (ep_started_at ep) mode (stage_of sp mode (ep_polls ep))) k.1 k.2 (OFFENDER_GUARD k.1) mode (ep_polls ep) now.

Lemma default_bump now o :
  mk_episode (ep_started_at (default (mk_episode now 0) o)) (ep_polls (default (mk_episode now 0) o) + 1) = bump now o.
Proof. by destruct o. Qed.

Lemma track_loop_spec sp modes now keys : ∀ eps, NoDup keys → (∀ k ep, dget eps k = Some ep → 0 ≤ ep_polls ep) →
  ∃ eps', track_loop sp modes now keys eps = (Ok ((λ k, evidence_of sp modes now k (bump now (dget eps k))) <$> keys), eps') ∧
    ∀ k, dget eps' k = if inb k keys then Some (bump now (dget eps k)) else dget eps k.
Proof.
  induction keys as [|k keys IH]; intros eps Hnd Hpos; [by exists eps|]. apply NoDup_cons in Hnd as [Hk Hnd].
  cbn [track_loop]. rewrite default_bump. set (ep := bump now (dget eps k)).
  assert (Hep : 1 ≤ ep_polls ep).
  { unfold ep, bump. cbn. destruct (dget eps k) as [e|] eqn:He; cbn; [specialize (Hpos _ _ He)|]; lia. }
  assert (Hpos' : ∀ k' ep', dget (dset eps k ep) k' = Some ep' → 0 ≤ ep_polls ep').
  { intros k' ep'. rewrite dget_set. case_decide; [intros [= <-]; lia|apply Hpos]. }
  destruct (IH (dset eps k ep) Hnd Hpos') as (eps' & Htr & Hget).
  unfold kernel_evidence, kernel_evidence_check. cbn [ke_sustained_polls ke_guard ke_code].
  rewrite (proj2 (Z.leb_le _ _) Hep), bool_decide_true by done. cbn [andb]. rewrite Htr.
  exists eps'. split.
  - cbn [rbind fmap list_fmap]. do 2 f_equal. f_equal. apply list_fmap_ext. intros i k' Hk'%list_elem_of_lookup_2.
    rewrite dget_set_ne; [done|]. by intros ->.
  - intros k'. rewrite Hget. destruct (decide (k' = k)) as [->|Hne].
    + rewrite (proj2 (inb_false k keys) Hk), dget_set_eq. by rewrite (proj2 (inb_true k (k :: keys))) by set_solver.
    + rewrite dget_set_ne by done. destruct (inb k' keys) eqn:Hin.
      * apply inb_true in Hin. by rewrite (proj2 (inb_true k' (k :: keys))) by set_solver.
      * apply inb_false in Hin. by rewrite (proj2 (inb_false k' (k :: keys))) by set_solver.
Qed.

Lemma dget_filter_present (eps : list (OffenderKey * Episode)) ps k :
  dget (filter (λ q : OffenderKey * Episode, q.1 ∈ ps) eps) k = if inb k ps then dget eps k else None.
Proof.
  induction eps as [|[k0 ep] eps IH]; [by destruct (inb k ps)|]. rewrite filter_cons. cbn [fst].
  destruct (decide (k0 ∈ ps)) as [Hin|Hn]; cbn [dget]; rewrite IH.
  - case_decide as Hk; [|done]. subst. by rewrite (proj2 (inb_true _ _) Hin).
  - case_decide as Hk; [|done]. subst. by rewrite (proj2 (inb_false _ _) Hn).
Qed.

Lemma inb_sorted k ps : inb k (py_sorted offender_leb ps) = inb k ps.
Proof. destruct (inb k ps) eqn:Hk; [apply inb_true in Hk|apply inb_false in Hk]; [apply inb_true|apply inb_false]; by rewrite elem_of_py_sorted. Qed.

Lemma track_spec p rd now h : episodes_match (po_episodes p) h →
  let ps := present_of (rd_offenders rd) in let h' := (Saw ps, now) :: h in
  ∃ eps, _track p (rd_offenders rd) (rd_modes rd) now =
    (Ok ((λ k, evidence_of (po_sustained_polls p) (rd_modes rd) now k (mk_episode (default now (streak_start k h')) (streak k h')))
         <$> py_sorted offender_leb ps), eps) ∧ episodes_match eps h'.
Proof.
  intros Hm ps h'. unfold _track. fold ps. set (kept := filter _ (po_episodes p)).
  assert (Hkept : ∀ k, dget kept k = if inb k ps then dget (po_episodes p) k else None) by (intros; apply dget_filter_present).
  destruct (track_loop_spec (po_sustained_polls p) (rd_modes rd) now (py_sorted offender_leb ps) kept) as (eps & -> & Hget).
  - rewrite py_sorted_perm. apply NoDup_dedup.
  - intros k ep. rewrite Hkept, Hm. destruct (inb k ps); [|done]. destruct (streak_start k h); [|done].
    intros [= <-]. cbn. apply streak_nonneg.
  - assert (Hb : ∀ k, k ∈ ps → bump now (dget kept k) = mk_episode (default now (streak_start k h')) (streak k h')).
    { intros k Hk%inb_true. unfold h'. cbn [streak streak_start]. rewrite Hkept, Hk, Hm. unfold bump.
      destruct (streak_start k h) as [st|] eqn:Hst; cbn; [f_equal; lia|]. by rewrite (streak_none _ _ Hst). }
    exists eps. split.
    + do 2 f_equal. apply list_fmap_ext. intros i k Hk%list_elem_of_lookup_2. rewrite elem_of_py_sorted in Hk. by rewrite Hb.
    + intros k. rewrite Hget, inb_sorted. destruct (inb k ps) eqn:Hk.
      * rewrite Hb by (by apply inb_true). unfold h'. cbn [streak streak_start]. by rewrite Hk.
      * unfold h'. cbn [streak_start]. by rewrite Hkept, Hk.
Qed.

Lemma started_map_ok (eps : list (OffenderKey * Episode)) found acc :
  (∀ e, e ∈ found → is_Some (dget eps (ke_code e, ke_mac e))) →
  ∃ m, started_map eps found acc = Ok m.
Proof.
  revert acc. induction found as [|e found IH]; intros acc Hall; [by eexists|]. cbn [started_map].
  destruct (Hall e) as [ep ->]; [set_solver|]. apply IH. set_solver.
Qed.

(** The world between two polls may leave the kernel in any state. *)
Definition reading (p : KernelPoller) (r : R) : KernelPoller :=
  po_with p r (po_episodes p) (po_last_counters p) (po_warned p).
Definition after (p : KernelPoller) (polls : list (R * Z)) : KernelPoller :=
  foldr (λ x q, (poll x.2 (reading q x.1)).2) p polls.
Definition sights (polls : list (R * Z)) : list (sight * Z) := (λ x, (sight_of x.1, x.2)) <$> polls.

Lemma poll_spec p r now h : episodes_match (po_episodes p) h → ∃ res p',
  poll now (reading p r) = (Ok res, p') ∧ po_sustained_polls p' = po_sustained_polls p ∧
  episodes_match (po_episodes p') ((sight_of r, now) :: h) ∧
  match sight_of r with
  | Gone => kp_evidence res = [] ∧ kp_table_present res = false ∧ kp_error res = None
  | Failed => kp_evidence res = [] ∧ is_Some (kp_error res)
  | Saw ps => kp_table_present res = true ∧ kp_error res = None ∧
      ∃ modes, kp_evidence res =
        (λ k, evidence_of (po_sustained_polls p) modes now k
                (mk_episode (default now (streak_start k ((sight_of r, now) :: h))) (streak k ((sight_of r, now) :: h))))
        <$> py_sorted offender_leb ps
  end.
Proof.
  intros Hm. unfold poll, sight_of. cbn [reading po_reader po_with].
  destruct (read_kernel r) as [[[rd|]|e] r'] eqn:Hr; cbn [fst].
  - destruct (track_spec (reading p r) rd now h Hm) as (eps & -> & Hm').
    destruct (started_map_ok eps ((λ k, evidence_of (po_sustained_polls (reading p r)) (rd_modes rd) now k
      (mk_episode (default now (streak_start k ((Saw (present_of (rd_offenders rd)), now) :: h)))
                  (streak k ((Saw (present_of (rd_offenders rd)), now) :: h)))) <$> py_sorted offender_leb (present_of (rd_offenders rd))) [])
      as [m ->].
    { intros e (k & -> & Hk)%list_elem_of_fmap. rewrite elem_of_py_sorted in Hk. cbn [evidence_of ke_code ke_mac].
      rewrite <- surjective_pairing, Hm'. cbn [streak_start]. rewrite (proj2 (inb_true _ _) Hk). by eexists. }
    destruct (_deltas _ _) as [hits last]. destruct (_fill_alerts _ _ _) as [alerts warned].
    eexists _, _. split; [reflexivity|]. split; [done|]. split; [exact Hm'|]. split; [done|]. split; [done|]. by exists (rd_modes rd).
  - eexists _, _. split; [reflexivity|]. split; [done|]. split; [|done]. intros k. done.
  - eexists _, _. split; [reflexivity|]. split; [done|]. split; [|split; [done|by eexists]]. intros k. cbn. apply Hm.
Qed.

Lemma after_spec p polls h : episodes_match (po_episodes p) h →
  episodes_match (po_episodes (after p polls)) (sights polls ++ h) ∧ po_sustained_polls (after p polls) = po_sustained_polls p.
Proof.
  intros Hm. induction polls as [|[r now] polls [IH Hsp]]; [done|]. cbn.
  destruct (poll_spec (after p polls) r now _ IH) as (res & p' & Heq & Hs & Hm' & _).
  change (foldr _ p polls) with (after p polls). rewrite Heq. cbn. by rewrite Hs.
Qed.

(** C15: [sustained_polls] is what it says.  Whatever the kernel shows at each
    poll, polling never raises, and every piece of evidence counts exactly
    the latest uninterrupted run of polls that saw the offender, with the id
    of the episode that began with the first of them; every valid offender
    of a readable poll is reported by exactly one piece of evidence, nothing
    else is, and a missing table or a failed read reports none. *)
Theorem sustained_polls_exact reader sustained ratio polls r now :
  let h := sights ((r, now) :: polls) in
  ∃ res p', poll now (reading (after (new_poller reader sustained ratio) polls) r) = (Ok res, p') ∧
    (∀ e, e ∈ kp_evidence res → let k := (ke_code e, ke_mac e) in
       ke_sustained_polls e = streak k h ∧ ke_guard e = OFFENDER_GUARD (ke_code e) ∧
       ∃ started, streak_start k h = Some started ∧
         ke_id e = offender_id k started (ke_guard_mode e) (stage_of sustained (ke_guard_mode e) (streak k h))) ∧
    (∀ k, (∃ e, e ∈ kp_evidence res ∧ (ke_code e, ke_mac e) = k) ↔ ∃ ps, sight_of r = Saw ps ∧ k ∈ ps) ∧
    NoDup ((λ e, (ke_code e, ke_mac e)) <$> kp_evidence res) ∧
    (kp_table_present res = false ↔ sight_of r = Gone) ∧ (is_Some (kp_error res) ↔ sight_of r = Failed).
Proof.
  intros h. destruct (after_spec (new_poller reader sustained ratio) polls []) as [Hm Hsp]; [done|]. rewrite app_nil_r in Hm.
  destruct (poll_spec _ r now _ Hm) as (res & p' & Heq & _ & _ & Hres). exists res, p'. split; [exact Heq|].
  change ((sight_of r, now) :: sights polls) with h in Hres. destruct (sight_of r) as [| |ps] eqn:Hr.
  - destruct Hres as (-> & -> & ->). split_and!; try set_solver; try (apply NoDup_nil_2); naive_solver.
  - destruct Hres as (Hev & [msg He]). rewrite Hev, He.
    assert (Hp : kp_table_present res = true).
    { revert Heq Hr. unfold poll, sight_of. cbn [reading po_reader po_with]. destruct (read_kernel r) as [[[rd|]|e] r']; try done.
      intros [= <- <-] _. done. }
    rewrite Hp. split_and!; try set_solver; try (apply NoDup_nil_2); naive_solver.
  - destruct Hres as (-> & -> & modes & ->). rewrite Hsp. cbn [new_poller po_sustained_polls].
    assert (Hst : ∀ k, k ∈ ps → ∃ st, streak_start k h = Some st).
    { intros k Hk%inb_true. unfold h. cbn. rewrite Hr, Hk. by eexists. }
    split_and!; [|split| |naive_solver|split; [by intros [? ?]|done]].
    + intros e (k & -> & Hk)%list_elem_of_fmap. rewrite elem_of_py_sorted in Hk. destruct (Hst k Hk) as [st Hs].
      cbn [evidence_of ke_code ke_mac ke_sustained_polls ke_guard ke_guard_mode ke_id ep_polls ep_started_at].
      rewrite <- surjective_pairing, Hs. split; [done|]. split; [done|]. by exists st.
    + intros (e & (k' & -> & Hk)%list_elem_of_fmap & <-). rewrite elem_of_py_sorted in Hk. exists ps. split; [done|].
      cbn [evidence_of ke_code ke_mac]. by rewrite <- surjective_pairing.
    + intros (ps' & [= <-] & Hk). eexists. split; [apply list_elem_of_fmap; exists k; split; [reflexivity|by rewrite elem_of_py_sorted]|].
      cbn [evidence_of ke_code ke_mac]. by rewrite <- surjective_pairing.
    + rewrite <- list_fmap_compose. rewrite (list_fmap_ext _ id) by (intros _ k _; cbn; by rewrite <- surjective_pairing).
      rewrite list_fmap_id, py_sorted_perm. revert Hr. unfold sight_of. destruct (read_kernel r) as [[[rd|]|e] r']; intros [= <-]. apply NoDup_dedup.
Qed.

(** ** Fill alerts *)

Lemma elem_of_set_add {V} `{EqDecision V} (l : list V) v x : x ∈ set_add l v ↔ x ∈ l ∨ x = v.
Proof.
  unfold set_add. destruct (inb v l) eqn:Hv; [apply inb_true in Hv|]; [|set_solver]. split; [by left|]. by intros [?| ->].
Qed.

Lemma fill_fold ratio fills : is_nan ratio = false → ∀ al w,
  NoDup fills.*1 → Forall (λ f, is_nan (fill_ratio f.2) = false) fills →
  (foldl (fill_step ratio) (al, w) fills).1 =
    al ++ ((λ f, fill_alert f.1 f.2) <$> filter (λ f, flt ratio (fill_ratio f.2) = true ∧ f.1 ∉ w) fills) ∧
  ∀ l, l ∈ (foldl (fill_step ratio) (al, w) fills).2 ↔
       match dget fills l with Some x => flt ratio (fill_ratio x) = true | None => l ∈ w end.
Proof.
  intros Hr. induction fills as [|[l0 x0] fills IH]; intros al w Hnd Hnan; [cbn; by rewrite app_nil_r|].
  cbn [fmap list_fmap fst] in Hnd. apply NoDup_cons in Hnd as [Hl0 Hnd]. apply Forall_cons in Hnan as [Hx0 Hnan]. cbn [snd] in Hx0.
  assert (Hne : ∀ w' : list (string * string), (∀ l, l ≠ l0 → l ∈ w' ↔ l ∈ w) →
    filter (λ f : (string * string) * (Z * option Z), flt ratio (fill_ratio f.2) = true ∧ f.1 ∉ w') fills =
    filter (λ f : (string * string) * (Z * option Z), flt ratio (fill_ratio f.2) = true ∧ f.1 ∉ w) fills).
  { intros w' Hw. apply list_filter_iff_in. intros f Hf. rewrite Hw; [done|]. intros Heq. apply Hl0. rewrite <- Heq. by apply list_elem_of_fmap_2. }
  assert (Hget : dget fills l0 = None) by (by apply dget_None).
  cbn [foldl]. unfold fill_step at 2 4. cbn [fst snd].
  destruct (flt ratio (fill_ratio x0)) eqn:Hlt.
  - destruct (inb l0 w) eqn:Hin; cbn [andb negb].
    + assert (Hle : fle (fill_ratio x0) ratio = false).
      { destruct (fle (fill_ratio x0) ratio) eqn:Hle; [|done]. apply fle_not_flt in Hle. congruence. }
      rewrite Hle. apply inb_true in Hin. destruct (IH al w Hnd Hnan) as [-> Hw]. split.
      * rewrite filter_cons, decide_False; [done|]. cbn [fst snd]. tauto.
      * intros l. rewrite Hw. cbn [dget]. case_decide; [|done]. subst. by rewrite Hget.
    + apply inb_false in Hin. destruct (IH (al ++ [fill_alert l0 x0]) (set_add w l0) Hnd Hnan) as [-> Hw]. split.
      * rewrite (Hne (set_add w l0)) by (intros l ?; rewrite elem_of_set_add; tauto).
        rewrite filter_cons, decide_True by done. cbn [fmap list_fmap fst snd]. by rewrite <- app_assoc.
      * intros l. rewrite Hw. cbn [dget]. case_decide; [subst; rewrite Hget, elem_of_set_add; tauto|].
        destruct (dget fills l); [done|]. rewrite elem_of_set_add. naive_solver.
  - cbn [andb]. rewrite (flt_false ratio (fill_ratio x0) Hr Hx0 Hlt). destruct (IH al (filter (λ l, l ≠ l0) w) Hnd Hnan) as [-> Hw]. split.
    + rewrite (Hne (filter (λ l, l ≠ l0) w)) by (intros l ?; rewrite list_elem_of_filter; tauto).
      rewrite filter_cons, decide_False; [done|]. cbn [fst snd]. rewrite Hlt. by intros [? _].
    + intros l. rewrite Hw. cbn [dget]. case_decide; [subst; rewrite Hget, Hlt, list_elem_of_filter; naive_solver|].
      destruct (dget fills l); [done|]. rewrite list_elem_of_filter. naive_solver.
Qed.

(** A set that fills up is reported once: a poll warns about exactly the sets
    above the warning ratio that it had not warned about, and afterwards has
    warned about exactly the sets above it, so the next warning needs the
    set to drain first. *)
Lemma fill_alerts_exact ratio warned fills :
  is_nan ratio = false → NoDup fills.*1 → Forall (λ f, is_nan (fill_ratio f.2) = false) fills →
  (_fill_alerts ratio warned fills).1 =
    (λ f, fill_alert f.1 f.2) <$> filter (λ f, flt ratio (fill_ratio f.2) = true ∧ f.1 ∉ warned) fills ∧
  ∀ l, l ∈ (_fill_alerts ratio warned fills).2 ↔
       match dget fills l with Some x => flt ratio (fill_ratio x) = true | None => l ∈ warned end.
Proof. intros Hr Hnd Hnan. apply (fill_fold ratio fills Hr [] warned Hnd Hnan). Qed.
End Poller.
Arguments KernelPoller R : clear implicits.
