(* ===== verification/PipelineV2.v ===== *)
(** * The v2 pipeline (pirewall/runtime/pipeline_v2.py)

    The wiring from flow records, new-flow signals, slow clusters, portal
    failures and kernel polls through [D1State], [KernelPoller] results and
    [PolicyEngine] to [FirewallManager.submit_candidate].  The forwarder's
    events, the state store's decisions and the counters are lists and
    numbers of the state; the inbox is a bounded list.  Random identifiers
    come from a supply; the loaded models are a parameter, the
    [DetectionCoordinator] of the program, whose inference is not under
    verification. *)

From S2P Require Import Prelude Float Net Models Sets SetBackend Validator Backend Manager Enforce Throttle Policy PolicyProps Flow Features Thresholds Threat Runtime D1 KernelPoller.
Local Open Scope Z_scope.

Definition V2_SUBSYSTEM : string := "policy".
Definition _ANY : IPv4.network := IPv4.mk_network 0 0.
Definition _INBOX_MAX : Z := 4096.
Definition _ML_MEMORY : Z := seconds 60.
Definition _ML_PER_DEVICE : Z := 32.
Definition _AGGREGATE_SEEN_MAX : Z := 4096.

Definition DISPLAY_SCORE_BY_ACTION (a : FirewallAction) : float :=
  match a with
  | ALLOW => float_of_Z 0
  | MONITOR => float_of_Z 40
  | RATE_LIMIT => float_of_Z 70
  | BLOCK => float_of_Z 100
  end.

Definition _SEVERITY_BY_ACTION (a : FirewallAction) : EventSeverity :=
  match a with RATE_LIMIT => SEV_WARNING | BLOCK => SEV_CRITICAL | _ => SEV_INFO end.

Inductive inbox_item :=
| KernelPollItem (result : KernelPollResult) (bindings : list Binding) (at_ : Z)
| PortalFailureItem (account : string) (mac : option string) (at_ : Z).

Record V2Gauges : Type := mk_gauges {
  g_guard_hits_raw : Z;
  g_guard_hits_input : Z;
  g_guard_hits_forward : Z;
  g_offenders : Z;
  g_max_set_fill_ratio : float;
  g_kernel_evidence : Z;
  g_d1_evidence : Z;
  g_policy_decisions : Z;
}.

(** What the pipeline asks of the loaded models. *)
Record Coordinator : Type := mk_coordinator {
  co_v2_lightgbm : bool;
  co_v2_isolation_forest : bool;
  co_v2_family : bool;
  co_any_v2_loaded : bool;
  co_in_model_domain : Flow → bool;
  co_classify_known_v2 : FeatureVector → Z → option KnownEvidence;
  co_classify_family_v2 : FeatureVector → Z → option KnownEvidence;
  co_detect_anomaly_v2 : FeatureVector → Z → option AnomalyEvidence;
}.

Section Pipeline.
Context {B F : Type} {SB : SetBackend B} {FB : FirewallBackend F} {SBL : SetBackendLaws B} {FBL : FirewallBackendLaws F}.
Context (new_id : Z → string) (flow_id : Flow → string).

Record V2Pipeline : Type := mk_pipeline {
  vp_config : PirewallConfig;
  vp_d1_config : D1Config;
  vp_cooldown : float;        (** [d1.evaluation_cooldown_seconds] *)
  vp_poll_interval : float;   (** [d1.kernel_poll_interval_seconds] *)
  vp_known_threshold : float; (** [detection.known_attack_confidence_threshold] *)
  vp_resolve_ip : Mac.t → option IPv4.t;
  vp_coordinator : option Coordinator;
  vp_manager : FirewallManager B F;
  vp_d1 : D1State;
  vp_tracker : ConnectionStartTracker;
  vp_engine : PolicyEngine;
  vp_inbox : list inbox_item;
  vp_touched_macs : list string;
  vp_touched_destinations : list IPv4.t;
  vp_evaluated_at : list (string * float);
  vp_kernel : list (string * list KernelGuardEvidence);
  vp_ml : list (string * list ClassifierEvidence);
  vp_anomalies : list (string * list AnomalyEvidence);
  vp_aggregate_seen : list (string * unit);
  vp_last_global : float;
  vp_gauges : V2Gauges;
  vp_inbox_dropped : Z;
  vp_events : list SecurityEvent;
  vp_decisions : list FirewallDecision;
  vp_counters : RuntimeCounters;
  vp_next_id : Z;
}.

(** Attribute updates. *)
Definition vp_set_manager (s : V2Pipeline) x : V2Pipeline :=
  mk_pipeline (vp_config s) (vp_d1_config s) (vp_cooldown s) (vp_poll_interval s) (vp_known_threshold s)
    (vp_resolve_ip s) (vp_coordinator s) x (vp_d1 s) (vp_tracker s) (vp_engine s) (vp_inbox s) (vp_touched_macs s)
    (vp_touched_destinations s) (vp_evaluated_at s) (vp_kernel s) (vp_ml s) (vp_anomalies s) (vp_aggregate_seen s)
    (vp_last_global s) (vp_gauges s) (vp_inbox_dropped s) (vp_events s) (vp_decisions s) (vp_counters s)
    (vp_next_id s).
Definition vp_set_d1 (s : V2Pipeline) x : V2Pipeline :=
  mk_pipeline (vp_config s) (vp_d1_config s) (vp_cooldown s) (vp_poll_interval s) (vp_known_threshold s)
    (vp_resolve_ip s) (vp_coordinator s) (vp_manager s) x (vp_tracker s) (vp_engine s) (vp_inbox s)
    (vp_touched_macs s) (vp_touched_destinations s) (vp_evaluated_at s) (vp_kernel s) (vp_ml s) (vp_anomalies s)
    (vp_aggregate_seen s) (vp_last_global s) (vp_gauges s) (vp_inbox_dropped s) (vp_events s) (vp_decisions s)
    (vp_counters s) (vp_next_id s).
Definition vp_set_tracker (s : V2Pipeline) x : V2Pipeline :=
  mk_pipeline (vp_config s) (vp_d1_config s) (vp_cooldown s) (vp_poll_interval s) (vp_known_threshold s)
    (vp_resolve_ip s) (vp_coordinator s) (vp_manager s) (vp_d1 s) x (vp_engine s) (vp_inbox s) (vp_touched_macs s)
    (vp_touched_destinations s) (vp_evaluated_at s) (vp_kernel s) (vp_ml s) (vp_anomalies s) (vp_aggregate_seen s)
    (vp_last_global s) (vp_gauges s) (vp_inbox_dropped s) (vp_events s) (vp_decisions s) (vp_counters s)
    (vp_next_id s).
Definition vp_set_engine (s : V2Pipeline) x : V2Pipeline :=
  mk_pipeline (vp_config s) (vp_d1_config s) (vp_cooldown s) (vp_poll_interval s) (vp_known_threshold s)
    (vp_resolve_ip s) (vp_coordinator s) (vp_manager s) (vp_d1 s) (vp_tracker s) x (vp_inbox s) (vp_touched_macs s)
    (vp_touched_destinations s) (vp_evaluated_at s) (vp_kernel s) (vp_ml s) (vp_anomalies s) (vp_aggregate_seen s)
    (vp_last_global s) (vp_gauges s) (vp_inbox_dropped s) (vp_events s) (vp_decisions s) (vp_counters s)
    (vp_next_id s).
Definition vp_set_inbox (s : V2Pipeline) x n : V2Pipeline :=
  mk_pipeline (vp_config s) (vp_d1_config s) (vp_cooldown s) (vp_poll_interval s) (vp_known_threshold s)
    (vp_resolve_ip s) (vp_coordinator s) (vp_manager s) (vp_d1 s) (vp_tracker s) (vp_engine s) x (vp_touched_macs s)
    (vp_touched_destinations s) (vp_evaluated_at s) (vp_kernel s) (vp_ml s) (vp_anomalies s) (vp_aggregate_seen s)
    (vp_last_global s) (vp_gauges s) n (vp_events s) (vp_decisions s) (vp_counters s) (vp_next_id s).
Definition vp_set_touched (s : V2Pipeline) x y : V2Pipeline :=
  mk_pipeline (vp_config s) (vp_d1_config s) (vp_cooldown s) (vp_poll_interval s) (vp_known_threshold s)
    (vp_resolve_ip s) (vp_coordinator s) (vp_manager s) (vp_d1 s) (vp_tracker s) (vp_engine s) (vp_inbox s) x y
    (vp_evaluated_at s) (vp_kernel s) (vp_ml s) (vp_anomalies s) (vp_aggregate_seen s) (vp_last_global s)
    (vp_gauges s) (vp_inbox_dropped s) (vp_events s) (vp_decisions s) (vp_counters s) (vp_next_id s).
Definition vp_set_evaluated (s : V2Pipeline) x : V2Pipeline :=
  mk_pipeline (vp_config s) (vp_d1_config s) (vp_cooldown s) (vp_poll_interval s) (vp_known_threshold s)
    (vp_resolve_ip s) (vp_coordinator s) (vp_manager s) (vp_d1 s) (vp_tracker s) (vp_engine s) (vp_inbox s)
    (vp_touched_macs s) (vp_touched_destinations s) x (vp_kernel s) (vp_ml s) (vp_anomalies s) (vp_aggregate_seen s)
    (vp_last_global s) (vp_gauges s) (vp_inbox_dropped s) (vp_events s) (vp_decisions s) (vp_counters s)
    (vp_next_id s).
Definition vp_set_kernel (s : V2Pipeline) x : V2Pipeline :=
  mk_pipeline (vp_config s) (vp_d1_config s) (vp_cooldown s) (vp_poll_interval s) (vp_known_threshold s)
    (vp_resolve_ip s) (vp_coordinator s) (vp_manager s) (vp_d1 s) (vp_tracker s) (vp_engine s) (vp_inbox s)
    (vp_touched_macs s) (vp_touched_destinations s) (vp_evaluated_at s) x (vp_ml s) (vp_anomalies s)
    (vp_aggregate_seen s) (vp_last_global s) (vp_gauges s) (vp_inbox_dropped s) (vp_events s) (vp_decisions s)
    (vp_counters s) (vp_next_id s).
Definition vp_set_ml (s : V2Pipeline) x : V2Pipeline :=
  mk_pipeline (vp_config s) (vp_d1_config s) (vp_cooldown s) (vp_poll_interval s) (vp_known_threshold s)
    (vp_resolve_ip s) (vp_coordinator s) (vp_manager s) (vp_d1 s) (vp_tracker s) (vp_engine s) (vp_inbox s)
    (vp_touched_macs s) (vp_touched_destinations s) (vp_evaluated_at s) (vp_kernel s) x (vp_anomalies s)
    (vp_aggregate_seen s) (vp_last_global s) (vp_gauges s) (vp_inbox_dropped s) (vp_events s) (vp_decisions s)
    (vp_counters s) (vp_next_id s).
Definition vp_set_anomalies (s : V2Pipeline) x : V2Pipeline :=
  mk_pipeline (vp_config s) (vp_d1_config s) (vp_cooldown s) (vp_poll_interval s) (vp_known_threshold s)
    (vp_resolve_ip s) (vp_coordinator s) (vp_manager s) (vp_d1 s) (vp_tracker s) (vp_engine s) (vp_inbox s)
    (vp_touched_macs s) (vp_touched_destinations s) (vp_evaluated_at s) (vp_kernel s) (vp_ml s) x
    (vp_aggregate_seen s) (vp_last_global s) (vp_gauges s) (vp_inbox_dropped s) (vp_events s) (vp_decisions s)
    (vp_counters s) (vp_next_id s).
Definition vp_set_seen (s : V2Pipeline) x : V2Pipeline :=
  mk_pipeline (vp_config s) (vp_d1_config s) (vp_cooldown s) (vp_poll_interval s) (vp_known_threshold s)
    (vp_resolve_ip s) (vp_coordinator s) (vp_manager s) (vp_d1 s) (vp_tracker s) (vp_engine s) (vp_inbox s)
    (vp_touched_macs s) (vp_touched_destinations s) (vp_evaluated_at s) (vp_kernel s) (vp_ml s) (vp_anomalies s) x
    (vp_last_global s) (vp_gauges s) (vp_inbox_dropped s) (vp_events s) (vp_decisions s) (vp_counters s)
    (vp_next_id s).
Definition vp_set_last_global (s : V2Pipeline) x : V2Pipeline :=
  mk_pipeline (vp_config s) (vp_d1_config s) (vp_cooldown s) (vp_poll_interval s) (vp_known_threshold s)
    (vp_resolve_ip s) (vp_coordinator s) (vp_manager s) (vp_d1 s) (vp_tracker s) (vp_engine s) (vp_inbox s)
    (vp_touched_macs s) (vp_touched_destinations s) (vp_evaluated_at s) (vp_kernel s) (vp_ml s) (vp_anomalies s)
    (vp_aggregate_seen s) x (vp_gauges s) (vp_inbox_dropped s) (vp_events s) (vp_decisions s) (vp_counters s)
    (vp_next_id s).
Definition vp_set_gauges (s : V2Pipeline) x : V2Pipeline :=
  mk_pipeline (vp_config s) (vp_d1_config s) (vp_cooldown s) (vp_poll_interval s) (vp_known_threshold s)
    (vp_resolve_ip s) (vp_coordinator s) (vp_manager s) (vp_d1 s) (vp_tracker s) (vp_engine s) (vp_inbox s)
    (vp_touched_macs s) (vp_touched_destinations s) (vp_evaluated_at s) (vp_kernel s) (vp_ml s) (vp_anomalies s)
    (vp_aggregate_seen s) (vp_last_global s) x (vp_inbox_dropped s) (vp_events s) (vp_decisions s) (vp_counters s)
    (vp_next_id s).
Definition vp_set_events (s : V2Pipeline) x : V2Pipeline :=
  mk_pipeline (vp_config s) (vp_d1_config s) (vp_cooldown s) (vp_poll_interval s) (vp_known_threshold s)
    (vp_resolve_ip s) (vp_coordinator s) (vp_manager s) (vp_d1 s) (vp_tracker s) (vp_engine s) (vp_inbox s)
    (vp_touched_macs s) (vp_touched_destinations s) (vp_evaluated_at s) (vp_kernel s) (vp_ml s) (vp_anomalies s)
    (vp_aggregate_seen s) (vp_last_global s) (vp_gauges s) (vp_inbox_dropped s) x (vp_decisions s) (vp_counters s)
    (vp_next_id s).
Definition vp_set_decisions (s : V2Pipeline) x : V2Pipeline :=
  mk_pipeline (vp_config s) (vp_d1_config s) (vp_cooldown s) (vp_poll_interval s) (vp_known_threshold s)
    (vp_resolve_ip s) (vp_coordinator s) (vp_manager s) (vp_d1 s) (vp_tracker s) (vp_engine s) (vp_inbox s)
    (vp_touched_macs s) (vp_touched_destinations s) (vp_evaluated_at s) (vp_kernel s) (vp_ml s) (vp_anomalies s)
    (vp_aggregate_seen s) (vp_last_global s) (vp_gauges s) (vp_inbox_dropped s) (vp_events s) x (vp_counters s)
    (vp_next_id s).
Definition vp_set_counters (s : V2Pipeline) x : V2Pipeline :=
  mk_pipeline (vp_config s) (vp_d1_config s) (vp_cooldown s) (vp_poll_interval s) (vp_known_threshold s)
    (vp_resolve_ip s) (vp_coordinator s) (vp_manager s) (vp_d1 s) (vp_tracker s) (vp_engine s) (vp_inbox s)
    (vp_touched_macs s) (vp_touched_destinations s) (vp_evaluated_at s) (vp_kernel s) (vp_ml s) (vp_anomalies s)
    (vp_aggregate_seen s) (vp_last_global s) (vp_gauges s) (vp_inbox_dropped s) (vp_events s) (vp_decisions s) x
    (vp_next_id s).
Definition vp_set_next_id (s : V2Pipeline) x : V2Pipeline :=
  mk_pipeline (vp_config s) (vp_d1_config s) (vp_cooldown s) (vp_poll_interval s) (vp_known_threshold s)
    (vp_resolve_ip s) (vp_coordinator s) (vp_manager s) (vp_d1 s) (vp_tracker s) (vp_engine s) (vp_inbox s)
    (vp_touched_macs s) (vp_touched_destinations s) (vp_evaluated_at s) (vp_kernel s) (vp_ml s) (vp_anomalies s)
    (vp_aggregate_seen s) (vp_last_global s) (vp_gauges s) (vp_inbox_dropped s) (vp_events s) (vp_decisions s)
    (vp_counters s) x.

Definition vp_touch_mac (mac : string) (s : V2Pipeline) : V2Pipeline :=
  vp_set_touched s (set_add (vp_touched_macs s) mac) (vp_touched_destinations s).
Definition vp_touch_start (st : ConnectionStart) (s : V2Pipeline) : V2Pipeline :=
  vp_set_touched s (set_add (vp_touched_macs s) (cs_mac st)) (set_add (vp_touched_destinations s) (cs_destination_ip st)).

Definition v2_event (now : Z) (sev : EventSeverity) (ty : SecurityEventType) (score : option float)
  (decision : option FirewallAction) (reason : string) : SecurityEvent :=
  mk_event now sev ty V2_SUBSYSTEM score decision None (Some reason).
Definition vp_emit (e : SecurityEvent) : M V2Pipeline unit := mmodify (λ s, vp_set_events s (vp_events s ++ [e])).

Definition fresh_id : M V2Pipeline string := λ s, (Ok (new_id (vp_next_id s)), vp_set_next_id s (vp_next_id s + 1)).

Definition on_fw {A} (m : M (FirewallManager B F) A) : M V2Pipeline A := λ s,
  let '(r, m') := m (vp_manager s) in (r, vp_set_manager s m').
Definition on_engine {A} (m : M PolicyEngine A) : M V2Pipeline A := λ s,
  let '(r, e) := m (vp_engine s) in (r, vp_set_engine s e).

(** [V2Pipeline.__init__]; the tracker's constructor raises on a bound that
    is not positive. *)
Definition new_pipeline (config : PirewallConfig) (d1_config : D1Config) (cooldown poll_interval known_threshold : float)
  (portal_port : option Z) (thresholds : D1ThresholdFile) (table : PolicyTable) (manager : FirewallManager B F)
  (connection_start_max_tracked : Z) (resolve_ip : Mac.t → option IPv4.t) (coordinator : option Coordinator)
  : result V2Pipeline :=
  rbind (new_tracker connection_start_max_tracked) (λ tracker,
  Ok (mk_pipeline config d1_config cooldown poll_interval known_threshold resolve_ip coordinator manager
        (new_d1 d1_config thresholds (match portal_port with Some p => [p] | None => [] end)) tracker
        (new_engine table (c_policy config)) [] [] [] [] [] [] [] [] (S754_infinity true) (mk_gauges 0 0 0 0 f0 0 0 0) 0 [] []
        no_counts 0)).

(** ** Protected devices *)

Definition _is_protected (s : V2Pipeline) (target : RuleTarget) : bool :=
  let c := vp_config s in
  if inb (rt_ip target) [c_pirewall_lan_ip c; c_upstream_gateway c; c_admin_pc_ip c] then true
  else if match rt_mac target with Some m => bool_decide (Some m = c_admin_pc_mac c) | None => false end then true
  else existsb (λ e, IPv4.contains (al_target e) (rt_ip target)
                     || match rt_mac target with Some m => bool_decide (al_mac e = Some m) | None => false end)
         (m_allowlist (vp_manager s)).

(** ** Machine learning (optional) *)

(** [while len(d) > max: del d[next(iter(d))]] *)
Definition trim_oldest {V} (max : Z) (d : list (string * V)) : list (string * V) := drop (length d - Z.to_nat max) d.

Definition remember_recent {V} (max : Z) (d : list (string * list V)) (mac : string) (v : V) : list (string * list V) :=
  trim_oldest max (dmodify (dsetdefault d mac []) mac (λ q, deque_append _ML_PER_DEVICE q v)).

Definition attack_probability (known : KnownEvidence) : float :=
  let p := match ka_class_probabilities known with
           | [] => ka_confidence known
           | ps => py_sum (snd <$> filter (λ q : string * float, is_attack_label q.1 = true) ps)
           end in
  fmin (fmax p (float_of_Z 0)) (float_of_Z 1).

Definition _classify (co : Coordinator) (flow : Flow) (features : FeatureVector) (mac : string) (now : Z) : M V2Pipeline unit :=
  match co_classify_known_v2 co features now with
  | None => mret tt
  | Some known =>
      s ← mget;
      let probability := attack_probability known in
      let operating := default (vp_known_threshold s) (ka_operating_threshold known) in
      let is_attack := fle operating probability in
      let family := if is_attack && co_v2_family co then
                      match co_classify_family_v2 co features now with
                      | Some fk => if is_attack_label (ka_predicted_class fk)
                                   then Some (ka_predicted_class fk, ka_confidence fk) else None
                      | None => None
                      end
                    else None in
      id ← fresh_id;
      let evidence := mk_class_ev id (flow_id flow) (Some mac) probability operating is_attack (fst <$> family) (snd <$> family)
                        (ka_model_version known) (ka_feature_schema_version known) now in
      if negb (classifier_evidence_check evidence) then mraise (ValueError "classifier evidence")
      else if negb is_attack then mret tt
      else mmodify (λ s, vp_touch_mac mac
             (vp_set_ml s (remember_recent (d1c_max_tracked_macs (vp_d1_config s)) (vp_ml s) mac evidence)))
  end.

Definition _score_anomaly (co : Coordinator) (features : FeatureVector) (mac : string) (now : Z) : M V2Pipeline unit :=
  match co_detect_anomaly_v2 co features now with
  | Some evidence =>
      if ae_is_anomaly evidence
      then mmodify (λ s, vp_touch_mac mac
             (vp_set_anomalies s (remember_recent (d1c_max_tracked_macs (vp_d1_config s)) (vp_anomalies s) mac evidence)))
      else mret tt
  | None => mret tt
  end.

Definition _run_ml (flow : Flow) (now : Z) : M V2Pipeline unit :=
  s ← mget;
  match vp_coordinator s, unicast_mac (fl_source_mac flow) with
  | Some co, Some mac =>
      if negb (co_any_v2_loaded co) || negb (co_in_model_domain co flow) then mret tt
      else match extract_features flow SCHEMA_VERSION with
           | Raise _ => mret tt
           | Ok features =>
               _ ← (if co_v2_lightgbm co then _classify co flow features mac now else mret tt);
               if co_v2_isolation_forest co then _score_anomaly co features mac now else mret tt
           end
  | _, _ => mret tt
  end.

(** Evidence of one device that is still recent; the queue is pruned in
    place. *)
Definition prune_recent {V} (generated_at : V → Z) (now : Z) (d : list (string * list V)) (mac : string)
  : list V * list (string * list V) :=
  match dget d mac with
  | None => ([], d)
  | Some q => let q' := popleft_while (λ e, generated_at e <? now - _ML_MEMORY) q in (q', dset d mac q')
  end.

Definition _recent_ml (mac : string) (now : Z) : M V2Pipeline (list ClassifierEvidence) := λ s,
  let '(q, d) := prune_recent ce_generated_at now (vp_ml s) mac in (Ok q, vp_set_ml s d).
Definition _recent_anomalies (mac : string) (now : Z) : M V2Pipeline (list AnomalyEvidence) := λ s,
  let '(q, d) := prune_recent ae_generated_at now (vp_anomalies s) mac in (Ok q, vp_set_anomalies s d).

(** ** Inputs *)

Definition observe_signal (signal : NewFlowSignal) : M V2Pipeline unit := mmodify (λ s,
  match start_from_signal (nf_source_mac signal) (nf_source_ip signal) (nf_destination_ip signal) (nf_destination_port signal)
          (nf_protocol signal) (nf_timestamp signal) with
  | Some st => vp_touch_start st (vp_set_d1 s (d1_observe st (vp_d1 s)))
  | None => s
  end).

Definition observe_record (flow : Flow) (now : Z) : M V2Pipeline unit :=
  is_start ← (λ s, let '(b, t) := tracker_observe flow (vp_tracker s) in (Ok b, vp_set_tracker s t));
  start ← mlift (start_from_record flow is_start);
  _ ← mmodify (λ s, match start with
                    | Some st => vp_touch_start st (vp_set_d1 s (d1_observe st (vp_d1 s)))
                    | None => s
                    end);
  _run_ml flow now.

(** [observe_slow_cluster] on the fields of the cluster it reads. *)
Definition observe_slow (source_mac : option string) (source_ip destination_ip : IPv4.t) (n now : Z) : M V2Pipeline unit :=
  mmodify (λ s, match unicast_mac source_mac with
                | None => s
                | Some mac => vp_touch_mac mac
                    (vp_set_d1 s (D1.observe_slow_cluster (Some mac) source_ip destination_ip n now (vp_d1 s)))
                end).

Definition _put (item : inbox_item) : M V2Pipeline unit := mmodify (λ s,
  if Z.of_nat (length (vp_inbox s)) <? _INBOX_MAX then vp_set_inbox s (vp_inbox s ++ [item]) (vp_inbox_dropped s)
  else vp_set_inbox s (vp_inbox s) (vp_inbox_dropped s + 1)).

Definition submit_kernel_poll (result : KernelPollResult) (bindings : list Binding) (at_ : Z) : M V2Pipeline unit :=
  _put (KernelPollItem result bindings at_).
Definition submit_portal_failure (account : string) (client_ip : IPv4.t) (client_mac : option string) (at_ : Z) : M V2Pipeline unit :=
  _put (PortalFailureItem account client_mac at_).

Definition by_mac (found : list KernelGuardEvidence) : list (string * list KernelGuardEvidence) :=
  foldl (λ acc e, dmodify (dsetdefault acc (ke_mac e) []) (ke_mac e) (λ q, q ++ [e])) [] found.

Definition _emit_system (sev : EventSeverity) (reason : string) (now : Z) : M V2Pipeline unit :=
  vp_emit (v2_event now sev SYSTEM_WARNING None None reason).

Definition poll_gauges (result : KernelPollResult) (g : V2Gauges) : V2Gauges :=
  let hits guard := default 0 (dget (kp_guard_hits result) guard) in
  mk_gauges (hits RAW) (hits INPUT) (hits FORWARD) (kp_offender_count result) (kp_max_set_fill_ratio result)
    (g_kernel_evidence g + Z.of_nat (length (kp_evidence result))) (g_d1_evidence g) (g_policy_decisions g).

Definition _apply_kernel_poll (result : KernelPollResult) (bindings : list Binding) (at_ now : Z) : M V2Pipeline unit :=
  _ ← mmodify (λ s, vp_set_d1 s (observe_bindings bindings at_ (vp_d1 s)));
  _ ← mfold_unit (λ a, _emit_system (al_severity a) (al_reason a) now) (kp_alerts result);
  mmodify (λ s,
    let current := by_mac (kp_evidence result) in
    let s := vp_set_kernel s current in
    let s := vp_set_touched s (foldl set_add (vp_touched_macs s) (dkeys current)) (vp_touched_destinations s) in
    vp_set_gauges s (poll_gauges result (vp_gauges s))).

Definition apply_item (item : inbox_item) (now : Z) : M V2Pipeline unit :=
  match item with
  | PortalFailureItem account mac at_ => mmodify (λ s,
      let s := vp_set_d1 s (observe_portal_failure account mac at_ (vp_d1 s)) in
      match mac with Some m => vp_touch_mac m s | None => s end)
  | KernelPollItem result bindings at_ => _apply_kernel_poll result bindings at_ now
  end.

(** The detection thread drains what is queued; items arriving meanwhile are
    drained by the next call. *)
Definition drain_inbox (now : Z) : M V2Pipeline unit :=
  s0 ← mget;
  _ ← mmodify (λ s, vp_set_inbox s [] (vp_inbox_dropped s));
  mfold_unit (λ item, apply_item item now) (vp_inbox s0).

(** ** Reporting *)

(** [item.id.split(':')[4]]: the subject, up to its first colon. *)
Definition id_field (id : string) (n : nat) : string := string_of_list (default [] (split_on ":"%char (string_to_list id) !! n)).

Definition aggregate_reason (e : D1Evidence) : string :=
  "D1 " +:+ detector_value (de_detector e) +:+ " over " +:+ pretty (de_window_seconds e) +:+ "s: " +:+ fmt_g (de_value e) +:+ " > "
    +:+ fmt_g (de_threshold e) +:+ " (" +:+ id_field (de_id e) 4 +:+ "); no single device, reported only".

Definition report_one (now : Z) (e : D1Evidence) : M V2Pipeline unit :=
  s ← mget;
  if dmem (vp_aggregate_seen s) (de_id e) then mret tt
  else
    _ ← mmodify (λ s, vp_set_seen s (trim_oldest _AGGREGATE_SEEN_MAX (dset (vp_aggregate_seen s) (de_id e) tt)));
    vp_emit (v2_event now SEV_WARNING THREAT_DETECTED None None (aggregate_reason e)).

Definition _report_aggregate (evidence : list D1Evidence) (now : Z) : M V2Pipeline unit := mfold_unit (report_one now) evidence.

(** The ids of the evidence that has an [id] attribute. *)
Definition attribute_ids (items : list Evidence) : list string :=
  omap (λ e, match e with EvAnomaly _ => None | _ => if bool_decide (evidence_id e = "") then None else Some (evidence_id e) end) items.

Definition _report_untargetable (mac : string) (items : list Evidence) (now : Z) : M V2Pipeline unit :=
  s ← mget;
  let key := "untargetable:" +:+ String.concat "," (py_sorted String.leb (attribute_ids items)) in
  if dmem (vp_aggregate_seen s) key then mret tt
  else
    _ ← mmodify (λ s, vp_set_seen s (dset (vp_aggregate_seen s) key tt));
    vp_emit (v2_event now SEV_WARNING THREAT_DETECTED None None
      ("evidence for " +:+ mac +:+ ", but no IP is known for it: reported, not acted on")).

(** ** Decisions *)

Definition approval_waits (target : RuleTarget) (rule : FirewallRule) : bool :=
  bool_decide (fr_status rule = PENDING_APPROVAL) && bool_decide (rf_action rule = BLOCK)
  && match rf_target rule with
     | None => false
     | Some t => match rt_mac target with
                 | Some m => bool_decide (rt_mac t = Some m)
                 | None => rt_ip t =? rt_ip target
                 end
     end.

Definition _approval_pending (s : V2Pipeline) (target : RuleTarget) : bool :=
  existsb (approval_waits target) (all_rules (vp_manager s)).

Definition decision_of (d : PolicyDecision) (id : string) (now : Z) : FirewallDecision :=
  mk_decision id id None (pd_action d) (DISPLAY_SCORE_BY_ACTION (pd_action d)) (pd_threat_level d)
    (String.concat "; " (pd_reasons d)) (pd_evidence_ids d) now.

Definition candidate_of (c : PirewallConfig) (d : PolicyDecision) (id rule_id : string) (now : Z) : CandidateRule :=
  let ttl := default (pc_rate_limit_ttl_seconds (c_policy c)) (pd_ttl_seconds d) in
  mk_candidate
    (mk_rule_fields (pd_action d) INBOUND (IPv4.host (rt_ip (pd_target d))) _ANY ANY None None
       (String.concat "; " (pd_reasons d)) (Some (DISPLAY_SCORE_BY_ACTION (pd_action d))) (pd_evidence_ids d)
       [("engine", "v2"); ("policy_decision_id", id)] (Some (pd_target d)))
    rule_id id now (Some (now + seconds ttl)) CANDIDATE.

Definition add_counters (detections rejected_ blocks : Z) : M V2Pipeline unit := mmodify (λ s,
  let c := vp_counters s in
  vp_set_counters s (add_count BLOCKS blocks (add_count RULES_REJECTED rejected_ (add_count DETECTIONS detections c)))).

Definition count_decision : M V2Pipeline unit := mmodify (λ s,
  let g := vp_gauges s in
  vp_set_gauges s (mk_gauges (g_guard_hits_raw g) (g_guard_hits_input g) (g_guard_hits_forward g) (g_offenders g)
    (g_max_set_fill_ratio g) (g_kernel_evidence g) (g_d1_evidence g) (g_policy_decisions g + 1))).

Definition _submit (d : PolicyDecision) (had_d1 : bool) (now : Z) : M V2Pipeline unit :=
  s ← mget;
  id ← fresh_id;
  rule_id ← fresh_id;
  _ ← vp_emit (v2_event now (_SEVERITY_BY_ACTION (pd_action d)) POLICY_DECISION (Some (DISPLAY_SCORE_BY_ACTION (pd_action d)))
        (Some (pd_action d)) (String.concat "; " (pd_reasons d)));
  _ ← mmodify (λ s, vp_set_decisions s (vp_decisions s ++ [decision_of d id now]));
  _ ← on_fw (register_decision (decision_of d id now));
  result ← on_fw (submit_candidate (candidate_of (vp_config s) d id rule_id now) now);
  _ ← add_counters 1 0 0;
  _ ← count_decision;
  _ ← match sr_rule result with
      | None => add_counters 0 1 0
      | Some _ =>
          _ ← on_engine (record_enforced d had_d1);
          if bool_decide (pd_action d = BLOCK) then add_counters 0 0 1 else mret tt
      end;
  vp_emit (sr_event result).

Definition submit_unless_waiting (had_d1 : bool) (now : Z) (d : PolicyDecision) : M V2Pipeline unit :=
  s ← mget;
  if pd_requires_approval d && _approval_pending s (pd_target d) then mret tt else _submit d had_d1 now.

Definition has_d1 (items : list Evidence) : bool := existsb (λ e, match e with EvD1 _ => true | _ => false end) items.

Definition add_d1_evidence (n : Z) : M V2Pipeline unit := mmodify (λ s,
  let g := vp_gauges s in
  vp_set_gauges s (mk_gauges (g_guard_hits_raw g) (g_guard_hits_input g) (g_guard_hits_forward g) (g_offenders g)
    (g_max_set_fill_ratio g) (g_kernel_evidence g) (g_d1_evidence g + n) (g_policy_decisions g))).

(** The evidence of one device: kernel, D1 with [extra], then ML. *)
Definition gather_evidence (mac : string) (now : Z) (extra : list D1Evidence) : M V2Pipeline (list Evidence) :=
  d1 ← (λ s, let '(found, d) := evaluate_device mac now (vp_d1 s) in (Ok (found ++ extra), vp_set_d1 s d));
  _ ← add_d1_evidence (Z.of_nat (length d1));
  ml ← _recent_ml mac now;
  anomalies ← _recent_anomalies mac now;
  s ← mget;
  mret ((EvK <$> default [] (dget (vp_kernel s) mac)) ++ (EvD1 <$> d1) ++ (EvClassifier <$> ml) ++ (EvAnomaly <$> anomalies)).

Definition _decide_for (mac : string) (now : Z) (extra : list D1Evidence) : M V2Pipeline unit :=
  items ← gather_evidence mac now extra;
  match items with
  | [] => mret tt
  | _ =>
      s ← mget;
      match (match vp_resolve_ip s mac with Some ip => Some ip | None => last_ip (vp_d1 s) mac end) with
      | None => _report_untargetable mac items now
      | Some ip =>
          decisions ← on_engine (decide_bundle (_is_protected s)
                                   (mk_bundle (mk_target ip (Some mac)) items) (m_mode (vp_manager s)) now);
          mfold_unit (submit_unless_waiting (has_d1 items) now) decisions
      end
  end.

(** One touched device of [evaluate]. *)
Definition evaluate_mac (mono : float) (now : Z) (mac : string) : M V2Pipeline unit :=
  s ← mget;
  if match dget (vp_evaluated_at s) mac with Some last => flt (fsub mono last) (vp_cooldown s) | None => false end
  then mmodify (vp_touch_mac mac)
  else
    _ ← mmodify (λ s, vp_set_evaluated s (trim_oldest (d1c_max_tracked_macs (vp_d1_config s))
                        (dmove_to_end (dset (vp_evaluated_at s) mac mono) mac)));
    _decide_for mac now [].

Definition evaluate_one_destination (now : Z) (d : IPv4.t) : M V2Pipeline unit :=
  found ← (λ s, let '(f, d1) := evaluate_destination d now (vp_d1 s) in (Ok f, vp_set_d1 s d1));
  _report_aggregate found now.

Definition group_devices (found : list D1Evidence) : list (string * list D1Evidence) :=
  foldl (λ acc e, match de_mac e with
                  | Some m => dmodify (dsetdefault acc m []) m (λ q, q ++ [e])
                  | None => acc
                  end) [] found.

(** The LAN-wide pass, at most once per kernel poll interval. *)
Definition evaluate_lan (mono : float) (now : Z) : M V2Pipeline unit :=
  s ← mget;
  if fle (vp_poll_interval s) (fsub mono (vp_last_global s)) then
    _ ← mmodify (λ s, vp_set_last_global s mono);
    let found := evaluate_global (vp_d1 s) now in
    let aggregate := filter (λ e, de_mac e = None) found in
    _ ← mfold_unit (λ p : string * list D1Evidence, _decide_for p.1 now p.2)
          (py_sorted (λ a b, String.leb a.1 b.1) (group_devices found));
    _report_aggregate aggregate now
  else mret tt.

Definition evaluate (mono : float) (now : Z) : M V2Pipeline unit :=
  s ← mget;
  _ ← mmodify (λ s, vp_set_touched s [] (vp_touched_destinations s));
  _ ← mfold_unit (evaluate_mac mono now) (py_sorted String.leb (vp_touched_macs s));
  s1 ← mget;
  _ ← mmodify (λ s, vp_set_touched s (vp_touched_macs s) []);
  _ ← mfold_unit (evaluate_one_destination now) (py_sorted Z.leb (vp_touched_destinations s1));
  evaluate_lan mono now.

(** ** What a computation keeps *)

Section Keeps.
Context (R : V2Pipeline → V2Pipeline → Prop) `{!PreOrder R}.

#[local] Notation framed := (framed R).

(** The submission of a decision is the only step that reaches the manager. *)
Context (HR : ∀ s s', vp_manager s' = vp_manager s → vp_engine s' = vp_engine s → R s s').
Context (Hengine : ∀ {A} (m : M PolicyEngine A), framed (on_engine m)).
Context (Hsubmit : ∀ d had now, framed (_submit d had now)).

Lemma frame_local {A} (m : M V2Pipeline A) : (∀ s, vp_manager (m s).2 = vp_manager s ∧ vp_engine (m s).2 = vp_engine s) → framed m.
Proof. intros Hm s. destruct (Hm s). by apply HR. Qed.

Lemma frame_emit e : framed (vp_emit e).
Proof. by apply frame_local. Qed.
Lemma frame_report_one now e : framed (report_one now e).
Proof. apply frame_local. intros s. unfold report_one, mbind, m_bind, mget. by destruct (dmem _ _). Qed.
Lemma frame_report evidence now : framed (_report_aggregate evidence now).
Proof. apply (frame_fold R). intros e. apply frame_report_one. Qed.
Lemma frame_untargetable mac items now : framed (_report_untargetable mac items now).
Proof. apply frame_local. intros s. unfold _report_untargetable, mbind, m_bind, mget. by destruct (dmem _ _). Qed.

Lemma frame_gather mac now extra : framed (gather_evidence mac now extra).
Proof.
  apply frame_local. intros s. unfold gather_evidence, mbind, m_bind. destruct (evaluate_device _ _ _) as [f d]. cbn.
  unfold _recent_ml, _recent_anomalies. destruct (prune_recent ce_generated_at _ _ _) as [q1 d1]. cbn.
  by destruct (prune_recent ae_generated_at _ _ _) as [q2 d2].
Qed.

Lemma frame_decide_for mac now extra : framed (_decide_for mac now extra).
Proof.
  unfold _decide_for. apply (frame_bind R); [apply frame_gather|]. intros [|x items]; [apply (frame_ret R)|].
  apply (frame_bind R); [apply (frame_get R)|]. intros s. destruct (match vp_resolve_ip s mac with Some ip => Some ip | None => _ end) as [ip|].
  - apply (frame_bind R); [apply Hengine|]. intros ds. apply (frame_fold R). intros d. unfold submit_unless_waiting.
    apply (frame_bind R); [apply (frame_get R)|]. intros s'. destruct (_ && _); [apply (frame_ret R)|apply Hsubmit].
  - apply frame_untargetable.
Qed.

Lemma frame_evaluate mono now : framed (evaluate mono now).
Proof.
  unfold evaluate. apply (frame_bind R); [apply (frame_get R)|]. intros s. apply (frame_bind R); [by apply frame_local|]. intros _.
  apply (frame_bind R).
  { apply (frame_fold R). intros mac. unfold evaluate_mac. apply (frame_bind R); [apply (frame_get R)|]. intros s1.
    destruct (match dget _ _ with Some _ => _ | None => _ end); [by apply frame_local|].
    apply (frame_bind R); [by apply frame_local|]. intros _. apply frame_decide_for. }
  intros _. apply (frame_bind R); [apply (frame_get R)|]. intros s1. apply (frame_bind R); [by apply frame_local|]. intros _.
  apply (frame_bind R).
  { apply (frame_fold R). intros d. unfold evaluate_one_destination. apply (frame_bind R); [|intros f; apply frame_report].
    apply frame_local. intros s2. by destruct (evaluate_destination _ _ _). }
  intros _. unfold evaluate_lan. apply (frame_bind R); [apply (frame_get R)|]. intros s2. destruct (fle _ _); [|apply (frame_ret R)].
  apply (frame_bind R); [by apply frame_local|]. intros _. apply (frame_bind R); [|intros _; apply frame_report].
  apply (frame_fold R). intros p. apply frame_decide_for.
Qed.

Lemma frame_run_ml flow now : framed (_run_ml flow now).
Proof.
  unfold _run_ml. apply (frame_bind R); [apply (frame_get R)|]. intros s. destruct (vp_coordinator s) as [co|]; [|apply (frame_ret R)].
  destruct (unicast_mac _) as [mac|]; [|apply (frame_ret R)]. destruct (_ || _); [apply (frame_ret R)|].
  destruct (extract_features _ _) as [v|]; [|apply (frame_ret R)]. apply (frame_bind R).
  - destruct (co_v2_lightgbm co); [|apply (frame_ret R)]. unfold _classify. destruct (co_classify_known_v2 _ _ _); [|apply (frame_ret R)].
    apply (frame_bind R); [apply (frame_get R)|]. intros s1. apply (frame_bind R); [by apply frame_local|]. intros id.
    destruct (negb _); [apply (frame_raise R)|]. destruct (negb _); [apply (frame_ret R)|]. by apply frame_local.
  - intros _. destruct (co_v2_isolation_forest co); [|apply (frame_ret R)]. unfold _score_anomaly.
    destruct (co_detect_anomaly_v2 _ _ _); [|apply (frame_ret R)]. destruct (ae_is_anomaly _); [|apply (frame_ret R)]. by apply frame_local.
Qed.
End Keeps.

(** Everything the program does with a pipeline. *)
Inductive v2_op :=
| OpSignal (signal : NewFlowSignal)
| OpRecord (flow : Flow) (now : Z)
| OpSlow (source_mac : option string) (source_ip destination_ip : IPv4.t) (n now : Z)
| OpKernelPoll (result : KernelPollResult) (bindings : list Binding) (at_ : Z)
| OpPortalFailure (account : string) (client_ip : IPv4.t) (client_mac : option string) (at_ : Z)
| OpDrain (now : Z)
| OpEvaluate (mono : float) (now : Z).

Definition v2_do (op : v2_op) : M V2Pipeline unit :=
  match op with
  | OpSignal signal => observe_signal signal
  | OpRecord flow now => observe_record flow now
  | OpSlow mac src dst n now => observe_slow mac src dst n now
  | OpKernelPoll result bindings at_ => submit_kernel_poll result bindings at_
  | OpPortalFailure account ip mac at_ => submit_portal_failure account ip mac at_
  | OpDrain now => drain_inbox now
  | OpEvaluate mono now => evaluate mono now
  end.

(** A thread that survives an operation that raised. *)
Definition v2_run (s : V2Pipeline) (ops : list v2_op) : V2Pipeline := foldl (λ s op, (v2_do op s).2) s ops.

Lemma frame_do (R : V2Pipeline → V2Pipeline → Prop) `{!PreOrder R} op :
  (∀ s s', vp_manager s' = vp_manager s → vp_engine s' = vp_engine s → R s s') →
  (∀ A (m : M PolicyEngine A), framed R (on_engine m)) → (∀ d had now, framed R (_submit d had now)) → framed R (v2_do op).
Proof.
  intros HR Hen Hsub. destruct op as [signal|flow now|mac src dst n now|res bs at_|acc ip mac at_|now|mono now]; cbn [v2_do].
  - apply frame_local; [done|]. intros s. unfold observe_signal, mmodify. cbn. by destruct (start_from_signal _ _ _ _ _ _).
  - unfold observe_record. apply frame_bind; [done| |].
    { apply frame_local; [done|]. intros s. by destruct (tracker_observe _ _). }
    intros b. apply frame_bind; [done|apply frame_lift; done|]. intros st. apply frame_bind; [done| |].
    { apply frame_local; [done|]. intros s. by destruct st. }
    intros _. by apply frame_run_ml.
  - apply frame_local; [done|]. intros s. unfold observe_slow, mmodify. cbn. by destruct (unicast_mac mac).
  - apply frame_local; [done|]. intros s. unfold submit_kernel_poll, _put, mmodify. cbn. by destruct (_ <? _).
  - apply frame_local; [done|]. intros s. unfold submit_portal_failure, _put, mmodify. cbn. by destruct (_ <? _).
  - unfold drain_inbox. apply frame_bind; [done|apply frame_get; done|]. intros s0. apply frame_bind; [done|by apply frame_local|].
    intros _. apply frame_fold; [done|]. intros [res bs at_|acc mac at_]; cbn [apply_item].
    + unfold _apply_kernel_poll. apply frame_bind; [done|by apply frame_local|]. intros _. apply frame_bind; [done| |].
      { apply frame_fold; [done|]. intros a. by apply frame_local. }
      intros _. by apply frame_local.
    + apply frame_local; [done|]. intros s. cbn. by destruct mac.
  - by apply frame_evaluate.
Qed.

Lemma frame_submit (R : V2Pipeline → V2Pipeline → Prop) `{!PreOrder R} d had now :
  (∀ s s', vp_manager s' = vp_manager s → vp_engine s' = vp_engine s → R s s') →
  (∀ A (m : M PolicyEngine A), framed R (on_engine m)) →
  (∀ x, framed R (on_fw (register_decision x))) →
  (∀ c id rule_id, framed R (on_fw (submit_candidate (candidate_of c d id rule_id now) now))) →
  framed R (_submit d had now).
Proof.
  intros HR Hen Hreg Hsub. unfold _submit. apply frame_bind; [done|by apply frame_get|]. intros s.
  apply frame_bind; [done|by apply frame_local|]. intros id. apply frame_bind; [done|by apply frame_local|]. intros rule_id.
  do 2 (apply frame_bind; [done|by apply frame_local|]; intros _). apply frame_bind; [done|apply Hreg|]. intros _.
  apply frame_bind; [done|apply Hsub|]. intros res. do 2 (apply frame_bind; [done|by apply frame_local|]; intros _).
  apply frame_bind; [done| |intros _; by apply frame_local].
  destruct (sr_rule res); [|by apply frame_local]. apply frame_bind; [done|apply Hen|]. intros _.
  destruct (bool_decide _); [by apply frame_local|by apply frame_ret].
Qed.

(** ** SHADOW *)

(** In SHADOW mode, the same kernel, the same v1 backend, the same mode. *)
Definition inert (s s' : V2Pipeline) : Prop := m_mode (vp_manager s) = MODE_SHADOW →
  m_mode (vp_manager s') = MODE_SHADOW ∧ m_sets (vp_manager s') = m_sets (vp_manager s) ∧
  m_backend (vp_manager s') = m_backend (vp_manager s).

#[local] Instance inert_preorder : PreOrder inert.
Proof.
  split; [done|]. intros s1 s2 s3 H12 H23 Hm. destruct (H12 Hm) as (Hm2 & Hs2 & Hb2). destruct (H23 Hm2) as (Hm3 & Hs3 & Hb3).
  rewrite Hs3, Hb3. done.
Qed.

Lemma inert_local s s' : vp_manager s' = vp_manager s → vp_engine s' = vp_engine s → inert s s'.
Proof. unfold inert. by intros -> _. Qed.

Lemma inert_engine A (m : M PolicyEngine A) : framed inert (on_engine m).
Proof. intros s. unfold on_engine. by destruct (m (vp_engine s)). Qed.

Lemma inert_submit d had now : framed inert (_submit d had now).
Proof.
  apply frame_submit; [apply _|apply inert_local|apply inert_engine|done|]. intros c id rule_id s Hm. unfold on_fw.
  pose proof (submit_shadow_spec (vp_manager s) (candidate_of c d id rule_id now) now Hm) as Hspec.
  destruct (submit_candidate _ now (vp_manager s)) as [r m']. destruct Hspec as (Hb & Hs & Hmode & _). cbn. done.
Qed.

(** Under SHADOW the whole v2 pipeline is inert: whatever signals, flow
    records, slow clusters, kernel polls, portal failures and evaluation
    passes it is given, in any order and however they end, the kernel sets
    and the v1 backend are exactly what they were and the mode is still
    SHADOW. *)
Theorem shadow_pipeline_is_inert s ops :
  m_mode (vp_manager s) = MODE_SHADOW →
  m_mode (vp_manager (v2_run s ops)) = MODE_SHADOW ∧ m_sets (vp_manager (v2_run s ops)) = m_sets (vp_manager s) ∧
  m_backend (vp_manager (v2_run s ops)) = m_backend (vp_manager s).
Proof.
  intros Hm. assert (Hi : inert s (v2_run s ops)); [|by apply Hi]. clear Hm. revert s. unfold v2_run.
  induction ops as [|op ops IH]; intros s; [reflexivity|]. cbn. etransitivity; [|apply IH].
  apply frame_do; [apply _|apply inert_local|apply inert_engine|apply inert_submit].
Qed.

(** ** ASSISTED *)

Definition block_sets : list string := [SET_BLOCK_MAC; SET_BLOCK4].

(** With a review threshold a BLOCK's score reaches, the block sets are what
    they were. *)
Definition unblocked (s s' : V2Pipeline) : Prop := ∀ b,
  m_mode (vp_manager s) = MODE_ASSISTED → m_sets (vp_manager s) = Some b →
  fle (c_assisted_review_threshold (m_config (vp_manager s))) (float_of_Z 100) = true →
  m_mode (vp_manager s') = MODE_ASSISTED ∧ m_config (vp_manager s') = m_config (vp_manager s) ∧
  ∃ b', m_sets (vp_manager s') = Some b' ∧
    ∀ set k, set ∈ block_sets → kv_elem (sb_view b') (adaptive_address set) k = kv_elem (sb_view b) (adaptive_address set) k.

#[local] Instance unblocked_preorder : PreOrder unblocked.
Proof.
  split; [intros s b ???; do 2 (split; [done|]); by exists b|]. intros s1 s2 s3 H12 H23 b Hm Hs Ht.
  destruct (H12 b Hm Hs Ht) as (Hm2 & Hc2 & b2 & Hs2 & Hk2). rewrite <- Hc2 in Ht. destruct (H23 b2 Hm2 Hs2 Ht) as (Hm3 & Hc3 & b3 & Hs3 & Hk3).
  split; [done|]. split; [congruence|]. exists b3. split; [done|]. intros set k Hin. by rewrite Hk3, Hk2.
Qed.

Lemma unblocked_local s s' : vp_manager s' = vp_manager s → vp_engine s' = vp_engine s → unblocked s s'.
Proof. intros Heq _ b ???. rewrite Heq. do 2 (split; [done|]). by exists b. Qed.

Lemma unblocked_engine A (m : M PolicyEngine A) : framed unblocked (on_engine m).
Proof. intros s. unfold on_engine. destruct (m (vp_engine s)). intros b ???. do 2 (split; [done|]). by exists b. Qed.

Lemma unblocked_submit d had now : framed unblocked (_submit d had now).
Proof.
  apply frame_submit; [apply _|apply unblocked_local|apply unblocked_engine| |].
  { intros x s b ???. do 2 (split; [done|]). by exists b. }
  intros c id rule_id s b Hm Hs Ht. unfold on_fw.
  destruct (submit_candidate (candidate_of c d id rule_id now) now (vp_manager s)) as [r m'] eqn:Hsub. cbn [snd vp_manager vp_set_manager].
  destruct (decide (pd_action d = BLOCK)) as [Hb|Hnb].
  - assert (Hrev : _needs_review (vp_manager s) (candidate_of c d id rule_id now) = true).
    { unfold _needs_review. cbn. rewrite Hb. by rewrite bool_decide_true. }
    pose proof (submit_review_spec _ _ now Hm Hrev) as Hspec. rewrite Hsub in Hspec. destruct Hspec as (_ & Hs' & Hm' & Hc' & _).
    rewrite Hm', Hc', Hs', Hs. do 2 (split; [done|]). by exists b.
  - destruct (submit_without_block _ b (candidate_of c d id rule_id now) now r m' Hs Hnb Hsub) as (Hm' & Hc' & b' & Hs' & _ & Hel & _).
    rewrite Hm', Hc'. do 2 (split; [done|]). exists b'. split; [done|]. intros set k Hin. apply Hel. intros t set' Hset Heq.
    injection Heq as ->. cbn in Hset. unfold enforcement_set_for, block_sets in *. rewrite !elem_of_cons, elem_of_nil in Hin.
    destruct (pd_action d); try done. destruct (rt_mac t); injection Hset as <-; naive_solver.
Qed.

(** In ASSISTED mode the v2 pipeline never blocks a device by itself:
    whatever it is given and however it decides, the kernel's block sets hold
    what they held, as long as the review threshold does not exceed 100, the
    display score the pipeline gives a BLOCK; every BLOCK waits for the
    administrator instead. *)
Theorem assisted_pipeline_never_blocks s b ops set k :
  m_mode (vp_manager s) = MODE_ASSISTED → m_sets (vp_manager s) = Some b →
  fle (c_assisted_review_threshold (m_config (vp_manager s))) (float_of_Z 100) = true →
  set ∈ block_sets →
  ∃ b', m_sets (vp_manager (v2_run s ops)) = Some b' ∧
    kv_elem (sb_view b') (adaptive_address set) k = kv_elem (sb_view b) (adaptive_address set) k.
Proof.
  intros Hm Hs Ht Hin. assert (Hi : unblocked s (v2_run s ops)).
  { clear Hm Hs Ht Hin. revert s. unfold v2_run. induction ops as [|op ops IH]; intros s; [reflexivity|]. cbn. etransitivity; [|apply IH].
    apply frame_do; [apply _|apply unblocked_local|apply unblocked_engine|apply unblocked_submit]. }
  destruct (Hi b Hm Hs Ht) as (_ & _ & b' & Hs' & Hk). exists b'. split; [done|]. by apply Hk.
Qed.

(** ** Hard evidence *)

Lemma gather_keeps mac now extra s : vp_manager (gather_evidence mac now extra s).2 = vp_manager s ∧
  vp_engine (gather_evidence mac now extra s).2 = vp_engine s ∧ vp_config (gather_evidence mac now extra s).2 = vp_config s.
Proof.
  unfold gather_evidence, mbind, m_bind. destruct (evaluate_device _ _ _) as [f d]. cbn.
  unfold _recent_ml, _recent_anomalies. destruct (prune_recent ce_generated_at _ _ _) as [q1 d1]. cbn.
  by destruct (prune_recent ae_generated_at _ _ _) as [q2 d2].
Qed.

(** The kernel the pipeline's manager drives is what it was. *)
Definition same_kernel (s s' : V2Pipeline) : Prop := ∀ b, m_sets (vp_manager s) = Some b → kernel_kept b (vp_manager s').

#[local] Instance same_kernel_preorder : PreOrder same_kernel.
Proof.
  split; [intros s b Hs; by exists b|]. intros s1 s2 s3 H12 H23 b Hs. destruct (H12 b Hs) as (b2 & Hs2 & Hv2).
  destruct (H23 b2 Hs2) as (b3 & Hs3 & Hv3). exists b3. split; [done|]. by rewrite Hv3.
Qed.

Lemma same_kernel_local s s' : vp_manager s' = vp_manager s → vp_engine s' = vp_engine s → same_kernel s s'.
Proof. intros Heq _ b Hs. rewrite Heq. by exists b. Qed.

Lemma harmless_submit d had now : restrictive (pd_action d) = false → framed same_kernel (_submit d had now).
Proof.
  intros Hres. apply frame_submit; [apply _|apply same_kernel_local| | |].
  - intros A m s. unfold on_engine. destruct (m (vp_engine s)). intros b Hs. by exists b.
  - intros x s b Hs. by exists b.
  - intros c id rule_id s b Hs. unfold on_fw.
    destruct (submit_candidate (candidate_of c d id rule_id now) now (vp_manager s)) as [r m'] eqn:Hsub. cbn.
    exact (submit_harmless _ b (candidate_of c d id rule_id now) now r m' Hs Hres Hsub).
Qed.

Lemma harmless_submissions had now ds s : Forall (λ d, restrictive (pd_action d) = false) ds →
  same_kernel s (mfold_unit (submit_unless_waiting had now) ds s).2.
Proof.
  intros Hall. revert s. induction Hall as [|d ds Hd Hall IH]; intros s; [reflexivity|]. cbn [mfold_unit]. unfold mbind, m_bind.
  assert (Hk : same_kernel s (submit_unless_waiting had now d s).2).
  { unfold submit_unless_waiting, mbind, m_bind, mget. destruct (_ && _); [reflexivity|]. by apply harmless_submit. }
  destruct (submit_unless_waiting had now d s) as [[u|e] s'] eqn:Hs; [|exact Hk]. etransitivity; [exact Hk|apply IH].
Qed.

(** C11: Evaluating a device changes the kernel only on hard evidence: if the
    pass over one device changed any kernel element, then the device's address
    is not protected, and among the evidence the pass gathered there is an
    acting D1 detection or an enforce-mode kernel offender that lasted the
    configured polls; machine learning alone, an aggregate detector or an
    observe-mode offender never reaches the kernel. *)
Theorem pipeline_enforces_on_hard_evidence s b mac now extra :
  engine_ok (vp_engine s) → m_sets (vp_manager s) = Some b →
  kernel_kept b (vp_manager (_decide_for mac now extra s).2) ∨
  ∃ items s1 ip x, gather_evidence mac now extra s = (Ok items, s1) ∧ x ∈ items ∧
    (match vp_resolve_ip s1 mac with Some ip => Some ip | None => last_ip (vp_d1 s1) mac end) = Some ip ∧
    hard_evidence (pe_table (vp_engine s)) (pc_sustained_polls (pe_config (vp_engine s))) x = true ∧
    _is_protected s (mk_target ip (Some mac)) = false.
Proof.
  intros Hok Hs. unfold _decide_for, mbind, m_bind. pose proof (gather_keeps mac now extra s) as (Hm & He & Hc).
  destruct (gather_evidence mac now extra s) as [[items|e] s1] eqn:Hg; cbn in Hm, He, Hc; [|left; cbn; rewrite Hm; by exists b].
  destruct items as [|x0 xs]; [left; cbn; rewrite Hm; by exists b|]. set (items := x0 :: xs) in *. unfold mget.
  destruct (match vp_resolve_ip s1 mac with Some ip => Some ip | None => _ end) as [ip|] eqn:Hip.
  2:{ left. apply (frame_untargetable same_kernel same_kernel_local mac items now s1). by rewrite Hm. }
  unfold on_engine at 1. set (bundle := mk_bundle _ _). rewrite He.
  destruct (decide_spec (_is_protected s1) bundle (m_mode (vp_manager s1)) now _ Hok) as (ds & e' & Hdec & _).
  rewrite Hdec. set (s2 := vp_set_engine s1 e').
  destruct (existsb (λ d, restrictive (pd_action d)) ds) eqn:Hex.
  - right. apply existsb_exists in Hex as (d & Hd & Hres). rewrite <- list_elem_of_In in Hd.
    destruct (restrictive_decision _ _ _ _ _ _ _ d Hok Hdec Hd Hres) as (Hp & x & Hx & Hhard & _).
    exists items, s1, ip, x. do 4 (split; [done|]). unfold _is_protected in *. by rewrite <- Hc, <- Hm.
  - left. apply (harmless_submissions (has_d1 items) now ds s2); [|by cbn; rewrite Hm].
    apply Forall_forall. intros d Hd. destruct (restrictive (pd_action d)) eqn:Hr; [|done].
    rewrite <- not_true_iff_false in Hex. destruct Hex. apply existsb_exists. exists d. by rewrite <- list_elem_of_In.
Qed.
End Pipeline.
