(* ===== verification/Rpc.v ===== *)
(** * The two RPC surfaces of pirewall-core

    ipc/protocol.py (operations and envelopes), ipc/protocol_v2.py,
    ipc/snapshots.py, ipc/dispatcher.py ([CoreRpcDispatcher], the
    administrator's socket) and ipc/portal_dispatcher.py
    ([PortalRpcDispatcher], the socket the LAN-facing portal process
    reaches).

    [CoreRpc] is what the two dispatchers of one daemon share: the event
    forwarder with its store, one firewall manager, the portal service and the
    published snapshots.  The portal service and the dispatcher hold the same
    manager object, so [on_portal] lends the manager to the service for the
    call and takes it back.  The data of a response is the model the handler
    dumps ([rpc_data]); Pydantic's parsing of an entry and of an event, the
    text of an exception and [repr] are parameters.  What a call draws (the
    time, a session token, a generated password, a salt) is its argument. *)

From S2P Require Import Prelude Float Net Models Sets SetBackend Backend Manager Throttle PortalSessions PortalStore PortalService Flow Thresholds Threat Inference Runtime Json.
Local Open Scope Z_scope.

(** ** Operations and envelopes *)

Inductive RpcOperation :=
| GET_STATUS | GET_CAPTURE_STATS | LIST_FLOWS | LIST_DETECTIONS | LIST_THREATS | LIST_DECISIONS | LIST_RULES | LIST_EVENTS
| LIST_MODELS | DISABLE_RULE | REMOVE_RULE | APPROVE_RULE | REJECT_RULE | LIST_ALLOWLIST | ADD_ALLOWLIST_ENTRY
| REMOVE_ALLOWLIST_ENTRY | KILL_SWITCH | RECORD_EVENT
| PORTAL_STATUS | PORTAL_LOGIN | PORTAL_KEEPALIVE | PORTAL_LOGOUT
| PORTAL_LIST_USERS | PORTAL_ADD_USER | PORTAL_SET_PASSWORD | PORTAL_REMOVE_USER | PORTAL_LIST_SESSIONS | PORTAL_FORCE_LOGOUT
| GET_GUARD_MODES | SET_GUARD_MODE | PANIC | LIST_OFFENDERS | LIST_BINDINGS | GET_ENGINE_STATS.

#[global] Instance RpcOperation_eq_dec : EqDecision RpcOperation.
Proof. solve_decision. Defined.

Definition all_operations : list RpcOperation :=
  [GET_STATUS; GET_CAPTURE_STATS; LIST_FLOWS; LIST_DETECTIONS; LIST_THREATS; LIST_DECISIONS; LIST_RULES; LIST_EVENTS;
   LIST_MODELS; DISABLE_RULE; REMOVE_RULE; APPROVE_RULE; REJECT_RULE; LIST_ALLOWLIST; ADD_ALLOWLIST_ENTRY;
   REMOVE_ALLOWLIST_ENTRY; KILL_SWITCH; RECORD_EVENT; PORTAL_STATUS; PORTAL_LOGIN; PORTAL_KEEPALIVE; PORTAL_LOGOUT;
   PORTAL_LIST_USERS; PORTAL_ADD_USER; PORTAL_SET_PASSWORD; PORTAL_REMOVE_USER; PORTAL_LIST_SESSIONS; PORTAL_FORCE_LOGOUT;
   GET_GUARD_MODES; SET_GUARD_MODE; PANIC; LIST_OFFENDERS; LIST_BINDINGS; GET_ENGINE_STATS].

Definition operation_value (o : RpcOperation) : string :=
  match o with
  | GET_STATUS => "get_status" | GET_CAPTURE_STATS => "get_capture_stats" | LIST_FLOWS => "list_flows"
  | LIST_DETECTIONS => "list_detections" | LIST_THREATS => "list_threats" | LIST_DECISIONS => "list_decisions"
  | LIST_RULES => "list_rules" | LIST_EVENTS => "list_events" | LIST_MODELS => "list_models" | DISABLE_RULE => "disable_rule"
  | REMOVE_RULE => "remove_rule" | APPROVE_RULE => "approve_rule" | REJECT_RULE => "reject_rule"
  | LIST_ALLOWLIST => "list_allowlist" | ADD_ALLOWLIST_ENTRY => "add_allowlist_entry"
  | REMOVE_ALLOWLIST_ENTRY => "remove_allowlist_entry" | KILL_SWITCH => "kill_switch" | RECORD_EVENT => "record_event"
  | PORTAL_STATUS => "portal_status" | PORTAL_LOGIN => "portal_login" | PORTAL_KEEPALIVE => "portal_keepalive"
  | PORTAL_LOGOUT => "portal_logout" | PORTAL_LIST_USERS => "portal_list_users" | PORTAL_ADD_USER => "portal_add_user"
  | PORTAL_SET_PASSWORD => "portal_set_password" | PORTAL_REMOVE_USER => "portal_remove_user"
  | PORTAL_LIST_SESSIONS => "portal_list_sessions" | PORTAL_FORCE_LOGOUT => "portal_force_logout"
  | GET_GUARD_MODES => "get_guard_modes" | SET_GUARD_MODE => "set_guard_mode" | PANIC => "panic"
  | LIST_OFFENDERS => "list_offenders" | LIST_BINDINGS => "list_bindings" | GET_ENGINE_STATS => "get_engine_stats"
  end.

(** [RpcOperation(value)] *)
Definition operation_of (value : string) : option RpcOperation :=
  List.find (λ o, String.eqb (operation_value o) value) all_operations.

Record RpcRequest : Type := mk_request { rq_operation : RpcOperation; rq_params : list (string * json) }.
Record RpcResponse (D : Type) : Type := mk_response { rs_ok : bool; rs_data : option D; rs_error : option string }.
Arguments mk_response {_}. Arguments rs_ok {_}. Arguments rs_data {_}. Arguments rs_error {_}.

(** ** Published views *)

Record GuardModes : Type := mk_guard_modes { gm_modes : list (GuardName * GuardMode); gm_read_at : Z }.

Record OffenderEntry : Type := mk_offender {
  oe_mac : string; oe_code : Z; oe_guard : GuardName; oe_guard_mode : GuardMode;
  oe_sustained_polls : Z; oe_first_seen : Z; oe_last_seen : Z;
}.

Record EngineStats : Type := mk_engine_stats {
  es_backend : string; es_has_packet_ring : bool; es_frames_seen : Z; es_kernel_drops : Z; es_flows_shed : Z;
  es_new_flow_signals_shed : Z; es_panics_caught : Z; es_read_at : Z;
}.

(** [bindings] is the snapshot of the binding table at the time of the read. *)
Record V2Snapshots : Type := mk_snapshots {
  sn_bindings : option (list Binding);
  sn_guard_modes : option GuardModes;
  sn_guard_modes_error : option string;
  sn_offenders : list OffenderEntry;
  sn_offenders_polled : bool;
  sn_engine_stats : option EngineStats;
}.
Definition new_snapshots (bindings : option (list Binding)) : V2Snapshots :=
  mk_snapshots bindings None (Some "guard modes have not been read yet") [] false None.

Definition publish_guard_modes (modes : option GuardModes) (error : option string) (s : V2Snapshots) : V2Snapshots :=
  mk_snapshots (sn_bindings s) modes
    (match modes with
     | Some _ => None
     | None => Some (match error with Some e => if String.eqb e "" then "guard modes unavailable" else e
                                    | None => "guard modes unavailable" end)
     end) (sn_offenders s) (sn_offenders_polled s) (sn_engine_stats s).
Definition publish_offenders (offenders : list OffenderEntry) (s : V2Snapshots) : V2Snapshots :=
  mk_snapshots (sn_bindings s) (sn_guard_modes s) (sn_guard_modes_error s) offenders true (sn_engine_stats s).
Definition publish_engine_stats (stats : EngineStats) (s : V2Snapshots) : V2Snapshots :=
  mk_snapshots (sn_bindings s) (sn_guard_modes s) (sn_guard_modes_error s) (sn_offenders s) (sn_offenders_polled s) (Some stats).
Definition snapshot_bindings (s : V2Snapshots) : list Binding := match sn_bindings s with None => [] | Some l => l end.

(** ** Responses *)

Inductive FailureMode := FAIL_OPEN | FAIL_CLOSED.

Record StatusResult : Type := mk_status {
  sx_started_at : Z; sx_uptime_seconds : float; sx_enforcement_mode : EnforcementMode; sx_failure_mode : FailureMode;
  sx_active_rule_count : Z; sx_pending_approval_count : Z; sx_tracked_flow_count : Z;
  sx_lightgbm_loaded : bool; sx_isolation_forest_loaded : bool;
}.

Record PortalStatus : Type := mk_portal_status {
  ps_enabled : bool; ps_demo_accounts_present : bool; ps_contact_message : string;
  ps_session_timeout_seconds : Z; ps_keepalive_interval_seconds : Z;
}.

Inductive rpc_data : Type :=
| DStatus (s : StatusResult)
| DCapture (s : CaptureStatistics)
| DFlows (l : list Flow)
| DDetections (l : list DetectionRecord)
| DThreats (l : list ThreatAssessment)
| DDecisions (l : list FirewallDecision)
| DRules (l : list FirewallRule)
| DEvents (l : list SecurityEvent)
| DModels (l : list ModelMetadata)
| DRule (r : FirewallRule)
| DAllowlist (l : list AllowlistEntry)
| DEntry (e : AllowlistEntry) (account : option (string * option string))
| DBool (b : bool)
| DEvent (e : SecurityEvent)
| DUsers (l : list PortalUser)
| DUser (u : PortalUser) (generated_password : option string)
| DSessions (l : list PortalSession)
| DGuardModes (m : GuardModes)
| DPanic (p : PanicResult)
| DOffenders (l : list OffenderEntry)
| DBindings (l : list Binding)
| DEngineStats (s : EngineStats)
| DPortalStatus (s : PortalStatus)
| DSession (s : PortalSession)
| DClientState (s : PortalClientState).

(** What one call draws from its surroundings. *)
Record draws : Type := mk_draws { dw_now : Z; dw_token : string; dw_generated : string; dw_salt : list Z }.

(** [s.strip()] *)
Definition strip_str (s : string) : string := string_of_list (strip (string_to_list s)).

(** [str(network)] *)
Definition network_str (n : IPv4.network) : string := IPv4.to_string (IPv4.net_addr n) +:+ "/" +:+ str_Z (IPv4.prefixlen n).

(** ** Parameters of a request *)

Definition param_error (key : string) : string := "missing or invalid required parameter: '" +:+ key +:+ "'".

Definition _require_str (params : list (string * json)) (key : string) : result string :=
  match as_str (dget params key) with Some s => Ok s | None => Raise (RpcFault (param_error key)) end.
Definition _optional_str (params : list (string * json)) (key : string) : string := default "" (as_str (dget params key)).
Definition _require_actor (params : list (string * json)) : result string :=
  rbind (_require_str params "actor") (λ s,
  let actor := strip_str s in
  if String.eqb actor "" then Raise (RpcFault (param_error "actor")) else Ok actor).
(** [password if isinstance(password, str) and password else None] *)
Definition given_str (params : list (string * json)) (key : string) : option string := truthy (as_str (dget params key)).

Section RequireEnum.
Context (repr : string → string).
Definition _require_enum {E} (params : list (string * json)) (key : string) (members : list E) (value : E → string) : result E :=
  rbind (_require_str params key) (λ raw,
  match List.find (λ e, String.eqb (value e) raw) members with
  | Some e => Ok e
  | None => Raise (RpcFault ("invalid " +:+ key +:+ " " +:+ repr raw +:+ ": expected one of "
              +:+ String.concat ", " (value <$> members)))
  end).
End RequireEnum.

Definition portal_require_str (params : list (string * json)) (key : string) : result string :=
  match as_str (dget params key) with Some s => Ok s | None => Raise (PortalParamError (param_error key)) end.
Definition _require_ip (params : list (string * json)) (key : string) : result IPv4.t :=
  rbind (portal_require_str params key) (λ raw,
  match IPv4.parse raw with
  | Some ip => Ok ip
  | None => Raise (PortalParamError ("parameter '" +:+ key +:+ "' is not a valid IPv4 address"))
  end).

(** ** The shared state *)

Section Dispatch.
Context {B F : Type} {SB : SetBackend B} {FB : FirewallBackend F}.
Context (casefold repr : string → string) (scrypt : string → list Z → Z → list Z).
Context (parse_entry : list (string * json) → string + AllowlistEntry) (parse_event : list (string * json) → string + SecurityEvent).
Context (exn_str : exn → string).
Notation FM := (FirewallManager B F).
Notation PS := (PortalService B F).

Record CoreRpc : Type := mk_core {
  rp_forwarder : EventForwarder;
  rp_manager : FM;
  rp_failure_mode : FailureMode;
  rp_portal : option PS;
  rp_snapshots : option V2Snapshots;
  rp_lightgbm_metadata : option ModelMetadata;
  rp_isolation_forest_metadata : option ModelMetadata;
}.
Definition rp_state (c : CoreRpc) : CoreStateStore := fw_state (rp_forwarder c).

Definition rp_set_forwarder (c : CoreRpc) x := mk_core x (rp_manager c) (rp_failure_mode c) (rp_portal c) (rp_snapshots c)
  (rp_lightgbm_metadata c) (rp_isolation_forest_metadata c).
Definition rp_set_manager (c : CoreRpc) x := mk_core (rp_forwarder c) x (rp_failure_mode c) (rp_portal c) (rp_snapshots c)
  (rp_lightgbm_metadata c) (rp_isolation_forest_metadata c).
Definition rp_set_portal (c : CoreRpc) x := mk_core (rp_forwarder c) (rp_manager c) (rp_failure_mode c) x (rp_snapshots c)
  (rp_lightgbm_metadata c) (rp_isolation_forest_metadata c).
Definition rp_set_snapshots (c : CoreRpc) x := mk_core (rp_forwarder c) (rp_manager c) (rp_failure_mode c) (rp_portal c) x
  (rp_lightgbm_metadata c) (rp_isolation_forest_metadata c).

Definition manager {A} (f : M FM A) : M CoreRpc A := λ c,
  let '(r, m) := f (rp_manager c) in (r, rp_set_manager c m).
(** [self._emit]: the forwarder's [emit]. *)
Definition rpc_emit (e : SecurityEvent) : M CoreRpc unit := λ c,
  let '(r, w) := emit e (rp_forwarder c) in (r, rp_set_forwarder c w).
Definition emit_all (events : list SecurityEvent) (w : EventForwarder) : EventForwarder := foldl (λ w e, (emit e w).2) w events.
(** After a call of the portal service: its manager is the manager, and what
    it emitted went to the forwarder. *)
Definition returned (s s' : PS) (c : CoreRpc) : CoreRpc :=
  rp_set_portal (rp_set_manager (rp_set_forwarder c (emit_all (drop (length (sv_events s)) (sv_events s')) (rp_forwarder c)))
    (sv_manager s')) (Some s').
(** A call of the portal service [s], which works on the same manager. *)
Definition lend {A} (s : PS) (f : M PS A) : M CoreRpc A := λ c,
  let '(r, s') := f (sv_set_manager s (rp_manager c)) in (r, returned s s' c).
Definition _require_portal {A} (f : M PS A) : M CoreRpc A := λ c,
  match rp_portal c with
  | None => (Raise (RpcFault "the captive portal is disabled (set portal.enabled in the config)"), c)
  | Some s => lend s f c
  end.
Definition _require_snapshots (c : CoreRpc) : result V2Snapshots :=
  match rp_snapshots c with
  | None => Raise (RpcFault "v2 status is not available in this pirewall-core")
  | Some s => Ok s
  end.
Definition publish (f : V2Snapshots → V2Snapshots) : M CoreRpc unit :=
  mmodify (λ c, rp_set_snapshots c (f <$> rp_snapshots c)).

(** [except FirewallError as exc: raise _RpcError(f"{what} failed: {exc}")] *)
Definition or_fault {A} (what : string) (m : M CoreRpc A) : M CoreRpc A :=
  try_firewall m (λ msg, mraise (RpcFault (what +:+ " failed: " +:+ msg))).

(** ** Handlers of the administrator's socket: [None] is JSON's [null] *)

Definition handler : Type := draws → list (string * json) → M CoreRpc (option rpc_data).
Definition reading (f : CoreRpc → rpc_data) : handler := λ _ _ c, (Ok (Some (f c)), c).

Definition status_of (now : Z) (c : CoreRpc) : StatusResult :=
  mk_status (st_started_at (rp_state c)) (total_seconds (now - st_started_at (rp_state c))) (m_mode (rp_manager c))
    (rp_failure_mode c) (Z.of_nat (length (active_rules (rp_manager c))))
    (Z.of_nat (length (filter (λ r, fr_status r = PENDING_APPROVAL) (all_rules (rp_manager c)))))
    (Z.of_nat (length (history_values (st_flows (rp_state c)))))
    (bool_decide (is_Some (rp_lightgbm_metadata c))) (bool_decide (is_Some (rp_isolation_forest_metadata c))).
(** [StatusResult.uptime_seconds] may not be negative. *)
Definition _get_status : handler := λ d _ c,
  (if dw_now d <? st_started_at (rp_state c) then Raise (ValueError "uptime_seconds") else Ok (Some (DStatus (status_of (dw_now d) c))), c).
Definition _get_capture_stats : handler := λ _ _ c, (Ok (DCapture <$> st_capture_stats (rp_state c)), c).
Definition _list_flows : handler := reading (λ c, DFlows (history_values (st_flows (rp_state c)))).
Definition _list_detections : handler := reading (λ c, DDetections (history_values (st_detections (rp_state c)))).
Definition _list_threats : handler := reading (λ c, DThreats (history_values (st_threats (rp_state c)))).
Definition _list_decisions : handler := reading (λ c, DDecisions (st_decisions (rp_state c))).
Definition _list_rules : handler := reading (λ c, DRules (all_rules (rp_manager c))).
Definition _list_events : handler := reading (λ c, DEvents (st_events (rp_state c))).
Definition _list_models : handler :=
  reading (λ c, DModels (omap id [rp_lightgbm_metadata c; rp_isolation_forest_metadata c])).

Definition _disable_rule : handler := λ d params,
  id ← mlift (_require_str params "rule_id"); rule ← manager (disable_rule id (dw_now d)); mret (DRule <$> rule).
Definition _remove_rule : handler := λ d params,
  id ← mlift (_require_str params "rule_id"); rule ← manager (remove_rule id (dw_now d)); mret (DRule <$> rule).
Definition _approve_rule : handler := λ d params,
  id ← mlift (_require_str params "rule_id"); result ← manager (approve_pending id (dw_now d));
  mret (DRule <$> (result ≫= sr_rule)).
Definition _reject_rule : handler := λ d params,
  id ← mlift (_require_str params "rule_id"); rule ← manager (reject_pending id (dw_now d)); mret (DRule <$> rule).

Definition _list_allowlist : handler := reading (λ c, DAllowlist (m_allowlist (rp_manager c))).

(** The account provisioned with an entry. *)
Definition provision (d : draws) (entry : AllowlistEntry) (username : string) : M CoreRpc (option rpc_data) := λ c,
  match rp_portal c with
  | None => (Raise (RpcFault "cannot provision a portal user: the captive portal is disabled"), c)
  | Some s =>
      (r ← lend s (service_add_user repr scrypt username None (dw_generated d) (dw_salt d) (al_created_by entry)
             ("provisioned with allowlist entry " +:+ network_str (al_target entry)) (dw_now d));
       mret (Some (DEntry entry (Some (username, r.2))))) c
  end.
Definition _add_allowlist_entry : handler := λ d params,
  match parse_entry (filter (λ p : string * json, p.1 ≠ "portal_username") params) with
  | inl text => mraise (RpcFault ("invalid allowlist entry: " +:+ text))
  | inr entry =>
      _ ← manager (add_allowlist_entry entry);
      match as_str (dget params "portal_username") with
      | Some name =>
          if String.eqb (strip_str name) "" then mret (Some (DEntry entry None)) else provision d entry (strip_str name)
      | None => mret (Some (DEntry entry None))
      end
  end.
Definition _remove_allowlist_entry : handler := λ d params,
  id ← mlift (_require_str params "entry_id"); removed ← manager (remove_allowlist_entry id); mret (Some (DBool removed)).

Definition _kill_switch : handler := λ d _,
  e ← manager (revert_to_base (dw_now d)); _ ← rpc_emit e; mret (Some (DEvent e)).

Definition _portal_list_users : handler := λ _ _,
  _require_portal (s ← mget; mret (Some (DUsers (list_users (sv_store s))))).
Definition _portal_add_user : handler := λ d params, λ c,
  match rp_portal c with
  | None => _require_portal (mret None) c
  | Some s =>
      (username ← mlift (_require_str params "username");
       created_by ← mlift (_require_str params "created_by");
       r ← lend s (service_add_user repr scrypt username (given_str params "password") (dw_generated d) (dw_salt d)
             created_by (_optional_str params "note") (dw_now d));
       mret (Some (DUser r.1 r.2))) c
  end.
Definition _portal_set_password : handler := λ d params, λ c,
  match rp_portal c with
  | None => _require_portal (mret None) c
  | Some s =>
      (username ← mlift (_require_str params "username");
       r ← lend s (service_set_password repr scrypt username (given_str params "password") (dw_generated d) (dw_salt d) (dw_now d));
       mret (Some (DUser r.1 r.2))) c
  end.
Definition _portal_remove_user : handler := λ d params, λ c,
  match rp_portal c with
  | None => _require_portal (mret None) c
  | Some s =>
      (username ← mlift (_require_str params "username");
       removed ← lend s (service_remove_user repr username (dw_now d)); mret (Some (DBool removed))) c
  end.
Definition _portal_list_sessions : handler := λ d _,
  _require_portal (l ← on_sessions (list_sessions (dw_now d)); mret (Some (DSessions l))).
Definition _portal_force_logout : handler := λ d params,
  raw ← mlift (_require_str params "client_ip");
  match IPv4.parse raw with
  | None => mraise (RpcFault ("invalid client_ip: " +:+ repr raw))
  | Some ip => _require_portal (ended ← force_logout repr ip (dw_now d); mret (Some (DBool ended)))
  end.

Definition _record_event : handler := λ _ params,
  match parse_event params with
  | inl text => mraise (RpcFault ("invalid security event: " +:+ text))
  | inr e => _ ← rpc_emit e; mret (Some (DEvent e))
  end.

(** *** v2 *)

Definition _get_guard_modes : handler := λ _ _ c,
  (rbind (_require_snapshots c) (λ s,
     match sn_guard_modes s with
     | None => Raise (RpcFault ("guard modes unavailable: " +:+ match sn_guard_modes_error s with Some e => e | None => "None" end))
     | Some modes => Ok (Some (DGuardModes modes))
     end), c).
Definition _set_guard_mode : handler := λ d params,
  guard ← mlift (_require_enum repr params "guard" all_guards guard_value);
  mode ← mlift (_require_enum repr params "mode" [OBSERVE; ENFORCE] guard_mode_value);
  actor ← mlift (_require_actor params);
  p ← or_fault "set_guard_mode"
        (e ← manager (set_guard_mode guard mode actor (dw_now d)); modes ← manager guard_modes; mret (e, modes));
  let modes := mk_guard_modes p.2 (dw_now d) in
  _ ← rpc_emit p.1;
  _ ← publish (publish_guard_modes (Some modes) None);
  mret (Some (DGuardModes modes)).
Definition _panic : handler := λ d params,
  actor ← mlift (_require_actor params);
  p ← or_fault "panic" (manager (panic actor (dw_now d)));
  _ ← rpc_emit p.2;
  _ ← publish (publish_guard_modes None (Some ("pirewall_static was deleted by panic (" +:+ actor +:+ ")")));
  mret (Some (DPanic p.1)).
Definition _list_offenders : handler := λ _ _ c, (rbind (_require_snapshots c) (λ s, Ok (Some (DOffenders (sn_offenders s)))), c).
Definition _list_bindings : handler := λ _ _ c, (rbind (_require_snapshots c) (λ s, Ok (Some (DBindings (snapshot_bindings s)))), c).
Definition _get_engine_stats : handler := λ _ _ c,
  (rbind (_require_snapshots c) (λ s,
     match sn_engine_stats s with
     | None => Raise (RpcFault "engine statistics have not been published yet")
     | Some stats => Ok (Some (DEngineStats stats))
     end), c).

Definition _HANDLERS : list (RpcOperation * handler) :=
  [(GET_STATUS, _get_status); (GET_CAPTURE_STATS, _get_capture_stats); (LIST_FLOWS, _list_flows);
   (LIST_DETECTIONS, _list_detections); (LIST_THREATS, _list_threats); (LIST_DECISIONS, _list_decisions);
   (LIST_RULES, _list_rules); (LIST_EVENTS, _list_events); (LIST_MODELS, _list_models); (DISABLE_RULE, _disable_rule);
   (REMOVE_RULE, _remove_rule); (APPROVE_RULE, _approve_rule); (REJECT_RULE, _reject_rule); (LIST_ALLOWLIST, _list_allowlist);
   (ADD_ALLOWLIST_ENTRY, _add_allowlist_entry); (REMOVE_ALLOWLIST_ENTRY, _remove_allowlist_entry);
   (KILL_SWITCH, _kill_switch); (RECORD_EVENT, _record_event); (PORTAL_LIST_USERS, _portal_list_users);
   (PORTAL_ADD_USER, _portal_add_user); (PORTAL_SET_PASSWORD, _portal_set_password);
   (PORTAL_REMOVE_USER, _portal_remove_user); (PORTAL_LIST_SESSIONS, _portal_list_sessions);
   (PORTAL_FORCE_LOGOUT, _portal_force_logout); (GET_GUARD_MODES, _get_guard_modes); (SET_GUARD_MODE, _set_guard_mode);
   (PANIC, _panic); (LIST_OFFENDERS, _list_offenders); (LIST_BINDINGS, _list_bindings); (GET_ENGINE_STATS, _get_engine_stats)].

Definition LOCK_FREE_OPERATIONS : list RpcOperation := [GET_GUARD_MODES; LIST_OFFENDERS; LIST_BINDINGS; GET_ENGINE_STATS].

Definition response : Type := RpcResponse rpc_data.
Definition unknown_operation (o : RpcOperation) : response := mk_response false None (Some ("unknown operation: " +:+ operation_value o)).
Definition internal_error (o : RpcOperation) (e : exn) : response :=
  mk_response false None (Some ("internal error handling " +:+ operation_value o +:+ ": " +:+ exn_str e)).

Definition _dispatch (d : draws) (q : RpcRequest) : M CoreRpc response :=
  match dget _HANDLERS (rq_operation q) with
  | None => mret (unknown_operation (rq_operation q))
  | Some h => data ← h d (rq_params q); mret (mk_response true data None)
  end.
(** Total: a response and the state, whatever a handler raised. *)
Definition handle (d : draws) (q : RpcRequest) (c : CoreRpc) : response * CoreRpc :=
  let '(r, c) := _dispatch d q c in
  (match r with
   | Ok response => response
   | Raise (RpcFault text) => mk_response false None (Some text)
   | Raise e => internal_error (rq_operation q) e
   end, c).

(** ** Handlers of the portal's socket *)

Definition portal_handler : Type := draws → list (string * json) → M PS (option rpc_data).

Definition _portal_status : portal_handler := λ _ _ s,
  (Ok (Some (DPortalStatus (mk_portal_status (pcf_enabled (sv_config s)) (has_demo_accounts (sv_store s))
     (pcf_contact_message (sv_config s)) (pcf_session_timeout_seconds (sv_config s)) (pcf_keepalive_interval_seconds (sv_config s))))), s).
Definition _portal_login : portal_handler := λ d params,
  username ← mlift (portal_require_str params "username");
  password ← mlift (portal_require_str params "password");
  ip ← mlift (_require_ip params "client_ip");
  session ← login casefold repr scrypt username password ip (dw_token d) (dw_now d);
  mret (Some (DSession session)).
Definition _portal_keepalive : portal_handler := λ d params,
  ip ← mlift (_require_ip params "client_ip");
  state ← keepalive repr (given_str params "token") ip (dw_now d);
  mret (Some (DClientState state)).
Definition _portal_logout : portal_handler := λ d params,
  token ← mlift (portal_require_str params "token");
  ip ← mlift (_require_ip params "client_ip");
  ended ← logout repr token ip (dw_now d);
  mret (Some (DBool ended)).

Definition PORTAL_HANDLERS : list (RpcOperation * portal_handler) :=
  [(PORTAL_STATUS, _portal_status); (PORTAL_LOGIN, _portal_login); (PORTAL_KEEPALIVE, _portal_keepalive); (PORTAL_LOGOUT, _portal_logout)].
Definition _PORTAL_OPERATIONS : list RpcOperation := [PORTAL_STATUS; PORTAL_LOGIN; PORTAL_KEEPALIVE; PORTAL_LOGOUT].

Definition portal_handle (d : draws) (q : RpcRequest) (s : PS) : response * PS :=
  let '(r, s) :=
    match dget PORTAL_HANDLERS (rq_operation q) with
    | None => (Ok (unknown_operation (rq_operation q)), s)
    | Some h => (data ← h d (rq_params q); mret (mk_response true data None)) s
    end in
  (match r with
   | Ok response => response
   | Raise (PortalLoginError text) => mk_response false None (Some text)
   | Raise (PortalParamError text) => mk_response false None (Some text)
   | Raise e => internal_error (rq_operation q) e
   end, s).

(** The portal's dispatcher inside the daemon: the same manager. *)
Definition core_portal_handle (d : draws) (q : RpcRequest) (c : CoreRpc) : option (response * CoreRpc) :=
  match rp_portal c with
  | None => None
  | Some s =>
      let '(r, s') := portal_handle d q (sv_set_manager s (rp_manager c)) in
      Some (r, returned s s' c)
  end.
End Dispatch.
