(* ===== verification/RpcProps.v ===== *)
(** * What the two sockets can and cannot do

    Every RPC is a sequence of the manager's own methods, so whatever is
    asked, on either socket, the manager stays one the reachability theorems
    speak about.  The portal's socket reaches nothing but the portal's grants;
    the operations core serves without its lock only read published views;
    the dangerous operations leave their event in the audit trail. *)

From S2P Require Import Prelude Float Net Models RateLimiter Sets SetBackend Backend Validator Manager Lifecycle Reachable Throttle PortalSessions PortalStore PortalService Flow Thresholds Threat Inference Runtime Json Rpc.
Local Open Scope Z_scope.

Create HintDb portal_ops.
Create HintDb rpc_ops.

(** Splits a computation into its steps, closing the leaves with the lemmas of a database. *)
Ltac frame_leaf R :=
  first [apply (frame_ret R) | apply (frame_get R) | apply (frame_lift R) | apply (frame_raise R)].
Ltac frame_split R :=
  first [(apply (frame_fold R); intros) | (apply (frame_try R); [|intros]) | (apply (frame_bind R); [|intros])].

Section Portal.
Context {B F : Type} {SB : SetBackend B} {FB : FirewallBackend F}.
Context (casefold repr : string → string) (scrypt : string → list Z → Z → list Z).
Notation FM := (FirewallManager B F).
Notation PS := (PortalService B F).

(** ** The portal service *)

(** The three calls of the backend that concern the portal's grants. *)
Definition grant_call (f f' : F) : Prop :=
  (∃ ip t mac, f' = (fb_authorize_portal_client ip t mac f).2) ∨ (∃ ip mac, f' = (fb_deauthorize_portal_client ip mac f).2) ∨
  f' = (fb_list_portal_grants f).2.
(** A manager that differs only in what such calls did to its backend. *)
Definition grants_only (m m' : FM) : Prop := ∃ f, rtc grant_call (m_backend m) f ∧ m' = set_backend m f.

(** What no call of the service changes: everything of the manager but the
    grants its backend holds.  The steps are the manager's own. *)
Definition service_keeps (s s' : PS) : Prop :=
  rtc mstep (sv_manager s) (sv_manager s') ∧ grants_only (sv_manager s) (sv_manager s') ∧ sv_config s' = sv_config s.
(** A client's call also leaves the accounts alone. *)
Definition client_keeps (s s' : PS) : Prop := service_keeps s s' ∧ sv_store s' = sv_store s.

#[global] Instance grants_only_preorder : PreOrder grants_only.
Proof.
  split.
  - intros m. exists (m_backend m). split; [apply rtc_refl|]. by destruct m.
  - intros m1 m2 m3 (f1 & R1 & ->) (f2 & R2 & ->). exists f2. split; [by etrans|done].
Qed.
#[global] Instance service_keeps_preorder : PreOrder service_keeps.
Proof.
  split.
  - intros s. split; [apply rtc_refl|]. by split; [reflexivity|].
  - intros s1 s2 s3 (R1 & G1 & C1) (R2 & G2 & C2). split; [by etrans|]. split; [by etrans|congruence].
Qed.
#[global] Instance client_keeps_preorder : PreOrder client_keeps.
Proof.
  split.
  - intros s. split; [reflexivity|done].
  - intros s1 s2 s3 [H1 E1] [H2 E2]. split; [by etransitivity|congruence].
Qed.

(** Calls that leave the manager alone. *)
Lemma client_same s s' : sv_manager s' = sv_manager s → sv_store s' = sv_store s → sv_config s' = sv_config s → client_keeps s s'.
Proof. intros Hm Hs Hc. split; [|done]. unfold service_keeps. rewrite Hm. split; [apply rtc_refl|]. by split; [reflexivity|]. Qed.

Lemma client_sessions {A} (f : PortalSessionRegistry → A * PortalSessionRegistry) : framed client_keeps (on_sessions (B := B) (F := F) f).
Proof. intros s. unfold on_sessions. destruct (f _). by apply client_same. Qed.
Lemma client_registry {A} (f : M PortalSessionRegistry A) : framed client_keeps (on_registry (B := B) (F := F) f).
Proof. intros s. unfold on_registry. destruct (f _). by apply client_same. Qed.
Lemma client_throttle {A} (f : M LoginThrottle A) : framed client_keeps (on_login_throttle (B := B) (F := F) f).
Proof. intros s. unfold on_login_throttle. destruct (f _). by apply client_same. Qed.
Lemma client_emit now sev ty reason : framed client_keeps (_emit (B := B) (F := F) now sev ty reason).
Proof. intros s. by apply client_same. Qed.
Lemma client_failure x : framed client_keeps (mmodify (λ s : PS, sv_add_failure s x)).
Proof. intros s. by apply client_same. Qed.

(** Calls of the manager that only reach the grants of its backend. *)
Lemma on_backend_grants {A} (f : M F A) (m : FM) : grant_call (m_backend m) (f (m_backend m)).2 → grants_only m (on_backend f m).2.
Proof. intros Hf. unfold on_backend. destruct (f _) as [r f']. exists f'. split; [by apply rtc_once|done]. Qed.
Lemma authorize_grants ip t mac : framed grants_only (on_backend (fb_authorize_portal_client ip t mac) : M FM unit).
Proof. intros m. apply on_backend_grants. left. by do 3 eexists. Qed.
Lemma deauthorize_grants ip mac : framed grants_only (on_backend (fb_deauthorize_portal_client ip mac) : M FM unit).
Proof. intros m. apply on_backend_grants. right. left. by do 2 eexists. Qed.
Lemma list_grants : framed grants_only (on_backend fb_list_portal_grants : M FM (list PortalGrant)).
Proof. intros m. apply on_backend_grants. by right; right. Qed.

Lemma client_manager {A} (f : M FM A) : (∀ m, mstep m (f m).2) → framed grants_only f → framed client_keeps (on_manager f).
Proof.
  intros Hs Hb s. unfold on_manager. specialize (Hs (sv_manager s)). specialize (Hb (sv_manager s)).
  destruct (f (sv_manager s)) as [r m]. split; [|done]. split; [by apply rtc_once|]. by split.
Qed.
Lemma client_authorize ip t mac : framed client_keeps (on_manager (authorize_portal_client (B := B) (F := F) ip t mac)).
Proof.
  apply client_manager; [intros; exists 0; apply step_authorize|]. unfold authorize_portal_client. frame_split grants_only; [frame_leaf grants_only|].
  case_match; [frame_leaf grants_only|apply authorize_grants].
Qed.
Lemma client_deauthorize ip mac now : framed client_keeps (_deauthorize (B := B) (F := F) ip mac now).
Proof.
  unfold _deauthorize. frame_split client_keeps; [|apply client_emit]. apply client_manager; [intros; exists 0; apply step_deauthorize|].
  unfold deauthorize_portal_client. destruct mac; [apply deauthorize_grants|].
  repeat first [frame_leaf grants_only | apply deauthorize_grants | apply list_grants | frame_split grants_only].
Qed.
#[local] Hint Resolve client_sessions client_registry client_throttle client_emit client_failure client_authorize client_deauthorize : portal_ops.
Ltac client_all := repeat first [frame_leaf client_keeps | solve [eauto with portal_ops] | frame_split client_keeps | case_match].

Lemma client_revoke ip reason now : framed client_keeps (_revoke (B := B) (F := F) repr ip reason now).
Proof. unfold _revoke. client_all. Qed.
#[local] Hint Resolve client_revoke : portal_ops.
Lemma client_login u p ip token now : framed client_keeps (login (B := B) (F := F) casefold repr scrypt u p ip token now).
Proof. unfold login, login_failed, login_granted. client_all. Qed.
Lemma client_keepalive token ip now : framed client_keeps (keepalive (B := B) (F := F) repr token ip now).
Proof. unfold keepalive. client_all. Qed.
Lemma client_logout token ip now : framed client_keeps (logout (B := B) (F := F) repr token ip now).
Proof. unfold logout. client_all. Qed.

(** Administration: the accounts may change, the rest is as before. *)
Lemma service_client {A} (f : M PS A) : framed client_keeps f → framed service_keeps f.
Proof. intros Hf s. apply Hf. Qed.
Lemma service_users {A} (f : M PortalUserStore A) : framed service_keeps (on_users (B := B) (F := F) f).
Proof. intros s. unfold on_users. destruct (f _). split; [apply rtc_refl|]. by split; [cbn; reflexivity|]. Qed.
#[local] Hint Resolve service_client service_users : portal_ops.
Ltac service_all := repeat first [frame_leaf service_keeps | solve [eauto with portal_ops] | frame_split service_keeps | case_match].

Lemma client_end_sessions l u reason now : framed client_keeps (end_sessions (B := B) (F := F) repr l u reason now).
Proof. induction l as [|se l IH]; cbn [end_sessions]; [frame_leaf client_keeps|]. client_all. Qed.
#[local] Hint Resolve client_end_sessions : portal_ops.
Lemma service_add u p g salt by_ note now : framed service_keeps (service_add_user (B := B) (F := F) repr scrypt u p g salt by_ note now).
Proof. unfold service_add_user. destruct (chosen_password p g). service_all. Qed.
Lemma service_set u p g salt now : framed service_keeps (service_set_password (B := B) (F := F) repr scrypt u p g salt now).
Proof. unfold service_set_password, _end_sessions_for. destruct (chosen_password p g). service_all. Qed.
Lemma service_remove u now : framed service_keeps (service_remove_user (B := B) (F := F) repr u now).
Proof. unfold service_remove_user, _end_sessions_for. service_all. Qed.
Lemma service_logout ip now : framed service_keeps (force_logout (B := B) (F := F) repr ip now).
Proof. apply service_client. unfold force_logout. client_all. Qed.
End Portal.

Section Surface.
Context {B F : Type} {SB : SetBackend B} {SBL : SetBackendLaws B} {FB : FirewallBackend F} {FBL : FirewallBackendLaws F}.
Context (casefold repr : string → string) (scrypt : string → list Z → Z → list Z).
Context (parse_entry : list (string * json) → string + AllowlistEntry) (parse_event : list (string * json) → string + SecurityEvent).
Context (exn_str : exn → string).
Notation C := (CoreRpc (B := B) (F := F)).
Notation handle := (handle (B := B) (F := F) repr scrypt parse_entry parse_event exn_str).
Notation portal_handle := (core_portal_handle (B := B) (F := F) casefold repr scrypt exn_str).
Notation handlers := (_HANDLERS (B := B) (F := F) repr scrypt parse_entry parse_event).

(** ** Every request is made of the manager's methods *)

Definition served (c c' : C) : Prop := rtc mstep (rp_manager c) (rp_manager c').
#[local] Instance served_preorder : PreOrder served.
Proof. split; [intros c; apply rtc_refl|]. intros c1 c2 c3 H1 H2. unfold served in *. by etrans. Qed.

Lemma served_manager {A} (f : M (FirewallManager B F) A) : (∀ m, mstep m (f m).2) → framed served (manager f).
Proof. intros Hf c. unfold manager. specialize (Hf (rp_manager c)). destruct (f _). by apply rtc_once. Qed.
Lemma served_emit e : framed served (rpc_emit (B := B) (F := F) e).
Proof. intros c. unfold rpc_emit. destruct (emit e _). apply rtc_refl. Qed.
Lemma served_publish f : framed served (publish (B := B) (F := F) f).
Proof. intros c. apply rtc_refl. Qed.
Lemma served_lend {A} s (f : M (PortalService B F) A) : framed service_keeps f → framed served (lend s f).
Proof.
  intros Hf c. unfold lend. destruct (Hf (sv_set_manager s (rp_manager c))) as [Hr _].
  destruct (f _) as [r s']. exact Hr.
Qed.
Lemma served_portal {A} (f : M (PortalService B F) A) : framed service_keeps f → framed served (_require_portal f).
Proof. intros Hf c. unfold _require_portal. destruct (rp_portal c) as [s|]; [by apply served_lend|apply rtc_refl]. Qed.
(** Handlers that look for the portal first. *)
Lemma served_match {A} (f : PortalService B F → M C A) (g : M C A) :
  (∀ s, framed served (f s)) → framed served g → framed served (λ c, match rp_portal c with None => g c | Some s => f s c end).
Proof. intros Hf Hg c. cbn. destruct (rp_portal c) as [s|]; [apply Hf|apply Hg]. Qed.

#[local] Hint Resolve served_emit served_publish service_add service_set service_remove service_logout served_lend served_portal : rpc_ops.
#[local] Hint Extern 2 (framed served (manager _)) =>
  (apply served_manager; intros; first [eexists; first [apply step_disable | apply step_remove | apply step_approve | apply step_reject
   | apply step_kill | apply step_guard | apply step_panic] | exists 0; first [apply step_allow | apply step_disallow | apply step_guards]]) : rpc_ops.
Ltac served_all :=
  repeat first [frame_leaf served | solve [eauto with rpc_ops] | (apply served_match; intros) | frame_split served | case_match].

Lemma service_of_client {A} (f : M (PortalService B F) A) : framed client_keeps f → framed service_keeps f.
Proof. intros Hf s. apply Hf. Qed.

Lemma served_handler o h d params : (o, h) ∈ handlers → framed served (h d params).
Proof.
  intros Hin. unfold _HANDLERS in Hin. repeat (apply elem_of_cons in Hin as [[= -> ->]|Hin]; [|]).
  all: try (intros c; apply rtc_refl).
  1-4: unfold _disable_rule, _remove_rule, _approve_rule, _reject_rule; served_all.
  - unfold _add_allowlist_entry, provision. served_all.
  - unfold _remove_allowlist_entry. served_all.
  - unfold _kill_switch. served_all.
  - unfold _record_event. served_all.
  - unfold _portal_list_users. apply served_portal. apply (frame_bind service_keeps); [apply (frame_get service_keeps)|].
    intros. apply (frame_ret service_keeps).
  - unfold _portal_add_user. served_all.
  - unfold _portal_set_password. served_all.
  - unfold _portal_remove_user. served_all.
  - unfold _portal_list_sessions. apply served_portal, service_of_client. apply (frame_bind client_keeps); [apply client_sessions|].
    intros. apply (frame_ret client_keeps).
  - unfold _portal_force_logout. frame_split served; [frame_leaf served|]. case_match; [|frame_leaf served]. apply served_portal. apply (frame_bind service_keeps); [apply service_logout|].
    intros. apply (frame_ret service_keeps).
  - unfold _set_guard_mode, or_fault. served_all.
  - unfold _panic, or_fault. served_all.
  - by apply not_elem_of_nil in Hin.
Qed.

Lemma handle_served d q c : served c (handle d q c).2.
Proof.
  unfold Rpc.handle. assert (Hd : framed served (_dispatch repr scrypt parse_entry parse_event d q)).
  { unfold _dispatch. destruct (dget handlers (rq_operation q)) as [h|] eqn:Hh; [|frame_leaf served].
    apply dget_Some_elem in Hh. frame_split served; [by eapply served_handler|frame_leaf served]. }
  specialize (Hd c). by destruct (_dispatch _ _ _ _ d q c).
Qed.

Notation client_handle := (Rpc.portal_handle (B := B) (F := F) casefold repr scrypt exn_str).

Lemma portal_handler_client o h d params : (o, h) ∈ PORTAL_HANDLERS (B := B) (F := F) casefold repr scrypt → framed client_keeps (h d params).
Proof.
  intros Hin. unfold PORTAL_HANDLERS in Hin. repeat (apply elem_of_cons in Hin as [[= -> ->]|Hin]; [|]).
  - intros s. unfold _portal_status. cbn. reflexivity.
  - unfold _portal_login. repeat first [apply client_login | frame_leaf (@client_keeps B F SB FB) | frame_split (@client_keeps B F SB FB)].
  - unfold _portal_keepalive. repeat first [apply client_keepalive | frame_leaf (@client_keeps B F SB FB) | frame_split (@client_keeps B F SB FB)].
  - unfold _portal_logout. repeat first [apply client_logout | frame_leaf (@client_keeps B F SB FB) | frame_split (@client_keeps B F SB FB)].
  - by apply not_elem_of_nil in Hin.
Qed.

Lemma client_handle_keeps d q s : client_keeps s (client_handle d q s).2.
Proof.
  unfold Rpc.portal_handle. destruct (dget (PORTAL_HANDLERS casefold repr scrypt) (rq_operation q)) as [h|] eqn:Hh; [|cbn; reflexivity].
  apply dget_Some_elem in Hh. pose proof (portal_handler_client _ _ d (rq_params q) Hh s) as Hk.
  unfold mbind, m_bind. destruct (h d (rq_params q) s) as [[r|e] s']; exact Hk.
Qed.

(** ** Requests on both sockets *)

Inductive socket := CORE_SOCKET | PORTAL_SOCKET.
Definition call : Type := socket * (draws * RpcRequest).
(** One request; a portal that is disabled has no socket. *)
Definition serve (k : call) (c : C) : option (response * C) :=
  match k.1 with CORE_SOCKET => Some (handle k.2.1 k.2.2 c) | PORTAL_SOCKET => portal_handle k.2.1 k.2.2 c end.
Fixpoint serve_all (ks : list call) (c : C) : list (option response) * C :=
  match ks with
  | [] => ([], c)
  | k :: ks =>
      let '(r, c1) := match serve k c with Some (r, c1) => (Some r, c1) | None => (None, c) end in
      let '(rs, c2) := serve_all ks c1 in (r :: rs, c2)
  end.

Lemma portal_serve_keeps d q (c : C) r c' : portal_handle d q c = Some (r, c') →
  ∃ s s', rp_portal c = Some s ∧ client_keeps (sv_set_manager s (rp_manager c)) s' ∧
    (r, s') = client_handle d q (sv_set_manager s (rp_manager c)) ∧ c' = returned s s' c.
Proof.
  unfold core_portal_handle. destruct (rp_portal c) as [s|]; [|done].
  pose proof (client_handle_keeps d q (sv_set_manager s (rp_manager c))) as Hk.
  destruct (client_handle d q _) as [r0 s'] eqn:Hh. intros [= <- <-]. by exists s, s'.
Qed.

Lemma serve_served k c r c' : serve k c = Some (r, c') → served c c'.
Proof.
  destruct k as [[] [d q]]; cbn.
  - intros [= Hh]. pose proof (handle_served d q c) as Hs. by rewrite Hh in Hs.
  - intros (s & s' & _ & [(Hr & _) _] & _ & ->)%portal_serve_keeps. exact Hr.
Qed.
Lemma serve_all_served ks : ∀ c, served c (serve_all ks c).2.
Proof.
  induction ks as [|k ks IH]; intros c; cbn; [reflexivity|].
  destruct (serve k c) as [[r c1]|] eqn:Hk.
  - specialize (IH c1). destruct (serve_all ks c1) as [rs c2]. cbn in *. etransitivity; [by eapply serve_served|exact IH].
  - specialize (IH c). by destruct (serve_all ks c) as [rs c2].
Qed.

(** Whatever is asked on the two sockets, in whatever order, with whatever
    parameters, the manager remains one that its own methods could have
    reached: its audit trail follows the lifecycle and agrees with the status
    of every rule. *)
Theorem rpc_keeps_the_audit_sound ks c :
  reachable (rp_manager c) →
  let m := rp_manager (serve_all ks c).2 in
  reachable m ∧ audit (m_transitions m) ∧
  (∀ id r, get_rule m id = Some r → fr_id r = id ∧ last_status (m_transitions m) id = Some (fr_status r)).
Proof.
  intros Hr m. assert (Hm : reachable m).
  { pose proof (serve_all_served ks c) as Hs. destruct Hr as (cfg & b & st & sets & res & loc & Hrtc).
    exists cfg, b, st, sets, res, loc. by etrans. }
  split; [done|]. apply reachable_lc in Hm. split; [apply Hm|]. intros id r Hg. by eapply lc_lookup.
Qed.

(** ** The portal's socket *)

(** C19: Whatever the LAN-facing process sends, in any number of requests, it
    changes nothing of the firewall manager but the portal grants its backend
    holds: rules, audit trail, mode, allowlist, rate limiter, decisions and
    the kernel sets stay as they were, and so do the portal accounts and the
    published views.  A request for any other operation, privileged or not,
    is answered as unknown. *)
Theorem portal_socket_is_confined qs c :
  let '(rs, c') := serve_all (pair PORTAL_SOCKET <$> qs) c in
  grants_only (rp_manager c) (rp_manager c') ∧ rp_snapshots c' = rp_snapshots c ∧
  (sv_store <$> rp_portal c') = (sv_store <$> rp_portal c) ∧
  Forall2 (λ p r, rp_portal c = None ∧ r = None ∨
    is_Some r ∧ (rq_operation p.2 ∉ _PORTAL_OPERATIONS → r = Some (unknown_operation (rq_operation p.2)))) qs rs.
Proof.
  revert c. induction qs as [|[d q] qs IH]; intros c; cbn [fmap list_fmap serve_all].
  { split; [reflexivity|]. done. }
  unfold serve. cbn [fst snd]. destruct (portal_handle d q c) as [[r c1]|] eqn:Hh.
  - specialize (IH c1). destruct (serve_all _ c1) as [rs c2]. destruct IH as (IH1 & IH2 & IH3 & IH4).
    apply portal_serve_keeps in Hh as (s & s' & Hp & [(_ & Hg & _) Hst] & Hr & ->). cbn in Hg, Hst, IH1, IH2, IH3.
    split; [by etransitivity|]. split; [done|]. split; [rewrite IH3, Hp; cbn; by rewrite Hst|]. constructor.
    + right. split; [done|]. intros Hop. unfold Rpc.portal_handle in Hr.
      assert (Hd : dget (PORTAL_HANDLERS casefold repr scrypt) (rq_operation q) = None (A := portal_handler (B := B) (F := F))).
      { apply dget_None. exact Hop. }
      rewrite Hd in Hr. cbn in Hr. by injection Hr as -> _.
    + rewrite Hp. eapply Forall2_impl; [exact IH4|]. intros p r' [[Hn _]|H]; [done|by right].
  - specialize (IH c). destruct (serve_all _ c) as [rs c2]. destruct IH as (IH1 & IH2 & IH3 & IH4). repeat (split; [done|]).
    constructor; [|done]. left. split; [|done]. unfold core_portal_handle in Hh. destruct (rp_portal c); [|done].
    by destruct (client_handle d q _).
Qed.

(** ** Reads served without the lock *)

(** The operations core serves outside its lock change nothing, and their
    answers depend on the published views alone, whatever the other threads
    are doing to the rest of the state meanwhile. *)
Theorem lock_free_reads_only_views d q c c2 :
  rq_operation q ∈ LOCK_FREE_OPERATIONS → rp_snapshots c2 = rp_snapshots c →
  (handle d q c).2 = c ∧ (handle d q c2).1 = (handle d q c).1.
Proof.
  intros Hop Hs. destruct q as [o params]. cbn [rq_operation] in Hop.
  unfold LOCK_FREE_OPERATIONS in Hop. repeat (apply elem_of_cons in Hop as [->|Hop]; [|]);
    [..|by apply not_elem_of_nil in Hop].
  all: destruct c as [w m fm p sn l i], c2 as [w2 m2 fm2 p2 sn2 l2 i2]; cbn in Hs; subst sn2;
    destruct sn as [[b [gm|] er off po [es|]]|]; by split.
Qed.

(** ** The dangerous operations are on record *)

Lemma elem_of_deque_append {A} maxlen (d : list A) x : 1 ≤ maxlen → x ∈ deque_append maxlen d x.
Proof.
  intros Hm. unfold deque_append. rewrite length_app. cbn. rewrite drop_app_le by lia. set_solver.
Qed.
Lemma elem_of_deque_older {A} maxlen (d : list A) x y : 2 ≤ maxlen → x ∈ deque_append maxlen (deque_append maxlen d x) y.
Proof.
  intros Hm. unfold deque_append. set (e := drop _ (d ++ [x])). rewrite length_app. cbn. rewrite drop_app_le by lia.
  apply elem_of_app. left. unfold e. rewrite drop_drop, !length_drop, !length_app. cbn. rewrite drop_app_le by lia. set_solver.
Qed.

(** The forwarder never raises, and with room for two events keeps the one it was given. *)
Lemma emit_on_record e w : 2 ≤ st_max_history (fw_state w) →
  ∃ w', emit e w = (Ok tt, w') ∧ e ∈ st_events (fw_state w').
Proof.
  intros Hm. unfold emit, mbind, m_bind, on_store, record_event, mmodify. cbn.
  set (w1 := mk_forwarder _ _ _ _). assert (H1 : e ∈ st_events (fw_state w1)) by (apply elem_of_deque_append; lia).
  unfold _forward. destruct (fw_wazuh w1) as [send|]; [|by eexists].
  destruct (send _ e) as [msg|]; [|by eexists]. unfold _note_forward_failure. cbn.
  destruct (negb _); [by eexists|]. eexists. split; [reflexivity|]. cbn. by apply elem_of_deque_older.
Qed.

Lemma rpc_emit_on_record e (c : C) : 2 ≤ st_max_history (rp_state c) →
  ∃ w', rpc_emit e c = (Ok tt, rp_set_forwarder c w') ∧ e ∈ st_events (fw_state w').
Proof.
  intros Hm. unfold rpc_emit. destruct (emit_on_record e (rp_forwarder c) Hm) as (w' & -> & Hin). by exists w'.
Qed.

Definition on_audit (e : SecurityEvent) (c : C) : Prop := e ∈ st_events (rp_state c).

Lemma kill_switch_response d params c ev m' : 2 ≤ st_max_history (rp_state c) →
  revert_to_base (dw_now d) (rp_manager c) = (Ok ev, m') →
  ∃ c', handle d (mk_request KILL_SWITCH params) c = (mk_response true (Some (DEvent ev)) None, c') ∧ on_audit ev c' ∧ rp_manager c' = m'.
Proof.
  intros Hm Hr. unfold Rpc.handle, _dispatch. cbn [rq_params rq_operation].
  change (dget handlers KILL_SWITCH) with (Some (_kill_switch (B := B) (F := F))).
  unfold _kill_switch, mbind, m_bind, manager. rewrite Hr.
  destruct (rpc_emit_on_record ev (rp_set_manager c m') Hm) as (w & -> & Hin). by eexists.
Qed.

(** The answer to a request that a handler served. *)
Lemma handle_ok d q c r c' : handle d q c = (r, c') → rs_ok r = true →
  ∃ h data, dget handlers (rq_operation q) = Some h ∧ h d (rq_params q) c = (Ok data, c') ∧ r = mk_response true data None.
Proof.
  unfold Rpc.handle, _dispatch. destruct (dget handlers (rq_operation q)) as [h|]; [|by intros [= <- <-]].
  unfold mbind, m_bind. destruct (h d (rq_params q) c) as [[data|e] c1] eqn:Hh.
  - intros [= <- <-] _. by exists h, data.
  - intros [= <- <-]. by destruct e.
Qed.

Lemma try_firewall_ok {S A} (m : M S A) h s a s' : (∀ msg x, (h msg x).1 ≠ Ok a) → try_firewall m h s = (Ok a, s') → m s = (Ok a, s').
Proof.
  intros Hh. unfold try_firewall. destruct (m s) as [[x|[]] s1]; try done. intros Heq. by destruct (Hh msg s1); rewrite Heq.
Qed.

(** What the parameters of a request say. *)
Definition names (params : list (string * json)) (key value : string) : Prop := dget params key = Some (JStr value).
Lemma require_str_names params key s : _require_str params key = Ok s → names params key s.
Proof. unfold _require_str, names. destruct (dget params key) as [[]|]; try done. by intros [= <-]. Qed.
Lemma require_actor_names params actor : _require_actor params = Ok actor →
  ∃ who, names params "actor" who ∧ actor = strip_str who ∧ actor ≠ "".
Proof.
  unfold _require_actor. destruct (_require_str params "actor") as [s|] eqn:Hs; [|done]. cbn. destruct (String.eqb_spec (strip_str s) ""); [done|].
  intros [= <-]. exists s. split; [by apply require_str_names|done].
Qed.
Lemma require_enum_names {E} params key (members : list E) value e :
  _require_enum repr params key members value = Ok e → names params key (value e).
Proof.
  unfold _require_enum. destruct (_require_str params key) as [s|] eqn:Hs; [|done]. cbn. destruct (List.find _ members) as [x|] eqn:Hf; [|done].
  intros [= <-]. apply List.find_some in Hf as [_ Hf]. apply String.eqb_eq in Hf. rewrite Hf. by apply require_str_names.
Qed.

Definition guard_flip (now : Z) (g : GuardName) (mode : GuardMode) (actor : string) : SecurityEvent :=
  event now SEV_WARNING SYSTEM_WARNING ("guard " +:+ guard_value g +:+ " set to " +:+ guard_mode_value mode +:+ " by " +:+ actor).

Lemma set_guard_mode_done d params (c : C) data c' : 2 ≤ st_max_history (rp_state c) →
  _set_guard_mode repr d params c = (Ok data, c') →
  ∃ g mode who modes b', names params "guard" (guard_value g) ∧ names params "mode" (guard_mode_value mode) ∧ names params "actor" who ∧
    strip_str who ≠ "" ∧ on_audit (guard_flip (dw_now d) g mode (strip_str who)) c' ∧
    m_sets (rp_manager c') = Some b' ∧ kv_guard (sb_view b') g = Some mode ∧
    (sn_guard_modes <$> rp_snapshots c') = (const (Some (mk_guard_modes modes (dw_now d))) <$> rp_snapshots c) ∧
    ∀ g', dget modes g' = kv_guard (sb_view b') g'.
Proof.
  intros Hm. unfold _set_guard_mode. intros (g & c1 & [Hg ->]%mlift_ok & Hr)%m_bind_ok.
  apply m_bind_ok in Hr as (mode & c1 & [Hmode ->]%mlift_ok & Hr). apply m_bind_ok in Hr as (actor & c1 & [Ha ->]%mlift_ok & Hr).
  apply m_bind_ok in Hr as (p & c1 & Hf & Hr). apply try_firewall_ok in Hf; [|done].
  apply m_bind_ok in Hf as (ev & c2 & Hset & Hf). apply m_bind_ok in Hf as (modes & c3 & Hread & [= <- <-]).
  unfold manager in Hset, Hread. destruct (set_guard_mode g mode actor (dw_now d) (rp_manager c)) as [r1 m1] eqn:Hs1. injection Hset as -> <-.
  cbn [rp_manager rp_set_manager] in Hread. destruct (guard_modes m1) as [r2 m2] eqn:Hs2. injection Hread as -> <-.
  cbn [fst snd] in Hr. apply m_bind_ok in Hr as ([] & c4 & He & Hr).
  destruct (rpc_emit_on_record ev (rp_set_manager (rp_set_manager c m1) m2) Hm) as (w & Hw & Hin). rewrite Hw in He. injection He as <-.
  apply m_bind_ok in Hr as ([] & c5 & [= <-] & [= _ <-]).
  destruct (require_actor_names _ _ Ha) as (who & Hwho & -> & Hne). apply set_guard_mode_done_spec in Hs1 as (-> & b & Hb & Hk).
  pose proof (guard_modes_spec m1 b Hb) as Hmodes. unfold guard_modes, mbind, m_bind, mget in Hs2, Hmodes. rewrite Hb in Hs2, Hmodes. rewrite Hs2 in Hmodes.
  destruct (read_guards_view all_guards m1 b (Ok modes) m2 Hb Hs2) as (b' & Hb' & (_ & _ & Hv & _)).
  exists g, mode, who, modes, b'. split; [by eapply require_enum_names|]. split; [by eapply require_enum_names|]. split; [done|]. split; [done|].
  split; [exact Hin|]. split; [exact Hb'|]. split; [by rewrite Hv|]. split; [cbn; by destruct (rp_snapshots c)|].
  intros g'. cbn [fst] in Hmodes. by rewrite Hmodes, Hv.
Qed.

Lemma panic_done d params (c : C) data c' : reachable (rp_manager c) → 2 ≤ st_max_history (rp_state c) → _panic d params c = (Ok data, c') →
  ∃ who pr what b', names params "actor" who ∧ strip_str who ≠ "" ∧ data = Some (DPanic pr) ∧ pr_actor pr = strip_str who ∧
    on_audit (event (dw_now d) SEV_CRITICAL SYSTEM_WARNING ("panic by " +:+ strip_str who +:+ ": " +:+ what)) c' ∧
    m_mode (rp_manager c') = MODE_SHADOW ∧ active_rules (rp_manager c') = [] ∧
    m_sets (rp_manager c') = Some b' ∧ (∀ t, t ∈ PANIC_TABLES → kv_table (sb_view b') t = false) ∧
    (sn_guard_modes <$> rp_snapshots c') = (const None <$> rp_snapshots c).
Proof.
  intros Hreach Hm. unfold _panic. intros (actor & c1 & [Ha ->]%mlift_ok & Hr)%m_bind_ok. apply m_bind_ok in Hr as ([pr ev] & c1 & Hf & Hr).
  apply try_firewall_ok in Hf; [|done]. unfold manager in Hf.
  destruct (panic actor (dw_now d) (rp_manager c)) as [r1 m1] eqn:Hp. injection Hf as -> <-.
  cbn [fst snd] in Hr. apply m_bind_ok in Hr as ([] & c4 & He & Hr).
  destruct (rpc_emit_on_record ev (rp_set_manager c m1) Hm) as (w & Hw & Hin). rewrite Hw in He. injection He as <-.
  apply m_bind_ok in Hr as ([] & c5 & [= <-] & [= <- <-]).
  destruct (require_actor_names _ _ Ha) as (who & Hwho & -> & Hne).
  destruct (m_sets (rp_manager c)) as [b|] eqn:Hb; [|unfold panic, mbind, m_bind, mget in Hp; by rewrite Hb in Hp].
  pose proof Hp as [what ->]%panic_event.
  destruct (panic_spec (rp_manager c) b (strip_str who) (dw_now d) (reachable_lc _ Hreach) Hb)
    as (m' & b' & _ & Hb' & [(pr' & ev' & Heq & Hmode & Hact & _ & Hactor & _ & Ht & _)|(msg & Heq & _)]); rewrite Hp in Heq; [|done].
  injection Heq as <- _ <-. exists who, pr, what, b'. do 4 (split; [done|]). split; [exact Hin|]. do 2 (split; [done|]). split; [exact Hb'|].
  split; [intros t Hin'; by rewrite Ht, decide_True|]. cbn. by destruct (rp_snapshots c).
Qed.

Lemma revert_to_base_ok m now : lc m →
  ∃ ev m', revert_to_base now m = (Ok ev, m') ∧ m_mode m' = MODE_SHADOW ∧ active_rules m' = [].
Proof.
  intros Hlc. destruct (m_sets m) as [b|] eqn:Hs.
  - destruct (_kill_switch_sets_spec _ b now Hlc Hs) as (ev & m' & b' & Heq & _ & Hmode & Hact & _).
    exists ev, m'. unfold revert_to_base, mbind, m_bind, mget. by rewrite Hs, Heq.
  - destruct (revert_to_base_v1_spec _ now Hlc Hs) as (ev & m' & Heq & _ & ? & ?). by exists ev, m'.
Qed.

(** C20: The dangerous operations leave their event on the audit trail (which
    keeps two events or more).  The kill switch answers from any reachable
    manager, with the event that is then on record (it carries no actor, as
    the request has none), SHADOW mode and no active rule.  A guard flip that
    is reported done set the guard of the request to the mode of the request
    in the kernel, is on record as done by the actor of the request, and has
    replaced the published modes by the kernel's.  A panic that is reported
    done deleted the v2 tables, is on record under the actor of the request,
    left SHADOW mode with no active rule, and withdrew the published modes. *)
Theorem dangerous_operations_are_audited d q c r c' :
  reachable (rp_manager c) → 2 ≤ st_max_history (rp_state c) → handle d q c = (r, c') →
  match rq_operation q with
  | KILL_SWITCH => ∃ ev, r = mk_response true (Some (DEvent ev)) None ∧ on_audit ev c' ∧
      m_mode (rp_manager c') = MODE_SHADOW ∧ active_rules (rp_manager c') = []
  | SET_GUARD_MODE => rs_ok r = true →
      ∃ g mode who modes b', names (rq_params q) "guard" (guard_value g) ∧ names (rq_params q) "mode" (guard_mode_value mode) ∧
        names (rq_params q) "actor" who ∧ strip_str who ≠ "" ∧
        on_audit (guard_flip (dw_now d) g mode (strip_str who)) c' ∧
        m_sets (rp_manager c') = Some b' ∧ kv_guard (sb_view b') g = Some mode ∧
        (sn_guard_modes <$> rp_snapshots c') = (const (Some (mk_guard_modes modes (dw_now d))) <$> rp_snapshots c) ∧
        ∀ g', dget modes g' = kv_guard (sb_view b') g'
  | PANIC => rs_ok r = true →
      ∃ who pr what b', names (rq_params q) "actor" who ∧ strip_str who ≠ "" ∧ rs_data r = Some (DPanic pr) ∧ pr_actor pr = strip_str who ∧
        on_audit (event (dw_now d) SEV_CRITICAL SYSTEM_WARNING ("panic by " +:+ strip_str who +:+ ": " +:+ what)) c' ∧
        m_mode (rp_manager c') = MODE_SHADOW ∧ active_rules (rp_manager c') = [] ∧
        m_sets (rp_manager c') = Some b' ∧ (∀ t, t ∈ PANIC_TABLES → kv_table (sb_view b') t = false) ∧
        (sn_guard_modes <$> rp_snapshots c') = (const None <$> rp_snapshots c)
  | _ => True
  end.
Proof.
  intros Hreach Hm Hh. destruct q as [o params]. cbn [rq_operation]. destruct o; try done.
  - destruct (revert_to_base_ok (rp_manager c) (dw_now d) (reachable_lc _ Hreach)) as (ev & m' & Hr & Hmode & Hact).
    destruct (kill_switch_response d params c ev m' Hm Hr) as (c1 & Heq & Hon & <-).
    rewrite Heq in Hh. injection Hh as <- <-. by exists ev.
  - intros Hok. destruct (handle_ok _ _ _ _ _ Hh Hok) as (h & data & [= <-] & Hr & ->). by eapply set_guard_mode_done.
  - intros Hok. destruct (handle_ok _ _ _ _ _ Hh Hok) as (h & data & [= <-] & Hr & ->). by eapply panic_done.
Qed.
End Surface.
