(* ===== verification/RpcClient.v ===== *)
(** * The typed RPC client and its transport

    ipc/client.py ([BaseRpcClient], over any [_call]), ipc/loopback.py,
    ipc/_framing.py and the request handling of ipc/server.py.  A method
    builds its parameters, calls, and reads the model back from the data of
    the response; a model read back from its own dump is the same model, and
    data of another shape fails validation.  The bytes on the socket are the
    chunks [recv] returns; the JSON codec is a parameter with its round
    trip. *)

From S2P Require Import Prelude Float Net Models RateLimiter Sets SetBackend Backend Validator Manager Lifecycle Throttle PortalSessions PortalStore PortalService Flow Thresholds Threat Inference Runtime Json Rpc RpcProps.
Local Open Scope Z_scope.

(** ** Reading a connection *)

(** [recv] returns the chunks one by one; an empty one is the end. *)
Fixpoint read_all {A} (chunks : list (list A)) : list A :=
  match chunks with
  | [] | [] :: _ => []
  | chunk :: chunks => chunk ++ read_all chunks
  end.

(** [RpcRequest.model_dump_json] and [model_validate_json], on JSON values:
    no field but these two, the operation one of the closed set. *)
Definition dump_request (q : RpcRequest) : json :=
  JObj [("operation", JStr (operation_value (rq_operation q))); ("params", JObj (rq_params q))].
Definition validate_request (v : json) : option RpcRequest :=
  match v with
  | JObj o =>
      if negb (forallb (λ p, String.eqb p.1 "operation" || String.eqb p.1 "params") o) then None
      else
        operation ← as_str (dget o "operation") ≫= operation_of;
        params ← match dget o "params" with None => Some [] | Some p => as_dict p end;
        Some (mk_request operation params)
  | _ => None
  end.

Lemma operation_round_trip o : operation_of (operation_value o) = Some o.
Proof. by destruct o. Qed.
Lemma request_round_trip q : validate_request (dump_request q) = Some q.
Proof.
  destruct q as [o params]. unfold validate_request, dump_request. cbn [rq_operation rq_params forallb fst].
  change (dget _ "operation") with (Some (JStr (operation_value o))). cbn [as_str mbind option_bind].
  rewrite operation_round_trip. reflexivity.
Qed.

(** However the kernel cuts a payload into chunks, it is read whole. *)
Lemma read_all_whole {A} (chunks : list (list A)) rest : Forall (λ c, c ≠ []) chunks → read_all (chunks ++ [] :: rest) = concat chunks.
Proof. induction 1 as [|c chunks Hc _ IH]; [done|]. cbn. destruct c; [done|]. by rewrite IH. Qed.

(** ** The client *)

Section Client.
Context {S : Type} (_call : RpcOperation → list (string * json) → M S response).

Definition or_failed (error : option string) (o : RpcOperation) : string :=
  match truthy error with Some e => e | None => "RPC call " +:+ operation_value o +:+ " failed" end.
Definition _optional_data (o : RpcOperation) (params : list (string * json)) : M S (option rpc_data) :=
  r ← _call o params;
  if negb (rs_ok r) then mraise (RpcError (or_failed (rs_error r) o)) else mret (rs_data r).
Definition _require_data (o : RpcOperation) (params : list (string * json)) : M S rpc_data :=
  r ← _call o params;
  if negb (rs_ok r) then mraise (RpcError (or_failed (rs_error r) o))
  else match rs_data r with
       | None => mraise (RpcError ("RPC call " +:+ operation_value o +:+ " returned no data"))
       | Some data => mret data
       end.

(** [Model.model_validate(data)] *)
Definition invalid {A} : M S A := mraise (ValueError "validation error").
Definition validated {A} (read : rpc_data → option A) (data : rpc_data) : M S A :=
  match read data with Some a => mret a | None => invalid end.
Definition optional {A} (read : rpc_data → option A) (data : option rpc_data) : M S (option A) :=
  match data with None => mret None | Some data => a ← validated read data; mret (Some a) end.
Definition _require_list {A} (read : rpc_data → option (list A)) (o : RpcOperation) : M S (list A) :=
  data ← _require_data o [];
  match read data with
  | Some l => mret l
  | None => mraise (RpcError ("RPC call " +:+ operation_value o +:+ " did not return a list"))
  end.

Definition as_rule (d : rpc_data) : option FirewallRule := match d with DRule r => Some r | _ => None end.
Definition as_event (d : rpc_data) : option SecurityEvent := match d with DEvent e => Some e | _ => None end.
Definition as_guard_modes (d : rpc_data) : option GuardModes := match d with DGuardModes m => Some m | _ => None end.
Definition as_bool (d : rpc_data) : option bool := match d with DBool b => Some b | _ => None end.
Definition as_user (d : rpc_data) : option (PortalUser * option string) := match d with DUser u g => Some (u, g) | _ => None end.

Definition client_get_status : M S StatusResult :=
  data ← _require_data GET_STATUS []; validated (λ d, match d with DStatus s => Some s | _ => None end) data.
Definition client_get_capture_stats : M S (option CaptureStatistics) :=
  data ← _optional_data GET_CAPTURE_STATS []; optional (λ d, match d with DCapture s => Some s | _ => None end) data.
Definition client_list_flows : M S (list Flow) := _require_list (λ d, match d with DFlows l => Some l | _ => None end) LIST_FLOWS.
Definition client_list_detections : M S (list DetectionRecord) :=
  _require_list (λ d, match d with DDetections l => Some l | _ => None end) LIST_DETECTIONS.
Definition client_list_threats : M S (list ThreatAssessment) :=
  _require_list (λ d, match d with DThreats l => Some l | _ => None end) LIST_THREATS.
Definition client_list_decisions : M S (list FirewallDecision) :=
  _require_list (λ d, match d with DDecisions l => Some l | _ => None end) LIST_DECISIONS.
Definition client_list_rules : M S (list FirewallRule) := _require_list (λ d, match d with DRules l => Some l | _ => None end) LIST_RULES.
Definition client_list_events : M S (list SecurityEvent) := _require_list (λ d, match d with DEvents l => Some l | _ => None end) LIST_EVENTS.
Definition client_list_models : M S (list ModelMetadata) := _require_list (λ d, match d with DModels l => Some l | _ => None end) LIST_MODELS.
Definition client_list_allowlist : M S (list AllowlistEntry) :=
  _require_list (λ d, match d with DAllowlist l => Some l | _ => None end) LIST_ALLOWLIST.

Definition on_rule (o : RpcOperation) (rule_id : string) : M S (option FirewallRule) :=
  data ← _optional_data o [("rule_id", JStr rule_id)]; optional as_rule data.
Definition client_disable_rule : string → M S (option FirewallRule) := on_rule DISABLE_RULE.
Definition client_remove_rule : string → M S (option FirewallRule) := on_rule REMOVE_RULE.
Definition client_approve_rule : string → M S (option FirewallRule) := on_rule APPROVE_RULE.
Definition client_reject_rule : string → M S (option FirewallRule) := on_rule REJECT_RULE.

Definition client_remove_allowlist_entry (entry_id : string) : M S bool :=
  data ← _require_data REMOVE_ALLOWLIST_ENTRY [("entry_id", JStr entry_id)]; validated as_bool data.
(** [model_dump(mode="json")] of an event and of an entry *)
Definition client_record_event (dump_event : SecurityEvent → list (string * json)) (e : SecurityEvent) : M S SecurityEvent :=
  data ← _require_data RECORD_EVENT (dump_event e); validated as_event data.
Definition client_add_allowlist_entry (dump_entry : AllowlistEntry → list (string * json)) (e : AllowlistEntry) : M S AllowlistEntry :=
  data ← _require_data ADD_ALLOWLIST_ENTRY (dump_entry e); validated (λ d, match d with DEntry e _ => Some e | _ => None end) data.
(** [isinstance(data, dict)] *)
Definition is_object (d : rpc_data) : bool :=
  match d with
  | DFlows _ | DDetections _ | DThreats _ | DDecisions _ | DRules _ | DEvents _ | DModels _ | DAllowlist _ | DBool _ | DUsers _
  | DSessions _ | DOffenders _ | DBindings _ => false
  | _ => true
  end.
Definition client_add_allowlist_entry_with_portal_user (dump_entry : AllowlistEntry → list (string * json)) (e : AllowlistEntry)
  (portal_username : option string) : M S rpc_data :=
  let params := match truthy portal_username with
                | Some name => dset (dump_entry e) "portal_username" (JStr name)
                | None => dump_entry e
                end in
  data ← _require_data ADD_ALLOWLIST_ENTRY params;
  if is_object data then mret data else mraise (RpcError "add_allowlist_entry did not return an object").
Definition client_kill_switch : M S SecurityEvent := data ← _require_data KILL_SWITCH []; validated as_event data.
Definition client_get_guard_modes : M S GuardModes := data ← _require_data GET_GUARD_MODES []; validated as_guard_modes data.
Definition client_set_guard_mode (guard : GuardName) (mode : GuardMode) (actor : string) : M S GuardModes :=
  data ← _require_data SET_GUARD_MODE [("guard", JStr (guard_value guard)); ("mode", JStr (guard_mode_value mode)); ("actor", JStr actor)];
  validated as_guard_modes data.
Definition client_panic (actor : string) : M S PanicResult :=
  data ← _require_data PANIC [("actor", JStr actor)]; validated (λ d, match d with DPanic p => Some p | _ => None end) data.
Definition client_list_offenders : M S (list OffenderEntry) :=
  _require_list (λ d, match d with DOffenders l => Some l | _ => None end) LIST_OFFENDERS.
Definition client_list_bindings : M S (list Binding) := _require_list (λ d, match d with DBindings l => Some l | _ => None end) LIST_BINDINGS.
Definition client_get_engine_stats : M S EngineStats :=
  data ← _require_data GET_ENGINE_STATS []; validated (λ d, match d with DEngineStats s => Some s | _ => None end) data.

Definition client_portal_status : M S PortalStatus :=
  data ← _require_data PORTAL_STATUS []; validated (λ d, match d with DPortalStatus s => Some s | _ => None end) data.
Definition client_portal_login (username password : string) (ip : IPv4.t) : M S PortalSession :=
  data ← _require_data PORTAL_LOGIN [("username", JStr username); ("password", JStr password); ("client_ip", JStr (IPv4.to_string ip))];
  validated (λ d, match d with DSession s => Some s | _ => None end) data.
Definition client_portal_keepalive (token : option string) (ip : IPv4.t) : M S PortalClientState :=
  data ← _require_data PORTAL_KEEPALIVE [("token", JStr (default "" token)); ("client_ip", JStr (IPv4.to_string ip))];
  validated (λ d, match d with DClientState s => Some s | _ => None end) data.
Definition client_portal_logout (token : string) (ip : IPv4.t) : M S bool :=
  data ← _require_data PORTAL_LOGOUT [("token", JStr token); ("client_ip", JStr (IPv4.to_string ip))]; validated as_bool data.
Definition client_portal_list_users : M S (list PortalUser) :=
  _require_list (λ d, match d with DUsers l => Some l | _ => None end) PORTAL_LIST_USERS.
Definition client_portal_add_user (username created_by : string) (password : option string) (note : string) : M S (PortalUser * option string) :=
  data ← _require_data PORTAL_ADD_USER
    [("username", JStr username); ("created_by", JStr created_by); ("password", JStr (default "" password)); ("note", JStr note)];
  validated as_user data.
Definition client_portal_set_password (username : string) (password : option string) : M S (PortalUser * option string) :=
  data ← _require_data PORTAL_SET_PASSWORD [("username", JStr username); ("password", JStr (default "" password))]; validated as_user data.
Definition client_portal_remove_user (username : string) : M S bool :=
  data ← _require_data PORTAL_REMOVE_USER [("username", JStr username)]; validated as_bool data.
Definition client_portal_list_sessions : M S (list PortalSession) :=
  _require_list (λ d, match d with DSessions l => Some l | _ => None end) PORTAL_LIST_SESSIONS.
Definition client_portal_force_logout (ip : IPv4.t) : M S bool :=
  data ← _require_data PORTAL_FORCE_LOGOUT [("client_ip", JStr (IPv4.to_string ip))]; validated as_bool data.
End Client.

(** ** The two transports *)

Section Transport.
Context {B F : Type} {SB : SetBackend B} {SBL : SetBackendLaws B} {FB : FirewallBackend F} {FBL : FirewallBackendLaws F}.
Context (repr : string → string) (scrypt : string → list Z → Z → list Z).
Context (parse_entry : list (string * json) → string + AllowlistEntry) (parse_event : list (string * json) → string + SecurityEvent).
Context (exn_str : exn → string).
Notation C := (CoreRpc (B := B) (F := F)).
Notation handle := (handle (B := B) (F := F) repr scrypt parse_entry parse_event exn_str).

(** [LoopbackRpcClient._call] *)
Definition loopback_call (d : draws) (o : RpcOperation) (params : list (string * json)) : M C response := λ c,
  let '(r, c) := handle d (mk_request o params) c in (Ok r, c).

(** The codec of the wire, and how the sockets cut what they carry. *)
Context {byte : Type} (dumps : json → list byte) (loads : list byte → option json).
Context (dump_response : response → list byte) (load_response : list byte → option response).
Context (chop : list byte → list (list byte)).

(** [UnixSocketRpcServer._handle] between [read_all] and [sendall] *)
Definition server_handle (d : draws) (raw : list byte) (c : C) : response * C :=
  match loads raw ≫= validate_request with
  | None => (mk_response false None (Some "invalid request"), c)
  | Some q => handle d q c
  end.
(** [UnixSocketRpcClient._call], when the connection does not fail. *)
Definition socket_call (d : draws) (o : RpcOperation) (params : list (string * json)) : M C response := λ c,
  let '(r, c) := server_handle d (read_all (chop (dumps (dump_request (mk_request o params))) ++ [[]])) c in
  (match load_response (read_all (chop (dump_response r) ++ [[]])) with
   | Some r => Ok r
   | None => Raise (RpcError "malformed response from pirewall-core")
   end, c).

Record wire_ok : Prop := mk_wire_ok {
  wire_json : ∀ v, loads (dumps v) = Some v;
  wire_response : ∀ r, load_response (dump_response r) = Some r;
  wire_chunks : ∀ l, Forall (λ c, c ≠ []) (chop l) ∧ concat (chop l) = l;
}.

Lemma wire_read l rest : wire_ok → read_all (chop l ++ [] :: rest) = l.
Proof. intros Hw. destruct (wire_chunks Hw l) as [Hne Hc]. by rewrite read_all_whole. Qed.

Lemma socket_is_loopback d o params c : wire_ok → socket_call d o params c = loopback_call d o params c.
Proof.
  intros Hw. unfold socket_call, loopback_call, server_handle. rewrite wire_read, wire_json by done. cbn [mbind option_bind].
  rewrite request_round_trip. destruct (handle d _ c) as [r c']. by rewrite wire_read, wire_response.
Qed.

(** ** What an administrator's call does *)

(** The manager's result as the client reports it. *)
Definition remote {A} (o : RpcOperation) (r : result A) : result A :=
  match r with
  | Ok a => Ok a
  | Raise (RpcFault text) => Raise (RpcError (or_failed (Some text) o))
  | Raise e => Raise (RpcError ("internal error handling " +:+ operation_value o +:+ ": " +:+ exn_str e))
  end.
Definition remotely {A} (o : RpcOperation) (f : M (FirewallManager B F) A) : M C A := λ c,
  let '(r, m) := f (rp_manager c) in (remote o r, rp_set_manager c m).

Definition rule_operation (o : RpcOperation) (id : string) (now : Z) : option (M (FirewallManager B F) (option FirewallRule)) :=
  match o with
  | DISABLE_RULE => Some (disable_rule id now)
  | REMOVE_RULE => Some (remove_rule id now)
  | APPROVE_RULE => Some (r ← approve_pending id now; mret (r ≫= sr_rule))
  | REJECT_RULE => Some (reject_pending id now)
  | _ => None
  end.

Notation handlers := (_HANDLERS (B := B) (F := F) repr scrypt parse_entry parse_event).

(** A handler that is one call of the manager answers with its result. *)
Lemma loopback_manager {A} d o params h (f : M (FirewallManager B F) A) (g : A → option rpc_data) (c : C) :
  dget handlers o = Some h → h d params c = (a ← manager f; mret (g a)) c →
  loopback_call d o params c =
    (let '(r, m) := f (rp_manager c) in
     (Ok (match r with
          | Ok a => mk_response true (g a) None
          | Raise (RpcFault text) => mk_response false None (Some text)
          | Raise e => internal_error exn_str o e
          end), rp_set_manager c m)).
Proof.
  intros Hh Hr. unfold loopback_call, Rpc.handle, _dispatch. cbn [rq_operation rq_params]. rewrite Hh.
  unfold mbind at 1, m_bind at 1. rewrite Hr. unfold mbind, m_bind, manager.
  destruct (f (rp_manager c)) as [[a|e] m]; [done|]. by destruct e.
Qed.

Lemma on_rule_remote d o id f c : rule_operation o id (dw_now d) = Some f →
  on_rule (loopback_call d) o id c = remotely o f c.
Proof.
  intros Hf. unfold on_rule, _optional_data, remotely.
  assert (Hl : loopback_call d o [("rule_id", JStr id)] c =
    (let '(r, m) := f (rp_manager c) in
     (Ok (match r with
          | Ok a => mk_response true (DRule <$> a) None
          | Raise (RpcFault text) => mk_response false None (Some text)
          | Raise e => internal_error exn_str o e
          end), rp_set_manager c m))).
  { destruct o; try done; injection Hf as <-; (eapply (loopback_manager _ _ _ _ _ (fmap DRule)); [reflexivity|]); try reflexivity.
    change (_approve_rule d [("rule_id", JStr id)] c) with
      ((r ← manager (approve_pending id (dw_now d)); mret (DRule <$> (r ≫= sr_rule))) c).
    unfold mbind at 1 4, m_bind, mret, m_ret, manager, mbind, m_bind. by destruct (approve_pending id (dw_now d) (rp_manager c)) as [[r|e] m]. }
  unfold mbind, m_bind. rewrite Hl. destruct (f (rp_manager c)) as [[[r|]|e] m]; [done|done|]. by destruct e.
Qed.

Lemma remove_entry_remote d id c :
  client_remove_allowlist_entry (loopback_call d) id c = remotely REMOVE_ALLOWLIST_ENTRY (remove_allowlist_entry id) c.
Proof.
  unfold client_remove_allowlist_entry, _require_data, remotely, mbind, m_bind.
  rewrite (loopback_manager d REMOVE_ALLOWLIST_ENTRY [("entry_id", JStr id)] _ (remove_allowlist_entry id) (λ b, Some (DBool b)) c)
    by reflexivity.
  destruct (remove_allowlist_entry id (rp_manager c)) as [[b|e] m]; [done|]. by destruct e.
Qed.

(** C30: Over a wire that carries what it is given, however it is cut, the
    administrator's client does to the firewall exactly what the manager's
    own methods do, and returns their results: disabling, removing, approving
    and rejecting a rule, removing an allowlist entry and the kill switch.
    An exception arrives as an [RpcError], never as a result. *)
Theorem client_calls_are_manager_calls d c : wire_ok →
  (∀ o id f, rule_operation o id (dw_now d) = Some f → on_rule (socket_call d) o id c = remotely o f c) ∧
  (∀ id, client_remove_allowlist_entry (socket_call d) id c = remotely REMOVE_ALLOWLIST_ENTRY (remove_allowlist_entry id) c) ∧
  (client_list_rules (socket_call d) c = (Ok (all_rules (rp_manager c)), c)) ∧
  (∀ ev m, 2 ≤ st_max_history (rp_state c) → revert_to_base (dw_now d) (rp_manager c) = (Ok ev, m) →
     ∃ c', client_kill_switch (socket_call d) c = (Ok ev, c') ∧ rp_manager c' = m).
Proof.
  intros Hw. assert (Hs : ∀ o params c, socket_call d o params c = loopback_call d o params c) by (intros; by apply socket_is_loopback).
  split; [|split; [|split]].
  - intros o id f Hf. rewrite <- (on_rule_remote d o id f c Hf). unfold on_rule, _optional_data, mbind, m_bind. by rewrite Hs.
  - intros id. rewrite <- (remove_entry_remote d id c). unfold client_remove_allowlist_entry, _require_data, mbind, m_bind. by rewrite Hs.
  - unfold client_list_rules, _require_list, _require_data, mbind, m_bind. by rewrite Hs.
  - intros ev m Hm Hr. destruct (kill_switch_response repr scrypt parse_entry parse_event exn_str d [] c ev m Hm Hr) as (c' & Hh & _ & Hmgr).
    exists c'. split; [|done]. unfold client_kill_switch, _require_data, mbind, m_bind. rewrite Hs. unfold loopback_call. by rewrite Hh.
Qed.
End Transport.
