(* ===== verification/ControlApi.v ===== *)
(** * The administrator's sessions and the Admin PC restriction (api/auth.py)

    Session tokens are opaque strings drawn by the caller; the two dictionaries
    of [SessionStore] are insertion-ordered.  [_is_loopback] reads both
    families of addresses, as [ipaddress.ip_address] does. *)

From S2P Require Import Prelude Float Net Hex Models RateLimiter PortalStore.
Local Open Scope Z_scope.

(** ** Loopback *)

(** [ipaddress.IPv6Address(text)._ip] *)
Module IPv6.
Definition parse_hextet (w : list ascii) : option Z :=
  match w with
  | [] => None
  | _ => if negb (forallb Mac.is_hex w) then None else if (4 <? length w)%nat then None
         else Some (foldl (λ acc c, acc * 16 + Mac.hex_val c) 0 w)
  end.
Definition hextets (ws : list (list ascii)) : option Z :=
  foldl (λ acc w, v ← acc; h ← parse_hextet w; Some (v * 65536 + h)) (Some 0) ws.

(** The inner positions that are empty *)
Definition skips (parts : list (list ascii)) : list nat :=
  filter (λ i, parts !! i = Some []) (seq 1 (length parts - 2)).

(** The parts before and after the [::], less the empty ones at the ends *)
Definition ends (parts : list (list ascii)) (skip : nat) : option (list (list ascii) * list (list ascii)) :=
  let hi := take skip parts in
  let lo := drop (S skip) parts in
  hi ← match hi with [] :: hi' => if bool_decide (hi' = []) then Some [] else None | _ => Some hi end;
  lo ← match reverse lo with [] :: lo' => if bool_decide (lo' = []) then Some [] else None | _ => Some lo end;
  if (8 <=? length hi + length lo)%nat then None else Some (hi, lo).

Definition of_parts (parts : list (list ascii)) : option Z :=
  if (9 <? length parts)%nat then None
  else match skips parts with
       | [] =>
           if negb (length parts =? 8)%nat then None
           else if bool_decide (head parts = Some []) || bool_decide (last parts = Some []) then None
           else hextets parts
       | [skip] =>
           '(hi, lo) ← ends parts skip;
           h ← hextets hi; l ← hextets lo; Some (h * 65536 ^ (8 - Z.of_nat (length hi)) + l)
       | _ => None
       end.

Definition hextet_chars (n : Z) : list ascii := (λ d, hex_digit d) <$> [n / 4096; n / 256 mod 16; n / 16 mod 16; n mod 16].
Definition parse_chars (l : list ascii) : option Z :=
  let parts := split_on ":"%char l in
  if (length parts <? 3)%nat then None
  else match last parts with
       | Some w =>
           if inb "."%char w
           then v ← IPv4.parse_chars w;
                of_parts (take (length parts - 1) parts ++ [hextet_chars (Z.land (Z.shiftr v 16) 65535); hextet_chars (Z.land v 65535)])
           else of_parts parts
       | None => None
       end.

(** [_split_scope_id] and the constructor *)
Definition parse (s : string) : option Z :=
  let l := string_to_list s in
  if inb "/"%char l then None
  else match split_on "%"%char l with
       | [addr] => parse_chars addr
       | [addr; scope] => if bool_decide (scope = []) then None else parse_chars addr
       | _ => None
       end.
Definition is_loopback (a : Z) : bool := a =? 1.
End IPv6.

(** Fails closed on text that is no address. *)
Definition _is_loopback (client_host : string) : bool :=
  match IPv4.parse client_host with
  | Some a => IPv4.is_loopback a
  | None => match IPv6.parse client_host with Some a => IPv6.is_loopback a | None => false end
  end.

Example loopbacks : _is_loopback <$> ["127.0.0.1"; "127.255.255.255"; "::1"; "0:0:0:0:0:0:0:1"; "::0.0.0.1"; "::1%eth0"; "0::0:1"] = repeat true 7.
Proof. vm_compute. reflexivity. Qed.
Example not_loopbacks : _is_loopback <$> ["128.0.0.1"; "localhost"; ""; "::"; "::1/128"; "::1%"; ":1"; "1::"; "::2"; "0:0:0:0:0:0:0:0:1"; "::ffff:127.0.0.1"; "127.1"; "1:::1"] = repeat false 13.
Proof. vm_compute. reflexivity. Qed.

(** ** Sessions *)

Record AdminSession : Type := mk_admin_session {
  as_token : string;
  as_username : string;
  as_issued_at : Z;
  as_expires_at : Z;
}.

(** [None] for the idle timeout disables it. *)
Record AdminSessions : Type := mk_admin_sessions {
  ss_token_expiry_seconds : Z;
  ss_idle_timeout : option Z;
  ss_sessions : list (string * AdminSession);
  ss_last_used : list (string * Z);
}.
Definition new_admin_sessions (token_expiry_seconds : Z) (idle_timeout_seconds : option Z) : AdminSessions :=
  mk_admin_sessions token_expiry_seconds (seconds <$> idle_timeout_seconds) [] [].
Definition ss_with (s : AdminSessions) (sessions : list (string * AdminSession)) (last_used : list (string * Z)) : AdminSessions :=
  mk_admin_sessions (ss_token_expiry_seconds s) (ss_idle_timeout s) sessions last_used.

Definition session_create (token username : string) (now : Z) : M AdminSessions AdminSession := λ s,
  let session := mk_admin_session token username now (now + seconds (ss_token_expiry_seconds s)) in
  (Ok session, ss_with s (dset (ss_sessions s) token session) (dset (ss_last_used s) token now)).

Definition session_invalidate (token : string) : M AdminSessions unit :=
  mmodify (λ s, ss_with s (dpop (ss_sessions s) token) (dpop (ss_last_used s) token)).

Definition idle_expired (s : AdminSessions) (last_used now : Z) : bool :=
  match ss_idle_timeout s with Some t => t <=? now - last_used | None => false end.
Definition session_validate (token : string) (now : Z) : M AdminSessions (option AdminSession) := λ s,
  match dget (ss_sessions s) token with
  | None => (Ok None, s)
  | Some session =>
      let last_used := default (as_issued_at session) (dget (ss_last_used s) token) in
      if (as_expires_at session <=? now) || idle_expired s last_used now
      then (_ ← session_invalidate token; mret None) s
      else (Ok (Some session), ss_with s (ss_sessions s) (dset (ss_last_used s) token now))
  end.

(** ** The authenticator *)

Record Credentials : Type := mk_credentials { cr_admin_username : string; cr_admin_password_hash : string }.

(** [hmac.compare_digest] on two strings: both must be ASCII. *)
Definition is_ascii (s : string) : bool := forallb (λ c, (nat_of_ascii c <? 128)%nat) (string_to_list s).
Definition compare_digest (a b : string) : result bool :=
  if is_ascii a && is_ascii b then Ok (String.eqb a b) else Raise TypeError.

Section Authenticator.
Context (scrypt : string → list Z → Z → list Z) (c : Credentials).

Definition admin_login (token username password : string) (now : Z) : M AdminSessions AdminSession :=
  username_ok ← mlift (compare_digest username (cr_admin_username c));
  let password_ok := verify_password scrypt password (cr_admin_password_hash c) in
  if negb (username_ok && password_ok) then mraise (AuthenticationError "invalid username or password")
  else session_create token username now.
Definition confirm_password (password : string) : bool := verify_password scrypt password (cr_admin_password_hash c).
Definition authenticate (token : string) (now : Z) : M AdminSessions AdminSession :=
  session ← session_validate token now;
  match session with None => mraise (AuthenticationError "invalid or expired session") | Some session => mret session end.
Definition admin_logout (token : string) : M AdminSessions unit := session_invalidate token.
End Authenticator.

(** ** The Admin PC *)

Definition restricted (admin_pc_ip : string) : exn :=
  AuthenticationError ("administrative access is restricted to the configured Admin PC (" +:+ admin_pc_ip +:+ ")").
Definition enforce_admin_pc_ip (client_host : option string) (admin_pc_ip : string) (restrict allow_local_console : bool)
  (server_host expected_server_address : option string) : result unit :=
  if negb restrict then Ok tt
  else match client_host with
       | None => Raise (restricted admin_pc_ip)
       | Some host =>
           if allow_local_console && _is_loopback host then Ok tt
           else if negb (String.eqb host admin_pc_ip) then Raise (restricted admin_pc_ip)
           else match expected_server_address with
                | Some expected =>
                    if bool_decide (server_host = Some expected) then Ok tt
                    else Raise (AuthenticationError ("administrative access is restricted to the admin interface (" +:+ expected +:+ ")"))
                | None => Ok tt
                end
       end.

(** Who is let in: the Admin PC, on the expected local address where one is
    set, and a loopback client where the local console is allowed. *)
Lemma enforce_admin_pc_iff client admin restrict console server expected :
  enforce_admin_pc_ip client admin restrict console server expected = Ok tt ↔
  restrict = false ∨
  (∃ host, client = Some host ∧
    ((console = true ∧ _is_loopback host = true) ∨ (host = admin ∧ (expected = None ∨ server = expected)))).
Proof.
  unfold enforce_admin_pc_ip. destruct restrict; cbn [negb]; [|split; [by left|done]]. destruct client as [host|].
  2:{ split; [done|]. intros [|(? & ? & _)]; done. }
  destruct (console && _is_loopback host) eqn:Hc.
  { apply andb_prop in Hc as [-> ?]. split; [|done]. intros _. right. exists host. split; [done|]. left. done. }
  assert (Hnc : ¬ (console = true ∧ _is_loopback host = true)) by (intros [-> Hl]; by rewrite Hl in Hc).
  destruct (String.eqb_spec host admin) as [->|Hne]; cbn [negb].
  - destruct expected as [e|]; [case_bool_decide as Hs|].
    + split; [|done]. intros _. right. exists admin. split; [done|]. right. split; [done|]. by right.
    + split; [done|]. intros [|(h & [= <-] & [?|(_ & [?|?])])]; try done; congruence.
    + split; [|done]. intros _. right. exists admin. split; [done|]. right. split; [done|]. by left.
  - split; [done|]. intros [|(h & [= <-] & [?|(? & _)])]; done.
Qed.

(** * The administrator's API (api/app.py, api/routes/, api/schemas.py, web/routes.py)

    One request at a time: the dependencies of the router it is included with
    ([require_admin_pc], [require_session]), the validation of its path and
    body, and the route itself, which reaches pirewall-core only through the
    client of [RpcClient], over any [_call].  The state is the session table,
    the login throttle and whatever the other end of the socket is; the calls
    a request makes are recorded beside it.

    FastAPI decodes a body and checks its types; what reaches here is a body
    of the schema's types, or none when it was refused, and the constraints
    of api/schemas.py are checked here.  The HTML of web/render.py is not
    modelled: a page is the data fetched for it. *)

From S2P Require Import Sets SetBackend Backend Validator Manager Lifecycle Throttle PortalSessions PortalService Flow Thresholds Threat Inference Runtime Json NftRules Rpc RpcProps RpcClient.
Local Open Scope Z_scope.

(** ** Bodies (api/schemas.py) *)

Definition between (lo hi : nat) (s : string) : bool := (lo <=? String.length s)%nat && (String.length s <=? hi)%nat.
Definition nonempty (s : string) : bool := negb (String.eqb s "").
(** [^[A-Za-z0-9._-]+$], on a string of the right length; pydantic's [$] is
    the end of the text. *)
Definition name_char (c : ascii) : bool :=
  let n := nat_of_ascii c in
  ((65 <=? n)%nat && (n <=? 90)%nat) || ((97 <=? n)%nat && (n <=? 122)%nat) || ((48 <=? n)%nat && (n <=? 57)%nat) || inb c ["."%char; "_"%char; "-"%char].
Definition portal_name (s : string) : bool := between 1 64 s && forallb name_char (string_to_list s).

Record LoginRequest : Type := mk_login_request { lr_username : string; lr_password : string }.
Definition login_body_ok (b : LoginRequest) : bool := nonempty (lr_username b) && nonempty (lr_password b).

Record AllowlistCreateRequest : Type := mk_allowlist_request {
  aq_target : IPv4.network;
  aq_mac : option Mac.t;
  aq_port : option Z;
  aq_protocol : option Protocol;
  aq_reason : string;
  aq_password : string;
  aq_portal_username : option string;
}.
Definition _HOST_PREFIX_LENGTH : Z := 32.
Definition _single_host (n : IPv4.network) : bool := IPv4.prefixlen n =? _HOST_PREFIX_LENGTH.
(** [_reason_not_blank]: the stripped reason *)
Definition _reason_not_blank (reason : string) : option string :=
  let stripped := strip_str reason in if nonempty stripped then Some stripped else None.
(** The body as the route sees it *)
Definition allowlist_body (b : AllowlistCreateRequest) : option AllowlistCreateRequest :=
  if _single_host (aq_target b) && from_option (λ m, bool_decide (Mac.unicast m)) true (aq_mac b) &&
     from_option (λ p, (0 <=? p) && (p <=? 65535)) true (aq_port b) && nonempty (aq_reason b) && nonempty (aq_password b) &&
     from_option portal_name true (aq_portal_username b)
  then reason ← _reason_not_blank (aq_reason b);
       Some (mk_allowlist_request (aq_target b) (aq_mac b) (aq_port b) (aq_protocol b) reason (aq_password b) (aq_portal_username b))
  else None.

Record GuardModeRequest : Type := mk_guard_request { gr_mode : GuardMode; gr_password : option string }.
Definition guard_body_ok (b : GuardModeRequest) : bool := from_option nonempty true (gr_password b).

Record PortalUserCreateRequest : Type := mk_portal_user_request { pq_username : string; pq_password : option string; pq_note : string }.
Definition portal_body_ok (b : PortalUserCreateRequest) : bool :=
  portal_name (pq_username b) && from_option nonempty true (pq_password b) && between 0 200 (pq_note b).

(** ** Routes *)

Inductive api_route : Type :=
| Health
| Login (body : option LoginRequest)
| Logout
| GetStatus | GetCaptureStats | ListFlows | ListDetections | ListThreats | ListDecisions | ListRules | ListEvents | ListModels
| GetConfig
| StreamEvents
| DisableRule (rule_id : string) | RemoveRule (rule_id : string) | ApproveRule (rule_id : string) | RejectRule (rule_id : string)
| ListAllowlist
| AddAllowlistEntry (body : option AllowlistCreateRequest)
| RemoveAllowlistEntry (entry_id : string)
| KillSwitch
| GetGuardModes
| SetGuardMode (guard : option GuardName) (body : option GuardModeRequest)
| Panic (confirm : option string)
| ListOffenders | ListBindings | GetEngineStats
| ListUsers
| AddUser (body : option PortalUserCreateRequest)
| ResetPassword (username : string)
| RemoveUser (username : string)
| ListSessions
| ForceLogout (client_ip : string)
| LoginPage
| Dashboard (page : string).

(** The dependencies of the routers, as [create_app] includes them *)
Inductive access := Public | AdminPcOnly | Protected.
Definition access_of (r : api_route) : access :=
  match r with
  | Health => Public
  | Login _ | LoginPage => AdminPcOnly
  | _ => Protected
  end.

Record api_request : Type := mk_api_request {
  hq_route : api_route;
  hq_client_host : option string;
  hq_server_host : option string;
  hq_authorization : option string;   (** the header *)
  hq_cookie : option string;          (** the cookie [pirewall_session] *)
}.

(** What a request draws: the clock of the dependency and of the route, and
    the random values. *)
Record api_draws : Type := mk_api_draws { ad_auth_now : Z; ad_now : Z; ad_token : string; ad_entry_id : string }.

(** [V2PanelState] of web/v2_panel.py *)
Record V2PanelState : Type := mk_v2_panel {
  vp_guards : option GuardModes;
  vp_guards_error : option string;
  vp_offenders : list OffenderEntry;
  vp_bindings : list Binding;
  vp_engine : option EngineStats;
  vp_errors : list string;
}.
(** What [render_dashboard] is given *)
Record page_data : Type := mk_page {
  pg_status : StatusResult;
  pg_rules : list FirewallRule;
  pg_events : list SecurityEvent;
  pg_threats : list ThreatAssessment;
  pg_models : list ModelMetadata;
  pg_allowlist : list AllowlistEntry;
  pg_capture_stats : option CaptureStatistics;
  pg_detections : list DetectionRecord;
  pg_portal : option (list PortalUser * list PortalSession);
  pg_v2 : V2PanelState;
  pg_page : string;
}.

Inductive api_body : Type :=
| BMessage (message : string)
| BLogin (token : string) (expires_at : Z)
| BData (d : option rpc_data)
| BConfig (config : list (string * json))
| BPage (p : page_data)
| BLoginPage
| BStream        (** the [StreamingResponse] over [event_source] *)
| BDetail (detail : string).
(** The cookie a response sets or deletes *)
Inductive cookie_change := NoCookie | SetCookie (token : string) (expires : Z) | DeleteCookie.
Record http : Type := mk_http { ht_status : Z; ht_headers : list (string * string); ht_cookie : cookie_change; ht_body : api_body }.
Definition ok_http (b : api_body) : http := mk_http 200 [] NoCookie b.

(** ** Redaction (api/routes/config.py) *)

Definition _REDACTION_PLACEHOLDER : json := JStr "***redacted***".
Definition _REDACTED_FIELDS : list (string * string) :=
  [("authentication", "admin_password_hash"); ("api", "tls_cert_path"); ("api", "tls_key_path");
   ("integration", "wazuh_host"); ("integration", "netdata_host")].
Definition redact_field (dumped : list (string * json)) (f : string * string) : list (string * json) :=
  match dget dumped f.1 with
  | Some (JObj section) =>
      match dget section f.2 with
      | Some JNull | None => dumped
      | Some _ => dset dumped f.1 (JObj (dset section f.2 _REDACTION_PLACEHOLDER))
      end
  | _ => dumped
  end.
Definition redact (dumped : list (string * json)) : list (string * json) := foldl redact_field dumped _REDACTED_FIELDS.

(** ** The application *)

Record ApiConfig : Type := mk_api_config {
  cf_credentials : Credentials;
  cf_token_expiry_seconds : Z;
  cf_session_timeout_seconds : option Z;
  cf_authentication : AuthenticationConfig;
  cf_admin_pc_ip : IPv4.t;
  cf_allow_local_console : bool;
  cf_restrict_to_admin_pc : bool;
  cf_admin_server_address : option IPv4.t;
  cf_dump : list (string * json);      (** [config.model_dump(mode="json")] *)
}.

Definition admitted (c : ApiConfig) (q : api_request) : result unit :=
  enforce_admin_pc_ip (hq_client_host q) (IPv4.to_string (cf_admin_pc_ip c)) (cf_restrict_to_admin_pc c) (cf_allow_local_console c)
    (hq_server_host q) (IPv4.to_string <$> cf_admin_server_address c).

Definition _extract_token (q : api_request) : option string :=
  match hq_authorization q with
  | Some header => if String.prefix "bearer " (str_lower header) then Some (string_of_list (drop 7 (string_to_list header))) else hq_cookie q
  | None => hq_cookie q
  end.

(** [raise HTTPException(status_code=..., detail=...)] *)
Definition refuse {S A} (status : Z) (detail : string) : M S A := mraise (HTTPException status detail []).
Definition unprocessable {S A} : M S A := refuse 422 "validation error".
(** An [AuthenticationError] becomes the HTTP status *)
Definition auth_as {S A} (status : Z) (m : M S A) : M S A := λ s,
  match m s with
  | (Raise (AuthenticationError msg), s') => (Raise (HTTPException status msg []), s')
  | x => x
  end.

Section Api.
Context (scrypt : string → list Z → Z → list Z) (repr : string → string).
Context (dump_entry : AllowlistEntry → list (string * json)) (dump_event : SecurityEvent → list (string * json)).
Context {C : Type} (_call : RpcOperation → list (string * json) → M C response).
Context (c : ApiConfig).

(** The other end, and the calls made to it *)
Definition wire : Type := C * list (RpcOperation * list (string * json)).
Definition recorded_call (o : RpcOperation) (params : list (string * json)) : M wire response := λ w,
  let '(r, core) := _call o params w.1 in (r, (core, w.2 ++ [(o, params)])).

(** [app.state] *)
Definition app : Type := AdminSessions * (AdminLoginThrottle * wire).
Definition new_sessions : AdminSessions := new_admin_sessions (cf_token_expiry_seconds c) (cf_session_timeout_seconds c).
Definition with_sessions {A} (m : M AdminSessions A) : M app A := λ s, let '(r, x) := m s.1 in (r, (x, s.2)).
Definition with_admin {A} (m : M (AdminLoginThrottle * wire) A) : M app A := λ s, let '(r, x) := m s.2 in (r, (s.1, x)).
Definition with_throttle {A} (m : M AdminLoginThrottle A) : M app A := with_admin (on_throttle m).
Definition rpc {A} (m : M wire A) : M app A := with_admin (on_rpc m).

Notation record_event := (λ e, _ ← client_record_event recorded_call dump_event e; mret tt).

(** *** Dependencies *)

Definition require_admin_pc (q : api_request) : M app unit := auth_as 403 (mlift (admitted c q)).
Definition require_session (q : api_request) (d : api_draws) : M app AdminSession :=
  match _extract_token q with
  | None => refuse 401 "missing session token"
  | Some token => auth_as 401 (with_sessions (authenticate token (ad_auth_now d)))
  end.

(** *** Routes *)

(** The [try] of the route and what follows it *)
Definition login_attempt (b : LoginRequest) (client_host : option string) (now : Z) (d : api_draws) : M app http := λ s,
       match with_sessions (admin_login scrypt (cf_credentials c) (ad_token d) (lr_username b) (lr_password b) now) s with
       | (Raise (AuthenticationError msg), s) =>
           (_ ← with_admin (record_failed_authentication record_event client_host now ("login failed for username " +:+ repr (lr_username b)));
            refuse 401 msg) s
       | (Raise e, s) => (Raise e, s)
       | (Ok session, s) =>
           (_ ← with_throttle (admin_clear client_host);
            mret (mk_http 200 [] (SetCookie (as_token session) (as_expires_at session)) (BLogin (as_token session) (as_expires_at session)))) s
       end.
Definition route_login (b : LoginRequest) (q : api_request) (d : api_draws) : M app http :=
  let now := ad_now d in
  let client_host := hq_client_host q in
  _ ← with_throttle (refuse_if_locked_out client_host now);
  login_attempt b client_host now d.

Definition route_logout (session : AdminSession) : M app http :=
  _ ← with_sessions (admin_logout (as_token session));
  mret (mk_http 200 [] DeleteCookie (BMessage "logged out")).

Definition reading_route {A} (m : M wire A) (f : A → rpc_data) : M app http := a ← rpc m; mret (ok_http (BData (Some (f a)))).

Definition _or_404 (m : M wire (option FirewallRule)) : M app http :=
  r ← rpc m;
  match r with
  | None => refuse 404 "rule not found or not in an actionable state"
  | Some r => mret (ok_http (BData (Some (DRule r))))
  end.

(** The two re-confirmations of the password *)
Definition reconfirm (password : string) (client_host : option string) (now : Z) (what : string) : M app unit :=
  if confirm_password scrypt (cf_credentials c) password then mret tt
  else _ ← with_admin (record_failed_authentication record_event client_host now what);
       refuse 403 "password confirmation failed".

(** [AllowlistEntry(...)] *)
Definition new_entry (e : AllowlistEntry) : result AllowlistEntry :=
  if allowlist_check e && nonempty (al_reason e) && nonempty (al_created_by e) then Ok e else Raise (ValueError "validation error").
Definition allow_event (now : Z) (e : AllowlistEntry) (session : AdminSession) : SecurityEvent :=
  let scope := match al_port e with None => "" | Some p => " port " +:+ str_Z p end in
  let device := match al_mac e with None => "" | Some m => " (" +:+ m +:+ ")" end in
  mk_event now SEV_WARNING FIREWALL_ALLOW "api.allowlist" None None None
    (Some ("allowlist entry added for " +:+ network_str (al_target e) +:+ device +:+ scope +:+ " by " +:+ repr (as_username session) +:+ ": " +:+
           al_reason e +:+ " (exempt from every adaptive rule)")).
Definition route_add_allowlist_entry (b : AllowlistCreateRequest) (q : api_request) (d : api_draws) (session : AdminSession) : M app http :=
  let now := ad_now d in
  let client_host := hq_client_host q in
  _ ← with_throttle (refuse_if_locked_out client_host now);
  _ ← reconfirm (aq_password b) client_host now
        ("password re-confirmation failed for an allowlist addition by " +:+ repr (as_username session));
  entry ← mlift (new_entry (mk_allow (ad_entry_id d) (aq_target b) (aq_port b) (aq_protocol b) (aq_reason b) now (as_username session) (aq_mac b)));
  created ← rpc (client_add_allowlist_entry_with_portal_user recorded_call dump_entry entry (aq_portal_username b));
  _ ← rpc (record_event (allow_event now entry session));
  mret (ok_http (BData (Some created))).
Definition route_remove_allowlist_entry (entry_id : string) : M app http :=
  removed ← rpc (client_remove_allowlist_entry recorded_call entry_id);
  if negb removed then refuse 404 "allowlist entry not found" else mret (ok_http (BMessage "removed")).

Definition route_set_guard_mode (guard : GuardName) (b : GuardModeRequest) (q : api_request) (d : api_draws) (session : AdminSession) : M app http :=
  _ ← (if bool_decide (gr_mode b = ENFORCE)
       then let now := ad_now d in
            let client_host := hq_client_host q in
            _ ← with_throttle (refuse_if_locked_out client_host now);
            match gr_password b with
            | None => refuse 422 "switching a guard to enforce needs the admin password again"
            | Some password =>
                reconfirm password client_host now
                  ("password re-confirmation failed for guard " +:+ guard_value guard +:+ " -> enforce by " +:+ repr (as_username session))
            end
       else mret tt);
  reading_route (client_set_guard_mode recorded_call guard (gr_mode b) (as_username session)) DGuardModes.

Definition route_force_logout (client_ip : string) : M app http :=
  match IPv4.parse client_ip with
  | None => refuse 400 ("invalid client address: " +:+ repr client_ip)
  | Some ip =>
      ended ← rpc (client_portal_force_logout recorded_call ip);
      if negb ended then refuse 404 "no active session for that address" else mret (ok_http (BMessage "disconnected"))
  end.
Definition route_add_user (b : PortalUserCreateRequest) (session : AdminSession) : M app http :=
  reading_route (client_portal_add_user recorded_call (pq_username b) (as_username session) (pq_password b) (pq_note b)) (λ r, DUser r.1 r.2).
Definition route_remove_user (username : string) : M app http :=
  removed ← rpc (client_portal_remove_user recorded_call username);
  if negb removed then refuse 404 "portal user not found" else mret (ok_http (BMessage "removed")).

(** *** Pages (web/routes.py) *)

(** [try: ... except RpcError as exc] *)
Definition or_rpc_error {A} (m : M wire A) (h : string → A) : M app A := λ s,
  match rpc m s with (Raise (RpcError msg), s') => (Ok (h msg), s') | x => x end.
Definition offenders_and_bindings : M app (list OffenderEntry * list Binding * list string) := λ s,
  match rpc (client_list_offenders recorded_call) s with
  | (Raise (RpcError msg), s) => (Ok ([], [], ["v2 status unavailable: " +:+ msg]), s)
  | (Raise e, s) => (Raise e, s)
  | (Ok offenders, s) =>
      or_rpc_error (l ← client_list_bindings recorded_call; mret (offenders, l, [])) (λ msg, (offenders, [], ["v2 status unavailable: " +:+ msg])) s
  end.
Definition _v2_state : M app V2PanelState :=
  guards ← or_rpc_error (g ← client_get_guard_modes recorded_call; mret (Some g, None)) (λ msg, (None, Some msg));
  both ← offenders_and_bindings;
  engine ← or_rpc_error (e ← client_get_engine_stats recorded_call; mret (Some e, [])) (λ msg, (None, ["engine counters unavailable: " +:+ msg]));
  mret (mk_v2_panel guards.1 guards.2 both.1.1 both.1.2 engine.1 (both.2 ++ engine.2)).
Definition _portal_state : M app (option (list PortalUser * list PortalSession)) :=
  or_rpc_error (users ← client_portal_list_users recorded_call; sessions ← client_portal_list_sessions recorded_call; mret (Some (users, sessions)))
    (λ _, None).
Definition _render_page (page : string) : M app http :=
  status ← rpc (client_get_status recorded_call);
  rules ← rpc (client_list_rules recorded_call);
  events ← rpc (client_list_events recorded_call);
  threats ← rpc (client_list_threats recorded_call);
  models ← rpc (client_list_models recorded_call);
  allowlist ← rpc (client_list_allowlist recorded_call);
  capture_stats ← rpc (client_get_capture_stats recorded_call);
  detections ← rpc (client_list_detections recorded_call);
  portal ← _portal_state;
  v2 ← _v2_state;
  mret (ok_http (BPage (mk_page status rules events threats models allowlist capture_stats detections portal v2 page))).

(** *** The request *)

(** The routes behind the session *)
Definition protected_route (q : api_request) (d : api_draws) (session : AdminSession) : M app http :=
  match hq_route q with
  | Health | Login _ | LoginPage => refuse 404 "Not Found"
  | Logout => route_logout session
  | GetStatus => reading_route (client_get_status recorded_call) DStatus
  | GetCaptureStats => r ← rpc (client_get_capture_stats recorded_call); mret (ok_http (BData (DCapture <$> r)))
  | ListFlows => reading_route (client_list_flows recorded_call) DFlows
  | ListDetections => reading_route (client_list_detections recorded_call) DDetections
  | ListThreats => reading_route (client_list_threats recorded_call) DThreats
  | ListDecisions => reading_route (client_list_decisions recorded_call) DDecisions
  | ListRules => reading_route (client_list_rules recorded_call) DRules
  | ListEvents => reading_route (client_list_events recorded_call) DEvents
  | ListModels => reading_route (client_list_models recorded_call) DModels
  | GetConfig => mret (ok_http (BConfig (redact (cf_dump c))))
  | StreamEvents => mret (mk_http 200 [("Cache-Control", "no-cache"); ("X-Accel-Buffering", "no")] NoCookie BStream)
  | DisableRule id => _or_404 (client_disable_rule recorded_call id)
  | RemoveRule id => _or_404 (client_remove_rule recorded_call id)
  | ApproveRule id => _or_404 (client_approve_rule recorded_call id)
  | RejectRule id => _or_404 (client_reject_rule recorded_call id)
  | ListAllowlist => reading_route (client_list_allowlist recorded_call) DAllowlist
  | AddAllowlistEntry b =>
      match b ≫= allowlist_body with None => unprocessable | Some b => route_add_allowlist_entry b q d session end
  | RemoveAllowlistEntry id => route_remove_allowlist_entry id
  | KillSwitch => reading_route (client_kill_switch recorded_call) DEvent
  | GetGuardModes => reading_route (client_get_guard_modes recorded_call) DGuardModes
  | SetGuardMode guard b =>
      match guard, b with
      | Some guard, Some b => if guard_body_ok b then route_set_guard_mode guard b q d session else unprocessable
      | _, _ => unprocessable
      end
  | Panic confirm =>
      if bool_decide (confirm = Some "panic") then reading_route (client_panic recorded_call (as_username session)) DPanic else unprocessable
  | ListOffenders => reading_route (client_list_offenders recorded_call) DOffenders
  | ListBindings => reading_route (client_list_bindings recorded_call) DBindings
  | GetEngineStats => reading_route (client_get_engine_stats recorded_call) DEngineStats
  | ListUsers => reading_route (client_portal_list_users recorded_call) DUsers
  | AddUser b => match b with Some b => if portal_body_ok b then route_add_user b session else unprocessable | None => unprocessable end
  | ResetPassword username => reading_route (client_portal_set_password recorded_call username None) (λ r, DUser r.1 r.2)
  | RemoveUser username => route_remove_user username
  | ListSessions => reading_route (client_portal_list_sessions recorded_call) DSessions
  | ForceLogout ip => route_force_logout ip
  | Dashboard page => _render_page page
  end.

Definition route (q : api_request) (d : api_draws) : M app http :=
  match access_of (hq_route q) with
  | Public => mret (ok_http (BMessage "ok"))
  | AdminPcOnly =>
      _ ← require_admin_pc q;
      match hq_route q with
      | Login (Some b) => if login_body_ok b then route_login b q d else unprocessable
      | Login None => unprocessable
      | _ => mret (ok_http BLoginPage)
      end
  | Protected =>
      _ ← require_admin_pc q;
      session ← require_session q d;
      protected_route q d session
  end.

(** FastAPI's handlers and [_handle_core_unavailable] *)
Definition answer (r : result http) : http :=
  match r with
  | Ok h => h
  | Raise (HTTPException status detail headers) => mk_http status headers NoCookie (BDetail detail)
  | Raise (RpcError msg) => mk_http 503 [] NoCookie (BDetail ("pirewall-core is unreachable: " +:+ msg))
  | Raise _ => mk_http 500 [] NoCookie (BDetail "Internal Server Error")
  end.

(** ** A run of the application *)

Definition api_state : Type := AdminSessions * (AdminLoginThrottle * C).
Definition new_api (core : C) : api_state := (new_sessions, (new_admin_throttle (cf_authentication c), core)).

(** What is known of a served request *)
Record served : Type := mk_served {
  sv_request : api_request;
  sv_draws : api_draws;
  sv_response : http;
  sv_calls : list (RpcOperation * list (string * json));
}.
Definition serve_request (q : api_request) (d : api_draws) (s : api_state) : served * api_state :=
  let '(r, (sessions, (throttle, (core, calls)))) := route q d (s.1, (s.2.1, (s.2.2, []))) in
  (mk_served q d (answer r) calls, (sessions, (throttle, core))).

(** *** Requests and the polls of open event streams

    A stream is authenticated once, by the request that opens it; its generator
    then polls the core until the client goes away, or an exception other than
    [RpcError] ends it.  What it sent is [event_source] of its answers. *)
Record open_stream : Type := mk_open_stream { os_opened_by : nat; os_answers : list (string + list SecurityEvent) }.
Record polled : Type := mk_polled { po_opened_by : nat; po_calls : list (RpcOperation * list (string * json)) }.
Record api_run : Type := mk_run {
  ar_api : api_state;
  ar_streams : list open_stream;
  ar_served : list served;    (** in order *)
  ar_polled : list polled;
}.
Definition new_run (core : C) : api_run := mk_run (new_api core) [] [] [].

Definition opens (x : served) : bool :=
  match hq_route (sv_request x) with StreamEvents => ht_status (sv_response x) =? 200 | _ => false end.
Definition serve (q : api_request) (d : api_draws) (r : api_run) : api_run :=
  let '(x, s) := serve_request q d (ar_api r) in
  mk_run s (ar_streams r ++ (if opens x then [mk_open_stream (length (ar_served r)) []] else [])) (ar_served r ++ [x]) (ar_polled r).
(** One [run_in_threadpool(rpc_client.list_events)] of a stream *)
Definition poll_stream (k : nat) (r : api_run) : api_run :=
  match ar_streams r !! k with
  | None => r
  | Some st =>
      let '(a, (core, calls)) := client_list_events recorded_call ((ar_api r).2.2, []) in
      let goes_on answer := <[k := mk_open_stream (os_opened_by st) (os_answers st ++ [answer])]> (ar_streams r) in
      mk_run ((ar_api r).1, ((ar_api r).2.1, core))
        (match a with Ok events => goes_on (inr events) | Raise (RpcError msg) => goes_on (inl msg) | Raise _ => delete k (ar_streams r) end)
        (ar_served r) (ar_polled r ++ [mk_polled (os_opened_by st) calls])
  end.
Definition disconnect (k : nat) (r : api_run) : api_run := mk_run (ar_api r) (delete k (ar_streams r)) (ar_served r) (ar_polled r).

Inductive api_event : Type := Serve (q : api_request) (d : api_draws) | PollStream (k : nat) | Disconnect (k : nat).
Definition run_event (r : api_run) (e : api_event) : api_run :=
  match e with Serve q d => serve q d r | PollStream k => poll_stream k r | Disconnect k => disconnect k r end.
Definition run_api (es : list api_event) (core : C) : api_run := foldl run_event (new_run core) es.
End Api.
