(* ===== verification/ApiProps.v ===== *)
(** * What the administrator's API lets through

    Against any other end of the socket: which calls a request makes, and on
    whose authority. *)

From S2P Require Import Prelude Float Net Models RateLimiter Sets SetBackend Backend Validator Manager Lifecycle Throttle PortalSessions PortalStore PortalService Flow Thresholds Threat Inference Runtime Json NftRules Rpc RpcProps RpcClient ControlApi.
Local Open Scope Z_scope.

(** ** The contract *)

(** The operations a route may ask for *)
Definition operations_of (r : api_route) : list RpcOperation :=
  match r with
  | GetStatus => [GET_STATUS] | GetCaptureStats => [GET_CAPTURE_STATS] | ListFlows => [LIST_FLOWS]
  | ListDetections => [LIST_DETECTIONS] | ListThreats => [LIST_THREATS] | ListDecisions => [LIST_DECISIONS]
  | ListRules => [LIST_RULES] | ListEvents | StreamEvents => [LIST_EVENTS] | ListModels => [LIST_MODELS]
  | DisableRule _ => [DISABLE_RULE] | RemoveRule _ => [REMOVE_RULE] | ApproveRule _ => [APPROVE_RULE] | RejectRule _ => [REJECT_RULE]
  | ListAllowlist => [LIST_ALLOWLIST] | AddAllowlistEntry _ => [ADD_ALLOWLIST_ENTRY; RECORD_EVENT]
  | RemoveAllowlistEntry _ => [REMOVE_ALLOWLIST_ENTRY] | KillSwitch => [KILL_SWITCH]
  | GetGuardModes => [GET_GUARD_MODES] | SetGuardMode _ _ => [SET_GUARD_MODE; RECORD_EVENT] | Panic _ => [PANIC]
  | ListOffenders => [LIST_OFFENDERS] | ListBindings => [LIST_BINDINGS] | GetEngineStats => [GET_ENGINE_STATS]
  | ListUsers => [PORTAL_LIST_USERS] | AddUser _ => [PORTAL_ADD_USER] | ResetPassword _ => [PORTAL_SET_PASSWORD]
  | RemoveUser _ => [PORTAL_REMOVE_USER] | ListSessions => [PORTAL_LIST_SESSIONS] | ForceLogout _ => [PORTAL_FORCE_LOGOUT]
  | Login _ => [RECORD_EVENT]
  | Dashboard _ =>
      [GET_STATUS; LIST_RULES; LIST_EVENTS; LIST_THREATS; LIST_MODELS; LIST_ALLOWLIST; GET_CAPTURE_STATS; LIST_DETECTIONS;
       PORTAL_LIST_USERS; PORTAL_LIST_SESSIONS; GET_GUARD_MODES; LIST_OFFENDERS; LIST_BINDINGS; GET_ENGINE_STATS]
  | Health | Logout | GetConfig | LoginPage => []
  end.

Section Props.
Context (scrypt : string → list Z → Z → list Z) (repr : string → string).
Context (dump_entry : AllowlistEntry → list (string * json)) (dump_event : SecurityEvent → list (string * json)).
Context {C : Type} (_call : RpcOperation → list (string * json) → M C response).
Context (c : ApiConfig).

Notation app := (app (C := C)).
Notation wire := (wire (C := C)).
Notation recorded_call := (recorded_call _call).
Notation confirms p := (confirm_password scrypt (cf_credentials c) p = true).
Notation protected_route := (protected_route scrypt repr dump_entry dump_event _call c).
Notation serve_request := (serve_request scrypt repr dump_entry dump_event _call c).
Notation run_event := (run_event scrypt repr dump_entry dump_event _call c).
Notation run_api := (run_api scrypt repr dump_entry dump_event _call c).

(** What a call needs beside a session: the password again for an allowlist
    addition and for an enforcing guard, the typed word for panic; and the
    dangerous ones carry the name of the session. *)
Definition confirmed (q : api_request) (username : string) (o : RpcOperation) (params : list (string * json)) : Prop :=
  (o = ADD_ALLOWLIST_ENTRY → ∃ b, hq_route q = AddAllowlistEntry (Some b) ∧ confirms (aq_password b)) ∧
  (o = SET_GUARD_MODE → ∃ g b, hq_route q = SetGuardMode (Some g) (Some b) ∧
     (gr_mode b = ENFORCE → ∃ p, gr_password b = Some p ∧ confirms p) ∧
     params = [("guard", JStr (guard_value g)); ("mode", JStr (guard_mode_value (gr_mode b))); ("actor", JStr username)]) ∧
  (o = PANIC → hq_route q = Panic (Some "panic") ∧ params = [("actor", JStr username)]).
Definition allowed (q : api_request) (username : string) (o : RpcOperation) (params : list (string * json)) : Prop :=
  o ∈ operations_of (hq_route q) ∧ confirmed q username o params.

(** ** The calls of a computation *)

Section Asks.
Context (P : RpcOperation → list (string * json) → Prop).

Definition wire_asks (w w' : wire) : Prop := ∃ l, w'.2 = w.2 ++ l ∧ Forall (λ x, P x.1 x.2) l.
(** The session table is kept. *)
Definition asks (s s' : app) : Prop := s'.1 = s.1 ∧ wire_asks s.2.2 s'.2.2.

#[local] Instance wire_asks_preorder : PreOrder wire_asks.
Proof.
  split.
  - intros w. exists []. by rewrite app_nil_r.
  - intros w1 w2 w3 (l & Hl & Hp) (l' & Hl' & Hp'). exists (l ++ l'). rewrite Hl', Hl, app_assoc. split; [done|]. by apply Forall_app.
Qed.
#[local] Instance asks_preorder : PreOrder asks.
Proof.
  split; [by intros s|]. intros s1 s2 s3 [H1 W1] [H2 W2]. split; [congruence|]. by etransitivity.
Qed.

Lemma wire_call o params : P o params → framed wire_asks (recorded_call o params).
Proof.
  intros Hp w. unfold ControlApi.recorded_call. destruct (_call o params w.1) as [r core]. exists [(o, params)]. cbn. split; [done|]. by constructor.
Qed.
Lemma wire_optional o params : P o params → framed wire_asks (_optional_data recorded_call o params).
Proof. intros Hp. apply (frame_bind wire_asks); [by apply wire_call|]. intros r. destruct (rs_ok r); by intros w. Qed.
Lemma wire_require o params : P o params → framed wire_asks (_require_data recorded_call o params).
Proof.
  intros Hp. apply (frame_bind wire_asks); [by apply wire_call|]. intros r. destruct (rs_ok r); [|by intros w]. destruct (rs_data r); by intros w.
Qed.
Lemma wire_validated {A} (read : rpc_data → option A) data : framed wire_asks (validated read data).
Proof. unfold validated. destruct (read data); by intros w. Qed.
Lemma wire_value {A} o params (read : rpc_data → option A) : P o params →
  framed wire_asks (data ← _require_data recorded_call o params; validated read data).
Proof. intros Hp. apply (frame_bind wire_asks); [by apply wire_require|]. intros data. apply wire_validated. Qed.
Lemma wire_list {A} o (read : rpc_data → option (list A)) : P o [] → framed wire_asks (_require_list recorded_call read o).
Proof. intros Hp. apply (frame_bind wire_asks); [by apply wire_require|]. intros data. destruct (read data); by intros w. Qed.
Lemma wire_maybe {A} o params (read : rpc_data → option A) : P o params →
  framed wire_asks (data ← _optional_data recorded_call o params; optional read data).
Proof.
  intros Hp. apply (frame_bind wire_asks); [by apply wire_optional|]. intros [data|]; [|by intros w].
  apply (frame_bind wire_asks); [apply wire_validated|]. by intros a w.
Qed.

Lemma asks_rpc {A} (m : M wire A) : framed wire_asks m → framed asks (rpc m).
Proof.
  intros Hm [sessions [t w]]. unfold rpc, with_admin, on_rpc. cbn [fst snd]. specialize (Hm w). destruct (m w) as [r w']. by split.
Qed.
Lemma asks_throttle {A} (m : M AdminLoginThrottle A) : framed asks (with_throttle m).
Proof.
  intros [sessions [t w]]. unfold with_throttle, with_admin, on_throttle. cbn [fst snd]. destruct (m t) as [r t']. split; [done|]. cbn. reflexivity.
Qed.
Lemma asks_refuse {A} status detail : framed asks (refuse (A := A) status detail).
Proof. intros s. cbn. reflexivity. Qed.
Lemma asks_or_error {A} (m : M wire A) h : framed wire_asks m → framed asks (or_rpc_error m h).
Proof.
  intros Hm s. unfold or_rpc_error. pose proof (asks_rpc m Hm s) as Ha. destruct (rpc m s) as [[a|e] s']; [exact Ha|]. by destruct e.
Qed.

(** A computation on the throttle and the wire *)
Lemma asks_admin {A} (m : M (AdminLoginThrottle * wire) A) :
  framed (λ s s', wire_asks s.2 s'.2) m → framed asks (with_admin m).
Proof. intros Hm [sessions tw]. unfold with_admin. cbn [fst snd]. specialize (Hm tw). destruct (m tw) as [r tw']. by split. Qed.

Lemma asks_failed host now what : (∀ params, P RECORD_EVENT params) →
  framed asks (with_admin (record_failed_authentication (λ e, _ ← client_record_event recorded_call dump_event e; mret tt) host now what)).
Proof.
  intros Hp. apply asks_admin. set (Q := λ s s' : AdminLoginThrottle * wire, wire_asks s.2 s'.2).
  assert (HQ : PreOrder Q) by (split; [intros s; unfold Q; reflexivity|intros s1 s2 s3; unfold Q; by etransitivity]).
  assert (Hq : ∀ m : M wire unit, framed wire_asks m → framed Q (on_rpc m)).
  { intros m Hm [t w]. unfold on_rpc, Q. cbn [fst snd]. specialize (Hm w). by destruct (m w) as [r w']. }
  assert (He : ∀ e, framed Q (on_rpc (_ ← client_record_event recorded_call dump_event e; mret tt))).
  { intros e. apply Hq. apply (frame_bind wire_asks); [|by intros ? w']. apply wire_value, Hp. }
  unfold record_failed_authentication. apply (frame_bind Q).
  - intros [t w]. unfold on_throttle, Q. cbn [fst snd]. destruct (admin_record_failure host now t) as [r t']. cbn. reflexivity.
  - intros newly. apply (frame_bind Q); [apply He|]. intros _. apply (frame_fold Q). intros scope. apply He.
Qed.

Lemma asks_reading {A} (m : M wire A) f : framed wire_asks m → framed asks (reading_route m f).
Proof. intros Hm. apply (frame_bind asks); [by apply asks_rpc|]. intros a. apply (frame_ret asks). Qed.
End Asks.
#[local] Existing Instance wire_asks_preorder.
#[local] Existing Instance asks_preorder.

(** ** The calls of a route *)

Lemma plain_allowed q u o params :
  o ∈ operations_of (hq_route q) → o ∉ [ADD_ALLOWLIST_ENTRY; SET_GUARD_MODE; PANIC] → allowed q u o params.
Proof. intros Ho Hn. split; [done|]. split; [|split]; intros ->; exfalso; apply Hn; set_solver. Qed.

Ltac listed := solve [repeat (first [left|right])].
Ltac plainly Hq := apply plain_allowed; [rewrite Hq; cbn [operations_of]; listed | by vm_compute; intros H; repeat (apply elem_of_cons in H as [H|H]; [discriminate|]); apply elem_of_nil in H].
Ltac client := first [apply wire_list | apply wire_value | apply wire_maybe].

Lemma or_404_asks P m : framed (wire_asks P) m → framed (asks P) (_or_404 m).
Proof.
  intros Hm. apply (frame_bind (asks P)); [by apply asks_rpc|]. intros [r|]; [apply (frame_ret (asks P))|apply asks_refuse].
Qed.
Lemma found_asks P m detail msg : framed (wire_asks P) m →
  framed (asks P) (x ← rpc m; if negb x then refuse 404 detail else mret (ok_http (BMessage msg))).
Proof.
  intros Hm. apply (frame_bind (asks P)); [by apply asks_rpc|]. intros []; [apply (frame_ret (asks P))|apply asks_refuse].
Qed.

Lemma frame_assoc {A B D} P (m : M app A) (f : A → M app B) (k : B → M app D) :
  framed (asks P) (x ← m; y ← f x; k y) → framed (asks P) (y ← (x ← m; f x); k y).
Proof. intros Hf s. specialize (Hf s). unfold mbind, m_bind in *. by destruct (m s) as [[a|e] s']. Qed.
(** What follows a refusal is not reached. *)
Lemma frame_refused {A B} P status detail (k : A → M app B) : framed (asks P) (x ← refuse status detail; k x).
Proof. intros s. exact (asks_refuse (A := A) P status detail s). Qed.

(** A reconfirmation that fails ends the route. *)
Lemma reconfirm_asks {A} P password host now what (k : unit → M app A) : (∀ params, P RECORD_EVENT params) →
  (confirms password → framed (asks P) (k tt)) →
  framed (asks P) (x ← reconfirm scrypt dump_event _call c password host now what; k x).
Proof.
  intros Hp Hk. unfold reconfirm. destruct (confirm_password scrypt (cf_credentials c) password) eqn:Hc.
  - intros s. exact (Hk eq_refl s).
  - intros s. set (m := _ ← with_admin _; refuse (A := unit) 403 _).
    assert (Hm : framed (asks P) m) by (apply (frame_bind (asks P)); [by apply asks_failed|]; intros _; apply asks_refuse).
    assert (Hr : ∃ e, (m s).1 = Raise e).
    { unfold m, mbind, m_bind. destruct (with_admin _ s) as [[?|e] s']; eauto. }
    specialize (Hm s). destruct Hr as [e He]. unfold mbind at 1, m_bind at 1. destruct (m s) as [r s']. cbn in *. by subst r.
Qed.

Lemma add_entry_asks q d b b' session : hq_route q = AddAllowlistEntry (Some b) → allowlist_body b = Some b' →
  framed (asks (allowed q (as_username session))) (route_add_allowlist_entry scrypt repr dump_entry dump_event _call c b' q d session).
Proof.
  intros Hq Hb. set (P := allowed q (as_username session)).
  assert (Hpw : aq_password b' = aq_password b).
  { unfold allowlist_body in Hb. destruct (_ && _); [|done]. by destruct (_reason_not_blank (aq_reason b)); simplify_eq/=. }
  assert (Hrec : ∀ params, P RECORD_EVENT params) by (intros params; plainly Hq).
  unfold route_add_allowlist_entry. apply (frame_bind (asks P)); [apply asks_throttle|]. intros _. apply reconfirm_asks; [done|]. intros Hc.
  apply (frame_bind (asks P)); [apply (frame_lift (asks P))|]. intros entry. apply (frame_bind (asks P)).
  - apply asks_rpc. apply (frame_bind (wire_asks P)).
    + apply wire_require. split; [rewrite Hq; listed|]. split; [|by split]. intros _. exists b. by rewrite <- Hpw.
    + intros data. destruct (is_object data); by intros w.
  - intros created. apply (frame_bind (asks P)); [|intros _; apply (frame_ret (asks P))]. apply asks_rpc.
    apply (frame_bind (wire_asks P)); [apply wire_value, Hrec|]. by intros _ w.
Qed.

Lemma set_guard_asks q d g b session : hq_route q = SetGuardMode (Some g) (Some b) →
  framed (asks (allowed q (as_username session))) (route_set_guard_mode scrypt repr dump_event _call c g b q d session).
Proof.
  intros Hq. set (P := allowed q (as_username session)).
  assert (Hrec : ∀ params, P RECORD_EVENT params) by (intros params; plainly Hq).
  assert (Hset : (gr_mode b = ENFORCE → ∃ p, gr_password b = Some p ∧ confirms p) →
    framed (asks P) (reading_route (client_set_guard_mode recorded_call g (gr_mode b) (as_username session)) DGuardModes)).
  { intros Hc. apply asks_reading, wire_value. split; [rewrite Hq; listed|]. split; [done|]. split; [|done]. intros _. by exists g, b. }
  unfold route_set_guard_mode. case_bool_decide as Hm; [|intros s; apply Hset; by intros ?].
  apply frame_assoc. apply (frame_bind (asks P)); [apply asks_throttle|]. intros _. destruct (gr_password b) as [p|].
  - apply reconfirm_asks; [done|]. intros Hc. apply Hset. intros _. by exists p.
  - apply frame_refused.
Qed.

Lemma page_asks q page session : hq_route q = Dashboard page →
  framed (asks (allowed q (as_username session))) (_render_page _call page).
Proof.
  intros Hq. set (P := allowed q (as_username session)).
  assert (HP : ∀ o, o ∈ operations_of (Dashboard page) → ∀ params, P o params).
  { intros o Ho params. apply plain_allowed; [by rewrite Hq|]. intros Hn. cbn [operations_of] in Ho.
    repeat (apply elem_of_cons in Hn as [->|Hn]; [by repeat (apply elem_of_cons in Ho as [Ho|Ho]; [discriminate|]); apply elem_of_nil in Ho|]).
    by apply elem_of_nil in Hn. }
  unfold _render_page. repeat (apply (frame_bind (asks P)); [apply asks_rpc; client; apply HP; cbn [operations_of]; listed|intros ?]).
  apply (frame_bind (asks P)).
  { apply asks_or_error. apply (frame_bind (wire_asks P)); [client; apply HP; cbn [operations_of]; listed|]. intros users.
    apply (frame_bind (wire_asks P)); [client; apply HP; cbn [operations_of]; listed|]. by intros sessions w. }
  intros portal. apply (frame_bind (asks P)); [|intros v2; apply (frame_ret (asks P))].
  unfold _v2_state. apply (frame_bind (asks P)).
  { apply asks_or_error, (frame_bind (wire_asks P)); [client; apply HP; cbn [operations_of]; listed|]. by intros g w. }
  intros guards. apply (frame_bind (asks P)).
  { intros s. unfold offenders_and_bindings.
    assert (Ho : framed (asks P) (rpc (client_list_offenders recorded_call))) by (apply asks_rpc; client; apply HP; cbn [operations_of]; listed).
    specialize (Ho s). destruct (rpc _ s) as [[l|e] s'] eqn:Hs; [|by destruct e]. etransitivity; [exact Ho|].
    apply asks_or_error, (frame_bind (wire_asks P)); [client; apply HP; cbn [operations_of]; listed|]. by intros l' w. }
  intros both. apply (frame_bind (asks P)); [|intros e; apply (frame_ret (asks P))].
  apply asks_or_error, (frame_bind (wire_asks P)); [client; apply HP; cbn [operations_of]; listed|]. by intros e w.
Qed.

Lemma route_asks q d session : hq_route q ≠ Logout → framed (asks (allowed q (as_username session))) (protected_route q d session).
Proof.
  intros Hl. set (P := allowed q (as_username session)). unfold ControlApi.protected_route. destruct (hq_route q) eqn:Hq; try done.
  all: try (apply asks_refuse || apply (frame_ret (asks P))).
  all: try (apply asks_reading; client; plainly Hq).
  all: try (apply or_404_asks; client; plainly Hq).
  all: try (apply found_asks; client; plainly Hq).
  - apply (frame_bind (asks P)); [apply asks_rpc; client; plainly Hq|]. intros r. apply (frame_ret (asks P)).
  - destruct body as [b|]; cbn [mbind option_bind]; [|apply asks_refuse]. destruct (allowlist_body b) as [b'|] eqn:Hb; [|apply asks_refuse].
    by apply (add_entry_asks q d b).
  - destruct guard as [g|]; [|apply asks_refuse]. destruct body as [b|]; [|apply asks_refuse]. destruct (guard_body_ok b); [|apply asks_refuse].
    by apply set_guard_asks.
  - case_bool_decide as Hc; [subst confirm|apply asks_refuse]. apply asks_reading, wire_value. split; [rewrite Hq; listed|].
    split; [done|]. split; [done|]. by intros _.
  - destruct body as [b|]; [|apply asks_refuse]. destruct (portal_body_ok b); [|apply asks_refuse]. apply asks_reading; client; plainly Hq.
  - unfold route_force_logout. destruct (IPv4.parse client_ip) as [ip|]; [|apply asks_refuse]. apply found_asks; client; plainly Hq.
  - by apply page_asks.
Qed.

(** ** The session table over a run *)

(** The request signed the administrator in with this token. *)
Definition issued (x : served) (token : string) : Prop :=
  admitted c (sv_request x) = Ok tt ∧ ht_status (sv_response x) = 200 ∧
  ∃ b, hq_route (sv_request x) = Login (Some b) ∧ lr_username b = cr_admin_username (cf_credentials c) ∧ confirms (lr_password b) ∧
    ad_token (sv_draws x) = token.
Definition signed_out (x : served) (token : string) : Prop :=
  hq_route (sv_request x) = Logout ∧ _extract_token (sv_request x) = Some token ∧ ht_status (sv_response x) = 200.
(** The request used the token at a time: to sign in, or to authenticate. *)
Definition used (x : served) (token : string) (t : Z) : Prop :=
  (issued x token ∧ t = ad_now (sv_draws x)) ∨ (_extract_token (sv_request x) = Some token ∧ t = ad_auth_now (sv_draws x)).

(** Before request [i] a token is live at [now]: signed in by an earlier
    request less than the lifetime ago, not signed out since, and used less
    than the idle limit ago. *)
Definition live (tr : list served) (i : nat) (token : string) (now : Z) : Prop :=
  ∃ j l, (j < i)%nat ∧ tr !! j = Some l ∧ issued l token ∧ now < ad_now (sv_draws l) + seconds (cf_token_expiry_seconds c) ∧
    (∀ k y, (j < k < i)%nat → tr !! k = Some y → ¬ signed_out y token) ∧
    (∀ idle, cf_session_timeout_seconds c = Some idle →
       ∃ k y t, (j ≤ k < i)%nat ∧ tr !! k = Some y ∧ used y token t ∧ now < t + seconds idle).

Record table_ok (tr : list served) (s : AdminSessions) : Prop := mk_table_ok {
  to_expiry : ss_token_expiry_seconds s = cf_token_expiry_seconds c;
  to_idle : ss_idle_timeout s = seconds <$> cf_session_timeout_seconds c;
  to_sessions : ∀ token x, dget (ss_sessions s) token = Some x →
    as_token x = token ∧ as_username x = cr_admin_username (cf_credentials c) ∧
    as_expires_at x = as_issued_at x + seconds (cf_token_expiry_seconds c) ∧
    ∃ j l, tr !! j = Some l ∧ issued l token ∧ ad_now (sv_draws l) = as_issued_at x ∧
      (∀ k y, (j < k)%nat → tr !! k = Some y → ¬ signed_out y token) ∧
      ∃ t k y, dget (ss_last_used s) token = Some t ∧ (j ≤ k)%nat ∧ tr !! k = Some y ∧ used y token t;
}.

(** One more request: an entry is either new, issued by it, or one that was
    there, not signed out by it, last used as before or by it. *)
Lemma table_step tr s x s' :
  table_ok tr s → ss_token_expiry_seconds s' = ss_token_expiry_seconds s → ss_idle_timeout s' = ss_idle_timeout s →
  (∀ token y, dget (ss_sessions s') token = Some y →
     (issued x token ∧ dget (ss_last_used s') token = Some (ad_now (sv_draws x)) ∧
      y = mk_admin_session token (cr_admin_username (cf_credentials c)) (ad_now (sv_draws x)) (ad_now (sv_draws x) + seconds (cf_token_expiry_seconds c))) ∨
     (dget (ss_sessions s) token = Some y ∧ ¬ signed_out x token ∧
      (dget (ss_last_used s') token = dget (ss_last_used s) token ∨
       (_extract_token (sv_request x) = Some token ∧ dget (ss_last_used s') token = Some (ad_auth_now (sv_draws x)))))) →
  table_ok (tr ++ [x]) s'.
Proof.
  intros [He Hi Hs] He' Hi' Hstep. split; [congruence|congruence|]. intros token y Hy.
  destruct (Hstep token y Hy) as [(Hiss & Hlast & ->)|(Hold & Hout & Hlast)].
  - split; [done|]. split; [done|]. split; [done|]. exists (length tr), x. rewrite list_lookup_middle by done.
    split; [done|]. split; [done|]. split; [done|]. split.
    + intros k z Hk Hz. apply lookup_lt_Some in Hz. rewrite length_app in Hz. cbn in Hz. lia.
    + exists (ad_now (sv_draws x)), (length tr), x. rewrite list_lookup_middle by done. split; [done|]. split; [done|]. split; [done|]. by left.
  - destruct (Hs token y Hold) as (Ht & Hu & Hx & j & l & Hj & Hl & Hn & Hns & t & k & z & Hlu & Hjk & Hz & Huse).
    split; [done|]. split; [done|]. split; [done|]. exists j, l. split; [by apply lookup_app_l_Some|]. split; [done|]. split; [done|]. split.
    + intros k' y' Hk' Hy'. apply lookup_snoc_Some in Hy' as [[_ Hy']|[_ <-]]; [by apply (Hns k')|done].
    + destruct Hlast as [Hsame|[Hpres Hnew]].
      * exists t, k, z. rewrite Hsame. split; [done|]. split; [done|]. split; [by apply lookup_app_l_Some|done].
      * exists (ad_auth_now (sv_draws x)), (length tr), x. rewrite list_lookup_middle by done. split; [done|].
        split; [apply lookup_lt_Some in Hj; lia|]. split; [done|]. right. done.
Qed.

(** A request that keeps the table, and is no completed sign-out *)
Lemma table_kept tr s x : table_ok tr s → (∀ token, ¬ signed_out x token) → table_ok (tr ++ [x]) s.
Proof. intros Hok Hn. eapply table_step; [exact Hok|done|done|]. intros token y Hy. right. split; [done|]. split; [apply Hn|by left]. Qed.

Lemma admin_clear_ok host t : (admin_clear host t).1 = Ok tt.
Proof.
  unfold admin_clear, scoped_clear, on_window. destruct (dmem (st_windows t) SCOPE_SOURCE) eqn:Hm; cbn [andb]; [|done].
  apply dmem_true in Hm as [w ->]. done.
Qed.

(** A successful authentication finds a live token. *)
Lemma authenticated_live tr s token now x s' : table_ok tr s → authenticate token now s = (Ok x, s') →
  dget (ss_sessions s) token = Some x ∧ s' = ss_with s (ss_sessions s) (dset (ss_last_used s) token now) ∧
  live tr (length tr) token now.
Proof.
  intros [He Hi Hs]. unfold authenticate, session_validate, mbind, m_bind. destruct (dget (ss_sessions s) token) as [y|] eqn:Hy; [|done].
  destruct (Hs token y Hy) as (Ht & Hu & Hx & j & l & Hj & Hl & Hn & Hns & t & k & z & Hlu & Hjk & Hz & Huse).
  destruct (_ || _) eqn:Hexp; [done|]. cbn. intros Heq. assert (x = y ∧ s' = ss_with s (ss_sessions s) (dset (ss_last_used s) token now)) as [-> ->].
  { inversion Heq. by split. }
  split; [done|]. split; [done|]. apply orb_false_iff in Hexp as [He1 He2]. apply Z.leb_gt in He1.
  pose proof (lookup_lt_Some _ _ _ Hj). pose proof (lookup_lt_Some _ _ _ Hz).
  exists j, l. split; [done|]. split; [done|]. split; [done|]. split; [lia|]. split.
  - intros k' y' Hk'. apply Hns. lia.
  - intros idle Hidle. exists k, z, t. split; [lia|]. split; [done|]. split; [done|].
    unfold idle_expired in He2. rewrite Hi, Hidle, Hlu in He2. cbn in He2. apply Z.leb_gt in He2. lia.
Qed.

Lemma failed_authentication tr s token now e s' : table_ok tr s → authenticate token now s = (Raise e, s') →
  s' = s ∨ s' = ss_with s (dpop (ss_sessions s) token) (dpop (ss_last_used s) token).
Proof.
  intros _. unfold authenticate, session_validate, mbind, m_bind. destruct (dget (ss_sessions s) token) as [y|]; [|intros [= _ <-]; by left].
  destruct (_ || _); cbn; [|done]. intros [= _ <-]. by right.
Qed.

(** ** One request *)

Definition authorised (tr : list served) (i : nat) (x : served) (o : RpcOperation) (params : list (string * json)) : Prop :=
  admitted c (sv_request x) = Ok tt ∧
  ((o = RECORD_EVENT ∧ ∃ b, hq_route (sv_request x) = Login b) ∨
   (∃ token, _extract_token (sv_request x) = Some token ∧ live tr i token (ad_auth_now (sv_draws x)) ∧
      allowed (sv_request x) (cr_admin_username (cf_credentials c)) o params)).

(** The calls a served request stands for: its own, and the polls of the
    stream it opened. *)
Definition stands_for (x : served) (o : RpcOperation) (params : list (string * json)) : Prop :=
  (o, params) ∈ sv_calls x ∨ (opens x = true ∧ o = LIST_EVENTS ∧ params = []).
Definition sound_step (tr : list served) (x : served) (s' : AdminSessions) : Prop :=
  table_ok (tr ++ [x]) s' ∧ ∀ o params, stands_for x o params → authorised tr (length tr) x o params.

Lemma not_opened x : hq_route (sv_request x) ≠ StreamEvents ∨ ht_status (sv_response x) ≠ 200 → opens x = false.
Proof. unfold opens. intros [H|H]; destruct (hq_route (sv_request x)); try done. by apply Z.eqb_neq. Qed.

(** The outcome of a computation of the application, as a served request *)
Definition outcome (q : api_request) (d : api_draws) (r : result http * app) : served := mk_served q d (answer r.1) r.2.2.2.2.

Lemma asked_nothing P (s s' : app) : asks P s s' → s.2.2.2 = [] → s'.1 = s.1 ∧ ∀ o params, (o, params) ∈ s'.2.2.2 → P o params.
Proof.
  intros [Hs (l & Hl & Hp)] Hn. split; [done|]. rewrite Hl, Hn. cbn. intros o params Hin. rewrite Forall_forall in Hp. exact (Hp _ Hin).
Qed.

Lemma login_sound tr q d b (s : app) r : admitted c q = Ok tt → hq_route q = Login (Some b) → table_ok tr s.1 → s.2.2.2 = [] →
  route_login scrypt repr dump_event _call c b q d s = r → sound_step tr (outcome q d r) r.2.1.
Proof.
  intros Hadm Hq Hok Hno Hr. set (P := λ (o : RpcOperation) (params : list (string * json)), o = RECORD_EVENT).
  assert (Hcalls : (∀ o params, (o, params) ∈ r.2.2.2.2 → o = RECORD_EVENT) → table_ok (tr ++ [outcome q d r]) r.2.1 →
    sound_step tr (outcome q d r) r.2.1).
  { intros Hc Ht. split; [done|]. intros o params [Hin|[Hopen _]].
    - split; [done|]. left. split; [by apply (Hc o params)|]. by exists (Some b).
    - rewrite not_opened in Hopen; [done|]. left. cbn. congruence. }
  assert (Hkeep : asks P s r.2 → sound_step tr (outcome q d r) r.2.1).
  { intros Ha. destruct (asked_nothing P s r.2 Ha Hno) as [Hs Hc]. apply Hcalls; [exact Hc|]. rewrite Hs. apply table_kept; [done|].
    intros token [Hl _]. cbn in Hl. congruence. }
  unfold route_login in Hr. unfold mbind at 1, m_bind at 1 in Hr.
  pose proof (asks_throttle P (refuse_if_locked_out (hq_client_host q) (ad_now d)) s) as Hlock.
  destruct (with_throttle _ s) as [[[]|e] s1] eqn:Hs; [|subst r; by apply Hkeep]. cbn [snd] in Hlock.
  destruct (asked_nothing P s s1 Hlock Hno) as [Hs1 Hc1].
  unfold login_attempt, with_sessions, admin_login in Hr. unfold mbind at 1, m_bind at 1 in Hr. unfold mlift in Hr.
  destruct (compare_digest (lr_username b) _) as [u|e] eqn:Hu; cbn [fst snd] in Hr.
  2:{ assert (e = TypeError) as -> by (unfold compare_digest in Hu; destruct (_ && _); congruence).
      subst r. apply Hkeep. cbn [snd]. by rewrite <- surjective_pairing. }
  destruct (negb _) eqn:Hn; cbn [mraise] in Hr.
  - apply Hkeep. etransitivity; [exact Hlock|]. rewrite <- surjective_pairing in Hr. rewrite <- Hr.
    apply (frame_bind (asks P)); [by apply asks_failed|]. intros _. apply asks_refuse.
  - apply negb_false_iff, andb_prop in Hn as [-> Hp]. unfold compare_digest in Hu. destruct (_ && _); [|done].
    injection Hu as Hu. apply String.eqb_eq in Hu. unfold session_create in Hr. cbn [fst snd] in Hr.
    unfold mbind at 1, m_bind at 1, with_throttle, with_admin, on_throttle in Hr. cbn [fst snd] in Hr.
    pose proof (admin_clear_ok (hq_client_host q) s1.2.1) as Hclear. destruct (admin_clear _ s1.2.1) as [r1 t1]. cbn [fst] in Hclear. subst r1.
    unfold mret, m_ret in Hr. subst r. apply Hcalls; [exact Hc1|]. cbn [snd fst]. rewrite Hs1.
    apply (table_step tr s.1); [done|done|done|]. cbn [ss_with ss_sessions ss_last_used]. intros token y. rewrite !dget_set. case_decide as Ht.
    + intros [= <-]. subst token. left. split; [|split; [done|]].
      * split; [done|]. split; [done|]. exists b. done.
      * rewrite (to_expiry tr s.1 Hok), Hu. done.
    + intros Hy. right. split; [done|]. split; [|by left]. intros [Hl _]. cbn in Hl. congruence.
Qed.

Lemma protected_sound tr q d (s : app) r : admitted c q = Ok tt → table_ok tr s.1 → s.2.2.2 = [] →
  (∀ b, hq_route q ≠ Login b) →
  (session ← require_session q d; protected_route q d session) s = r → sound_step tr (outcome q d r) r.2.1.
Proof.
  intros Hadm Hok Hno Hnl Hr.
  assert (Hidle : table_ok (tr ++ [outcome q d r]) r.2.1 → r.2.2.2.2 = [] →
    hq_route q ≠ StreamEvents ∨ ht_status (answer r.1) ≠ 200 → sound_step tr (outcome q d r) r.2.1).
  { intros Ht Hc Ho. split; [done|]. intros o params [Hin|[Hopen _]]; [|by rewrite not_opened in Hopen].
    cbn [outcome sv_calls] in Hin. rewrite Hc in Hin. by apply elem_of_nil in Hin. }
  unfold require_session in Hr. destruct (_extract_token q) as [token|] eqn:Htok.
  2:{ subst r. apply Hidle; [|done|by right]. cbn [snd]. apply table_kept; [done|]. intros token (_ & Hx & _). cbn in Hx. congruence. }
  unfold mbind at 1, m_bind at 1, auth_as, with_sessions in Hr.
  destruct (authenticate token (ad_auth_now d) s.1) as [[session|e] s1] eqn:Ha.
  2:{ assert (∃ msg, e = AuthenticationError msg) as [msg ->].
      { revert Ha. unfold authenticate, mbind, m_bind, session_validate. destruct (dget _ token); [destruct (_ || _)|]; cbn; intros Hx; inversion Hx; eauto. }
      subst r. apply Hidle; [|done|by right]. cbn [snd fst].
      assert (Hns : ∀ t, ¬ signed_out (outcome q d (Raise (HTTPException 401 msg []), (s1, s.2))) t) by (by intros t (_ & _ & ?)).
      destruct (failed_authentication tr s.1 token _ _ _ Hok Ha) as [->| ->]; [by apply table_kept|].
      apply (table_step tr s.1); [done|done|done|]. cbn [ss_with ss_sessions ss_last_used]. intros t y. rewrite !dget_pop. case_decide; [done|].
      intros Hy. right. split; [done|]. split; [apply Hns|by left]. }
  destruct (authenticated_live tr s.1 token _ _ _ Hok Ha) as (Hget & -> & Hlive).
  destruct (to_sessions tr s.1 Hok token session Hget) as (Hst & Hsu & _).
  set (s2 := ss_with s.1 (ss_sessions s.1) (dset (ss_last_used s.1) token (ad_auth_now d))) in *.
  (* the table between the dependency and the route *)
  assert (Hmid : ∀ x, sv_request x = q → sv_draws x = d → (∀ t, ¬ signed_out x t) → table_ok (tr ++ [x]) s2).
  { intros x Hxq Hxd Hns. apply (table_step tr s.1); [done|done|done|]. unfold s2. cbn [ss_with ss_sessions ss_last_used]. intros t y Hy. right.
    split; [done|]. split; [apply Hns|]. rewrite dget_set. case_decide; [right|by left]. subst t. by rewrite Hxq, Hxd. }
  assert (hq_route q = Logout ∨ hq_route q ≠ Logout) as [Hq|Hq] by (destruct (hq_route q); first [by left|by right]).
  - unfold ControlApi.protected_route in Hr. rewrite Hq in Hr.
    unfold route_logout, with_sessions, admin_logout, session_invalidate in Hr. unfold mbind, m_bind, mmodify in Hr. cbn [fst snd] in Hr.
    subst r. apply Hidle; [|done|left; congruence]. apply (table_step tr s.1); [done|done|done|]. cbn [mret m_ret snd fst ss_with ss_sessions ss_last_used].
    rewrite Hst. intros t y. unfold s2. cbn [ss_with ss_sessions ss_last_used]. rewrite !dget_pop. case_decide as Hd; [done|]. intros Hy. right.
    split; [done|]. split; [|left; by rewrite dget_set, decide_False by done]. intros (_ & Hx & _). cbn in Hx. congruence.
  - pose proof (route_asks q d session Hq (s2, s.2)) as Hroute. rewrite Hr in Hroute.
    destruct (asked_nothing _ _ _ Hroute Hno) as [Hs2 Hcalls]. cbn [fst] in Hs2. split.
    + rewrite Hs2. apply Hmid; [done|done|]. by intros t [? _].
    + intros o params Hin. split; [done|]. right. exists token. split; [done|]. split; [done|]. rewrite <- Hsu.
      destruct Hin as [Hin|(Hopen & -> & ->)]; [by apply Hcalls|]. unfold opens in Hopen. cbn [outcome sv_request] in Hopen.
      destruct (hq_route q) eqn:Hs; try discriminate. cbn [sv_request outcome]. plainly Hs.
Qed.
Lemma route_sound tr q d (s : app) r : table_ok tr s.1 → s.2.2.2 = [] →
  route scrypt repr dump_entry dump_event _call c q d s = r → sound_step tr (outcome q d r) r.2.1.
Proof.
  intros Hok Hno Hr.
  assert (Hsame : r.2 = s → (hq_route q ≠ Logout ∧ hq_route q ≠ StreamEvents) ∨ ht_status (answer r.1) ≠ 200 → sound_step tr (outcome q d r) r.2.1).
  { intros Hs Hl. split.
    - rewrite Hs. apply table_kept; [done|]. intros token (Hq & _ & Hst). cbn in Hq, Hst. by destruct Hl as [[]|].
    - intros o params [Hin|[Hopen _]]; [|rewrite not_opened in Hopen; [done|]; cbn; naive_solver].
      cbn [outcome sv_calls] in Hin. rewrite Hs, Hno in Hin. by apply elem_of_nil in Hin. }
  assert (Hadm : ∀ (k : M app http), (admitted c q = Ok tt → k s = r → sound_step tr (outcome q d r) r.2.1) →
    (_ ← require_admin_pc c q; k) s = r → sound_step tr (outcome q d r) r.2.1).
  { intros k Hk Hbind. unfold require_admin_pc, auth_as, mlift, mbind, m_bind in Hbind. destruct (admitted c q) as [[]|e] eqn:Ha; [by apply Hk|].
    assert (∃ msg, e = AuthenticationError msg) as [msg ->].
    { unfold admitted, enforce_admin_pc_ip, restricted in Ha. repeat (case_match; try discriminate); eauto; inversion Ha; eauto. }
    cbn in Hbind. clear Hr. subst r. apply Hsame; [done|]. by right. }
  unfold route in Hr. destruct (access_of (hq_route q)) eqn:Hacc.
  - subst r. apply Hsame; [done|]. left. by split; intros Hq; rewrite Hq in Hacc.
  - revert Hr. apply Hadm. intros Ha Hr. destruct (hq_route q) as [|[b|]| | | | | | | | | | | | | | | | | | | | | | | | | | | | | | | | | |] eqn:Hq; try done.
    + destruct (login_body_ok b); [by apply (login_sound tr q d b s)|]. subst r. apply Hsame; [done|by left].
    + subst r. apply Hsame; [done|by left].
    + subst r. apply Hsame; [done|by left].
  - revert Hr. apply Hadm. intros Ha Hr. apply (protected_sound tr q d s); try done. by intros b Hq; rewrite Hq in Hacc.
Qed.

Lemma serve_sound tr q d s x s' : table_ok tr s.1 → serve_request q d s = (x, s') → sound_step tr x s'.1 ∧ sv_request x = q ∧ sv_draws x = d.
Proof.
  intros Hok. unfold ControlApi.serve_request.
  destruct (route scrypt repr dump_entry dump_event _call c q d (s.1, (s.2.1, (s.2.2, [])))) as [r [sessions [throttle [core calls]]]] eqn:Hr.
  intros Heq. assert (x = outcome q d (r, (sessions, (throttle, (core, calls)))) ∧ s' = (sessions, (throttle, core))) as [-> ->]
    by (split; [exact (f_equal fst (eq_sym Heq))|exact (f_equal snd (eq_sym Heq))]).
  split; [|done]. exact (route_sound tr q d (s.1, (s.2.1, (s.2.2, []))) _ Hok eq_refl Hr).
Qed.

Lemma live_app tr rest i token now : (i ≤ length tr)%nat → live tr i token now → live (tr ++ rest) i token now.
Proof.
  intros Hle (j & l & Hj & Hl & Hi & Hn & Hout & Hidle). exists j, l. split; [done|]. split; [by apply lookup_app_l_Some|]. split; [done|]. split; [done|]. split.
  - intros k y Hk Hy. rewrite lookup_app_l in Hy by lia. by apply (Hout k).
  - intros idle Hx. destruct (Hidle idle Hx) as (k & y & t & Hk & Hy & ?). exists k, y, t. split; [done|]. split; [by apply lookup_app_l_Some|done].
Qed.
Lemma authorised_app tr rest i x o params : (i ≤ length tr)%nat → authorised tr i x o params → authorised (tr ++ rest) i x o params.
Proof.
  intros Hi [Ha [?|(token & Ht & Hl & Hal)]]; (split; [done|]); [by left|]. right. exists token. split; [done|]. split; [by apply live_app|done].
Qed.

(** ** A run *)

(** The request that opened a stream, and its authority *)
Definition stream_ok (tr : list served) (j : nat) : Prop :=
  ∃ x, tr !! j = Some x ∧ hq_route (sv_request x) = StreamEvents ∧ ht_status (sv_response x) = 200 ∧ authorised tr j x LIST_EVENTS [].
Record run_ok (r : api_run (C := C)) : Prop := mk_run_ok {
  ro_table : table_ok (ar_served r) (ar_api r).1;
  ro_served : ∀ i x o params, ar_served r !! i = Some x → (o, params) ∈ sv_calls x → authorised (ar_served r) i x o params;
  ro_streams : ∀ st, st ∈ ar_streams r → stream_ok (ar_served r) (os_opened_by st);
  ro_polled : ∀ p, p ∈ ar_polled r → po_calls p = [(LIST_EVENTS, [])] ∧ stream_ok (ar_served r) (po_opened_by p);
}.

Lemma stream_ok_app tr rest j : stream_ok tr j → stream_ok (tr ++ rest) j.
Proof.
  intros (x & Hx & ? & ? & Ha). exists x. pose proof (lookup_lt_Some _ _ _ Hx). split; [by apply lookup_app_l_Some|]. split; [done|]. split; [done|].
  apply authorised_app; [lia|done].
Qed.

Lemma serve_ok q d r : run_ok r → run_ok (serve scrypt repr dump_entry dump_event _call c q d r).
Proof.
  intros [Ht Hs Hst Hp]. unfold serve. destruct (serve_request q d (ar_api r)) as [x s'] eqn:Hr.
  destruct (serve_sound _ _ _ _ _ _ Ht Hr) as ([Ht' Hx] & _). split; cbn [ar_api ar_served ar_streams ar_polled]; [done| | |].
  - intros i y o params Hi Hin. apply lookup_snoc_Some in Hi as [[Hlt Hi]|[-> <-]]; (apply authorised_app; [lia|]); [by apply Hs|].
    apply Hx. by left.
  - intros st. rewrite elem_of_app. intros [Hin|Hin]; [by apply stream_ok_app, Hst|]. destruct (opens x) eqn:Ho; [|by apply elem_of_nil in Hin].
    apply list_elem_of_singleton in Hin as ->. cbn [os_opened_by]. exists x. split; [by apply list_lookup_middle|].
    assert (Hopen := Ho). unfold opens in Hopen. destruct (hq_route (sv_request x)); try done. apply Z.eqb_eq in Hopen.
    split; [done|]. split; [done|]. apply authorised_app; [done|]. apply Hx. by right.
  - intros p Hin. destruct (Hp p Hin) as [? ?]. split; [done|]. by apply stream_ok_app.
Qed.

Lemma poll_calls (w : wire) : (client_list_events recorded_call w).2.2 = w.2 ++ [(LIST_EVENTS, [])].
Proof.
  unfold client_list_events, _require_list, _require_data, mbind, m_bind, ControlApi.recorded_call. destruct (_call LIST_EVENTS [] w.1) as [[a|e] core]; [|done].
  destruct (rs_ok a); [|done]. destruct (rs_data a) as [x|]; [|done]. by destruct x.
Qed.
Lemma elem_of_delete {A} k (l : list A) x : x ∈ delete k l → x ∈ l.
Proof.
  rewrite delete_take_drop, elem_of_app. intros [Hin|Hin]; apply list_elem_of_lookup in Hin as [i Hi]; apply list_elem_of_lookup.
  - apply lookup_take_Some in Hi as [Hi _]. by exists i.
  - rewrite lookup_drop in Hi. by eexists.
Qed.
Lemma poll_ok k r : run_ok r → run_ok (poll_stream _call k r).
Proof.
  intros [Ht Hs Hst Hp]. unfold poll_stream. destruct (ar_streams r !! k) as [st|] eqn:Hk; [|done].
  pose proof (poll_calls ((ar_api r).2.2, [])) as Hc. destruct (client_list_events _ _) as [a [core calls]]. cbn in Hc. subst calls.
  assert (Hsk : stream_ok (ar_served r) (os_opened_by st)) by (by apply Hst, list_elem_of_lookup; exists k).
  assert (Hins : ∀ answer st', st' ∈ <[k := mk_open_stream (os_opened_by st) (os_answers st ++ [answer])]> (ar_streams r) →
    stream_ok (ar_served r) (os_opened_by st')).
  { intros answer st' Hin. apply list_elem_of_lookup in Hin as [i Hi]. apply list_lookup_insert_Some in Hi as [(_ & <- & _)|[_ Hi]]; [done|].
    by apply Hst, list_elem_of_lookup; exists i. }
  assert (Hdel : ∀ st', st' ∈ delete k (ar_streams r) → stream_ok (ar_served r) (os_opened_by st')).
  { intros st' Hin. apply Hst. by apply elem_of_delete in Hin. }
  split; cbn [ar_api ar_served ar_streams ar_polled fst]; [done|done| |].
  - intros st' Hin. destruct a as [l|e]; [by apply (Hins (inr l))|]. destruct e; try (by apply Hdel). by eapply Hins.
  - intros p. rewrite elem_of_app. intros [Hin|Hin]; [by apply Hp|]. by apply list_elem_of_singleton in Hin as ->.
Qed.
Lemma disconnect_ok k r : run_ok r → run_ok (disconnect k r).
Proof.
  intros [Ht Hs Hst Hp]. split; [done|done| |done]. cbn [ar_streams disconnect]. intros st Hin. apply Hst.
  by apply elem_of_delete in Hin.
Qed.
Lemma run_api_ok es : ∀ r, run_ok r → run_ok (foldl run_event r es).
Proof. induction es as [|e es IH]; intros r Hr; [done|]. apply IH. destruct e; [by apply serve_ok|by apply poll_ok|by apply disconnect_ok]. Qed.

(** C21: every call the API makes to the core is authorised.  In any run of a
    fresh application, whatever the core answers, a call made by a request was
    made for a request admitted as coming from the Admin PC; it is either the
    audit event of a failed sign-in, or one of the operations of the requested
    route, for a token that an earlier correct sign-in issued, less than the
    lifetime ago, not signed out since and used within the idle limit; an
    allowlist addition and an enforcing guard had the password confirmed by
    the request itself, panic had its typed word, and guard changes and panic
    carry the administrator's name.  The only other calls are the polls of the
    event streams: each is one reading of the events, of a stream whose opening
    request was authorised in this sense when it was made (the polls go on for
    as long as the connection does, whatever becomes of the session). *)
Theorem api_calls_are_authorised es core :
  let r := run_api es core in
  (∀ i x o params, ar_served r !! i = Some x → (o, params) ∈ sv_calls x → authorised (ar_served r) i x o params) ∧
  (∀ p, p ∈ ar_polled r → po_calls p = [(LIST_EVENTS, [])] ∧ stream_ok (ar_served r) (po_opened_by p)).
Proof.
  assert (Hok : run_ok (run_api es core)).
  { apply run_api_ok. split; cbn [new_run ar_api ar_served ar_streams ar_polled]; [|done|by intros st ?%elem_of_nil|by intros p ?%elem_of_nil].
    split; [done|done|]. intros token y Hy. done. }
  split; apply Hok.
Qed.
End Props.

(** ** The configuration view *)

Definition field_at (d : list (string * json)) (f : string * string) : option json :=
  match dget d f.1 with Some (JObj section) => dget section f.2 | _ => None end.
Definition hidden (v : json) : json := match v with JNull => JNull | _ => _REDACTION_PLACEHOLDER end.

Lemma redact_field_at d f g : field_at (redact_field d f) g = (if decide (f = g) then hidden <$> field_at d g else field_at d g).
Proof.
  destruct f as [s1 f1], g as [s2 f2]. unfold redact_field, field_at. cbn [fst snd].
  destruct (dget d s1) as [v|] eqn:Hs; [destruct v|]; try (case_decide as He; [|done]; injection He as <- <-; by rewrite Hs).
  destruct (dget o f1) as [v|] eqn:Hf.
  2:{ case_decide as He; [|done]. injection He as <- <-. by rewrite Hs, Hf. }
  assert (Hnull : v = JNull ∨ v ≠ JNull) by (destruct v; first [by left|by right]). destruct Hnull as [->|Hv].
  { case_decide as He; [|done]. injection He as <- <-. by rewrite Hs, Hf. }
  assert (Hset : dget (dset d s1 (JObj (dset o f1 _REDACTION_PLACEHOLDER))) s2 =
                 if decide (s1 = s2) then Some (JObj (dset o f1 _REDACTION_PLACEHOLDER)) else dget d s2) by apply dget_set.
  assert (Hh : hidden v = _REDACTION_PLACEHOLDER) by (by destruct v).
  destruct v; try done; rewrite Hset; (case_decide as H1; [subst s2; rewrite Hs, dget_set; case_decide as H2;
    [subst f2; by rewrite decide_True, Hf by done|by rewrite decide_False by congruence]|by rewrite decide_False by congruence]).
Qed.

Lemma redact_fold fields : ∀ d f, field_at (foldl redact_field d fields) f = if inb f fields then hidden <$> field_at d f else field_at d f.
Proof.
  induction fields as [|g fields IH]; intros d f; [done|]. cbn [foldl]. rewrite IH, redact_field_at.
  destruct (inb f (g :: fields)) eqn:Hin.
  - apply inb_true, elem_of_cons in Hin. case_decide as Hd.
    + destruct (inb f fields); [|done]. destruct (field_at d f) as [v|]; [|done]. by destruct v.
    + destruct Hin as [->|Hin]; [done|]. by rewrite (proj2 (inb_true _ _) Hin).
  - apply inb_false in Hin. rewrite not_elem_of_cons in Hin. destruct Hin as [Hne Hin]. rewrite decide_False by congruence.
    by rewrite (proj2 (inb_false _ _) Hin).
Qed.

(** The configuration view hides the value of every secret field, and of
    nothing else; an unset field still reads as null. *)
Theorem redaction_exact d f : field_at (redact d) f = if inb f _REDACTED_FIELDS then hidden <$> field_at d f else field_at d f.
Proof. apply redact_fold. Qed.

(** * The live event stream (api/routes/events_stream.py)

    A connection is a generator: it polls the core's event list, sends what is
    new, and keeps the ids of the last poll.  One [poll] is one turn of its
    loop, on the list the core answered or on the text of an [RpcError]; the
    frames are rendered by [_sse] over the JSON encoder. *)

Local Open Scope Z_scope.

Definition _INITIAL_BACKLOG : nat := 25.
Definition _KEEPALIVE_EVERY_N_POLLS : Z := 30.
Definition _EVENT_NAME : string := "security_event".
Definition _ERROR_NAME : string := "error".

Definition newline : string := String (ascii_of_nat 10) "".
Definition _sse (dumps : json → string) (name : string) (payload : json) : string :=
  "event: " +:+ name +:+ newline +:+ "data: " +:+ dumps payload +:+ newline +:+ newline.

Section Stream.
Context {E : Type} (event_id : E → string) (dump : E → json) (dumps : json → string).

(** [events[-n:]] *)
Definition last_n (n : nat) (l : list E) : list E := drop (length l - n) l.
Definition _select_new (events : list E) (seen : list string) (first_pass : bool) : list E :=
  if first_pass then last_n _INITIAL_BACKLOG events else filter (λ e, event_id e ∉ seen) events.

Record sse_stream : Type := mk_stream { sm_seen : list string; sm_first_pass : bool; sm_quiet_polls : Z }.
Definition new_stream : sse_stream := mk_stream [] true 0.

Inductive frame : Type := FEvent (e : E) | FError (detail : string) | FKeepAlive.
Definition frame_text (f : frame) : string :=
  match f with
  | FEvent e => _sse dumps _EVENT_NAME (dump e)
  | FError msg => _sse dumps _ERROR_NAME (JObj [("detail", JStr ("pirewall-core is unreachable: " +:+ msg))])
  | FKeepAlive => ": keep-alive" +:+ newline +:+ newline
  end.

(** One turn of the loop of [event_source] *)
Definition poll (answer : string + list E) (s : sse_stream) : list frame * sse_stream :=
  match answer with
  | inl msg => ([FError msg], s)
  | inr events =>
      let fresh := _select_new events (sm_seen s) (sm_first_pass s) in
      let seen := event_id <$> events in
      match fresh with
      | _ :: _ => (FEvent <$> fresh, mk_stream seen false 0)
      | [] =>
          let quiet := sm_quiet_polls s + 1 in
          if _KEEPALIVE_EVERY_N_POLLS <=? quiet then ([FKeepAlive], mk_stream seen false 0) else ([], mk_stream seen false quiet)
      end
  end.
Fixpoint event_source (answers : list (string + list E)) (s : sse_stream) : list frame :=
  match answers with
  | [] => []
  | a :: answers => let '(frames, s) := poll a s in frames ++ event_source answers s
  end.

(** ** What a connection delivers *)

Definition delivered (frames : list frame) : list E := omap (λ f, match f with FEvent e => Some e | _ => None end) frames.

(** The part of the core's log between two positions.  The core's history is
    such a window, and both its ends only move forward. *)
Definition window (log : list E) (a b : nat) : list E := take (b - a) (drop a log).

Lemma window_split log a b d : (a ≤ b ≤ d)%nat → window log a d = window log a b ++ window log b d.
Proof.
  intros Hab. unfold window. replace (d - a)%nat with ((b - a) + (d - b))%nat by lia. rewrite <- take_take_drop, drop_drop. do 3 f_equal. lia.
Qed.

Lemma elem_of_window log a b e : e ∈ window log a b → ∃ i, (a ≤ i < b)%nat ∧ log !! i = Some e.
Proof.
  intros He. apply list_elem_of_lookup in He as [i Hi]. unfold window in Hi. apply lookup_take_Some in Hi as [Hi Hb]. rewrite lookup_drop in Hi.
  exists (a + i)%nat. split; [lia|done].
Qed.

(** What is new between two windows is what the first did not reach. *)
Lemma fresh_window log a b a' b' : NoDup (event_id <$> log) → (a ≤ a' ≤ b)%nat → (b ≤ b')%nat →
  filter (λ e, event_id e ∉ event_id <$> window log a b) (window log a' b') = window log b b'.
Proof.
  intros Hnd Ha Hb. rewrite (window_split log a' b b'), filter_app by lia.
  assert (Hsame : ∀ i j e e', log !! i = Some e → log !! j = Some e' → event_id e = event_id e' → i = j).
  { intros i j e e' Hi Hj He. apply (NoDup_lookup (event_id <$> log) i j (event_id e)); [done|by rewrite list_lookup_fmap, Hi|].
    by rewrite list_lookup_fmap, Hj, He. }
  assert (Hold : filter (λ e, event_id e ∉ event_id <$> window log a b) (window log a' b) = []).
  { apply filter_none. intros e He Hn. apply Hn, list_elem_of_fmap. exists e. split; [done|].
    rewrite (window_split log a a' b), elem_of_app by lia. by right. }
  rewrite Hold. cbn [app]. apply filter_all. intros e He Hin. apply list_elem_of_fmap in Hin as (e' & Hid & He').
  apply elem_of_window in He as (i & Hi & Hie). apply elem_of_window in He' as (j & Hj & Hje).
  assert (i = j) by (by apply (Hsame i j e e')). lia.
Qed.

(** The polls after one that saw [a, b): windows without a gap *)
Inductive gapless (log : list E) : nat → nat → list (string + list E) → nat → Prop :=
| gapless_nil a b : gapless log a b [] b
| gapless_error a b msg polls n : gapless log a b polls n → gapless log a b (inl msg :: polls) n
| gapless_window a b a' b' polls n : (a ≤ a' ≤ b)%nat → (b ≤ b')%nat → gapless log a' b' polls n →
    gapless log a b (inr (window log a' b') :: polls) n.

Lemma gapless_end log a b polls n : gapless log a b polls n → (b ≤ n)%nat.
Proof. induction 1; lia. Qed.

Lemma delivered_app l l' : delivered (l ++ l') = delivered l ++ delivered l'.
Proof. apply omap_app. Qed.
Lemma delivered_events l : delivered (FEvent <$> l) = l.
Proof. induction l as [|e l IH]; [done|]. exact (f_equal (cons e) IH). Qed.

Lemma poll_events events s : let '(frames, s') := poll (inr events) s in
  delivered frames = _select_new events (sm_seen s) (sm_first_pass s) ∧ sm_seen s' = event_id <$> events ∧ sm_first_pass s' = false.
Proof.
  unfold poll. destruct (_select_new events (sm_seen s) (sm_first_pass s)) as [|e fresh]; [destruct (_ <=? _); done|].
  split; [|done]. apply (delivered_events (e :: fresh)).
Qed.

Lemma source_rest log polls a b n s : NoDup (event_id <$> log) → gapless log a b polls n →
  sm_seen s = event_id <$> window log a b → sm_first_pass s = false → delivered (event_source polls s) = window log b n.
Proof.
  intros Hnd Hg. revert s. induction Hg as [a b|a b msg polls n Hg IH|a b a' b' polls n Ha Hb Hg IH]; intros s Hseen Hf.
  - unfold window. by rewrite Nat.sub_diag.
  - cbn [event_source poll]. rewrite delivered_app. by apply IH.
  - cbn [event_source]. pose proof (poll_events (window log a' b') s) as Hp. destruct (poll _ s) as [frames s'].
    destruct Hp as (Hd & Hs' & Hf'). rewrite delivered_app, Hd, (IH s' Hs' Hf'). unfold _select_new. rewrite Hf, Hseen, fresh_window by done.
    rewrite <- window_split; [done|]. pose proof (gapless_end _ _ _ _ _ Hg). lia.
Qed.

(** a connection first gets the last events of the history, at most 25,
    and then every event recorded after its first poll, once and in order,
    for as long as the history does not drop events between two polls;
    failing polls in between lose nothing. *)
Theorem stream_delivers_each_event_once log a b errors polls n :
  NoDup (event_id <$> log) → (a ≤ b)%nat → gapless log a b polls n →
  delivered (event_source (map inl errors ++ inr (window log a b) :: polls) new_stream) =
  last_n _INITIAL_BACKLOG (window log a b) ++ window log b n.
Proof.
  intros Hnd Hab Hg. induction errors as [|msg errors IH]; cbn [map Datatypes.app event_source].
  - pose proof (poll_events (window log a b) new_stream) as Hp. destruct (poll _ new_stream) as [frames s']. destruct Hp as (Hd & Hs' & Hf').
    rewrite delivered_app, Hd. f_equal. by apply (source_rest log polls a b).
  - cbn [poll]. rewrite delivered_app. exact IH.
Qed.
End Stream.
