(* ===== verification/PortalWeb.v ===== *)
(** * The captive portal's web application (portal/app.py, routes.py, render.py)

    The process holds no state: a request is answered by calls on the portal's
    socket, over any [_call], made for the peer address of the connection.  The
    pages are modelled whole, but for the style sheet and the script, which are
    constants passed in; text reaches a page only through [_e].  A backquote
    in a template stands for a double quote.

    A body is its bytes, and a text is the bytes of its UTF-8 encoding, one
    character each.  [replace_invalid] is the decoder that replaces invalid
    sequences, which [urllib] uses for percent-decoded bytes. *)

From S2P Require Import Prelude Float Net Models RateLimiter Sets SetBackend Backend Validator Manager Lifecycle Throttle PortalSessions PortalStore PortalService Flow Thresholds Threat Inference Runtime Json Rpc RpcProps RpcClient.
Local Open Scope Z_scope.

(** ** HTML (portal/render.py) *)

(** [html.escape(s, quote=True)] *)
Definition escape_char (c : ascii) : list ascii :=
  match nat_of_ascii c with
  | 38%nat => string_to_list "&amp;"
  | 60%nat => string_to_list "&lt;"
  | 62%nat => string_to_list "&gt;"
  | 34%nat => string_to_list "&quot;"
  | 39%nat => string_to_list "&#x27;"
  | _ => [c]
  end.
Definition escape_chars (l : list ascii) : list ascii := l ≫= escape_char.
Definition _e (s : string) : string := string_of_list (escape_chars (string_to_list s)).

(** A template *)
Definition quoted (c : ascii) : ascii := if decide (c = "`"%char) then ascii_of_nat 34 else c.
Definition tpl (s : string) : string := string_of_list (quoted <$> string_to_list s).

Section Render.
Context (_STYLE _KEEPALIVE_SCRIPT : string).

Definition _page (title body script : string) : string :=
  tpl "<!doctype html><html lang=`en`><head><meta charset=`utf-8`>" +:+
  tpl "<meta name=`viewport` content=`width=device-width, initial-scale=1`>" +:+
  "<title>" +:+ _e title +:+ "</title><style>" +:+ _STYLE +:+ "</style></head>" +:+
  tpl "<body><main class=`card`>" +:+ body +:+ "</main>" +:+ script +:+ "</body></html>".
Definition _demo_banner (demo_accounts_present : bool) : string :=
  if demo_accounts_present
  then tpl "<div class=`notice warn`><strong>Demo accounts are active.</strong> " +:+
       "This network is using the sample credentials published in the setup documentation. They must be removed before production use.</div>"
  else "".
Definition given (s text : string) : string := if String.eqb s "" then "" else text.
Definition render_login_page (network_name error : string) (demo_accounts_present : bool) (contact_message : string) : string :=
  let error_html := given error (tpl "<div class=`notice error`>" +:+ _e error +:+ "</div>") in
  let contact := given contact_message (tpl "<p class=`foot`>" +:+ _e contact_message +:+ "</p>") in
  let body :=
    "<h1>Sign in to " +:+ _e network_name +:+ "</h1>" +:+
    tpl "<p class=`sub`>This network requires authentication before internet access is granted.</p>" +:+
    _demo_banner demo_accounts_present +:+ error_html +:+
    tpl "<form method=`post` action=`/portal/login`>" +:+
    tpl "<label for=`username`>Username</label>" +:+
    tpl "<input id=`username` name=`username` type=`text` autocomplete=`username` " +:+
    tpl "autocapitalize=`none` autocorrect=`off` spellcheck=`false` required autofocus>" +:+
    tpl "<label for=`password`>Password</label>" +:+
    tpl "<input id=`password` name=`password` type=`password` " +:+
    tpl "autocomplete=`current-password` required>" +:+
    tpl "<button type=`submit`>Sign in</button>" +:+
    "</form>" +:+ contact in
  _page ("Sign in — " +:+ network_name) body "".
Definition render_blocked_page (network_name message : string) : string :=
  let body :=
    tpl "<div class=`status`><span class=`dot bad`></span>Network access suspended</div>" +:+
    tpl "<p class=`sub` style=`margin-top:12px`>" +:+ _e network_name +:+ "</p>" +:+
    tpl "<div class=`notice error`>" +:+ _e message +:+ "</div>" +:+
    tpl "<form method=`get` action=`/portal`><button class=`secondary` type=`submit`>" +:+
    "Back to sign in</button></form>" in
  _page ("Access suspended — " +:+ network_name) body "".
(** [json.dumps] of the two integers *)
Definition island (seconds_remaining keepalive_interval_seconds : Z) : string :=
  tpl "{`secondsRemaining`: " +:+ str_Z seconds_remaining +:+ tpl ", `intervalSeconds`: " +:+ str_Z keepalive_interval_seconds +:+ "}".
Definition render_keepalive_page (network_name username client_ip : string) (seconds_remaining keepalive_interval_seconds : Z)
  (contact_message : string) : string :=
  let body :=
    tpl "<div class=`status`><span class=`dot` id=`dot`></span>" +:+
    tpl "<span id=`state`>Authentication keepalive active</span></div>" +:+
    tpl "<p class=`sub` style=`margin-top:12px`>Connected to " +:+ _e network_name +:+ ".</p>" +:+
    tpl "<div class=`notice` id=`alert` hidden></div>" +:+
    tpl "<dl class=`meta`>" +:+
    "<dt>Signed in</dt><dd>" +:+ _e username +:+ "</dd>" +:+
    "<dt>Device</dt><dd>" +:+ _e client_ip +:+ "</dd>" +:+
    "</dl>" +:+
    tpl "<div class=`countdown` id=`countdown`>" +:+
    tpl "<div class=`time` id=`time`>--:--</div>" +:+
    tpl "<div class=`label`>until automatic sign-out</div>" +:+
    "</div>" +:+
    tpl "<form method=`post` action=`/portal/logout`>" +:+
    tpl "<button class=`secondary` type=`submit`>Sign out now</button></form>" +:+
    tpl "<p class=`foot`>" +:+ _e contact_message +:+ "</p>" in
  let script :=
    tpl "<script type=`application/json` id=`portal-data`>" +:+ island seconds_remaining keepalive_interval_seconds +:+ "</script>" +:+
    "<script>" +:+ _KEEPALIVE_SCRIPT +:+ "</script>" in
  _page ("Connected — " +:+ network_name) body script.
End Render.

(** ** The sign-in form *)

Definition _MAX_LOGIN_BODY_BYTES : nat := 8192.

(** [bytes.decode("utf-8")] succeeds on well-formed bytes *)
Definition cont (b : Z) : bool := (128 <=? b) && (b <=? 191).
Definition within (lo hi b : Z) : bool := (lo <=? b) && (b <=? hi).
Fixpoint utf8_ok (l : list Z) : bool :=
  match l with
  | [] => true
  | b :: l =>
      if b <? 128 then utf8_ok l
      else match l with
           | [] => false
           | c :: l =>
               if within 194 223 b then cont c && utf8_ok l
               else match l with
                    | [] => false
                    | d :: l =>
                        if within 224 239 b
                        then within (if b =? 224 then 160 else 128) (if b =? 237 then 159 else 191) c && cont d && utf8_ok l
                        else match l with
                             | [] => false
                             | e :: l =>
                                 within 240 244 b && within (if b =? 240 then 144 else 128) (if b =? 244 then 143 else 191) c &&
                                 cont d && cont e && utf8_ok l
                             end
                    end
           end
  end.

(** [unquote_to_bytes]: a percent sign and two digits are a byte *)
Fixpoint percent_decode (l : list ascii) : list ascii :=
  match l with
  | [] => []
  | c :: l' =>
      if decide (c = "%"%char)
      then match l' with
           | a :: b :: l'' =>
               if Mac.is_hex a && Mac.is_hex b then ascii_of_nat (Z.to_nat (Mac.hex_val a * 16 + Mac.hex_val b)) :: percent_decode l''
               else c :: percent_decode l'
           | _ => c :: percent_decode l'
           end
      else c :: percent_decode l'
  end.

Section Form.
Context (replace_invalid : list ascii → list ascii).

(** [_asciire.split]: the runs of ASCII are decoded *)
Definition is_ascii_char (c : ascii) : bool := (nat_of_ascii c <? 128)%nat.
Fixpoint unquote_runs (run : list ascii) (l : list ascii) : list ascii :=
  match l with
  | [] => match run with [] => [] | _ => replace_invalid (percent_decode (reverse run)) end
  | c :: l' =>
      if is_ascii_char c then unquote_runs (c :: run) l'
      else match run with [] => [] | _ => replace_invalid (percent_decode (reverse run)) end ++ c :: unquote_runs [] l'
  end.
Definition unquote (l : list ascii) : list ascii := if inb "%"%char l then unquote_runs [] l else l.
Definition plus_to_space (c : ascii) : ascii := if decide (c = "+"%char) then " "%char else c.
Definition form_text (l : list ascii) : string := string_of_list (unquote (plus_to_space <$> l)).

(** [name_value.split("=", 1)], a blank value where there is none *)
Definition split_pair (l : list ascii) : list ascii * list ascii :=
  match split_once "="%char l with Some p => p | None => (l, []) end.
(** [dict(parse_qsl(text, keep_blank_values=True))] *)
Definition parse_qsl (l : list ascii) : list (string * string) :=
  let args := match l with [] => [] | _ => split_on "&"%char l end in
  (λ nv, (form_text (split_pair nv).1, form_text (split_pair nv).2)) <$> filter (λ nv, nv ≠ []) args.
Definition as_bytes (l : list Z) : list ascii := (λ b, ascii_of_nat (Z.to_nat b)) <$> l.
Definition _read_credentials (raw : list Z) : string * string :=
  if (_MAX_LOGIN_BODY_BYTES <? length raw)%nat then ("", "")
  else if utf8_ok raw
  then let fields := dupdate [] (parse_qsl (as_bytes raw)) in
       (default "" (dget fields "username"), default "" (dget fields "password"))
  else ("", "").
End Form.

(** ** Routes *)

Definition PORTAL_COOKIE_NAME : string := "pirewall_portal_session".
Definition COOKIE_MAX_AGE_SECONDS : Z := 86400.
Definition CAPTIVE_PROBE_PATHS : list string :=
  ["/generate_204"; "/gen_204"; "/hotspot-detect.html"; "/library/test/success.html"; "/connecttest.txt"; "/ncsi.txt"; "/success.txt";
   "/canonical.html"].

Inductive portal_route : Type :=
| PLoginPage (error : string)            (** the query parameter, empty where absent *)
| PLogin (body : list Z)
| PConnected
| PKeepalive
| PLogout
| PHealth
| PProbe (path : string).                (** a probe path, [/] or an unknown path *)
Record portal_request : Type := mk_portal_request { pr_route : portal_route; pr_peer : option string; pr_cookie : option string }.

(** The portal section of the configuration, as the pages read it *)
Record PortalPages : Type := mk_portal_pages { pp_network_name : string; pp_contact_message : string; pp_keepalive_interval_seconds : Z }.

Inductive portal_cookie := KeepCookie | GiveCookie (token : string) (max_age : Z) (path : string) | DropCookie (path : string).
Inductive portal_body : Type := PHtml (html : string) | PRedirect (location : string) | PState (s : PortalClientState) | PJson (fields : list (string * string)).
Record portal_http : Type := mk_portal_http { ph_status : Z; ph_cookie : portal_cookie; ph_body : portal_body }.
Definition redirect (location : string) (status : Z) : portal_http := mk_portal_http status KeepCookie (PRedirect location).
Definition html_page (html : string) (status : Z) : portal_http := mk_portal_http status KeepCookie (PHtml html).

Section Portal.
Context (_STYLE _KEEPALIVE_SCRIPT : string) (replace_invalid : list ascii → list ascii) (p : PortalPages).
Context {C : Type} (_call : RpcOperation → list (string * json) → M C response).

(** The calls made are recorded beside the other end. *)
Definition portal_wire : Type := C * list (RpcOperation * list (string * json)).
Definition portal_call (o : RpcOperation) (params : list (string * json)) : M portal_wire response := λ w,
  let '(r, core) := _call o params w.1 in (r, (core, w.2 ++ [(o, params)])).

Definition bad_request {A} (detail : string) : M portal_wire A := mraise (HTTPException 400 detail []).
Definition client_address (q : portal_request) : M portal_wire IPv4.t :=
  match pr_peer q with
  | None => bad_request "could not determine client address"
  | Some host =>
      match IPv4.parse host with
      | Some ip => mret ip
      | None => bad_request "this network authenticates IPv4 clients only"
      end
  end.

(** [portal_status] and the one key that is read from it *)
Definition demo_accounts_present : M portal_wire bool := λ w,
  match client_portal_status portal_call w with
  | (Ok s, w) => (Ok (ps_demo_accounts_present s), w)
  | (Raise (RpcError _), w) => (Ok false, w)
  | (Raise e, w) => (Raise e, w)
  end.

Definition blocked (s : PortalClientState) : portal_http := html_page (render_blocked_page _STYLE (pp_network_name p) (cs_message s)) 403.
Definition sign_in_page (error : string) (status : Z) : M portal_wire portal_http :=
  demo ← demo_accounts_present;
  mret (html_page (render_login_page _STYLE (pp_network_name p) error demo (pp_contact_message p)) status).

Definition portal_login_page (error : string) (cookie : option string) (ip : IPv4.t) : M portal_wire portal_http :=
  state ← client_portal_keepalive portal_call cookie ip;
  match cs_status state with
  | BLOCKED => mret (blocked state)
  | AUTHENTICATED => mret (redirect "/portal/connected" 303)
  | _ => sign_in_page error 200
  end.
Definition portal_login_route (body : list Z) (ip : IPv4.t) : M portal_wire portal_http := λ w,
  let '(username, password) := _read_credentials replace_invalid body in
  match client_portal_login portal_call username password ip w with
  | (Raise (RpcError msg), w) => sign_in_page msg 401 w
  | (Raise e, w) => (Raise e, w)
  | (Ok session, w) =>
      (Ok (mk_portal_http 303 (GiveCookie (se_token session) COOKIE_MAX_AGE_SECONDS "/portal") (PRedirect "/portal/connected")), w)
  end.
Definition connected (cookie : option string) (ip : IPv4.t) : M portal_wire portal_http :=
  state ← client_portal_keepalive portal_call cookie ip;
  match cs_status state with
  | BLOCKED => mret (blocked state)
  | AUTHENTICATED =>
      mret (html_page (render_keepalive_page _STYLE _KEEPALIVE_SCRIPT (pp_network_name p) (default "" (cs_username state))
        (IPv4.to_string (cs_client_ip state)) (cs_seconds_remaining state) (pp_keepalive_interval_seconds p) (pp_contact_message p)) 200)
  | _ => mret (redirect "/portal" 303)
  end.
Definition portal_keepalive_route (cookie : option string) (ip : IPv4.t) : M portal_wire portal_http :=
  state ← client_portal_keepalive portal_call cookie ip; mret (mk_portal_http 200 KeepCookie (PState state)).
Definition portal_logout_route (cookie : option string) (ip : IPv4.t) : M portal_wire portal_http :=
  _ ← match truthy cookie with Some token => _ ← client_portal_logout portal_call token ip; mret tt | None => mret tt end;
  mret (mk_portal_http 303 (DropCookie "/portal") (PRedirect "/portal")).
Definition _redirect_to_portal : portal_http := redirect "/portal" 302.

Definition portal_route_of (q : portal_request) : M portal_wire portal_http :=
  match pr_route q with
  | PHealth => mret (mk_portal_http 200 KeepCookie (PJson [("status", "ok")]))
  | PProbe _ => mret _redirect_to_portal
  | PLoginPage error => ip ← client_address q; portal_login_page error (pr_cookie q) ip
  | PLogin body => ip ← client_address q; portal_login_route body ip
  | PConnected => ip ← client_address q; connected (pr_cookie q) ip
  | PKeepalive => ip ← client_address q; portal_keepalive_route (pr_cookie q) ip
  | PLogout => ip ← client_address q; portal_logout_route (pr_cookie q) ip
  end.

Definition handle_core_unavailable (q : portal_request) : portal_http :=
  match pr_route q with
  | PKeepalive => mk_portal_http 503 KeepCookie (PJson [("status", "unavailable"); ("message", "The network controller is unreachable.")])
  | _ => html_page (render_blocked_page _STYLE (pp_network_name p)
           ("The network controller is temporarily unreachable, so sign-in is unavailable. " +:+ pp_contact_message p)) 503
  end.
Definition portal_answer (q : portal_request) (r : result portal_http) : portal_http :=
  match r with
  | Ok h => h
  | Raise (RpcError _) => handle_core_unavailable q
  | Raise (HTTPException status detail _) => mk_portal_http status KeepCookie (PJson [("detail", detail)])
  | Raise _ => mk_portal_http 500 KeepCookie (PJson [("detail", "Internal Server Error")])
  end.
(** One request: the answer, the other end after it, and the calls made *)
Definition portal_serve (q : portal_request) (core : C) : portal_http * C * list (RpcOperation * list (string * json)) :=
  let '(r, (core, calls)) := portal_route_of q (core, []) in (portal_answer q r, core, calls).

(** ** On whose behalf the portal acts *)

(** The connection's own address *)
Definition peer (q : portal_request) (ip : IPv4.t) : Prop := ∃ host, pr_peer q = Some host ∧ IPv4.parse host = Some ip.

(** A call of the portal for an address: one of the four portal operations,
    and any address in it is that one. *)
Definition for_address (ip : IPv4.t) (x : RpcOperation * list (string * json)) : Prop :=
  x.1 ∈ _PORTAL_OPERATIONS ∧ (x.1 ≠ PORTAL_STATUS → dget x.2 "client_ip" = Some (JStr (IPv4.to_string ip))).

Definition acts_for (ip : IPv4.t) (w w' : portal_wire) : Prop := ∃ l, w'.2 = w.2 ++ l ∧ Forall (for_address ip) l.
#[local] Instance acts_for_preorder ip : PreOrder (acts_for ip).
Proof.
  split.
  - intros w. exists []. by rewrite app_nil_r.
  - intros w1 w2 w3 (l & Hl & Hp) (l' & Hl' & Hp'). exists (l ++ l'). rewrite Hl', Hl, app_assoc. split; [done|]. by apply Forall_app.
Qed.

Lemma acts_value {A} ip o params (read : rpc_data → option A) : for_address ip (o, params) →
  framed (acts_for ip) (data ← _require_data portal_call o params; validated read data).
Proof.
  intros Hp. apply (frame_bind (acts_for ip)).
  - apply (frame_bind (acts_for ip)).
    + intros w. unfold portal_call. destruct (_call o params w.1) as [r core]. exists [(o, params)]. split; [done|]. by constructor.
    + intros r. destruct (rs_ok r); [|apply (frame_raise (acts_for ip))]. destruct (rs_data r); [apply (frame_ret (acts_for ip))|apply (frame_raise (acts_for ip))].
  - intros data. unfold validated. destruct (read data); [apply (frame_ret (acts_for ip))|apply (frame_raise (acts_for ip))].
Qed.
Ltac portal_op := apply acts_value; split; [solve [repeat (first [left|right])]|done].

Lemma acts_demo ip : framed (acts_for ip) demo_accounts_present.
Proof.
  intros w. unfold demo_accounts_present. assert (Hs : framed (acts_for ip) (client_portal_status portal_call)) by portal_op.
  specialize (Hs w). destruct (client_portal_status portal_call w) as [[s|e] w']; [exact Hs|]. by destruct e.
Qed.
Lemma acts_sign_in ip error status : framed (acts_for ip) (sign_in_page error status).
Proof. apply (frame_bind (acts_for ip)); [apply acts_demo|]. intros demo. apply (frame_ret (acts_for ip)). Qed.
Lemma acts_keepalive {A} ip cookie (k : PortalClientState → M portal_wire A) : (∀ s, framed (acts_for ip) (k s)) →
  framed (acts_for ip) (state ← client_portal_keepalive portal_call cookie ip; k state).
Proof. intros Hk. apply (frame_bind (acts_for ip)); [portal_op|done]. Qed.

Lemma acts_login ip body : framed (acts_for ip) (portal_login_route body ip).
Proof.
  intros w. unfold portal_login_route. destruct (_read_credentials replace_invalid body) as [username password].
  assert (Hl : framed (acts_for ip) (client_portal_login portal_call username password ip)) by portal_op.
  specialize (Hl w). destruct (client_portal_login portal_call username password ip w) as [[s|e] w']; [exact Hl|].
  destruct e; try exact Hl. etransitivity; [exact Hl|]. apply acts_sign_in.
Qed.
Lemma acts_logout ip cookie : framed (acts_for ip) (portal_logout_route cookie ip).
Proof.
  apply (frame_bind (acts_for ip)); [|intros _; apply (frame_ret (acts_for ip))]. destruct (truthy cookie); [|apply (frame_ret (acts_for ip))].
  apply (frame_bind (acts_for ip)); [portal_op|]. intros _. apply (frame_ret (acts_for ip)).
Qed.

(** C22: whatever a LAN client sends, the portal calls only the four operations
    of its socket, and only for the address the client's connection comes
    from: every call that names a client names the peer.  A request whose peer
    is unknown or is no IPv4 address makes no call at all. *)
Theorem portal_acts_for_the_peer q core :
  Forall (λ x, ∃ ip, peer q ip ∧ for_address ip x) (portal_serve q core).2.
Proof.
  unfold portal_serve. destruct (portal_route_of q (core, [])) as [r [core' calls]] eqn:Hr. cbn [snd].
  assert (Hcalls : calls = (portal_route_of q (core, [])).2.2) by (by rewrite Hr). rewrite Hcalls. clear.
  assert (Hpeer : ∀ k : IPv4.t → M portal_wire portal_http, (∀ ip, framed (acts_for ip) (k ip)) →
    Forall (λ x, ∃ ip, peer q ip ∧ for_address ip x) ((ip ← client_address q; k ip) (core, [])).2.2).
  { intros k Hk. unfold client_address, mbind, m_bind. destruct (pr_peer q) as [host|] eqn:Hp; [|constructor].
    destruct (IPv4.parse host) as [ip|] eqn:Hip; [|constructor]. destruct (Hk ip (core, [])) as (l & Hl & Hf). cbn in Hl. cbn [mret m_ret].
    rewrite Hl. eapply Forall_impl; [exact Hf|]. intros x Hx. exists ip. split; [by exists host|done]. }
  unfold portal_route_of. destruct (pr_route q); try (by constructor); apply Hpeer; intros ip.
  - apply acts_keepalive. intros s. destruct (cs_status s); try apply (frame_ret (acts_for ip)); apply acts_sign_in.
  - apply acts_login.
  - apply acts_keepalive. intros s. destruct (cs_status s); apply (frame_ret (acts_for ip)).
  - apply acts_keepalive. intros s. apply (frame_ret (acts_for ip)).
  - apply acts_logout.
Qed.
End Portal.

(** ** Text in pages *)

(** The characters that can open or close a tag or an attribute *)
Definition is_markup (c : ascii) : bool := inb (nat_of_ascii c) [60%nat; 62%nat; 34%nat; 39%nat].
Definition markup (s : string) : list ascii := filter (λ c, is_markup c = true) (string_to_list s).

Lemma markup_app a b : markup (a +:+ b) = markup a ++ markup b.
Proof. unfold markup. by rewrite string_to_list_app, filter_app. Qed.

Lemma escape_char_inert c : filter (λ c, is_markup c = true) (escape_char c) = [].
Proof. by destruct c as [[] [] [] [] [] [] [] []]; vm_compute. Qed.
Lemma markup_escaped s : markup (_e s) = [].
Proof.
  unfold markup, _e, escape_chars. rewrite string_to_of_list. induction (string_to_list s) as [|c l IH]; [done|].
  rewrite bind_cons, filter_app, escape_char_inert. exact IH.
Qed.
Lemma markup_given s t text text' : (s = "" ↔ t = "") → markup text = markup text' → markup (given s text) = markup (given t text').
Proof.
  intros Hst Hm. unfold given. destruct (String.eqb_spec s ""), (String.eqb_spec t ""); try done; naive_solver.
Qed.

(** What the browser reads back *)
Definition entities : list (list ascii * ascii) :=
  [(string_to_list "amp;", ascii_of_nat 38); (string_to_list "lt;", ascii_of_nat 60); (string_to_list "gt;", ascii_of_nat 62);
   (string_to_list "quot;", ascii_of_nat 34); (string_to_list "#x27;", ascii_of_nat 39)].
Fixpoint starts (p l : list ascii) : option (list ascii) :=
  match p, l with
  | [], _ => Some l
  | a :: p', b :: l' => if decide (a = b) then starts p' l' else None
  | _ :: _, [] => None
  end.
Definition entity (l : list ascii) : option (ascii * list ascii) :=
  foldr (λ e acc, match starts e.1 l with Some rest => Some (e.2, rest) | None => acc end) None entities.
Fixpoint unescape (fuel : nat) (l : list ascii) : list ascii :=
  match fuel with
  | O => []
  | S fuel =>
      match l with
      | [] => []
      | c :: l' =>
          if decide (c = ascii_of_nat 38)
          then match entity l' with Some (x, rest) => x :: unescape fuel rest | None => c :: unescape fuel l' end
          else c :: unescape fuel l'
      end
  end.

(** A text is shown as it is. *)
Theorem escaped_text_reads_back s fuel : (String.length s < fuel)%nat →
  unescape fuel (string_to_list (_e s)) = string_to_list s.
Proof.
  unfold _e, escape_chars. rewrite string_to_of_list. revert fuel.
  assert (Hlen : String.length s = length (string_to_list s)) by (induction s; [done|]; cbn; by f_equal). rewrite Hlen. clear Hlen.
  induction (string_to_list s) as [|c l IH]; intros [|fuel] Hf; cbn [length] in Hf; try lia; [done|].
  rewrite bind_cons. assert (Hc : unescape (S fuel) (escape_char c ++ (l ≫= escape_char)) = c :: unescape fuel (l ≫= escape_char)).
  { destruct c as [[] [] [] [] [] [] [] []]; vm_compute escape_char; reflexivity. }
  rewrite Hc, IH by lia. done.
Qed.

Lemma markup_paragraph tag close s t : (s = "" ↔ t = "") →
  markup (given s (tag +:+ _e s +:+ close)) = markup (given t (tag +:+ _e t +:+ close)).
Proof. intros Hst. apply markup_given; [done|]. by rewrite !markup_app, !markup_escaped. Qed.

(** No text reaches the markup of a page.  The tags, attributes and quotes
    of the sign-in page, the suspension page and the keepalive page are those
    of their templates, whatever the user name, the message, the error, the
    network name or the contact text hold: two renderings that show the same
    optional paragraphs have the same markup characters in the same order. *)
Theorem pages_keep_their_markup style script :
  (∀ n n' e e' demo k k', (e = "" ↔ e' = "") → (k = "" ↔ k' = "") →
     markup (render_login_page style n e demo k) = markup (render_login_page style n' e' demo k')) ∧
  (∀ n n' m m', markup (render_blocked_page style n m) = markup (render_blocked_page style n' m')) ∧
  (∀ n n' u u' ip ip' seconds interval k k',
     markup (render_keepalive_page style script n u ip seconds interval k) = markup (render_keepalive_page style script n' u' ip' seconds interval k')).
Proof.
  split; [|split].
  - intros n n' e e' demo k k' He Hk. unfold render_login_page, _page. rewrite !markup_app, !markup_escaped.
    by rewrite (markup_paragraph _ _ e e' He), (markup_paragraph _ _ k k' Hk).
  - intros n n' m m'. unfold render_blocked_page, _page. by rewrite !markup_app, !markup_escaped.
  - intros n n' u u' ip ip' seconds interval k k'. unfold render_keepalive_page, _page. by rewrite !markup_app, !markup_escaped.
Qed.

(** ** The form a browser sends *)

(** One encoding of a text: a plain character stands for itself, a space may
    be a plus sign, and any character may be its two digits. *)
Definition plain_char (c : ascii) : bool := is_ascii_char c && negb (inb c ["&"%char; "="%char; "+"%char; "%"%char]).
Inductive form_encoded : list ascii → list ascii → Prop :=
| enc_nil : form_encoded [] []
| enc_plain c l w : plain_char c = true → form_encoded l w → form_encoded (c :: l) (c :: w)
| enc_space l w : form_encoded l w → form_encoded (" "%char :: l) ("+"%char :: w)
| enc_digits c a b l w : Mac.is_hex a = true → Mac.is_hex b = true → Mac.hex_val a * 16 + Mac.hex_val b = Z.of_nat (nat_of_ascii c) →
    form_encoded l w → form_encoded (c :: l) ("%"%char :: a :: b :: w).

Definition codes_of (l : list ascii) : list Z := (λ c, Z.of_nat (nat_of_ascii c)) <$> l.
Lemma as_bytes_codes l : as_bytes (codes_of l) = l.
Proof. induction l as [|c l IH]; [done|]. cbn. rewrite Nat2Z.id, ascii_nat_embedding. by f_equal. Qed.
Lemma ascii_utf8 l : Forall (λ c, is_ascii_char c = true) l → utf8_ok (codes_of l) = true.
Proof.
  induction 1 as [|c l Hc _ IH]; [done|]. cbn [codes_of fmap list_fmap utf8_ok]. unfold is_ascii_char in Hc. apply Nat.ltb_lt in Hc.
  rewrite (proj2 (Z.ltb_lt _ 128)) by lia. exact IH.
Qed.

Lemma plain_char_facts c : plain_char c = true → is_ascii_char c = true ∧ c ≠ "&"%char ∧ c ≠ "="%char ∧ plus_to_space c = c ∧ c ≠ "%"%char.
Proof.
  intros Hc. apply andb_prop in Hc as [Ha Hn]. split; [done|]. apply negb_true_iff, inb_false in Hn. set_unfold in Hn.
  split; [tauto|]. split; [tauto|]. split; [|tauto]. unfold plus_to_space. rewrite decide_False by tauto. done.
Qed.
Lemma hex_char_facts c : Mac.is_hex c = true → is_ascii_char c = true ∧ c ≠ "&"%char ∧ c ≠ "="%char ∧ plus_to_space c = c.
Proof. by destruct c as [[] [] [] [] [] [] [] []]; intros Hx; vm_compute in Hx; try discriminate; vm_compute. Qed.

Lemma encoded_chars l w : form_encoded l w →
  Forall (λ c, is_ascii_char c = true) w ∧ "&"%char ∉ w ∧ "="%char ∉ w ∧ percent_decode (plus_to_space <$> w) = l ∧
  Forall (λ c, is_ascii_char c = true) (plus_to_space <$> w) ∧ ("%"%char ∉ plus_to_space <$> w → plus_to_space <$> w = l) ∧ (w = [] → l = []).
Proof.
  induction 1 as [|c l w Hc _ IH|l w _ IH|c a b l w Ha Hb Hv _ IH].
  - repeat split; try constructor; by apply not_elem_of_nil.
  - destruct (plain_char_facts c Hc) as (Hasc & H1 & H2 & H3 & H4). destruct IH as (I1 & I2 & I3 & I4 & I5 & I6 & _).
    cbn [fmap list_fmap]. rewrite H3. cbn [percent_decode]. rewrite decide_False, I4 by done.
    repeat split; try (by constructor); try (by apply not_elem_of_cons); [|done]. intros Hn. apply not_elem_of_cons in Hn as [_ Hn]. by rewrite I6.
  - destruct IH as (I1 & I2 & I3 & I4 & I5 & I6 & _). cbn [fmap list_fmap]. change (plus_to_space "+"%char) with " "%char. cbn [percent_decode].
    rewrite decide_False, I4 by done. repeat split; try (by constructor); try (by apply not_elem_of_cons); [|done].
    intros Hn. apply not_elem_of_cons in Hn as [_ Hn]. by rewrite I6.
  - destruct (hex_char_facts a Ha) as (A1 & A2 & A3 & A4), (hex_char_facts b Hb) as (B1 & B2 & B3 & B4). destruct IH as (I1 & I2 & I3 & I4 & I5 & I6 & _).
    cbn [fmap list_fmap]. change (plus_to_space "%"%char) with "%"%char. rewrite A4, B4. cbn [percent_decode]. rewrite decide_True by done.
    rewrite Ha, Hb. cbn [andb]. rewrite Hv, Nat2Z.id, ascii_nat_embedding, I4.
    split; [by repeat (apply Forall_cons; split)|]. split; [by repeat (apply not_elem_of_cons; split)|]. split; [by repeat (apply not_elem_of_cons; split)|].
    split; [done|]. split; [by repeat (apply Forall_cons; split)|]. split; [|done]. intros Hn. exfalso. apply Hn. left.
Qed.

Section FormLaws.
Context (replace_invalid : list ascii → list ascii).
(** The replacing decoder keeps what is well formed. *)
Definition decoder_law : Prop := ∀ l, utf8_ok (codes_of l) = true → replace_invalid l = l.

Lemma unquote_runs_ascii run l : Forall (λ c, is_ascii_char c = true) l → reverse run ++ l ≠ [] →
  unquote_runs replace_invalid run l = replace_invalid (percent_decode (reverse run ++ l)).
Proof.
  intros Hl. revert run. induction Hl as [|c l Hc _ IH]; intros run Hne; cbn [unquote_runs].
  - rewrite app_nil_r in *. by destruct run.
  - rewrite Hc, IH by (rewrite reverse_cons; by destruct (reverse run)). by rewrite reverse_cons, <- app_assoc.
Qed.
Lemma form_text_encoded l w : decoder_law → utf8_ok (codes_of l) = true → form_encoded l w → form_text replace_invalid w = string_of_list l.
Proof.
  intros Hlaw Hu He. destruct (encoded_chars l w He) as (_ & _ & _ & Hd & Ha & Hplain & _). unfold form_text, unquote.
  destruct (inb "%"%char (plus_to_space <$> w)) eqn:Hin.
  - apply inb_true in Hin. rewrite unquote_runs_ascii; [|done|]; rewrite reverse_nil, app_nil_l; [by rewrite Hd, Hlaw|].
    intros Hnil. rewrite Hnil in Hin. by apply elem_of_nil in Hin.
  - apply inb_false in Hin. by rewrite Hplain.
Qed.

(** The body of the sign-in form *)
Definition form_body (wu wp : list ascii) : list ascii :=
  string_to_list "username" ++ "="%char :: wu ++ "&"%char :: string_to_list "password" ++ "="%char :: wp.

(** The credentials a browser encodes are the credentials that are checked,
    whatever characters they hold and however it encodes them. *)
Theorem credentials_round_trip u pw wu wp : decoder_law →
  utf8_ok (codes_of u) = true → utf8_ok (codes_of pw) = true → form_encoded u wu → form_encoded pw wp →
  (length (form_body wu wp) ≤ _MAX_LOGIN_BODY_BYTES)%nat →
  _read_credentials replace_invalid (codes_of (form_body wu wp)) = (string_of_list u, string_of_list pw).
Proof.
  intros Hlaw Hu Hp Eu Ep Hlen. destruct (encoded_chars u wu Eu) as (Au & Nu & _), (encoded_chars pw wp Ep) as (Ap & Np & _).
  unfold _read_credentials. rewrite (proj2 (Nat.ltb_ge _ _)) by (unfold codes_of; by rewrite length_fmap).
  assert (Hasc : Forall (λ c, is_ascii_char c = true) (form_body wu wp)).
  { unfold form_body. rewrite !Forall_app, !Forall_cons, !Forall_app, !Forall_cons. repeat split; try done; by repeat constructor. }
  rewrite ascii_utf8, as_bytes_codes by done. unfold parse_qsl.
  assert (Hsplit : split_on "&"%char (form_body wu wp) = [string_to_list "username" ++ "="%char :: wu; string_to_list "password" ++ "="%char :: wp]).
  { unfold form_body. replace (string_to_list "username" ++ "="%char :: wu ++ "&"%char :: string_to_list "password" ++ "="%char :: wp)
      with ((string_to_list "username" ++ "="%char :: wu) ++ "&"%char :: (string_to_list "password" ++ "="%char :: wp)) by (by rewrite <- app_assoc).
    rewrite split_on_app, split_on_no_sep; [done|..]; rewrite elem_of_app, elem_of_cons; intros [Hx|[Hx|Hx]]; try done;
      by repeat (apply elem_of_cons in Hx as [Hx|Hx]; [discriminate|]); apply elem_of_nil in Hx. }
  destruct (form_body wu wp) as [|c0 l0] eqn:Hb; [done|]. rewrite Hsplit. cbn [filter list_filter]. rewrite !decide_True by done.
  cbn [fmap list_fmap]. unfold split_pair.
  assert (Hkey : ∀ k w, "="%char ∉ k → split_once "="%char (k ++ "="%char :: w) = Some (k, w)) by (intros k w Hk; by apply split_once_app).
  rewrite !Hkey by (by apply (bool_decide_unpack _); vm_compute). cbn [fst snd].
  rewrite (form_text_encoded u wu), (form_text_encoded pw wp) by done.
  change (form_text replace_invalid (string_to_list "username")) with "username". change (form_text replace_invalid (string_to_list "password")) with "password".
  reflexivity.
Qed.
End FormLaws.
