(* ===== verification/Daemon.v ===== *)
(** * The daemon's threads (runtime/core.py, capture/pipeline.py)

    [CoreDaemon] on the Python capture path: the capture thread turns frames
    into flows, the sweep thread expires flows and rules, the detection thread
    drains three bounded queues into the pipeline in use.  Each definition
    below is what a thread does between two points where another thread can
    run: one [put_nowait], one [get_nowait], one packet under the flow lock,
    one pass through the pipeline under the state lock.  [SystemStep] is the
    interleaving of those steps; [HostStep] adds what else writes to the
    kernel on its own: the portal half of the sweep loop, the requests on the
    portal's socket, the lease-sync thread, and the watch thread's polls,
    which feed the v2 pipeline.  The control socket, through
    which an operator acts, is not part of it.

    The manager, the forwarder and the counters are objects both pipelines
    share; the model keeps the manager in the pipeline that is in use, and the
    forwarder and the counters in the v1 pipeline.  A step reads each clock
    once.  The order in which Python iterates over the set of touched sources
    is the parameter [set_order]. *)

From S2P Require Import Prelude Float Net Models RateLimiter Sets SetBackend FakeSets Validator Backend Manager.
From S2P Require Import Policy Flow Parser Features Thresholds Threat Inference Runtime D1 Behavior Coordinator PipelineV1.
From S2P Require Import KernelPoller PipelineV2 Tls TlsCache.
Local Open Scope Z_scope.

Definition _FLOW_QUEUE_MAX : Z := 10000.
Definition _NEW_FLOW_QUEUE_MAX : Z := 50000.
Definition _SLOW_CLUSTER_QUEUE_MAX : Z := 1000.
Definition _TLS_PORT : Z := 443.

(** The clocks a step reads: [datetime.now], [time.monotonic] and the time an
    inference took. *)
Record Clock : Type := mk_clock { ck_now : Z; ck_mono : float; ck_elapsed : float }.

(** The configuration the loops read. *)
Record DaemonConfig : Type := mk_daemon_config {
  dm_cooldown : float;                  (** [detection.source_assessment_cooldown_seconds] *)
  dm_max_tracked_sources : Z;
  dm_slow_min_duration : float;
  dm_slow_max_bytes_per_second : float;
  dm_concurrent_slow_threshold : Z;
  dm_slow_max_idle : float;
  dm_flow_queue_max : Z;
  dm_replay : bool;
  dm_fail_open : bool;                  (** [failure.mode is FAIL_OPEN] *)
  dm_known_tools : list (string * string);
}.

(** The queues between the threads and what was dropped at each. *)
Record Queues : Type := mk_queues {
  q_flows : list Flow;
  q_signals : list NewFlowSignal;
  q_clusters : list SlowConnectionCluster;
  q_backpressure_drops : Z;
  q_signals_dropped : Z;
  q_clusters_dropped : Z;
}.

Section Daemon.
Context {B F : Type} {SB : SetBackend B} {FB : FirewallBackend F}.
Context (new_id : Z → string) (flow_id : Flow → string) (interp : float → list float → list float → float) (exn_text : exn → string).
Context (set_order : list IPv4.t → list IPv4.t).

Record CoreDaemon : Type := mk_daemon {
  cd_config : DaemonConfig;
  cd_pipeline : FlowPipeline B F;
  cd_v2 : option (@V2Pipeline B F);
  cd_aggregator : FlowAggregator;
  cd_queues : Queues;
  cd_tls_evidence : TlsCache;
  cd_early_assessed_at : list (IPv4.t * float);
  cd_malformed : Z;                     (** [capture.record_malformed] *)
  cd_replay : option Z * option Z;      (** [_replay_now_us], [_replay_last_sweep_us] *)
  cd_cleanup_interval : Z;              (** [flow.cleanup_interval_seconds] *)
}.

Definition cd_set_pipeline (s : CoreDaemon) x : CoreDaemon :=
  mk_daemon (cd_config s) x (cd_v2 s) (cd_aggregator s) (cd_queues s) (cd_tls_evidence s) (cd_early_assessed_at s) (cd_malformed s) (cd_replay s) (cd_cleanup_interval s).
Definition cd_set_v2 (s : CoreDaemon) x : CoreDaemon :=
  mk_daemon (cd_config s) (cd_pipeline s) x (cd_aggregator s) (cd_queues s) (cd_tls_evidence s) (cd_early_assessed_at s) (cd_malformed s) (cd_replay s) (cd_cleanup_interval s).
Definition cd_set_aggregator (s : CoreDaemon) x : CoreDaemon :=
  mk_daemon (cd_config s) (cd_pipeline s) (cd_v2 s) x (cd_queues s) (cd_tls_evidence s) (cd_early_assessed_at s) (cd_malformed s) (cd_replay s) (cd_cleanup_interval s).
Definition cd_set_queues (s : CoreDaemon) x : CoreDaemon :=
  mk_daemon (cd_config s) (cd_pipeline s) (cd_v2 s) (cd_aggregator s) x (cd_tls_evidence s) (cd_early_assessed_at s) (cd_malformed s) (cd_replay s) (cd_cleanup_interval s).
Definition cd_set_tls (s : CoreDaemon) x : CoreDaemon :=
  mk_daemon (cd_config s) (cd_pipeline s) (cd_v2 s) (cd_aggregator s) (cd_queues s) x (cd_early_assessed_at s) (cd_malformed s) (cd_replay s) (cd_cleanup_interval s).
Definition cd_set_early (s : CoreDaemon) x : CoreDaemon :=
  mk_daemon (cd_config s) (cd_pipeline s) (cd_v2 s) (cd_aggregator s) (cd_queues s) (cd_tls_evidence s) x (cd_malformed s) (cd_replay s) (cd_cleanup_interval s).
Definition cd_set_malformed (s : CoreDaemon) x : CoreDaemon :=
  mk_daemon (cd_config s) (cd_pipeline s) (cd_v2 s) (cd_aggregator s) (cd_queues s) (cd_tls_evidence s) (cd_early_assessed_at s) x (cd_replay s) (cd_cleanup_interval s).
Definition cd_set_replay (s : CoreDaemon) x : CoreDaemon :=
  mk_daemon (cd_config s) (cd_pipeline s) (cd_v2 s) (cd_aggregator s) (cd_queues s) (cd_tls_evidence s) (cd_early_assessed_at s) (cd_malformed s) x (cd_cleanup_interval s).

#[local] Notation DM := (M CoreDaemon).

Definition on_pipeline {A} (m : M (FlowPipeline B F) A) : DM A := λ s,
  let '(r, p) := m (cd_pipeline s) in (r, cd_set_pipeline s p).
Definition on_aggregator {A} (m : M FlowAggregator A) : DM A := λ s,
  let '(r, a) := m (cd_aggregator s) in (r, cd_set_aggregator s a).
Definition emit_event (e : SecurityEvent) : DM unit := on_pipeline (on_forwarder (emit e)).
Definition count_as (k : counter) (n : Z) : DM unit := on_pipeline (count_v1 k n).
Definition emit_warning (now : Z) (reason : string) : DM unit :=
  emit_event (mk_event now SEV_WARNING SYSTEM_WARNING CORE_SUBSYSTEM None None None (Some reason)).

(** The manager object of whichever pipeline is in use. *)
Definition daemon_manager (s : CoreDaemon) : FirewallManager B F :=
  match cd_v2 s with Some p => vp_manager p | None => fp_manager (cd_pipeline s) end.
Definition on_daemon_manager {A} (m : M (FirewallManager B F) A) : DM A := λ s,
  match cd_v2 s with
  | Some p => let '(r, w) := m (vp_manager p) in (r, cd_set_v2 s (Some (vp_set_manager p w)))
  | None => let '(r, p) := on_manager m (cd_pipeline s) in (r, cd_set_pipeline s p)
  end.

(** [m] on the v2 pipeline, where there is one. *)
Definition on_v2 {A} (m : M (@V2Pipeline B F) A) : DM A := λ s,
  match cd_v2 s with
  | Some p => let '(r, p') := m p in (r, cd_set_v2 s (Some p'))
  | None => (Raise AssertionError, s)
  end.

(** ** Producers *)

Definition set_flows (q : Queues) x : Queues :=
  mk_queues x (q_signals q) (q_clusters q) (q_backpressure_drops q) (q_signals_dropped q) (q_clusters_dropped q).
Definition set_signals (q : Queues) x : Queues :=
  mk_queues (q_flows q) x (q_clusters q) (q_backpressure_drops q) (q_signals_dropped q) (q_clusters_dropped q).
Definition set_clusters (q : Queues) x : Queues :=
  mk_queues (q_flows q) (q_signals q) x (q_backpressure_drops q) (q_signals_dropped q) (q_clusters_dropped q).
Definition set_dropped (q : Queues) flows signals clusters : Queues :=
  mk_queues (q_flows q) (q_signals q) (q_clusters q) flows signals clusters.
Definition on_queues (f : Queues → Queues) : DM unit := mmodify (λ s, cd_set_queues s (f (cd_queues s))).

Definition _note_backpressure_drop (f : Flow) (now : Z) : DM unit :=
  _ ← on_queues (λ q, set_dropped q (q_backpressure_drops q + 1) (q_signals_dropped q) (q_clusters_dropped q));
  _ ← count_as FLOWS_DROPPED 1;
  s ← mget;
  let count := q_backpressure_drops (cd_queues s) in
  if negb (reported count _BACKPRESSURE_REPORT_INTERVAL) then mret tt
  else emit_warning now ("detection queue full; " +:+ pretty count +:+ " flow(s) dropped without analysis. "
                         +:+ "Detection is falling behind capture.").

(** One iteration of [_enqueue]: whether the queue took the flow. *)
Definition _enqueue (f : Flow) (now : Z) : DM bool :=
  _ ← count_as FLOWS_COMPLETED 1;
  s ← mget;
  if Z.of_nat (length (q_flows (cd_queues s))) <? dm_flow_queue_max (cd_config s)
  then _ ← on_queues (λ q, set_flows q (q_flows q ++ [f])); mret true
  else _ ← _note_backpressure_drop f now; mret false.

Definition _handle_new_flow (signal : NewFlowSignal) : DM bool :=
  s ← mget;
  if Z.of_nat (length (q_signals (cd_queues s))) <? _NEW_FLOW_QUEUE_MAX
  then _ ← on_queues (λ q, set_signals q (q_signals q ++ [signal])); mret true
  else _ ← on_queues (λ q, set_dropped q (q_backpressure_drops q) (q_signals_dropped q + 1) (q_clusters_dropped q)); mret false.

(** One iteration of [_enqueue_slow_clusters]. *)
Definition _enqueue_slow_clusters (c : SlowConnectionCluster) : DM bool :=
  s ← mget;
  if Z.of_nat (length (q_clusters (cd_queues s))) <? _SLOW_CLUSTER_QUEUE_MAX
  then _ ← on_queues (λ q, set_clusters q (q_clusters q ++ [c])); mret true
  else _ ← on_queues (λ q, set_dropped q (q_backpressure_drops q) (q_signals_dropped q) (q_clusters_dropped q + 1)); mret false.

Inductive put := PutSignal (s : NewFlowSignal) | PutFlow (f : Flow) | PutCluster (c : SlowConnectionCluster).

Definition do_put (p : put) (now : Z) : DM bool :=
  match p with
  | PutSignal s => _handle_new_flow s
  | PutFlow f => _enqueue f now
  | PutCluster c => _enqueue_slow_clusters c
  end.

(** [_sweep_flows] up to its puts. *)
Definition _sweep_flows (now : Z) : DM (list put) :=
  completed ← on_aggregator (sweep_timeouts now);
  s ← mget;
  let c := cd_config s in
  let clusters := snapshot_slow_connection_clusters (cd_aggregator s) now (dm_slow_min_duration c) (dm_slow_max_bytes_per_second c)
                    (dm_concurrent_slow_threshold c) (dm_slow_max_idle c) in
  _ ← mlift (rforall (λ c, rbind (sc_representative_flow c) (λ _, Ok tt)) clusters);
  _ ← count_as FLOWS_EXPIRED (Z.of_nat (length completed));
  mret ((PutFlow <$> completed) ++ (PutCluster <$> clusters)).

Definition _sweep_on_replay_clock (now_us : Z) : DM (list put) :=
  s ← mget;
  match (cd_replay s).2 with
  | None => _ ← mmodify (λ s, cd_set_replay s ((cd_replay s).1, Some now_us)); mret []
  | Some last =>
      if now_us - last <? seconds (cd_cleanup_interval s) then mret []
      else _ ← mmodify (λ s, cd_set_replay s ((cd_replay s).1, Some now_us)); _sweep_flows now_us
  end.

Definition _note_replay_time (now_us : Z) : DM (list put) :=
  _ ← mmodify (λ s, cd_set_replay s (Some now_us, (cd_replay s).2));
  _sweep_on_replay_clock now_us.

(** [_finish_replay] up to its puts; the event follows them in the source. *)
Definition _finish_replay : DM (list put) :=
  remaining ← on_aggregator flush;
  _ ← count_as FLOWS_EXPIRED (Z.of_nat (length remaining));
  mret (PutFlow <$> remaining).

Definition record_malformed : DM unit := mmodify (λ s, cd_set_malformed s (cd_malformed s + 1)).

(** The new-flow callback runs inside [process_packet], before it returns. *)
Definition take_signals : DM (list NewFlowSignal) := λ s,
  let a := cd_aggregator s in
  (Ok (ag_signals a),
   cd_set_aggregator s (mk_aggregator (ag_table a) (ag_active_timeout_seconds a) (ag_inactive_timeout_seconds a)
                          (ag_protected_network a) (ag_on_new_flow a) [])).

Definition is_tls_port (p : PacketMetadata) : bool :=
  bool_decide (pk_protocol p = TCP) &&
  (bool_decide (pk_source_port p = Some _TLS_PORT) || bool_decide (pk_destination_port p = Some _TLS_PORT)).

(** One captured frame through [capture_packets]: the metadata it yields, if
    any. *)
Definition capture_packets (raw : list Z) (captured_at : Z) (now : Z) : DM (option PacketMetadata) :=
  match parse_packet raw captured_at with
  | Raise (UnsupportedProtocolError _) => _ ← record_malformed; mret None
  | Raise (PacketParseError msg) =>
      _ ← record_malformed;
      _ ← emit_event (mk_event now SEV_WARNING CAPTURE_ERROR "capture.pipeline" None None None (Some msg));
      mret None
  | Raise e => mraise e
  | Ok metadata =>
      _ ← mmodify (λ s, if is_tls_port metadata
                        then cd_set_tls s (_handle_tcp_payload (dm_known_tools (cd_config s)) metadata raw (cd_tls_evidence s))
                        else s);
      mret (Some metadata)
  end.

(** One iteration of [_python_capture_loop], up to the puts it makes. *)
Definition capture_frame (raw : list Z) (captured_at : Z) (now : Z) : DM (list put) :=
  metadata ← capture_packets raw captured_at now;
  match metadata with
  | None => mret []
  | Some metadata =>
      completed ← on_aggregator (process_packet metadata);
      signals ← take_signals;
      s ← mget;
      swept ← (if dm_replay (cd_config s) then _note_replay_time (pk_timestamp metadata) else mret []);
      mret ((PutSignal <$> signals) ++ (PutFlow <$> completed) ++ swept)
  end.

Definition expired_event (now : Z) (r : FirewallRule) : SecurityEvent :=
  mk_event now SEV_INFO RULE_EXPIRED CORE_SUBSYSTEM (rf_threat_score (fr_fields r)) (Some (rf_action (fr_fields r))) (Some (fr_id r))
    (Some "rule TTL elapsed").
Definition _expire_rules (now : Z) : DM unit :=
  expired ← on_daemon_manager (expire_rules now);
  mfold_unit (λ r, emit_event (expired_event now r)) expired.

(** ** The detection thread *)

Definition _detection_now (f : option Flow) (ck : Clock) (s : CoreDaemon) : Z :=
  if dm_replay (cd_config s) then
    match f with
    | Some f => fl_last_seen f
    | None => default (ck_now ck) (cd_replay s).1
    end
  else ck_now ck.

Definition trim_early (max : Z) (d : list (IPv4.t * float)) : list (IPv4.t * float) := drop (length d - Z.to_nat max) d.

Definition assess_early (ck : Clock) (source : IPv4.t) : DM unit :=
  s ← mget;
  let cooling := match dget (cd_early_assessed_at s) source with
                 | Some last => flt (fsub (ck_mono ck) last) (dm_cooldown (cd_config s))
                 | None => false
                 end in
  if cooling then mret tt
  else
    assessment ← mlift (assess source (co_behavior (fp_coordinator (cd_pipeline s))));
    match assessment with
    | None => mret tt
    | Some b =>
        warranted ← on_pipeline (behavior_warrants_assessment b);
        if negb warranted then mret tt
        else
          s ← mget;
          match snapshot_open_flow_from (cd_aggregator s) source with
          | None => mret tt
          | Some snapshot =>
              snapshot ← mlift snapshot;
              _ ← mmodify (λ s, cd_set_early s (trim_early (dm_max_tracked_sources (cd_config s))
                                                  (dmove_to_end (dset (cd_early_assessed_at s) source (ck_mono ck)) source)));
              _ ← count_as SOURCE_SNAPSHOTS 1;
              on_pipeline (process_snapshot new_id flow_id exn_text snapshot (ck_now ck))
          end
    end.
Definition _assess_sources_early (ck : Clock) (sources : list IPv4.t) : DM unit := mfold_unit (assess_early ck) (set_order sources).

(** One iteration of [_drain_new_flow_signals]: [None] once the queue was
    found empty and the touched sources were assessed. *)
Definition _drain_new_flow_signals (ck : Clock) (touched : list IPv4.t) : DM (option (list IPv4.t)) :=
  s ← mget;
  match q_signals (cd_queues s) with
  | [] => _ ← (match touched with [] => mret tt | _ => _assess_sources_early ck touched end); mret None
  | signal :: rest =>
      _ ← on_queues (λ q, set_signals q rest);
      match cd_v2 s with
      | Some _ => _ ← on_v2 (observe_signal signal); mret (Some touched)
      | None =>
          _ ← on_pipeline (on_coordinator (on_behavior (analyzer_observe_new_connection (nf_source_ip signal) (nf_destination_ip signal)
                 (nf_destination_port signal) (nf_timestamp signal))));
          mret (Some (if inb (nf_source_ip signal) touched then touched else touched ++ [nf_source_ip signal]))
      end
  end.

(** One iteration of [_drain_slow_clusters]: [false] once the queue was found
    empty. *)
Definition _drain_slow_clusters (ck : Clock) : DM bool :=
  s ← mget;
  match q_clusters (cd_queues s) with
  | [] => mret false
  | c :: rest =>
      _ ← on_queues (λ q, set_clusters q rest);
      let now := _detection_now None ck s in
      representative ← mlift (sc_representative_flow c);
      match cd_v2 s with
      | Some _ =>
          _ ← on_v2 (observe_slow (fl_source_mac representative) (sc_source_ip c) (sc_destination_ip c) (sc_concurrent_count c) now);
          mret true
      | None =>
          _ ← on_pipeline (on_coordinator (on_behavior
                 (analyzer_note_slow_connections (sc_source_ip c) (sc_destination_ip c) (sc_concurrent_count c) now)));
          _ ← on_pipeline (process_snapshot new_id flow_id exn_text representative now);
          mret true
      end
  end.

Definition pop_evidence (f : Flow) : DM (option ProtocolSignatureEvidence) := λ s,
  let '(e, d) := _pop_tls_evidence flow_id f (cd_tls_evidence s) in (Ok e, cd_set_tls s d).

(** The body of the [try] in [_process_v2]. *)
Definition v2_step (mono : float) (f : option Flow) (now : Z) : M (@V2Pipeline B F) unit :=
  _ ← (match f with Some f => observe_record new_id flow_id f now | None => mret tt end);
  _ ← drain_inbox now;
  evaluate new_id mono now.

(** [try: m  except Exception: ...] *)
Definition crash_safe (m : DM unit) : DM unit := λ s, (Ok tt, (m s).2).

Definition _process_v2 (ck : Clock) (f : option Flow) : DM unit :=
  s ← mget;
  crash_safe (_ ← (match f with Some f => _ ← pop_evidence f; mret tt | None => mret tt end);
              on_v2 (v2_step (ck_mono ck) f (_detection_now f ck s))).

(** The scorer [__init__] gives the v1 pipeline. *)
Definition anomaly_scorer (now : Z) (s : CoreDaemon) : option (PendingAnomalyScoring → M (FlowPipeline B F) unit) :=
  if is_loaded (mr_isolation_forest (co_models (fp_coordinator (cd_pipeline s))))
  then Some (_enqueue_anomaly_scoring new_id flow_id exn_text now) else None.

Definition process_flow (ck : Clock) (f : Flow) : DM unit :=
  s ← mget;
  match cd_v2 s with
  | Some _ => _process_v2 ck (Some f)
  | None =>
      signature ← pop_evidence f;
      on_pipeline (process new_id flow_id interp exn_text (anomaly_scorer (ck_now ck) s) f (ck_now ck) signature (ck_elapsed ck))
  end.

(** Where the detection thread is in [_detection_loop]. *)
Inductive detection_pc :=
| AtTop (touched : list IPv4.t)
| AtTopClusters
| AtGet
| GotFlow (f : Flow) (touched : list IPv4.t)
| GotClusters (f : Flow)
| Ready (f : Flow)
| Dead.   (** an exception left the loop *)

Definition _detection_loop (ck : Clock) (pc : detection_pc) : DM detection_pc :=
  match pc with
  | AtTop touched =>
      r ← _drain_new_flow_signals ck touched; mret (match r with Some t => AtTop t | None => AtTopClusters end)
  | AtTopClusters => more ← _drain_slow_clusters ck; mret (if more : bool then AtTopClusters else AtGet)
  | AtGet =>
      s ← mget;
      match q_flows (cd_queues s) with
      | [] => _ ← (match cd_v2 s with Some _ => _process_v2 ck None | None => mret tt end); mret (AtTop [])
      | f :: rest => _ ← on_queues (λ q, set_flows q rest); mret (GotFlow f [])
      end
  | GotFlow f touched =>
      r ← _drain_new_flow_signals ck touched; mret (match r with Some t => GotFlow f t | None => GotClusters f end)
  | GotClusters f => more ← _drain_slow_clusters ck; mret (if more : bool then GotClusters f else Ready f)
  | Ready f => _ ← process_flow ck f; mret (AtTop [])
  | Dead => mret Dead
  end.

(** ** The interleaving *)

Inductive label :=
| LSignal (s : NewFlowSignal)          (** accepted by the new-flow queue *)
| LSignalDropped (s : NewFlowSignal)
| LFlow (f : Flow)                     (** accepted by the flow queue *)
| LFlowDropped (f : Flow)
| LCluster (c : SlowConnectionCluster) (** accepted by the slow-cluster queue *)
| LClusterDropped (c : SlowConnectionCluster)
| LObserve (s : NewFlowSignal)         (** taken off the queue and observed *)
| LProcess (f : Flow)                  (** handed to the pipeline *)
| LSlow (c : SlowConnectionCluster).   (** taken off the queue and handed on *)

Definition put_label (p : put) (taken : bool) : list label :=
  match p, taken with
  | PutSignal s, true => [LSignal s]
  | PutSignal s, false => [LSignalDropped s]
  | PutFlow f, true => [LFlow f]
  | PutFlow f, false => [LFlowDropped f]
  | PutCluster c, true => [LCluster c]
  | PutCluster c, false => [LClusterDropped c]
  end.
Definition detection_label (pc : detection_pc) (s : CoreDaemon) : list label :=
  match pc with
  | AtTop _ | GotFlow _ _ => match q_signals (cd_queues s) with signal :: _ => [LObserve signal] | [] => [] end
  | AtTopClusters | GotClusters _ => match q_clusters (cd_queues s) with c :: _ => [LSlow c] | [] => [] end
  | Ready f => [LProcess f]
  | _ => []
  end.

(** The daemon, what the capture and the sweep thread have yet to put, where
    the detection thread is, and the history of the queues. *)
Record System : Type := mk_system {
  sy_daemon : CoreDaemon;
  sy_capture : list put;
  sy_sweep : list put;
  sy_detection : detection_pc;
  sy_trace : list label;
}.

Definition puts_of (r : result (list put)) : list put := match r with Ok l => l | Raise _ => [] end.

Inductive SystemStep : System → System → Prop :=
| StepFrame d sw pc tr raw at_ now :
    SystemStep (mk_system d [] sw pc tr)
      (mk_system (capture_frame raw at_ now d).2 (puts_of (capture_frame raw at_ now d).1) sw pc tr)
| StepCapturePut d p cs sw pc tr now taken d' : do_put p now d = (Ok taken, d') →
    SystemStep (mk_system d (p :: cs) sw pc tr) (mk_system d' cs sw pc (tr ++ put_label p taken))
| StepSweep d cs pc tr now :
    SystemStep (mk_system d cs [] pc tr) (mk_system (_sweep_flows now d).2 cs (puts_of (_sweep_flows now d).1) pc tr)
| StepSweepPut d cs p sw pc tr now taken d' : do_put p now d = (Ok taken, d') →
    SystemStep (mk_system d cs (p :: sw) pc tr) (mk_system d' cs sw pc (tr ++ put_label p taken))
| StepExpire d cs sw pc tr now : SystemStep (mk_system d cs sw pc tr) (mk_system (_expire_rules now d).2 cs sw pc tr)
| StepBatch d cs sw pc tr size ck :
    SystemStep (mk_system d cs sw pc tr)
      (mk_system (on_pipeline (batch ← take_batch size; _score_and_finish_batch new_id flow_id exn_text batch (ck_now ck) (ck_elapsed ck)) d).2 cs sw pc tr)
| StepDetect d cs sw pc tr ck :
    SystemStep (mk_system d cs sw pc tr)
      (mk_system (_detection_loop ck pc d).2 cs sw
         (match (_detection_loop ck pc d).1 with Ok pc' => pc' | Raise _ => Dead end) (tr ++ detection_label pc d)).

Definition start (d : CoreDaemon) : System := mk_system d [] [] (AtTop []) [].
End Daemon.

(** ** The other writers *)

From S2P Require Import Json Bindings LeaseSync Throttle PortalSessions PortalStore PortalService Rpc.
Local Open Scope Z_scope.

Section Host.
Context {B F : Type} {SB : SetBackend B} {FB : FirewallBackend F}.
Context (new_id : Z → string) (flow_id : Flow → string) (interp : float → list float → list float → float) (exn_text : exn → string).
Context (set_order : list IPv4.t → list IPv4.t).
Context (casefold repr : string → string) (scrypt : string → list Z → Z → list Z).

(** The manager object is one: what another component did to it. *)
Definition set_daemon_manager (s : @CoreDaemon B F) (m : FirewallManager B F) : CoreDaemon :=
  match cd_v2 s with
  | Some p => cd_set_v2 s (Some (vp_set_manager p m))
  | None => cd_set_pipeline s (fp_set_manager (cd_pipeline s) m)
  end.
(** [on_event=self._forwarder.emit] *)
Definition emit_events (es : list SecurityEvent) (s : @CoreDaemon B F) : CoreDaemon := (mfold_unit emit_event es s).2.
(** [on_login_failure=self._v2.submit_portal_failure] *)
Definition report_failures (fs : list (string * IPv4.t * option string * Z)) (s : @CoreDaemon B F) : CoreDaemon :=
  match cd_v2 s with
  | None => s
  | Some _ => (mfold_unit (λ '(user, ip, mac, at_), on_v2 (submit_portal_failure user ip mac at_)) fs s).2
  end.

(** The binding table is one: its readers after a lease-sync pass. *)
Definition set_resolver (m : FirewallManager B F) x : FirewallManager B F :=
  mk_manager (m_config m) (m_local m) (m_backend m) (m_sets m) x (m_targets m) (m_rules m) (m_known m) (m_transitions m)
    (m_limiter m) (m_mode m) (m_store m) (m_allowlist m).
Definition fp_set_resolve_mac (s : FlowPipeline B F) x : FlowPipeline B F :=
  mk_flow_pipeline (fp_threat s) (fp_default_ttl s) x (fp_coordinator s) (fp_manager s) (fp_forwarder s) (fp_counters s)
    (fp_maturity s) (fp_next_id s) (fp_queue s) (fp_queue_max s) (fp_scores_dropped s).
Definition vp_set_resolve_ip (s : @V2Pipeline B F) x : V2Pipeline :=
  mk_pipeline (vp_config s) (vp_d1_config s) (vp_cooldown s) (vp_poll_interval s) (vp_known_threshold s)
    x (vp_coordinator s) (vp_manager s) (vp_d1 s) (vp_tracker s) (vp_engine s) (vp_inbox s) (vp_touched_macs s)
    (vp_touched_destinations s) (vp_evaluated_at s) (vp_kernel s) (vp_ml s) (vp_anomalies s) (vp_aggregate_seen s)
    (vp_last_global s) (vp_gauges s) (vp_inbox_dropped s) (vp_events s) (vp_decisions s) (vp_counters s)
    (vp_next_id s).
Definition rebind (t : LeaseBindingTable) (s : @CoreDaemon B F) : CoreDaemon :=
  let s := set_daemon_manager s (set_resolver (daemon_manager s) (resolve_mac t)) in
  let s := cd_set_pipeline s (fp_set_resolve_mac (cd_pipeline s) (Some (resolve_mac t))) in
  cd_set_v2 s ((λ p, vp_set_resolve_ip p (resolve_ip t)) <$> cd_v2 s).

(** The threads of [SystemStep], the lease sync and the portal. *)
Record Host : Type := mk_host {
  ho_system : @System B F;
  ho_lease : LeaseSync B F;
  ho_portal : option (PortalService B F);
}.
Definition ho_daemon (h : Host) : @CoreDaemon B F := sy_daemon (ho_system h).
Definition with_daemon (y : @System B F) (d : @CoreDaemon B F) : System := mk_system d (sy_capture y) (sy_sweep y) (sy_detection y) (sy_trace y).

(** What the portal service did, with the shared manager lent to it. *)
Definition portal_effect (sv sv' : PortalService B F) (s : @CoreDaemon B F) : CoreDaemon :=
  report_failures (drop (length (sv_failures sv)) (sv_failures sv'))
    (emit_events (drop (length (sv_events sv)) (sv_events sv')) (set_daemon_manager s (sv_manager sv'))).
Definition _expire_portal_sessions (now now' : Z) (h : Host) : Host :=
  match ho_portal h with
  | None => h
  | Some sv =>
      let sv' := (PortalService.sweep now now' (sv_set_manager sv (daemon_manager (ho_daemon h)))).2 in
      mk_host (with_daemon (ho_system h) (portal_effect sv sv' (ho_daemon h))) (ho_lease h) (Some sv')
  end.
(** One request on the portal's socket. *)
Definition portal_request (d : draws) (q : RpcRequest) (h : Host) : Host :=
  match ho_portal h with
  | None => h
  | Some sv =>
      let sv' := (Rpc.portal_handle casefold repr scrypt exn_text d q (sv_set_manager sv (daemon_manager (ho_daemon h)))).2 in
      mk_host (with_daemon (ho_system h) (portal_effect sv sv' (ho_daemon h))) (ho_lease h) (Some sv')
  end.

(** One pass of the lease-sync thread. *)
Definition ls_set_manager (l : LeaseSync B F) m : LeaseSync B F :=
  mk_ls (ls_protected l) (ls_path l) (ls_table l) m (ls_events l) (ls_needs_full_resync l) (ls_read_failing l) (ls_last_ignored l)
    (ls_passes l) (ls_failures l).
Definition sv_set_bindings (s : PortalService B F) x : PortalService B F :=
  mk_service (sv_config s) x (sv_manager s) (sv_store s) (sv_sessions s) (sv_throttle s) (sv_events s) (sv_failures s).
Definition lease_pass (file : lease_file) (now : Z) (h : Host) : Host :=
  let l := ho_lease h in
  let l' := (LeaseSync.poll file now (ls_set_manager l (daemon_manager (ho_daemon h)))).2 in
  mk_host (with_daemon (ho_system h)
             (rebind (ls_table l') (emit_events (drop (length (ls_events l)) (ls_events l')) (set_daemon_manager (ho_daemon h) (ls_manager l')))))
    l' ((λ sv, sv_set_bindings sv (Some (resolve_mac (ls_table l')))) <$> ho_portal h).

(** The watch thread hands a poll of the kernel's offender sets to the v2
    pipeline; the poll itself only reads. *)
Definition host_kernel_poll (result : KernelPollResult) (now : Z) (h : Host) : Host :=
  mk_host (with_daemon (ho_system h) (on_v2 (submit_kernel_poll result (snapshot (ls_table (ho_lease h))) now) (ho_daemon h)).2)
    (ho_lease h) (ho_portal h).

Inductive HostStep : Host → Host → Prop :=
| HostThreads y y' l sv : SystemStep new_id flow_id interp exn_text set_order y y' → HostStep (mk_host y l sv) (mk_host y' l sv)
| HostPortalSweep h now now' : HostStep h (_expire_portal_sessions now now' h)
| HostPortalRequest h d q : HostStep h (portal_request d q h)
| HostLeasePass h file now : HostStep h (lease_pass file now h)
| HostKernelPoll h result now : HostStep h (host_kernel_poll result now h).

(** The daemon after [start]: the lease sync has the daemon's manager, the
    portal too. *)
Definition start_host (d : @CoreDaemon B F) (l : LeaseSync B F) (sv : option (PortalService B F)) : Host := mk_host (start d) l sv.
End Host.
