(* ===== verification/DaemonProps.v ===== *)
(** * The daemon's queues under every interleaving

    [Daemon.HostStep] lets the capture, sweep, batch and detection threads,
    the lease sync and the portal run in any order.  The invariant below relates the history of the queues
    to what is in them; the theorems read off it that no accepted work is lost
    or reordered, that the queues stay within their bounds, and that a flow is
    processed only after every connection signal that was accepted before
    it. *)

From S2P Require Import Prelude Float Net Models RateLimiter Sets SetBackend FakeSets Validator Backend Manager.
From S2P Require Import Policy Flow Parser Features Threat Inference Runtime D1 Behavior Coordinator PipelineV1.
From S2P Require Import Json Bindings LeaseSync Throttle PortalSessions PortalStore PortalService Rpc.
From S2P Require Import PipelineV1 KernelPoller PipelineV2 Tls TlsCache Daemon.
Local Open Scope Z_scope.

Create HintDb still.

(** ** Histories *)

Definition signals_of (tr : list label) : list NewFlowSignal := omap (λ l, match l with LSignal s => Some s | _ => None end) tr.
Definition observed_of (tr : list label) : list NewFlowSignal := omap (λ l, match l with LObserve s => Some s | _ => None end) tr.
Definition flows_of (tr : list label) : list Flow := omap (λ l, match l with LFlow f => Some f | _ => None end) tr.
Definition processed_of (tr : list label) : list Flow := omap (λ l, match l with LProcess f => Some f | _ => None end) tr.
Definition dropped_of (tr : list label) : list Flow := omap (λ l, match l with LFlowDropped f => Some f | _ => None end) tr.
Definition signals_dropped_of (tr : list label) : list NewFlowSignal := omap (λ l, match l with LSignalDropped s => Some s | _ => None end) tr.
Definition clusters_of (tr : list label) : list SlowConnectionCluster := omap (λ l, match l with LCluster c => Some c | _ => None end) tr.
Definition slow_of (tr : list label) : list SlowConnectionCluster := omap (λ l, match l with LSlow c => Some c | _ => None end) tr.
Definition clusters_dropped_of (tr : list label) : list SlowConnectionCluster :=
  omap (λ l, match l with LClusterDropped c => Some c | _ => None end) tr.

(** The signals accepted before the [n]th flow was. *)
Fixpoint signals_before (n : nat) (tr : list label) : list NewFlowSignal :=
  match tr with
  | [] => []
  | LFlow _ :: tr => match n with O => [] | S n => signals_before n tr end
  | LSignal s :: tr => s :: signals_before n tr
  | _ :: tr => signals_before n tr
  end.

Lemma signals_before_app n tr tr' : (n < length (flows_of tr))%nat → signals_before n (tr ++ tr') = signals_before n tr.
Proof.
  revert n. induction tr as [|l tr IH]; intros n Hn; [cbn in Hn; lia|]. destruct l as [s|s|f|f|c|c|s|f|c]; cbn [app signals_before]; try (by apply IH); [f_equal; by apply IH|].
  destruct n as [|n]; [done|]. apply IH. change (flows_of (LFlow f :: tr)) with (f :: flows_of tr) in Hn. cbn in Hn. lia.
Qed.
Lemma signals_before_prefix n tr : signals_before n tr `prefix_of` signals_of tr.
Proof.
  revert n. induction tr as [|l tr IH]; intros n; [done|]. destruct l; cbn; try apply IH; [by apply prefix_cons|].
  destruct n; [apply prefix_nil|apply IH].
Qed.

Section Props.
Context {B F : Type} {SB : SetBackend B} {FB : FirewallBackend F}.
Context (new_id : Z → string) (flow_id : Flow → string) (interp : float → list float → list float → float) (exn_text : exn → string).
Context (set_order : list IPv4.t → list IPv4.t).
Context (casefold repr : string → string) (scrypt : string → list Z → Z → list Z).

#[local] Notation Dm := (@CoreDaemon B F).
#[local] Notation loop := (_detection_loop new_id flow_id interp exn_text set_order).
#[local] Notation Step := (SystemStep new_id flow_id interp exn_text set_order).
#[local] Notation HStep := (HostStep new_id flow_id interp exn_text set_order casefold repr scrypt).

(** ** What leaves the queues alone *)

Definition same_queues (s s' : Dm) : Prop := cd_queues s' = cd_queues s ∧ cd_config s' = cd_config s.
#[local] Instance same_queues_pre : PreOrder same_queues.
Proof. split; [done|]. intros x y z [? ?] [? ?]. split; congruence. Qed.
#[local] Notation still := (framed same_queues).

Lemma still_pipeline {A} (m : M (FlowPipeline B F) A) : still (on_pipeline m).
Proof. intros s. unfold on_pipeline. by destruct (m (cd_pipeline s)). Qed.
Lemma still_aggregator {A} (m : M FlowAggregator A) : still (on_aggregator m).
Proof. intros s. unfold on_aggregator. by destruct (m (cd_aggregator s)). Qed.
Lemma still_v2 {A} (m : M (@V2Pipeline B F) A) : still (on_v2 m).
Proof. intros s. unfold on_v2. destruct (cd_v2 s) as [p|]; [|done]. by destruct (m p). Qed.
Lemma still_manager {A} (m : M (FirewallManager B F) A) : still (on_daemon_manager m).
Proof.
  intros s. unfold on_daemon_manager. destruct (cd_v2 s) as [p|]; [by destruct (m _)|]. by destruct (on_manager m (cd_pipeline s)).
Qed.
Lemma still_pop f : still (pop_evidence flow_id f).
Proof. intros s. unfold pop_evidence. by destruct (_pop_tls_evidence _ _ _). Qed.
Lemma still_modify (g : Dm → Dm) : (∀ s, same_queues s (g s)) → still (mmodify g).
Proof. apply frame_modify. Qed.
#[local] Hint Resolve still_pipeline still_aggregator still_v2 still_manager still_pop : still.

(** Splits a computation into its steps. *)
Ltac still_step :=
  first [apply (frame_ret same_queues) | apply (frame_get same_queues) | apply (frame_lift same_queues)
        | apply (frame_raise same_queues) | solve [eauto with still] | (apply still_modify; intros; split; reflexivity)
        | (apply (frame_fold same_queues); intros)
        | (apply (frame_bind same_queues); [|intros])].
Ltac still_all := repeat first [still_step | case_match].

Lemma still_sweep now : still (_sweep_flows now).
Proof. unfold _sweep_flows, count_as. still_all. Qed.
#[local] Hint Resolve still_sweep : still.

Lemma still_capture raw at_ now : still (capture_frame raw at_ now).
Proof.
  unfold capture_frame, capture_packets, record_malformed, emit_event, take_signals, _note_replay_time, _sweep_on_replay_clock. still_all.
Qed.

Lemma still_early ck sources : still (_assess_sources_early new_id flow_id exn_text set_order ck sources).
Proof. unfold _assess_sources_early, assess_early, count_as. still_all. Qed.
Lemma still_crash_safe (m : M Dm unit) : still m → still (crash_safe m).
Proof. intros Hm s. exact (Hm s). Qed.
Lemma still_process_v2 ck f : still (_process_v2 new_id flow_id ck f).
Proof. unfold _process_v2. apply (frame_bind same_queues); [still_all|]. intros s. apply still_crash_safe. still_all. Qed.
#[local] Hint Resolve still_early still_process_v2 : still.
Lemma still_process_flow ck f : still (process_flow new_id flow_id interp exn_text ck f).
Proof. unfold process_flow. still_all. Qed.
Lemma still_expire now : still (_expire_rules now).
Proof. unfold _expire_rules, emit_event. still_all. Qed.

(** ** What the steps do to the queues *)

(** The bounds of the three queues. *)
Definition bounded (s : Dm) : Prop :=
  Z.of_nat (length (q_flows (cd_queues s))) ≤ dm_flow_queue_max (cd_config s) ∧
  Z.of_nat (length (q_signals (cd_queues s))) ≤ _NEW_FLOW_QUEUE_MAX ∧
  Z.of_nat (length (q_clusters (cd_queues s))) ≤ _SLOW_CLUSTER_QUEUE_MAX.

Definition grows (tr : list label) (s s' : Dm) : Prop :=
  q_flows (cd_queues s') = q_flows (cd_queues s) ++ flows_of tr ∧
  q_signals (cd_queues s') = q_signals (cd_queues s) ++ signals_of tr ∧
  q_clusters (cd_queues s') = q_clusters (cd_queues s) ++ clusters_of tr ∧
  q_backpressure_drops (cd_queues s') = q_backpressure_drops (cd_queues s) + Z.of_nat (length (dropped_of tr)) ∧
  q_signals_dropped (cd_queues s') = q_signals_dropped (cd_queues s) + Z.of_nat (length (signals_dropped_of tr)) ∧
  q_clusters_dropped (cd_queues s') = q_clusters_dropped (cd_queues s) + Z.of_nat (length (clusters_dropped_of tr)) ∧
  (bounded s → bounded s').

Lemma drop_effect f now (s : Dm) :
  let q := cd_queues s in
  same_queues (cd_set_queues s (set_dropped q (q_backpressure_drops q + 1) (q_signals_dropped q) (q_clusters_dropped q)))
    (_note_backpressure_drop f now s).2.
Proof.
  intros q. unfold _note_backpressure_drop, on_queues, mmodify. unfold mbind at 1, m_bind at 1. fold q. revert q. intros q.
  match goal with |- same_queues ?s1 (?m ?s1).2 => assert (Hm : still m); [|exact (Hm s1)] end.
  unfold count_as, emit_warning, emit_event. still_all.
Qed.

Lemma put_grows p now d taken d' : do_put p now d = (Ok taken, d') → grows (put_label p taken) d d'.
Proof.
  destruct p as [s|f|c]; cbn [do_put].
  - unfold _handle_new_flow, on_queues, mmodify, mbind, m_bind, mget. destruct (Z.ltb_spec (Z.of_nat (length (q_signals (cd_queues d)))) _NEW_FLOW_QUEUE_MAX);
      intros [= <- <-]; unfold grows, bounded; cbn; rewrite ?app_nil_r, ?length_app; cbn [length]; (split_and!; try done; try lia).
  - unfold _enqueue, mbind, m_bind, mget.
    destruct (count_as FLOWS_COMPLETED 1 d) as [[[]|e] d1] eqn:Hc; [|done].
    pose proof (still_pipeline (count_v1 FLOWS_COMPLETED 1) d) as [Hq Hcf]. fold (count_as (B:=B) (F:=F) FLOWS_COMPLETED 1) in Hq, Hcf.
    rewrite Hc in Hq, Hcf. cbn in Hq, Hcf. rewrite Hq, Hcf.
    destruct (Z.ltb_spec (Z.of_nat (length (q_flows (cd_queues d)))) (dm_flow_queue_max (cd_config d))) as [Hlt|Hge].
    + unfold on_queues, mmodify. intros [= <- <-]. unfold grows, bounded. cbn. rewrite Hq, Hcf, ?app_nil_r, ?length_app. cbn [length]. split_and!; try done; lia.
    + pose proof (drop_effect f now d1) as [Hq2 Hc2]. destruct (_note_backpressure_drop f now d1) as [[[]|e] d2]; [|done].
      intros [= <- <-]. cbn in Hq2, Hc2. unfold grows, bounded. rewrite Hq2, Hc2, Hq, Hcf. cbn. rewrite ?app_nil_r. split_and!; try done; lia.
  - unfold _enqueue_slow_clusters, on_queues, mmodify, mbind, m_bind, mget. destruct (Z.ltb_spec (Z.of_nat (length (q_clusters (cd_queues d)))) _SLOW_CLUSTER_QUEUE_MAX);
      intros [= <- <-]; unfold grows, bounded; cbn; rewrite ?app_nil_r, ?length_app; cbn [length]; (split_and!; try done; try lia).
Qed.

(** One get from the signals or from the clusters queue. *)
Definition takes_signal (s s' : Dm) : Prop :=
  same_queues (cd_set_queues s (set_signals (cd_queues s) (tail (q_signals (cd_queues s))))) s'.
Definition takes_cluster (s s' : Dm) : Prop :=
  same_queues (cd_set_queues s (set_clusters (cd_queues s) (tail (q_clusters (cd_queues s))))) s'.

Lemma drain_signal_effect ck touched d :
  takes_signal d (_drain_new_flow_signals new_id flow_id exn_text set_order ck touched d).2 ∧
  ((_drain_new_flow_signals new_id flow_id exn_text set_order ck touched d).1 = Ok None → q_signals (cd_queues d) = []).
Proof.
  unfold _drain_new_flow_signals, takes_signal.
  match goal with |- context [(mget ≫= ?k) d] => change ((mget ≫= k) d) with (k d d) end. cbn beta. destruct (q_signals (cd_queues d)) as [|x rest] eqn:Hq.
  - split; [|done]. assert (Hs : same_queues d (cd_set_queues d (set_signals (cd_queues d) []))).
    { split; [|done]. cbn. rewrite <- Hq. by destruct (cd_queues d). }
    destruct Hs as [Hs1 Hs2]. match goal with |- same_queues _ (?m d).2 => assert (Hm : still m) end; [still_all|].
    destruct (Hm d) as [H1 H2]. split; [by rewrite H1, <- Hs1|by rewrite H2].
  - split.
    + unfold on_queues, mmodify. unfold mbind at 1, m_bind at 1. cbn [tail].
      match goal with |- same_queues ?s1 (?m ?s1).2 => assert (Hm : still m); [|exact (Hm s1)] end. still_all.
    + intros Hr. exfalso. revert Hr. unfold on_queues, mmodify. unfold mbind, m_bind. destruct (cd_v2 d) as [p|].
      * by destruct (on_v2 _ _) as [[]].
      * by destruct (on_pipeline _ _) as [[]].
Qed.

Lemma drain_cluster_effect ck d : takes_cluster d (_drain_slow_clusters new_id flow_id exn_text ck d).2.
Proof.
  unfold _drain_slow_clusters, takes_cluster. 
  match goal with |- context [(mget ≫= ?k) d] => change ((mget ≫= k) d) with (k d d) end. cbn beta. destruct (q_clusters (cd_queues d)) as [|x rest] eqn:Hq.
  - split; [|done]. cbn. rewrite <- Hq. by destruct (cd_queues d).
  - unfold on_queues, mmodify. unfold mbind at 1, m_bind at 1. cbn [tail].
    match goal with |- same_queues ?s1 (?m ?s1).2 => assert (Hm : still m); [|exact (Hm s1)] end. still_all.
Qed.

(** ** The invariant *)

Definition holding (pc : detection_pc) : list Flow :=
  match pc with GotFlow f _ | GotClusters f | Ready f => [f] | _ => [] end.
(** The thread has drained the signals since it took the flow. *)
Definition caught_up (pc : detection_pc) : bool := match pc with GotClusters _ | Ready _ => true | _ => false end.

(** The counters of refused work. *)
Definition drops_counted (q : Queues) (tr : list label) : Prop :=
  q_backpressure_drops q = Z.of_nat (length (dropped_of tr)) ∧
  q_signals_dropped q = Z.of_nat (length (signals_dropped_of tr)) ∧
  q_clusters_dropped q = Z.of_nat (length (clusters_dropped_of tr)).
(** Accepted flows: processed, in hand (or lost with the thread), queued. *)
Definition flows_accounted (pc : detection_pc) (q : Queues) (tr : list label) : Prop :=
  ∃ hand, flows_of tr = processed_of tr ++ hand ++ q_flows q ∧ (length hand ≤ 1)%nat ∧ (pc ≠ Dead → hand = holding pc).

Definition sys_inv (y : @System B F) : Prop :=
  let q := cd_queues (sy_daemon y) in
  let tr := sy_trace y in
  bounded (sy_daemon y) ∧
  (signals_of tr = observed_of tr ++ q_signals q ∧ clusters_of tr = slow_of tr ++ q_clusters q) ∧
  drops_counted q tr ∧
  flows_accounted (sy_detection y) q tr ∧
  (caught_up (sy_detection y) = true → signals_before (length (processed_of tr)) tr `prefix_of` observed_of tr).

Lemma sys_inv_still d d' cs sw pc tr cs' sw' : same_queues d d' → sys_inv (mk_system d cs sw pc tr) → sys_inv (mk_system d' cs' sw' pc tr).
Proof. intros [Hq Hc]. unfold sys_inv, bounded. cbn. by rewrite Hq, Hc. Qed.

Lemma put_label_quiet p taken : observed_of (put_label p taken) = [] ∧ processed_of (put_label p taken) = [] ∧ slow_of (put_label p taken) = [].
Proof. by destruct p, taken. Qed.

Lemma of_app tr tr' :
  (signals_of (tr ++ tr') = signals_of tr ++ signals_of tr') ∧ (observed_of (tr ++ tr') = observed_of tr ++ observed_of tr') ∧
  (flows_of (tr ++ tr') = flows_of tr ++ flows_of tr') ∧ (processed_of (tr ++ tr') = processed_of tr ++ processed_of tr') ∧
  (clusters_of (tr ++ tr') = clusters_of tr ++ clusters_of tr') ∧ (slow_of (tr ++ tr') = slow_of tr ++ slow_of tr').
Proof. unfold signals_of, observed_of, flows_of, processed_of, clusters_of, slow_of. by rewrite !omap_app. Qed.
Lemma dropped_app tr tr' :
  (dropped_of (tr ++ tr') = dropped_of tr ++ dropped_of tr') ∧
  (signals_dropped_of (tr ++ tr') = signals_dropped_of tr ++ signals_dropped_of tr') ∧
  (clusters_dropped_of (tr ++ tr') = clusters_dropped_of tr ++ clusters_dropped_of tr').
Proof. unfold dropped_of, signals_dropped_of, clusters_dropped_of. by rewrite !omap_app. Qed.
Lemma drops_more q q' tr l : drops_counted q tr → dropped_of l = [] → signals_dropped_of l = [] → clusters_dropped_of l = [] →
  q_backpressure_drops q' = q_backpressure_drops q → q_signals_dropped q' = q_signals_dropped q → q_clusters_dropped q' = q_clusters_dropped q →
  drops_counted q' (tr ++ l).
Proof.
  intros Hd H1 H2 H3 E1 E2 E3. unfold drops_counted in *. destruct (dropped_app tr l) as (-> & -> & ->). rewrite H1, H2, H3, !app_nil_r, E1, E2, E3. done.
Qed.

Lemma holds_flow pc : caught_up pc = true → pc ≠ Dead ∧ ∃ f, holding pc = [f].
Proof. destruct pc; try done; cbn; eauto. Qed.

Lemma held_is_accepted (tr : list label) (pr h q : list Flow) : flows_of tr = pr ++ h ++ q → h ≠ [] → (length pr < length (flows_of tr))%nat.
Proof. intros -> Hh. rewrite !length_app. destruct h; [done|]. cbn. lia. Qed.

Lemma sys_inv_put d d' cs sw cs' sw' pc tr p taken : grows (put_label p taken) d d' →
  sys_inv (mk_system d cs sw pc tr) → sys_inv (mk_system d' cs' sw' pc (tr ++ put_label p taken)).
Proof.
  intros (Hf & Hs & Hcl & Hd1 & Hd2 & Hd3 & Hb) (Hbd & [Hsig Hslow] & Hdr & (hand & Hfl & Hlen & Hhand) & Hord).
  unfold sys_inv, flows_accounted, drops_counted in *. cbn [sy_daemon sy_trace sy_detection] in *.
  destruct (of_app tr (put_label p taken)) as (-> & -> & -> & -> & -> & ->). destruct (put_label_quiet p taken) as (-> & -> & ->).
  destruct (dropped_app tr (put_label p taken)) as (-> & -> & ->).
  rewrite !app_nil_r, Hf, Hs, Hcl, Hd1, Hd2, Hd3, !length_app. split; [auto|].
  split; [by rewrite Hsig, Hslow, !app_assoc|]. split; [destruct Hdr as (? & ? & ?); lia|].
  split; [exists hand; split; [by rewrite Hfl, !app_assoc|done]|]. intros Hc. rewrite signals_before_app; [auto|].
  destruct (holds_flow pc Hc) as (Hpc & f & Hh). eapply held_is_accepted; [exact Hfl|]. by rewrite Hhand, Hh.
Qed.

(** Steps of the detection thread: one signal observed, if there is one. *)
Lemma inv_observe d d' cs sw pc pc' tr :
  takes_signal d d' → pc ≠ Dead → (pc' ≠ Dead → holding pc' = holding pc) →
  (caught_up pc' = true → q_signals (cd_queues d) = []) →
  sys_inv (mk_system d cs sw pc tr) →
  sys_inv (mk_system d' cs sw pc' (tr ++ match q_signals (cd_queues d) with x :: _ => [LObserve x] | [] => [] end)).
Proof.
  intros [Hq Hcf] Hnd Hh Hc (Hbd & [Hsig Hslow] & Hdr & (hand & Hfl & Hlen & Hhand) & Hord). unfold sys_inv, bounded in *. cbn [sy_daemon sy_trace sy_detection] in *.
  rewrite Hq, Hcf. cbn [cd_queues cd_config cd_set_queues set_signals q_flows q_signals q_clusters].
  set (l := match q_signals (cd_queues d) with x :: _ => [LObserve x] | [] => [] end).
  unfold flows_accounted in *. destruct (of_app tr l) as (-> & -> & -> & -> & -> & ->).
  assert (Hl : signals_of l = [] ∧ flows_of l = [] ∧ processed_of l = [] ∧ clusters_of l = [] ∧ slow_of l = [] ∧
    q_signals (cd_queues d) = observed_of l ++ tail (q_signals (cd_queues d))) by (unfold l; by destruct (q_signals (cd_queues d))).
  destruct Hl as (-> & -> & -> & -> & -> & Hobs). rewrite !app_nil_r.
  split; [destruct Hbd as (? & ? & ?); destruct (q_signals (cd_queues d)); cbn in *; lia|].
  split; [split; [by rewrite <- app_assoc, <- Hobs|done]|].
  split; [eapply drops_more; try exact Hdr; try done; unfold l; by destruct (q_signals (cd_queues d))|].
  split; [exists hand; split; [done|]; split; [done|]; intros Hpc; rewrite Hh by done; auto|].
  intros Hcu. assert (Hempty : l = []) by (unfold l; by rewrite Hc). rewrite Hempty. cbn. rewrite !app_nil_r.
  rewrite Hc, app_nil_r in Hsig by done. rewrite <- Hsig. apply signals_before_prefix.
Qed.

(** One cluster handed on, if there is one. *)
Lemma inv_slow d d' cs sw pc pc' tr :
  takes_cluster d d' → pc ≠ Dead → (pc' ≠ Dead → holding pc' = holding pc) → (caught_up pc' = true → caught_up pc = true) →
  sys_inv (mk_system d cs sw pc tr) →
  sys_inv (mk_system d' cs sw pc' (tr ++ match q_clusters (cd_queues d) with x :: _ => [LSlow x] | [] => [] end)).
Proof.
  intros [Hq Hcf] Hnd Hh Hc (Hbd & [Hsig Hslow] & Hdr & (hand & Hfl & Hlen & Hhand) & Hord). unfold sys_inv, bounded in *. cbn [sy_daemon sy_trace sy_detection] in *.
  rewrite Hq, Hcf. cbn [cd_queues cd_config cd_set_queues set_clusters q_flows q_signals q_clusters].
  set (l := match q_clusters (cd_queues d) with x :: _ => [LSlow x] | [] => [] end).
  assert (Hbefore : caught_up pc' = true → signals_before (length (processed_of tr)) (tr ++ l) = signals_before (length (processed_of tr)) tr).
  { intros Hcu. apply signals_before_app. destruct (holds_flow pc (Hc Hcu)) as (_ & f & Hhold). eapply held_is_accepted; [exact Hfl|]. by rewrite Hhand, Hhold. }
  unfold flows_accounted in *. destruct (of_app tr l) as (-> & -> & -> & -> & -> & ->).
  assert (Hl : signals_of l = [] ∧ flows_of l = [] ∧ processed_of l = [] ∧ clusters_of l = [] ∧ observed_of l = [] ∧
    q_clusters (cd_queues d) = slow_of l ++ tail (q_clusters (cd_queues d))) by (unfold l; by destruct (q_clusters (cd_queues d))).
  destruct Hl as (-> & -> & -> & -> & -> & Hobs). rewrite !app_nil_r.
  split; [destruct Hbd as (? & ? & ?); destruct (q_clusters (cd_queues d)); cbn in *; lia|].
  split; [split; [done|by rewrite <- app_assoc, <- Hobs]|].
  split; [eapply drops_more; try exact Hdr; try done; unfold l; by destruct (q_clusters (cd_queues d))|].
  split; [exists hand; split; [done|]; split; [done|]; intros Hpc; rewrite Hh by done; auto|].
  intros Hcu. rewrite Hbefore by done. auto.
Qed.

(** Steps that leave signals, clusters and history alone. *)
Lemma inv_silent d d' cs sw pc pc' tr :
  cd_config d' = cd_config d →
  cd_queues d' = set_flows (cd_queues d) (q_flows (cd_queues d')) →
  pc ≠ Dead → (length (holding pc') ≤ 1)%nat → 
  (pc' ≠ Dead → holding pc' ++ q_flows (cd_queues d') = holding pc ++ q_flows (cd_queues d)) →
  (pc' = Dead → q_flows (cd_queues d') = q_flows (cd_queues d)) →
  (length (q_flows (cd_queues d')) ≤ length (q_flows (cd_queues d)))%nat →
  (caught_up pc' = true → caught_up pc = true) →
  sys_inv (mk_system d cs sw pc tr) → sys_inv (mk_system d' cs sw pc' tr).
Proof.
  intros Hcf Hq Hnd Hh1 Hh Hdead Hlen Hc (Hbd & Hsig & Hdr & (hand & Hfl & Hl & Hhand) & Hord). unfold sys_inv, bounded, drops_counted, flows_accounted in *.
  cbn [sy_daemon sy_trace sy_detection] in *. rewrite Hcf.
  remember (q_flows (cd_queues d')) as qf eqn:Hqf. clear Hqf. rewrite Hq. cbn [set_flows q_signals q_clusters q_backpressure_drops q_signals_dropped q_clusters_dropped].
  split; [destruct Hbd as (? & ? & ?); lia|]. split; [done|]. split; [done|]. split; [|auto].
  assert (Hd : pc' = Dead ∨ pc' ≠ Dead) by (destruct pc'; auto). destruct Hd as [->|Hpc].
  - exists hand. rewrite (Hdead eq_refl). done.
  - exists (holding pc'). rewrite (Hh Hpc), <- Hhand by done. done.
Qed.

(** A flow handed to the pipeline. *)
Lemma inv_process d d' cs sw f tr pc' : same_queues d d' → holding pc' = [] → caught_up pc' = false →
  sys_inv (mk_system d cs sw (Ready f) tr) → sys_inv (mk_system d' cs sw pc' (tr ++ [LProcess f])).
Proof.
  intros [Hq Hcf] Hh Hcu (Hbd & Hsig & Hdr & (hand & Hfl & Hlen & Hhand) & _). unfold sys_inv, bounded in *. cbn [sy_daemon sy_trace sy_detection holding] in *.
  rewrite Hq, Hcf. unfold flows_accounted in *. destruct (of_app tr [LProcess f]) as (-> & -> & -> & -> & -> & ->).
  change (signals_of [LProcess f]) with (@nil NewFlowSignal). change (observed_of [LProcess f]) with (@nil NewFlowSignal).
  change (flows_of [LProcess f]) with (@nil Flow). change (processed_of [LProcess f]) with [f].
  change (clusters_of [LProcess f]) with (@nil SlowConnectionCluster). change (slow_of [LProcess f]) with (@nil SlowConnectionCluster).
  rewrite !app_nil_r. split; [done|]. split; [done|]. split; [by eapply drops_more|]. split; [|by rewrite Hcu].
  exists []. rewrite Hfl, Hh, (Hhand ltac:(done)), <- app_assoc. split; [done|]. split; [cbn; lia|done].
Qed.

Definition next_pc (r : result detection_pc) : detection_pc := match r with Ok pc => pc | Raise _ => Dead end.

(** A drain step: the state of the drain, and where the thread goes. *)
Lemma bind_mret {A C} (m : M Dm A) (k : A → C) d : (a ← m; mret (k a)) d =
  (match (m d).1 with Ok a => Ok (k a) | Raise e => Raise e end, (m d).2).
Proof. unfold mbind, m_bind, mret, m_ret. by destruct (m d) as [[] ?]. Qed.

Lemma inv_drain ck d cs sw pc tr : (∃ t, pc = AtTop t) ∨ (∃ f t, pc = GotFlow f t) → sys_inv (mk_system d cs sw pc tr) →
  sys_inv (mk_system (loop ck pc d).2 cs sw (next_pc (loop ck pc d).1) (tr ++ detection_label pc d)).
Proof.
  intros Hpc Hi. destruct Hpc as [[t ->]|(f & t & ->)]; cbn [_detection_loop detection_label]; rewrite bind_mret; cbn [fst snd];
    destruct (drain_signal_effect ck t d) as [Ht Hn]; eapply inv_observe; try exact Hi; try exact Ht; try done;
    destruct (_drain_new_flow_signals _ _ _ _ ck t d).1 as [[t'|]|e]; cbn in *; try done; auto.
Qed.

Lemma inv_clusters ck d cs sw pc tr : pc = AtTopClusters ∨ (∃ f, pc = GotClusters f) → sys_inv (mk_system d cs sw pc tr) →
  sys_inv (mk_system (loop ck pc d).2 cs sw (next_pc (loop ck pc d).1) (tr ++ detection_label pc d)).
Proof.
  intros Hpc Hi. destruct Hpc as [->|(f & ->)]; cbn [_detection_loop detection_label]; rewrite bind_mret; cbn [fst snd];
    eapply inv_slow; try exact Hi; try apply drain_cluster_effect; try done;
    destruct (_drain_slow_clusters _ _ _ ck d).1 as [[]|]; cbn; done.
Qed.

Lemma inv_get ck d cs sw tr : sys_inv (mk_system d cs sw AtGet tr) →
  sys_inv (mk_system (loop ck AtGet d).2 cs sw (next_pc (loop ck AtGet d).1) (tr ++ detection_label AtGet d)).
Proof.
  intros Hi. cbn [_detection_loop detection_label]. rewrite app_nil_r.
  match goal with |- context [(mget ≫= ?k) d] => change ((mget ≫= k) d) with (k d d) end. cbn beta.
  destruct (q_flows (cd_queues d)) as [|f rest] eqn:Hf.
  - rewrite bind_mret. cbn [fst snd].
    match goal with |- context [(?m d).2] => assert (Hm : still m) by still_all; destruct (Hm d) as [Hq Hc] end.
    match goal with |- context [next_pc (match ?r with Ok _ => _ | Raise _ => _ end)] => destruct r end;
      eapply inv_silent; try exact Hi; rewrite ?Hq, ?Hc; cbn; rewrite ?Hf; try done; try lia; rewrite <- Hf; by destruct (cd_queues d).
  - cbn. eapply inv_silent; try exact Hi; cbn; rewrite ?Hf; try done; cbn; try lia. change (length rest ≤ S (length rest))%nat. lia.
Qed.

Lemma sys_inv_step y y' : Step y y' → sys_inv y → sys_inv y'.
Proof.
  destruct 1 as [d sw pc tr raw at_ now|d p cs sw pc tr now taken d' Hp|d cs pc tr now|d cs p sw pc tr now taken d' Hp
    |d cs sw pc tr now|d cs sw pc tr size ck|d cs sw pc tr ck]; intros Hi.
  - eapply sys_inv_still; [apply still_capture|exact Hi].
  - eapply sys_inv_put; [by eapply put_grows|exact Hi].
  - eapply sys_inv_still; [apply still_sweep|exact Hi].
  - eapply sys_inv_put; [by eapply put_grows|exact Hi].
  - eapply sys_inv_still; [apply still_expire|exact Hi].
  - eapply sys_inv_still; [apply still_pipeline|exact Hi].
  - destruct pc as [t| | |f t|f|f|].
    + apply inv_drain; eauto.
    + apply inv_clusters; eauto.
    + by apply inv_get.
    + apply inv_drain; eauto.
    + apply inv_clusters; eauto.
    + cbn [_detection_loop detection_label]. rewrite bind_mret. cbn [fst snd]. eapply inv_process; [apply still_process_flow| | |exact Hi];
        by destruct (process_flow _ _ _ _ ck f d).1.
    + cbn. by rewrite app_nil_r.
Qed.

Lemma sys_inv_start d : cd_queues d = mk_queues [] [] [] 0 0 0 → 0 ≤ dm_flow_queue_max (cd_config d) → sys_inv (start d).
Proof.
  intros Hq Hm. unfold sys_inv, start, bounded, drops_counted, flows_accounted. cbn. rewrite Hq. cbn. split.
  - split; [done|]. split; vm_compute; discriminate.
  - split; [done|]. split; [done|]. split; [|done]. exists []. split; [done|]. split; [cbn; lia|done].
Qed.

(** The daemon as [__init__] leaves it. *)
Definition fresh_daemon (d : Dm) : Prop :=
  cd_queues d = mk_queues [] [] [] 0 0 0 ∧ 0 ≤ dm_flow_queue_max (cd_config d).

(** The other writers keep away from the queues. *)
Lemma still_set_manager s m : same_queues s (set_daemon_manager s m).
Proof. unfold set_daemon_manager. by destruct (cd_v2 s). Qed.
Lemma still_emit_events es s : same_queues s (emit_events es s).
Proof. apply (frame_fold same_queues). intros e. apply still_pipeline. Qed.
Lemma still_failures fs s : same_queues s (report_failures fs s).
Proof. unfold report_failures. destruct (cd_v2 s); [|done]. apply (frame_fold same_queues). intros [[[? ?] ?] ?]. apply still_v2. Qed.
Lemma still_rebind t s : same_queues s (rebind t s).
Proof. unfold rebind. destruct (still_set_manager s (set_resolver (daemon_manager s) (resolve_mac t))) as [H1 H2]. split; [exact H1|exact H2]. Qed.
Lemma still_portal sv sv' s : same_queues s (portal_effect sv sv' s).
Proof. unfold portal_effect. etrans; [apply still_set_manager|]. etrans; [apply still_emit_events|apply still_failures]. Qed.

Lemma host_inv_step h h' : HStep h h' → sys_inv (ho_system h) → sys_inv (ho_system h').
Proof.
  assert (Hwith : ∀ y d, same_queues (sy_daemon y) d → sys_inv y → sys_inv (with_daemon y d)).
  { intros [d0 cs sw pc tr] d Hs Hi. by eapply sys_inv_still. }
  destruct 1 as [y y' l sv Hstep|h now now'|h d q|h file now|h result now]; intros Hi.
  - by eapply sys_inv_step.
  - unfold _expire_portal_sessions. destruct (ho_portal h); [|done]. apply Hwith; [apply still_portal|done].
  - unfold portal_request. destruct (ho_portal h); [|done]. apply Hwith; [apply still_portal|done].
  - apply Hwith; [|done]. etrans; [apply still_set_manager|]. etrans; [apply still_emit_events|apply still_rebind].
  - apply Hwith; [apply still_v2|done].
Qed.

Lemma reachable_inv d l sv h : fresh_daemon d → rtc HStep (start_host d l sv) h → sys_inv (ho_system h).
Proof.
  intros [Hq Hm] Hr. assert (Hi : sys_inv (ho_system (start_host d l sv))) by (by apply sys_inv_start).
  clear Hq Hm. induction Hr as [|y1 y2 y3 H12 _ IH]; [done|]. apply IH. by eapply host_inv_step.
Qed.


(** A completed flow is never assessed on stale behaviour: whatever the
    interleaving, when the detection thread is about to process a flow, that
    flow is the next accepted one, and every connection signal the capture
    thread had queued before that flow has been observed, including those
    queued while the thread was waiting for it. *)
Theorem signals_are_observed_before_their_flow d l sv h f : fresh_daemon d → rtc HStep (start_host d l sv) h →
  sy_detection (ho_system h) = Ready f →
  let tr := sy_trace (ho_system h) in
  let n := length (processed_of tr) in
  flows_of tr !! n = Some f ∧ signals_before n tr `prefix_of` observed_of tr.
Proof.
  intros Hd Hr Hpc. destruct (reachable_inv d l sv h Hd Hr) as (_ & _ & _ & (hand & Hf & _ & Hh) & Ho). rewrite Hpc in Hh, Ho. cbn zeta.
  split; [|by apply Ho]. rewrite Hf, Hh by done. by apply list_lookup_middle.
Qed.
End Props.

(** * The whole daemon under SHADOW

    From frames on the wire to the kernel: with a manager in SHADOW mode and
    no ACTIVE rule, no interleaving of the threads changes a kernel set but
    the binding sets, a guard, or anything of the v1 backend but the portal's
    grants, whichever engine is configured. *)

From S2P Require Import Lifecycle Reachable Enforce BindingSync RpcProps.
Local Open Scope Z_scope.

Create HintDb drowsy.

Section Shadow.
Context {B F : Type} {SB : SetBackend B} {FB : FirewallBackend F} {SBL : SetBackendLaws B} {FBL : FirewallBackendLaws F}.
Context (new_id : Z → string) (flow_id : Flow → string) (interp : float → list float → list float → float) (exn_text : exn → string).
Context (set_order : list IPv4.t → list IPv4.t).

#[local] Notation Mgr := (FirewallManager B F).
#[local] Notation Dm := (@CoreDaemon B F).

(** SHADOW, and nothing enforced. *)
Definition dormant (m : Mgr) : Prop := m_mode m = MODE_SHADOW ∧ Forall (λ r, fr_status r ≠ ACTIVE) (dvalues (m_rules m)).

Lemma dset_Forall (P : FirewallRule → Prop) d (k : string) v : Forall P (dvalues d) → P v → Forall P (dvalues (dset d k v)).
Proof.
  intros Hd Hv. induction d as [|[k' v'] d IH]; [by constructor|]. apply Forall_cons in Hd as [H1 H2]. cbn.
  destruct (decide _); cbn; constructor; auto.
Qed.

(** A manager that sleeps on: same backends, still dormant. *)
Definition asleep (m m' : Mgr) : Prop := dormant m → dormant m' ∧ m_sets m' = m_sets m ∧ m_backend m' = m_backend m.

#[local] Instance asleep_preorder : PreOrder asleep.
Proof.
  split; [done|]. intros a b c Hab Hbc Ha. destruct (Hab Ha) as (Hb & Hs & Hf). destruct (Hbc Hb) as (Hc & -> & ->). done.
Qed.

Lemma asleep_submit m c now : asleep m (submit_candidate c now m).2.
Proof.
  intros [Hm Hr]. pose proof (submit_shadow_spec m c now Hm) as Hspec.
  assert (Hrules : Forall (λ r, fr_status r ≠ ACTIVE) (dvalues (m_rules (submit_candidate c now m).2))).
  { unfold submit_candidate, _submit_to_sets, mbind, m_bind, mget, mlift. destruct (m_sets m) as [b|] eqn:Hs.
    - destruct (_target_for m c) as [target|e]; [|done]. destruct (validate_set_candidate _ _ _ _ _ _ _ _ _) as [o l]. cbn.
      destruct (so_approved o); [|done]. destruct target as [t|]; [|done]. rewrite decide_True by done. by apply dset_Forall.
    - destruct (validate_candidate_rule _ _ _ _ _ _ _ _ _) as [o l]. cbn. destruct (vo_approved o); [|done].
      destruct (vo_priority o); [|done]. rewrite decide_True by done. by apply dset_Forall. }
  destruct (submit_candidate c now m) as [r m']. destruct Hspec as (Hb & Hs & Hmode & _). cbn in *. done.
Qed.

Lemma asleep_register d m : asleep m (register_decision (B:=B) (F:=F) d m).2.
Proof. done. Qed.

Lemma asleep_expire now m : dormant m → expire_rules (B:=B) (F:=F) now m = (Ok [], m).
Proof.
  intros [_ Hr]. unfold expire_rules, mbind, m_bind, mget. induction (dvalues (m_rules m)) as [|r l IH]; [done|].
  apply Forall_cons in Hr as [Ha Hl]. cbn. unfold is_expired, is_active. rewrite bool_decide_false by done. cbn. by apply IH.
Qed.

(** ** The two pipelines *)

Definition asleep_v1 (p p' : FlowPipeline B F) : Prop := asleep (fp_manager p) (fp_manager p').
#[local] Instance asleep_v1_preorder : PreOrder asleep_v1.
Proof. split; [intros p; unfold asleep_v1; reflexivity|]. intros a b c. unfold asleep_v1. apply transitivity. Qed.
Lemma asleep_v1_local p p' : fp_manager p' = fp_manager p → fp_threat p' = fp_threat p → asleep_v1 p p'.
Proof. unfold asleep_v1. by intros -> _. Qed.

Lemma asleep_v1_finish f now o : framed asleep_v1 (_finish new_id flow_id f now o).
Proof.
  apply (v1_finish _ _ _ asleep_v1_local). intros d. apply (v1_enforce _ _ asleep_v1_local). intros c. split; [done|]. intros _ s.
  unfold on_manager, asleep_v1. pose proof (asleep_submit (fp_manager s) c now) as H. by destruct (submit_candidate c now (fp_manager s)).
Qed.

Lemma asleep_process scorer f now sig el : (∀ p, match scorer with Some score => framed asleep_v1 (score p) | None => True end) →
  framed asleep_v1 (process new_id flow_id interp exn_text scorer f now sig el).
Proof. intros Hs. apply (v1_process _ _ _ _ _ asleep_v1_local); [apply asleep_v1_finish|done]. Qed.
Lemma asleep_snapshot f now : framed asleep_v1 (process_snapshot new_id flow_id exn_text f now).
Proof. apply (v1_snapshot _ _ _ _ asleep_v1_local), asleep_v1_finish. Qed.
Lemma asleep_enqueue now p : framed asleep_v1 (_enqueue_anomaly_scoring new_id flow_id exn_text now p).
Proof. apply (v1_enqueue _ _ _ _ asleep_v1_local), asleep_v1_finish. Qed.
Lemma asleep_batch batch now el : framed asleep_v1 (_score_and_finish_batch new_id flow_id exn_text batch now el).
Proof. apply (v1_batch _ _ _ _ asleep_v1_local), asleep_v1_finish. Qed.

Definition asleep_v2 (p p' : @V2Pipeline B F) : Prop := asleep (vp_manager p) (vp_manager p').
#[local] Instance asleep_v2_preorder : PreOrder asleep_v2.
Proof. split; [intros p; unfold asleep_v2; reflexivity|]. intros a b c. unfold asleep_v2. apply transitivity. Qed.
Lemma asleep_v2_do op : framed asleep_v2 (v2_do new_id flow_id op).
Proof.
  assert (Hl : ∀ p p' : @V2Pipeline B F, vp_manager p' = vp_manager p → vp_engine p' = vp_engine p → asleep_v2 p p')
    by (unfold asleep_v2; by intros p p' ->).
  assert (He : ∀ A (m : M PolicyEngine A), framed asleep_v2 (on_engine m)) by (intros A m s; unfold on_engine; by destruct (m (vp_engine s))).
  apply frame_do; [apply _|done|done|]. intros d had now. apply frame_submit; [apply _|done|done|done|].
  intros c id rule_id s. unfold on_fw, asleep_v2. pose proof (asleep_submit (vp_manager s) (candidate_of c d id rule_id now) now) as H.
  by destruct (submit_candidate _ now (vp_manager s)).
Qed.

(** ** The daemon *)

Definition drowsy (s s' : Dm) : Prop := asleep (daemon_manager s) (daemon_manager s') ∧ (is_Some (cd_v2 s) ↔ is_Some (cd_v2 s')).
#[local] Instance drowsy_preorder : PreOrder drowsy.
Proof.
  split; [by intros s; split|]. intros a b c [Hab Hab'] [Hbc Hbc']. split; [by transitivity (daemon_manager b)|by rewrite Hab'].
Qed.
#[local] Notation sleeps := (framed drowsy).

Lemma drowsy_local {A} (m : M Dm A) : (∀ s, cd_pipeline (m s).2 = cd_pipeline s ∧ cd_v2 (m s).2 = cd_v2 s) → sleeps m.
Proof. intros Hm s. destruct (Hm s) as [Hp Hv]. unfold drowsy, daemon_manager. by rewrite Hp, Hv. Qed.

Lemma drowsy_pipeline {A} (m : M (FlowPipeline B F) A) : framed asleep_v1 m → sleeps (on_pipeline m).
Proof.
  intros Hm s. specialize (Hm (cd_pipeline s)). unfold on_pipeline. destruct (m (cd_pipeline s)) as [r p]. cbn in *.
  split; [|done]. unfold daemon_manager. cbn. by destruct (cd_v2 s).
Qed.
Lemma drowsy_v2 {A} (m : M (@V2Pipeline B F) A) : framed asleep_v2 m → sleeps (on_v2 m).
Proof.
  intros Hm s. unfold on_v2. destruct (cd_v2 s) as [p|] eqn:Hv; [|done]. specialize (Hm p). destruct (m p) as [r p']. cbn in *.
  split; cbn; [|by rewrite Hv]. unfold daemon_manager. cbn. by rewrite Hv.
Qed.
Lemma drowsy_forwarder {A} (m : M EventForwarder A) : sleeps (on_pipeline (on_forwarder m)).
Proof. apply drowsy_pipeline. apply (v1_forwarder _ asleep_v1_local). Qed.
Lemma drowsy_coordinator {A} (m : CoM A) : sleeps (on_pipeline (on_coordinator m)).
Proof. apply drowsy_pipeline. apply (v1_coordinator _ asleep_v1_local). Qed.
Lemma drowsy_count k n : sleeps (count_as k n).
Proof. apply drowsy_pipeline. by apply (v1_local _ asleep_v1_local). Qed.
Lemma drowsy_emit e : sleeps (emit_event e).
Proof. apply drowsy_forwarder. Qed.
Lemma drowsy_aggregator {A} (m : M FlowAggregator A) : sleeps (on_aggregator m).
Proof. apply drowsy_local. intros s. unfold on_aggregator. by destruct (m (cd_aggregator s)). Qed.
Lemma drowsy_pop f : sleeps (pop_evidence flow_id f).
Proof. apply drowsy_local. intros s. unfold pop_evidence. by destruct (_pop_tls_evidence _ _ _). Qed.
Lemma drowsy_modify (g : Dm → Dm) : (∀ s, cd_pipeline (g s) = cd_pipeline s ∧ cd_v2 (g s) = cd_v2 s) → sleeps (mmodify g).
Proof. intros Hg. by apply drowsy_local. Qed.
Lemma drowsy_queues g : sleeps (on_queues g).
Proof. by apply drowsy_local. Qed.
Lemma drowsy_snapshot f now : sleeps (on_pipeline (process_snapshot new_id flow_id exn_text f now)).
Proof. apply drowsy_pipeline, asleep_snapshot. Qed.
Lemma drowsy_warrants b : sleeps (on_pipeline (behavior_warrants_assessment b)).
Proof.
  apply drowsy_pipeline. unfold behavior_warrants_assessment. destruct (ba_detected_patterns b); [apply (frame_ret asleep_v1)|].
  apply (frame_bind asleep_v1); [apply (frame_get asleep_v1)|]. intros s. apply (frame_bind asleep_v1); [apply (frame_lift asleep_v1)|].
  intros x. apply (frame_ret asleep_v1).
Qed.
#[local] Hint Resolve drowsy_forwarder drowsy_coordinator drowsy_count drowsy_emit drowsy_aggregator drowsy_pop drowsy_queues
  drowsy_snapshot drowsy_warrants : drowsy.

Ltac drowsy_step :=
  first [apply (frame_ret drowsy) | apply (frame_get drowsy) | apply (frame_lift drowsy)
        | apply (frame_raise drowsy) | solve [eauto with drowsy]
        | (apply drowsy_modify; intros; case_match; split; reflexivity) | (apply drowsy_modify; intros; split; reflexivity)
        | (apply (frame_fold drowsy); intros)
        | (apply (frame_bind drowsy); [|intros])].
Ltac drowsy_all := repeat first [drowsy_step | case_match].

Lemma drowsy_sweep now : sleeps (_sweep_flows now).
Proof. unfold _sweep_flows. drowsy_all. Qed.
#[local] Hint Resolve drowsy_sweep : drowsy.
Lemma drowsy_take_signals : sleeps (take_signals (B:=B) (F:=F)).
Proof. by apply drowsy_local. Qed.
#[local] Hint Resolve drowsy_take_signals : drowsy.
Lemma drowsy_capture raw at_ now : sleeps (capture_frame raw at_ now).
Proof. unfold capture_frame, capture_packets, record_malformed, _note_replay_time, _sweep_on_replay_clock. drowsy_all. Qed.
Lemma drowsy_put p now : sleeps (do_put p now).
Proof.
  destruct p; cbn [do_put]; unfold _handle_new_flow, _enqueue, _enqueue_slow_clusters, _note_backpressure_drop, emit_warning; drowsy_all.
Qed.
Lemma drowsy_early ck sources : sleeps (_assess_sources_early new_id flow_id exn_text set_order ck sources).
Proof. unfold _assess_sources_early, assess_early. drowsy_all. Qed.
#[local] Hint Resolve drowsy_early : drowsy.
Lemma drowsy_signal signal : sleeps (on_v2 (observe_signal signal)).
Proof. apply drowsy_v2. exact (asleep_v2_do (OpSignal signal)). Qed.
Lemma drowsy_slow mac src dst n now : sleeps (on_v2 (observe_slow mac src dst n now)).
Proof. apply drowsy_v2. exact (asleep_v2_do (OpSlow mac src dst n now)). Qed.
Lemma drowsy_v2_step mono f now : sleeps (on_v2 (v2_step new_id flow_id mono f now)).
Proof.
  apply drowsy_v2. unfold v2_step. apply (frame_bind asleep_v2).
  { destruct f as [f|]; [exact (asleep_v2_do (OpRecord f now))|apply (frame_ret asleep_v2)]. }
  intros _. apply (frame_bind asleep_v2); [exact (asleep_v2_do (OpDrain now))|]. intros _. exact (asleep_v2_do (OpEvaluate mono now)).
Qed.
#[local] Hint Resolve drowsy_signal drowsy_slow drowsy_v2_step : drowsy.
Lemma drowsy_crash_safe (m : M Dm unit) : sleeps m → sleeps (crash_safe m).
Proof. intros Hm s. exact (Hm s). Qed.
Lemma drowsy_process_v2 ck f : sleeps (_process_v2 new_id flow_id ck f).
Proof.
  unfold _process_v2. apply (frame_bind drowsy); [apply (frame_get drowsy)|]. intros s. apply drowsy_crash_safe. drowsy_all.
Qed.
#[local] Hint Resolve drowsy_process_v2 : drowsy.
Lemma drowsy_process_flow ck f : sleeps (process_flow new_id flow_id interp exn_text ck f).
Proof.
  unfold process_flow. apply (frame_bind drowsy); [apply (frame_get drowsy)|]. intros s. destruct (cd_v2 s); [apply drowsy_process_v2|].
  apply (frame_bind drowsy); [apply drowsy_pop|]. intros sig. apply drowsy_pipeline, asleep_process. intros p. unfold anomaly_scorer.
  destruct (is_loaded _); [apply asleep_enqueue|done].
Qed.
Lemma drowsy_loop ck pc : sleeps (_detection_loop new_id flow_id interp exn_text set_order ck pc).
Proof.
  destruct pc; cbn [_detection_loop]; try (apply (frame_bind drowsy); [apply drowsy_process_flow|intros; apply (frame_ret drowsy)]);
    unfold _drain_new_flow_signals, _drain_slow_clusters; drowsy_all.
Qed.
Lemma drowsy_expire now s : dormant (daemon_manager s) → drowsy s (_expire_rules now s).2.
Proof.
  intros Hd. unfold _expire_rules, mbind, m_bind, on_daemon_manager, on_manager, daemon_manager in *.
  destruct (cd_v2 s) as [p|] eqn:Hv; rewrite asleep_expire by done; cbn; (split; [|cbn; by rewrite ?Hv]); unfold daemon_manager; cbn; by rewrite ?Hv.
Qed.
Lemma drowsy_batch size ck : sleeps (on_pipeline (batch ← take_batch size; _score_and_finish_batch new_id flow_id exn_text batch (ck_now ck) (ck_elapsed ck))).
Proof.
  apply drowsy_pipeline. apply (frame_bind asleep_v1); [by apply (v1_local _ asleep_v1_local)|]. intros b. apply asleep_batch.
Qed.

Lemma drowsy_system y y' : SystemStep new_id flow_id interp exn_text set_order y y' → dormant (daemon_manager (sy_daemon y)) →
  drowsy (sy_daemon y) (sy_daemon y').
Proof.
  destruct 1 as [d sw pc tr raw at_ now|d p cs sw pc tr now taken d' Hp|d cs pc tr now|d cs p sw pc tr now taken d' Hp
    |d cs sw pc tr now|d cs sw pc tr size ck|d cs sw pc tr ck]; cbn [sy_daemon]; intros Hd.
  - apply drowsy_capture.
  - pose proof (drowsy_put p now d) as H. by rewrite Hp in H.
  - apply drowsy_sweep.
  - pose proof (drowsy_put p now d) as H. by rewrite Hp in H.
  - by apply drowsy_expire.
  - apply drowsy_batch.
  - apply drowsy_loop.
Qed.

(** ** The lease sync and the portal *)

(** What the writers of bindings and grants may do to a manager. *)
Definition only_bindings (o o' : option B) : Prop :=
  match o, o' with
  | Some b, Some b' => bindings_only (sb_view b) (sb_view b')
  | None, None => True
  | _, _ => False
  end.
Definition watching (m m' : Mgr) : Prop :=
  dormant m → dormant m' ∧ only_bindings (m_sets m) (m_sets m') ∧ rtc grant_call (m_backend m) (m_backend m').

#[local] Instance bindings_only_preorder : PreOrder bindings_only.
Proof.
  split; [by intros v|]. intros u v w (H1 & H2 & H3 & H4) (G1 & G2 & G3 & G4). split; [congruence|]. split; [intros; rewrite G2, H2; done|].
  split; intros; congruence.
Qed.
#[local] Instance only_bindings_preorder : PreOrder only_bindings.
Proof.
  split; [intros [b|]; cbn; [reflexivity|done]|]. intros [a|] [b|] [c|]; cbn; try done. apply transitivity.
Qed.
#[local] Instance watching_preorder : PreOrder watching.
Proof.
  split; [intros m Hm; split; [done|]; split; [reflexivity|apply rtc_refl]|]. intros a b c Hab Hbc Ha.
  destruct (Hab Ha) as (Hb & Hs & Hg). destruct (Hbc Hb) as (Hc & Hs' & Hg'). split; [done|]. split; [by etrans|by etrans].
Qed.

Lemma asleep_watching m m' : asleep m m' → watching m m'.
Proof. intros Ha Hm. destruct (Ha Hm) as (Hd & -> & ->). split; [done|]. split; [reflexivity|apply rtc_refl]. Qed.
Lemma grants_watching m m' : grants_only m m' → watching m m'.
Proof. intros (f & Hf & ->) Hm. split; [exact Hm|]. split; [cbn; reflexivity|exact Hf]. Qed.

(** A manager that differs in its set backend only. *)
Definition only_sets (m m' : Mgr) : Prop := ∃ o, m' = set_sets m o.
#[local] Instance only_sets_preorder : PreOrder only_sets.
Proof. split; [intros m; exists (m_sets m); by destruct m|]. intros a b c [o ->] [o' ->]. by exists o'. Qed.
Lemma only_sets_on_sets {A} (f : M B A) : framed only_sets (on_sets (F := F) f).
Proof. intros m. unfold on_sets. destruct (m_sets m) as [b|]; [|reflexivity]. destruct (f b) as [r b']. by exists (Some b'). Qed.
Lemma only_sets_stale bs places : framed only_sets (stale_binding_ops (F := F) bs places).
Proof.
  induction places as [|p places IH]; cbn [stale_binding_ops]; [apply (frame_ret only_sets)|].
  repeat first [apply only_sets_on_sets | apply IH | apply (frame_ret only_sets) | (apply (frame_bind only_sets); [|intros]) | case_match].
Qed.
Lemma bindings_watching m m' : only_sets m m' → only_bindings (m_sets m) (m_sets m') → watching m m'.
Proof. intros [o ->] Hs Hm. split; [exact Hm|]. split; [exact Hs|apply rtc_refl]. Qed.

Lemma watching_sync change now m : watching m (sync_bindings (B := B) (F := F) change now m).2.
Proof.
  apply bindings_watching.
  - unfold sync_bindings. revert m. change (framed only_sets (sync_bindings (B := B) (F := F) change now)). unfold sync_bindings.
    repeat first [apply only_sets_on_sets | apply (frame_ret only_sets) | apply (frame_get only_sets) | (apply (frame_bind only_sets); [|intros]) | case_match].
  - destruct (m_sets m) as [b|] eqn:Hb.
    + pose proof (sync_bindings_effect m b change now Hb) as He. destruct (sync_bindings change now m) as [r m'].
      destruct He as (b' & Hs & Ho & _). cbn [snd]. by rewrite Hs.
    + unfold sync_bindings, mbind, m_bind, mget. rewrite Hb. cbn. by rewrite Hb.
Qed.
Lemma watching_replace bs now m : watching m (replace_bindings (B := B) (F := F) bs now m).2.
Proof.
  apply bindings_watching.
  - revert m. change (framed only_sets (replace_bindings (B := B) (F := F) bs now)). unfold replace_bindings.
    repeat first [apply only_sets_stale | apply only_sets_on_sets | apply (frame_ret only_sets) | apply (frame_get only_sets) | (apply (frame_bind only_sets); [|intros]) | case_match].
  - destruct (m_sets m) as [b|] eqn:Hb.
    + pose proof (replace_bindings_effect m b bs now Hb) as He. destruct (replace_bindings bs now m) as [r m'].
      destruct He as (b' & Hs & Ho & _). cbn [snd]. by rewrite Hs.
    + unfold replace_bindings, mbind, m_bind, mget. rewrite Hb. cbn. by rewrite Hb.
Qed.

Definition lease_watching (l l' : LeaseSync B F) : Prop := watching (ls_manager l) (ls_manager l').
#[local] Instance lease_watching_preorder : PreOrder lease_watching.
Proof. split; [intros l; unfold lease_watching; reflexivity|]. intros a b c. unfold lease_watching. apply transitivity. Qed.
Lemma lease_local (g : LeaseSync B F → LeaseSync B F) : (∀ l, ls_manager (g l) = ls_manager l) → framed lease_watching (mmodify g).
Proof. intros Hg l. unfold lease_watching, mmodify. cbn. rewrite Hg. reflexivity. Qed.
Lemma lease_table {A} (f : M LeaseBindingTable A) : framed lease_watching (ls_on_table (B := B) (F := F) f).
Proof. intros l. unfold ls_on_table, lease_watching. destruct (f (ls_table l)). reflexivity. Qed.
Lemma lease_manager {A} (f : M Mgr A) : (∀ m, watching m (f m).2) → framed lease_watching (ls_on_manager f).
Proof. intros Hf l. unfold ls_on_manager, lease_watching. specialize (Hf (ls_manager l)). by destruct (f (ls_manager l)). Qed.

Lemma watching_poll file now : framed lease_watching (LeaseSync.poll (B := B) (F := F) file now).
Proof.
  unfold LeaseSync.poll, pass_leases, LeaseSync._read, write_change, ls_count, ls_set_resync, ls_set_ignored, ls_set_read_failing, LeaseSync._emit, ls_event.
  repeat first [apply lease_table | (apply lease_manager; intros; first [apply watching_sync | apply watching_replace])
    | apply (frame_ret lease_watching) | apply (frame_get lease_watching) | (apply lease_local; reflexivity)
    | (apply (frame_try lease_watching); [|intros]) | (apply (frame_bind lease_watching); [|intros]) | case_match].
Qed.

Definition portal_watching (sv sv' : PortalService B F) : Prop := watching (sv_manager sv) (sv_manager sv').
#[local] Instance portal_watching_preorder : PreOrder portal_watching.
Proof. split; [intros l; unfold portal_watching; reflexivity|]. intros a b c. unfold portal_watching. apply transitivity. Qed.
Lemma portal_client {A} (f : M (PortalService B F) A) : framed client_keeps f → framed portal_watching f.
Proof. intros Hf sv. destruct (Hf sv) as [(_ & Hg & _) _]. by apply grants_watching. Qed.
Lemma portal_list : framed portal_watching (PortalService.on_manager (authorized_portal_grants (B := B) (F := F))).
Proof.
  intros sv. unfold PortalService.on_manager, portal_watching. pose proof (list_grants (sv_manager sv)) as Hg.
  unfold authorized_portal_grants, try_firewall. destruct (on_backend fb_list_portal_grants (sv_manager sv)) as [[gs|[]] m];
    by apply grants_watching.
Qed.
Lemma watching_sweep now now' : framed portal_watching (PortalService.sweep (B := B) (F := F) now now').
Proof.
  assert (Hs : ∀ A (f : PortalSessionRegistry → A * PortalSessionRegistry), framed portal_watching (on_sessions f))
    by (intros; apply portal_client, client_sessions).
  assert (Hd : ∀ ip mac now, framed portal_watching (_deauthorize ip mac now)) by (intros; apply portal_client, client_deauthorize).
  assert (Ho : ∀ gs now, framed portal_watching (find_orphans gs now)).
  { intros gs n. induction gs as [|[ip mac] gs IH]; cbn [find_orphans]; unfold _grant_has_session;
      repeat first [apply Hs | apply IH | apply (frame_ret portal_watching) | (apply (frame_bind portal_watching); [|intros]) | case_match]. }
  unfold PortalService.sweep, reconcile_portal, drop_orphan.
  repeat first [apply Hs | apply Hd | apply Ho | apply portal_list | (apply portal_client, client_emit) | apply (frame_ret portal_watching)
    | (apply (frame_fold portal_watching); intros) | (apply (frame_bind portal_watching); [|intros]) | case_match].
Qed.

(** ** The host *)

Lemma set_manager_manager (d : Dm) m : daemon_manager (set_daemon_manager d m) = m.
Proof. unfold set_daemon_manager, daemon_manager. by destruct (cd_v2 d) eqn:Hv; cbn; rewrite ?Hv. Qed.
Lemma emit_events_manager es (d : Dm) : daemon_manager (emit_events es d) = daemon_manager d.
Proof.
  assert (Hf : framed (λ s s' : Dm, daemon_manager s' = daemon_manager s) (mfold_unit emit_event es)); [|apply Hf].
  induction es as [|e es IH]; intros s; [done|]. cbn [mfold_unit]. unfold mbind, m_bind.
  assert (He : daemon_manager (emit_event e s).2 = daemon_manager s).
  { unfold emit_event, on_pipeline, on_forwarder, daemon_manager. destruct (emit e _) as [r f]. cbn. by destruct (cd_v2 s). }
  destruct (emit_event e s) as [[[]|x] s1]; cbn in *; [rewrite IH|]; done.
Qed.
Lemma put_manager item (d : Dm) : daemon_manager (on_v2 (_put item) d).2 = daemon_manager d.
Proof.
  unfold on_v2, daemon_manager. destruct (cd_v2 d) as [p|] eqn:Hv; [|cbn; by rewrite ?Hv]. unfold _put, mmodify. destruct (_ <? _); cbn; done.
Qed.
Lemma failures_manager fs (d : Dm) : daemon_manager (report_failures fs d) = daemon_manager d.
Proof.
  unfold report_failures. destruct (cd_v2 d) eqn:Hv; [|done]. clear Hv. revert d.
  induction fs as [|[[[u ip] mac] at_] fs IH]; intros d; [done|]. cbn [mfold_unit]. unfold mbind, m_bind.
  pose proof (put_manager (PortalFailureItem u mac at_) d) as He. unfold submit_portal_failure.
  destruct (on_v2 _ d) as [[[]|x] s1]; cbn in *; [rewrite IH|]; done.
Qed.
Lemma rebind_watching t (d : Dm) : watching (daemon_manager d) (daemon_manager (rebind t d)).
Proof.
  assert (Hm : daemon_manager (rebind t d) = set_resolver (daemon_manager d) (resolve_mac t)).
  { unfold rebind. destruct (cd_v2 d) as [p|] eqn:Hv; unfold set_daemon_manager, daemon_manager; rewrite Hv; cbn; rewrite ?Hv; done. }
  rewrite Hm. intros Hd. split; [exact Hd|]. split; [cbn; reflexivity|apply rtc_refl].
Qed.
Lemma portal_effect_manager sv sv' (d : Dm) : daemon_manager (portal_effect sv sv' d) = sv_manager sv'.
Proof. unfold portal_effect. by rewrite failures_manager, emit_events_manager, set_manager_manager. Qed.

Lemma watching_host casefold repr scrypt h h' :
  HostStep new_id flow_id interp exn_text set_order casefold repr scrypt h h' → watching (daemon_manager (ho_daemon h)) (daemon_manager (ho_daemon h')).
Proof.
  destruct 1 as [y y' l sv Hstep|h now now'|h d q|h file now|h result now].
  - intros Hd. destruct (drowsy_system _ _ Hstep Hd) as [Hs _]. by apply asleep_watching.
  - unfold _expire_portal_sessions. destruct (ho_portal h) as [sv|]; [|reflexivity]. unfold ho_daemon at 2. cbn [ho_system with_daemon sy_daemon].
    rewrite portal_effect_manager. exact (watching_sweep now now' (sv_set_manager sv (daemon_manager (ho_daemon h)))).
  - unfold portal_request. destruct (ho_portal h) as [sv|]; [|reflexivity]. unfold ho_daemon at 2. cbn [ho_system with_daemon sy_daemon].
    rewrite portal_effect_manager. apply grants_watching.
    exact (proj1 (proj2 (proj1 (client_handle_keeps casefold repr scrypt exn_text d q (sv_set_manager sv (daemon_manager (ho_daemon h))))))).
  - unfold lease_pass. unfold ho_daemon at 2. cbn [ho_system with_daemon sy_daemon].
    etrans; [|apply rebind_watching]. rewrite emit_events_manager, set_manager_manager.
    exact (watching_poll file now (ls_set_manager (ho_lease h) (daemon_manager (ho_daemon h)))).
  - unfold host_kernel_poll. unfold ho_daemon at 2. cbn [ho_system with_daemon sy_daemon]. unfold submit_kernel_poll. rewrite put_manager. reflexivity.
Qed.

(** C12: the daemon under SHADOW only watches: started in SHADOW mode with no
    ACTIVE rule, whatever frames arrive, whatever the lease file says and
    whatever the portal's clients ask, however the capture, sweep, batch,
    detection, lease-sync and portal threads interleave and whichever engine
    runs, the mode is still SHADOW, no rule is ACTIVE, every guard, every
    table and every element of a kernel set outside the binding sets is what
    it was, and the v1 backend was called for nothing but the portal's grants.
    What the theorem leaves out is the operator's control socket. *)
Theorem shadow_daemon_only_watches casefold repr scrypt d l sv h :
  rtc (HostStep new_id flow_id interp exn_text set_order casefold repr scrypt) (start_host d l sv) h →
  m_mode (daemon_manager d) = MODE_SHADOW → Forall (λ r, fr_status r ≠ ACTIVE) (all_rules (daemon_manager d)) →
  let m := daemon_manager (ho_daemon h) in
  m_mode m = MODE_SHADOW ∧ Forall (λ r, fr_status r ≠ ACTIVE) (all_rules m) ∧
  match m_sets (daemon_manager d), m_sets m with
  | Some b, Some b' =>
      (∀ a k, a ∉ binding_addresses → kv_elem (sb_view b') a k = kv_elem (sb_view b) a k) ∧
      (∀ g, kv_guard (sb_view b') g = kv_guard (sb_view b) g) ∧ (∀ t, kv_table (sb_view b') t = kv_table (sb_view b) t)
  | None, None => True
  | _, _ => False
  end ∧
  rtc grant_call (m_backend (daemon_manager d)) (m_backend m).
Proof.
  intros Hr Hm Ha. assert (Hw : watching (daemon_manager d) (daemon_manager (ho_daemon h))).
  { change (daemon_manager d) with (daemon_manager (ho_daemon (start_host d l sv))). clear Hm Ha.
    induction Hr as [h|h1 h2 h3 H12 _ IH]; [reflexivity|]. etrans; [by eapply watching_host|exact IH]. }
  destruct (Hw (conj Hm Ha)) as ([Hm' Ha'] & Hs & Hg). cbn zeta. split; [done|]. split; [done|]. split; [|done].
  unfold only_bindings in Hs. destruct (m_sets (daemon_manager d)), (m_sets (daemon_manager (ho_daemon h))); try done.
  by destruct Hs as (_ & ? & ? & ?).
Qed.
End Shadow.
