(* ===== verification/Watch.v ===== *)
(** * The watch thread, start-up reconciliation and shutdown (runtime/core.py)

    The parts of [CoreDaemon] that look at the kernel rather than at traffic:
    what it seeds and reconciles when it starts, the one-second pass that
    checks the v2 tables, publishes the guard modes and polls the offenders,
    the accounting of a native engine that sheds or panics, and what a stop
    removes.

    The pass reads the manager without the state lock, so one pass is one
    step.  The poller's reader is the daemon's own manager object: [poll]
    borrows it and gives it back.  What [capture.statistics()] gives is an
    argument, a reading or the text of a [PirewallError]. *)

From S2P Require Import Prelude Float Net Models RateLimiter Sets SetBackend Validator Backend Manager Lifecycle.
From S2P Require Import Bindings LeaseSync Policy Flow Thresholds Fallback Runtime PipelineV1 KernelPoller PipelineV2 Rpc Daemon.
Local Open Scope Z_scope.

Definition CaptureReading : Type := CaptureStatistics + string.

(** [_describe_tables] *)
Definition _describe_tables (tables : list (string * string)) : string :=
  String.concat ", " ((λ ft : string * string, ft.1 +:+ " " +:+ ft.2) <$> tables).

(** ** Start-up checks *)

Definition quoted (s : string) : string := String "034"%char s +:+ String "034"%char EmptyString.
Definition enforcement_mode_value (m : EnforcementMode) : string :=
  match m with MODE_SHADOW => "shadow" | MODE_ASSISTED => "assisted" | MODE_ACTIVE => "active" end.

Inductive PipelineEngine := ENGINE_V1 | ENGINE_V2.
#[global] Instance PipelineEngine_eq_dec : EqDecision PipelineEngine.
Proof. solve_decision. Defined.
Definition engine_value (e : PipelineEngine) : string := match e with ENGINE_V1 => "v1" | ENGINE_V2 => "v2" end.
Definition IMPLEMENTED_ENGINES : list PipelineEngine := [ENGINE_V1; ENGINE_V2].

Definition check_engine_implemented (engine : PipelineEngine) : result unit :=
  if inb engine IMPLEMENTED_ENGINES then Ok tt
  else Raise (ConfigurationError ("pipeline.engine = " +:+ quoted (engine_value engine) +:+ " is not implemented in this pirewall-core (available: "
    +:+ String.concat ", " (engine_value <$> IMPLEMENTED_ENGINES) +:+ ").")).

(** The thresholds [engine = v2] runs with: SHADOW falls back to the floors. *)
Definition load_v2_thresholds (digest : list ThresholdEntry → string) (mode : EnforcementMode) (windows : list Z) (disk : ThresholdsOnDisk)
  : result D1ThresholdFile :=
  match load_thresholds digest disk with
  | Ok f => Ok f
  | Raise (ConfigurationError msg) =>
      match mode with
      | MODE_SHADOW => floors_file digest windows [("reason", PV_str "thresholds file unavailable")]
      | _ => Raise (ConfigurationError ("pipeline.engine = " +:+ quoted "v2" +:+ " in " +:+ enforcement_mode_value mode +:+ " mode needs the D1 thresholds file: " +:+ msg
               +:+ ". Write it with scripts/train/fit_d1_thresholds.py."))
      end
  | Raise e => Raise e
  end.

Section Watch.
Context {B F : Type} {SB : SetBackend B} {FB : FirewallBackend F}.
Context (exn_text : exn → string).
Notation FM := (FirewallManager B F).

Record CoreWatch : Type := mk_watch {
  wt_daemon : @CoreDaemon B F;
  wt_snapshots : V2Snapshots;
  wt_missing_tables : list (string * string);
  wt_kernel_poller : option (KernelPoller FM);
  wt_lease_sync : @LeaseSync B F;
  wt_native : bool;                      (** [_native_aggregator is not None] *)
  wt_packet_ring : bool;                 (** [native_capture_available()] *)
  wt_native_shed : Z * Z;
  wt_panics_caught : Z;
  wt_panic_budget : NativePanicBudget;
  wt_capture_started : bool;
}.

Definition wt_set_daemon (w : CoreWatch) x : CoreWatch :=
  mk_watch x (wt_snapshots w) (wt_missing_tables w) (wt_kernel_poller w) (wt_lease_sync w) (wt_native w) (wt_packet_ring w)
    (wt_native_shed w) (wt_panics_caught w) (wt_panic_budget w) (wt_capture_started w).
Definition wt_set_snapshots (w : CoreWatch) x : CoreWatch :=
  mk_watch (wt_daemon w) x (wt_missing_tables w) (wt_kernel_poller w) (wt_lease_sync w) (wt_native w) (wt_packet_ring w)
    (wt_native_shed w) (wt_panics_caught w) (wt_panic_budget w) (wt_capture_started w).
Definition wt_set_missing (w : CoreWatch) x : CoreWatch :=
  mk_watch (wt_daemon w) (wt_snapshots w) x (wt_kernel_poller w) (wt_lease_sync w) (wt_native w) (wt_packet_ring w)
    (wt_native_shed w) (wt_panics_caught w) (wt_panic_budget w) (wt_capture_started w).
Definition wt_set_poller (w : CoreWatch) x : CoreWatch :=
  mk_watch (wt_daemon w) (wt_snapshots w) (wt_missing_tables w) x (wt_lease_sync w) (wt_native w) (wt_packet_ring w)
    (wt_native_shed w) (wt_panics_caught w) (wt_panic_budget w) (wt_capture_started w).
Definition wt_set_lease (w : CoreWatch) x : CoreWatch :=
  mk_watch (wt_daemon w) (wt_snapshots w) (wt_missing_tables w) (wt_kernel_poller w) x (wt_native w) (wt_packet_ring w)
    (wt_native_shed w) (wt_panics_caught w) (wt_panic_budget w) (wt_capture_started w).
Definition wt_set_native (w : CoreWatch) x shed : CoreWatch :=
  mk_watch (wt_daemon w) (wt_snapshots w) (wt_missing_tables w) (wt_kernel_poller w) (wt_lease_sync w) x (wt_packet_ring w)
    shed (wt_panics_caught w) (wt_panic_budget w) (wt_capture_started w).
Definition wt_set_panics (w : CoreWatch) x y : CoreWatch :=
  mk_watch (wt_daemon w) (wt_snapshots w) (wt_missing_tables w) (wt_kernel_poller w) (wt_lease_sync w) (wt_native w) (wt_packet_ring w)
    (wt_native_shed w) x y (wt_capture_started w).

(** [self._bindings.snapshot()] *)
Definition wt_bindings (w : CoreWatch) : list Binding := snapshot (ls_table (wt_lease_sync w)).
Definition watch_manager (w : CoreWatch) : FM := daemon_manager (wt_daemon w).
Definition watch_forwarder (w : CoreWatch) : EventForwarder := fp_forwarder (cd_pipeline (wt_daemon w)).

Definition on_daemon {A} (m : M (@CoreDaemon B F) A) : M CoreWatch A := λ w,
  let '(r, d) := m (wt_daemon w) in (r, wt_set_daemon w d).
Definition ask_manager {A} (m : M FM A) : M CoreWatch A := on_daemon (on_daemon_manager m).
Definition give_manager (m : FM) (d : @CoreDaemon B F) : @CoreDaemon B F := (on_daemon_manager (λ _, (Ok tt, m)) d).2.

(** A call of the lease sync, which holds the daemon's manager and emits
    through its forwarder. *)
Definition lent (s : @LeaseSync B F) (m : FM) : @LeaseSync B F :=
  mk_ls (ls_protected s) (ls_path s) (ls_table s) m (ls_events s) (ls_needs_full_resync s) (ls_read_failing s) (ls_last_ignored s)
    (ls_passes s) (ls_failures s).
Definition on_lease_sync {A} (f : M (@LeaseSync B F) A) : M CoreWatch A := λ w,
  let s := lent (wt_lease_sync w) (watch_manager w) in
  let '(r, s') := f s in
  let d := give_manager (ls_manager s') (wt_daemon w) in
  let d := (mfold_unit emit_event (drop (length (ls_events s)) (ls_events s')) d).2 in
  (r, wt_set_lease (wt_set_daemon w d) s').
Definition publish_view (f : V2Snapshots → V2Snapshots) : M CoreWatch unit :=
  mmodify (λ w, wt_set_snapshots w (f (wt_snapshots w))).

(** [CoreDaemon._emit_system] *)
Definition core_event (now : Z) (sev : EventSeverity) (reason : string) : SecurityEvent :=
  mk_event now sev SYSTEM_WARNING CORE_SUBSYSTEM None None None (Some reason).
Definition emit_system (now : Z) (sev : EventSeverity) (reason : string) : M CoreWatch unit :=
  on_daemon (emit_event (core_event now sev reason)).

(** ** The watch pass *)

Definition engine_backend (w : CoreWatch) : string :=
  if dm_replay (cd_config (wt_daemon w)) then "replay" else if wt_native w then "native" else "python".

Definition _engine_stats (now : Z) (reading : CaptureReading) (w : CoreWatch) : option EngineStats :=
  match reading with
  | inr _ => None
  | inl stats =>
      Some (mk_engine_stats (engine_backend w) (wt_packet_ring w) (cp_packets_seen stats) (cp_packets_dropped stats)
              (wt_native_shed w).1 (wt_native_shed w).2 (wt_panics_caught w) now)
  end.

Definition lost_tables (missing : list (string * string)) : string :=
  "v2 table(s) missing: " +:+ _describe_tables missing +:+ ". The static guards and adaptive sets they hold are not enforcing. "
  +:+ "pirewall-core never recreates a table; reload them with `sudo scripts/deployment/pirewall-start` (expected after a panic).".

Definition table_event (now : Z) (missing : list (string * string)) : SecurityEvent :=
  match missing with
  | [] => core_event now SEV_INFO "every v2 table is loaded again"
  | _ => core_event now SEV_CRITICAL (lost_tables missing)
  end.
Definition _report_table_change (now : Z) (missing : list (string * string)) : M CoreWatch unit :=
  on_daemon (emit_event (table_event now missing)).

(** [self._kernel_poller.poll(now)], on the daemon's manager *)
Definition poll_manager (now : Z) (p : KernelPoller FM) : M CoreWatch KernelPollResult := λ w,
  let '(r, p') := poll exn_text now (KernelPoller.reading p (watch_manager w)) in
  let w := wt_set_poller w (Some p') in
  (r, wt_set_daemon w (give_manager (po_reader p') (wt_daemon w))).

Definition offender_entry (result : KernelPollResult) (e : KernelGuardEvidence) : OffenderEntry :=
  mk_offender (ke_mac e) (offender_code (ke_code e)) (ke_guard e) (ke_guard_mode e) (ke_sustained_polls e)
    (default (ke_observed_at e) (dget (kp_started_at result) (ke_id e))) (ke_observed_at e).

Definition _poll_kernel (now : Z) : M CoreWatch unit :=
  w ← mget;
  match wt_kernel_poller w, cd_v2 (wt_daemon w) with
  | Some p, Some _ =>
      result ← poll_manager now p;
      _ ← publish_view (publish_offenders (offender_entry result <$> kp_evidence result));
      on_daemon (on_v2 (submit_kernel_poll result (wt_bindings w) now))
  | _, _ => mret tt
  end.

Definition publish_stats (now : Z) (reading : CaptureReading) : M CoreWatch unit :=
  mmodify (λ w, match _engine_stats now reading w with
                | Some stats => wt_set_snapshots w (publish_engine_stats stats (wt_snapshots w))
                | None => w
                end).

(** The missing tables, or what was known of them when they cannot be read. *)
Definition check_tables : M CoreWatch (list (string * string)) :=
  try_firewall (ask_manager missing_tables) (λ _, w ← mget; mret (wt_missing_tables w)).

Definition note_tables (now : Z) (missing : list (string * string)) : M CoreWatch unit :=
  w ← mget;
  if bool_decide (missing = wt_missing_tables w) then mret tt
  else
    _ ← _report_table_change now missing;
    mmodify (λ w, wt_set_missing w missing).

Definition publish_guards (now : Z) : M CoreWatch unit :=
  try_firewall
    (modes ← ask_manager guard_modes; publish_view (publish_guard_modes (Some (mk_guard_modes modes now)) None))
    (λ msg, publish_view (publish_guard_modes None (Some msg))).

Definition _refresh_v2_snapshots (now : Z) (reading : CaptureReading) : M CoreWatch unit :=
  _ ← publish_stats now reading;
  w ← mget;
  match m_sets (watch_manager w) with
  | None => publish_view (publish_guard_modes None (Some "this pirewall-core runs without the v2 set backend"))
  | Some _ =>
      missing ← check_tables;
      _ ← note_tables now missing;
      _ ← publish_guards now;
      _poll_kernel now
  end.

(** ** Start-up *)

Definition reconcile_summary (report : ReconcileReport) : string :=
  "reconciled with the kernel at startup: adopted " +:+ pretty (Z.of_nat (length (rr_adopted report)))
  +:+ " element(s) left by a previous run, retired " +:+ pretty (Z.of_nat (length (rr_retired report)))
  +:+ ", left " +:+ pretty (Z.of_nat (length (rr_unattributed report)))
  +:+ " unattributed MAC-keyed element(s) to expire on their own (<= 1 h)".

Definition report_reconciled (now : Z) (report : ReconcileReport) : M CoreWatch unit :=
  match rr_adopted report, rr_retired report, rr_unattributed report with
  | [], [], [] => mret tt
  | _, _, [] => emit_system now SEV_INFO (reconcile_summary report)
  | _, _, _ => emit_system now SEV_WARNING (reconcile_summary report)
  end.

Definition _reconcile_sets (now : Z) : M CoreWatch unit :=
  w ← mget;
  match m_sets (watch_manager w) with
  | None => mret tt
  | Some _ =>
      report ← try_firewall (report ← ask_manager (reconcile now); mret (Some report))
        (λ msg, _ ← emit_system now SEV_ERROR ("reconciling with the kernel's adaptive sets failed: " +:+ msg); mret None);
      match report with Some report => report_reconciled now report | None => mret tt end
  end.

(** [try: m  except PirewallError as exc: h(str(exc))]; a call of the manager
    raises no other [PirewallError] than these. *)
Definition try_pirewall {A} (m : M CoreWatch A) (h : string → M CoreWatch A) : M CoreWatch A := λ w,
  match m w with
  | (Raise (FirewallError msg), w') | (Raise (ConfigurationError msg), w') => h msg w'
  | r => r
  end.

Definition _seed_bindings (file : lease_file) (now : Z) : M CoreWatch unit :=
  _ ← on_lease_sync (seed file now);
  try_pirewall (_ ← ask_manager sync_allowlist; mret tt)
    (λ msg, on_daemon (emit_event (mk_event now SEV_ERROR FIREWALL_ERROR CORE_SUBSYSTEM None None None
              (Some ("writing the allowlist's MAC+IP pairs to allow_bound failed: " +:+ msg))))).

(** ** The native engine's losses *)

Definition shed_warning (now drops : Z) : SecurityEvent :=
  core_event now SEV_WARNING ("capture is completing flows faster than detection can assess them; " +:+ pretty drops
    +:+ " flow(s) dropped without analysis so far (source-level behavior detection still sees the traffic).").

Definition note_flows_shed (now flows : Z) : M (@CoreDaemon B F) unit :=
  _ ← count_as FLOWS_DROPPED flows;
  d ← mget;
  let before := q_backpressure_drops (cd_queues d) in
  let drops := before + flows in
  _ ← on_queues (λ q, set_dropped q drops (q_signals_dropped q) (q_clusters_dropped q));
  if (before =? 0) || negb (before / _BACKPRESSURE_REPORT_INTERVAL =? drops / _BACKPRESSURE_REPORT_INTERVAL)
  then emit_event (shed_warning now drops) else mret tt.

Definition _note_native_shedding (now flows signals : Z) : M CoreWatch unit :=
  _ ← (if flows =? 0 then mret tt else on_daemon (note_flows_shed now flows));
  if signals =? 0 then mret tt
  else on_daemon (on_queues (λ q, set_dropped q (q_backpressure_drops q) (q_signals_dropped q + signals) (q_clusters_dropped q))).

Definition _note_native_panic (mono now : Z) (msg : string) : M CoreWatch bool :=
  _ ← mmodify (λ w, wt_set_panics w (wt_panics_caught w + 1) (record_panic mono (wt_panic_budget w)));
  w ← mget;
  _ ← on_daemon (emit_event (mk_event now SEV_WARNING CAPTURE_ERROR CORE_SUBSYSTEM None None None
        (Some ("native engine panic caught and recovered (" +:+ pretty (wt_panics_caught w) +:+ " so far); the frames or batch in flight were dropped: "
               +:+ msg))));
  mret (pb_exhausted (wt_panic_budget w)).

(** ** Housekeeping *)

(** [max(1.0, watchdog_sec / 2.0)] *)
Definition _heartbeat_interval_seconds (watchdog_sec : Z) : float := fmax (float_of_Z 1) (fdiv (float_of_Z watchdog_sec) (float_of_Z 2)).

Definition _status_line (w : CoreWatch) : string :=
  "mode=" +:+ enforcement_mode_value (m_mode (watch_manager w)) +:+ " capture=" +:+ (if wt_capture_started w then "up" else "down")
  +:+ " active_rules=" +:+ pretty (Z.of_nat (length (active_rules (watch_manager w))))
  +:+ " queued_flows=" +:+ pretty (Z.of_nat (length (q_flows (cd_queues (wt_daemon w))))).

(** ** Shutdown *)

Definition _revert_ruleset_if_failing_open (now : Z) : M CoreWatch unit :=
  w ← mget;
  if negb (dm_fail_open (cd_config (wt_daemon w))) then mret tt
  else
    match active_rules (watch_manager w), m_sets (watch_manager w) with
    | [], None => mret tt
    | _, _ => event ← ask_manager (fail_open_shutdown now); on_daemon (emit_event event)
    end.
End Watch.

(** * What the watch thread sees and says

    A watch pass only reads the kernel; the tables it believes missing are the
    tables the kernel misses; every change of them is reported once, at the
    right severity; and the guard modes it publishes are the kernel's.  A stop
    under fail-open leaves no adaptive enforcement behind, or says so. *)

Local Open Scope Z_scope.

Section Props.
Context {B F : Type} {SB : SetBackend B} {SBL : SetBackendLaws B}.
Context {FB : FirewallBackend F} {FBL : FirewallBackendLaws F}.
Context (exn_text : exn → string).
Notation FM := (FirewallManager B F).
Notation Dm := (@CoreDaemon B F).
Notation W := (@CoreWatch B F).

(** ** Reading the kernel through the manager *)

Definition only_read (m m' : FM) : Prop :=
  same_core m m' ∧ m_mode m' = m_mode m ∧ m_backend m' = m_backend m ∧
  ∀ b, m_sets m = Some b → ∃ b', m_sets m' = Some b' ∧ view_eq (sb_view b') (sb_view b).

#[local] Instance only_read_preorder : PreOrder only_read.
Proof.
  split.
  - intros m. split; [reflexivity|]. split; [done|]. split; [done|]. intros b ->. by exists b.
  - intros m1 m2 m3 (C1 & M1 & B1 & S1) (C2 & M2 & B2 & S2). split; [by etrans|]. split; [congruence|]. split; [congruence|].
    intros b (b2 & H2 & V2)%S1. destruct (S2 _ H2) as (b3 & H3 & V3). exists b3. split; [done|]. by rewrite V3.
Qed.

Lemma read_sets {A} (f : M B A) : (∀ b, view_eq (sb_view (f b).2) (sb_view b)) → framed only_read (on_sets f).
Proof.
  intros Hf m. pose proof (keeps_on_sets (F := F) f m) as Hc. unfold on_sets in *. destruct (m_sets m) as [b|] eqn:Hb; [|reflexivity].
  specialize (Hf b). destruct (f b) as [r b']. cbn in *. split; [done|]. split; [done|]. split; [done|].
  intros b0 Hb0. exists b'. split; [done|]. by simplify_eq.
Qed.

Lemma read_by {A} (f : M B A) (P : B → result A → Prop) :
  (∀ b r b', f b = (r, b') → view_eq (sb_view b') (sb_view b) ∧ P b r) → ∀ b, view_eq (sb_view (f b).2) (sb_view b).
Proof. intros Hf b. destruct (f b) as [r b'] eqn:Hr. by apply Hf in Hr as [? _]. Qed.

Lemma read_table f t : framed only_read (on_sets (sb_table_exists f t)).
Proof. apply read_sets. eapply read_by. intros b r b' Hr%table_exists_law. exact Hr. Qed.
Lemma read_guard g : framed only_read (on_sets (sb_guard_mode g)).
Proof. apply read_sets. eapply read_by. intros b r b' Hr%guard_mode_law. exact Hr. Qed.
Lemma read_list a : framed only_read (on_sets (sb_list_set a)).
Proof. apply read_sets. eapply read_by. intros b r b' Hr%list_law. exact Hr. Qed.
Lemma read_fill a : framed only_read (on_sets (sb_set_fill a)).
Proof. apply read_sets. eapply read_by. intros b r b' Hr%set_fill_law. exact Hr. Qed.
Lemma read_counts ns : framed only_read (on_sets (sb_read_counters ns)).
Proof. apply read_sets. eapply read_by. intros b r b' Hr%read_counters_law. exact Hr. Qed.

Ltac reading_solve :=
  repeat first
    [ apply (frame_ret only_read) | apply (frame_raise only_read) | apply (frame_get only_read) | apply read_table | apply read_guard | apply read_list | apply read_fill
    | apply read_counts | apply (frame_bind only_read); [|intros ?]
    | match goal with |- framed _ (match ?x with _ => _ end) => destruct x end | done ].

Lemma read_missing_loop ls : framed only_read (missing_loop ls).
Proof. induction ls; cbn [missing_loop]; reading_solve. Qed.
Lemma read_missing : framed only_read missing_tables.
Proof. unfold missing_tables. reading_solve. Qed.
Lemma read_read_guards gs : framed only_read (read_guards gs).
Proof. induction gs; cbn [read_guards]; reading_solve. Qed.
Lemma read_guard_modes : framed only_read guard_modes.
Proof. unfold guard_modes. reading_solve. Qed.

Lemma read_read_fills ls : framed only_read (read_fills ls).
Proof. induction ls as [|l ls IH]; cbn [read_fills]; [reading_solve|]. cbn [kr_set_fill manager_reader]. unfold kernel_set_fill. reading_solve. Qed.
Lemma read_read_kernel : framed only_read read_kernel.
Proof.
  unfold read_kernel. cbn [kr_offenders kr_counters kr_guard_modes kr_static_table_present manager_reader]. unfold kernel_offenders, kernel_counters.
  reading_solve.
Qed.

(** ** What the reads return *)

Definition absent_tables (v : kernel_view) : list (string * string) := filter (λ t, kv_table v t = false) PANIC_TABLES.

Lemma missing_loop_spec ls : ∀ m b, m_sets m = Some b →
  match (missing_loop (F := F) ls m).1 with
  | Ok l => l = filter (λ t, kv_table (sb_view b) t = false) ls
  | Raise e => ∃ msg, e = FirewallError msg
  end.
Proof.
  induction ls as [|[f t] ls IH]; intros m b Hb; cbn [missing_loop]; [done|].
  unfold mbind, m_bind, on_sets. rewrite Hb. cbn [fst snd].
  destruct (sb_table_exists f t b) as [r b1] eqn:Hr. apply table_exists_law in Hr as [(_ & _ & _ & Ht) Hr].
  destruct r as [ok|e]; [|done]. subst ok. specialize (IH (set_sets m (Some b1)) b1 eq_refl).
  destruct (missing_loop ls _) as [[l|e] m2]; cbn [fst] in *; [|done]. subst l. unfold mret, m_ret. cbn [fst].
  rewrite filter_cons. destruct (kv_table (sb_view b) (f, t)) eqn:Hk.
  - rewrite decide_False by done. apply list_filter_iff. intros x. by rewrite Ht.
  - rewrite decide_True by done. f_equal. apply list_filter_iff. intros x. by rewrite Ht.
Qed.

Lemma missing_spec m b : m_sets m = Some b →
  match (missing_tables (F := F) m).1 with
  | Ok l => l = absent_tables (sb_view b)
  | Raise e => ∃ msg, e = FirewallError msg
  end.
Proof. intros Hb. unfold missing_tables, mbind, m_bind, mget. rewrite Hb. by apply missing_loop_spec. Qed.

(** ** Lending the manager *)

Lemma give_manager_id (d : Dm) m : daemon_manager (give_manager m d) = m.
Proof. unfold give_manager, on_daemon_manager, daemon_manager. destruct (cd_v2 d) as [p|] eqn:Hp; cbn; [done|]. by rewrite Hp. Qed.
Lemma give_manager_forwarder (d : Dm) m : fp_forwarder (cd_pipeline (give_manager m d)) = fp_forwarder (cd_pipeline d).
Proof. unfold give_manager, on_daemon_manager. by destruct (cd_v2 d). Qed.
Lemma give_manager_v2 (d : Dm) m : is_Some (cd_v2 (give_manager m d)) ↔ is_Some (cd_v2 d).
Proof. unfold give_manager, on_daemon_manager. destruct (cd_v2 d) eqn:Hp; cbn; [|by rewrite Hp]. split; by eexists. Qed.
Lemma on_daemon_manager_give {A} (f : M FM A) (d : Dm) :
  on_daemon_manager f d = ((f (daemon_manager d)).1, give_manager (f (daemon_manager d)).2 d).
Proof.
  unfold give_manager, on_daemon_manager, daemon_manager. destruct (cd_v2 d) as [p|]; [by destruct (f (vp_manager p))|].
  unfold on_manager. by destruct (f (fp_manager (cd_pipeline d))).
Qed.

(** What [ask_manager] and the emitters do to a watch. *)
Definition with_manager (m : FM) (w : W) : W := wt_set_daemon w (give_manager m (wt_daemon w)).

Lemma ask_manager_spec {A} (f : M FM A) (w : W) :
  ask_manager f w = ((f (watch_manager w)).1, with_manager (f (watch_manager w)).2 w).
Proof. unfold ask_manager, on_daemon. rewrite on_daemon_manager_give. done. Qed.

Lemma emit_total e (w : EventForwarder) : (emit e w).1 = Ok tt.
Proof.
  unfold emit, mbind, m_bind, Runtime.on_store, record_event, mmodify. cbn. unfold _forward. destruct (fw_wazuh _) as [send|]; [|done].
  destruct (send _ _); [|done]. unfold _note_forward_failure. by destruct (negb _).
Qed.

Definition with_forwarder (x : EventForwarder) (w : W) : W :=
  wt_set_daemon w (cd_set_pipeline (wt_daemon w) (fp_set_forwarder (cd_pipeline (wt_daemon w)) x)).
Lemma emit_spec e (w : W) : on_daemon (emit_event e) w = (Ok tt, with_forwarder (emit e (watch_forwarder w)).2 w).
Proof.
  unfold on_daemon, emit_event, on_pipeline, on_forwarder, watch_forwarder, with_forwarder.
  pose proof (emit_total e (fp_forwarder (cd_pipeline (wt_daemon w)))) as Ht. by destruct (emit e _) as [r x]; cbn in Ht |- *; subst r.
Qed.

(** What a pass may change of the watch besides its own fields: the kernel is
    only read, and the events of [es] are emitted. *)
Definition saw (es : list SecurityEvent) (w w' : W) : Prop :=
  only_read (watch_manager w) (watch_manager w') ∧ watch_forwarder w' = emit_all es (watch_forwarder w) ∧
  (is_Some (cd_v2 (wt_daemon w')) ↔ is_Some (cd_v2 (wt_daemon w))).

Lemma saw_trans es es' w1 w2 w3 : saw es w1 w2 → saw es' w2 w3 → saw (es ++ es') w1 w3.
Proof.
  intros (R1 & F1 & V1) (R2 & F2 & V2). split; [by etrans|]. split; [|tauto].
  rewrite F2, F1. unfold emit_all. by rewrite foldl_app.
Qed.
Lemma saw_ask {A} (f : M FM A) (w : W) : framed only_read f → saw [] w (with_manager (f (watch_manager w)).2 w).
Proof.
  intros Hf. split; [|split; [apply give_manager_forwarder|apply give_manager_v2]].
  unfold watch_manager at 2. cbn. rewrite give_manager_id. apply Hf.
Qed.

(** A poller whose episodes are those of some history of polls. *)
Definition poller_ok (w : W) : Prop :=
  match wt_kernel_poller w with Some p => ∃ h, episodes_match (po_episodes p) h | None => True end.

(** The table events of one pass. *)
Definition table_events (now : Z) (known missing : list (string * string)) : list SecurityEvent :=
  if bool_decide (missing = known) then [] else [table_event now missing].

(** Everything but the daemon's manager and forwarder. *)
Definition same_rest (w w' : W) : Prop :=
  wt_lease_sync w' = wt_lease_sync w ∧ wt_missing_tables w' = wt_missing_tables w ∧
  wt_kernel_poller w' = wt_kernel_poller w ∧ wt_snapshots w' = wt_snapshots w.

Lemma check_tables_spec (w : W) b : m_sets (watch_manager w) = Some b →
  ∃ missing w', check_tables w = (Ok missing, w') ∧ saw [] w w' ∧ same_rest w w' ∧
    match (missing_tables (watch_manager w)).1 with
    | Ok _ => missing = absent_tables (sb_view b)
    | Raise _ => missing = wt_missing_tables w
    end.
Proof.
  intros Hb. unfold check_tables, try_firewall. rewrite ask_manager_spec.
  pose proof (saw_ask missing_tables w read_missing) as Hs. pose proof (missing_spec _ b Hb) as Hm.
  destruct (missing_tables (watch_manager w)) as [[l|e] m']; cbn [fst snd] in *.
  - subst l. eexists _, _. split; [reflexivity|]. done.
  - destruct Hm as [msg ->]. eexists _, _. split; [reflexivity|]. done.
Qed.

Lemma note_tables_spec now missing (w : W) : ∃ w', note_tables now missing w = (Ok tt, w') ∧
  saw (table_events now (wt_missing_tables w) missing) w w' ∧ wt_missing_tables w' = missing ∧
  wt_lease_sync w' = wt_lease_sync w ∧ wt_kernel_poller w' = wt_kernel_poller w ∧ wt_snapshots w' = wt_snapshots w.
Proof.
  unfold note_tables, table_events, mbind, m_bind, mget. case_bool_decide as Hm.
  - exists w. split; [done|]. split; [|done]. split; [reflexivity|done].
  - unfold _report_table_change. rewrite emit_spec. eexists. split; [reflexivity|]. split; [|done]. split; [reflexivity|].
    split; [|done]. unfold emit_all. cbn [foldl]. done.
Qed.

Lemma publish_guards_spec now (w : W) b : m_sets (watch_manager w) = Some b →
  ∃ w', publish_guards now w = (Ok tt, w') ∧ saw [] w w' ∧ wt_missing_tables w' = wt_missing_tables w ∧
    wt_lease_sync w' = wt_lease_sync w ∧ wt_kernel_poller w' = wt_kernel_poller w ∧
    match sn_guard_modes (wt_snapshots w') with
    | Some gm => gm_read_at gm = now ∧ ∀ g, dget (gm_modes gm) g = kv_guard (sb_view b) g
    | None => is_Some (sn_guard_modes_error (wt_snapshots w'))
    end.
Proof.
  intros Hb. unfold publish_guards, try_firewall, mbind, m_bind. rewrite ask_manager_spec.
  pose proof (saw_ask guard_modes w read_guard_modes) as Hs. pose proof (guard_modes_spec _ b Hb) as Hg.
  destruct (guard_modes (watch_manager w)) as [[l|e] m']; cbn [fst snd] in *.
  - eexists. split; [reflexivity|]. split; [exact Hs|]. done.
  - destruct Hg as [msg ->]. eexists. split; [reflexivity|]. split; [exact Hs|]. cbn. repeat split. by eexists.
Qed.

Lemma poll_reader (p : KernelPoller FM) now : po_reader (poll exn_text now p).2 = (read_kernel (po_reader p)).2.
Proof.
  unfold poll. destruct (read_kernel (po_reader p)) as [[[rd|]|e] r']; [|done..]. cbn [snd].
  destruct (_track _ _ _ _) as [[ev|e] eps]; [|done]. destruct (started_map _ _ _); [|done].
  destruct (_deltas _ _). by destruct (_fill_alerts _ _ _).
Qed.

Lemma poll_manager_spec now p (w : W) : (∃ h, episodes_match (po_episodes p) h) →
  ∃ res w', poll_manager exn_text now p w = (Ok res, w') ∧ saw [] w w' ∧ poller_ok w' ∧
    wt_missing_tables w' = wt_missing_tables w ∧ wt_snapshots w' = wt_snapshots w.
Proof.
  intros [h Hh]. unfold poll_manager. destruct (poll_spec exn_text p (watch_manager w) now h Hh) as (res & p' & Hp & _ & Hm & _).
  rewrite Hp. eexists _, _. split; [reflexivity|]. split; [|split; [by eexists|done]].
  assert (Hr : po_reader p' = (read_kernel (watch_manager w)).2).
  { change p' with (Ok (A := KernelPollResult) res, p').2. rewrite <- Hp. apply poll_reader. }
  rewrite Hr. exact (saw_ask read_kernel w read_read_kernel).
Qed.

Lemma poll_kernel_spec now (w : W) : poller_ok w → ∃ w', _poll_kernel exn_text now w = (Ok tt, w') ∧ saw [] w w' ∧ poller_ok w' ∧
  wt_missing_tables w' = wt_missing_tables w ∧ sn_guard_modes (wt_snapshots w') = sn_guard_modes (wt_snapshots w) ∧
  sn_guard_modes_error (wt_snapshots w') = sn_guard_modes_error (wt_snapshots w).
Proof.
  intros Hok. assert (Hid : saw [] w w) by (split; [reflexivity|done]).
  unfold _poll_kernel, mbind, m_bind, mget. unfold poller_ok in Hok. destruct (wt_kernel_poller w) as [p|] eqn:Hp.
  2: { exists w. split; [done|]. split; [done|]. unfold poller_ok. by rewrite Hp. }
  destruct (cd_v2 (wt_daemon w)) as [v|] eqn:Hv.
  2: { exists w. split; [done|]. split; [done|]. unfold poller_ok. by rewrite Hp. }
  destruct (poll_manager_spec now p w Hok) as (res & w1 & -> & Hs & Hok1 & Hm1 & Hn1).
  unfold publish_view, mmodify, on_daemon, on_v2. cbn.
  destruct Hs as (Hr & Hf & Hv1). destruct (cd_v2 (wt_daemon w1)) as [v1|] eqn:Hw1; [|rewrite Hv in Hv1; by destruct (proj2 Hv1) as [? ?]].
  eexists. split; [reflexivity|]. split; [|by rewrite ?Hn1].
  split; [|split; [exact Hf|split; by eexists]].
  assert (Hmg : vp_manager (_put (KernelPollItem res (wt_bindings w) now) v1).2 = watch_manager w1).
  { unfold watch_manager, daemon_manager. rewrite Hw1. unfold _put, mmodify. cbn. by destruct (_ <? _). }
  unfold watch_manager at 2, daemon_manager. cbn. unfold _put, mmodify in Hmg. cbn in Hmg. rewrite Hmg. exact Hr.
Qed.

(** ** The claims *)

(** C14: The watch thread tells the truth about the kernel and never touches it.
    In any state with a set backend, a watch pass returns, changes neither
    the kernel nor the rules, the mode or the v1 backend; if the tables could
    be read, it ends knowing exactly the v2 tables that are missing,
    otherwise what it knew before; it emits exactly one event when that
    differs from what it knew (CRITICAL while a table is missing, INFO when
    all are back) and none when it does not; and the guard modes it publishes
    are the ones in the kernel, or an error. *)
Theorem watch_pass_is_truthful now reading (w : W) b : m_sets (watch_manager w) = Some b → poller_ok w →
  ∃ w' b', _refresh_v2_snapshots exn_text now reading w = (Ok tt, w') ∧ poller_ok w' ∧
    only_read (watch_manager w) (watch_manager w') ∧
    m_sets (watch_manager w') = Some b' ∧ view_eq (sb_view b') (sb_view b) ∧
    wt_missing_tables w' = match (missing_tables (watch_manager w)).1 with
                           | Ok _ => absent_tables (sb_view b)
                           | Raise _ => wt_missing_tables w
                           end ∧
    watch_forwarder w' = emit_all (if bool_decide (wt_missing_tables w' = wt_missing_tables w) then []
                                   else [table_event now (wt_missing_tables w')]) (watch_forwarder w) ∧
    match sn_guard_modes (wt_snapshots w') with
    | Some gm => gm_read_at gm = now ∧ ∀ g, dget (gm_modes gm) g = kv_guard (sb_view b) g
    | None => is_Some (sn_guard_modes_error (wt_snapshots w'))
    end.
Proof.
  intros Hb Hok. unfold _refresh_v2_snapshots, mbind, m_bind, mget. unfold publish_stats, mmodify.
  set (w0 := match _engine_stats now reading w with Some _ => _ | None => _ end).
  assert (Hw0 : watch_manager w0 = watch_manager w ∧ watch_forwarder w0 = watch_forwarder w ∧ wt_missing_tables w0 = wt_missing_tables w ∧
                cd_v2 (wt_daemon w0) = cd_v2 (wt_daemon w) ∧ poller_ok w0) by (unfold w0; by destruct (_engine_stats _ _ _)).
  clearbody w0. destruct Hw0 as (H1 & H2 & H3 & H4 & H5). rewrite H1, Hb.
  destruct (check_tables_spec w0 b) as (missing & w1 & -> & S1 & (L1 & M1 & P1 & N1) & Hmiss); [by rewrite H1|].
  destruct (note_tables_spec now missing w1) as (w2 & -> & S2 & M2 & L2 & P2 & N2).
  pose proof (saw_trans _ _ _ _ _ S1 S2) as S12. assert (Hr2 := S12). destruct Hr2 as ((_ & _ & _ & Hset) & _).
  destruct (Hset b) as (b2 & Hb2 & V2); [by rewrite H1|].
  destruct (publish_guards_spec now w2 b2 Hb2) as (w3 & -> & S3 & M3 & L3 & P3 & G3).
  destruct (poll_kernel_spec now w3) as (w4 & -> & S4 & P4 & M4 & G4 & E4).
  { unfold poller_ok. rewrite P3, P2, P1. exact H5. }
  destruct (saw_trans _ _ _ _ _ (saw_trans _ _ _ _ _ S12 S3) S4) as (Hread & Hfw & _).
  rewrite H1 in Hread, Hmiss. rewrite H2 in Hfw. rewrite H3 in Hmiss. rewrite M1, H3, !app_nil_r in Hfw. cbn [app] in Hfw.
  pose proof Hread as (_ & _ & _ & Hset4). destruct (Hset4 b Hb) as (b4 & Hb4 & V4).
  assert (Hm4 : wt_missing_tables w4 = missing) by congruence.
  exists w4, b4. split; [done|]. split; [done|]. split; [done|]. split; [done|]. split; [done|]. split.
  { rewrite Hm4. by destruct (missing_tables (watch_manager w)) as [[?|?] ?]. }
  split; [by rewrite Hfw, Hm4|]. rewrite G4, E4. destruct V2 as (_ & _ & Vg & _).
  destruct (sn_guard_modes (wt_snapshots w3)); [|done]. destruct G3 as [-> G3]. split; [done|]. intros g'. by rewrite G3, Vg.
Qed.

(** Stopping does what the failure mode says.  Under fail-open a stop leaves
    no rule ACTIVE, whatever rules this process knew of; it flushes the
    adaptive sets, including elements a previous run left, touches no guard
    and no other element, and emits one event: INFO when every enforcement
    set is empty, ERROR when the kernel refused the flush.  Otherwise it
    changes nothing and emits nothing. *)
Theorem stop_honours_the_failure_mode now (w : W) b : lc (watch_manager w) → m_sets (watch_manager w) = Some b →
  ∃ w' b', _revert_ruleset_if_failing_open now w = (Ok tt, w') ∧ m_sets (watch_manager w') = Some b' ∧
    if dm_fail_open (cd_config (wt_daemon w)) then
      active_rules (watch_manager w') = [] ∧ lc (watch_manager w') ∧ m_mode (watch_manager w') = m_mode (watch_manager w) ∧
      enforcement_only (sb_view b) (sb_view b') ∧ (∀ g, kv_guard (sb_view b') g = kv_guard (sb_view b) g) ∧
      ∃ ev, watch_forwarder w' = emit_all [ev] (watch_forwarder w) ∧
        (ev_severity ev = SEV_INFO ∧ enforcement_empty (sb_view b') ∨ ev_severity ev = SEV_ERROR)
    else w' = w.
Proof.
  intros Hlc Hb. unfold _revert_ruleset_if_failing_open, mbind, m_bind, mget.
  destruct (dm_fail_open (cd_config (wt_daemon w))); cbn [negb]; [|by exists w, b].
  destruct (fail_open_shutdown_spec (watch_manager w) b now Hlc Hb) as (ev & m' & b' & He & Hlc' & Hm & Ha & Hs & Ho & Hg & Hev).
  assert (Hwm : ∀ x, watch_manager (with_forwarder x (with_manager m' w)) = m')
    by (intros x; exact (give_manager_id (wt_daemon w) m')).
  assert (Hrun : match ask_manager (fail_open_shutdown now) w with
                 | (Ok a, s') => on_daemon (emit_event a) s' | (Raise e, s') => (Raise e, s') end =
                 (Ok tt, with_forwarder (emit ev (watch_forwarder (with_manager m' w))).2 (with_manager m' w)))
    by (rewrite ask_manager_spec, He; cbn [fst snd]; by rewrite emit_spec).
  exists (with_forwarder (emit ev (watch_forwarder (with_manager m' w))).2 (with_manager m' w)), b'. rewrite !Hwm.
  split; [destruct (active_rules (watch_manager w)); rewrite ?Hb; exact Hrun|]. split_and!; try done. exists ev. split; [|done].
  unfold emit_all. cbn [foldl].
  change (watch_forwarder (with_manager m' w)) with (fp_forwarder (cd_pipeline (give_manager m' (wt_daemon w)))).
  by rewrite give_manager_forwarder.
Qed.
End Props.
