(* ===== verification/Panel.v ===== *)
(** * The pages of the control panel (web/render.py, web/v2_panel.py)

    The pages the web routes of [ControlApi] answer with, whole but for the
    style sheet and the three scripts, which are constants passed in.  Text
    reaches a page only through [_e]; a backquote in a template stands for a
    double quote, and the line breaks and indentation between elements are left
    out.  Ids are cut to eight characters; they are ASCII. *)

From S2P Require Import Prelude KernelPoller Float Net Models RateLimiter Sets SetBackend Backend Validator Manager Lifecycle Bindings Throttle PortalSessions PortalStore PortalService Flow Fallback Thresholds Threat Policy Inference Runtime Json Rpc RpcProps RpcClient Watch ControlApi PortalWeb.
Local Open Scope Z_scope.

(** ** Values as text *)

Definition status_value (s : RuleStatus) : string :=
  match s with
  | CANDIDATE => "candidate" | VALIDATING => "validating" | REJECTED => "rejected" | SHADOWED => "shadowed" | PENDING_APPROVAL => "pending_approval"
  | APPROVED => "approved" | DEPLOYED => "deployed" | ACTIVE => "active" | EXPIRED => "expired" | DISABLED => "disabled" | REMOVED => "removed"
  end.
Definition severity_value (s : EventSeverity) : string :=
  match s with SEV_INFO => "info" | SEV_WARNING => "warning" | SEV_ERROR => "error" | SEV_CRITICAL => "critical" end.
Definition level_value (l : ThreatLevel) : string :=
  match l with LOW => "low" | MEDIUM => "medium" | HIGH => "high" | CRITICAL => "critical" end.
Definition event_type_value (t : SecurityEventType) : string :=
  match t with
  | THREAT_DETECTED => "threat_detected" | FIREWALL_BLOCK => "firewall_block" | FIREWALL_ALLOW => "firewall_allow" | RULE_CREATED => "rule_created"
  | RULE_DEPLOYED => "rule_deployed" | RULE_REJECTED => "rule_rejected" | RULE_EXPIRED => "rule_expired" | MODEL_ERROR => "model_error"
  | CAPTURE_ERROR => "capture_error" | FLOW_ERROR => "flow_error" | FIREWALL_ERROR => "firewall_error"
  | AUTHENTICATION_FAILURE => "authentication_failure" | SYSTEM_WARNING => "system_warning" | POLICY_DECISION => "policy_decision"
  end.
Definition failure_mode_value (m : FailureMode) : string := match m with FAIL_OPEN => "fail_open" | FAIL_CLOSED => "fail_closed" end.
Definition source_value (s : BindingSource) : string := match s with LEASE => "lease" | STATIC => "static" end.
Definition str_bool (b : bool) : string := if b then "True" else "False".
(** [str] of a datetime, and of one that may be [None] *)
Definition str_time (t : Z) : string := string_of_list ((λ c, if decide (c = "T"%char) then " "%char else c) <$> string_to_list (isoformat t)).
Definition str_optional_time (t : option Z) : string := match t with Some t => str_time t | None => "None" end.
(** [s[:8]] *)
Definition first8 (s : string) : string := string_of_list (take 8 (string_to_list s)).
(** [urllib.parse.quote(s, safe='')] *)
Definition unreserved (c : ascii) : bool :=
  let n := Z.of_nat (nat_of_ascii c) in
  ((65 <=? n) && (n <=? 90)) || ((97 <=? n) && (n <=? 122)) || ((48 <=? n) && (n <=? 57)) || inb c ["_"%char; "."%char; "-"%char; "~"%char].
Definition upper_hex (n : Z) : ascii := ascii_of_nat (Z.to_nat (if n <? 10 then 48 + n else 55 + n)).
Definition quote_char (c : ascii) : list ascii :=
  let n := Z.of_nat (nat_of_ascii c) in if unreserved c then [c] else ["%"%char; upper_hex (n / 16); upper_hex (n mod 16)].
Definition quote (s : string) : string := string_of_list (string_to_list s ≫= quote_char).
(** [rows or default] and ["".join(rows)] *)
Definition or_text (s d : string) : string := if String.eqb s "" then d else s.
Definition join (l : list string) : string := String.concat "" l.

Section Pages.
Context (_STYLE _SCRIPT _LOGIN_SCRIPT V2_SCRIPT : string).
(** Two fields of a model's metadata *)
Context (model_kind : ModelMetadata → string) (is_placeholder : ModelMetadata → bool).

Definition LOGO_URL : string := "/control-panel/logo.png".
Definition panel_page (title body : string) : string :=
  let head := tpl "<meta charset=`utf-8`><title>" +:+ _e title +:+ "</title>" +:+ _STYLE in
  "<!doctype html><html><head>" +:+ head +:+ "</head><body>" +:+ body +:+ _SCRIPT +:+ "</body></html>".
Definition panel_login_page : string :=
  panel_page "pirewall — sign in"
    (tpl "<div class=`login-wrap`><div class=`login-card`><img class=`logo` src=`" +:+ LOGO_URL +:+ tpl "` alt=`pirewall`>" +:+
     tpl "<p class=`error` id=`login-error`></p><form onsubmit=`pirewallLogin(event)`>" +:+
     tpl "<label>Username <input name=`username` required autofocus autocomplete=`username`></label>" +:+
     tpl "<label>Password <input name=`password` type=`password` required autocomplete=`current-password`></label>" +:+
     tpl "<button type=`submit`>Log in</button></form>" +:+
     tpl "<p class=`login-foot`>Control panel access is restricted to the Admin PC.</p></div></div>" +:+ _LOGIN_SCRIPT).
Definition render_core_unavailable_page (detail : string) : string :=
  panel_page "pirewall — core unreachable"
    (tpl "<div class=`page-header`><h1>pirewall control panel</h1></div><h2 class=`error`>pirewall-core is unreachable</h2>" +:+
     tpl "<p class=`error`>" +:+ _e detail +:+ "</p>" +:+
     "<p>The control panel process is running, but it cannot reach <code>pirewall-core</code> over its local socket. While core is down " +:+
     "<strong>no adaptive rule is being evaluated</strong>: enforcement is whatever the static base ruleset from <code>deploy/firewall/</code> " +:+
     tpl "already installed. With the default <code>failure.mode = `fail_open`</code> that means traffic continues to flow unfiltered.</p>" +:+
     "<p>Check <code>systemctl status pirewall-core</code> on the Pi. A unit left in <code>failed</code> state means the crash-loop limit tripped " +:+
     "(ADDENDUM.md A6); see <code>docs/DEPLOYMENT.md</code>.</p>").

(** ** Sections *)

Definition _status_badge (status : RuleStatus) : string :=
  let css_class := match status with ACTIVE => "badge-active" | SHADOWED => "badge-shadow" | PENDING_APPROVAL => "badge-pending" | _ => "badge-rejected" end in
  tpl "<span class=`badge " +:+ css_class +:+ tpl "`>" +:+ _e (status_value status) +:+ "</span>".
Definition _severity_badge (value : string) : string :=
  tpl "<span class=`badge badge-severity-" +:+ _e value +:+ tpl "`>" +:+ _e value +:+ "</span>".
Definition row (name : string) (value : string) : string := "<tr><th>" +:+ name +:+ "</th><td>" +:+ value +:+ "</td></tr>".
Definition _render_system_section (s : StatusResult) : string :=
  "<table>" +:+ row "pirewall-core status" ("reachable, uptime " +:+ fmt_0f (sx_uptime_seconds s) +:+ "s") +:+
  row "Enforcement mode" (_e (enforcement_mode_value (sx_enforcement_mode s))) +:+
  row "Failure mode" (_e (failure_mode_value (sx_failure_mode s))) +:+
  row "Active rules" (str_Z (sx_active_rule_count s)) +:+
  row "Pending approvals" (str_Z (sx_pending_approval_count s)) +:+
  row "Tracked flows (recent)" (str_Z (sx_tracked_flow_count s)) +:+
  row "LightGBM loaded" (str_bool (sx_lightgbm_loaded s)) +:+
  row "Isolation Forest loaded" (str_bool (sx_isolation_forest_loaded s)) +:+
  tpl "</table><button class=`kill-switch` onclick=`confirmKillSwitch()`>Emergency kill-switch</button>".

(** A table of a header and rows, or of a note across its columns *)
Definition rows_table (header : string) (rows : list string) (columns : Z) (note : string) : string :=
  "<table>" +:+ header +:+ or_text (join rows) (tpl "<tr><td colspan=`" +:+ str_Z columns +:+ tpl "`>" +:+ note +:+ "</td></tr>") +:+ "</table>".
Definition headers (names : list string) : string := "<tr>" +:+ join ((λ n, "<th>" +:+ n +:+ "</th>") <$> names) +:+ "</tr>".
Definition cell (value : string) : string := "<td>" +:+ value +:+ "</td>".

Definition threat_row (t : ThreatAssessment) : string :=
  "<tr>" +:+ cell (_e (str_time (ta_assessed_at t))) +:+ cell (_e (IPv4.to_string (ta_source_ip t))) +:+
  cell (_severity_badge (level_value (ta_threat_level t))) +:+ cell (fixed 1 (ta_threat_score t)) +:+ cell (_e (ta_explanation t)) +:+ "</tr>".
Definition _render_threats_section (threats : list ThreatAssessment) : string :=
  rows_table (headers ["Time"; "Source"; "Level"; "Score"; "Explanation"]) (threat_row <$> threats) 5 "No recent threat assessments.".

Definition _render_network_section (stats : option CaptureStatistics) : string :=
  "<table>" +:+ headers ["Interface"; "Packets seen"; "Packets dropped"; "Packets malformed"] +:+
  match stats with
  | None => tpl "<tr><td colspan=`4`>No capture statistics reported yet.</td></tr>"
  | Some c => "<tr>" +:+ cell (_e (cp_interface c)) +:+ cell (str_Z (cp_packets_seen c)) +:+ cell (str_Z (cp_packets_dropped c)) +:+
              cell (str_Z (cp_packets_malformed c)) +:+ "</tr>"
  end +:+ "</table>".

Definition _detection_evidence_summary (r : DetectionRecord) : string :=
  or_text (String.concat ", " (
    match dr_known_evidence r with Some e => ["known: " +:+ _e (ka_predicted_class e)] | None => [] end ++
    match dr_anomaly_evidence r with Some e => ["anomaly: " +:+ fmt_2f (ae_anomaly_score e)] | None => [] end ++
    match dr_protocol_signature_evidence r with Some e => ["protocol: " +:+ _e (ps_signature e)] | None => [] end)) "&mdash;".
Definition _BENIGN_CLASS : string := "BENIGN".
Definition _detection_flag_badge (r : DetectionRecord) : string :=
  let known := match dr_known_evidence r with Some e => negb (bool_decide (ka_predicted_class e = _BENIGN_CLASS)) | None => false end in
  let anomaly := match dr_anomaly_evidence r with Some e => ae_is_anomaly e | None => false end in
  if known && anomaly then _severity_badge "critical" else if known || anomaly then _severity_badge "warning" else _severity_badge "info".
Definition detection_row (d : DetectionRecord) : string :=
  "<tr>" +:+ cell (_e (str_time (dr_recorded_at d))) +:+ cell (_e (first8 (dr_flow_id d))) +:+ cell (_detection_flag_badge d) +:+
  cell (_detection_evidence_summary d) +:+ "</tr>".
Definition _render_detections_section (detections : list DetectionRecord) : string :=
  rows_table (headers ["Time"; "Flow"; "Flag"; "Evidence"]) (detection_row <$> detections) 4 "No detections recorded yet.".

Definition _action_button (label method url : string) : string :=
  tpl "<button data-method=`" +:+ _e method +:+ tpl "` data-action=`" +:+ _e url +:+ tpl "`>" +:+ _e label +:+ "</button>".
Definition _rule_actions (r : FirewallRule) : string :=
  let base := "/api/v1/rules/" +:+ quote (fr_id r) in
  match fr_status r with
  | PENDING_APPROVAL => _action_button "Approve" "POST" (base +:+ "/approve") +:+ " " +:+ _action_button "Reject" "POST" (base +:+ "/reject")
  | ACTIVE => _action_button "Disable" "POST" (base +:+ "/disable") +:+ " " +:+ _action_button "Remove" "POST" (base +:+ "/remove")
  | _ => ""
  end.
Definition route_cell (f : RuleFields) : string :=
  cell (_e (network_str (rf_source f)) +:+ " -&gt; " +:+ _e (network_str (rf_destination f))).
Definition rule_row (r : FirewallRule) : string :=
  "<tr>" +:+ cell (_e (first8 (fr_id r))) +:+ cell (_e (action_value (rf_action (fr_fields r)))) +:+ route_cell (fr_fields r) +:+
  cell (_status_badge (fr_status r)) +:+ cell (_e (str_optional_time (fr_expires_at r))) +:+ cell (_e (rf_reason (fr_fields r))) +:+
  cell (_rule_actions r) +:+ "</tr>".
Definition _render_firewall_section (rules : list FirewallRule) : string :=
  rows_table (headers ["ID"; "Action"; "Source -&gt; Destination"; "Status"; "Expires"; "Reason"; "Actions"]) (rule_row <$> rules) 7 "No rules yet.".
Definition shadow_row (r : FirewallRule) : string :=
  "<tr>" +:+ cell (_e (str_time (fr_created_at r))) +:+ cell (_e (action_value (rf_action (fr_fields r)))) +:+ route_cell (fr_fields r) +:+
  cell (_e (rf_reason (fr_fields r))) +:+ "</tr>".
Definition _render_shadow_log_section (rules : list FirewallRule) : string :=
  rows_table (headers ["Time"; "Would-be action"; "Source -&gt; Destination"; "Reason"])
    (shadow_row <$> filter (λ r, fr_status r = SHADOWED) rules) 4 "Nothing shadowed yet.".

Definition _allowlist_row (e : AllowlistEntry) : string :=
  let port := match al_port e with Some p => _e (str_Z p) | None => "&mdash;" end in
  let protocol := match al_protocol e with Some p => _e (protocol_text p) | None => "&mdash;" end in
  "<tr>" +:+ cell (_e (network_str (al_target e))) +:+ cell port +:+ cell protocol +:+ cell (_e (al_reason e)) +:+ cell (_e (al_created_by e)) +:+
  cell (_action_button "Remove" "DELETE" ("/api/v1/allowlist/" +:+ quote (al_id e))) +:+ "</tr>".
Definition _render_allowlist_section (allowlist : list AllowlistEntry) : string :=
  rows_table (headers ["Target"; "Port"; "Protocol"; "Reason"; "Added by"; ""]) (_allowlist_row <$> allowlist) 6 "Allowlist is empty." +:+
  tpl "<form onsubmit=`addAllowlistEntry(event)`><input name=`target` placeholder=`192.168.1.50/32` required>" +:+
  tpl "<input name=`port` placeholder=`port (optional)`><input name=`protocol` placeholder=`tcp/udp/icmp (optional)`>" +:+
  tpl "<input name=`reason` placeholder=`reason` required><input name=`portal_username` placeholder=`portal username (optional)`>" +:+
  tpl "<input name=`password` type=`password` placeholder=`admin password` autocomplete=`current-password` required>" +:+
  tpl "<button type=`submit`>Add</button></form>" +:+
  tpl "<p class=`hint`>An entry names one device (a /32) and outranks every adaptive rule, so adding one asks for the admin password again.</p>" +:+
  tpl "<p class=`hint`>Filling in a portal username also creates a captive-portal account for this entry and shows its generated password once. " +:+
  "Leave it empty for devices that cannot sign in — a gateway, a printer, a server.</p>".

Definition _portal_user_row (u : PortalUser) : string :=
  let demo := if pu_is_demo u then tpl "<span class=`badge badge-pending`>DEMO</span>" else "&mdash;" in
  let username := quote (pu_username u) in
  "<tr>" +:+ cell (_e (pu_username u)) +:+ cell (_e (str_time (pu_created_at u))) +:+ cell (_e (pu_created_by u)) +:+ cell demo +:+ cell (_e (pu_note u)) +:+
  cell (_action_button "Reset password" "POST" ("/api/v1/portal/users/" +:+ username +:+ "/password") +:+ " " +:+
        _action_button "Delete" "DELETE" ("/api/v1/portal/users/" +:+ username)) +:+ "</tr>".
Definition _render_portal_users_section (users : list PortalUser) : string :=
  (if existsb pu_is_demo users
   then tpl "<p class=`hint error`><strong>Demo accounts are active.</strong> " +:+
        "Their passwords are public. Delete them (portal_users remove-demo) before this network carries real traffic; " +:+
        "pirewall-core will not start in ASSISTED or ACTIVE while they exist.</p>"
   else "") +:+
  rows_table (headers ["Username"; "Created"; "Created by"; "Demo"; "Note"; ""]) (_portal_user_row <$> users) 6 "No portal accounts yet." +:+
  tpl "<form onsubmit=`addPortalUser(event)`><input name=`username` placeholder=`username` required>" +:+
  tpl "<input name=`password` type=`password` placeholder=`password (blank = generate one)`><input name=`note` placeholder=`note (optional)`>" +:+
  tpl "<button type=`submit`>Create account</button></form>".
Definition _portal_session_row (s : PortalSession) : string :=
  let disconnect := _action_button "Disconnect" "POST" ("/api/v1/portal/sessions/" +:+ quote (IPv4.to_string (se_client_ip s)) +:+ "/logout") in
  "<tr>" +:+ cell (_e (se_username s)) +:+ cell (_e (IPv4.to_string (se_client_ip s))) +:+ cell (_e (str_time (se_issued_at s))) +:+
  cell (_e (str_time (se_expires_at s))) +:+ cell disconnect +:+ "</tr>".
Definition _render_portal_sessions_section (sessions : list PortalSession) : string :=
  rows_table (headers ["User"; "Device"; "Signed in"; "Expires"; ""]) (_portal_session_row <$> sessions) 5 "No clients are signed in." +:+
  tpl "<p class=`hint`>Sessions expire in the kernel: each signed-in device is an nftables set element carrying its own timeout, so sign-out needs no " +:+
  "timer here. Disconnecting removes that element immediately.</p>".

Definition _event_row (e : SecurityEvent) : string :=
  "<tr>" +:+ cell (_e (str_time (ev_timestamp e))) +:+ cell (_severity_badge (severity_value (ev_severity e))) +:+
  cell (_e (event_type_value (ev_type e))) +:+ cell (_e (ev_subsystem e)) +:+ cell (_e (default "" (ev_reason e))) +:+ "</tr>".
Definition _render_events_section (events : list SecurityEvent) : string :=
  rows_table (headers ["Time"; "Severity"; "Type"; "Subsystem"; "Reason"]) (_event_row <$> events) 5 "No events recorded yet.".
Definition model_row (m : ModelMetadata) : string :=
  "<tr>" +:+ cell (_e (model_kind m)) +:+ cell (_e (mm_model_version m)) +:+ cell (_e (mm_feature_schema_version m)) +:+ cell (str_bool (is_placeholder m)) +:+ "</tr>".
Definition _render_ml_section (models : list ModelMetadata) : string :=
  rows_table (headers ["Model"; "Version"; "Feature schema"; "Placeholder?"]) (model_row <$> models) 4 "No models loaded.".

(** ** Kernel guards and identity (web/v2_panel.py) *)

Definition _GUARD_HELP (g : GuardName) : string :=
  match g with
  | RAW => "anti-spoof and per-MAC flood meters at LAN ingress (enforces only once bindings are seeded)"
  | INPUT => "traffic to the Pi itself: DNS, portal concurrency, closed-port scans"
  | FORWARD => "traffic through the Pi to the Internet (stays observe until the G5 benign check)"
  end.
Definition other_mode (m : GuardMode) : GuardMode := match m with ENFORCE => OBSERVE | OBSERVE => ENFORCE end.
Definition _guard_row (g : GuardName) (mode : GuardMode) : string :=
  let other := other_mode mode in
  let badge := match mode with ENFORCE => "badge-active" | OBSERVE => "badge-shadow" end in
  let password := match other with
    | ENFORCE => tpl "<input id=`guard-password-" +:+ _e (guard_value g) +:+ tpl "` type=`password` placeholder=`admin password` autocomplete=`current-password`> "
    | OBSERVE => ""
    end in
  let button := tpl "<button type=`button` data-guard=`" +:+ _e (guard_value g) +:+ tpl "` data-mode=`" +:+ _e (guard_mode_value other) +:+
    tpl "`>Switch to " +:+ _e (guard_mode_value other) +:+ "</button>" in
  "<tr>" +:+ cell (_e (guard_value g)) +:+ cell (tpl "<span class=`badge " +:+ badge +:+ tpl "`>" +:+ _e (guard_mode_value mode) +:+ "</span>") +:+
  cell (_e (_GUARD_HELP g)) +:+ cell (password +:+ button) +:+ "</tr>".
Definition _guards_table (s : V2PanelState) : string :=
  match vp_guards s with
  | None => tpl "<p class=`error`>Guard modes unavailable: " +:+ _e (or_text (default "" (vp_guards_error s)) "guard modes unavailable") +:+ "</p>"
  | Some g =>
      "<table>" +:+ headers ["Guard"; "Mode"; "Covers"; ""] +:+ join (omap (λ n, _guard_row n <$> dget (gm_modes g) n) [RAW; INPUT; FORWARD]) +:+ "</table>" +:+
      tpl "<p class=`hint`>Read back from the kernel at " +:+ _e (str_time (gm_read_at g)) +:+
      ". Observe still counts and records offenders but drops nothing. Switching to enforce asks for the admin password again; " +:+
      "every flip is an audit event. The kill switch sets every guard to observe.</p>"
  end.
Definition code_name (code : Z) : string := match code_of_int code with Some c => offender_name c | None => "" end.
Definition offender_row (o : OffenderEntry) : string :=
  "<tr>" +:+ cell (_e (str_time (oe_last_seen o))) +:+ cell (_e (oe_mac o)) +:+ cell (_e (code_name (oe_code o))) +:+ cell (_e (guard_value (oe_guard o))) +:+
  cell (_e (guard_mode_value (oe_guard_mode o))) +:+ cell (str_Z (oe_sustained_polls o)) +:+ "</tr>".
Definition _offenders_table (offenders : list OffenderEntry) : string :=
  rows_table (headers ["Last seen"; "MAC"; "Code"; "Guard"; "Guard mode"; "Polls"]) (offender_row <$> offenders) 6
    "No offenders published. The kernel offender poller arrives with the v2 policy engine (phase 17); until then this list stays empty.".
Definition binding_row (b : Binding) : string :=
  "<tr>" +:+ cell (_e (IPv4.to_string (b_ip b))) +:+ cell (_e (b_mac b)) +:+ cell (_e (source_value (b_source b))) +:+
  cell (match b_expires_at b with Some t => _e (str_time t) | None => "&mdash;" end) +:+ "</tr>".
Definition by_ip (a b : Binding) : bool := b_ip a <=? b_ip b.
Definition _bindings_table (bindings : list Binding) : string :=
  rows_table (headers ["IP"; "MAC"; "Source"; "Lease expires"]) (binding_row <$> py_sorted by_ip bindings) 4
    "No bindings. Portal sign-in and anti-spoof need them.".
Definition _engine_table (engine : option EngineStats) : string :=
  match engine with
  | None => "<p>No engine counters published yet.</p>"
  | Some e =>
      let cells := [("Backend", es_backend e); ("Packet ring available", str_bool (es_has_packet_ring e)); ("Frames seen", str_Z (es_frames_seen e));
        ("Kernel drops", str_Z (es_kernel_drops e)); ("Flows shed", str_Z (es_flows_shed e)); ("New-flow signals shed", str_Z (es_new_flow_signals_shed e));
        ("Native panics caught", str_Z (es_panics_caught e)); ("Read at", str_time (es_read_at e))] in
      "<table>" +:+ join ((λ c, row (_e c.1) (_e c.2)) <$> cells) +:+ "</table>"
  end.
Definition error_line (message : string) : string := tpl "<p class=`error`>" +:+ _e message +:+ "</p>".
Definition render_v2_section (s : V2PanelState) : string :=
  join (error_line <$> vp_errors s) +:+ "<h3>Static guards (ADDENDUM_4.md D2)</h3>" +:+ _guards_table s +:+
  tpl "<p><button type=`button` class=`kill-switch` data-panic=`1`>Panic: remove pirewall's v2 tables</button></p>" +:+
  tpl "<p class=`hint`>Panic deletes inet pirewall_adaptive, inet pirewall_static and arp pirewall_static_arp, and nothing else; the base ruleset and the " +:+
  "portal gate stay. It asks you to type <code>panic</code>. Restore by re-running <code>sudo scripts/deployment/pirewall-start</code> on the Pi.</p>" +:+
  "<h3>Kernel offenders</h3>" +:+ _offenders_table (vp_offenders s) +:+
  "<h3>IP&harr;MAC bindings (ADDENDUM_4.md D3)</h3>" +:+ _bindings_table (vp_bindings s) +:+
  "<h3>Capture engine</h3>" +:+ _engine_table (vp_engine s) +:+ V2_SCRIPT.

(** ** The page around them *)

Definition _panel (section_id title html_block : string) (loggy : bool) (importance : string) : string :=
  let controls :=
    tpl "<button type=`button` data-toggle=`" +:+ _e section_id +:+ tpl "`>&#x25be; Collapse</button>" +:+
    tpl "<button type=`button` data-export=`" +:+ _e section_id +:+ tpl "`>Export CSV</button>" +:+
    (if loggy then tpl "<button type=`button` data-clear=`" +:+ _e section_id +:+ tpl "`>Clear view</button>" else "") in
  let panel_class := "panel" +:+ (if String.eqb importance "normal" then "" else " panel-" +:+ importance) in
  tpl "<div class=`" +:+ _e panel_class +:+ tpl "` data-panel=`" +:+ _e section_id +:+ tpl "`>" +:+
  tpl "<div class=`panel-toolbar`><h2>" +:+ _e title +:+ tpl "</h2><div class=`panel-controls`>" +:+ controls +:+ "</div></div>" +:+
  tpl "<div class=`panel-body` id=`panel-body-" +:+ _e section_id +:+ tpl "`>" +:+ html_block +:+ "</div></div>".

Context (_HELP_SECTIONS _HELP_SCENARIOS : list (string * string)).     (** the texts of the help dialog *)
Definition _help_button : string :=
  tpl "<button type=`button` class=`help-btn` onclick=`document.getElementById('help-dialog').showModal()`>ⓘ Help</button>".
Definition help_row (x : string * string) : string := "<tr>" +:+ cell (_e x.1) +:+ cell (_e x.2) +:+ "</tr>".
Definition _help_dialog : string :=
  tpl "<dialog id=`help-dialog`><button type=`button` class=`dialog-close` onclick=`document.getElementById('help-dialog').close()`>Close</button>" +:+
  "<h2>Dashboard help</h2><h3>What each section shows</h3><table>" +:+ headers ["Section"; "What it shows"] +:+ join (help_row <$> _HELP_SECTIONS) +:+
  "</table><h3>Common scenarios</h3><table>" +:+ headers ["If you want to&hellip;"; "Do this"] +:+ join (help_row <$> _HELP_SCENARIOS) +:+ "</table></dialog>".

Definition _portal_panels (users : option (list PortalUser)) (sessions : option (list PortalSession)) : string :=
  match users, sessions with
  | None, None => ""
  | _, _ =>
      _panel "portal-sessions" "Portal — signed-in devices (ADDENDUM_3.md C1)" (_render_portal_sessions_section (default [] sessions)) false "normal" +:+
      _panel "portal-users" "Portal — LAN user accounts (ADDENDUM_3.md C3)" (_render_portal_users_section (default [] users)) false "normal"
  end.

Record PanelPage : Type := mk_panel_page { pp_slug : string; pp_label : string; pp_group : string }.
Definition PANEL_PAGES : list PanelPage :=
  [mk_panel_page "" "Overview" "Status"; mk_panel_page "activity" "Activity" "Status"; mk_panel_page "firewall" "Firewall" "Enforcement";
   mk_panel_page "allowlist" "Allowlist" "Enforcement"; mk_panel_page "portal" "Portal" "Enforcement"; mk_panel_page "events" "Events" "Diagnostics";
   mk_panel_page "ml" "Models" "Diagnostics"].
Definition nav_link (active_slug : string) (counts : list (string * Z)) (p : PanelPage) : string :=
  let count := default 0 (dget counts (pp_slug p)) in
  let badge := if count =? 0 then "" else tpl "<span class=`nav-count`>" +:+ str_Z count +:+ "</span>" in
  let current := if String.eqb (pp_slug p) active_slug then tpl " aria-current=`page`" else "" in
  let href := "/control-panel" +:+ (if String.eqb (pp_slug p) "" then "" else "/" +:+ pp_slug p) in
  tpl "<a class=`nav-link` href=`" +:+ href +:+ tpl "`" +:+ current +:+ ">" +:+ _e (pp_label p) +:+ badge +:+ "</a>".
Fixpoint nav_links (active_slug : string) (counts : list (string * Z)) (seen_group : string) (pages : list PanelPage) : string :=
  match pages with
  | [] => ""
  | p :: pages =>
      (if String.eqb (pp_group p) seen_group then "" else tpl "<div class=`nav-section`>" +:+ _e (pp_group p) +:+ "</div>") +:+
      nav_link active_slug counts p +:+ nav_links active_slug counts (pp_group p) pages
  end.
Definition _nav (active_slug : string) (counts : list (string * Z)) : string :=
  tpl "<nav class=`sidebar`><a class=`brand` href=`/control-panel`><img src=`" +:+ LOGO_URL +:+ tpl "` alt=`pirewall`></a>" +:+
  nav_links active_slug counts "" PANEL_PAGES +:+ "</nav>".
Definition _shell (title active_slug : string) (counts : list (string * Z)) (body : string) : string :=
  panel_page title (tpl "<div class=`shell`>" +:+ _nav active_slug counts +:+ tpl "<main class=`content`>" +:+ body +:+ "</main></div>").

Definition zlen {A} (l : list A) : Z := Z.of_nat (length l).
Definition slug_of (page : string) : string := if inb page (pp_slug <$> PANEL_PAGES) then page else "".
Definition page_counts (d : page_data) : list (string * Z) :=
  let sessions := default [] (snd <$> pg_portal d) in
  [("activity", zlen (pg_threats d) + zlen (pg_detections d)); ("firewall", zlen (filter (λ r, fr_status r ≠ REMOVED) (pg_rules d)));
   ("allowlist", zlen (pg_allowlist d)); ("portal", zlen sessions); ("events", zlen (pg_events d)); ("ml", zlen (pg_models d))].
(** [portal_users or []] and [portal_sessions or []] come first *)
Definition page_sections (d : page_data) (slug : string) : string :=
  let users := default [] (fst <$> pg_portal d) in
  let sessions := default [] (snd <$> pg_portal d) in
  if String.eqb slug "" then
    _panel "system" "System" (_render_system_section (pg_status d)) false "priority" +:+
    _panel "v2" "Kernel guards & identity (ADDENDUM_4.md)" (render_v2_section (pg_v2 d)) false "priority" +:+
    _panel "network" "Network" (_render_network_section (pg_capture_stats d)) false "normal"
  else if String.eqb slug "activity" then
    _panel "threats" "Threats" (_render_threats_section (pg_threats d)) true "priority" +:+
    _panel "detections" "Detections" (_render_detections_section (pg_detections d)) true "normal"
  else if String.eqb slug "firewall" then
    _panel "firewall" "Firewall — active & adaptive rules" (_render_firewall_section (pg_rules d)) false "normal" +:+
    _panel "shadow-log" "Shadow log (ADDENDUM.md A1) — what would have happened" (_render_shadow_log_section (pg_rules d)) true "quiet"
  else if String.eqb slug "allowlist" then
    _panel "allowlist" "Allowlist (ADDENDUM.md A2) — never adaptively blocked" (_render_allowlist_section (pg_allowlist d)) false "normal"
  else if String.eqb slug "portal" then _portal_panels (Some users) (Some sessions)
  else if String.eqb slug "events" then _panel "events" "Events" (_render_events_section (pg_events d)) true "priority"
  else _panel "ml" "ML" (_render_ml_section (pg_models d)) false "quiet".
Definition label_of (slug : string) : string := match list_find (λ p, pp_slug p = slug) PANEL_PAGES with Some (_, p) => pp_label p | None => "" end.
Definition render_dashboard (d : page_data) : string :=
  let slug := slug_of (pg_page d) in
  let label := label_of slug in
  let body := tpl "<div class=`page-header`><h1>" +:+ _e label +:+ "</h1>" +:+ _help_button +:+ "</div>" +:+ page_sections d slug +:+ _help_dialog in
  _shell ("pirewall — " +:+ label) slug (page_counts d) body.
End Pages.

(** ** No text becomes markup *)

(** The page with every text in it blanked: what the operator, the network,
    the models and the users wrote *)
Definition blank_fields (f : RuleFields) : RuleFields :=
  mk_rule_fields (rf_action f) (rf_direction f) (rf_source f) (rf_destination f) (rf_protocol f) (rf_source_port f) (rf_destination_port f) ""
    (rf_threat_score f) (rf_evidence f) (rf_metadata f) (rf_target f).
Definition blank_rule (r : FirewallRule) : FirewallRule :=
  mk_rule (blank_fields (fr_fields r)) "" (fr_priority r) (fr_status r) (fr_created_at r) (fr_expires_at r) (fr_deployed_at r).
Definition blank_threat (t : ThreatAssessment) : ThreatAssessment :=
  mk_assessment (ta_id t) (ta_flow_id t) (ta_source_ip t) (ta_destination_ip t) (ta_threat_score t) (ta_threat_level t) (ta_confidence t) (ta_enforceable_level t)
    (ta_known_evidence t) (ta_anomaly_evidence t) (ta_behavior_assessment t) (ta_protocol_signature_evidence t) "" (ta_contributing_evidence t) (ta_assessed_at t).
Definition blank_known (e : KnownEvidence) : KnownEvidence :=
  mk_known (ka_flow_id e) "" (ka_confidence e) (ka_class_probabilities e) (ka_operating_threshold e) (ka_model_version e) (ka_feature_schema_version e) (ka_generated_at e).
Definition blank_signature (e : ProtocolSignatureEvidence) : ProtocolSignatureEvidence :=
  mk_signature (ps_flow_id e) "" (ps_confidence e) (ps_detail e) (ps_generated_at e).
Definition blank_detection (d : DetectionRecord) : DetectionRecord :=
  mk_detection_record "" (blank_known <$> dr_known_evidence d) (dr_anomaly_evidence d) (blank_signature <$> dr_protocol_signature_evidence d) (dr_recorded_at d).
Definition blank_entry (e : AllowlistEntry) : AllowlistEntry :=
  mk_allow "" (al_target e) (al_port e) (al_protocol e) "" (al_created_at e) "" (al_mac e).
Definition blank_user (u : PortalUser) : PortalUser := mk_user "" (pu_password_hash u) (pu_created_at u) "" "" (pu_is_demo u).
Definition blank_session (s : PortalSession) : PortalSession :=
  mk_session (se_token s) "" (se_client_ip s) (se_issued_at s) (se_expires_at s) (se_client_mac s).
Definition blank_event (e : SecurityEvent) : SecurityEvent :=
  mk_event (ev_timestamp e) (ev_severity e) (ev_type e) "" (ev_threat_score e) (ev_decision e) (ev_rule_id e) None.
Definition blank_capture (c : CaptureStatistics) : CaptureStatistics :=
  mk_capture_stats "" (cp_packets_seen c) (cp_packets_dropped c) (cp_packets_malformed c).
Definition blank_offender (o : OffenderEntry) : OffenderEntry :=
  mk_offender "" (oe_code o) (oe_guard o) (oe_guard_mode o) (oe_sustained_polls o) (oe_first_seen o) (oe_last_seen o).
Definition blank_binding (b : Binding) : Binding := mk_binding (b_ip b) "" (b_source b) (b_expires_at b).
Definition blank_engine (e : EngineStats) : EngineStats :=
  mk_engine_stats "" (es_has_packet_ring e) (es_frames_seen e) (es_kernel_drops e) (es_flows_shed e) (es_new_flow_signals_shed e) (es_panics_caught e) (es_read_at e).
Definition blank_v2 (s : V2PanelState) : V2PanelState :=
  mk_v2_panel (vp_guards s) None (blank_offender <$> vp_offenders s) (blank_binding <$> vp_bindings s) (blank_engine <$> vp_engine s)
    ((λ _, "") <$> vp_errors s).
Definition blank_model (m : ModelMetadata) : ModelMetadata :=
  mk_metadata "" "" (mm_feature_ordering m) (mm_class_mapping m) (mm_operating_threshold m) (mm_calibration_method m) (mm_calibration_x m) (mm_calibration_y m).
Definition blanked (d : page_data) : page_data :=
  mk_page (pg_status d) (blank_rule <$> pg_rules d) (blank_event <$> pg_events d) (blank_threat <$> pg_threats d) (blank_model <$> pg_models d)
    (blank_entry <$> pg_allowlist d) (blank_capture <$> pg_capture_stats d) (blank_detection <$> pg_detections d)
    ((λ p : list PortalUser * list PortalSession, (blank_user <$> p.1, blank_session <$> p.2)) <$> pg_portal d) (blank_v2 (pg_v2 d)) (pg_page d).

Lemma markup_concat sep l : markup sep = [] → markup (String.concat sep l) = l ≫= markup.
Proof.
  intros Hsep. induction l as [|x l IH]; [done|]. rewrite bind_cons, <- IH. destruct l as [|y l]; [by rewrite app_nil_r|].
  change (String.concat sep (x :: y :: l)) with (x +:+ sep +:+ String.concat sep (y :: l)). by rewrite !markup_app, Hsep.
Qed.
Lemma markup_join l : markup (join l) = l ≫= markup.
Proof. by apply markup_concat. Qed.
Lemma markup_join_fmap {A} (f : A → string) (g : A → A) l : (∀ x, markup (f x) = markup (f (g x))) →
  markup (join (f <$> l)) = markup (join (f <$> (g <$> l))).
Proof. intros Hf. rewrite !markup_join. induction l as [|x l IH]; [done|]. rewrite !fmap_cons, !bind_cons, IH. by rewrite Hf. Qed.
(** A row is a row: it begins with its tag. *)
Definition is_row (s : string) : Prop := ∃ s', s = "<tr>" +:+ s'.
Lemma join_rows {A} (f : A → string) l : (∀ x, is_row (f x)) → join (f <$> l) = "" ↔ l = [].
Proof.
  intros Hf. split; [|by intros ->]. destruct l as [|x [|y l]]; [done|..]; destruct (Hf x) as [s' Hs]; cbn; rewrite Hs; done.
Qed.
Lemma markup_rows_table {A} (f : A → string) (g : A → A) header l columns note : (∀ x, is_row (f x)) → (∀ x, markup (f x) = markup (f (g x))) →
  markup (rows_table header (f <$> l) columns note) = markup (rows_table header (f <$> (g <$> l)) columns note).
Proof.
  intros Hr Hf. unfold rows_table. rewrite !markup_app. do 2 f_equal. f_equal. unfold or_text.
  destruct (String.eqb_spec (join (f <$> l)) "") as [He|He], (String.eqb_spec (join (f <$> (g <$> l))) "") as [He'|He']; [done|..].
  - apply join_rows in He as ->; [|done]. done.
  - apply join_rows in He'; [|done]. apply fmap_nil_inv in He'. subst l. done.
  - by apply markup_join_fmap.
Qed.

(** Pushes [markup] to the texts of two pieces and drops what was escaped *)
Ltac inert := rewrite ?markup_app, ?markup_escaped; try done.
Ltac row_inert := intros; cbn [blank_rule blank_fields blank_threat blank_entry blank_user blank_session blank_event blank_offender blank_binding
  fr_fields fr_id fr_status fr_created_at fr_expires_at rf_action rf_source rf_destination rf_reason];
  unfold threat_row, rule_row, shadow_row, route_cell, _status_badge, _allowlist_row, _portal_user_row,
    _portal_session_row, _event_row, offender_row, binding_row, _severity_badge, _action_button, cell; cbv zeta; inert.
Ltac is_a_row := intros; eexists; reflexivity.

Lemma threat_inert t : markup (threat_row t) = markup (threat_row (blank_threat t)).
Proof. row_inert. Qed.
Lemma actions_inert r : markup (_rule_actions r) = markup (_rule_actions (blank_rule r)).
Proof. unfold _rule_actions, _action_button. cbn [blank_rule fr_status fr_id]. cbv zeta. destruct (fr_status r); inert. Qed.
Lemma rule_inert r : markup (rule_row r) = markup (rule_row (blank_rule r)).
Proof. unfold rule_row, route_cell, cell, _status_badge. cbv zeta. rewrite !markup_app, !markup_escaped, actions_inert. done. Qed.
Lemma shadow_inert r : markup (shadow_row r) = markup (shadow_row (blank_rule r)).
Proof. row_inert. Qed.
Lemma entry_inert e : markup (_allowlist_row e) = markup (_allowlist_row (blank_entry e)).
Proof. row_inert. Qed.
Lemma user_inert u : markup (_portal_user_row u) = markup (_portal_user_row (blank_user u)).
Proof. row_inert. Qed.
Lemma session_inert s : markup (_portal_session_row s) = markup (_portal_session_row (blank_session s)).
Proof. row_inert. Qed.
Lemma event_inert e : markup (_event_row e) = markup (_event_row (blank_event e)).
Proof. row_inert. Qed.
Lemma offender_inert o : markup (offender_row o) = markup (offender_row (blank_offender o)).
Proof. row_inert. Qed.
Lemma binding_inert b : markup (binding_row b) = markup (binding_row (blank_binding b)).
Proof. row_inert. Qed.
Lemma badge_inert a b : markup (_severity_badge a) = markup (_severity_badge b).
Proof. unfold _severity_badge. inert. Qed.
Lemma flag_inert d d' : markup (_detection_flag_badge d) = markup (_detection_flag_badge d').
Proof. unfold _detection_flag_badge. repeat case_match; apply badge_inert. Qed.
Lemma markup_or_dash s : markup (or_text s "&mdash;") = markup s.
Proof. unfold or_text. by destruct (String.eqb_spec s "") as [->|]. Qed.
Lemma summary_inert d : markup (_detection_evidence_summary d) = markup (_detection_evidence_summary (blank_detection d)).
Proof.
  unfold _detection_evidence_summary. rewrite !markup_or_dash, !markup_concat by done. rewrite !bind_app. apply (f_equal2 (++)); [|apply (f_equal2 (++))].
  - cbn [blank_detection dr_known_evidence]. destruct (dr_known_evidence d); [|done]. cbn [fmap option_fmap option_map]. rewrite !bind_singleton. inert.
  - reflexivity.
  - cbn [blank_detection dr_protocol_signature_evidence]. destruct (dr_protocol_signature_evidence d); [|done]. cbn [fmap option_fmap option_map].
    rewrite !bind_singleton. inert.
Qed.
Lemma detection_inert d : markup (detection_row d) = markup (detection_row (blank_detection d)).
Proof. unfold detection_row, cell. rewrite !markup_app, !markup_escaped, summary_inert, (flag_inert d (blank_detection d)). done. Qed.

Lemma model_inert model_kind is_placeholder m m' : markup (model_row model_kind is_placeholder m) = markup (model_row model_kind is_placeholder m').
Proof. unfold model_row, cell. rewrite !markup_app, !markup_escaped. by destruct (is_placeholder m), (is_placeholder m'). Qed.

(** Blanking keeps what a section selects and sorts by *)
Lemma filter_fmap_same {A} (P : A → Prop) `{∀ x, Decision (P x)} (g : A → A) (l : list A) : (∀ x, P x ↔ P (g x)) → filter P (g <$> l) = g <$> filter P l.
Proof.
  intros Hg. induction l as [|x l IH]; [done|]. rewrite fmap_cons, !filter_cons, IH.
  destruct (decide (P x)), (decide (P (g x))); [done|naive_solver..|done].
Qed.
Lemma insert_sorted_fmap {A} (leb : A → A → bool) (g : A → A) x l : (∀ a b, leb (g a) (g b) = leb a b) →
  insert_sorted leb (g x) (g <$> l) = g <$> insert_sorted leb x l.
Proof.
  intros Hg. induction l as [|y l IH]; [done|]. rewrite fmap_cons. cbn [insert_sorted]. rewrite Hg. destruct (leb x y); [done|].
  by rewrite fmap_cons, IH.
Qed.
Lemma py_sorted_fmap {A} (leb : A → A → bool) (g : A → A) l : (∀ a b, leb (g a) (g b) = leb a b) → py_sorted leb (g <$> l) = g <$> py_sorted leb l.
Proof.
  intros Hg. induction l as [|x l IH]; [done|]. rewrite fmap_cons. unfold py_sorted in *. cbn [foldr]. rewrite IH. by apply insert_sorted_fmap.
Qed.
Lemma demo_fmap l : existsb pu_is_demo (blank_user <$> l) = existsb pu_is_demo l.
Proof. induction l as [|u l IH]; [done|]. rewrite fmap_cons. cbn [existsb]. by rewrite IH. Qed.

(** ** The sections of the pages keep their markup *)

Section Inert.
Context (model_kind : ModelMetadata → string) (is_placeholder : ModelMetadata → bool) (V2_SCRIPT : string).

Lemma network_inert c : markup (_render_network_section c) = markup (_render_network_section (blank_capture <$> c)).
Proof. unfold _render_network_section, cell. destruct c as [c|]; [|done]. cbn [fmap option_fmap option_map blank_capture]. inert. Qed.
Lemma threats_inert l : markup (_render_threats_section l) = markup (_render_threats_section (blank_threat <$> l)).
Proof. apply markup_rows_table; [is_a_row|apply threat_inert]. Qed.
Lemma detections_inert l : markup (_render_detections_section l) = markup (_render_detections_section (blank_detection <$> l)).
Proof. apply markup_rows_table; [is_a_row|apply detection_inert]. Qed.
Lemma rules_inert l : markup (_render_firewall_section l) = markup (_render_firewall_section (blank_rule <$> l)).
Proof. apply markup_rows_table; [is_a_row|apply rule_inert]. Qed.
Lemma shadow_log_inert l : markup (_render_shadow_log_section l) = markup (_render_shadow_log_section (blank_rule <$> l)).
Proof.
  unfold _render_shadow_log_section. rewrite (filter_fmap_same _ blank_rule) by done. apply markup_rows_table; [is_a_row|apply shadow_inert].
Qed.
Lemma allowlist_inert l : markup (_render_allowlist_section l) = markup (_render_allowlist_section (blank_entry <$> l)).
Proof. unfold _render_allowlist_section. rewrite !(markup_app (rows_table _ _ _ _)). f_equal. apply markup_rows_table; [is_a_row|apply entry_inert]. Qed.
Lemma users_inert l : markup (_render_portal_users_section l) = markup (_render_portal_users_section (blank_user <$> l)).
Proof.
  unfold _render_portal_users_section. rewrite demo_fmap, !markup_app. f_equal. f_equal. apply markup_rows_table; [is_a_row|apply user_inert].
Qed.
Lemma sessions_inert l : markup (_render_portal_sessions_section l) = markup (_render_portal_sessions_section (blank_session <$> l)).
Proof. unfold _render_portal_sessions_section. rewrite !(markup_app (rows_table _ _ _ _)). f_equal. apply markup_rows_table; [is_a_row|apply session_inert]. Qed.
Lemma events_inert l : markup (_render_events_section l) = markup (_render_events_section (blank_event <$> l)).
Proof. apply markup_rows_table; [is_a_row|apply event_inert]. Qed.
Lemma ml_inert l : markup (_render_ml_section model_kind is_placeholder l) = markup (_render_ml_section model_kind is_placeholder (blank_model <$> l)).
Proof. apply markup_rows_table; [is_a_row|intros; apply model_inert]. Qed.
Lemma offenders_inert l : markup (_offenders_table l) = markup (_offenders_table (blank_offender <$> l)).
Proof. apply markup_rows_table; [is_a_row|apply offender_inert]. Qed.
Lemma bindings_inert l : markup (_bindings_table l) = markup (_bindings_table (blank_binding <$> l)).
Proof.
  unfold _bindings_table. rewrite (py_sorted_fmap by_ip blank_binding) by done. apply markup_rows_table; [is_a_row|apply binding_inert].
Qed.
Lemma engine_inert e : markup (_engine_table e) = markup (_engine_table (blank_engine <$> e)).
Proof.
  destruct e as [e|]; [|done]. cbn [fmap option_fmap option_map]. unfold _engine_table. cbv zeta. rewrite !markup_app, !markup_join. f_equal. f_equal.
  rewrite !fmap_cons, !fmap_nil, !bind_cons. unfold row. rewrite !markup_app, !markup_escaped. reflexivity.
Qed.
Lemma guards_inert s : markup (_guards_table s) = markup (_guards_table (blank_v2 s)).
Proof. unfold _guards_table. cbn [blank_v2 vp_guards]. destruct (vp_guards s); [done|]. inert. Qed.
Lemma error_lines_inert l : markup (join (error_line <$> l)) = markup (join (error_line <$> ((λ _, "") <$> l))).
Proof. apply (markup_join_fmap error_line (λ _, "")). intros x. unfold error_line. inert. Qed.
Lemma v2_inert s : markup (render_v2_section V2_SCRIPT s) = markup (render_v2_section V2_SCRIPT (blank_v2 s)).
Proof.
  unfold render_v2_section. rewrite !markup_app, guards_inert, engine_inert, offenders_inert, bindings_inert, error_lines_inert. reflexivity.
Qed.
Lemma panel_inert section_id title x y loggy importance : markup x = markup y →
  markup (_panel section_id title x loggy importance) = markup (_panel section_id title y loggy importance).
Proof. intros Hxy. unfold _panel. cbv zeta. rewrite !markup_app, Hxy. reflexivity. Qed.

Lemma page_sections_inert d slug :
  markup (page_sections V2_SCRIPT model_kind is_placeholder d slug) = markup (page_sections V2_SCRIPT model_kind is_placeholder (blanked d) slug).
Proof.
  unfold page_sections. cbv zeta. cbn [blanked pg_status pg_rules pg_events pg_threats pg_models pg_allowlist pg_capture_stats pg_detections pg_v2].
  repeat (destruct (String.eqb slug _); [rewrite ?markup_app|]).
  - by rewrite (panel_inert "v2" _ _ _ _ _ (v2_inert _)), (panel_inert "network" _ _ _ _ _ (network_inert _)).
  - f_equal; apply panel_inert; [apply threats_inert|apply detections_inert].
  - f_equal; apply panel_inert; [apply rules_inert|apply shadow_log_inert].
  - apply panel_inert, allowlist_inert.
  - unfold _portal_panels. rewrite !markup_app. cbn [blanked pg_portal].
    destruct (pg_portal d) as [[users sessions]|]; [|reflexivity]. cbn [fmap option_fmap option_map fst snd default from_option].
    f_equal; apply panel_inert; [apply sessions_inert|apply users_inert].
  - apply panel_inert, events_inert.
  - apply panel_inert, ml_inert.
Qed.
Lemma page_counts_blanked d : page_counts (blanked d) = page_counts d.
Proof.
  unfold page_counts, zlen. cbn [blanked pg_rules pg_events pg_threats pg_models pg_allowlist pg_detections pg_portal].
  rewrite (filter_fmap_same _ blank_rule) by done. rewrite !length_fmap.
  destruct (pg_portal d) as [[users sessions]|]; [|done].
  change (length (default [] (snd <$> ((λ p : list PortalUser * list PortalSession, (blank_user <$> p.1, blank_session <$> p.2)) <$> Some (users, sessions)))))
    with (length (blank_session <$> sessions)). by rewrite length_fmap.
Qed.
End Inert.

(** C25: no text reaches the markup of the control panel.  Whatever is written in
    a rule's reason, an explanation of a threat, a detection, an event, an
    account, a session, a model's metadata, an allowlist entry, a MAC address,
    an engine's name or a message of the core, the tags, attributes and quotes
    of every page are the ones of the page on which all of these are blank:
    the same markup characters in the same order.  The page shown while the core
    is unreachable keeps its markup whatever detail it reports. *)
Theorem panel_keeps_its_markup style script v2_script model_kind is_placeholder help scenarios :
  (∀ d, markup (render_dashboard style script v2_script model_kind is_placeholder help scenarios d) =
        markup (render_dashboard style script v2_script model_kind is_placeholder help scenarios (blanked d))) ∧
  (∀ detail detail', markup (render_core_unavailable_page style script detail) = markup (render_core_unavailable_page style script detail')).
Proof.
  split.
  - intros d. unfold render_dashboard, _shell, panel_page. cbv zeta. rewrite page_counts_blanked. change (pg_page (blanked d)) with (pg_page d).
    rewrite !markup_app, page_sections_inert. reflexivity.
  - intros. unfold render_core_unavailable_page, panel_page. cbv zeta. rewrite !markup_app, !markup_escaped. reflexivity.
Qed.

(** A page that is not in the navigation is shown as the Overview page; the
    docstring of [render_dashboard] says the Models page. *)
Lemma unknown_page_is_the_overview page : page ∉ pp_slug <$> PANEL_PAGES → slug_of page = "" ∧ label_of (slug_of page) = "Overview".
Proof. intros Hp. unfold slug_of. destruct (inb page _) eqn:E; [|done]. by apply inb_true in E. Qed.
(** With the portal disabled ([None] for both lists) the portal page still shows
    its two panels, with the form that creates accounts: the lists are made empty
    before [_portal_panels], whose test for [None] can then never succeed. *)
Lemma portal_panels_without_a_portal v2_script model_kind is_placeholder d : pg_portal d = None →
  page_sections v2_script model_kind is_placeholder d "portal" =
    _panel "portal-sessions" "Portal — signed-in devices (ADDENDUM_3.md C1)" (_render_portal_sessions_section []) false "normal" +:+
    _panel "portal-users" "Portal — LAN user accounts (ADDENDUM_3.md C3)" (_render_portal_users_section []) false "normal" ∧
  _portal_panels None None = "".
Proof. intros Hd. unfold page_sections. rewrite Hd. done. Qed.
