(* ===== verification/Startup.v ===== *)
(** * Bringing the system up (scripts/deployment/startup.py)

    The steps of [pirewall-start] that need the configuration or the kernel:
    the preflight refusals, the modes the tables load with, the seed, the
    guards, and the panic command.  What preflight reads of the system is a
    [SystemProbe]; a finding is its level and the check it is about, without
    its texts.  Each step is a process of its own: it builds a manager on the
    kernel the step before left. *)

From S2P Require Import Prelude Float Net Models RateLimiter Sets SetBackend Backend Validator AllowlistStore Manager Lifecycle Reachable Bindings BindingSync LeaseSync Throttle PortalSessions PortalStore PortalService Flow Parser Pcap HostAddrs Thresholds Threat Inference Runtime Json Rpc RpcProps RpcClient Templates Watch.
Local Open Scope Z_scope.

(** ** Preflight *)

Inductive finding_level := LEVEL_OK | LEVEL_WARN | LEVEL_REFUSE.
Inductive check_name :=
| CEngine | CThresholds | CMigration | CAdminIdentity | CNftablesService | CIpv6 | CDataMode | CModel (name : string) | CNoModels
| CTransport | CNative | CLeaseFile | CChrony.
Record Finding : Type := mk_finding { fd_level : finding_level; fd_check : check_name }.
Inductive DataMode := DATA_LIVE | DATA_SCRIPTED | DATA_MOCK.

Record SystemProbe : Type := mk_probe {
  sp_nftables_service_enabled : option bool;
  sp_nftables_conf : option text;
  sp_ipv6_disabled : string → option bool;
  sp_is_raspberry_pi : bool;
  sp_chrony_synced : bool;
  sp_libnftables : bool;
  sp_native : bool * bool;
  sp_lease_file_readable : bool;
}.

(** [check_models]: an artifact is there or not, its hash, and its sidecar: an
    error, or the hash it claims *)
Record ModelCheck : Type := mk_model_check {
  mc_name : string;
  mc_present : bool;
  mc_sha256 : option string;
  mc_claimed_sha256 : option string;
  mc_sidecar_error : option string;
}.
Definition check_model (name : string) (artifact : option (string * (string + option string))) : ModelCheck :=
  match artifact with
  | None => mk_model_check name false None None None
  | Some (sha, inl error) => mk_model_check name true (Some sha) None (Some error)
  | Some (sha, inr claimed) => mk_model_check name true (Some sha) claimed None
  end.

(** What preflight reads of the configuration and of the disk *)
Record PreflightConfig : Type := mk_preflight_config {
  pf_engine : PipelineEngine;
  pf_mode : EnforcementMode;
  pf_thresholds : ThresholdsOnDisk;
  pf_migration : result (list string);      (** the changes [migrate_text] lists *)
  pf_admin_pc_mac : option Mac.t;
  pf_admin_interface : option string;
  pf_lan_interface : string;
  pf_lightgbm : option (string * (string + option string));
  pf_isolation_forest : option (string * (string + option string));
}.
Definition check_models (c : PreflightConfig) : list ModelCheck :=
  [check_model "lightgbm" (pf_lightgbm c); check_model "isolation_forest" (pf_isolation_forest c)].

(** [line.split("#", 1)[0]], and the words of it joined by one space *)
Definition before_hash (l : text) : text := match list_find (λ c, c = 35) l with Some (i, _) => take i l | None => l end.
Definition _NFT_FLUSH_RULESET : text := of_string "flush ruleset".
Fixpoint joined_words (fields : list text) : text :=
  match fields with [] => [] | [f] => f | f :: fields => f ++ 32 :: joined_words fields end.
Definition _flushes_ruleset (t : text) : bool :=
  existsb (λ line, bool_decide (joined_words (split_fields [] (before_hash line)) = _NFT_FLUSH_RULESET)) (split_lines [] t).

Definition ok_or (b : bool) (l : finding_level) : finding_level := if b then LEVEL_OK else l.

Definition model_level (m : ModelCheck) : finding_level :=
  if negb (mc_present m) then LEVEL_WARN
  else match mc_sidecar_error m, mc_claimed_sha256 m with
       | Some _, _ => LEVEL_REFUSE
       | None, None => LEVEL_WARN
       | None, Some claimed => ok_or (bool_decide (Some claimed = mc_sha256 m)) LEVEL_REFUSE
       end.
Definition _model_findings (c : PreflightConfig) (engine : PipelineEngine) : list Finding :=
  let checks := check_models c in
  if bool_decide (engine = ENGINE_V2) && negb (existsb mc_present checks) then [mk_finding LEVEL_OK CNoModels]
  else (λ m, mk_finding (model_level m) (CModel (mc_name m))) <$> checks.

Section Preflight.
Context (digest : list ThresholdEntry → string).

Definition _d1_thresholds_finding (c : PreflightConfig) : result Finding :=
  match load_thresholds digest (pf_thresholds c) with
  | Ok _ => Ok (mk_finding LEVEL_OK CThresholds)
  | Raise (ConfigurationError _) =>
      Ok (mk_finding (match pf_mode c with MODE_SHADOW => LEVEL_WARN | _ => LEVEL_REFUSE end) CThresholds)
  | Raise e => Raise e
  end.
Definition requested_engine (c : PreflightConfig) (engine : option PipelineEngine) : PipelineEngine := default (pf_engine c) engine.

(** The checks of a run on the real network *)
Definition network_findings (c : PreflightConfig) (p : SystemProbe) : list Finding :=
  [mk_finding (match pf_migration c with Ok [] => LEVEL_OK | _ => LEVEL_REFUSE end) CMigration;
   mk_finding (match pf_admin_pc_mac c, pf_admin_interface c with Some _, Some _ => LEVEL_OK | _, _ => LEVEL_REFUSE end) CAdminIdentity;
   mk_finding (match sp_nftables_service_enabled p, sp_nftables_conf p with
               | Some true, Some conf => ok_or (negb (_flushes_ruleset conf)) LEVEL_REFUSE
               | None, _ => LEVEL_WARN
               | _, _ => LEVEL_OK
               end) CNftablesService;
   mk_finding (match sp_ipv6_disabled p (pf_lan_interface c) with Some false => LEVEL_REFUSE | None => LEVEL_WARN | Some true => LEVEL_OK end) CIpv6].

Definition preflight (c : PreflightConfig) (engine : option PipelineEngine) (data_mode : option DataMode) (p : SystemProbe) : result (list Finding) :=
  let chosen := requested_engine c engine in
  let mock := match data_mode with Some DATA_MOCK => true | _ => false end in
  thresholds ← (if bool_decide (chosen = ENGINE_V2) then f ← _d1_thresholds_finding c; mret [f] else mret []);
  mret (
    mk_finding (ok_or (inb chosen IMPLEMENTED_ENGINES) LEVEL_REFUSE) CEngine :: thresholds ++
    (if mock then [] else network_findings c p) ++
    (match data_mode with
     | Some DATA_LIVE | Some DATA_SCRIPTED => if sp_is_raspberry_pi p then [] else [mk_finding LEVEL_REFUSE CDataMode]
     | _ => []
     end) ++
    _model_findings c chosen ++
    (if mock then [] else [mk_finding (ok_or (sp_libnftables p) LEVEL_WARN) CTransport]) ++
    [mk_finding (ok_or ((sp_native p).1 && (sp_native p).2) LEVEL_WARN) CNative] ++
    (if mock then [] else [mk_finding (ok_or (sp_lease_file_readable p) LEVEL_WARN) CLeaseFile;
                           mk_finding (ok_or (sp_chrony_synced p) LEVEL_WARN) CChrony])).
(** [print_findings]: no finding refuses *)
Definition none_refuses (findings : list Finding) : bool := forallb (λ f, match fd_level f with LEVEL_REFUSE => false | _ => true end) findings.

(** ** What preflight lets through *)

(** A model artifact is absent, or its sidecar is readable and claims no hash
    but its own. *)
Definition model_sound (artifact : option (string * (string + option string))) : Prop :=
  match artifact with None => True | Some (_, inl _) => False | Some (_, inr None) => True | Some (sha, inr (Some claimed)) => claimed = sha end.
Record launchable (c : PreflightConfig) (engine : option PipelineEngine) (data_mode : option DataMode) (p : SystemProbe) : Prop := {
  la_thresholds : requested_engine c engine = ENGINE_V2 → pf_mode c = MODE_SHADOW ∨ ∃ f, load_thresholds digest (pf_thresholds c) = Ok f;
  la_migrated : data_mode ≠ Some DATA_MOCK → pf_migration c = Ok [];
  la_identity : data_mode ≠ Some DATA_MOCK → is_Some (pf_admin_pc_mac c) ∧ is_Some (pf_admin_interface c);
  la_no_flush : data_mode ≠ Some DATA_MOCK → sp_nftables_service_enabled p = Some true →
    ∀ conf, sp_nftables_conf p = Some conf → _flushes_ruleset conf = false;
  la_ipv6 : data_mode ≠ Some DATA_MOCK → sp_ipv6_disabled p (pf_lan_interface c) ≠ Some false;
  la_pi : data_mode = Some DATA_LIVE ∨ data_mode = Some DATA_SCRIPTED → sp_is_raspberry_pi p = true;
  la_models : model_sound (pf_lightgbm c) ∧ model_sound (pf_isolation_forest c);
}.

Lemma none_refuses_app l l' : none_refuses (l ++ l') = none_refuses l && none_refuses l'.
Proof. apply forallb_app. Qed.

Definition tolerated (l : finding_level) : bool := match l with LEVEL_REFUSE => false | _ => true end.
Lemma model_level_sound name a : tolerated (model_level (check_model name a)) = true ↔ model_sound a.
Proof.
  destruct a as [[sha [err|[claim|]]]|]; cbn; try done. unfold model_level. cbn. case_bool_decide as Hc; cbn; split; congruence.
Qed.
Lemma model_findings_sound c engine :
  none_refuses (_model_findings c engine) = true ↔ model_sound (pf_lightgbm c) ∧ model_sound (pf_isolation_forest c).
Proof.
  unfold _model_findings. destruct (bool_decide (engine = ENGINE_V2) && negb (existsb mc_present (check_models c))) eqn:Hskip.
  - split; [intros _|done]. apply andb_prop in Hskip as [_ Hn]. apply negb_true_iff in Hn. cbn in Hn.
    by destruct (pf_lightgbm c) as [[sha []]|], (pf_isolation_forest c) as [[sha' []]|].
  - unfold check_models, none_refuses. cbn [fmap list_fmap forallb fd_level]. fold (tolerated (model_level (check_model "lightgbm" (pf_lightgbm c)))).
    fold (tolerated (model_level (check_model "isolation_forest" (pf_isolation_forest c)))). rewrite andb_true_r, andb_true_iff. by rewrite !model_level_sound.
Qed.

Lemma network_findings_sound c p : none_refuses (network_findings c p) = true ↔
  pf_migration c = Ok [] ∧ (is_Some (pf_admin_pc_mac c) ∧ is_Some (pf_admin_interface c)) ∧
  (sp_nftables_service_enabled p = Some true → ∀ conf, sp_nftables_conf p = Some conf → _flushes_ruleset conf = false) ∧
  sp_ipv6_disabled p (pf_lan_interface c) ≠ Some false.
Proof.
  unfold network_findings, none_refuses. cbn [forallb fd_level]. rewrite !andb_true_iff.
  assert (H1 : (match match pf_migration c with Ok [] => LEVEL_OK | _ => LEVEL_REFUSE end with LEVEL_REFUSE => false | _ => true end) = true ↔ pf_migration c = Ok [])
    by (destruct (pf_migration c) as [[]|]; split; congruence).
  assert (H2 : (match match pf_admin_pc_mac c, pf_admin_interface c with Some _, Some _ => LEVEL_OK | _, _ => LEVEL_REFUSE end with LEVEL_REFUSE => false | _ => true end) = true ↔
    is_Some (pf_admin_pc_mac c) ∧ is_Some (pf_admin_interface c)).
  { destruct (pf_admin_pc_mac c), (pf_admin_interface c); split; try done; intros [[? ?] [? ?]]; done. }
  assert (H4 : (match match sp_ipv6_disabled p (pf_lan_interface c) with Some false => LEVEL_REFUSE | None => LEVEL_WARN | Some true => LEVEL_OK end with LEVEL_REFUSE => false | _ => true end) = true ↔
    sp_ipv6_disabled p (pf_lan_interface c) ≠ Some false) by (destruct (sp_ipv6_disabled p (pf_lan_interface c)) as [[]|]; split; congruence).
  rewrite H1, H2, H4. clear H1 H2 H4. unfold ok_or.
  destruct (sp_nftables_service_enabled p) as [[]|], (sp_nftables_conf p) as [conf|]; try (destruct (_flushes_ruleset conf) eqn:Hflush);
    cbn [negb]; naive_solver congruence.
Qed.

(** preflight lets a bring-up through exactly when nothing that it guards
    against is the case: thresholds that engine v2 would enforce without, a
    configuration that still needs migration, an incomplete admin identity, an
    nftables service that would flush the tables, IPv6 on the LAN, a Pi tag
    off a Pi, or a model whose file and metadata do not belong together. *)
Theorem preflight_passes_iff c engine data_mode p findings : preflight c engine data_mode p = Ok findings →
  none_refuses findings = true ↔ launchable c engine data_mode p.
Proof.
  intros Hp. unfold preflight in Hp. cbv zeta in Hp. set (chosen := requested_engine c engine) in *.
  set (mock := match data_mode with Some DATA_MOCK => true | _ => false end) in *.
  assert (Hmock : mock = true ↔ data_mode = Some DATA_MOCK) by (subst mock; destruct data_mode as [[]|]; split; congruence).
  destruct (if bool_decide (chosen = ENGINE_V2) then _ else _) as [thresholds|e] eqn:Ht; [|done].
  assert (Hthr : none_refuses thresholds = true ↔ (chosen = ENGINE_V2 → pf_mode c = MODE_SHADOW ∨ ∃ f, load_thresholds digest (pf_thresholds c) = Ok f)).
  { case_bool_decide as Hv; [|injection Ht as <-; split; [done|done]]. unfold _d1_thresholds_finding in Ht.
    destruct (load_thresholds digest (pf_thresholds c)) as [f|e]; [injection Ht as <-; split; [intros _ _; right; by exists f|done]|].
    destruct e; try done. injection Ht as <-. destruct (pf_mode c); cbn; (split; [intros Hx; try done; intros _; by left|intros Hx; try done; destruct (Hx Hv) as [?|[f ?]]; done]). }
  apply (f_equal (λ r, match r with Ok l => l | Raise _ => [] end)) in Hp. cbn [mbind result_bind rbind mret result_ret] in Hp. subst findings.
  match goal with |- none_refuses (?x :: ?l) = true ↔ _ => change (x :: l) with ([x] ++ l) end. rewrite !none_refuses_app, !andb_true_iff, Hthr, model_findings_sound.
  assert (Hengine : none_refuses [mk_finding (ok_or (inb chosen IMPLEMENTED_ENGINES) LEVEL_REFUSE) CEngine] = true) by (by destruct chosen).
  assert (Hwarn : ∀ b k, none_refuses [mk_finding (ok_or b LEVEL_WARN) k] = true) by (by intros []).
  assert (Hpi : none_refuses (match data_mode with Some DATA_LIVE | Some DATA_SCRIPTED => if sp_is_raspberry_pi p then [] else [mk_finding LEVEL_REFUSE CDataMode] | _ => [] end) = true ↔
    (data_mode = Some DATA_LIVE ∨ data_mode = Some DATA_SCRIPTED → sp_is_raspberry_pi p = true)).
  { destruct data_mode as [[]|], (sp_is_raspberry_pi p); cbn; naive_solver. }
  rewrite Hpi. destruct mock.
  - assert (data_mode = Some DATA_MOCK) as Hm by (by apply Hmock). split.
    + intros (_ & H1 & _ & H2 & H3 & _). by split.
    + intros [L1 _ _ _ _ L6 L7]. split; [done|]. split; [exact L1|]. split; [done|]. split; [exact L6|]. split; [exact L7|]. split; [done|]. split; [apply Hwarn|done].
  - assert (Hm : data_mode ≠ Some DATA_MOCK) by (intros Hx; by apply Hmock in Hx). rewrite network_findings_sound. split.
    + intros (_ & H1 & (N1 & N2 & N3 & N4) & H2 & H3 & _). by split.
    + intros [L1 L2 L3 L4 L5 L6 L7]. rewrite !Hwarn. split; [done|]. split; [done|]. split; [by split; [apply L2|split; [apply L3|split; [apply L4|apply L5]]]|].
      split; [done|]. split; [done|]. split; [done|]. split; [done|]. destruct (sp_lease_file_readable p), (sp_chrony_synced p); done.
Qed.
End Preflight.

(** ** Guard modes *)

(** The three modes, as the dictionaries of the source *)
Definition requested_modes : Type := GuardName → GuardMode.
Record GuardArgs : Type := mk_guard_args { ga_guards : option GuardMode; ga_guard : GuardName → option GuardMode }.
Definition config_modes (g : GuardsConfig) : requested_modes := λ n,
  match n with RAW => gc_raw_mode g | INPUT => gc_input_mode g | FORWARD => gc_forward_mode g end.
Definition guard_modes_from_args (g : GuardsConfig) (args : GuardArgs) : requested_modes := λ n,
  match ga_guard args n with
  | Some mode => mode
  | None => match ga_guards args with Some mode => mode | None => config_modes g n end
  end.
Definition load_modes (requested : requested_modes) : requested_modes := λ n, match n with RAW => OBSERVE | _ => requested n end.
Definition with_guard_modes (t : TemplateConfig) (modes : requested_modes) : TemplateConfig :=
  let g := tc_guards t in
  mk_template_config (tc_config t) (tc_wan_interface t) (tc_lan_interface t) (tc_admin_interface t) (tc_api_port t) (tc_portal_port t)
    (mk_guards (modes RAW) (modes INPUT) (modes FORWARD) (gc_dhcp_per_minute g) (gc_unbound g) (gc_syn g) (gc_icmp g) (gc_udp_local g) (gc_local_pps g)
       (gc_dns g) (gc_closed_port g) (gc_newconn g) (gc_newconn_dst g) (gc_udp_fwd g) (gc_global_unbound g) (gc_global_syn g) (gc_global_icmp g)
       (gc_global_udp_local g) (gc_global_newconn g) (gc_portal_concurrency g) (gc_ratelimit g) (gc_binding_set_size g) (gc_meter_set_size g)
       (gc_pair_meter_set_size g) (gc_offender_set_size g) (gc_adaptive_set_size g)).

(** ** The kernel steps *)

Definition ACTOR : string := "pirewall-start".
Definition EXIT_OK : Z := 0.
Definition EXIT_FAILED : Z := 1.

Section Steps.
Context {B F : Type} {SB : SetBackend B} {SBL : SetBackendLaws B} {FB : FirewallBackend F}.
Notation FM := (FirewallManager B F).

(** [build_manager]: a fresh manager on the kernel *)
Definition build_manager (c : PirewallConfig) (v1 : F) (store : AllowlistStore) (kernel : B) (local : LocalAddresses) : FM :=
  new_manager c v1 (Some store) (Some kernel) (λ _, None) local.

Definition startup_seed (protected : IPv4.network) (path : string) (t : LeaseBindingTable) (file : lease_file) (now : Z) (m : FM)
  : result bool * LeaseBindingTable * FM :=
  match seed file now (new_lease_sync protected path t m) with
  | (Raise e, s) => (Raise e, ls_table s, ls_manager s)
  | (Ok seeded, s) =>
      match sync_allowlist (ls_manager s) with
      | (Ok _, m') | (Raise (FirewallError _), m') => (Ok seeded, ls_table s, m')
      | (Raise e, m') => (Raise e, ls_table s, m')
      end
  end.

Definition applied_modes (requested : requested_modes) (seeded : bool) : requested_modes := λ n,
  match n with RAW => effective_raw_mode (requested RAW) seeded | _ => requested n end.
(** The events are printed. *)
Definition set_guards (requested : requested_modes) (seeded : bool) (now : Z) : M FM (list SecurityEvent) :=
  let applied := applied_modes requested seeded in
  e1 ← set_guard_mode RAW (applied RAW) ACTOR now;
  e2 ← set_guard_mode INPUT (applied INPUT) ACTOR now;
  e3 ← set_guard_mode FORWARD (applied FORWARD) ACTOR now;
  mret [e1; e2; e3].

(** The panic command: through core when it answers, else directly *)
Definition panic_message (actor route : string) (pr : PanicResult) : string :=
  "pirewall PANIC by " +:+ actor +:+ " (" +:+ route +:+ "): deleted " +:+
  (match pr_deleted_tables pr with [] => "nothing" | l => String.concat ", " l end) +:+
  "; pirewall_base and pirewall_portal untouched. Restore with: " +:+ pr_restore_command pr.
Definition startup_panic {C} (_call : RpcOperation → list (string * json) → M C response) (actor : string) (direct : bool) (now : Z) (core : C) (m : FM)
  : result (Z * option string) * C * FM :=
  let '(answer, core) := if direct then (Raise (RpcError "--direct given"), core) else client_panic _call actor core in
  match answer with
  | Ok pr => (Ok (EXIT_OK, Some (panic_message actor "pirewall-core" pr)), core, m)
  | Raise (RpcError _) =>
      match panic actor now m with
      | (Ok (pr, _), m) => (Ok (EXIT_OK, Some (panic_message actor "directly" pr)), core, m)
      | (Raise (FirewallError _), m) => (Ok (EXIT_FAILED, None), core, m)
      | (Raise e, m) => (Raise e, core, m)
      end
  | Raise e => (Raise e, core, m)
  end.

(** ** Anti-spoof never enforces over an empty table *)

(** The tables are loaded with the raw guard observing. *)
Lemma loads_observing t requested : value_of (substitution_mapping (with_guard_modes t (load_modes requested))) "RAW_VERDICT" = Some "".
Proof. reflexivity. Qed.

Lemma set_guard_mode_view g mode actor now (m : FM) b : m_sets m = Some b →
  let '(r, m') := set_guard_mode g mode actor now m in
  ∃ b', m_sets m' = Some b' ∧
  match r with
  | Ok _ => (∀ a k, kv_elem (sb_view b') a k = kv_elem (sb_view b) a k) ∧
            (∀ h, kv_guard (sb_view b') h = if decide (h = g) then Some mode else kv_guard (sb_view b) h)
  | Raise e => view_eq (sb_view b') (sb_view b) ∧ ∃ msg, e = FirewallError msg
  end.
Proof.
  intros Hb. unfold set_guard_mode, mbind, m_bind, mget. rewrite Hb. unfold on_sets. rewrite Hb.
  destruct (sb_set_guard_modes [(g, mode)] b) as [r b'] eqn:Hg. pose proof (guards_law [(g, mode)] b r b' Hg) as Hlaw.
  destruct r as [[]|e]; exists b'; (split; [done|]); [|done]. destruct Hlaw as (_ & He & Hset & Hkeep & _). split; [done|]. intros h. case_decide as Hh.
  - subst h. apply Hset; [cbn; by rewrite decide_True|]. cbn. apply NoDup_singleton.
  - apply Hkeep. cbn. by rewrite decide_False by congruence.
Qed.

Lemma set_guards_view requested seeded now (m : FM) b events m' : m_sets m = Some b → set_guards requested seeded now m = (Ok events, m') →
  ∃ b', m_sets m' = Some b' ∧ (∀ a k, kv_elem (sb_view b') a k = kv_elem (sb_view b) a k) ∧
    ∀ g, kv_guard (sb_view b') g = Some (applied_modes requested seeded g).
Proof.
  intros Hb. unfold set_guards, mbind, m_bind. set (ap := applied_modes requested seeded).
  pose proof (set_guard_mode_view RAW (ap RAW) ACTOR now m b Hb) as H1. destruct (set_guard_mode RAW _ ACTOR now m) as [[e1|e1] m1]; [|done].
  destruct H1 as (b1 & Hb1 & E1 & G1). pose proof (set_guard_mode_view INPUT (ap INPUT) ACTOR now m1 b1 Hb1) as H2.
  destruct (set_guard_mode INPUT _ ACTOR now m1) as [[e2|e2] m2]; [|done]. destruct H2 as (b2 & Hb2 & E2 & G2).
  pose proof (set_guard_mode_view FORWARD (ap FORWARD) ACTOR now m2 b2 Hb2) as H3.
  destruct (set_guard_mode FORWARD _ ACTOR now m2) as [[e3|e3] m3]; [|done]. destruct H3 as (b3 & Hb3 & E3 & G3).
  cbn. intros Heq. injection Heq as _ <-. exists b3. split; [done|]. split; [intros a k; by rewrite E3, E2, E1|].
  intros g. rewrite G3, G2, G1. by destruct g.
Qed.

(** C23: at the end of a bring-up the anti-spoof guard enforces only over the
    seeded bindings.  The seed always answers; when the guards are then set,
    every guard has the requested mode, except that the raw guard enforces
    exactly when it was asked to and the seed succeeded, and then the kernel's
    binding sets hold exactly the binding table. *)
Theorem bring_up_enforces_only_over_bindings c v1 store local protected path t file now requested now' (kernel : B) :
  table_wf t →
  ∃ seeded t' m1 b1,
    startup_seed protected path t file now (build_manager c v1 store kernel local) = (Ok seeded, t', m1) ∧ m_sets m1 = Some b1 ∧
    ∀ events m2, set_guards requested seeded now' (build_manager c v1 store b1 local) = (Ok events, m2) →
      ∃ b2, m_sets m2 = Some b2 ∧
        (∀ g, g ≠ RAW → kv_guard (sb_view b2) g = Some (requested g)) ∧
        (kv_guard (sb_view b2) RAW = Some ENFORCE ↔ requested RAW = ENFORCE ∧ seeded = true) ∧
        (kv_guard (sb_view b2) RAW = Some ENFORCE → mirrors (sb_view b2) (snapshot t')).
Proof.
  intros Hwf. set (m := build_manager c v1 store kernel local).
  destruct (seed_reports_truthfully file now (new_lease_sync protected path t m) kernel Hwf eq_refl) as (r & s' & b' & Hseed & Hb' & _ & Htrue & _).
  unfold startup_seed. fold m. rewrite Hseed. pose proof (sync_allowlist_exact (ls_manager s') b' Hb') as Hsync.
  destruct (sync_allowlist (ls_manager s')) as [rs m1]. destruct Hsync as (b1 & Hb1 & Hrs).
  assert (Hmirror : r = true → mirrors (sb_view b1) (snapshot (ls_table s'))).
  { intros Hr. specialize (Htrue Hr). intros f tb set k Hin. rewrite <- (Htrue f tb set k Hin). destruct rs as [n|e].
    - destruct Hrs as (_ & Hother & _). rewrite Hother; [done|]. intros Hx. revert Hin Hx. clear. unfold binding_addresses, allow_addresses. set_unfold. naive_solver.
    - destruct Hrs as [(_ & He & _) _]. by rewrite He. }
  exists r, (ls_table s'), m1, b1. split; [destruct rs as [n|e]; [done|]; by destruct Hrs as [_ [msg ->]]|]. split; [done|].
  intros events m2 Hset. destruct (set_guards_view requested r now' (build_manager c v1 store b1 local) b1 events m2 eq_refl Hset) as (b2 & Hb2 & He & Hg).
  exists b2. split; [done|]. split; [intros g Hne; rewrite Hg; by destruct g|]. assert (Hraw : kv_guard (sb_view b2) RAW = Some ENFORCE ↔ requested RAW = ENFORCE ∧ r = true).
  { rewrite Hg. cbn. unfold effective_raw_mode. destruct (requested RAW), r; naive_solver. }
  split; [done|]. intros Hx. apply Hraw in Hx as [_ Hr]. intros f tb set k Hin. rewrite He. by apply Hmirror.
Qed.
End Steps.
