(* ===== verification/Config.v ===== *)
(** * Configuration (config/models.py, config/loader.py)

    From a parsed TOML document to the validated tree: every section with its
    fields, defaults, constraints and model validators, and the loader.  What
    Pydantic does to one value (its conversions, and its reading of a bound
    on a float) is a parameter with the documented meaning as law; a section
    with a field it does not know is refused, as [extra="forbid"] says.  The
    theorem at the end is what the rest of this development assumes of a
    configuration. *)

From S2P Require Import Prelude Float Net Models Bindings Throttle PortalStore PortalService Flow Thresholds D1 Behavior Threat Inference Coordinator Fallback Rpc Watch Templates HostAddrs.
Local Open Scope Z_scope.

(** ** Documents and conversions *)

Inductive toml : Type :=
| TStr (s : string)
| TInt (n : Z)
| TFloat (x : float)
| TBool (b : bool)
| TDate (text : string)
| TArr (l : list toml)
| TTab (l : list (string * toml)).
Definition table : Type := list (string * toml).

Record pydantic : Type := mk_pydantic {
  py_str : toml → option string;
  py_int : toml → option Z;
  py_float : toml → option float;
  py_bool : toml → option bool;
  py_ipv4 : toml → option IPv4.t;
  py_network : toml → option IPv4.network;
  py_datetime : toml → option Z;         (** [AwareDatetime] *)
  py_ge : float → float → bool;          (** the bounds on a float *)
  py_gt : float → float → bool;
  py_le : float → float → bool;
  py_len : string → Z;                   (** [len] of a text *)
  py_uuid4 : nat → string;               (** [uuid4()], the n-th one *)
}.
Class PydanticLaws (py : pydantic) : Prop := {
  ipv4_law : ∀ v a, py_ipv4 py v = Some a → IPv4.valid a;
  network_law : ∀ v n, py_network py v = Some n → IPv4.wf n;
  ge_law : ∀ x b, py_ge py x b = true → fle b x = true;
  gt_law : ∀ x b, py_gt py x b = true → flt b x = true;
  le_law : ∀ x b, py_le py x b = true → fle x b = true;
}.

(** ** The sections *)

Record NetworkConfig : Type := mk_network_config {
  nc_wan_interface : string;
  nc_lan_interface : string;
  nc_protected_network : IPv4.network;
  nc_upstream_gateway : IPv4.t;
  nc_pirewall_lan_ip : IPv4.t;
  nc_admin_interface : option string;
}.
Record CaptureConfig : Type := mk_capture_config {
  cc_interface : string;
  cc_snap_len : Z;
  cc_promiscuous : bool;
  cc_buffer_size_bytes : Z;
  cc_backend : string;
  cc_replay_path : option string;
  cc_replay_speed : string;
  cc_ring_block_size_bytes : Z;
  cc_ring_block_count : Z;
  cc_ring_block_timeout_ms : Z;
  cc_native_max_flows_per_drain : Z;
  cc_native_max_new_flows_per_drain : Z;
  cc_native_max_panics_per_minute : Z;
}.
Record FlowConfig : Type := mk_flow_config {
  fc_active_timeout_seconds : Z;
  fc_inactive_timeout_seconds : Z;
  fc_max_flows : Z;
  fc_cleanup_interval_seconds : Z;
  fc_connection_start_max_tracked : Z;
}.
Record DetectionSettings : Type := mk_detection_settings {
  ds_known_attack_confidence_threshold : float;
  ds_anomaly_score_threshold : float;
  ds_behavior : DetectionConfig;
  ds_slow_connection_min_duration_seconds : float;
  ds_slow_connection_max_bytes_per_second : float;
  ds_slow_connection_max_idle_seconds : float;
  ds_known_tool_fingerprints_path : string;
  ds_anomaly_batch_size : Z;
  ds_anomaly_batch_max_wait_seconds : float;
  ds_source_assessment_cooldown_seconds : float;
}.
Record MLSettings : Type := mk_ml_settings { mls_models : MLConfig; mls_feature_schema_version : string }.
Record FirewallConfig : Type := mk_firewall_config {
  fw_enforcement_mode : EnforcementMode;
  fw_assisted_review_threshold : float;
  fw_max_adaptive_rules_per_window : Z;
  fw_rate_window_seconds : Z;
  fw_default_rule_ttl_seconds : Z;
  fw_max_active_rules : Z;
  fw_allowlist : list AllowlistEntry;
  fw_allowlist_store_path : string;
  fw_min_rule_prefix_length : Z;
  fw_rate_limit_per_second : Z;
}.
Record APISettings : Type := mk_api_settings {
  aps_host : string;
  aps_port : Z;
  aps_tls_cert_path : string;
  aps_tls_key_path : string;
  aps_cors_origins : list string;
  aps_history_size : Z;
  aps_rpc_socket_path : string;
  aps_rpc_timeout_seconds : float;
  aps_log_dir : string;
}.
Record AuthenticationSettings : Type := mk_authentication_settings {
  aus_admin_username : string;
  aus_admin_password_hash : string;
  aus_token_expiry_seconds : Z;
  aus_throttle : AuthenticationConfig;
}.
Record AdminConfig : Type := mk_admin_config {
  adm_admin_pc_ip : IPv4.t;
  adm_admin_pc_mac : option Mac.t;
  adm_allow_local_console : bool;
}.
Record LoggingConfig : Type := mk_logging_config {
  lg_level : string;
  lg_log_dir : string;
  lg_max_bytes : Z;
  lg_backup_count : Z;
}.
Record IntegrationConfig : Type := mk_integration_config {
  ig_wazuh_enabled : bool;
  ig_wazuh_host : option string;
  ig_wazuh_port : option Z;
  ig_netdata_enabled : bool;
  ig_netdata_host : option string;
  ig_netdata_port : option Z;
}.
Record PortalSettings : Type := mk_portal_settings {
  pts_network_name : string;
  pts_listen_host : IPv4.t;
  pts_listen_port : Z;
  pts_user_store_path : string;
  pts_log_dir : string;
  pts_rpc_socket_path : string;
  pts_rpc_socket_group : string;
  pts_rpc_timeout_seconds : float;
  pts_allow_demo_accounts : bool;
  pts_service : PortalConfig;
}.
Record SecurityConfig : Type := mk_security_config {
  sec_min_tls_version : string;
  sec_restrict_to_admin_pc : bool;
  sec_session_timeout_seconds : Z;
  sec_admin_server_address : option IPv4.t;
}.
Record FailureConfig : Type := mk_failure_config {
  fl_mode : FailureMode;
  fl_watchdog_sec : Z;
  fl_crash_loop_restart_count : Z;
  fl_crash_loop_window_seconds : Z;
}.
(** [an_lease_file_set]: ["lease_file" in model_fields_set] *)
Record AntispoofConfig : Type := mk_antispoof_config {
  an_lease_file : string;
  an_lease_file_set : bool;
  an_static : list StaticBindingEntry;
  an_grace_seconds : Z;
  an_poll_seconds : float;
}.
Record PolicySettings : Type := mk_policy_settings { pls_policy : PolicyConfig; pls_table_path : string }.
Record D1Settings : Type := mk_d1_settings {
  d1s_thresholds_path : string;
  d1s_detectors : D1Config;
  d1s_evaluation_cooldown_seconds : float;
  d1s_kernel_poll_interval_seconds : float;
  d1s_set_fill_warning_ratio : float;
}.
Inductive EnvTag := PI_LIVE | PI_SCRIPTED | SANDBOX | MOCK.
Record LabConfig : Type := mk_lab_config {
  lab_env_tag : EnvTag;
  lab_victim_netns : string;
  lab_victim_host_interface : string;
  lab_victim_network : IPv4.network;
}.

(** [PirewallConfig], the whole tree *)
Record Settings : Type := mk_settings {
  st_network : NetworkConfig;
  st_capture : CaptureConfig;
  st_flow : FlowConfig;
  st_features : string;             (** [features.schema_version] *)
  st_detection : DetectionSettings;
  st_ml : MLSettings;
  st_threat : ThreatConfig;
  st_firewall : FirewallConfig;
  st_api : APISettings;
  st_authentication : AuthenticationSettings;
  st_admin : AdminConfig;
  st_portal : PortalSettings;
  st_logging : LoggingConfig;
  st_integration : IntegrationConfig;
  st_security : SecurityConfig;
  st_failure : FailureConfig;
  st_pipeline : PipelineEngine;     (** [pipeline.engine] *)
  st_guards : GuardsConfig;
  st_antispoof : AntispoofConfig;
  st_policy : PolicySettings;
  st_d1 : D1Settings;
  st_lab : LabConfig;
}.

(** ** Reading a field *)

(** A constraint on what a value converts to *)
Definition checked {A} (read : toml → option A) (p : A → bool) (v : toml) : option A :=
  a ← read v; if p a then Some a else None.
(** A field: its value converted, or its default; [None] where Pydantic
    reports an error *)
Definition field {A} (read : toml → option A) (d : option A) (t : table) (name : string) : option A :=
  match dget t name with Some v => read v | None => d end.
(** A field of type [... | None] with default [None] *)
Definition nullable {A} (read : toml → option A) (v : toml) : option (option A) := Some <$> read v.
Definition array {A} (read : toml → option A) (v : toml) : option (list A) := match v with TArr l => mapM read l | _ => None end.
Definition enum {A} (values : list (string * A)) (v : toml) : option A := match v with TStr s => dget values s | _ => None end.
Definition model {A} (validate : table → option A) (v : toml) : option A := match v with TTab t => validate t | _ => None end.
(** [extra="forbid"] *)
Definition only (names : list string) (t : table) : option unit := if forallb (λ k, inb k names) (dkeys t) then Some tt else None.

Definition EnforcementMode_values : list (string * EnforcementMode) := [("shadow", MODE_SHADOW); ("assisted", MODE_ASSISTED); ("active", MODE_ACTIVE)].
Definition FailureMode_values : list (string * FailureMode) := [("fail_open", FAIL_OPEN); ("fail_closed", FAIL_CLOSED)].
Definition PipelineEngine_values : list (string * PipelineEngine) := [("v1", ENGINE_V1); ("v2", ENGINE_V2)].
Definition GuardMode_values : list (string * GuardMode) := [("observe", OBSERVE); ("enforce", ENFORCE)].
Definition EnvTag_values : list (string * EnvTag) := [("pi-live", PI_LIVE); ("pi-scripted", PI_SCRIPTED); ("sandbox", SANDBOX); ("mock", MOCK)].
Definition Protocol_values : list (string * Protocol) := [("tcp", TCP); ("udp", UDP); ("icmp", ICMP); ("icmpv6", ICMPV6); ("other", OTHER); ("any", ANY)].
Definition BehaviorPatternType_values : list (string * BehaviorPatternType) :=
  [("repeated_connections", REPEATED_CONNECTIONS); ("high_frequency", HIGH_FREQUENCY); ("burst", BURST); ("persistence", PERSISTENCE);
   ("destination_diversity", DESTINATION_DIVERSITY); ("repeated_failures", REPEATED_FAILURES); ("temporal_pattern", TEMPORAL_PATTERN);
   ("scanning", SCANNING); ("slow_rate_dos", P_SLOW_RATE_DOS); ("flood", FLOOD)].

(** [^(max|realtime|[0-9]+(\.[0-9]+)?x)$] *)
Definition digit_char (c : ascii) : bool := let n := Z.of_nat (nat_of_ascii c) in (48 <=? n) && (n <=? 57).
Fixpoint digits_then (k : list ascii → bool) (l : list ascii) : bool :=
  match l with c :: l' => digit_char c && (k l' || digits_then k l') | [] => false end.
Definition only_x (l : list ascii) : bool := bool_decide (l = ["x"%char]).
Definition speed_pattern (s : string) : bool :=
  inb s ["max"; "realtime"] ||
  digits_then (λ l, only_x l || match l with "."%char :: l' => digits_then only_x l' | _ => false end) (string_to_list s).

Definition lease_file_for (lan_interface : string) : string := "/var/lib/NetworkManager/dnsmasq-" +:+ lan_interface +:+ ".leases".

Section Validate.
Context (py : pydantic).

Definition some_text : toml → option string := checked (py_str py) (λ s, negb (bool_decide (s = ""))).
Definition int_gt (b : Z) : toml → option Z := checked (py_int py) (λ n, b <? n).
Definition int_ge (b : Z) : toml → option Z := checked (py_int py) (λ n, b <=? n).
Definition int_range (lo hi : Z) : toml → option Z := checked (py_int py) (λ n, (lo <=? n) && (n <=? hi)).
Definition float_gt (b : float) : toml → option float := checked (py_float py) (λ x, py_gt py x b).
Definition float_ge (b : float) : toml → option float := checked (py_float py) (λ x, py_ge py x b).
Definition float_range (lo hi : float) : toml → option float := checked (py_float py) (λ x, py_ge py x lo && py_le py x hi).
Definition float_over (lo hi : float) : toml → option float := checked (py_float py) (λ x, py_gt py x lo && py_le py x hi).
(** [UnicastMacAddress] *)
Definition mac_identity (v : toml) : option Mac.t := match v with TStr s => Mac.validate_unicast s | _ => None end.

Definition NetworkConfig_validate (t : table) : option NetworkConfig :=
  _ ← only ["wan_interface"; "lan_interface"; "protected_network"; "upstream_gateway"; "pirewall_lan_ip"; "admin_interface"] t;
  wan ← field some_text None t "wan_interface";
  lan ← field some_text None t "lan_interface";
  protected ← field (py_network py) None t "protected_network";
  gateway ← field (py_ipv4 py) None t "upstream_gateway";
  own ← field (py_ipv4 py) None t "pirewall_lan_ip";
  admin ← field (nullable some_text) (Some None) t "admin_interface";
  Some (mk_network_config wan lan protected gateway own admin).

Definition CaptureConfig_check (c : CaptureConfig) : bool :=
  negb (bool_decide (cc_backend c = "replay") && match cc_replay_path c with None => true | Some _ => false end).
Definition CaptureConfig_validate (t : table) : option CaptureConfig :=
  _ ← only ["interface"; "snap_len"; "promiscuous"; "buffer_size_bytes"; "backend"; "replay_path"; "replay_speed"; "ring_block_size_bytes";
            "ring_block_count"; "ring_block_timeout_ms"; "native_max_flows_per_drain"; "native_max_new_flows_per_drain";
            "native_max_panics_per_minute"] t;
  interface ← field some_text None t "interface";
  snap_len ← field (int_gt 0) (Some 65535) t "snap_len";
  promiscuous ← field (py_bool py) (Some true) t "promiscuous";
  buffer ← field (int_gt 0) (Some (2 * 1024 * 1024)) t "buffer_size_bytes";
  backend ← field (enum [("auto", "auto"); ("native", "native"); ("python", "python"); ("replay", "replay")]) (Some "auto") t "backend";
  path ← field (nullable some_text) (Some None) t "replay_path";
  speed ← field (checked (py_str py) speed_pattern) (Some "max") t "replay_speed";
  block_size ← field (int_gt 0) (Some (1024 * 1024)) t "ring_block_size_bytes";
  block_count ← field (int_gt 0) (Some 16) t "ring_block_count";
  block_timeout ← field (int_gt 0) (Some 50) t "ring_block_timeout_ms";
  flows ← field (int_gt 0) (Some 1000) t "native_max_flows_per_drain";
  new_flows ← field (int_gt 0) (Some 5000) t "native_max_new_flows_per_drain";
  panics ← field (int_gt 0) (Some 5) t "native_max_panics_per_minute";
  let c := mk_capture_config interface snap_len promiscuous buffer backend path speed block_size block_count block_timeout flows new_flows panics in
  if CaptureConfig_check c then Some c else None.

Definition FlowConfig_validate (t : table) : option FlowConfig :=
  _ ← only ["active_timeout_seconds"; "inactive_timeout_seconds"; "max_flows"; "cleanup_interval_seconds"; "connection_start_max_tracked"] t;
  active ← field (int_gt 0) (Some 120) t "active_timeout_seconds";
  inactive ← field (int_gt 0) (Some 60) t "inactive_timeout_seconds";
  max_flows ← field (int_gt 0) (Some 100000) t "max_flows";
  cleanup ← field (int_gt 0) (Some 30) t "cleanup_interval_seconds";
  tracked ← field (int_gt 0) (Some 100000) t "connection_start_max_tracked";
  Some (mk_flow_config active inactive max_flows cleanup tracked).

Definition FeaturesConfig_validate (t : table) : option string :=
  _ ← only ["schema_version"] t; field some_text (Some "2.0.0") t "schema_version".

Definition DetectionConfig_names : list string :=
  ["known_attack_confidence_threshold"; "anomaly_score_threshold"; "behavior_window_seconds"; "max_tracked_sources";
   "max_tracked_destinations_per_source"; "max_tracked_ports_per_source"; "max_tracked_connections_per_source"; "recent_connections_window";
   "repeated_connections_threshold"; "high_frequency_per_second_threshold"; "burst_window_seconds"; "burst_count_threshold";
   "persistence_seconds_threshold"; "destination_diversity_threshold"; "scanning_port_threshold"; "repeated_failures_threshold";
   "temporal_pattern_cv_threshold"; "flood_connections_per_second_threshold"; "slow_connection_min_duration_seconds";
   "slow_connection_max_bytes_per_second"; "concurrent_slow_connections_threshold"; "slow_connection_max_idle_seconds";
   "known_tool_fingerprints_path"; "anomaly_batch_size"; "anomaly_batch_max_wait_seconds"; "source_assessment_cooldown_seconds"].
(** The fields the behaviour analyzer reads *)
Definition behavior_fields (t : table) : option DetectionConfig :=
  window ← field (int_gt 0) (Some 300) t "behavior_window_seconds";
  sources ← field (int_gt 0) (Some 10000) t "max_tracked_sources";
  destinations ← field (int_gt 0) (Some 200) t "max_tracked_destinations_per_source";
  ports ← field (int_gt 0) (Some 200) t "max_tracked_ports_per_source";
  connections ← field (int_gt 0) (Some 2000) t "max_tracked_connections_per_source";
  recent ← field (int_gt 0) (Some 50) t "recent_connections_window";
  repeated ← field (int_gt 0) (Some 20) t "repeated_connections_threshold";
  frequency ← field (float_gt f0) (Some (float_of_Z 2)) t "high_frequency_per_second_threshold";
  burst ← field (float_gt f0) (Some (float_of_Z 5)) t "burst_window_seconds";
  burst_count ← field (int_gt 0) (Some 10) t "burst_count_threshold";
  persistence ← field (float_gt f0) (Some (float_of_Z 1800)) t "persistence_seconds_threshold";
  diversity ← field (int_gt 0) (Some 15) t "destination_diversity_threshold";
  scanning ← field (int_gt 0) (Some 10) t "scanning_port_threshold";
  failures ← field (int_gt 0) (Some 10) t "repeated_failures_threshold";
  cv ← field (float_gt f0) (Some (hundredths 15)) t "temporal_pattern_cv_threshold";
  flood ← field (float_gt f0) (Some (float_of_Z 100)) t "flood_connections_per_second_threshold";
  slow ← field (int_gt 0) (Some 8) t "concurrent_slow_connections_threshold";
  Some (mk_detection_config window sources destinations ports connections recent repeated frequency burst burst_count persistence diversity
          scanning failures cv flood slow).
Definition DetectionConfig_validate (t : table) : option DetectionSettings :=
  _ ← only DetectionConfig_names t;
  known ← field (float_range f0 (float_of_Z 1)) (Some (hundredths 80)) t "known_attack_confidence_threshold";
  anomaly ← field (py_float py) (Some f0) t "anomaly_score_threshold";
  behavior ← behavior_fields t;
  slow_duration ← field (float_gt f0) (Some (float_of_Z 15)) t "slow_connection_min_duration_seconds";
  slow_rate ← field (float_gt f0) (Some (float_of_Z 5)) t "slow_connection_max_bytes_per_second";
  slow_idle ← field (float_gt f0) (Some (float_of_Z 15)) t "slow_connection_max_idle_seconds";
  tools ← field some_text (Some "config/known_tool_fingerprints.toml") t "known_tool_fingerprints_path";
  batch ← field (int_gt 0) (Some 50) t "anomaly_batch_size";
  wait ← field (float_gt f0) (Some (hundredths 20)) t "anomaly_batch_max_wait_seconds";
  cooldown ← field (float_gt f0) (Some (float_of_Z 10)) t "source_assessment_cooldown_seconds";
  Some (mk_detection_settings known anomaly behavior slow_duration slow_rate slow_idle tools batch wait cooldown).

Definition MLConfig_validate (t : table) : option MLSettings :=
  _ ← only ["lightgbm_model_path"; "isolation_forest_model_path"; "feature_schema_version"; "v2_lightgbm_model_path";
            "v2_isolation_forest_model_path"; "v2_family_model_path"; "v2_feature_schema_version"] t;
  lightgbm ← field some_text None t "lightgbm_model_path";
  forest ← field some_text None t "isolation_forest_model_path";
  schema ← field some_text (Some "2.0.0") t "feature_schema_version";
  v2_lightgbm ← field (nullable (py_str py)) (Some None) t "v2_lightgbm_model_path";
  v2_forest ← field (nullable (py_str py)) (Some None) t "v2_isolation_forest_model_path";
  v2_family ← field (nullable (py_str py)) (Some None) t "v2_family_model_path";
  v2_schema ← field some_text (Some "3.0.0") t "v2_feature_schema_version";
  Some (mk_ml_settings (mk_ml_config lightgbm forest v2_lightgbm v2_forest v2_family v2_schema) schema).

(** [behavior_pattern_points] of a table of floats keyed by pattern *)
Definition points_table (v : toml) : option (list (BehaviorPatternType * float)) :=
  match v with
  | TTab t => mapM (λ kv, k ← dget BehaviorPatternType_values kv.1; x ← py_float py kv.2; Some (k, x)) t
  | _ => None
  end.
Definition default_pattern_points : list (BehaviorPatternType * float) :=
  [(SCANNING, float_of_Z 55); (REPEATED_FAILURES, float_of_Z 45); (P_SLOW_RATE_DOS, float_of_Z 45); (FLOOD, float_of_Z 80);
   (BURST, float_of_Z 10); (HIGH_FREQUENCY, float_of_Z 10); (REPEATED_CONNECTIONS, float_of_Z 5); (TEMPORAL_PATTERN, float_of_Z 10);
   (DESTINATION_DIVERSITY, float_of_Z 5); (PERSISTENCE, f0)].
(** [==] on lists of floats; [len(set(l)) == len(l)] *)
Definition list_feq (l l' : list float) : bool := bool_decide (length l = length l') && forallb (λ p, feq p.1 p.2) (zip l l').
Fixpoint all_distinct (l : list float) : bool :=
  match l with [] => true | x :: l => negb (existsb (feq x) l) && all_distinct l end.
Definition _check_ascending (c : ThreatConfig) : bool :=
  let thresholds := [tc_low_threshold c; tc_medium_threshold c; tc_high_threshold c; tc_critical_threshold c] in
  list_feq thresholds (py_sorted (λ x y, negb (flt y x)) thresholds) && all_distinct thresholds.
Definition _check_pattern_points (c : ThreatConfig) : bool :=
  forallb (λ p, inb p (dkeys (tc_behavior_pattern_points c))) (BehaviorPatternType_values.*2) &&
  negb (existsb (λ x, flt x f0 || flt (float_of_Z 100) x) (dvalues (tc_behavior_pattern_points c))).
Definition score : toml → option float := float_range (float_of_Z 0) (float_of_Z 100).
Definition ThreatConfig_validate (t : table) : option ThreatConfig :=
  _ ← only ["low_threshold"; "medium_threshold"; "high_threshold"; "critical_threshold"; "known_attack_weight"; "anomaly_weight"; "behavior_weight";
            "behavior_pattern_points"; "protocol_signature_weight"; "evidence_maturity_consistency_windows"; "max_tracked_maturity_sources";
            "ml_evidence_can_enforce"] t;
  low ← field score (Some (float_of_Z 25)) t "low_threshold";
  medium ← field score (Some (float_of_Z 50)) t "medium_threshold";
  high ← field score (Some (float_of_Z 75)) t "high_threshold";
  critical ← field score (Some (float_of_Z 90)) t "critical_threshold";
  known ← field score (Some (float_of_Z 60)) t "known_attack_weight";
  anomaly ← field score (Some (float_of_Z 15)) t "anomaly_weight";
  behavior ← field score (Some (float_of_Z 80)) t "behavior_weight";
  points ← field points_table (Some default_pattern_points) t "behavior_pattern_points";
  signature ← field score (Some (float_of_Z 75)) t "protocol_signature_weight";
  windows ← field (int_gt 0) (Some 3) t "evidence_maturity_consistency_windows";
  sources ← field (int_gt 0) (Some 10000) t "max_tracked_maturity_sources";
  ml ← field (py_bool py) (Some false) t "ml_evidence_can_enforce";
  let c := mk_threat_config low medium high critical known anomaly behavior points signature windows sources ml in
  if _check_ascending c && _check_pattern_points c then Some c else None.

(** [AllowlistEntry] (core/models/allowlist.py), the [i]-th of the list *)
Definition AllowlistEntry_validate (i : nat) (t : table) : option AllowlistEntry :=
  _ ← only ["id"; "target"; "port"; "protocol"; "reason"; "created_at"; "created_by"; "mac"] t;
  id ← field some_text (Some (py_uuid4 py i)) t "id";
  target ← field (py_network py) None t "target";
  port ← field (nullable (int_range 0 65535)) (Some None) t "port";
  protocol ← field (nullable (enum Protocol_values)) (Some None) t "protocol";
  reason ← field some_text None t "reason";
  created_at ← field (py_datetime py) None t "created_at";
  created_by ← field some_text None t "created_by";
  mac ← field (nullable mac_identity) (Some None) t "mac";
  let e := mk_allow id target port protocol reason created_at created_by mac in
  if allowlist_check e then Some e else None.
Definition allowlist_entries (v : toml) : option (list AllowlistEntry) :=
  match v with TArr l => mapM (λ p, model (AllowlistEntry_validate p.1) p.2) (imap pair l) | _ => None end.

Definition FirewallConfig_validate (t : table) : option FirewallConfig :=
  _ ← only ["enforcement_mode"; "assisted_review_threshold"; "max_adaptive_rules_per_window"; "rate_window_seconds"; "default_rule_ttl_seconds";
            "max_active_rules"; "allowlist"; "allowlist_store_path"; "min_rule_prefix_length"; "rate_limit_per_second"] t;
  mode ← field (enum EnforcementMode_values) (Some MODE_SHADOW) t "enforcement_mode";
  review ← field score (Some (float_of_Z 75)) t "assisted_review_threshold";
  rules ← field (int_gt 0) (Some 20) t "max_adaptive_rules_per_window";
  window ← field (int_gt 0) (Some 60) t "rate_window_seconds";
  ttl ← field (int_gt 0) (Some 3600) t "default_rule_ttl_seconds";
  active ← field (int_gt 0) (Some 500) t "max_active_rules";
  allowlist ← field allowlist_entries (Some []) t "allowlist";
  store ← field some_text (Some "/var/lib/pirewall/allowlist.json") t "allowlist_store_path";
  prefix ← field (int_range 0 32) (Some 24) t "min_rule_prefix_length";
  limit ← field (int_gt 0) (Some 10) t "rate_limit_per_second";
  Some (mk_firewall_config mode review rules window ttl active allowlist store prefix limit).

Definition port_number : toml → option Z := int_range 1 65535.
Definition APIConfig_validate (t : table) : option APISettings :=
  _ ← only ["host"; "port"; "tls_cert_path"; "tls_key_path"; "cors_origins"; "history_size"; "rpc_socket_path"; "rpc_timeout_seconds"; "log_dir"] t;
  host ← field some_text (Some "127.0.0.1") t "host";
  port ← field port_number (Some 8443) t "port";
  cert ← field some_text None t "tls_cert_path";
  key ← field some_text None t "tls_key_path";
  origins ← field (array (py_str py)) (Some []) t "cors_origins";
  history ← field (int_gt 0) (Some 500) t "history_size";
  socket ← field some_text (Some "/run/pirewall/core.sock") t "rpc_socket_path";
  timeout ← field (float_gt f0) (Some (float_of_Z 20)) t "rpc_timeout_seconds";
  log_dir ← field some_text (Some "/var/log/pirewall-api") t "log_dir";
  Some (mk_api_settings host port cert key origins history socket timeout log_dir).
Definition AuthenticationConfig_validate (t : table) : option AuthenticationSettings :=
  _ ← only ["admin_username"; "admin_password_hash"; "token_expiry_seconds"; "max_failed_logins_per_ip"; "max_failed_logins_global";
            "failed_login_window_seconds"] t;
  username ← field some_text None t "admin_username";
  hash ← field some_text None t "admin_password_hash";
  expiry ← field (int_gt 0) (Some 3600) t "token_expiry_seconds";
  per_ip ← field (int_gt 0) (Some 5) t "max_failed_logins_per_ip";
  global ← field (int_gt 0) (Some 20) t "max_failed_logins_global";
  window ← field (int_gt 0) (Some 300) t "failed_login_window_seconds";
  Some (mk_authentication_settings username hash expiry (mk_auth_config per_ip global window)).
Definition AdminConfig_validate (t : table) : option AdminConfig :=
  _ ← only ["admin_pc_ip"; "admin_pc_mac"; "allow_local_console"] t;
  ip ← field (py_ipv4 py) None t "admin_pc_ip";
  mac ← field (nullable mac_identity) (Some None) t "admin_pc_mac";
  console ← field (py_bool py) (Some false) t "allow_local_console";
  Some (mk_admin_config ip mac console).
Definition LoggingConfig_validate (t : table) : option LoggingConfig :=
  _ ← only ["level"; "log_dir"; "max_bytes"; "backup_count"] t;
  level ← field some_text (Some "INFO") t "level";
  log_dir ← field some_text (Some "/var/log/pirewall") t "log_dir";
  bytes ← field (int_gt 0) (Some (10 * 1024 * 1024)) t "max_bytes";
  backups ← field (int_ge 0) (Some 5) t "backup_count";
  Some (mk_logging_config level log_dir bytes backups).
Definition IntegrationConfig_validate (t : table) : option IntegrationConfig :=
  _ ← only ["wazuh_enabled"; "wazuh_host"; "wazuh_port"; "netdata_enabled"; "netdata_host"; "netdata_port"] t;
  wazuh ← field (py_bool py) (Some false) t "wazuh_enabled";
  wazuh_host ← field (nullable (py_str py)) (Some None) t "wazuh_host";
  wazuh_port ← field (nullable port_number) (Some None) t "wazuh_port";
  netdata ← field (py_bool py) (Some false) t "netdata_enabled";
  netdata_host ← field (nullable (py_str py)) (Some None) t "netdata_host";
  netdata_port ← field (nullable port_number) (Some None) t "netdata_port";
  Some (mk_integration_config wazuh wazuh_host wazuh_port netdata netdata_host netdata_port).

Definition PortalConfig_names : list string :=
  ["enabled"; "network_name"; "listen_host"; "listen_port"; "session_timeout_seconds"; "keepalive_interval_seconds"; "user_store_path"; "log_dir";
   "rpc_socket_path"; "rpc_socket_group"; "rpc_timeout_seconds"; "max_failed_logins_per_ip"; "failed_login_window_seconds";
   "max_failed_logins_per_account"; "max_failed_logins_global"; "max_sessions"; "allow_demo_accounts"; "contact_message"].
(** The fields the portal service reads *)
Definition service_fields (t : table) : option PortalConfig :=
  enabled ← field (py_bool py) (Some false) t "enabled";
  session ← field (int_gt 0) (Some 1800) t "session_timeout_seconds";
  keepalive ← field (int_gt 0) (Some 20) t "keepalive_interval_seconds";
  per_ip ← field (int_gt 0) (Some 5) t "max_failed_logins_per_ip";
  window ← field (int_gt 0) (Some 300) t "failed_login_window_seconds";
  per_account ← field (int_gt 0) (Some 10) t "max_failed_logins_per_account";
  global ← field (int_gt 0) (Some 50) t "max_failed_logins_global";
  sessions ← field (int_gt 0) (Some 512) t "max_sessions";
  contact ← field some_text (Some "Please contact your network administrator.") t "contact_message";
  Some (mk_portal_config enabled session keepalive per_ip window per_account global sessions contact).
Definition PortalConfig_validate (t : table) : option PortalSettings :=
  _ ← only PortalConfig_names t;
  name ← field (checked (py_str py) (λ s, negb (bool_decide (s = "")) && (py_len py s <=? 64))) (Some "pirewall-lan") t "network_name";
  host ← field (py_ipv4 py) (Some (IPv4.a_b_c_d 192 168 100 1)) t "listen_host";
  port ← field (int_range 1024 65535) (Some 8080) t "listen_port";
  users ← field some_text (Some "/var/lib/pirewall/portal_users.json") t "user_store_path";
  log_dir ← field some_text (Some "/var/log/pirewall-portal") t "log_dir";
  socket ← field some_text (Some "/run/pirewall-portal/portal.sock") t "rpc_socket_path";
  group ← field some_text (Some "pirewall-portal-ipc") t "rpc_socket_group";
  timeout ← field (float_gt f0) (Some (float_of_Z 20)) t "rpc_timeout_seconds";
  demo ← field (py_bool py) (Some false) t "allow_demo_accounts";
  service ← service_fields t;
  Some (mk_portal_settings name host port users log_dir socket group timeout demo service).
Definition SecurityConfig_validate (t : table) : option SecurityConfig :=
  _ ← only ["min_tls_version"; "restrict_to_admin_pc"; "session_timeout_seconds"; "admin_server_address"] t;
  tls ← field some_text (Some "TLSv1.3") t "min_tls_version";
  restricted ← field (py_bool py) (Some true) t "restrict_to_admin_pc";
  idle ← field (int_gt 0) (Some 1800) t "session_timeout_seconds";
  address ← field (nullable (py_ipv4 py)) (Some None) t "admin_server_address";
  Some (mk_security_config tls restricted idle address).
Definition FailureConfig_validate (t : table) : option FailureConfig :=
  _ ← only ["mode"; "watchdog_sec"; "crash_loop_restart_count"; "crash_loop_window_seconds"] t;
  mode ← field (enum FailureMode_values) (Some FAIL_OPEN) t "mode";
  watchdog ← field (int_gt 0) (Some 30) t "watchdog_sec";
  restarts ← field (int_gt 0) (Some 3) t "crash_loop_restart_count";
  window ← field (int_gt 0) (Some 300) t "crash_loop_window_seconds";
  Some (mk_failure_config mode watchdog restarts window).
Definition PipelineConfig_validate (t : table) : option PipelineEngine :=
  _ ← only ["engine"] t; field (enum PipelineEngine_values) (Some ENGINE_V1) t "engine".

Definition MeterSetting_validate (t : table) : option MeterSetting :=
  _ ← only ["rate"; "burst"] t;
  rate ← field (int_gt 0) None t "rate";
  burst ← field (int_gt 0) None t "burst";
  Some (mk_meter rate burst).
Definition meter_field (rate burst : Z) : table → string → option MeterSetting :=
  field (model MeterSetting_validate) (Some (mk_meter rate burst)).
Definition GuardsConfig_names : list string :=
  ["raw_mode"; "input_mode"; "forward_mode"; "dhcp_per_minute"; "unbound"; "syn"; "icmp"; "udp_local"; "local_pps"; "dns"; "closed_port"; "newconn";
   "newconn_dst"; "udp_fwd"; "global_unbound"; "global_syn"; "global_icmp"; "global_udp_local"; "global_newconn"; "portal_concurrency"; "ratelimit";
   "binding_set_size"; "meter_set_size"; "pair_meter_set_size"; "offender_set_size"; "adaptive_set_size"].
Definition GuardsConfig_validate (t : table) : option GuardsConfig :=
  _ ← only GuardsConfig_names t;
  raw ← field (enum GuardMode_values) (Some ENFORCE) t "raw_mode";
  input ← field (enum GuardMode_values) (Some ENFORCE) t "input_mode";
  forward ← field (enum GuardMode_values) (Some OBSERVE) t "forward_mode";
  dhcp ← meter_field 10 5 t "dhcp_per_minute";
  unbound ← meter_field 50 100 t "unbound";
  syn ← meter_field 200 400 t "syn";
  icmp ← meter_field 50 100 t "icmp";
  udp_local ← meter_field 500 1000 t "udp_local";
  local_pps ← meter_field 3000 6000 t "local_pps";
  dns ← meter_field 100 300 t "dns";
  closed ← meter_field 20 40 t "closed_port";
  newconn ← meter_field 100 200 t "newconn";
  newconn_dst ← meter_field 50 100 t "newconn_dst";
  udp_fwd ← meter_field 20000 40000 t "udp_fwd";
  g_unbound ← meter_field 500 1000 t "global_unbound";
  g_syn ← meter_field 2000 4000 t "global_syn";
  g_icmp ← meter_field 500 1000 t "global_icmp";
  g_udp ← meter_field 3000 6000 t "global_udp_local";
  g_newconn ← meter_field 1000 2000 t "global_newconn";
  portal ← field (int_gt 0) (Some 20) t "portal_concurrency";
  ratelimit ← meter_field 20 40 t "ratelimit";
  binding_size ← field (int_gt 0) (Some 1024) t "binding_set_size";
  meter_size ← field (int_gt 0) (Some 256) t "meter_set_size";
  pair_size ← field (int_gt 0) (Some 4096) t "pair_meter_set_size";
  offender_size ← field (int_gt 0) (Some 4096) t "offender_set_size";
  adaptive_size ← field (int_gt 0) (Some 4096) t "adaptive_set_size";
  Some (mk_guards raw input forward dhcp unbound syn icmp udp_local local_pps dns closed newconn newconn_dst udp_fwd g_unbound g_syn g_icmp g_udp
          g_newconn portal ratelimit binding_size meter_size pair_size offender_size adaptive_size).

Definition StaticBindingEntry_validate (t : table) : option StaticBindingEntry :=
  _ ← only ["ip"; "mac"; "reason"] t;
  ip ← field (py_ipv4 py) None t "ip";
  mac ← field mac_identity None t "mac";
  reason ← field some_text None t "reason";
  Some (mk_static ip mac reason).
(** [len(set(l)) != len(l)] *)
Definition has_duplicates {A} `{EqDecision A} (l : list A) : bool := negb (bool_decide (length (remove_dups l) = length l)).
Definition _check_static_unique (entries : list StaticBindingEntry) : bool :=
  negb (has_duplicates (sb_ip <$> entries) || has_duplicates (sb_mac <$> entries)).
Definition AntispoofConfig_validate (t : table) : option AntispoofConfig :=
  _ ← only ["lease_file"; "static"; "grace_seconds"; "poll_seconds"] t;
  lease_file ← field some_text (Some "/var/lib/NetworkManager/dnsmasq-wlan0.leases") t "lease_file";
  static ← field (array (model StaticBindingEntry_validate)) (Some []) t "static";
  grace ← field (int_ge 0) (Some 60) t "grace_seconds";
  poll ← field (float_gt f0) (Some (float_of_Z 2)) t "poll_seconds";
  if _check_static_unique static then Some (mk_antispoof_config lease_file (dmem t "lease_file") static grace poll) else None.

Definition _check_ttls_within_cap (c : PolicyConfig) : bool :=
  negb (pc_max_ttl_seconds c <? Z.max (pc_rate_limit_ttl_seconds c) (pc_block_ttl_seconds c)).
Definition PolicyConfig_validate (t : table) : option PolicySettings :=
  _ ← only ["rate_limit_ttl_seconds"; "block_ttl_seconds"; "escalation_ttl_multiplier"; "max_ttl_seconds"; "sustained_polls"; "table_path";
            "max_tracked_devices"; "max_evidence_ids_per_device"] t;
  limit ← field (int_gt 0) (Some 300) t "rate_limit_ttl_seconds";
  block ← field (int_gt 0) (Some 300) t "block_ttl_seconds";
  multiplier ← field (int_ge 1) (Some 2) t "escalation_ttl_multiplier";
  cap ← field (int_range 1 3600) (Some 3600) t "max_ttl_seconds";
  polls ← field (int_ge 2) (Some 2) t "sustained_polls";
  path ← field some_text (Some "pirewall/policy/table.toml") t "table_path";
  devices ← field (int_gt 0) (Some 4096) t "max_tracked_devices";
  ids ← field (int_gt 0) (Some 256) t "max_evidence_ids_per_device";
  let c := mk_policy_config limit block multiplier cap polls devices ids in
  if _check_ttls_within_cap c then Some (mk_policy_settings c path) else None.

Definition D1Config_names : list string :=
  ["thresholds_path"; "windows_seconds"; "max_tracked_macs"; "max_tracked_destinations"; "max_events_per_mac"; "max_tracked_accounts";
   "evaluation_cooldown_seconds"; "brute_force_ports"; "brute_force_max_duration_seconds"; "brute_force_size_tolerance";
   "failed_handshake_min_starts"; "kernel_poll_interval_seconds"; "set_fill_warning_ratio"; "max_known_macs"].
Definition _check_windows (windows : list Z) : bool :=
  inb 10 windows && inb 60 windows && negb (existsb (λ w, w <=? 0) windows).
(** The fields the detectors read *)
Definition detector_fields (t : table) : option D1Config :=
  windows ← field (array (py_int py)) (Some [10; 60]) t "windows_seconds";
  macs ← field (int_gt 0) (Some 4096) t "max_tracked_macs";
  destinations ← field (int_gt 0) (Some 4096) t "max_tracked_destinations";
  events ← field (int_gt 0) (Some 4096) t "max_events_per_mac";
  accounts ← field (int_gt 0) (Some 1024) t "max_tracked_accounts";
  ports ← field (array (py_int py)) (Some [22; 80; 443; 8080]) t "brute_force_ports";
  duration ← field (float_gt f0) (Some (float_of_Z 5)) t "brute_force_max_duration_seconds";
  tolerance ← field (float_over f0 (float_of_Z 1)) (Some (hundredths 25)) t "brute_force_size_tolerance";
  starts ← field (int_gt 0) (Some 10) t "failed_handshake_min_starts";
  known ← field (int_gt 0) (Some 16384) t "max_known_macs";
  Some (mk_d1_config windows macs destinations events accounts ports duration tolerance starts known).
Definition D1Config_validate (t : table) : option D1Settings :=
  _ ← only D1Config_names t;
  path ← field some_text (Some "config/d1_thresholds.toml") t "thresholds_path";
  detectors ← detector_fields t;
  cooldown ← field (float_ge f0) (Some (float_of_Z 1)) t "evaluation_cooldown_seconds";
  poll ← field (float_gt f0) (Some (float_of_Z 1)) t "kernel_poll_interval_seconds";
  fill ← field (float_over f0 (float_of_Z 1)) (Some (hundredths 80)) t "set_fill_warning_ratio";
  if _check_windows (d1c_windows_seconds detectors) then Some (mk_d1_settings path detectors cooldown poll fill) else None.

Definition LabConfig_validate (t : table) : option LabConfig :=
  _ ← only ["env_tag"; "victim_netns"; "victim_host_interface"; "victim_network"] t;
  tag ← field (enum EnvTag_values) (Some SANDBOX) t "env_tag";
  netns ← field some_text (Some "labvictim") t "victim_netns";
  interface ← field (checked (py_str py) (λ s, negb (bool_decide (s = "")) && (py_len py s <=? 15))) (Some "lab0") t "victim_host_interface";
  network ← field (py_network py) (Some (IPv4.mk_network (IPv4.a_b_c_d 10 250 0 0) 30)) t "victim_network";
  if IPv4.prefixlen network =? 30 then Some (mk_lab_config tag netns interface network) else None.

(** [_derive_lease_file] *)
Definition _derive_lease_file (s : Settings) : Settings :=
  let a := st_antispoof s in
  if an_lease_file_set a then s
  else mk_settings (st_network s) (st_capture s) (st_flow s) (st_features s) (st_detection s) (st_ml s) (st_threat s) (st_firewall s) (st_api s)
         (st_authentication s) (st_admin s) (st_portal s) (st_logging s) (st_integration s) (st_security s) (st_failure s) (st_pipeline s) (st_guards s)
         (mk_antispoof_config (lease_file_for (nc_lan_interface (st_network s))) true (an_static a) (an_grace_seconds a) (an_poll_seconds a))
         (st_policy s) (st_d1 s) (st_lab s).

(** A section that must be there, and one that may be left out: its default
    is what an empty table gives *)
Definition required {A} (validate : table → option A) : table → string → option A := field (model validate) None.
Definition defaulted {A} (validate : table → option A) : table → string → option A := field (model validate) (validate []).
Definition PirewallConfig_names : list string :=
  ["network"; "capture"; "flow"; "features"; "detection"; "ml"; "threat"; "firewall"; "api"; "authentication"; "admin"; "portal"; "logging";
   "integration"; "security"; "failure"; "pipeline"; "guards"; "antispoof"; "policy"; "d1"; "lab"].
Definition PirewallConfig_validate (t : table) : option Settings :=
  _ ← only PirewallConfig_names t;
  network ← required NetworkConfig_validate t "network";
  capture ← required CaptureConfig_validate t "capture";
  flow ← required FlowConfig_validate t "flow";
  features ← required FeaturesConfig_validate t "features";
  detection ← required DetectionConfig_validate t "detection";
  ml ← required MLConfig_validate t "ml";
  threat ← required ThreatConfig_validate t "threat";
  firewall ← required FirewallConfig_validate t "firewall";
  api ← required APIConfig_validate t "api";
  authentication ← required AuthenticationConfig_validate t "authentication";
  admin ← required AdminConfig_validate t "admin";
  portal ← defaulted PortalConfig_validate t "portal";
  logging ← required LoggingConfig_validate t "logging";
  integration ← required IntegrationConfig_validate t "integration";
  security ← required SecurityConfig_validate t "security";
  failure ← required FailureConfig_validate t "failure";
  pipeline ← defaulted PipelineConfig_validate t "pipeline";
  guards ← defaulted GuardsConfig_validate t "guards";
  antispoof ← defaulted AntispoofConfig_validate t "antispoof";
  policy ← defaulted PolicyConfig_validate t "policy";
  d1 ← defaulted D1Config_validate t "d1";
  lab ← defaulted LabConfig_validate t "lab";
  Some (_derive_lease_file (mk_settings network capture flow features detection ml threat firewall api authentication admin portal logging integration
          security failure pipeline guards antispoof policy d1 lab)).

(** [load_config] of what reading and parsing the file give: [OSError], the
    bytes are not UTF-8, they are not TOML, or a document *)
Inductive config_file := CUnreadable (msg : string) | CNotUtf8 (msg : string) | CMalformed (msg : string) | CDocument (t : table).
Definition load_config (path : string) (file : config_file) : result Settings :=
  match file with
  | CUnreadable msg => Raise (ConfigurationError ("could not read config file at " +:+ path +:+ ": " +:+ msg))
  | CMalformed msg => Raise (ConfigurationError ("malformed TOML in " +:+ path +:+ ": " +:+ msg))
  | CNotUtf8 msg => Raise (ConfigurationError ("config file " +:+ path +:+ " is not valid UTF-8: " +:+ msg))
  | CDocument t =>
      match PirewallConfig_validate t with
      | Some s => Ok s
      | None => Raise (ConfigurationError ("invalid configuration in " +:+ path))
      end
  end.
End Validate.

(** ** What the components read of it *)

Definition firewall_view (s : Settings) : PirewallConfig :=
  mk_config (nc_protected_network (st_network s)) (nc_upstream_gateway (st_network s)) (nc_pirewall_lan_ip (st_network s))
    (adm_admin_pc_ip (st_admin s)) (adm_admin_pc_mac (st_admin s)) (fw_enforcement_mode (st_firewall s)) (fw_assisted_review_threshold (st_firewall s))
    (fw_max_adaptive_rules_per_window (st_firewall s)) (fw_rate_window_seconds (st_firewall s)) (fw_min_rule_prefix_length (st_firewall s))
    (fw_allowlist (st_firewall s)) (an_grace_seconds (st_antispoof s)) (pls_policy (st_policy s)).
Definition template_view (s : Settings) : TemplateConfig :=
  mk_template_config (firewall_view s) (nc_wan_interface (st_network s)) (nc_lan_interface (st_network s)) (nc_admin_interface (st_network s))
    (aps_port (st_api s)) (pts_listen_port (st_portal s)) (st_guards s).
Definition drift_view (s : Settings) : DriftConfig :=
  let i := st_integration s in
  mk_drift_config (nc_wan_interface (st_network s)) (nc_lan_interface (st_network s)) (firewall_view s)
    (if ig_wazuh_enabled i then ig_wazuh_host i else None) (if ig_netdata_enabled i then ig_netdata_host i else None).
Definition portal_start_view (s : Settings) : PortalStartConfig :=
  mk_portal_start (pcf_enabled (pts_service (st_portal s))) (pts_allow_demo_accounts (st_portal s)) (fw_enforcement_mode (st_firewall s)).

(** ** Loaded configurations *)

Definition meter_wf (m : MeterSetting) : Prop := 0 < mt_rate m ∧ 0 < mt_burst m.
Definition guards_wf (g : GuardsConfig) : Prop :=
  Forall (λ v, meter_wf (v.1.1 g)) _METER_VARIABLES ∧
  Forall (λ n, 0 < n) [gc_portal_concurrency g; gc_binding_set_size g; gc_meter_set_size g; gc_pair_meter_set_size g; gc_offender_set_size g; gc_adaptive_set_size g].
Definition statics_wf (l : list StaticBindingEntry) : Prop :=
  NoDup (sb_ip <$> l) ∧ NoDup (sb_mac <$> l) ∧ Forall (λ e, IPv4.valid (sb_ip e) ∧ Mac.unicast (sb_mac e)) l.

Section Loaded.
Context (py : pydantic) {laws : PydanticLaws py}.

(** The constraint of a read, and of a field whose default meets it *)
Definition ensures {A} (read : toml → option A) (P : A → Prop) : Prop := ∀ v a, read v = Some a → P a.
Lemma field_ensures {A} (read : toml → option A) P d t n a :
  field read d t n = Some a → ensures read P → (∀ x, d = Some x → P x) → P a.
Proof. unfold field. intros H Hr Hd. destruct (dget t n); [by eapply Hr|by apply Hd]. Qed.
Lemma checked_ensures {A} (read : toml → option A) p : ensures (checked read p) (λ a, p a = true).
Proof. intros v a. unfold checked. destruct (read v) as [x|]; [|done]. cbn. destruct (p x) eqn:Hp; [|done]. by intros [= <-]. Qed.
Lemma optional_ensures {A} (read : toml → option A) P : ensures read P → ensures (nullable read) (λ o, ∀ a, o = Some a → P a).
Proof. intros Hr v o. unfold nullable. destruct (read v) as [x|] eqn:Hx; [|done]. intros [= <-] a [= <-]. by eapply Hr. Qed.
Lemma mapM_ensures {A B} (f : A → option B) P l r : (∀ a b, f a = Some b → P b) → mapM f l = Some r → Forall P r.
Proof. intros Hf H. apply mapM_Some in H. clear -Hf H. induction H; constructor; eauto. Qed.
Lemma array_ensures {A} (read : toml → option A) P : ensures read P → ensures (array read) (Forall P).
Proof. intros Hr [] a; try done. apply mapM_ensures, Hr. Qed.
Lemma model_ensures {A} (validate : table → option A) P : (∀ t a, validate t = Some a → P a) → ensures (model validate) P.
Proof. intros Hv [] a; try done. apply Hv. Qed.

Lemma int_gt_ensures b : ensures (int_gt py b) (λ n, b < n).
Proof. intros v n H. apply checked_ensures in H. lia. Qed.
Lemma int_ge_ensures b : ensures (int_ge py b) (λ n, b ≤ n).
Proof. intros v n H. apply checked_ensures in H. lia. Qed.
Lemma int_range_ensures lo hi : ensures (int_range py lo hi) (λ n, lo ≤ n ≤ hi).
Proof. intros v n H. apply checked_ensures in H. lia. Qed.
Lemma float_gt_ensures b : ensures (float_gt py b) (λ x, flt b x = true).
Proof. intros v n H. apply checked_ensures in H. by apply gt_law. Qed.
Lemma score_ensures : ensures (score py) score_range.
Proof. intros v n H. apply checked_ensures in H. apply andb_prop in H as [? ?]. split; [by apply ge_law|by apply le_law]. Qed.
Lemma ipv4_ensures : ensures (py_ipv4 py) IPv4.valid.
Proof. intros v a. apply ipv4_law. Qed.
Lemma network_ensures : ensures (py_network py) IPv4.wf.
Proof. intros v a. apply network_law. Qed.
Lemma unicast_ensures : ensures mac_identity Mac.unicast.
Proof. intros [] m; try done. apply Mac.validate_unicast_idempotent. Qed.

(** Turns a successful validation into what it read *)
Ltac fact H lemma := let K := fresh "K" in
  pose proof (field_ensures _ _ _ _ _ _ H lemma) as K; clear H; cbv beta in K;
  specialize (K ltac:(intros ? [= <-]; solve [lia | done | vm_compute; intuition congruence])).
Ltac facts :=
  repeat match goal with
  | H : field (int_gt _ ?b) _ _ _ = Some _ |- _ => fact H (int_gt_ensures b)
  | H : field (int_ge _ ?b) _ _ _ = Some _ |- _ => fact H (int_ge_ensures b)
  | H : field (int_range _ ?lo ?hi) _ _ _ = Some _ |- _ => fact H (int_range_ensures lo hi)
  | H : field (float_gt _ ?b) _ _ _ = Some _ |- _ => fact H (float_gt_ensures b)
  | H : field (score _) _ _ _ = Some _ |- _ => fact H score_ensures
  | H : field (py_ipv4 _) _ _ _ = Some _ |- _ => fact H ipv4_ensures
  | H : field (py_network _) _ _ _ = Some _ |- _ => fact H network_ensures
  | H : field mac_identity _ _ _ = Some _ |- _ => fact H unicast_ensures
  | H : field (nullable mac_identity) _ _ _ = Some _ |- _ => fact H (optional_ensures _ _ unicast_ensures)
  end.
Ltac inspect H := repeat (apply bind_Some in H as (? & ? & H)); facts.

Lemma behavior_fields_wf t c : behavior_fields py t = Some c → detection_config_wf c.
Proof. intros H. unfold behavior_fields in H. inspect H. injection H as <-. unfold detection_config_wf. cbn. tauto. Qed.
Lemma detector_fields_wf t c : detector_fields py t = Some c → _check_windows (d1c_windows_seconds c) = true → d1_config_wf c.
Proof.
  intros H Hw. unfold detector_fields in H. inspect H. injection H as <-. unfold d1_config_wf. cbn [d1c_windows_seconds] in *.
  unfold _check_windows in Hw. apply andb_prop in Hw as [Hw Hpos]. apply andb_prop in Hw as [H10 H60]. apply inb_true in H10, H60.
  cbn. repeat (split; [done|]). apply Forall_forall. intros w Hin. destruct (Z.ltb_spec 0 w) as [|Hle]; [done|]. exfalso.
  apply negb_true_iff in Hpos. rewrite <- not_true_iff_false in Hpos. apply Hpos, existsb_exists. exists w. split; [by apply list_elem_of_In|lia].
Qed.
Lemma service_fields_wf t c : service_fields py t = Some c → portal_config_wf c.
Proof. intros H. unfold service_fields in H. inspect H. injection H as <-. unfold portal_config_wf. cbn. tauto. Qed.
Lemma PolicyConfig_wf t c : PolicyConfig_validate py t = Some c → policy_config_wf (pls_policy c).
Proof.
  intros H. unfold PolicyConfig_validate in H. inspect H. cbv zeta in H. destruct (_check_ttls_within_cap _) eqn:Hc; [|done]. injection H as <-.
  unfold _check_ttls_within_cap in Hc. unfold policy_config_wf. cbn in *. lia.
Qed.
Lemma MeterSetting_wf t m : MeterSetting_validate py t = Some m → meter_wf m.
Proof. intros H. unfold MeterSetting_validate in H. inspect H. injection H as <-. done. Qed.
Lemma meter_field_wf rate burst t n m : meter_field py rate burst t n = Some m → 0 < rate → 0 < burst → meter_wf m.
Proof.
  intros H Hr Hb. apply (field_ensures _ meter_wf _ _ _ _ H); [apply model_ensures, MeterSetting_wf|]. intros x [= <-]. done.
Qed.
Lemma GuardsConfig_wf t g : GuardsConfig_validate py t = Some g → guards_wf g.
Proof.
  intros H. unfold GuardsConfig_validate in H. inspect H. injection H as <-.
  split; repeat constructor; cbn [fst snd]; try done; eapply meter_field_wf; try eassumption; lia.
Qed.
Lemma StaticBindingEntry_wf t e : StaticBindingEntry_validate py t = Some e → IPv4.valid (sb_ip e) ∧ Mac.unicast (sb_mac e).
Proof. intros H. unfold StaticBindingEntry_validate in H. inspect H. injection H as <-. done. Qed.
Lemma remove_dups_length {A} `{EqDecision A} (l : list A) : (length (remove_dups l) ≤ length l)%nat.
Proof. induction l as [|x l IH]; cbn; [lia|]. case_decide; cbn; lia. Qed.
Lemma no_duplicates {A} `{EqDecision A} (l : list A) : has_duplicates l = false → NoDup l.
Proof.
  unfold has_duplicates. intros H. apply negb_false_iff, bool_decide_eq_true in H. revert H.
  induction l as [|x l IH]; [constructor|]. cbn. pose proof (remove_dups_length l). case_decide; cbn; [lia|]. intros H'.
  constructor; [done|apply IH; lia].
Qed.
Lemma AntispoofConfig_wf t c : AntispoofConfig_validate py t = Some c → 0 ≤ an_grace_seconds c ∧ statics_wf (an_static c).
Proof.
  intros H. unfold AntispoofConfig_validate in H. inspect H. destruct (_check_static_unique _) eqn:Hu; [|done]. injection H as <-.
  unfold _check_static_unique in Hu. apply negb_true_iff, orb_false_iff in Hu as [Hi Hm]. cbn. split; [done|].
  split; [by apply no_duplicates|]. split; [by apply no_duplicates|]. 
  eapply field_ensures; [eassumption|apply array_ensures, model_ensures, StaticBindingEntry_wf|]. intros ? [= <-]. constructor.
Qed.

(** Thresholds that equal their sorted list and are distinct ascend. *)
Lemma feq_fle x y : feq x y = true → fle x y = true ∧ fle y x = true.
Proof.
  unfold feq, fle, SFeqb, SFleb. pose proof (fcompare_swap x y) as Hs. destruct (SFcompare x y) as [[]|]; try done. cbn in Hs. by rewrite Hs.
Qed.
Lemma fle_cases x y : fle x y = true → flt x y = false → feq x y = true.
Proof. unfold fle, flt, feq, SFleb, SFltb, SFeqb. by destruct (SFcompare x y) as [[]|]. Qed.
Lemma feq_sorted l s : Forall2 (λ x y, feq x y = true) l s → StronglySorted (λ x y, negb (flt y x) = true) s →
  StronglySorted (λ x y, fle x y = true) l.
Proof.
  intros Hall. induction Hall as [|x y l s Hxy Hall IH]; intros Hs; [constructor|]. apply StronglySorted_inv in Hs as [Hs Hy].
  constructor; [by apply IH|]. apply Forall_forall. intros z Hz. apply list_elem_of_lookup in Hz as [i Hi].
  destruct (Forall2_lookup_l _ _ _ _ _ Hall Hi) as (w & Hw & Hzw). rewrite Forall_forall in Hy. specialize (Hy w (list_elem_of_lookup_2 _ _ _ Hw)).
  apply feq_fle in Hxy as [Hxy Hyx], Hzw as [Hzw Hwz]. apply negb_true_iff in Hy.
  apply (fle_trans _ y); [done|]. apply (fle_trans _ w); [|done]. apply flt_false; [by eapply fle_not_nan|by eapply fle_not_nan|done].
Qed.
Lemma distinct_ascend l : StronglySorted (λ x y, fle x y = true) l → all_distinct l = true → StronglySorted (λ x y, flt x y = true) l.
Proof.
  induction l as [|x l IH]; intros Hs Hd; [constructor|]. apply StronglySorted_inv in Hs as [Hs Hx]. cbn in Hd.
  apply andb_prop in Hd as [Hn Hd]. constructor; [by apply IH|]. rewrite Forall_forall in *. intros z Hz. specialize (Hx z Hz).
  destruct (flt x z) eqn:Hlt; [done|]. exfalso. apply negb_true_iff in Hn. rewrite <- not_true_iff_false in Hn. apply Hn, existsb_exists.
  exists z. split; [by apply list_elem_of_In|]. by apply fle_cases.
Qed.
Lemma list_feq_pairs l s : list_feq l s = true → Forall2 (λ x y, feq x y = true) l s.
Proof.
  unfold list_feq. intros H. apply andb_prop in H as [Hl Hz]. apply bool_decide_eq_true in Hl. revert s Hl Hz.
  induction l as [|x l IH]; intros [|y s] Hl Hz; try done. cbn in Hl, Hz. apply andb_prop in Hz as [Hxy Hz].
  constructor; [done|]. apply IH; [lia|done].
Qed.
Lemma sorted_floats l : Forall (λ x, is_nan x = false) l →
  StronglySorted (λ x y, negb (flt y x) = true) (py_sorted (λ x y, negb (flt y x)) l).
Proof.
  apply (py_sorted_sorted (λ x y, negb (flt y x)) (λ x, is_nan x = false)).
  - intros x y _ _ H. apply negb_false_iff in H. apply negb_true_iff. by apply fle_not_flt, flt_fle.
  - intros x y z Hx Hy Hz Hxy Hyz. apply negb_true_iff in Hxy, Hyz. apply negb_true_iff, fle_not_flt.
    apply (fle_trans _ y); by apply flt_false.
Qed.
Lemma score_not_nan x : score_range x → is_nan x = false.
Proof. intros [H _]. apply fle_not_nan in H. tauto. Qed.
Lemma ascending a b c d : score_range a → score_range b → score_range c → score_range d →
  list_feq [a; b; c; d] (py_sorted (λ x y, negb (flt y x)) [a; b; c; d]) && all_distinct [a; b; c; d] = true →
  flt a b = true ∧ flt b c = true ∧ flt c d = true.
Proof.
  intros Ha Hb Hc Hd H. apply andb_prop in H as [Hs Hdis]. apply list_feq_pairs in Hs.
  assert (Hsorted : StronglySorted (λ x y, flt x y = true) [a; b; c; d]).
  { apply distinct_ascend; [|done]. apply (feq_sorted _ _ Hs), sorted_floats. repeat constructor; by apply score_not_nan. }
  apply StronglySorted_inv in Hsorted as [Hsorted H1]. apply StronglySorted_inv in Hsorted as [Hsorted H2].
  apply StronglySorted_inv in Hsorted as [_ H3]. apply Forall_inv in H1, H2, H3. done.
Qed.
Lemma ThreatConfig_wf t c : ThreatConfig_validate py t = Some c → threat_config_wf c ∧ _check_pattern_points c = true.
Proof.
  intros H. unfold ThreatConfig_validate in H. inspect H. cbv zeta in H. destruct (_check_ascending _) eqn:Ha; [|done].
  destruct (_check_pattern_points _) eqn:Hp; [|done]. injection H as <-. unfold _check_ascending in Ha. cbv zeta in Ha. split; [|done].
  cbn in Ha |- *. apply ascending in Ha as (H1 & H2 & H3); [|done..]. unfold threat_config_wf. cbn. tauto.
Qed.

Lemma AllowlistEntry_wf i t e : AllowlistEntry_validate py i t = Some e → allow_wf e.
Proof.
  intros H. unfold AllowlistEntry_validate in H. inspect H. cbv zeta in H. destruct (allowlist_check _) eqn:Hc; [|done]. injection H as <-. done.
Qed.
Lemma FirewallConfig_wf t c : FirewallConfig_validate py t = Some c →
  0 < fw_max_adaptive_rules_per_window c ∧ 0 < fw_rate_window_seconds c ∧ 0 ≤ fw_min_rule_prefix_length c ≤ 32 ∧
  score_range (fw_assisted_review_threshold c) ∧ Forall allow_wf (fw_allowlist c).
Proof.
  intros H. unfold FirewallConfig_validate in H. inspect H. injection H as <-. cbn. repeat (split; [done|]).
  match goal with Hf : field (allowlist_entries _) _ _ _ = _ |- _ => apply (field_ensures _ (Forall allow_wf) _ _ _ _ Hf) end; [|intros ? [= <-]; constructor].
  intros [] found; try done. apply mapM_ensures. intros [i v] e He. apply (model_ensures _ _ (AllowlistEntry_wf i) _ _ He).
Qed.
Lemma NetworkConfig_wf t c : NetworkConfig_validate py t = Some c →
  IPv4.wf (nc_protected_network c) ∧ IPv4.valid (nc_upstream_gateway c) ∧ IPv4.valid (nc_pirewall_lan_ip c).
Proof. intros H. unfold NetworkConfig_validate in H. inspect H. injection H as <-. done. Qed.
Lemma AdminConfig_wf t c : AdminConfig_validate py t = Some c → IPv4.valid (adm_admin_pc_ip c) ∧ ∀ m, adm_admin_pc_mac c = Some m → Mac.unicast m.
Proof. intros H. unfold AdminConfig_validate in H. inspect H. injection H as <-. done. Qed.

(** What a loaded configuration guarantees the components *)
Record loaded_ok (s : Settings) : Prop := {
  lo_firewall : config_wf (firewall_view s);
  lo_admin_mac : ∀ m, c_admin_pc_mac (firewall_view s) = Some m → Mac.unicast m;
  lo_detection : detection_config_wf (ds_behavior (st_detection s));
  lo_threat : threat_config_wf (st_threat s);
  lo_points : ∀ p, is_Some (dget (tc_behavior_pattern_points (st_threat s)) p);
  lo_d1 : d1_config_wf (d1s_detectors (st_d1 s));
  lo_portal : portal_config_wf (pts_service (st_portal s));
  lo_guards : guards_wf (st_guards s);
  lo_statics : statics_wf (an_static (st_antispoof s));
}.

Lemma section_ok {A} (validate : table → option A) (P : A → Prop) d t n a :
  field (model validate) d t n = Some a → (d = None ∨ d = validate []) → (∀ t a, validate t = Some a → P a) → P a.
Proof.
  intros H Hd Hv. apply (field_ensures _ P _ _ _ _ H); [by apply model_ensures|]. intros x Hx. destruct Hd as [->| ->]; [done|by eapply Hv].
Qed.
Lemma pattern_priced c p : _check_pattern_points c = true → is_Some (dget (tc_behavior_pattern_points c) p).
Proof.
  unfold _check_pattern_points. intros H. apply andb_prop in H as [H _]. rewrite forallb_forall in H. specialize (H p).
  assert (Hin : In p (BehaviorPatternType_values.*2)) by (destruct p; cbn; tauto). specialize (H Hin). apply inb_true in H. by apply dget_is_Some.
Qed.

(** Fields without a default are in the document. *)
Lemma field_present {A} (read : toml → option A) t n a : field read None t n = Some a → is_Some (dget t n).
Proof. unfold field. by destruct (dget t n). Qed.
Lemma section_present {A} (validate : table → option A) t n a : field (model validate) None t n = Some a →
  ∃ tab, dget t n = Some (TTab tab) ∧ validate tab = Some a.
Proof. unfold field. destruct (dget t n) as [[]|]; try done. cbn. by eexists. Qed.
Lemma only_names names t : only names t = Some tt → ∀ k, k ∈ dkeys t → k ∈ names.
Proof.
  unfold only. destruct (forallb _ _) eqn:H; [|done]. intros _ k Hk. rewrite forallb_forall in H. apply inb_true, H. by apply list_elem_of_In.
Qed.
Definition required_fields : list (string * list string) :=
  [("network", ["wan_interface"; "lan_interface"; "protected_network"; "upstream_gateway"; "pirewall_lan_ip"]); ("capture", ["interface"]); ("flow", []);
   ("features", []); ("detection", []); ("ml", ["lightgbm_model_path"; "isolation_forest_model_path"]); ("threat", []); ("firewall", []);
   ("api", ["tls_cert_path"; "tls_key_path"]); ("authentication", ["admin_username"; "admin_password_hash"]); ("admin", ["admin_pc_ip"]);
   ("logging", []); ("integration", []); ("security", []); ("failure", [])].
Definition complete_document (t : table) : Prop :=
  (∀ k, k ∈ dkeys t → k ∈ PirewallConfig_names) ∧
  Forall (λ sec, ∃ tab, dget t sec.1 = Some (TTab tab) ∧ Forall (λ key, is_Some (dget tab key)) sec.2) required_fields.
Lemma holds_fields {A} (validate : table → option A) keys t n a : field (model validate) None t n = Some a →
  (∀ tab a, validate tab = Some a → Forall (λ key, is_Some (dget tab key)) keys) →
  ∃ tab, dget t n = Some (TTab tab) ∧ Forall (λ key, is_Some (dget tab key)) keys.
Proof. intros H Hv. destruct (section_present _ _ _ _ H) as (tab & Ht & Ha). exists tab. split; [done|by eapply Hv]. Qed.

Ltac read_present := intros tab a H; repeat constructor; repeat (apply bind_Some in H as (? & ? & H)); eapply field_present; eassumption.
Lemma network_present tab a : NetworkConfig_validate py tab = Some a →
  Forall (λ key, is_Some (dget tab key)) ["wan_interface"; "lan_interface"; "protected_network"; "upstream_gateway"; "pirewall_lan_ip"].
Proof. revert tab a. unfold NetworkConfig_validate. read_present. Qed.
Lemma capture_present tab a : CaptureConfig_validate py tab = Some a → Forall (λ key, is_Some (dget tab key)) ["interface"].
Proof. revert tab a. unfold CaptureConfig_validate. read_present. Qed.
Lemma ml_present tab a : MLConfig_validate py tab = Some a → Forall (λ key, is_Some (dget tab key)) ["lightgbm_model_path"; "isolation_forest_model_path"].
Proof. revert tab a. unfold MLConfig_validate. read_present. Qed.
Lemma api_present tab a : APIConfig_validate py tab = Some a → Forall (λ key, is_Some (dget tab key)) ["tls_cert_path"; "tls_key_path"].
Proof. revert tab a. unfold APIConfig_validate. read_present. Qed.
Lemma authentication_present tab a : AuthenticationConfig_validate py tab = Some a → Forall (λ key, is_Some (dget tab key)) ["admin_username"; "admin_password_hash"].
Proof. revert tab a. unfold AuthenticationConfig_validate. read_present. Qed.
Lemma admin_present tab a : AdminConfig_validate py tab = Some a → Forall (λ key, is_Some (dget tab key)) ["admin_pc_ip"].
Proof. revert tab a. unfold AdminConfig_validate. read_present. Qed.

(** What an [antispoof] section says of the lease file *)
Definition explicit_lease_file (t : table) : option toml :=
  match dget t "antispoof" with Some (TTab a) => dget a "lease_file" | _ => None end.
Definition lease_file_right (t : table) (s : Settings) : Prop :=
  match explicit_lease_file t with
  | Some v => py_str py v = Some (an_lease_file (st_antispoof s))
  | None => an_lease_file (st_antispoof s) = lease_file_for (nc_lan_interface (st_network s))
  end.
Lemma antispoof_lease_file tab c : AntispoofConfig_validate py tab = Some c →
  an_lease_file_set c = dmem tab "lease_file" ∧ (∀ v, dget tab "lease_file" = Some v → py_str py v = Some (an_lease_file c)).
Proof.
  intros H. unfold AntispoofConfig_validate in H. repeat (apply bind_Some in H as (? & ? & H)). destruct (_check_static_unique _); [|done].
  injection H as <-. split; [done|]. intros v Hv. match goal with Hf : field (some_text _) _ tab "lease_file" = _ |- _ => revert Hf end.
  unfold field. rewrite Hv. unfold some_text, checked. destruct (py_str py v) as [p|]; [|done]. cbn. destruct (negb _); [|done]. by intros [= <-].
Qed.

Lemma derived_lease_file t (s : Settings) :
  field (model (AntispoofConfig_validate py)) (AntispoofConfig_validate py []) t "antispoof" = Some (st_antispoof s) →
  lease_file_right t (_derive_lease_file s).
Proof.
  intros H. unfold lease_file_right, explicit_lease_file, _derive_lease_file. unfold field in H. destruct (dget t "antispoof") as [v|].
  - destruct v as [| | | | | |tab]; try done. cbn [model] in H. destruct (antispoof_lease_file _ _ H) as [Hset Hv]. rewrite Hset. unfold dmem.
    destruct (dget tab "lease_file"); [by apply Hv|done].
  - destruct (antispoof_lease_file _ _ H) as [Hset _]. rewrite Hset. done.
Qed.
Lemma derive_keeps_ok s : loaded_ok s → loaded_ok (_derive_lease_file s).
Proof. unfold _derive_lease_file. destruct (an_lease_file_set _); [done|]. intros []. by constructor. Qed.

(** A property of every validated section is one of the section of a document. *)
Lemma required_ok {A} (validate : table → option A) (P : A → Prop) t n a : (∀ t a, validate t = Some a → P a) → required validate t n = Some a → P a.
Proof. intros Hv H. eapply section_ok; eauto. Qed.
Lemma defaulted_ok {A} (validate : table → option A) (P : A → Prop) t n a : (∀ t a, validate t = Some a → P a) → defaulted validate t n = Some a → P a.
Proof. intros Hv H. eapply section_ok; eauto. Qed.
Lemma DetectionConfig_wf t c : DetectionConfig_validate py t = Some c → detection_config_wf (ds_behavior c).
Proof. intros H. unfold DetectionConfig_validate in H. repeat (apply bind_Some in H as (? & ? & H)). injection H as <-. by eapply behavior_fields_wf. Qed.
Lemma D1Config_wf t c : D1Config_validate py t = Some c → d1_config_wf (d1s_detectors c).
Proof.
  intros H. unfold D1Config_validate in H. repeat (apply bind_Some in H as (? & ? & H)). destruct (_check_windows _) eqn:Hw; [|done]. injection H as <-.
  by eapply detector_fields_wf.
Qed.
Lemma PortalConfig_wf t c : PortalConfig_validate py t = Some c → portal_config_wf (pts_service c).
Proof. intros H. unfold PortalConfig_validate in H. repeat (apply bind_Some in H as (? & ? & H)). injection H as <-. by eapply service_fields_wf. Qed.

Lemma validated_document t s : PirewallConfig_validate py t = Some s → loaded_ok s ∧ complete_document t ∧ lease_file_right t s.
Proof.
  intros H. unfold PirewallConfig_validate in H. apply bind_Some in H as ([] & Honly & H).
  apply bind_Some in H as (network & Hnetwork & H). apply bind_Some in H as (capture & Hcapture & H). apply bind_Some in H as (flow & Hflow & H).
  apply bind_Some in H as (features & Hfeatures & H). apply bind_Some in H as (detection & Hdetection & H). apply bind_Some in H as (ml & Hml & H).
  apply bind_Some in H as (threat & Hthreat & H). apply bind_Some in H as (firewall & Hfirewall & H). apply bind_Some in H as (api & Hapi & H).
  apply bind_Some in H as (authentication & Hauth & H). apply bind_Some in H as (admin & Hadmin & H). apply bind_Some in H as (portal & Hportal & H).
  apply bind_Some in H as (logging & Hlogging & H). apply bind_Some in H as (integration & Hintegration & H). apply bind_Some in H as (security & Hsecurity & H).
  apply bind_Some in H as (failure & Hfailure & H). apply bind_Some in H as (pipeline & Hpipeline & H). apply bind_Some in H as (guards & Hguards & H).
  apply bind_Some in H as (antispoof & Hantispoof & H). apply bind_Some in H as (policy & Hpolicy & H). apply bind_Some in H as (d1 & Hd1 & H).
  apply bind_Some in H as (lab & Hlab & H). apply (f_equal (default s)) in H. cbn [default from_option id] in H. subst s. split; [|split].
  - apply derive_keeps_ok. apply (required_ok _ _ _ _ _ NetworkConfig_wf) in Hnetwork as (N1 & N2 & N3). apply (required_ok _ _ _ _ _ AdminConfig_wf) in Hadmin as [A1 A2].
    apply (required_ok _ _ _ _ _ FirewallConfig_wf) in Hfirewall as (F1 & F2 & F3 & _ & F5). apply (defaulted_ok _ _ _ _ _ AntispoofConfig_wf) in Hantispoof as [S1 S2].
    apply (required_ok _ _ _ _ _ ThreatConfig_wf) in Hthreat as [T1 T2]. constructor; cbn.
    + unfold config_wf. cbn. apply (defaulted_ok _ _ _ _ _ PolicyConfig_wf) in Hpolicy. tauto.
    + exact A2.
    + by apply (required_ok _ _ _ _ _ DetectionConfig_wf) in Hdetection.
    + exact T1.
    + intros p. by apply pattern_priced.
    + by apply (defaulted_ok _ _ _ _ _ D1Config_wf) in Hd1.
    + by apply (defaulted_ok _ _ _ _ _ PortalConfig_wf) in Hportal.
    + by apply (defaulted_ok _ _ _ _ _ GuardsConfig_wf) in Hguards.
    + exact S2.
  - split; [by apply only_names|]. unfold required in *. repeat constructor; cbn [fst snd];
      first [eapply holds_fields; [eassumption|first [exact network_present | exact capture_present | exact ml_present | exact api_present
        | exact authentication_present | exact admin_present | intros; constructor]]].
  - by apply derived_lease_file.
Qed.

(** C29: loading a configuration gives one that every component's theorems can
    rely on, or a [ConfigurationError] and nothing else.  A document is
    accepted only if every section and field without a default is in it, no
    section is unknown, the addresses, bounds and orders the components assume hold,
    every behaviour pattern is priced, and the lease file is the one named,
    or the one of the LAN interface. *)
Theorem loaded_configuration_is_sound path file :
  match load_config py path file with
  | Ok s => loaded_ok s ∧ ∃ t, file = CDocument t ∧ complete_document t ∧ lease_file_right t s
  | Raise e => ∃ msg, e = ConfigurationError msg
  end.
Proof.
  unfold load_config. destruct file as [msg|msg|msg|t]; [by eexists..|]. destruct (PirewallConfig_validate py t) as [s|] eqn:H; [|by eexists].
  apply validated_document in H as (Hok & Hc & Hl). split; [done|]. by exists t.
Qed.
End Loaded.
