(* ===== verification/Migrate.v ===== *)
(** * Upgrading a configuration file (scripts/deployment/migrate_config.py)

    The upgrade edits the file as text, line by line.  A text is its code
    points, as in [Bindings]; in the lines written out here a caret stands for
    a double quote and a tilde for an em dash.  The TOML parser, [float] of a
    text, the codec of the file and the texts of exceptions are parameters.
    The regular expressions are the readers [header] and [assignment]: neither
    expression can match in more than one way on a line. *)

From S2P Require Import Prelude Float Net Models Bindings Throttle PortalStore PortalService Flow Thresholds D1 Behavior Threat Inference Coordinator Fallback Rpc Watch Templates HostAddrs Config.
Local Open Scope Z_scope.

(** ** Text *)

Definition u (s : string) : text := (λ c, if c =? 94 then 34 else if c =? 126 then 8212 else c) <$> of_string s.
(** [text.splitlines(keepends=True)] *)
Fixpoint split_keep (cur l : text) : list text :=
  match l with
  | [] => match cur with [] => [] | _ => [reverse cur] end
  | c :: l' =>
      if is_break c then
        match c, l' with
        | 13, 10 :: l'' => reverse (10 :: 13 :: cur) :: split_keep [] l''
        | _, _ => reverse (c :: cur) :: split_keep [] l'
        end
      else split_keep (c :: cur) l'
  end.
(** The longest prefix of characters that satisfy [p], and the rest *)
Fixpoint span (p : Z → bool) (l : text) : text * text :=
  match l with
  | c :: l' => if p c then let '(a, b) := span p l' in (c :: a, b) else ([], l)
  | [] => ([], [])
  end.
Fixpoint after_text (p l : text) : option text :=
  match p, l with
  | [], _ => Some l
  | a :: p', b :: l' => if a =? b then after_text p' l' else None
  | _ :: _, [] => None
  end.
(** The line without trailing carriage returns and line feeds; whether it ends with a line feed *)
Fixpoint drop_nl (l : text) : text := match l with c :: l' => if (c =? 10) || (c =? 13) then drop_nl l' else l | [] => [] end.
Definition rstrip_nl (l : text) : text := reverse (drop_nl (reverse l)).
Definition ends_nl (l : text) : bool := bool_decide (last l = Some 10).

(** ** Text surgery *)

(** Only blanks or a comment up to the end of the line *)
Definition comment_or_end (l : text) : bool := match HostAddrs.lstrip l with [] => true | c :: _ => c =? 35 end.
Definition not_bracket (c : Z) : bool := negb ((c =? 91) || (c =? 93)).
(** [_HEADER]: whether the line opens an array of tables, and its name *)
Definition header (line : text) : option (bool * text) :=
  match HostAddrs.lstrip line with
  | [] => None
  | bracket :: l =>
    if bracket =? 91 then
      let '(array, l) := match l with 91 :: l' => (true, l') | _ => (false, l) end in
      let '(content, l) := span not_bracket l in
      match content, l with
      | _ :: _, 93 :: l =>
          let l := match l with 93 :: l' => l' | _ => l end in
          if comment_or_end l
          then Some (array, if is_blank content then [List.last content 32] else HostAddrs.strip content)
          else None
      | _, _ => None
      end
    else None
  end.

Fixpoint bounds_from (section : text) (index : nat) (start : option nat) (lines : list text) : option (nat * nat) :=
  match lines with
  | [] => (λ s, (s, index)) <$> start
  | line :: lines' =>
      match header line with
      | None => bounds_from section (S index) start lines'
      | Some (is_array_table, name) =>
          match start with
          | Some s => Some (s, index)
          | None => bounds_from section (S index) (if negb is_array_table && bool_decide (name = section) then Some index else None) lines'
          end
      end
  end.
Definition _section_bounds (lines : list text) (section : text) : option (nat * nat) := bounds_from section 0 None lines.

Fixpoint insertion_loop (lines : list text) (start index : nat) : nat :=
  match index with
  | O => O
  | S i => if (S start <? index)%nat && is_blank (lines !!! i) then insertion_loop lines start i else index
  end.
Definition _insertion_point (lines : list text) (start finish : nat) : nat := insertion_loop lines start finish.

(** A toml_string value, or one without blanks and [#], and what follows it *)
Definition bare_value (l : text) : option (text * text) :=
  let '(v, post) := span (λ c, negb (Bindings.is_space c || (c =? 35))) l in
  match v with [] => None | _ => if comment_or_end post then Some (v, post) else None end.
Definition value_at (l : text) : option (text * text) :=
  match l with
  | 34 :: l' =>
      match span (λ c, negb (c =? 34)) l' with
      | (q, 34 :: post) => if comment_or_end post then Some (34 :: q ++ [34], post) else bare_value l
      | _ => bare_value l
      end
  | _ => bare_value l
  end.
(** The three groups of [_set_key]'s pattern *)
Definition assignment (key line : text) : option (text * text * text) :=
  let '(indent, l) := span Bindings.is_space line in
  l ← after_text key l;
  let '(before, l) := span Bindings.is_space l in
  match l with
  | sign :: l =>
      if sign =? 61 then
        let '(between, l) := span Bindings.is_space l in
        '(old, post) ← value_at l; Some (indent ++ key ++ before ++ [61] ++ between, old, post)
      else None
  | [] => None
  end.
Fixpoint first_assignment (key : text) (index : nat) (lines : list text) : option (nat * (text * text * text)) :=
  match lines with
  | [] => None
  | line :: lines' =>
      match assignment key (rstrip_nl line) with
      | Some m => Some (index, m)
      | None => first_assignment key (S index) lines'
      end
  end.

(** What the script raises: its own error, and the [ValueError] of [float] *)
Inductive mig_exn := MigrationError (message : string) | FloatError (value : text).
Definition mig (A : Type) : Type := (A + mig_exn)%type.
#[global] Instance mig_ret : MRet mig := λ A a, inl a.
#[global] Instance mig_bind : MBind mig := λ A B k m, match m with inl a => k a | inr e => inr e end.

(** [_set_key]: the lines after it, and the value that was there *)
Definition _set_key (lines : list text) (section key value : string) : mig (list text * option text) :=
  match _section_bounds lines (of_string section) with
  | None => inr (MigrationError ("[" +:+ section +:+ "] is missing; the file is not a complete pirewall config"))
  | Some (start, finish) =>
      match first_assignment (of_string key) (S start) (take (finish - S start) (drop (S start) lines)) with
      | Some (index, (pre, old, post)) =>
          inl (if bool_decide (old = u value) then lines else <[index := pre ++ u value ++ post ++ [10]]> lines, Some old)
      | None =>
          let at_ := _insertion_point lines start finish in
          inl (take at_ lines ++ [of_string key ++ u " = " ++ u value ++ [10]] ++ drop at_ lines, None)
      end
  end.

Definition _ensure_trailing_newline (lines : list text) : list text :=
  match last lines with
  | Some line => if ends_nl line then lines else take (length lines - 1) lines ++ [line ++ [10]]
  | None => lines
  end.
(** A block is given by its lines *)
Definition block_lines (block : list text) : list text := (λ line, line ++ [10]) <$> block.
Definition _append_block (lines : list text) (block : list text) : list text :=
  let lines := _ensure_trailing_newline lines in
  let lines := match last lines with Some line => if is_blank line then lines else lines ++ [[10]] | None => lines end in
  lines ++ block_lines block.
Definition _insert_block_after_section (lines : list text) (section : string) (block : list text) : list text :=
  match _section_bounds lines (of_string section) with
  | None => _append_block lines block
  | Some (start, finish) =>
      let at_ := _insertion_point lines start finish in
      take at_ lines ++ ([10] :: block_lines block) ++ drop at_ lines
  end.

(** ** The blocks that are added *)

Definition _PATTERN_POINTS_BLOCK : list text := u <$>
  ["# Points per detected behavior pattern, summed and capped at behavior_weight.";
   "# Added by scripts/deployment/migrate_config.py (feature schema 2.0.0).";
   "[threat.behavior_pattern_points]";
   "scanning = 55.0";
   "repeated_failures = 45.0";
   "slow_rate_dos = 45.0";
   "flood = 80.0";
   "burst = 10.0";
   "high_frequency = 10.0";
   "repeated_connections = 5.0";
   "temporal_pattern = 10.0";
   "destination_diversity = 5.0";
   "persistence = 0.0"].
Definition V2_SECTION_ORDER : list string := ["pipeline"; "guards"; "antispoof"; "policy"; "lab"].
Definition v2_section_text (section lan_interface : string) : list text :=
  if String.eqb section "pipeline" then u <$>
    ["[pipeline]";
     "# ADDENDUM_4.md D4 ~ ^v1^ until the v2 policy engine ships; v1 stays the baseline.";
     "engine = ^v1^"]
  else if String.eqb section "guards" then u <$>
    ["[guards]";
     "# ADDENDUM_4.md D1/D2 ~ static kernel guards (`table inet pirewall_static`).";
     "# Reviewed static policy, not adaptive rules. ^enforce^ on raw means enforce";
     "# IF bindings were seeded at startup; otherwise raw is forced to observe.";
     "raw_mode = ^enforce^";
     "input_mode = ^enforce^";
     "forward_mode = ^observe^";
     "# rate and burst are one threshold, fitted together. packets/second, except";
     "# dhcp_per_minute. Template starting values, to be replaced by calibration.";
     "dhcp_per_minute = { rate = 10, burst = 5 }";
     "unbound = { rate = 50, burst = 100 }";
     "syn = { rate = 200, burst = 400 }";
     "icmp = { rate = 50, burst = 100 }";
     "udp_local = { rate = 500, burst = 1000 }";
     "local_pps = { rate = 3000, burst = 6000 }";
     "dns = { rate = 100, burst = 300 }";
     "closed_port = { rate = 20, burst = 40 }";
     "newconn = { rate = 100, burst = 200 }";
     "newconn_dst = { rate = 50, burst = 100 }";
     "udp_fwd = { rate = 20000, burst = 40000 }";
     "global_unbound = { rate = 500, burst = 1000 }";
     "global_syn = { rate = 2000, burst = 4000 }";
     "global_icmp = { rate = 500, burst = 1000 }";
     "global_udp_local = { rate = 3000, burst = 6000 }";
     "global_newconn = { rate = 1000, burst = 2000 }";
     "portal_concurrency = 20";
     "ratelimit = { rate = 20, burst = 40 }";
     "binding_set_size = 1024";
     "meter_set_size = 256";
     "pair_meter_set_size = 4096";
     "offender_set_size = 4096";
     "adaptive_set_size = 4096"]
  else if String.eqb section "antispoof" then (u <$>
    ["[antispoof]";
     "# ADDENDUM_4.md D3 ~ IP<->MAC bindings: the NetworkManager dnsmasq lease file";
     "# for network.lan_interface, plus [[antispoof.static]] entries. lease_file is";
     "# derived from network.lan_interface when unset; set it only for a DHCP";
     "# server that writes somewhere else."]) ++
    [u "# lease_file = ^/var/lib/NetworkManager/dnsmasq-" ++ of_string lan_interface ++ u ".leases^"] ++
    (u <$> ["grace_seconds = 60";
     "poll_seconds = 2.0";
     "static = []"])
  else if String.eqb section "policy" then u <$>
    ["[policy]";
     "# ADDENDUM_4.md D4 ~ v2 policy table; read only when [pipeline] engine = ^v2^.";
     "rate_limit_ttl_seconds = 300";
     "block_ttl_seconds = 300";
     "escalation_ttl_multiplier = 2";
     "max_ttl_seconds = 3600";
     "sustained_polls = 2"]
  else u <$>
    ["[lab]";
     "# ADDENDUM_4.md D7 ~ provenance tag: ^pi-live^, ^pi-scripted^, ^sandbox^ or";
     "# ^mock^. Never defaults to a pi-* tag; pirewall-start sets it per --data-mode.";
     "env_tag = ^sandbox^";
     "victim_netns = ^labvictim^";
     "victim_host_interface = ^lab0^";
     "victim_network = ^10.250.0.0/30^"].

(** ** The migration *)

Definition FEATURE_SCHEMA_V2_0 : string := "2.0.0".
Definition V1_ACTIVE_TIMEOUT_SECONDS : Z := 120.
Definition V1_BEHAVIOR_WEIGHT : string := "80.0".
Definition toml_string (s : string) : string := "^" +:+ s +:+ "^".

Record MigrationResult : Type := mk_migration { mr_text : text; mr_changes : list text }.
Definition needed (r : MigrationResult) : bool := negb (bool_decide (mr_changes r = [])).

(** [_section]: a table of the document, or an empty one *)
Definition _section (document : table) (name : string) : table := match dget document name with Some (TTab t) => t | _ => [] end.
Definition starts_1x (v : option toml) : bool := match v with Some (TStr s) => starts_with (of_string "1.") (of_string s) | _ => false end.
Definition _is_v1x (document : table) : bool :=
  starts_1x (dget (_section document "features") "schema_version") || starts_1x (dget (_section document "ml") "feature_schema_version").
(** [old or 'default'] *)
Definition shown (old : option text) : text := match old with Some ((_ :: _) as old) => old | _ => u "default" end.
Definition change (section key : string) (old : option text) (value : string) : text :=
  u ("[" +:+ section +:+ "] " +:+ key +:+ ": ") ++ shown old ++ u (" -> " +:+ value).

Section Migration.
Context (py : pydantic).
Context (toml_loads : text → table + string).
Context (float_of_text : text → option float).

Definition equals (v : option toml) (n : Z) : bool :=
  match v with Some (TInt k) => k =? n | Some (TFloat x) => feq x (float_of_Z n) | _ => false end.
Definition parse_toml (t : text) : mig table :=
  match toml_loads t with inl document => inl document | inr msg => inr (MigrationError ("not valid TOML: " +:+ msg)) end.

Definition set_version (lines : list text) (changes : list text) (section key : string) : mig (list text * list text) :=
  '(lines, old) ← _set_key lines section key (toml_string FEATURE_SCHEMA_V2_0);
  mret (lines, if bool_decide (old = Some (u (toml_string FEATURE_SCHEMA_V2_0))) then changes
               else changes ++ [change section key old (toml_string FEATURE_SCHEMA_V2_0)]).
Definition set_weights (threat : table) (lines changes : list text) : mig (list text * list text) :=
  if equals (dget threat "known_attack_weight") 50 && equals (dget threat "anomaly_weight") 25 then
    '(lines, _) ← _set_key lines "threat" "known_attack_weight" "60.0";
    '(lines, _) ← _set_key lines "threat" "anomaly_weight" "15.0";
    mret (lines, changes ++ [u "[threat] known_attack_weight/anomaly_weight: 50/25 -> 60/15"])
  else mret (lines, changes).
Definition _migrate_1x_to_2_0 (lines : list text) (document : table) (changes : list text) : mig (list text * list text) :=
  '(lines, changes) ← set_version lines changes "features" "schema_version";
  '(lines, changes) ← set_version lines changes "ml" "feature_schema_version";
  '(lines, old) ← _set_key lines "flow" "active_timeout_seconds" (str_Z V1_ACTIVE_TIMEOUT_SECONDS);
  let changes := if bool_decide (old = Some (u (str_Z V1_ACTIVE_TIMEOUT_SECONDS))) then changes
                 else changes ++ [change "flow" "active_timeout_seconds" old (str_Z V1_ACTIVE_TIMEOUT_SECONDS)] in
  '(lines, old) ← _set_key lines "threat" "behavior_weight" V1_BEHAVIOR_WEIGHT;
  same ← match old with
         | None => mret false
         | Some old => match float_of_text old with Some x => mret (feq x (float_of_Z 80)) | None => inr (FloatError old) end
         end;
  let changes := if (same : bool) then changes else changes ++ [change "threat" "behavior_weight" old V1_BEHAVIOR_WEIGHT] in
  let threat := _section document "threat" in
  '(lines, changes) ← set_weights threat lines changes;
  mret (if dmem threat "behavior_pattern_points" then (lines, changes)
        else (_insert_block_after_section lines "threat" _PATTERN_POINTS_BLOCK,
              changes ++ [u "[threat.behavior_pattern_points]: added (feature schema 2.0.0 defaults)"])).

Fixpoint add_sections (document : table) (lan_interface : string) (sections : list string) (lines changes : list text) : list text * list text :=
  match sections with
  | [] => (lines, changes)
  | section :: rest =>
      if dmem document section then add_sections document lan_interface rest lines changes
      else add_sections document lan_interface rest (_append_block lines (v2_section_text section lan_interface))
             (changes ++ [u ("[" +:+ section +:+ "]: added with v2 defaults")])
  end.
Definition _migrate_2_0_to_v2 (lines : list text) (document : table) (changes : list text) : mig (list text * list text) :=
  match dget (_section document "network") "lan_interface" with
  | Some (TStr lan_interface) =>
      if String.eqb lan_interface "" then inr (MigrationError "[network] lan_interface is missing; antispoof.lease_file is derived from it")
      else mret (add_sections document lan_interface V2_SECTION_ORDER lines changes)
  | _ => inr (MigrationError "[network] lan_interface is missing; antispoof.lease_file is derived from it")
  end.

Definition migrate_text (t : text) : mig MigrationResult :=
  document ← parse_toml t;
  let lines := split_keep [] t in
  '(lines, changes) ← (if _is_v1x document then _migrate_1x_to_2_0 lines document [] else mret (lines, []) : mig (list text * list text));
  '(lines, changes) ← _migrate_2_0_to_v2 lines document changes;
  let migrated := mjoin lines in
  migrated_document ← parse_toml migrated;
  match PirewallConfig_validate py migrated_document with
  | Some _ => mret (mk_migration migrated changes)
  | None => inr (MigrationError "the migrated config does not validate")
  end.
End Migration.

(** ** Writing it

    Files are their bytes and mode.  What the script does to them is a list of
    system calls, any of which may fail; a failing write may have written some
    of its bytes. *)

Definition bytes : Type := list Z.
Local Notation files := (gmap string (bytes * Z)).
Inductive call :=
| Open (target : string)                      (** created with 0600 when new, emptied *)
| Write (target : string) (data : bytes)
| Chmod (target : string) (mode : Z)
| Replace (source target : string).
Definition do_call (c : call) (fs : files) : files :=
  match c with
  | Open target => <[target := ([], match fs !! target with Some (_, mode) => mode | None => 384 end)]> fs
  | Write target data => match fs !! target with Some (_, mode) => <[target := (data, mode)]> fs | None => fs end
  | Chmod target mode => match fs !! target with Some (data, _) => <[target := (data, mode)]> fs | None => fs end
  | Replace source target => match fs !! source with Some file => <[target := file]> (delete source fs) | None => fs end
  end.
(** The failure of the call at a place, after some bytes of it *)
Record failure : Type := mk_failure { at_call : nat; bytes_written : nat }.
Definition cut_call (n : nat) (c : call) : list call := match c with Write target data => [Write target (take n data)] | _ => [] end.
Definition calls_done (f : option failure) (calls : list call) : list call :=
  match f with
  | None => calls
  | Some f => take (at_call f) calls ++ match calls !! at_call f with Some c => cut_call (bytes_written f) c | None => [] end
  end.
Definition failed (f : option failure) (calls : list call) : bool := match f with Some f => (at_call f <? length calls)%nat | None => false end.

Definition backup_path (path stamp : string) : string := path +:+ "." +:+ stamp +:+ ".bak".
Definition _write_with_mode (target : string) (data : bytes) (mode : Z) : list call := [Open target; Write target data; Chmod target mode].
Definition write_calls (path stamp : string) (original : bytes) (mode : Z) (migrated : bytes) : list call :=
  _write_with_mode (backup_path path stamp) original mode ++ _write_with_mode (path +:+ ".new") migrated mode ++ [Replace (path +:+ ".new") path].
Definition write_migrated (path stamp : string) (migrated : bytes) (f : option failure) (fs : files) : bool * files :=
  match fs !! path with
  | None => (false, fs)
  | Some (original, mode) =>
      let calls := write_calls path stamp original mode migrated in
      (negb (failed f calls), fold_left (λ fs c, do_call c fs) (calls_done f calls) fs)
  end.

Inductive exit := EXIT_OK | EXIT_MIGRATION_NEEDED | EXIT_ERROR.
Section Main.
Context (py : pydantic) (toml_loads : text → table + string) (float_of_text : text → option float).
Context (decode : bytes → option text) (encode : text → bytes).
(** The exit code, unless a [ValueError] gets through; [check] is
    [--check], otherwise [--write] *)
Definition migrate_main (check : bool) (path stamp : string) (f : option failure) (fs : files) : option exit * files :=
  match fs !! path ≫= λ file, decode file.1 with
  | None => (Some EXIT_ERROR, fs)
  | Some t =>
      match migrate_text py toml_loads float_of_text t with
      | inr (MigrationError _) => (Some EXIT_ERROR, fs)
      | inr (FloatError _) => (None, fs)
      | inl r =>
          if negb (needed r) then (Some EXIT_OK, fs)
          else if check then (Some EXIT_MIGRATION_NEEDED, fs)
          else let '(ok, fs) := write_migrated path stamp (encode (mr_text r)) f fs in (Some (if ok then EXIT_OK else EXIT_ERROR), fs)
      end
  end.
End Main.

(** ** What an upgrade changes

    The section a line is in is the last header above it. *)
Definition enter (section : option text) (line : text) : option text :=
  match header line with Some (false, name) => Some name | Some (true, _) => None | None => section end.
Definition enter_all (section : option text) (lines : list text) : option text := foldl enter section lines.

(** The new lines are the old ones in their order, but that new lines come in
    between ([ours] says which, and in which section), an assignment to one of
    [keys] in its section has its value replaced, with its indentation and its
    comment kept, and the last line may get the line feed it lacked ([last_too]). *)
Inductive edited (last_too : bool) (ours : option text → text → Prop) (keys : list (text * text * text)) : option text → list text → list text → Prop :=
| ed_nil section : edited last_too ours keys section [] []
| ed_keep section line l m : edited last_too ours keys (enter section line) l m → edited last_too ours keys section (line :: l) (line :: m)
| ed_insert section line l m : ours section line → edited last_too ours keys section l m → edited last_too ours keys section l (line :: m)
| ed_value name key value line pre old post l m :
    (name, key, value) ∈ keys → assignment key (rstrip_nl line) = Some (pre, old, post) →
    edited last_too ours keys (Some name) l m → edited last_too ours keys (Some name) (line :: l) ((pre ++ value ++ post ++ [10]) :: m)
| ed_last section line m : last_too = true → ends_nl line = false → edited last_too ours keys (enter section line) [] m →
    edited last_too ours keys section [line] ((line ++ [10]) :: m).

(** *** Reading lines *)

Lemma mjoin_split_keep t : ∀ cur, mjoin (split_keep cur t) = reverse cur ++ t.
Proof.
  induction t as [t IH] using (induction_ltof1 _ length). unfold ltof in IH. intros cur. destruct t as [|c t]; cbn [split_keep].
  { destruct cur; cbn; by rewrite ?app_nil_r. }
  destruct (is_break c) eqn:Eb; [|rewrite IH by (cbn; lia); by rewrite reverse_cons, <- (assoc_L (++))].
  assert (Hone : mjoin (reverse (c :: cur) :: split_keep [] t) = reverse cur ++ c :: t).
  { cbn [mjoin list_join]. rewrite (IH t) by (cbn; lia). by rewrite reverse_cons, <- (assoc_L (++)). }
  repeat case_match; subst; try exact Hone.
  cbn [mjoin list_join]. rewrite IH by (cbn; lia). by rewrite !reverse_cons, <- !(assoc_L (++)).
Qed.
Lemma span_spec p l a b : span p l = (a, b) → l = a ++ b ∧ Forall (λ c, p c = true) a ∧ ∀ c b', b = c :: b' → p c = false.
Proof.
  revert a. induction l as [|c l IH]; cbn; intros a; [intros [= <- <-]; naive_solver|].
  destruct (p c) eqn:Ep; [|intros [= <- <-]; repeat split; [constructor|naive_solver]].
  destruct (span p l) as [a' b'] eqn:Es. intros [= <- <-]. destruct (IH a' eq_refl) as (-> & Hf & Hb). repeat split; [by constructor|done].
Qed.
Lemma after_text_spec p l r : after_text p l = Some r → l = p ++ r.
Proof.
  revert l. induction p as [|a p IH]; intros [|b l]; cbn; [naive_solver..|]. destruct (Z.eqb_spec a b) as [->|]; [|done]. intros H. by rewrite (IH _ H).
Qed.
Lemma rstrip_nl_prefix l : ∃ r, l = rstrip_nl l ++ r.
Proof.
  unfold rstrip_nl. assert (Hd : ∀ l, ∃ r, l = r ++ drop_nl l).
  { clear l. intros l. induction l as [|c l [r IH]]; [by exists []|]. cbn. destruct ((c =? 10) || (c =? 13)); [|by exists []].
    exists (c :: r). cbn. by rewrite <- IH. }
  destruct (Hd (reverse l)) as [r Hr]. exists (reverse r). rewrite <- reverse_app, <- Hr. by rewrite reverse_involutive.
Qed.

(** A line that assigns to a key: blanks, the key, blanks and the sign *)
Definition blanks (l : text) : Prop := Forall (λ c, Bindings.is_space c = true) l.
Definition assigns (key line : text) : Prop := ∃ indent before r, line = indent ++ key ++ before ++ 61 :: r ∧ blanks indent ∧ blanks before.
Definition ident_char (c : Z) : bool := ((97 <=? c) && (c <=? 122)) || (c =? 95) || ((48 <=? c) && (c <=? 57)).
Definition ident (key : text) : Prop := key ≠ [] ∧ Forall (λ c, ident_char c = true) key.

Lemma assignment_spec key line pre old post : assignment key line = Some (pre, old, post) →
  ∃ indent before between, pre = indent ++ key ++ before ++ 61 :: between ∧ blanks indent ∧ blanks before ∧ ∃ r, line = pre ++ r.
Proof.
  unfold assignment. destruct (span _ line) as [indent l] eqn:E1. destruct (after_text key l) as [l1|] eqn:E2; [|done]. cbn [mbind option_bind].
  destruct (span _ l1) as [before l2] eqn:E3. apply span_spec in E1 as (-> & Hi & _). apply after_text_spec in E2 as ->.
  apply span_spec in E3 as (-> & Hb & _). destruct l2 as [|sign l3]; [done|].
  destruct (Z.eqb_spec sign 61) as [->|]; [|done].
  destruct (span _ l3) as [between l4] eqn:E4. apply span_spec in E4 as (-> & _ & _). destruct (value_at l4) as [[o p]|]; [|done].
  intros [= <- <- <-]. exists indent, before, between. repeat split; [done..|]. exists l4. by rewrite <- !(assoc_L (++)).
Qed.
Lemma assignment_assigns key line pre old post x : assignment key (rstrip_nl line) = Some (pre, old, post) → assigns key line ∧ assigns key (pre ++ x).
Proof.
  intros H. apply assignment_spec in H as (indent & before & between & -> & Hi & Hb & r & Hr). destruct (rstrip_nl_prefix line) as [r' Hl]. rewrite Hr in Hl.
  split; [exists indent, before, (between ++ r ++ r')|exists indent, before, (between ++ x)]; (split; [|done]).
  - rewrite Hl. by rewrite <- !(assoc_L (++)).
  - by rewrite <- !(assoc_L (++)).
Qed.
Lemma ident_not_space c : ident_char c = true → Bindings.is_space c = false ∧ c ≠ 91.
Proof.
  intros H. assert (Hc : 48 <= c <= 57 ∨ 95 <= c <= 122) by (unfold ident_char in H; destruct_and?; lia). split; [|lia].
  unfold Bindings.is_space. apply orb_false_iff. split; [lia|]. apply inb_false. rewrite !elem_of_cons, elem_of_nil. lia.
Qed.
Lemma lstrip_blanks indent l : blanks indent → HostAddrs.lstrip (indent ++ l) = HostAddrs.lstrip l.
Proof. induction 1 as [|c indent Hc _ IH]; [done|]. cbn. by rewrite Hc. Qed.
Lemma lstrip_ident key l : ident key → HostAddrs.lstrip (key ++ l) = key ++ l.
Proof. intros Hk. destruct key as [|c key]; [by destruct Hk|]. destruct Hk as [_ [Hc _]%Forall_cons]. cbn. by rewrite (proj1 (ident_not_space c Hc)). Qed.
Lemma header_assigns key line : ident key → assigns key line → header line = None.
Proof.
  intros Hk (indent & before & r & -> & Hi & _). unfold header. rewrite lstrip_blanks, lstrip_ident by done.
  destruct key as [|c key]; [by destruct Hk|]. destruct Hk as [_ [Hc _]%Forall_cons]. cbn. destruct (Z.eqb_spec c 91) as [->|]; [|done]. by apply ident_not_space in Hc as [_ ?].
Qed.
Lemma span_app p a b : Forall (λ c, p c = true) a → (∀ c b', b = c :: b' → p c = false) → span p (a ++ b) = (a, b).
Proof.
  induction 1 as [|c a Hc _ IH]; cbn; intros Hb; [|by rewrite Hc, IH]. destruct b as [|c b]; [done|]. cbn. by rewrite (Hb c b eq_refl).
Qed.
Lemma span_key key before r : ident key → blanks before → span ident_char (key ++ before ++ 61 :: r) = (key, before ++ 61 :: r).
Proof.
  intros [_ Hk] Hb. apply span_app; [done|]. intros c b' E. destruct Hb as [|c' before Hc _]; cbn in E; simplify_eq; [done|].
  destruct (ident_char c) eqn:Ei; [|done]. apply ident_not_space in Ei as [Ei _]. congruence.
Qed.
Lemma assigns_unique key key' line : ident key → ident key' → assigns key line → assigns key' line → key = key'.
Proof.
  intros Hk Hk' (i & b & r & -> & Hi & Hb) (i' & b' & r' & E & Hi' & Hb').
  apply (f_equal HostAddrs.lstrip) in E. rewrite (lstrip_blanks i), (lstrip_blanks i'), (lstrip_ident key), (lstrip_ident key') in E by done. apply (f_equal (span ident_char)) in E.
  rewrite (span_key key b r), (span_key key' b' r') in E by done. by injection E.
Qed.

(** *** Sections *)

Lemma bounds_open section lines : ∀ index s st en, bounds_from section index (Some s) lines = Some (st, en) →
  ∃ b c, lines = b ++ c ∧ st = s ∧ en = (index + length b)%nat ∧ Forall (λ x, header x = None) b.
Proof.
  induction lines as [|x l IH]; intros index s st en; cbn [bounds_from].
  { intros [= <- <-]. exists [], []. repeat split; [cbn; lia|done]. }
  destruct (header x) as [[a n]|] eqn:Ex.
  - intros [= <- <-]. exists [], (x :: l). repeat split; [cbn; lia|done].
  - intros H. apply IH in H as (b & c & -> & -> & -> & Hb). exists (x :: b), c. repeat split; [cbn; lia|by constructor].
Qed.
Lemma bounds_spec section lines : ∀ index st en, bounds_from section index None lines = Some (st, en) →
  ∃ a h b c, lines = a ++ h :: b ++ c ∧ st = (index + length a)%nat ∧ en = (S st + length b)%nat ∧
    header h = Some (false, section) ∧ Forall (λ x, header x = None) b.
Proof.
  induction lines as [|x l IH]; intros index st en; cbn [bounds_from]; [done|].
  assert (Hskip : bounds_from section (S index) None l = Some (st, en) → ∃ a h b c, x :: l = a ++ h :: b ++ c ∧ st = (index + length a)%nat ∧
    en = (S st + length b)%nat ∧ header h = Some (false, section) ∧ Forall (λ x, header x = None) b).
  { intros H. apply IH in H as (a & h & b & c & -> & -> & -> & ?). exists (x :: a), h, b, c. repeat split; [cbn; lia..|tauto|tauto]. }
  destruct (header x) as [[array n]|] eqn:Ex; [|done]. destruct array; cbn [negb andb]; [done|]. case_bool_decide as Hn; [|done]. subst n.
  intros H. apply bounds_open in H as (b & c & -> & -> & -> & Hb). exists [], x, b, c. repeat split; [cbn; lia..|done|done].
Qed.
Lemma enter_plain section b : Forall (λ x, header x = None) b → enter_all section b = section.
Proof. induction 1 as [|x b Hx _ IH]; [done|]. unfold enter_all in *. cbn. unfold enter at 2. by rewrite Hx. Qed.
Lemma enter_section sec section a h b : header h = Some (false, section) → Forall (λ x, header x = None) b →
  enter_all sec (a ++ h :: b) = Some section.
Proof.
  intros Hh Hb. unfold enter_all. rewrite foldl_app. cbn [foldl]. change (enter_all (enter (foldl enter sec a) h) b = Some section).
  rewrite enter_plain by done. unfold enter. by rewrite Hh.
Qed.
Lemma edited_refl last_too ours keys l : ∀ sec, edited last_too ours keys sec l l.
Proof. induction l; intros; by constructor. Qed.
Lemma edited_prefix last_too ours keys l0 l m : ∀ sec, edited last_too ours keys (enter_all sec l0) l m → edited last_too ours keys sec (l0 ++ l) (l0 ++ m).
Proof. induction l0 as [|x l0 IH]; intros sec H; [done|]. cbn. apply ed_keep, IH, H. Qed.
Lemma edited_mono last_too (ours ours' : option text → text → Prop) keys keys' sec l m :
  (∀ s x, ours s x → ours' s x) → keys ⊆ keys' → edited last_too ours keys sec l m → edited last_too ours' keys' sec l m.
Proof.
  intros Ho Hk. induction 1; [apply ed_nil|by apply ed_keep|by apply ed_insert; [apply Ho|]|by eapply ed_value; [apply Hk|..]|by apply ed_last].
Qed.

(** *** The edits compose *)

(** A new assignment, in its section *)
Definition new_key (keys : list (text * text * text)) (sec : option text) (line : text) : Prop :=
  ∃ name key value, (name, key, value) ∈ keys ∧ sec = Some name ∧ line = key ++ u " = " ++ value ++ [10].
Definition key_of (e : text * text * text) : text := e.1.2.
Definition good_keys (keys : list (text * text * text)) : Prop := Forall (λ e, ident (key_of e)) keys.

Lemma new_key_assigns keys sec line : new_key keys sec line → ends_nl line = true ∧ ∃ e, e ∈ keys ∧ assigns (key_of e) line.
Proof.
  intros (name & key & value & Hin & _ & ->). split.
  - unfold ends_nl. apply bool_decide_eq_true. by rewrite !(assoc_L (++)), last_snoc.
  - exists (name, key, value). split; [done|]. exists [], [32], ([32] ++ value ++ [10]). split; [reflexivity|]. split; by repeat constructor.
Qed.
Lemma edited_line_assigns key value line pre old post :
  assignment key (rstrip_nl line) = Some (pre, old, post) →
  assigns key line ∧ ends_nl (pre ++ value ++ post ++ [10]) = true ∧ assigns key (pre ++ value ++ post ++ [10]).
Proof.
  intros Ha. destruct (assignment_assigns _ _ _ _ _ (value ++ post ++ [10]) Ha) as [H1 H2]. repeat split; [done| |done].
  unfold ends_nl. apply bool_decide_eq_true. by rewrite !(assoc_L (++)), last_snoc.
Qed.
Lemma enter_assigns sec key line : ident key → assigns key line → enter sec line = sec.
Proof. intros Hk Ha. unfold enter. by rewrite (header_assigns key). Qed.

Section Compose.
Context (last_too : bool) (ours : option text → text → Prop) (keys keys' : list (text * text * text)).
Context (Hkeys : good_keys keys) (Hkeys' : good_keys keys') (Hdisjoint : ∀ e e', e ∈ keys → e' ∈ keys' → key_of e ≠ key_of e').

Let all_ours (sec : option text) (line : text) : Prop := new_key keys sec line ∨ ours sec line.

Lemma good_key e : e ∈ keys → ident (key_of e).
Proof. intros He. by eapply Forall_forall in Hkeys. Qed.
Lemma good_key' e : e ∈ keys' → ident (key_of e).
Proof. intros He. by eapply Forall_forall in Hkeys'. Qed.

(** A line the first edit made is not one the second assigns to. *)
Lemma not_again e e' line : e ∈ keys → e' ∈ keys' → assigns (key_of e) line → assigns (key_of e') line → False.
Proof. intros He He' Ha Ha'. apply (Hdisjoint e e' He He'). apply (assigns_unique _ _ line); auto using good_key, good_key'. Qed.

Lemma edited_trans sec l m m' : edited false (new_key keys) keys sec l m → edited last_too ours keys' sec m m' → edited last_too all_ours (keys ++ keys') sec l m'.
Proof.
  intros H1 H2. revert l H1. induction H2 as [sec|sec x m m' H2 IH|sec y m m' Hy H2 IH|name key value x pre old post m m' Hin Ha H2 IH|sec x m' Ht He H2 IH];
    intros l H1.
  - inversion H1; subst. constructor.
  - inversion H1 as [|? ? l1 ? H|? ? ? ? Ho H|n k v x0 ? ? ? l1 ? Hi Hax H|]; subst; [..|done].
    + by apply ed_keep, IH.
    + apply ed_insert; [by left|]. destruct (new_key_assigns _ _ _ Ho) as [_ (e & Hek & Hea)].
      rewrite (enter_assigns _ (key_of e)) in IH by auto using good_key. by apply IH.
    + destruct (edited_line_assigns _ v _ _ _ _ Hax) as (_ & _ & Hy). pose proof (good_key _ Hi) as Hg.
      eapply ed_value; [apply elem_of_app; by left|done|].
      rewrite (enter_assigns _ k) in IH by done. by apply IH.
  - apply ed_insert; [by right|]. by apply IH.
  - inversion H1 as [|? ? l1 ? H|? ? ? ? Ho H|n k v x0 ? ? ? l1 ? Hi Hax H|]; subst; [..|done].
    + eapply ed_value; [apply elem_of_app; by right|done|]. apply IH. assert (E : enter (Some name) x = Some name); [|by rewrite E in H].
      eapply enter_assigns; [apply (good_key' _ Hin)|]. apply (edited_line_assigns _ value _ _ _ _ Ha).
    + destruct (new_key_assigns _ _ _ Ho) as [_ (e & Hek & Hea)]. exfalso. apply (not_again _ _ x Hek Hin Hea).
      apply (edited_line_assigns _ value _ _ _ _ Ha).
    + destruct (edited_line_assigns _ v _ _ _ _ Hax) as (_ & _ & Hy). exfalso. apply (not_again _ _ _ Hi Hin Hy).
      apply (edited_line_assigns _ value _ _ _ _ Ha).
  - inversion H1 as [|? ? l1 ? H|? ? ? ? Ho H|n k v x0 ? ? ? l1 ? Hi Hax H|]; subst; [..|done].
    + inversion H; subst. apply ed_last; [done..|]. apply IH. constructor.
    + destruct (new_key_assigns _ _ _ Ho) as [Hn _]. congruence.
    + destruct (edited_line_assigns _ v _ _ _ _ Hax) as (_ & Hn & _). congruence.
Qed.
End Compose.

(** *** Each operation is an edit *)

Lemma first_assignment_spec key lines : ∀ base index m, first_assignment key base lines = Some (index, m) →
  ∃ b1 x b2, lines = b1 ++ x :: b2 ∧ index = (base + length b1)%nat ∧ assignment key (rstrip_nl x) = Some m.
Proof.
  induction lines as [|x l IH]; intros base index m; cbn [first_assignment]; [done|]. destruct (assignment key (rstrip_nl x)) as [m'|] eqn:Ea.
  - intros [= <- <-]. exists [], x, l. split; [done|]. split; [cbn; lia|done].
  - intros H. apply IH in H as (b1 & y & b2 & -> & -> & Hy). exists (x :: b1), y, b2. split; [done|]. split; [cbn; lia|done].
Qed.
Lemma insertion_bounds lines start finish : (S start <= finish)%nat → (S start <= _insertion_point lines start finish <= finish)%nat.
Proof.
  unfold _insertion_point. induction finish as [|i IH]; intros H; [lia|]. cbn [insertion_loop].
  destruct (Nat.ltb_spec (S start) (S i)); cbn [andb]; [|lia]. destruct (is_blank _); [|lia]. specialize (IH ltac:(lia)). lia.
Qed.
(** A place in a section, from its bounds *)
Lemma section_place section lines start finish at_ : _section_bounds lines section = Some (start, finish) → (S start <= at_ <= finish)%nat →
  enter_all None (take at_ lines) = Some section.
Proof.
  intros Hb Ha. apply bounds_spec in Hb as (a & h & b & c & -> & -> & -> & Hh & Hf). cbn [Nat.add] in *.
  rewrite take_app_ge by lia. destruct (at_ - length a)%nat as [|j] eqn:Ej; [lia|]. cbn [take]. rewrite take_app_le by lia.
  apply enter_section; [done|]. by apply Forall_take.
Qed.
Lemma inserted_at last_too (ours : option text → text → Prop) keys lines at_ new : (∀ x, x ∈ new → ours (enter_all None (take at_ lines)) x) →
  edited last_too ours keys None lines (take at_ lines ++ new ++ drop at_ lines).
Proof.
  intros Hn. rewrite <- (take_drop at_ lines) at 1. apply edited_prefix. revert Hn. generalize (enter_all None (take at_ lines)) as sec. intros sec Hn.
  induction new as [|x new IH]; [apply edited_refl|]. apply ed_insert; [apply Hn; by left|]. apply IH. intros y Hy. apply Hn. by right.
Qed.
Lemma set_key_edited lines section key value lines' old : _set_key lines section key value = inl (lines', old) →
  let e := (of_string section, of_string key, u value) in edited false (new_key [e]) [e] None lines lines'.
Proof.
  intros H e. unfold _set_key in H. destruct (_section_bounds lines (of_string section)) as [[start finish]|] eqn:Eb; [|done].
  assert (Hle : (S start <= finish)%nat) by (apply bounds_spec in Eb as (? & ? & ? & ? & ? & ? & -> & ?); lia).
  destruct (first_assignment _ _ _) as [[index [[pre o] post]]|] eqn:Ef.
  - injection H as <- <-. case_bool_decide; [apply edited_refl|]. apply first_assignment_spec in Ef as (b1 & x & b2 & Hb & -> & Ha).
    assert (Hx : take (finish - S start) (drop (S start) lines) !! length b1 = Some x) by (rewrite Hb; by apply list_lookup_middle).
    apply lookup_take_Some in Hx as [Hx Hfin]. rewrite lookup_drop in Hx. pose proof (lookup_lt_Some _ _ _ Hx) as Hlen.
    rewrite insert_take_drop by done. rewrite <- (take_drop_middle lines _ x Hx) at 1. apply edited_prefix.
    rewrite (section_place _ _ _ _ _ Eb) by lia. eapply ed_value; [by left|done|]. apply edited_refl.
  - injection H as <- <-. apply (inserted_at _ _ _ _ _ [of_string key ++ u " = " ++ u value ++ [10]]). intros x Hx.
    apply list_elem_of_singleton in Hx as ->. rewrite (section_place _ _ _ _ _ Eb) by (by apply insertion_bounds).
    exists (of_string section), (of_string key), (u value). split; [by left|done].
Qed.

(** The lines of a block, and blank ones before it *)
Definition of_block (block : list text) (_ : option text) (line : text) : Prop := line = [10] ∨ line ∈ block_lines block.
Lemma appended (ours : option text → text → Prop) keys new : (∀ sec x, x ∈ new → ours sec x) → ∀ lines sec,
  edited true ours keys sec lines (lines ++ new).
Proof.
  intros Hn. induction lines as [|x lines IH]; intros sec; [|by apply ed_keep]. cbn.
  induction new as [|x new IH]; [constructor|]. apply ed_insert; [apply Hn; by left|]. apply IH. intros s y Hy. apply Hn. by right.
Qed.
Lemma appended_newline (ours : option text → text → Prop) keys new line : (∀ sec x, x ∈ new → ours sec x) → ends_nl line = false → ∀ lines sec,
  edited true ours keys sec (lines ++ [line]) (lines ++ (line ++ [10]) :: new).
Proof.
  intros Hn He. induction lines as [|x lines IH]; intros sec; [|by apply ed_keep]. apply ed_last; [done..|]. by apply (appended ours keys new Hn []).
Qed.
Lemma append_block_edited lines block sec : edited true (of_block block) [] sec lines (_append_block lines block).
Proof.
  assert (Hb : ∀ sec x, x ∈ block_lines block → of_block block sec x) by (intros; by right).
  assert (Hb' : ∀ sec x, x ∈ [10] :: block_lines block → of_block block sec x) by (intros s x [->|]%elem_of_cons; [by left|by right]).
  unfold _append_block, _ensure_trailing_newline. cbv zeta. destruct (last lines) as [line|] eqn:El; [|rewrite El; by apply appended].
  destruct (ends_nl line) eqn:En.
  - rewrite El. destruct (is_blank line); [by apply appended|]. rewrite <- (assoc_L (++)). by apply appended.
  - rewrite last_snoc. apply last_Some in El as [l ->]. rewrite length_app, Nat.add_sub, take_app_length.
    destruct (is_blank (line ++ [10])); rewrite <- !(assoc_L (++)); by apply appended_newline.
Qed.
Lemma insert_block_edited lines section block : edited true (of_block block) [] None lines (_insert_block_after_section lines section block).
Proof.
  unfold _insert_block_after_section. destruct (_section_bounds lines (of_string section)) as [[start finish]|]; [|apply append_block_edited].
  apply inserted_at. intros x [->|]%elem_of_cons; [by left|by right].
Qed.

(** *** The whole upgrade *)

(** The values the upgrade from 1.x sets *)
Definition EDITS : list (text * text * text) :=
  (λ e : string * string * string, (of_string e.1.1, of_string e.1.2, u e.2)) <$>
  [("features", "schema_version", toml_string FEATURE_SCHEMA_V2_0); ("ml", "feature_schema_version", toml_string FEATURE_SCHEMA_V2_0);
   ("flow", "active_timeout_seconds", str_Z V1_ACTIVE_TIMEOUT_SECONDS); ("threat", "behavior_weight", V1_BEHAVIOR_WEIGHT);
   ("threat", "known_attack_weight", "60.0"); ("threat", "anomaly_weight", "15.0")].
(** The lines it adds: an assignment of these in its section, or a line of a block *)
Definition block_line (lan_interface : string) (line : text) : Prop :=
  line = [10] ∨ line ∈ block_lines _PATTERN_POINTS_BLOCK ∨ ∃ section, section ∈ V2_SECTION_ORDER ∧ line ∈ block_lines (v2_section_text section lan_interface).
Definition added (keys : list (text * text * text)) (lan_interface : string) (sec : option text) (line : text) : Prop :=
  new_key keys sec line ∨ block_line lan_interface line.

#[local] Instance ident_dec key : Decision (ident key).
Proof. unfold ident. apply _. Defined.
Lemma edits_good : good_keys EDITS.
Proof. apply (bool_decide_unpack _). vm_compute. exact I. Qed.
Lemma edits_distinct : NoDup (key_of <$> EDITS).
Proof. apply (bool_decide_unpack _). vm_compute. exact I. Qed.
Lemma next_edit i e l m m' : EDITS !! i = Some e → edited false (new_key (take i EDITS)) (take i EDITS) None l m →
  edited false (new_key [e]) [e] None m m' → edited false (new_key (take (S i) EDITS)) (take (S i) EDITS) None l m'.
Proof.
  intros Hi H1 H2. rewrite (take_S_r _ _ e) by done.
  assert (H := edited_trans false (new_key [e]) (take i EDITS) [e] (Forall_take _ _ _ edits_good)).
  eapply edited_mono; [| |eapply H; [..|exact H1|exact H2]].
  - intros s x [(n & k & v & Hin & ?)|(n & k & v & Hin & ?)]; exists n, k, v; (split; [apply elem_of_app; auto|done]).
  - done.
  - constructor; [|constructor]. by apply (Forall_lookup_1 _ _ _ _ edits_good Hi).
  - intros e1 e2 H1' ->%list_elem_of_singleton Heq. apply elem_of_take in H1' as (j & Hj & Hlt). pose proof edits_distinct as Hd.
    eapply NoDup_lookup in Hd; [| |rewrite list_lookup_fmap, Hi; reflexivity]; [|rewrite list_lookup_fmap, Hj; cbn; by rewrite Heq]. lia.
Qed.

Section Grown.
Context (ours : option text → text → Prop) (Hfree : ∀ s s' x, ours s x → ours s' x) (Hends : ∀ s x, ours s x → ends_nl x = true).
Lemma section_free t sec sec' l m : edited t ours [] sec l m → edited t ours [] sec' l m.
Proof.
  intros H. revert sec'. induction H as [| |? ? ? ? Ho|? ? ? ? ? ? ? ? ? Hin|]; intros sec'; [constructor|by constructor|..|by apply ed_last].
  - apply ed_insert; [by eapply Hfree|done].
  - by apply not_elem_of_nil in Hin.
Qed.
Lemma grown_trans sec l m m' : edited true ours [] sec l m → edited true ours [] sec m m' → edited true ours [] sec l m'.
Proof.
  intros H1 H2. revert l H1. induction H2 as [sec|sec x m m' H2 IH|sec y m m' Hy H2 IH|name key value x pre old post m m' Hin Ha H2 IH|sec x m' Ht He H2 IH];
    intros l H1.
  - done.
  - inversion H1 as [|? ? l1 ? H|? ? ? ? Ho H|n k v x0 ? ? ? l1 ? Hi Hax H|? x0 ? ? He H]; subst.
    + by apply ed_keep, IH.
    + apply ed_insert; [done|]. eapply section_free, IH, section_free, H.
    + by apply not_elem_of_nil in Hi.
    + apply ed_last; [done..|]. eapply section_free, IH, section_free, H.
  - apply ed_insert; [done|]. by apply IH.
  - by apply not_elem_of_nil in Hin.
  - inversion H1 as [|? ? l1 ? H|? ? ? ? Ho H|n k v x0 ? ? ? l1 ? Hi Hax H|? x0 ? ? He0 H]; subst.
    + inversion H; subst. apply ed_last; [done..|]. apply IH. constructor.
    + apply Hends in Ho. congruence.
    + by apply not_elem_of_nil in Hi.
    + unfold ends_nl in He. rewrite last_snoc in He. by rewrite bool_decide_true in He.
Qed.
End Grown.

Lemma block_line_free lan (s s' : option text) x : block_line lan x → block_line lan x.
Proof. done. Qed.
Lemma block_lines_end block x : x ∈ block_lines block → ends_nl x = true.
Proof. intros (line & -> & _)%list_elem_of_fmap. unfold ends_nl. by rewrite last_snoc, bool_decide_true. Qed.
Lemma block_line_ends lan x : block_line lan x → ends_nl x = true.
Proof. intros [->|[H|(section & _ & H)]]; [done|by eapply block_lines_end..]. Qed.
Lemma grows lan sec l m m' : edited true (λ _, block_line lan) [] sec l m → edited true (λ _, block_line lan) [] sec m m' →
  edited true (λ _, block_line lan) [] sec l m'.
Proof. apply grown_trans; [apply block_line_free|intros _; apply block_line_ends]. Qed.
Lemma add_sections_grows document lan sections : (∀ s, s ∈ sections → s ∈ V2_SECTION_ORDER) → ∀ lines changes,
  edited true (λ _, block_line lan) [] None lines (add_sections document lan sections lines changes).1.
Proof.
  induction sections as [|s sections IH]; intros Hs lines changes; cbn [add_sections]; [apply edited_refl|].
  assert (Hrest : ∀ s', s' ∈ sections → s' ∈ V2_SECTION_ORDER) by (intros s' Hs'; apply Hs; by right).
  destruct (dmem document s); [by apply IH|]. eapply grows; [|by apply IH].
  eapply edited_mono; [| |apply append_block_edited]; [|done]. intros _ x [->|Hx]; [by left|]. right. right. exists s. split; [|done]. apply Hs. by left.
Qed.

Section Upgrade.
Context (py : pydantic) (toml_loads : text → table + string) (float_of_text : text → option float).

Lemma set_version_inv lines changes section key lines' changes' : set_version lines changes section key = inl (lines', changes') →
  ∃ old, _set_key lines section key (toml_string FEATURE_SCHEMA_V2_0) = inl (lines', old).
Proof. unfold set_version. destruct (_set_key _ _ _ _) as [[l o]|]; [|done]. intros [= <- _]. by exists o. Qed.
Lemma weights_edited threat lines changes lines' changes' l :
  edited false (new_key (take 4 EDITS)) (take 4 EDITS) None l lines → set_weights threat lines changes = inl (lines', changes') →
  edited false (new_key EDITS) EDITS None l lines'.
Proof.
  intros H4. unfold set_weights. destruct (_ && _).
  - destruct (_set_key lines _ _ _) as [[l1 o1]|] eqn:E1; [|done]. cbn [mbind mig_bind]. destruct (_set_key l1 _ _ _) as [[l2 o2]|] eqn:E2; [|done].
    intros [= <- _]. apply set_key_edited in E1, E2. change EDITS with (take 6 EDITS).
    eapply (next_edit 5); [reflexivity| |exact E2]. by eapply (next_edit 4); [reflexivity|exact H4|].
  - intros [= <- _]. eapply edited_mono; [| |exact H4].
    + intros s x (n & k & v & Hin & ?). exists n, k, v. split; [by eapply subseteq_take|done].
    + apply subseteq_take.
Qed.
Lemma upgrade_1x_edited lan lines document changes lines' changes' :
  _migrate_1x_to_2_0 float_of_text lines document changes = inl (lines', changes') →
  ∃ m, edited false (new_key EDITS) EDITS None lines m ∧ edited true (λ _, block_line lan) [] None m lines'.
Proof.
  unfold _migrate_1x_to_2_0. intros H.
  destruct (set_version lines _ _ _) as [[l1 c1]|] eqn:E1; [|done]. cbn [mbind mig_bind] in H.
  destruct (set_version l1 _ _ _) as [[l2 c2]|] eqn:E2; [|done]. cbn [mbind mig_bind] in H.
  destruct (_set_key l2 _ _ _) as [[l3 o3]|] eqn:E3; [|done]. cbn [mbind mig_bind] in H.
  destruct (_set_key l3 _ _ _) as [[l4 o4]|] eqn:E4; [|done]. cbn [mbind mig_bind] in H.
  apply set_version_inv in E1 as [o1 E1], E2 as [o2 E2]. apply set_key_edited in E1, E2, E3, E4.
  assert (H4 : edited false (new_key (take 4 EDITS)) (take 4 EDITS) None lines l4).
  { eapply (next_edit 3); [reflexivity| |exact E4]. eapply (next_edit 2); [reflexivity| |exact E3]. eapply (next_edit 1); [reflexivity| |exact E2].
    eapply (next_edit 0); [reflexivity|apply edited_refl|exact E1]. }
  destruct (match o4 with None => _ | Some _ => _ end) as [same|]; [|done]. cbn [mbind mig_bind] in H.
  destruct (set_weights _ _ _) as [[l5 c5]|] eqn:E5; [|done]. cbn [mbind mig_bind] in H.
  exists l5. split; [by eapply weights_edited|]. destruct (dmem _ _); injection H as <- <-; [apply edited_refl|].
  eapply edited_mono; [| |apply insert_block_edited]; [|done]. intros _ x [->|Hx]; [by left|by right; left].
Qed.

Lemma edited_survives t ours keys sec l m x : edited t ours keys sec l m → x ∈ l →
  (∀ e, e ∈ keys → assignment (key_of e) (rstrip_nl x) = None) → x ∈ m ∨ x ++ [10] ∈ m.
Proof.
  intros H Hx Hn. induction H as [|? y ? ? _ IH|? ? ? ? _ _ IH|? ? ? y ? ? ? ? ? Hin Ha _ IH|? y ? _ _ _ IH].
  - by apply not_elem_of_nil in Hx.
  - apply elem_of_cons in Hx as [->|Hx]; [left; by left|]. destruct (IH Hx); [left|right]; by right.
  - destruct (IH Hx); [left|right]; by right.
  - apply elem_of_cons in Hx as [->|Hx]; [specialize (Hn _ Hin); cbn in Hn; congruence|]. destruct (IH Hx); [left|right]; by right.
  - apply list_elem_of_singleton in Hx as ->. right. by left.
Qed.

(** an upgrade touches nothing but what it names.  When [migrate_text]
    returns, the lines of the new text are those of the old one in their order,
    except that the values of six named keys in their own sections may be
    replaced, indentation and comment kept, and only if the file pins a 1.x
    schema; that assignments of these keys, blank lines and the lines of the
    shipped blocks may come in between; and that the last line gets a line feed
    if it had none.  In particular every line that assigns none of these keys
    is still there, and the text that is returned parses and passes the
    validation of the whole configuration. *)
Theorem upgrade_keeps_every_other_line t r : migrate_text py toml_loads float_of_text t = inl r →
  ∃ document lan_interface lines, toml_loads t = inl document ∧ dget (_section document "network") "lan_interface" = Some (TStr lan_interface) ∧
    let keys := if _is_v1x document then EDITS else [] in
    mjoin (split_keep [] t) = t ∧ mr_text r = mjoin lines ∧
    edited true (added keys lan_interface) keys None (split_keep [] t) lines ∧
    (∀ line, line ∈ split_keep [] t → (∀ e, e ∈ keys → assignment (key_of e) (rstrip_nl line) = None) → line ∈ lines ∨ line ++ [10] ∈ lines) ∧
    ∃ document' config, toml_loads (mr_text r) = inl document' ∧ PirewallConfig_validate py document' = Some config.
Proof.
  unfold migrate_text, parse_toml. intros H. destruct (toml_loads t) as [document|] eqn:Et; [|done]. cbn [mbind mig_bind] in H.
  destruct (if _is_v1x document then _ else _) as [[l1 c1]|] eqn:E1; [|done]. cbn [mbind mig_bind] in H. unfold _migrate_2_0_to_v2 in H.
  destruct (dget (_section document "network") "lan_interface") as [[lan| | | | | |]|] eqn:El; try done. destruct (String.eqb lan ""); [done|].
  cbn [mbind mig_bind mret mig_ret] in H. destruct (add_sections _ _ _ _ _) as [l2 c2] eqn:E2. cbn [mbind mig_bind] in H.
  destruct (toml_loads (mjoin l2)) as [document'|] eqn:Ed; [|done]. cbn [mbind mig_bind] in H.
  destruct (PirewallConfig_validate py document') as [config|] eqn:Ec; [|done]. injection H as <-.
  exists document, lan, l2. split; [done|]. split; [done|]. cbv zeta. set (keys := if _is_v1x document then EDITS else []).
  assert (Hphases : ∃ m, edited false (new_key keys) keys None (split_keep [] t) m ∧ edited true (λ _, block_line lan) [] None m l2).
  { pose proof (add_sections_grows document lan V2_SECTION_ORDER (λ s H, H) l1 c1) as Hg. rewrite E2 in Hg. unfold keys. destruct (_is_v1x document).
    - destruct (upgrade_1x_edited lan _ _ _ _ _ E1) as (m & Hm & Hl1). exists m. split; [done|]. by eapply grows.
    - injection E1 as <- <-. exists (split_keep [] t). split; [apply edited_refl|done]. }
  destruct Hphases as (m & Hm & Hl2).
  assert (He : edited true (added keys lan) keys None (split_keep [] t) l2).
  { rewrite <- (app_nil_r keys) at 2. eapply (edited_trans true (λ _, block_line lan) keys []); [..|exact Hm|exact Hl2].
    - unfold keys. destruct (_is_v1x document); [apply edits_good|constructor].
    - constructor.
    - by intros ? ? _ ?%not_elem_of_nil. }
  split; [apply (mjoin_split_keep t [])|]. split; [done|]. split; [done|]. split; [|by exists document', config].
  intros line Hline Hn. by eapply edited_survives.
Qed.
End Upgrade.

(** ** Writing loses nothing *)

(** At every point at which a call may fail, the file is the old one or the
    whole new one, and the old one is in the backup before the new one is in
    place; once every call is done the new one is in place with the old mode. *)
Lemma paths_differ path stamp : path +:+ ".new" ≠ path ∧ backup_path path stamp ≠ path ∧ backup_path path stamp ≠ path +:+ ".new".
Proof.
  assert (Hl : ∀ a b, String.length (a +:+ b) = (String.length a + String.length b)%nat).
  { intros a b. induction a as [|c a IH]; [done|]. change (S (String.length (a +:+ b)) = S (String.length a + String.length b)). by rewrite IH. }
  unfold backup_path. repeat split; intros H; apply (f_equal String.length) in H; rewrite !Hl in H; cbn in H; lia.
Qed.
Definition elsewhere (path : string) (c : call) : Prop :=
  match c with Open target | Write target _ | Chmod target _ => target ≠ path | Replace _ _ => False end.
Lemma calls_elsewhere path calls : Forall (elsewhere path) calls → ∀ fs, fold_left (λ fs c, do_call c fs) calls fs !! path = fs !! path.
Proof.
  induction 1 as [|c calls Hc _ IH]; intros fs; [done|]. cbn [fold_left]. rewrite IH.
  destruct c; cbn [elsewhere do_call] in *; repeat case_match; try done; by rewrite lookup_insert_ne.
Qed.
Lemma cut_elsewhere path n c : elsewhere path c → Forall (elsewhere path) (cut_call n c).
Proof. destruct c; cbn; intros; by repeat constructor. Qed.
Theorem write_is_atomic path stamp migrated f fs original mode : fs !! path = Some (original, mode) →
  let '(ok, fs') := write_migrated path stamp migrated f fs in
  (fs' !! path = Some (original, mode) ∨ (fs' !! path = Some (migrated, mode) ∧ fs' !! backup_path path stamp = Some (original, mode))) ∧
  (ok = true → fs' !! path = Some (migrated, mode) ∧ fs' !! backup_path path stamp = Some (original, mode)).
Proof.
  intros Hp. unfold write_migrated. rewrite Hp. destruct (paths_differ path stamp) as (Hn & Hb & Hbn).
  set (calls := write_calls path stamp original mode migrated).
  assert (Hall : fold_left (λ fs c, do_call c fs) calls fs !! path = Some (migrated, mode) ∧
                 fold_left (λ fs c, do_call c fs) calls fs !! backup_path path stamp = Some (original, mode)).
  { unfold calls, write_calls, _write_with_mode. cbn [app fold_left do_call].
    repeat first [rewrite lookup_insert_eq|rewrite lookup_insert_ne by congruence|rewrite lookup_delete_ne by congruence|progress cbv beta iota]. done. }
  unfold calls_done, failed. destruct f as [[k n]|]; cbn [at_call bytes_written]; [|tauto].
  destruct (Nat.ltb_spec k (length calls)) as [Hk|Hk]; cbn [negb].
  - split; [left|done]. rewrite calls_elsewhere; [done|]. change (length calls) with 7%nat in Hk. unfold calls, write_calls, _write_with_mode.
    cbn [app]. do 7 (destruct k as [|k]; [cbn; by repeat constructor|]). lia.
  - rewrite take_ge, lookup_ge_None_2, app_nil_r by done. tauto.
Qed.
