(* ===== verification/NativeLoop.v ===== *)
(** * The native capture loop (runtime/core.py)

    [_native_capture_loop] on a live interface: poll the ring, drain the
    native engine, hand its output over, account for what it shed, and switch
    to the Python path once it panicked too often.  The ring and the engine
    are parameters: [ring_poll] is [capture.poll], which feeds the engine, and
    [shed] its cumulative shed counters; either may raise [NativeEngineError].
    A [tick] is what one iteration reads of its surroundings: the clocks and
    whether the Python capture could start. *)

From S2P Require Import Prelude Float Net Models Sets SetBackend Backend Manager Bindings LeaseSync Flow Tls TlsCache Fallback.
From S2P Require Import Runtime PipelineV1 KernelPoller PipelineV2 Rpc Daemon Watch.
Local Open Scope Z_scope.

Record tick : Type := mk_tick { tk_mono : Z; tk_now : Z; tk_start : option string }.

Section Native.
Context {B F N : Type} {SB : SetBackend B} {FB : FirewallBackend F} {NE : NativeEngine N}.
Context (ring_poll : M N unit) (shed : M N (Z * Z)).
Context (flow : flow_config) (protected : option IPv4.network).
Notation W := (@CoreWatch B F).
Notation Dm := (@CoreDaemon B F).

Record NativeLoop : Type := mk_loop { nl_watch : W; nl_engine : N }.
Notation NL := (M NativeLoop).

Definition on_watch {A} (f : M W A) : NL A := λ l, let '(r, w) := f (nl_watch l) in (r, mk_loop w (nl_engine l)).
Definition on_engine {A} (f : M N A) : NL A := λ l, let '(r, n) := f (nl_engine l) in (r, mk_loop (nl_watch l) n).

(** [try: x = m  except NativeEngineError as exc: ...] *)
Definition caught {A} (m : NL A) : NL (A + string) := try_native (x ← m; mret (inl x)) (λ msg, mret (inr msg)).

(** [_enqueue(flows)] *)
Definition enqueue_all (now : Z) (flows : list Flow) : M Dm unit := mfold_unit (λ f, _ ← _enqueue f now; mret tt) flows.

Definition inspect (p : TcpPayload) : M Dm unit :=
  mmodify (λ d, cd_set_tls d (_inspect_tcp_payload (dm_known_tools (cd_config d)) p (cd_tls_evidence d))).

(** The output of one drain, in the order [NativeBatch] documents. *)
Definition deliver (now : Z) (batch : NativeBatch) : M Dm unit :=
  _ ← mfold_unit inspect (nb_tls_payloads batch);
  _ ← mfold_unit (λ s, _ ← _handle_new_flow s; mret tt) (nb_new_flows batch);
  enqueue_all now (nb_completed batch).

Definition _emit_capture_critical (now : Z) (reason : string) : M W unit :=
  on_daemon (emit_event (mk_event now SEV_CRITICAL CAPTURE_ERROR CORE_SUBSYSTEM None None None (Some reason))).

Definition panicked_times (w : W) : string :=
  "the native engine panicked " +:+ pretty (pb_max (wt_panic_budget w)) +:+ " times within a minute".

Definition start_python_path (w : W) : W :=
  let d := cd_set_aggregator (wt_daemon w)
             (new_aggregator (fc_max_flows flow) (fc_active_timeout flow) (fc_inactive_timeout flow) protected true) in
  wt_set_native (wt_set_daemon w d) false (wt_native_shed w).

Definition swap (now salvaged : Z) (start : option string) : M W bool :=
  w ← mget;
  if dm_replay (cd_config (wt_daemon w)) then
    _ ← _emit_capture_critical now (panicked_times w +:+ " during a replay; the replay was stopped (" +:+ pretty salvaged
          +:+ " open flow(s) salvaged). A replay has no live fallback.");
    mret false
  else match start with
  | Some msg =>
      _ ← _emit_capture_critical now (panicked_times w +:+ " and the Python capture path could not start (" +:+ msg
            +:+ "); capture is down. Enforcement and the static guards keep running.");
      mret false
  | None =>
      _ ← mmodify start_python_path;
      _ ← _emit_capture_critical now (panicked_times w +:+ "; took_over to the Python capture path, which drops packets under load ("
            +:+ pretty salvaged +:+ " open flow(s) salvaged). Restart pirewall-core to return to the native engine.");
      mret true
  end.

Definition _fall_back_to_python (t : tick) : NL bool :=
  salvaged ← try_native (on_engine ne_flush) (λ _, mret []);
  _ ← on_watch (on_daemon (enqueue_all (tk_now t) salvaged));
  on_watch (swap (tk_now t) (Z.of_nat (length salvaged)) (tk_start t)).

(** After a caught panic: [None] is [continue]. *)
Definition panicked (t : tick) (msg : string) : NL (option bool) :=
  exhausted ← on_watch (_note_native_panic (tk_mono t) (tk_now t) msg);
  if (exhausted : bool) then swapped ← _fall_back_to_python t; mret (Some swapped) else mret None.

Definition note_shed (now : Z) (total : Z * Z) : M W unit :=
  w ← mget;
  let known := wt_native_shed w in
  if (known.1 <? total.1) || (known.2 <? total.2) then
    _ ← _note_native_shedding now (total.1 - known.1) (total.2 - known.2);
    mmodify (λ w, wt_set_native w (wt_native w) total)
  else mret tt.

(** One turn of [while not self._stop.is_set()]: what it returns, if it does. *)
Definition native_turn (t : tick) : NL (option bool) :=
  drained ← caught (_ ← on_engine ring_poll; on_engine ne_drain);
  match drained with
  | inr msg => panicked t msg
  | inl batch =>
      _ ← on_watch (on_daemon (deliver (tk_now t) batch));
      total ← caught (on_engine shed);
      match total with
      | inr msg => panicked t msg
      | inl total => _ ← on_watch (note_shed (tk_now t) total); mret None
      end
  end.

(** The loop, stopped after the given turns if it has not returned before. *)
Fixpoint _native_capture_loop (ts : list tick) : NL (option bool) :=
  match ts with
  | [] => mret None
  | t :: ts => r ← native_turn t; match r with Some b => mret (Some b) | None => _native_capture_loop ts end
  end.

(** ** Accounting *)

Definition loop_counters (w : W) : RuntimeCounters := fp_counters (cd_pipeline (wt_daemon w)).

(** Completed flows that are neither in the queue nor counted as dropped, less
    those the engine shed. *)
Definition unaccounted (w : W) : Z :=
  rc_flows_completed (loop_counters w) - Z.of_nat (length (q_flows (cd_queues (wt_daemon w))))
  - q_backpressure_drops (cd_queues (wt_daemon w)) + (wt_native_shed w).1.
(** Drops counted by the queue and by the counters differ by this much. *)
Definition miscounted (w : W) : Z :=
  rc_flows_dropped_for_backpressure (loop_counters w) - q_backpressure_drops (cd_queues (wt_daemon w)).

(** ** Total steps *)

(** [runs R m]: [m] returns from every state, in a state [R] relates to it. *)
Definition runs {S A} (R : S → S → Prop) (m : M S A) : Prop := ∀ s, ∃ a s', m s = (Ok a, s') ∧ R s s'.

Lemma runs_bind {S A C} (R : S → S → Prop) `{!PreOrder R} (m : M S A) (k : A → M S C) :
  runs R m → (∀ a, runs R (k a)) → runs R (m ≫= k).
Proof.
  intros Hm Hk s. destruct (Hm s) as (a & s1 & E1 & R1). destruct (Hk a s1) as (c & s2 & E2 & R2). exists c, s2.
  unfold mbind, m_bind. rewrite E1. split; [done|]. by etransitivity.
Qed.
Lemma runs_ret {S A} (R : S → S → Prop) `{!PreOrder R} (a : A) : runs R (mret a).
Proof. intros s. by exists a, s. Qed.
Lemma runs_fold {S A} (R : S → S → Prop) `{!PreOrder R} (f : A → M S unit) l : (∀ a, runs R (f a)) → runs R (mfold_unit f l).
Proof. intros Hf. induction l as [|a l IH]; [by apply runs_ret|]. cbn. by apply runs_bind. Qed.

(** The daemon's part of the account. *)
Definition owed (d : Dm) : Z * Z :=
  (rc_flows_completed (fp_counters (cd_pipeline d)) - Z.of_nat (length (q_flows (cd_queues d))) - q_backpressure_drops (cd_queues d),
   rc_flows_dropped_for_backpressure (fp_counters (cd_pipeline d)) - q_backpressure_drops (cd_queues d)).
Definition settled (d d' : Dm) : Prop := owed d' = owed d ∧ cd_config d' = cd_config d ∧ cd_aggregator d' = cd_aggregator d.
#[local] Instance settled_preorder : PreOrder settled.
Proof. split; [by intros d|]. intros d1 d2 d3 (?&?&?) (?&?&?). split_and!; congruence. Qed.

Lemma settled_emit e : runs settled (emit_event (B := B) (F := F) e).
Proof.
  intros d. unfold emit_event, on_pipeline, on_forwarder. pose proof (emit_total e (fp_forwarder (cd_pipeline d))) as Ht.
  destruct (emit e _) as [r x]. cbn in *. subst r. by eexists _, _.
Qed.

Lemma settled_enqueue now f : runs settled (_ ← _enqueue (B := B) (F := F) f now; mret tt).
Proof.
  intros d. unfold _enqueue, mbind, m_bind, count_as, on_pipeline, count_v1, mmodify, mget. cbn.
  destruct (_ <? _).
  - eexists _, _. split; [reflexivity|]. unfold settled, owed. cbn. rewrite length_app. cbn. split_and!; [f_equal; lia|done..].
  - unfold _note_backpressure_drop, mbind, m_bind, on_queues, count_as, on_pipeline, count_v1, mmodify, mget. cbn.
    destruct (negb _).
    + eexists _, _. split; [reflexivity|]. unfold settled, owed. cbn. split_and!; [f_equal; lia|done..].
    + unfold emit_warning. match goal with |- context [emit_event ?e ?d] => destruct (settled_emit e d) as ([] & d1 & -> & (Ho & Hc & Ha)) end.
      eexists _, _. split; [reflexivity|]. split_and!; [|by rewrite Hc|by rewrite Ha]. rewrite Ho. unfold owed. cbn. f_equal; lia.
Qed.

Lemma settled_new_flow sig : runs settled (_ ← _handle_new_flow (B := B) (F := F) sig; mret tt).
Proof.
  intros d. unfold _handle_new_flow, mbind, m_bind, on_queues, mmodify, mget. destruct (_ <? _); eexists _, _; (split; [reflexivity|done]).
Qed.

Lemma settled_deliver now batch : runs settled (deliver now batch).
Proof.
  unfold deliver. apply runs_bind; [exact _| |intros _; apply runs_bind; [exact _| |intros _]];
    apply runs_fold; try exact _; intros x.
  - intros d. by eexists _, _.
  - apply settled_new_flow.
  - apply settled_enqueue.
Qed.

Lemma shed_effect now flows (d : Dm) : ∃ d', note_flows_shed now flows d = (Ok tt, d') ∧
  owed d' = ((owed d).1 - flows, (owed d).2) ∧ cd_config d' = cd_config d.
Proof.
  unfold note_flows_shed, mbind, m_bind, count_as, on_pipeline, count_v1, on_queues, mmodify, mget. cbn.
  destruct (_ || _).
  - match goal with |- context [emit_event ?e ?d] => destruct (settled_emit e d) as ([] & d1 & -> & (Ho & Hc & _)) end.
    eexists. split; [reflexivity|]. rewrite Ho, Hc. unfold owed. cbn. split; [f_equal; lia|done].
  - eexists. split; [reflexivity|]. unfold owed. cbn. split; [f_equal; lia|done].
Qed.

(** What a step keeps: the account, the configuration and which engine runs. *)
Definition balanced (w w' : W) : Prop :=
  unaccounted w' = unaccounted w ∧ miscounted w' = miscounted w ∧ cd_config (wt_daemon w') = cd_config (wt_daemon w).
Definition steady (w w' : W) : Prop := balanced w w' ∧ wt_panic_budget w' = wt_panic_budget w ∧ wt_native w' = wt_native w.
#[local] Instance balanced_preorder : PreOrder balanced.
Proof. split; [by intros w|]. intros w1 w2 w3 (?&?&?) (?&?&?). unfold balanced. split_and!; congruence. Qed.
#[local] Instance steady_preorder : PreOrder steady.
Proof.
  split; [intros w; split; [reflexivity|done]|]. intros w1 w2 w3 (?&?&?) (?&?&?). split; [by etransitivity|]. split; congruence.
Qed.

Lemma steady_daemon {A} (m : M Dm A) : runs settled m → runs steady (on_daemon m).
Proof.
  intros Hm w. destruct (Hm (wt_daemon w)) as (a & d & E & [= H1 H2] & Hc & _). exists a, (wt_set_daemon w d).
  unfold on_daemon. rewrite E. split; [done|]. split; [|done]. unfold balanced, unaccounted, miscounted, loop_counters. cbn.
  rewrite H2, Hc. split_and!; [lia|done..].
Qed.

(** What [_note_native_shedding] adds to the account. *)
Lemma shedding_effect now flows signals (w : W) : ∃ w', _note_native_shedding now flows signals w = (Ok tt, w') ∧
  unaccounted w' = unaccounted w - flows ∧ miscounted w' = miscounted w ∧ cd_config (wt_daemon w') = cd_config (wt_daemon w) ∧
  wt_panic_budget w' = wt_panic_budget w ∧ wt_native w' = wt_native w ∧ wt_native_shed w' = wt_native_shed w.
Proof.
  assert (Hf : ∃ w1, (if flows =? 0 then mret tt else on_daemon (note_flows_shed now flows)) w = (Ok tt, w1) ∧
    unaccounted w1 = unaccounted w - flows ∧ miscounted w1 = miscounted w ∧ cd_config (wt_daemon w1) = cd_config (wt_daemon w) ∧
    wt_panic_budget w1 = wt_panic_budget w ∧ wt_native w1 = wt_native w ∧ wt_native_shed w1 = wt_native_shed w).
  { destruct (Z.eqb_spec flows 0) as [H0|_]; [exists w; split_and!; try done; lia|].
    destruct (shed_effect now flows (wt_daemon w)) as (d & E & [= H1 H2] & Hc). exists (wt_set_daemon w d).
    unfold on_daemon. rewrite E. split; [done|]. unfold unaccounted, miscounted, loop_counters. cbn. rewrite H2, Hc. split_and!; [lia|done..]. }
  destruct Hf as (w1 & E1 & Hw1). unfold _note_native_shedding, mbind, m_bind. rewrite E1.
  destruct (signals =? 0); [by exists w1|]. eexists. split; [reflexivity|exact Hw1].
Qed.

Lemma steady_note_shed now total : runs steady (note_shed now total).
Proof.
  intros w. unfold note_shed, mbind, m_bind, mget. destruct (_ || _); [|exists tt, w; split; [done|reflexivity]].
  destruct (shedding_effect now (total.1 - (wt_native_shed w).1) (total.2 - (wt_native_shed w).2) w) as (w1 & -> & U & Mi & C & P & Nt & Sh).
  unfold mmodify. eexists _, _. split; [reflexivity|]. split; [|done].
  unfold balanced, unaccounted, miscounted, loop_counters in *. cbn. split_and!; [|done..]. rewrite Sh in U. lia.
Qed.

Lemma caught_panic_effect mono now msg (w : W) : ∃ w',
  _note_native_panic mono now msg w = (Ok (pb_exhausted (record_panic mono (wt_panic_budget w))), w') ∧ balanced w w' ∧
  wt_panic_budget w' = record_panic mono (wt_panic_budget w) ∧ wt_panics_caught w' = wt_panics_caught w + 1 ∧ wt_native w' = wt_native w.
Proof.
  unfold _note_native_panic, mbind, m_bind, mmodify, mget. rewrite emit_spec. eexists. split; [reflexivity|]. done.
Qed.

(** ** The engine's calls *)

Section EngineOnly.
Context {NL : NativeEngineLaws N}.

Definition engine_only {A} (m : M NativeLoop A) : Prop := ∀ l, ne_dated (nl_engine l) →
  nl_watch (m l).2 = nl_watch l ∧ ne_dated (nl_engine (m l).2) ∧ ∀ e, (m l).1 = Raise e → ∃ msg, e = NativeEngineError msg.

Lemma on_engine_only {A} (f : M N A) : raises_native_only ne_dated f → engine_only (on_engine f).
Proof.
  intros Hf l Hd. unfold on_engine. destruct (f (nl_engine l)) as [r n] eqn:Hr. destruct (Hf _ _ _ Hd Hr) as [Hn He]. by split.
Qed.
Lemma bind_engine_only {A C} (m : M NativeLoop A) (k : A → M NativeLoop C) :
  engine_only m → (∀ a, engine_only (k a)) → engine_only (m ≫= k).
Proof.
  intros Hm Hk l Hd. unfold mbind, m_bind. destruct (Hm l Hd) as (Hw & Hd1 & He). destruct (m l) as [[a|e] l1]; cbn in *.
  - destruct (Hk a l1 Hd1) as (Hw1 & He1). by rewrite Hw1, Hw.
  - split; [done|]. split; [done|]. intros e' [= <-]. by apply He.
Qed.
Lemma caught_spec {A} (m : M NativeLoop A) l : ne_dated (nl_engine l) → engine_only m →
  ∃ r n, caught m l = (Ok r, mk_loop (nl_watch l) n) ∧ ne_dated n.
Proof.
  intros Hd Hm. unfold caught, try_native, mbind, m_bind. destruct (Hm l Hd) as (Hw & Hd1 & He). destruct (m l) as [[a|e] [w n]]; cbn in *; subst w.
  - by eexists _, _.
  - destruct (He _ eq_refl) as [msg ->]. by eexists _, _.
Qed.
Lemma flush_spec l : ne_dated (nl_engine l) → ∃ flows n,
  try_native (on_engine ne_flush) (λ _, mret []) l = (Ok flows, mk_loop (nl_watch l) n) ∧ ne_dated n.
Proof.
  intros Hd. unfold try_native, on_engine. destruct (ne_flush (nl_engine l)) as [r n] eqn:Hr. destruct (ne_flush_law _ _ _ Hd Hr) as [Hn He].
  destruct r as [flows|e]; [by eexists _, _|]. destruct (He _ eq_refl) as [msg ->]. by eexists _, _.
Qed.
End EngineOnly.

Lemma runs_on_watch {A} (R : W → W → Prop) (m : M W A) l : runs R m →
  ∃ a w, on_watch m l = (Ok a, mk_loop w (nl_engine l)) ∧ R (nl_watch l) w.
Proof. intros Hm. destruct (Hm (nl_watch l)) as (a & w & E & HR). exists a, w. unfold on_watch. by rewrite E. Qed.

(** ** The loop *)

Definition fresh_python : FlowAggregator :=
  new_aggregator (fc_max_flows flow) (fc_active_timeout flow) (fc_inactive_timeout flow) protected true.
(** The switch succeeded: the Python aggregator took over. *)
Definition took_over (w : W) : Prop := wt_native w = false ∧ cd_aggregator (wt_daemon w) = fresh_python.
Definition can_switch (t : tick) (w : W) : bool := negb (dm_replay (cd_config (wt_daemon w))) && bool_decide (tk_start t = None).

Lemma swap_effect t n (w : W) : ∃ w', swap (tk_now t) n (tk_start t) w = (Ok (can_switch t w), w') ∧ balanced w w' ∧
  wt_panic_budget w' = wt_panic_budget w ∧ (can_switch t w = true → took_over w').
Proof.
  unfold swap, can_switch, mbind, m_bind, mget, mmodify, _emit_capture_critical. destruct (dm_replay _).
  { rewrite emit_spec. by eexists. }
  destruct (tk_start t) as [msg|]; rewrite emit_spec; (eexists; split; [reflexivity|done]).
Qed.

Section Loop.
Context {NL : NativeEngineLaws N} (ring_law : raises_native_only ne_dated ring_poll) (shed_law : raises_native_only ne_dated shed).

Lemma fall_back_spec t l : ne_dated (nl_engine l) → ∃ w n, _fall_back_to_python t l = (Ok (can_switch t (nl_watch l)), mk_loop w n) ∧ ne_dated n ∧
  balanced (nl_watch l) w ∧ wt_panic_budget w = wt_panic_budget (nl_watch l) ∧ (can_switch t (nl_watch l) = true → took_over w).
Proof.
  intros Hd. unfold _fall_back_to_python, mbind, m_bind. destruct (flush_spec l Hd) as (flows & n & -> & Hn).
  edestruct (runs_on_watch steady (on_daemon (enqueue_all (tk_now t) flows)) (mk_loop (nl_watch l) n)) as (a & w1 & -> & (Hb & Hp & _)).
  { apply steady_daemon, runs_fold; [exact _|]. intros f. apply settled_enqueue. }
  unfold on_watch. cbn [nl_watch nl_engine] in *.
  destruct (swap_effect t (Z.of_nat (length flows)) w1) as (w2 & -> & Hb2 & Hp2 & Hs2).
  assert (Hcan : can_switch t w1 = can_switch t (nl_watch l)) by (unfold can_switch; by destruct Hb as (_ & _ & ->)).
  rewrite Hcan in *. exists w2, n. split; [done|]. split; [done|]. split; [by etransitivity|]. split; [congruence|done].
Qed.

(** What one turn, and then the whole loop, promise. *)
Definition outcome (t : tick) (w w' : W) (o : option bool) : Prop :=
  balanced w w' ∧ (pb_exhausted (wt_panic_budget w') = true ↔ is_Some o) ∧
  (∀ b, o = Some b → b = can_switch t w ∧ (b = true → took_over w')).

Lemma panicked_spec t msg l : ne_dated (nl_engine l) → ∃ o w n, panicked t msg l = (Ok o, mk_loop w n) ∧ ne_dated n ∧ outcome t (nl_watch l) w o.
Proof.
  intros Hd. unfold panicked, mbind, m_bind, on_watch. destruct (caught_panic_effect (tk_mono t) (tk_now t) msg (nl_watch l)) as (w1 & -> & Hb & Hp & _).
  assert (Hcan : can_switch t w1 = can_switch t (nl_watch l)) by (unfold can_switch; by destruct Hb as (_ & _ & ->)).
  destruct (pb_exhausted (record_panic _ _)) eqn:Hex.
  - destruct (fall_back_spec t (mk_loop w1 (nl_engine l)) Hd) as (w2 & n & -> & Hn & Hb2 & Hp2 & Hs). cbn [nl_watch] in *. rewrite Hcan in *.
    eexists _, w2, n. split; [reflexivity|]. split; [done|]. split; [by etransitivity|]. rewrite Hp2, Hp, Hex. split; [split; [by eexists|done]|].
    by intros b [= <-].
  - eexists _, w1, _. split; [reflexivity|]. split; [done|]. split; [done|]. rewrite Hp, Hex. split; [split; [done|by intros [? ?]]|done].
Qed.

Lemma turn_spec t l : ne_dated (nl_engine l) → pb_exhausted (wt_panic_budget (nl_watch l)) = false →
  ∃ o w n, native_turn t l = (Ok o, mk_loop w n) ∧ ne_dated n ∧ outcome t (nl_watch l) w o.
Proof.
  intros Hd Hex. unfold native_turn, mbind, m_bind.
  destruct (caught_spec (_ ← on_engine ring_poll; on_engine ne_drain) l Hd) as ([batch|msg] & n & E & Hn1).
  { apply bind_engine_only; [by apply on_engine_only|]. intros _. apply on_engine_only, ne_drain_law. }
  all: unfold mbind, m_bind in E; rewrite E; clear E.
  2: exact (panicked_spec t msg (mk_loop (nl_watch l) n) Hn1).
  destruct (runs_on_watch steady _ (mk_loop (nl_watch l) n) (steady_daemon _ (settled_deliver (tk_now t) batch))) as (a & w1 & -> & (Hb & Hp & Hn)).
  cbn [nl_watch nl_engine] in *.
  assert (Hcan : can_switch t w1 = can_switch t (nl_watch l)) by (unfold can_switch; by destruct Hb as (_ & _ & ->)).
  destruct (caught_spec (on_engine shed) (mk_loop w1 n) Hn1 (on_engine_only _ shed_law)) as ([total|msg] & n2 & -> & Hn2);
    cbn [nl_watch].
  - destruct (runs_on_watch steady _ (mk_loop w1 n2) (steady_note_shed (tk_now t) total)) as (a2 & w2 & -> & (Hb2 & Hp2 & _)).
    cbn [nl_watch nl_engine] in *. eexists _, w2, n2. split; [reflexivity|]. split; [done|]. split; [by etransitivity|].
    rewrite Hp2, Hp, Hex. split; [split; [done|by intros [? ?]]|done].
  - destruct (panicked_spec t msg (mk_loop w1 n2) Hn2) as (o & w2 & n3 & -> & Hn3 & Hb2 & He2 & Ho). cbn [nl_watch] in *. rewrite Hcan in Ho.
    eexists o, w2, n3. split; [done|]. split; [done|]. split; [by etransitivity|done].
Qed.

(** The native capture loop loses no flow silently.  However often a poll
    or a call of the engine panics, as long as none fails in another way, the
    loop does not raise;
    every flow the engine completed is in the detection queue or counted as
    dropped, every flow it shed is counted as dropped, and the two drop
    counters agree; the loop leaves on its own exactly when the panic budget
    of a minute is spent, and then, on a live interface whose Python capture
    starts, a fresh Python aggregator has taken over. *)
Theorem native_loop_loses_nothing_silently ts l : ne_dated (nl_engine l) → pb_exhausted (wt_panic_budget (nl_watch l)) = false →
  ∃ o l', _native_capture_loop ts l = (Ok o, l') ∧
    let w := nl_watch l in let w' := nl_watch l' in
    unaccounted w' = unaccounted w ∧ miscounted w' = miscounted w ∧
    (is_Some o ↔ pb_exhausted (wt_panic_budget w') = true) ∧
    (o = Some true → took_over w') ∧
    (o = Some false → dm_replay (cd_config (wt_daemon w)) = true ∨ ∃ t, t ∈ ts ∧ is_Some (tk_start t)).
Proof.
  revert l. induction ts as [|t ts IH]; intros l Hd Hex; cbn [_native_capture_loop].
  { exists None, l. split; [done|]. cbn. split_and!; try done. rewrite Hex. split; [by intros [? ?]|done]. }
  destruct (turn_spec t l Hd Hex) as (o & w & n & E & Hn & Hb & He & Ho). unfold mbind, m_bind. rewrite E. destruct o as [b|].
  - exists (Some b), (mk_loop w n). split; [done|]. cbn. destruct Hb as (Hu & Hm & _). destruct (Ho b eq_refl) as [Hc Hs].
    split; [done|]. split; [done|]. split; [tauto|]. split; [by intros [= ->]; apply Hs|]. intros [= ->]. unfold can_switch in Hc.
    destruct (dm_replay _); [by left|]. right. exists t. split; [set_solver|]. destruct (tk_start t); [by eexists|]. done.
  - destruct (IH (mk_loop w n) Hn) as (o & l' & -> & Hu & Hm & Hex' & Hs & Hf).
    { destruct (pb_exhausted (wt_panic_budget (nl_watch (mk_loop w n)))) eqn:Hw; [|done]. by apply He in Hw as [? ?]. }
    exists o, l'. split; [done|]. destruct Hb as (Hu1 & Hm1 & Hc1). cbn in *. rewrite Hu, Hm, <- Hc1. split_and!; try done.
    intros [?|(t' & Ht & ?)]%Hf; [by left|]. right. exists t'. split; [set_solver|done].
Qed.
End Loop.
End Native.
