(* ===== verification/Fixtures.v ===== *)
(** * A small deployment

    A concrete configuration, candidates, and managers over the in-memory
    kernel, on which the theorems' hypotheses are seen to hold. *)

From S2P Require Import Prelude Float Net Models RateLimiter Sets SetBackend FakeSets Validator AllowlistStore Backend Manager Lifecycle Reachable Bindings BindingSync LeaseSync Policy PolicyProps.
Local Open Scope Z_scope.

Definition sample_policy : PolicyConfig := mk_policy_config 300 300 2 3600 2 4096 256.

Definition sample_net : IPv4.network := IPv4.mk_network (IPv4.a_b_c_d 192 168 5 0) 24.

Definition sample_config (mode : EnforcementMode) : PirewallConfig :=
  mk_config sample_net (IPv4.a_b_c_d 10 0 0 1) (IPv4.a_b_c_d 192 168 5 1) (IPv4.a_b_c_d 192 168 5 10) None
    mode (float_of_Z 90) 10 60 24 [] 60 sample_policy.

Definition sample_local : LocalAddresses := mk_local [IPv4.a_b_c_d 192 168 5 1] [IPv4.a_b_c_d 192 168 5 255].

Definition device : IPv4.t := IPv4.a_b_c_d 192 168 5 20.
Definition device_mac : string := "02:00:00:00:00:20".

(** A candidate against [device], backed by decision ["d1"]. *)
Definition sample_candidate (id : string) (action : FirewallAction) (evidence : list string) : CandidateRule :=
  mk_candidate
    (mk_rule_fields action INBOUND (IPv4.host device) (IPv4.host (IPv4.a_b_c_d 203 0 113 7)) ANY None None "scan"
      (Some (float_of_Z 95)) evidence [] None)
    id "d1" 0 (Some (seconds 300)) CANDIDATE.

Definition block_candidate : CandidateRule := sample_candidate "r1" BLOCK ["e1"].
Definition limit_candidate : CandidateRule := sample_candidate "r0" RATE_LIMIT ["e0"].

Definition sample_decision : FirewallDecision :=
  mk_decision "d1" "t1" None BLOCK (float_of_Z 95) CRITICAL "scan" ["e1"] 0.

Definition SampleManager : Type := FirewallManager FakeSetBackend FakeFirewallBackend.

Definition sample_kernel : FakeSetBackend := new_fake 0 64 256 None.

(** A freshly started v2 manager that knows decision ["d1"]. *)
Definition sample_manager (mode : EnforcementMode) : SampleManager :=
  (register_decision sample_decision
    (new_manager (sample_config mode) new_fake_backend None (Some sample_kernel) (λ _, None) sample_local)).2.

(** The same without a set backend. *)
Definition sample_v1_manager (mode : EnforcementMode) : SampleManager :=
  (register_decision sample_decision
    (new_manager (sample_config mode) new_fake_backend None None (λ _, None) sample_local)).2.

Definition no_submission : SubmissionResult := mk_submission None (event 0 SEV_INFO SYSTEM_WARNING "").
Definition no_rule : FirewallRule := rule_of_candidate block_candidate 0 None.

Definition submission_of (r : result SubmissionResult) : SubmissionResult :=
  match r with Ok sr => sr | Raise _ => no_submission end.
Definition rule_of (sr : SubmissionResult) : FirewallRule := default no_rule (sr_rule sr).
Definition kernel_or (m : SampleManager) : FakeSetBackend := default sample_kernel (m_sets m).

(** A rate-limited device, in ACTIVE mode. *)
Definition limited_manager : SampleManager := (submit_candidate limit_candidate 0 (sample_manager MODE_ACTIVE)).2.

(** A kernel that refuses its next write. *)
Definition refusing (b : FakeSetBackend) : FakeSetBackend :=
  mk_fake (fk_now b) (fk_adaptive_size b) (fk_binding_size b) (fk_tables b) (fk_guards b) (fk_counters b)
    (fk_ops b) true (fk_calls b) (fk_failures b).

Definition refused_manager : SampleManager := set_sets (sample_manager MODE_ACTIVE) (Some (refusing sample_kernel)).

Lemma sample_config_wf mode : config_wf (sample_config mode).
Proof.
  unfold config_wf, policy_config_wf, IPv4.wf, IPv4.valid.
  cbn [sample_config sample_policy sample_net c_protected_network c_upstream_gateway c_pirewall_lan_ip c_admin_pc_ip
    c_max_adaptive_rules_per_window c_rate_window_seconds c_min_rule_prefix_length c_grace_seconds c_allowlist c_policy
    IPv4.net_addr IPv4.prefixlen].
  split_and!; try lia; try constructor; vm_compute; done.
Qed.

Lemma sample_candidate_wf id action evidence : rule_fields_wf (sample_candidate id action evidence).
Proof.
  unfold rule_fields_wf, IPv4.wf, IPv4.valid. cbn [sample_candidate rf_source rf_destination].
  split_and!; try lia; try done; vm_compute; done.
Qed.

Lemma sample_manager_reachable mode : reachable (sample_manager mode).
Proof. unfold sample_manager. eapply reachable_step; [apply reachable_new|exists 0; apply step_register]. Qed.

Lemma sample_v1_manager_reachable mode : reachable (sample_v1_manager mode).
Proof. unfold sample_v1_manager. eapply reachable_step; [apply reachable_new|exists 0; apply step_register]. Qed.

Lemma limited_manager_reachable : reachable limited_manager.
Proof.
  unfold limited_manager. eapply reachable_step; [apply (sample_manager_reachable MODE_ACTIVE)|].
  eexists. apply step_submit. vm_compute. reflexivity.
Qed.

(** ** Lease sync *)

Definition chars (s : string) : text := (λ c, Z.of_nat (nat_of_ascii c)) <$> string_to_list s.

Definition sample_leases : text := chars "1000 02:00:00:00:00:20 192.168.5.20 phone *".

Definition empty_table : LeaseBindingTable := mk_table [] [] [].

Definition sample_lease_sync : LeaseSync FakeSetBackend FakeFirewallBackend :=
  new_lease_sync sample_net "leases" empty_table (sample_manager MODE_ACTIVE).

Definition refused_lease_sync : LeaseSync FakeSetBackend FakeFirewallBackend :=
  new_lease_sync sample_net "leases" empty_table refused_manager.

Lemma empty_table_wf : table_wf empty_table.
Proof. split; [constructor|]. split; [constructor|]. done. Qed.

(** ** Policy *)

Definition table_or_empty (r : result PolicyTable) : PolicyTable :=
  match r with Ok t => t | Raise _ => mk_policy_table 1 [] [] [] end.

Definition sample_engine : PolicyEngine := new_engine (table_or_empty shipped_table) sample_policy.

Definition sample_target : RuleTarget := mk_target device (Some device_mac).

Definition scan_evidence (id : string) (value : Z) : Evidence :=
  EvD1 (mk_d1_ev id VERTICAL_SCAN 60 (float_of_Z value) (float_of_Z 20) (Some device_mac) 0).

Definition sample_bundle (value : Z) : EvidenceBundle := mk_bundle sample_target [scan_evidence "e1" value].

Lemma shipped_table_loads : shipped_table = Ok (table_or_empty shipped_table).
Proof. vm_compute. reflexivity. Qed.

Lemma sample_engine_ok : engine_ok sample_engine.
Proof.
  split; [repeat split; vm_compute; congruence|]. split; [eapply load_policy_table_ok, shipped_table_loads|].
  split; [constructor|]. split; [vm_compute; congruence|]. done.
Qed.

(** The same engine with room for one evidence id per device. *)
Definition forgetful_engine : PolicyEngine :=
  new_engine (table_or_empty shipped_table) (mk_policy_config 300 300 2 3600 2 4096 1).

Definition decided (r : result (list PolicyDecision)) : list FirewallAction :=
  match r with Ok ds => pd_action <$> ds | Raise _ => [] end.

(** A submission that does not raise, as an equation. *)
Lemma submission_eq c now (m : SampleManager) :
  (match (submit_candidate c now m).1 with Ok _ => true | Raise _ => false end) = true →
  submit_candidate c now m = (Ok (submission_of (submit_candidate c now m).1), (submit_candidate c now m).2).
Proof. destruct (submit_candidate c now m) as [[sr|e] m']; done. Qed.

Lemma sample_local_wf : local_wf sample_local.
Proof. split; repeat (apply Forall_cons; split); try apply Forall_nil; vm_compute; done. Qed.

Lemma fresh_lease_sync_in_step : in_step true sample_lease_sync.
Proof.
  split; [apply empty_table_wf|]. eexists. split; [reflexivity|]. intros _ f t s k Hin. split.
  - intros [x Hx]. exfalso. revert Hx. unfold binding_addresses in Hin. cbn in Hin.
    repeat (rewrite elem_of_cons in Hin; destruct Hin as [[= -> -> ->]|Hin]; [vm_compute; done|]).
    by rewrite elem_of_nil in Hin.
  - intros (b & Hb & _). by rewrite elem_of_nil in Hb.
Qed.
