(* ===== verification/Witnesses.v ===== *)
(** * Where the code departs from its documentation

    Each theorem runs the model on a concrete deployment and exhibits one
    behaviour that a docstring or a design document rules out. *)

From S2P Require Import Prelude Float Net Models RateLimiter Sets SetBackend FakeSets Validator AllowlistStore Backend Manager Lifecycle Reachable Bindings BindingSync LeaseSync Policy Fixtures.
Local Open Scope Z_scope.

(** ** Approving a held BLOCK *)

Definition held_manager : SampleManager := (submit_candidate block_candidate 0 (sample_manager MODE_ASSISTED)).2.

(** The status of a rule and whether the kernel enforces [block4] on [device]. *)
Definition enforced (m : SampleManager) (id : string) : option RuleStatus * bool :=
  (fr_status <$> get_rule m id,
   bool_decide (is_Some (kv_elem (sb_view (kernel_or m)) (adaptive_address SET_BLOCK4)
     (KStr (IPv4.to_string device))))).

(** A held BLOCK can be approved after the kill switch: the mode is SHADOW,
    and the rule becomes ACTIVE with its element live in the kernel. *)
Theorem approval_enforces_after_kill_switch :
  let killed := (revert_to_base 1 held_manager).2 in
  let approved := (approve_pending "r1" 2 killed).2 in
  enforced held_manager "r1" = (Some PENDING_APPROVAL, false) ∧
  m_mode killed = MODE_SHADOW ∧ enforced killed "r1" = (Some PENDING_APPROVAL, false) ∧
  m_mode approved = MODE_SHADOW ∧ enforced approved "r1" = (Some ACTIVE, true).
Proof. vm_compute. auto. Qed.

Definition device_entry : AllowlistEntry :=
  mk_allow "a1" (IPv4.host device) None None "trusted" 1 "admin" (Some device_mac).

(** A held BLOCK can be approved after its device was allowlisted, which no
    freshly submitted candidate survives. *)
Theorem approval_ignores_later_allowlist :
  let listed := (add_allowlist_entry device_entry held_manager).2 in
  let approved := (approve_pending "r1" 2 listed).2 in
  device_entry ∈ m_allowlist listed ∧ enforced approved "r1" = (Some ACTIVE, true) ∧
  sr_rule (submission_of (submit_candidate (sample_candidate "r2" BLOCK ["e2"]) 2 listed).1) = None.
Proof. vm_compute. split; [by left|]. auto. Qed.

(** Two BLOCKs held for one device can both be approved; they share one
    kernel element, so disabling one leaves the other ACTIVE with nothing in
    the kernel behind it. *)
Theorem twin_approvals_share_one_element :
  let held := (submit_candidate (sample_candidate "r2" BLOCK ["e2"]) 0 held_manager).2 in
  let both := (approve_pending "r2" 2 (approve_pending "r1" 1 held).2).2 in
  let disabled := (disable_rule "r1" 3 both).2 in
  enforced both "r1" = (Some ACTIVE, true) ∧ enforced both "r2" = (Some ACTIVE, true) ∧
  enforced disabled "r1" = (Some DISABLED, false) ∧ enforced disabled "r2" = (Some ACTIVE, false).
Proof. vm_compute. auto. Qed.

(** ** Lease sync *)

Definition kernel_binds (s : LeaseSync FakeSetBackend FakeFirewallBackend) : bool :=
  bool_decide (is_Some (kv_elem (sb_view (kernel_or (ls_manager s))) ("inet", STATIC_TABLE, SET_BOUND4)
    (KStr (IPv4.to_string device)))).

(** When the kernel refuses the startup seed, later passes write only what
    changes in the file: the table holds the device's binding, every pass
    reports success, and the kernel never learns of it. *)
Theorem refused_seed_is_not_retried :
  let file := inr (50, sample_leases) in
  let s0 := seed file 0 refused_lease_sync in
  let s1 := poll file 1 s0.2 in
  let s2 := poll file 2 s1.2 in
  s0.1 = Ok false ∧ s1.1 = Ok 0 ∧ s2.1 = Ok 0 ∧ ls_failures s2.2 = 1 ∧ ls_needs_full_resync s2.2 = false ∧
  resolve_mac (ls_table s2.2) device = Some device_mac ∧ kernel_binds s2.2 = false ∧
  kernel_binds (poll file 1 sample_lease_sync).2 = true.
Proof. vm_compute. auto 10. Qed.

(** ** Policy *)

(** The engine's pass over one scan report about the device. *)
Definition decide_scan (id : string) (now : Z) (e : PolicyEngine) : result (list PolicyDecision) * PolicyEngine :=
  decide_bundle (λ _, false) (mk_bundle sample_target [scan_evidence id 30]) MODE_ACTIVE now e.

(** The memory of decided evidence is bounded, so an id that was evicted acts
    again: the same scan evidence blocks the device a second time. *)
Theorem evicted_evidence_acts_again :
  let first := decide_scan "e1" 0 forgetful_engine in
  let again := decide_scan "e1" 1 first.2 in
  let other := decide_scan "e2" 2 again.2 in
  decided first.1 = [BLOCK] ∧ decided again.1 = [] ∧ decided other.1 = [BLOCK] ∧
  decided (decide_scan "e1" 3 other.2).1 = [BLOCK].
Proof. vm_compute. auto. Qed.

(** * The theorems at work

    Each theorem with hypotheses, applied to the concrete deployment of
    [Fixtures]. *)

From S2P Require Import Enforce PolicyProps Throttle PortalSessions Hex PortalStore PortalService.
Local Open Scope Z_scope.

(** [device] is blocked: a submission in ACTIVE mode. *)
Definition blocking (m : SampleManager) : result SubmissionResult * SampleManager := submit_candidate block_candidate 0 m.

Lemma deployed_element_is_validated_witness :
  ∃ t set key b', rt_ip t = device ∧ _element_of (rule_of (submission_of (blocking (sample_manager MODE_ACTIVE)).1)) = Some (set, key) ∧
    m_sets (blocking (sample_manager MODE_ACTIVE)).2 = Some b' ∧
    is_Some (kv_elem (sb_view b') (adaptive_address set) (KStr key)).
Proof.
  destruct (deployed_element_is_validated (sample_manager MODE_ACTIVE) sample_kernel block_candidate 0
    (submission_of (blocking (sample_manager MODE_ACTIVE)).1)
    (rule_of (submission_of (blocking (sample_manager MODE_ACTIVE)).1)) (blocking (sample_manager MODE_ACTIVE)).2)
    as (t & b' & Hip & _ & _ & Hs & _ & Hrest).
  - vm_compute. reflexivity.
  - apply sample_candidate_wf.
  - apply (sample_config_wf MODE_ACTIVE).
  - apply submission_eq. vm_compute. reflexivity.
  - vm_compute. reflexivity.
  - vm_compute. reflexivity.
  - destruct Hrest as (_ & _ & _ & _ & set & key & deadline & _ & _ & Hel & Hd & _). exists t, set, key, b'.
    exact (conj Hip (conj Hel (conj Hs (ex_intro _ deadline Hd)))).
Defined.

(** The documents put APPROVED between VALIDATING and DEPLOYED; a rule deployed
    in ACTIVE mode has no such transition. *)
Lemma direct_deployment_skips_approved :
  ((λ t, (tr_from_status t, tr_to_status t)) <$> m_transitions (blocking (sample_manager MODE_ACTIVE)).2) =
    [(None, VALIDATING); (Some VALIDATING, DEPLOYED); (Some DEPLOYED, ACTIVE)] ∧
  documented_edge (Some VALIDATING) DEPLOYED = false ∧ documented_edge (Some VALIDATING) APPROVED = true.
Proof. vm_compute. auto. Qed.

Lemma kill_switch_reverts_enforcement_witness :
  ∃ ev m', revert_to_base 1 limited_manager = (Ok ev, m') ∧ m_mode m' = MODE_SHADOW ∧ active_rules m' = [].
Proof.
  destruct (kill_switch_reverts_enforcement limited_manager (kernel_or limited_manager) 1)
    as (ev & m' & _ & Heq & Hm & Ha & _);
    [apply limited_manager_reachable|vm_compute; reflexivity|]. exists ev, m'. exact (conj Heq (conj Hm Ha)).
Defined.

Lemma kill_switch_v1_reverts_enforcement_witness :
  ∃ ev m', revert_to_base 1 (sample_v1_manager MODE_ACTIVE) = (Ok ev, m') ∧ m_mode m' = MODE_SHADOW ∧ active_rules m' = [].
Proof.
  apply (kill_switch_v1_reverts_enforcement (sample_v1_manager MODE_ACTIVE) 1);
    [apply sample_v1_manager_reachable|vm_compute; reflexivity].
Defined.

Lemma fail_open_keeps_guards_witness :
  ∃ ev m', fail_open_shutdown 1 limited_manager = (Ok ev, m') ∧ m_mode m' = MODE_ACTIVE ∧ active_rules m' = [].
Proof.
  destruct (fail_open_keeps_guards limited_manager (kernel_or limited_manager) 1) as (ev & m' & _ & Heq & Hm & Ha & _);
    [apply limited_manager_reachable|vm_compute; reflexivity|]. exists ev, m'. exact (conj Heq (conj Hm Ha)).
Defined.

Lemma panic_deletes_exactly_v2_witness :
  ∃ m' b', m_sets m' = Some b' ∧ (panic "admin" 1 limited_manager).2 = m'.
Proof.
  assert (Hk : m_sets limited_manager = Some (kernel_or limited_manager)) by (vm_compute; reflexivity).
  destruct (panic_deletes_exactly_v2 limited_manager (kernel_or limited_manager) "admin" 1 limited_manager_reachable Hk)
    as (m' & b' & Hs & [(pr & ev & Heq & _)|(msg & Heq & _)]); exists m', b'; exact (conj Hs (f_equal snd Heq)).
Defined.

Lemma audit_trail_sound_witness :
  audit (m_transitions limited_manager) ∧ last_status (m_transitions limited_manager) "r0" = Some ACTIVE.
Proof.
  destruct (audit_trail_sound limited_manager limited_manager_reachable) as (Ha & _ & Hr & _). split; [done|].
  destruct (get_rule limited_manager "r0") as [r|] eqn:Hg; [|vm_compute in Hg; discriminate Hg].
  destruct (Hr _ _ Hg) as [_ ->]. vm_compute in Hg. injection Hg as <-. reflexivity.
Defined.

(** One rule was created at 0, by the submission of [blocking]. *)
Lemma rate_cap_never_exceeded_witness :
  Z.of_nat (length (in_window 0 (0 + seconds (c_rate_window_seconds (sample_config MODE_ACTIVE))) (creations (blocking (sample_manager MODE_ACTIVE)).2))) ≤
    c_max_adaptive_rules_per_window (sample_config MODE_ACTIVE) ∧ creations (blocking (sample_manager MODE_ACTIVE)).2 = [0].
Proof.
  split; [|vm_compute; reflexivity]. apply (rate_cap_never_exceeded (sample_config MODE_ACTIVE) 0); [vm_compute; discriminate|].
  apply (run_step _ 0 0 (sample_manager MODE_ACTIVE)); [|lia|apply step_submit; vm_compute; reflexivity].
  unfold sample_manager. eapply (run_step _ 0 0); [apply run_new|lia|apply step_register].
Defined.

Lemma shadow_never_enforces_witness :
  m_sets (blocking (sample_manager MODE_SHADOW)).2 = Some sample_kernel.
Proof.
  unfold blocking. generalize (shadow_never_enforces (sample_manager MODE_SHADOW) block_candidate 0 eq_refl).
  destruct (submit_candidate block_candidate 0 (sample_manager MODE_SHADOW)) as [r m'].
  intros (_ & Hs & _). cbn [snd]. rewrite Hs. reflexivity.
Defined.

Lemma assisted_holds_strong_blocks_witness :
  m_sets (blocking (sample_manager MODE_ASSISTED)).2 = Some sample_kernel.
Proof.
  assert (Hrev : _needs_review (sample_manager MODE_ASSISTED) block_candidate = true) by (vm_compute; reflexivity).
  unfold blocking. generalize (assisted_holds_strong_blocks (sample_manager MODE_ASSISTED) block_candidate 0 eq_refl Hrev).
  destruct (submit_candidate block_candidate 0 (sample_manager MODE_ASSISTED)) as [r m'].
  intros (_ & Hs & _). cbn [snd]. rewrite Hs. reflexivity.
Defined.

Lemma failed_deploy_changes_nothing_witness :
  fr_status (rule_of (submission_of (blocking refused_manager).1)) = REJECTED ∧
  ∃ b', m_sets (blocking refused_manager).2 = Some b' ∧ view_eq (sb_view b') (sb_view (refusing sample_kernel)).
Proof.
  split; [vm_compute; reflexivity|].
  apply (failed_deploy_changes_nothing refused_manager (refusing sample_kernel) block_candidate 0
    (submission_of (blocking refused_manager).1) (rule_of (submission_of (blocking refused_manager).1))
    (blocking refused_manager).2);
    [vm_compute; reflexivity|apply submission_eq; vm_compute; reflexivity|vm_compute; reflexivity..].
Defined.

Lemma upgrade_is_atomic_witness :
  ∃ b', m_sets (blocking limited_manager).2 = Some b' ∧
    kv_elem (sb_view b') (adaptive_address SET_RATELIMIT4) (KStr (IPv4.to_string device)) = None.
Proof.
  destruct (upgrade_is_atomic limited_manager (kernel_or limited_manager) block_candidate 0
    (submission_of (blocking limited_manager).1) (rule_of (submission_of (blocking limited_manager).1))
    (blocking limited_manager).2 (mk_target device None)
    (mk_active (default no_rule (get_rule limited_manager "r0")) (mk_target device None))
    SET_RATELIMIT4 (IPv4.to_string device))
    as (b' & Hs & [(_ & _ & Hgone & _)|(Hrej & _)]);
    [apply limited_manager_reachable|vm_compute; reflexivity..|by right|apply submission_eq; vm_compute; reflexivity
    |vm_compute; reflexivity|vm_compute; discriminate|vm_compute; discriminate| |].
  - exists b'. split; [exact Hs|exact Hgone].
  - vm_compute in Hrej. discriminate Hrej.
Defined.

Lemma expire_rules_exact_witness :
  ∃ m', (expire_rules (seconds 301) limited_manager).2 = m' ∧ fr_status <$> get_rule m' "r0" = Some EXPIRED.
Proof.
  destruct (expire_rules_exact limited_manager (seconds 301) limited_manager_reachable) as (m' & Heq & Hget & _).
  exists m'. rewrite Heq. split; [reflexivity|]. rewrite Hget. vm_compute. reflexivity.
Defined.

(** ** Validation *)

Definition printer_entry : AllowlistEntry := mk_allow "a2" (IPv4.host (IPv4.a_b_c_d 192 168 5 60)) None None "printer" 0 "admin" None.
Lemma v1_approved_is_safe_witness :
  IPv4.contains (IPv4.host device) (IPv4.a_b_c_d 192 168 5 60) = false ∧
  ∃ x, IPv4.valid x ∧ IPv4.contains sample_net x = true ∧ IPv4.contains (IPv4.host device) x = false.
Proof.
  destruct (v1_approved_is_safe block_candidate (sample_config MODE_ACTIVE) ["d1"] [] [printer_entry] (new_limiter 10 60) 0 sample_local None)
    as (_ & Hal & Hnet & _);
    [apply sample_candidate_wf|apply sample_config_wf|apply sample_local_wf| |vm_compute; reflexivity..|].
  { constructor; [|constructor]. split; [|split; [intros m [=]|reflexivity]]. unfold IPv4.wf, IPv4.valid. vm_compute. intuition congruence. }
  split.
  - apply (Hal printer_entry); [by left|by left|by left| |vm_compute; reflexivity]. unfold IPv4.valid. vm_compute. intuition congruence.
  - apply (Hnet (IPv4.host device)). by left.
Defined.

Definition limit_target : ActiveTarget :=
  mk_active (rule_with_status (rule_of_candidate limit_candidate 0 None) ACTIVE) (mk_target device None).

Lemma v2_approved_is_safe_witness : device ∉ infrastructure (sample_config MODE_ACTIVE) sample_local.
Proof.
  destruct (v2_approved_is_safe block_candidate (Some (mk_target device None)) (sample_config MODE_ACTIVE) ["d1"]
    [limit_target] [] (new_limiter 10 60) 0 sample_local) as (t & Ht & _ & Hinf & _); [vm_compute; reflexivity..|].
  injection Ht as <-. exact Hinf.
Defined.

Lemma v2_upgrade_needs_new_evidence_witness :
  ∃ i, i ∈ rf_evidence block_candidate ∧ i ∉ rf_evidence (at_rule limit_target).
Proof.
  destruct (v2_upgrade_needs_new_evidence block_candidate (Some (mk_target device None)) (sample_config MODE_ACTIVE) ["d1"]
    [limit_target] [] (new_limiter 10 60) 0 sample_local) as (t & Ht & _ & Hup); [vm_compute; reflexivity|].
  injection Ht as <-. destruct (Hup limit_target) as [_ Hev]; [by left|vm_compute; reflexivity..|]. exact Hev.
Defined.

(** ** Bindings *)

Definition sample_lease : Binding := mk_binding device device_mac LEASE (Some (seconds 1000)).

Lemma apply_leases_resolution_witness :
  ∃ change t', apply_leases [sample_lease] 0 empty_table = (Ok change, t') ∧ is_Some (resolve_mac t' device).
Proof.
  destruct (apply_leases_resolution empty_table [sample_lease] 0) as (change & t' & Heq & _ & _ & Hall);
    [apply empty_table_wf| |repeat constructor|].
  - apply Forall_cons. split; [|constructor]. split; [split; vm_compute; done|]. split; [vm_compute; reflexivity|done].
  - exists change, t'. split; [exact Heq|]. apply (Hall sample_lease); [by left|vm_compute; reflexivity].
Defined.

Lemma poll_keeps_kernel_in_step_witness :
  let file := inr (50, sample_leases) in
  ∃ n s', poll file 1 (seed file 0 sample_lease_sync).2 = (Ok n, s') ∧
    (ls_needs_full_resync s' = false ∨ ls_needs_full_resync s' = true ∧ ls_failures s' = 1).
Proof.
  cbv zeta.
  destruct (poll_keeps_kernel_in_step sample_lease_sync sample_kernel (inr (50, sample_leases)) 0 (seed (inr (50, sample_leases)) 0 sample_lease_sync).2 true
    (seed (inr (50, sample_leases)) 0 sample_lease_sync).2 (inr (50, sample_leases)) 1) as (n & s' & v' & Heq & _ & Hr).
  - apply fresh_lease_sync_in_step.
  - reflexivity.
  - vm_compute. reflexivity.
  - apply at_start.
  - exists n, s'. split; [exact Heq|]. destruct Hr as [(Hn & _)|(Hn & Hf & _)]; [left; exact Hn|right; split; [exact Hn|rewrite Hf; vm_compute; reflexivity]].
Defined.

Lemma poll_unreadable_keeps_bindings_witness :
  ∃ n s', poll (inl "No such file") 0 sample_lease_sync = (Ok n, s') ∧
    ∀ b, lookup_binding (ls_table s') (b_ip b) = Some b ↔
         lookup_binding empty_table (b_ip b) = Some b ∧ (b_source b = LEASE → 0 < _expiry b).
Proof. exact (poll_unreadable_keeps_bindings true "No such file" 0 sample_lease_sync fresh_lease_sync_in_step). Defined.

Lemma seed_reports_truthfully_witness :
  ∃ r s', seed (inr (50, sample_leases)) 0 sample_lease_sync = (Ok r, s') ∧ table_wf (ls_table s').
Proof.
  destruct (seed_reports_truthfully (inr (50, sample_leases)) 0 sample_lease_sync sample_kernel)
    as (r & s' & _ & Heq & _ & Hwf & _); [apply empty_table_wf|reflexivity|]. exists r, s'. split; [exact Heq|exact Hwf].
Defined.

Lemma sync_allowlist_exact_witness :
  ∃ b', m_sets (sync_allowlist (sample_manager MODE_ACTIVE)).2 = Some b'.
Proof.
  generalize (sync_allowlist_exact (sample_manager MODE_ACTIVE) sample_kernel eq_refl).
  destruct (sync_allowlist (sample_manager MODE_ACTIVE)) as [r m']. intros (b' & Hs & _). exists b'. exact Hs.
Defined.

(** ** Policy *)

Definition nobody : RuleTarget → bool := λ _, false.
Definition deciding : result (list PolicyDecision) * PolicyEngine :=
  decide_bundle nobody (sample_bundle 30) MODE_ACTIVE 0 sample_engine.

Definition block_decision : PolicyDecision :=
  match deciding.1 with Ok (d :: _) => d | _ => mk_policy_decision sample_target MONITOR None [] [] false 0 LOW end.

Lemma enforcement_needs_hard_evidence_witness :
  pd_action block_decision = BLOCK ∧
  ∃ x, x ∈ eb_evidence (sample_bundle 30) ∧ hard_evidence (pe_table sample_engine) 2 x = true.
Proof.
  split; [vm_compute; reflexivity|].
  destruct (enforcement_needs_hard_evidence nobody (sample_bundle 30) MODE_ACTIVE 0
    sample_engine [block_decision] deciding.2 block_decision sample_engine_ok) as [Hres _];
    [vm_compute; reflexivity|by left|].
  destruct Hres as (_ & x & Hx & Hh & _); [vm_compute; reflexivity|]. exists x. split; [exact Hx|exact Hh].
Defined.

Lemma decisions_bounded_witness :
  ∃ ds e', decide_bundle nobody (sample_bundle 30) MODE_ACTIVE 0 sample_engine = (Ok ds, e') ∧
    engine_ok e'.
Proof.
  destruct (decisions_bounded nobody (sample_bundle 30) MODE_ACTIVE 0 sample_engine
    sample_engine_ok) as (ds & e' & Heq & Hok & _). exists ds, e'. split; [exact Heq|exact Hok].
Defined.

Lemma repeated_evidence_decides_nothing_witness :
  (decide_bundle nobody (sample_bundle 40) MODE_ACTIVE 1 deciding.2).1 = Ok [].
Proof.
  apply (repeated_evidence_decides_nothing nobody (sample_bundle 30) MODE_ACTIVE 0
    sample_engine [block_decision] deciding.2 (sample_bundle 40) MODE_ACTIVE 1 sample_engine_ok);
    [vm_compute; reflexivity|vm_compute; discriminate|reflexivity|].
  intros x Hx. apply list_elem_of_singleton in Hx as ->. by left.
Defined.

Lemma scores_do_not_decide_witness :
  (decide_bundle nobody (sample_bundle 30) MODE_ACTIVE 0 sample_engine).2 =
  (decide_bundle nobody (sample_bundle 3000) MODE_ACTIVE 0 sample_engine).2.
Proof.
  apply (scores_do_not_decide nobody (sample_bundle 30) (sample_bundle 3000) MODE_ACTIVE 0
    sample_engine); [reflexivity|]. apply Forall2_cons. split; [done|apply Forall2_nil; done].
Defined.

(** ** The portal *)

Definition sample_users : PortalUserStore :=
  (add_user toy_scrypt "alice" "secret" [1; 2] 0 "admin" "" false (mk_user_store [] Missing toy_codec true)).2.

Definition sample_portal : PortalService FakeSetBackend FakeFirewallBackend :=
  new_service (mk_portal_config true 3600 30 5 300 10 50 100 "ask the desk") (sample_manager MODE_ACTIVE) sample_users
    (Some (λ ip, if ip =? device then Some device_mac else None)).

Lemma sample_portal_ok : sv_ok 0 sample_portal.
Proof.
  apply new_service_ok; [unfold portal_config_wf; cbn; lia| |].
  2: { intros resolve ip m [= <-]. destruct (ip =? device); [|done]. intros [= <-]. vm_compute. reflexivity. }
  split.
  - unfold dwf. vm_compute. apply NoDup_singleton.
  - intros n u Hu. change (us_users sample_users) with [("alice", mk_user "alice" (hash_password toy_scrypt "secret" [1; 2]) 0 "admin" "" false)] in Hu.
    cbn [dget] in Hu. case_decide; [|done]. injection Hu as <-. subst n. split; [done|]. split; [vm_compute; reflexivity|]. split; vm_compute; discriminate.
Qed.

Definition sample_login : result PortalSession * PortalService FakeSetBackend FakeFirewallBackend :=
  login (λ s, s) (λ s, s) toy_scrypt "alice" "secret" device "token" 0 sample_portal.

Lemma portal_login_grants_exactly_witness :
  ∃ se, sample_login.1 = Ok se ∧ se_client_mac se = Some device_mac ∧ sv_granted sample_login.2 (device, Some device_mac).
Proof.
  assert (Hok : match sample_login.1 with Ok _ => true | Raise _ => false end = true) by (vm_compute; reflexivity).
  pose proof (portal_login_grants_exactly (λ s, s) (λ s, s) toy_scrypt 0 0 "alice" "secret" device "token" sample_portal
    sample_login.1 sample_login.2 sample_portal_ok ltac:(vm_compute; done) ltac:(lia) ltac:(done) (surjective_pairing _)) as Hspec.
  destruct (sample_login.1) as [se|e]; [|done]. exists se. split; [done|].
  destruct Hspec as ((_ & _ & _ & Hmac & _) & _ & _ & _ & _ & _ & Hg & _). destruct (Hmac _ eq_refl) as [Heq _].
  assert (Hd : se_client_mac se = Some device_mac) by (by rewrite <- Heq). by rewrite Hd in Hg.
Defined.

Lemma portal_reconcile_leaves_no_orphan_witness :
  ∃ n s', reconcile_portal (seconds 7200) sample_portal = (Ok n, s') ∧ ∀ g, sv_granted s' g → sv_granted sample_portal g.
Proof.
  destruct (portal_reconcile_leaves_no_orphan (seconds 7200) sample_portal (ok_sessions _ _ sample_portal_ok))
    as (n & s' & _ & Heq & _ & _ & Hsub & _). by exists n, s'.
Defined.
