(* ===== verification/PipelineRun.v ===== *)
(** * The v2 pipeline at work

    A device floods the gateway; the pipeline over the deployment of
    [Fixtures] is driven through the poll that reports it, in each mode. *)

From S2P Require Import Prelude Float Net Models RateLimiter Sets SetBackend FakeSets Validator AllowlistStore Backend Manager Lifecycle Reachable Enforce Policy PolicyProps Flow Thresholds Threat Runtime D1 KernelPoller PipelineV2 Fixtures.
Local Open Scope Z_scope.

Definition SamplePipeline : Type := V2Pipeline (B := FakeSetBackend) (F := FakeFirewallBackend).

Definition sample_pipeline (mode : EnforcementMode) : SamplePipeline :=
  match new_pipeline (sample_config mode) sample_d1_config (float_of_Z 1) (float_of_Z 5) (hundredths 90) None sample_thresholds
          (table_or_empty shipped_table) (sample_manager mode) 64 (λ m, if String.eqb m device_mac then Some device else None) None with
  | Ok p => p
  | Raise _ => mk_pipeline (sample_config mode) sample_d1_config f0 f0 f0 (λ _, None) None (sample_manager mode)
                 (new_d1 sample_d1_config sample_thresholds []) (mk_tracker 1 [] 0) sample_engine [] [] [] [] [] [] [] []
                 f0 (mk_gauges 0 0 0 0 f0 0 0 0) 0 [] [] no_counts 0
  end.

(** The device floods SYNs for three polls under an enforcing guard; the poll
    is submitted, drained and evaluated. *)
Definition syn_flood : KernelPollResult :=
  mk_poll_result [mk_kernel_ev "k1" SYN_PPS device_mac (OFFENDER_GUARD SYN_PPS) ENFORCE 3 0] [] [] 1 f0 [] true None.
Definition flood_ops : list v2_op := [OpKernelPoll syn_flood [] 0; OpDrain 0; OpEvaluate f0 0].

Definition flood_run (mode : EnforcementMode) : SamplePipeline :=
  v2_run (λ _, "id") (λ _, "flow") (sample_pipeline mode) flood_ops.

Lemma shadow_pipeline_is_inert_witness : m_sets (vp_manager (flood_run MODE_SHADOW)) = Some sample_kernel.
Proof.
  exact (proj1 (proj2 (shadow_pipeline_is_inert (λ _, "id") (λ _, "flow")
    (sample_pipeline MODE_SHADOW) flood_ops eq_refl))).
Defined.

Lemma assisted_pipeline_never_blocks_witness :
  ∃ b', m_sets (vp_manager (flood_run MODE_ASSISTED)) = Some b' ∧
    kv_elem (sb_view b') (adaptive_address SET_BLOCK_MAC) (KStr device_mac) =
    kv_elem (sb_view sample_kernel) (adaptive_address SET_BLOCK_MAC) (KStr device_mac).
Proof.
  refine (assisted_pipeline_never_blocks (λ _, "id") (λ _, "flow")
    (sample_pipeline MODE_ASSISTED) sample_kernel flood_ops SET_BLOCK_MAC (KStr device_mac) eq_refl eq_refl _ _);
    [vm_compute; reflexivity|by left].
Defined.

(** The same flood in ACTIVE mode reaches the kernel. *)
Definition flooded : SamplePipeline :=
  v2_run (λ _, "id") (λ _, "flow") (sample_pipeline MODE_ACTIVE)
    [OpKernelPoll syn_flood [] 0; OpDrain 0].

Example flood_is_enforced : length (active_rules (vp_manager (flood_run MODE_ACTIVE))) = 1%nat.
Proof. vm_compute. reflexivity. Qed.

Definition flood_decision : SamplePipeline :=
  (_decide_for (λ _, "id") device_mac 0 [] flooded).2.

Definition ratelimited (b : option FakeSetBackend) : bool :=
  match b with
  | Some b => match kv_elem (sb_view b) (adaptive_address SET_RATELIMIT_MAC) (KStr device_mac) with Some _ => true | None => false end
  | None => false
  end.

Lemma flooded_engine : vp_engine flooded = sample_engine.
Proof. vm_compute. reflexivity. Qed.

Lemma flooded_kernel : m_sets (vp_manager flooded) = Some sample_kernel.
Proof. vm_compute. reflexivity. Qed.

Lemma flood_limits : ratelimited (m_sets (vp_manager flood_decision)) = true ∧ ratelimited (Some sample_kernel) = false.
Proof. split; vm_compute; reflexivity. Qed.

Lemma ratelimited_kept (b b' : FakeSetBackend) : view_eq (sb_view b') (sb_view b) → ratelimited (Some b') = ratelimited (Some b).
Proof. intros (_ & Hel & _). unfold ratelimited. by rewrite Hel. Qed.

Lemma pipeline_enforces_on_hard_evidence_witness :
  ∃ items s1 x, gather_evidence device_mac 0 [] flooded = (Ok items, s1) ∧ x ∈ items ∧
    hard_evidence (pe_table (vp_engine flooded)) (pc_sustained_polls (pe_config (vp_engine flooded))) x = true.
Proof.
  destruct (pipeline_enforces_on_hard_evidence (λ _, "id")
    flooded sample_kernel device_mac 0 [] (eq_ind_r engine_ok sample_engine_ok flooded_engine) flooded_kernel)
    as [(b' & Hs & Hv)|(items & s1 & ip & x & Hg & Hx & _ & Hh & _)].
  - exfalso. pose proof flood_limits as [Hk Hn]. rewrite <- (ratelimited_kept _ _ Hv), <- Hs in Hn.
    exact (diff_true_false (eq_trans (eq_sym Hk) Hn)).
  - exists items, s1, x. exact (conj Hg (conj Hx Hh)).
Defined.

(** * The v1 pipeline at work

    A deployment with a classifier that calls everything an attack and a
    forest that scores every flow 0.2; the pipeline over the manager of
    [Fixtures] processes flows of one device. *)

From S2P Require Import Features Inference Behavior BehaviorProps Coordinator PipelineV1 Batching.
Local Open Scope Z_scope.

Definition legacy_metadata (threshold : option float) : ModelMetadata :=
  mk_metadata "1" LEGACY_SCHEMA_VERSION LEGACY_FEATURE_NAMES [("BENIGN", 0); ("Bot", 1)] threshold None [] [].
Definition alarmist : LoadedLightGBMModel := mk_lightgbm (λ _, Ok (Positive (hundredths 99))) (legacy_metadata None).
Definition flat_score : list float → float := λ _, hundredths 20.
Definition flat_forest (threshold : option float) : LoadedIsolationForestModel :=
  mk_isolation_forest (λ rows, Ok (flat_score <$> rows)) (legacy_metadata threshold).

Definition sample_models (classifier : option LoadedLightGBMModel) (threshold : option float) : ModelRegistry :=
  mk_registry_of_models classifier (Some (flat_forest threshold)) None None None [].

Definition sample_store : CoreStateStore :=
  mk_store 10 0 None (mk_history_of 10 0 [] []) (mk_history_of 10 0 [] []) (mk_history_of 10 0 [] []) [] [].
Definition no_interp : float → list float → list float → float := λ x _ _, x.

Definition SampleV1 : Type := FlowPipeline FakeSetBackend FakeFirewallBackend.
Definition sample_v1 (mode : EnforcementMode) (classifier : option LoadedLightGBMModel) (threshold : option float) : SampleV1 :=
  new_flow_pipeline default_threat_config 600 None (new_coordinator sample_detection f0 (sample_models classifier threshold) true)
    (sample_manager mode) (mk_forwarder sample_store None 0 0) no_counts 100.

Definition device_flow (port : Z) : Flow :=
  flow_of (opening (compute_flow_key device 9 (Some port) (Some 443) TCP)
    (mk_packet 0 (V4 device) (V4 9) TCP (Some port) (Some 443) (Some (mk_flags true false false false false false)) 60 0 (Some device_mac) None)
    device 9).

Lemma shadow_v1_is_inert_witness :
  m_sets (fp_manager (v1_run (λ _, "id") (λ _, "flow") no_interp (λ _, "") false 0 (sample_v1 MODE_SHADOW (Some alarmist) None)
    [V1Process (device_flow 4000) 0 None f0])) = Some sample_kernel.
Proof.
  exact (proj1 (proj2 (shadow_v1_is_inert (λ _, "id") (λ _, "flow") no_interp (λ _, "") false 0
    (sample_v1 MODE_SHADOW (Some alarmist) None) [V1Process (device_flow 4000) 0 None f0] eq_refl))).
Defined.

(** One flow called a bot with 99 percent: recorded and monitored, and the
    kernel is what it was. *)
Definition alarmed : SampleV1 :=
  (process (λ _, "id") (λ _, "flow") no_interp (λ _, "") None (device_flow 4000) 0 None f0 (sample_v1 MODE_ACTIVE (Some alarmist) None)).2.

Lemma alarm_only_monitors : (fd_action <$> st_decisions (fw_state (fp_forwarder alarmed))) = [MONITOR].
Proof. vm_compute. reflexivity. Qed.

Lemma quiet_source : assess (fl_source_ip (device_flow 4000))
    (analyzer_observe_completion (device_flow 4000) (co_behavior (fp_coordinator (sample_v1 MODE_ACTIVE (Some alarmist) None)))).2 =
  Ok (Some (mk_behavior device [] f0 "no notable behavioral patterns observed" 0 0)).
Proof. vm_compute. reflexivity. Qed.

Lemma v1_models_never_enforce_witness : kernel_kept sample_kernel (fp_manager alarmed).
Proof.
  destruct (proj1 (v1_models_never_enforce (λ _, "id") (λ _, "flow") no_interp (λ _, "")
    (sample_v1 MODE_ACTIVE (Some alarmist) None) sample_kernel default_threat_config_wf eq_refl eq_refl) (device_flow 4000) 0 None f0)
    as [Hk|[[x Hx]|(b & p & Hb & Hp)]]; [exact Hk|discriminate Hx|].
  exfalso. rewrite quiet_source in Hb. injection Hb as <-. exact (not_elem_of_nil p Hp).
Defined.

(** ** Batching *)

Definition two_jobs : list Job := [mk_job (device_flow 4000) None f0; mk_job (device_flow 4001) None f0].

Definition batched (threshold : option float) : SampleV1 :=
  batch_step (λ _, "id") (λ _, "flow") (λ _, "") 50 0 f0
    (deferred_run (λ _, "id") (λ _, "flow") no_interp (λ _, "") 0 0 (sample_v1 MODE_ACTIVE None threshold) two_jobs).
Definition inlined (threshold : option float) : SampleV1 :=
  inline_run (λ _, "id") (λ _, "flow") no_interp (λ _, "") 0 (sample_v1 MODE_ACTIVE None threshold) two_jobs.

Lemma two_jobs_quiet : ∃ ps c h, quiet (λ _, "flow") no_interp 0 (fp_coordinator (sample_v1 MODE_ACTIVE None None))
  (st_flows (fw_state (fp_forwarder (sample_v1 MODE_ACTIVE None None)))) two_jobs ps c h.
Proof.
  do 3 eexists. eapply quiet_cons; [vm_compute; reflexivity..|reflexivity|vm_compute; reflexivity|].
  eapply quiet_cons; [vm_compute; reflexivity..|reflexivity|vm_compute; reflexivity|]. apply quiet_nil.
Qed.

Lemma batching_changes_no_verdict_witness :
  fp_manager (batched None) = fp_manager (inlined None) ∧ fp_forwarder (batched None) = fp_forwarder (inlined None).
Proof.
  destruct two_jobs_quiet as (ps & c & h & Hq).
  pose proof (batching_changes_no_verdict (λ _, "id") (λ _, "flow") no_interp (λ _, "") (flat_forest None) flat_score (λ _, eq_refl)
    (ex_intro _ "m" eq_refl) eq_refl ltac:(discriminate) ltac:(discriminate) eq_refl 0 0 50 f0
    (sample_v1 MODE_ACTIVE None None) two_jobs ps c h eq_refl Hq eq_refl ltac:(discriminate) ltac:(discriminate)) as H.
  exact (conj (proj1 H) (proj1 (proj2 H))).
Defined.

(** The recorded anomaly flags of a run. *)
Definition flags (s : SampleV1) : list (option bool) :=
  (λ r, ae_is_anomaly <$> dr_anomaly_evidence r) <$> history_values (st_detections (fw_state (fp_forwarder s))).

(** A forest with an operating threshold of 0.5: scored inline, both flows
    are anomalous; scored in a batch, neither is. *)
Theorem batch_ignores_the_operating_threshold :
  flags (inlined (Some (hundredths 50))) = [Some true; Some true] ∧ flags (batched (Some (hundredths 50))) = [Some false; Some false].
Proof. split; vm_compute; reflexivity. Qed.
