(* ===== verification/DaemonRun.v ===== *)
(** * The RPC surfaces on a concrete daemon

    The theorems of [RpcProps] applied to a daemon with one ACTIVE rule, and
    a guard flip that reaches the kernel without reaching the audit trail. *)

From S2P Require Import Prelude Float Net Models RateLimiter Sets SetBackend FakeSets Json Nftables NftablesLaws NftSim Backend Validator AllowlistStore Manager Lifecycle Reachable Throttle PortalSessions PortalStore PortalService Flow Thresholds Threat Inference Runtime Rpc RpcProps RpcClient Fixtures Witnesses.
Local Open Scope Z_scope.

Definition rpc_store : CoreStateStore :=
  mk_store 100 0 None (mk_history_of 100 0 [] []) (mk_history_of 100 0 [] []) (mk_history_of 100 0 [] []) [] [].
Lemma rpc_store_new : new_store 100 0 = Ok rpc_store.
Proof. reflexivity. Qed.
Definition sample_forwarder : EventForwarder := mk_forwarder rpc_store None 0 0.

Definition sample_rpc : CoreRpc (B := FakeSetBackend) (F := FakeFirewallBackend) :=
  mk_core sample_forwarder limited_manager FAIL_OPEN (Some sample_portal) (Some (new_snapshots None)) None None.

Definition no_entry (_ : list (string * json)) : string + AllowlistEntry := inl "no entry".
Definition no_event (_ : list (string * json)) : string + SecurityEvent := inl "no event".
Definition plain_draws : draws := mk_draws 1000000 "token" "generated" [1; 2; 3].

Definition sample_serve := serve_all (B := FakeSetBackend) (F := FakeFirewallBackend) id id (λ _ _ _, []) no_entry no_event (λ _, "").
Definition sample_handle := handle (B := FakeSetBackend) (F := FakeFirewallBackend) id (λ _ _ _, []) no_entry no_event (λ _, "").

(** A privileged request on the wrong socket, a disabled rule, a panic. *)
Definition busy_day : list call :=
  [(PORTAL_SOCKET, (plain_draws, mk_request KILL_SWITCH []));
   (CORE_SOCKET, (plain_draws, mk_request DISABLE_RULE [("rule_id", JStr "r0")]));
   (CORE_SOCKET, (plain_draws, mk_request DISABLE_RULE [("rule_id", JInt 0)]));
   (CORE_SOCKET, (plain_draws, mk_request PANIC [("actor", JStr " alice ")]))].

Definition answered (rs : list (option response)) : list (option bool) := option_map rs_ok <$> rs.

Lemma busy_day_answers : answered (sample_serve busy_day sample_rpc).1 = [Some false; Some true; Some false; Some true].
Proof. vm_compute. reflexivity. Qed.

Lemma rpc_keeps_the_audit_sound_witness :
  answered (sample_serve busy_day sample_rpc).1 = [Some false; Some true; Some false; Some true] ∧
  let m := rp_manager (sample_serve busy_day sample_rpc).2 in
  reachable m ∧ audit (m_transitions m) ∧
  (∀ id r, get_rule m id = Some r → fr_id r = id ∧ last_status (m_transitions m) id = Some (fr_status r)).
Proof.
  split; [exact busy_day_answers|].
  exact (rpc_keeps_the_audit_sound id id (λ _ _ _, []) no_entry no_event (λ _, "") busy_day sample_rpc limited_manager_reachable).
Defined.

Lemma reads_views : GET_GUARD_MODES ∈ LOCK_FREE_OPERATIONS.
Proof. left. Qed.
Lemma lock_free_reads_only_views_witness :
  let q := mk_request GET_GUARD_MODES [] in
  (sample_handle plain_draws q sample_rpc).2 = sample_rpc ∧
  (sample_handle plain_draws q (rp_set_manager sample_rpc (sample_manager MODE_ACTIVE))).1 = (sample_handle plain_draws q sample_rpc).1.
Proof.
  exact (lock_free_reads_only_views id (λ _ _ _, []) no_entry no_event (λ _, "") plain_draws (mk_request GET_GUARD_MODES []) sample_rpc
    (rp_set_manager sample_rpc (sample_manager MODE_ACTIVE)) reads_views eq_refl).
Defined.

Definition kill_request : RpcRequest := mk_request KILL_SWITCH [].
Lemma dangerous_operations_are_audited_witness :
  ∃ ev, (sample_handle plain_draws kill_request sample_rpc).1 = mk_response true (Some (DEvent ev)) None ∧
    on_audit ev (sample_handle plain_draws kill_request sample_rpc).2.
Proof.
  destruct (dangerous_operations_are_audited id (λ _ _ _, []) no_entry no_event (λ _, "") plain_draws kill_request sample_rpc
    (sample_handle plain_draws kill_request sample_rpc).1 (sample_handle plain_draws kill_request sample_rpc).2) as (ev & Hr & Ha & _).
  - exact limited_manager_reachable.
  - apply (bool_decide_unpack _). vm_compute. exact I.
  - exact (surjective_pairing _).
  - exists ev. by split.
Defined.

(** ** Over a wire

    An alphabet of whole messages, carried one symbol at a time. *)

Definition symbol : Type := json + response.
Definition toy_dumps (v : json) : list symbol := [inl v].
Definition toy_loads (l : list symbol) : option json := match l with [inl v] => Some v | _ => None end.
Definition toy_dump_response (r : response) : list symbol := [inr r].
Definition toy_load_response (l : list symbol) : option response := match l with [inr r] => Some r | _ => None end.
Definition one_by_one (l : list symbol) : list (list symbol) := (λ x, [x]) <$> l.

Lemma toy_wire_ok : wire_ok toy_dumps toy_loads toy_dump_response toy_load_response one_by_one.
Proof.
  split; [done|done|]. intros l. unfold one_by_one. split; [by apply Forall_fmap, Forall_true|]. induction l; cbn; [done|]. by f_equal.
Qed.

Definition sample_socket := socket_call (B := FakeSetBackend) (F := FakeFirewallBackend) id (λ _ _ _, []) no_entry no_event (λ _, "")
  toy_dumps toy_loads toy_dump_response toy_load_response one_by_one plain_draws.

Lemma client_calls_are_manager_calls_witness :
  on_rule sample_socket DISABLE_RULE "r0" sample_rpc = remotely (λ _, "") DISABLE_RULE (disable_rule "r0" 1000000) sample_rpc.
Proof.
  exact (proj1 (client_calls_are_manager_calls id (λ _ _ _, []) no_entry no_event (λ _, "") toy_dumps toy_loads toy_dump_response
    toy_load_response one_by_one plain_draws sample_rpc toy_wire_ok) DISABLE_RULE "r0" _ eq_refl).
Defined.

Example disabled_remotely :
  match (on_rule sample_socket DISABLE_RULE "r0" sample_rpc).1 with Ok (Some r) => fr_status r = DISABLED | _ => False end.
Proof. vm_compute. reflexivity. Qed.

(** ** A flip that is not on record

    docs/V2_CONTRACTS.md says that every [set_guard_mode] call writes an audit
    event.  The handler emits it only after the modes were read back: when the
    write succeeds and the read fails, the kernel enforces, the caller is told
    that nothing was done, and no event exists. *)

Definition deaf_run (doc : json) : M sim_kernel json := λ s,
  match asked doc with Some _ => (Raise (FirewallError "timed out"), s) | None => sim_run doc s end.
#[local] Instance deaf_backend : SetBackend sim_kernel := nft_set_backend deaf_run.

Definition deaf_rpc : CoreRpc (B := sim_kernel) (F := FakeFirewallBackend) :=
  mk_core sample_forwarder
    (new_manager (sample_config MODE_ACTIVE) new_fake_backend None (Some gateway) (λ _, None) sample_local)
    FAIL_OPEN None (Some (new_snapshots None)) None None.
Definition flip_request : RpcRequest :=
  mk_request SET_GUARD_MODE [("guard", JStr "raw"); ("mode", JStr "enforce"); ("actor", JStr "alice")].
Definition flipped : response * CoreRpc (B := sim_kernel) (F := FakeFirewallBackend) :=
  handle id (λ _ _ _, []) no_entry no_event (λ _, "") plain_draws flip_request deaf_rpc.
Definition raw_mode (c : CoreRpc (B := sim_kernel) (F := FakeFirewallBackend)) : option GuardMode :=
  k ← m_sets (rp_manager c); kv_guard (nft_view (sim_rules k)) RAW.

Example flip_without_a_record :
  raw_mode deaf_rpc = Some OBSERVE ∧ raw_mode flipped.2 = Some ENFORCE ∧ rs_ok flipped.1 = false ∧ st_events (rp_state flipped.2) = [].
Proof. vm_compute. done. Qed.

(** * The daemon at work

    A scheduler that picks one thread at a time, and a run of it: the capture
    thread sees a connection open while the detection thread waits, then sees
    it reset, so that the flow is queued behind its own signal. *)

From S2P Require Import Bindings LeaseSync Enforce Policy Parser Features D1 Behavior BehaviorProps Coordinator PipelineV1 KernelPoller PipelineV2 Tls TlsCache Daemon DaemonProps PipelineRun.
Local Open Scope Z_scope.

Inductive choice :=
| RunFrame (raw : list Z) (at_ : Z)
| RunCapturePut
| RunSweep (now : Z)
| RunDetect.

Section Exec.
Context {B F : Type} {SB : SetBackend B} {FB : FirewallBackend F}.
Context (new_id : Z → string) (flow_id : Flow → string) (interp : float → list float → list float → float) (exn_text : exn → string).
Context (set_order : list IPv4.t → list IPv4.t) (ck : Clock).
#[local] Notation loop := (_detection_loop new_id flow_id interp exn_text set_order ck).

Definition exec (y : @System B F) (c : choice) : System :=
  let '(mk_system d cs sw pc tr) := y in
  match c, cs with
  | RunFrame raw at_, [] => mk_system (capture_frame raw at_ (ck_now ck) d).2 (puts_of (capture_frame raw at_ (ck_now ck) d).1) sw pc tr
  | RunCapturePut, p :: cs' =>
      match do_put p (ck_now ck) d with (Ok taken, d') => mk_system d' cs' sw pc (tr ++ put_label p taken) | _ => y end
  | RunSweep now, _ => match sw with [] => mk_system (_sweep_flows now d).2 cs (puts_of (_sweep_flows now d).1) pc tr | _ => y end
  | RunDetect, _ => mk_system (loop pc d).2 cs sw (match (loop pc d).1 with Ok pc' => pc' | Raise _ => Dead end) (tr ++ detection_label pc d)
  | _, _ => y
  end.

Lemma exec_steps y cs : rtc (SystemStep new_id flow_id interp exn_text set_order) y (foldl exec y cs).
Proof.
  revert y. induction cs as [|c cs IH]; intros y; [apply rtc_refl|]. cbn [foldl]. etransitivity; [|apply IH].
  destruct y as [d cp sw pc tr]. destruct c as [raw at_| |now|], cp as [|p cp]; try apply rtc_refl; cbn [exec]; try (apply rtc_once; constructor).
  - destruct (do_put p (ck_now ck) d) as [[taken|e] d'] eqn:Hp; [|apply rtc_refl]. apply rtc_once. by econstructor.
  - destruct sw; [|apply rtc_refl]. apply rtc_once. constructor.
  - destruct sw; [|apply rtc_refl]. apply rtc_once. constructor.
Qed.
End Exec.

Definition sample_daemon_config : DaemonConfig :=
  mk_daemon_config (float_of_Z 10) 100 (float_of_Z 15) (float_of_Z 5) 8 (float_of_Z 15) 10000 false true [].
Definition sample_daemon (mode : EnforcementMode) : @CoreDaemon FakeSetBackend FakeFirewallBackend :=
  mk_daemon sample_daemon_config (sample_v1 mode (Some alarmist) None) None (new_aggregator 100 3600 60 None true)
    (mk_queues [] [] [] 0 0 0) [] [] 0 (None, None) 5.

(** [sample_frame] with RST in place of SYN *)
Definition reset_frame : list Z :=
  [2; 0; 0; 0; 0; 1; 2; 0; 0; 0; 0; 2; 8; 0] ++
  [69; 0; 0; 46; 0; 0; 0; 0; 64; 6; 0; 0; 192; 168; 100; 10; 10; 0; 0; 1] ++
  [156; 64; 1; 187; 0; 0; 0; 0; 0; 0; 0; 0; 80; 4; 0; 0; 0; 0; 0; 0] ++ [1; 2; 3; 4; 5; 6].

(** The detection thread reaches its blocking get on empty queues; then the
    connection opens and is reset; then it takes the flow and drains again. *)
Definition racing : list choice :=
  [RunDetect; RunDetect; RunFrame sample_frame 5; RunCapturePut; RunFrame reset_frame 6; RunCapturePut; RunDetect; RunDetect; RunDetect; RunDetect].

Definition sample_run (mode : EnforcementMode) (cs : list choice) : @System FakeSetBackend FakeFirewallBackend :=
  foldl (exec (λ _, "id") (λ _, "flow") no_interp (λ _, "") id (mk_clock 7 f0 f0)) (start (sample_daemon mode)) cs.

Lemma racing_is_ready : match sy_detection (sample_run MODE_ACTIVE racing) with Ready _ => True | _ => False end ∧
  length (signals_of (sy_trace (sample_run MODE_ACTIVE racing))) = 1%nat ∧
  length (observed_of (sy_trace (sample_run MODE_ACTIVE racing))) = 1%nat ∧
  length (signals_before 0 (sy_trace (sample_run MODE_ACTIVE racing))) = 1%nat.
Proof. vm_compute. done. Qed.

Lemma sample_daemon_fresh mode : fresh_daemon (sample_daemon mode).
Proof. split; [reflexivity|]. cbn. lia. Qed.

(** The threads with a lease sync and a portal beside them. *)
Definition sample_lease (mode : EnforcementMode) : LeaseSync FakeSetBackend FakeFirewallBackend :=
  new_lease_sync (IPv4.mk_network (IPv4.a_b_c_d 192 168 100 0) 24) "/var/lib/misc/dnsmasq.leases" (Bindings.mk_table [] [] []) (daemon_manager (sample_daemon mode)).
Definition sample_host (mode : EnforcementMode) (cs : list choice) : @Host FakeSetBackend FakeFirewallBackend :=
  mk_host (sample_run mode cs) (sample_lease mode) (Some sample_portal).
Notation SampleStep := (HostStep (λ _, "id") (λ _, "flow") no_interp (λ _, "") id id id toy_scrypt).

Lemma sample_host_reachable mode cs :
  rtc SampleStep (start_host (sample_daemon mode) (sample_lease mode) (Some sample_portal)) (sample_host mode cs).
Proof.
  pose proof (exec_steps (λ _, "id") (λ _, "flow") no_interp (λ _, "") id (mk_clock 7 f0 f0) (start (sample_daemon mode)) cs) as Hr.
  unfold start_host, sample_host, sample_run. revert Hr. generalize (start (sample_daemon mode)), (foldl (exec (λ _, "id") (λ _, "flow") no_interp (λ _, "") id (mk_clock 7 f0 f0)) (start (sample_daemon mode)) cs).
  induction 1 as [|y1 y2 y3 H12 _ IH]; [apply rtc_refl|]. eapply rtc_l; [|exact IH]. by apply HostThreads.
Qed.


Definition racing_flow : Flow := match sy_detection (sample_run MODE_ACTIVE racing) with Ready f => f | _ => device_flow 0 end.
Lemma racing_ready : sy_detection (sample_run MODE_ACTIVE racing) = Ready racing_flow.
Proof. vm_compute. reflexivity. Qed.

Lemma signals_are_observed_before_their_flow_witness :
  let tr := sy_trace (ho_system (sample_host MODE_ACTIVE racing)) in
  flows_of tr !! length (processed_of tr) = Some racing_flow.
Proof.
  exact (proj1 (signals_are_observed_before_their_flow (λ _, "id") (λ _, "flow") no_interp (λ _, "") id id id toy_scrypt (sample_daemon MODE_ACTIVE)
    (sample_lease MODE_ACTIVE) (Some sample_portal) (sample_host MODE_ACTIVE racing) racing_flow (sample_daemon_fresh MODE_ACTIVE)
    (sample_host_reachable MODE_ACTIVE racing) racing_ready)).
Defined.

Lemma sample_rules_dormant : Forall (λ r, fr_status r ≠ ACTIVE) (all_rules (daemon_manager (sample_daemon MODE_SHADOW))).
Proof. vm_compute. constructor. Qed.

(** A frame's flow processed, then a lease granted and a client logged in:
    the binding sets and the grants change, and nothing else. *)
Definition lease_line : text := Z.of_nat ∘ Ascii.nat_of_ascii <$> string_to_list "4102444800 02:00:00:00:00:02 192.168.100.10 laptop 01:02".
Definition login_request : RpcRequest :=
  mk_request PORTAL_LOGIN [("username", JStr "alice"); ("password", JStr "secret"); ("client_ip", JStr (IPv4.to_string device))].
Definition shadow_host : @Host FakeSetBackend FakeFirewallBackend :=
  portal_request (λ _, "") id id toy_scrypt (mk_draws 8 "token" "" []) login_request
    (lease_pass (inr (57, lease_line)) 8 (sample_host MODE_SHADOW (racing ++ [RunDetect]))).
Lemma shadow_host_changed :
  length (snapshot (ls_table (ho_lease shadow_host))) = 1%nat ∧
  (length (st_events (fw_state (fp_forwarder (cd_pipeline (ho_daemon shadow_host))))) > 0)%nat.
Proof. vm_compute. split; [done|lia]. Qed.

Lemma shadow_daemon_only_watches_witness :
  let m := daemon_manager (ho_daemon shadow_host) in
  m_mode m = MODE_SHADOW ∧ Forall (λ r, fr_status r ≠ ACTIVE) (all_rules m).
Proof.
  assert (Hr : rtc SampleStep (start_host (sample_daemon MODE_SHADOW) (sample_lease MODE_SHADOW) (Some sample_portal)) shadow_host).
  { eapply rtc_r; [|apply HostPortalRequest]. eapply rtc_r; [|apply HostLeasePass]. apply sample_host_reachable. }
  destruct (shadow_daemon_only_watches (λ _, "id") (λ _, "flow") no_interp (λ _, "") id id id toy_scrypt (sample_daemon MODE_SHADOW)
    (sample_lease MODE_SHADOW) (Some sample_portal) shadow_host Hr eq_refl sample_rules_dormant) as (Hm & Ha & _). exact (conj Hm Ha).
Defined.

(** The flow above was handed to the pipeline, which deferred its anomaly
    score. *)
Lemma racing_processed :
  length (processed_of (sy_trace (sample_run MODE_SHADOW (racing ++ [RunDetect])))) = 1%nat ∧
  length (fp_queue (cd_pipeline (sy_daemon (sample_run MODE_SHADOW (racing ++ [RunDetect]))))) = 1%nat.
Proof. vm_compute. done. Qed.
