(* ===== verification/WatchRun.v ===== *)
(** * The v1 backend on a computed nft

    An nft whose state is the kernel of [NftRules]: it satisfies the
    contract, so the theorems apply to it.  Two runs show where the code does
    not do what its comments say. *)

From S2P Require Import Prelude Net Models Backend Json NftRules.
Local Open Scope Z_scope.

Definition banner (items : list json) : json :=
  JObj [("nftables", JList (JObj [("metainfo", JObj [("version", JStr "1.0.9")])] :: items))].
Definition grant_json (p : PortalGrant * option Z) : json :=
  match p.2 with
  | Some e => JObj [("elem", JObj [("val", _portal_value p.1.1 p.1.2); ("expires", JInt e)])]
  | None => _portal_value p.1.1 p.1.2
  end.
Definition printable (p : PortalGrant * option Z) : bool := bool_decide (_portal_element_grant (grant_json p) = Some p.1).
Definition refused {A} : result A := Raise (FirewallError "Error: Could not process rule: No such file or directory").

Definition sim_nft (args : list string) (stdin : option json) : M v1_kernel json := λ x,
  match stdin with
  | Some (JObj [(_, JList commands)]) =>
      match k_exec_all commands x with Some y => (Ok JNull, y) | None => (refused, x) end
  | Some _ => (refused, x)
  | None =>
      if decide (args = CHAIN_LISTING) then
        match vk_chain x with Some rules => (Ok (banner (JObj [("chain", JObj [])] :: (rule_json <$> rules))), x) | None => (refused, x) end
      else if decide (args = SET_LISTING) then
        match vk_authed x with
        | Some els => if forallb printable els then (Ok (banner [JObj [("set", JObj [("elem", JList (grant_json <$> els))])]]), x) else (refused, x)
        | None => (refused, x)
        end
      else (Ok (banner []), x)
  end.

#[global] Instance sim_v1_contract : NftV1Contract v1_kernel sim_nft.
Proof.
  refine (Build_NftV1Contract _ _ id (λ _ _, False) (λ x y, ∃ d, 0 ≤ d ∧ y = vk_at (vk_now x + d) x) _ _ _ _ _).
  - intros t t' (d & Hd & ->). cbn. split; [lia|done].
  - intros commands t r t'. cbn. destruct (k_exec_all commands t); intros [= <- <-]; [done|]. eexists. split; [done|]. by left.
  - intros args t r t'. unfold sim_nft. repeat case_match; intros [= <- <-]; (split; [done|]); by eexists.
  - intros t out t'. unfold sim_nft. rewrite decide_True by done. cbn [id]. destruct (vk_chain t) as [rules|]; [|done].
    intros [= <- <-]. exists rules, []. split; [done|]. by eexists.
  - intros t out t'. unfold sim_nft. rewrite decide_False, decide_True by done. cbn [id]. destruct (vk_authed t) as [els|]; [|done].
    destruct (forallb printable els) eqn:Hp; [|done]. intros [= <- <-]. exists els, [("elem", JList (grant_json <$> els))].
    split; [done|]. split; [by eexists|]. change (as_list _) with (grant_json <$> els). clear -Hp. induction els as [|p els IH]; [constructor|].
    cbn in Hp. apply andb_true_iff in Hp as [Hp1%bool_decide_eq_true Hp2]. constructor; [done|by apply IH].
Defined.

Definition empty_kernel : v1_kernel := mk_vk 0 false None 1 (Some []).
Definition empty_v1 : NftablesBackend v1_kernel := mk_v1 50 false empty_kernel.

Definition attacker : IPv4.t := IPv4.a_b_c_d 192 168 100 66.
Definition server : IPv4.t := IPv4.a_b_c_d 10 0 0 1.
Definition v1_rule (id : string) (action : FirewallAction) (protocol : Protocol) (port : option Z) : FirewallRule :=
  mk_rule (mk_rule_fields action INBOUND (IPv4.host attacker) (IPv4.host server) protocol None port "scan" None [] [] None) id 0 APPROVED 0 None None.

Definition some_ops : list v1_op :=
  [OpApply (v1_rule "a" BLOCK TCP (Some 22)); OpApply (v1_rule "b" ALLOW TCP (Some 22)); OpApply (v1_rule "c" RATE_LIMIT UDP (Some 53));
   OpRemove "a"; OpRemove "nosuch"].
(** One operation a minute. *)
Definition minute_later (b : NftablesBackend v1_kernel) : NftablesBackend v1_kernel :=
  mk_v1 (v1_rate b) (v1_bootstrapped b) (vk_at (vk_now (v1_nft b) + seconds 60) (v1_nft b)).
Fixpoint each_minute (ops : list v1_op) (b : NftablesBackend v1_kernel) : list (@v1_event v1_kernel) * NftablesBackend v1_kernel :=
  match ops with
  | [] => ([], b)
  | op :: ops =>
      let o := v1_do sim_nft (λ _, "") op (minute_later b) in
      let rest := each_minute ops o.2 in
      (mk_v1_event op o.1 (minute_later b) :: rest.1, rest.2)
  end.
Lemma each_minute_history ops : ∀ b, v1_history sim_nft (λ _, "") b (each_minute ops b).1 (each_minute ops b).2.
Proof.
  induction ops as [|op ops IH]; intros b; [constructor|]. cbn [each_minute fst snd].
  eapply V1Op; [|apply surjective_pairing|apply IH]. split; [done|]. split; [done|]. by exists (seconds 60).
Qed.
Definition some_run := each_minute some_ops empty_v1.
Definition succeeded (e : @v1_event v1_kernel) : bool := match ve_result e with Ok _ => true | Raise _ => false end.
(** This nft kills no run. *)
Lemma committed_succeeded es cs : Forall2 (v1_committed sim_nft) es cs → cs = succeeded <$> es.
Proof.
  induction 1 as [|[op r b] c es cs Hc _ IH]; [done|]. cbn [fmap list_fmap]. rewrite IH. f_equal. unfold v1_committed in Hc. unfold succeeded. cbn in *.
  destruct r as [[]|e]; [done|]. destruct c; [|done]. destruct Hc as [_ Hc]. specialize (Hc eq_refl).
  destruct op as [r|id]; cbn in Hc; [by destruct Hc as (? & _ & [])|by destruct Hc as (? & _ & [])].
Qed.

Example some_run_accepted : succeeded <$> some_run.1 = [true; false; true; true; true] ∧ length (rules_of (kernel_of sim_nft some_run.2)) = 2%nat.
Proof. vm_compute. done. Qed.


(** A rule about ICMP, or about TCP without a port, drops every packet
    between the two addresses: the protocol of the rule reaches nft only
    together with a port. *)
Theorem portless_rule_ignores_its_protocol :
  let r := v1_rule "ping" BLOCK ICMP None in
  let run := v1_apply_rule sim_nft (λ _, "") r empty_v1 in
  let p := mk_packet attacker server TCP (Some 40000) (Some 443) in
  run.1 = Ok tt ∧ covers r p = false ∧
  chain_verdict (λ _, true) (kernel_lines (kernel_of sim_nft run.2)) p = Some VDrop.
Proof. vm_compute. done. Qed.

(** A second login of the same client does not extend its kernel grant: the
    element is there, so adding it again keeps its timeout. *)
Theorem relogin_keeps_the_old_timeout :
  let first := (v1_authorize_portal_client sim_nft (λ _, "") attacker 60 None empty_v1).2 in
  let k := kernel_of sim_nft first in
  let later := mk_v1 (v1_rate first) (v1_bootstrapped first) (mk_vk (seconds 50) (vk_table k) (vk_chain k) (vk_next k) (vk_authed k)) in
  let second := v1_authorize_portal_client sim_nft (λ _, "") attacker 60 None later in
  second.1 = Ok tt ∧ granted (kernel_of sim_nft second.2) (attacker, None) = Some (Some (seconds 60)).
Proof. vm_compute. done. Qed.

(** * The watch thread at work

    A daemon with the v2 pipeline and one ACTIVE rule whose tables a panic
    deleted behind its back: two watch passes, a stop, and a native engine
    that panics three times. *)

From S2P Require Import Float RateLimiter Sets SetBackend FakeSets Validator AllowlistStore Manager Lifecycle Reachable Enforce Bindings LeaseSync Flow Thresholds Policy Tls TlsCache Fallback FallbackProps Runtime D1 PipelineV1 KernelPoller PipelineV2 Rpc Daemon Watch NativeLoop Fixtures PipelineRun DaemonRun.
Local Open Scope Z_scope.

Definition lost_kernel : FakeSetBackend := (fake_panic sample_kernel).2.

Definition sample_watch (m : SampleManager) : @CoreWatch FakeSetBackend FakeFirewallBackend :=
  mk_watch (cd_set_v2 (sample_daemon MODE_ACTIVE) (Some (vp_set_manager (sample_pipeline MODE_ACTIVE) m)))
    (new_snapshots None) [] (Some (new_poller m 3 (hundredths 80)))
    (new_lease_sync (IPv4.mk_network (IPv4.a_b_c_d 192 168 100 0) 24) "/var/lib/misc/dnsmasq.leases" (Bindings.mk_table [] [] []) m)
    false false (0, 0) 0 (mk_budget 3 [] 0 false) true.

Definition dark_watch := sample_watch (set_sets (sample_manager MODE_ACTIVE) (Some lost_kernel)).
Definition pass (now : Z) (w : @CoreWatch FakeSetBackend FakeFirewallBackend) := (_refresh_v2_snapshots (λ _, "") now (inr "no ring") w).2.

(** The loss is reported once, and not again by the next pass. *)
Example dark_watch_reports :
  wt_missing_tables (pass 1 dark_watch) = PANIC_TABLES ∧
  length (st_events (fw_state (watch_forwarder (pass 1 dark_watch)))) = 1%nat ∧
  length (st_events (fw_state (watch_forwarder (pass 2 (pass 1 dark_watch))))) = 1%nat.
Proof. vm_compute. done. Qed.

Lemma watch_pass_is_truthful_witness :
  ∃ w', _refresh_v2_snapshots (λ _, "") 1 (inr "no ring") dark_watch = (Ok tt, w') ∧
    wt_missing_tables w' = absent_tables (sb_view lost_kernel).
Proof.
  destruct (watch_pass_is_truthful (λ _, "") 1 (inr "no ring") dark_watch lost_kernel) as (w' & b' & Hr & _ & _ & _ & _ & Hm & _).
  - reflexivity.
  - exists []. intros k. reflexivity.
  - exists w'. split; [exact Hr|]. rewrite Hm. reflexivity.
Defined.

Definition armed_watch := sample_watch limited_manager.
Lemma armed_is_lc : lc (watch_manager armed_watch).
Proof. exact (reachable_lc _ limited_manager_reachable). Qed.

Lemma stop_honours_the_failure_mode_witness :
  length (active_rules (watch_manager armed_watch)) = 1%nat ∧
  ∃ w', _revert_ruleset_if_failing_open 1 armed_watch = (Ok tt, w') ∧ active_rules (watch_manager w') = [].
Proof.
  split; [vm_compute; reflexivity|].
  destruct (stop_honours_the_failure_mode 1 armed_watch (kernel_or limited_manager) armed_is_lc) as (w' & b' & Hr & _ & Ha & _).
  - vm_compute. reflexivity.
  - exists w'. split; [exact Hr|exact Ha].
Defined.

(** ** A panicking engine *)

#[local] Existing Instance broken_engine.
Definition broken_ring : M unit unit := mraise (NativeEngineError "index out of bounds").
Definition nothing_shed : M unit (Z * Z) := mret (0, 0).
Definition native_loop := _native_capture_loop (B := FakeSetBackend) (F := FakeFirewallBackend) broken_ring nothing_shed (mk_flow_config 100 120 30) None.
Definition three_ticks : list tick := [mk_tick 0 1 None; mk_tick (seconds 10) 2 None; mk_tick (seconds 20) 3 None; mk_tick (seconds 30) 4 None].

Lemma broken_ring_law : raises_native_only (ne_dated (NativeEngineLaws := broken_laws)) broken_ring.
Proof. intros n r n' _ [= <- _]. split; [done|]. intros e [= <-]. by eexists. Qed.
Lemma nothing_shed_law : raises_native_only (ne_dated (NativeEngineLaws := broken_laws)) nothing_shed.
Proof. intros n r n' _ [= <- _]. by split. Qed.
Lemma third_panic_switches : (native_loop three_ticks (mk_loop armed_watch tt)).1 = Ok (Some true).
Proof. vm_compute. reflexivity. Qed.

Lemma native_loop_loses_nothing_silently_witness :
  (native_loop three_ticks (mk_loop armed_watch tt)).1 = Ok (Some true) ∧
  unaccounted (nl_watch (native_loop three_ticks (mk_loop armed_watch tt)).2) = unaccounted armed_watch.
Proof.
  split; [exact third_panic_switches|].
  destruct (native_loop_loses_nothing_silently broken_ring nothing_shed (mk_flow_config 100 120 30) None
    (NL := broken_laws) broken_ring_law nothing_shed_law three_ticks (mk_loop armed_watch tt) I eq_refl) as (o & l' & Hr & Hu & _).
  unfold native_loop. rewrite Hr. exact Hu.
Defined.
