(* ===== verification/ReplayRun.v ===== *)
(** * Capture files and replays, run

    Concrete captures through the reader, the writer and a replay: witnesses
    of the theorems of [PcapProps] and [Replay], and what a replay does
    after a file it cannot read. *)

From S2P Require Import Prelude Float Net Hex Models Flow Parser Pcap PcapProps Fallback Runtime Replay.
Local Open Scope Z_scope.

Definition is_byte (b : Z) : bool := (0 <=? b) && (b <? 256).
Lemma bytes_ok l : forallb is_byte l = true → Forall byte_ok l.
Proof.
  rewrite forallb_forall, Forall_forall. intros Hl b Hb. specialize (Hl b (proj1 (list_elem_of_In _ _) Hb)). unfold is_byte in Hl. bool_prop. by split.
Qed.

(** ** A written file *)

Definition some_frames : list frame :=
  [mk_frame [1; 2; 3] 1700000000000001 7; mk_frame [4; 5; 6; 7; 8; 9] 1700000000500000 999; mk_frame [] 1700000001000000 0].
Definition written (ns : bool) (snaplen : Z) (fs : list frame) : bytes :=
  match new_writer ns snaplen with Ok w => pw_stream (write_frames fs w).2 | Raise _ => [] end.

Example written_sizes : length (written true 4 some_frames) = 79%nat ∧ length (written false 65535 some_frames) = 81%nat.
Proof. by vm_compute. Qed.
Example written_read_back :
  (λ r, r.1) <$> read_file "a.pcap" (mk_stream (written true 4 some_frames) false) =
    Some ([mk_record [1; 2; 3] 1700000000000001 3; mk_record [4; 5; 6; 7] 1700000000500000 6; mk_record [] 1700000001000000 0], Ok tt).
Proof. by vm_compute. Qed.

Lemma some_frames_fit snaplen : snaplen = 4 ∨ snaplen = 65535 → Forall (fits snaplen) some_frames.
Proof. intros [-> | ->]; repeat constructor; by vm_compute. Qed.
Lemma some_file ns snaplen : snaplen = 4 ∨ snaplen = 65535 → file_after ns snaplen some_frames 3 (written ns snaplen some_frames).
Proof. intros [-> | ->]; destruct ns; unfold file_after; eexists _, _; (split; [by vm_compute|]); (split; by vm_compute). Qed.

(** A nanosecond file with a snap length of four bytes, cut in the second record *)
Lemma pcap_cut_anywhere_witness : ∃ j bsj r, (j ≤ length some_frames)%nat ∧ file_after true 4 some_frames j bsj ∧
    read_file "a.pcap" (mk_stream (take 50 (written true 4 some_frames)) false) = Some (stored_record 4 <$> take j some_frames, Ok tt, r) ∧
    (ps_truncated_tail (pr_stats r) = false ↔ take 50 (written true 4 some_frames) = bsj) ∧
    (∀ i bsi, (j < i ≤ length some_frames)%nat → file_after true 4 some_frames i bsi → (50 < length bsi)%nat).
Proof.
  apply (pcap_cut_anywhere true 4 some_frames (written true 4 some_frames) "a.pcap" 50);
    [apply some_file; by left|apply some_frames_fit; by left|repeat constructor].
Defined.
Example the_cut : (λ r : list PcapRecord * result unit * PcapReader, (r.1, ps_truncated_tail (pr_stats r.2))) <$>
    read_file "a.pcap" (mk_stream (take 50 (written true 4 some_frames)) false) =
  Some ([mk_record [1; 2; 3] 1700000000000001 3], Ok tt, true).
Proof. by vm_compute. Qed.

(** ** Bytes of no format, and a pcapng file *)

Definition garbage : bytes := [1; 2; 3; 4; 5].
Lemma reader_total_witness : ∃ xs e r, read_file "x" (mk_stream garbage false) = Some (xs, e, r) ∧ ended_well false e ∧
    Forall record_ok xs ∧ data_size xs ≤ len garbage ∧
    (e = Ok tt → ps_records (pr_stats r) = Z.of_nat (length xs) ∧
       ps_truncated_records (pr_stats r) = Z.of_nat (length (filter (λ x, record_cut x = true) xs))).
Proof. apply (reader_total "x" garbage false). by apply bytes_ok. Defined.
Example garbage_refused : (λ r, r.1) <$> read_file "x" (mk_stream garbage false) =
  Some ([], Raise (PcapFormatError "x: not a pcap or pcapng file (magic 01020304)")).
Proof. by vm_compute. Qed.

Definition be16 (n : Z) : bytes := [n / 256; n mod 256].
Definition be32 (n : Z) : bytes := be16 (n / 65536) ++ be16 (n mod 65536).
(** Big-endian: a section, an interface counting in milliseconds from an hour
    on, one packet of five bytes cut from nine, and a simple packet *)
Definition ng_file : bytes :=
  be32 168627466 ++ be32 28 ++ be32 439041101 ++ be16 1 ++ be16 0 ++ be32 4294967295 ++ be32 4294967295 ++ be32 28 ++
  be32 1 ++ be32 44 ++ be16 1 ++ be16 0 ++ be32 0 ++ be16 9 ++ be16 1 ++ [3; 0; 0; 0] ++ be16 14 ++ be16 8 ++ be32 0 ++ be32 3600 ++
    be16 0 ++ be16 0 ++ be32 44 ++
  be32 6 ++ be32 40 ++ be32 0 ++ be32 0 ++ be32 1500 ++ be32 5 ++ be32 9 ++ [10; 20; 30; 40; 50; 0; 0; 0] ++ be32 40 ++
  be32 3 ++ be32 16 ++ be32 9 ++ be32 16.
Example ng_file_read : (λ r : list PcapRecord * result unit * PcapReader,
    (r.1, ps_truncated_records (pr_stats r.2), ps_skipped_without_timestamp (pr_stats r.2), ps_truncated_tail (pr_stats r.2))) <$>
    read_file "n" (mk_stream ng_file false) =
  Some ([mk_record [10; 20; 30; 40; 50] 3601500000 9], Ok tt, 1, 1, false).
Proof. by vm_compute. Qed.

(** ** A replay *)

Definition two_files : Files := mk_files
  (λ p, if bool_decide (p = "caps") then Directory [("b.pcap", true); ("notes.txt", true); ("a.PCAP", true)] else NoSuchPath)
  (λ p, if bool_decide (p = "caps/a.PCAP") then Some (mk_stream (written true 4 some_frames) false)
        else if bool_decide (p = "caps/b.pcap") then Some (mk_stream (written false 65535 some_frames) false) else None).
(** A wall clock that advances a second with every reading, and nobody stops *)
#[local] Instance ticking : Wall Z := { wall_clock w := (float_of_Z w, w + 1); wall_sleep _ w := w; wall_stop w := (false, w) }.
#[local] Instance counting : FrameSink Z := { sink_feed_us _ _ n := (Ok tt, n + 1); sink_counters n := (Ok (n, 0), n) }.

Definition a_replay (speed : option float) : @ReplayCapture Z (Z * list ReplayFrame) :=
  mk_replay "caps" (0, []) speed (Some 1000) None false None 0.

Lemma two_files_bytes path st : fs_open two_files path = Some st → Forall byte_ok (st_bytes st).
Proof.
  cbn. repeat case_bool_decide; intros [= <-]; apply bytes_ok; by vm_compute.
Qed.

Example replayed_frames : frames_of two_files ["caps/a.PCAP"; "caps/b.pcap"] (Some 1000) =
  [mk_rframe [1; 2; 3] 1000; mk_rframe [4; 5; 6; 7] 500999; mk_rframe [] 1000999;
   mk_rframe [1; 2; 3] 1000; mk_rframe [4; 5; 6; 7; 8; 9] 500999; mk_rframe [] 1000999].
Proof. by vm_compute. Qed.

Lemma two_readable : Forall (readable two_files) ["caps/a.PCAP"; "caps/b.pcap"].
Proof. repeat constructor; (do 2 eexists; split; [reflexivity|by vm_compute]). Qed.

(** Paced, three polls have fed five of the six frames and the replay is not finished *)
Lemma replay_is_the_capture_witness :
  let c2 := run_ops two_files [Poll 100; Poll 100; Poll 100] (replay_start two_files (a_replay (Some (float_of_Z 1)))).2 in
  offered c2 `prefix_of` frames_of two_files ["caps/a.PCAP"; "caps/b.pcap"] (Some 1000) ∧
  (finished c2 = true → Forall (readable two_files) ["caps/a.PCAP"; "caps/b.pcap"] →
   offered c2 = frames_of two_files ["caps/a.PCAP"; "caps/b.pcap"] (Some 1000)).
Proof.
  apply (replay_is_the_capture two_files two_files_bytes (a_replay (Some (float_of_Z 1))) _ [Poll 100; Poll 100; Poll 100] ["caps/a.PCAP"; "caps/b.pcap"]);
    [done|done|by vm_compute|by vm_compute].
Defined.

Lemma replay_finishes_witness :
  let c2 := run_ops two_files (replicate 1 (Poll 100)) (replay_start two_files (a_replay None)).2 in
  finished c2 = true ∧ offered c2 = frames_of two_files ["caps/a.PCAP"; "caps/b.pcap"] (Some 1000).
Proof.
  apply (replay_finishes (W := Z) (K := Z) two_files two_files_bytes (λ w, eq_refl : (@wall_stop Z ticking w).1 = false)
    (λ d t k, eq_refl : (@sink_feed_us Z counting d t k).1 = Ok tt) (a_replay None) _ 100 1 ["caps/a.PCAP"; "caps/b.pcap"]);
    [done|done|done|by vm_compute|by vm_compute|exact two_readable|].
  replace (length _) with 6%nat by (by vm_compute). apply Nat.ltb_lt. by vm_compute.
Defined.

(** ** After a file that cannot be read *)

Definition broken_first : Files := mk_files
  (λ p, if bool_decide (p = "caps") then Directory [("a.pcap", true); ("b.pcap", true)] else NoSuchPath)
  (λ p, if bool_decide (p = "caps/a.pcap") then Some (mk_stream garbage false)
        else if bool_decide (p = "caps/b.pcap") then Some (mk_stream (written false 65535 some_frames) false) else None).

(** [finished] promises that every frame of every file has been fed; after a
    corrupt file it says so although the files after it were never opened. *)
Theorem finished_after_a_corrupt_file :
  let c1 := (replay_start broken_first (a_replay None)).2 in
  let '(first, c2) := replay_poll broken_first 100 c1 in
  let '(second, c3) := replay_poll broken_first 100 c2 in
  first = Raise (PcapFormatError "caps/a.pcap: not a pcap or pcapng file (magic 01020304)") ∧
  second = Ok 0 ∧ finished c3 = true ∧ offered c3 = [] ∧ pcap_stats c3 = [("caps/a.pcap", new_pcap_stats)] ∧
  length (contents NotStarted (open_reader "caps/b.pcap" (mk_stream (written false 65535 some_frames) false))).1 = 3%nat.
Proof. vm_compute. repeat split. Qed.

(** ** A time no datetime can hold *)

(** One Ethernet interface at the default resolution, and a packet whose
    64-bit tick count is the largest there is *)
Definition late_file : bytes :=
  be32 168627466 ++ be32 28 ++ be32 439041101 ++ be16 1 ++ be16 0 ++ be32 4294967295 ++ be32 4294967295 ++ be32 28 ++
  be32 1 ++ be32 20 ++ be16 1 ++ be16 0 ++ be32 0 ++ be32 20 ++
  be32 6 ++ be32 36 ++ be32 0 ++ be32 4294967295 ++ be32 4294967295 ++ be32 4 ++ be32 4 ++ [1; 2; 3; 4] ++ be32 36.
Definition late_files : Files := mk_files (λ _, PlainFile) (λ _, Some (mk_stream late_file false)).

(** The reader returns the record; a replay for the Python path then raises
    [OverflowError], which is no [CaptureError]: the capture loop logs it and
    ends without the critical event it emits for a file it cannot read. *)
Theorem late_timestamp_is_no_capture_error :
  let c := mk_packet_replay "n.pcapng" None None false 0 0 Unread 0 in
  (λ r, r.1) <$> read_file "n.pcapng" (mk_stream late_file false) = Some ([mk_record [1; 2; 3; 4] 18446744073709551615 4], Ok tt) ∧
  (next_packet late_files (pstart late_files c).2).1 = Raise (OverflowError "date value out of range").
Proof. vm_compute. by split. Qed.
