(* ===== verification/ApiRun.v ===== *)
(** * The administrator's API, run

    A toy key derivation and a toy core, a day's requests, and two behaviours
    that depart from what the source says. *)

From S2P Require Import Prelude Float Net Models RateLimiter Sets SetBackend Backend Validator Manager Lifecycle Throttle PortalSessions PortalStore PortalService Flow Thresholds Threat Inference Runtime Json NftRules Rpc RpcProps RpcClient ControlApi ApiProps.
Local Open Scope Z_scope.

(** The password's bytes, cut to length *)
Definition toy_scrypt (password : string) (salt : list Z) (n : Z) : list Z :=
  take (Z.to_nat n) (((λ a, Z.of_nat (nat_of_ascii a)) <$> string_to_list password) ++ repeat 0 (Z.to_nat n)).
Definition admin_hash : string := hash_password toy_scrypt "s3cret" [1; 2; 3].

Definition toy_config : ApiConfig :=
  mk_api_config (mk_credentials "admin" admin_hash) 3600 (Some 900) (mk_auth_config 5 20 300) (IPv4.a_b_c_d 192 168 5 2) true true None
    [("authentication", JObj [("admin_username", JStr "admin"); ("admin_password_hash", JStr admin_hash)]);
     ("integration", JObj [("wazuh_enabled", JBool false); ("wazuh_host", JNull)])].
Definition toy_dump_entry (e : AllowlistEntry) : list (string * json) := [("id", JStr (al_id e))].
Definition toy_dump_event (e : SecurityEvent) : list (string * json) := [("subsystem", JStr (ev_subsystem e))].

(** A core that answers everything a client method can read, and one whose
    event log is out of order. *)
Definition toy_entry : AllowlistEntry :=
  mk_allow "e1" (IPv4.host (IPv4.a_b_c_d 192 168 5 77)) None None "printer" 0 "admin" None.
Definition toy_event : SecurityEvent := mk_event 0 SEV_WARNING FIREWALL_ALLOW "x" None None None None.
Definition toy_call (o : RpcOperation) (params : list (string * json)) : M nat response := λ n,
  (Ok (mk_response true (match o with
     | ADD_ALLOWLIST_ENTRY => Some (DEntry toy_entry (Some ("printer", Some "generated")))
     | RECORD_EVENT | KILL_SWITCH => Some (DEvent toy_event)
     | SET_GUARD_MODE | GET_GUARD_MODES => Some (DGuardModes (mk_guard_modes [] 0))
     | _ => None
     end) None), S n).
Definition deaf_call (o : RpcOperation) (params : list (string * json)) : M nat response := λ n,
  if bool_decide (o = RECORD_EVENT) then (Raise (RpcError "timed out"), n) else toy_call o params n.

Definition from_pc (r : api_route) (token : option string) : api_request := mk_api_request r (Some "192.168.5.2") (Some "192.168.5.1") None token.
Definition at_second (t : Z) : api_draws := mk_api_draws (seconds t) (seconds t) "tok" "e1".

(** A day: a wrong password, a sign-in, a guard enforced with the password, the
    same without it, a stranger with the token, the sign-out, and the token
    again. *)
Definition api_day : list (api_request * api_draws) :=
  [(from_pc (Login (Some (mk_login_request "admin" "guess"))) None, at_second 1);
   (from_pc (Login (Some (mk_login_request "admin" "s3cret"))) None, at_second 2);
   (from_pc (SetGuardMode (Some RAW) (Some (mk_guard_request ENFORCE (Some "s3cret")))) (Some "tok"), at_second 3);
   (from_pc (SetGuardMode (Some RAW) (Some (mk_guard_request ENFORCE None))) (Some "tok"), at_second 4);
   (mk_api_request KillSwitch (Some "192.168.5.9") (Some "192.168.5.1") None (Some "tok"), at_second 5);
   (mk_api_request KillSwitch (Some "192.168.5.2") (Some "192.168.5.1") (Some "Bearer tok") None, at_second 6);
   (from_pc Logout (Some "tok"), at_second 7);
   (from_pc KillSwitch (Some "tok"), at_second 8);
   (from_pc Health None, at_second 9)].
Notation toy_run := (run_api toy_scrypt id toy_dump_entry toy_dump_event toy_call toy_config).
Definition requests : list (api_request * api_draws) → list api_event := map (λ x, Serve x.1 x.2).
Definition api_trace : list served := ar_served (toy_run (requests api_day) 0%nat).

Example api_day_answers : (λ x, (ht_status (sv_response x), (sv_calls x).*1)) <$> api_trace =
  [(401, [RECORD_EVENT]); (200, []); (200, [SET_GUARD_MODE]); (422, []); (403, []); (200, [KILL_SWITCH]); (200, []); (401, []); (200, [])].
Proof. vm_compute. reflexivity. Qed.

Lemma api_calls_are_authorised_witness :
  match api_trace !! 2%nat with
  | Some x => authorised toy_scrypt toy_config api_trace 2 x SET_GUARD_MODE
                [("guard", JStr "raw"); ("mode", JStr "enforce"); ("actor", JStr "admin")]
  | None => False
  end.
Proof.
  destruct (api_trace !! 2%nat) as [x|] eqn:Hx.
  - apply (proj1 (api_calls_are_authorised toy_scrypt id toy_dump_entry toy_dump_event toy_call toy_config (requests api_day) 0%nat) 2%nat x); [exact Hx|].
    vm_compute in Hx. apply (f_equal (from_option sv_calls [])) in Hx. cbn in Hx. rewrite <- Hx. left.
  - vm_compute in Hx. discriminate.
Defined.

(** ** A user name the login route cannot compare

    [Authenticator.login] is documented to raise [AuthenticationError] on any
    mismatch.  [hmac.compare_digest] refuses a string outside ASCII with a
    [TypeError]: the answer is a 500, the attempt is not counted by the
    throttle and no audit event is recorded. *)
Definition accented : string := String (ascii_of_nat 195) (String (ascii_of_nat 169) "").
Definition accented_login : served * api_state (C := nat) :=
  serve_request toy_scrypt id toy_dump_entry toy_dump_event toy_call toy_config
    (from_pc (Login (Some (mk_login_request accented "guess"))) None) (at_second 1) (new_api toy_config 0%nat).
Example non_ascii_username_is_not_counted :
  ht_status (sv_response accented_login.1) = 500 ∧ sv_calls accented_login.1 = [] ∧ accented_login.2 = new_api toy_config 0%nat.
Proof. vm_compute. done. Qed.

(** ** A password that is generated and lost

    The route promises the generated portal password in its answer, "the only
    chance to record it".  The audit event is recorded after the entry was
    added: when that second call fails, the entry and the account exist, the
    answer is a 503 and the password is gone. *)
Definition entry_body : AllowlistCreateRequest :=
  mk_allowlist_request (IPv4.host (IPv4.a_b_c_d 192 168 5 77)) None None None "printer" "s3cret" (Some "printer").
Definition deaf_day : list served :=
  ar_served (run_api toy_scrypt id toy_dump_entry toy_dump_event deaf_call toy_config
    (requests [(from_pc (Login (Some (mk_login_request "admin" "s3cret"))) None, at_second 2);
               (from_pc (AddAllowlistEntry (Some entry_body)) (Some "tok"), at_second 3)]) 0%nat).
Example generated_password_is_lost :
  (λ x, (ht_status (sv_response x), (sv_calls x).*1)) <$> deaf_day = [(200, []); (503, [ADD_ALLOWLIST_ENTRY; RECORD_EVENT])] ∧
  ∃ r n, deaf_call ADD_ALLOWLIST_ENTRY [] 0%nat = (Ok r, n) ∧ rs_data r = Some (DEntry toy_entry (Some ("printer", Some "generated"))).
Proof. split; [vm_compute; reflexivity|]. by exists (mk_response true (Some (DEntry toy_entry (Some ("printer", Some "generated")))) None), 1%nat. Qed.

(** ** A stream that outlives its session

    Signing out "invalidates the session" (docs/API.md), and the stream's
    access control is said to be that of every other endpoint.  Only the opening
    request is authenticated: the stream goes on reading the audit trail after
    the sign-out, and after the session has expired. *)
Definition stream_day : list api_event :=
  requests [(from_pc (Login (Some (mk_login_request "admin" "s3cret"))) None, at_second 2);
            (from_pc StreamEvents (Some "tok"), at_second 3)] ++
  [PollStream 0] ++ requests [(from_pc Logout (Some "tok"), at_second 4); (from_pc ListEvents (Some "tok"), at_second 5)] ++ [PollStream 0; PollStream 0].
Example stream_outlives_its_session :
  let r := toy_run stream_day 0%nat in
  (λ x, (ht_status (sv_response x), (sv_calls x).*1)) <$> ar_served r = [(200, []); (200, []); (200, []); (401, [])] ∧
  po_calls <$> ar_polled r = [[(LIST_EVENTS, [])]; [(LIST_EVENTS, [])]; [(LIST_EVENTS, [])]].
Proof. vm_compute. done. Qed.

(** ** A stream *)

Definition toy_log : list (string * nat) := [("a", 1%nat); ("b", 2%nat); ("c", 3%nat); ("d", 4%nat)].
Lemma toy_log_ids : NoDup (fst <$> toy_log).
Proof. apply (bool_decide_unpack _). vm_compute. exact I. Qed.
Lemma toy_gapless : gapless toy_log 0 2 [inl "down"; inr (window toy_log 1 4)] 4.
Proof. apply gapless_error, gapless_window; [lia|lia|]. apply gapless_nil. Qed.
Lemma stream_delivers_each_event_once_witness :
  delivered (event_source fst [inl "starting"; inr (window toy_log 0 2); inl "down"; inr (window toy_log 1 4)] new_stream) = toy_log.
Proof.
  exact (stream_delivers_each_event_once fst toy_log 0 2 ["starting"] [inl "down"; inr (window toy_log 1 4)] 4 toy_log_ids (Nat.le_0_l 2) toy_gapless).
Defined.

(** * The captive portal's pages, run *)

From S2P Require Import PortalWeb.
Local Open Scope Z_scope.

Definition toy_pages : PortalPages := mk_portal_pages "Home & Lab" "" 30.
Definition hostile : string := "<script>alert('x')</script>".

Lemma pages_keep_their_markup_witness :
  markup (render_login_page "" "net" hostile true "") = markup (render_login_page "" "net" "plain" true "") ∧
  markup (render_blocked_page "" "net" hostile) = markup (render_blocked_page "" "net" "plain").
Proof.
  split.
  - apply (proj1 (pages_keep_their_markup "" "") "net" "net" hostile "plain" true "" ""); split; intros H; discriminate || exact H.
  - exact (proj1 (proj2 (pages_keep_their_markup "" "")) "net" "net" hostile "plain").
Defined.

(** A form as a browser sends it: percent digits for the bytes of an accented
    letter and for a plus sign, a plus sign for a space. *)
Definition accent : list ascii := [ascii_of_nat 195; ascii_of_nat 169].
Definition form_password : list ascii := accent ++ string_to_list "+ 1".
Lemma form_password_encoded : form_encoded form_password (string_to_list "%C3%A9%2B+1").
Proof. repeat first [apply enc_nil | apply enc_space | apply enc_digits; [reflexivity|reflexivity|reflexivity|] | apply enc_plain; [reflexivity|]]. Qed.
Lemma bob_encoded : form_encoded (string_to_list "bob") (string_to_list "bob").
Proof. repeat first [apply enc_plain; [reflexivity|] | apply enc_nil]. Qed.
Lemma identity_decoder : decoder_law id.
Proof. by intros l _. Qed.
Lemma credentials_round_trip_witness :
  _read_credentials id (codes_of (form_body (string_to_list "bob") (string_to_list "%C3%A9%2B+1"))) = ("bob", string_of_list form_password).
Proof.
  apply (credentials_round_trip id (string_to_list "bob") form_password); [exact identity_decoder|reflexivity|reflexivity|exact bob_encoded|exact form_password_encoded|].
  apply Nat.leb_le. reflexivity.
Defined.

(** ** A warning that is not shown

    [portal_status] degrades to an empty answer, "so an unreachable core cannot
    accidentally suppress the demo-account warning": a missing key reads as
    off, and off is no warning.  A network with demo accounts whose core
    answers the keepalive and not the status serves the page without it. *)
Definition demo_core (answers_status : bool) (o : RpcOperation) (params : list (string * json)) : M unit response := λ w,
  match o with
  | PORTAL_KEEPALIVE => (Ok (mk_response true (Some (DClientState (mk_client_state UNAUTHENTICATED None 0 0 None ""))) None), w)
  | PORTAL_STATUS =>
      if answers_status then (Ok (mk_response true (Some (DPortalStatus (mk_portal_status true true "" 3600 30))) None), w)
      else (Raise (RpcError "failed to reach pirewall-core at /run/pirewall/portal.sock: timed out"), w)
  | _ => (Raise (RpcError "failed to reach pirewall-core at /run/pirewall/portal.sock: timed out"), w)
  end.
Definition page_of (x : portal_http * unit * list (RpcOperation * list (string * json))) : Z * string :=
  (ph_status x.1.1, match ph_body x.1.1 with PHtml h => h | _ => "" end).
Definition open_page (answers_status : bool) : Z * string :=
  page_of (portal_serve "" "" id toy_pages (demo_core answers_status) (mk_portal_request (PLoginPage "") (Some "192.168.5.20") None) tt).
Example demo_warning_is_suppressed :
  open_page true = (200, render_login_page "" "Home & Lab" "" true "") ∧ open_page false = (200, render_login_page "" "Home & Lab" "" false "") ∧
  Json.contains "Demo accounts are active" (open_page true).2 = true ∧ Json.contains "Demo accounts are active" (open_page false).2 = false.
Proof. vm_compute. done. Qed.

(** ** An unreachable core, on the sign-in page

    The route says that every [RpcError] of a sign-in carries a message the
    core decided the client may see.  The transport raises the same exception:
    the LAN client is shown the path of the socket, with a 401. *)
Definition signed_in : Z * string :=
  page_of (portal_serve "" "" id toy_pages (demo_core false) (mk_portal_request (PLogin (codes_of (form_body (string_to_list "bob") (string_to_list "x"))))
    (Some "192.168.5.20") None) tt).
Example transport_error_is_shown : signed_in.1 = 401 ∧ Json.contains "/run/pirewall/portal.sock" signed_in.2 = true.
Proof. vm_compute. done. Qed.
