(* ===== verification/StartupRun.v ===== *)
(** * A host's own addresses and its routes, run *)

From S2P Require Import Prelude Float Net Hex Models Flow Parser Pcap RateLimiter Sets SetBackend FakeSets Backend Validator Manager Bindings HostAddrs Fixtures.
Local Open Scope Z_scope.

(** A dump of [/proc/net/fib_trie], cut to one address of each kind *)
Definition line_end : text := [10].
Definition trie_text : text :=
  of_string "Main:" ++ line_end ++
  of_string "  +-- 192.168.5.0/24 2 0 2" ++ line_end ++
  of_string "     |-- 192.168.5.1" ++ line_end ++
  of_string "        /32 host LOCAL" ++ line_end ++
  of_string "     |-- 192.168.5.255" ++ line_end ++
  of_string "        /32 link BROADCAST" ++ line_end ++
  of_string "     |-- 192.168.5.0" ++ line_end ++
  of_string "        /24 link UNICAST" ++ line_end.

Example trie_read : _parse_fib_trie trie_text = sample_local.
Proof. vm_compute. reflexivity. Qed.

Lemma trie_tagged : tagged says_local (split_lines [] trie_text) (IPv4.a_b_c_d 192 168 5 1).
Proof.
  exists 2%nat, (of_string "     |-- 192.168.5.1"), (of_string "        /32 host LOCAL"). vm_compute. done.
Qed.

Definition own_target : RuleTarget := mk_target (IPv4.a_b_c_d 192 168 5 1) None.
(** The file is there from the first second on; the validator asked at second 3
    and asks again at second 12, within the cache's lifetime. *)
Definition trie_file (t : Z) : option text := if 0 <=? t then Some trie_text else None.
Definition trie_local : LocalAddresses :=
  (cached_local_addresses (trie_file (seconds 12)) (seconds 12) (queries trie_file [seconds 3] new_cache).2).1.
Lemma own_addresses_are_never_targeted_witness :
  so_approved (validate_set_candidate block_candidate (Some own_target) (sample_config MODE_ACTIVE) ["d1"] [] [] (new_limiter 10 60) 0 trie_local).1 = false.
Proof.
  apply (own_addresses_are_never_targeted trie_file [seconds 3] (seconds 12) (IPv4.a_b_c_d 192 168 5 1)); [| | |reflexivity|reflexivity].
  - repeat constructor; vm_compute; discriminate.
  - intros s Hs. exists trie_text. split; [|left; exact trie_tagged]. unfold trie_file. assert (Hz : 0 <= s) by (unfold seconds, _CACHE_TTL_SECONDS in Hs; lia).
    apply Z.leb_le in Hz. by rewrite Hz.
  - split; vm_compute; [discriminate|reflexivity].
Defined.

(** ** The start-up check that may raise

    [check_network_drift] is documented as never raising and never blocking
    startup.  An interface whose name is not ASCII, which Linux allows, is
    listed in [/proc/net/route]: reading the file as ASCII raises
    [UnicodeDecodeError], which only a handler of [OSError] surrounds. *)
Definition drift_config : DriftConfig := mk_drift_config "eth0" "eth1" (sample_config MODE_ACTIVE) None None.
Definition route_header : list Z := of_string "Iface	Destination	Gateway" ++ line_end.
Definition accented_kernel : Kernel :=
  mk_kernel (Some (route_header ++ [195; 169] ++ of_string "0	00000000	0100000A" ++ line_end)) (Some []) (λ _, None) (λ _, None).
Example drift_check_raises : check_network_drift accented_kernel drift_config = Raise (ValueError "'ascii' codec can't decode byte").
Proof. vm_compute. reflexivity. Qed.

(** The same table with an ASCII name is read. *)
Definition plain_kernel : Kernel :=
  mk_kernel (Some (route_header ++ of_string "eth0	00000000	0100000A" ++ line_end)) (Some ["eth1"])
    (λ i, if String.eqb i "eth1" then Some (IPv4.a_b_c_d 192 168 5 1) else None)
    (λ i, if String.eqb i "eth1" then Some (IPv4.a_b_c_d 255 255 255 0) else None).
Example live_addresses_are_silent : check_network_drift plain_kernel drift_config = Ok [].
Proof. vm_compute. reflexivity. Qed.

Lemma plain_kernel_sane : sane plain_kernel.
Proof.
  split.
  - intros bs [= <-]. apply (bool_decide_unpack _). vm_compute. exact I.
  - intros bs [= <-]. set (rows := split_lines [] _). vm_compute in rows. subst rows.
    apply Forall_cons; split; [|apply Forall_cons; split; [|apply Forall_nil; exact I]].
    all: unfold row_ok; set (fields := split_fields [] _); vm_compute in fields; subst fields; cbv beta iota.
    + intros Hd. vm_compute in Hd. discriminate.
    + intros _ n Hn. vm_compute in Hn. injection Hn as <-. lia.
  - intros i m. cbn. destruct (String.eqb i "eth1"); [|done]. intros [= <-]. exists 24. done.
Qed.
Lemma drift_check_answers_witness : ∃ ws, check_network_drift plain_kernel drift_config = Ok ws.
Proof. exact (drift_check_answers plain_kernel drift_config plain_kernel_sane). Defined.

(** * A bring-up

    A configuration ready to launch, the sample leases, and one template: the
    theorems on the deployment scripts at concrete inputs. *)

From S2P Require Import AllowlistStore Lifecycle Reachable BindingSync LeaseSync Thresholds Watch Runtime Templates Startup Config.
Local Open Scope Z_scope.

(** ** Preflight *)

Definition ready_config : PreflightConfig :=
  mk_preflight_config ENGINE_V2 MODE_SHADOW T_missing (Ok []) (Some device_mac) (Some "eth1") "wlan0" None (Some ("ab12", inr (Some "ab12"))).
Definition quiet_probe : SystemProbe :=
  mk_probe (Some true) (Some (of_string "# flush ruleset")) (λ _, Some true) true true true (true, true) true.
Definition ready_findings : list Finding :=
  match preflight (λ _, "") ready_config None (Some DATA_LIVE) quiet_probe with Ok l => l | Raise _ => [] end.

(** The SHADOW run on a Pi is let through, with a warning about thresholds. *)
Lemma preflight_passes_iff_witness : launchable (λ _, "") ready_config None (Some DATA_LIVE) quiet_probe.
Proof.
  apply (preflight_passes_iff (λ _, "") ready_config None (Some DATA_LIVE) quiet_probe ready_findings); vm_compute; reflexivity.
Defined.

(** The same with the comment sign gone: the service would flush the tables. *)
Example flushing_service_is_refused :
  let p := mk_probe (Some true) (Some (of_string " flush   ruleset # at boot")) (λ _, Some true) true true true (true, true) true in
  none_refuses (match preflight (λ _, "") ready_config None (Some DATA_LIVE) p with Ok l => l | Raise _ => [] end) = false.
Proof. vm_compute. reflexivity. Qed.

(** ** Seed and guards *)

Definition all_enforce : requested_modes := λ _, ENFORCE.
Definition empty_store : AllowlistStore := AllowlistStore.mk_store [] None true.
Definition brought_up (file : lease_file) : option (FirewallManager FakeSetBackend FakeFirewallBackend) :=
  match startup_seed sample_net "leases" empty_table file 0 (build_manager (sample_config MODE_SHADOW) new_fake_backend empty_store sample_kernel sample_local) with
  | (Ok seeded, _, m1) =>
      match set_guards all_enforce seeded 1 (build_manager (sample_config MODE_SHADOW) new_fake_backend empty_store (kernel_or m1) sample_local) with
      | (Ok _, m2) => Some m2
      | _ => None
      end
  | _ => None
  end.
Definition raw_guard (o : option (FirewallManager FakeSetBackend FakeFirewallBackend)) : option GuardMode :=
  m ← o; b ← m_sets m; kv_guard (sb_view b) RAW.

(** With a readable lease file the raw guard enforces; without, it observes. *)
Example raw_guard_waits_for_the_seed :
  raw_guard (brought_up (inr (50, sample_leases))) = Some ENFORCE ∧ raw_guard (brought_up (inl "No such file")) = Some OBSERVE.
Proof. vm_compute. split; reflexivity. Qed.

Lemma bring_up_enforces_only_over_bindings_witness :
  ∃ seeded t' m1 b1,
    startup_seed sample_net "leases" empty_table (inr (50, sample_leases)) 0
      (build_manager (sample_config MODE_SHADOW) new_fake_backend empty_store sample_kernel sample_local) = (Ok seeded, t', m1) ∧
    m_sets m1 = Some b1 ∧
    ∀ events m2, set_guards all_enforce seeded 1 (build_manager (sample_config MODE_SHADOW) new_fake_backend empty_store b1 sample_local) = (Ok events, m2) →
      ∃ b2, m_sets m2 = Some b2 ∧ (kv_guard (sb_view b2) RAW = Some ENFORCE → mirrors (sb_view b2) (snapshot t')).
Proof.
  destruct (bring_up_enforces_only_over_bindings (sample_config MODE_SHADOW) new_fake_backend empty_store sample_local sample_net "leases" empty_table
    (inr (50, sample_leases)) 0 all_enforce 1 sample_kernel empty_table_wf) as (seeded & t' & m1 & b1 & Hs & Hb & Hg).
  exists seeded, t', m1, b1. split; [exact Hs|]. split; [exact Hb|]. intros events m2 H2.
  destruct (Hg events m2 H2) as (b2 & Hb2 & _ & _ & Hm). exists b2. split; [exact Hb2|exact Hm].
Defined.

(** ** Templates *)

Definition meter : MeterSetting := mk_meter 100 200.
Definition sample_guards : GuardsConfig :=
  mk_guards OBSERVE OBSERVE ENFORCE meter meter meter meter meter meter meter meter meter meter meter meter meter meter meter meter 8 meter 256 256 256 256 64.
Definition sample_templates : TemplateConfig := mk_template_config (sample_config MODE_SHADOW) "eth0" "wlan0" (Some "eth1") 8443 8080 sample_guards.
Definition lan_template : template := mk_template "deploy/network/a.nft.template" "a.nft" "iifname ${LAN_INTERFACE} $x".
Definition odd_template : template := mk_template "deploy/network/b.nft.template" "b.nft" "${NO_SUCH_NAME}".

Lemma rendering_is_all_or_nothing_witness :
  render_all sample_templates [Some [lan_template]; None] = Ok [("a.nft", "iifname wlan0 $x")] ∧
  ∃ msg, render_all sample_templates [Some [lan_template; odd_template]; None] = Raise (ConfigurationError msg).
Proof.
  split.
  - rewrite (proj1 (rendering_is_all_or_nothing sample_templates [Some [lan_template]; None])); [vm_compute; reflexivity|].
    apply (bool_decide_unpack _). vm_compute. exact I.
  - destruct (proj1 (proj2 (rendering_is_all_or_nothing sample_templates [Some [lan_template; odd_template]; None]))) as (msg & H & _).
    + apply (bool_decide_unpack _). vm_compute. exact I.
    + exists msg. exact H.
Defined.

(** * A configuration file

    A document with every required field, the conversions on plain values,
    and what loading it gives. *)

Local Open Scope Z_scope.

Definition plain_values : pydantic := mk_pydantic
  (λ v, match v with TStr s => Some s | _ => None end)
  (λ v, match v with TInt n => Some n | _ => None end)
  (λ v, match v with TFloat x => Some x | TInt n => Some (float_of_Z n) | _ => None end)
  (λ v, match v with TBool b => Some b | _ => None end)
  (λ v, match v with TStr s => IPv4.parse s | _ => None end)
  (λ v, match v with TStr s => if bool_decide (s = "192.168.5.0/24") then Some sample_net else None | _ => None end)
  (λ _, None)
  (λ x b, fle b x) (λ x b, flt b x) fle (λ s, Z.of_nat (String.length s)) (λ _, "id").
#[global] Instance plain_values_laws : PydanticLaws plain_values.
Proof.
  split; cbn; try done.
  - intros [] a; try done. apply IPv4.parse_valid.
  - intros [] net; try done. case_bool_decide; [|done]. intros [= <-]. apply (sample_config_wf MODE_SHADOW).
Qed.

Definition admin_section : toml := TTab [("admin_pc_ip", TStr "192.168.5.10"); ("admin_pc_mac", TStr "02-00-00-00-00-0A")].
Definition sample_document (admin : toml) (threat : toml) : table :=
  [("network", TTab [("wan_interface", TStr "eth0"); ("lan_interface", TStr "wlan1"); ("protected_network", TStr "192.168.5.0/24");
                     ("upstream_gateway", TStr "10.0.0.1"); ("pirewall_lan_ip", TStr "192.168.5.1")]);
   ("capture", TTab [("interface", TStr "wlan1")]); ("flow", TTab []); ("features", TTab []); ("detection", TTab []);
   ("ml", TTab [("lightgbm_model_path", TStr "a"); ("isolation_forest_model_path", TStr "b")]); ("threat", threat); ("firewall", TTab []);
   ("api", TTab [("tls_cert_path", TStr "c"); ("tls_key_path", TStr "k")]);
   ("authentication", TTab [("admin_username", TStr "admin"); ("admin_password_hash", TStr "h")]); ("admin", admin); ("logging", TTab []);
   ("integration", TTab []); ("security", TTab []); ("failure", TTab [])].

Definition admin_mac_of (r : result Settings) : option Mac.t := match r with Ok s => adm_admin_pc_mac (st_admin s) | Raise _ => None end.
Definition lease_file_of (r : result Settings) : string := match r with Ok s => an_lease_file (st_antispoof s) | Raise _ => "" end.

Lemma loaded_configuration_is_sound_witness :
  let r := load_config plain_values "c.toml" (CDocument (sample_document admin_section (TTab []))) in
  match r with Ok s => loaded_ok s | Raise _ => False end ∧
  admin_mac_of r = Some "02:00:00:00:00:0a" ∧ lease_file_of r = "/var/lib/NetworkManager/dnsmasq-wlan1.leases".
Proof.
  cbv zeta. split; [|vm_compute; split; reflexivity].
  pose proof (loaded_configuration_is_sound plain_values (laws := plain_values_laws) "c.toml" (CDocument (sample_document admin_section (TTab [])))) as H.
  assert (Hok : match load_config plain_values "c.toml" (CDocument (sample_document admin_section (TTab []))) with Ok _ => True | Raise _ => False end)
    by (vm_compute; exact I).
  destruct (load_config plain_values "c.toml" (CDocument (sample_document admin_section (TTab [])))) as [s|e]; [exact (proj1 H)|exact Hok].
Defined.

(** Without the Admin PC's address, with thresholds out of order, or with a
    field that is not there, the file is refused. *)
Example refused_documents :
  let load admin threat := load_config plain_values "c.toml" (CDocument (sample_document admin threat)) in
  let refused := Raise (ConfigurationError "invalid configuration in c.toml") in
  load (TTab []) (TTab []) = refused ∧ load admin_section (TTab [("low_threshold", TInt 60)]) = refused ∧
  load admin_section (TTab [("low_treshold", TInt 20)]) = refused.
Proof. vm_compute. split_and!; reflexivity. Qed.
